(* ===== verification/_CoqProject ===== *)
-Q . S2P
Prelude.v
RustText.v
Ord.v
Utf8.v
Types.v
Framing.v
Varint.v
PluginWire.v
CoreWire.v
CoreSession.v
CoreAgreement.v
ManifestJson.v
ManifestJsonFacts.v
ManifestJsonPrint.v
PluginManifest.v
PluginManifestFacts.v
PermissionDiff.v
ReviewedAdmission.v
BrokerFoundation.v
BrokerFacts.v
PluginHost.v
PluginHostFacts.v
Events.v
AssetDomain.v
CreativeDomain.v
Ports.v
CommandLedger.v
CreativeStore.v
StoreScenario.v
StoreFrame.v
StoreSteps.v
CreativeReplay.v
CreativeEvents.v
CreativeTakes.v
CreativeTransitions.v
AssetStore.v
AssetCommands.v
CommandRows.v
AssetLedger.v
AssetScenario.v
AssetHistory.v
AssetSequences.v
StartupRecovery.v
StartupFacts.v
AppRuntime.v
IngestService.v
ServiceRules.v
IngestFacts.v
AssetQuery.v
AssetListing.v
AssetInspect.v
InspectBudget.v
AssetCursors.v
CursorFacts.v
MaterializeService.v
MaterializeFacts.v
CreativeJson.v
CreativeQuery.v
CreativeSound.v
CreativeVerified.v
CreativeService.v
CreativeRequests.v
CreativePaging.v
CreativeLists.v
Lifecycle.v
LifecycleFacts.v
Intents.v
RootFs.v
MigrationSnapshot.v
MigrationFacts.v
MigrationRuns.v
MigrationRecovery.v
Integrity.v
IntegrityFacts.v
Verification.v
VerificationFacts.v
VerificationReports.v
LogRecords.v
LibraryConfig.v
DaemonConfig.v
