(* ===== verification/Prelude.v ===== *)
(** * MengXia: a verification library

    MengXia is a local media library with a daemon.  Clients talk to the core over
    length-delimited protobuf frames; commands are checked by a domain layer and
    committed by a single SQLite writer, which keeps a durable ledger of command
    identities and an append-only event log; plugins run in separate processes and
    speak a second, stricter framed protocol.

    ** Files and what they model (paths under src/crates)

    - [Prelude], [RustText], [Ord], [Utf8]: results and the [?] operator, machine
      integers with their wrap-around or checked operations, big-endian bytes, text
      predicates, decimal and hexadecimal text, Rust's [Ord], stable sorting and
      [BTreeSet] collection, UTF-8 validity and encoding, and the tactics and lemmas
      the other files share.
    - [Types]: mengxia-types (error.rs, digest.rs, id.rs, revision.rs,
      timestamp.rs).  One module per value type.
    - [Framing]: mengxia-framing.  A reader is the bytes still to come and how the
      stream ends; a writer is what was written and how much the transport takes.
    - [Varint]: the two varint readers of the plugin and the core protocol.
    - [PluginWire]: mengxia-plugin-proto.  Module [Wire] is wire.rs (the validator
      that runs before Prost), module [Codec] is codec.rs.
    - [CoreWire]: the preflight scanner of mengxia-core-proto, an explicit stack
      machine.
    - [CoreSession]: the handshake of mengxia-core-proto/src/lib.rs and the sessions
      of session.rs, both ends, over a stream monad: one definition per function,
      with the peer credential, the fresh identity and the deadline as arguments.
    - [CoreAgreement]: the theorems about [CoreSession].
    - [ManifestJson]: the bounded JSON reader of mengxia-plugin-package
      (manifest.rs), a parser monad with the node counter as state;
      [ManifestJsonFacts] and [ManifestJsonPrint]: what it accepts and reads back.
    - [PluginManifest]: the typed manifest of the same file and of dependency.rs, its
      canonical print and [inspect_manifest]; [PluginManifestFacts]: the theorems.
    - [PermissionDiff], [ReviewedAdmission], [BrokerFoundation]:
      mengxia-plugin-security (permission_diff.rs, reviewed_admission.rs,
      broker_foundation.rs); [BrokerFacts]: the theorems about broker reads.
    - [PluginHost]: mengxia-plugin-host.  The session is a step relation over the
      driver ([driver_step]: run_session, one [select!] or commit at a time), the
      calls of ping and shutdown ([caller_step]) and the shared flags, interleaved
      freely; [PluginHostFacts]: the theorems.
    - [Events]: mengxia-events, the tagged payload encoding.
    - [AssetDomain], [CreativeDomain]: mengxia-domain (asset.rs, creative.rs).
    - [Ports]: mengxia-ports: operation identifiers, command bindings and the
      fixed-width stored result ([VersionedResultPayload]).
    - [CommandLedger]: the commands table of mengxia-store-sqlite
      (asset_repository.rs): [validate_command_row] and the rows the writer stores.
    - [CreativeStore]: creative_repository.rs.  [Store] is the content of the
      tables; one definition per statement and per command; [execute] is the unit of
      work, [after] and [run] the store after one and after many commands, with a
      failed command rolled back.
    - [StoreScenario]: a concrete environment and history on which the store's
      theorems are evaluated.
    - [StoreFrame]: the frame relation [grows] of every statement and the effect of
      every command on the ledger.
    - [StoreSteps]: inversion of every statement and the tactic [crunch] that
      symbolically executes a command.
    - [CreativeReplay], [CreativeEvents], [CreativeTakes], [CreativeTransitions]: the theorems about the unit of work.
    - [AssetStore], [AssetCommands]: the asset side of the writer
      (asset_repository.rs).  [Library] adds the asset tables to [Store]; one
      definition per request type, statement and operation.
    - [CommandRows], [AssetLedger]: which ledger rows validate, and the effect of each
      asset operation on the ledger; [AssetHistory]: histories of them;
      [AssetSequences]: the revision counters; [AssetScenario]: a concrete history.
    - [StartupRecovery]: the paged classification of interrupted commands in
      asset_repository.rs and the loop of mengxia-app/src/asset_persistence.rs over
      it, a state monad with the caller's control and the clock as parameters;
      [StartupFacts]: its theorems.
    - [AppRuntime]: the writer behind its admission gate and the claim guards, as the
      services of mengxia-app see them: a state monad over the library, the phase of
      the runtime, the guard and a clock of calls at which other sessions act.
      [ServiceRules]: the rules by which their executions are reasoned about.
    - [IngestService]: mengxia-app/src/ingest.rs; [IngestFacts]: its theorems.
    - [MaterializeService]: mengxia-app/src/materialize.rs with the guards of
      asset_persistence.rs; [MaterializeFacts]: its theorem.
    - [AssetQuery], [AssetInspect]: mengxia-store-sqlite/src/asset_query.rs (listing,
      resolving a member, and inspection as a monad that counts its SELECT
      statements) with the request and page types of mengxia-ports;
      [AssetListing], [InspectBudget]: their theorems.
    - [AssetCursors]: mengxia-app/src/asset_query.rs, the opaque cursors and the query
      service; [CursorFacts]: its theorems.
    - [CreativeJson]: the bounded canonical JSON of mengxia-app/src/creative.rs, as a
      visitor over the calls serde_json makes, and its theorems.
    - [CreativeQuery]: mengxia-store-sqlite/src/creative_query.rs, the four lists (one
      scheme, [list_rows], with a join, a key and a view each) and the check that
      opening a library runs on its creative tables.
    - [CreativeSound], [CreativeVerified]: the invariant of the creative tables, that
      it passes that check and that every command preserves it.
    - [CreativeService]: the rest of creative.rs: canonical request bytes, the ten
      command operations with the command constructors of mengxia-ports, cursors and
      the query service; [CreativeRequests]: what a request digest binds.
    - [CreativePaging], [CreativeLists]: paging over a growing table,
      how the listed tables grow and that their rows can be shown, and the lists
      followed by their cursors.
    - [Lifecycle]: the runtime of mengxia-store-sqlite/src/lifecycle.rs: the admission
      gate, the writer queue, the read slots and the worker threads as program
      counters; every critical section is one step of a relation, and what the jobs do
      is arbitrary.  [LifecycleFacts]: its theorems.
    - [Intents]: intent.rs and migration_intent.rs of the same crate, the records of the
      bootstrap and the migration, and their theorem.
    - [RootFs]: the library root as mengxia-platform-fs (lib.rs) sees it: a directory and
      files that each have a current and a durable state, the calls that change them
      with a fault possible at each, what a crash may leave, and the security checks of
      the files.
    - [MigrationSnapshot]: mengxia-platform-fs/src/migration_snapshot.rs and
      [prepare_migration_snapshot] of lifecycle.rs over it; [MigrationFacts] (the
      invariant and the classification of the directory), [MigrationRuns] (what every
      step of a run preserves under faults) and [MigrationRecovery] (histories of
      interrupted runs and crashes): their theorems.
    - [Integrity]: the integrity issues of mengxia-ports and the report owner of
      mengxia-app/src/verification.rs; [IntegrityFacts]: that reports are faithful and
      can be read by their cursors.
    - [Verification]: mengxia-store-sqlite/src/verification.rs and the service of
      mengxia-app/src/verification.rs, over a library that may change between two pages;
      [VerificationFacts] (pages, termination, undisturbed runs) and
      [VerificationReports] (the theorems in terms of the tables).
    - [LogRecords]: the log of mengxia-app/src/observability.rs: the records and their
      matrix, the line, and the sink with its bounded queue and writer thread as a step
      relation in which any write may fail; the text of an instant (timestamp.rs).
    - [LibraryConfig]: mengxia-app/src/config.rs, the configuration document and the
      settings parsed from their bytes.
    - [DaemonConfig]: how bins/mengxiad/src/main.rs and bins/mengxia/src/main.rs select
      and check their settings (command line, environment, library configuration,
      defaults), with the validators of the store, of the blob storage and of the
      runtime endpoint, and the parts of [std::path] they use.

    ** What the theorems show

    The store: answered commands are idempotent across any later history and their
    identities cannot be reused; the event log is append-only and gap-free, and only
    applied commands write to it; rejections touch only the ledger, except that of a
    revising command when the event sequences, and not its own revision, are exhausted,
    which is stated and proved; takes keep at most one selection and unique
    ordinals per work revision, move only along the state machine and never leave a
    terminal state; an applied transition is characterised completely; a transition
    that would give a take a second TAKE_SUPERSEDES edge fails internally.  Over
    histories of asset commands the ledger stays valid, settled rows never change and
    every command is claimed and takes effect at most once; the startup
    classification ends and recovers exactly the interrupted commands.  An asset that
    was retired and restored refuses every new revision, which is stated and proved
    as the code behaves.

    The services, whatever fails and whatever asset operations other sessions execute,
    also on the same command: unless the runtime fails, an ingest and a materialization leave no claim of
    their own behind and answer what the ledger records, or are refused with nothing
    written; if it fails, a row they claimed is theirs and is left to the next startup; a
    recorded answer of an ingest is final; following the cursors of a listing yields exactly the assets
    registered when it began (as a lemma: cursors are canonical); an inspection stays
    within its statement budget.  Canonical JSON is a fixed point of its parser (as a lemma); every store the
    creative commands can reach passes the check of its tables when it is reopened; a
    command identity is bound to one request, down to its documents; and following the
    cursors of a creative list yields exactly the rows it had when it began.

    The runtime and the files: under every interleaving each job that was admitted is
    answered exactly once, a closed runtime stops and a failure is final (as
    a lemma); intent records are canonical (as a lemma); the snapshot taken before the destructive migration is exactly the
    database whenever it is published and the protocol can be resumed from every state
    that interruptions leave, except for one crash that is stated and proved.

    Verification: it always ends and leaves its owner free; its reports describe exactly
    the findings that were recorded; and an undisturbed one reports exactly what the tables and the blobs show - with two
    consequences that are stated and proved as the code behaves: content ingested twice
    is reported as fatally inconsistent, and locations recorded afterwards are never
    looked at.

    The log and the configuration: the sink accounts for every record, loses none of what
    it accepted unless a write fails, and tells so (as a lemma: a line is bounded, printable
    and determines its record); a configuration document is accepted exactly when it is
    canonical; the daemon follows the precedence of the layers, errors included, and a
    client with the same configuration agrees with it on the endpoint and the limits
    whenever its own operation timeout is legal (as a lemma: an accepted configuration is within its bounds, and the blob root never
    overlaps the library but as its [storage]).

    The protocols: both varint readers accept exactly the canonical encodings; the
    plugin validator accepts exactly the canonical messages of the schema within
    the depth bound; the core preflight agrees with recursive descent; a client and a
    daemon of the core protocol agree on the session and the daemon serves only the
    owner on an exact hello (as lemmas: frames and envelopes written are read back,
    every outcome of a read is characterised, and error envelopes are canonical).

    The domain, as lemmas: the take state machine, lowest-terms ratios, reference sets,
    and every outcome of asset revision, location recording and registration.

    Plugin packages and their security: the JSON reader never runs out of fuel,
    accepts only documents within its depth, node, string and array bounds and reads
    every such document back from its print; a manifest is accepted exactly when its
    bytes are the canonical print of a well-formed one; the permission difference of
    two packages lists exactly their changes; a review and a broker read are eligible
    exactly when their facts agree, and a broker read stays inside its lease.  A
    plugin session talks in lockstep in every interleaving and ends once cancelled
    (as a lemma: the memory of all sessions is bounded).

    The codecs, as lemmas: event payloads, stored command results, digests, revisions, error
    codes and identifiers have exactly one encoding each.

    ** Conventions

    Fallible code returns [result E A]; an early return is a match or [let?].
    Unsigned integers are [Z] with explicit bounds; [checked_add], [try_into] and
    the like carry the width.  Bytes are [Init.Byte.byte].  Loops that are not
    structural take fuel computed from their input ([scan_loop], [decode],
    [preflight], [gcd], the JSON reader's [value], the startup loops); the equivalence theorems are stated on the definitions
    with that fuel fixed and show that it never runs out.

    Code outside the repository is a parameter: the uuid and time crates
    ([UuidCrate], [TimeCrate]), Prost ([ProstMessage], [Prost]), memory allocation of the
    frame reader, SHA-256 and the acceptance of identifiers and instants
    ([StoreEnv]), the JSON-schema validator, semver and SHA-256 of the manifest
    inspection ([ManifestCrates]), serde_json and floating point ([SerdeJson]).  Theorems that need their documented behaviour take it as a class
    of laws, and their witnesses instantiate it.

    ** Not modelled

    SQLite's own failures (I/O, locking), the metrics and the health state of the observability service (fixed
    tables of saturating counters and a summary of flags), blob storage and the other
    file-system and process work of the platform crates, and the rest of the
    daemon and of the command line (process set-up, the arguments of the client, the
    conversion of messages and rendering). *)
From Stdlib Require Import ZArith Lia String Ascii Strings.Byte Init.Byte.
From stdpp Require Import prelude list gmap strings.

#[global] Open Scope Z_scope.

(** ** Results: Rust's [Result<A, E>] and the [?] operator *)

Inductive result (E A : Type) : Type :=
| Ok (a : A)
| Err (e : E).
Arguments Ok {E A} a.
Arguments Err {E A} e.

Declare Scope rust_scope.
Delimit Scope rust_scope with rust.
#[global] Open Scope rust_scope.

Definition result_bind {E A B} (c : result E A) (k : A -> result E B) : result E B :=
  match c with Ok a => k a | Err e => Err e end.

Definition map_err {E F A} (f : E -> F) (c : result E A) : result F A :=
  match c with Ok a => Ok a | Err e => Err (f e) end.

Definition ok_or {E A} (e : E) (o : option A) : result E A :=
  match o with Some a => Ok a | None => Err e end.

Definition result_ok {E A} (c : result E A) : option A :=
  match c with Ok a => Some a | Err _ => None end.

Definition is_ok {E A} (c : result E A) : bool :=
  match c with Ok _ => true | Err _ => false end.

Notation "'let?' x ':=' c 'in' k" := (result_bind c (fun x => k))
  (at level 10, x pattern, c at level 100, k at level 200,
   format "'[v' 'let?'  x  ':='  c  'in'  '/' k ']'") : rust_scope.
(** [ensure? b 'else' e 'in' k]: the early return [if !b { return Err(e) }]. *)
Notation "'ensure?' b 'else' e 'in' k" := (if b then k else Err e)
  (at level 10, b at level 100, e at level 100, k at level 200,
   format "'[v' 'ensure?'  b  'else'  e  'in'  '/' k ']'") : rust_scope.

#[global] Instance result_eq_dec {E A} `{EqDecision E, EqDecision A} : EqDecision (result E A).
Proof. solve_decision. Defined.

Lemma result_bind_ok {E A B} (c : result E A) (k : A -> result E B) (b : B) :
  result_bind c k = Ok b <-> exists a, c = Ok a /\ k a = Ok b.
Proof. destruct c; cbn; split; [eauto| |done|]; intros (a' & H & ?); by simplify_eq. Qed.

Lemma result_bind_err {E A B} (c : result E A) (k : A -> result E B) (e : E) :
  result_bind c k = Err e <-> c = Err e \/ exists a, c = Ok a /\ k a = Err e.
Proof.
  destruct c as [a0|e0]; cbn; split; [eauto| | |];
    intros H; (destruct H as [H|(?&?&?)] || idtac); simplify_eq; eauto.
Qed.

Lemma ok_or_ok {E A} (e : E) (o : option A) (a : A) : ok_or e o = Ok a <-> o = Some a.
Proof. destruct o; cbn; split; congruence. Qed.

Lemma map_err_ok {E F A} (f : E -> F) (c : result E A) (a : A) : map_err f c = Ok a <-> c = Ok a.
Proof. destruct c; cbn; split; congruence. Qed.

(** Peel one or all monadic layers off a hypothesis. *)
Ltac inv_result :=
  repeat match goal with
    | H : result_bind _ _ = Ok _ |- _ =>
        apply result_bind_ok in H; destruct H as (? & ? & H)
    | H : ok_or _ _ = Ok _ |- _ => apply ok_or_ok in H
    | H : map_err _ _ = Ok _ |- _ => apply map_err_ok in H
    | H : (if ?b then _ else Err _) = Ok _ |- _ =>
        let Hb := fresh "Hg" in destruct b eqn:Hb; [|discriminate H]
    | H : (if ?b then Err _ else _) = Ok _ |- _ =>
        let Hb := fresh "Hg" in destruct b eqn:Hb; [discriminate H|]
    | H : Ok _ = Ok _ |- _ => injection H as H; subst
    | H : Err _ = Err _ |- _ => injection H as H; subst
    | H : Ok _ = Err _ |- _ => discriminate H
    | H : Err _ = Ok _ |- _ => discriminate H
    end.

(** The check [if b { return Err(..) }] was passed: [E] records [b = false]. *)
Tactic Notation "passed" hyp(H) "as" ident(E) :=
  match type of H with
  | (if ?b then Err _ else _) = Ok _ => destruct b eqn:E; [discriminate H|]
  | (if ?b then _ else Err _) = Ok _ => destruct b eqn:E; [|discriminate H]
  end.

(** Split a conjunction of boolean guards in a hypothesis into propositions. *)
Ltac bool_hyps :=
  repeat match goal with
    | H : (_ && _)%bool = true |- _ => apply andb_true_iff in H; destruct H
    | H : (_ || _)%bool = false |- _ => apply orb_false_iff in H; destruct H
    | H : negb _ = true |- _ => apply negb_true_iff in H
    | H : negb _ = false |- _ => apply negb_false_iff in H
    | H : (_ <=? _) = true |- _ => apply Z.leb_le in H
    | H : (_ <=? _) = false |- _ => apply Z.leb_gt in H
    | H : (_ <? _) = true |- _ => apply Z.ltb_lt in H
    | H : (_ <? _) = false |- _ => apply Z.ltb_ge in H
    | H : (_ =? _) = true |- _ => apply Z.eqb_eq in H
    | H : (_ =? _) = false |- _ => apply Z.eqb_neq in H
    | H : bool_decide _ = true |- _ => apply bool_decide_eq_true in H
    | H : bool_decide _ = false |- _ => apply bool_decide_eq_false in H
    end.

(** ** Machine integers *)

Definition U8_MAX : Z := 255.
Definition U32_MAX : Z := 2^32 - 1.
Definition U64_MAX : Z := 2^64 - 1.
Definition I64_MAX : Z := 2^63 - 1.
(** [usize] on the supported 64-bit targets. *)
Definition USIZE_MAX : Z := U64_MAX.

Definition is_u32 (z : Z) : Prop := 0 <= z <= U32_MAX.
Definition is_u64 (z : Z) : Prop := 0 <= z <= U64_MAX.

(** [checked_add] of an unsigned type whose largest value is [max]. *)
Definition checked_add (max a b : Z) : option Z :=
  if a + b <=? max then Some (a + b) else None.
Definition checked_sub (a b : Z) : option Z :=
  if b <=? a then Some (a - b) else None.
Definition saturating_sub (a b : Z) : Z := Z.max 0 (a - b).
Definition saturating_add (max a b : Z) : Z := Z.min max (a + b).
(** [TryFrom] into an unsigned type whose largest value is [max]. *)
Definition try_into (max z : Z) : option Z :=
  if (0 <=? z) && (z <=? max) then Some z else None.

Lemma checked_add_Some max a b c :
  checked_add max a b = Some c <-> c = a + b /\ a + b <= max.
Proof. unfold checked_add. destruct (_ <=? _) eqn:E; bool_hyps; intuition (congruence || lia). Qed.

Lemma checked_add_None max a b : checked_add max a b = None <-> max < a + b.
Proof. unfold checked_add. destruct (_ <=? _) eqn:E; bool_hyps; intuition (congruence || lia). Qed.

Lemma try_into_Some max z c : try_into max z = Some c <-> c = z /\ 0 <= z <= max.
Proof.
  unfold try_into. destruct (_ && _) eqn:E; [bool_hyps|apply andb_false_iff in E as []; bool_hyps];
    intuition (congruence || lia).
Qed.

Lemma try_into_id max z : 0 <= z <= max -> try_into max z = Some z.
Proof. intros. by apply try_into_Some. Qed.

Create HintDb rust discriminated.
#[export] Hint Resolve -> checked_add_Some try_into_Some : rust.

Ltac unfold_max := unfold is_u32, is_u64, USIZE_MAX, U8_MAX, U32_MAX, U64_MAX, I64_MAX in *.

(** ** Bytes *)

#[global] Instance byte_eq_dec : EqDecision byte := Byte.byte_eq_dec.
#[global] Program Instance byte_countable : Countable byte :=
  inj_countable Byte.to_N Byte.of_N _.
Next Obligation. intros b. apply Byte.of_to_N. Qed.

(** The unsigned value of a byte, and truncation ([as u8]) to a byte. *)
Definition b2z (b : byte) : Z := Z.of_N (Byte.to_N b).
Definition z2b (z : Z) : byte := default x00 (Byte.of_N (Z.to_N (z mod 256))).

Lemma b2z_range b : 0 <= b2z b < 256.
Proof. unfold b2z. pose proof (Byte.to_N_bounded b). lia. Qed.

Lemma z2b_b2z b : z2b (b2z b) = b.
Proof.
  unfold z2b. rewrite Z.mod_small by apply b2z_range.
  unfold b2z. by rewrite N2Z.id, Byte.of_to_N.
Qed.

Lemma b2z_z2b_mod z : b2z (z2b z) = z mod 256.
Proof.
  unfold z2b. pose proof (Z.mod_pos_bound z 256 ltac:(lia)) as Hb.
  destruct (Byte.of_N (Z.to_N (z mod 256))) as [b|] eqn:E; cbn.
  - apply Byte.to_of_N in E. unfold b2z. rewrite E. lia.
  - apply Byte.of_N_None_iff in E. lia.
Qed.

Lemma b2z_z2b z : 0 <= z < 256 -> b2z (z2b z) = z.
Proof. intros. rewrite b2z_z2b_mod. by apply Z.mod_small. Qed.

#[global] Instance b2z_inj : Inj (=) (=) b2z.
Proof. intros a b H. by rewrite <- (z2b_b2z a), <- (z2b_b2z b), H. Qed.

(** A decidable statement about bytes holds as soon as it holds of all 256. *)
Definition all_bytes : list byte := map (fun n => z2b (Z.of_nat n)) (seq 0 256).

Lemma elem_of_all_bytes b : b ∈ all_bytes.
Proof.
  unfold all_bytes. apply list_elem_of_In, in_map_iff.
  exists (Z.to_nat (b2z b)). pose proof (b2z_range b). split.
  - rewrite Z2Nat.id by lia. apply z2b_b2z.
  - apply in_seq. lia.
Qed.

Lemma byte_forallb (p : byte -> bool) : forallb p all_bytes = true -> forall b, p b = true.
Proof. intros H b. apply (proj1 (forallb_forall _ _) H), list_elem_of_In, elem_of_all_bytes. Qed.

(** The bytes of a literal: Rust's [b"..."] and [&str] are their UTF-8 bytes. *)
Abbreviation bs s := (String.list_byte_of_string s%string).

(** [s.len()] of a slice or string, as a [usize]. *)
Definition blen {A} (l : list A) : Z := Z.of_nat (length l).

Lemma blen_nil {A} : blen (@nil A) = 0.
Proof. reflexivity. Qed.
Lemma blen_cons {A} (x : A) l : blen (x :: l) = 1 + blen l.
Proof. unfold blen. cbn [length]. lia. Qed.
Lemma blen_app {A} (l k : list A) : blen (l ++ k) = blen l + blen k.
Proof. unfold blen. rewrite length_app. lia. Qed.
Lemma blen_nonneg {A} (l : list A) : 0 <= blen l.
Proof. unfold blen. lia. Qed.
Lemma blen_zero {A} (l : list A) : blen l = 0 <-> l = [].
Proof. destruct l; rewrite ?blen_cons; [done|]. pose proof (blen_nonneg l). split; [intros; lia|done]. Qed.
#[export] Hint Resolve blen_nonneg b2z_range : rust.

(** Injectivity without reducing the tails. *)
Lemma cons_eq {A} (x y : A) l k : x :: l = y :: k -> x = y /\ l = k.
Proof. by intros [= -> ->]. Qed.

(** ** Big-endian integers: [to_be_bytes] and [from_be_bytes] *)

Fixpoint be_value_acc (acc : Z) (l : list byte) : Z :=
  match l with [] => acc | b :: l' => be_value_acc (acc * 256 + b2z b) l' end.
Definition be_value (l : list byte) : Z := be_value_acc 0 l.

Fixpoint be_bytes (n : nat) (z : Z) : list byte :=
  match n with O => [] | S m => be_bytes m (z / 256) ++ [z2b z] end.

Lemma be_value_acc_app acc l k : be_value_acc acc (l ++ k) = be_value_acc (be_value_acc acc l) k.
Proof. revert acc. induction l; intros; cbn; auto. Qed.

Lemma be_bytes_length n z : length (be_bytes n z) = n.
Proof. revert z; induction n; intros; cbn; [done|]. rewrite length_app, IHn. cbn. lia. Qed.

Lemma be_value_bytes n z : 0 <= z < 256 ^ Z.of_nat n -> be_value (be_bytes n z) = z.
Proof.
  unfold be_value. revert z. induction n as [|n IH]; intros z Hz; cbn [be_bytes].
  - cbn in *. lia.
  - rewrite Nat2Z.inj_succ, Z.pow_succ_r in Hz by lia.
    rewrite be_value_acc_app, IH.
    + cbn. rewrite b2z_z2b_mod. pose proof (Z.div_mod z 256). lia.
    + split; [apply Z.div_pos; lia|]. apply Z.div_lt_upper_bound; lia.
Qed.

Lemma be_value_range l : 0 <= be_value l < 256 ^ blen l.
Proof.
  unfold be_value. induction l as [|b l IH] using rev_ind; [vm_compute; intuition congruence|].
  rewrite be_value_acc_app, blen_app. cbn [be_value_acc].
  pose proof (b2z_range b). rewrite Z.pow_add_r by (apply blen_nonneg || done).
  change (256 ^ blen [b]) with 256. lia.
Qed.

Lemma be_bytes_value l : be_bytes (length l) (be_value l) = l.
Proof.
  unfold be_value. induction l as [|b l IH] using rev_ind; [done|].
  rewrite length_app, Nat.add_1_r, be_value_acc_app. cbn [be_bytes be_value_acc].
  pose proof (b2z_range b) as Hb.
  rewrite Z.div_add_l, Z.div_small, Z.add_0_r, IH by lia. do 2 f_equal.
  rewrite <- (z2b_b2z b) at 2. unfold z2b. do 3 f_equal.
  rewrite Z.add_comm, Z.mod_add by lia. reflexivity.
Qed.

(** Reading [n] bytes off the front of a slice: [get(position..position + n)]. *)
Definition split_exact {A} (n : Z) (l : list A) : option (list A * list A) :=
  if (0 <=? n) && (n <=? blen l) then Some (take (Z.to_nat n) l, drop (Z.to_nat n) l) else None.

Lemma split_exact_app {A} (l k : list A) : split_exact (blen l) (l ++ k) = Some (l, k).
Proof.
  unfold split_exact. rewrite blen_app.
  pose proof (blen_nonneg l). pose proof (blen_nonneg k).
  rewrite (proj2 (Z.leb_le _ _)), (proj2 (Z.leb_le _ _)) by lia. cbn.
  unfold blen. rewrite Nat2Z.id. by rewrite take_app_length, drop_app_length.
Qed.

Lemma split_exact_Some {A} n (l a b : list A) :
  split_exact n l = Some (a, b) <-> l = a ++ b /\ blen a = n.
Proof.
  split.
  - unfold split_exact. destruct (_ && _) eqn:E; [|done]. bool_hyps. intros [= <- <-].
    rewrite take_drop. split; [done|]. unfold blen in *. rewrite length_take. lia.
  - intros [-> <-]. apply split_exact_app.
Qed.

Lemma split_exact_None {A} n (l : list A) : 0 <= n -> split_exact n l = None <-> blen l < n.
Proof.
  intros Hn. unfold split_exact. rewrite (proj2 (Z.leb_le 0 n)) by done. cbn.
  destruct (_ <=? _) eqn:E; bool_hyps; intuition (congruence || lia).
Qed.

(** ** Reflexive transitive closure of a step relation *)

Section star.
Context {St : Type} (step : St -> St -> Prop).

Lemma rtc_invariant (I : St -> Prop) :
  (forall s t, I s -> step s t -> I t) -> forall s t, rtc step s t -> I s -> I t.
Proof. intros HI s t Hr. induction Hr; eauto. Qed.
End star.
