(* ===== verification/RustText.v ===== *)
(** Text and ordered sets as the sources use them.

    Rust's [str] is its UTF-8 bytes ([list byte]); this file gives the parts of
    [core::str], [core::fmt] and [BTreeSet] the modelled code calls: ASCII
    classes, [chars], [char::is_control], [trim], lowercase hexadecimal
    ([{:02x}]), decimal printing and parsing of [u64], the derived ordering of
    byte arrays, and collecting an iterator into a [BTreeSet].  The generic
    round-trip and sortedness lemmas proved here are shared by every component. *)
From Stdlib Require Import ZArith Lia.
From Stdlib Require Import Strings.Byte Init.Byte.
From stdpp Require Import prelude list sorting.
From S2P Require Import Prelude.

(** ** ASCII classes of [u8] *)

Definition in_range (lo hi : Z) (b : byte) : bool := (lo <=? b2z b) && (b2z b <=? hi).
Definition is_ascii_digit : byte -> bool := in_range 48 57.
Definition is_ascii_lowercase : byte -> bool := in_range 97 122.
Definition is_ascii_uppercase : byte -> bool := in_range 65 90.
Definition is_ascii_alphanumeric (b : byte) : bool :=
  is_ascii_digit b || is_ascii_lowercase b || is_ascii_uppercase b.
Definition is_ascii (l : list byte) : bool := forallb (in_range 0 127) l.
Definition byte_in (l : list byte) (b : byte) : bool := bool_decide (b ∈ l).

Lemma is_ascii_app l k : is_ascii (l ++ k) = is_ascii l && is_ascii k.
Proof. apply forallb_app. Qed.

(** ** Unicode scalar values of a UTF-8 string *)

(** [core::str::next_code_point] on well-formed input, iterated. *)
Fixpoint chars (l : list byte) : list Z :=
  match l with
  | [] => []
  | x :: t =>
      let x' := b2z x in
      if x' <? 128 then x' :: chars t
      else match t with
      | [] => []
      | y :: t2 =>
          let y' := Z.land (b2z y) 63 in
          if x' <? 224 then (Z.land x' 31 * 64 + y') :: chars t2
          else match t2 with
          | [] => []
          | z :: t3 =>
              let yz := y' * 64 + Z.land (b2z z) 63 in
              if x' <? 240 then (Z.land x' 31 * 4096 + yz) :: chars t3
              else match t3 with
              | [] => []
              | w :: t4 => (Z.land x' 7 * 262144 + (yz * 64 + Z.land (b2z w) 63)) :: chars t4
              end
          end
      end
  end.

(** General category Cc. *)
Definition is_control (c : Z) : bool := (c <=? 31) || ((127 <=? c) && (c <=? 159)).
(** The Unicode [White_Space] property. *)
Definition is_whitespace (c : Z) : bool :=
  ((9 <=? c) && (c <=? 13)) || (c =? 32) || (c =? 133) || (c =? 160) || (c =? 5760)
  || ((8192 <=? c) && (c <=? 8202)) || (c =? 8232) || (c =? 8233) || (c =? 8239)
  || (c =? 8287) || (c =? 12288).

Fixpoint drop_while {A} (p : A -> bool) (l : list A) : list A :=
  match l with [] => [] | x :: t => if p x then drop_while p t else l end.
Definition trim (cs : list Z) : list Z :=
  reverse (drop_while is_whitespace (reverse (drop_while is_whitespace cs))).

Lemma chars_ascii l : is_ascii l = true -> chars l = map b2z l.
Proof.
  induction l as [|x l IH]; cbn; [done|]. intros H. bool_hyps. unfold in_range in *. bool_hyps.
  rewrite (proj2 (Z.ltb_lt _ _)) by lia. by rewrite IH.
Qed.

Lemma drop_while_fixed {A} (p : A -> bool) l : drop_while p l = l <-> forall x, head l = Some x -> p x = false.
Proof.
  destruct l as [|x l]; cbn; [naive_solver|]. split.
  - intros H y [= ->]. destruct (p y) eqn:E; [|done].
    assert (length (drop_while p l) <= length l)%nat.
    { clear. induction l as [|z l IH]; cbn; [lia|]. destruct (p z); cbn; lia. }
    rewrite H in H0. cbn in H0. lia.
  - intros H. by rewrite (H x eq_refl).
Qed.

Lemma drop_while_suffix {A} (p : A -> bool) l : exists k, l = k ++ drop_while p l.
Proof.
  induction l as [|x l [k IH]]; cbn; [by exists []|].
  destruct (p x); [exists (x :: k); cbn; congruence|by exists []].
Qed.

(** A string equals its [trim] exactly when neither end is white space. *)
Lemma trim_fixed cs :
  trim cs = cs <->
  (forall c, head cs = Some c -> is_whitespace c = false) /\
  (forall c, last cs = Some c -> is_whitespace c = false).
Proof.
  unfold trim. split.
  - intros H.
    assert (Hd : drop_while is_whitespace cs = cs).
    { destruct (drop_while_suffix is_whitespace cs) as [k Hk].
      destruct (drop_while_suffix is_whitespace (reverse (drop_while is_whitespace cs))) as [k' Hk'].
      apply (f_equal (@length Z)) in Hk, Hk', H.
      rewrite length_reverse in *. rewrite length_app in *.
      destruct k; [|cbn in *; lia]. destruct (drop_while_suffix is_whitespace cs) as [q Hq].
      apply (f_equal (@length Z)) in Hq as Hl. rewrite length_app in Hl.
      destruct q; [by symmetry|cbn in *; lia]. }
    split; [by apply drop_while_fixed|].
    rewrite Hd in H. apply (f_equal (@reverse Z)) in H. rewrite reverse_involutive in H.
    pose proof (proj1 (drop_while_fixed _ _) H) as Hf. intros c Hc. apply Hf.
    by rewrite head_reverse.
  - intros [Hh Hl].
    rewrite (proj2 (drop_while_fixed _ cs) Hh), (proj2 (drop_while_fixed _ (reverse cs))), reverse_involutive; [done|].
    intros c Hc. apply Hl. by rewrite <- head_reverse.
Qed.

(** ** Lowercase hexadecimal *)

Definition hex_digit (z : Z) : byte := if z <? 10 then z2b (48 + z) else z2b (87 + z).
(** [write!(f, "{byte:02x}")] for each byte. *)
Definition to_hex (l : list byte) : list byte :=
  concat (map (fun b => [hex_digit (b2z b / 16); hex_digit (b2z b mod 16)]) l).

Lemma to_hex_length l : length (to_hex l) = (2 * length l)%nat.
Proof. unfold to_hex. induction l as [|b l IH]; cbn; [done|]. rewrite IH. lia. Qed.

Lemma to_hex_ascii l : is_ascii (to_hex l) = true.
Proof.
  induction l as [|b l IH]; [done|]. unfold to_hex in *. cbn [map concat].
  rewrite is_ascii_app, IH, andb_true_r. revert b.
  apply byte_forallb. vm_compute. reflexivity.
Qed.

(** ** Decimal [u64]: [Display] and [str::parse] *)

Definition dec_digit (z : Z) : byte := z2b (48 + z).
Definition dec_value (b : byte) : Z := b2z b - 48.

(** Enough fuel for any [u64] is 20; [dec_print] uses it. *)
Fixpoint dec_print_fuel (fuel : nat) (z : Z) : list byte :=
  match fuel with
  | O => []
  | S f => if z <? 10 then [dec_digit z] else dec_print_fuel f (z / 10) ++ [dec_digit (z mod 10)]
  end.
Definition dec_print (z : Z) : list byte := dec_print_fuel 20 z.

Fixpoint dec_fold (acc : Z) (l : list byte) : Z :=
  match l with [] => acc | b :: t => dec_fold (acc * 10 + dec_value b) t end.

(** [str::parse::<u64>] of an input already known to be non-empty ASCII digits. *)
Definition parse_u64_digits (l : list byte) : option Z :=
  let v := dec_fold 0 l in if v <=? U64_MAX then Some v else None.

Lemma dec_fold_app acc l k : dec_fold acc (l ++ k) = dec_fold (dec_fold acc l) k.
Proof. revert acc. induction l; intros; cbn; auto. Qed.

Lemma dec_value_digit z : 0 <= z < 10 -> dec_value (dec_digit z) = z.
Proof. intros. unfold dec_value, dec_digit. rewrite b2z_z2b; lia. Qed.

Lemma dec_digit_value b : is_ascii_digit b = true -> dec_digit (dec_value b) = b.
Proof. intros. unfold dec_digit, dec_value. rewrite Zplus_minus. apply z2b_b2z. Qed.

Lemma dec_digit_is_digit z : 0 <= z < 10 -> is_ascii_digit (dec_digit z) = true.
Proof.
  intros. unfold is_ascii_digit, in_range, dec_digit. rewrite b2z_z2b by lia.
  apply andb_true_iff. split; apply Z.leb_le; lia.
Qed.

Lemma is_ascii_digit_value b : is_ascii_digit b = true -> 0 <= dec_value b < 10.
Proof. unfold is_ascii_digit, in_range, dec_value. intros. bool_hyps. lia. Qed.

Lemma dec_print_value n z : 0 <= z < 10 ^ Z.of_nat n -> (n <> 0)%nat -> dec_fold 0 (dec_print_fuel n z) = z.
Proof.
  revert z. induction n as [|n IH]; [done|]. intros z Hz _. cbn [dec_print_fuel].
  destruct (z <? 10) eqn:E; bool_hyps.
  - cbn. rewrite dec_value_digit; lia.
  - rewrite Nat2Z.inj_succ, Z.pow_succ_r in Hz by lia.
    pose proof (Z.div_mod z 10). pose proof (Z.mod_pos_bound z 10).
    assert (0 <= z / 10 < 10 ^ Z.of_nat n).
    { split; [apply Z.div_pos; lia|apply Z.div_lt_upper_bound; lia]. }
    assert (n <> 0)%nat by (intros ->; cbn in *; lia).
    rewrite dec_fold_app, IH by done. cbn. rewrite dec_value_digit; lia.
Qed.

Lemma dec_print_digits n z : 0 <= z -> forallb is_ascii_digit (dec_print_fuel n z) = true.
Proof.
  revert z. induction n as [|n IH]; intros z Hz; [done|]. cbn [dec_print_fuel].
  destruct (z <? 10) eqn:E; bool_hyps.
  - cbn. rewrite dec_digit_is_digit by lia. done.
  - pose proof (Z.mod_pos_bound z 10).
    rewrite forallb_app, IH by (apply Z.div_pos; lia). cbn. rewrite dec_digit_is_digit by lia. done.
Qed.

Lemma dec_print_length n z : (length (dec_print_fuel n z) <= n)%nat.
Proof.
  revert z. induction n as [|n IH]; intros z; [done|]. cbn [dec_print_fuel].
  destruct (_ <? _); [cbn; lia|]. rewrite length_app. specialize (IH (z / 10)). cbn. lia.
Qed.

(** No leading zero: the first digit of a number of several digits is not [0]. *)
Lemma dec_print_head n z t :
  0 <= z < 10 ^ Z.of_nat n -> dec_print_fuel n z = x30 :: t -> z = 0 /\ t = [].
Proof.
  revert z t. induction n as [|n IH]; intros z t Hz; [done|]. cbn [dec_print_fuel].
  destruct (z <? 10) eqn:E; bool_hyps.
  - intros [= Hd <-]. apply (f_equal dec_value) in Hd. rewrite dec_value_digit in Hd by lia. by split.
  - rewrite Nat2Z.inj_succ, Z.pow_succ_r in Hz by lia. intros H.
    assert (1 <= z / 10) by (apply Z.div_le_lower_bound; lia).
    assert (z / 10 < 10 ^ Z.of_nat n) by (apply Z.div_lt_upper_bound; lia).
    destruct (dec_print_fuel n (z / 10)) as [|b r] eqn:Ep.
    + destruct n; [cbn in *; lia|]. cbn [dec_print_fuel] in Ep.
      destruct (_ <? _); [done|]. by destruct (dec_print_fuel _ _).
    + injection H as -> _. apply IH in Ep; lia.
Qed.

(** A digit string with no leading zero is the print of its value. *)
Lemma dec_print_fold l n :
  forallb is_ascii_digit l = true -> l <> [] -> (length l <= n)%nat ->
  (1 < blen l -> head l <> Some x30) -> dec_print_fuel n (dec_fold 0 l) = l.
Proof.
  revert n. induction l as [|b l IH] using rev_ind; [done|].
  intros n Hd _ Hn Hz. rewrite length_app in Hn. cbn in Hn.
  rewrite forallb_app in Hd. bool_hyps. cbn in H0. rewrite andb_true_r in H0.
  pose proof (is_ascii_digit_value _ H0). rewrite dec_fold_app. cbn [dec_fold].
  destruct n as [|n]; [lia|]. cbn [dec_print_fuel].
  destruct l as [|c l'] eqn:El.
  - cbn [dec_fold]. rewrite Z.mul_0_l, Z.add_0_l, (proj2 (Z.ltb_lt _ _)) by lia.
    by rewrite dec_digit_value.
  - rewrite <- El in *.
    assert (Hpos : 1 <= dec_fold 0 l).
    { assert (Hc : head l <> Some x30).
      { rewrite El in *. apply Hz. rewrite blen_app, !blen_cons.
        pose proof (blen_nonneg l'). rewrite blen_nil. lia. }
      clear -H Hc El.
      assert (forall k acc, forallb is_ascii_digit k = true -> 1 <= acc -> 1 <= dec_fold acc k) as Hmono.
      { induction k as [|x k IHk]; intros acc; cbn; [lia|]. intros Hx Ha. bool_hyps.
        apply is_ascii_digit_value in H0. apply IHk; [done|lia]. }
      subst l. cbn in *. bool_hyps. apply Hmono; [done|].
      pose proof (is_ascii_digit_value _ H). destruct (decide (dec_value c = 0)) as [E|]; [|lia].
      apply (f_equal dec_digit) in E. rewrite dec_digit_value in E by done. by subst. }
    rewrite (proj2 (Z.ltb_ge _ _)) by lia.
    rewrite Z.div_add_l, Z.div_small, Z.add_0_r by lia.
    rewrite IH; [|done|by subst|lia|].
    + rewrite Z.add_comm, Z.mod_add, Z.mod_small, dec_digit_value by (done || lia). done.
    + intros Hl Hh. apply Hz; [rewrite blen_app; pose proof (blen_nonneg [b]); lia|].
      by subst.
Qed.

(** ** [match] on a string against literal arms, first match wins *)

Fixpoint match_str {A} (v : list byte) (arms : list (list byte * A)) : option A :=
  match arms with
  | [] => None
  | (s, a) :: t => if bool_decide (v = s) then Some a else match_str v t
  end.

Lemma match_str_elem {A} v (arms : list (list byte * A)) a :
  match_str v arms = Some a -> (v, a) ∈ arms.
Proof.
  induction arms as [|[s x] t IH]; cbn; [done|]. case_bool_decide as E.
  - intros [= ->]. subst. left.
  - intros. right. auto.
Qed.

(** ** Canonical text: a printer and a parser that accept each other's values *)

Class CanonicalText (E A : Type) := {
  text_wf : A -> Prop;
  text_print : A -> list byte;
  text_parse : list byte -> result E A;
  text_parse_print : forall a, text_wf a -> text_parse (text_print a) = Ok a;
  text_print_parse : forall s a, text_parse s = Ok a -> text_wf a /\ text_print a = s;
}.

Section canonical.
Context {E A : Type} `{CanonicalText E A}.

(** Two accepted texts of one value are the same text, and printing is injective. *)
Lemma text_parse_inj s t a : text_parse s = Ok a -> text_parse t = Ok a -> s = t.
Proof. intros [_ <-]%text_print_parse [_ <-]%text_print_parse. done. Qed.

Lemma text_print_inj a b : text_wf a -> text_wf b -> text_print a = text_print b -> a = b.
Proof.
  intros Ha Hb Hab. apply text_parse_print in Ha, Hb. rewrite Hab, Hb in Ha. by injection Ha.
Qed.
End canonical.
