(* ===== verification/Ord.v ===== *)
(** Rust's [Ord] as a type class, and [BTreeSet] over it.

    [RustOrd] states what the derived [Ord] implementations promise their
    clients: a total order that agrees with equality.  The instances follow the
    derive rules (integers by value, slices and strings lexicographically,
    tuples and structs field by field).  A [BTreeSet] is the strictly increasing
    list its iterator yields. *)
From Stdlib Require Import ZArith Lia.
From Stdlib Require Import Strings.Byte Init.Byte.
From stdpp Require Import prelude list sorting.
From S2P Require Import Prelude.

Set Warnings "-clear-no-such-hyp".

Class RustOrd (A : Type) := {
  rcmp : A -> A -> comparison;
  rcmp_eq : forall a b, rcmp a b = Eq <-> a = b;
  rcmp_sym : forall a b, rcmp b a = CompOpp (rcmp a b);
  rcmp_trans : forall a b c, rcmp a b = Lt -> rcmp b c = Lt -> rcmp a c = Lt;
}.

Definition rlt {A} `{RustOrd A} (a b : A) : Prop := rcmp a b = Lt.

#[global] Instance rlt_dec {A} `{RustOrd A} (a b : A) : Decision (rlt a b).
Proof. unfold rlt. solve_decision. Defined.

Section laws.
Context {A : Type} `{RustOrd A}.

Lemma rcmp_refl (a : A) : rcmp a a = Eq.
Proof. by apply rcmp_eq. Qed.

Lemma rcmp_gt (a b : A) : rcmp a b = Gt <-> rlt b a.
Proof. unfold rlt. rewrite (rcmp_sym a b). destruct (rcmp a b); naive_solver. Qed.

#[global] Instance rlt_trans : Transitive (@rlt A _).
Proof. intros a b c. apply rcmp_trans. Qed.

#[global] Instance rlt_irrefl : Irreflexive (@rlt A _).
Proof. intros a. unfold complement, rlt. by rewrite rcmp_refl. Qed.

Lemma rlt_total (a b : A) : rlt a b \/ a = b \/ rlt b a.
Proof.
  destruct (rcmp a b) eqn:E; [right; left; by apply rcmp_eq|by left|].
  right; right. by apply rcmp_gt.
Qed.
End laws.

(** Order through an injective key. *)
Definition rcmp_by {A B} `{RustOrd B} (f : A -> B) (Hf : Inj (=) (=) f) : RustOrd A.
Proof.
  refine {| rcmp a b := rcmp (f a) (f b) |}.
  - intros a b. rewrite rcmp_eq. split; [apply Hf|congruence].
  - intros a b. apply rcmp_sym.
  - intros a b c. apply rcmp_trans.
Defined.

#[global] Instance Z_ord : RustOrd Z.
Proof.
  refine {| rcmp := Z.compare |}.
  - apply Z.compare_eq_iff.
  - intros. apply Z.compare_antisym.
  - intros a b c. rewrite !Z.compare_lt_iff. lia.
Defined.

#[global] Instance byte_ord : RustOrd byte := rcmp_by b2z _.

Fixpoint list_cmp {A} `{RustOrd A} (l k : list A) : comparison :=
  match l, k with
  | [], [] => Eq
  | [], _ :: _ => Lt
  | _ :: _, [] => Gt
  | a :: l', b :: k' => match rcmp a b with Eq => list_cmp l' k' | c => c end
  end.

#[global] Instance list_ord {A} `{RustOrd A} : RustOrd (list A).
Proof.
  refine {| rcmp := list_cmp |}.
  - induction a as [|x a IH]; destruct b as [|y b]; cbn; try done.
    destruct (rcmp x y) eqn:E; [apply rcmp_eq in E; subst; rewrite IH; naive_solver| |];
      (split; [done|]); intros [= -> ->]; by rewrite rcmp_refl in E.
  - induction a as [|x a IH]; destruct b as [|y b]; cbn; try done.
    rewrite (rcmp_sym x y). destruct (rcmp x y); cbn; auto.
  - induction a as [|x a IH]; destruct b as [|y b], c as [|z c]; cbn; try done.
    destruct (rcmp x y) eqn:E1; [apply rcmp_eq in E1; subst| |done];
    destruct (rcmp y z) eqn:E2; try (apply rcmp_eq in E2; subst); try done;
      rewrite ?E1, ?E2, ?rcmp_refl; eauto.
    by rewrite (rcmp_trans _ _ _ E1 E2).
Defined.

#[global] Instance prod_ord {A B} `{RustOrd A, RustOrd B} : RustOrd (A * B).
Proof.
  refine {| rcmp p q := match rcmp p.1 q.1 with Eq => rcmp p.2 q.2 | c => c end |}.
  - intros [a b] [c d]; cbn. destruct (rcmp a c) eqn:E.
    + apply rcmp_eq in E. subst. rewrite rcmp_eq. naive_solver.
    + split; [done|]. intros [= -> ->]. by rewrite rcmp_refl in E.
    + split; [done|]. intros [= -> ->]. by rewrite rcmp_refl in E.
  - intros [a b] [c d]; cbn. rewrite (rcmp_sym a c). destruct (rcmp a c); cbn; auto using rcmp_sym.
  - intros [a b] [c d] [e f]; cbn.
    destruct (rcmp a c) eqn:E1; [apply rcmp_eq in E1; subst| |done];
    destruct (rcmp c e) eqn:E2; try (apply rcmp_eq in E2; subst); try done;
      rewrite ?E1, ?E2, ?rcmp_refl; eauto using rcmp_trans.
    by rewrite (rcmp_trans _ _ _ E1 E2).
Defined.

(** ** [BTreeSet]: the strictly increasing list of its elements *)

Section btree.
Context {A : Type} `{RustOrd A}.

Fixpoint btree_insert (x : A) (l : list A) : list A :=
  match l with
  | [] => [x]
  | y :: t => match rcmp x y with
              | Lt => x :: l
              | Eq => l
              | Gt => y :: btree_insert x t
              end
  end.
(** [iter.collect::<BTreeSet<_>>()]. *)
Definition btree_collect (l : list A) : list A := foldr btree_insert [] l.

Abbreviation sorted := (StronglySorted (@rlt A _)).

Lemma btree_insert_elem x y l : y ∈ btree_insert x l <-> y = x \/ y ∈ l.
Proof.
  induction l as [|z l IH]; cbn; [set_solver|].
  destruct (rcmp x z) eqn:E; [apply rcmp_eq in E| |]; set_solver.
Qed.

Lemma btree_insert_sorted x l : sorted l -> sorted (btree_insert x l).
Proof.
  induction 1 as [|y l Hs IH Hy]; cbn; [repeat constructor|].
  destruct (rcmp x y) eqn:E; [by constructor| |].
  - constructor; [by constructor|]. constructor; [done|].
    eapply Forall_impl; [exact Hy|]. intros z. by apply rcmp_trans.
  - apply rcmp_gt in E. constructor; [done|]. apply Forall_forall. intros z Hz.
    apply btree_insert_elem in Hz as [->|Hz]; [done|].
    by apply (proj1 (Forall_forall _ _) Hy).
Qed.

Lemma btree_collect_sorted l : sorted (btree_collect l).
Proof. induction l; cbn; [constructor|]. by apply btree_insert_sorted. Qed.

Lemma btree_collect_elem l x : x ∈ btree_collect l <-> x ∈ l.
Proof. induction l; cbn; [done|]. rewrite btree_insert_elem. set_solver. Qed.

Lemma sorted_NoDup l : sorted l -> NoDup l.
Proof.
  induction 1 as [|y l Hs IH Hy]; constructor; [|done].
  intros Hin. apply (proj1 (Forall_forall _ _) Hy) in Hin. by apply irreflexivity in Hin; [|apply rlt_irrefl].
Qed.

Lemma btree_collect_NoDup l : NoDup (btree_collect l).
Proof. apply sorted_NoDup, btree_collect_sorted. Qed.

Lemma btree_collect_submseteq l : btree_collect l ⊆+ l.
Proof. apply NoDup_submseteq; [apply btree_collect_NoDup|]. intros x. apply btree_collect_elem. Qed.

(** The duplicate test of the sources: the set is as long as the vector it
    was collected from exactly when the vector has no duplicate. *)
Lemma btree_collect_length l : length (btree_collect l) = length l <-> NoDup l.
Proof.
  split.
  - intros Hl. assert (btree_collect l ≡ₚ l) as <-; [|apply btree_collect_NoDup].
    apply submseteq_length_Permutation; [apply btree_collect_submseteq|lia].
  - intros Hd. apply Permutation_length, NoDup_Permutation; [apply btree_collect_NoDup|done|].
    apply btree_collect_elem.
Qed.

Lemma btree_collect_perm l : NoDup l -> btree_collect l ≡ₚ l.
Proof.
  intros Hd. apply NoDup_Permutation; [apply btree_collect_NoDup|done|apply btree_collect_elem].
Qed.

(** Strictly increasing lists with the same elements are equal. *)
Lemma sorted_ext l k : sorted l -> sorted k -> (forall x, x ∈ l <-> x ∈ k) -> l = k.
Proof.
  intros Hl. revert k. induction Hl as [|a l Hl IH Ha]; intros k Hk He.
  - destruct k as [|b k]; [done|]. exfalso. specialize (He b). set_solver.
  - destruct Hk as [|b k Hk Hb]; [exfalso; specialize (He a); set_solver|].
    rewrite Forall_forall in Ha, Hb.
    assert (a = b) as ->.
    { assert (Hab : a ∈ b :: k) by (apply He; left).
      assert (Hba : b ∈ a :: l) by (apply He; left).
      apply elem_of_cons in Hab as [?|Hab]; [done|].
      apply elem_of_cons in Hba as [?|Hba]; [done|].
      apply Hb in Hab. apply Ha in Hba.
      pose proof (rcmp_trans _ _ _ Hab Hba) as E. by rewrite rcmp_refl in E. }
    f_equal. apply IH; [done|]. intros x. split; intros Hx.
    + assert (Hx' : x ∈ b :: k) by (apply He; by right).
      apply elem_of_cons in Hx' as [->|]; [|done]. apply Ha in Hx. unfold rlt in Hx. by rewrite rcmp_refl in Hx.
    + assert (Hx' : x ∈ b :: l) by (apply He; by right).
      apply elem_of_cons in Hx' as [->|]; [|done]. apply Hb in Hx. unfold rlt in Hx. by rewrite rcmp_refl in Hx.
Qed.
End btree.

(** ** Slices: the stable [sort_by] on a key, and [windows(2)] *)

Section sort.
Context {A K : Type} `{RustOrd K} (key : A -> K).

Fixpoint insert_by (x : A) (l : list A) : list A :=
  match l with
  | [] => [x]
  | y :: t => match rcmp (key x) (key y) with Gt => y :: insert_by x t | _ => x :: l end
  end.
Definition sort_by (l : list A) : list A := foldr insert_by [] l.

Definition key_le (a b : A) : Prop := rcmp (key a) (key b) <> Gt.
Definition key_lt (a b : A) : Prop := rlt (key a) (key b).

Lemma insert_by_perm x l : insert_by x l ≡ₚ x :: l.
Proof.
  induction l as [|y l IH]; cbn; [done|]. destruct (rcmp (key x) (key y)); [done..|].
  rewrite IH. apply Permutation_swap.
Qed.
Lemma sort_by_perm l : sort_by l ≡ₚ l.
Proof. induction l as [|x l IH]; cbn; [done|]. by rewrite insert_by_perm, IH. Qed.

Lemma key_le_trans a b c : key_le a b -> key_le b c -> key_le a c.
Proof.
  unfold key_le. intros Hab Hbc Hac. apply rcmp_gt in Hac.
  destruct (rcmp (key a) (key b)) eqn:E1; [apply rcmp_eq in E1| |done].
  - apply Hbc. apply rcmp_gt. by rewrite <- E1.
  - apply Hbc. apply rcmp_gt. by apply (rcmp_trans _ (key a)).
Qed.

Lemma insert_by_sorted x l : StronglySorted key_le l -> StronglySorted key_le (insert_by x l).
Proof.
  induction 1 as [|y l Hs IH Hy]; cbn; [repeat constructor|].
  destruct (rcmp (key x) (key y)) eqn:E.
  1,2: constructor; [by constructor|]; constructor; [unfold key_le; congruence|];
    eapply Forall_impl; [exact Hy|]; intros z; apply key_le_trans; unfold key_le; congruence.
  constructor; [done|]. rewrite insert_by_perm. constructor; [|done].
  unfold key_le. apply rcmp_gt in E. unfold rlt in E. congruence.
Qed.
Lemma sort_by_sorted l : StronglySorted key_le (sort_by l).
Proof. induction l; cbn; [constructor|]. by apply insert_by_sorted. Qed.

Lemma sort_by_id l : StronglySorted key_lt l -> sort_by l = l.
Proof.
  induction 1 as [|x l Hs IH Hx]; cbn [sort_by foldr]; [done|]. change (foldr insert_by [] l) with (sort_by l).
  rewrite IH. destruct Hx as [|y l Hy]; [done|]. cbn. unfold key_lt, rlt in Hy. by rewrite Hy.
Qed.

(** [windows(2).any(|pair| pair[0] == pair[1])] on keys. *)
Fixpoint adjacent_equal (l : list A) : bool :=
  match l with
  | x :: ((y :: _) as t) => match rcmp (key x) (key y) with Eq => true | _ => adjacent_equal t end
  | _ => false
  end.

Lemma sorted_strict l : StronglySorted key_le l -> adjacent_equal l = false -> StronglySorted key_lt l.
Proof.
  intros Hs Ha. apply Sorted_StronglySorted; [intros a b c; apply rcmp_trans|].
  induction Hs as [|x l Hs IH Hx]; [constructor|]. destruct l as [|y l]; [by repeat constructor|].
  cbn [adjacent_equal] in Ha. inversion Hx as [|? ? Hxy]; subst. unfold key_le in Hxy.
  destruct (rcmp (key x) (key y)) eqn:E; [done| |done]. constructor; [by apply IH|]. by constructor.
Qed.

Lemma strict_not_adjacent l : StronglySorted key_lt l -> adjacent_equal l = false.
Proof.
  induction 1 as [|x l Hs IH Hx]; [done|]. destruct l as [|y l]; [done|]. cbn [adjacent_equal].
  inversion Hx as [|? ? Hxy]; subst. unfold key_lt, rlt in Hxy. by rewrite Hxy.
Qed.

Lemma key_sorted l : StronglySorted key_lt l <-> StronglySorted rlt (map key l).
Proof.
  induction l as [|x l IH]; [split; constructor|]. cbn [map]. split; intros [Hl Hx]%StronglySorted_inv.
  - constructor; [by apply IH|]. rewrite Forall_forall in Hx. apply Forall_forall. intros k Hk.
    change (map key l) with (key <$> l) in Hk. apply list_elem_of_fmap in Hk as (y & -> & Hy). by apply Hx.
  - constructor; [by apply IH|]. rewrite Forall_forall in Hx. apply Forall_forall. intros y Hy. apply Hx.
    change (map key l) with (key <$> l). by apply list_elem_of_fmap_2.
Qed.

(** What sorting and rejecting equal neighbours leaves. *)
Lemma sort_by_strict l : adjacent_equal (sort_by l) = false -> StronglySorted key_lt (sort_by l).
Proof. apply sorted_strict, sort_by_sorted. Qed.
End sort.
