(* ===== verification/Utf8.v ===== *)
(** UTF-8 as [core::str] checks and [char] encodes it.

    [utf8_valid] is [str::from_utf8(..).is_ok()], the table of well-formed byte
    sequences; [char_width] is the length a lead byte announces, which is how
    [chars().next()] moves through a valid string; [encode_utf8] is
    [String::push] of one scalar value. *)
From Stdlib Require Import ZArith Lia.
From Stdlib Require Import Strings.Byte Init.Byte.
From stdpp Require Import prelude list.
From S2P Require Import Prelude RustText.

Definition continuation : byte -> bool := in_range 128 191.

(** The well-formed sequences of two, three and four bytes. *)
Definition well_formed2 (a b : byte) : bool := in_range 194 223 a && continuation b.
Definition well_formed3 (a b c : byte) : bool :=
  ((in_range 224 224 a && in_range 160 191 b) || (in_range 225 236 a && continuation b)
   || (in_range 237 237 a && in_range 128 159 b) || (in_range 238 239 a && continuation b))
  && continuation c.
Definition well_formed4 (a b c d : byte) : bool :=
  ((in_range 240 240 a && in_range 144 191 b) || (in_range 241 243 a && continuation b)
   || (in_range 244 244 a && in_range 128 143 b))
  && continuation c && continuation d.

Fixpoint utf8_valid (l : list byte) : bool :=
  match l with
  | [] => true
  | a :: t =>
      if in_range 0 127 a then utf8_valid t
      else match t with
      | [] => false
      | b :: t2 =>
          if well_formed2 a b then utf8_valid t2
          else match t2 with
          | [] => false
          | c :: t3 =>
              if well_formed3 a b c then utf8_valid t3
              else match t3 with
              | [] => false
              | d :: t4 => well_formed4 a b c d && utf8_valid t4
              end
          end
      end
  end.

Definition char_width (lead : byte) : nat :=
  if b2z lead <? 128 then 1 else if b2z lead <? 224 then 2 else if b2z lead <? 240 then 3 else 4.

(** [char::from_u32] *)
Definition char_from_u32 (z : Z) : option Z :=
  if (0 <=? z) && (z <=? 1114111) && negb ((55296 <=? z) && (z <=? 57343)) then Some z else None.

Definition encode_utf8 (z : Z) : list byte :=
  if z <? 128 then [z2b z]
  else if z <? 2048 then [z2b (192 + z / 64); z2b (128 + z mod 64)]
  else if z <? 65536 then [z2b (224 + z / 4096); z2b (128 + z / 64 mod 64); z2b (128 + z mod 64)]
  else [z2b (240 + z / 262144); z2b (128 + z / 4096 mod 64); z2b (128 + z / 64 mod 64); z2b (128 + z mod 64)].

(** One encoded character that is not ASCII. *)
Definition wide_char (c : list byte) : bool :=
  match c with
  | [a; b] => well_formed2 a b
  | [a; b; c] => well_formed3 a b c
  | [a; b; c; d] => well_formed4 a b c d
  | _ => false
  end.

(** A range test in a hypothesis or the goal as inequalities. *)
Ltac ranges :=
  unfold well_formed4, well_formed3, well_formed2, continuation, in_range in *;
  repeat match goal with
    | H : (_ || _)%bool = true |- _ => apply orb_true_iff in H; destruct H as [H|H]
    end; bool_hyps.

Lemma wide_char_bytes c : wide_char c = true -> Forall (fun b => 128 <= b2z b) c.
Proof.
  destruct c as [|a [|b [|c [|d [|? ?]]]]]; try done; cbn [wide_char]; intros H; ranges; repeat constructor; lia.
Qed.

Lemma wide_char_head c : wide_char c = true -> exists a t, c = a :: t /\ length c = char_width a.
Proof.
  destruct c as [|a [|b [|c [|d [|? ?]]]]]; try done; cbn [wide_char]; intros H; eexists _, _; (split; [done|]);
    unfold char_width; cbn; ranges;
    repeat (match goal with |- context [?x <? ?y] => destruct (Z.ltb_spec x y) end); lia.
Qed.

Lemma utf8_cases l :
  utf8_valid l = true ->
  l = [] \/ (exists a t, l = a :: t /\ b2z a < 128 /\ utf8_valid t = true)
  \/ (exists c t, l = c ++ t /\ wide_char c = true /\ utf8_valid t = true).
Proof.
  destruct l as [|a t]; [by left|]. cbn [utf8_valid].
  destruct (in_range 0 127 a) eqn:Ea; [intros Ht; right; left; unfold in_range in Ea; bool_hyps; exists a, t; split_and!; [done|lia|done]|].
  destruct t as [|b t]; [done|].
  destruct (well_formed2 a b) eqn:E2; [intros; right; right; by exists [a; b], t|].
  destruct t as [|c t]; [done|].
  destruct (well_formed3 a b c) eqn:E3; [intros; right; right; by exists [a; b; c], t|].
  destruct t as [|d t]; [done|]. intros H. bool_hyps. right; right. by exists [a; b; c; d], t.
Qed.

(** Induction along the characters of a valid string. *)
Lemma utf8_ind (P : list byte -> Prop) :
  P [] -> (forall a t, b2z a < 128 -> utf8_valid t = true -> P t -> P (a :: t)) ->
  (forall c t, wide_char c = true -> utf8_valid t = true -> P t -> P (c ++ t)) ->
  forall l, utf8_valid l = true -> P l.
Proof.
  intros Hn Ha Hw l. remember (length l) as n eqn:En. revert l En.
  induction (lt_wf n) as [n _ IH]. intros l -> Hl.
  destruct (utf8_cases l Hl) as [-> |[(a & t & -> & ? & ?)|(c & t & -> & Hc & ?)]]; [done| |].
  - apply Ha; [done..|]. eapply IH; [|done..]. cbn. lia.
  - apply Hw; [done..|]. eapply IH; [|done..]. rewrite length_app. destruct c; [done|cbn; lia].
Qed.

Lemma utf8_valid_ascii a t : b2z a < 128 -> utf8_valid (a :: t) = utf8_valid t.
Proof.
  intros H. cbn [utf8_valid]. unfold in_range. pose proof (b2z_range a).
  by rewrite (proj2 (Z.leb_le 0 _)), (proj2 (Z.leb_le _ 127)) by lia.
Qed.

Lemma utf8_valid_wide c t : wide_char c = true -> utf8_valid (c ++ t) = utf8_valid t.
Proof.
  intros Hc. pose proof (wide_char_bytes c Hc) as Hb. pose proof (wide_char_head c Hc) as (a & r & -> & Hlen).
  assert (Ha : in_range 0 127 a = false).
  { inversion Hb; subst. unfold in_range. apply andb_false_iff. right. apply Z.leb_gt. lia. }
  destruct r as [|b [|c [|d [|? ?]]]]; try done; cbn [app utf8_valid]; rewrite Ha; cbn [wide_char] in Hc; rewrite ?Hc; [done| |].
  - destruct (well_formed2 a b) eqn:E; [exfalso; ranges; lia|done].
  - destruct (well_formed2 a b) eqn:E; [exfalso; ranges; lia|].
    destruct (well_formed3 a b c) eqn:E'; [exfalso; ranges; lia|done].
Qed.

Lemma utf8_valid_is_ascii l : is_ascii l = true -> utf8_valid l = true.
Proof.
  induction l as [|a l IH]; [done|]. cbn [is_ascii forallb]. intros H. bool_hyps. rewrite utf8_valid_ascii; [by apply IH|].
  unfold in_range in *. bool_hyps. lia.
Qed.

Lemma utf8_valid_app l k : utf8_valid l = true -> utf8_valid (l ++ k) = utf8_valid k.
Proof.
  intros Hl. revert l Hl. apply utf8_ind; [done| |]; cbn [app].
  - intros a t Ha _ IH. by rewrite utf8_valid_ascii.
  - intros c t Hc _ IH. by rewrite <- app_assoc, utf8_valid_wide.
Qed.

Lemma encode_utf8_valid z c : char_from_u32 z = Some c -> utf8_valid (encode_utf8 c) = true.
Proof.
  unfold char_from_u32. destruct (_ && _) eqn:E; [|done]. intros [= <-]. bool_hyps.
  apply andb_false_iff in H0. rewrite !Z.leb_gt in H0.
  unfold encode_utf8.
  destruct (z <? 128) eqn:E1; bool_hyps.
  { rewrite utf8_valid_ascii; [done|]. rewrite b2z_z2b; lia. }
  assert (Hm : forall n, 128 <= 128 + n mod 64 <= 191) by (intros n; pose proof (Z.mod_pos_bound n 64); lia).
  assert (Hc : forall n, continuation (z2b (128 + n mod 64)) = true).
  { intros n. specialize (Hm n). unfold continuation, in_range. rewrite b2z_z2b by lia.
    apply andb_true_iff. rewrite !Z.leb_le. lia. }
  assert (Hd : forall w, wide_char w = true -> utf8_valid w = true).
  { intros w Hw. rewrite <- (app_nil_r w). by rewrite utf8_valid_wide. }
  destruct (z <? 2048) eqn:E2; bool_hyps.
  { apply Hd. cbn [wide_char]. unfold well_formed2. rewrite Hc, andb_true_r. unfold in_range.
    assert (2 <= z / 64 < 32) by (split; [apply Z.div_le_lower_bound|apply Z.div_lt_upper_bound]; lia).
    rewrite b2z_z2b by lia. apply andb_true_iff. rewrite !Z.leb_le. lia. }
  destruct (z <? 65536) eqn:E3; bool_hyps.
  - apply Hd. cbn [wide_char]. unfold well_formed3. rewrite !Hc, andb_true_r, !andb_true_r.
    pose proof (Z.div_mod z 64). pose proof (Z.mod_pos_bound z 64).
    pose proof (Z.div_mod (z / 64) 64). pose proof (Z.mod_pos_bound (z / 64) 64).
    assert (z / 4096 = z / 64 / 64) as -> by (by rewrite Z.div_div by lia).
    unfold in_range. rewrite !b2z_z2b by lia.
    rewrite !orb_true_iff, !andb_true_iff, !Z.leb_le. lia.
  - apply Hd. cbn [wide_char]. unfold well_formed4. rewrite !Hc, !andb_true_r.
    pose proof (Z.div_mod z 64). pose proof (Z.mod_pos_bound z 64).
    pose proof (Z.div_mod (z / 64) 64). pose proof (Z.mod_pos_bound (z / 64) 64).
    pose proof (Z.div_mod (z / 64 / 64) 64). pose proof (Z.mod_pos_bound (z / 64 / 64) 64).
    assert (z / 4096 = z / 64 / 64) as -> by (by rewrite Z.div_div by lia).
    assert (z / 262144 = z / 64 / 64 / 64) as -> by (by rewrite !Z.div_div by lia).
    unfold in_range. rewrite !b2z_z2b by lia.
    rewrite !orb_true_iff, !andb_true_iff, !Z.leb_le. lia.
Qed.
