(* ===== verification/Types.v ===== *)
(** Foundation values: the crate [mengxia-types].

    [ErrorCode] and its stable names ([error.rs]), [Sha256Digest] text
    ([digest.rs]), [RevisionNo] ([revision.rs]), and the typed UUIDv7 [Id]
    ([id.rs]) and [Timestamp] ([timestamp.rs]) over the interfaces of the
    [uuid] and [time] crates. *)
From Stdlib Require Import ZArith Lia String.
From Stdlib Require Import Strings.Byte Init.Byte.
From stdpp Require Import prelude list.
From S2P Require Import Prelude RustText.

Set Warnings "-clear-no-such-hyp".

(** ** error.rs *)

Inductive ErrorCode :=
| ValidationError | AuthenticationError | AuthorizationDenied | NotFound | Conflict
| InvalidTransition | SourceModifiedDuringIngest | StorageIoError | StorageCorruption
| StorageBusy | StorageConfigurationError | IpcTransportError | ProtocolVersionUnsupported
| DeadlineExceeded | OperationCancelled | ProviderValidation | InvalidCredential
| ProviderRateLimited | ProviderTimeout | ProviderUnavailable | SubmissionUnknown
| PluginProtocolViolation | SandboxUnavailable | PluginRevoked | Backpressure
| InternalError | CommandInProgress | AdminAuthUnavailable | UnsupportedCapability
| IdGenerationUnavailable | RevisionExhausted.

#[global] Instance ErrorCode_eq_dec : EqDecision ErrorCode.
Proof. solve_decision. Defined.

Inductive ValueError := InvalidId | InvalidDigest | InvalidTimestamp | InvalidRevision | UnknownErrorCode.
#[global] Instance ValueError_eq_dec : EqDecision ValueError.
Proof. solve_decision. Defined.

Inductive IdGenerationError := ClockBeforeUnixEpoch | TimestampOutOfRange | EntropyUnavailable.
Inductive RevisionOverflow := RevisionOverflow_.

Module ErrorCodeText.

Definition as_str (c : ErrorCode) : list byte :=
  match c with
  | ValidationError => bs "VALIDATION_ERROR"
  | AuthenticationError => bs "AUTHENTICATION_ERROR"
  | AuthorizationDenied => bs "AUTHORIZATION_DENIED"
  | NotFound => bs "NOT_FOUND"
  | Conflict => bs "CONFLICT"
  | InvalidTransition => bs "INVALID_TRANSITION"
  | SourceModifiedDuringIngest => bs "SOURCE_MODIFIED_DURING_INGEST"
  | StorageIoError => bs "STORAGE_IO_ERROR"
  | StorageCorruption => bs "STORAGE_CORRUPTION"
  | StorageBusy => bs "STORAGE_BUSY"
  | StorageConfigurationError => bs "STORAGE_CONFIGURATION_ERROR"
  | IpcTransportError => bs "IPC_TRANSPORT_ERROR"
  | ProtocolVersionUnsupported => bs "PROTOCOL_VERSION_UNSUPPORTED"
  | DeadlineExceeded => bs "DEADLINE_EXCEEDED"
  | OperationCancelled => bs "OPERATION_CANCELLED"
  | ProviderValidation => bs "PROVIDER_VALIDATION"
  | InvalidCredential => bs "INVALID_CREDENTIAL"
  | ProviderRateLimited => bs "PROVIDER_RATE_LIMITED"
  | ProviderTimeout => bs "PROVIDER_TIMEOUT"
  | ProviderUnavailable => bs "PROVIDER_UNAVAILABLE"
  | SubmissionUnknown => bs "SUBMISSION_UNKNOWN"
  | PluginProtocolViolation => bs "PLUGIN_PROTOCOL_VIOLATION"
  | SandboxUnavailable => bs "SANDBOX_UNAVAILABLE"
  | PluginRevoked => bs "PLUGIN_REVOKED"
  | Backpressure => bs "BACKPRESSURE"
  | InternalError => bs "INTERNAL_ERROR"
  | CommandInProgress => bs "COMMAND_IN_PROGRESS"
  | AdminAuthUnavailable => bs "ADMIN_AUTH_UNAVAILABLE"
  | UnsupportedCapability => bs "UNSUPPORTED_CAPABILITY"
  | IdGenerationUnavailable => bs "ID_GENERATION_UNAVAILABLE"
  | RevisionExhausted => bs "REVISION_EXHAUSTED"
  end.

Definition MIN_ERROR_CODE_BYTES : Z := blen (bs "CONFLICT").
Definition MAX_ERROR_CODE_BYTES : Z := blen (bs "SOURCE_MODIFIED_DURING_INGEST").

Definition error_code_arms : list (list byte * ErrorCode) :=
  [ (bs "VALIDATION_ERROR", ValidationError);
    (bs "AUTHENTICATION_ERROR", AuthenticationError);
    (bs "AUTHORIZATION_DENIED", AuthorizationDenied);
    (bs "NOT_FOUND", NotFound);
    (bs "CONFLICT", Conflict);
    (bs "INVALID_TRANSITION", InvalidTransition);
    (bs "SOURCE_MODIFIED_DURING_INGEST", SourceModifiedDuringIngest);
    (bs "STORAGE_IO_ERROR", StorageIoError);
    (bs "STORAGE_CORRUPTION", StorageCorruption);
    (bs "STORAGE_BUSY", StorageBusy);
    (bs "STORAGE_CONFIGURATION_ERROR", StorageConfigurationError);
    (bs "IPC_TRANSPORT_ERROR", IpcTransportError);
    (bs "PROTOCOL_VERSION_UNSUPPORTED", ProtocolVersionUnsupported);
    (bs "DEADLINE_EXCEEDED", DeadlineExceeded);
    (bs "OPERATION_CANCELLED", OperationCancelled);
    (bs "PROVIDER_VALIDATION", ProviderValidation);
    (bs "INVALID_CREDENTIAL", InvalidCredential);
    (bs "PROVIDER_RATE_LIMITED", ProviderRateLimited);
    (bs "PROVIDER_TIMEOUT", ProviderTimeout);
    (bs "PROVIDER_UNAVAILABLE", ProviderUnavailable);
    (bs "SUBMISSION_UNKNOWN", SubmissionUnknown);
    (bs "PLUGIN_PROTOCOL_VIOLATION", PluginProtocolViolation);
    (bs "SANDBOX_UNAVAILABLE", SandboxUnavailable);
    (bs "PLUGIN_REVOKED", PluginRevoked);
    (bs "BACKPRESSURE", Backpressure);
    (bs "INTERNAL_ERROR", InternalError);
    (bs "COMMAND_IN_PROGRESS", CommandInProgress);
    (bs "ADMIN_AUTH_UNAVAILABLE", AdminAuthUnavailable);
    (bs "UNSUPPORTED_CAPABILITY", UnsupportedCapability);
    (bs "ID_GENERATION_UNAVAILABLE", IdGenerationUnavailable);
    (bs "REVISION_EXHAUSTED", RevisionExhausted) ].

Definition from_str (value : list byte) : result ValueError ErrorCode :=
  if negb ((MIN_ERROR_CODE_BYTES <=? blen value) && (blen value <=? MAX_ERROR_CODE_BYTES))
     || negb (is_ascii value)
  then Err UnknownErrorCode
  else ok_or UnknownErrorCode (match_str value error_code_arms).

Lemma as_str_from_str c : from_str (as_str c) = Ok c.
Proof. destruct c; vm_compute; reflexivity. Qed.

Lemma from_str_as_str s c : from_str s = Ok c -> as_str c = s.
Proof.
  unfold from_str. destruct (_ || _); [done|]. intros H%ok_or_ok%match_str_elem.
  assert (Hall : Forall (fun p => as_str p.2 = p.1) error_code_arms) by (repeat constructor).
  exact (proj1 (Forall_forall _ _) Hall _ H).
Qed.

#[global] Instance error_code_text : CanonicalText ValueError ErrorCode := {|
  text_wf _ := True; text_print := as_str; text_parse := from_str;
  text_parse_print c _ := as_str_from_str c;
  text_print_parse s c H := conj I (from_str_as_str s c H) |}.

End ErrorCodeText.

(** ** digest.rs *)

Module Digest.

Definition Sha256Digest : Type := list byte.
Definition wf (d : Sha256Digest) : Prop := length d = 32%nat.

(** [impl Display]: 64 lowercase hexadecimal digits. *)
Definition to_string (d : Sha256Digest) : list byte := to_hex d.

Definition lowercase_hex_value (b : byte) : option Z :=
  if in_range 48 57 b then Some (b2z b - 48)
  else if in_range 97 102 b then Some (b2z b - 97 + 10)
  else None.

(** [as_chunks::<2>()]. *)
Fixpoint as_chunks2 (l : list byte) : list (byte * byte) * list byte :=
  match l with
  | a :: b :: t => let '(ps, r) := as_chunks2 t in ((a, b) :: ps, r)
  | r => ([], r)
  end.

Fixpoint decode_pairs (ps : list (byte * byte)) : result ValueError (list byte) :=
  match ps with
  | [] => Ok []
  | (p0, p1) :: t =>
      let? high := ok_or InvalidDigest (lowercase_hex_value p0) in
      let? low := ok_or InvalidDigest (lowercase_hex_value p1) in
      let? rest := decode_pairs t in
      Ok (z2b (Z.lor (Z.shiftl high 4) low) :: rest)
  end.

Definition from_str (value : list byte) : result ValueError Sha256Digest :=
  if negb (blen value =? 64) || negb (is_ascii value) then Err InvalidDigest
  else
    let '(pairs, remainder) := as_chunks2 value in
    if negb (bool_decide (remainder = [])) then Err InvalidDigest
    else decode_pairs pairs.

Lemma hex_pair_byte b :
  match lowercase_hex_value (hex_digit (b2z b / 16)), lowercase_hex_value (hex_digit (b2z b mod 16)) with
  | Some h, Some l => bool_decide (z2b (Z.lor (Z.shiftl h 4) l) = b)
  | _, _ => false
  end = true.
Proof. revert b. apply byte_forallb. vm_compute. reflexivity. Qed.

Definition pair_ok (p q : byte) : bool :=
  match lowercase_hex_value p, lowercase_hex_value q with
  | Some h, Some l =>
      let b := z2b (Z.lor (Z.shiftl h 4) l) in
      bool_decide (hex_digit (b2z b / 16) = p) && bool_decide (hex_digit (b2z b mod 16) = q)
  | _, _ => true
  end.

Lemma pair_ok_all p q : pair_ok p q = true.
Proof.
  revert q. apply byte_forallb. revert p. apply byte_forallb. vm_compute. reflexivity.
Qed.

Lemma as_chunks2_to_hex d :
  as_chunks2 (to_hex d) = (map (fun b => (hex_digit (b2z b / 16), hex_digit (b2z b mod 16))) d, []).
Proof. unfold to_hex. induction d as [|b d IH]; cbn; [done|]. by rewrite IH. Qed.

Lemma decode_pairs_to_hex d :
  decode_pairs (map (fun b => (hex_digit (b2z b / 16), hex_digit (b2z b mod 16))) d) = Ok d.
Proof.
  induction d as [|b d IH]; [done|]. cbn [map decode_pairs].
  pose proof (hex_pair_byte b) as Hb.
  destruct (lowercase_hex_value (hex_digit (b2z b / 16))); [|done].
  destruct (lowercase_hex_value (hex_digit (b2z b mod 16))); [|done].
  bool_hyps. cbn. by rewrite IH, Hb.
Qed.

Lemma decode_pairs_sound ps d :
  decode_pairs ps = Ok d ->
  ps = map (fun b => (hex_digit (b2z b / 16), hex_digit (b2z b mod 16))) d.
Proof.
  revert d. induction ps as [|[p q] ps IH]; cbn; intros d H; inv_result; [done|].
  pose proof (pair_ok_all p q) as Hp. unfold pair_ok in Hp.
  rewrite H0, H1 in Hp. cbn [map]. apply andb_true_iff in Hp as [Hp Hq]. bool_hyps.
  rewrite Hp, Hq, <- IH; done.
Qed.

Fixpoint unpair (ps : list (byte * byte)) : list byte :=
  match ps with [] => [] | (a, b) :: t => a :: b :: unpair t end.

Lemma as_chunks2_sound n l ps : (length l <= n)%nat -> as_chunks2 l = (ps, []) -> l = unpair ps.
Proof.
  revert l ps. induction n as [|n IH]; intros [|a [|b l]] ps Hl; cbn in *; try lia;
    try (intros [= <-]; done).
  destruct (as_chunks2 l) as [ps' r] eqn:E. intros [= <- ->]. cbn. do 2 f_equal.
  apply IH; [lia|done].
Qed.

Lemma digest_parse_print d : wf d -> from_str (to_string d) = Ok d.
Proof.
  intros Hd. unfold from_str, to_string. unfold blen. rewrite to_hex_length, Hd, to_hex_ascii. cbn [negb orb Z.eqb].
  rewrite as_chunks2_to_hex. apply decode_pairs_to_hex.
Qed.

Lemma digest_print_parse s d : from_str s = Ok d -> wf d /\ to_string d = s.
Proof.
  unfold from_str. destruct (_ || _) eqn:Hg; [done|]. bool_hyps.
  destruct (as_chunks2 s) as [ps r] eqn:Ec. destruct (negb _) eqn:Er; [done|]. bool_hyps. subst r.
  intros Hd%decode_pairs_sound.
  apply (as_chunks2_sound (length s)) in Ec; [|done].
  assert (Hs : to_string d = s).
  { rewrite Ec, Hd. clear. unfold to_string, to_hex. induction d; cbn; congruence. }
  split; [|done]. unfold wf. apply (f_equal blen) in Hs.
  unfold to_string, blen in *. rewrite to_hex_length in Hs. lia.
Qed.

#[global] Instance digest_text : CanonicalText ValueError Sha256Digest := {|
  text_wf := wf; text_print := to_string; text_parse := from_str;
  text_parse_print := digest_parse_print; text_print_parse := digest_print_parse |}.

End Digest.

(** ** revision.rs *)

Module Revision.

(** [RevisionNo(u64)], by its value. *)
Definition RevisionNo : Type := Z.
Definition wf (r : RevisionNo) : Prop := is_u64 r.
Definition INITIAL : RevisionNo := 0.

Definition checked_next (r : RevisionNo) : result RevisionOverflow RevisionNo :=
  match checked_add U64_MAX r 1 with
  | Some next => Ok next
  | None => Err RevisionOverflow_
  end.

Definition to_string (r : RevisionNo) : list byte := dec_print r.

Definition starts_with_zero (l : list byte) : bool := bool_decide (head l = Some x30).

Definition from_str (value : list byte) : result ValueError RevisionNo :=
  if bool_decide (value = []) || (20 <? blen value) || negb (is_ascii value)
     || negb (forallb is_ascii_digit value)
     || ((1 <? blen value) && starts_with_zero value)
  then Err InvalidRevision
  else ok_or InvalidRevision (parse_u64_digits value).

Lemma digits_ascii l : forallb is_ascii_digit l = true -> is_ascii l = true.
Proof.
  unfold is_ascii. rewrite !forallb_forall. intros H x Hx. specialize (H x Hx).
  unfold is_ascii_digit, in_range in *. bool_hyps. apply andb_true_iff. split; apply Z.leb_le; lia.
Qed.

Lemma u64_dec z : is_u64 z -> 0 <= z < 10 ^ Z.of_nat 20.
Proof. unfold_max. cbn. lia. Qed.

Lemma revision_parse_print r : wf r -> from_str (to_string r) = Ok r.
Proof.
  intros Hr. pose proof (u64_dec r Hr) as Hb. unfold wf in Hr. unfold from_str, to_string, dec_print, parse_u64_digits.
  pose proof (dec_print_digits 20 r ltac:(lia)) as Hd. pose proof (dec_print_length 20 r) as Hl.
  pose proof (dec_print_value 20 r Hb ltac:(done)) as Hv. pose proof (dec_print_head 20 r) as Hh.
  destruct (dec_print_fuel 20 r) as [|b t] eqn:E.
  { cbn [dec_print_fuel] in E. destruct (r <? 10); [done|]. symmetry in E. by apply app_cons_not_nil in E. }
  rewrite bool_decide_false by done. rewrite (digits_ascii _ Hd), Hd.
  rewrite (proj2 (Z.ltb_ge _ _)) by (unfold blen; lia). cbn [negb orb].
  assert (Hz : (1 <? blen (b :: t)) && starts_with_zero (b :: t) = false).
  { apply andb_false_iff. unfold starts_with_zero. destruct (decide (b = x30)) as [->|Hb0].
    - left. destruct (Hh t Hb eq_refl) as [_ ->]. done.
    - right. apply bool_decide_eq_false. cbn. congruence. }
  rewrite Hz, Hv, (proj2 (Z.leb_le _ _)) by apply Hr. done.
Qed.

Lemma revision_print_parse s r : from_str s = Ok r -> wf r /\ to_string r = s.
Proof.
  unfold from_str, parse_u64_digits. destruct (_ || _) eqn:Hg; [done|]. intros H%ok_or_ok.
  bool_hyps. destruct (_ <=? _) eqn:Hm; [|done]. injection H as <-. bool_hyps.
  match goal with Hz : (_ && _)%bool = false |- _ => apply andb_false_iff in Hz as H0' end.
  assert (Hs : to_string (dec_fold 0 s) = s).
  { apply dec_print_fold; [done..| |].
    - unfold blen in *. lia.
    - intros Hl Hz. destruct H0' as [H0'|H0']; unfold starts_with_zero in *; bool_hyps; [lia|done]. }
  split; [|done]. split; [|done].
  assert (forall l acc, forallb is_ascii_digit l = true -> 0 <= acc -> 0 <= dec_fold acc l) as Hpos.
  { clear. induction l as [|x l IH]; cbn; [done|]. intros acc Hx Ha. bool_hyps.
    apply is_ascii_digit_value in H. apply IH; [done|lia]. }
  by apply Hpos.
Qed.

#[global] Instance revision_text : CanonicalText ValueError RevisionNo := {|
  text_wf := wf; text_print := to_string; text_parse := from_str;
  text_parse_print := revision_parse_print; text_print_parse := revision_print_parse |}.

Lemma checked_next_ok r n : checked_next r = Ok n <-> n = r + 1 /\ r + 1 <= U64_MAX.
Proof.
  unfold checked_next. destruct (checked_add _ _ _) eqn:E.
  - apply checked_add_Some in E as [-> ?]. split; [intros [= <-]; done|intros [-> _]; done].
  - apply checked_add_None in E. split; [done|intros [_ ?]; lia].
Qed.

End Revision.

(** ** id.rs: identities over the [uuid] crate *)

Module TypedId.

(** The operations of the [uuid] crate that [id.rs] calls, on a [Uuid] as its
    sixteen bytes. *)
Class UuidCrate := {
  is_nil : list byte -> bool;
  (** [get_variant() == Variant::RFC4122] *)
  variant_rfc4122 : list byte -> bool;
  (** [get_version() == Some(Version::SortRand)] *)
  version_sort_rand : list byte -> bool;
  parse_str : list byte -> option (list byte);
  hyphenated : list byte -> list byte;
  from_unix_timestamp_millis : Z -> list byte -> list byte;
}.

(** What the crate documents of them: 16 bytes in and out, [hyphenated] prints
    36 ASCII bytes which [parse_str] reads back, and the builder makes a
    non-nil RFC version 7 value. *)
Class UuidLaws (C : UuidCrate) : Prop := {
  parse_hyphenated : forall u, length u = 16%nat -> parse_str (hyphenated u) = Some u;
  parse_length : forall s u, parse_str s = Some u -> length u = 16%nat;
  hyphenated_shape : forall u, length u = 16%nat ->
    blen (hyphenated u) = 36 /\ is_ascii (hyphenated u) = true;
  builder_length : forall ms r, 0 <= ms < 2^48 -> length r = 10%nat ->
    length (from_unix_timestamp_millis ms r) = 16%nat;
  builder_v7 : forall ms r, 0 <= ms < 2^48 -> length r = 10%nat ->
    let u := from_unix_timestamp_millis ms r in
    is_nil u = false /\ variant_rfc4122 u = true /\ version_sort_rand u = true;
}.

Section id.
Context `{UuidCrate}.

Definition Id : Type := list byte.
Definition MAX_UUID_V7_MILLIS : Z := Z.shiftl 1 48 - 1.

Definition from_bytes (bytes : list byte) : result ValueError Id :=
  if is_nil bytes || negb (variant_rfc4122 bytes) || negb (version_sort_rand bytes)
  then Err InvalidId else Ok bytes.

Definition to_bytes (i : Id) : list byte := i.
Definition to_string (i : Id) : list byte := hyphenated i.

(** [clock] yields the elapsed milliseconds, [entropy] the ten random bytes. *)
Definition try_new_with_sources (clock : result IdGenerationError Z)
    (entropy : result IdGenerationError (list byte)) : result IdGenerationError Id :=
  let? millis := clock in
  if MAX_UUID_V7_MILLIS <? millis then Err TimestampOutOfRange
  else
    let? random := entropy in
    Ok (from_unix_timestamp_millis millis random).

Definition from_str (value : list byte) : result ValueError Id :=
  if negb (blen value =? 36) || negb (is_ascii value) then Err InvalidId
  else
    let? uuid := ok_or InvalidId (parse_str value) in
    if negb (bool_decide (hyphenated uuid = value)) then Err InvalidId
    else from_bytes uuid.

(** A valid identity: sixteen bytes that [from_bytes] accepts. *)
Definition wf (i : Id) : Prop := length i = 16%nat /\ from_bytes i = Ok i.

Context {L : UuidLaws _}.

Lemma from_bytes_ok b i : from_bytes b = Ok i -> i = b.
Proof. unfold from_bytes. destruct (_ || _); naive_solver. Qed.

Lemma id_parse_print i : wf i -> from_str (to_string i) = Ok i.
Proof.
  intros [Hl Hi]. unfold from_str, to_string. destruct (hyphenated_shape i Hl) as [-> ->].
  cbn. rewrite parse_hyphenated by done. cbn. by rewrite bool_decide_true.
Qed.

Lemma id_print_parse s i : from_str s = Ok i -> wf i /\ to_string i = s.
Proof.
  unfold from_str. destruct (_ || _); [done|]. intros Hs. inv_result.
  destruct (negb _) eqn:E; [done|]. bool_hyps.
  pose proof (from_bytes_ok _ _ Hs); subst. split; [split; [by eapply parse_length|done]|done].
Qed.

#[global] Instance id_text : CanonicalText ValueError Id := {|
  text_wf := wf; text_print := to_string; text_parse := from_str;
  text_parse_print := id_parse_print; text_print_parse := id_print_parse |}.

(** Every generated identity passes the validation of [from_bytes]. *)
Lemma generated_wf millis random i :
  0 <= millis -> length random = 10%nat ->
  try_new_with_sources (Ok millis) (Ok random) = Ok i -> wf i.
Proof.
  intros Hm Hr. unfold try_new_with_sources. cbn [result_bind].
  destruct (_ <? _) eqn:E; [done|]. bool_hyps. cbn. intros [= <-].
  assert (0 <= millis < 2 ^ 48) by (split; [done|]; change MAX_UUID_V7_MILLIS with (2^48 - 1) in E; lia).
  destruct (builder_v7 millis random) as (Hn & Hv & Hs); [done..|].
  split; [by apply builder_length|]. unfold from_bytes. by rewrite Hn, Hv, Hs.
Qed.
End id.
End TypedId.

(** A concrete [UuidCrate] after RFC 9562, to show the laws can be met. *)
Module Rfc9562.
Import TypedId.

Definition byte_at (l : list byte) (i : nat) : Z := b2z (nth i l x00).

Definition hyphenated_ (u : list byte) : list byte :=
  to_hex (take 4 u) ++ [x2d] ++ to_hex (take 2 (drop 4 u)) ++ [x2d]
  ++ to_hex (take 2 (drop 6 u)) ++ [x2d] ++ to_hex (take 2 (drop 8 u)) ++ [x2d]
  ++ to_hex (drop 10 u).

Definition parse_str_ (s : list byte) : option (list byte) :=
  let digits := take 8 s ++ take 4 (drop 9 s) ++ take 4 (drop 14 s) ++ take 4 (drop 19 s) ++ drop 24 s in
  match Digest.as_chunks2 digits with
  | (ps, []) => match Digest.decode_pairs ps with
                | Ok u => if bool_decide (length u = 16%nat) then Some u else None
                | Err _ => None
                end
  | _ => None
  end.

Definition builder_ (millis : Z) (r : list byte) : list byte :=
  be_bytes 6 millis ++
  match r with
  | r0 :: r1 :: r2 :: t => z2b (Z.lor 112 (Z.land (b2z r0) 15)) :: r1 :: z2b (Z.lor 128 (Z.land (b2z r2) 63)) :: t
  | t => t
  end.

Definition rfc : UuidCrate := {|
  is_nil u := forallb (fun b => bool_decide (b = x00)) u;
  variant_rfc4122 u := Z.land (byte_at u 8) 192 =? 128;
  version_sort_rand u := Z.shiftr (byte_at u 6) 4 =? 7;
  parse_str := parse_str_; hyphenated := hyphenated_;
  from_unix_timestamp_millis := builder_ |}.

Lemma version_nibble (b : byte) :
  let v := z2b (Z.lor 112 (Z.land (b2z b) 15)) in
  (Z.shiftr (b2z v) 4 =? 7) && negb (bool_decide (v = x00)) = true.
Proof. revert b. apply byte_forallb. vm_compute. reflexivity. Qed.

Lemma variant_bits (b : byte) :
  (Z.land (b2z (z2b (Z.lor 128 (Z.land (b2z b) 63)))) 192 =? 128) = true.
Proof. revert b. apply byte_forallb. vm_compute. reflexivity. Qed.

Lemma length_16 (u : list byte) : length u = 16%nat ->
  exists a b c d e f g h i j k l m n o p, u = [a; b; c; d; e; f; g; h; i; j; k; l; m; n; o; p].
Proof.
  intros H. do 16 (destruct u as [|? u]; [discriminate H|]; cbn in H).
  destruct u; [|discriminate H]. do 16 eexists. reflexivity.
Qed.

#[global] Instance rfc_laws : UuidLaws rfc.
Proof.
  split; cbn -[builder_].
  - intros u Hu. unfold parse_str_.
    assert (Hd : take 8 (hyphenated_ u) ++ take 4 (drop 9 (hyphenated_ u)) ++ take 4 (drop 14 (hyphenated_ u))
                 ++ take 4 (drop 19 (hyphenated_ u)) ++ drop 24 (hyphenated_ u) = to_hex u).
    { destruct (length_16 u Hu) as (?&?&?&?&?&?&?&?&?&?&?&?&?&?&?&?&->). reflexivity. }
    by rewrite Hd, Digest.as_chunks2_to_hex, Digest.decode_pairs_to_hex, bool_decide_true.
  - intros s u. unfold parse_str_. destruct (Digest.as_chunks2 _) as [ps [|]]; [|done].
    destruct (Digest.decode_pairs ps); [|done]. case_bool_decide; naive_solver.
  - intros u Hu. destruct (length_16 u Hu) as (?&?&?&?&?&?&?&?&?&?&?&?&?&?&?&?&->).
    split; [reflexivity|]. unfold hyphenated_. rewrite !is_ascii_app, !to_hex_ascii. reflexivity.
  - intros ms r _ Hr. unfold builder_. rewrite length_app, be_bytes_length.
    destruct r as [|? [|? [|? ?]]]; cbn in *; lia.
  - intros ms r _ Hr. unfold builder_.
    destruct r as [|r0 [|r1 [|r2 r]]]; cbn [length] in Hr; try lia.
    set (v := z2b (Z.lor 112 (Z.land (b2z r0) 15))).
    pose proof (version_nibble r0) as Hv. cbv zeta in Hv. fold v in Hv.
    apply andb_true_iff in Hv as [Hv Hn].
    assert (H6 : byte_at (be_bytes 6 ms ++ v :: r1 :: z2b (Z.lor 128 (Z.land (b2z r2) 63)) :: r) 6 = b2z v).
    { unfold byte_at. rewrite app_nth2; rewrite be_bytes_length; [reflexivity|lia]. }
    assert (H8 : byte_at (be_bytes 6 ms ++ v :: r1 :: z2b (Z.lor 128 (Z.land (b2z r2) 63)) :: r) 8
                 = b2z (z2b (Z.lor 128 (Z.land (b2z r2) 63)))).
    { unfold byte_at. rewrite app_nth2; rewrite be_bytes_length; [reflexivity|lia]. }
    rewrite H6, H8, Hv, variant_bits. split; [|done].
    rewrite forallb_app. cbn [forallb]. apply negb_true_iff in Hn. rewrite Hn.
    apply andb_false_r.
Qed.
End Rfc9562.

(** ** timestamp.rs: instants over the [time] crate *)

Module TimestampValue.

Class TimeCrate := {
  OffsetDateTime : Type;
  from_unix_timestamp_nanos : Z -> option OffsetDateTime;
  unix_timestamp : OffsetDateTime -> Z;
  nanosecond : OffsetDateTime -> Z;
  offset_is_utc : OffsetDateTime -> bool;
  year : OffsetDateTime -> Z;
}.

(** Documented: the instant has the given number of nanoseconds since the epoch
    in whole seconds (towards minus infinity) and the nanoseconds within it. *)
Class TimeLaws (C : TimeCrate) : Prop := {
  nanos_seconds : forall n t, from_unix_timestamp_nanos n = Some t -> unix_timestamp t = n / 10^9;
  nanos_subsec : forall n t, from_unix_timestamp_nanos n = Some t -> nanosecond t = n mod 10^9;
}.

Section timestamp.
Context `{TimeCrate}.
Definition Timestamp : Type := OffsetDateTime.
Definition NANOS_PER_SECOND : Z := 1000000000.

Definition from_validated_utc (t : OffsetDateTime) : result ValueError Timestamp :=
  if negb (offset_is_utc t) || negb ((1 <=? year t) && (year t <=? 9999))
  then Err InvalidTimestamp else Ok t.

Definition from_unix_seconds_nanos (seconds nanos : Z) : result ValueError Timestamp :=
  if 999999999 <? nanos then Err InvalidTimestamp
  else
    let total_nanos := seconds * NANOS_PER_SECOND + nanos in
    let? timestamp := ok_or InvalidTimestamp (from_unix_timestamp_nanos total_nanos) in
    from_validated_utc timestamp.

Definition unix_seconds (t : Timestamp) : Z := unix_timestamp t.
Definition subsec_nanoseconds (t : Timestamp) : Z := nanosecond t.

Context {L : TimeLaws _}.

(** The stored (seconds, nanoseconds) pair of an accepted instant is the pair
    it was built from. *)
Lemma seconds_nanos_roundtrip s n t :
  0 <= n -> from_unix_seconds_nanos s n = Ok t -> unix_seconds t = s /\ subsec_nanoseconds t = n.
Proof.
  intros Hn. unfold from_unix_seconds_nanos, unix_seconds, subsec_nanoseconds, NANOS_PER_SECOND.
  destruct (_ <? _) eqn:E; [done|]. bool_hyps. intros H0. inv_result.
  unfold from_validated_utc in H0. destruct (_ || _); [done|]. injection H0 as <-.
  rewrite (nanos_seconds _ _ H1), (nanos_subsec _ _ H1). split.
  - rewrite Z.div_add_l, Z.div_small by lia. lia.
  - rewrite Z.add_comm, Z.mod_add, Z.mod_small by lia. lia.
Qed.
End timestamp.
End TimestampValue.

(** ** Properties of the foundation values *)

(** Every foundation value has exactly one text.  Printing an error code, a
    32-byte digest or a [u64] revision and parsing the text gives the value back,
    and every text the parsers accept is the one the printer would write, so no
    two accepted texts denote the same value (no upper-case digests, no leading
    zeros, no revision past [u64::MAX]). *)
Theorem foundation_text_canonical :
  (forall c, ErrorCodeText.from_str (ErrorCodeText.as_str c) = Ok c) /\
  (forall s c, ErrorCodeText.from_str s = Ok c -> ErrorCodeText.as_str c = s) /\
  (forall d, Digest.wf d -> Digest.from_str (Digest.to_string d) = Ok d) /\
  (forall s d, Digest.from_str s = Ok d -> Digest.wf d /\ Digest.to_string d = s) /\
  (forall r, Revision.wf r -> Revision.from_str (Revision.to_string r) = Ok r) /\
  (forall s r, Revision.from_str s = Ok r -> Revision.wf r /\ Revision.to_string r = s).
Proof.
  split_and!; [exact ErrorCodeText.as_str_from_str|exact ErrorCodeText.from_str_as_str
    |exact Digest.digest_parse_print|exact Digest.digest_print_parse
    |exact Revision.revision_parse_print|exact Revision.revision_print_parse].
Qed.

(** Under the documented behaviour of the [uuid] crate, an identity generated
    from a clock not past the 48-bit millisecond range and ten random bytes exists,
    satisfies the UUIDv7 contract that [from_bytes] enforces on stored bytes, and
    its text parses back to it. *)
Theorem generated_id_roundtrip (C : TypedId.UuidCrate) (L : TypedId.UuidLaws C)
    (millis : Z) (random : list byte) :
  0 <= millis <= TypedId.MAX_UUID_V7_MILLIS -> length random = 10%nat ->
  exists i, TypedId.try_new_with_sources (Ok millis) (Ok random) = Ok i /\
            TypedId.from_bytes (TypedId.to_bytes i) = Ok i /\
            TypedId.from_str (TypedId.to_string i) = Ok i.
Proof.
  intros [Hm Hx] Hr.
  destruct (TypedId.try_new_with_sources (Ok millis) (Ok random)) as [i|e] eqn:E.
  - exists i. split; [done|]. pose proof (TypedId.generated_wf _ _ _ Hm Hr E) as Hw.
    split; [apply Hw|by apply TypedId.id_parse_print].
  - unfold TypedId.try_new_with_sources in E. cbn [result_bind] in E.
    rewrite (proj2 (Z.ltb_ge _ _)) in E by done. done.
Qed.

Definition sample_random : list byte := repeat x5a 10.
Lemma generated_id_roundtrip_witness :
  exists i, @TypedId.try_new_with_sources Rfc9562.rfc (Ok 1700000000000) (Ok sample_random) = Ok i /\
            @TypedId.from_bytes Rfc9562.rfc (TypedId.to_bytes i) = Ok i /\
            @TypedId.from_str Rfc9562.rfc (@TypedId.to_string Rfc9562.rfc i) = Ok i.
Proof.
  apply (generated_id_roundtrip Rfc9562.rfc Rfc9562.rfc_laws 1700000000000 sample_random).
  - split; [lia|]. vm_compute. congruence.
  - reflexivity.
Defined.
