(* ===== verification/Framing.v ===== *)
(** Bounded framing: the crate [mengxia-framing].

    A frame is a four-byte big-endian length and a payload of 1 to [limit] bytes.
    A reader is the bytes still to come and how the stream ends; a writer is the
    bytes written so far and how many more the transport accepts before it fails.
    Failures leave the reader where the source leaves it, so the amount consumed
    on every path is part of the model. *)
From Stdlib Require Import ZArith Lia.
From Stdlib Require Import Strings.Byte Init.Byte.
From stdpp Require Import prelude list.
From S2P Require Import Prelude.

Set Warnings "-clear-no-such-hyp".

Module Framing.

Definition MIN_FRAME_BYTES : Z := 64 * 1024.
Definition DEFAULT_FRAME_BYTES : Z := 4 * 1024 * 1024.
Definition MAX_FRAME_BYTES : Z := 16 * 1024 * 1024.
Definition FRAME_HEADER_BYTES : Z := 4.

Inductive FrameError := InvalidLimit | InvalidLength | Truncated | AllocationUnavailable | Transport.
#[global] Instance FrameError_eq_dec : EqDecision FrameError.
Proof. solve_decision. Defined.

(** [FrameLimit(u32)], by its value. *)
Definition FrameLimit : Type := Z.
Definition frame_limit_new (bytes : Z) : result FrameError FrameLimit :=
  if (bytes <? MIN_FRAME_BYTES) || (MAX_FRAME_BYTES <? bytes) then Err InvalidLimit else Ok bytes.
Definition frame_limit_default : FrameLimit := DEFAULT_FRAME_BYTES.

(** ** Transports *)

(** How a stream ends after its last byte: end of file, or an I/O failure. *)
Inductive StreamEnd := Eof | Broken.
Record Reader := { incoming : list byte; stream_end : StreamEnd }.

Definition end_error (e : StreamEnd) : FrameError :=
  match e with Eof => Truncated | Broken => Transport end.

(** [read_exact]: fills a buffer of [n] bytes, or consumes what is left and fails. *)
Definition read_exact (r : Reader) (n : Z) : result FrameError (list byte) * Reader :=
  match split_exact n (incoming r) with
  | Some (bytes, rest) => (Ok bytes, {| incoming := rest; stream_end := stream_end r |})
  | None => (Err (end_error (stream_end r)), {| incoming := []; stream_end := stream_end r |})
  end.

(** A writer with the bytes it accepted and the number it still accepts
    ([None]: no bound), and whether [flush] succeeds. *)
Record Writer := { written : list byte; capacity : option Z; flushes : bool }.

Definition write_all (w : Writer) (bytes : list byte) : result FrameError () * Writer :=
  match capacity w with
  | None => (Ok tt, {| written := written w ++ bytes; capacity := None; flushes := flushes w |})
  | Some c =>
      if blen bytes <=? c
      then (Ok tt, {| written := written w ++ bytes; capacity := Some (c - blen bytes); flushes := flushes w |})
      else (Err Transport,
            {| written := written w ++ take (Z.to_nat c) bytes; capacity := Some 0; flushes := flushes w |})
  end.

Section codec.
(** Whether the allocator grants a reservation of the given size. *)
Context (try_reserve_exact : Z -> bool).

Definition read_frame (r : Reader) (limit : FrameLimit) : result FrameError (list byte) * Reader :=
  match read_exact r FRAME_HEADER_BYTES with
  | (Err e, r1) => (Err e, r1)
  | (Ok header, r1) =>
      let length := be_value header in
      if (length =? 0) || (limit <? length) then (Err InvalidLength, r1)
      else match try_into USIZE_MAX length with
      | None => (Err InvalidLength, r1)
      | Some length =>
          if negb (try_reserve_exact length) then (Err AllocationUnavailable, r1)
          else read_exact r1 length
      end
  end.

(** Read [n] frames one after the other, stopping at the first failure. *)
Fixpoint read_frames (n : nat) (r : Reader) (limit : FrameLimit)
  : result FrameError (list (list byte)) * Reader :=
  match n with
  | O => (Ok [], r)
  | S m =>
      match read_frame r limit with
      | (Err e, r1) => (Err e, r1)
      | (Ok p, r1) =>
          match read_frames m r1 limit with
          | (Err e, r2) => (Err e, r2)
          | (Ok ps, r2) => (Ok (p :: ps), r2)
          end
      end
  end.
End codec.

Definition write_frame (w : Writer) (payload : list byte) (limit : FrameLimit)
  : result FrameError () * Writer :=
  if bool_decide (payload = []) || (limit <? blen payload) then (Err InvalidLength, w)
  else match try_into U32_MAX (blen payload) with
  | None => (Err InvalidLength, w)
  | Some length =>
      match write_all w (be_bytes 4 length) with
      | (Err e, w1) => (Err e, w1)
      | (Ok _, w1) =>
          match write_all w1 payload with
          | (Err e, w2) => (Err e, w2)
          | (Ok _, w2) => (if flushes w2 then Ok tt else Err Transport, w2)
          end
      end
  end.

(** Write a sequence of payloads, stopping at the first failure. *)
Fixpoint write_frames (w : Writer) (ps : list (list byte)) (limit : FrameLimit)
  : result FrameError () * Writer :=
  match ps with
  | [] => (Ok tt, w)
  | p :: ps' =>
      match write_frame w p limit with
      | (Err e, w1) => (Err e, w1)
      | (Ok _, w1) => write_frames w1 ps' limit
      end
  end.

(** ** Lemmas *)

Definition frame_bytes (p : list byte) : list byte := be_bytes 4 (blen p) ++ p.
Definition limit_ok (limit : FrameLimit) : Prop := MIN_FRAME_BYTES <= limit <= MAX_FRAME_BYTES.
Definition payload_ok (limit : FrameLimit) (p : list byte) : Prop := p <> [] /\ blen p <= limit.

Lemma frame_limit_new_ok b l : frame_limit_new b = Ok l <-> l = b /\ limit_ok b.
Proof.
  unfold frame_limit_new, limit_ok. destruct (_ || _) eqn:E.
  - apply orb_true_iff in E as [E|E]; bool_hyps; (split; [done|intros [_ ?]; lia]).
  - bool_hyps. split; [intros [= <-]; split; [done|lia]|intros [-> _]; done].
Qed.

Lemma read_exact_app bytes rest e :
  read_exact {| incoming := bytes ++ rest; stream_end := e |} (blen bytes)
  = (Ok bytes, {| incoming := rest; stream_end := e |}).
Proof. unfold read_exact. cbn. by rewrite split_exact_app. Qed.

Lemma write_all_unbounded bytes w :
  capacity w = None ->
  write_all w bytes = (Ok tt, {| written := written w ++ bytes; capacity := None; flushes := flushes w |}).
Proof. intros H. unfold write_all. by rewrite H. Qed.

Lemma payload_length limit p : limit_ok limit -> payload_ok limit p -> 0 < blen p <= U32_MAX.
Proof.
  unfold limit_ok, payload_ok, MAX_FRAME_BYTES. unfold_max. intros Hl [Hp Hs].
  destruct (decide (blen p = 0)) as [E%blen_zero|]; [done|]. pose proof (blen_nonneg p). lia.
Qed.

(** The wire image of one write, whatever the transport does: a failed write has
    emitted a prefix of the frame, a successful one the whole frame. *)
Lemma write_frame_image w p limit res w' :
  limit_ok limit -> (forall c, capacity w = Some c -> 0 <= c) ->
  write_frame w p limit = (res, w') ->
  exists k, written w' = written w ++ k /\ k `prefix_of` frame_bytes p /\
            (res = Ok tt -> k = frame_bytes p).
Proof.
  intros Hl Hc. unfold write_frame. destruct (_ || _) eqn:Hg.
  { intros [= <- <-]. exists []. rewrite app_nil_r. split_and!; [done|apply prefix_nil|done]. }
  bool_hyps. assert (0 < blen p <= U32_MAX) by (by apply (payload_length limit)).
  rewrite try_into_id by lia.
  unfold write_all. destruct w as [wr [c|] fl]; cbn [capacity written flushes].
  - specialize (Hc c eq_refl).
    assert (Hb4 : blen (be_bytes 4 (blen p)) = 4) by (unfold blen; by rewrite be_bytes_length).
    destruct (_ <=? c) eqn:E1; cbn [capacity written flushes].
    + destruct (_ <=? c - _) eqn:E2; intros [= <- <-]; cbn [written].
      * exists (frame_bytes p). unfold frame_bytes. by rewrite app_assoc.
      * exists (be_bytes 4 (blen p) ++ take (Z.to_nat (c - blen (be_bytes 4 (blen p)))) p).
        rewrite app_assoc. split_and!; [done| |done].
        apply prefix_app, prefix_take.
    + intros [= <- <-]. exists (take (Z.to_nat c) (be_bytes 4 (blen p))).
      split_and!; [done| |done]. unfold frame_bytes. apply prefix_app_r, prefix_take.
  - intros [= <- <-]. cbn [written]. exists (frame_bytes p). unfold frame_bytes. by rewrite app_assoc.
Qed.

Lemma read_frame_image alloc p rest e limit :
  limit_ok limit -> payload_ok limit p -> alloc (blen p) = true ->
  read_frame alloc {| incoming := frame_bytes p ++ rest; stream_end := e |} limit
  = (Ok p, {| incoming := rest; stream_end := e |}).
Proof.
  intros Hl Hp Ha. pose proof (payload_length _ _ Hl Hp) as Hlen. destruct Hp as [Hne Hle].
  unfold read_frame, frame_bytes. rewrite <- app_assoc.
  assert (Hb4 : FRAME_HEADER_BYTES = blen (be_bytes 4 (blen p))) by (unfold blen; by rewrite be_bytes_length).
  rewrite Hb4, read_exact_app. rewrite be_value_bytes by (unfold_max; cbn; lia).
  rewrite (proj2 (Z.eqb_neq _ _)), (proj2 (Z.ltb_ge _ _)) by lia. cbn [orb].
  rewrite try_into_id by (unfold_max; lia).
  rewrite Ha. cbn [negb]. apply read_exact_app.
Qed.

(** An unbounded, flushing writer accepts every sequence of valid payloads. *)
Lemma write_frame_unbounded w p limit :
  limit_ok limit -> capacity w = None -> flushes w = true -> payload_ok limit p ->
  write_frame w p limit = (Ok tt, {| written := written w ++ frame_bytes p; capacity := None; flushes := true |}).
Proof.
  intros Hl Hc Hf Hp. pose proof (payload_length _ _ Hl Hp) as Hlen. destruct Hp as [Hne Hle].
  unfold write_frame. rewrite bool_decide_false, (proj2 (Z.ltb_ge _ _)) by (done || lia). cbn [orb].
  rewrite try_into_id by (unfold_max; lia).
  rewrite write_all_unbounded, write_all_unbounded by done. cbn [flushes written]. rewrite Hf.
  unfold frame_bytes. by rewrite app_assoc.
Qed.

Lemma write_frames_unbounded w ps limit :
  limit_ok limit -> capacity w = None -> flushes w = true -> Forall (payload_ok limit) ps ->
  exists w', write_frames w ps limit = (Ok tt, w') /\
             written w' = written w ++ concat (map frame_bytes ps).
Proof.
  intros Hl Hc Hf Hps. revert w Hc Hf. induction Hps as [|p ps Hp Hps IH]; intros w Hc Hf; cbn [write_frames map concat].
  - exists w. by rewrite app_nil_r.
  - rewrite write_frame_unbounded by done.
    destruct (IH {| written := written w ++ frame_bytes p; capacity := None; flushes := true |}) as (w' & Hw & Hb); [done..|].
    exists w'. rewrite Hw. split; [done|]. rewrite Hb. cbn [written]. by rewrite <- app_assoc.
Qed.

Lemma read_frames_image alloc ps rest e limit :
  limit_ok limit -> Forall (payload_ok limit) ps -> (forall n, n <= limit -> alloc n = true) ->
  read_frames alloc (length ps) {| incoming := concat (map frame_bytes ps) ++ rest; stream_end := e |} limit
  = (Ok ps, {| incoming := rest; stream_end := e |}).
Proof.
  intros Hl Hps Ha. induction Hps as [|p ps Hp Hps IH]; [done|]. cbn [length read_frames map concat].
  rewrite <- app_assoc, read_frame_image; [|done..|apply Ha, Hp]. by rewrite IH.
Qed.

(** What [read_frame] does on every input. *)
Lemma read_frame_cases alloc r limit res r' :
  limit_ok limit -> read_frame alloc r limit = (res, r') ->
  (exists p, res = Ok p /\ payload_ok limit p /\ incoming r = frame_bytes p ++ incoming r' /\ alloc (blen p) = true) \/
  (exists h, res = Err InvalidLength /\ blen h = 4 /\ incoming r = h ++ incoming r' /\
             (be_value h = 0 \/ limit < be_value h)) \/
  (exists h, res = Err AllocationUnavailable /\ blen h = 4 /\ incoming r = h ++ incoming r' /\
             0 < be_value h <= limit /\ alloc (be_value h) = false) \/
  (res = Err (end_error (stream_end r)) /\ incoming r' = [] /\
   forall p, payload_ok limit p -> ~ frame_bytes p `prefix_of` incoming r).
Proof.
  intros Hl. unfold read_frame, read_exact at 1. destruct (split_exact _ _) as [[h rest]|] eqn:E4.
  - apply split_exact_Some in E4 as [Hin Hh]. destruct (_ || _) eqn:Hg.
    { intros [= <- <-]. right; left. exists h. split_and!; [done..|].
      apply orb_true_iff in Hg as [Hg|Hg]; bool_hyps; auto. }
    bool_hyps. pose proof (be_value_range h) as Hr. rewrite Hh in Hr.
    change (256 ^ FRAME_HEADER_BYTES) with 4294967296 in Hr.
    rewrite try_into_id by (unfold_max; lia).
    destruct (alloc (be_value h)) eqn:Ha; cbn [negb].
    + unfold read_exact. cbn [incoming stream_end].
      assert (Hhb : h = be_bytes 4 (be_value h)).
      { rewrite <- (be_bytes_value h) at 1. f_equal. unfold blen, FRAME_HEADER_BYTES in Hh. lia. }
      destruct (split_exact (be_value h) rest) as [[p rest']|] eqn:Ep; intros [= <- <-].
      * apply split_exact_Some in Ep as [-> Hp]. left. exists p. rewrite Hp.
        split_and!; [done| | |done].
        -- split; [intros ->; rewrite blen_nil in Hp; lia|lia].
        -- cbn [incoming]. unfold frame_bytes. by rewrite Hp, <- Hhb, <- app_assoc.
      * right; right; right. split_and!; [done..|]. intros p Hp [k Hk].
        pose proof (payload_length _ _ Hl Hp) as Hlen. unfold frame_bytes in Hk.
        rewrite Hin, Hhb, <- app_assoc in Hk. apply app_inj_1 in Hk as [Hk ->]; [|by rewrite !be_bytes_length].
        apply (f_equal be_value) in Hk. rewrite !be_value_bytes in Hk by (change (256 ^ Z.of_nat 4) with 4294967296; unfold_max; lia).
        rewrite Hk, split_exact_app in Ep. done.
    + intros [= <- <-]. right; right; left. exists h. split_and!; [done..| | |done]; lia.
  - intros [= <- <-]. right; right; right. split_and!; [done..|]. intros p Hp [k Hk].
    apply split_exact_None in E4; [|unfold FRAME_HEADER_BYTES; lia].
    apply (f_equal blen) in Hk. unfold frame_bytes in Hk. rewrite !blen_app in Hk.
    pose proof (blen_nonneg p). pose proof (blen_nonneg k).
    assert (blen (be_bytes 4 (blen p)) = 4) by (unfold blen; by rewrite be_bytes_length).
    unfold FRAME_HEADER_BYTES in *. lia.
Qed.

(** A sequence of payloads written to a transport that accepts them arrives
    unchanged and in order at the other end: writing succeeds, reading as many
    frames succeeds whatever follows on the stream and however it ends, and the
    reader stops exactly at the first byte after the last frame. *)
Theorem frame_stream_roundtrip (limit : FrameLimit) (alloc : Z -> bool)
    (payloads : list (list byte)) (rest : list byte) (e : StreamEnd) :
  frame_limit_new limit = Ok limit ->
  (forall n, n <= limit -> alloc n = true) ->
  Forall (payload_ok limit) payloads ->
  exists w,
    write_frames {| written := []; capacity := None; flushes := true |} payloads limit = (Ok tt, w) /\
    read_frames alloc (length payloads) {| incoming := written w ++ rest; stream_end := e |} limit
    = (Ok payloads, {| incoming := rest; stream_end := e |}).
Proof.
  intros [_ Hl]%frame_limit_new_ok Ha Hp.
  destruct (write_frames_unbounded {| written := []; capacity := None; flushes := true |} payloads limit)
    as (w & Hw & Hb); [done..|].
  exists w. split; [done|]. rewrite Hb. by apply read_frames_image.
Qed.

Lemma frame_stream_roundtrip_witness :
  exists w,
    write_frames {| written := []; capacity := None; flushes := true |} [[x01; x02]; [x03]] 65536 = (Ok tt, w) /\
    read_frames (fun _ => true) 2 {| incoming := written w ++ [xff]; stream_end := Broken |} 65536
    = (Ok [[x01; x02]; [x03]], {| incoming := [xff]; stream_end := Broken |}).
Proof.
  apply (frame_stream_roundtrip 65536 (fun _ => true) [[x01; x02]; [x03]] [xff] Broken).
  - reflexivity.
  - reflexivity.
  - apply Forall_cons; split; [by split|]. apply Forall_cons; split; [by split|]. apply Forall_nil_2.
Defined.

(** On every input a read has exactly one of four outcomes: a payload of 1 to
    [limit] bytes with exactly its frame consumed; [InvalidLength] with only the
    header consumed and nothing allocated, for a zero or over-limit length;
    [AllocationUnavailable] for an in-range length the allocator refuses; or
    the end-of-stream error, only when the stream holds no complete frame. *)
Theorem read_frame_outcomes (alloc : Z -> bool) (r : Reader) (limit : FrameLimit)
    (res : result FrameError (list byte)) (r' : Reader) :
  frame_limit_new limit = Ok limit ->
  read_frame alloc r limit = (res, r') ->
  (exists p, res = Ok p /\ payload_ok limit p /\ incoming r = frame_bytes p ++ incoming r' /\ alloc (blen p) = true) \/
  (exists h, res = Err InvalidLength /\ blen h = 4 /\ incoming r = h ++ incoming r' /\
             (be_value h = 0 \/ limit < be_value h)) \/
  (exists h, res = Err AllocationUnavailable /\ blen h = 4 /\ incoming r = h ++ incoming r' /\
             0 < be_value h <= limit /\ alloc (be_value h) = false) \/
  (res = Err (end_error (stream_end r)) /\ incoming r' = [] /\
   forall p, payload_ok limit p -> ~ frame_bytes p `prefix_of` incoming r).
Proof. intros [_ Hl]%frame_limit_new_ok. by apply read_frame_cases. Qed.

Lemma read_frame_outcomes_witness :
  exists h, (Err InvalidLength : result FrameError (list byte)) = Err InvalidLength /\ blen h = 4 /\
    [x00; x00; x00; x00; x07] = h ++ [x07] /\ (be_value h = 0 \/ 65536 < be_value h).
Proof.
  destruct (read_frame_outcomes (fun _ => true) {| incoming := [x00; x00; x00; x00; x07]; stream_end := Eof |}
              65536 (Err InvalidLength) {| incoming := [x07]; stream_end := Eof |} eq_refl eq_refl)
    as [(p & H & _)|[H|[(h & H & _)|(H & _)]]]; [discriminate|exact H|discriminate|discriminate].
Defined.

End Framing.
