(* ===== verification/Varint.v ===== *)
(** Protobuf variable-length integers as both wire scanners read them.

    [mengxia-plugin-proto/src/wire.rs] and [mengxia-core-proto/src/lib.rs] each
    have a [read_varint].  A cursor [(input, &mut offset)] is modelled by the
    unread suffix of the input.  The two readers refuse different things with
    different tests; this file shows that both accept exactly the shortest
    little-endian base-128 encodings of the [u64] values. *)
From Stdlib Require Import ZArith Lia.
From Stdlib Require Import Strings.Byte Init.Byte.
From stdpp Require Import prelude list.
From S2P Require Import Prelude.

Set Warnings "-clear-no-such-hyp".

(** ** The encoding *)

(** The shortest encoding of a [u64]: ten bytes suffice for 64 bits. *)
Fixpoint varint_fuel (fuel : nat) (v : Z) : list byte :=
  match fuel with
  | O => []
  | S f => if v <? 128 then [z2b v] else z2b (128 + v mod 128) :: varint_fuel f (v / 128)
  end.
Definition varint (v : Z) : list byte := varint_fuel 10 v.

(** ** The plugin reader *)

Section plugin.
Context {E : Type} (truncated noncanonical : E).

(** Iteration [index] of the [for] loop; [n] iterations are left. *)
Fixpoint plugin_varint_loop (n : nat) (index : Z) (value : Z) (input : list byte)
  : result E (Z * list byte) :=
  match n with
  | O => Err noncanonical
  | S m =>
      match input with
      | [] => Err truncated
      | b :: t =>
          let byte := b2z b in
          if (index =? 9) && (1 <? byte) then Err noncanonical
          else
            let value := Z.lor value (Z.shiftl (Z.land byte 127) (index * 7)) in
            if Z.land byte 128 =? 0 then
              let width := index + 1 in
              if (1 <? width) && (value <? Z.shiftl 1 ((width - 1) * 7)) then Err noncanonical
              else Ok (value, t)
            else plugin_varint_loop m (index + 1) value t
      end
  end.
Definition plugin_read_varint (input : list byte) : result E (Z * list byte) :=
  plugin_varint_loop 10 0 0 input.
End plugin.

(** ** The core reader *)

Section core.
Context {E : Type} (malformed : E).

(** One iteration per [shift] in [(0..70).step_by(7)]. *)
Fixpoint core_varint_loop (n : nat) (shift : Z) (value : Z) (input : list byte)
  : result E (Z * list byte) :=
  match n with
  | O => Err malformed
  | S m =>
      match input with
      | [] => Err malformed
      | b :: t =>
          let byte := b2z b in
          if (shift =? 63) && (1 <? byte) then Err malformed
          else
            let value := Z.lor value (Z.shiftl (Z.land byte 127) shift) in
            if Z.land byte 128 =? 0 then
              if negb (shift =? 0) && (byte =? 0) then Err malformed
              else Ok (value, t)
            else core_varint_loop m (shift + 7) value t
      end
  end.
Definition core_read_varint (input : list byte) : result E (Z * list byte) :=
  core_varint_loop 10 0 0 input.
End core.

(** ** Lemmas *)

Lemma lor_shiftl_add a b k : 0 <= k -> 0 <= a < 2 ^ k -> Z.lor a (Z.shiftl b k) = a + b * 2 ^ k.
Proof.
  intros Hk Ha. rewrite Z.shiftl_mul_pow2 by done.
  assert (Hl : Z.land a (b * 2 ^ k) = 0).
  { apply Z.bits_inj'. intros n Hn. rewrite Z.land_spec, Z.bits_0, Z.mul_pow2_bits by done.
    destruct (decide (n < k)) as [Hlt|Hge].
    - rewrite (Z.testbit_neg_r b (n - k)) by lia. apply andb_false_r.
    - destruct (decide (a = 0)) as [->|]; [by rewrite Z.bits_0|].
      rewrite (Z.bits_above_log2 a n); [done|lia|].
      apply Z.lt_le_trans with k; [apply Z.log2_lt_pow2; lia|lia]. }
  pose proof (Z.add_lor_land a (b * 2 ^ k)). lia.
Qed.

Lemma low7 (b : byte) : Z.land (b2z b) 127 = b2z b mod 128.
Proof. change 127 with (Z.ones 7). by rewrite Z.land_ones. Qed.

Lemma high_bit (b : byte) : (Z.land (b2z b) 128 =? 0) = (b2z b <? 128).
Proof. revert b. assert (forall b, Bool.eqb (Z.land (b2z b) 128 =? 0) (b2z b <? 128) = true) as H.
  { apply byte_forallb. vm_compute. reflexivity. }
  intros b. apply Bool.eqb_prop, H.
Qed.

Lemma varint_fuel_length n v : (length (varint_fuel n v) <= n)%nat.
Proof.
  revert v. induction n as [|n IH]; intros v; cbn; [done|].
  destruct (_ <? _); cbn; [lia|]. specialize (IH (v / 128)). lia.
Qed.

Lemma varint_nonempty v : exists b t, varint v = b :: t.
Proof. unfold varint. cbn [varint_fuel]. destruct (_ <? _); eauto. Qed.

(** Step by step the loops accept the same inputs with the same value. *)
Lemma loops_agree {E} (tr nc mf : E) n i value input r :
  0 <= i -> 0 <= value < 2 ^ (i * 7) ->
  plugin_varint_loop tr nc n i value input = Ok r <-> core_varint_loop mf n (i * 7) value input = Ok r.
Proof.
  revert i value input. induction n as [|n IH]; intros i value input Hi Hv; [done|].
  destruct input as [|b t]; [done|]. cbn [plugin_varint_loop core_varint_loop].
  replace (i * 7 =? 63) with (i =? 9) by (apply Bool.eq_iff_eq_true; rewrite !Z.eqb_eq; lia).
  destruct (_ && _); [done|]. rewrite high_bit, low7. pose proof (b2z_range b).
  pose proof (Z.mod_pos_bound (b2z b) 128 ltac:(lia)).
  rewrite lor_shiftl_add by lia.
  assert (Hpow : 0 < 2 ^ (i * 7)) by (apply Z.pow_pos_nonneg; lia).
  destruct (b2z b <? 128) eqn:Eb; bool_hyps.
  - rewrite Z.mod_small, Z.shiftl_mul_pow2 by lia. replace (i + 1 - 1) with i by lia.
    enough ((1 <? i + 1) && (value + b2z b * 2 ^ (i * 7) <? 1 * 2 ^ (i * 7))
            = negb (i * 7 =? 0) && (b2z b =? 0)) as ->; [destruct (_ && _); done|].
    apply Bool.eq_iff_eq_true. rewrite !andb_true_iff, !Z.ltb_lt, negb_true_iff, Z.eqb_neq, Z.eqb_eq.
    split; intros [? ?]; (split; [lia|nia]).
  - replace (i * 7 + 7) with ((i + 1) * 7) by lia. apply IH; [lia|].
    rewrite Z.mul_add_distr_r, Z.pow_add_r by lia. nia.
Qed.

(** The loop invariant of the core reader: with [n] iterations left it accepts
    exactly a shortest encoding of the remaining high part. *)
Lemma core_loop_spec {E} (mf : E) n i value input v rest :
  0 <= i -> Z.of_nat n + i = 10 -> 0 <= value < 2 ^ (i * 7) ->
  core_varint_loop mf n (i * 7) value input = Ok (v, rest) <->
  exists w, 0 <= w < 2 ^ (64 - i * 7) /\ (i = 0 \/ 0 < w) /\
            v = value + w * 2 ^ (i * 7) /\ input = varint_fuel n w ++ rest.
Proof.
  revert i value input. induction n as [|n IH]; intros i value input Hi Hn Hv.
  { split; [done|]. intros (w & Hw & ? & _). replace i with 10 in * by lia. cbn in Hw. lia. }
  assert (Hpow : 0 < 2 ^ (i * 7)) by (apply Z.pow_pos_nonneg; lia).
  destruct input as [|b t].
  { split; [done|]. intros (w & _ & _ & _ & Hc). cbn in Hc. destruct (_ <? _) in Hc; discriminate Hc. }
  cbn [core_varint_loop varint_fuel]. rewrite high_bit, low7. pose proof (b2z_range b).
  pose proof (Z.mod_pos_bound (b2z b) 128 ltac:(lia)).
  rewrite lor_shiftl_add by lia.
  destruct ((i * 7 =? 63) && (1 <? b2z b)) eqn:E9.
  { split; [done|]. intros (w & Hw & _ & _ & Hc). apply andb_true_iff in E9 as [Hi9 Hb]. bool_hyps.
    replace i with 9 in * by lia. change (2 ^ (64 - 9 * 7)) with 2 in Hw.
    rewrite (proj2 (Z.ltb_lt w 128)) in Hc by lia. injection Hc as -> _.
    rewrite b2z_z2b in Hb by lia. lia. }
  assert (H9 : i = 9 -> b2z b <= 1).
  { intros ->. apply andb_false_iff in E9 as [?|?]; bool_hyps; lia. }
  assert (Hw64 : i < 9 -> 2 ^ (64 - i * 7) = 128 * 2 ^ (64 - (i + 1) * 7)).
  { intros Hlt. change 128 with (2 ^ 7). rewrite <- Z.pow_add_r by lia. f_equal. lia. }
  destruct (b2z b <? 128) eqn:Eb; bool_hyps.
  - rewrite (Z.mod_small (b2z b)) by lia. destruct (negb _ && _) eqn:Ez.
    + split; [done|]. bool_hyps. intros (w & Hw & Hpos & _ & Hc).
      destruct Hpos as [->|Hpos]; [done|].
      destruct (w <? 128) eqn:Ew; bool_hyps; injection Hc as -> _.
      * rewrite b2z_z2b in * by lia. lia.
      * rewrite b2z_z2b in * by (pose proof (Z.mod_pos_bound w 128); lia).
        pose proof (Z.mod_pos_bound w 128). lia.
    + split.
      * intros [= <- <-]. exists (b2z b). rewrite (proj2 (Z.ltb_lt _ _)) by lia. split_and!.
        -- lia.
        -- destruct (decide (i = 9)) as [->|]; [specialize (H9 eq_refl); cbn; lia|].
           rewrite Hw64 by lia.
           assert (0 < 2 ^ (64 - (i + 1) * 7)) by (apply Z.pow_pos_nonneg; lia). nia.
        -- apply andb_false_iff in Ez as [Ez|Ez]; bool_hyps; [left; lia|right; lia].
        -- done.
        -- cbn. by rewrite z2b_b2z.
      * intros (w & Hw & Hpos & -> & Hc). destruct (w <? 128) eqn:Ew; bool_hyps; cbn in Hc; injection Hc as -> ->.
        -- rewrite b2z_z2b by lia. done.
        -- pose proof (Z.mod_pos_bound w 128). rewrite b2z_z2b in Eb by lia. lia.
  - assert (Hm : b2z b mod 128 = b2z b - 128) by (symmetry; apply (Z.mod_unique _ _ 1); lia).
    rewrite Hm. replace (i * 7 + 7) with ((i + 1) * 7) by lia.
    destruct (decide (i = 9)) as [->|Hi9]; [specialize (H9 eq_refl); lia|].
    assert (Hp1 : 2 ^ ((i + 1) * 7) = 128 * 2 ^ (i * 7)).
    { rewrite Z.mul_add_distr_r, Z.pow_add_r by lia. lia. }
    assert (Hq1 : 0 < 2 ^ (64 - (i + 1) * 7)) by (apply Z.pow_pos_nonneg; lia).
    rewrite IH by (rewrite ?Hp1; nia). rewrite Hp1. split.
    + intros (w & Hw & Hpos & -> & ->). exists (b2z b - 128 + 128 * w).
      rewrite (proj2 (Z.ltb_ge _ _)) by lia. split_and!; [nia|rewrite Hw64 by lia; nia|right; lia|nia|].
      cbn. f_equal.
      * rewrite (Z.mul_comm 128), Z.mod_add, Z.mod_small by lia. rewrite Zplus_minus. by rewrite z2b_b2z.
      * do 2 f_equal. rewrite (Z.mul_comm 128), Z.div_add, Z.div_small by lia. lia.
    + intros (w & Hw & Hpos & -> & Hc). destruct (w <? 128) eqn:Ew; bool_hyps; cbn in Hc; injection Hc as -> ->.
      { rewrite b2z_z2b in Eb by lia. lia. }
      pose proof (Z.mod_pos_bound w 128). pose proof (Z.div_mod w 128).
      exists (w / 128). rewrite b2z_z2b by lia. rewrite Hw64 in Hw by lia.
      assert (0 < w / 128) by (apply Z.div_str_pos; lia). split_and!; [lia|nia|right; lia|nia|done].
Qed.

Lemma core_read_varint_spec {E} (mf : E) input v rest :
  core_read_varint mf input = Ok (v, rest) <-> is_u64 v /\ input = varint v ++ rest.
Proof.
  unfold core_read_varint, varint. rewrite (core_loop_spec mf 10 0 0) by (cbn; lia).
  unfold_max. split.
  - intros (w & Hw & _ & -> & ->). change (2 ^ (0 * 7)) with 1. rewrite Z.mul_1_r, Z.add_0_l.
    split; [cbn in Hw; lia|done].
  - intros [Hv ->]. exists v. change (2 ^ (0 * 7)) with 1. cbn [Z.mul]. split_and!; try lia; done.
Qed.

Lemma plugin_read_varint_spec {E} (tr nc : E) input v rest :
  plugin_read_varint tr nc input = Ok (v, rest) <-> is_u64 v /\ input = varint v ++ rest.
Proof.
  unfold plugin_read_varint. rewrite (loops_agree tr nc tr 10 0 0) by (cbn; lia).
  apply core_read_varint_spec.
Qed.

Lemma varint_inj v w r s : is_u64 v -> is_u64 w -> varint v ++ r = varint w ++ s -> v = w /\ r = s.
Proof.
  intros Hv Hw Heq.
  assert (core_read_varint () (varint v ++ r) = Ok (v, r)) as H1 by (by apply core_read_varint_spec).
  assert (core_read_varint () (varint w ++ s) = Ok (w, s)) as H2 by (by apply core_read_varint_spec).
  rewrite Heq, H2 in H1. by injection H1.
Qed.

(** The two varint readers accept the same inputs, with the same value and
    the same unread rest, namely exactly the shortest encodings of the [u64]
    values; so no value has two accepted encodings, and an encoded value followed
    by anything reads back. *)
Theorem varint_readers_canonical {E F} (tr nc : E) (mf : F) (input : list byte) (v : Z) (rest : list byte) :
  (plugin_read_varint tr nc input = Ok (v, rest) <-> is_u64 v /\ input = varint v ++ rest) /\
  (core_read_varint mf input = Ok (v, rest) <-> is_u64 v /\ input = varint v ++ rest).
Proof. split; [apply plugin_read_varint_spec|apply core_read_varint_spec]. Qed.

(** A reader that succeeds consumes between one and ten bytes. *)
Lemma core_read_varint_consumes {E} (mf : E) input v rest :
  core_read_varint mf input = Ok (v, rest) -> blen rest + 1 <= blen input <= blen rest + 10.
Proof.
  intros [_ ->]%core_read_varint_spec. rewrite blen_app. destruct (varint_nonempty v) as (b & t & Hv).
  pose proof (varint_fuel_length 10 v). unfold varint in *. rewrite Hv in *. rewrite blen_cons.
  pose proof (blen_nonneg t). unfold blen in *. cbn [length] in *. lia.
Qed.
