(* ===== verification/PluginWire.v ===== *)
(** The private plugin protocol: the crate [mengxia-plugin-proto].

    [Wire] is the closed pre-decode scanner of [wire.rs]: field order, wire
    types, default values, nesting depth and varint width are all checked before
    the generated decoder runs.  The field table [descriptor_field] is generated
    by [build.rs] from [control.proto] and is a parameter; [control_schema] is
    the table of the published schema.  The grammar [canonical_message] says which
    byte strings are canonical messages, and the scanner accepts exactly those.
    [Codec] is [codec.rs]: framing, scanning, decoding and semantic checks. *)
From Stdlib Require Import ZArith Lia.
From Stdlib Require Import Strings.Byte Init.Byte.
From stdpp Require Import prelude list.
From S2P Require Import Prelude Framing Varint.

Set Warnings "-clear-no-such-hyp".

Module Wire.

Inductive ProtocolCodecError :=
| InvalidLimit | UnknownOrReservedField | DuplicateField | NonCanonicalEncoding
| NonCanonicalVarint | WrongWireType | UnsupportedGroup | Truncated | DepthExceeded
| InvalidSemanticValue | AllocationUnavailable | InvalidFrameLength | Transport.
#[global] Instance ProtocolCodecError_eq_dec : EqDecision ProtocolCodecError.
Proof. solve_decision. Defined.

Definition MIN_DECODE_DEPTH : Z := 2.
Definition MAX_DECODE_DEPTH : Z := 16.
(** [DecodeDepth(u8)], by its value. *)
Definition DecodeDepth : Type := Z.
Definition decode_depth_new (value : Z) : result ProtocolCodecError DecodeDepth :=
  if (value <? MIN_DECODE_DEPTH) || (MAX_DECODE_DEPTH <? value) then Err InvalidLimit else Ok value.

Inductive MessageKind :=
| HostEnvelope | PluginEnvelope | HostHello | PluginHello | PingRequest | PingResponse
| ShutdownRequest | ShutdownResponse | PluginFailure.
#[global] Instance MessageKind_eq_dec : EqDecision MessageKind.
Proof. solve_decision. Defined.

Record FieldSpec := { wire : Z; child : option MessageKind; oneof : bool }.

(** ** The scanner *)

Definition read_varint : list byte -> result ProtocolCodecError (Z * list byte) :=
  plugin_read_varint Truncated NonCanonicalVarint.

(** [advance_end] and the slice it delimits, as (slice, rest). *)
Definition advance_end (input : list byte) (width : Z) : result ProtocolCodecError (list byte * list byte) :=
  ok_or Truncated (split_exact width input).

Definition all_zero (l : list byte) : bool := forallb (fun b => b2z b =? 0) l.

Section scan.
Context (descriptor_field : MessageKind -> Z -> option FieldSpec).

(** The head of one iteration of the [while] loop: the key and every check before
    the value is read; yields the field, its number and the new [observed]. *)
Definition scan_key (kind : MessageKind) (observed : Z) (observed_oneof : bool) (last_number : Z)
    (input : list byte) : result ProtocolCodecError (Z * Z * FieldSpec * Z * list byte) :=
  let? (key, rest) := read_varint input in
  let number := Z.shiftr key 3 in
  if number =? 0 then Err UnknownOrReservedField
  else
    let wire_type := Z.land key 7 in
    if (wire_type =? 3) || (wire_type =? 4) then Err UnsupportedGroup
    else
      let? field := ok_or UnknownOrReservedField (descriptor_field kind number) in
      if number <=? last_number
      then Err (if number =? last_number then DuplicateField else NonCanonicalEncoding)
      else if negb (wire_type =? wire field) then Err WrongWireType
      else
        let? shift := ok_or DuplicateField (try_into U32_MAX number) in
        if 16 <=? shift then Err DuplicateField
        else
          let bit := Z.shiftl 1 shift in
          if negb (Z.land observed bit =? 0) || (oneof field && observed_oneof) then Err DuplicateField
          else Ok (number, wire_type, field, Z.lor observed bit, rest).

(** The [match wire] of one iteration; yields the input after the value. *)
Definition scan_value (scan_child : list byte -> MessageKind -> result ProtocolCodecError ())
    (kind : MessageKind) (number wire_type : Z) (field : FieldSpec) (input : list byte)
  : result ProtocolCodecError (list byte) :=
  if wire_type =? 0 then
    let? (value, rest) := read_varint input in
    if value =? 0 then Err NonCanonicalEncoding
    else if bool_decide (kind = PluginFailure) && (number =? 1) && (3 <? value)
    then Err InvalidSemanticValue
    else Ok rest
  else if wire_type =? 1 then
    let? (bytes, rest) := advance_end input 8 in
    if all_zero bytes then Err NonCanonicalEncoding else Ok rest
  else if wire_type =? 2 then
    let? (length, rest) := read_varint input in
    let? length := ok_or InvalidSemanticValue (try_into USIZE_MAX length) in
    let? (bytes, rest) := advance_end rest length in
    if bool_decide (child field = None) && (length =? 0) then Err NonCanonicalEncoding
    else match child field with
    | Some c => let? _ := scan_child bytes c in Ok rest
    | None => Ok rest
    end
  else if wire_type =? 5 then
    let? (bytes, rest) := advance_end input 4 in
    if all_zero bytes then Err NonCanonicalEncoding else Ok rest
  else Err WrongWireType.

(** The [while] loop; every iteration reads at least the key byte, so as many
    iterations as the input has bytes are enough ([scan_loop_step]). *)
Fixpoint scan_loop_fuel (fuel : nat) (scan_child : list byte -> MessageKind -> result ProtocolCodecError ())
    (kind : MessageKind) (observed : Z) (observed_oneof : bool) (last_number : Z) (input : list byte)
  : result ProtocolCodecError () :=
  match input with
  | [] => Ok tt
  | _ :: _ =>
      match fuel with
      | O => Err Truncated
      | S f =>
          let? (number, wire_type, field, observed', rest) :=
            scan_key kind observed observed_oneof last_number input in
          let? rest' := scan_value scan_child kind number wire_type field rest in
          scan_loop_fuel f scan_child kind observed' (observed_oneof || oneof field) number rest'
      end
  end.
Definition scan_loop scan_child kind observed observed_oneof last_number (input : list byte) :=
  scan_loop_fuel (length input) scan_child kind observed observed_oneof last_number input.

(** [scan_message]; [levels] bounds the recursion, which the depth check stops first. *)
Fixpoint scan_message (levels : nat) (input : list byte) (kind : MessageKind)
    (current_depth maximum_depth : Z) : result ProtocolCodecError () :=
  match levels with
  | O => Err DepthExceeded
  | S l =>
      if maximum_depth <? current_depth then Err DepthExceeded
      else
        scan_loop (fun bytes c =>
            let? d := ok_or DepthExceeded (checked_add U8_MAX current_depth 1) in
            scan_message l bytes c d maximum_depth)
          kind 0 false 0 input
  end.

Definition validate_message (input : list byte) (root : MessageKind) (depth : DecodeDepth)
  : result ProtocolCodecError () :=
  scan_message (S (Z.to_nat depth)) input root 1 depth.

(** ** The grammar of canonical messages *)

(** The values a field [n] of kind [f] may have. *)
Inductive canonical_value (child_ok : MessageKind -> list byte -> Prop) (k : MessageKind)
  : Z -> FieldSpec -> list byte -> Prop :=
| cv_varint n f v :
    wire f = 0 -> 0 < v <= U64_MAX -> (k = PluginFailure -> n = 1 -> v <= 3) ->
    canonical_value child_ok k n f (varint v)
| cv_fixed64 n f p : wire f = 1 -> blen p = 8 -> all_zero p = false -> canonical_value child_ok k n f p
| cv_fixed32 n f p : wire f = 5 -> blen p = 4 -> all_zero p = false -> canonical_value child_ok k n f p
| cv_bytes n f p :
    wire f = 2 -> child f = None -> p <> [] -> blen p <= U64_MAX ->
    canonical_value child_ok k n f (varint (blen p) ++ p)
| cv_message n f c p :
    wire f = 2 -> child f = Some c -> blen p <= U64_MAX -> child_ok c p ->
    canonical_value child_ok k n f (varint (blen p) ++ p).

(** The fields after field [last] (and after a [oneof] member, when [o]) of a
    message of kind [k]: numbers strictly increase, each has the wire type of the
    schema, defaults are absent, at most one [oneof] member occurs. *)
Inductive canonical_fields (child_ok : MessageKind -> list byte -> Prop) (k : MessageKind)
  : Z -> bool -> list byte -> Prop :=
| cf_nil last o : canonical_fields child_ok k last o []
| cf_field last o n f v rest :
    descriptor_field k n = Some f -> last < n < 16 -> (oneof f && o)%bool = false ->
    canonical_value child_ok k n f v ->
    canonical_fields child_ok k n (o || oneof f) rest ->
    canonical_fields child_ok k last o (varint (n * 8 + wire f) ++ v ++ rest).

(** A canonical message nested at most [levels] deep, itself included. *)
Fixpoint canonical_message (levels : nat) (k : MessageKind) (bytes : list byte) : Prop :=
  match levels with
  | O => False
  | S l => canonical_fields (canonical_message l) k 0 false bytes
  end.
End scan.

(** The published schema of [control.proto]. *)
Definition control_schema (k : MessageKind) (number : Z) : option FieldSpec :=
  let scalar w := Some {| wire := w; child := None; oneof := false |} in
  let body c := Some {| wire := 2; child := Some c; oneof := true |} in
  match k with
  | HostEnvelope =>
      if number =? 1 then scalar 0 else if number =? 2 then body HostHello
      else if number =? 3 then body PingRequest else if number =? 4 then body ShutdownRequest else None
  | PluginEnvelope =>
      if number =? 1 then scalar 0 else if number =? 2 then body PluginHello
      else if number =? 3 then body PingResponse else if number =? 4 then body ShutdownResponse
      else if number =? 5 then body PluginFailure else None
  | HostHello =>
      if number =? 1 then scalar 0 else if number =? 2 then scalar 0 else if number =? 3 then scalar 2
      else if number =? 4 then scalar 0 else if number =? 5 then scalar 0 else None
  | PluginHello =>
      if number =? 1 then scalar 0 else if number =? 2 then scalar 0 else if number =? 3 then scalar 2 else None
  | PingRequest | PingResponse => if number =? 1 then scalar 1 else None
  | ShutdownRequest | ShutdownResponse => None
  | PluginFailure => if number =? 1 then scalar 0 else None
  end.

(** ** Lemmas *)

Lemma advance_end_ok input w a b : advance_end input w = Ok (a, b) <-> input = a ++ b /\ blen a = w.
Proof. unfold advance_end. rewrite ok_or_ok. apply split_exact_Some. Qed.

Lemma read_varint_ok input v rest : read_varint input = Ok (v, rest) <-> is_u64 v /\ input = varint v ++ rest.
Proof. apply plugin_read_varint_spec. Qed.

Lemma key_split key : is_u64 key -> key = Z.shiftr key 3 * 8 + Z.land key 7 /\ 0 <= Z.land key 7 < 8.
Proof.
  intros _. rewrite Z.shiftr_div_pow2 by lia. change 7 with (Z.ones 3). rewrite Z.land_ones by lia.
  change (2 ^ 3) with 8. pose proof (Z.div_mod key 8). pose proof (Z.mod_pos_bound key 8). lia.
Qed.

Lemma key_join n w : 0 <= w < 8 -> Z.shiftr (n * 8 + w) 3 = n /\ Z.land (n * 8 + w) 7 = w.
Proof.
  intros Hw. rewrite Z.shiftr_div_pow2 by lia. change 7 with (Z.ones 3). rewrite Z.land_ones by lia.
  change (2 ^ 3) with 8. split; [rewrite Z.div_add_l, Z.div_small by lia; lia|].
  rewrite Z.add_comm, Z.mod_add, Z.mod_small; lia.
Qed.

(** The bit set holds only the numbers seen so far, so a larger one is fresh. *)
Lemma fresh_bit observed last n :
  0 <= observed < 2 ^ (last + 1) -> 0 <= last < n ->
  Z.land observed (Z.shiftl 1 n) = 0 /\ 0 <= Z.lor observed (Z.shiftl 1 n) < 2 ^ (n + 1).
Proof.
  intros Ho Hn.
  assert (Hle : 2 ^ (last + 1) <= 2 ^ n) by (apply Z.pow_le_mono_r; lia).
  assert (Hs : Z.lor observed (Z.shiftl 1 n) = observed + 1 * 2 ^ n) by (apply lor_shiftl_add; lia).
  split.
  - pose proof (Z.add_lor_land observed (Z.shiftl 1 n)) as Ha. rewrite Hs in Ha.
    rewrite Z.shiftl_mul_pow2 in Ha |- * by lia. lia.
  - rewrite Hs, Z.pow_add_r by lia. lia.
Qed.

Section scan_lemmas.
Context (descriptor_field : MessageKind -> Z -> option FieldSpec).

Lemma scan_key_ok k observed o last input n w f observed' rest :
  0 <= last -> 0 <= observed < 2 ^ (last + 1) ->
  scan_key descriptor_field k observed o last input = Ok (n, w, f, observed', rest) <->
  descriptor_field k n = Some f /\ last < n < 16 /\ w = wire f /\ 0 <= w < 8 /\ w <> 3 /\ w <> 4 /\
  (oneof f && o)%bool = false /\ observed' = Z.lor observed (Z.shiftl 1 n) /\
  input = varint (n * 8 + wire f) ++ rest.
Proof.
  intros Hl Ho. unfold scan_key. split.
  - intros H. apply result_bind_ok in H as ([key r] & Hk & H). apply read_varint_ok in Hk as [Hk ->].
    destruct (key_split key Hk) as [Hkey Hw].
    passed H as E0. passed H as Eg.
    apply result_bind_ok in H as (f0 & Hf & H). apply ok_or_ok in Hf.
    passed H as El. passed H as Ew.
    apply result_bind_ok in H as (sh & Hs & H). apply ok_or_ok, try_into_Some in Hs as [-> Hs].
    passed H as E16. passed H as Eo.
    injection H as <- <- <- <- <-. bool_hyps. rewrite <- Ew. rewrite <- Hkey. split_and!; (done || lia).
  - intros (Hf & Hn & -> & Hw & H3 & H4 & Hone & -> & ->).
    assert (Hu : is_u64 (n * 8 + wire f)) by (unfold_max; lia).
    rewrite (proj2 (read_varint_ok _ _ _) (conj Hu eq_refl)). cbn [result_bind].
    destruct (key_join n (wire f) Hw) as [-> ->].
    rewrite (proj2 (Z.eqb_neq n 0)), (proj2 (Z.eqb_neq _ 3)), (proj2 (Z.eqb_neq _ 4)) by lia. cbn [orb].
    rewrite Hf. cbn [ok_or result_bind]. rewrite (proj2 (Z.leb_gt _ _)), Z.eqb_refl by lia. cbn [negb].
    rewrite try_into_id by (unfold_max; lia). cbn [ok_or result_bind].
    destruct (fresh_bit observed last n) as [-> _]; [lia..|].
    rewrite (proj2 (Z.leb_gt _ _)) by lia. cbn [negb orb Z.eqb]. by rewrite Hone.
Qed.

Lemma scan_value_ok scan_child child_ok k n f input rest :
  (forall c p, scan_child p c = Ok tt <-> child_ok c p) ->
  scan_value scan_child k n (wire f) f input = Ok rest <->
  exists v, canonical_value child_ok k n f v /\ input = v ++ rest.
Proof.
  intros Hc. unfold scan_value. split.
  - destruct (wire f =? 0) eqn:E0; [|destruct (wire f =? 1) eqn:E1; [|destruct (wire f =? 2) eqn:E2;
      [|destruct (wire f =? 5) eqn:E5; [|done]]]]; bool_hyps; intros H.
    + apply result_bind_ok in H as ([v r] & Hv & H). apply read_varint_ok in Hv as [Hv ->].
      destruct (v =? 0) eqn:Ez; [done|]. destruct (_ && _) eqn:Es; [done|]. injection H as <-. bool_hyps.
      exists (varint v). split; [|done]. apply cv_varint; [done|unfold_max; lia|].
      intros -> ->. rewrite bool_decide_true in Es by done. cbn in Es. bool_hyps. lia.
    + apply result_bind_ok in H as ([p r] & Hp & H). apply advance_end_ok in Hp as [-> Hp].
      destruct (all_zero p) eqn:Ez; [done|]. injection H as <-. exists p. split; [by apply cv_fixed64|done].
    + apply result_bind_ok in H as ([l r] & Hv & H). apply read_varint_ok in Hv as [Hv ->].
      apply result_bind_ok in H as (l' & Hl & H). apply ok_or_ok, try_into_Some in Hl as [-> Hl].
      apply result_bind_ok in H as ([p r'] & Hp & H). apply advance_end_ok in Hp as [-> <-].
      destruct (_ && _) eqn:Ez; [done|].
      destruct (child f) as [c|] eqn:Ech.
      * apply result_bind_ok in H as ([] & Hs & [= <-]). exists (varint (blen p) ++ p).
        rewrite <- app_assoc. split; [|done]. apply cv_message with c; [done..|unfold_max; lia|by apply Hc].
      * injection H as <-. exists (varint (blen p) ++ p). rewrite <- app_assoc. split; [|done].
        apply cv_bytes; [done..| |unfold_max; lia]. rewrite bool_decide_true in Ez by done. cbn in Ez.
        bool_hyps. by rewrite blen_zero in Ez.
    + apply result_bind_ok in H as ([p r] & Hp & H). apply advance_end_ok in Hp as [-> Hp].
      destruct (all_zero p) eqn:Ez; [done|]. injection H as <-. exists p. split; [by apply cv_fixed32|done].
  - intros (v & Hv & ->). destruct Hv as [n f v Hw Hv Hs|n f p Hw Hp Hz|n f p Hw Hp Hz|n f p Hw Hch Hp Hu|n f c p Hw Hch Hu Hp];
      rewrite Hw; cbn [Z.eqb Pos.eqb].
    + rewrite (proj2 (read_varint_ok _ v rest)) by (split; [unfold_max; lia|done]). cbn [result_bind].
      rewrite (proj2 (Z.eqb_neq v 0)) by lia. destruct (_ && _) eqn:E; [|done]. bool_hyps.
      specialize (Hs ltac:(done) ltac:(done)). lia.
    + rewrite (proj2 (advance_end_ok _ 8 p rest)) by done. cbn [result_bind]. by rewrite Hz.
    + rewrite (proj2 (advance_end_ok _ 4 p rest)) by done. cbn [result_bind]. by rewrite Hz.
    + pose proof (blen_nonneg p). rewrite <- app_assoc.
      rewrite (proj2 (read_varint_ok _ (blen p) (p ++ rest))) by (split; [unfold_max; lia|done]). cbn [result_bind].
      rewrite try_into_id by (unfold_max; lia). cbn [ok_or result_bind].
      rewrite (proj2 (advance_end_ok _ (blen p) p rest)) by done. cbn [result_bind].
      rewrite Hch, (proj2 (Z.eqb_neq _ 0)) by (by rewrite blen_zero). by rewrite andb_false_r.
    + pose proof (blen_nonneg p). rewrite <- app_assoc.
      rewrite (proj2 (read_varint_ok _ (blen p) (p ++ rest))) by (split; [unfold_max; lia|done]). cbn [result_bind].
      rewrite try_into_id by (unfold_max; lia). cbn [ok_or result_bind].
      rewrite (proj2 (advance_end_ok _ (blen p) p rest)) by done. cbn [result_bind].
      rewrite Hch, bool_decide_false by done. cbn [andb]. by rewrite (proj2 (Hc c p) Hp).
Qed.

Lemma canonical_value_wire child_ok k n f v :
  canonical_value child_ok k n f v -> 0 <= wire f < 8 /\ wire f <> 3 /\ wire f <> 4.
Proof. destruct 1; lia. Qed.

Lemma scan_loop_ok fuel scan_child child_ok k observed o last input :
  (forall c p, scan_child p c = Ok tt <-> child_ok c p) ->
  (length input <= fuel)%nat -> 0 <= last -> 0 <= observed < 2 ^ (last + 1) ->
  scan_loop_fuel descriptor_field fuel scan_child k observed o last input = Ok tt <->
  canonical_fields descriptor_field child_ok k last o input.
Proof.
  intros Hc. revert observed o last input.
  induction fuel as [|fuel IH]; intros observed o last input Hlen Hl Ho.
  { destruct input; [|cbn in Hlen; lia]. split; [constructor|done]. }
  assert (Hstep : forall n w f observed' rest rest',
            scan_key descriptor_field k observed o last input = Ok (n, w, f, observed', rest) ->
            scan_value scan_child k n w f rest = Ok rest' ->
            (length rest' <= fuel)%nat /\ 0 <= n /\ 0 <= observed' < 2 ^ (n + 1)).
  { intros n w f observed' rest rest' Hk Hv.
    apply scan_key_ok in Hk as (Hf & Hn & -> & _ & _ & _ & _ & -> & ->); [|done..].
    destruct (fresh_bit observed last n) as [_ ?]; [lia..|].
    apply (scan_value_ok scan_child child_ok) in Hv as (v & _ & ->); [|done].
    destruct (varint_nonempty (n * 8 + wire f)) as (b & t & Hb). rewrite Hb in Hlen. cbn in Hlen.
    rewrite !length_app in Hlen. split_and!; lia. }
  destruct input as [|b0 t0] eqn:Ei; [split; [constructor|done]|]. rewrite <- Ei in *.
  rewrite Ei at 1. cbn [scan_loop_fuel]. rewrite <- Ei. split.
  - intros H. apply result_bind_ok in H as ([[[[n w] f] observed'] rest] & Hk & H).
    apply result_bind_ok in H as (rest' & Hv & H).
    destruct (Hstep _ _ _ _ _ _ Hk Hv) as (Hf' & Hn' & Ho').
    apply IH in H; [|done..].
    apply scan_key_ok in Hk as (Hf & Hn & -> & _ & _ & _ & Hone & -> & ->); [|done..].
    apply (scan_value_ok scan_child child_ok) in Hv as (v & Hv & ->); [|done].
    by apply cf_field.
  - intros H. destruct H as [|last o n f v rest Hf Hn Hone Hv Hr]; [done|].
    destruct (canonical_value_wire _ _ _ _ _ Hv) as (Hw & H3 & H4).
    assert (Hk : scan_key descriptor_field k observed o last (varint (n * 8 + wire f) ++ v ++ rest)
                 = Ok (n, wire f, f, Z.lor observed (Z.shiftl 1 n), v ++ rest)) by (by apply scan_key_ok).
    assert (Hs : scan_value scan_child k n (wire f) f (v ++ rest) = Ok rest)
      by (apply (scan_value_ok scan_child child_ok); [done|]; by exists v).
    rewrite Hk. cbn [result_bind]. rewrite Hs. cbn [result_bind].
    destruct (Hstep _ _ _ _ _ _ Hk Hs) as (? & ? & ?). by apply IH.
Qed.

(** Enough fuel: with any more, the loop does the same. *)
Lemma scan_message_ok levels input k current maximum :
  0 <= current -> maximum <= 200 -> maximum - current + 1 < Z.of_nat levels ->
  scan_message descriptor_field levels input k current maximum = Ok tt <->
  canonical_message descriptor_field (Z.to_nat (maximum - current + 1)) k input.
Proof.
  revert input k current. induction levels as [|levels IH]; intros input k current Hc Hm Hl.
  { replace (Z.to_nat (maximum - current + 1)) with 0%nat by lia. done. }
  cbn [scan_message]. destruct (maximum <? current) eqn:E; bool_hyps.
  { replace (Z.to_nat (maximum - current + 1)) with 0%nat by lia. done. }
  replace (Z.to_nat (maximum - current + 1)) with (S (Z.to_nat (maximum - (current + 1) + 1))) by lia.
  cbn [canonical_message]. apply scan_loop_ok; [|done|done|cbn; lia].
  intros c p. unfold checked_add, U8_MAX. rewrite (proj2 (Z.leb_le _ _)) by lia. cbn [ok_or result_bind].
  apply IH; lia.
Qed.
End scan_lemmas.

(** C15: The pre-decode scanner accepts exactly the canonical messages of the
    schema nested at most [depth] levels deep: it refuses every message with a
    default value, a repeated or out-of-order field, a second [oneof] member, an
    overlong varint or an unknown field, and it refuses no canonical one. *)
Theorem validate_message_exact
    (descriptor_field : MessageKind -> Z -> option FieldSpec)
    (input : list byte) (root : MessageKind) (depth : DecodeDepth) :
  decode_depth_new depth = Ok depth ->
  validate_message descriptor_field input root depth = Ok tt <->
  canonical_message descriptor_field (Z.to_nat depth) root input.
Proof.
  unfold decode_depth_new, MIN_DECODE_DEPTH, MAX_DECODE_DEPTH. destruct (_ || _) eqn:E; [done|].
  bool_hyps. intros _. unfold validate_message. rewrite scan_message_ok by lia.
  by replace (depth - 1 + 1) with depth by lia.
Qed.

(** A ping request with sequence 7 and nonce 1. *)
Definition sample_ping : list byte := [x08; x07; x1a; x09; x09; x01; x00; x00; x00; x00; x00; x00; x00].
Lemma validate_message_exact_witness : canonical_message control_schema 2 HostEnvelope sample_ping.
Proof. apply (validate_message_exact control_schema sample_ping HostEnvelope 2); reflexivity. Defined.
End Wire.

Module Codec.
Import Wire.

Definition PROTOCOL_MAJOR : Z := 1.
Definition PROTOCOL_MINOR : Z := 0.
Definition SESSION_CHALLENGE_BYTES : Z := 32.
Definition MAX_IN_FLIGHT_REQUESTS : Z := 1.

(** ** The messages of [control.proto] *)

Record HostHelloMsg := {
  hh_protocol_major : Z; hh_protocol_minor : Z; hh_session_challenge : list byte;
  hh_max_frame_bytes : Z; hh_max_in_flight_requests : Z }.
Inductive HostBody := HostBodyHello (h : HostHelloMsg) | HostBodyPing (nonce : Z) | HostBodyShutdown.
Record HostEnvelopeMsg := { he_sequence : Z; he_body : option HostBody }.

Record PluginHelloMsg := {
  ph_protocol_major : Z; ph_protocol_minor : Z; ph_session_challenge : list byte }.
Inductive PluginBody :=
| PluginBodyHello (h : PluginHelloMsg) | PluginBodyPing (nonce : Z) | PluginBodyShutdown
| PluginBodyFailure (code : Z).
Record PluginEnvelopeMsg := { pe_sequence : Z; pe_body : option PluginBody }.

#[global] Instance HostHelloMsg_eq_dec : EqDecision HostHelloMsg.
Proof. solve_decision. Defined.
#[global] Instance HostBody_eq_dec : EqDecision HostBody.
Proof. solve_decision. Defined.
#[global] Instance HostEnvelopeMsg_eq_dec : EqDecision HostEnvelopeMsg.
Proof. solve_decision. Defined.
#[global] Instance PluginHelloMsg_eq_dec : EqDecision PluginHelloMsg.
Proof. solve_decision. Defined.
#[global] Instance PluginBody_eq_dec : EqDecision PluginBody.
Proof. solve_decision. Defined.
#[global] Instance PluginEnvelopeMsg_eq_dec : EqDecision PluginEnvelopeMsg.
Proof. solve_decision. Defined.

Definition validate_host_semantics (e : HostEnvelopeMsg) : result ProtocolCodecError () :=
  match he_body e with
  | Some (HostBodyHello h) =>
      if (blen (hh_session_challenge h) =? SESSION_CHALLENGE_BYTES)
         && negb (hh_max_frame_bytes h =? 0) && negb (hh_max_in_flight_requests h =? 0)
      then Ok tt else Err InvalidSemanticValue
  | Some (HostBodyPing _) | Some HostBodyShutdown => Ok tt
  | None => Err InvalidSemanticValue
  end.

Definition validate_plugin_semantics (e : PluginEnvelopeMsg) : result ProtocolCodecError () :=
  match pe_body e with
  | Some (PluginBodyHello h) =>
      if blen (ph_session_challenge h) =? SESSION_CHALLENGE_BYTES then Ok tt else Err InvalidSemanticValue
  | Some (PluginBodyPing _) | Some PluginBodyShutdown => Ok tt
  | Some (PluginBodyFailure code) =>
      if (1 <=? code) && (code <=? 3) then Ok tt else Err InvalidSemanticValue
  | None => Err InvalidSemanticValue
  end.

Definition map_frame_error (e : Framing.FrameError) : ProtocolCodecError :=
  match e with
  | Framing.InvalidLimit => InvalidLimit
  | Framing.InvalidLength => InvalidFrameLength
  | Framing.Truncated => Transport
  | Framing.AllocationUnavailable => AllocationUnavailable
  | Framing.Transport => Transport
  end.

Definition map_outbound_frame_error (e : Framing.FrameError) : ProtocolCodecError :=
  match e with
  | Framing.Transport => Transport
  | Framing.AllocationUnavailable => AllocationUnavailable
  | Framing.InvalidLimit | Framing.InvalidLength | Framing.Truncated => InvalidLimit
  end.

(** The generated [prost] codec of one message type. *)
Class ProstMessage (M : Type) := { prost_decode : list byte -> option M; prost_encode : M -> list byte }.

Section codec.
Context (descriptor_field : MessageKind -> Z -> option FieldSpec) (alloc : Z -> bool).
Context `{ProstMessage HostEnvelopeMsg, ProstMessage PluginEnvelopeMsg}.

Definition decode_host_envelope (payload : list byte) (depth : DecodeDepth)
  : result ProtocolCodecError HostEnvelopeMsg :=
  let? _ := validate_message descriptor_field payload HostEnvelope depth in
  let? envelope := ok_or Truncated (prost_decode payload) in
  let? _ := validate_host_semantics envelope in
  Ok envelope.

Definition decode_plugin_envelope (payload : list byte) (depth : DecodeDepth)
  : result ProtocolCodecError PluginEnvelopeMsg :=
  let? _ := validate_message descriptor_field payload PluginEnvelope depth in
  let? envelope := ok_or Truncated (prost_decode payload) in
  let? _ := validate_plugin_semantics envelope in
  Ok envelope.

Definition encode_host_envelope (e : HostEnvelopeMsg) : list byte := prost_encode e.
Definition encode_plugin_envelope (e : PluginEnvelopeMsg) : list byte := prost_encode e.

Definition read_host_envelope (r : Framing.Reader) (frame_limit : Framing.FrameLimit) (depth : DecodeDepth)
  : result ProtocolCodecError HostEnvelopeMsg * Framing.Reader :=
  match Framing.read_frame alloc r frame_limit with
  | (Err e, r') => (Err (map_frame_error e), r')
  | (Ok payload, r') => (decode_host_envelope payload depth, r')
  end.

Definition read_plugin_envelope (r : Framing.Reader) (frame_limit : Framing.FrameLimit) (depth : DecodeDepth)
  : result ProtocolCodecError PluginEnvelopeMsg * Framing.Reader :=
  match Framing.read_frame alloc r frame_limit with
  | (Err e, r') => (Err (map_frame_error e), r')
  | (Ok payload, r') => (decode_plugin_envelope payload depth, r')
  end.

Definition write_host_envelope (w : Framing.Writer) (e : HostEnvelopeMsg) (frame_limit : Framing.FrameLimit)
  : result ProtocolCodecError () * Framing.Writer :=
  let '(res, w') := Framing.write_frame w (encode_host_envelope e) frame_limit in
  (map_err map_outbound_frame_error res, w').

Definition write_plugin_envelope (w : Framing.Writer) (e : PluginEnvelopeMsg) (frame_limit : Framing.FrameLimit)
  : result ProtocolCodecError () * Framing.Writer :=
  let '(res, w') := Framing.write_frame w (encode_plugin_envelope e) frame_limit in
  (map_err map_outbound_frame_error res, w').

(** What an accepted envelope guarantees its consumer. *)
Definition host_envelope_ok (e : HostEnvelopeMsg) : Prop :=
  match he_body e with
  | Some (HostBodyHello h) =>
      blen (hh_session_challenge h) = 32 /\ hh_max_frame_bytes h <> 0 /\ hh_max_in_flight_requests h <> 0
  | Some _ => True
  | None => False
  end.
Definition plugin_envelope_ok (e : PluginEnvelopeMsg) : Prop :=
  match pe_body e with
  | Some (PluginBodyHello h) => blen (ph_session_challenge h) = 32
  | Some (PluginBodyFailure code) => 1 <= code <= 3
  | Some _ => True
  | None => False
  end.

Lemma host_semantics_ok e : validate_host_semantics e = Ok tt <-> host_envelope_ok e.
Proof.
  unfold validate_host_semantics, host_envelope_ok, SESSION_CHALLENGE_BYTES.
  destruct (he_body e) as [[h|n|]|]; try done. destruct (_ && _) eqn:E; (split; [|intros (?&?&?)]); bool_hyps; try done.
  repeat (apply andb_false_iff in E as [E|E] || bool_hyps); congruence.
Qed.

Lemma plugin_semantics_ok e : validate_plugin_semantics e = Ok tt <-> plugin_envelope_ok e.
Proof.
  unfold validate_plugin_semantics, plugin_envelope_ok, SESSION_CHALLENGE_BYTES.
  destruct (pe_body e) as [[h|n| |c]|]; try done.
  - destruct (_ =? _) eqn:E; bool_hyps; done.
  - destruct (_ && _) eqn:E; [bool_hyps; split; done|]. split; [done|intros [? ?]].
    apply andb_false_iff in E as [E|E]; bool_hyps; lia.
Qed.

(** Acceptance of a payload, as a conjunction of what each stage requires. *)
Lemma decode_host_ok payload depth e :
  decode_depth_new depth = Ok depth ->
  decode_host_envelope payload depth = Ok e <->
  canonical_message descriptor_field (Z.to_nat depth) HostEnvelope payload /\
  prost_decode payload = Some e /\ host_envelope_ok e.
Proof.
  intros Hd. unfold decode_host_envelope. rewrite result_bind_ok. setoid_rewrite result_bind_ok.
  setoid_rewrite result_bind_ok. setoid_rewrite ok_or_ok. setoid_rewrite <- host_semantics_ok.
  unfold decode_depth_new, MIN_DECODE_DEPTH, MAX_DECODE_DEPTH in Hd. passed Hd as E. bool_hyps.
  unfold validate_message. split.
  - intros ([] & Hv & e' & Hp & [] & Hs & [= ->]). apply scan_message_ok in Hv; [|lia..].
    by replace (depth - 1 + 1) with depth in Hv by lia.
  - intros (Hv & Hp & Hs). exists tt. split; [|eauto].
    apply scan_message_ok; [lia..|]. by replace (depth - 1 + 1) with depth by lia.
Qed.

Lemma decode_plugin_ok payload depth e :
  decode_depth_new depth = Ok depth ->
  decode_plugin_envelope payload depth = Ok e <->
  canonical_message descriptor_field (Z.to_nat depth) PluginEnvelope payload /\
  prost_decode payload = Some e /\ plugin_envelope_ok e.
Proof.
  intros Hd. unfold decode_plugin_envelope. rewrite result_bind_ok. setoid_rewrite result_bind_ok.
  setoid_rewrite result_bind_ok. setoid_rewrite ok_or_ok. setoid_rewrite <- plugin_semantics_ok.
  unfold decode_depth_new, MIN_DECODE_DEPTH, MAX_DECODE_DEPTH in Hd. passed Hd as E. bool_hyps.
  unfold validate_message. split.
  - intros ([] & Hv & e' & Hp & [] & Hs & [= ->]). apply scan_message_ok in Hv; [|lia..].
    by replace (depth - 1 + 1) with depth in Hv by lia.
  - intros (Hv & Hp & Hs). exists tt. split; [|eauto].
    apply scan_message_ok; [lia..|]. by replace (depth - 1 + 1) with depth by lia.
Qed.
End codec.

(** An envelope crosses a framed channel unchanged.  When the generated codec
    reads back what it writes for this envelope and writes it canonically, the host's write succeeds
    and the plugin's read of the same bytes returns the same envelope and leaves
    the stream at the next frame; and an envelope is never accepted without its
    challenge width, limits or body. *)
Theorem host_envelope_channel
    (descriptor_field : MessageKind -> Z -> option FieldSpec) (alloc : Z -> bool)
    (P : ProstMessage HostEnvelopeMsg) (e : HostEnvelopeMsg)
    (limit : Framing.FrameLimit) (depth : DecodeDepth) (rest : list byte) (fin : Framing.StreamEnd) :
  Framing.frame_limit_new limit = Ok limit -> decode_depth_new depth = Ok depth ->
  (forall n, n <= limit -> alloc n = true) ->
  prost_decode (prost_encode e) = Some e ->
  canonical_message descriptor_field (Z.to_nat depth) HostEnvelope (prost_encode e) ->
  Framing.payload_ok limit (prost_encode e) ->
  (host_envelope_ok e ->
   exists w, write_host_envelope {| Framing.written := []; Framing.capacity := None; Framing.flushes := true |} e limit
             = (Ok tt, w) /\
     read_host_envelope descriptor_field alloc {| Framing.incoming := Framing.written w ++ rest; Framing.stream_end := fin |} limit depth
     = (Ok e, {| Framing.incoming := rest; Framing.stream_end := fin |})) /\
  (forall payload e', decode_host_envelope descriptor_field payload depth = Ok e' -> host_envelope_ok e').
Proof.
  intros [_ Hl]%Framing.frame_limit_new_ok Hd Ha Hrt Hcan Hp. split.
  - intros Hs.
    destruct (Framing.write_frames_unbounded
      {| Framing.written := []; Framing.capacity := None; Framing.flushes := true |} [prost_encode e] limit)
      as (w & Hw & Hb); [done..|by apply Forall_singleton|].
    cbn [Framing.write_frames map concat Framing.written app] in Hw, Hb. rewrite app_nil_r in Hb.
    unfold write_host_envelope, encode_host_envelope.
    destruct (Framing.write_frame _ _ _) as [[[]|err] w1]; [|done]. injection Hw as ->.
    exists w. split; [done|]. rewrite Hb. unfold read_host_envelope.
    rewrite Framing.read_frame_image; [|done..|apply Ha, Hp]. f_equal. by apply decode_host_ok.
  - intros payload e'. rewrite decode_host_ok by done. tauto.
Qed.

(** The codec of one ping request, enough to show the hypotheses can hold. *)
Definition sample_prost : ProstMessage HostEnvelopeMsg := {|
  prost_decode _ := Some {| he_sequence := 7; he_body := Some (HostBodyPing 1) |};
  prost_encode _ := sample_ping |}.
Lemma host_envelope_channel_witness :
  exists w, @write_host_envelope sample_prost {| Framing.written := []; Framing.capacity := None; Framing.flushes := true |}
              {| he_sequence := 7; he_body := Some (HostBodyPing 1) |} 65536 = (Ok tt, w) /\
    @read_host_envelope control_schema (fun _ => true) sample_prost
      {| Framing.incoming := Framing.written w ++ [xff]; Framing.stream_end := Framing.Eof |} 65536 2
    = (Ok {| he_sequence := 7; he_body := Some (HostBodyPing 1) |},
       {| Framing.incoming := [xff]; Framing.stream_end := Framing.Eof |}).
Proof.
  apply (host_envelope_channel control_schema (fun _ => true) sample_prost
           {| he_sequence := 7; he_body := Some (HostBodyPing 1) |} 65536 2 [xff] Framing.Eof);
    [reflexivity..| | |exact I].
  - apply (scan_message_ok control_schema 3 sample_ping HostEnvelope 1 2); [lia..|reflexivity].
  - split; [discriminate|vm_compute; discriminate].
Defined.
End Codec.
