(* ===== verification/CoreWire.v ===== *)
(** The wire preflight of the client protocol: [preflight] of
    [mengxia-core-proto/src/lib.rs].

    The source walks nested messages with an explicit array stack of at most 64
    frames, so that hostile input can neither recurse nor allocate.  The table of
    embedded messages ([descriptor_embedded_message]) is generated from the
    published descriptor and is a parameter.  A frame [(bytes, offset, kind)] is
    its unread suffix and kind.  [reference_message] is the recursive reading of
    the same bytes; the stack machine computes it, in a bounded number of steps
    and without its stack ever passing the configured depth. *)
From Stdlib Require Import ZArith Lia.
From Stdlib Require Import Strings.Byte Init.Byte.
From stdpp Require Import prelude list.
From S2P Require Import Prelude Varint.

Set Warnings "-clear-no-such-hyp".

Module Preflight.

Inductive WirePreflightError := InvalidLimit | DepthExceeded | Malformed.
#[global] Instance WirePreflightError_eq_dec : EqDecision WirePreflightError.
Proof. solve_decision. Defined.

Definition MAX_DECODE_DEPTH : Z := 64.
(** [DecodeDepth(u8)], by its value. *)
Definition DecodeDepth : Type := Z.
Definition decode_depth_new (depth : Z) : result WirePreflightError DecodeDepth :=
  if (depth =? 0) || (MAX_DECODE_DEPTH <? depth) then Err InvalidLimit else Ok depth.

Definition read_varint : list byte -> result WirePreflightError (Z * list byte) :=
  core_read_varint Malformed.

Definition skip_fixed (input : list byte) (width : Z) : result WirePreflightError (list byte) :=
  let? (_, rest) := ok_or Malformed (split_exact width input) in Ok rest.

Section preflight.
Context {MessageKind : Type} (descriptor_embedded_message : MessageKind -> Z -> option MessageKind).

Record ScanFrame := { unread : list byte; kind : MessageKind }.

(** One field at the front of a frame: the unread rest of the frame, and the
    embedded message to enter, if the field is one. *)
Definition read_field (k : MessageKind) (input : list byte)
  : result WirePreflightError (list byte * option (MessageKind * list byte)) :=
  let? (tag, rest) := read_varint input in
  let field_number := Z.shiftr tag 3 in
  let wire_type := Z.land tag 7 in
  if (field_number =? 0) || (wire_type =? 3) || (wire_type =? 4) then Err Malformed
  else if wire_type =? 0 then let? (_, rest) := read_varint rest in Ok (rest, None)
  else if wire_type =? 1 then let? rest := skip_fixed rest 8 in Ok (rest, None)
  else if wire_type =? 2 then
    let? (length, rest) := read_varint rest in
    let? length := ok_or Malformed (try_into USIZE_MAX length) in
    let? (bytes, rest) := ok_or Malformed (split_exact length rest) in
    Ok (rest, match descriptor_embedded_message k field_number with
              | Some c => Some (c, bytes)
              | None => None
              end)
  else if wire_type =? 5 then let? rest := skip_fixed rest 4 in Ok (rest, None)
  else Err Malformed.

(** One iteration of the [while depth != 0] loop; the head of [stack] is
    [stack[depth - 1]], and [depth] is its length. *)
Definition preflight_step (limit : DecodeDepth) (stack : list ScanFrame)
  : result WirePreflightError (list ScanFrame) :=
  match stack with
  | [] => Ok []
  | frame :: below =>
      match unread frame with
      | [] => Ok below
      | _ :: _ =>
          let? (rest, embedded) := read_field (kind frame) (unread frame) in
          let frame := {| unread := rest; kind := kind frame |} in
          match embedded with
          | None => Ok (frame :: below)
          | Some (c, bytes) =>
              if limit <=? blen stack then Err DepthExceeded
              else Ok ({| unread := bytes; kind := c |} :: frame :: below)
          end
      end
  end.

Fixpoint preflight_loop (fuel : nat) (limit : DecodeDepth) (stack : list ScanFrame)
  : result WirePreflightError () :=
  match stack with
  | [] => Ok tt
  | _ :: _ =>
      match fuel with
      | O => Err Malformed
      | S f => let? stack := preflight_step limit stack in preflight_loop f limit stack
      end
  end.

(** The number of iterations is at most one more than the payload has bytes. *)
Definition preflight (payload : list byte) (root : MessageKind) (limit : DecodeDepth)
  : result WirePreflightError () :=
  preflight_loop (S (length payload)) limit [{| unread := payload; kind := root |}].

(** ** The recursive reading *)

Fixpoint reference_fields (fuel : nat) (child : MessageKind -> list byte -> result WirePreflightError ())
    (k : MessageKind) (input : list byte) : result WirePreflightError () :=
  match input with
  | [] => Ok tt
  | _ :: _ =>
      match fuel with
      | O => Err Malformed
      | S f =>
          let? (rest, embedded) := read_field k input in
          let? _ := match embedded with Some (c, bytes) => child c bytes | None => Ok tt end in
          reference_fields f child k rest
      end
  end.

(** A message of kind [k] that may still nest [levels] deeper. *)
Fixpoint reference_message (levels : nat) (k : MessageKind) (input : list byte)
  : result WirePreflightError () :=
  reference_fields (length input)
    (fun c bytes => match levels with O => Err DepthExceeded | S l => reference_message l c bytes end)
    k input.

(** ** Lemmas *)

Lemma skip_fixed_consumes input w rest : 0 <= w -> skip_fixed input w = Ok rest -> blen rest + w = blen input.
Proof.
  intros Hw. unfold skip_fixed. intros H. apply result_bind_ok in H as ([a b] & H & [= ->]).
  apply ok_or_ok, split_exact_Some in H as [-> Ha]. rewrite blen_app. lia.
Qed.

(** Reading a field consumes its key, and an embedded message is shorter than
    what was consumed by at least its key and length. *)
Lemma read_field_consumes k input rest emb :
  read_field k input = Ok (rest, emb) ->
  blen rest + match emb with Some (_, bytes) => blen bytes + 2 | None => 1 end <= blen input.
Proof.
  unfold read_field. intros H. apply result_bind_ok in H as ([tag r] & Ht & H).
  apply core_read_varint_consumes in Ht. passed H as Eg.
  destruct (Z.land tag 7 =? 0); [|destruct (Z.land tag 7 =? 1); [|destruct (Z.land tag 7 =? 2);
    [|destruct (Z.land tag 7 =? 5); [|done]]]].
  - apply result_bind_ok in H as ([v r'] & Hv & [= <- <-]). apply core_read_varint_consumes in Hv. lia.
  - apply result_bind_ok in H as (r' & Hv & [= <- <-]). apply skip_fixed_consumes in Hv; lia.
  - apply result_bind_ok in H as ([l r'] & Hv & H). apply core_read_varint_consumes in Hv.
    apply result_bind_ok in H as (l' & Hl & H). apply result_bind_ok in H as ([b r''] & Hb & [= <- <-]).
    apply ok_or_ok, split_exact_Some in Hb as [-> _]. rewrite blen_app in Hv. pose proof (blen_nonneg b).
    destruct (descriptor_embedded_message _ _); lia.
  - apply result_bind_ok in H as (r' & Hv & [= <- <-]). apply skip_fixed_consumes in Hv; lia.
Qed.

Lemma reference_fields_fuel f g child k input :
  (length input <= f)%nat -> (length input <= g)%nat ->
  reference_fields f child k input = reference_fields g child k input.
Proof.
  revert g input. induction f as [|f IH]; intros g [|b t] Hf Hg; cbn in Hf; try lia.
  - by destruct g.
  - by destruct g.
  - destruct g as [|g]; [cbn in Hg; lia|]. cbn [reference_fields].
    destruct (read_field k (b :: t)) as [[rest emb]|e] eqn:E; [|done]. cbn [result_bind].
    apply read_field_consumes in E.
    assert (length rest <= length t)%nat.
    { unfold blen in E. cbn [length] in E.
      destruct emb as [[? bytes]|]; [unfold blen in E|]; lia. }
    cbn in Hg. destruct emb as [[c bytes]|]; cbn [result_bind]; [|apply IH; lia].
    destruct (child c bytes) as [[]|]; [|done]. cbn [result_bind]. apply IH; lia.
Qed.

(** The reading of a non-empty frame, one field at a time. *)
Lemma reference_message_step levels k input :
  input <> [] ->
  reference_message levels k input =
  (let? (rest, embedded) := read_field k input in
   let? _ := match embedded with
             | Some (c, bytes) => match levels with O => Err DepthExceeded | S l => reference_message l c bytes end
             | None => Ok tt
             end in
   reference_message levels k rest).
Proof.
  destruct input as [|b t]; [done|]. intros _.
  set (child := fun c bytes => match levels with O => Err DepthExceeded | S l => reference_message l c bytes end).
  assert (Hm : forall j i, reference_message levels j i = reference_fields (length i) child j i)
    by (intros; destruct levels; reflexivity).
  rewrite Hm. cbn [length reference_fields].
  destruct (read_field k (b :: t)) as [[rest emb]|e] eqn:E; [|done]. cbn [result_bind].
  apply read_field_consumes in E.
  assert (length rest <= length t)%nat.
  { unfold blen in E. cbn [length] in E.
    destruct emb as [[? bytes]|]; [unfold blen in E|]; lia. }
  destruct emb as [[c bytes]|]; cbn [result_bind].
  - fold (child c bytes). destruct (child c bytes) as [[]|]; [|done]. cbn [result_bind].
    rewrite Hm. apply reference_fields_fuel; lia.
  - rewrite Hm. apply reference_fields_fuel; lia.
Qed.

(** What is left to check for a stack: each frame in turn, at its depth. *)
Fixpoint stack_meaning (limit : DecodeDepth) (stack : list ScanFrame) : result WirePreflightError () :=
  match stack with
  | [] => Ok tt
  | frame :: below =>
      let? _ := reference_message (Z.to_nat (limit - blen stack)) (kind frame) (unread frame) in
      stack_meaning limit below
  end.

Definition stack_measure (stack : list ScanFrame) : Z :=
  foldr (fun frame acc => blen (unread frame) + 1 + acc) 0 stack.

Lemma stack_measure_nonneg stack : 0 <= stack_measure stack.
Proof.
  induction stack as [|f s IH]; cbn; [lia|]. pose proof (blen_nonneg (unread f)).
  change (foldr _ 0 s) with (stack_measure s). lia.
Qed.

Lemma preflight_step_meaning limit stack :
  stack <> [] -> blen stack <= limit ->
  match preflight_step limit stack with
  | Ok stack' => stack_meaning limit stack' = stack_meaning limit stack /\
                 stack_measure stack' < stack_measure stack /\ blen stack' <= limit
  | Err e => stack_meaning limit stack = Err e
  end.
Proof.
  destruct stack as [|[input k] below]; [done|]. intros _ Hd. rewrite blen_cons in Hd.
  pose proof (blen_nonneg below). unfold preflight_step. cbn [unread].
  destruct input as [|b t].
  - cbn [stack_meaning kind unread]. split_and!.
    + by destruct (Z.to_nat _).
    + unfold stack_measure. cbn [foldr unread]. change (blen (@nil byte)) with 0. lia.
    + lia.
  - cbn [stack_meaning kind unread]. rewrite reference_message_step by done.
    destruct (read_field k (b :: t)) as [[rest emb]|e] eqn:E; [|done]. cbn [result_bind].
    apply read_field_consumes in E. destruct emb as [[c bytes]|].
    + destruct (limit <=? _) eqn:El; bool_hyps; rewrite blen_cons in El.
      * replace (Z.to_nat (limit - blen ({| unread := b :: t; kind := k |} :: below))) with 0%nat
          by (rewrite blen_cons; lia). done.
      * replace (Z.to_nat (limit - blen ({| unread := b :: t; kind := k |} :: below)))
          with (S (Z.to_nat (limit - (2 + blen below)))) by (rewrite blen_cons; lia).
        cbn [stack_meaning kind unread]. rewrite !blen_cons.
        replace (Z.to_nat (limit - (1 + (1 + blen below)))) with (Z.to_nat (limit - (2 + blen below))) by lia.
        replace (Z.to_nat (limit - (1 + blen below))) with (S (Z.to_nat (limit - (2 + blen below)))) by lia.
        split_and!; [by destruct (reference_message _ c bytes)| |lia].
        unfold stack_measure. cbn [foldr unread]. lia.
    + cbn [result_bind stack_meaning kind unread]. rewrite !blen_cons.
      split_and!; [done| |lia]. unfold stack_measure. cbn [foldr unread].
      rewrite (blen_cons b t) in E |- *. lia.
Qed.

Lemma preflight_loop_meaning fuel limit stack :
  stack_measure stack <= Z.of_nat fuel -> blen stack <= limit ->
  preflight_loop fuel limit stack = stack_meaning limit stack.
Proof.
  revert stack. induction fuel as [|fuel IH]; intros stack Hm Hd.
  - destruct stack as [|f s]; [done|]. cbn in Hm.
    pose proof (stack_measure_nonneg s) as Hs. unfold stack_measure in Hs.
    pose proof (blen_nonneg (unread f)). lia.
  - destruct stack as [|f s]; [done|].
    pose proof (preflight_step_meaning limit (f :: s) ltac:(done) Hd) as Hstep.
    cbn [preflight_loop]. destruct (preflight_step limit (f :: s)) as [stack'|e]; cbn [result_bind].
    + destruct Hstep as (<- & Hlt & Hd'). apply IH; lia.
    + by rewrite Hstep.
Qed.

(** The stack of every configuration the loop passes through. *)
Inductive preflight_reaches (limit : DecodeDepth) : list ScanFrame -> list ScanFrame -> Prop :=
| pr_here s : preflight_reaches limit s s
| pr_step s t u : preflight_step limit s = Ok t -> preflight_reaches limit t u -> preflight_reaches limit s u.

Lemma preflight_depth_bounded limit s t :
  preflight_reaches limit s t -> blen s <= limit -> blen t <= limit.
Proof.
  induction 1 as [|s t u Hst _ IH]; [done|]. intros Hs. apply IH.
  destruct s as [|f s]; [injection Hst as <-; done|].
  pose proof (preflight_step_meaning limit (f :: s) ltac:(done) Hs) as Hm. rewrite Hst in Hm. apply Hm.
Qed.
End preflight.

(** C16: The explicit-stack preflight computes the recursive reading of the payload,
    with the same error on every malformed or too deep input; its loop ends within
    one iteration per payload byte plus one, and every stack it passes through
    fits the configured depth, so the 64-slot array is never indexed out of range. *)
Theorem preflight_matches_recursion {K : Type} (descriptor : K -> Z -> option K)
    (payload : list byte) (root : K) (limit : DecodeDepth) :
  decode_depth_new limit = Ok limit -> 0 <= limit ->
  preflight descriptor payload root limit = reference_message descriptor (Z.to_nat (limit - 1)) root payload /\
  (forall stack, preflight_reaches descriptor limit [{| unread := payload; kind := root |}] stack ->
                 blen stack <= MAX_DECODE_DEPTH).
Proof.
  unfold decode_depth_new. intros Hl Hp. passed Hl as E. bool_hyps.
  split.
  - unfold preflight. rewrite preflight_loop_meaning.
    + cbn [stack_meaning kind unread]. change (blen [_]) with 1.
      by destruct (reference_message _ _ root payload) as [[]|].
    + cbn. unfold blen. lia.
    + rewrite blen_cons, blen_nil. lia.
  - intros stack Hs. apply preflight_depth_bounded in Hs; [lia|]. rewrite blen_cons, blen_nil. lia.
Qed.

(** A root with one embedded message that embeds another, at a depth of two. *)
Definition nested_sample : list byte := [x0a; x02; x0a; x00].
Lemma preflight_matches_recursion_witness :
  preflight (fun (k : bool) (_ : Z) => Some k) nested_sample true 2
  = reference_message (fun (k : bool) (_ : Z) => Some k) 1 true nested_sample /\
  (forall stack, preflight_reaches (fun (k : bool) (_ : Z) => Some k) 2 [{| unread := nested_sample; kind := true |}] stack ->
                 blen stack <= MAX_DECODE_DEPTH).
Proof. apply (preflight_matches_recursion (fun (k : bool) (_ : Z) => Some k) nested_sample true 2); [reflexivity|lia]. Defined.

Example nested_sample_too_deep :
  preflight (fun (k : bool) (_ : Z) => Some k) nested_sample true 2 = Err DepthExceeded.
Proof. reflexivity. Qed.
End Preflight.
