(* ===== verification/CoreSession.v ===== *)
(** The client protocol: handshake and single-command session of
    [mengxia-core-proto] ([lib.rs] and [session.rs]).

    Both ends are sequential programs over one duplex stream; they are written in
    the small state-and-error monad [io] over [Stream].  A failure carries only its
    [ErrorCode], as [HandshakeFailure] and [OperationFailure] do.  Prost, the
    allocator, the identifier generator and the generated descriptor tables are
    parameters.  A deadline that fires ends a block with [DeadlineExceeded]; how far
    the block got by then is not modelled, as every caller drops the stream. *)
From Stdlib Require Import ZArith Lia String.
From Stdlib Require Import Strings.Byte Init.Byte.
From stdpp Require Import prelude list.
From S2P Require Import Prelude RustText Types Framing CoreWire.

Set Warnings "-clear-no-such-hyp".

Module CoreSession.

Definition PROTOCOL_MAJOR : Z := 1.
Definition PROTOCOL_MINOR : Z := 0.
Definition SINGLE_COMMAND_PROTOCOL_MINOR : Z := 1.
Definition TASK_008_PROTOCOL_MINOR : Z := 2.
Definition TASK_009_PROTOCOL_MINOR : Z := 3.
Definition TASK_007_MIN_OPERATION_DECODE_DEPTH : Z := 3.
(** Durations in nanoseconds. *)
Definition MIN_HANDSHAKE_TIMEOUT : Z := 100 * 1000000.
Definition MAX_HANDSHAKE_TIMEOUT : Z := 5000 * 1000000.

(** ** Messages of [handshake.proto] *)

Record ClientHello := {
  ch_request_id : list byte; ch_protocol_major : Z; ch_min_protocol_minor : Z; ch_max_protocol_minor : Z;
  ch_intent : Z }.
Record ServerHello := {
  sh_request_id : list byte; sh_correlation_id : list byte; sh_protocol_major : Z; sh_protocol_minor : Z }.
Record ErrorEnvelope := {
  ee_code : list byte; ee_safe_message : list byte; ee_retryable : bool; ee_correlation_id : option (list byte);
  ee_safe_details : list (list byte * list byte); ee_retry_action : option Z }.
Inductive HandshakeResponse :=
| ResponseHello (hello : ServerHello)
| ResponseError (error : ErrorEnvelope)
| ResponseNone.

Inductive ClientIntent := HandshakeOnly | SingleCommand.
#[global] Instance ClientIntent_eq_dec : EqDecision ClientIntent.
Proof. solve_decision. Defined.
Definition client_intent_code (i : ClientIntent) : Z := match i with HandshakeOnly => 0 | SingleCommand => 1 end.
(** [ClientIntent::try_from(i32)]. *)
Definition client_intent_try_from (v : Z) : option ClientIntent :=
  if v =? 0 then Some HandshakeOnly else if v =? 1 then Some SingleCommand else None.

Inductive RetryAction :=
| RetryUnspecified | RetryNone | SameCommand | FreshCommand | SourceStableSameCommand | SourceStableFreshCommand
| OperatorOrRuntimeAction.
#[global] Instance RetryAction_eq_dec : EqDecision RetryAction.
Proof. solve_decision. Defined.
Definition retry_action_code (r : RetryAction) : Z :=
  match r with
  | RetryUnspecified => 0 | RetryNone => 1 | SameCommand => 2 | FreshCommand => 3 | SourceStableSameCommand => 4
  | SourceStableFreshCommand => 5 | OperatorOrRuntimeAction => 6
  end.

(** The operations of [CoreRequest] and the results of [CoreResponse]. *)
Inductive Operation :=
| IngestAssetCopy | GetLibraryStatus | VerifyLibrary | ListIntegrityIssues | InspectAsset | ListAssets
| MaterializeAsset | CreateAssetRevision | RetireAsset | RestoreAsset | CreateProject | ReviseProjectSpec
| ListProjects | CreateSubject | ListSubjects | CreateWorkItem | ReviseWork | ListWork | CreateTake
| TransitionTake | ReopenTake | ListTakes.
#[global] Instance Operation_eq_dec : EqDecision Operation.
Proof. solve_decision. Defined.

(** The roots the preflight starts from, of the generated table's kinds. *)
Class CoreDescriptor := {
  MessageKind : Type;
  ClientHelloKind : MessageKind; HandshakeResponseKind : MessageKind;
  CoreRequestKind : MessageKind; CoreResponseKind : MessageKind;
  descriptor_embedded_message : MessageKind -> Z -> option MessageKind;
  HANDSHAKE_DESCRIPTOR_MAX_DEPTH : Z;
  OPERATION_DESCRIPTOR_MAX_DEPTH : Z }.

(** The generated [prost] codec of one message type. *)
Class Prost (M : Type) := { decode_message : list byte -> option M; encode_message : M -> list byte }.

(** ** The stream and its monad *)

Record Stream := { rx : Framing.Reader; tx : Framing.Writer; can_shutdown : bool; closed : bool }.
Definition io (A : Type) : Type := Stream -> result ErrorCode A * Stream.
Definition ret {A} (a : A) : io A := fun s => (Ok a, s).
Definition fail {A} (e : ErrorCode) : io A := fun s => (Err e, s).
Definition lift {A} (r : result ErrorCode A) : io A := fun s => (r, s).
Definition io_bind {A B} (m : io A) (k : A -> io B) : io B :=
  fun s => match m s with (Ok a, s1) => k a s1 | (Err e, s1) => (Err e, s1) end.
Notation "'do?' x ':=' c 'in' k" := (io_bind c (fun x => k))
  (at level 10, x pattern, c at level 100, k at level 200,
   format "'[v' 'do?'  x  ':='  c  'in'  '/' k ']'") : rust_scope.

(** [timeout_at(deadline, body)]: either the body completes before the deadline or the
    deadline is what the caller sees.  A body cut short after part of its frames went
    out is not distinguished: the connection is dropped by every caller. *)
Definition timeout_at {A} (elapsed : bool) (m : io A) : io A :=
  fun s => if elapsed then (Err DeadlineExceeded, s) else m s.

(** [write_frame(..).map_err(|_| IpcTransportError)] *)
Definition send (payload : list byte) (limit : Framing.FrameLimit) : io () :=
  fun s => let '(r, w) := Framing.write_frame (tx s) payload limit in
           (map_err (fun _ => IpcTransportError) r,
            {| rx := rx s; tx := w; can_shutdown := can_shutdown s; closed := closed s |}).
Definition shutdown : io () :=
  fun s => if can_shutdown s
           then (Ok tt, {| rx := rx s; tx := tx s; can_shutdown := true; closed := true |})
           else (Err IpcTransportError, s).
(** One [read] of a single byte: the number of bytes read. *)
Definition read_one : io Z :=
  fun s => match Framing.incoming (rx s) with
           | _ :: rest =>
               (Ok 1, {| rx := {| Framing.incoming := rest; Framing.stream_end := Framing.stream_end (rx s) |};
                         tx := tx s; can_shutdown := can_shutdown s; closed := closed s |})
           | [] => match Framing.stream_end (rx s) with
                   | Framing.Eof => (Ok 0, s)
                   | Framing.Broken => (Err IpcTransportError, s)
                   end
           end.

Section session.
Context (alloc : Z -> bool).
Definition recv (limit : Framing.FrameLimit) (on_error : Framing.FrameError -> ErrorCode) : io (list byte) :=
  fun s => let '(r, rd) := Framing.read_frame alloc (rx s) limit in
           (map_err on_error r, {| rx := rd; tx := tx s; can_shutdown := can_shutdown s; closed := closed s |}).
Definition transport (_ : Framing.FrameError) : ErrorCode := IpcTransportError.

Context `{TypedId.UuidCrate, CoreDescriptor, Prost ClientHello, Prost HandshakeResponse}.

(** ** Limits *)

Record HandshakeLimits := {
  hl_frame_limit : Framing.FrameLimit; hl_decode_depth : Preflight.DecodeDepth; hl_timeout : Z }.
Definition TASK_003_MIN_DECODE_DEPTH : Z := HANDSHAKE_DESCRIPTOR_MAX_DEPTH.
Definition TASK_009_MIN_OPERATION_DECODE_DEPTH : Z := OPERATION_DESCRIPTOR_MAX_DEPTH.
Definition handshake_limits_new (frame_limit : Framing.FrameLimit) (depth : Preflight.DecodeDepth) (timeout : Z)
  : result ErrorCode HandshakeLimits :=
  if (depth <? TASK_003_MIN_DECODE_DEPTH) || (timeout <? MIN_HANDSHAKE_TIMEOUT) || (MAX_HANDSHAKE_TIMEOUT <? timeout)
  then Err ValidationError
  else Ok {| hl_frame_limit := frame_limit; hl_decode_depth := depth; hl_timeout := timeout |}.

Record OperationLimits := { ol_frame_limit : Framing.FrameLimit; ol_decode_depth : Preflight.DecodeDepth }.
Definition operation_limits_new (frame_limit : Framing.FrameLimit) (depth : Preflight.DecodeDepth)
  : result ErrorCode OperationLimits :=
  if depth <? TASK_007_MIN_OPERATION_DECODE_DEPTH then Err ValidationError
  else Ok {| ol_frame_limit := frame_limit; ol_decode_depth := depth |}.

(** ** Errors *)

Definition safe_message (code : ErrorCode) : list byte :=
  match code with
  | ProtocolVersionUnsupported => bs "protocol version is unsupported"
  | ValidationError => bs "request validation failed"
  | IdGenerationUnavailable => bs "identifier generation is unavailable"
  | _ => bs "operation failed"
  end.

Definition error_response (code : ErrorCode) : HandshakeResponse :=
  ResponseError {|
    ee_code := ErrorCodeText.as_str code; ee_safe_message := safe_message code; ee_retryable := false;
    ee_correlation_id := None; ee_safe_details := []; ee_retry_action := None |}.

(** The code the envelope stands for, or a [ValidationError] as the failure. *)
Definition validate_error_envelope (e : ErrorEnvelope) : result ErrorCode ErrorCode :=
  if negb (bool_decide (ee_safe_details e = [])) || bool_decide (is_Some (ee_correlation_id e))
     || bool_decide (is_Some (ee_retry_action e))
  then Err ValidationError
  else
    let? code := map_err (fun _ => ValidationError) (ErrorCodeText.from_str (ee_code e)) in
    if negb (bool_decide (ee_safe_message e = safe_message code)) || ee_retryable e then Err ValidationError
    else Ok code.

Definition map_server_frame_error (e : Framing.FrameError) : ErrorCode :=
  match e with
  | Framing.Transport => IpcTransportError
  | Framing.InvalidLimit | Framing.InvalidLength | Framing.Truncated | Framing.AllocationUnavailable => ValidationError
  end.

(** [Id::from_str(..).map_err(..)] and [to_string]. *)
Definition parse_id (on_error : ErrorCode) (text : list byte) : result ErrorCode TypedId.Id :=
  map_err (fun _ => on_error) (TypedId.from_str text).

Definition preflight_or (on_error : ErrorCode) (payload : list byte) (root : MessageKind) (depth : Preflight.DecodeDepth)
  : result ErrorCode () :=
  map_err (fun _ => on_error) (Preflight.preflight descriptor_embedded_message payload root depth).

Definition decode_client_hello (payload : list byte) (depth : Preflight.DecodeDepth) : result ErrorCode ClientHello :=
  let? _ := preflight_or ValidationError payload ClientHelloKind depth in
  ok_or ValidationError (decode_message payload).

(** [stream.peer_cred()] and the owner check. *)
Definition authenticate (peer : option Z) (expected_owner_uid : Z) : result ErrorCode () :=
  match peer with
  | None => Err AuthenticationError
  | Some uid => if uid =? expected_owner_uid then Ok tt else Err AuthenticationError
  end.

(** ** The terminal handshake of protocol 1.0 *)

Definition hello_response (request_id correlation_id : TypedId.Id) (minor : Z) : HandshakeResponse :=
  ResponseHello {|
    sh_request_id := TypedId.to_string request_id; sh_correlation_id := TypedId.to_string correlation_id;
    sh_protocol_major := PROTOCOL_MAJOR; sh_protocol_minor := minor |}.

(** The response and the terminal error of one hello; [new_id] is
    [Id::<CorrelationIdentity>::try_new()]. *)
Definition handshake_verdict (hello : ClientHello) (request_id : TypedId.Id)
    (new_id : result IdGenerationError TypedId.Id) : HandshakeResponse * option ErrorCode :=
  match client_intent_try_from (ch_intent hello) with
  | None => (error_response ValidationError, Some ValidationError)
  | Some intent =>
      if (ch_protocol_major hello =? PROTOCOL_MAJOR) && (ch_min_protocol_minor hello <=? ch_max_protocol_minor hello)
         && (ch_min_protocol_minor hello =? PROTOCOL_MINOR) && bool_decide (intent = HandshakeOnly)
      then match new_id with
        | Ok correlation_id => (hello_response request_id correlation_id PROTOCOL_MINOR, None)
        | Err _ => (error_response IdGenerationUnavailable, Some IdGenerationUnavailable)
        end
      else (error_response ProtocolVersionUnsupported, Some ProtocolVersionUnsupported)
  end.

(** Returns the owner's uid: the [PrincipalContext]. *)
Definition serve_handshake (elapsed : bool) (peer : option Z) (expected_owner_uid : Z) (limits : HandshakeLimits)
    (new_id : result IdGenerationError TypedId.Id) : io Z :=
  timeout_at elapsed (
  do? _ := lift (authenticate peer expected_owner_uid) in
  do? payload := recv (hl_frame_limit limits) map_server_frame_error in
  do? hello := lift (decode_client_hello payload (hl_decode_depth limits)) in
  do? request_id := lift (parse_id ValidationError (ch_request_id hello)) in
  let '(response, terminal_error) := handshake_verdict hello request_id new_id in
  do? _ := send (encode_message response) (hl_frame_limit limits) in
  do? _ := shutdown in
  match terminal_error with None => ret expected_owner_uid | Some code => fail code end).

Record NegotiatedHandshake := { nh_request_id : list byte; nh_correlation_id : list byte }.

Definition validate_server_hello (hello : ServerHello) (expected_request_id : list byte)
  : result ErrorCode NegotiatedHandshake :=
  if negb (bool_decide (sh_request_id hello = expected_request_id))
     || negb (sh_protocol_major hello =? PROTOCOL_MAJOR) || negb (sh_protocol_minor hello =? PROTOCOL_MINOR)
  then Err ValidationError
  else
    let? _ := parse_id ValidationError (sh_request_id hello) in
    let? _ := parse_id ValidationError (sh_correlation_id hello) in
    Ok {| nh_request_id := sh_request_id hello; nh_correlation_id := sh_correlation_id hello |}.

Definition client_hello (request_id : list byte) (minor : Z) (intent : ClientIntent) : ClientHello := {|
  ch_request_id := request_id; ch_protocol_major := PROTOCOL_MAJOR; ch_min_protocol_minor := minor;
  ch_max_protocol_minor := minor; ch_intent := client_intent_code intent |}.

Definition request_handshake (elapsed : bool) (request_id : list byte) (limits : HandshakeLimits)
  : io NegotiatedHandshake :=
  do? parsed := lift (parse_id ValidationError request_id) in
  let canonical := TypedId.to_string parsed in
  timeout_at elapsed (
  do? _ := send (encode_message (client_hello canonical PROTOCOL_MINOR HandshakeOnly)) (hl_frame_limit limits) in
  do? payload := recv (hl_frame_limit limits) transport in
  do? _ := lift (preflight_or ValidationError payload HandshakeResponseKind (hl_decode_depth limits)) in
  do? response := lift (ok_or ValidationError (decode_message payload)) in
  match response with
  | ResponseHello hello =>
      do? negotiated := lift (validate_server_hello hello canonical) in
      do? n := read_one in
      if n =? 0 then ret negotiated else fail ValidationError
  | ResponseError error =>
      do? code := lift (validate_error_envelope error) in fail code
  | ResponseNone => fail ValidationError
  end).

(** ** The daemon's dispatch *)

Record ServerSessionContext := {
  sc_owner_uid : Z; sc_request_id : list byte; sc_correlation_id : list byte; sc_protocol_minor : Z }.
Inductive ServerNegotiation :=
| NegotiatedHandshakeOnly (owner_uid : Z)
| NegotiatedSingleCommand (session : ServerSessionContext).

Definition write_handshake_rejection (limits : HandshakeLimits) (code : ErrorCode) : io () :=
  do? _ := send (encode_message (error_response code)) (hl_frame_limit limits) in
  shutdown.
(** [write_handshake_rejection(..).await?; return Err(code)] *)
Definition reject {A} (limits : HandshakeLimits) (code : ErrorCode) : io A :=
  do? _ := write_handshake_rejection limits code in fail code.

Definition is_legacy (hello : ClientHello) (intent : ClientIntent) : bool :=
  (ch_protocol_major hello =? PROTOCOL_MAJOR) && (ch_min_protocol_minor hello =? PROTOCOL_MINOR)
  && (ch_min_protocol_minor hello <=? ch_max_protocol_minor hello) && bool_decide (intent = HandshakeOnly).
Definition is_single (hello : ClientHello) (intent : ClientIntent) : bool :=
  (ch_protocol_major hello =? PROTOCOL_MAJOR) && (ch_min_protocol_minor hello =? ch_max_protocol_minor hello)
  && ((ch_min_protocol_minor hello =? SINGLE_COMMAND_PROTOCOL_MINOR)
      || (ch_min_protocol_minor hello =? TASK_008_PROTOCOL_MINOR)
      || (ch_min_protocol_minor hello =? TASK_009_PROTOCOL_MINOR))
  && bool_decide (intent = SingleCommand).

(** The common head of both servers: authenticate, read and decode the hello. *)
Definition receive_hello (peer : option Z) (expected_owner_uid : Z) (limits : HandshakeLimits)
  : io (ClientHello * TypedId.Id) :=
  do? _ := lift (authenticate peer expected_owner_uid) in
  do? payload := recv (hl_frame_limit limits) transport in
  do? hello := lift (decode_client_hello payload (hl_decode_depth limits)) in
  do? request_id := lift (parse_id ValidationError (ch_request_id hello)) in
  ret (hello, request_id).

Definition session_context (uid : Z) (request_id correlation_id : TypedId.Id) (minor : Z) : ServerSessionContext := {|
  sc_owner_uid := uid; sc_request_id := TypedId.to_string request_id;
  sc_correlation_id := TypedId.to_string correlation_id; sc_protocol_minor := minor |}.

Definition serve_daemon_handshake (elapsed : bool) (peer : option Z) (expected_owner_uid : Z)
    (limits : HandshakeLimits) (new_id : result IdGenerationError TypedId.Id) : io ServerNegotiation :=
  timeout_at elapsed (
  do? (hello, request_id) := receive_hello peer expected_owner_uid limits in
  match client_intent_try_from (ch_intent hello) with
  | None => reject limits ValidationError
  | Some intent =>
      let legacy := is_legacy hello intent in
      let single := is_single hello intent in
      if negb legacy && negb single then reject limits ProtocolVersionUnsupported
      else match new_id with
      | Err _ => reject limits IdGenerationUnavailable
      | Ok correlation_id =>
          let selected_minor := if single then ch_min_protocol_minor hello else PROTOCOL_MINOR in
          do? _ := send (encode_message (hello_response request_id correlation_id selected_minor)) (hl_frame_limit limits) in
          if legacy then do? _ := shutdown in ret (NegotiatedHandshakeOnly expected_owner_uid)
          else ret (NegotiatedSingleCommand (session_context expected_owner_uid request_id correlation_id selected_minor))
      end
  end).

Definition serve_single_command_handshake (elapsed : bool) (peer : option Z) (expected_owner_uid : Z)
    (limits : HandshakeLimits) (new_id : result IdGenerationError TypedId.Id) : io ServerSessionContext :=
  timeout_at elapsed (
  do? (hello, request_id) := receive_hello peer expected_owner_uid limits in
  match client_intent_try_from (ch_intent hello) with
  | None => reject limits ValidationError
  | Some intent =>
      if negb (ch_protocol_major hello =? PROTOCOL_MAJOR)
         || negb (ch_min_protocol_minor hello =? SINGLE_COMMAND_PROTOCOL_MINOR)
         || negb (ch_max_protocol_minor hello =? SINGLE_COMMAND_PROTOCOL_MINOR)
         || negb (bool_decide (intent = SingleCommand))
      then reject limits ProtocolVersionUnsupported
      else match new_id with
      | Err _ => reject limits IdGenerationUnavailable
      | Ok correlation_id =>
          do? _ := send (encode_message (hello_response request_id correlation_id SINGLE_COMMAND_PROTOCOL_MINOR))
                     (hl_frame_limit limits) in
          ret (session_context expected_owner_uid request_id correlation_id SINGLE_COMMAND_PROTOCOL_MINOR)
      end
  end).

(** ** The client's side of a session *)

Record NegotiatedClientSession := {
  cs_request_id : list byte; cs_correlation_id : list byte; cs_protocol_minor : Z }.

Definition request_command_handshake (elapsed : bool) (request_id : list byte) (limits : HandshakeLimits)
    (protocol_minor : Z) : io NegotiatedClientSession :=
  do? parsed := lift (parse_id ValidationError request_id) in
  let canonical := TypedId.to_string parsed in
  timeout_at elapsed (
  do? _ := send (encode_message (client_hello canonical protocol_minor SingleCommand)) (hl_frame_limit limits) in
  do? payload := recv (hl_frame_limit limits) transport in
  do? _ := lift (preflight_or IpcTransportError payload HandshakeResponseKind (hl_decode_depth limits)) in
  do? response := lift (ok_or IpcTransportError (decode_message payload)) in
  match response with
  | ResponseHello hello =>
      if negb (bool_decide (sh_request_id hello = canonical)) || negb (sh_protocol_major hello =? PROTOCOL_MAJOR)
         || negb (sh_protocol_minor hello =? protocol_minor)
      then fail IpcTransportError
      else
        do? _ := lift (parse_id IpcTransportError (sh_correlation_id hello)) in
        ret {| cs_request_id := canonical; cs_correlation_id := sh_correlation_id hello;
               cs_protocol_minor := protocol_minor |}
  | ResponseError error =>
      do? code := lift (map_err (fun _ => IpcTransportError) (validate_error_envelope error)) in
      match code with
      | ValidationError | ProtocolVersionUnsupported | IdGenerationUnavailable => fail code
      | _ => fail IpcTransportError
      end
  | ResponseNone => fail IpcTransportError
  end).

Definition request_single_command_handshake (elapsed : bool) (request_id : list byte) (limits : HandshakeLimits) :=
  request_command_handshake elapsed request_id limits SINGLE_COMMAND_PROTOCOL_MINOR.

(** ** Requests and responses *)

(** The bodies of the operations do not matter here. *)
Context {RequestBody ResponseBody : Type}.
Record CoreRequest := { operation : option (Operation * RequestBody) }.
Inductive Response :=
| ResultOf (op : Operation) (body : ResponseBody)
| OperationError (error : ErrorEnvelope).
Record CoreResponse := { response : option Response }.
Context `{Prost CoreRequest, Prost CoreResponse}.

Definition read_core_request (elapsed : bool) (limits : OperationLimits) : io CoreRequest :=
  timeout_at elapsed (
  do? payload := recv (ol_frame_limit limits) transport in
  do? _ := lift (preflight_or ValidationError payload CoreRequestKind (ol_decode_depth limits)) in
  lift (ok_or ValidationError (decode_message payload))).

(** The registry of operations per protocol minor. *)
Definition accepted_at (op : Operation) (minor : Z) : bool :=
  match op with
  | IngestAssetCopy => minor =? SINGLE_COMMAND_PROTOCOL_MINOR
  | GetLibraryStatus | VerifyLibrary | ListIntegrityIssues | InspectAsset | ListAssets | MaterializeAsset =>
      (minor =? TASK_008_PROTOCOL_MINOR) || (minor =? TASK_009_PROTOCOL_MINOR)
  | CreateAssetRevision | RetireAsset | RestoreAsset | CreateProject | ReviseProjectSpec | ListProjects
  | CreateSubject | ListSubjects | CreateWorkItem | ReviseWork | ListWork | CreateTake | TransitionTake
  | ReopenTake | ListTakes => minor =? TASK_009_PROTOCOL_MINOR
  end.
Definition validate_core_request_for_minor (request : CoreRequest) (protocol_minor : Z) : result ErrorCode () :=
  match operation request with
  | Some (op, _) => if accepted_at op protocol_minor then Ok tt else Err ValidationError
  | None => Err ValidationError
  end.

Definition write_core_response (elapsed : bool) (r : CoreResponse) (limits : OperationLimits) : io () :=
  timeout_at elapsed (
  do? _ := send (encode_message r) (ol_frame_limit limits) in
  shutdown).

Definition response_matches_request (request : CoreRequest) (r : CoreResponse) : bool :=
  match operation request, response r with
  | Some (op, _), Some (ResultOf op' _) => bool_decide (op = op')
  | Some _, Some (OperationError _) => true
  | _, _ => false
  end.

(** [handshake_elapsed] and [operation_elapsed]: whether the two deadlines fire. *)
Definition request_command (handshake_elapsed operation_elapsed : bool) (request_id : list byte) (request : CoreRequest)
    (handshake_limits : HandshakeLimits) (operation_limits : OperationLimits) (protocol_minor : Z)
  : io (NegotiatedClientSession * CoreResponse) :=
  do? session :=
    (if protocol_minor =? SINGLE_COMMAND_PROTOCOL_MINOR
     then request_single_command_handshake handshake_elapsed request_id handshake_limits
     else request_command_handshake handshake_elapsed request_id handshake_limits protocol_minor) in
  timeout_at operation_elapsed (
  do? _ := send (encode_message request) (ol_frame_limit operation_limits) in
  do? payload := recv (ol_frame_limit operation_limits) transport in
  do? _ := lift (preflight_or IpcTransportError payload CoreResponseKind (ol_decode_depth operation_limits)) in
  do? response := lift (ok_or IpcTransportError (decode_message payload)) in
  if negb (response_matches_request request response) then fail IpcTransportError
  else
    do? n := read_one in
    if n =? 0 then ret (session, response) else fail IpcTransportError).

Definition request_single_command (he oe : bool) (request_id : list byte) (request : CoreRequest)
    (hl : HandshakeLimits) (ol : OperationLimits) :=
  do? _ := lift (validate_core_request_for_minor request SINGLE_COMMAND_PROTOCOL_MINOR) in
  request_command he oe request_id request hl ol SINGLE_COMMAND_PROTOCOL_MINOR.
Definition request_task_008_command (he oe : bool) (request_id : list byte) (request : CoreRequest)
    (hl : HandshakeLimits) (ol : OperationLimits) :=
  do? _ := lift (validate_core_request_for_minor request TASK_008_PROTOCOL_MINOR) in
  request_command he oe request_id request hl ol TASK_008_PROTOCOL_MINOR.
Definition request_task_009_command (he oe : bool) (request_id : list byte) (request : CoreRequest)
    (hl : HandshakeLimits) (ol : OperationLimits) :=
  if ol_decode_depth ol <? TASK_009_MIN_OPERATION_DECODE_DEPTH then fail ValidationError
  else
    do? _ := lift (validate_core_request_for_minor request TASK_009_PROTOCOL_MINOR) in
    request_command he oe request_id request hl ol TASK_009_PROTOCOL_MINOR.

(** ** Operation errors *)

Definition valid_operation_retry_pair (code : ErrorCode) (retry : RetryAction) : bool :=
  let any l := bool_decide (retry ∈ l) in
  match code with
  | ValidationError => any [RetryNone; FreshCommand]
  | AuthenticationError | ProtocolVersionUnsupported => any [OperatorOrRuntimeAction]
  | Conflict | NotFound => any [RetryNone]
  | SourceModifiedDuringIngest => any [SourceStableSameCommand; SourceStableFreshCommand]
  | StorageIoError => any [SameCommand; FreshCommand; OperatorOrRuntimeAction]
  | StorageCorruption | StorageConfigurationError | IdGenerationUnavailable => any [OperatorOrRuntimeAction]
  | IpcTransportError | StorageBusy | CommandInProgress => any [SameCommand]
  | DeadlineExceeded | OperationCancelled | Backpressure => any [SameCommand; FreshCommand]
  | _ => false
  end.

Definition operation_safe_message (code : ErrorCode) : option (list byte) :=
  match code with
  | ValidationError => Some (bs "request validation failed")
  | AuthenticationError => Some (bs "client authentication failed")
  | Conflict => Some (bs "operation conflicts with durable state")
  | NotFound => Some (bs "requested object was not found")
  | SourceModifiedDuringIngest => Some (bs "source changed during ingest")
  | StorageIoError => Some (bs "storage operation failed")
  | StorageCorruption => Some (bs "storage integrity verification failed")
  | StorageBusy => Some (bs "storage is temporarily busy")
  | StorageConfigurationError => Some (bs "storage configuration is unsupported or unsafe")
  | IpcTransportError => Some (bs "local IPC transport failed")
  | ProtocolVersionUnsupported => Some (bs "protocol version is unsupported")
  | DeadlineExceeded => Some (bs "operation deadline exceeded")
  | OperationCancelled => Some (bs "operation was cancelled")
  | Backpressure => Some (bs "operation admission is full")
  | CommandInProgress => Some (bs "command is already in progress")
  | IdGenerationUnavailable => Some (bs "identifier generation is unavailable")
  | _ => None
  end.

Definition operation_error_response (code : ErrorCode) (retry : RetryAction) (correlation_id : list byte)
  : result ErrorCode CoreResponse :=
  let? message := ok_or InternalError (operation_safe_message code) in
  if negb (valid_operation_retry_pair code retry) then Err InternalError
  else
    let retryable := match retry with RetryNone | OperatorOrRuntimeAction => false | _ => true end in
    Ok {| response := Some (OperationError {|
            ee_code := ErrorCodeText.as_str code; ee_safe_message := message; ee_retryable := retryable;
            ee_correlation_id := Some correlation_id; ee_safe_details := [];
            ee_retry_action := Some (retry_action_code retry) |}) |}.
End session.
End CoreSession.
