(* ===== verification/CoreAgreement.v ===== *)
(** Theorems about the client protocol: who may open a session, what each end
    learns, and that both ends agree. *)
From Stdlib Require Import ZArith Lia String.
From Stdlib Require Import Strings.Byte Init.Byte.
From stdpp Require Import prelude list.
From S2P Require Import Prelude RustText Types Framing CoreWire CoreSession.

Set Warnings "-clear-no-such-hyp".

Module CoreAgreement.
Import CoreSession.

(** A fresh connection on which [input] will arrive before the peer closes. *)
Definition open_stream (input : list byte) (fin : Framing.StreamEnd) : Stream := {|
  rx := {| Framing.incoming := input; Framing.stream_end := fin |};
  tx := {| Framing.written := []; Framing.capacity := None; Framing.flushes := true |};
  can_shutdown := true; closed := false |}.
Definition frame {M} `{Prost M} (m : M) : list byte := Framing.frame_bytes (encode_message m).
(** The same connection later: [input] still to come, [output] sent. *)
Definition at_stream (input : list byte) (fin : Framing.StreamEnd) (output : list byte) (cl : bool) : Stream := {|
  rx := {| Framing.incoming := input; Framing.stream_end := fin |};
  tx := {| Framing.written := output; Framing.capacity := None; Framing.flushes := true |};
  can_shutdown := true; closed := cl |}.

Section agreement.
Context (alloc : Z -> bool).
Context `{D : CoreDescriptor}.

(** A message the generated codec writes so that the other end reads it back: the
    bytes decode to it, pass the preflight and fit the frame. *)
Record sendable {M} `{Prost M} (root : MessageKind) (limit : Framing.FrameLimit) (depth : Preflight.DecodeDepth) (m : M)
  : Prop := {
  sd_decodes : decode_message (encode_message m) = Some m;
  sd_preflight : Preflight.preflight descriptor_embedded_message (encode_message m) root depth = Ok tt;
  sd_fits : Framing.payload_ok limit (encode_message m) }.

Lemma send_ok {M} `{Prost M} root limit depth (m : M) input fin output cl :
  Framing.limit_ok limit -> sendable root limit depth m ->
  send (encode_message m) limit (at_stream input fin output cl) = (Ok tt, at_stream input fin (output ++ frame m) cl).
Proof.
  intros Hl [_ _ Hp]. unfold send. cbn [tx at_stream].
  by rewrite Framing.write_frame_unbounded.
Qed.

Lemma recv_ok {M} `{Prost M} root limit depth (m : M) on_error rest fin output cl :
  Framing.limit_ok limit -> (forall n, n <= limit -> alloc n = true) -> sendable root limit depth m ->
  recv alloc limit on_error (at_stream (frame m ++ rest) fin output cl) = (Ok (encode_message m), at_stream rest fin output cl).
Proof.
  intros Hl Ha [_ _ Hp]. unfold recv, frame. cbn [rx at_stream]. rewrite Framing.read_frame_image; [done..|]. apply Ha, Hp.
Qed.

Lemma preflight_or_ok {M} `{Prost M} root limit depth (m : M) e :
  sendable root limit depth m -> preflight_or e (encode_message m) root depth = Ok tt.
Proof. intros [_ Hp _]. unfold preflight_or. by rewrite Hp. Qed.

Context `{U : TypedId.UuidCrate} {L : TypedId.UuidLaws U}.
Context `{Prost ClientHello, Prost HandshakeResponse}.

Lemma decode_client_hello_ok limit depth (h : ClientHello) :
  sendable ClientHelloKind limit depth h -> decode_client_hello (encode_message h) depth = Ok h.
Proof.
  intros Hs. unfold decode_client_hello. rewrite (preflight_or_ok _ _ _ _ _ Hs). cbn. by rewrite (sd_decodes _ _ _ _ Hs).
Qed.

Lemma parse_id_print e i : TypedId.wf i -> parse_id e (TypedId.to_string i) = Ok i.
Proof. intros Hi. unfold parse_id. by rewrite TypedId.id_parse_print. Qed.

Definition session_minor (minor : Z) : Prop := minor = 1 \/ minor = 2 \/ minor = 3.

Lemma client_hello_single text minor :
  session_minor minor ->
  is_single (client_hello text minor SingleCommand) SingleCommand = true /\
  is_legacy (client_hello text minor SingleCommand) SingleCommand = false.
Proof. by intros [-> | [-> | ->] ]. Qed.

(** ** The two ends of a session handshake *)

Section exchange.
Context (limits : HandshakeLimits) (rid cid : TypedId.Id) (uid minor : Z).
Hypothesis Hlimit : Framing.limit_ok (hl_frame_limit limits).
Hypothesis Halloc : forall n, n <= hl_frame_limit limits -> alloc n = true.
Hypothesis Hrid : TypedId.wf rid.
Hypothesis Hcid : TypedId.wf cid.
Hypothesis Hminor : session_minor minor.
Local Abbreviation hello := (client_hello (TypedId.to_string rid) minor SingleCommand).
Local Abbreviation answer := (hello_response rid cid minor).
Hypothesis Hhello : sendable ClientHelloKind (hl_frame_limit limits) (hl_decode_depth limits) hello.
Hypothesis Hanswer : sendable HandshakeResponseKind (hl_frame_limit limits) (hl_decode_depth limits) answer.

Lemma server_handshake_run rest fin :
  serve_daemon_handshake alloc false (Some uid) uid limits (Ok cid) (at_stream (frame hello ++ rest) fin [] false)
  = (Ok (NegotiatedSingleCommand (session_context uid rid cid minor)), at_stream rest fin (frame answer) false).
Proof.
  unfold serve_daemon_handshake, timeout_at, receive_hello, io_bind, lift, ret.
  unfold authenticate. rewrite Z.eqb_refl. rewrite (recv_ok _ _ _ _ _ _ _ _ _ Hlimit Halloc Hhello).
  rewrite (decode_client_hello_ok _ _ _ Hhello). cbn [ch_request_id client_hello]. rewrite parse_id_print by done.
  destruct (client_hello_single (TypedId.to_string rid) minor Hminor) as [Hs Hleg]. cbn [ch_intent client_hello client_intent_code].
  change (client_intent_try_from 1) with (Some SingleCommand). cbv iota zeta. rewrite Hs, Hleg. cbn [negb andb ch_min_protocol_minor client_hello].
  by rewrite (send_ok _ _ _ _ _ _ _ _ Hlimit Hanswer).
Qed.

Lemma client_handshake_run text rest fin output :
  TypedId.from_str text = Ok rid ->
  request_command_handshake alloc false text limits minor (at_stream (frame answer ++ rest) fin output false)
  = (Ok {| cs_request_id := TypedId.to_string rid; cs_correlation_id := TypedId.to_string cid; cs_protocol_minor := minor |},
     at_stream rest fin (output ++ frame hello) false).
Proof.
  intros Htext. unfold request_command_handshake, timeout_at, io_bind, lift, ret. unfold parse_id at 1. rewrite Htext. cbn [map_err].
  rewrite (send_ok _ _ _ _ _ _ _ _ Hlimit Hhello), (recv_ok _ _ _ _ _ _ _ _ _ Hlimit Halloc Hanswer).
  rewrite (preflight_or_ok _ _ _ _ _ Hanswer), (sd_decodes _ _ _ _ Hanswer). cbn [ok_or hello_response].
  cbn [sh_request_id sh_protocol_major sh_protocol_minor sh_correlation_id].
  rewrite bool_decide_eq_true_2, !Z.eqb_refl by done. cbn [negb orb]. by rewrite parse_id_print.
Qed.

(** ** The whole session *)

Context {RequestBody ResponseBody : Type}.
Local Abbreviation CoreRequest := (@CoreRequest RequestBody).
Local Abbreviation CoreResponse := (@CoreResponse ResponseBody).
Context `{Prost CoreRequest, Prost CoreResponse}.
Context (ol : OperationLimits) (request : CoreRequest) (reply : CoreResponse).
Hypothesis Hol : Framing.limit_ok (ol_frame_limit ol).
Hypothesis Holalloc : forall n, n <= ol_frame_limit ol -> alloc n = true.
Hypothesis Hrequest : sendable CoreRequestKind (ol_frame_limit ol) (ol_decode_depth ol) request.
Hypothesis Hreply : sendable CoreResponseKind (ol_frame_limit ol) (ol_decode_depth ol) reply.

(** One session on the daemon's side: negotiate, read the request, hold it against
    the negotiated registry, answer with [handler]. *)
Definition serve_session (new_id : result IdGenerationError TypedId.Id)
    (handler : ServerSessionContext -> CoreRequest -> CoreResponse) : io (ServerSessionContext * CoreRequest) :=
  do? n := serve_daemon_handshake alloc false (Some uid) uid limits new_id in
  match n with
  | NegotiatedHandshakeOnly _ => fail InternalError
  | NegotiatedSingleCommand session =>
      do? r := read_core_request alloc false ol in
      do? _ := lift (validate_core_request_for_minor r (sc_protocol_minor session)) in
      do? _ := write_core_response false (handler session r) ol in
      ret (session, r)
  end.

Lemma server_session_run handler :
  validate_core_request_for_minor request minor = Ok tt ->
  handler (session_context uid rid cid minor) request = reply ->
  serve_session (Ok cid) handler (at_stream (frame hello ++ frame request) Framing.Eof [] false)
  = (Ok (session_context uid rid cid minor, request), at_stream [] Framing.Eof (frame answer ++ frame reply) true).
Proof.
  intros Hv Hh. unfold serve_session, io_bind. rewrite server_handshake_run. cbn [sc_protocol_minor session_context].
  unfold read_core_request, timeout_at, io_bind, lift.
  rewrite <- (app_nil_r (frame request)), (recv_ok _ _ _ _ _ _ _ _ _ Hol Holalloc Hrequest).
  rewrite (preflight_or_ok _ _ _ _ _ Hrequest), (sd_decodes _ _ _ _ Hrequest). cbn [ok_or]. rewrite Hv, Hh.
  unfold write_core_response, timeout_at, io_bind. by rewrite (send_ok _ _ _ _ _ _ _ _ Hol Hreply).
Qed.

Lemma client_session_run text :
  TypedId.from_str text = Ok rid -> response_matches_request request reply = true ->
  request_command alloc false false text request limits ol minor
    (at_stream (frame answer ++ frame reply) Framing.Eof [] false)
  = (Ok ({| cs_request_id := TypedId.to_string rid; cs_correlation_id := TypedId.to_string cid; cs_protocol_minor := minor |}, reply),
     at_stream [] Framing.Eof (frame hello ++ frame request) false).
Proof.
  intros Ht Hm. unfold request_command, request_single_command_handshake.
  assert ((if minor =? SINGLE_COMMAND_PROTOCOL_MINOR
           then request_command_handshake alloc false text limits SINGLE_COMMAND_PROTOCOL_MINOR
           else request_command_handshake alloc false text limits minor)
          = request_command_handshake alloc false text limits minor) as ->.
  { destruct (minor =? SINGLE_COMMAND_PROTOCOL_MINOR) eqn:E; bool_hyps; by subst. }
  unfold io_bind at 1. rewrite client_handshake_run by done. unfold timeout_at, io_bind, lift, ret. cbn [app].
  rewrite (send_ok _ _ _ _ _ _ _ _ Hol Hrequest).
  rewrite <- (app_nil_r (frame reply)), (recv_ok _ _ _ _ _ _ _ _ _ Hol Holalloc Hreply).
  rewrite (preflight_or_ok _ _ _ _ _ Hreply), (sd_decodes _ _ _ _ Hreply). cbn [ok_or]. rewrite Hm. done.
Qed.
End exchange.
End agreement.

(** C17: Both ends of a session agree.  For an authenticated owner, a protocol minor
    1..3 and messages the generated codec carries faithfully within the limits:
    the daemon, reading what the client sends, opens a session for that owner,
    receives the client's request unchanged and answers; the client, reading what
    the daemon sends, ends with the same request identity, correlation identity
    and protocol minor, and with the daemon's response; the bytes each end
    consumes are exactly the bytes the other end writes. *)
Theorem session_agreement (alloc : Z -> bool) (D : CoreDescriptor) (U : TypedId.UuidCrate) (L : TypedId.UuidLaws U)
    (P1 : Prost ClientHello) (P2 : Prost HandshakeResponse) (RequestBody ResponseBody : Type)
    (P3 : Prost (@CoreRequest RequestBody)) (P4 : Prost (@CoreResponse ResponseBody))
    (limits : HandshakeLimits) (ol : OperationLimits) (text : list byte) (rid cid : TypedId.Id) (uid minor : Z)
    (request : CoreRequest) (reply : CoreResponse) (handler : ServerSessionContext -> CoreRequest -> CoreResponse) :
  Framing.limit_ok (hl_frame_limit limits) -> Framing.limit_ok (ol_frame_limit ol) -> (forall n, alloc n = true) ->
  TypedId.from_str text = Ok rid -> TypedId.wf cid -> session_minor minor ->
  sendable ClientHelloKind (hl_frame_limit limits) (hl_decode_depth limits)
    (client_hello (TypedId.to_string rid) minor SingleCommand) ->
  sendable HandshakeResponseKind (hl_frame_limit limits) (hl_decode_depth limits) (hello_response rid cid minor) ->
  sendable CoreRequestKind (ol_frame_limit ol) (ol_decode_depth ol) request ->
  sendable CoreResponseKind (ol_frame_limit ol) (ol_decode_depth ol) reply ->
  validate_core_request_for_minor request minor = Ok tt -> response_matches_request request reply = true ->
  handler (session_context uid rid cid minor) request = reply ->
  exists client_bytes server_bytes session,
    serve_session alloc limits uid ol (Ok cid) handler (open_stream client_bytes Framing.Eof)
      = (Ok (session_context uid rid cid minor, request), at_stream [] Framing.Eof server_bytes true) /\
    request_command alloc false false text request limits ol minor (open_stream server_bytes Framing.Eof)
      = (Ok (session, reply), at_stream [] Framing.Eof client_bytes false) /\
    cs_request_id session = text /\ cs_request_id session = sc_request_id (session_context uid rid cid minor) /\
    cs_correlation_id session = sc_correlation_id (session_context uid rid cid minor) /\
    cs_protocol_minor session = sc_protocol_minor (session_context uid rid cid minor).
Proof.
  intros Hl Hol Ha Ht Hcid Hm Hh Hans Hreq Hrep Hv Hmatch Hhand.
  destruct (TypedId.id_print_parse _ _ Ht) as [Hrid Hprint].
  exists (frame (client_hello (TypedId.to_string rid) minor SingleCommand) ++ frame request),
    (frame (hello_response rid cid minor) ++ frame reply),
    {| cs_request_id := TypedId.to_string rid; cs_correlation_id := TypedId.to_string cid; cs_protocol_minor := minor |}.
  split; [by eapply (server_session_run alloc limits rid cid uid minor)|].
  split; [by eapply (client_session_run alloc limits rid cid minor)|]. by split_and!.
Qed.

(** A codec with one message per type, enough for the hypotheses to hold. *)
Module Sample.
Definition bytes : list byte := [x08; x01].
Definition id (n : Z) : TypedId.Id := Rfc9562.builder_ n sample_random.
Definition descriptor : CoreDescriptor := {|
  MessageKind := (); ClientHelloKind := tt; HandshakeResponseKind := tt; CoreRequestKind := tt; CoreResponseKind := tt;
  descriptor_embedded_message := fun _ _ => None; HANDSHAKE_DESCRIPTOR_MAX_DEPTH := 3;
  OPERATION_DESCRIPTOR_MAX_DEPTH := 5 |}.
Definition constant {M} (m : M) : Prost M := {| decode_message := fun _ => Some m; encode_message := fun _ => bytes |}.
Definition request : @CoreRequest () := {| operation := Some (ListTakes, tt) |}.
Definition reply : @CoreResponse () := {| response := Some (ResultOf ListTakes tt) |}.
Definition limits : HandshakeLimits :=
  {| hl_frame_limit := 65536; hl_decode_depth := 3; hl_timeout := 1000000000 |}.
Definition operation_limits : OperationLimits := {| ol_frame_limit := 65536; ol_decode_depth := 5 |}.

Lemma sample_sendable {M} (P : Prost M) (m : M) (depth : Z) :
  P = constant m -> (depth = 3 \/ depth = 5) ->
  @sendable descriptor M P tt 65536 depth m.
Proof.
  intros -> Hd. constructor; [reflexivity|destruct Hd as [-> | ->]; vm_compute; reflexivity|].
  split; [discriminate|vm_compute; discriminate].
Qed.
End Sample.

Lemma session_agreement_witness :
  let rid := Sample.id 1 in let cid := Sample.id 2 in
  let U := Rfc9562.rfc in
  let P1 := Sample.constant (@client_hello (@TypedId.to_string U rid) 3 SingleCommand) in
  let P2 := Sample.constant (@hello_response U rid cid 3) in
  let P3 := Sample.constant Sample.request in let P4 := Sample.constant Sample.reply in
  exists client_bytes server_bytes session,
    @serve_session (fun _ => true) Sample.descriptor U P1 P2 Sample.limits 501 () () P3 P4 Sample.operation_limits (Ok cid)
      (fun _ _ => Sample.reply) (open_stream client_bytes Framing.Eof)
      = (Ok (@session_context U 501 rid cid 3, Sample.request), at_stream [] Framing.Eof server_bytes true) /\
    @request_command (fun _ => true) U Sample.descriptor P1 P2 () () P3 P4 false false (@TypedId.to_string U rid) Sample.request
      Sample.limits Sample.operation_limits 3 (open_stream server_bytes Framing.Eof)
      = (Ok (session, Sample.reply), at_stream [] Framing.Eof client_bytes false).
Proof.
  intros rid cid U P1 P2 P3 P4.
  destruct (session_agreement (fun _ => true) Sample.descriptor U Rfc9562.rfc_laws P1 P2 () () P3 P4 Sample.limits
    Sample.operation_limits (@TypedId.to_string U rid) rid cid 501 3 Sample.request Sample.reply (fun _ _ => Sample.reply))
    as (cb & sb & session & Hs & Hc & _).
  - vm_compute. split; discriminate.
  - vm_compute. split; discriminate.
  - reflexivity.
  - vm_compute. reflexivity.
  - vm_compute. split; reflexivity.
  - right. right. reflexivity.
  - apply Sample.sample_sendable; [reflexivity|left; reflexivity].
  - apply Sample.sample_sendable; [reflexivity|left; reflexivity].
  - apply Sample.sample_sendable; [reflexivity|right; reflexivity].
  - apply Sample.sample_sendable; [reflexivity|right; reflexivity].
  - reflexivity.
  - reflexivity.
  - reflexivity.
  - exists cb, sb, session. split; [exact Hs|exact Hc].
Defined.

(** ** The daemon's gate *)

Section gate.
Context (alloc : Z -> bool) `{U : TypedId.UuidCrate} {L : TypedId.UuidLaws U} `{D : CoreDescriptor}.
Context `{Prost ClientHello, Prost HandshakeResponse}.

(** What the daemon read when a hello got through. *)
Definition hello_read (limits : HandshakeLimits) (s s1 : Stream) (hello : ClientHello) (rid : TypedId.Id) : Prop :=
  exists payload, Framing.read_frame alloc (rx s) (hl_frame_limit limits) = (Ok payload, rx s1) /\ tx s1 = tx s /\
    decode_client_hello payload (hl_decode_depth limits) = Ok hello /\ TypedId.from_str (ch_request_id hello) = Ok rid.

Lemma receive_hello_ok peer uid limits s hello rid s1 :
  receive_hello alloc peer uid limits s = (Ok (hello, rid), s1) ->
  peer = Some uid /\ hello_read limits s s1 hello rid.
Proof.
  unfold receive_hello, io_bind, lift, ret, authenticate, recv. destruct peer as [u|]; [|done].
  destruct (u =? uid) eqn:E; [|done]. bool_hyps. subst u. intros Hr.
  destruct (Framing.read_frame alloc (rx s) (hl_frame_limit limits)) as [[payload|e] rd] eqn:Ef; [|done]. cbn [map_err] in Hr.
  destruct (decode_client_hello payload (hl_decode_depth limits)) as [h|] eqn:Ed; [|done].
  unfold parse_id in Hr. destruct (TypedId.from_str (ch_request_id h)) as [i|] eqn:Ei; [|done]. cbn in Hr.
  injection Hr as -> -> <-. split; [done|]. exists payload. by split_and!.
Qed.

Lemma receive_hello_unauthenticated peer uid limits s :
  peer <> Some uid -> receive_hello alloc peer uid limits s = (Err AuthenticationError, s).
Proof.
  intros Hp. unfold receive_hello, io_bind, lift, authenticate. destruct peer as [u|]; [|done].
  destruct (u =? uid) eqn:E; [|done]. bool_hyps. congruence.
Qed.

Lemma reject_never {A} limits code s (a : A) s1 : reject limits code s <> (Ok a, s1).
Proof. unfold reject, io_bind, fail. destruct (write_handshake_rejection limits code s) as [[[]|] ?]; done. Qed.

Lemma intent_single v : client_intent_try_from v = Some SingleCommand -> v = client_intent_code SingleCommand.
Proof. unfold client_intent_try_from. repeat case_match; bool_hyps; done. Qed.

Lemma serve_daemon_single elapsed peer uid limits new_id s ctx s1 :
  serve_daemon_handshake alloc elapsed peer uid limits new_id s = (Ok (NegotiatedSingleCommand ctx), s1) ->
  exists hello rid cid s0, peer = Some uid /\ hello_read limits s s0 hello rid /\ new_id = Ok cid /\
    client_intent_try_from (ch_intent hello) = Some SingleCommand /\ is_single hello SingleCommand = true /\
    ctx = session_context uid rid cid (ch_min_protocol_minor hello) /\
    send (encode_message (hello_response rid cid (ch_min_protocol_minor hello))) (hl_frame_limit limits) s0 = (Ok tt, s1).
Proof.
  unfold serve_daemon_handshake, timeout_at. destruct elapsed; [done|]. unfold io_bind at 1.
  destruct (receive_hello alloc peer uid limits s) as [[[hello rid]|e] s0] eqn:Er; [|done].
  apply receive_hello_ok in Er as [Hp Hr]. destruct (client_intent_try_from (ch_intent hello)) as [intent|] eqn:Ei;
    [|by intros ?%reject_never].
  cbv zeta. destruct (negb (is_legacy hello intent) && negb (is_single hello intent)) eqn:E; [by intros ?%reject_never|].
  destruct new_id as [cid|]; [|by intros ?%reject_never]. intros Hs. unfold io_bind in Hs.
  destruct (send _ _ s0) as [[[]|] s2] eqn:Esend; [|done].
  destruct (is_legacy hello intent) eqn:El; [destruct (shutdown s2) as [[[]|] ?]; done|].
  cbn [negb andb] in E. apply negb_false_iff in E. rewrite E in *. injection Hs as <- <-.
  assert (intent = SingleCommand) as -> by (unfold is_single in E; bool_hyps; done).
  exists hello, rid, cid, s0. by split_and!.
Qed.
End gate.

(** C18: The daemon's gate.  Without a peer credential that is the owner's, the
    daemon answers AUTHENTICATION_ERROR having read and written nothing.  It opens
    a command session only for the owner, on a hello that decodes within the limits and
    is, field for field, the hello a client sends for a single command: a canonical
    request identity, major 1, one minor, 1, 2 or 3, as both bounds, and the
    single-command intent; the context it returns carries that owner, request
    identity, fresh correlation identity and minor, and the only bytes sent are the
    frame of the matching server hello. *)
Theorem daemon_gate (alloc : Z -> bool) (U : TypedId.UuidCrate) (L : TypedId.UuidLaws U) (D : CoreDescriptor)
    (P1 : Prost ClientHello) (P2 : Prost HandshakeResponse) (peer : option Z) (uid : Z) (limits : HandshakeLimits)
    (new_id : result IdGenerationError TypedId.Id) (s : Stream) :
  (peer <> Some uid ->
   serve_daemon_handshake alloc false peer uid limits new_id s = (Err AuthenticationError, s)) /\
  (forall ctx s1, serve_daemon_handshake alloc false peer uid limits new_id s = (Ok (NegotiatedSingleCommand ctx), s1) ->
   peer = Some uid /\ sc_owner_uid ctx = uid /\ session_minor (sc_protocol_minor ctx) /\
   exists hello rid cid s0, hello_read alloc limits s s0 hello rid /\ new_id = Ok cid /\
     hello = client_hello (sc_request_id ctx) (sc_protocol_minor ctx) SingleCommand /\
     sc_request_id ctx = TypedId.to_string rid /\ sc_correlation_id ctx = TypedId.to_string cid /\
     send (encode_message (hello_response rid cid (sc_protocol_minor ctx))) (hl_frame_limit limits) s0 = (Ok tt, s1)).
Proof.
  split.
  - intros Hp. unfold serve_daemon_handshake, timeout_at, io_bind. by rewrite receive_hello_unauthenticated.
  - intros ctx s1 Hs. apply serve_daemon_single in Hs as (hello & rid & cid & s0 & Hp & Hr & Hn & Hi & Hsingle & -> & Hsend).
    unfold is_single, PROTOCOL_MAJOR, SINGLE_COMMAND_PROTOCOL_MINOR, TASK_008_PROTOCOL_MINOR, TASK_009_PROTOCOL_MINOR in Hsingle.
    rewrite !andb_true_iff, !orb_true_iff, !Z.eqb_eq in Hsingle. destruct Hsingle as [[[Hmaj Heq] Hmin] _].
    split_and!; [done..|cbn; unfold session_minor; tauto|]. exists hello, rid, cid, s0. cbn.
    assert (ch_request_id hello = TypedId.to_string rid) by (destruct Hr as (? & _ & _ & _ & Ht); symmetry; by apply TypedId.id_print_parse).
    split_and!; try done. apply intent_single in Hi. destruct hello as [x1 x2 x3 x4 x5]. cbn in *. unfold client_hello. cbn. by subst.
Qed.

Lemma daemon_gate_witness :
  let rid := Sample.id 1 in let cid := Sample.id 2 in
  let U := Rfc9562.rfc in
  let P1 := Sample.constant (@client_hello (@TypedId.to_string U rid) 3 SingleCommand) in
  let P2 := Sample.constant (@hello_response U rid cid 3) in
  let serve peer := @serve_daemon_handshake (fun _ => true) U Sample.descriptor P1 P2 false peer 501 Sample.limits (Ok cid)
    (open_stream (be_bytes 4 2 ++ Sample.bytes) Framing.Eof) in
  (exists s1, serve (Some 501) = (Ok (NegotiatedSingleCommand (@session_context U 501 rid cid 3)), s1)) /\
  session_minor (sc_protocol_minor (@session_context U 501 rid cid 3)) /\
  fst (serve (Some 502)) = Err AuthenticationError.
Proof.
  intros rid cid U P1 P2 serve.
  assert (exists s1, serve (Some 501) = (Ok (NegotiatedSingleCommand (@session_context U 501 rid cid 3)), s1)) as [s1 Hs]
    by (eexists; vm_compute; reflexivity).
  split; [exists s1; exact Hs|].
  split.
  - apply (daemon_gate (fun _ => true) U Rfc9562.rfc_laws Sample.descriptor P1 P2 (Some 501) 501 Sample.limits (Ok cid)
      (open_stream (be_bytes 4 2 ++ Sample.bytes) Framing.Eof)) in Hs as (_ & _ & Hm & _). exact Hm.
  - unfold serve. rewrite (proj1 (daemon_gate (fun _ => true) U Rfc9562.rfc_laws Sample.descriptor P1 P2 (Some 502) 501
      Sample.limits (Ok cid) (open_stream (be_bytes 4 2 ++ Sample.bytes) Framing.Eof))); [reflexivity|discriminate].
Defined.

Lemma validate_error_envelope_exact e code :
  validate_error_envelope e = Ok code <-> ResponseError e = error_response code.
Proof.
  destruct e as [c m r cid det act]. unfold validate_error_envelope, error_response. cbn.
  split.
  - destruct det; [|done]. destruct cid, act; try done. cbn.
    destruct (ErrorCodeText.from_str c) as [k|] eqn:E; [|done]. cbn.
    apply ErrorCodeText.from_str_as_str in E. subst c.
    case_bool_decide; [|done]. destruct r; [done|]. cbn. intros [= ->]. by subst m.
  - intros [= -> -> -> -> -> ->]. cbn. rewrite ErrorCodeText.as_str_from_str. cbn.
    by rewrite bool_decide_eq_true_2.
Qed.

Lemma message_has_retry code :
  is_Some (operation_safe_message code) <-> exists retry, valid_operation_retry_pair code retry = true.
Proof.
  split.
  - intros [m Hm]. destruct code; try done; cbn;
      first [by exists RetryNone | by exists OperatorOrRuntimeAction | by exists SameCommand
            | by exists SourceStableSameCommand].
  - intros [r Hr]. by destruct code; try done; eexists.
Qed.

Lemma retry_never_unspecified code : valid_operation_retry_pair code RetryUnspecified = false.
Proof. by destruct code. Qed.

Lemma operation_error_ok {ResponseBody} code retry cid :
  is_ok (@operation_error_response ResponseBody code retry cid) = valid_operation_retry_pair code retry.
Proof.
  unfold operation_error_response. destruct (operation_safe_message code) as [m|] eqn:E; cbn.
  - by destruct (valid_operation_retry_pair code retry).
  - destruct (valid_operation_retry_pair code retry) eqn:Ev; [|done].
    destruct (proj2 (message_has_retry code)) as [m Hm]; [by exists retry|]. congruence.
Qed.

Lemma operation_error_fields {ResponseBody} code retry cid r e :
  @operation_error_response ResponseBody code retry cid = Ok r -> response r = Some (OperationError e) ->
  ee_correlation_id e = Some cid /\ ErrorCodeText.from_str (ee_code e) = Ok code /\
  (ee_retryable e = true <->
   retry ∈ [SameCommand; FreshCommand; SourceStableSameCommand; SourceStableFreshCommand]).
Proof.
  unfold operation_error_response. destruct (operation_safe_message code) as [m|]; [|done]. cbn.
  destruct (valid_operation_retry_pair code retry) eqn:Ev; [|done]. cbn.
  intros [= <-] [= <-]. cbn. rewrite ErrorCodeText.as_str_from_str. split_and!; [done..|].
  destruct retry; try (rewrite retry_never_unspecified in Ev; done); set_solver.
Qed.

(** Errors on the wire.  A client accepts an error envelope of the handshake
    exactly when it is the envelope the daemon builds for that code, so nothing can
    be smuggled in its text, details or retry fields; an operation error exists
    exactly for the code and retry pairs of the matrix, every code with a public
    message has at least one retry action and no other has any, the unspecified
    action is never sent, and the retryable flag is set exactly when the client is
    told to resend a command. *)
Theorem wire_errors_canonical :
  (forall e code, validate_error_envelope e = Ok code <-> ResponseError e = error_response code) /\
  (forall ResponseBody code retry cid,
     is_ok (@operation_error_response ResponseBody code retry cid) = valid_operation_retry_pair code retry) /\
  (forall code, is_Some (operation_safe_message code) <-> exists retry, valid_operation_retry_pair code retry = true) /\
  (forall code, valid_operation_retry_pair code RetryUnspecified = false) /\
  (forall ResponseBody code retry cid r e, @operation_error_response ResponseBody code retry cid = Ok r ->
     response r = Some (OperationError e) ->
     ee_correlation_id e = Some cid /\ ErrorCodeText.from_str (ee_code e) = Ok code /\
     (ee_retryable e = true <->
      retry ∈ [SameCommand; FreshCommand; SourceStableSameCommand; SourceStableFreshCommand])).
Proof.
  split_and!; [exact validate_error_envelope_exact|intros; apply operation_error_ok|exact message_has_retry
  |exact retry_never_unspecified|intros; by eapply operation_error_fields].
Qed.
End CoreAgreement.
