(* ===== verification/ManifestJson.v ===== *)
(** The JSON reader of mengxia-plugin-package (manifest.rs).

    A hand-written recursive-descent parser with limits on depth, nodes, string
    length and array length.  [Parser] is the input that is left
    ([&input[offset..]]) and the node counter; every method of the source's
    [Parser] is a definition in the state-and-error monad [M].  [value] recurses on
    the nesting it may still open, [MAX_JSON_DEPTH]; the loops over members,
    elements and characters take the length of the input left as fuel, and every
    iteration consumes a byte.  Running out of fuel would be [InternalInvariant],
    an error no method of the parser raises.

    [print_json] is a reference printer; the theorems relate the two. *)
From Stdlib Require Import ZArith Lia String.
From Stdlib Require Import Strings.Byte Init.Byte.
From stdpp Require Import prelude list sorting.
From S2P Require Import Prelude RustText Ord Utf8.

Set Warnings "-register-all,-clear-no-such-hyp".

Module Json.

Inductive PluginPackageError :=
| InputTooLarge | ResourceLimitExceeded | MalformedJson | DuplicateKey | ManifestInvalid | NoncanonicalBytes
| InternalInvariant.
#[global] Instance PluginPackageError_eq_dec : EqDecision PluginPackageError.
Proof. solve_decision. Defined.

Definition MAX_JSON_DEPTH : Z := 16.
Definition MAX_JSON_NODES : Z := 4096.
Definition MAX_STRING_BYTES : Z := 4096.
Definition MAX_CAPABILITIES : Z := 64.
Definition MAX_DEPENDENCIES : Z := 32.

(** An object is its [BTreeMap]: members in strictly increasing key order. *)
Inductive JsonValue :=
| JNull
| JBool (b : bool)
| JNumber (n : Z)
| JString (s : list byte)
| JArray (l : list JsonValue)
| JObject (members : list (list byte * JsonValue)).

(** ** [BTreeMap<String, _>] *)

Section map.
Context {V : Type}.
Implicit Types m : list (list byte * V).
Definition map_get (k : list byte) m : option V := snd <$> find (fun kv => bool_decide (kv.1 = k)) m.
Definition map_contains (k : list byte) m : bool := bool_decide (k ∈ m.*1).
Fixpoint map_insert (k : list byte) (v : V) m : list (list byte * V) :=
  match m with
  | [] => [(k, v)]
  | (k', v') :: t => match rcmp k k' with
                     | Lt => (k, v) :: m
                     | Eq => (k, v) :: t
                     | Gt => (k', v') :: map_insert k v t
                     end
  end.
(** [remove]: the value that was there and the map without it. *)
Fixpoint map_remove (k : list byte) m : option V * list (list byte * V) :=
  match m with
  | [] => (None, [])
  | (k', v) :: t => if bool_decide (k' = k) then (Some v, t)
                    else let '(r, t') := map_remove k t in (r, (k', v) :: t')
  end.
End map.

(** ** The parser's state *)

Record Parser := { rest : list byte; nodes : Z }.
Definition M (A : Type) : Type := Parser -> result PluginPackageError (A * Parser).
Definition ret {A} (a : A) : M A := fun p => Ok (a, p).
Definition raise {A} (e : PluginPackageError) : M A := fun _ => Err e.
Definition bind {A B} (m : M A) (k : A -> M B) : M B :=
  fun p => match m p with Ok (a, q) => k a q | Err e => Err e end.
Notation "'do!' x ':=' c 'in' k" := (bind c (fun x => k))
  (at level 10, x pattern, c at level 100, k at level 200,
   format "'[v' 'do!'  x  ':='  c  'in'  '/' k ']'") : rust_scope.

Definition with_rest (r : list byte) (p : Parser) : Parser := {| rest := r; nodes := nodes p |}.
Definition peek : M (option byte) := fun p => Ok (head (rest p), p).
(** [self.offset += n] *)
Definition advance (n : nat) : M () := fun p => Ok (tt, with_rest (drop n (rest p)) p).
(** [self.peek().ok_or(MalformedJson)?] *)
Definition peek_or_malformed : M byte :=
  do! b := peek in match b with Some b => ret b | None => raise MalformedJson end.

Definition take (expected : byte) : M bool :=
  do! b := peek in
  if bool_decide (b = Some expected) then do! _ := advance 1 in ret true else ret false.
Definition consume (expected : byte) : M () :=
  do! t := take expected in if t then ret tt else raise MalformedJson.
Definition is_blank : byte -> bool := byte_in [x20; x0a; x0d; x09].
Definition skip_whitespace : M () := fun p => Ok (tt, with_rest (drop_while is_blank (rest p)) p).

(** [None | Some(b' ' | b'\n' | b'\r' | b'\t' | b',' | b']' | b'}')] *)
Definition is_delimiter (b : option byte) : bool :=
  match b with None => true | Some b => byte_in [x20; x0a; x0d; x09; x2c; x5d; x7d] b end.

Definition literal (text : list byte) : M () := fun p =>
  if bool_decide (firstn (length text) (rest p) = text) then
    (do! _ := advance (length text) in
     do! b := peek in
     if is_delimiter b then ret tt else raise MalformedJson) p
  else Err MalformedJson.

(** ** Strings *)

Definition hex_digit_value (b : byte) : option Z :=
  if in_range 48 57 b then Some (b2z b - 48)
  else if in_range 97 102 b then Some (b2z b - 97 + 10)
  else if in_range 65 70 b then Some (b2z b - 65 + 10)
  else None.
(** [value = (value << 4) | digit] on [u16], [n] more times. *)
Fixpoint hex_loop (n : nat) (value : Z) : M Z :=
  match n with
  | O => ret value
  | S n' =>
      do! byte := peek_or_malformed in
      do! _ := advance 1 in
      match hex_digit_value byte with
      | Some digit => hex_loop n' (Z.lor (Z.shiftl value 4 mod 65536) digit)
      | None => raise MalformedJson
      end
  end.
Definition hex_quad : M Z := hex_loop 4 0.

Definition between (lo hi z : Z) : bool := (lo <=? z) && (z <=? hi).

Definition push_unicode_escape (output : list byte) : M (list byte) :=
  do! first := hex_quad in
  do! scalar :=
    (if between 0xd800 0xdbff first then
       do! slash := take x5c in
       do! u := (if slash then take x75 else ret false) in
       if negb (slash && u) then raise MalformedJson
       else
         do! second := hex_quad in
         if negb (between 0xdc00 0xdfff second) then raise MalformedJson
         else ret (0x10000 + Z.shiftl (first - 0xd800) 10 + (second - 0xdc00))
     else if between 0xdc00 0xdfff first then raise MalformedJson
     else ret first) in
  match char_from_u32 scalar with
  | Some c => ret (output ++ encode_utf8 c)
  | None => raise MalformedJson
  end.

(** One turn of the loop of [string] on a byte that is not the closing quote. *)
Definition string_char (output : list byte) (byte : byte) : M (list Byte.byte) :=
  if bool_decide (byte = x5c) then
    do! _ := advance 1 in
    do! escaped := peek_or_malformed in
    do! _ := advance 1 in
    match escaped with
    | x22 => ret (output ++ [x22])
    | x5c => ret (output ++ [x5c])
    | x2f => ret (output ++ [x2f])
    | x62 => ret (output ++ [x08])
    | x66 => ret (output ++ [x0c])
    | x6e => ret (output ++ [x0a])
    | x72 => ret (output ++ [x0d])
    | x74 => ret (output ++ [x09])
    | x75 => push_unicode_escape output
    | _ => raise MalformedJson
    end
  else if b2z byte <=? 0x1f then raise MalformedJson
  else if b2z byte <? 128 then
    do! _ := advance 1 in ret (output ++ [byte])
  else fun p =>
    let ch := firstn (char_width byte) (rest p) in
    (do! _ := advance (length ch) in ret (output ++ ch)) p.

Fixpoint string_loop (fuel : nat) (output : list byte) : M (list byte) :=
  match fuel with
  | O => raise InternalInvariant
  | S f =>
      do! byte := peek_or_malformed in
      if bool_decide (byte = x22) then do! _ := advance 1 in ret output
      else
        do! output := string_char output byte in
        if MAX_STRING_BYTES <? blen output then raise ResourceLimitExceeded
        else string_loop f output
  end.
Definition string : M (list byte) :=
  do! _ := consume x22 in
  fun p => string_loop (S (length (rest p))) [] p.

(** ** Numbers *)

Definition skip_digits : M () := fun p => Ok (tt, with_rest (drop_while is_ascii_digit (rest p)) p).
Definition peek_digit : M bool :=
  do! b := peek in ret (match b with Some b => is_ascii_digit b | None => false end).

Definition number_integer : M () :=
  do! b := peek in
  match b with
  | Some b => if bool_decide (b = x30) then advance 1
              else if in_range 49 57 b then do! _ := advance 1 in skip_digits
              else raise MalformedJson
  | None => raise MalformedJson
  end.
Definition number_digits : M () :=
  do! d := peek_digit in if d then skip_digits else raise MalformedJson.
Definition number_fraction : M bool :=
  do! dot := take x2e in
  if dot then do! _ := number_digits in ret true else ret false.
Definition number_exponent : M bool :=
  do! e := peek in
  if bool_decide (e = Some x65 \/ e = Some x45) then
    do! _ := advance 1 in
    do! sign := peek in
    do! _ := (if bool_decide (sign = Some x2b \/ sign = Some x2d) then advance 1 else ret tt) in
    do! _ := number_digits in ret true
  else ret false.

Definition number : M Z := fun p =>
  (do! negative := take x2d in
   do! _ := number_integer in
   do! fraction := number_fraction in
   do! exponent := number_exponent in
   do! b := peek in
   if negb (is_delimiter b) then raise MalformedJson
   else if negative || fraction || exponent then raise ManifestInvalid
   else fun q =>
     match parse_u64_digits (firstn (length (rest p) - length (rest q)) (rest p)) with
     | Some n => Ok (n, q)
     | None => Err ManifestInvalid
     end) p.

(** ** Values *)

Definition field_array_limit (field : list byte) : option Z :=
  match_str field [(bs "capabilities", MAX_CAPABILITIES); (bs "requested_permissions", 1);
                   (bs "runtime_dependencies", MAX_DEPENDENCIES)].

Section containers.
Context (value : Z -> option Z -> M JsonValue).

Fixpoint object_loop (fuel : nat) (depth : Z) (values : list (list byte * JsonValue)) : M JsonValue :=
  match fuel with
  | O => raise InternalInvariant
  | S f =>
      do! b := peek in
      if negb (bool_decide (b = Some x22)) then raise MalformedJson
      else
        do! key := string in
        if map_contains key values then raise DuplicateKey
        else
          do! _ := skip_whitespace in
          do! _ := consume x3a in
          do! _ := skip_whitespace in
          let limit := if depth =? 1 then field_array_limit key else None in
          do! v := value (saturating_add USIZE_MAX depth 1) limit in
          let values := map_insert key v values in
          do! _ := skip_whitespace in
          do! close := take x7d in
          if close then ret (JObject values)
          else
            do! _ := consume x2c in
            do! _ := skip_whitespace in
            object_loop f depth values
  end.
Definition object (depth : Z) : M JsonValue :=
  do! _ := consume x7b in
  do! _ := skip_whitespace in
  do! close := take x7d in
  if close then ret (JObject []) else fun p => object_loop (S (length (rest p))) depth [] p.

Fixpoint array_loop (fuel : nat) (depth : Z) (limit : option Z) (values : list JsonValue) : M JsonValue :=
  match fuel with
  | O => raise InternalInvariant
  | S f =>
      if match limit with Some limit => limit <=? blen values | None => false end
      then raise ResourceLimitExceeded
      else
        do! v := value (saturating_add USIZE_MAX depth 1) None in
        let values := values ++ [v] in
        do! _ := skip_whitespace in
        do! close := take x5d in
        if close then ret (JArray values)
        else
          do! _ := consume x2c in
          do! _ := skip_whitespace in
          array_loop f depth limit values
  end.
Definition array (depth : Z) (limit : option Z) : M JsonValue :=
  do! _ := consume x5b in
  do! _ := skip_whitespace in
  do! close := take x5d in
  if close then ret (JArray []) else fun p => array_loop (S (length (rest p))) depth limit [] p.
End containers.

(** [self.nodes] is checked and counted before the value is looked at. *)
Definition count_node : M () := fun p =>
  match checked_add USIZE_MAX (nodes p) 1 with
  | None => Err ResourceLimitExceeded
  | Some n => if MAX_JSON_NODES <? n then Err ResourceLimitExceeded
              else Ok (tt, {| rest := rest p; nodes := n |})
  end.

(** [fuel] containers may still be opened. *)
Fixpoint value (fuel : nat) (depth : Z) (array_limit : option Z) : M JsonValue :=
  do! _ := count_node in
  do! b := peek in
  match b with
  | None => raise MalformedJson
  | Some b =>
      if bool_decide (b = x7b) then
        if MAX_JSON_DEPTH <? depth then raise ResourceLimitExceeded
        else match fuel with O => raise InternalInvariant | S f => object (value f) depth end
      else if bool_decide (b = x5b) then
        if MAX_JSON_DEPTH <? depth then raise ResourceLimitExceeded
        else match fuel with O => raise InternalInvariant | S f => array (value f) depth array_limit end
      else if bool_decide (b = x22) then do! s := string in ret (JString s)
      else if bool_decide (b = x74) then do! _ := literal (bs "true") in ret (JBool true)
      else if bool_decide (b = x66) then do! _ := literal (bs "false") in ret (JBool false)
      else if bool_decide (b = x6e) then do! _ := literal (bs "null") in ret JNull
      else if bool_decide (b = x2d) || is_ascii_digit b then do! n := number in ret (JNumber n)
      else raise MalformedJson
  end.

Definition parse (text : list byte) : result PluginPackageError JsonValue :=
  let? (v, p) :=
    (do! _ := skip_whitespace in
     do! v := value (Z.to_nat MAX_JSON_DEPTH) 1 None in
     do! _ := skip_whitespace in ret v) {| rest := text; nodes := 0 |} in
  if bool_decide (rest p = []) then Ok v else Err MalformedJson.

(** ** Printing *)

(** [push_json_string] of one byte.  Characters outside ASCII are pushed as they
    are, so it can work byte by byte. *)
Definition escape_byte (b : byte) : list byte :=
  match b with
  | x22 => [x5c; x22]
  | x5c => [x5c; x5c]
  | x08 => [x5c; x62]
  | x0c => [x5c; x66]
  | x0a => [x5c; x6e]
  | x0d => [x5c; x72]
  | x09 => [x5c; x74]
  | _ => if b2z b <=? 0x1f then [x5c; x75; x30; x30] ++ to_hex [b] else [b]
  end.
Definition push_json_string (s : list byte) : list byte := x22 :: (s ≫= escape_byte) ++ [x22].

(** The reference printer: no blanks, members in map order. *)
Definition separated (parts : list (list byte)) : list byte :=
  match parts with [] => [] | p :: ps => p ++ (ps ≫= fun q => x2c :: q) end.
Fixpoint print_json (v : JsonValue) : list byte :=
  match v with
  | JNull => bs "null"
  | JBool true => bs "true"
  | JBool false => bs "false"
  | JNumber n => dec_print n
  | JString s => push_json_string s
  | JArray l => [x5b] ++ separated (map print_json l) ++ [x5d]
  | JObject m =>
      [x7b] ++ separated (map (fun kv => push_json_string kv.1 ++ [x3a] ++ print_json kv.2) m) ++ [x7d]
  end.

End Json.
