(* ===== verification/ManifestJsonFacts.v ===== *)
(** What the manifest JSON reader accepts.

    [json_wf] describes the values within every limit of the reader.  The first
    half shows that whatever the reader returns is such a value and that its loops
    never run out of fuel ([spec], a Hoare-style judgement for the parser monad);
    the second half that the printed form of every such value is read back. *)
From Stdlib Require Import ZArith Lia String.
From Stdlib Require Import Strings.Byte Init.Byte.
From stdpp Require Import prelude list sorting.
From S2P Require Import Prelude RustText Ord Utf8 ManifestJson.

Set Warnings "-register-all,-clear-no-such-hyp".

Module JsonFacts.
Import Json.

(** ** Values within the limits *)

Definition string_ok (s : list byte) : bool := utf8_valid s && (blen s <=? MAX_STRING_BYTES).
Fixpoint increasing (ks : list (list byte)) : bool :=
  match ks with
  | k :: ((k' :: _) as t) => bool_decide (rlt k k') && increasing t
  | _ => true
  end.
Fixpoint json_ok (v : JsonValue) : bool :=
  match v with
  | JNull | JBool _ => true
  | JNumber n => between 0 U64_MAX n
  | JString s => string_ok s
  | JArray l => forallb json_ok l
  | JObject m => increasing (m.*1) && forallb (fun kv => string_ok kv.1 && json_ok kv.2) m
  end.
Fixpoint json_nodes (v : JsonValue) : Z :=
  match v with
  | JArray l => 1 + foldr Z.add 0 (map json_nodes l)
  | JObject m => 1 + foldr Z.add 0 (map (fun kv => json_nodes kv.2) m)
  | _ => 1
  end.
(** Nested containers. *)
Fixpoint json_depth (v : JsonValue) : Z :=
  match v with
  | JArray l => 1 + foldr Z.max 0 (map json_depth l)
  | JObject m => 1 + foldr Z.max 0 (map (fun kv => json_depth kv.2) m)
  | _ => 0
  end.
Definition within (limit : option Z) (v : JsonValue) : bool :=
  match limit, v with Some n, JArray l => blen l <=? n | _, _ => true end.
Definition fields_ok (v : JsonValue) : bool :=
  match v with JObject m => forallb (fun kv => within (field_array_limit kv.1) kv.2) m | _ => true end.
Definition json_wf (v : JsonValue) : bool :=
  json_ok v && (json_nodes v <=? MAX_JSON_NODES) && (json_depth v <=? MAX_JSON_DEPTH) && fields_ok v.

Section json_ind.
Context (P : JsonValue -> Prop) (HN : P JNull) (HB : forall b, P (JBool b)) (Hn : forall n, P (JNumber n)).
Context (HS : forall s, P (JString s)) (HA : forall l, Forall P l -> P (JArray l)).
Context (HO : forall m, Forall (fun kv => P kv.2) m -> P (JObject m)).
Fixpoint json_ind (v : JsonValue) : P v :=
  match v with
  | JNull => HN
  | JBool b => HB b
  | JNumber n => Hn n
  | JString s => HS s
  | JArray l => HA l ((fix go l : Forall P l :=
      match l with [] => List.Forall_nil _ | v :: t => List.Forall_cons _ _ _ (json_ind v) (go t) end) l)
  | JObject m => HO m ((fix go m : Forall (fun kv : list byte * JsonValue => P kv.2) m :=
      match m with [] => List.Forall_nil _ | kv :: t => List.Forall_cons _ _ _ (json_ind kv.2) (go t) end) m)
  end.
End json_ind.

Lemma json_nodes_pos v : 1 <= json_nodes v.
Proof.
  induction v as [| | | |l IH|m IH] using json_ind; cbn; [lia..| |].
  - induction IH; cbn; lia.
  - induction IH; cbn; lia.
Qed.

Lemma json_depth_nonneg v : 0 <= json_depth v.
Proof.
  destruct v as [| | | |l|m]; cbn; [lia..| |].
  - induction l; cbn; lia.
  - induction m; cbn; lia.
Qed.

(** ** Maps *)

Lemma increasing_sorted ks : increasing ks = true <-> StronglySorted rlt ks.
Proof.
  split.
  - intros H. apply Sorted_StronglySorted; [exact _|]. induction ks as [|k [|k' t] IH]; [by constructor..|].
    cbn [increasing] in H. bool_hyps. constructor; [by apply IH|]. by constructor.
  - induction 1 as [|k t Hs IH Hk]; [done|]. destruct t as [|k' t]; [done|]. cbn [increasing].
    inversion Hk; subst. by rewrite bool_decide_eq_true_2.
Qed.

Section map.
Context {V : Type}.
Implicit Types m : list (list byte * V).

Lemma map_insert_perm k v m : k ∉ m.*1 -> map_insert k v m ≡ₚ (k, v) :: m.
Proof.
  induction m as [|[k' v'] m IH]; cbn [map_insert fmap list_fmap fst]; [done|]. intros Hk.
  destruct (rcmp k k') eqn:E; [apply rcmp_eq in E; set_solver|done|].
  rewrite IH by set_solver. apply Permutation_swap.
Qed.

Lemma map_insert_sorted k v m :
  StronglySorted rlt (m.*1) -> k ∉ m.*1 -> StronglySorted rlt ((map_insert k v m).*1).
Proof.
  induction m as [|[k' v'] m IH]; cbn [map_insert fmap list_fmap fst]; [intros; repeat constructor|]. intros Hs Hk.
  inversion Hs as [|? ? Hs' Hf]; subst.
  destruct (rcmp k k') eqn:E; [apply rcmp_eq in E; set_solver| |].
  - constructor; [done|]. constructor; [done|]. eapply Forall_impl; [exact Hf|]. intros x. by apply rcmp_trans.
  - cbn. constructor; [apply IH; [done|set_solver]|]. rewrite map_insert_perm by set_solver. cbn.
    constructor; [by apply rcmp_gt|done].
Qed.

Lemma map_insert_last k v m : Forall (fun k' => rlt k' k) (m.*1) -> map_insert k v m = m ++ [(k, v)].
Proof.
  induction m as [|[k' v'] m IH]; cbn [map_insert fmap list_fmap fst]; [done|]. intros Hf. inversion Hf; subst.
  rewrite (proj2 (rcmp_gt k k')) by done. by rewrite IH.
Qed.

Lemma foldr_map_insert {B} (op : B -> B -> B) (e : B) (f : list byte * V -> B) k v m :
  (forall a b c, op a (op b c) = op b (op a c)) -> k ∉ m.*1 ->
  foldr op e (map f (map_insert k v m)) = op (f (k, v)) (foldr op e (map f m)).
Proof.
  intros Hop. induction m as [|[k' v'] m IH]; cbn [map_insert fmap list_fmap fst]; [done|]. intros Hk.
  destruct (rcmp k k') eqn:E; [apply rcmp_eq in E; set_solver|done|].
  cbn [map foldr]. rewrite IH by set_solver. apply Hop.
Qed.
Lemma forallb_map_insert (f : list byte * V -> bool) k v m :
  k ∉ m.*1 -> forallb f (map_insert k v m) = f (k, v) && forallb f m.
Proof.
  induction m as [|[k' v'] m IH]; cbn [map_insert fmap list_fmap fst]; [done|]. intros Hk.
  destruct (rcmp k k') eqn:E; [apply rcmp_eq in E; set_solver|done|].
  cbn [forallb]. rewrite IH by set_solver. by rewrite !andb_assoc, (andb_comm (f _)).
Qed.
End map.

(** ** Judgements about a run: never out of fuel, and [Q] of what it returns *)

Definition spec {A} (m : M A) (p : Parser) (Q : A -> Parser -> Prop) : Prop :=
  match m p with Ok (a, q) => Q a q | Err e => e <> InternalInvariant end.

Lemma spec_ret {A} (a : A) p (Q : A -> Parser -> Prop) : Q a p -> spec (ret a) p Q.
Proof. done. Qed.
Lemma spec_raise {A} e p (Q : A -> Parser -> Prop) : e <> InternalInvariant -> spec (raise e) p Q.
Proof. done. Qed.
Lemma spec_bind {A B} (m : M A) (k : A -> M B) p Q :
  spec m p (fun a q => spec (k a) q Q) -> spec (bind m k) p Q.
Proof. unfold spec, bind. by destruct (m p) as [[a q]|]. Qed.
Lemma spec_wand {A} (m : M A) p (Q R : A -> Parser -> Prop) :
  spec m p Q -> (forall a q, Q a q -> R a q) -> spec m p R.
Proof. unfold spec. destruct (m p) as [[a q]|]; auto. Qed.
Lemma spec_step {A B} (m : M A) (k : A -> M B) p (Q : A -> Parser -> Prop) R :
  spec m p Q -> (forall a q, Q a q -> spec (k a) q R) -> spec (bind m k) p R.
Proof. intros Hm Hk. apply spec_bind. by eapply spec_wand. Qed.

(** Valid text is left and nothing but text was consumed. *)
Definition good (p : Parser) : Prop := utf8_valid (rest p) = true.
Definition after (p q : Parser) : Prop := good q /\ nodes q = nodes p /\ (length (rest q) <= length (rest p))%nat.
Definition used (p q : Parser) : Prop := good q /\ nodes q = nodes p /\ (length (rest q) < length (rest p))%nat.

Lemma after_refl p : good p -> after p p.
Proof. intros. by split_and!. Qed.
Lemma used_after p q : used p q -> after p q.
Proof. intros (? & ? & ?). split_and!; [done..|lia]. Qed.
Lemma after_trans p q r : after p q -> after q r -> after p r.
Proof. intros (? & ? & ?) (? & ? & ?). split_and!; [done|congruence|lia]. Qed.
Lemma used_trans p q r : used p q -> after q r -> used p r.
Proof. intros (? & ? & ?) (? & ? & ?). split_and!; [done|congruence|lia]. Qed.
Lemma after_used p q r : after p q -> used q r -> used p r.
Proof. intros (? & ? & ?) (? & ? & ?). split_and!; [done|congruence|lia]. Qed.
Lemma after_good p q : after p q -> good q.
Proof. by intros (? & _). Qed.
Lemma used_good p q : used p q -> good q.
Proof. by intros (? & _). Qed.
Create HintDb json.
#[local] Hint Resolve after_refl used_after after_trans used_trans after_used after_good used_good : json.
#[local] Hint Extern 5 (b2z _ < 128) => reflexivity : json.

(** Run the next operation of a sequence by its specification. *)
Tactic Notation "step" uconstr(t) "as" simple_intropattern(a) ident(q) simple_intropattern(H) :=
  eapply spec_step; [eapply t; eauto with json|]; cbv beta; intros a q H.

Lemma drop_ascii p b r : good p -> rest p = b :: r -> b2z b < 128 -> used p (with_rest r p).
Proof.
  unfold good. intros Hg Hr Hb. rewrite Hr, utf8_valid_ascii in Hg by done.
  split_and!; cbn; [done|done|]. rewrite Hr. cbn. lia.
Qed.

Lemma peek_spec p (Q : option byte -> Parser -> Prop) : Q (head (rest p)) p -> spec peek p Q.
Proof. done. Qed.
Lemma advance1_spec p b r : good p -> rest p = b :: r -> b2z b < 128 -> spec (advance 1) p (fun _ q => used p q).
Proof. intros Hg Hr Hb. unfold spec, advance. rewrite Hr. by apply (drop_ascii p b r). Qed.
Lemma peek_or_spec p :
  spec peek_or_malformed p (fun b q => q = p /\ exists r, rest p = b :: r).
Proof. unfold peek_or_malformed, spec, bind, peek. destruct (rest p) as [|b r] eqn:E; cbn; [done|]. eauto. Qed.

Lemma take_spec b p : good p -> b2z b < 128 ->
  spec (take b) p (fun t q => if t then used p q else q = p).
Proof.
  intros Hg Hb. unfold take. apply spec_bind, peek_spec. case_bool_decide as E; [|done].
  destruct (rest p) as [|c r] eqn:Er; [done|]. injection E as ->.
  eapply spec_step; [by eapply advance1_spec|done].
Qed.
Lemma consume_spec b p : good p -> b2z b < 128 -> spec (consume b) p (fun _ q => used p q).
Proof.
  intros Hg Hb. unfold consume. eapply spec_step; [by apply take_spec|]. intros [] q Hq; [done|by apply spec_raise].
Qed.

Lemma drop_while_after (f : byte -> bool) p :
  good p -> (forall b, f b = true -> b2z b < 128) -> after p (with_rest (drop_while f (rest p)) p).
Proof.
  intros Hg Hf. destruct p as [r n]. unfold good, after, with_rest in *. cbn in *.
  induction r as [|b r IH]; cbn; [done|]. destruct (f b) eqn:E; [|by split_and!].
  rewrite utf8_valid_ascii in Hg by auto. destruct (IH Hg) as (? & ? & ?). split_and!; [done..|lia].
Qed.
Lemma is_blank_ascii b : is_blank b = true -> b2z b < 128.
Proof. unfold is_blank, byte_in. intros H. bool_hyps. set_unfold. by destruct H as [-> |[-> |[-> |[-> |[]]]]]. Qed.
Lemma is_digit_ascii b : is_ascii_digit b = true -> b2z b < 128.
Proof. unfold is_ascii_digit, in_range. intros. bool_hyps. lia. Qed.
Lemma skip_whitespace_spec p : good p -> spec skip_whitespace p (fun _ q => after p q).
Proof. intros Hg. unfold spec, skip_whitespace. apply drop_while_after; [done|apply is_blank_ascii]. Qed.

Lemma drop_ascii_prefix p l k : good p -> rest p = l ++ k -> is_ascii l = true -> l <> [] -> used p (with_rest k p).
Proof.
  unfold good. intros Hg Hr Hl Hn. rewrite Hr, utf8_valid_app in Hg by (by apply utf8_valid_is_ascii).
  split_and!; cbn; [done..|]. rewrite Hr, length_app. destruct l; [done|cbn; lia].
Qed.

Lemma literal_spec text p : good p -> is_ascii text = true -> text <> [] -> spec (literal text) p (fun _ q => used p q).
Proof.
  intros Hg Ha Hn. unfold spec, literal. case_bool_decide as E; [|done].
  unfold bind, advance, peek. destruct (is_delimiter _); [|done]. cbn.
  apply (drop_ascii_prefix p text); [done| |done..]. rewrite <- E at 1. by rewrite take_drop.
Qed.

Lemma hex_digit_ascii b z : hex_digit_value b = Some z -> b2z b < 128.
Proof.
  unfold hex_digit_value. intros H.
  assert (exists lo hi, in_range lo hi b = true /\ hi < 128) as (lo & hi & Hb & Hh).
  { destruct (in_range 48 57 b) eqn:E1; [by exists 48, 57|].
    destruct (in_range 97 102 b) eqn:E2; [by exists 97, 102|].
    destruct (in_range 65 70 b) eqn:E3; [by exists 65, 70|done]. }
  unfold in_range in Hb. bool_hyps. lia.
Qed.

Lemma hex_loop_spec n v p : good p -> spec (hex_loop n v) p (fun _ q => after p q).
Proof.
  revert v p. induction n as [|n IH]; intros v p Hg; [by apply spec_ret, after_refl|]. cbn [hex_loop].
  step (peek_or_spec) as b q [-> [r Hr]]. unfold spec, bind, advance.
  destruct (hex_digit_value b) as [d|] eqn:E; [|done]. rewrite Hr. cbn [drop].
  pose proof (drop_ascii _ _ _ Hg Hr (hex_digit_ascii _ _ E)) as Hu.
  eapply spec_wand; [apply IH; eauto with json|]. intros ? q Hq. eauto with json.
Qed.

Lemma push_unicode_escape_spec out p : good p -> utf8_valid out = true ->
  spec (push_unicode_escape out) p (fun o q => after p q /\ utf8_valid o = true).
Proof.
  intros Hg Ho. unfold push_unicode_escape. step (hex_loop_spec) as first q1 H1.
  apply (spec_step _ _ _ (fun _ q => after p q)).
  - destruct (between 0xd800 0xdbff first).
    + step (take_spec) as slash q2 H2.
      destruct slash; cbn [andb negb]; [|by subst q2; apply spec_bind, spec_ret, spec_raise].
      step (take_spec) as u q3 H3. destruct u; [|by apply spec_raise]. cbn [negb].
      step (hex_loop_spec) as second q4 H4.
      destruct (negb _); [by apply spec_raise|]. apply spec_ret.
      exact (after_trans _ _ _ H1 (after_trans _ _ _ (used_after _ _ H2) (after_trans _ _ _ (used_after _ _ H3) H4))).
    + destruct (between _ _ _); [by apply spec_raise|]. by apply spec_ret.
  - intros scalar q Hq. destruct (char_from_u32 scalar) as [c|] eqn:E; [|by apply spec_raise].
    apply spec_ret. split; [done|]. rewrite utf8_valid_app by done. by eapply encode_utf8_valid.
Qed.

Lemma utf8_push out b : utf8_valid out = true -> b2z b < 128 -> utf8_valid (out ++ [b]) = true.
Proof. intros Ho Hb. rewrite utf8_valid_app by done. by rewrite utf8_valid_ascii. Qed.

(** The character at the front of valid text that does not start with ASCII. *)
Lemma front_char b r :
  utf8_valid (b :: r) = true -> 128 <= b2z b ->
  wide_char (firstn (char_width b) (b :: r)) = true /\ utf8_valid (drop (char_width b) (b :: r)) = true.
Proof.
  intros Hv Hb. destruct (utf8_cases _ Hv) as [|[(a & t & [= <- <-] & ? & _)|(c & t & E & Hc & Ht)]]; [done|lia|].
  destruct (wide_char_head c Hc) as (a & u & -> & Hl). injection E as <- ->.
  rewrite <- Hl. rewrite app_comm_cons, take_app_length, drop_app_length. done.
Qed.

Lemma string_char_spec out b r p : good p -> rest p = b :: r -> b2z b <> 34 -> utf8_valid out = true ->
  spec (string_char out b) p (fun o q => used p q /\ utf8_valid o = true).
Proof.
  intros Hg Hr Hq Ho. unfold string_char. case_bool_decide as E.
  - subst b. step (advance1_spec) as ? q1 H1.
    step (peek_or_spec) as e q [-> [r2 Hr2]].
    assert (Hesc : forall z, b2z e < 128 -> b2z z < 128 ->
      spec (do! _ := advance 1 in ret (out ++ [z])) q1 (fun o q => used p q /\ utf8_valid o = true)).
    { intros z He Hz. step (advance1_spec) as ? q2 H2. apply spec_ret.
      split; [exact (used_trans _ _ _ H1 (used_after _ _ H2))|by apply utf8_push]. }
    assert (Huni : b2z e < 128 ->
      spec (do! _ := advance 1 in push_unicode_escape out) q1 (fun o q => used p q /\ utf8_valid o = true)).
    { intros He. step (advance1_spec) as ? q2 H2.
      eapply spec_wand; [apply push_unicode_escape_spec; eauto with json|]. intros o q [H3 ?]. split; [|done].
      exact (used_trans _ _ _ H1 (after_trans _ _ _ (used_after _ _ H2) H3)). }
    destruct e; (by apply Hesc) || (by apply Huni) || (by apply spec_bind).
  - destruct (b2z b <=? 0x1f) eqn:E1; [by apply spec_raise|]. destruct (b2z b <? 128) eqn:E2; bool_hyps.
    + step (advance1_spec) as ? q H1. apply spec_ret. split; [done|by apply utf8_push].
    + unfold good in Hg. rewrite Hr in Hg. destruct (front_char b r Hg E2) as [Hw Hv].
      unfold spec, bind, advance, ret. rewrite Hr.
      pose proof (wide_char_head _ Hw) as (a & u & Ea & Hl).
      assert (Hc : length (firstn (char_width b) (b :: r)) = char_width b).
      { destruct (char_width b) eqn:Ew; [done|]. cbn in Ea. injection Ea as <- _. by rewrite Hl, Ew. }
      rewrite Hc. split.
      * split_and!; cbn [with_rest rest nodes]; [done|done|]. rewrite length_drop, Hr. unfold char_width.
        cbn [length]. repeat (destruct (_ <? _)); lia.
      * rewrite utf8_valid_app by done. rewrite <- (app_nil_r (firstn _ _)). by rewrite utf8_valid_wide.
Qed.

Lemma string_loop_spec fuel out p :
  good p -> utf8_valid out = true -> blen out <= MAX_STRING_BYTES -> (length (rest p) < fuel)%nat ->
  spec (string_loop fuel out) p (fun s q => used p q /\ string_ok s = true).
Proof.
  revert out p. induction fuel as [|fuel IH]; intros out p Hg Ho Hl Hf; [lia|]. cbn [string_loop].
  step peek_or_spec as b q [-> [r Hr]]. case_bool_decide as Eb.
  - subst b. step advance1_spec as ? q H1. apply spec_ret. split; [done|].
    unfold string_ok. by rewrite Ho, (proj2 (Z.leb_le _ _)).
  - assert (Hb : b2z b <> 34) by (intros Hb; apply Eb; by apply (inj b2z)).
    step string_char_spec as out' q [H1 Ho'].
    destruct (MAX_STRING_BYTES <? blen out') eqn:E; [by apply spec_raise|]. bool_hyps.
    eapply spec_wand; [apply IH; [eauto with json|done|lia|]|].
    + destruct H1 as (_ & _ & ?). lia.
    + intros s q2 [? ?]. eauto with json.
Qed.

Lemma string_spec p : good p -> spec string p (fun s q => used p q /\ string_ok s = true).
Proof.
  intros Hg. unfold string. step consume_spec as ? q H1.
  eapply spec_wand; [apply string_loop_spec; [eauto with json|done|done|lia]|].
  intros s q2 [? ?]. eauto with json.
Qed.

(** ** Numbers *)

Lemma drop_while_split {A} (f : A -> bool) l : exists k, l = k ++ drop_while f l /\ forallb f k = true.
Proof.
  induction l as [|x l (k & E & Hk)]; [by exists []|]. cbn [drop_while]. destruct (f x) eqn:Ex; [|by exists []].
  exists (x :: k). cbn. by rewrite <- E, Ex.
Qed.

(** The digits of a number are what was consumed. *)
Definition digits_used (p q : Parser) : Prop :=
  exists l, rest p = l ++ rest q /\ forallb is_ascii_digit l = true /\ used p q.

Lemma skip_digits_spec p : good p -> spec skip_digits p (fun _ q => after p q).
Proof. intros Hg. apply drop_while_after; [done|apply is_digit_ascii]. Qed.

Lemma number_integer_spec p : good p -> spec number_integer p (fun _ q => digits_used p q).
Proof.
  intros Hg. unfold number_integer. apply spec_bind, peek_spec. destruct (rest p) as [|b r] eqn:Hr; [done|]. cbn.
  case_bool_decide as Eb.
  - subst b. unfold spec, advance. rewrite Hr. exists [x30]. split_and!; [done..|]. by eapply drop_ascii.
  - destruct (in_range 49 57 b) eqn:E; [|by apply spec_raise].
    assert (Hd : is_ascii_digit b = true) by (unfold is_ascii_digit; ranges; apply andb_true_iff; rewrite !Z.leb_le; lia).
    unfold spec, bind, advance, skip_digits. rewrite Hr. cbn [drop with_rest rest].
    destruct (drop_while_split is_ascii_digit r) as (k & Ek & Hk). exists (b :: k).
    split_and!; [rewrite Hr; cbn [app with_rest rest]; by f_equal|cbn [forallb]; by rewrite Hd|].
    pose proof (drop_ascii _ _ _ Hg Hr (is_digit_ascii _ Hd)) as Hu.
    eapply used_trans; [exact Hu|]. apply (drop_while_after _ (with_rest r p)); [eauto with json|apply is_digit_ascii].
Qed.

Lemma number_digits_spec p : good p -> spec number_digits p (fun _ q => after p q).
Proof.
  intros Hg. unfold number_digits, peek_digit. do 2 apply spec_bind. apply peek_spec, spec_ret.
  destruct (head (rest p)) as [b|]; [|by apply spec_raise].
  destruct (is_ascii_digit b); [by apply skip_digits_spec|by apply spec_raise].
Qed.

Lemma number_fraction_spec p : good p -> spec number_fraction p (fun t q => if t then after p q else q = p).
Proof.
  intros Hg. unfold number_fraction. step take_spec as t q H1. destruct t; [|done].
  step number_digits_spec as ? q2 H2. apply spec_ret. eauto with json.
Qed.

Lemma number_exponent_spec p : good p -> spec number_exponent p (fun t q => if t then after p q else q = p).
Proof.
  intros Hg. unfold number_exponent. apply spec_bind, peek_spec. case_bool_decide as E; [|done].
  assert (exists b r, rest p = b :: r /\ b2z b < 128) as (b & r & Hr & Hb).
  { destruct (rest p) as [|b r]; [naive_solver|]. exists b, r. split; [done|].
    destruct E as [[= ->] | [= ->]]; done. }
  step advance1_spec as ? q H1. apply spec_bind, peek_spec.
  apply (spec_step _ _ _ (fun _ q2 => after q q2)).
  - case_bool_decide as E2; [|apply spec_ret; eauto with json].
    assert (exists b r, rest q = b :: r /\ b2z b < 128) as (b2 & r2 & Hr2 & Hb2).
    { destruct (rest q) as [|b2 r2]; [naive_solver|]. exists b2, r2. split; [done|].
      destruct E2 as [[= ->] | [= ->]]; done. }
    eapply spec_wand; [eapply advance1_spec; eauto with json|]. eauto with json.
  - intros ? q2 H2. step number_digits_spec as ? q3 H3. apply spec_ret. eauto with json.
Qed.

Lemma dec_fold_nonneg l acc : forallb is_ascii_digit l = true -> 0 <= acc -> 0 <= dec_fold acc l.
Proof.
  revert acc. induction l as [|b l IH]; intros acc Hl Ha; [done|]. cbn in *. bool_hyps.
  apply IH; [done|]. pose proof (is_ascii_digit_value _ H). lia.
Qed.

Lemma number_spec p : good p -> spec number p (fun n q => used p q /\ between 0 U64_MAX n = true).
Proof.
  intros Hg. unfold number.
  change (spec (fun p0 => ?f p0) p) with (spec f p).
  step take_spec as neg q1 H1.
  assert (Ha1 : after p q1) by (destruct neg; [eauto with json|subst; eauto with json]).
  step number_integer_spec as ? q2 (l & Hl & Hd & H2).
  step number_fraction_spec as fr q3 H3.
  assert (Ha3 : after q2 q3) by (destruct fr; [done|subst; eauto with json]).
  step number_exponent_spec as ex q4 H4.
  assert (Ha4 : after q3 q4) by (destruct ex; [done|subst; eauto with json]).
  apply spec_bind, peek_spec. destruct (negb _); [by apply spec_raise|].
  destruct (neg || fr || ex) eqn:E; [by apply spec_raise|]. bool_hyps. subst neg fr ex.
  unfold spec. destruct (parse_u64_digits _) as [n|] eqn:En; [|done]. split.
  - eapply after_used; [exact Ha1|]. eauto with json.
  - subst q1 q3 q4. rewrite Hl, length_app, Nat.add_sub, take_app_length in En. unfold parse_u64_digits in En.
    destruct (dec_fold 0 l <=? U64_MAX) eqn:E; [|done]. injection En as <-. unfold between.
    rewrite E, andb_true_r. apply Z.leb_le. by apply dec_fold_nonneg.
Qed.

(** ** Containers and values *)

Definition limit_ok (limit : option Z) : Prop := match limit with Some z => 0 <= z | None => True end.
Lemma field_limit_ok k depth : limit_ok (if depth =? 1 then field_array_limit k else None).
Proof. destruct (depth =? 1); [|done]. unfold field_array_limit, match_str. by repeat case_bool_decide. Qed.
#[local] Hint Resolve field_limit_ok : json.

(** What a call of [value] at [depth] under [limit] returns. *)
Record value_post (depth : Z) (limit : option Z) (p : Parser) (v : JsonValue) (q : Parser) : Prop := {
  post_good : good q;
  post_used : (length (rest q) < length (rest p))%nat;
  post_ok : json_ok v = true;
  post_nodes : nodes q = nodes p + json_nodes v;
  post_max : nodes q <= MAX_JSON_NODES;
  post_depth : depth + json_depth v <= MAX_JSON_DEPTH + 1;
  post_limit : within limit v = true;
  post_fields : depth = 1 -> fields_ok v = true;
}.

Definition members_nodes (m : list (list byte * JsonValue)) : Z := foldr Z.add 0 (map (fun kv => json_nodes kv.2) m).
Definition members_depth (m : list (list byte * JsonValue)) : Z := foldr Z.max 0 (map (fun kv => json_depth kv.2) m).

Section containers.
Context (rec : Z -> option Z -> M JsonValue) (depth : Z).
Context (Hdepth : 1 <= depth <= MAX_JSON_DEPTH).
Context (Hrec : forall limit p, good p -> limit_ok limit -> spec (rec (depth + 1) limit) p (value_post (depth + 1) limit p)).

Lemma deeper : saturating_add USIZE_MAX depth 1 = depth + 1.
Proof. unfold saturating_add. unfold_max. unfold MAX_JSON_DEPTH in *. lia. Qed.

(** The members read so far, [n] nodes having been counted before them. *)
Record members_inv (n : Z) (m : list (list byte * JsonValue)) (p : Parser) : Prop := {
  inv_good : good p;
  inv_keys : StronglySorted rlt (m.*1);
  inv_ok : forallb (fun kv => string_ok kv.1 && json_ok kv.2) m = true;
  inv_nodes : nodes p = n + members_nodes m;
  inv_max : nodes p <= MAX_JSON_NODES;
  inv_depth : depth + 1 + members_depth m <= MAX_JSON_DEPTH + 1;
  inv_fields : depth = 1 -> forallb (fun kv => within (field_array_limit kv.1) kv.2) m = true;
}.

Lemma members_inv_insert n m p k v q q' :
  members_inv n m p -> k ∉ m.*1 -> string_ok k = true -> after p q ->
  value_post (depth + 1) (if depth =? 1 then field_array_limit k else None) q v q' ->
  members_inv n (map_insert k v m) q'.
Proof.
  intros [] Hk Hs (Hq & Hn & _) []. constructor.
  - done.
  - by apply map_insert_sorted.
  - rewrite forallb_map_insert by done. cbn. by rewrite Hs, post_ok0.
  - unfold members_nodes in *. rewrite foldr_map_insert by (lia || done). cbn. lia.
  - done.
  - unfold members_depth in *. rewrite foldr_map_insert by (lia || done). cbn. lia.
  - intros Hd. rewrite forallb_map_insert by done. cbn [fst snd]. rewrite (proj2 (Z.eqb_eq _ _) Hd) in post_limit0.
    by rewrite post_limit0, inv_fields0.
Qed.

Lemma members_inv_after n m p q : members_inv n m p -> after p q -> members_inv n m q.
Proof. intros [] (? & Hn & _). constructor; rewrite ?Hn; done. Qed.

Lemma object_loop_spec fuel n m p :
  members_inv n m p -> (length (rest p) < fuel)%nat ->
  spec (object_loop rec fuel depth m) p (fun v q => exists m', v = JObject m' /\ members_inv n m' q
    /\ (length (rest q) < length (rest p))%nat).
Proof.
  revert m p. induction fuel as [|fuel IH]; intros m p Hi Hf; [lia|]. cbn [object_loop].
  apply spec_bind, peek_spec. destruct (negb _); [by apply spec_raise|].
  pose proof (inv_good _ _ _ Hi) as Hg.
  step string_spec as k q1 [H1 Hs]. unfold map_contains. case_bool_decide as Hk; [by apply spec_raise|].
  step skip_whitespace_spec as ? q2 H2. step consume_spec as ? q3 H3. step skip_whitespace_spec as ? q4 H4.
  rewrite deeper. eapply spec_step; [apply Hrec; [eauto with json|first [apply field_limit_ok|done]]|]. cbv beta. intros v q5 Hv.
  assert (H14 : used p q4) by exact (used_trans _ _ _ H1 (after_trans _ _ _ H2 (after_trans _ _ _ (used_after _ _ H3) H4))).
  pose proof (members_inv_insert _ _ _ _ _ _ _ Hi Hk Hs (used_after _ _ H14) Hv) as Hi5.
  assert (Hl5 : (length (rest q5) < length (rest p))%nat) by (destruct H14 as (_ & _ & ?), Hv; lia).
  pose proof (inv_good _ _ _ Hi5) as Hg5.
  step skip_whitespace_spec as ? q6 H6. step take_spec as close q7 H7. destruct close.
  - apply spec_ret. eexists. split; [done|]. assert (H57 : used q5 q7) by eauto with json.
    split; [eauto using members_inv_after with json|]. destruct H57 as (_ & _ & ?). lia.
  - subst q7. step consume_spec as ? q8 H8. step skip_whitespace_spec as ? q9 H9.
    assert (H59 : used q5 q9) by exact (after_used _ _ _ H6 (used_trans _ _ _ H8 H9)).
    eapply spec_wand; [apply IH; [eauto using members_inv_after with json|]|].
    + destruct H59 as (_ & _ & ?). lia.
    + cbv beta. intros w q (m' & -> & ? & ?). exists m'. split_and!; [done..|]. destruct H59 as (_ & _ & ?). lia.
Qed.

Lemma object_spec limit p :
  good p -> nodes p <= MAX_JSON_NODES ->
  spec (object rec depth) p (fun v q => value_post depth limit {| rest := rest p; nodes := nodes p - 1 |} v q).
Proof.
  intros Hg Hn. unfold object. step consume_spec as ? q1 H1. step skip_whitespace_spec as ? q2 H2.
  step take_spec as close q3 H3. unfold MAX_JSON_DEPTH in *.
  assert (H13 : used p (if close then q3 else q2)) by (destruct close; eauto with json).
  assert (Hi : members_inv (nodes p) [] (if close then q3 else q2)).
  { destruct H13 as (Hg3 & Hn3 & _). constructor; rewrite ?Hn3; try done; [constructor|cbn; lia|cbn; unfold MAX_JSON_DEPTH; lia]. }
  assert (Hpost : forall m q, members_inv (nodes p) m q -> (length (rest q) < length (rest p))%nat ->
    value_post depth limit {| rest := rest p; nodes := nodes p - 1 |} (JObject m) q).
  { intros m q [] Hlt. unfold members_nodes, members_depth in *.
    constructor; cbn [rest nodes json_ok json_nodes json_depth fields_ok]; try done; try lia.
    - rewrite (proj2 (increasing_sorted _)) by done. done.
    - by destruct limit. }
  destruct close.
  - apply spec_ret, Hpost; [done|]. by destruct H13 as (_ & _ & ?).
  - subst q3. eapply spec_wand; [apply object_loop_spec; [exact Hi|lia]|].
    cbv beta. intros v q (m & -> & ? & ?). apply Hpost; [done|]. destruct H13 as (_ & _ & ?). lia.
Qed.

(** The elements read so far. *)
Record elements_inv (n : Z) (limit : option Z) (l : list JsonValue) (p : Parser) : Prop := {
  elems_good : good p;
  elems_ok : forallb json_ok l = true;
  elems_nodes : nodes p = n + foldr Z.add 0 (map json_nodes l);
  elems_max : nodes p <= MAX_JSON_NODES;
  elems_depth : depth + 1 + foldr Z.max 0 (map json_depth l) <= MAX_JSON_DEPTH + 1;
  elems_limit : within limit (JArray l) = true;
}.

Lemma elements_inv_after n limit l p q : elements_inv n limit l p -> after p q -> elements_inv n limit l q.
Proof. intros [] (? & Hn & _). constructor; rewrite ?Hn; done. Qed.

Lemma sum_snoc {A} (f : A -> Z) l v : foldr Z.add 0 (map f (l ++ [v])) = foldr Z.add 0 (map f l) + f v.
Proof. induction l; cbn in *; lia. Qed.
Lemma max_snoc {A} (f : A -> Z) l v : foldr Z.max 0 (map f (l ++ [v])) = Z.max (foldr Z.max 0 (map f l)) (Z.max (f v) 0).
Proof. induction l; cbn in *; lia. Qed.

Lemma elements_inv_snoc n limit l p v q :
  elements_inv n limit l p -> value_post (depth + 1) None p v q ->
  match limit with Some limit => limit <=? blen l | None => false end = false ->
  elements_inv n limit (l ++ [v]) q.
Proof.
  intros [] [] Hlim. constructor; rewrite ?sum_snoc, ?max_snoc; [done| |lia|done|lia|].
  - rewrite forallb_app. cbn. by rewrite elems_ok0, post_ok0.
  - destruct limit as [z|]; [|done]. bool_hyps. cbn [within]. rewrite blen_app, blen_cons, blen_nil. apply Z.leb_le. lia.
Qed.

Lemma array_loop_spec fuel n limit l p :
  elements_inv n limit l p -> (length (rest p) < fuel)%nat ->
  spec (array_loop rec fuel depth limit l) p (fun v q => exists l', v = JArray l' /\ elements_inv n limit l' q
    /\ (length (rest q) < length (rest p))%nat).
Proof.
  revert l p. induction fuel as [|fuel IH]; intros l p Hi Hf; [lia|]. cbn [array_loop].
  destruct (match limit with Some z => z <=? blen l | None => false end) eqn:Elim; [by apply spec_raise|].
  pose proof (elems_good _ _ _ _ Hi) as Hg.
  rewrite deeper. eapply spec_step; [apply Hrec; [eauto with json|first [apply field_limit_ok|done]]|]. cbv beta. intros v q5 Hv.
  pose proof (elements_inv_snoc _ _ _ _ _ _ Hi Hv Elim) as Hi5.
  pose proof (elems_good _ _ _ _ Hi5) as Hg5. pose proof (post_used _ _ _ _ _ Hv) as Hl5.
  step skip_whitespace_spec as ? q6 H6. step take_spec as close q7 H7. destruct close.
  - apply spec_ret. eexists. split; [done|]. assert (H57 : used q5 q7) by eauto with json.
    split; [eauto using elements_inv_after with json|]. destruct H57 as (_ & _ & ?). lia.
  - subst q7. step consume_spec as ? q8 H8. step skip_whitespace_spec as ? q9 H9.
    assert (H59 : used q5 q9) by exact (after_used _ _ _ H6 (used_trans _ _ _ H8 H9)).
    eapply spec_wand; [apply IH; [eauto using elements_inv_after with json|]|].
    + destruct H59 as (_ & _ & ?). lia.
    + cbv beta. intros w q (m' & -> & ? & ?). exists m'. split_and!; [done..|]. destruct H59 as (_ & _ & ?). lia.
Qed.

Lemma array_spec limit p :
  good p -> nodes p <= MAX_JSON_NODES -> limit_ok limit ->
  spec (array rec depth limit) p (fun v q => value_post depth limit {| rest := rest p; nodes := nodes p - 1 |} v q).
Proof.
  intros Hg Hn Hlim. unfold array. step consume_spec as ? q1 H1. step skip_whitespace_spec as ? q2 H2.
  step take_spec as close q3 H3. unfold MAX_JSON_DEPTH in *.
  assert (H13 : used p (if close then q3 else q2)) by (destruct close; eauto with json).
  assert (Hi : elements_inv (nodes p) limit [] (if close then q3 else q2)).
  { destruct H13 as (Hg3 & Hn3 & _). constructor; rewrite ?Hn3; try done; [cbn; lia|cbn; unfold MAX_JSON_DEPTH; lia|].
    destruct limit; [|done]. by apply Z.leb_le. }
  assert (Hpost : forall l q, elements_inv (nodes p) limit l q -> (length (rest q) < length (rest p))%nat ->
    value_post depth limit {| rest := rest p; nodes := nodes p - 1 |} (JArray l) q).
  { intros l q [] Hlt. constructor; cbn [rest nodes json_ok json_nodes json_depth fields_ok]; try done; try lia. }
  destruct close.
  - apply spec_ret, Hpost; [done|]. by destruct H13 as (_ & _ & ?).
  - subst q3. eapply spec_wand; [apply array_loop_spec; [exact Hi|lia]|].
    cbv beta. intros v q (l & -> & ? & ?). apply Hpost; [done|]. destruct H13 as (_ & _ & ?). lia.
Qed.
End containers.

Lemma scalar_post depth limit p v q n :
  used {| rest := rest p; nodes := n |} q -> n = nodes p + 1 -> n <= MAX_JSON_NODES -> depth <= MAX_JSON_DEPTH + 1 ->
  json_ok v = true -> json_nodes v = 1 -> json_depth v = 0 -> (forall l, v <> JArray l) -> (forall m, v <> JObject m) ->
  value_post depth limit p v q.
Proof.
  intros (? & Hn & ?) -> ? ? ? Hn1 Hd Ha Ho. cbn in *. constructor; try done; try lia.
  - destruct limit, v; try done. by destruct (Ha l).
  - intros _. destruct v; try done. by destruct (Ho members).
Qed.

Lemma value_unfold fuel depth limit :
  value fuel depth limit =
  do! _ := count_node in
  do! b := peek in
  match b with
  | None => raise MalformedJson
  | Some b =>
      if bool_decide (b = x7b) then
        if MAX_JSON_DEPTH <? depth then raise ResourceLimitExceeded
        else match fuel with O => raise InternalInvariant | S f => object (value f) depth end
      else if bool_decide (b = x5b) then
        if MAX_JSON_DEPTH <? depth then raise ResourceLimitExceeded
        else match fuel with O => raise InternalInvariant | S f => array (value f) depth limit end
      else if bool_decide (b = x22) then do! s := string in ret (JString s)
      else if bool_decide (b = x74) then do! _ := literal (bs "true") in ret (JBool true)
      else if bool_decide (b = x66) then do! _ := literal (bs "false") in ret (JBool false)
      else if bool_decide (b = x6e) then do! _ := literal (bs "null") in ret JNull
      else if bool_decide (b = x2d) || is_ascii_digit b then do! n := number in ret (JNumber n)
      else raise MalformedJson
  end.
Proof. by destruct fuel. Qed.

Lemma value_spec fuel depth limit p :
  good p -> 1 <= depth -> MAX_JSON_DEPTH + 1 <= depth + Z.of_nat fuel -> depth <= MAX_JSON_DEPTH + 1 ->
  limit_ok limit ->
  spec (value fuel depth limit) p (value_post depth limit p).
Proof.
  revert depth limit p. induction fuel as [fuel IH] using (well_founded_induction lt_wf).
  intros depth limit p Hg Hd Hf Hmax Hlim. rewrite value_unfold.
  apply spec_bind. unfold spec at 1, count_node.
  destruct (checked_add USIZE_MAX (nodes p) 1) as [n|] eqn:En; [|done]. apply checked_add_Some in En as [Hn _].
  destruct (MAX_JSON_NODES <? n) eqn:Emax; [done|]. bool_hyps.
  set (q := {| rest := rest p; nodes := n |}). assert (Hq : good q) by exact Hg.
  apply spec_bind, peek_spec. destruct (head (rest q)) as [b|]; [|by apply spec_raise].
  assert (Hscalar : forall A (m : M A) (P : A -> bool) (f : A -> JsonValue), spec m q (fun a r => used q r /\ P a = true) ->
    (forall a, P a = true -> json_ok (f a) = true /\ json_nodes (f a) = 1 /\ json_depth (f a) = 0
      /\ (forall l, f a <> JArray l) /\ (forall m, f a <> JObject m)) ->
    spec (do! a := m in ret (f a)) q (value_post depth limit p)).
  { intros A m P f Hm Hpf. eapply spec_step; [exact Hm|]. cbv beta. intros a r [Hu Ha].
    destruct (Hpf a Ha) as (? & ? & ? & ? & ?). apply spec_ret. by eapply scalar_post. }
  assert (Hp : p = {| rest := rest q; nodes := nodes q - 1 |}).
  { destruct p. unfold q. cbn in *. f_equal. lia. }
  assert (Hsub : forall f, fuel = S f -> depth <= MAX_JSON_DEPTH -> forall limit r, good r ->
    limit_ok limit ->
    spec (value f (depth + 1) limit) r (value_post (depth + 1) limit r)).
  { intros f -> ? ? ? ? ?. apply IH; [lia|done|lia..|done]. }
  assert (Hlit : forall text v, is_ascii text = true -> text <> [] -> json_ok v = true -> json_nodes v = 1 ->
    json_depth v = 0 -> (forall l, v <> JArray l) -> (forall m, v <> JObject m) ->
    spec (do! _ := literal text in ret v) q (value_post depth limit p)).
  { intros text v ? ? ? ? ? ? ?. apply (Hscalar unit (literal text) (fun _ => true) (fun _ => v)); [|done].
    eapply spec_wand; [by apply literal_spec|]. by split. }
  repeat case_bool_decide; cbn [orb].
  - destruct (MAX_JSON_DEPTH <? depth) eqn:Ed; [by apply spec_raise|]. bool_hyps.
    destruct fuel as [|f]; [lia|]. rewrite Hp. apply object_spec; eauto.
  - destruct (MAX_JSON_DEPTH <? depth) eqn:Ed; [by apply spec_raise|]. bool_hyps.
    destruct fuel as [|f]; [lia|]. rewrite Hp. apply array_spec; eauto.
  - eapply Hscalar; [by apply string_spec|]. by intros s Hs.
  - by apply Hlit.
  - by apply Hlit.
  - by apply Hlit.
  - eapply Hscalar; [by apply number_spec|]. by intros n' Hn'.
  - destruct (is_ascii_digit b); [|by apply spec_raise].
    eapply Hscalar; [by apply number_spec|]. by intros n' Hn'.
Qed.

(** The reader never runs out of fuel, and what it returns is within the limits. *)
Lemma parse_sound text : utf8_valid text = true ->
  match parse text with Ok v => json_wf v = true | Err e => e <> InternalInvariant end.
Proof.
  intros Ht. unfold parse.
  assert (Hs : spec (do! _ := skip_whitespace in
     do! v := value (Z.to_nat MAX_JSON_DEPTH) 1 None in
     do! _ := skip_whitespace in ret v) {| rest := text; nodes := 0 |} (fun v q => json_wf v = true)).
  { assert (Hg : good {| rest := text; nodes := 0 |}) by exact Ht.
    step skip_whitespace_spec as ? q1 H1.
    eapply spec_step; [apply value_spec; [eauto with json|unfold MAX_JSON_DEPTH; lia..|done]|]. cbv beta.
    intros v q2 []. step skip_whitespace_spec as ? q3 H3. apply spec_ret.
    destruct H1 as (_ & Hn & _). cbn in Hn. unfold json_wf. rewrite post_ok0, post_fields0 by done.
    rewrite (proj2 (Z.leb_le (json_nodes v) _)), (proj2 (Z.leb_le (json_depth v) _)) by lia. done. }
  unfold spec in Hs. destruct (bind _ _ {| rest := text; nodes := 0 |}) as [[v q]|e]; cbn; [|done].
  case_bool_decide; done.
Qed.
End JsonFacts.
