(* ===== verification/ManifestJsonPrint.v ===== *)
(** The printed form of a JSON value within the limits is read back. *)
From Stdlib Require Import ZArith Lia String.
From Stdlib Require Import Strings.Byte Init.Byte.
From stdpp Require Import prelude list sorting.
From S2P Require Import Prelude RustText Ord Utf8 ManifestJson ManifestJsonFacts.

Set Warnings "-register-all,-clear-no-such-hyp".

Module JsonPrint.
Import Json JsonFacts.

Abbreviation at_text r n := {| rest := r; nodes := n |}.

Lemma bind_run {A B} (m : M A) (k : A -> M B) p a q : m p = Ok (a, q) -> bind m k p = k a q.
Proof. intros H. unfold bind. by rewrite H. Qed.

Lemma forallb_elem {A} (f : A -> bool) l x : forallb f l = true -> x ∈ l -> f x = true.
Proof. intros Hl Hx. apply (proj1 (forallb_forall f l) Hl). by apply list_elem_of_In. Qed.

(** ** Strings *)

Lemma escape_ascii out b k n : b2z b < 128 ->
  exists c t, escape_byte b = c :: t /\ c <> x22 /\
    string_char out c (at_text (escape_byte b ++ k) n) = Ok (out ++ [b], at_text k n).
Proof.
  intros Hb. destruct b; first [exfalso; revert Hb; vm_compute; discriminate
                               | eexists _, _; split_and!; [reflexivity|discriminate|reflexivity]].
Qed.

Lemma escape_wide b : 128 <= b2z b -> escape_byte b = [b].
Proof. destruct b; first [reflexivity | intros H; exfalso; revert H; vm_compute; intros H; by destruct H]. Qed.

Lemma escape_wide_char c : Forall (fun b => 128 <= b2z b) c -> c ≫= escape_byte = c.
Proof. induction 1 as [|b c Hb _ IH]; [done|]. cbn. rewrite escape_wide by done. cbn. by f_equal. Qed.

Lemma string_loop_step fuel out out' c t k n :
  c <> x22 -> string_char out c (at_text (c :: t) n) = Ok (out', at_text k n) -> blen out' <= MAX_STRING_BYTES ->
  string_loop (S fuel) out (at_text (c :: t) n) = string_loop fuel out' (at_text k n).
Proof.
  intros Hc Hs Hl. cbn [string_loop]. erewrite bind_run by reflexivity. rewrite bool_decide_eq_false_2 by done.
  erewrite bind_run by exact Hs. by rewrite (proj2 (Z.ltb_ge _ _)).
Qed.

Lemma string_loop_print s : utf8_valid s = true -> forall fuel out k n,
  blen (out ++ s) <= MAX_STRING_BYTES -> (length s < fuel)%nat ->
  string_loop fuel out (at_text ((s ≫= escape_byte) ++ x22 :: k) n) = Ok (out ++ s, at_text k n).
Proof.
  revert s. apply (utf8_ind (fun s => forall fuel out k n, blen (out ++ s) <= MAX_STRING_BYTES -> (length s < fuel)%nat ->
    string_loop fuel out (at_text ((s ≫= escape_byte) ++ x22 :: k) n) = Ok (out ++ s, at_text k n))).
  - intros fuel out k n Hl Hf. destruct fuel; [lia|]. rewrite app_nil_r. reflexivity.
  - intros b s Hb Hs IH fuel out k n Hl Hf. destruct fuel; [lia|].
    cbn [mbind list_bind]. rewrite <- app_assoc.
    destruct (escape_ascii out b ((s ≫= escape_byte) ++ x22 :: k) n Hb) as (c & t & Ec & Hc & Hr).
    rewrite Ec in *. cbn [app] in *. rewrite cons_middle, app_assoc in Hl.
    erewrite string_loop_step; [|done|exact Hr|].
    + rewrite IH; [by rewrite <- app_assoc|done|cbn in Hf; lia].
    + rewrite blen_app in Hl. pose proof (blen_nonneg s). lia.
  - intros c s Hc Hs IH fuel out k n Hl Hf. destruct fuel; [lia|].
    rewrite bind_app, escape_wide_char by (by apply wide_char_bytes). rewrite <- app_assoc.
    destruct (wide_char_head c Hc) as (a & u & -> & Hw). pose proof (wide_char_bytes _ Hc) as Hb. inversion Hb; subst.
    cbn [app]. erewrite string_loop_step with (out' := out ++ a :: u) (k := (s ≫= escape_byte) ++ x22 :: k).
    + rewrite IH; [by rewrite <- app_assoc|by rewrite <- app_assoc|]. cbn in Hf. rewrite length_app in Hf. lia.
    + intros ->. by apply H1.
    + unfold string_char. rewrite bool_decide_eq_false_2 by (intros ->; by apply H1).
      rewrite (proj2 (Z.leb_gt _ _)), (proj2 (Z.ltb_ge _ _)) by lia. cbn [rest].
      rewrite app_comm_cons, <- Hw, take_app_length. unfold bind, advance, ret. cbn [rest with_rest nodes].
      by rewrite drop_app_length.
    + rewrite app_assoc, blen_app in Hl. pose proof (blen_nonneg s). lia.
Qed.

Lemma escape_length s : (length s <= length (s ≫= escape_byte))%nat.
Proof.
  induction s as [|b s IH]; [done|]. cbn [mbind list_bind]. rewrite length_app. cbn [length].
  assert (1 <= length (escape_byte b))%nat by (destruct b; cbn; lia). cbn [mbind list_bind] in IH. lia.
Qed.

Lemma string_print s k n : string_ok s = true ->
  string (at_text (push_json_string s ++ k) n) = Ok (s, at_text k n).
Proof.
  unfold string_ok. intros H. bool_hyps. unfold string, push_json_string. cbn [app].
  rewrite <- app_assoc. cbn [app]. erewrite bind_run by reflexivity.
  cbn [rest with_rest drop nodes]. apply (string_loop_print s H _ []); [done|].
  rewrite drop_0, length_app. pose proof (escape_length s). lia.
Qed.

(** ** Numbers *)

Lemma drop_while_stop {A} (f : A -> bool) l k :
  forallb f l = true -> match head k with Some x => f x | None => false end = false -> drop_while f (l ++ k) = k.
Proof.
  intros Hl Hk. induction l as [|x l IH]; cbn in *.
  - destruct k as [|y k]; [done|]. cbn in *. by rewrite Hk.
  - bool_hyps. by rewrite H, IH.
Qed.

Lemma delimiter_cases k :
  is_delimiter (head k) = true -> k = [] \/ exists b t, k = b :: t /\ b ∈ [x20; x0a; x0d; x09; x2c; x5d; x7d].
Proof. destruct k as [|b t]; [by left|]. cbn. unfold byte_in. intros H. bool_hyps. right. eauto. Qed.

Lemma delimiter_stops k :
  is_delimiter (head k) = true ->
  match head k with Some b => is_ascii_digit b | None => false end = false /\
  head k <> Some x2e /\ head k <> Some x65 /\ head k <> Some x45.
Proof.
  intros [-> |(b & t & -> & Hb)]%delimiter_cases; [done|]. cbn. set_unfold.
  by destruct Hb as [-> |[-> |[-> |[-> |[-> |[-> |[-> |[]]]]]]]].
Qed.

Lemma dec_print_shape z : is_u64 z ->
  dec_print z <> [] /\ forallb is_ascii_digit (dec_print z) = true /\ dec_fold 0 (dec_print z) = z /\
  (forall t, dec_print z = x30 :: t -> t = []).
Proof.
  intros [H0 H1]. assert (Hz : 0 <= z < 10 ^ Z.of_nat 20) by (unfold_max; split; [done|]; cbn; lia).
  split_and!.
  - change (dec_print z) with (if z <? 10 then [dec_digit z] else dec_print_fuel 19 (z / 10) ++ [dec_digit (z mod 10)]).
    destruct (z <? 10); [done|]. by intros [_ ?]%app_eq_nil.
  - by apply dec_print_digits.
  - by apply dec_print_value.
  - intros t Ht. by apply dec_print_head in Ht as [_ ->].
Qed.

Lemma number_integer_print z k n : is_u64 z -> is_delimiter (head k) = true ->
  number_integer (at_text (dec_print z ++ k) n) = Ok (tt, at_text k n).
Proof.
  intros Hz Hk. destruct (dec_print_shape z Hz) as (Hne & Hd & _ & Hh). destruct (delimiter_stops k Hk) as [Hs _].
  destruct (dec_print z) as [|b t]; [done|]. cbn [forallb] in Hd. bool_hyps.
  unfold number_integer. erewrite bind_run by reflexivity. cbn [rest app head hd_error].
  destruct (decide (b = x30)) as [-> |Hb].
  - rewrite bool_decide_eq_true_2 by done. by rewrite (Hh t eq_refl).
  - rewrite bool_decide_eq_false_2 by done.
    assert (in_range 49 57 b = true) as ->.
    { unfold is_ascii_digit, in_range in *. bool_hyps. apply andb_true_iff. rewrite !Z.leb_le.
      assert (b2z b <> 48) by (intros E; apply Hb; by apply (inj b2z)). lia. }
    erewrite bind_run by reflexivity. unfold skip_digits, advance. cbn [rest with_rest skipn nodes].
    by rewrite drop_0, drop_while_stop.
Qed.

Lemma take_absent b r n : head r <> Some b -> take b (at_text r n) = Ok (false, at_text r n).
Proof. intros H. unfold take. erewrite bind_run by reflexivity. by rewrite bool_decide_eq_false_2. Qed.

Lemma number_print z k n : is_u64 z -> is_delimiter (head k) = true ->
  number (at_text (dec_print z ++ k) n) = Ok (z, at_text k n).
Proof.
  intros Hz Hk. pose proof (dec_print_shape z Hz) as (Hne & Hd & Hv & _).
  destruct (delimiter_stops k Hk) as (_ & Hdot & He & HE). unfold number.
  erewrite bind_run.
  2:{ apply take_absent. destruct (dec_print z) as [|b t]; [done|]. cbn in Hd |- *. bool_hyps.
      intros [= ->]. done. }
  erewrite bind_run by (by apply number_integer_print).
  erewrite bind_run. 2:{ unfold number_fraction. by erewrite bind_run by (by apply take_absent). }
  erewrite bind_run.
  2:{ unfold number_exponent. erewrite bind_run by reflexivity. by rewrite bool_decide_eq_false_2 by (intros [? | ?]; done). }
  erewrite bind_run by reflexivity. cbn [rest]. rewrite Hk. cbn [negb orb].
  rewrite length_app, Nat.add_sub, take_app_length. unfold parse_u64_digits. rewrite Hv.
  by rewrite (proj2 (Z.leb_le _ _)) by (destruct Hz; done).
Qed.

(** ** Containers and values *)

Lemma skip_nothing r n :
  match head r with Some b => is_blank b | None => false end = false -> skip_whitespace (at_text r n) = Ok (tt, at_text r n).
Proof. intros H. unfold skip_whitespace. cbn [rest nodes with_rest]. by rewrite (drop_while_stop _ [] r). Qed.

Lemma take_present b r n : take b (at_text (b :: r) n) = Ok (true, at_text r n).
Proof. unfold take. erewrite bind_run by reflexivity. rewrite bool_decide_eq_true_2 by done. reflexivity. Qed.

Lemma consume_present b r n : consume b (at_text (b :: r) n) = Ok (tt, at_text r n).
Proof. unfold consume. by erewrite bind_run by apply take_present. Qed.

Lemma print_json_head v : json_ok v = true -> exists b t, print_json v = b :: t /\ is_blank b = false.
Proof.
  destruct v as [| [] |n|s|l|m]; cbn [print_json json_ok]; try (by eexists _, _; split).
  unfold between. intros H. bool_hyps. destruct (dec_print_shape n) as (Hne & Hd & _); [by split|].
  destruct (dec_print n) as [|b t]; [done|]. cbn in Hd. bool_hyps. exists b, t. split; [done|].
  unfold is_blank, byte_in. apply bool_decide_eq_false_2. intros Hb. set_unfold.
  by destruct Hb as [-> |[-> |[-> |[-> |[]]]]].
Qed.

(** Everything after the first of a list of printed parts. *)
Definition following (parts : list (list byte)) (close : byte) (k : list byte) : list byte :=
  (parts ≫= fun q => x2c :: q) ++ close :: k.

Lemma separated_cons p ps close k : separated (p :: ps) ++ close :: k = p ++ following ps close k.
Proof. unfold separated, following. by rewrite <- app_assoc. Qed.

Lemma following_cons p ps close k : following (p :: ps) close k = x2c :: p ++ following ps close k.
Proof. unfold following. cbn [mbind list_bind app]. by rewrite <- app_assoc. Qed.

Lemma following_length ps close k : (length ps <= length (following ps close k))%nat.
Proof.
  induction ps as [|p ps IH]; [cbn; lia|]. rewrite following_cons. cbn [length]. rewrite length_app. lia.
Qed.

Lemma following_head ps close k : close = x5d \/ close = x7d ->
  exists b t, following ps close k = b :: t /\ is_blank b = false /\ is_delimiter (Some b) = true /\
    (ps = [] -> b = close /\ t = k) /\ (ps <> [] -> b = x2c).
Proof.
  intros Hc. destruct ps as [|p ps].
  - exists close, k. by destruct Hc as [-> | ->].
  - rewrite following_cons. eexists _, _. by split_and!.
Qed.

Definition print_member (kv : list byte * JsonValue) : list byte := push_json_string kv.1 ++ [x3a] ++ print_json kv.2.

Section containers.
Context (rec : Z -> option Z -> M JsonValue) (depth : Z).
Context (Hdepth : 1 <= depth <= MAX_JSON_DEPTH).

(** [rec] reads back the printed form of [v], one level down. *)
Definition reads (v : JsonValue) : Prop := forall limit n k,
  within limit v = true -> is_delimiter (head k) = true -> n + json_nodes v <= MAX_JSON_NODES -> 0 <= n ->
  rec (depth + 1) limit (at_text (print_json v ++ k) n) = Ok (v, at_text k (n + json_nodes v)).

Definition member_limit (k : list byte) : option Z := if depth =? 1 then field_array_limit k else None.

Definition blank_head (r : list byte) : bool := match head r with Some b => is_blank b | None => false end.

Lemma object_turn m1 key v fuel n c t :
  key ∉ m1.*1 -> string_ok key = true -> json_ok v = true -> reads v -> within (member_limit key) v = true ->
  n + json_nodes v <= MAX_JSON_NODES -> 0 <= n -> c = x7d \/ (c = x2c /\ blank_head t = false) ->
  object_loop rec (S fuel) depth m1 (at_text (print_member (key, v) ++ c :: t) n)
  = if bool_decide (c = x7d) then Ok (JObject (map_insert key v m1), at_text t (n + json_nodes v))
    else object_loop rec fuel depth (map_insert key v m1) (at_text t (n + json_nodes v)).
Proof.
  intros Hk Hkey Hok Hv Hlim Hn Hn0 Hc. unfold print_member. cbn [fst snd]. rewrite <- !app_assoc. cbn [app].
  cbn [object_loop]. erewrite bind_run by reflexivity. rewrite bool_decide_eq_true_2 by reflexivity. cbn [negb].
  erewrite bind_run by (by apply string_print). unfold map_contains. rewrite bool_decide_eq_false_2 by done.
  erewrite bind_run by (by apply skip_nothing). erewrite bind_run by apply consume_present.
  destruct (print_json_head v Hok) as (b & r & Eb & Hb).
  erewrite bind_run by (apply skip_nothing; by rewrite Eb).
  rewrite (deeper depth) by done.
  erewrite bind_run by (apply Hv; [done| |done|done]; by destruct Hc as [-> |[-> _]]).
  erewrite bind_run by (apply skip_nothing; by destruct Hc as [-> |[-> _]]).
  destruct Hc as [-> |[-> Ht]].
  - by erewrite bind_run by apply take_present.
  - erewrite bind_run by (by apply take_absent). rewrite bool_decide_eq_false_2 by done.
    erewrite bind_run by apply consume_present. by erewrite bind_run by (by apply skip_nothing).
Qed.

Lemma object_loop_print m2 : forall m1 kv fuel n k,
  StronglySorted rlt ((m1 ++ kv :: m2).*1) ->
  Forall (fun kv => string_ok kv.1 = true /\ json_ok kv.2 = true /\ reads kv.2 /\ within (member_limit kv.1) kv.2 = true) (kv :: m2) ->
  n + members_nodes (kv :: m2) <= MAX_JSON_NODES -> 0 <= n -> (length m2 < fuel)%nat ->
  object_loop rec fuel depth m1 (at_text (print_member kv ++ following (map print_member m2) x7d k) n)
  = Ok (JObject (m1 ++ kv :: m2), at_text k (n + members_nodes (kv :: m2))).
Proof.
  induction m2 as [|kv2 m2 IH]; intros m1 [key v] fuel n k Hs Hall Hn Hn0 Hf; (destruct fuel as [|fuel]; [lia|]);
    inversion Hall as [|? ? (Hkey & Hok & Hv & Hlim) Hall']; subst; cbn [fst snd] in *;
    rewrite fmap_app in Hs; cbn [fmap list_fmap fst] in Hs;
    (assert (Hlt : Forall (fun k' => rlt k' key) (m1.*1)) by
      (apply Forall_forall; intros k' Hk'; eapply StronglySorted_app_1_elem_of; [exact Hs|done|left]));
    (assert (Hk : key ∉ m1.*1) by
      (intros Hin; apply (proj1 (Forall_forall _ _) Hlt) in Hin; by apply irreflexivity in Hin; [|apply rlt_irrefl]));
    cbn [map].
  - change (following [] x7d k) with (x7d :: k).
    rewrite object_turn; [|done..|unfold members_nodes in Hn; cbn in Hn; lia|done|by left].
    rewrite bool_decide_eq_true_2 by done. rewrite map_insert_last by done. unfold members_nodes. cbn. do 3 f_equal. lia.
  - rewrite following_cons. pose proof (json_nodes_pos v) as Hp.
    assert (Hn2 : 0 <= members_nodes (kv2 :: m2)).
    { unfold members_nodes. clear. induction (kv2 :: m2) as [|x l IHl]; cbn; [done|]. pose proof (json_nodes_pos x.2). lia. }
    change (members_nodes ((key, v) :: kv2 :: m2)) with (json_nodes v + members_nodes (kv2 :: m2)) in *.
    rewrite object_turn; [|done..|lia|done|right; split; [done|reflexivity]].
    rewrite bool_decide_eq_false_2 by done. rewrite map_insert_last by done.
    rewrite IH; [| | |lia|lia|cbn in Hf; lia].
    + rewrite <- app_assoc. cbn. do 2 f_equal. f_equal. lia.
    + rewrite <- app_assoc. cbn [app]. by rewrite fmap_app.
    + done.
Qed.

Lemma object_print m n k :
  json_ok (JObject m) = true -> Forall (fun kv => reads kv.2 /\ within (member_limit kv.1) kv.2 = true) m ->
  n + members_nodes m <= MAX_JSON_NODES -> 0 <= n ->
  object rec depth (at_text (print_json (JObject m) ++ k) n) = Ok (JObject m, at_text k (n + members_nodes m)).
Proof.
  intros Hok Hall Hn Hn0. cbn [json_ok] in Hok. bool_hyps. cbn [print_json app]. rewrite <- app_assoc. cbn [app].
  change (fun kv => push_json_string kv.1 ++ x3a :: print_json kv.2) with print_member.
  unfold object. erewrite bind_run by apply consume_present. destruct m as [|kv m].
  - erewrite bind_run by (by apply skip_nothing). erewrite bind_run by apply take_present.
    unfold members_nodes. cbn. by rewrite Z.add_0_r.
  - cbn [map]. rewrite separated_cons. erewrite bind_run by (by apply skip_nothing).
    erewrite bind_run by (by apply take_absent). cbn [rest].
    rewrite object_loop_print with (m1 := []); [done|by apply increasing_sorted| |done|done|].
    + apply Forall_forall. intros x Hx. pose proof (forallb_elem _ _ _ H0 Hx) as Hx'. cbn beta in Hx'. rewrite Forall_forall in Hall.
      specialize (Hall x Hx). bool_hyps. naive_solver.
    + rewrite length_app. pose proof (following_length (map print_member m) x7d k) as Hl. rewrite length_map in Hl. lia.
Qed.

Lemma array_turn limit l v fuel n c t :
  match limit with Some z => z <=? blen l | None => false end = false ->
  reads v -> n + json_nodes v <= MAX_JSON_NODES -> 0 <= n -> c = x5d \/ (c = x2c /\ blank_head t = false) ->
  array_loop rec (S fuel) depth limit l (at_text (print_json v ++ c :: t) n)
  = if bool_decide (c = x5d) then Ok (JArray (l ++ [v]), at_text t (n + json_nodes v))
    else array_loop rec fuel depth limit (l ++ [v]) (at_text t (n + json_nodes v)).
Proof.
  intros Hlim Hv Hn Hn0 Hc. cbn [array_loop]. rewrite Hlim. rewrite (deeper depth) by done.
  erewrite bind_run by (apply Hv; [by destruct v| |done|done]; by destruct Hc as [-> |[-> _]]).
  erewrite bind_run by (apply skip_nothing; by destruct Hc as [-> |[-> _]]).
  destruct Hc as [-> |[-> Ht]].
  - by erewrite bind_run by apply take_present.
  - erewrite bind_run by (by apply take_absent). rewrite bool_decide_eq_false_2 by done.
    erewrite bind_run by apply consume_present. by erewrite bind_run by (by apply skip_nothing).
Qed.

Abbreviation elements_nodes l := (foldr Z.add 0 (map json_nodes l)).

Lemma elements_nodes_nonneg l : 0 <= elements_nodes l.
Proof. induction l as [|v l IH]; cbn; [done|]. pose proof (json_nodes_pos v). lia. Qed.

Lemma within_room limit l1 v l2 : within limit (JArray (l1 ++ v :: l2)) = true ->
  match limit with Some z => z <=? blen l1 | None => false end = false.
Proof.
  destruct limit as [z|]; [|done]. cbn [within]. intros H. bool_hyps. rewrite blen_app, blen_cons in H.
  pose proof (blen_nonneg l2). apply Z.leb_gt. lia.
Qed.

Lemma array_loop_print l2 : forall limit l1 v fuel n k,
  within limit (JArray (l1 ++ v :: l2)) = true -> Forall (fun v => json_ok v = true /\ reads v) (v :: l2) ->
  n + elements_nodes (v :: l2) <= MAX_JSON_NODES -> 0 <= n -> (length l2 < fuel)%nat ->
  array_loop rec fuel depth limit l1 (at_text (print_json v ++ following (map print_json l2) x5d k) n)
  = Ok (JArray (l1 ++ v :: l2), at_text k (n + elements_nodes (v :: l2))).
Proof.
  induction l2 as [|v2 l2 IH]; intros limit l1 v fuel n k Hl Hall Hn Hn0 Hf; (destruct fuel as [|fuel]; [lia|]);
    inversion Hall as [|? ? (Hok & Hv) Hall']; subst; cbn [map foldr] in *;
    pose proof (within_room _ _ _ _ Hl) as Hlim.
  - change (following [] x5d k) with (x5d :: k). rewrite array_turn; [|done..|lia|done|by left].
    rewrite bool_decide_eq_true_2 by done. do 3 f_equal. lia.
  - rewrite following_cons. pose proof (json_nodes_pos v) as Hp. pose proof (elements_nodes_nonneg l2) as Hp2.
    pose proof (json_nodes_pos v2) as Hp3. inversion Hall' as [|? ? (Hok2 & _) _]; subst.
    destruct (print_json_head v2 Hok2) as (b & r & Eb & Hb).
    rewrite array_turn; [|done..|lia|done|right; split; [done|unfold blank_head; by rewrite Eb]].
    rewrite bool_decide_eq_false_2 by done.
    rewrite IH; [|by rewrite <- app_assoc|done|lia|lia|cbn in Hf; lia].
    rewrite <- app_assoc. cbn [app]. do 3 f_equal. lia.
Qed.

Lemma array_print limit l n k :
  json_ok (JArray l) = true -> within limit (JArray l) = true -> Forall reads l ->
  n + elements_nodes l <= MAX_JSON_NODES -> 0 <= n ->
  array rec depth limit (at_text (print_json (JArray l) ++ k) n) = Ok (JArray l, at_text k (n + elements_nodes l)).
Proof.
  intros Hok Hl Hall Hn Hn0. cbn [json_ok] in Hok. cbn [print_json app]. rewrite <- app_assoc. cbn [app].
  unfold array. erewrite bind_run by apply consume_present. destruct l as [|v l].
  - erewrite bind_run by (by apply skip_nothing). erewrite bind_run by apply take_present. cbn. by rewrite Z.add_0_r.
  - cbn [map]. rewrite separated_cons. pose proof Hok as Hok'. cbn [forallb] in Hok'. bool_hyps.
    destruct (print_json_head v H) as (b & r & Eb & Hb).
    erewrite bind_run by (apply skip_nothing; by rewrite Eb).
    erewrite bind_run.
    2:{ apply take_absent. rewrite Eb. cbn. intros [= ->]. revert Eb. destruct v as [| [] |z|s|l'|m']; try done.
        cbn [print_json json_ok] in *. unfold between in H. bool_hyps.
        destruct (dec_print_shape z) as (_ & Hd & _); [by split|]. intros Eb. by rewrite Eb in Hd. }
    cbn [rest]. apply (array_loop_print l limit []); [done| |done|done|].
    + apply Forall_forall. intros x Hx. pose proof (forallb_elem _ _ _ Hok Hx). rewrite Forall_forall in Hall. auto.
    + rewrite length_app. pose proof (following_length (map print_json l) x5d k) as Hlen. rewrite length_map in Hlen. lia.
Qed.
End containers.

Lemma literal_print text k n :
  is_delimiter (head k) = true -> literal text (at_text (text ++ k) n) = Ok (tt, at_text k n).
Proof.
  intros Hk. unfold literal. cbn [rest]. rewrite take_app_length, bool_decide_eq_true_2 by done.
  unfold bind, advance, peek. cbn [rest with_rest nodes]. by rewrite drop_app_length, Hk.
Qed.

Lemma count_node_run r n : 0 <= n -> n + 1 <= MAX_JSON_NODES -> count_node (at_text r n) = Ok (tt, at_text r (n + 1)).
Proof.
  intros H0 Hn. unfold count_node. cbn [nodes rest]. unfold MAX_JSON_NODES in *.
  rewrite (proj2 (checked_add_Some _ _ _ (n + 1))) by (unfold_max; lia). by rewrite (proj2 (Z.ltb_ge _ _)) by lia.
Qed.

Lemma max_elem {A} (f : A -> Z) l x : x ∈ l -> f x <= foldr Z.max 0 (map f l).
Proof. induction 1; cbn; lia. Qed.

(** At any depth, with the nesting left that the value needs. *)
Definition read_back (v : JsonValue) : Prop := forall fuel depth limit n k,
  json_ok v = true -> 1 <= depth -> depth + json_depth v <= MAX_JSON_DEPTH + 1 ->
  MAX_JSON_DEPTH + 1 <= depth + Z.of_nat fuel -> within limit v = true -> (depth = 1 -> fields_ok v = true) ->
  0 <= n -> n + json_nodes v <= MAX_JSON_NODES -> is_delimiter (head k) = true ->
  value fuel depth limit (at_text (print_json v ++ k) n) = Ok (v, at_text k (n + json_nodes v)).

Lemma reads_of_read_back v fuel depth :
  read_back v -> json_ok v = true -> 1 <= depth -> depth + 1 + json_depth v <= MAX_JSON_DEPTH + 1 ->
  MAX_JSON_DEPTH + 1 <= depth + 1 + Z.of_nat fuel -> reads (value fuel) depth v.
Proof. intros Hv Hok ? ? ? limit n k ? ? ? ?. apply Hv; try done; lia. Qed.

Lemma value_number z k n fuel depth limit :
  json_ok (JNumber z) = true -> is_delimiter (head k) = true -> 0 <= n -> n + 1 <= MAX_JSON_NODES ->
  value fuel depth limit (at_text (dec_print z ++ k) n) = Ok (JNumber z, at_text k (n + 1)).
Proof.
  cbn [json_ok]. unfold between. intros Hz Hk H0 Hn. bool_hyps. assert (Hu : is_u64 z) by by split.
  rewrite value_unfold. erewrite bind_run by by apply count_node_run. erewrite bind_run by reflexivity. cbn [rest].
  destruct (dec_print_shape z Hu) as (Hne & Hd & _). pose proof (number_print z k (n + 1) Hu Hk) as Hrun.
  destruct (dec_print z) as [|b t]; [done|]. cbn [forallb app head hd_error] in *. bool_hyps.
  assert (Hb : forall c, is_ascii_digit c = false -> b <> c) by (intros c Hc ->; congruence).
  rewrite !bool_decide_eq_false_2 by (by apply Hb). rewrite H2. cbn [orb].
  by erewrite bind_run by exact Hrun.
Qed.

Lemma value_literal b t v k n fuel depth limit :
  (b, t, v) ∈ [(x6e, bs "ull", JNull); (x74, bs "rue", JBool true); (x66, bs "alse", JBool false)] ->
  is_delimiter (head k) = true -> 0 <= n -> n + 1 <= MAX_JSON_NODES ->
  value fuel depth limit (at_text ((b :: t) ++ k) n) = Ok (v, at_text k (n + 1)).
Proof.
  intros Hv Hk H0 Hn. rewrite value_unfold. erewrite bind_run by by apply count_node_run.
  erewrite bind_run by reflexivity. cbn [rest app head hd_error]. pose proof (literal_print (b :: t) k (n + 1) Hk) as Hl.
  set_unfold. destruct Hv as [[= -> -> ->] |[[= -> -> ->] |[[= -> -> ->] |[]]]];
    repeat (rewrite bool_decide_eq_false_2 by done); rewrite bool_decide_eq_true_2 by done;
    by erewrite bind_run by exact Hl.
Qed.

Lemma print_value v : read_back v.
Proof.
  induction v as [|b|z|s|l IH|m IH] using json_ind; intros fuel depth limit n k Hok Hd Hmax Hf Hlim Hfields H0 Hn Hk;
    try by apply value_number.
  - apply (value_literal x6e (bs "ull")); [left|done..].
  - destruct b; [apply (value_literal x74 (bs "rue")); [right; left|done..]
                |apply (value_literal x66 (bs "alse")); [right; right; left|done..]].
  - rewrite value_unfold. erewrite bind_run by by apply count_node_run. cbn [print_json].
    erewrite bind_run by reflexivity. cbn [rest push_json_string app head hd_error].
    do 2 rewrite bool_decide_eq_false_2 by done. rewrite bool_decide_eq_true_2 by done.
    by erewrite bind_run by (by apply (string_print s k)).
  - pose proof (elements_nodes_nonneg l) as Hnn. cbn [json_nodes json_depth] in *.
    rewrite value_unfold. erewrite bind_run by (apply count_node_run; lia). erewrite bind_run by reflexivity.
    cbn [rest print_json app head hd_error]. rewrite bool_decide_eq_false_2 by done.
    rewrite bool_decide_eq_true_2 by done.
    assert (Hm0 : 0 <= foldr Z.max 0 (map json_depth l)) by (clear; induction l; cbn; lia).
    rewrite (proj2 (Z.ltb_ge _ _)) by lia. destruct fuel as [|fuel]; [lia|].
    rewrite Z.add_assoc. apply (array_print (value fuel) depth); [lia|done|done| |lia|lia].
    rewrite Forall_forall in IH |- *. intros v Hv.
    apply reads_of_read_back; [by apply IH|by apply (forallb_elem _ _ _ Hok)|done|pose proof (max_elem json_depth l v Hv); lia|lia].
  - assert (Hnn : 0 <= members_nodes m).
    { unfold members_nodes. clear. induction m as [|x m IH]; cbn; [done|]. pose proof (json_nodes_pos x.2). lia. }
    change (json_nodes (JObject m)) with (1 + members_nodes m) in *. cbn [json_depth] in *.
    rewrite value_unfold. erewrite bind_run by (apply count_node_run; lia). erewrite bind_run by reflexivity.
    cbn [rest print_json app head hd_error]. rewrite bool_decide_eq_true_2 by done.
    assert (Hm0 : 0 <= foldr Z.max 0 (map (fun kv => json_depth kv.2) m)) by (clear; induction m; cbn; lia).
    rewrite (proj2 (Z.ltb_ge _ _)) by lia. destruct fuel as [|fuel]; [lia|].
    rewrite Z.add_assoc. apply (object_print (value fuel) depth); [lia|done| |lia|lia].
    rewrite Forall_forall in IH |- *. intros kv Hkv. split.
    + cbn [json_ok] in Hok. bool_hyps. pose proof (forallb_elem _ _ _ H1 Hkv) as Hx. cbn beta in Hx. bool_hyps.
      apply reads_of_read_back; [by apply IH|done|done| |lia].
      pose proof (max_elem (fun kv => json_depth kv.2) m kv Hkv). cbn in *. lia.
    + unfold member_limit. destruct (depth =? 1) eqn:E; [|by destruct kv.2]. bool_hyps.
      specialize (Hfields E). cbn [fields_ok] in Hfields. exact (forallb_elem _ _ _ Hfields Hkv).
Qed.

Lemma parse_print v : json_wf v = true -> parse (print_json v) = Ok v.
Proof.
  unfold json_wf. intros H. bool_hyps. destruct (print_json_head v H) as (b & t & Eb & Hb).
  unfold parse. erewrite bind_run by (apply skip_nothing; by rewrite Eb).
  pose proof (print_value v (Z.to_nat MAX_JSON_DEPTH) 1 None 0 []) as Hv. rewrite app_nil_r in Hv.
  erewrite bind_run by (apply Hv; [done|lia|unfold MAX_JSON_DEPTH in *; lia|unfold MAX_JSON_DEPTH; lia|by destruct v|done|done|lia|done]).
  reflexivity.
Qed.

(** ** The printed form is text *)

Abbreviation text l := (utf8_valid l = true).

Lemma text_app l k : text l -> text k -> text (l ++ k).
Proof. intros Hl Hk. by rewrite utf8_valid_app. Qed.

Lemma text_join (parts : list (list byte)) : Forall (fun l => text l) parts -> text (separated parts).
Proof.
  intros H. destruct H as [|p ps Hp Hps]; [done|]. apply text_app; [done|].
  induction Hps as [|q ps Hq _ IH]; [done|]. cbn [mbind list_bind]. apply (text_app (x2c :: q)); [|done].
  by rewrite utf8_valid_ascii.
Qed.

Lemma escape_byte_ascii b : b2z b < 128 -> is_ascii (escape_byte b) = true.
Proof. intros Hb. destruct b; first [reflexivity|exfalso; revert Hb; vm_compute; discriminate]. Qed.

Lemma push_json_string_text s : text s -> text (push_json_string s).
Proof.
  intros Hs. unfold push_json_string. rewrite utf8_valid_ascii by done. apply text_app; [|done].
  revert s Hs. apply utf8_ind; [done| |].
  - intros b s Hb _ IH. cbn [mbind list_bind]. apply text_app; [|done]. by apply utf8_valid_is_ascii, escape_byte_ascii.
  - intros c s Hc _ IH. rewrite bind_app, escape_wide_char by by apply wide_char_bytes. by rewrite utf8_valid_wide.
Qed.

Lemma dec_print_text z : is_u64 z -> text (dec_print z).
Proof.
  intros Hz. destruct (dec_print_shape z Hz) as (_ & Hd & _). apply utf8_valid_is_ascii.
  unfold is_ascii. rewrite forallb_forall in Hd |- *. intros b Hb. specialize (Hd b Hb).
  unfold is_ascii_digit, in_range in *. bool_hyps. apply andb_true_iff. rewrite !Z.leb_le. lia.
Qed.

Lemma print_json_text v : json_ok v = true -> text (print_json v).
Proof.
  induction v as [|[]|z|s|l IH|m IH] using json_ind; intros Hok; try done; cbn [print_json json_ok] in *.
  - unfold between in Hok. bool_hyps. by apply dec_print_text.
  - unfold string_ok in Hok. bool_hyps. by apply push_json_string_text.
  - cbn [app]. rewrite utf8_valid_ascii by done. apply text_app; [|done]. apply text_join.
    apply Forall_map. rewrite Forall_forall in IH |- *. intros v Hv. apply IH; [done|]. by apply (forallb_elem _ _ _ Hok).
  - cbn [app]. rewrite utf8_valid_ascii by done. apply text_app; [|done]. apply text_join. bool_hyps.
    apply Forall_map. rewrite Forall_forall in IH |- *. intros kv Hkv.
    pose proof (forallb_elem _ _ _ H0 Hkv) as Hx. cbn beta in Hx. unfold string_ok in Hx. bool_hyps.
    apply text_app; [by apply push_json_string_text|]. rewrite utf8_valid_ascii by done. by apply IH.
Qed.

(** The manifest's JSON reader returns exactly the values within its limits.  On
    any UTF-8 text it returns a value or one of its own errors, never running out
    of the fuel of its loops; a value can be read from some text if and only if its
    numbers are u64, its strings are UTF-8 of at most 4096 bytes, its objects have
    distinct keys, it has at most 4096 nodes and 16 levels, and the three bounded
    fields of the root hold at most 64, 1 and 32 elements; and the compact printed
    form of such a value is read back as that value. *)
Theorem json_reader_exact :
  (forall text, utf8_valid text = true -> parse text <> Err InternalInvariant) /\
  (forall v, (exists text, utf8_valid text = true /\ parse text = Ok v) <-> json_wf v = true) /\
  (forall v, json_wf v = true -> parse (print_json v) = Ok v).
Proof.
  split_and!.
  - intros t Ht E. pose proof (parse_sound t Ht) as Hs. by rewrite E in Hs.
  - intros v. split.
    + intros (t & Ht & E). pose proof (parse_sound t Ht) as Hs. by rewrite E in Hs.
    + intros Hv. exists (print_json v). split; [|by apply parse_print]. apply print_json_text.
      unfold json_wf in Hv. by bool_hyps.
  - exact parse_print.
Qed.
End JsonPrint.
