(* ===== verification/PluginManifest.v ===== *)
(** Plugin package manifests: mengxia-plugin-package (manifest.rs, dependency.rs).

    [inspect_manifest] reads the bytes with the JSON reader of [ManifestJson],
    checks the published schema, builds the typed manifest, prints it canonically
    and accepts only when the bytes are that print.  The JSON-schema validator, the
    [semver] crate and SHA-256 are parameters ([ManifestCrates]). *)
From Stdlib Require Import ZArith Lia String.
From Stdlib Require Import Strings.Byte Init.Byte.
From stdpp Require Import prelude list sorting.
From S2P Require Import Prelude RustText Ord Utf8 Types ManifestJson ManifestJsonFacts ManifestJsonPrint.

Set Warnings "-register-all,-clear-no-such-hyp".

Module Manifest.
Import Json.

Class ManifestCrates := {
  (** The validator built from the schema file, [None] when building it failed. *)
  schema_validator : option (JsonValue -> bool);
  (** [semver::Version::parse]: the build metadata and the [Display] form. *)
  semver_parse : list byte -> option (list byte * list byte);
  sha256 : list byte -> Digest.Sha256Digest;
}.

Definition MANIFEST_SCHEMA_ID : list byte := bs "https://schemas.mengxia.local/plugin/manifest-v1.schema.json".
Definition MAX_MANIFEST_BYTES : Z := 65536.
Definition MAX_DEPENDENCY_BYTES : Z := 4294967296.

Inductive RuntimeDependencyRole := PluginEntrypoint | Tool.
#[global] Instance role_eq_dec : EqDecision RuntimeDependencyRole.
Proof. solve_decision. Defined.
Definition as_manifest_str (r : RuntimeDependencyRole) : list byte :=
  match r with PluginEntrypoint => bs "PLUGIN_ENTRYPOINT" | Tool => bs "TOOL" end.

Record RuntimeDependencyDeclaration := {
  dependency_id : list byte; role : RuntimeDependencyRole; target : list byte; byte_length : Z;
  dep_sha256 : Digest.Sha256Digest }.
#[global] Instance dependency_eq_dec : EqDecision RuntimeDependencyDeclaration.
Proof. solve_decision. Defined.

Definition CapabilityId : Type := list byte.
Record PermissionRequest := { kind : list byte; scope : list byte }.
#[global] Instance permission_eq_dec : EqDecision PermissionRequest.
Proof. solve_decision. Defined.
Definition permission_key (p : PermissionRequest) : list byte * list byte := (kind p, scope p).
Definition canonical_identifier (p : PermissionRequest) : list byte := kind p ++ [x2f] ++ scope p.

Record InspectedPluginPackage := {
  canonical_bytes : list byte; digest : Digest.Sha256Digest; publisher : list byte; plugin_id : list byte;
  version : list byte; capabilities : list CapabilityId; requested_permissions : list PermissionRequest;
  runtime_dependencies : list RuntimeDependencyDeclaration }.

Record TypedManifest := {
  tm_publisher : list byte; tm_plugin_id : list byte; tm_version : list byte; tm_capabilities : list CapabilityId;
  tm_requested_permissions : list PermissionRequest; tm_runtime_dependencies : list RuntimeDependencyDeclaration }.

(** ** Field readers *)

Abbreviation res := (result PluginPackageError).
Definition require_string (v : option JsonValue) : res (list byte) :=
  match v with Some (JString s) => Ok s | _ => Err ManifestInvalid end.
Definition require_number (v : option JsonValue) : res Z :=
  match v with Some (JNumber n) => Ok n | _ => Err ManifestInvalid end.
Definition require_array (v : option JsonValue) : res (list JsonValue) :=
  match v with Some (JArray l) => Ok l | _ => Err ManifestInvalid end.

Fixpoint token_bytes (first : bool) (allowed : byte -> bool -> bool) (l : list byte) : bool :=
  match l with [] => true | b :: t => allowed b first && token_bytes false allowed t end.
Definition valid_ascii_token (value : list byte) (minimum maximum : Z) (allowed : byte -> bool -> bool) : bool :=
  is_ascii value && between minimum maximum (blen value) && token_bytes true allowed value.

Definition publisher_byte (b : byte) (_ : bool) : bool := is_ascii_alphanumeric b || byte_in [x2e; x5f; x2d] b.
Definition plugin_id_byte (b : byte) (first : bool) : bool :=
  is_ascii_lowercase b || (negb first && (is_ascii_digit b || byte_in [x2e; x5f; x2d] b)).
Definition segment_byte (b : byte) (first : bool) : bool :=
  is_ascii_lowercase b || (negb first && (is_ascii_digit b || bool_decide (b = x5f))).
Definition dependency_id_byte (b : byte) (first : bool) : bool :=
  is_ascii_lowercase b || (negb first && (is_ascii_digit b || byte_in [x5f; x2d] b)).

(** [str::rsplit_once] and [str::split] on an ASCII separator. *)
Fixpoint rsplit_once (sep : byte) (l : list byte) : option (list byte * list byte) :=
  match l with
  | [] => None
  | b :: t => match rsplit_once sep t with
              | Some (x, y) => Some (b :: x, y)
              | None => if bool_decide (b = sep) then Some ([], t) else None
              end
  end.
Fixpoint split (sep : byte) (l : list byte) : list (list byte) :=
  match l with
  | [] => [[]]
  | b :: t => if bool_decide (b = sep) then [] :: split sep t
              else match split sep t with [] => [[b]] | s :: ss => (b :: s) :: ss end
  end.
(** [str::parse::<u32>]: an optional plus sign and at least one digit. *)
Definition parse_u32 (l : list byte) : option Z :=
  let digits := match l with x2b :: t => t | _ => l end in
  if bool_decide (digits = []) || negb (forallb is_ascii_digit digits) then None
  else let v := dec_fold 0 digits in if v <=? U32_MAX then Some v else None.

Definition parse_capability (value : list byte) : res CapabilityId :=
  if (blen value <? 5) || (128 <? blen value) || negb (is_ascii value) then Err ManifestInvalid
  else
    let? (name, version) := ok_or ManifestInvalid (rsplit_once x40 value) in
    let segments := split x2e name in
    if negb (between 2 8 (blen segments))
       || existsb (fun s => negb (valid_ascii_token s 1 32 segment_byte)) segments
       || bool_decide (version = []) || bool_decide (head version = Some x30)
       || bool_decide (parse_u32 version = None)
    then Err ManifestInvalid
    else Ok value.

Definition parse_permission (value : JsonValue) : res PermissionRequest :=
  match value with
  | JObject object =>
      if negb (blen object =? 2) then Err ManifestInvalid
      else
        let '(v, object) := map_remove (bs "kind") object in
        let? kind := require_string v in
        let '(v, object) := map_remove (bs "scope") object in
        let? scope := require_string v in
        if negb (bool_decide (object = [])) || negb (bool_decide (kind = bs "broker.asset.read@1"))
           || negb (bool_decide (scope = bs "run-inputs"))
        then Err ManifestInvalid
        else Ok {| kind := kind; scope := scope |}
  | _ => Err ManifestInvalid
  end.

Definition parse_role (s : list byte) : res RuntimeDependencyRole :=
  ok_or ManifestInvalid (match_str s [(bs "PLUGIN_ENTRYPOINT", PluginEntrypoint); (bs "TOOL", Tool)]).

Definition parse_dependency (value : JsonValue) : res RuntimeDependencyDeclaration :=
  match value with
  | JObject object =>
      if negb (blen object =? 5) then Err ManifestInvalid
      else
        let '(v, object) := map_remove (bs "dependency_id") object in
        let? dependency_id := require_string v in
        if negb (valid_ascii_token dependency_id 1 64 dependency_id_byte) then Err ManifestInvalid
        else
          let '(v, object) := map_remove (bs "role") object in
          let? role_text := require_string v in
          let? role := parse_role role_text in
          let '(v, object) := map_remove (bs "target") object in
          let? target := require_string v in
          if negb (bool_decide (target = bs "aarch64-apple-darwin")) then Err ManifestInvalid
          else
            let '(v, object) := map_remove (bs "byte_length") object in
            let? byte_length := require_number v in
            if negb (between 1 1073741824 byte_length) then Err ManifestInvalid
            else
              let '(v, object) := map_remove (bs "sha256") object in
              let? digest_text := require_string v in
              let? sha := map_err (fun _ => ManifestInvalid) (Digest.from_str digest_text) in
              if bool_decide (sha = repeat x00 32) || negb (bool_decide (object = [])) then Err ManifestInvalid
              else Ok {| dependency_id := dependency_id; role := role; target := target;
                         byte_length := byte_length; dep_sha256 := sha |}
  | _ => Err ManifestInvalid
  end.

(** [iter().map(..).collect::<Result<Vec<_>, _>>()], stopping at the first error. *)
Fixpoint collect {A B} (f : A -> res B) (l : list A) : res (list B) :=
  match l with
  | [] => Ok []
  | a :: t => let? b := f a in let? bs := collect f t in Ok (b :: bs)
  end.
(** The same with the running total of the dependency sizes. *)
Fixpoint collect_dependencies (aggregate : Z) (l : list JsonValue) : res (list RuntimeDependencyDeclaration) :=
  match l with
  | [] => Ok []
  | v :: t =>
      let? dependency := parse_dependency v in
      let? aggregate := ok_or ResourceLimitExceeded (checked_add U64_MAX aggregate (byte_length dependency)) in
      if MAX_DEPENDENCY_BYTES <? aggregate then Err ResourceLimitExceeded
      else let? ds := collect_dependencies aggregate t in Ok (dependency :: ds)
  end.
Definition entrypoints (ds : list RuntimeDependencyDeclaration) : Z :=
  blen (filter (fun d => role d = PluginEntrypoint) ds).

Definition enforce_field_collection_caps (value : JsonValue) : res () :=
  match value with
  | JObject root =>
      if existsb (fun '(field, limit) =>
           match map_get field root with Some (JArray values) => limit <? blen values | _ => false end)
           [(bs "capabilities", MAX_CAPABILITIES); (bs "requested_permissions", 1);
            (bs "runtime_dependencies", MAX_DEPENDENCIES)]
      then Err ResourceLimitExceeded else Ok tt
  | _ => Ok tt
  end.

Section manifest.
Context `{ManifestCrates}.

(** The checks on the version text. *)
Definition check_version (version : list byte) : res () :=
  if bool_decide (version = []) || (64 <? blen version) || negb (is_ascii version) then Err ManifestInvalid
  else
    let? (build, printed) := ok_or ManifestInvalid (semver_parse version) in
    if negb (bool_decide (build = [])) || negb (bool_decide (printed = version)) then Err ManifestInvalid
    else Ok tt.

Definition from_json (value : JsonValue) : res TypedManifest :=
  match value with
  | JObject root =>
      if negb (blen root =? 8) then Err ManifestInvalid
      else
        let '(v, root) := map_remove (bs "$schema") root in
        let? schema := require_string v in
        if negb (bool_decide (schema = MANIFEST_SCHEMA_ID)) then Err ManifestInvalid
        else
        let '(v, root) := map_remove (bs "manifest_version") root in
        let? manifest_version := require_number v in
        if negb (manifest_version =? 1) then Err ManifestInvalid
        else
        let '(v, root) := map_remove (bs "publisher") root in
        let? publisher := require_string v in
        if negb (valid_ascii_token publisher 1 128 publisher_byte) then Err ManifestInvalid
        else
        let '(v, root) := map_remove (bs "plugin_id") root in
        let? plugin_id := require_string v in
        if negb (valid_ascii_token plugin_id 1 128 plugin_id_byte) then Err ManifestInvalid
        else
        let '(v, root) := map_remove (bs "version") root in
        let? version := require_string v in
        let? _ := check_version version in
        let '(v, root) := map_remove (bs "capabilities") root in
        let? capabilities_json := require_array v in
        let? capabilities := collect (fun v => let? s := require_string (Some v) in parse_capability s) capabilities_json in
        if MAX_CAPABILITIES <? blen capabilities then Err ResourceLimitExceeded
        else
        let capabilities := sort_by id capabilities in
        if adjacent_equal id capabilities then Err ManifestInvalid
        else
        let '(v, root) := map_remove (bs "requested_permissions") root in
        let? permissions_json := require_array v in
        if 1 <? blen permissions_json then Err ResourceLimitExceeded
        else
        let? permissions := collect parse_permission permissions_json in
        let permissions := sort_by permission_key permissions in
        if adjacent_equal permission_key permissions then Err ManifestInvalid
        else
        let '(v, root) := map_remove (bs "runtime_dependencies") root in
        let? dependencies_json := require_array v in
        if MAX_DEPENDENCIES <? blen dependencies_json then Err ResourceLimitExceeded
        else
        let? dependencies := collect_dependencies 0 dependencies_json in
        let dependencies := sort_by dependency_id dependencies in
        if bool_decide (dependencies = []) || adjacent_equal dependency_id dependencies
           || negb (entrypoints dependencies =? 1)
        then Err ManifestInvalid
        else if negb (bool_decide (root = [])) then Err ManifestInvalid
        else Ok {| tm_publisher := publisher; tm_plugin_id := plugin_id; tm_version := version;
                   tm_capabilities := capabilities; tm_requested_permissions := permissions;
                   tm_runtime_dependencies := dependencies |}
  | _ => Err ManifestInvalid
  end.

(** [push_separator] before every element but the first. *)
Definition print_permission (p : PermissionRequest) : list byte :=
  bs "{" ++ push_json_string (bs "kind") ++ bs ":" ++ push_json_string (kind p)
  ++ bs "," ++ push_json_string (bs "scope") ++ bs ":" ++ push_json_string (scope p) ++ bs "}".
Definition print_dependency (d : RuntimeDependencyDeclaration) : list byte :=
  bs "{" ++ push_json_string (bs "byte_length") ++ bs ":" ++ dec_print (byte_length d)
  ++ bs "," ++ push_json_string (bs "dependency_id") ++ bs ":" ++ push_json_string (dependency_id d)
  ++ bs "," ++ push_json_string (bs "role") ++ bs ":" ++ push_json_string (as_manifest_str (role d))
  ++ bs "," ++ push_json_string (bs "sha256") ++ bs ":" ++ push_json_string (Digest.to_string (dep_sha256 d))
  ++ bs "," ++ push_json_string (bs "target") ++ bs ":" ++ push_json_string (target d) ++ bs "}".
Definition print_manifest (f : TypedManifest) : list byte :=
  bs "{" ++ push_json_string (bs "$schema") ++ bs ":" ++ push_json_string MANIFEST_SCHEMA_ID
  ++ bs "," ++ push_json_string (bs "capabilities") ++ bs ":[" ++ separated (map push_json_string (tm_capabilities f))
  ++ bs "]," ++ push_json_string (bs "manifest_version") ++ bs ":1,"
  ++ push_json_string (bs "plugin_id") ++ bs ":" ++ push_json_string (tm_plugin_id f)
  ++ bs "," ++ push_json_string (bs "publisher") ++ bs ":" ++ push_json_string (tm_publisher f)
  ++ bs "," ++ push_json_string (bs "requested_permissions") ++ bs ":["
  ++ separated (map print_permission (tm_requested_permissions f))
  ++ bs "]," ++ push_json_string (bs "runtime_dependencies") ++ bs ":["
  ++ separated (map print_dependency (tm_runtime_dependencies f))
  ++ bs "]," ++ push_json_string (bs "version") ++ bs ":" ++ push_json_string (tm_version f) ++ bs "}".

Definition into_inspected (f : TypedManifest) (canonical : list byte) (d : Digest.Sha256Digest)
  : InspectedPluginPackage := {|
  canonical_bytes := canonical; digest := d; publisher := tm_publisher f; plugin_id := tm_plugin_id f;
  version := tm_version f; capabilities := tm_capabilities f;
  requested_permissions := tm_requested_permissions f; runtime_dependencies := tm_runtime_dependencies f |}.

Definition inspect_manifest (bytes : list byte) : res InspectedPluginPackage :=
  if MAX_MANIFEST_BYTES <? blen bytes then Err InputTooLarge
  else if bool_decide (bytes = []) || bool_decide (firstn 3 bytes = [xef; xbb; xbf]) then Err MalformedJson
  else if negb (utf8_valid bytes) then Err MalformedJson
  else
    let? parsed := parse bytes in
    let? _ := enforce_field_collection_caps parsed in
    let? is_valid := ok_or InternalInvariant schema_validator in
    if negb (is_valid parsed) then Err ManifestInvalid
    else
      let? fields := from_json parsed in
      let canonical := print_manifest fields in
      if negb (bool_decide (canonical = bytes)) then Err NoncanonicalBytes
      else Ok (into_inspected fields canonical (sha256 bytes)).
End manifest.
End Manifest.
