(* ===== verification/PluginManifestFacts.v ===== *)
(** Which manifests are accepted.

    [manifest_wf] states the rules of a V1 manifest; [json_of] is the JSON tree of a
    typed manifest.  The bytes accepted are exactly the canonical prints of the
    well-formed manifests the schema admits. *)
From Stdlib Require Import ZArith Lia String.
From Stdlib Require Import Strings.Byte Init.Byte.
From stdpp Require Import prelude list sorting.
From S2P Require Import Prelude RustText Ord Utf8 Types ManifestJson ManifestJsonFacts ManifestJsonPrint PluginManifest.

Set Warnings "-register-all,-clear-no-such-hyp".

Module ManifestFacts.
Import Json JsonFacts JsonPrint Manifest.

(** ** Well-formed manifests *)

Record dependency_ok (d : RuntimeDependencyDeclaration) : Prop := {
  ok_id : valid_ascii_token (dependency_id d) 1 64 dependency_id_byte = true;
  ok_target : target d = bs "aarch64-apple-darwin";
  ok_length : 1 <= byte_length d <= 1073741824;
  ok_sha256 : Digest.wf (dep_sha256 d);
  ok_nonzero : dep_sha256 d <> repeat x00 32;
}.

Definition the_permission : PermissionRequest := {| kind := bs "broker.asset.read@1"; scope := bs "run-inputs" |}.
Definition total_bytes (ds : list RuntimeDependencyDeclaration) : Z := foldr Z.add 0 (map byte_length ds).

Section facts.
Context `{ManifestCrates}.

Record manifest_wf (f : TypedManifest) : Prop := {
  wf_publisher : valid_ascii_token (tm_publisher f) 1 128 publisher_byte = true;
  wf_plugin_id : valid_ascii_token (tm_plugin_id f) 1 128 plugin_id_byte = true;
  wf_version : check_version (tm_version f) = Ok tt;
  wf_capabilities : Forall (fun c => parse_capability c = Ok c) (tm_capabilities f);
  wf_capabilities_sorted : StronglySorted rlt (tm_capabilities f);
  wf_capabilities_length : blen (tm_capabilities f) <= MAX_CAPABILITIES;
  wf_permissions : tm_requested_permissions f = [] \/ tm_requested_permissions f = [the_permission];
  wf_dependencies : Forall dependency_ok (tm_runtime_dependencies f);
  wf_dependencies_sorted : StronglySorted (key_lt dependency_id) (tm_runtime_dependencies f);
  wf_dependencies_length : blen (tm_runtime_dependencies f) <= MAX_DEPENDENCIES;
  wf_entrypoint : entrypoints (tm_runtime_dependencies f) = 1;
  wf_total : total_bytes (tm_runtime_dependencies f) <= MAX_DEPENDENCY_BYTES;
}.

(** ** The JSON tree of a manifest *)

Definition json_permission (p : PermissionRequest) : JsonValue :=
  JObject [(bs "kind", JString (kind p)); (bs "scope", JString (scope p))].
Definition json_dependency (d : RuntimeDependencyDeclaration) : JsonValue :=
  JObject [(bs "byte_length", JNumber (byte_length d)); (bs "dependency_id", JString (dependency_id d));
           (bs "role", JString (as_manifest_str (role d))); (bs "sha256", JString (Digest.to_string (dep_sha256 d)));
           (bs "target", JString (target d))].
Definition json_of (f : TypedManifest) : JsonValue :=
  JObject [(bs "$schema", JString MANIFEST_SCHEMA_ID);
           (bs "capabilities", JArray (map JString (tm_capabilities f)));
           (bs "manifest_version", JNumber 1);
           (bs "plugin_id", JString (tm_plugin_id f));
           (bs "publisher", JString (tm_publisher f));
           (bs "requested_permissions", JArray (map json_permission (tm_requested_permissions f)));
           (bs "runtime_dependencies", JArray (map json_dependency (tm_runtime_dependencies f)));
           (bs "version", JString (tm_version f))].

(** Both sides are the same concatenation up to bracketing. *)
Ltac flat_app := repeat (rewrite <- ?app_assoc, ?app_nil_r; cbn [app]); done.

Lemma print_permission_json p : print_permission p = print_json (json_permission p).
Proof. destruct p. unfold print_permission, json_permission. cbn -[push_json_string]. flat_app. Qed.

Lemma print_dependency_json d : print_dependency d = print_json (json_dependency d).
Proof.
  destruct d. unfold print_dependency, json_dependency. cbn -[push_json_string dec_print Digest.to_string as_manifest_str].
  flat_app.
Qed.

Lemma print_manifest_json f : print_manifest f = print_json (json_of f).
Proof.
  unfold print_manifest, json_of. cbn [print_json map fst snd separated mbind list_bind].
  rewrite !map_map. cbn [print_json].
  rewrite (map_ext _ _ print_permission_json), (map_ext _ _ print_dependency_json).
  change (print_json (JNumber 1)) with (bs "1"). change (dec_print 1) with (bs "1").
  cbn -[push_json_string separated map print_json json_permission json_dependency MANIFEST_SCHEMA_ID].
  flat_app.
Qed.

(** ** Reading a well-formed manifest *)

Lemma valid_ascii_token_string_ok s lo hi f : valid_ascii_token s lo hi f = true -> hi <= MAX_STRING_BYTES -> string_ok s = true.
Proof.
  unfold valid_ascii_token, between, string_ok. intros Hs Hhi. bool_hyps.
  rewrite utf8_valid_is_ascii by done. apply Z.leb_le. lia.
Qed.

Lemma map_remove_hit {V} (k : list byte) (v : V) m : map_remove k ((k, v) :: m) = (Some v, m).
Proof. cbn [map_remove]. by rewrite bool_decide_eq_true_2. Qed.
Lemma map_remove_skip {V} (k k' : list byte) (v : V) m :
  bool_decide (k' = k) = false ->
  map_remove k ((k', v) :: m) = let '(r, m') := map_remove k m in (r, (k', v) :: m').
Proof. intros E. cbn [map_remove]. by rewrite E. Qed.

(** Evaluate the next [remove] on a map with literal keys, and the reader after it. *)
Ltac remove_field :=
  repeat first [rewrite map_remove_hit | rewrite map_remove_skip by (vm_compute; reflexivity)];
  cbv beta iota; cbn [require_string require_number require_array result_bind].

Lemma parse_role_print r : parse_role (as_manifest_str r) = Ok r.
Proof. by destruct r. Qed.

Lemma parse_dependency_json d : dependency_ok d -> parse_dependency (json_dependency d) = Ok d.
Proof.
  intros []. destruct d as [i r t n h]. cbn [dependency_id role target byte_length dep_sha256] in *. subst t.
  unfold json_dependency, parse_dependency. cbn [dependency_id role target byte_length dep_sha256].
  rewrite (proj2 (Z.eqb_eq _ 5)) by done. cbn [negb].
  remove_field. rewrite ok_id0. cbn [negb]. remove_field. rewrite parse_role_print. cbn [result_bind].
  remove_field. rewrite bool_decide_eq_true_2 by done. cbn [negb]. remove_field.
  unfold between. rewrite (proj2 (Z.leb_le 1 n)), (proj2 (Z.leb_le n _)) by lia. cbn [negb andb].
  remove_field. rewrite Digest.digest_parse_print by done. cbn [result_bind map_err].
  by rewrite bool_decide_eq_false_2, bool_decide_eq_true_2.
Qed.

Lemma collect_dependencies_json ds n :
  Forall dependency_ok ds -> 0 <= n -> n + total_bytes ds <= MAX_DEPENDENCY_BYTES ->
  collect_dependencies n (map json_dependency ds) = Ok ds.
Proof.
  intros Hall. revert n. induction Hall as [|d ds Hd Hds IH]; intros n Hn Ht; [done|].
  assert (H0 : 0 <= total_bytes ds).
  { unfold total_bytes. clear -Hds. induction Hds as [|x l []]; cbn; lia. }
  cbn [map collect_dependencies]. change (total_bytes (d :: ds)) with (byte_length d + total_bytes ds) in Ht.
  rewrite parse_dependency_json by done. cbn [result_bind]. destruct Hd as [_ _ Hlen _ _].
  unfold MAX_DEPENDENCY_BYTES in *.
  rewrite (proj2 (checked_add_Some _ _ _ (n + byte_length d))) by (unfold_max; lia). cbn [ok_or result_bind].
  rewrite (proj2 (Z.ltb_ge _ _)) by lia. rewrite IH by lia. done.
Qed.

Lemma collect_map {A B} (f : A -> res B) (g : B -> A) l :
  Forall (fun b => f (g b) = Ok b) l -> collect f (map g l) = Ok l.
Proof. induction 1 as [|b l Hb _ IH]; [done|]. cbn. rewrite Hb. cbn. by rewrite IH. Qed.

Lemma from_json_of f : manifest_wf f -> from_json (json_of f) = Ok f.
Proof.
  intros []. destruct f as [pub pid ver caps perms deps]. unfold json_of. cbn [tm_publisher tm_plugin_id tm_version
    tm_capabilities tm_requested_permissions tm_runtime_dependencies] in *.
  unfold from_json.
  rewrite (proj2 (Z.eqb_eq _ 8)) by done. cbn [negb].
  remove_field. rewrite bool_decide_eq_true_2 by done. cbn [negb].
  remove_field. rewrite Z.eqb_refl. cbn [negb].
  remove_field. rewrite wf_publisher0. cbn [negb].
  remove_field. rewrite wf_plugin_id0. cbn [negb].
  remove_field. rewrite wf_version0. cbn [result_bind].
  remove_field.
  rewrite collect_map by done. cbn [result_bind].
  rewrite (proj2 (Z.ltb_ge _ _)) by done.
  assert (Hcaps : StronglySorted (key_lt id) caps) by (apply key_sorted; by rewrite map_id).
  rewrite sort_by_id, strict_not_adjacent by done. remove_field.
  assert (Hp : (1 <? blen (map json_permission perms)) = false /\ collect parse_permission (map json_permission perms) = Ok perms
    /\ adjacent_equal permission_key (sort_by permission_key perms) = false /\ sort_by permission_key perms = perms)
    by (by destruct wf_permissions0 as [-> | ->]).
  destruct Hp as (Hp1 & Hp2 & Hp3 & Hp4). rewrite Hp1, Hp2. cbn [result_bind]. rewrite Hp3, Hp4. remove_field.
  assert (Hl : blen (map json_dependency deps) = blen deps) by (unfold blen; by rewrite length_map).
  rewrite Hl, (proj2 (Z.ltb_ge _ _)) by done.
  rewrite collect_dependencies_json by done. cbn [result_bind].
  rewrite sort_by_id, strict_not_adjacent by done. rewrite wf_entrypoint0.
  rewrite bool_decide_eq_false_2 by (intros ->; done). rewrite bool_decide_eq_true_2 by done. done.
Qed.

(** ** What was read is well formed *)

Lemma parse_capability_id s c : parse_capability s = Ok c -> c = s.
Proof.
  unfold parse_capability. intros E. passed E as E1.
  destruct (rsplit_once x40 s) as [[name ver]|]; [|done]. cbn in E. passed E as E2. by injection E.
Qed.

(** The next field was present and of the right kind. *)
Ltac read_field_as E x :=
  match type of E with
  | context [map_remove ?k ?m] => let o := fresh "o" in let m' := fresh "m" in destruct (map_remove k m) as [o m'];
      match type of E with
      | context [result_bind (?f o) _] => destruct (f o) as [x|]; [|discriminate E]; cbn [result_bind] in E
      end
  end.
Tactic Notation "read_field" hyp(E) "as" ident(x) := read_field_as E x.

Lemma parse_permission_value v p : parse_permission v = Ok p -> p = the_permission.
Proof.
  destruct v as [| | | | |m]; try done. cbn [parse_permission]. intros E. passed E as E1.
  read_field E as k.
  read_field E as s.
  passed E as E2. bool_hyps. injection E as <-. by subst.
Qed.

Lemma parse_dependency_ok v d : parse_dependency v = Ok d -> dependency_ok d.
Proof.
  destruct v as [| | | | |m]; try done. cbn [parse_dependency]. intros E. passed E as E1.
  read_field E as i.
  passed E as Ei. read_field E as rt.
  destruct (parse_role rt) as [r|]; [|done]. cbn [result_bind] in E.
  read_field E as t.
  passed E as Et. read_field E as n. passed E as En. read_field E as h.
  destruct (Digest.from_str h) as [sha|] eqn:Eh; [|done]. cbn [map_err result_bind] in E. passed E as Es.
  injection E as <-. unfold between in En. bool_hyps. destruct (Digest.digest_print_parse _ _ Eh) as [Hwf _].
  constructor; cbn; done.
Qed.

Lemma collect_ok {A B} (f : A -> res B) l r :
  collect f l = Ok r -> Forall (fun b => exists a, f a = Ok b) r /\ length r = length l.
Proof.
  revert r. induction l as [|a l IH]; cbn; intros r E; [injection E as <-; by split|].
  destruct (f a) as [b|] eqn:Eb; [|done]. cbn in E. destruct (collect f l) as [bs|]; [|done]. cbn in E.
  injection E as <-. destruct (IH bs eq_refl) as [? ?]. split; [constructor; eauto|]. cbn. by f_equal.
Qed.

Lemma collect_dependencies_ok l n r :
  collect_dependencies n l = Ok r -> 0 <= n <= MAX_DEPENDENCY_BYTES ->
  Forall dependency_ok r /\ length r = length l /\ n + total_bytes r <= MAX_DEPENDENCY_BYTES.
Proof.
  revert n r. induction l as [|v l IH]; cbn [collect_dependencies]; intros n r E Hn.
  { injection E as <-. split_and!; [done..|]. unfold total_bytes. cbn. lia. }
  destruct (parse_dependency v) as [d|] eqn:Ed; [|done]. cbn [result_bind] in E. apply parse_dependency_ok in Ed.
  destruct (checked_add U64_MAX n (byte_length d)) as [a|] eqn:Ea; [|done]. cbn [ok_or result_bind] in E.
  apply checked_add_Some in Ea as [-> _]. passed E as Emax. bool_hyps.
  destruct (collect_dependencies _ l) as [ds|] eqn:Ec; [|done]. cbn [result_bind] in E. injection E as <-.
  apply IH in Ec as (? & ? & ?); [|destruct Ed; lia]. split_and!; [by constructor|cbn; by f_equal|].
  change (total_bytes (d :: ds)) with (byte_length d + total_bytes ds). lia.
Qed.

Lemma total_bytes_perm l k : l ≡ₚ k -> total_bytes l = total_bytes k.
Proof. unfold total_bytes. induction 1; cbn in *; lia. Qed.

Lemma blen_perm {A} (l k : list A) : l ≡ₚ k -> blen l = blen k.
Proof. intros Hp. unfold blen. by rewrite Hp. Qed.

Lemma from_json_wf v f : from_json v = Ok f -> manifest_wf f.
Proof.
  destruct v as [| | | | |m]; try done. unfold from_json. intros E. passed E as E1.
  read_field E as sch.
  passed E as E2. read_field E as mv. passed E as E3.
  read_field E as pub.
  passed E as Epub. read_field E as pid. passed E as Epid.
  read_field E as ver.
  destruct (check_version ver) as [[]|] eqn:Ever; [|done]. cbn [result_bind] in E.
  read_field E as cj.
  destruct (collect _ cj) as [caps|] eqn:Ecaps; [|done]. cbn [result_bind] in E. passed E as Ecl. passed E as Ecd.
  read_field E as pj. passed E as Epl. destruct (collect parse_permission pj) as [ps|] eqn:Eps; [|done].
  cbn [result_bind] in E. passed E as Epd.
  read_field E as dj. passed E as Edl. destruct (collect_dependencies 0 dj) as [ds|] eqn:Eds; [|done].
  cbn [result_bind] in E. passed E as Edd. passed E as Er. injection E as <-. bool_hyps.
  apply collect_ok in Ecaps as [Hcaps _]. apply collect_ok in Eps as [Hps Hpsl].
  apply collect_dependencies_ok in Eds as (Hds & Hdsl & Htot); [|done].
  pose proof (sort_by_perm dependency_id ds) as Hperm.
  constructor; cbn [tm_publisher tm_plugin_id tm_version tm_capabilities tm_requested_permissions tm_runtime_dependencies]; try done.
  - rewrite sort_by_perm. eapply Forall_impl; [exact Hcaps|]. cbv beta. intros c (w & Hw).
    destruct (require_string (Some w)) as [s|]; [|done]. cbn in Hw.
    pose proof (parse_capability_id _ _ Hw). by subst.
  - apply sort_by_strict, key_sorted in Ecd. by rewrite map_id in Ecd.
  - by rewrite (blen_perm _ _ (sort_by_perm id caps)).
  - unfold blen in Epl. destruct ps as [|p [|q ps]]; [by left| |cbn in Hpsl; lia]. right. cbn.
    apply Forall_cons in Hps as [(w & Hw%parse_permission_value) _]. by subst.
  - by rewrite Hperm.
  - by apply sort_by_strict.
  - rewrite (blen_perm _ _ Hperm). unfold blen in *. lia.
  - rewrite (total_bytes_perm _ _ Hperm). lia.
Qed.

(** ** The tree of a manifest is within the reader's limits *)

Lemma sum_const {A} (f : A -> Z) l c : Forall (fun x => f x = c) l -> foldr Z.add 0 (map f l) = c * blen l.
Proof. induction 1 as [|x l Hx _ IH]; [rewrite (@blen_nil A); cbn; lia|]. cbn [map foldr]. rewrite blen_cons, IH, Hx. lia. Qed.
Lemma max_const {A} (f : A -> Z) l c : 0 <= c -> Forall (fun x => f x = c) l -> foldr Z.max 0 (map f l) <= c.
Proof. intros Hc. induction 1 as [|x l Hx _ IH]; cbn; lia. Qed.
Lemma forallb_Forall_true {A} (f : A -> bool) l : Forall (fun x => f x = true) l -> forallb f l = true.
Proof. induction 1 as [|x l Hx _ IH]; [done|]. cbn. by rewrite Hx. Qed.

Lemma ascii_string_ok s : is_ascii s = true -> blen s <= MAX_STRING_BYTES -> string_ok s = true.
Proof. intros Ha Hl. unfold string_ok. rewrite utf8_valid_is_ascii by done. by apply Z.leb_le. Qed.

Lemma capability_string_ok c : parse_capability c = Ok c -> string_ok c = true.
Proof.
  unfold parse_capability. intros E. passed E as E1. bool_hyps. apply ascii_string_ok; [done|].
  unfold MAX_STRING_BYTES. lia.
Qed.

Lemma version_string_ok v : check_version v = Ok tt -> string_ok v = true.
Proof.
  unfold check_version. intros E. passed E as E1. bool_hyps. apply ascii_string_ok; [done|].
  unfold MAX_STRING_BYTES. lia.
Qed.

Lemma json_dependency_ok d : dependency_ok d ->
  json_ok (json_dependency d) = true /\ json_nodes (json_dependency d) = 6 /\ json_depth (json_dependency d) = 1.
Proof.
  intros [Hid Ht Hlen Hsha _]. split_and!; [|done|done]. destruct d as [i r t n h].
  cbn [dependency_id role target byte_length dep_sha256] in *. subst t.
  assert (Hi : string_ok i = true) by (by eapply valid_ascii_token_string_ok).
  assert (Hr : string_ok (as_manifest_str r) = true) by by destruct r.
  assert (Hh : string_ok (Digest.to_string h) = true).
  { apply ascii_string_ok; [apply to_hex_ascii|]. unfold Digest.to_string, blen. rewrite to_hex_length, Hsha. done. }
  assert (Hn : between 0 U64_MAX n = true) by (unfold between; unfold_max; apply andb_true_iff; rewrite !Z.leb_le; lia).
  unfold json_dependency. cbn -[string_ok increasing between as_manifest_str Digest.to_string].
  by rewrite Hi, Hr, Hh, Hn.
Qed.

Lemma json_of_wf f : manifest_wf f -> json_wf (json_of f) = true.
Proof.
  intros []. destruct f as [pub pid ver caps perms deps]. cbn [tm_publisher tm_plugin_id tm_version
    tm_capabilities tm_requested_permissions tm_runtime_dependencies] in *.
  pose proof (valid_ascii_token_string_ok _ _ _ _ wf_publisher0 ltac:(done)) as Hpub.
  pose proof (valid_ascii_token_string_ok _ _ _ _ wf_plugin_id0 ltac:(done)) as Hpid.
  pose proof (version_string_ok _ wf_version0) as Hver.
  assert (Hcaps : forallb json_ok (map JString caps) = true).
  { apply forallb_Forall_true, Forall_map. eapply Forall_impl; [exact wf_capabilities0|]. apply capability_string_ok. }
  assert (Hdeps : forallb json_ok (map json_dependency deps) = true).
  { apply forallb_Forall_true, Forall_map. eapply Forall_impl; [exact wf_dependencies0|]. intros d Hd. by apply json_dependency_ok. }
  assert (Hd : Forall (fun v => json_nodes v = 6) (map json_dependency deps) /\ Forall (fun v => json_depth v = 1) (map json_dependency deps)).
  { split; apply Forall_map; (eapply Forall_impl; [exact wf_dependencies0|]); intros d Hd; by apply json_dependency_ok. }
  assert (Hc : Forall (fun v => json_nodes v = 1) (map JString caps) /\ Forall (fun v => json_depth v = 0) (map JString caps)).
  { split; apply Forall_map, Forall_true; done. }
  destruct Hd as [Hdn Hdd], Hc as [Hcn Hcd].
  pose proof (sum_const _ _ _ Hdn) as Sdn. pose proof (sum_const _ _ _ Hcn) as Scn.
  pose proof (max_const _ _ 1 ltac:(done) Hdd) as Mdd. pose proof (max_const _ _ 0 ltac:(done) Hcd) as Mcd.
  assert (Lc : blen (map JString caps) = blen caps) by (unfold blen; by rewrite length_map).
  assert (Ld : blen (map json_dependency deps) = blen deps) by (unfold blen; by rewrite length_map).
  rewrite Lc in Scn. rewrite Ld in Sdn. unfold MAX_CAPABILITIES, MAX_DEPENDENCIES in *.
  unfold json_wf, json_of. cbn [tm_publisher tm_plugin_id tm_version
    tm_capabilities tm_requested_permissions tm_runtime_dependencies].
  assert (Hp : forallb json_ok (map json_permission perms) = true /\ foldr Z.add 0 (map json_nodes (map json_permission perms)) <= 3
    /\ foldr Z.max 0 (map json_depth (map json_permission perms)) <= 1 /\ blen (map json_permission perms) <= 1)
    by (by destruct wf_permissions0 as [-> | ->]).
  destruct Hp as (Hp1 & Hp2 & Hp3 & Hp4).
  apply andb_true_iff; split; [apply andb_true_iff; split; [apply andb_true_iff; split|]|].
  - cbn -[string_ok increasing forallb map MANIFEST_SCHEMA_ID]. cbn [forallb fst snd json_ok].
    rewrite Hpub, Hpid, Hver, Hcaps, Hdeps, Hp1. reflexivity.
  - apply Z.leb_le. cbn [json_nodes map foldr snd]. rewrite Scn, Sdn. unfold MAX_JSON_NODES. lia.
  - apply Z.leb_le. cbn [json_depth map foldr snd]. unfold MAX_JSON_DEPTH. lia.
  - cbn [fields_ok forallb fst snd].
    change (field_array_limit (bs "capabilities")) with (Some 64).
    change (field_array_limit (bs "requested_permissions")) with (Some 1).
    change (field_array_limit (bs "runtime_dependencies")) with (Some 32).
    cbn [within]. rewrite Lc, Ld, !(proj2 (Z.leb_le _ _)) by done. reflexivity.
Qed.

Lemma caps_enforced f : manifest_wf f -> enforce_field_collection_caps (json_of f) = Ok tt.
Proof.
  intros []. unfold enforce_field_collection_caps, json_of. cbn [existsb].
  change (map_get (bs "capabilities") _) with (Some (JArray (map JString (tm_capabilities f)))).
  change (map_get (bs "requested_permissions") _) with (Some (JArray (map json_permission (tm_requested_permissions f)))).
  change (map_get (bs "runtime_dependencies") _) with (Some (JArray (map json_dependency (tm_runtime_dependencies f)))).
  cbv beta iota. unfold blen in *. rewrite !length_map. rewrite !(proj2 (Z.ltb_ge _ _)); [done|done| |done].
  by destruct wf_permissions0 as [-> | ->].
Qed.

Lemma print_json_object_head m : exists t, print_json (JObject m) = x7b :: t.
Proof. cbn [print_json app]. eauto. Qed.

Lemma inspect_accepts f valid :
  manifest_wf f -> schema_validator = Some valid -> valid (json_of f) = true -> blen (print_manifest f) <= MAX_MANIFEST_BYTES ->
  inspect_manifest (print_manifest f) = Ok (into_inspected f (print_manifest f) (sha256 (print_manifest f))).
Proof.
  intros Hwf Hs Hv Hl. pose proof (json_of_wf f Hwf) as Hj. unfold inspect_manifest.
  rewrite (proj2 (Z.ltb_ge _ _)) by done.
  destruct (print_json_object_head [(bs "$schema", JString MANIFEST_SCHEMA_ID);
           (bs "capabilities", JArray (map JString (tm_capabilities f)));
           (bs "manifest_version", JNumber 1);
           (bs "plugin_id", JString (tm_plugin_id f));
           (bs "publisher", JString (tm_publisher f));
           (bs "requested_permissions", JArray (map json_permission (tm_requested_permissions f)));
           (bs "runtime_dependencies", JArray (map json_dependency (tm_runtime_dependencies f)));
           (bs "version", JString (tm_version f))]) as (t & Ht).
  fold (json_of f) in Ht. rewrite <- print_manifest_json in Ht.
  assert (H3 : firstn 3 (print_manifest f) <> [xef; xbb; xbf]) by (rewrite Ht; done).
  rewrite bool_decide_eq_false_2 by (rewrite Ht; done). rewrite bool_decide_eq_false_2 by done. cbn [orb].
  assert (Hu : utf8_valid (print_manifest f) = true).
  { rewrite print_manifest_json. apply print_json_text. unfold json_wf in Hj. by bool_hyps. }
  rewrite Hu. cbn [negb]. rewrite print_manifest_json at 1. rewrite parse_print by done. cbn [result_bind].
  rewrite caps_enforced by done. cbn [result_bind]. rewrite Hs. cbn [ok_or result_bind]. rewrite Hv. cbn [negb].
  rewrite from_json_of by done. cbn [result_bind]. rewrite bool_decide_eq_true_2 by done. done.
Qed.

Lemma inspect_accepted bytes pkg :
  inspect_manifest bytes = Ok pkg ->
  exists f valid, manifest_wf f /\ schema_validator = Some valid /\ valid (json_of f) = true /\
    blen bytes <= MAX_MANIFEST_BYTES /\ bytes = print_manifest f /\ pkg = into_inspected f bytes (sha256 bytes).
Proof.
  unfold inspect_manifest. intros E. passed E as E1. passed E as E2. passed E as E3.
  destruct (parse bytes) as [v|] eqn:Ep; [|done]. cbn [result_bind] in E.
  destruct (enforce_field_collection_caps v) as [[]|]; [|done]. cbn [result_bind] in E.
  destruct schema_validator as [valid|] eqn:Es; [|done]. cbn [ok_or result_bind] in E. passed E as Ev.
  destruct (from_json v) as [f|] eqn:Ef; [|done]. cbn [result_bind] in E. passed E as Ec. bool_hyps. injection E as <-.
  pose proof (from_json_wf _ _ Ef) as Hwf. exists f, valid.
  assert (Hv : v = json_of f).
  { pose proof (parse_print _ (json_of_wf f Hwf)) as Hp. rewrite <- print_manifest_json, Ec, Ep in Hp. by injection Hp. }
  subst v. split_and!; [done..|]. by rewrite Ec.
Qed.
End facts.

(** The golden manifest of the repository's fixtures, with the crates replaced by
    functions that agree with them on it. *)
Module Golden.
#[global] Instance crates : ManifestCrates := {|
  schema_validator := Some (fun _ => true);
  semver_parse v := if bool_decide (v = bs "1.0.0") then Some ([], v) else None;
  sha256 _ := repeat x11 32 |}.
Definition manifest (caps : list CapabilityId) : TypedManifest := {|
  tm_publisher := bs "example-untrusted-label"; tm_plugin_id := bs "example.transcoder"; tm_version := bs "1.0.0";
  tm_capabilities := caps; tm_requested_permissions := [the_permission];
  tm_runtime_dependencies := [{| dependency_id := bs "entrypoint"; role := PluginEntrypoint;
    target := bs "aarch64-apple-darwin"; byte_length := 1234; dep_sha256 := repeat x11 32 |}] |}.
Definition one : list CapabilityId := [bs "media.video.image_to_video@1"].
Definition two : list CapabilityId := [bs "media.audio.mix@1"; bs "media.video.image_to_video@1"].
Definition package (caps : list CapabilityId) : InspectedPluginPackage :=
  into_inspected (manifest caps) (print_manifest (manifest caps)) (repeat x11 32).

Example golden_inspected :
  inspect_manifest (print_manifest (manifest one)) = Ok (package one) /\
  inspect_manifest (print_manifest (manifest two)) = Ok (package two) /\
  inspect_manifest (x20 :: print_manifest (manifest one)) = Err NoncanonicalBytes /\
  inspect_manifest (print_manifest (manifest (reverse two))) = Err NoncanonicalBytes /\
  inspect_manifest [] = Err MalformedJson.
Proof. split_and!; vm_compute; reflexivity. Qed.
End Golden.

(** C34: A plugin package is accepted exactly when its bytes are the canonical print
    of a well-formed V1 manifest that the published schema admits: valid publisher,
    identifier and version tokens, sorted duplicate-free capabilities, at most the
    one known permission, sorted dependencies with exactly one entry point and at
    most 4 GiB in all.  The inspected package is then that manifest with those bytes
    and their digest, so one package identity has one byte string. *)
Theorem accepted_manifests (C : ManifestCrates) (bytes : list byte) (pkg : InspectedPluginPackage) :
  inspect_manifest bytes = Ok pkg <->
  exists f valid, manifest_wf f /\ schema_validator = Some valid /\ valid (json_of f) = true /\
    blen bytes <= MAX_MANIFEST_BYTES /\ bytes = print_manifest f /\ pkg = into_inspected f bytes (sha256 bytes).
Proof.
  split; [apply inspect_accepted|]. intros (f & valid & Hwf & Hs & Hv & Hl & -> & ->). by eapply inspect_accepts.
Qed.
End ManifestFacts.
