(* ===== verification/PermissionDiff.v ===== *)
(** Permission differences between two inspected packages: permission_diff.rs of
    mengxia-plugin-security.

    [diff_sorted] and [diff_dependencies] are the two merges over sorted slices; a
    pair of indices is the pair of suffixes still to be merged, and the vector of
    changes is threaded through. *)
From Stdlib Require Import ZArith Lia.
From Stdlib Require Import Strings.Byte Init.Byte.
From stdpp Require Import prelude list sorting.
From S2P Require Import Prelude RustText Ord Utf8 Types ManifestJson ManifestJsonFacts ManifestJsonPrint PluginManifest PluginManifestFacts.

Set Warnings "-register-all,-clear-no-such-hyp".

Module PermissionDiff.
Import Manifest ManifestFacts.

Inductive PermissionDiffClassification := Unchanged | Contraction | Expansion | IncomparableDeny.
Inductive IncomparableReason := NoReason | PackageIdentityMismatch | ComparatorUnavailable.
Inductive PermissionChangeNamespace := Permission | Capability | RuntimeDependency.
Inductive PermissionChangeDisposition := Added | Removed | Changed.
#[global] Instance classification_eq_dec : EqDecision PermissionDiffClassification.
Proof. solve_decision. Defined.
#[global] Instance disposition_eq_dec : EqDecision PermissionChangeDisposition.
Proof. solve_decision. Defined.

Record PermissionChange := {
  namespace : PermissionChangeNamespace; identifier : list byte; disposition : PermissionChangeDisposition }.
Record PermissionDiff := {
  classification : PermissionDiffClassification; reason : IncomparableReason; changes : list PermissionChange }.

(** Derived orders: enums by declaration order. *)
Definition namespace_rank (n : PermissionChangeNamespace) : Z :=
  match n with Permission => 0 | Capability => 1 | RuntimeDependency => 2 end.
Definition disposition_rank (d : PermissionChangeDisposition) : Z :=
  match d with Added => 0 | Removed => 1 | Changed => 2 end.
Definition change_key (c : PermissionChange) : Z * (list byte * Z) :=
  (namespace_rank (namespace c), (identifier c, disposition_rank (disposition c))).
#[global] Instance permission_key_inj : Inj (=) (=) permission_key.
Proof. intros [] [] [= -> ->]. done. Qed.
#[global] Instance permission_ord : RustOrd PermissionRequest := rcmp_by permission_key _.

Definition push_change (cs : list PermissionChange) (n : PermissionChangeNamespace) (d : PermissionChangeDisposition)
    (i : list byte) : list PermissionChange := cs ++ [{| namespace := n; identifier := i; disposition := d |}].
Definition push_dependency (cs : list PermissionChange) (d : PermissionChangeDisposition)
    (dep : RuntimeDependencyDeclaration) : list PermissionChange := push_change cs RuntimeDependency d (dependency_id dep).

Section diff_sorted.
Context {T : Type} `{RustOrd T} (ns : PermissionChangeNamespace) (ident : T -> list byte).
Fixpoint diff_sorted (old candidate : list T) : list PermissionChange -> list PermissionChange :=
  (fix go (candidate : list T) (cs : list PermissionChange) : list PermissionChange :=
     match old, candidate with
     | lhs :: old', rhs :: candidate' =>
         match rcmp lhs rhs with
         | Lt => diff_sorted old' candidate (push_change cs ns Removed (ident lhs))
         | Eq => diff_sorted old' candidate' cs
         | Gt => go candidate' (push_change cs ns Added (ident rhs))
         end
     | lhs :: old', [] => diff_sorted old' [] (push_change cs ns Removed (ident lhs))
     | [], rhs :: candidate' => go candidate' (push_change cs ns Added (ident rhs))
     | [], [] => cs
     end) candidate.
End diff_sorted.

Fixpoint diff_dependencies (old candidate : list RuntimeDependencyDeclaration)
  : list PermissionChange -> list PermissionChange :=
  (fix go (candidate : list RuntimeDependencyDeclaration) (cs : list PermissionChange) : list PermissionChange :=
     match old, candidate with
     | lhs :: old', rhs :: candidate' =>
         match rcmp (dependency_id lhs) (dependency_id rhs) with
         | Lt => diff_dependencies old' candidate (push_dependency cs Removed lhs)
         | Eq => diff_dependencies old' candidate'
                   (if negb (bool_decide (lhs = rhs)) then push_dependency cs Changed rhs else cs)
         | Gt => go candidate' (push_dependency cs Added rhs)
         end
     | lhs :: old', [] => diff_dependencies old' [] (push_dependency cs Removed lhs)
     | [], rhs :: candidate' => go candidate' (push_dependency cs Added rhs)
     | [], [] => cs
     end) candidate.

Definition classify (cs : list PermissionChange) : PermissionDiffClassification :=
  if existsb (fun c => bool_decide (disposition c = Added) || bool_decide (disposition c = Changed)) cs then Expansion
  else match cs with [] => Unchanged | _ => Contraction end.

Definition diff_permissions (old candidate : InspectedPluginPackage) : PermissionDiff :=
  if negb (bool_decide (publisher old = publisher candidate)) || negb (bool_decide (plugin_id old = plugin_id candidate))
  then {| classification := IncomparableDeny; reason := PackageIdentityMismatch; changes := [] |}
  else
    let cs := [] in
    let cs := diff_sorted Permission canonical_identifier (requested_permissions old) (requested_permissions candidate) cs in
    let cs := diff_sorted Capability id (capabilities old) (capabilities candidate) cs in
    let cs := diff_dependencies (runtime_dependencies old) (runtime_dependencies candidate) cs in
    let cs := sort_by change_key cs in
    {| classification := classify cs; reason := NoReason; changes := cs |}.

(** ** The merges *)

Definition change (ns : PermissionChangeNamespace) (d : PermissionChangeDisposition) (i : list byte) : PermissionChange :=
  {| namespace := ns; identifier := i; disposition := d |}.

(** The head of a strictly sorted list is in no list it is below. *)
Lemma below_not_in {T K} `{RustOrd K} (key : T -> K) (x : T) l :
  Forall (fun y => rlt (key x) (key y)) l -> forall y, y ∈ l -> key y <> key x.
Proof.
  intros Hl y Hy E. apply (proj1 (Forall_forall _ _) Hl) in Hy. rewrite E in Hy.
  by apply irreflexivity in Hy; [|apply rlt_irrefl].
Qed.

(** In a strictly sorted list everything is at or above its head. *)
Lemma above_head {T K} `{RustOrd K} (key : T -> K) (x y : T) l :
  StronglySorted (key_lt key) (y :: l) -> rlt (key x) (key y) -> Forall (fun z => rlt (key x) (key z)) (y :: l).
Proof.
  intros [_ Hl]%StronglySorted_inv Hxy. constructor; [done|]. eapply Forall_impl; [exact Hl|].
  intros z Hz. by apply (rcmp_trans _ (key y)).
Qed.

(** Some element of [l] has the key [k]. *)
Definition has_key {T K} (key : T -> K) (k : K) (l : list T) : Prop := exists x, x ∈ l /\ key x = k.

Lemma has_key_cons {T K} (key : T -> K) k x l : has_key key k (x :: l) <-> key x = k \/ has_key key k l.
Proof. unfold has_key. set_solver. Qed.

(** The reference: walk two sorted lists by key, collecting the changes. *)
Section walk.
Context {T K : Type} `{RustOrd K} (key : T -> K) (removed added : T -> PermissionChange) (same : T -> T -> list PermissionChange).
Fixpoint walk (old candidate : list T) : list PermissionChange :=
  (fix go (candidate : list T) : list PermissionChange :=
     match old, candidate with
     | lhs :: old', rhs :: candidate' =>
         match rcmp (key lhs) (key rhs) with
         | Lt => removed lhs :: walk old' candidate
         | Eq => same lhs rhs ++ walk old' candidate'
         | Gt => added rhs :: go candidate'
         end
     | lhs :: old', [] => removed lhs :: walk old' []
     | [], rhs :: candidate' => added rhs :: go candidate'
     | [], [] => []
     end) candidate.

(** Induction that follows the walk. *)
Lemma walk_ind (P : list T -> list T -> Prop) :
  P [] [] ->
  (forall x l, P l [] -> P (x :: l) []) -> (forall y k, P [] k -> P [] (y :: k)) ->
  (forall x l y k, rcmp (key x) (key y) = Lt -> P l (y :: k) -> P (x :: l) (y :: k)) ->
  (forall x l y k, rcmp (key x) (key y) = Gt -> P (x :: l) k -> P (x :: l) (y :: k)) ->
  (forall x l y k, key x = key y -> P l k -> P (x :: l) (y :: k)) ->
  forall l k, P l k.
Proof.
  intros H00 Hl Hk Hlt Hgt Heq l. induction l as [|x l IHl]; intros k.
  - induction k; auto.
  - induction k as [|y k IHk]; [auto|]. destruct (rcmp (key x) (key y)) eqn:E; auto.
    apply Heq; [by apply rcmp_eq|auto].
Qed.

(** The changes the walk should report. *)
Definition reported (l k : list T) (c : PermissionChange) : Prop :=
  (exists x, x ∈ l /\ ~ has_key key (key x) k /\ c = removed x) \/
  (exists y, y ∈ k /\ ~ has_key key (key y) l /\ c = added y) \/
  (exists x y, x ∈ l /\ y ∈ k /\ key x = key y /\ c ∈ same x y).

Lemma reported_removed x l k c :
  (forall y, y ∈ k -> key y <> key x) -> reported (x :: l) k c <-> c = removed x \/ reported l k c.
Proof.
  intros Hx. assert (Hnx : ~ has_key key (key x) k) by (intros (y & ? & ?); naive_solver).
  unfold reported. split.
  - intros [(z & Hz & ? & ->)|[(z & Hz & Hn & ->)|(z & y & Hz & Hy & E & ?)]].
    + apply elem_of_cons in Hz as [-> | ?]; [by left|right; left; eauto].
    + right; right; left. exists z. rewrite has_key_cons in Hn. naive_solver.
    + apply elem_of_cons in Hz as [-> | ?]; [naive_solver|right; right; right; eauto 7].
  - intros [-> |[(z & Hz & ? & ->)|[(z & Hz & Hn & ->)|(z & y & Hz & Hy & E & ?)]]].
    + left. exists x. split_and!; [left|done..].
    + left. exists z. split_and!; [by right|done..].
    + right; left. exists z. rewrite has_key_cons. split_and!; [done| |done]. intros [?|?]; [by eapply Hx|done].
    + right; right. exists z, y. split_and!; [by right|done..].
Qed.

Lemma reported_added y l k c :
  (forall x, x ∈ l -> key x <> key y) -> reported l (y :: k) c <-> c = added y \/ reported l k c.
Proof.
  intros Hy. assert (Hny : ~ has_key key (key y) l) by (intros (x & ? & ?); naive_solver).
  unfold reported. split.
  - intros [(z & Hz & Hn & ->)|[(z & Hz & ? & ->)|(x & z & Hx & Hz & E & ?)]].
    + right; left. exists z. rewrite has_key_cons in Hn. naive_solver.
    + apply elem_of_cons in Hz as [-> | ?]; [by left|right; right; left; eauto].
    + apply elem_of_cons in Hz as [-> | ?]; [naive_solver|right; right; right; eauto 7].
  - intros [-> |[(z & Hz & Hn & ->)|[(z & Hz & ? & ->)|(x & z & Hx & Hz & E & ?)]]].
    + right; left. exists y. split_and!; [left|done..].
    + left. exists z. rewrite has_key_cons. split_and!; [done| |done]. intros [?|?]; [by eapply Hy|done].
    + right; left. exists z. split_and!; [by right|done..].
    + right; right. exists x, z. split_and!; [done|by right|done..].
Qed.

Lemma reported_same x y l k c :
  key x = key y -> (forall z, z ∈ l -> key z <> key x) -> (forall z, z ∈ k -> key z <> key y) ->
  reported (x :: l) (y :: k) c <-> c ∈ same x y \/ reported l k c.
Proof.
  intros E Hl Hk. unfold reported. split.
  - intros [(z & Hz & Hn & ->)|[(z & Hz & Hn & ->)|(a & b & Ha & Hb & Eab & Hc)]].
    + rewrite has_key_cons in Hn. apply elem_of_cons in Hz as [-> | ?]; [naive_solver|].
      right; left. exists z. naive_solver.
    + rewrite has_key_cons in Hn. apply elem_of_cons in Hz as [-> | ?]; [naive_solver|].
      right; right; left. exists z. naive_solver.
    + apply elem_of_cons in Ha as [-> | Ha], Hb as [-> | Hb]; [by left| | |right; right; right; eauto 7].
      * exfalso. apply (Hk b Hb). congruence.
      * exfalso. apply (Hl a Ha). congruence.
  - intros [Hc|[(z & Hz & Hn & ->)|[(z & Hz & Hn & ->)|(a & b & Ha & Hb & Eab & Hc)]]].
    + right; right. exists x, y. split_and!; [left|left|done..].
    + left. exists z. rewrite has_key_cons. split_and!; [by right| |done]. intros [?|?]; [|done]. apply (Hl z Hz). congruence.
    + right; left. exists z. rewrite has_key_cons. split_and!; [by right| |done]. intros [?|?]; [|done]. apply (Hk z Hz). congruence.
    + right; right. exists a, b. split_and!; [by right..|done|done].
Qed.

Lemma walk_elem c l k :
  StronglySorted (key_lt key) l -> StronglySorted (key_lt key) k -> c ∈ walk l k <-> reported l k c.
Proof.
  revert l k. apply (walk_ind (fun l k => StronglySorted (key_lt key) l -> StronglySorted (key_lt key) k ->
    c ∈ walk l k <-> reported l k c)).
  - intros _ _. unfold reported. cbn. set_solver.
  - intros x l IH Hl Hk. change (walk (x :: l) []) with (removed x :: walk l []).
    rewrite elem_of_cons, reported_removed by set_solver. apply StronglySorted_inv in Hl as [Hl _]. by rewrite IH.
  - intros y k IH Hl Hk. change (walk [] (y :: k)) with (added y :: walk [] k).
    rewrite elem_of_cons, reported_added by set_solver. apply StronglySorted_inv in Hk as [Hk _]. by rewrite IH.
  - intros x l y k E IH Hl Hk. cbn [walk]. rewrite E, elem_of_cons.
    rewrite reported_removed by (by apply below_not_in, above_head).
    apply StronglySorted_inv in Hl as [Hl _]. by rewrite IH.
  - intros x l y k E IH Hl Hk.
    assert (walk (x :: l) (y :: k) = added y :: walk (x :: l) k) as -> by (cbn [walk]; by rewrite E).
    rewrite elem_of_cons. apply rcmp_gt in E.
    rewrite reported_added by (by apply below_not_in, above_head).
    apply StronglySorted_inv in Hk as [Hk _]. by rewrite IH.
  - intros x l y k E IH [Hl Hx]%StronglySorted_inv [Hk Hy]%StronglySorted_inv. cbn [walk].
    rewrite (proj2 (rcmp_eq _ _) E), elem_of_app, reported_same; [by rewrite IH|done|by apply below_not_in|by apply below_not_in].
Qed.
End walk.

Lemma diff_sorted_walk {T} `{RustOrd T} ns (ident : T -> list byte) l k cs :
  diff_sorted ns ident l k cs
  = cs ++ walk id (fun x => change ns Removed (ident x)) (fun y => change ns Added (ident y)) (fun _ _ => []) l k.
Proof.
  revert k cs. induction l as [|x l IHl]; intros k.
  - induction k as [|y k IHk]; intros cs; [by rewrite app_nil_r|].
    change (diff_sorted ns ident [] (y :: k) cs) with (diff_sorted ns ident [] k (push_change cs ns Added (ident y))).
    rewrite IHk. unfold push_change. by rewrite <- app_assoc.
  - induction k as [|y k IHk]; intros cs.
    + change (diff_sorted ns ident (x :: l) [] cs) with (diff_sorted ns ident l [] (push_change cs ns Removed (ident x))).
      rewrite IHl. unfold push_change. by rewrite <- app_assoc.
    + cbn [diff_sorted walk]. change (id x) with x. change (id y) with y. destruct (rcmp x y).
      * apply IHl.
      * rewrite IHl. unfold push_change. by rewrite <- app_assoc.
      * rewrite IHk. unfold push_change. by rewrite <- app_assoc.
Qed.

Lemma diff_dependencies_walk l k cs :
  diff_dependencies l k cs
  = cs ++ walk dependency_id (fun x => change RuntimeDependency Removed (dependency_id x))
      (fun y => change RuntimeDependency Added (dependency_id y))
      (fun x y => if negb (bool_decide (x = y)) then [change RuntimeDependency Changed (dependency_id y)] else []) l k.
Proof.
  revert k cs. induction l as [|x l IHl]; intros k.
  - induction k as [|y k IHk]; intros cs; [by rewrite app_nil_r|].
    change (diff_dependencies [] (y :: k) cs) with (diff_dependencies [] k (push_dependency cs Added y)).
    rewrite IHk. unfold push_dependency, push_change. by rewrite <- app_assoc.
  - induction k as [|y k IHk]; intros cs.
    + change (diff_dependencies (x :: l) [] cs) with (diff_dependencies l [] (push_dependency cs Removed x)).
      rewrite IHl. unfold push_dependency, push_change. by rewrite <- app_assoc.
    + cbn [diff_dependencies walk]. destruct (rcmp (dependency_id x) (dependency_id y)).
      * rewrite IHl. destruct (negb _); [|done]. unfold push_dependency, push_change. by rewrite <- app_assoc.
      * rewrite IHl. unfold push_dependency, push_change. by rewrite <- app_assoc.
      * rewrite IHk. unfold push_dependency, push_change. by rewrite <- app_assoc.
Qed.

(** ** The specification: what changed between two packages *)

Inductive asked_change (old candidate : InspectedPluginPackage) : PermissionChange -> Prop :=
| permission_added p : p ∈ requested_permissions candidate -> p ∉ requested_permissions old ->
    asked_change old candidate (change Permission Added (canonical_identifier p))
| permission_removed p : p ∈ requested_permissions old -> p ∉ requested_permissions candidate ->
    asked_change old candidate (change Permission Removed (canonical_identifier p))
| capability_added c : c ∈ capabilities candidate -> c ∉ capabilities old ->
    asked_change old candidate (change Capability Added c)
| capability_removed c : c ∈ capabilities old -> c ∉ capabilities candidate ->
    asked_change old candidate (change Capability Removed c)
| dependency_added d : d ∈ runtime_dependencies candidate ->
    ~ has_key dependency_id (dependency_id d) (runtime_dependencies old) ->
    asked_change old candidate (change RuntimeDependency Added (dependency_id d))
| dependency_removed d : d ∈ runtime_dependencies old ->
    ~ has_key dependency_id (dependency_id d) (runtime_dependencies candidate) ->
    asked_change old candidate (change RuntimeDependency Removed (dependency_id d))
| dependency_changed d d' : d ∈ runtime_dependencies old -> d' ∈ runtime_dependencies candidate ->
    dependency_id d = dependency_id d' -> d <> d' ->
    asked_change old candidate (change RuntimeDependency Changed (dependency_id d')).

(** Everything [candidate] asks for, [old] already asked for. *)
Definition covered (candidate old : InspectedPluginPackage) : Prop :=
  requested_permissions candidate ⊆ requested_permissions old /\ capabilities candidate ⊆ capabilities old /\
  runtime_dependencies candidate ⊆ runtime_dependencies old.

(** The slices an inspected package holds are strictly sorted. *)
Record sorted_package (p : InspectedPluginPackage) : Prop := {
  sorted_permissions : StronglySorted (key_lt id) (requested_permissions p);
  sorted_capabilities : StronglySorted (key_lt id) (capabilities p);
  sorted_dependencies : StronglySorted (key_lt dependency_id) (runtime_dependencies p);
}.

Lemma has_key_id {T} (x : T) l : has_key id x l <-> x ∈ l.
Proof. unfold has_key, id. naive_solver. Qed.

Lemma changes_elem old candidate c :
  sorted_package old -> sorted_package candidate ->
  publisher old = publisher candidate -> plugin_id old = plugin_id candidate ->
  c ∈ changes (diff_permissions old candidate) <-> asked_change old candidate c.
Proof.
  intros [] [] Hpub Hid. unfold diff_permissions. rewrite !bool_decide_eq_true_2 by done. cbn [negb orb changes].
  rewrite sort_by_perm, diff_dependencies_walk, !diff_sorted_walk, app_nil_l, !elem_of_app, !walk_elem by done.
  unfold reported. split.
  - intros [[H|H]|H].
    + destruct H as [(p & Hp & Hn & ->)|[(p & Hp & Hn & ->)|(? & ? & ? & ? & ? & ?)]]; [| |set_solver];
        rewrite has_key_id in Hn; by constructor.
    + destruct H as [(p & Hp & Hn & ->)|[(p & Hp & Hn & ->)|(? & ? & ? & ? & ? & ?)]]; [| |set_solver];
        rewrite has_key_id in Hn; by constructor.
    + destruct H as [(p & Hp & Hn & ->)|[(p & Hp & Hn & ->)|(x & y & Hx & Hy & E & Hc)]]; [by constructor..|].
      case_bool_decide as Exy; cbn [negb] in Hc; [set_solver|]. apply list_elem_of_singleton in Hc as ->. by econstructor.
  - destruct 1 as [p Hp Hn|p Hp Hn|p Hp Hn|p Hp Hn|d Hd Hn|d Hd Hn|d d' Hd Hd' E Hne].
    + left; left; right; left. exists p. by rewrite has_key_id.
    + left; left; left. exists p. by rewrite has_key_id.
    + left; right; right; left. exists p. by rewrite has_key_id.
    + left; right; left. exists p. by rewrite has_key_id.
    + right; right; left. by exists d.
    + right; left. by exists d.
    + right; right; right. exists d, d'. rewrite bool_decide_eq_false_2 by done. cbn [negb]. split_and!; [done..|left].
Qed.

Lemma inspected_sorted `{ManifestCrates} bytes p : inspect_manifest bytes = Ok p -> sorted_package p.
Proof.
  intros (f & valid & Hwf & _ & _ & _ & _ & ->)%inspect_accepted. destruct Hwf. constructor; cbn.
  - destruct wf_permissions0 as [-> | ->]; repeat constructor.
  - apply key_sorted. by rewrite map_id.
  - done.
Qed.

(** ** Classification *)

Lemma has_key_dec_or {T K} `{EqDecision K} (key : T -> K) k l : has_key key k l \/ ~ has_key key k l.
Proof.
  induction l as [|x l IH]; [right; unfold has_key; set_solver|]. rewrite has_key_cons.
  destruct (decide (key x = k)); tauto.
Qed.

Lemma subset_or {T} `{EqDecision T} (l k : list T) : l ⊆ k \/ exists x, x ∈ l /\ x ∉ k.
Proof.
  induction l as [|x l [IH|(y & ? & ?)]]; [left; set_solver| |right; exists y; set_solver].
  destruct (decide (x ∈ k)); [left; set_solver|right; exists x; set_solver].
Qed.

Definition grows_by (old candidate : InspectedPluginPackage) : Prop :=
  exists c, asked_change old candidate c /\ (disposition c = Added \/ disposition c = Changed).

Lemma covered_or_grows old candidate : covered candidate old \/ grows_by old candidate.
Proof.
  unfold covered, grows_by.
  destruct (subset_or (requested_permissions candidate) (requested_permissions old)) as [Hp|(p & ? & ?)];
    [|right; eexists; split; [by apply (permission_added _ _ p)|by left]].
  destruct (subset_or (capabilities candidate) (capabilities old)) as [Hc|(c & ? & ?)];
    [|right; eexists; split; [by apply (capability_added _ _ c)|by left]].
  destruct (subset_or (runtime_dependencies candidate) (runtime_dependencies old)) as [Hd|(d & Hin & Hout)]; [by left|right].
  destruct (has_key_dec_or dependency_id (dependency_id d) (runtime_dependencies old)) as [(d' & Hd' & E)|Hn].
  - eexists; split; [apply (dependency_changed _ _ d' d Hd' Hin E); congruence|by right].
  - eexists; split; [by apply (dependency_added _ _ d)|by left].
Qed.

Lemma sorted_same_id p d d' :
  sorted_package p -> d ∈ runtime_dependencies p -> d' ∈ runtime_dependencies p -> dependency_id d = dependency_id d' -> d = d'.
Proof.
  intros [_ _ Hs]. induction Hs as [|x l Hs IH Hx]; [set_solver|].
  pose proof (below_not_in dependency_id x l Hx) as Hb. intros Hd Hd' E.
  apply elem_of_cons in Hd as [-> | Hd], Hd' as [-> | Hd']; [done| | |auto].
  - by destruct (Hb d' Hd').
  - by destruct (Hb d Hd).
Qed.

Lemma covered_not_grows old candidate : sorted_package old -> covered candidate old -> ~ grows_by old candidate.
Proof.
  intros Hs (Hp & Hc & Hd) (c & Hch & Hdisp). destruct Hch as [p ? ?| |p ? ?| |d Hin Hn| |d d' Hin Hin' E Hne]; cbn in Hdisp;
    try (by destruct Hdisp); [set_solver..| |].
  - apply Hn. exists d. set_solver.
  - apply Hne. apply (sorted_same_id old); [done|done|set_solver|done].
Qed.

Lemma classify_expansion cs :
  classify cs = Expansion <-> exists c, c ∈ cs /\ (disposition c = Added \/ disposition c = Changed).
Proof.
  unfold classify. destruct (existsb _ cs) eqn:E.
  - apply existsb_exists in E as (c & Hc & Hd). rewrite orb_true_iff, !bool_decide_eq_true in Hd.
    apply list_elem_of_In in Hc. split; [eauto|done].
  - split; [by destruct cs|]. intros (c & Hc & Hd). exfalso.
    assert (existsb (fun c => bool_decide (disposition c = Added) || bool_decide (disposition c = Changed)) cs = true).
    { apply existsb_exists. exists c. split; [by apply list_elem_of_In|]. rewrite orb_true_iff, !bool_decide_eq_true. done. }
    congruence.
Qed.

Lemma classify_unchanged cs : classify cs = Unchanged <-> cs = [].
Proof. unfold classify. destruct cs as [|c cs]; [done|]. by destruct (existsb _ _). Qed.

Lemma not_grows_removed old candidate c :
  ~ grows_by old candidate -> asked_change old candidate c -> disposition c = Removed.
Proof.
  intros Hn Hc. destruct (disposition c) eqn:E; [|done|]; exfalso; apply Hn; exists c; auto.
Qed.

Lemma removed_grows_back old candidate :
  (exists c, asked_change old candidate c /\ disposition c = Removed) -> grows_by candidate old.
Proof.
  intros (c & Hc & E). destruct Hc as [|p ? ?| |p ? ?| |d ? ?|]; try done.
  - exists (change Permission Added (canonical_identifier p)). split; [by constructor|by left].
  - exists (change Capability Added p). split; [by constructor|by left].
  - exists (change RuntimeDependency Added (dependency_id d)). split; [by constructor|by left].
Qed.

Lemma grows_back old candidate :
  ~ grows_by old candidate -> grows_by candidate old -> exists c, asked_change old candidate c.
Proof.
  intros Hn (c & Hc & E). destruct Hc as [p ? ?|p ? ?|p ? ?|p ? ?|d ? ?|d ? ?|d d' ? ? ? ?].
  - eexists. by apply (permission_removed _ _ p).
  - by destruct E.
  - eexists. by apply (capability_removed _ _ p).
  - by destruct E.
  - eexists. by apply (dependency_removed _ _ d).
  - by destruct E.
  - exfalso. apply Hn. eexists. split; [apply (dependency_changed _ _ d' d); congruence|by right].
Qed.

Lemma covered_iff old candidate : sorted_package old -> covered candidate old <-> ~ grows_by old candidate.
Proof.
  intros Hs. split; [by apply covered_not_grows|]. intros Hn. by destruct (covered_or_grows old candidate).
Qed.

Lemma diff_same_identity old candidate :
  publisher old = publisher candidate -> plugin_id old = plugin_id candidate ->
  classification (diff_permissions old candidate) = classify (changes (diff_permissions old candidate)).
Proof. intros Hp Hi. unfold diff_permissions. by rewrite !bool_decide_eq_true_2. Qed.

Lemma classification_exact old candidate :
  sorted_package old -> sorted_package candidate ->
  publisher old = publisher candidate -> plugin_id old = plugin_id candidate ->
  let cl := classification (diff_permissions old candidate) in
  (cl = Expansion <-> ~ covered candidate old) /\
  (cl = Unchanged <-> covered candidate old /\ covered old candidate) /\
  (cl = Contraction <-> covered candidate old /\ ~ covered old candidate) /\ cl <> IncomparableDeny.
Proof.
  intros Ho Hc Hp Hi cl. unfold cl. rewrite diff_same_identity by done. set (cs := changes _).
  assert (Hcs : forall c, c ∈ cs <-> asked_change old candidate c) by (intros c; by apply changes_elem).
  assert (HE : classify cs = Expansion <-> grows_by old candidate).
  { rewrite classify_expansion. unfold grows_by. by setoid_rewrite Hcs. }
  assert (HU : classify cs = Unchanged <-> ~ grows_by old candidate /\ ~ grows_by candidate old).
  { rewrite classify_unchanged. split.
    - intros E. split.
      + intros (c & H1 & _). apply Hcs in H1. rewrite E in H1. set_solver.
      + intros Hb. destruct (grows_back old candidate) as (c & H1); [|done|].
        * intros (c & H1 & _). apply Hcs in H1. rewrite E in H1. set_solver.
        * apply Hcs in H1. rewrite E in H1. set_solver.
    - intros [H1 H2]. destruct cs as [|c cs']; [done|]. exfalso. apply H2, removed_grows_back. exists c.
      assert (Hch : asked_change old candidate c) by (apply Hcs; left).
      split; [done|exact (not_grows_removed _ _ _ H1 Hch)]. }
  rewrite !covered_iff by done.
  assert (Hn : classify cs <> IncomparableDeny) by (unfold classify; by destruct (existsb _ _), cs).
  assert (Hdn : grows_by old candidate \/ ~ grows_by old candidate)
    by (destruct (covered_or_grows old candidate); [right; by apply covered_not_grows|by left]).
  destruct (classify cs); naive_solver.
Qed.

(** C35: The permission difference of two accepted packages says exactly what changed.
    Packages of another publisher or plugin are refused as incomparable.  Otherwise
    every permission, capability or dependency that was added, removed or changed is
    reported, nothing else is, and the report is sorted; the classification is
    Expansion exactly when the candidate asks for something the old package did not
    ask for in the same form, Unchanged when both ask for the same, and Contraction
    when the candidate asks for strictly less. *)
Theorem permission_diff_exact (C : ManifestCrates) (old_bytes candidate_bytes : list byte)
    (old candidate : InspectedPluginPackage) :
  inspect_manifest old_bytes = Ok old -> inspect_manifest candidate_bytes = Ok candidate ->
  let d := diff_permissions old candidate in
  (classification d = IncomparableDeny <-> ~ (publisher old = publisher candidate /\ plugin_id old = plugin_id candidate)) /\
  StronglySorted (key_le change_key) (changes d) /\
  (publisher old = publisher candidate -> plugin_id old = plugin_id candidate ->
   (forall c, c ∈ changes d <-> asked_change old candidate c) /\
   (classification d = Expansion <-> ~ covered candidate old) /\
   (classification d = Unchanged <-> covered candidate old /\ covered old candidate) /\
   (classification d = Contraction <-> covered candidate old /\ ~ covered old candidate)).
Proof.
  intros Ho%inspected_sorted Hc%inspected_sorted d. split_and!.
  - split.
    + intros Hd [Hp Hi]. by apply (classification_exact old candidate Ho Hc Hp Hi) in Hd.
    + intros Hn. unfold d, diff_permissions.
      destruct (decide (publisher old = publisher candidate)), (decide (plugin_id old = plugin_id candidate)); [tauto|..];
        rewrite ?(bool_decide_eq_false_2 (publisher _ = _)), ?(bool_decide_eq_false_2 (plugin_id _ = _)), ?orb_true_r by done; done.
  - unfold d, diff_permissions. destruct (_ || _); [constructor|apply sort_by_sorted].
  - intros Hp Hi. destruct (classification_exact old candidate Ho Hc Hp Hi) as (? & ? & ? & _).
    split; [intros c; by apply changes_elem|done].
Qed.

Lemma permission_diff_exact_witness :
  let old := Golden.package Golden.one in let candidate := Golden.package Golden.two in
  classification (diff_permissions old candidate) = Expansion /\ ~ covered candidate old /\
  classification (diff_permissions candidate old) = Contraction.
Proof.
  intros old candidate.
  pose proof (permission_diff_exact Golden.crates (print_manifest (Golden.manifest Golden.one))
    (print_manifest (Golden.manifest Golden.two)) old candidate ltac:(vm_compute; reflexivity) ltac:(vm_compute; reflexivity))
    as (_ & _ & H). destruct (H eq_refl eq_refl) as (_ & [Hexp _] & _).
  assert (E : classification (diff_permissions old candidate) = Expansion) by (vm_compute; reflexivity).
  split; [exact E|]. split; [exact (Hexp E)|]. vm_compute. reflexivity.
Defined.
End PermissionDiff.
