(* ===== verification/ReviewedAdmission.v ===== *)
(** Review eligibility: reviewed_admission.rs of mengxia-plugin-security.

    A pure comparison of caller-supplied facts in a fixed order; the first check
    that fails is the denial.  [all_equal] is the source's loop over an array of
    named comparisons. *)
From Stdlib Require Import ZArith Lia.
From stdpp Require Import prelude list.
From S2P Require Import Prelude RustText Types.

Set Warnings "-clear-no-such-hyp".

Module Review.

Inductive ReviewFact (T : Type) := Missing | Unverified | Invalid | Checked (v : T).
Arguments Missing {T}.
Arguments Unverified {T}.
Arguments Invalid {T}.
Arguments Checked {T} v.

Record ReviewIdentity := {
  manifest_digest : Digest.Sha256Digest; artifact_digest : Digest.Sha256Digest;
  dependency_closure_digest : Digest.Sha256Digest; permissions_digest : Digest.Sha256Digest;
  profile_digest : Digest.Sha256Digest; platform_tuple_digest : Digest.Sha256Digest }.
#[global] Instance identity_eq_dec : EqDecision ReviewIdentity.
Proof. solve_decision. Defined.

Record ReviewValidity := { start_ms : Z; end_ms : Z }.
Record ReviewRequirement := {
  req_identity : ReviewIdentity; req_policy_version : Z; req_evidence_digest : Digest.Sha256Digest }.
Record ReviewApproval := {
  app_identity : ReviewIdentity; app_policy_version : Z; app_evidence_digest : Digest.Sha256Digest;
  record_digest : Digest.Sha256Digest; app_validity : ReviewValidity }.
Inductive ReviewRevocationStatus := StatusUnknown | StatusClear | StatusRevoked.
Record ReviewRevocationSnapshot := {
  approval_record_digest : Digest.Sha256Digest; status : ReviewRevocationStatus; snap_epoch : Z;
  snap_validity : ReviewValidity }.
Record ReviewClock := { now_ms : Z; last_observed_ms : Z; minimum_snapshot_epoch : Z }.
Record ReviewAssessment := {
  requirement : ReviewFact ReviewRequirement; approval : ReviewFact ReviewApproval;
  revocation : ReviewFact ReviewRevocationSnapshot; clock : ReviewFact ReviewClock }.

Inductive ReviewFactKind := KindRequirement | KindApproval | KindRevocation | KindClock.
Inductive ReviewIdentityField := Manifest | Artifact | DependencyClosure | Permissions | Profile | PlatformTuple.
Inductive ReviewDenial :=
| MissingFact (k : ReviewFactKind) | UnverifiedFact (k : ReviewFactKind) | InvalidFact (k : ReviewFactKind)
| InvalidApprovalValidity | InvalidSnapshotValidity | UnknownRevocation | Revoked | ApprovalNotYetValid
| ApprovalExpired | SnapshotNotYetValid | SnapshotExpired | ClockRollback | SnapshotRollback
| IdentityMismatch (f : ReviewIdentityField) | PolicyMismatch | EvidenceMismatch | RevocationBindingMismatch.

Record ReviewEligibilityCandidate := {
  cand_identity : ReviewIdentity; cand_approval_record_digest : Digest.Sha256Digest;
  cand_evidence_digest : Digest.Sha256Digest; cand_policy_version : Z; evaluated_at_ms : Z; valid_until_ms : Z;
  snapshot_epoch : Z }.

Definition checked {T} (fact : ReviewFact T) (kind : ReviewFactKind) : result ReviewDenial T :=
  match fact with
  | Missing => Err (MissingFact kind)
  | Unverified => Err (UnverifiedFact kind)
  | Invalid => Err (InvalidFact kind)
  | Checked v => Ok v
  end.

(** [for (field, equal) in [..] { if !equal { return Err(denial(field)) } }] *)
Fixpoint all_equal {F E} (denial : F -> E) (l : list (F * bool)) : result E () :=
  match l with
  | [] => Ok tt
  | (field, equal) :: t => if equal then all_equal denial t else Err (denial field)
  end.

Definition identity_comparison (expected actual : ReviewIdentity) : list (ReviewIdentityField * bool) :=
  [ (Manifest, bool_decide (manifest_digest expected = manifest_digest actual));
    (Artifact, bool_decide (artifact_digest expected = artifact_digest actual));
    (DependencyClosure, bool_decide (dependency_closure_digest expected = dependency_closure_digest actual));
    (Permissions, bool_decide (permissions_digest expected = permissions_digest actual));
    (Profile, bool_decide (profile_digest expected = profile_digest actual));
    (PlatformTuple, bool_decide (platform_tuple_digest expected = platform_tuple_digest actual)) ].

Definition evaluate_review_eligibility (assessment : ReviewAssessment) : result ReviewDenial ReviewEligibilityCandidate :=
  let? requirement := checked (requirement assessment) KindRequirement in
  let? approval := checked (approval assessment) KindApproval in
  let? snapshot := checked (revocation assessment) KindRevocation in
  let? clock := checked (clock assessment) KindClock in
  if end_ms (app_validity approval) <=? start_ms (app_validity approval) then Err InvalidApprovalValidity
  else if end_ms (snap_validity snapshot) <=? start_ms (snap_validity snapshot) then Err InvalidSnapshotValidity
  else
    let? _ := match status snapshot with
              | StatusUnknown => Err UnknownRevocation
              | StatusRevoked => Err Revoked
              | StatusClear => Ok tt
              end in
    if now_ms clock <? start_ms (app_validity approval) then Err ApprovalNotYetValid
    else if end_ms (app_validity approval) <=? now_ms clock then Err ApprovalExpired
    else if now_ms clock <? start_ms (snap_validity snapshot) then Err SnapshotNotYetValid
    else if end_ms (snap_validity snapshot) <=? now_ms clock then Err SnapshotExpired
    else if now_ms clock <? last_observed_ms clock then Err ClockRollback
    else if snap_epoch snapshot <? minimum_snapshot_epoch clock then Err SnapshotRollback
    else
      let? _ := all_equal IdentityMismatch (identity_comparison (req_identity requirement) (app_identity approval)) in
      if negb (req_policy_version requirement =? app_policy_version approval) then Err PolicyMismatch
      else if negb (bool_decide (req_evidence_digest requirement = app_evidence_digest approval)) then Err EvidenceMismatch
      else if negb (bool_decide (approval_record_digest snapshot = record_digest approval)) then Err RevocationBindingMismatch
      else Ok {| cand_identity := app_identity approval; cand_approval_record_digest := record_digest approval;
                 cand_evidence_digest := app_evidence_digest approval;
                 cand_policy_version := app_policy_version approval; evaluated_at_ms := now_ms clock;
                 valid_until_ms := Z.min (end_ms (app_validity approval)) (end_ms (snap_validity snapshot));
                 snapshot_epoch := snap_epoch snapshot |}.

(** ** What an eligible review means *)

Definition in_window (v : ReviewValidity) (t : Z) : Prop := start_ms v <= t < end_ms v.

(** The facts behind a candidate. *)
Record eligible (a : ReviewAssessment) (r : ReviewRequirement) (p : ReviewApproval) (s : ReviewRevocationSnapshot)
    (k : ReviewClock) : Prop := {
  el_requirement : requirement a = Checked r;
  el_approval : approval a = Checked p;
  el_revocation : revocation a = Checked s;
  el_clock : clock a = Checked k;
  el_clear : status s = StatusClear;
  el_approval_window : in_window (app_validity p) (now_ms k);
  el_snapshot_window : in_window (snap_validity s) (now_ms k);
  el_no_rollback : last_observed_ms k <= now_ms k;
  el_epoch : minimum_snapshot_epoch k <= snap_epoch s;
  el_identity : req_identity r = app_identity p;
  el_policy : req_policy_version r = app_policy_version p;
  el_evidence : req_evidence_digest r = app_evidence_digest p;
  el_binding : approval_record_digest s = record_digest p;
}.

Definition candidate_of (p : ReviewApproval) (s : ReviewRevocationSnapshot) (k : ReviewClock)
  : ReviewEligibilityCandidate := {|
  cand_identity := app_identity p; cand_approval_record_digest := record_digest p;
  cand_evidence_digest := app_evidence_digest p; cand_policy_version := app_policy_version p;
  evaluated_at_ms := now_ms k; valid_until_ms := Z.min (end_ms (app_validity p)) (end_ms (snap_validity s));
  snapshot_epoch := snap_epoch s |}.

Lemma all_equal_ok {F E} (denial : F -> E) l : all_equal denial l = Ok tt <-> Forall (fun x => x.2 = true) l.
Proof.
  induction l as [|[f b] l IH]; cbn; [by split; constructor|]. destruct b.
  - rewrite IH. split; [by constructor|by inversion 1].
  - split; [done|]. intros Hf. by inversion Hf.
Qed.

Lemma identity_equal expected actual :
  Forall (fun x => x.2 = true) (identity_comparison expected actual) <-> expected = actual.
Proof.
  unfold identity_comparison. rewrite !Forall_cons. cbn [snd]. rewrite !bool_decide_eq_true. destruct expected, actual. cbn.
  split; [naive_solver|]. intros [= -> -> -> -> -> ->]. by split_and!.
Qed.

Lemma evaluate_ok a c :
  evaluate_review_eligibility a = Ok c <->
  exists r p s k, eligible a r p s k /\ c = candidate_of p s k.
Proof.
  split.
  - unfold evaluate_review_eligibility. intros E.
    destruct (requirement a) as [| | |r] eqn:Er; try done. destruct (approval a) as [| | |p] eqn:Ep; try done.
    destruct (revocation a) as [| | |s] eqn:Es; try done. destruct (clock a) as [| | |k] eqn:Ek; try done.
    cbn [checked result_bind] in E. passed E as G1. passed E as G2.
    destruct (status s) eqn:Est; cbn [result_bind] in E; try done.
    passed E as G3. passed E as G4. passed E as G5. passed E as G6. passed E as G7. passed E as G8.
    destruct (all_equal _ _) as [[]|] eqn:Ei; [|done]. cbn [result_bind] in E. apply all_equal_ok, identity_equal in Ei.
    passed E as G9. passed E as G10. passed E as G11. injection E as <-. bool_hyps.
    exists r, p, s, k. split; [|done]. constructor; unfold in_window; first [done|lia].
  - intros (r & p & s & k & [] & ->). unfold evaluate_review_eligibility, in_window in *.
    rewrite el_requirement0, el_approval0, el_revocation0, el_clock0. cbn [checked result_bind].
    rewrite !(proj2 (Z.leb_gt _ _)), el_clear0 by lia. cbn [result_bind].
    rewrite !(proj2 (Z.ltb_ge _ _)) by lia.
    rewrite (proj2 (all_equal_ok _ _)) by (by apply identity_equal). cbn [result_bind].
    rewrite (proj2 (Z.eqb_eq _ _)), !bool_decide_eq_true_2 by done. done.
Qed.

(** The candidate lapses at a fixed instant: until then a later evaluation of the same
    facts agrees with it, from then on every evaluation is a denial. *)
Definition with_clock (a : ReviewAssessment) (k : ReviewClock) : ReviewAssessment := {|
  requirement := requirement a; approval := approval a; revocation := revocation a; clock := Checked k |}.

Lemma eligible_later a r p s k k' :
  eligible a r p s k -> now_ms k <= now_ms k' < valid_until_ms (candidate_of p s k) ->
  last_observed_ms k' <= now_ms k' -> minimum_snapshot_epoch k' <= snap_epoch s ->
  eligible (with_clock a k') r p s k'.
Proof.
  intros [] Ht Hl He. cbn in Ht. unfold in_window in *. constructor; try done; unfold in_window; lia.
Qed.

(** A review is eligible exactly when all four facts are checked, the revocation
    snapshot is clear and bound to the approval, both are within their windows, the
    clock and the epoch have not gone back, and identity, policy and evidence agree
    with the requirement.  The candidate carries those values, its window is open when
    it is made, the same facts stay eligible at every later instant of that window
    and are denied at every instant after it. *)
Theorem review_eligibility_exact (a : ReviewAssessment) :
  (forall c, evaluate_review_eligibility a = Ok c <-> exists r p s k, eligible a r p s k /\ c = candidate_of p s k) /\
  (forall c, evaluate_review_eligibility a = Ok c ->
     evaluated_at_ms c < valid_until_ms c /\
     forall k', evaluated_at_ms c <= now_ms k' -> last_observed_ms k' <= now_ms k' ->
       minimum_snapshot_epoch k' <= snapshot_epoch c ->
       if now_ms k' <? valid_until_ms c
       then exists c', evaluate_review_eligibility (with_clock a k') = Ok c' /\ valid_until_ms c' = valid_until_ms c /\
              cand_identity c' = cand_identity c /\ cand_approval_record_digest c' = cand_approval_record_digest c
       else exists d, evaluate_review_eligibility (with_clock a k') = Err d).
Proof.
  split; [apply evaluate_ok|]. intros c (r & p & s & k & He & ->)%evaluate_ok. split.
  { destruct He. unfold in_window in *. cbn. lia. }
  intros k' Ht Hl Hep. destruct (now_ms k' <? _) eqn:E; bool_hyps.
  - exists (candidate_of p s k'). split; [|done]. apply evaluate_ok. exists r, p, s, k'. split; [|done].
    by apply (eligible_later a r p s k k' He).
  - destruct (evaluate_review_eligibility (with_clock a k')) as [c'|d] eqn:E'; [|by exists d]. exfalso.
    apply evaluate_ok in E' as (r' & p' & s' & k2 & [] & _). destruct He. cbn in *. unfold in_window in *.
    assert (p' = p) as -> by congruence. assert (s' = s) as -> by congruence. assert (k2 = k') as -> by congruence. lia.
Qed.
End Review.
