(* ===== verification/BrokerFoundation.v ===== *)
(** Broker read assessment: broker_foundation.rs of mengxia-plugin-security.

    [assess] compares caller-supplied facts about one read of one run input, in the
    order of the source, and [evaluate_broker_read] pairs the decision with its audit
    record.  Nothing is consumed.  [authorized] states what an eligible read means. *)
From Stdlib Require Import ZArith Lia String.
From stdpp Require Import prelude list.
From S2P Require Import Prelude RustText Types ManifestJson PluginManifest ReviewedAdmission.

Set Warnings "-clear-no-such-hyp".

Module Broker.
Import Review.

Definition READ_BYTES_PER_REQUEST_MAX : Z := 1048576.

Inductive BrokerValueError := InvalidKey | InvalidMemberOrdinal.
Definition BrokerKey : Type := TypedId.Id.
Definition key_from_bytes `{TypedId.UuidCrate} (bytes : list Byte.byte) : result BrokerValueError BrokerKey :=
  map_err (fun _ => InvalidKey) (TypedId.from_bytes bytes).
Definition BrokerDigest : Type := Digest.Sha256Digest.
Definition BrokerMemberOrdinal : Type := Z.
Definition member_ordinal_new (value : Z) : result BrokerValueError BrokerMemberOrdinal :=
  if value <=? 4095 then Ok value else Err InvalidMemberOrdinal.

Record BrokerBinding := {
  library_key : BrokerKey; owner_uid : Z; project_key : BrokerKey; run_key : BrokerKey; instance_key : BrokerKey;
  channel_key : BrokerKey; execution_identity : ReviewIdentity }.
Record BrokerMember := {
  asset_revision_key : BrokerKey; representation_key : BrokerKey; resource_key : BrokerKey;
  member_ordinal : BrokerMemberOrdinal; blob_digest : BrokerDigest; blob_length : Z }.
Record ReadTarget := { member : BrokerMember; offset : Z; length : Z }.
Record ReadAuthorizationKey := { ak_binding : BrokerBinding; ak_member : BrokerMember }.
Record BrokerReadRequest := {
  request_key : BrokerKey; correlation_key : BrokerKey; lease_record_key : BrokerKey; rtarget : ReadTarget }.

Inductive RunState := RunActive | RunInactive | RunCancelled | RunUnknown.
Inductive Membership := Present | Absent | MembershipUnknown.
Inductive PolicyDisposition := Permit | Deny | NeedsApproval | DispositionUnknown.
Inductive BrokerPluginTrustDecision := AllowReviewed | TrustDeny | TrustNeedsApproval | UnsupportedProfile | TrustUnknown.
Inductive RuntimeDisposition := QualifiedReviewed | Denied_ | RuntimeUnknown.
Inductive LeaseState := LeaseActive | LeaseRevoked | LeaseConsumed | LeaseUnknown.
Inductive RevocationState := RevocationClear | RevocationRevoked | RevocationUnknown.
#[global] Instance run_state_eq_dec : EqDecision RunState. Proof. solve_decision. Defined.
#[global] Instance membership_eq_dec : EqDecision Membership. Proof. solve_decision. Defined.
#[global] Instance policy_disposition_eq_dec : EqDecision PolicyDisposition. Proof. solve_decision. Defined.
#[global] Instance trust_eq_dec : EqDecision BrokerPluginTrustDecision. Proof. solve_decision. Defined.
#[global] Instance runtime_disposition_eq_dec : EqDecision RuntimeDisposition. Proof. solve_decision. Defined.
#[global] Instance lease_state_eq_dec : EqDecision LeaseState. Proof. solve_decision. Defined.
#[global] Instance revocation_state_eq_dec : EqDecision RevocationState. Proof. solve_decision. Defined.

Record ExecutionFact := { ex_binding : BrokerBinding; run_state : RunState; ex_run_revision : Z; ex_validity : ReviewValidity }.
Record RunInputFact := { in_key : ReadAuthorizationKey; in_run_revision : Z; membership : Membership }.
Record ReadPolicyFact := {
  po_key : ReadAuthorizationKey; policy_revision : Z; grant_key : BrokerKey; grant_revision : Z;
  po_validity : ReviewValidity; plugin_trust : ReviewFact BrokerPluginTrustDecision;
  package_policy : PolicyDisposition; installed_grant : PolicyDisposition; project_policy : PolicyDisposition;
  owner_policy : PolicyDisposition; data_policy : PolicyDisposition }.
Record ReadRuntimeFact := {
  rt_binding : BrokerBinding; qualification_digest : BrokerDigest; rt_validity : ReviewValidity;
  rt_disposition : RuntimeDisposition }.
Record ReadLeaseFact := {
  le_record_key : BrokerKey; le_key : ReadAuthorizationKey; le_grant_key : BrokerKey; le_grant_revision : Z;
  le_policy_revision : Z; revocation_epoch : Z; le_validity : ReviewValidity; le_state : LeaseState;
  allowed_offset : Z; allowed_length : Z; remaining_operations : Z; remaining_bytes : Z }.
Record ReadRevocationFact := {
  rv_key : ReadAuthorizationKey; rv_grant_key : BrokerKey; rv_grant_revision : Z; rv_policy_revision : Z;
  rv_epoch : Z; rv_validity : ReviewValidity; rv_state : RevocationState }.
Record BrokerClock := { bnow_ms : Z; blast_observed_ms : Z; minimum_revocation_epoch : Z }.
Record BrokerReadAssessment := {
  request : BrokerReadRequest; caller : ReviewFact BrokerBinding; execution : ReviewFact ExecutionFact;
  input : ReviewFact RunInputFact; package : Manifest.InspectedPluginPackage; review : ReviewAssessment;
  policy : ReviewFact ReadPolicyFact; runtime : ReviewFact ReadRuntimeFact; lease : ReviewFact ReadLeaseFact;
  brevocation : ReviewFact ReadRevocationFact; bclock : ReviewFact BrokerClock }.

Inductive BrokerFactKind := KCaller | KExecution | KInput | KPolicy | KPluginTrust | KRuntime | KLease | KRevocation | KClock.
Inductive UnavailableFact := FactMissing | FactUnverified | FactInvalid.
Inductive BrokerRevisionField :=
| ExecutionRun | InputRun | PolicyPolicy | PolicyGrant | LeaseGrant | LeasePolicy | RevocationGrant | RevocationPolicy.
Inductive BrokerBindingField :=
| FLibrary | FOwner | FProject | FRun | FInstance | FChannel | FIdentity (f : ReviewIdentityField) | FAssetRevision
| FRepresentation | FResource | FMemberOrdinal | FBlobDigest | FBlobLength.
Inductive BrokerPolicyFactor := PPackage | PInstalledGrant | PProject | POwner | PData.
Inductive BrokerReadDenial :=
| FactUnavailable (k : BrokerFactKind) (u : UnavailableFact) | InvalidRevision (f : BrokerRevisionField)
| InvalidValidity (k : BrokerFactKind) | InvalidLeaseRange | InvalidRequestRange | ReadLimitExceeded
| BindingMismatch (k : BrokerFactKind) (f : BrokerBindingField) | RunRevisionMismatch | LeaseRecordMismatch
| GrantKeyMismatch (k : BrokerFactKind) | GrantRevisionMismatch (k : BrokerFactKind)
| PolicyRevisionMismatch (k : BrokerFactKind) | BrokerClockRollback | NotYetValid (k : BrokerFactKind)
| Expired (k : BrokerFactKind) | RevocationRollback | LeaseEpochMismatch | RunNotActive | NotRunInput | LeaseNotActive
| RevocationDenied | ManifestMismatch | ReadNotRequested | ReviewClockMismatch | ReviewRejected (d : ReviewDenial)
| ReviewIdentityMismatch | RuntimeNotQualified | PluginTrustDenied (d : BrokerPluginTrustDecision)
| PolicyDenied (f : BrokerPolicyFactor) (d : PolicyDisposition) | LeaseRangeDenied | OperationBudgetExhausted
| ByteBudgetExhausted.

Record BrokerReadCandidate := {
  bc_request : BrokerReadRequest; bc_authorization_key : ReadAuthorizationKey; bc_run_revision : Z;
  bc_policy_revision : Z; bc_grant_revision : Z; bc_grant_key : BrokerKey; bc_revocation_epoch : Z;
  bc_runtime_qualification_digest : BrokerDigest; bc_review : ReviewEligibilityCandidate;
  bc_plugin_trust_decision : BrokerPluginTrustDecision; bc_evaluated_at : Z; bc_valid_until : Z }.

(** ** Helpers *)

Definition checked {T} (fact : ReviewFact T) (kind : BrokerFactKind) : result BrokerReadDenial T :=
  match fact with
  | Checked v => Ok v
  | Missing => Err (FactUnavailable kind FactMissing)
  | Unverified => Err (FactUnavailable kind FactUnverified)
  | Invalid => Err (FactUnavailable kind FactInvalid)
  end.
Definition supplied {T} (fact : ReviewFact T) : option T := match fact with Checked v => Some v | _ => None end.
Definition valid_interval (v : ReviewValidity) : bool := start_ms v <? end_ms v.
Definition valid_range (offset length total : Z) : bool :=
  (0 <? length) && (offset <=? total) && (length <=? total - offset).

Definition binding_comparison (a e : BrokerBinding) : list (BrokerBindingField * bool) :=
  [ (FLibrary, bool_decide (library_key a = library_key e)); (FOwner, owner_uid a =? owner_uid e);
    (FProject, bool_decide (project_key a = project_key e)); (FRun, bool_decide (run_key a = run_key e));
    (FInstance, bool_decide (instance_key a = instance_key e)); (FChannel, bool_decide (channel_key a = channel_key e)) ]
  ++ map (fun '(f, b) => (FIdentity f, b)) (identity_comparison (execution_identity a) (execution_identity e)).
Definition binding_matches (actual expected : BrokerBinding) (source : BrokerFactKind) : result BrokerReadDenial () :=
  all_equal (BindingMismatch source) (binding_comparison actual expected).
Definition member_comparison (a e : BrokerMember) : list (BrokerBindingField * bool) :=
  [ (FAssetRevision, bool_decide (asset_revision_key a = asset_revision_key e));
    (FRepresentation, bool_decide (representation_key a = representation_key e));
    (FResource, bool_decide (resource_key a = resource_key e)); (FMemberOrdinal, member_ordinal a =? member_ordinal e);
    (FBlobDigest, bool_decide (blob_digest a = blob_digest e)); (FBlobLength, blob_length a =? blob_length e) ].
Definition key_matches (actual expected : ReadAuthorizationKey) (source : BrokerFactKind) : result BrokerReadDenial () :=
  let? _ := binding_matches (ak_binding actual) (ak_binding expected) source in
  all_equal (BindingMismatch source) (member_comparison (ak_member actual) (ak_member expected)).

(** The loop that checks every window against the clock. *)
Fixpoint check_windows (now : Z) (l : list (BrokerFactKind * ReviewValidity)) : result BrokerReadDenial () :=
  match l with
  | [] => Ok tt
  | (kind, validity) :: t =>
      if now <? start_ms validity then Err (NotYetValid kind)
      else if end_ms validity <=? now then Err (Expired kind)
      else check_windows now t
  end.
Fixpoint check_policies (l : list (BrokerPolicyFactor * PolicyDisposition)) : result BrokerReadDenial () :=
  match l with
  | [] => Ok tt
  | (factor, d) :: t => if negb (bool_decide (d = Permit)) then Err (PolicyDenied factor d) else check_policies t
  end.
Definition read_requested (p : Manifest.InspectedPluginPackage) : bool :=
  match Manifest.requested_permissions p with
  | [r] => bool_decide (Manifest.kind r = bs "broker.asset.read@1") && bool_decide (Manifest.scope r = bs "run-inputs")
  | _ => false
  end.

Definition assess (a : BrokerReadAssessment) : result BrokerReadDenial BrokerReadCandidate :=
  let? caller := checked (caller a) KCaller in
  let? execution := checked (execution a) KExecution in
  let? input := checked (input a) KInput in
  let? policy := checked (policy a) KPolicy in
  let? trust := checked (plugin_trust policy) KPluginTrust in
  let? runtime := checked (runtime a) KRuntime in
  let? lease := checked (lease a) KLease in
  let? revocation := checked (brevocation a) KRevocation in
  let? clock := checked (bclock a) KClock in
  let? _ := all_equal InvalidRevision (map (fun '(f, v) => (f, negb (v =? 0)))
    [ (ExecutionRun, ex_run_revision execution); (InputRun, in_run_revision input);
      (PolicyPolicy, policy_revision policy); (PolicyGrant, grant_revision policy);
      (LeaseGrant, le_grant_revision lease); (LeasePolicy, le_policy_revision lease);
      (RevocationGrant, rv_grant_revision revocation); (RevocationPolicy, rv_policy_revision revocation) ]) in
  let intervals := [ (KExecution, ex_validity execution); (KPolicy, po_validity policy); (KRuntime, rt_validity runtime);
                     (KLease, le_validity lease); (KRevocation, rv_validity revocation) ] in
  let? _ := all_equal InvalidValidity (map (fun '(k, v) => (k, valid_interval v)) intervals) in
  if negb (valid_range (allowed_offset lease) (allowed_length lease) (blob_length (ak_member (le_key lease))))
  then Err InvalidLeaseRange
  else
    let request := request a in
    if READ_BYTES_PER_REQUEST_MAX <? length (rtarget request) then Err ReadLimitExceeded
    else if negb (valid_range (offset (rtarget request)) (length (rtarget request)) (blob_length (member (rtarget request))))
    then Err InvalidRequestRange
    else
      let key := {| ak_binding := caller; ak_member := member (rtarget request) |} in
      let? _ := binding_matches (ex_binding execution) caller KExecution in
      let? _ := key_matches (in_key input) key KInput in
      let? _ := key_matches (po_key policy) key KPolicy in
      let? _ := binding_matches (rt_binding runtime) caller KRuntime in
      let? _ := key_matches (le_key lease) key KLease in
      let? _ := key_matches (rv_key revocation) key KRevocation in
      if negb (in_run_revision input =? ex_run_revision execution) then Err RunRevisionMismatch
      else if negb (bool_decide (lease_record_key request = le_record_key lease)) then Err LeaseRecordMismatch
      else
        let? _ := all_equal GrantKeyMismatch
          [ (KLease, bool_decide (le_grant_key lease = grant_key policy));
            (KRevocation, bool_decide (rv_grant_key revocation = grant_key policy)) ] in
        let? _ := all_equal GrantRevisionMismatch
          [ (KLease, le_grant_revision lease =? grant_revision policy);
            (KRevocation, rv_grant_revision revocation =? grant_revision policy) ] in
        let? _ := all_equal PolicyRevisionMismatch
          [ (KLease, le_policy_revision lease =? policy_revision policy);
            (KRevocation, rv_policy_revision revocation =? policy_revision policy) ] in
        if bnow_ms clock <? blast_observed_ms clock then Err BrokerClockRollback
        else
          let? _ := check_windows (bnow_ms clock) intervals in
          if rv_epoch revocation <? minimum_revocation_epoch clock then Err RevocationRollback
          else if negb (revocation_epoch lease =? rv_epoch revocation) then Err LeaseEpochMismatch
          else if negb (bool_decide (run_state execution = RunActive)) then Err RunNotActive
          else if negb (bool_decide (membership input = Present)) then Err NotRunInput
          else if negb (bool_decide (le_state lease = LeaseActive)) then Err LeaseNotActive
          else if negb (bool_decide (rv_state revocation = RevocationClear)) then Err RevocationDenied
          else if negb (bool_decide (Manifest.digest (package a) = manifest_digest (execution_identity caller)))
          then Err ManifestMismatch
          else if negb (read_requested (package a)) then Err ReadNotRequested
          else if match Review.clock (review a) with
                  | Checked review_clock => negb (now_ms review_clock =? bnow_ms clock)
                  | _ => false
                  end
          then Err ReviewClockMismatch
          else
            let? review := map_err ReviewRejected (evaluate_review_eligibility (review a)) in
            if negb (bool_decide (cand_identity review = execution_identity caller)) then Err ReviewIdentityMismatch
            else if negb (bool_decide (rt_disposition runtime = QualifiedReviewed)) then Err RuntimeNotQualified
            else if negb (bool_decide (trust = AllowReviewed)) then Err (PluginTrustDenied trust)
            else
              let? _ := check_policies
                [ (PPackage, package_policy policy); (PInstalledGrant, installed_grant policy);
                  (PProject, project_policy policy); (POwner, owner_policy policy); (PData, data_policy policy) ] in
              if offset (rtarget request) <? allowed_offset lease then Err LeaseRangeDenied
              else
                let delta := offset (rtarget request) - allowed_offset lease in
                if (allowed_length lease <? delta) || (allowed_length lease - delta <? length (rtarget request))
                then Err LeaseRangeDenied
                else if remaining_operations lease =? 0 then Err OperationBudgetExhausted
                else if remaining_bytes lease <? length (rtarget request) then Err ByteBudgetExhausted
                else
                  let valid_until := foldl (fun u '(_, v) => Z.min u (end_ms v)) (valid_until_ms review) intervals in
                  Ok {| bc_request := request; bc_authorization_key := key; bc_run_revision := ex_run_revision execution;
                        bc_policy_revision := policy_revision policy; bc_grant_revision := grant_revision policy;
                        bc_grant_key := grant_key policy; bc_revocation_epoch := rv_epoch revocation;
                        bc_runtime_qualification_digest := qualification_digest runtime; bc_review := review;
                        bc_plugin_trust_decision := trust; bc_evaluated_at := bnow_ms clock;
                        bc_valid_until := valid_until |}.

(** ** Decision and audit *)

Inductive BrokerReadDecision := Eligible (c : BrokerReadCandidate) | Denied (d : BrokerReadDenial).
Inductive BrokerAuditDecision := AuditEligible | AuditDenied (d : BrokerReadDenial).
(** A [CallerAsserted] value is the value. *)
Record BrokerReadAuditCandidate := {
  requested : BrokerReadRequest; decision_ : BrokerAuditDecision; au_caller : option BrokerBinding;
  au_evaluated_at : option Z; au_run_revision : option Z; au_policy_revision : option Z; au_grant_revision : option Z;
  au_runtime_qualification_digest : option BrokerDigest; au_review_approval : option BrokerDigest;
  au_review_evidence : option BrokerDigest; au_review_policy : option Z; au_review_snapshot_epoch : option Z;
  au_plugin_trust : option (ReviewFact BrokerPluginTrustDecision) }.
Record BrokerReadEvaluation := { decision : BrokerReadDecision; audit : BrokerReadAuditCandidate }.

Definition ofilter {A} (p : A -> bool) (o : option A) : option A :=
  match o with Some a => if p a then Some a else None | None => None end.

Definition evaluate_broker_read (a : BrokerReadAssessment) : BrokerReadEvaluation :=
  let result := assess a in
  let policy := ofilter (fun p => (0 <? policy_revision p) && (0 <? grant_revision p) && valid_interval (po_validity p))
                  (supplied (policy a)) in
  let execution := ofilter (fun e => (0 <? ex_run_revision e) && valid_interval (ex_validity e)) (supplied (execution a)) in
  let runtime := ofilter (fun r => valid_interval (rt_validity r)) (supplied (runtime a)) in
  let approval := ofilter (fun r => valid_interval (app_validity r)) (supplied (approval (review a))) in
  let snapshot := ofilter (fun r => valid_interval (snap_validity r)) (supplied (revocation (review a))) in
  {| decision := match result with Ok v => Eligible v | Err e => Denied e end;
     audit := {|
       requested := request a;
       decision_ := match result with Ok _ => AuditEligible | Err e => AuditDenied e end;
       au_caller := supplied (caller a);
       au_evaluated_at := bnow_ms <$> ofilter (fun c => blast_observed_ms c <=? bnow_ms c) (supplied (bclock a));
       au_run_revision := ex_run_revision <$> execution; au_policy_revision := policy_revision <$> policy;
       au_grant_revision := grant_revision <$> policy;
       au_runtime_qualification_digest := qualification_digest <$> runtime;
       au_review_approval := record_digest <$> approval; au_review_evidence := app_evidence_digest <$> approval;
       au_review_policy := app_policy_version <$> approval; au_review_snapshot_epoch := snap_epoch <$> snapshot;
       au_plugin_trust := plugin_trust <$> policy |} |}.
End Broker.
