(* ===== verification/BrokerFacts.v ===== *)
(** What an eligible broker read means.

    [authorized] lists the agreement of all facts behind a candidate; the theorems
    show that [assess] decides exactly it, that the bytes read lie inside the lease
    and the blob, and that the audit record tells the same story. *)
From Stdlib Require Import ZArith Lia String Strings.Byte Init.Byte.
From stdpp Require Import prelude list.
From S2P Require Import Prelude RustText Types ManifestJson PluginManifest PluginManifestFacts ReviewedAdmission BrokerFoundation.

Set Warnings "-clear-no-such-hyp".

Module BrokerFacts.
Import Review Broker.

Record Facts := {
  f_caller : BrokerBinding; f_execution : ExecutionFact; f_input : RunInputFact; f_policy : ReadPolicyFact;
  f_runtime : ReadRuntimeFact; f_lease : ReadLeaseFact; f_revocation : ReadRevocationFact; f_clock : BrokerClock;
  f_review : ReviewEligibilityCandidate }.

Definition target (a : BrokerReadAssessment) : ReadTarget := rtarget (request a).
Definition key_of (a : BrokerReadAssessment) (F : Facts) : ReadAuthorizationKey :=
  {| ak_binding := f_caller F; ak_member := member (target a) |}.
Definition windows (F : Facts) : list ReviewValidity :=
  [ex_validity (f_execution F); po_validity (f_policy F); rt_validity (f_runtime F); le_validity (f_lease F);
   rv_validity (f_revocation F)].

Record authorized (a : BrokerReadAssessment) (F : Facts) : Prop := {
  (** every fact was checked *)
  au_caller_fact : caller a = Checked (f_caller F);
  au_execution_fact : execution a = Checked (f_execution F);
  au_input_fact : input a = Checked (f_input F);
  au_policy_fact : policy a = Checked (f_policy F);
  au_runtime_fact : runtime a = Checked (f_runtime F);
  au_lease_fact : lease a = Checked (f_lease F);
  au_revocation_fact : brevocation a = Checked (f_revocation F);
  au_clock_fact : bclock a = Checked (f_clock F);
  (** about the caller's own run, this member and one grant and policy *)
  au_execution_binding : ex_binding (f_execution F) = f_caller F;
  au_runtime_binding : rt_binding (f_runtime F) = f_caller F;
  au_input_key : in_key (f_input F) = key_of a F;
  au_policy_key : po_key (f_policy F) = key_of a F;
  au_lease_key : le_key (f_lease F) = key_of a F;
  au_revocation_key : rv_key (f_revocation F) = key_of a F;
  au_lease_record : lease_record_key (request a) = le_record_key (f_lease F);
  au_run_revision_eq : in_run_revision (f_input F) = ex_run_revision (f_execution F) /\ ex_run_revision (f_execution F) <> 0;
  au_grant : le_grant_key (f_lease F) = grant_key (f_policy F) /\ rv_grant_key (f_revocation F) = grant_key (f_policy F);
  au_grant_revision_eq : le_grant_revision (f_lease F) = grant_revision (f_policy F) /\
    rv_grant_revision (f_revocation F) = grant_revision (f_policy F) /\ grant_revision (f_policy F) <> 0;
  au_policy_revision_eq : le_policy_revision (f_lease F) = policy_revision (f_policy F) /\
    rv_policy_revision (f_revocation F) = policy_revision (f_policy F) /\ policy_revision (f_policy F) <> 0;
  (** now *)
  au_no_rollback : blast_observed_ms (f_clock F) <= bnow_ms (f_clock F);
  au_windows : Forall (fun v => in_window v (bnow_ms (f_clock F))) (windows F);
  au_epoch : minimum_revocation_epoch (f_clock F) <= rv_epoch (f_revocation F);
  au_lease_epoch : revocation_epoch (f_lease F) = rv_epoch (f_revocation F);
  (** in a permitting state *)
  au_active : run_state (f_execution F) = RunActive /\ membership (f_input F) = Present /\
    le_state (f_lease F) = LeaseActive /\ rv_state (f_revocation F) = RevocationClear;
  au_manifest : Manifest.digest (package a) = manifest_digest (execution_identity (f_caller F));
  au_requested : Manifest.requested_permissions (package a) = [ManifestFacts.the_permission];
  au_review : evaluate_review_eligibility (review a) = Ok (f_review F);
  au_review_now : evaluated_at_ms (f_review F) = bnow_ms (f_clock F);
  au_review_identity : cand_identity (f_review F) = execution_identity (f_caller F);
  au_runtime_qualified : rt_disposition (f_runtime F) = QualifiedReviewed;
  au_trust : plugin_trust (f_policy F) = Checked AllowReviewed;
  au_policies : Forall (fun d => d = Permit)
    [package_policy (f_policy F); installed_grant (f_policy F); project_policy (f_policy F); owner_policy (f_policy F);
     data_policy (f_policy F)];
  (** inside the lease and its budgets *)
  au_length : 0 < length (target a) <= READ_BYTES_PER_REQUEST_MAX;
  au_in_blob : offset (target a) <= blob_length (member (target a)) /\
    offset (target a) + length (target a) <= blob_length (member (target a));
  au_lease_in_blob : 0 < allowed_length (f_lease F) /\ allowed_offset (f_lease F) <= blob_length (member (target a)) /\
    allowed_offset (f_lease F) + allowed_length (f_lease F) <= blob_length (member (target a));
  au_in_lease : allowed_offset (f_lease F) <= offset (target a) /\
    offset (target a) + length (target a) <= allowed_offset (f_lease F) + allowed_length (f_lease F);
  au_budget : remaining_operations (f_lease F) <> 0 /\ length (target a) <= remaining_bytes (f_lease F);
}.

Definition candidate_of (a : BrokerReadAssessment) (F : Facts) : BrokerReadCandidate := {|
  bc_request := request a; bc_authorization_key := key_of a F; bc_run_revision := ex_run_revision (f_execution F);
  bc_policy_revision := policy_revision (f_policy F); bc_grant_revision := grant_revision (f_policy F);
  bc_grant_key := grant_key (f_policy F); bc_revocation_epoch := rv_epoch (f_revocation F);
  bc_runtime_qualification_digest := qualification_digest (f_runtime F); bc_review := f_review F;
  bc_plugin_trust_decision := AllowReviewed; bc_evaluated_at := bnow_ms (f_clock F);
  bc_valid_until := foldl Z.min (valid_until_ms (f_review F)) (map end_ms (windows F)) |}.

(** ** The comparisons *)

Lemma binding_matches_ok a e k : binding_matches a e k = Ok tt <-> a = e.
Proof.
  unfold binding_matches. rewrite all_equal_ok. unfold binding_comparison. rewrite Forall_app, !Forall_cons. cbn [snd].
  assert (Hid : Forall (fun x => x.2 = true)
     (map (fun '(f, b) => (FIdentity f, b)) (identity_comparison (execution_identity a) (execution_identity e)))
     <-> execution_identity a = execution_identity e).
  { rewrite <- identity_equal. rewrite Forall_map. apply Forall_proper; [|done]. intros [f b]. done. }
  rewrite Hid, !bool_decide_eq_true, Z.eqb_eq. destruct a, e. cbn. split; [naive_solver|].
  intros [= -> -> -> -> -> -> ->]. by split_and!.
Qed.

Lemma member_equal a e : Forall (fun x => x.2 = true) (member_comparison a e) <-> a = e.
Proof.
  unfold member_comparison. rewrite !Forall_cons. cbn [snd]. rewrite !bool_decide_eq_true, !Z.eqb_eq. destruct a, e. cbn.
  split; [naive_solver|]. intros [= -> -> -> -> -> ->]. by split_and!.
Qed.

Lemma key_matches_ok a e k : key_matches a e k = Ok tt <-> a = e.
Proof.
  unfold key_matches. rewrite result_bind_ok. setoid_rewrite all_equal_ok. setoid_rewrite member_equal.
  destruct a, e. cbn. split.
  - intros ([] & ->%binding_matches_ok & ->). done.
  - intros [= -> ->]. exists tt. split; [by apply binding_matches_ok|done].
Qed.

Lemma check_windows_ok now l : check_windows now l = Ok tt <-> Forall (fun x => in_window x.2 now) l.
Proof.
  induction l as [|[k v] l IH]; cbn; [by split; constructor|]. unfold in_window at 1.
  rewrite Forall_cons, <- IH. unfold in_window. cbn [snd].
  destruct (now <? start_ms v) eqn:E1; bool_hyps; [split; [done|lia]|].
  destruct (end_ms v <=? now) eqn:E2; bool_hyps; [split; [done|lia]|]. split; [|tauto]. intros. split; [lia|done].
Qed.

Lemma check_policies_ok l : check_policies l = Ok tt <-> Forall (fun x => x.2 = Permit) l.
Proof.
  induction l as [|[f d] l IH]; cbn; [by split; constructor|]. rewrite Forall_cons, <- IH. cbn [snd].
  case_bool_decide; cbn; naive_solver.
Qed.

Lemma valid_range_ok o n t : valid_range o n t = true <-> 0 < n /\ o <= t /\ o + n <= t.
Proof. unfold valid_range. rewrite !andb_true_iff, Z.ltb_lt, !Z.leb_le. lia. Qed.

Lemma read_requested_ok p : read_requested p = true <-> Manifest.requested_permissions p = [ManifestFacts.the_permission].
Proof.
  unfold read_requested. destruct (Manifest.requested_permissions p) as [|[k s] [|q l]]; try done.
  rewrite andb_true_iff, !bool_decide_eq_true. cbn. unfold ManifestFacts.the_permission. naive_solver.
Qed.

Lemma review_now a c k : clock a = Checked k -> evaluate_review_eligibility a = Ok c -> evaluated_at_ms c = now_ms k.
Proof.
  intros Hk (r & p & s & k' & [] & ->)%evaluate_ok. cbn. congruence.
Qed.

(** One monadic check was passed. *)
Tactic Notation "step_ok" hyp(E) "as" ident(H) :=
  match type of E with
  | result_bind ?c _ = Ok _ => destruct c as [[]|] eqn:H; [|discriminate E]; cbn [result_bind] in E
  end.
Tactic Notation "fact" hyp(E) "as" ident(x) ident(H) :=
  match type of E with
  | context [checked ?f ?k] => destruct f as [| | |x] eqn:H; try discriminate E; cbn [checked result_bind] in E
  end.

Lemma revisions_nonzero {F} (l : list (F * Z)) :
  Forall (fun x => x.2 = true) (map (fun '(f, v) => (f, negb (v =? 0))) l) <-> Forall (fun x => x.2 <> 0) l.
Proof.
  rewrite Forall_map. apply Forall_proper; [|done]. intros [f v]. cbn.
  rewrite negb_true_iff, Z.eqb_neq. done.
Qed.

Lemma assess_sound a c : assess a = Ok c -> exists F, authorized a F /\ c = candidate_of a F.
Proof.
  unfold assess. intros E.
  fact E as cl Hcl. fact E as ex Hex. fact E as inp Hinp. fact E as po Hpo. fact E as tr Htr. fact E as rt Hrt.
  fact E as le Hle. fact E as rv Hrv. fact E as ck Hck.
  step_ok E as Hrev. apply all_equal_ok, revisions_nonzero in Hrev. rewrite !Forall_cons in Hrev. cbn [snd] in Hrev.
  step_ok E as Hval. clear Hval. passed E as Hlr. passed E as Hmax. passed E as Hrr.
  step_ok E as Hb1. step_ok E as Hk1. step_ok E as Hk2. step_ok E as Hb2. step_ok E as Hk3. step_ok E as Hk4.
  apply binding_matches_ok in Hb1, Hb2. apply key_matches_ok in Hk1, Hk2, Hk3, Hk4.
  passed E as Hrun. passed E as Hrec. step_ok E as Hgk. step_ok E as Hgr. step_ok E as Hpr.
  apply all_equal_ok in Hgk, Hgr, Hpr. rewrite !Forall_cons in Hgk, Hgr, Hpr. cbn [snd] in Hgk, Hgr, Hpr.
  passed E as Hroll. step_ok E as Hwin. apply check_windows_ok in Hwin.
  passed E as Hep. passed E as Hlep. passed E as Hact. passed E as Hmem. passed E as Hlst. passed E as Hrvs.
  passed E as Hman. passed E as Hreq. passed E as Hrc.
  destruct (evaluate_review_eligibility (review a)) as [rc|] eqn:Hreview; [|discriminate E]. cbn [map_err result_bind] in E.
  passed E as Hrid. passed E as Hqual. passed E as Htrust. step_ok E as Hpol. apply check_policies_ok in Hpol.
  passed E as Hl1. passed E as Hl2. passed E as Hops. passed E as Hbytes. injection E as <-.
  apply negb_false_iff, valid_range_ok in Hlr, Hrr. apply negb_false_iff, read_requested_ok in Hreq.
  destruct Hgk as (Hgk1 & Hgk2 & _), Hgr as (Hgr1 & Hgr2 & _), Hpr as (Hpr1 & Hpr2 & _). bool_hyps. subst tr.
  assert (Hnow : evaluated_at_ms rc = bnow_ms ck).
  { destruct (proj1 (evaluate_ok _ _) Hreview) as (r' & p' & s' & k' & Hel & ->). cbn.
    rewrite (el_clock _ _ _ _ _ Hel) in Hrc. by bool_hyps. }
  exists {| f_caller := cl; f_execution := ex; f_input := inp; f_policy := po; f_runtime := rt; f_lease := le;
            f_revocation := rv; f_clock := ck; f_review := rc |}.
  split; [|done].
  assert (Hlk : blob_length (ak_member (le_key le)) = blob_length (member (rtarget (request a)))) by (by rewrite Hk3).
  rewrite Hlk in Hlr. rewrite !Forall_cons in Hwin. rewrite !Forall_cons in Hpol. cbn [snd] in Hwin, Hpol.
  destruct Hwin as (? & ? & ? & ? & ? & _), Hpol as (? & ? & ? & ? & ? & _).
  constructor; unfold target, key_of, windows;
    cbn [f_caller f_execution f_input f_policy f_runtime f_lease f_revocation f_clock f_review];
    rewrite ?Forall_cons; first [done | split_and!; first [done|lia|congruence]].
Qed.

(** A check that holds. *)
Ltac goes_through := first
  [ rewrite (proj2 (binding_matches_ok _ _ _)) by assumption | rewrite (proj2 (key_matches_ok _ _ _)) by assumption
  | rewrite (proj2 (check_windows_ok _ _)) by (rewrite !Forall_cons; cbn [snd]; by split_and!)
  | rewrite (proj2 (check_policies_ok _)) by (rewrite !Forall_cons; cbn [snd]; by split_and!) ]; cbn [result_bind].

Lemma assess_complete a F : authorized a F -> assess a = Ok (candidate_of a F).
Proof.
  intros []. unfold assess. unfold target, key_of, windows in *.
  rewrite au_caller_fact0, au_execution_fact0, au_input_fact0, au_policy_fact0. cbn [checked result_bind].
  rewrite au_trust0, au_runtime_fact0, au_lease_fact0, au_revocation_fact0, au_clock_fact0. cbn [checked result_bind].
  destruct au_run_revision_eq0 as [Hrun Hrun0], au_grant0 as [Hg1 Hg2], au_grant_revision_eq0 as (Hgr1 & Hgr2 & Hgr0),
    au_policy_revision_eq0 as (Hpr1 & Hpr2 & Hpr0), au_active0 as (Ha1 & Ha2 & Ha3 & Ha4).
  rewrite !Forall_cons in au_windows0. destruct au_windows0 as (Hw1 & Hw2 & Hw3 & Hw4 & Hw5 & _).
  rewrite !Forall_cons in au_policies0. destruct au_policies0 as (Hp1 & Hp2 & Hp3 & Hp4 & Hp5 & _).
  assert (Hk : blob_length (ak_member (le_key (f_lease F))) = blob_length (member (rtarget (request a)))) by (by rewrite au_lease_key0).
  rewrite (proj2 (all_equal_ok InvalidRevision _)) by (apply revisions_nonzero; rewrite !Forall_cons; cbn [snd]; split_and!; congruence || done).
  cbn [result_bind].
  rewrite (proj2 (all_equal_ok InvalidValidity _))
    by (rewrite Forall_map, !Forall_cons; unfold in_window, valid_interval in *; cbn; rewrite !Z.ltb_lt; split_and!; lia || done).
  cbn [result_bind]. rewrite Hk, (proj2 (valid_range_ok (allowed_offset _) _ _)) by lia. cbn [negb].
  rewrite (proj2 (Z.ltb_ge READ_BYTES_PER_REQUEST_MAX _)) by lia. rewrite (proj2 (valid_range_ok (offset _) _ _)) by lia.
  cbn [negb]. do 6 goes_through.
  rewrite (proj2 (Z.eqb_eq (in_run_revision _) _)) by done. rewrite (bool_decide_eq_true_2 (lease_record_key _ = _)) by done.
  cbn [negb all_equal]. rewrite !bool_decide_eq_true_2 by done. rewrite !(proj2 (Z.eqb_eq _ _)) by done. cbn [all_equal result_bind negb].
  rewrite (proj2 (Z.ltb_ge (bnow_ms _) _)) by done. goes_through.
  rewrite (proj2 (Z.ltb_ge (rv_epoch _) _)) by done. cbn [negb].
  rewrite (proj2 (read_requested_ok _)) by done. cbn [negb].
  destruct (proj1 (evaluate_ok _ _) au_review0) as (r & p & sn & k & Hel & Hrc).
  rewrite (el_clock _ _ _ _ _ Hel). rewrite Hrc in au_review_now0. cbn in au_review_now0.
  rewrite (proj2 (Z.eqb_eq _ _) au_review_now0). cbn [negb]. rewrite au_review0. cbn [map_err result_bind].
  rewrite bool_decide_eq_true_2 by done. cbn [negb]. goes_through.
  rewrite (proj2 (Z.ltb_ge (offset _) _)), (proj2 (Z.ltb_ge (allowed_length _) _)), (proj2 (Z.ltb_ge (_ - _) _)) by lia. cbn [orb].
  rewrite (proj2 (Z.eqb_neq _ 0)), (proj2 (Z.ltb_ge (remaining_bytes _) _)) by tauto. done.
Qed.

Lemma assess_ok a c : assess a = Ok c <-> exists F, authorized a F /\ c = candidate_of a F.
Proof. split; [apply assess_sound|]. intros (F & HF & ->). by apply assess_complete. Qed.

(** ** Windows and the audit record *)

Lemma foldl_min u l : foldl Z.min u l <= u /\ Forall (fun x => foldl Z.min u l <= x) l.
Proof.
  revert u. induction l as [|x l IH]; intros u; cbn; [split; [lia|constructor]|].
  destruct (IH (u `min` x)) as [H1 H2]. split; [lia|]. constructor; [lia|done].
Qed.
Lemma foldl_min_lt t u l : t < u -> Forall (fun x => t < x) l -> t < foldl Z.min u l.
Proof.
  intros Hu Hl. revert u Hu. induction Hl as [|x l Hx _ IH]; intros u Hu; cbn; [done|]. apply IH. lia.
Qed.

Lemma candidate_window a F : authorized a F ->
  bc_evaluated_at (candidate_of a F) < bc_valid_until (candidate_of a F) <= valid_until_ms (f_review F) /\
  Forall (fun v => bc_valid_until (candidate_of a F) <= end_ms v) (windows F).
Proof.
  intros []. cbn [candidate_of bc_evaluated_at bc_valid_until].
  destruct (proj1 (evaluate_ok _ _) au_review0) as (r & p & sn & k & Hel & Hrc).
  destruct (foldl_min (valid_until_ms (f_review F)) (map end_ms (windows F))) as [H1 H2]. split.
  - split; [|done]. apply foldl_min_lt.
    + rewrite Hrc in au_review_now0 |- *. cbn in *. destruct Hel. unfold in_window in *. lia.
    + apply Forall_map. eapply Forall_impl; [exact au_windows0|]. unfold in_window. intros v ?. cbn. lia.
  - exact (proj1 (Forall_map _ _ _) H2).
Qed.

(** The audit record of an eligible read names the facts behind its candidate.
    Revisions are unsigned in the source. *)
Definition audit_tells (c : BrokerReadCandidate) (u : BrokerReadAuditCandidate) : Prop :=
  requested u = bc_request c /\ decision_ u = AuditEligible /\ au_caller u = Some (ak_binding (bc_authorization_key c)) /\
  au_evaluated_at u = Some (bc_evaluated_at c) /\ au_run_revision u = Some (bc_run_revision c) /\
  au_policy_revision u = Some (bc_policy_revision c) /\ au_grant_revision u = Some (bc_grant_revision c) /\
  au_runtime_qualification_digest u = Some (bc_runtime_qualification_digest c) /\
  au_review_approval u = Some (cand_approval_record_digest (bc_review c)) /\
  au_review_evidence u = Some (cand_evidence_digest (bc_review c)) /\
  au_review_policy u = Some (cand_policy_version (bc_review c)) /\
  au_review_snapshot_epoch u = Some (snapshot_epoch (bc_review c)) /\
  au_plugin_trust u = Some (Checked (bc_plugin_trust_decision c)).

Definition unsigned_revisions (a : BrokerReadAssessment) : Prop :=
  (forall e, execution a = Checked e -> 0 <= ex_run_revision e) /\
  (forall p, policy a = Checked p -> 0 <= policy_revision p /\ 0 <= grant_revision p).

Lemma window_valid v t : in_window v t -> valid_interval v = true.
Proof. unfold in_window, valid_interval. intros ?. apply Z.ltb_lt. lia. Qed.

Lemma audit_of_eligible a F :
  authorized a F -> unsigned_revisions a -> audit_tells (candidate_of a F) (audit (evaluate_broker_read a)).
Proof.
  intros HF [He Hp]. pose proof (assess_complete a F HF) as Ha. destruct HF.
  specialize (He _ au_execution_fact0). specialize (Hp _ au_policy_fact0).
  destruct (proj1 (evaluate_ok _ _) au_review0) as (r & p & sn & k & Hel & Hrc).
  unfold windows in au_windows0. rewrite !Forall_cons in au_windows0. destruct au_windows0 as (Hw1 & Hw2 & Hw3 & Hw4 & Hw5 & _).
  unfold audit_tells, evaluate_broker_read. rewrite Ha.
  cbn [audit requested decision_ au_caller au_evaluated_at au_run_revision au_policy_revision au_grant_revision
    au_runtime_qualification_digest au_review_approval au_review_evidence au_review_policy au_review_snapshot_epoch au_plugin_trust].
  rewrite au_caller_fact0, au_execution_fact0, au_policy_fact0, au_runtime_fact0, au_clock_fact0.
  rewrite (el_approval _ _ _ _ _ Hel), (el_revocation _ _ _ _ _ Hel). cbn [supplied ofilter].
  rewrite (window_valid _ _ Hw1), (window_valid _ _ Hw2), (window_valid _ _ Hw3),
    (window_valid _ _ (el_approval_window _ _ _ _ _ Hel)), (window_valid _ _ (el_snapshot_window _ _ _ _ _ Hel)).
  rewrite (proj2 (Z.leb_le _ _)) by done. rewrite !(proj2 (Z.ltb_lt 0 _)) by lia. cbn [andb].
  unfold candidate_of. cbn. rewrite Hrc. cbn. by rewrite au_trust0.
Qed.

Lemma decision_assess a c : decision (evaluate_broker_read a) = Eligible c <-> assess a = Ok c.
Proof. cbn. destruct (assess a); naive_solver. Qed.

(** ** A concrete read *)

Module Golden.
Definition key (b : Byte.byte) : BrokerKey := repeat b 16.
Definition digest32 (b : Byte.byte) : BrokerDigest := repeat b 32.
Definition identity : ReviewIdentity := {|
  manifest_digest := digest32 x11; artifact_digest := digest32 x12; dependency_closure_digest := digest32 x13;
  permissions_digest := digest32 x14; profile_digest := digest32 x15; platform_tuple_digest := digest32 x16 |}.
Definition always : ReviewValidity := {| start_ms := 10; end_ms := 100 |}.
Definition reviewed : ReviewAssessment := {|
  requirement := Checked {| req_identity := identity; req_policy_version := 3; req_evidence_digest := digest32 x21 |};
  approval := Checked {| app_identity := identity; app_policy_version := 3; app_evidence_digest := digest32 x21;
    record_digest := digest32 x22; app_validity := always |};
  revocation := Checked {| approval_record_digest := digest32 x22; status := StatusClear; snap_epoch := 5;
    snap_validity := always |};
  clock := Checked {| now_ms := 50; last_observed_ms := 49; minimum_snapshot_epoch := 5 |} |}.
Definition binding : BrokerBinding := {|
  library_key := key x31; owner_uid := 501; project_key := key x32; run_key := key x33; instance_key := key x34;
  channel_key := key x35; execution_identity := identity |}.
Definition the_member : BrokerMember := {|
  asset_revision_key := key x41; representation_key := key x42; resource_key := key x43; member_ordinal := 0;
  blob_digest := digest32 x44; blob_length := 4096 |}.
Definition auth : ReadAuthorizationKey := {| ak_binding := binding; ak_member := the_member |}.
Definition read (off len ops : Z) : BrokerReadAssessment := {|
  request := {| request_key := key x51; correlation_key := key x52; lease_record_key := key x53;
    rtarget := {| member := the_member; offset := off; length := len |} |};
  caller := Checked binding;
  execution := Checked {| ex_binding := binding; run_state := RunActive; ex_run_revision := 2; ex_validity := always |};
  input := Checked {| in_key := auth; in_run_revision := 2; membership := Present |};
  package := ManifestFacts.Golden.package ManifestFacts.Golden.one;
  review := reviewed;
  policy := Checked {| po_key := auth; policy_revision := 7; grant_key := key x54; grant_revision := 8;
    po_validity := always; plugin_trust := Checked AllowReviewed; package_policy := Permit; installed_grant := Permit;
    project_policy := Permit; owner_policy := Permit; data_policy := Permit |};
  runtime := Checked {| rt_binding := binding; qualification_digest := digest32 x55;
    rt_validity := {| start_ms := 10; end_ms := 60 |}; rt_disposition := QualifiedReviewed |};
  lease := Checked {| le_record_key := key x53; le_key := auth; le_grant_key := key x54; le_grant_revision := 8;
    le_policy_revision := 7; revocation_epoch := 9; le_validity := always; le_state := LeaseActive;
    allowed_offset := 1024; allowed_length := 2048; remaining_operations := ops; remaining_bytes := 512 |};
  brevocation := Checked {| rv_key := auth; rv_grant_key := key x54; rv_grant_revision := 8; rv_policy_revision := 7;
    rv_epoch := 9; rv_validity := always; rv_state := RevocationClear |};
  bclock := Checked {| bnow_ms := 50; blast_observed_ms := 50; minimum_revocation_epoch := 9 |} |}.

Example golden_reads :
  match assess (read 1024 512 1) with Ok c => bc_valid_until c = 60 | Err _ => False end /\
  assess (read 1023 512 1) = Err LeaseRangeDenied /\ assess (read 3072 1 1) = Err LeaseRangeDenied /\
  assess (read 4096 1 1) = Err InvalidRequestRange /\ assess (read 0 1048577 1) = Err ReadLimitExceeded /\
  assess (read 1024 512 0) = Err OperationBudgetExhausted /\ assess (read 1024 513 1) = Err ByteBudgetExhausted.
Proof. split_and!; vm_compute; reflexivity. Qed.
End Golden.

(** A broker read is eligible exactly when every fact was checked and all of
    them agree: same caller, run, member, grant and policy revisions, permitting
    states, an eligible review made at the same instant, every validity window open
    now, and the requested bytes inside the blob, the lease, the 1 MiB request limit
    and the remaining budgets.  The candidate then expires with the first of those
    windows, which is still open; the audit record tells the facts the candidate
    was made of, and a denied read is audited with the denial that was returned. *)
Theorem broker_read_exact (a : BrokerReadAssessment) :
  (forall c, decision (evaluate_broker_read a) = Eligible c <-> exists F, authorized a F /\ c = candidate_of a F) /\
  (forall F, authorized a F ->
     bc_evaluated_at (candidate_of a F) < bc_valid_until (candidate_of a F) <= valid_until_ms (f_review F) /\
     Forall (fun v => bc_valid_until (candidate_of a F) <= end_ms v) (windows F)) /\
  (forall c, unsigned_revisions a -> decision (evaluate_broker_read a) = Eligible c ->
     audit_tells c (audit (evaluate_broker_read a))) /\
  (forall d, decision (evaluate_broker_read a) = Denied d ->
     decision_ (audit (evaluate_broker_read a)) = AuditDenied d /\ requested (audit (evaluate_broker_read a)) = request a).
Proof.
  split_and!.
  - intros c. rewrite decision_assess. apply assess_ok.
  - apply candidate_window.
  - intros c Hu (F & HF & ->)%decision_assess%assess_ok. by apply audit_of_eligible.
  - intros d. cbn. destruct (assess a); naive_solver.
Qed.
End BrokerFacts.
