(* ===== verification/PluginHost.v ===== *)
(** The plugin host: mengxia-plugin-host (error.rs, limits.rs, session.rs).

    A session is a driver task that owns the plugin's streams and any number of
    callers that share its handle.  [Host] is the state of both and [step] one atomic
    action of one of them: a poll of the driver with whatever the streams have ready,
    one synchronous segment of a caller between two accesses to the shared flags, a
    cancellation, the passing of time.  A poll may happen at any moment, so waking is
    not part of the state.  Instants and durations are nanoseconds. *)
From Stdlib Require Import ZArith Lia Strings.Byte Init.Byte.
From stdpp Require Import prelude list gmap.
From S2P Require Import Prelude RustText Types Framing PluginWire.

Set Warnings "-clear-no-such-hyp".

Module Host.
Import Wire Codec.

(** ** error.rs *)

Inductive PluginRequestFailure := UnsupportedRequest | InvalidRequest | Internal.
Inductive TerminationRequired := ProtocolFailure | ResourceLimit | ShutdownRejected | Cancellation | InternalFailure.
Record PluginHostError := { code : ErrorCode; termination : option TerminationRequired }.
Definition new (c : ErrorCode) : PluginHostError := {| code := c; termination := None |}.
Definition terminal (c : ErrorCode) (reason : TerminationRequired) : PluginHostError :=
  {| code := c; termination := Some reason |}.
Inductive RequestOutcome (T : Type) := Completed (v : T) | Rejected (f : PluginRequestFailure).
Arguments Completed {T} v.
Arguments Rejected {T} f.
Inductive SessionClose := CooperativeShutdown.
Abbreviation res A := (result PluginHostError A).

Definition protocol_failure : PluginHostError := terminal PluginProtocolViolation ProtocolFailure.
Definition cancelled_ : PluginHostError := terminal OperationCancelled Cancellation.
Definition deadline_exceeded : PluginHostError := terminal DeadlineExceeded Cancellation.
Definition resource_limit : PluginHostError := terminal PluginProtocolViolation ResourceLimit.
Definition internal_failure : PluginHostError := terminal InternalError InternalFailure.
Definition map_codec_error (e : ProtocolCodecError) : PluginHostError :=
  match e with
  | Transport => terminal IpcTransportError ProtocolFailure
  | AllocationUnavailable => terminal Backpressure ProtocolFailure
  | InvalidLimit => terminal InternalError InternalFailure
  | _ => protocol_failure
  end.

(** ** limits.rs *)

Definition millis (z : Z) : Z := z * 1000000.
Definition DEFAULT_CONTROL_FRAME_BYTES : Z := 262144.
Definition DEFAULT_DECODE_DEPTH : Z := 16.
Definition DEFAULT_INBOUND_FRAMES : Z := 16.
Definition DEFAULT_OUTBOUND_FRAMES : Z := 16.
Definition DEFAULT_ACTIVE_SESSIONS : Z := 4.
Definition STDERR_BUFFER_BYTES : Z := 8192.
Definition DEFAULT_STDERR_TOTAL_BYTES : Z := 1048576.
Definition DEFAULT_HANDSHAKE_TIMEOUT : Z := millis 5000.
Definition DEFAULT_REQUEST_TIMEOUT : Z := millis 30000.
Definition DEFAULT_SHUTDOWN_TIMEOUT : Z := millis 2000.
Definition MAX_AGGREGATE_PAYLOAD_BYTES : Z := 37781504.

Record PluginHostLimits := {
  frame_limit : Framing.FrameLimit; decode_depth : DecodeDepth; inbound_frames : Z; outbound_frames : Z;
  active_sessions : Z; stderr_total_bytes : Z; handshake_timeout : Z; request_timeout : Z; shutdown_timeout : Z;
  aggregate_payload_bytes : Z }.

Definition contains (lo hi z : Z) : bool := (lo <=? z) && (z <=? hi).
Definition duration_in_range (value maximum : Z) : bool := (millis 100 <=? value) && (value <=? maximum).
Definition checked_mul (max a b : Z) : option Z := if a * b <=? max then Some (a * b) else None.

Definition limits_new (control_frame_bytes decode_depth inbound_frames outbound_frames active_sessions
    stderr_total_bytes handshake_timeout request_timeout shutdown_timeout : Z) : res PluginHostLimits :=
  if negb (contains 65536 DEFAULT_CONTROL_FRAME_BYTES control_frame_bytes)
     || negb (contains 1 DEFAULT_INBOUND_FRAMES inbound_frames)
     || negb (contains 1 DEFAULT_OUTBOUND_FRAMES outbound_frames)
     || negb (contains 1 DEFAULT_ACTIVE_SESSIONS active_sessions)
     || negb (contains 65536 DEFAULT_STDERR_TOTAL_BYTES stderr_total_bytes)
     || negb (duration_in_range handshake_timeout DEFAULT_HANDSHAKE_TIMEOUT)
     || negb (duration_in_range request_timeout DEFAULT_REQUEST_TIMEOUT)
     || negb (duration_in_range shutdown_timeout DEFAULT_SHUTDOWN_TIMEOUT)
  then Err (new ValidationError)
  else
    let? frame_limit := map_err (fun _ => new ValidationError) (Framing.frame_limit_new control_frame_bytes) in
    let? decode_depth := map_err (fun _ => new ValidationError) (decode_depth_new decode_depth) in
    let? queued := ok_or (new ValidationError)
      (frames ← checked_add USIZE_MAX inbound_frames outbound_frames;
       frames ← checked_add USIZE_MAX frames 4;
       bytes ← checked_mul USIZE_MAX frames control_frame_bytes;
       bytes ← checked_add USIZE_MAX bytes STDERR_BUFFER_BYTES;
       checked_mul USIZE_MAX bytes active_sessions) in
    if MAX_AGGREGATE_PAYLOAD_BYTES <? queued then Err (new ValidationError)
    else Ok {| frame_limit := frame_limit; decode_depth := decode_depth; inbound_frames := inbound_frames;
               outbound_frames := outbound_frames; active_sessions := active_sessions;
               stderr_total_bytes := stderr_total_bytes; handshake_timeout := handshake_timeout;
               request_timeout := request_timeout; shutdown_timeout := shutdown_timeout;
               aggregate_payload_bytes := queued |}.
Definition limits_default : res PluginHostLimits :=
  limits_new DEFAULT_CONTROL_FRAME_BYTES DEFAULT_DECODE_DEPTH DEFAULT_INBOUND_FRAMES DEFAULT_OUTBOUND_FRAMES
    DEFAULT_ACTIVE_SESSIONS DEFAULT_STDERR_TOTAL_BYTES DEFAULT_HANDSHAKE_TIMEOUT DEFAULT_REQUEST_TIMEOUT
    DEFAULT_SHUTDOWN_TIMEOUT.

(** ** session.rs: the expected session and admission *)

Record ExpectedPluginSession := { package_digest : Digest.Sha256Digest; challenge : list byte }.
Definition expected_new (package_digest : Digest.Sha256Digest) (challenge : list byte) : res ExpectedPluginSession :=
  if forallb (fun b => bool_decide (b = x00)) challenge then Err (new ValidationError)
  else Ok {| package_digest := package_digest; challenge := challenge |}.

(** The semaphore, by the permits it has left. *)
Record PluginHostAdmission := { ad_limits : PluginHostLimits; permits : Z }.
Definition admission_new (limits : PluginHostLimits) : PluginHostAdmission :=
  {| ad_limits := limits; permits := active_sessions limits |}.
Definition try_acquire (a : PluginHostAdmission) : res PluginHostLimits * PluginHostAdmission :=
  if permits a =? 0 then (Err (new Backpressure), a)
  else (Ok (ad_limits a), {| ad_limits := ad_limits a; permits := permits a - 1 |}).
(** Dropping a permit, or the driver that holds it. *)
Definition release_permit (a : PluginHostAdmission) : PluginHostAdmission :=
  {| ad_limits := ad_limits a; permits := permits a + 1 |}.

(** ** Shared flags, queues and commands *)

Record Shared := { cancelled : bool; closing : bool; in_flight : bool; handles : Z }.
Definition cancel_shared (s : Shared) : Shared :=
  {| cancelled := true; closing := closing s; in_flight := in_flight s; handles := handles s |}.
Definition set_closing (s : Shared) : Shared :=
  {| cancelled := cancelled s; closing := true; in_flight := in_flight s; handles := handles s |}.
Definition set_in_flight (b : bool) (s : Shared) : Shared :=
  {| cancelled := cancelled s; closing := closing s; in_flight := b; handles := handles s |}.
Definition set_handles (z : Z) (s : Shared) : Shared :=
  {| cancelled := cancelled s; closing := closing s; in_flight := in_flight s; handles := z |}.

Record BoundedFrameQueue (T : Type) := { frames : list T; capacity : Z }.
Arguments frames {T} _.
Arguments capacity {T} _.
Definition queue_new {T} (capacity : Z) : BoundedFrameQueue T := {| frames := []; capacity := capacity |}.
Definition try_push {T} (q : BoundedFrameQueue T) (frame : T) : result T (BoundedFrameQueue T) :=
  if capacity q <=? Z.of_nat (length (frames q)) then Err frame
  else Ok {| frames := frames q ++ [frame]; capacity := capacity q |}.
Definition pop {T} (q : BoundedFrameQueue T) : option (T * BoundedFrameQueue T) :=
  match frames q with [] => None | x :: l => Some (x, {| frames := l; capacity := capacity q |}) end.
(** A frame is pushed and popped around every use of the streams. *)
Definition through {T} (q : BoundedFrameQueue T) (frame : T) : res (T * BoundedFrameQueue T) :=
  let? q := map_err (fun _ => internal_failure) (try_push q frame) in
  ok_or internal_failure (pop q).

Inductive Request := Ping (nonce : Z) | Shutdown.
Inductive ExchangeOutcome := PingDone (nonce : Z) | ShutdownDone | RequestRejected (f : PluginRequestFailure).
(** What a caller is answered; the type of the responder is that of its request. *)
Inductive Answer := PingAnswer (o : RequestOutcome Z) | ShutdownAnswer (o : RequestOutcome ()).
(** [map_ping] and [map_shutdown]: [None] is the [unreachable!] arm. *)
Definition map_ping (o : ExchangeOutcome) : option (RequestOutcome Z) :=
  match o with PingDone n => Some (Completed n) | RequestRejected f => Some (Rejected f) | ShutdownDone => None end.
Definition map_shutdown (o : ExchangeOutcome) : option (RequestOutcome ()) :=
  match o with ShutdownDone => Some (Completed tt) | RequestRejected f => Some (Rejected f) | PingDone _ => None end.
Definition map_outcome (r : Request) (o : ExchangeOutcome) : option Answer :=
  match r with Ping _ => PingAnswer <$> map_ping o | Shutdown => ShutdownAnswer <$> map_shutdown o end.

(** [respond] is the caller that holds the receiving end. *)
Record Command := { request : Request; deadline : Z; respond : nat }.

(** ** Validation of the plugin's envelopes *)

Definition validate_hello (e : PluginEnvelopeMsg) (expected : ExpectedPluginSession) : res () :=
  if negb (pe_sequence e =? 0) then Err protocol_failure
  else match pe_body e with
       | Some (PluginBodyHello hello) =>
           if negb (ph_protocol_major hello =? PROTOCOL_MAJOR) || negb (ph_protocol_minor hello =? PROTOCOL_MINOR)
           then Err (terminal ProtocolVersionUnsupported ProtocolFailure)
           else if negb (bool_decide (ph_session_challenge hello = challenge expected)) then Err protocol_failure
           else Ok tt
       | _ => Err protocol_failure
       end.

Definition failure_of_code (c : Z) : res PluginRequestFailure :=
  if c =? 1 then Ok UnsupportedRequest else if c =? 2 then Ok InvalidRequest else if c =? 3 then Ok Internal
  else Err protocol_failure.
Definition validate_response (e : PluginEnvelopeMsg) (sequence : Z) (expected : Request) : res ExchangeOutcome :=
  if negb (pe_sequence e =? sequence) then Err protocol_failure
  else match expected, pe_body e with
       | Ping nonce, Some (PluginBodyPing n) => if n =? nonce then Ok (PingDone nonce) else Err protocol_failure
       | Shutdown, Some PluginBodyShutdown => Ok ShutdownDone
       | _, Some (PluginBodyFailure c) => let? f := failure_of_code c in Ok (RequestRejected f)
       | _, _ => Err protocol_failure
       end.

(** ** Standard error *)

Record StderrState := { total : Z; limit : Z; open : bool }.
Definition stderr_new (limit : Z) : StderrState := {| total := 0; limit := limit; open := true |}.
(** How many bytes the next read may take. *)
Definition stderr_window (s : StderrState) : res Z :=
  let? remaining_plus_one := ok_or resource_limit
    (remaining ← checked_sub (limit s) (total s); checked_add USIZE_MAX remaining 1) in
  Ok (Z.min STDERR_BUFFER_BYTES remaining_plus_one).
(** [read] is what the stream returned: a failure, or a byte count. *)
Definition drain_stderr_once (s : StderrState) (read : option Z) : res StderrState :=
  let? _ := stderr_window s in
  match read with
  | None => Err (terminal IpcTransportError ProtocolFailure)
  | Some n =>
      if n =? 0 then Ok {| total := total s; limit := limit s; open := false |}
      else
        let? t := ok_or resource_limit (checked_add USIZE_MAX (total s) n) in
        if limit s <? t then Err resource_limit else Ok {| total := t; limit := limit s; open := open s |}
  end.

(** ** The driver *)

Definition DriverResult : Type := res SessionClose.
(** The points [run_session] awaits at, and the ones where it commits: after a
    [select!] chose the operation, [ensure_commit_allowed] looks at the flag and the
    clock again. *)
Inductive After :=
| AfterHelloWritten | AfterHelloRead (e : PluginEnvelopeMsg) | AfterHello
| AfterAsked (c : Command) | AfterHeard (c : Command) (e : PluginEnvelopeMsg)
| AfterAnswer (c : Command) (o : ExchangeOutcome).
Inductive Stage :=
| Opening | HelloWriting | HelloReading | Idle | Asking (c : Command) | Listening (c : Command)
| Committing (k : After) | Finished (r : DriverResult) | Dropped.

(** The conversation so far: the envelopes handed to the writer and the validated
    envelopes of the plugin. *)
Inductive WireEvent := Sent (e : HostEnvelopeMsg) | Accepted (e : PluginEnvelopeMsg).

Record Driver := {
  stage : Stage; sequence : Z; stderr_state : StderrState; inbound : BoundedFrameQueue PluginEnvelopeMsg;
  outbound : BoundedFrameQueue HostEnvelopeMsg; handshake_deadline : Z; log : list WireEvent }.

(** [SessionDriver::poll] around the poll of [run_session], which may panic; the
    future is dropped once it is ready. *)
Inductive Polled := Pending | Complete (r : DriverResult) | Panicked.
Definition session_driver_poll {F} (inner : option F) (poll : F -> F * Polled) : option F * option DriverResult :=
  match inner with
  | None => (None, Some (Err internal_failure))
  | Some f =>
      match poll f with
      | (f, Pending) => (Some f, None)
      | (_, Complete r) => (None, Some r)
      | (_, Panicked) => (None, Some (Err internal_failure))
      end
  end.

(** ** The callers *)

(** A call of [ping] or [shutdown] with the request it makes; [t] is the caller's deadline before
    [operation_deadline] and the effective one after it.  [None] in [Releasing] and
    [Returned] is a call whose future was dropped. *)
Inductive Caller :=
| Calling (r : Request) (t : Z) | Closing (t : Z) | Draining (t : Z) | Loading (r : Request) (t : Z)
| Swapping (r : Request) (t : Z) | Entered (r : Request) (t : Z)
| Waiting (r : Request) (t : Z) (m : option (res Answer))
| Releasing (r : Request) (m : option (res Answer)) | Returned (r : Request) (m : option (res Answer)).

Record Host := { now : Z; shared : Shared; driver : Driver; commands : list Command; callers : gmap nat Caller }.

Record Config := {
  limits : PluginHostLimits; expected : ExpectedPluginSession; opened_at : Z; caller_deadline : Z }.

Definition set_shared (f : Shared -> Shared) (h : Host) : Host :=
  {| now := now h; shared := f (shared h); driver := driver h; commands := commands h; callers := callers h |}.
Definition set_caller (i : nat) (c : Caller) (h : Host) : Host :=
  {| now := now h; shared := shared h; driver := driver h; commands := commands h; callers := <[i := c]> (callers h) |}.
Definition set_commands (l : list Command) (h : Host) : Host :=
  {| now := now h; shared := shared h; driver := driver h; commands := l; callers := callers h |}.
Definition set_driver (f : Driver -> Driver) (h : Host) : Host :=
  {| now := now h; shared := shared h; driver := f (driver h); commands := commands h; callers := callers h |}.
Definition at_stage (s : Stage) (d : Driver) : Driver :=
  {| stage := s; sequence := sequence d; stderr_state := stderr_state d; inbound := inbound d;
     outbound := outbound d; handshake_deadline := handshake_deadline d; log := log d |}.
Definition with_stderr (s : StderrState) (d : Driver) : Driver :=
  {| stage := stage d; sequence := sequence d; stderr_state := s; inbound := inbound d;
     outbound := outbound d; handshake_deadline := handshake_deadline d; log := log d |}.
Definition with_sequence (z : Z) (d : Driver) : Driver :=
  {| stage := stage d; sequence := z; stderr_state := stderr_state d; inbound := inbound d;
     outbound := outbound d; handshake_deadline := handshake_deadline d; log := log d |}.
Definition until (t : Z) (d : Driver) : Driver :=
  {| stage := stage d; sequence := sequence d; stderr_state := stderr_state d; inbound := inbound d;
     outbound := outbound d; handshake_deadline := t; log := log d |}.
Definition sending (q : BoundedFrameQueue HostEnvelopeMsg) (e : HostEnvelopeMsg) (d : Driver) : Driver :=
  {| stage := stage d; sequence := sequence d; stderr_state := stderr_state d; inbound := inbound d;
     outbound := q; handshake_deadline := handshake_deadline d; log := log d ++ [Sent e] |}.
Definition accepting (q : BoundedFrameQueue PluginEnvelopeMsg) (e : PluginEnvelopeMsg) (d : Driver) : Driver :=
  {| stage := stage d; sequence := sequence d; stderr_state := stderr_state d; inbound := q;
     outbound := outbound d; handshake_deadline := handshake_deadline d; log := log d ++ [Accepted e] |}.

Section host.
(** [Instant::checked_add] and the session's configuration. *)
Context (instant_add : Z -> Z -> option Z) (cfg : Config).

Definition earlier_deadline (left right : Z) : Z := if left <=? right then left else right.
Definition operation_deadline (now caller_deadline budget : Z) : res Z :=
  if caller_deadline <=? now then Err (new DeadlineExceeded)
  else let? budget_deadline := ok_or (new ValidationError) (instant_add now budget) in
       Ok (earlier_deadline caller_deadline budget_deadline).
Definition ensure_commit_allowed (s : Shared) (now deadline : Z) : res () :=
  if cancelled s then Err cancelled_ else if deadline <=? now then Err deadline_exceeded else Ok tt.

(** What one poll finds ready: the operation the driver waits for, and the plugin's
    standard error ([Some None] is a failed read). *)
Record Ready := {
  ready_write : option (result ProtocolCodecError ());
  ready_read : option (result ProtocolCodecError PluginEnvelopeMsg);
  ready_stderr : option (option Z) }.

(** The returned [Result] of the driver; the receiver, the responders still held and
    the streams are dropped with it. *)
Definition finish (r : DriverResult) (h : Host) : Host := set_commands [] (set_driver (at_stage (Finished r)) h).
Definition goto (s : Stage) (h : Host) : Host := set_driver (at_stage s) h.

(** [oneshot::Sender::send] fails when the receiver is gone. *)
Definition send_answer (i : nat) (m : res Answer) (h : Host) : option Host :=
  match callers h !! i with
  | Some (Waiting r t None) => Some (set_caller i (Waiting r t (Some m)) h)
  | _ => None
  end.

(** The arms of [run_session] after [exchange]. *)
Definition finish_exchange (c : Command) (r : res ExchangeOutcome) (h : Host) : Host :=
  match request c with
  | Ping _ =>
      match checked_add U64_MAX (sequence (driver h)) 1 with
      | None => finish (Err internal_failure) h
      | Some next =>
          let h := set_driver (with_sequence next) h in
          match r with
          | Err e =>
              match send_answer (respond c) (Err e) h with
              | None => finish (Err cancelled_) h
              | Some h => finish (Err e) h
              end
          | Ok o =>
              match map_ping o with
              | None => finish (Err internal_failure) h
              | Some a =>
                  match send_answer (respond c) (Ok (PingAnswer a)) h with
                  | None => finish (Err cancelled_) h
                  | Some h => goto Idle h
                  end
              end
          end
      end
  | Shutdown =>
      match r with
      | Err e =>
          match send_answer (respond c) (Err e) h with
          | None => finish (Err cancelled_) h
          | Some h => finish (Err e) h
          end
      | Ok o =>
          match map_shutdown o with
          | None => finish (Err internal_failure) h
          | Some a =>
              match send_answer (respond c) (Ok (ShutdownAnswer a)) h with
              | None => finish (Err cancelled_) h
              | Some h =>
                  match o with
                  | RequestRejected _ => finish (Err (terminal PluginProtocolViolation ShutdownRejected)) h
                  | _ => finish (Ok CooperativeShutdown) h
                  end
              end
          end
      end
  end.

(** Where an error of [exchange] or of the handshake goes. *)
Definition fail (c : option Command) (e : PluginHostError) (h : Host) : Host :=
  match c with Some c => finish_exchange c (Err e) h | None => finish (Err e) h end.

(** The biased [select!] of [drive_pinned_with_stderr]. *)
Definition drive {T} (c : option Command) (deadline : Z) (op : option (result ProtocolCodecError T))
    (stderr : option (option Z)) (k : T -> Stage) (h : Host) : Host :=
  if cancelled (shared h) then fail c cancelled_ h
  else if deadline <=? now h then fail c deadline_exceeded h
  else match op with
       | Some (Err e) => fail c (map_codec_error e) h
       | Some (Ok v) => goto (k v) h
       | None =>
           if open (stderr_state (driver h)) then
             match stderr with
             | None => h
             | Some read =>
                 match drain_stderr_once (stderr_state (driver h)) read with
                 | Err e => fail c e h
                 | Ok s => set_driver (with_stderr s) h
                 end
             end
           else h
       end.

Definition hello : HostEnvelopeMsg := {|
  he_sequence := 0;
  he_body := Some (HostBodyHello {|
    hh_protocol_major := PROTOCOL_MAJOR; hh_protocol_minor := PROTOCOL_MINOR;
    hh_session_challenge := challenge (expected cfg); hh_max_frame_bytes := frame_limit (limits cfg);
    hh_max_in_flight_requests := MAX_IN_FLIGHT_REQUESTS |}) |}.
Definition envelope_of (sequence : Z) (r : Request) : HostEnvelopeMsg := {|
  he_sequence := sequence;
  he_body := Some (match r with Ping nonce => HostBodyPing nonce | Shutdown => HostBodyShutdown end) |}.

(** The start of [exchange]: the request goes through the outbound queue. *)
Definition ask (c : Command) (h : Host) : Host :=
  match through (outbound (driver h)) (envelope_of (sequence (driver h)) (request c)) with
  | Err e => finish_exchange c (Err e) h
  | Ok (e, q) => set_driver (fun d => at_stage (Asking c) (sending q e d)) h
  end.

(** What follows a successful [ensure_commit_allowed]. *)
Definition resume (k : After) (h : Host) : Host :=
  let d := driver h in
  match k with
  | AfterHelloWritten => goto HelloReading h
  | AfterHelloRead e =>
      match through (inbound d) e with
      | Err x => finish (Err x) h
      | Ok (e, q) =>
          match validate_hello e (expected cfg) with
          | Err x => finish (Err x) h
          | Ok _ => set_driver (fun d => at_stage (Committing AfterHello) (accepting q e d)) h
          end
      end
  | AfterHello => goto Idle h
  | AfterAsked c => goto (Listening c) h
  | AfterHeard c e =>
      match through (inbound d) e with
      | Err x => finish_exchange c (Err x) h
      | Ok (e, q) =>
          match validate_response e (sequence d) (request c) with
          | Err x => finish_exchange c (Err x) h
          | Ok o => set_driver (fun d => at_stage (Committing (AfterAnswer c o)) (accepting q e d)) h
          end
      end
  | AfterAnswer c o => finish_exchange c (Ok o) h
  end.
Definition command_of (k : After) : option Command :=
  match k with AfterAsked c | AfterHeard c _ | AfterAnswer c _ => Some c | _ => None end.
Definition commit (k : After) (h : Host) : Host :=
  let deadline := match command_of k with Some c => deadline c | None => handshake_deadline (driver h) end in
  match ensure_commit_allowed (shared h) (now h) deadline with
  | Err e => fail (command_of k) e h
  | Ok _ => resume k h
  end.

(** The first poll: [run_session] up to its first await. *)
Definition open_session (h : Host) : Host :=
  match instant_add (opened_at cfg) (handshake_timeout (limits cfg)) with
  | None => finish (Err (new ValidationError)) h
  | Some t =>
      match through (outbound (driver h)) hello with
      | Err e => finish (Err e) h
      | Ok (e, q) =>
          set_driver (fun d => at_stage HelloWriting (sending q e (until (earlier_deadline (caller_deadline cfg) t) d))) h
      end
  end.

(** The biased [select!] of the command loop. *)
Definition await_command (rd : Ready) (h : Host) : Host :=
  if cancelled (shared h) then finish (Err cancelled_) h
  else match ready_read rd with
       | Some (Err e) => finish (Err (map_codec_error e)) h
       | Some (Ok e) =>
           match through (inbound (driver h)) e with
           | Err x => finish (Err x) h
           | Ok _ => finish (Err protocol_failure) h
           end
       | None =>
           match (if open (stderr_state (driver h)) then ready_stderr rd else None) with
           | Some read =>
               match drain_stderr_once (stderr_state (driver h)) read with
               | Err e => finish (Err e) h
               | Ok s => set_driver (with_stderr s) h
               end
           | None =>
               match commands h with
               | c :: l => ask c (set_commands l h)
               | [] => if handles (shared h) =? 0 then finish (Err cancelled_) h else h
               end
           end
       end.

Definition driver_step (rd : Ready) (h : Host) : Host :=
  match stage (driver h) with
  | Opening => open_session h
  | HelloWriting =>
      drive None (handshake_deadline (driver h)) (ready_write rd) (ready_stderr rd) (fun _ => Committing AfterHelloWritten) h
  | HelloReading =>
      drive None (handshake_deadline (driver h)) (ready_read rd) (ready_stderr rd) (fun e => Committing (AfterHelloRead e)) h
  | Idle => await_command rd h
  | Asking c => drive (Some c) (deadline c) (ready_write rd) (ready_stderr rd) (fun _ => Committing (AfterAsked c)) h
  | Listening c => drive (Some c) (deadline c) (ready_read rd) (ready_stderr rd) (fun e => Committing (AfterHeard c e)) h
  | Committing k => commit k h
  | Finished _ | Dropped => h
  end.

(** A read of standard error returns at most what was asked for. *)
Definition ready_valid (rd : Ready) (h : Host) : bool :=
  match ready_stderr rd with
  | Some (Some n) =>
      match stderr_window (stderr_state (driver h)) with Ok w => (0 <=? n) && (n <=? w) | Err _ => false end
  | _ => true
  end.

(** ** One segment of a caller *)

Definition stopped (d : Driver) : bool := match stage d with Finished _ | Dropped => true | _ => false end.
(** The command the driver works on. *)
Definition current (d : Driver) : option Command :=
  match stage d with Asking c | Listening c => Some c | Committing k => command_of k | _ => None end.
(** The sending end of a caller's one-shot channel still exists. *)
Definition responder_alive (i : nat) (h : Host) : bool :=
  match current (driver h) with Some c => bool_decide (respond c = i) | None => false end
  || existsb (fun c => bool_decide (respond c = i)) (commands h).

(** [try_send] on the channel of capacity one, then the wait. *)
Definition submit (i : nat) (r : Request) (t : Z) (h : Host) : Host :=
  if stopped (driver h) then set_caller i (Releasing r (Some (Err (new OperationCancelled)))) h
  else match commands h with
       | _ :: _ => set_caller i (Releasing r (Some (Err (new Backpressure)))) h
       | [] => set_caller i (Waiting r t None) (set_commands [{| request := r; deadline := t; respond := i |}] h)
       end.

Definition await_response (i : nat) (q : Request) (t : Z) (m : option (res Answer)) (h : Host) : Host :=
  if cancelled (shared h) then set_caller i (Releasing q (Some (Err cancelled_))) h
  else if t <=? now h then set_caller i (Releasing q (Some (Err deadline_exceeded))) (set_shared cancel_shared h)
  else match m with
       | Some r => set_caller i (Releasing q (Some r)) h
       | None => if responder_alive i h then h else set_caller i (Releasing q (Some (Err cancelled_))) h
       end.

Definition caller_step (i : nat) (c : Caller) (h : Host) : Host :=
  let s := shared h in
  match c with
  | Calling (Ping nonce) t =>
      if cancelled s || closing s then set_caller i (Returned (Ping nonce) (Some (Err (new OperationCancelled)))) h
      else set_caller i (Swapping (Ping nonce) t) h
  | Calling Shutdown t => set_caller i (Closing t) (set_shared set_closing h)
  | Closing t =>
      match operation_deadline (now h) t (shutdown_timeout (limits cfg)) with
      | Err e => set_caller i (Returned Shutdown (Some (Err e))) (set_shared cancel_shared h)
      | Ok t => set_caller i (Draining t) h
      end
  | Draining t =>
      if cancelled s then set_caller i (Returned Shutdown (Some (Err cancelled_))) h
      else if negb (in_flight s) then set_caller i (Loading Shutdown t) h
      else if t <=? now h then set_caller i (Returned Shutdown (Some (Err deadline_exceeded))) (set_shared cancel_shared h)
      else h
  | Loading r t =>
      if cancelled s then set_caller i (Returned r (Some (Err (new OperationCancelled)))) h
      else set_caller i (Swapping r t) h
  | Swapping r t =>
      if in_flight s then set_caller i (Returned r (Some (Err (new Backpressure)))) h
      else set_caller i (Entered r t) (set_shared (set_in_flight true) h)
  | Entered (Ping nonce) t =>
      match operation_deadline (now h) t (request_timeout (limits cfg)) with
      | Err e => set_caller i (Releasing (Ping nonce) (Some (Err e))) h
      | Ok t => submit i (Ping nonce) t h
      end
  | Entered Shutdown t => submit i Shutdown t h
  | Waiting r t m => await_response i r t m h
  | Releasing r m => set_caller i (Returned r m) (set_shared (set_in_flight false) h)
  | Returned _ _ => h
  end.

(** Dropping the future of a call at one of its awaits. *)
Definition drop_caller (i : nat) (c : Caller) (h : Host) : option Host :=
  match c with
  | Calling r _ => Some (set_caller i (Returned r None) h)
  | Draining _ => Some (set_caller i (Returned Shutdown None) (set_shared cancel_shared h))
  | Waiting r _ _ => Some (set_caller i (Releasing r None) (set_shared cancel_shared h))
  | _ => None
  end.

(** ** The system *)

Inductive Action :=
| Elapse (dt : Z) | PollDriver (rd : Ready) | DropDriver | Call (i : nat) (r : Request) (t : Z) | Run (i : nat)
| DropCall (i : nat) | Cancel | CloneHandle | DropHandle.

Definition returned (c : Caller) : bool := match c with Returned _ _ => true | _ => false end.
Definition idle_callers (h : Host) : bool := bool_decide (map_Forall (fun _ c => returned c = true) (callers h)).

Definition step (a : Action) (h : Host) : option Host :=
  match a with
  | Elapse dt =>
      if 0 <=? dt then Some {| now := now h + dt; shared := shared h; driver := driver h; commands := commands h;
                               callers := callers h |} else None
  | PollDriver rd => if ready_valid rd h then Some (driver_step rd h) else None
  | DropDriver => if stopped (driver h) then None else Some (set_commands [] (goto Dropped h))
  | Call i r t =>
      if 0 <? handles (shared h) then
        match callers h !! i with None => Some (set_caller i (Calling r t) h) | Some _ => None end
      else None
  | Run i => match callers h !! i with Some c => Some (caller_step i c h) | None => None end
  | DropCall i => match callers h !! i with Some c => drop_caller i c h | None => None end
  | Cancel => if 0 <? handles (shared h) then Some (set_shared cancel_shared h) else None
  | CloneHandle =>
      if 0 <? handles (shared h) then Some (set_shared (fun s => set_handles (handles s + 1) s) h) else None
  | DropHandle =>
      if handles (shared h) =? 1 then
        if idle_callers h then Some (set_shared (fun s => cancel_shared (set_handles 0 s)) h) else None
      else if 1 <? handles (shared h) then Some (set_shared (fun s => set_handles (handles s - 1) s) h) else None
  end.

(** [SessionPermit::open] at [opened_at]. *)
Definition initial : Host := {|
  now := opened_at cfg;
  shared := {| cancelled := false; closing := false; in_flight := false; handles := 1 |};
  driver := {| stage := Opening; sequence := 1; stderr_state := stderr_new (stderr_total_bytes (limits cfg));
    inbound := queue_new (inbound_frames (limits cfg)); outbound := queue_new (outbound_frames (limits cfg));
    handshake_deadline := 0; log := [] |};
  commands := []; callers := ∅ |}.
Definition open_ : res Host :=
  if caller_deadline cfg <=? opened_at cfg then Err (new DeadlineExceeded) else Ok initial.

Inductive reachable : Host -> Prop :=
| reachable_open h : open_ = Ok h -> reachable h
| reachable_step a h h' : reachable h -> step a h = Some h' -> reachable h'.

Fixpoint run (l : list Action) (h : Host) : option Host :=
  match l with [] => Some h | a :: l => h' ← step a h; run l h' end.
End host.
End Host.
