(* ===== verification/PluginHostFacts.v ===== *)
(** Theorems about the plugin host: its limits, the conversation every interleaving
    of driver and callers holds with the plugin, and what cancellation does. *)
From Stdlib Require Import ZArith Lia Strings.Byte Init.Byte.
From stdpp Require Import prelude list gmap.
From S2P Require Import Prelude RustText Types Framing PluginWire PluginHost.

Set Warnings "-clear-no-such-hyp".

Module HostFacts.
Import Wire Codec Host.

(** ** Limits *)

Lemma contains_true lo hi z : contains lo hi z = true <-> lo <= z <= hi.
Proof. unfold contains. rewrite andb_true_iff, !Z.leb_le. done. Qed.
Lemma duration_true v m : duration_in_range v m = true <-> millis 100 <= v <= m.
Proof. unfold duration_in_range. rewrite andb_true_iff, !Z.leb_le. done. Qed.

(** What [limits_new] lets through. *)
Record limits_wf (l : PluginHostLimits) : Prop := {
  lw_frame : 65536 <= frame_limit l <= DEFAULT_CONTROL_FRAME_BYTES;
  lw_depth : MIN_DECODE_DEPTH <= decode_depth l <= MAX_DECODE_DEPTH;
  lw_inbound : 1 <= inbound_frames l <= DEFAULT_INBOUND_FRAMES;
  lw_outbound : 1 <= outbound_frames l <= DEFAULT_OUTBOUND_FRAMES;
  lw_sessions : 1 <= active_sessions l <= DEFAULT_ACTIVE_SESSIONS;
  lw_stderr : 65536 <= stderr_total_bytes l <= DEFAULT_STDERR_TOTAL_BYTES;
  lw_handshake : millis 100 <= handshake_timeout l <= DEFAULT_HANDSHAKE_TIMEOUT;
  lw_request : millis 100 <= request_timeout l <= DEFAULT_REQUEST_TIMEOUT;
  lw_shutdown : millis 100 <= shutdown_timeout l <= DEFAULT_SHUTDOWN_TIMEOUT;
  lw_aggregate : aggregate_payload_bytes l =
    ((inbound_frames l + outbound_frames l + 4) * frame_limit l + STDERR_BUFFER_BYTES) * active_sessions l;
}.

Definition limits_of (l : PluginHostLimits) : res PluginHostLimits :=
  limits_new (frame_limit l) (decode_depth l) (inbound_frames l) (outbound_frames l) (active_sessions l)
    (stderr_total_bytes l) (handshake_timeout l) (request_timeout l) (shutdown_timeout l).

Lemma aggregate_bound l : limits_wf l -> 0 <= aggregate_payload_bytes l <= MAX_AGGREGATE_PAYLOAD_BYTES.
Proof.
  intros []. rewrite lw_aggregate0. unfold DEFAULT_CONTROL_FRAME_BYTES, DEFAULT_INBOUND_FRAMES, DEFAULT_OUTBOUND_FRAMES,
    DEFAULT_ACTIVE_SESSIONS, STDERR_BUFFER_BYTES, MAX_AGGREGATE_PAYLOAD_BYTES in *.
  assert (H1 : (inbound_frames l + outbound_frames l + 4) * frame_limit l <= 36 * 262144)
    by (apply Z.mul_le_mono_nonneg; lia).
  split; [nia|]. transitivity ((36 * 262144 + 8192) * 4); [|done]. apply Z.mul_le_mono_nonneg; nia.
Qed.

Lemma queued_some a b frame n :
  1 <= a <= 16 -> 1 <= b <= 16 -> 65536 <= frame <= 262144 -> 1 <= n <= 4 ->
  (frames ← checked_add USIZE_MAX a b; frames ← checked_add USIZE_MAX frames 4; bytes ← checked_mul USIZE_MAX frames frame;
   bytes ← checked_add USIZE_MAX bytes STDERR_BUFFER_BYTES; checked_mul USIZE_MAX bytes n)
  = Some (((a + b + 4) * frame + STDERR_BUFFER_BYTES) * n).
Proof.
  intros Ha Hb Hf Hn. unfold checked_add, checked_mul, STDERR_BUFFER_BYTES. unfold_max.
  assert ((a + b + 4) * frame <= 36 * 262144) by (apply Z.mul_le_mono_nonneg; lia).
  rewrite (proj2 (Z.leb_le (a + b) _)) by lia. cbn [mbind option_bind].
  rewrite (proj2 (Z.leb_le (a + b + 4) _)) by lia. cbn [mbind option_bind].
  rewrite (proj2 (Z.leb_le ((a + b + 4) * frame) _)) by lia. cbn [mbind option_bind].
  rewrite (proj2 (Z.leb_le (_ + 8192) _)) by lia. cbn [mbind option_bind].
  rewrite (proj2 (Z.leb_le _ _)); [done|]. nia.
Qed.

Lemma limits_new_wf f d i o n s t1 t2 t3 l : limits_new f d i o n s t1 t2 t3 = Ok l -> limits_wf l.
Proof.
  unfold limits_new. intros E. passed E as Hg. bool_hyps.
  repeat match goal with
    | H : contains _ _ _ = true |- _ => apply contains_true in H
    | H : duration_in_range _ _ = true |- _ => apply duration_true in H
    end.
  apply result_bind_ok in E as (fl & Hfl & E). apply map_err_ok in Hfl. unfold Framing.frame_limit_new in Hfl.
  apply result_bind_ok in E as (dd & Hdd & E). apply map_err_ok in Hdd. unfold decode_depth_new in Hdd.
  passed Hdd as Hd. bool_hyps. injection Hdd as <-.
  assert (fl = f) as -> by (destruct (_ || _); congruence). clear Hfl.
  rewrite queued_some in E by done. cbn [ok_or result_bind] in E. passed E as Hagg. bool_hyps.
  injection E as <-. constructor; cbn; done || lia.
Qed.

Lemma limits_new_accepts l : limits_wf l -> limits_of l = Ok l.
Proof.
  intros Hl. pose proof (aggregate_bound l Hl) as Hagg. destruct Hl. unfold limits_of, limits_new.
  rewrite !(proj2 (contains_true _ _ _)), !(proj2 (duration_true _ _)) by done. cbn [negb orb].
  unfold Framing.frame_limit_new. unfold DEFAULT_CONTROL_FRAME_BYTES, Framing.MIN_FRAME_BYTES, Framing.MAX_FRAME_BYTES in *.
  rewrite (proj2 (orb_false_iff _ _)) by (rewrite !Z.ltb_ge; lia). cbn [map_err result_bind].
  unfold decode_depth_new. rewrite (proj2 (orb_false_iff _ _)) by (rewrite !Z.ltb_ge; lia). cbn [map_err result_bind].
  rewrite queued_some by done. cbn [ok_or result_bind]. rewrite <- lw_aggregate0.
  rewrite (proj2 (Z.ltb_ge _ _)) by lia. by destruct l.
Qed.

(** ** Admission *)

(** A session starts, if it can, or one of those running ends. *)
Inductive AdmissionOp := Start | End_.
Fixpoint admissions (ops : list AdmissionOp) (s : PluginHostAdmission * Z) : PluginHostAdmission * Z :=
  match ops with
  | [] => s
  | Start :: ops =>
      admissions ops (match try_acquire s.1 with (Ok _, a) => (a, s.2 + 1) | (Err _, a) => (a, s.2) end)
  | End_ :: ops => admissions ops (if s.2 =? 0 then s else (release_permit s.1, s.2 - 1))
  end.

Lemma admissions_inv ops a n :
  0 <= n -> 0 <= permits a ->
  ad_limits (admissions ops (a, n)).1 = ad_limits a /\
  permits (admissions ops (a, n)).1 + (admissions ops (a, n)).2 = permits a + n /\
  0 <= (admissions ops (a, n)).2 /\ 0 <= permits (admissions ops (a, n)).1.
Proof.
  revert a n. induction ops as [|[] ops IH]; intros a n Hn Ha; [done| |]; cbn [admissions fst snd].
  - unfold try_acquire. destruct (permits a =? 0) eqn:E; bool_hyps; [by apply IH|].
    specialize (IH {| ad_limits := ad_limits a; permits := permits a - 1 |} (n + 1)). cbn [ad_limits permits] in IH.
    destruct IH as (-> & H & ? & ?); [lia..|]. split_and!; [done|lia..].
  - destruct (n =? 0) eqn:E; bool_hyps; [subst; by apply IH|].
    specialize (IH (release_permit a) (n - 1)). cbn [ad_limits permits release_permit] in IH.
    destruct IH as (-> & H & ? & ?); [lia..|]. split_and!; [done|lia..].
Qed.

(** ** The conversation with the plugin *)

Section conversation.
Context (instant_add : Z -> Z -> option Z) (cfg : Config) (Hlimits : limits_wf (limits cfg)).

(** Hello and its answer, then requests numbered from one, each written only after
    the answer to the one before was accepted. *)
Inductive Phase := Silent | Greeting | ReadyFor (n : Z) | Asked (n : Z) (r : Request).
Inductive conversation : list WireEvent -> Phase -> Prop :=
| conv_silent : conversation [] Silent
| conv_hello : conversation [Sent (hello cfg)] Greeting
| conv_ready e : validate_hello e (expected cfg) = Ok tt -> conversation [Sent (hello cfg); Accepted e] (ReadyFor 1)
| conv_ask l n r : conversation l (ReadyFor n) -> conversation (l ++ [Sent (envelope_of n r)]) (Asked n r)
| conv_answer l n r e o : conversation l (Asked n r) -> validate_response e n r = Ok o ->
    conversation (l ++ [Accepted e]) (ReadyFor (n + 1)).

(** Request [r] was written and answered with [o], next to each other on the wire. *)
Definition exchanged (l : list WireEvent) (r : Request) (o : ExchangeOutcome) : Prop :=
  exists l1 l2 n e, l = l1 ++ [Sent (envelope_of n r); Accepted e] ++ l2 /\ validate_response e n r = Ok o.
Definition genuine (l : list WireEvent) (r : Request) (m : res Answer) : Prop :=
  forall a, m = Ok a -> exists o, exchanged l r o /\ map_outcome r o = Some a.

Definition holding (k : Caller) : bool := match k with Entered _ _ | Waiting _ _ _ | Releasing _ _ => true | _ => false end.
Definition request_of (k : Caller) : Request :=
  match k with
  | Calling r _ | Loading r _ | Swapping r _ | Entered r _ | Waiting r _ _ | Releasing r _ | Returned r _ => r
  | Closing _ | Draining _ => Shutdown
  end.
Definition answer_of (k : Caller) : option (res Answer) :=
  match k with Waiting _ _ m | Releasing _ m | Returned _ m => m | _ => None end.
(** The call has sent its command. *)
Definition submitted (k : Caller) : bool := match k with Waiting _ _ _ | Releasing _ _ | Returned _ _ => true | _ => false end.
Definition owned (cs : gmap nat Caller) (c : Command) : Prop :=
  exists k, cs !! respond c = Some k /\ request_of k = request c /\ submitted k = true.

Record core (h : Host) : Prop := {
  co_inbound : inbound (driver h) = queue_new (inbound_frames (limits cfg));
  co_outbound : outbound (driver h) = queue_new (outbound_frames (limits cfg));
  co_stderr : 0 <= total (stderr_state (driver h)) <= limit (stderr_state (driver h)) /\
    limit (stderr_state (driver h)) = stderr_total_bytes (limits cfg);
  co_sequence : 1 <= sequence (driver h) <= U64_MAX;
  co_commands : (length (commands h) <= 1)%nat;
  co_owned : Forall (owned (callers h)) (commands h);
  co_answers : map_Forall (fun _ k => forall m, answer_of k = Some m -> genuine (log (driver h)) (request_of k) m) (callers h);
  co_one : forall i j k k', callers h !! i = Some k -> callers h !! j = Some k' -> holding k = true -> holding k' = true -> i = j;
  co_flag : in_flight (shared h) = true <-> exists i k, callers h !! i = Some k /\ holding k = true;
}.

Definition phase_ok (d : Driver) : Prop :=
  match stage d with
  | Opening => log d = [] /\ sequence d = 1
  | HelloWriting | HelloReading | Committing AfterHelloWritten | Committing (AfterHelloRead _) =>
      conversation (log d) Greeting /\ sequence d = 1
  | Committing AfterHello | Idle => conversation (log d) (ReadyFor (sequence d))
  | Asking c | Listening c | Committing (AfterAsked c) | Committing (AfterHeard c _) =>
      conversation (log d) (Asked (sequence d) (request c))
  | Committing (AfterAnswer c o) => conversation (log d) (ReadyFor (sequence d + 1)) /\ exchanged (log d) (request c) o
  | Finished r => (exists p, conversation (log d) p) /\ (r = Ok CooperativeShutdown -> exchanged (log d) Shutdown ShutdownDone)
  | Dropped => exists p, conversation (log d) p
  end.

Record inv (h : Host) : Prop := {
  inv_core : core h;
  inv_phase : phase_ok (driver h);
  inv_current : forall c, current (driver h) = Some c -> owned (callers h) c;
  inv_stopped : stopped (driver h) = true -> commands h = [];
}.

(** ** Small facts *)

Lemma through_queue {T} cap (x : T) : 1 <= cap -> through (queue_new cap) x = Ok (x, queue_new cap).
Proof. intros H. unfold through, try_push, queue_new. cbn. by rewrite (proj2 (Z.leb_gt _ _)) by lia. Qed.

Lemma exchanged_app l l' r o : exchanged l r o -> exchanged (l ++ l') r o.
Proof. intros (l1 & l2 & n & e & -> & H). exists l1, (l2 ++ l'), n, e. by rewrite <- !app_assoc. Qed.
Lemma genuine_app l l' r m : genuine l r m -> genuine (l ++ l') r m.
Proof. intros H a Ha. destruct (H a Ha) as (o & ? & ?). exists o. split; [by apply exchanged_app|done]. Qed.
Lemma genuine_err l r e : genuine l r (Err e).
Proof. by intros a. Qed.
Hint Resolve genuine_err : core.

Lemma phase_some d : phase_ok d -> exists p, conversation (log d) p.
Proof.
  unfold phase_ok. destruct (stage d) as [| | | |c|c|[]|r|]; try (intros [? _]; by eexists) || (intros ?; by eexists) || done.
  - intros [-> _]. eexists. constructor.
  - by intros [? _].
Qed.

Lemma asked_last l n r : conversation l (Asked n r) -> exists l', l = l' ++ [Sent (envelope_of n r)].
Proof. intros H. inversion H. by eexists. Qed.

Lemma owned_insert cs i k k' c :
  cs !! i = Some k -> request_of k' = request_of k -> (submitted k = true -> submitted k' = true) ->
  owned cs c -> owned (<[i := k']> cs) c.
Proof.
  intros Hi Hr Hs (k0 & H0 & Hr0 & Hs0). unfold owned. destruct (decide (i = respond c)) as [->|Hne].
  - exists k'. rewrite lookup_insert_eq. simplify_eq. split_and!; [done|congruence|auto].
  - exists k0. by rewrite lookup_insert_ne.
Qed.

(** ** Callers *)

(** What a change of one caller asks of the flag [in_flight]. *)
Definition flag_change (k k' : Caller) (b b' : bool) : Prop :=
  (holding k' = holding k /\ b' = b) \/ (holding k' = true /\ b = false /\ b' = true) \/
  (holding k = true /\ holding k' = false /\ b' = false).

Lemma core_caller i k k' f h :
  core h -> callers h !! i = Some k -> request_of k' = request_of k -> (submitted k = true -> submitted k' = true) ->
  (forall m, answer_of k' = Some m -> genuine (log (driver h)) (request_of k) m) ->
  flag_change k k' (in_flight (shared h)) (in_flight (f (shared h))) ->
  core (set_caller i k' (set_shared f h)).
Proof.
  intros [] Hi Hr Hs Ha Hf. constructor; try done; cbn.
  - eapply Forall_impl; [exact co_owned0|]. intros c. by apply owned_insert with k.
  - apply map_Forall_insert_2; [by rewrite Hr|done].
  - assert (Hone : forall j k0, j <> i -> callers h !! j = Some k0 -> holding k0 = true -> holding k' = true -> False).
    { intros j k0 Hne Hj Hk0 Hk'. destruct Hf as [[E _]|[(_ & E & _)|(_ & E & _)]]; [| |congruence].
      - apply Hne. eapply co_one0; [exact Hj|exact Hi|done|congruence].
      - assert (in_flight (shared h) = true) by (apply co_flag0; eauto). congruence. }
    intros a b x x'. destruct (decide (a = i)) as [->|Hai], (decide (b = i)) as [->|Hbi];
      rewrite ?lookup_insert_eq, ?lookup_insert_ne by done; intros; simplify_eq; try done; [naive_solver..|].
    by eapply co_one0.
  - destruct Hf as [[E ->]|[(E & E' & ->)|(E & E' & ->)]].
    + rewrite co_flag0. split; intros (j & x & Hj & Hx); (destruct (decide (j = i)) as [->|Hji];
        [exists i|exists j]); rewrite ?lookup_insert_eq, ?lookup_insert_ne in * by done; simplify_eq; eauto.
    + split; [intros _|done]. exists i, k'. by rewrite lookup_insert_eq.
    + split; [done|]. intros (j & x & Hj & Hx). destruct (decide (j = i)) as [->|Hji];
        rewrite ?lookup_insert_eq, ?lookup_insert_ne in Hj by done; simplify_eq; [congruence|].
      exfalso. apply Hji. by eapply co_one0.
Qed.

Lemma inv_caller i k k' f h :
  inv h -> callers h !! i = Some k -> request_of k' = request_of k -> (submitted k = true -> submitted k' = true) ->
  (forall m, answer_of k' = Some m -> genuine (log (driver h)) (request_of k) m) ->
  flag_change k k' (in_flight (shared h)) (in_flight (f (shared h))) ->
  inv (set_caller i k' (set_shared f h)).
Proof.
  intros [] Hi Hr Hs Ha Hf. constructor; try done; cbn; [by eapply core_caller|].
  intros c Hc. eapply owned_insert; eauto.
Qed.

Lemma set_shared_id h : set_shared id h = h.
Proof. by destruct h. Qed.
Lemma inv_caller' i k k' h :
  inv h -> callers h !! i = Some k -> request_of k' = request_of k -> (submitted k = true -> submitted k' = true) ->
  (forall m, answer_of k' = Some m -> genuine (log (driver h)) (request_of k) m) ->
  holding k' = holding k -> inv (set_caller i k' h).
Proof. intros. rewrite <- (set_shared_id h). eapply inv_caller; eauto. by left. Qed.

Lemma inv_shared f h : inv h -> in_flight (f (shared h)) = in_flight (shared h) -> inv (set_shared f h).
Proof. intros [[]] Hf. constructor; [|done..]. constructor; try done; cbn. by rewrite Hf. Qed.

Lemma inv_commands l h :
  inv h -> (length l <= 1)%nat -> Forall (owned (callers h)) l -> (stopped (driver h) = true -> l = []) -> inv (set_commands l h).
Proof. intros [[]] Hl Ho Hs. constructor; [|done..]. by constructor. Qed.

Lemma inv_submit i r t k h :
  inv h -> callers h !! i = Some k -> request_of k = r -> holding k = true -> inv (submit i r t h).
Proof.
  intros Hh Hi <- Hk. unfold submit. destruct (stopped (driver h)) eqn:Es.
  { eapply inv_caller'; eauto; cbn; intros; by simplify_eq. }
  destruct (commands h) eqn:Ec; [|eapply inv_caller'; eauto; cbn; intros; by simplify_eq].
  set (c := {| request := request_of k; deadline := t; respond := i |}).
  change (inv (set_commands [c] (set_caller i (Waiting (request_of k) t None) h))). apply inv_commands; cbn; [|lia| |congruence].
  - eapply inv_caller'; eauto; cbn; intros; by simplify_eq.
  - constructor; [|constructor]. exists (Waiting (request_of k) t None). by rewrite lookup_insert_eq.
Qed.

(** A change of one caller: its request stays, an answer it has is genuine. *)
Ltac caller_change :=
  cbn; intros; simplify_eq; first [done | by apply genuine_err | solve [eauto] | by left | by right; left | by right; right].

Lemma inv_await i r t m h : inv h -> callers h !! i = Some (Waiting r t m) -> inv (await_response i r t m h).
Proof.
  intros Hh Hi. pose proof (co_answers _ (inv_core _ Hh) i _ Hi) as Ha. cbn in Ha. unfold await_response.
  destruct (cancelled _); [eapply inv_caller'; eauto; caller_change|].
  destruct (t <=? _); [eapply inv_caller; eauto; caller_change|].
  destruct m as [m|]; [eapply inv_caller'; eauto; caller_change|].
  destruct (responder_alive i h); [done|]. eapply inv_caller'; eauto; caller_change.
Qed.

Lemma inv_caller_step i c h : inv h -> callers h !! i = Some c -> inv (caller_step instant_add cfg i c h).
Proof.
  intros Hh Hi. pose proof (co_answers _ (inv_core _ Hh) i _ Hi) as Ha.
  destruct c as [[n|] t|t|t|r t|r t|[n|] t|r t m|r m|r m]; cbn [caller_step]; cbn in Ha.
  - destruct (_ || _); eapply inv_caller'; eauto; caller_change.
  - eapply inv_caller; eauto; caller_change.
  - destruct (operation_deadline _ _ _ _) as [t'|e]; [eapply inv_caller'|eapply inv_caller]; eauto; caller_change.
  - destruct (cancelled _); [eapply inv_caller'; eauto; caller_change|].
    destruct (negb _); [eapply inv_caller'; eauto; caller_change|].
    destruct (_ <=? _); [eapply inv_caller; eauto; caller_change|done].
  - destruct (cancelled _); eapply inv_caller'; eauto; caller_change.
  - destruct (in_flight _) eqn:Ef; [eapply inv_caller'|eapply inv_caller]; eauto; caller_change.
  - destruct (operation_deadline _ _ _ _) as [t'|e]; [eapply inv_submit|eapply inv_caller']; eauto; caller_change.
  - eapply inv_submit; eauto.
  - by apply inv_await.
  - eapply inv_caller; eauto; caller_change.
  - done.
Qed.

Lemma inv_drop_caller i c h h' : inv h -> callers h !! i = Some c -> drop_caller i c h = Some h' -> inv h'.
Proof.
  intros Hh Hi. destruct c; cbn; intros [= <-]; [eapply inv_caller'|eapply inv_caller|eapply inv_caller]; eauto; caller_change.
Qed.

Lemma inv_call i r t h : inv h -> callers h !! i = None -> inv (set_caller i (Calling r t) h).
Proof.
  intros [[]] Hi.
  assert (Hne : forall c, owned (callers h) c -> owned (<[i := Calling r t]> (callers h)) c).
  { intros c (k & Hk & ?). exists k. rewrite lookup_insert_ne by congruence. done. }
  constructor; try done; cbn; [|eauto]. constructor; try done; cbn.
  - by eapply Forall_impl.
  - by apply map_Forall_insert_2.
  - intros a b x x'. destruct (decide (a = i)) as [->|Hai], (decide (b = i)) as [->|Hbi];
      rewrite ?lookup_insert_eq, ?lookup_insert_ne by done; intros; simplify_eq; try done. by eapply co_one0.
  - rewrite co_flag0. split; intros (j & k & Hj & Hk); exists j, k;
      (destruct (decide (j = i)) as [->|Hji]; [|by rewrite lookup_insert_ne in *]);
      rewrite ?lookup_insert_eq in Hj; simplify_eq; done.
Qed.

(** ** The driver *)

Lemma inv_finish r h :
  core h -> (exists p, conversation (log (driver h)) p) ->
  (r = Ok CooperativeShutdown -> exchanged (log (driver h)) Shutdown ShutdownDone) -> inv (finish r h).
Proof. intros [] Hp Hr. constructor; try done. constructor; try done. cbn; lia. Qed.

Lemma inv_goto s h :
  core h -> stopped (at_stage s (driver h)) = false -> phase_ok (at_stage s (driver h)) ->
  (forall c, current (at_stage s (driver h)) = Some c -> owned (callers h) c) -> inv (goto s h).
Proof. intros [] Hs Hp Hc. constructor; [by constructor|done..|cbn; congruence]. Qed.

Lemma core_send i m h h' :
  core h -> send_answer i m h = Some h' ->
  (forall k, callers h !! i = Some k -> genuine (log (driver h)) (request_of k) m) ->
  core h' /\ driver h' = driver h /\ shared h' = shared h /\ commands h' = commands h.
Proof.
  unfold send_answer. intros Hh Hs Hm. destruct (callers h !! i) as [k|] eqn:Hi; [|done].
  destruct k as [| | | | | |r t [|]| |]; try done. injection Hs as <-. split; [|done].
  rewrite <- (set_shared_id h). eapply core_caller; eauto; cbn; [|by left]. intros ? [= <-]. exact (Hm _ eq_refl).
Qed.

Lemma core_with_sequence z h : core h -> 1 <= z <= U64_MAX -> core (set_driver (with_sequence z) h).
Proof. intros []. by constructor. Qed.

Lemma inv_finish_exchange c r h :
  core h -> owned (callers h) c -> (exists p, conversation (log (driver h)) p) ->
  (forall o, r = Ok o -> conversation (log (driver h)) (ReadyFor (sequence (driver h) + 1)) /\
                         exchanged (log (driver h)) (request c) o) ->
  inv (finish_exchange c r h).
Proof.
  intros Hh Hown Hp Hr. unfold finish_exchange.
  assert (Hgen : forall o a, r = Ok o -> map_outcome (request c) o = Some a -> forall k, callers h !! respond c = Some k ->
            genuine (log (driver h)) (request_of k) (Ok a)).
  { intros o a -> Ha k Hk b [= <-]. destruct Hown as (k' & Hk' & Hq & _). simplify_eq. rewrite Hq.
    exists o. split; [by apply Hr|done]. }
  destruct (request c) as [nonce|] eqn:Eq.
  - destruct (checked_add _ _ _) as [next|] eqn:En; [|by apply inv_finish]. apply checked_add_Some in En as [-> Hmax].
    set (h1 := set_driver (with_sequence (sequence (driver h) + 1)) h).
    assert (Hh1 : core h1) by (apply core_with_sequence; [done|pose proof (co_sequence _ Hh); lia]).
    destruct r as [o|e].
    + destruct (map_ping o) as [a|] eqn:Ea; [|by apply inv_finish].
      destruct (send_answer _ _ h1) as [h2|] eqn:Es; [|by apply inv_finish].
      apply core_send in Es as (Hh2 & Hd & _); [|done|].
      * apply inv_goto; [done|done| |done]. unfold phase_ok. rewrite Hd. cbn. by apply (Hr o).
      * intros k Hk. cbn. eapply (Hgen o); [done| |exact Hk]. cbn. by rewrite Ea.
    + destruct (send_answer _ _ h1) as [h2|] eqn:Es; [|by apply inv_finish].
      apply core_send in Es as (Hh2 & Hd & _); [|done|by intros; apply genuine_err].
      apply inv_finish; [done| |done]. by rewrite Hd.
  - destruct r as [o|e].
    + destruct (map_shutdown o) as [a|] eqn:Ea; [|by apply inv_finish].
      destruct (send_answer _ _ h) as [h2|] eqn:Es; [|by apply inv_finish].
      apply core_send in Es as (Hh2 & Hd & _); [|done|].
      * destruct o; try done; (apply inv_finish; [done|by rewrite Hd|]); [|done]. intros _. rewrite Hd. by apply Hr.
      * intros k Hk. eapply (Hgen o); [done| |exact Hk]. cbn. by rewrite Ea.
    + destruct (send_answer _ _ h) as [h2|] eqn:Es; [|by apply inv_finish].
      apply core_send in Es as (Hh2 & Hd & _); [|done|by intros; apply genuine_err].
      apply inv_finish; [done| |done]. by rewrite Hd.
Qed.

Lemma inv_fail c e h :
  core h -> (exists p, conversation (log (driver h)) p) -> (forall c', c = Some c' -> owned (callers h) c') -> inv (fail c e h).
Proof.
  intros Hh Hp Hc. destruct c as [c|]; cbn; [|by apply inv_finish]. apply inv_finish_exchange; [done|by apply Hc|done|done].
Qed.

Lemma drain_ok st read st' :
  0 <= total st <= limit st -> match read with Some n => 0 <= n | None => True end ->
  drain_stderr_once st read = Ok st' -> 0 <= total st' <= limit st' /\ limit st' = limit st.
Proof.
  intros Ht Hn. unfold drain_stderr_once. intros E. inv_result. destruct read as [n|]; [|done].
  destruct (n =? 0); [by injection E as <-|]. inv_result. apply checked_add_Some in H0 as [-> _]. bool_hyps. cbn. lia.
Qed.

Lemma core_stderr_step st h :
  core h -> 0 <= total st <= limit st -> limit st = limit (stderr_state (driver h)) -> core (set_driver (with_stderr st) h).
Proof. intros [] H1 H2. constructor; try done. cbn. destruct co_stderr0. split; [done|congruence]. Qed.

Lemma inv_stderr st h :
  inv h -> 0 <= total st <= limit st -> limit st = limit (stderr_state (driver h)) -> inv (set_driver (with_stderr st) h).
Proof. intros [] H1 H2. constructor; try done. by apply core_stderr_step. Qed.

Lemma ready_stderr_valid rd h read :
  ready_valid rd h = true -> ready_stderr rd = Some read -> match read with Some n => 0 <= n | None => True end.
Proof.
  unfold ready_valid. intros Hv Hr. rewrite Hr in Hv. destruct read as [n|]; [|done].
  destruct (stderr_window _); [|done]. bool_hyps. done.
Qed.

Lemma inv_drive {T} c t (op : option (result ProtocolCodecError T)) rd k h :
  inv h -> current (driver h) = c -> ready_valid rd h = true ->
  (forall v, op = Some (Ok v) -> inv (goto (k v) h)) -> inv (drive c t op (ready_stderr rd) k h).
Proof.
  intros Hh Hc Hv Hk. unfold drive. pose proof (phase_some _ (inv_phase _ Hh)) as Hp.
  assert (Hfail : forall e, inv (fail c e h)).
  { intros e. apply inv_fail; [apply Hh|done|]. intros c' ->. by apply (inv_current _ Hh). }
  destruct (cancelled _); [done|]. destruct (_ <=? _); [done|].
  destruct op as [[v|e]|]; [by apply Hk|done|]. destruct (open _); [|done].
  destruct (ready_stderr rd) as [read|] eqn:Er; [|done].
  destruct (drain_stderr_once _ _) as [st|e] eqn:Ed; [|done].
  destruct (co_stderr _ (inv_core _ Hh)) as [Ht _].
  apply drain_ok in Ed as [? ?]; [|done|by eapply ready_stderr_valid]. by apply inv_stderr.
Qed.

Lemma core_logged f e h :
  core h ->
  inbound (f (driver h)) = inbound (driver h) -> outbound (f (driver h)) = outbound (driver h) ->
  stderr_state (f (driver h)) = stderr_state (driver h) -> sequence (f (driver h)) = sequence (driver h) ->
  log (f (driver h)) = log (driver h) ++ [e] -> core (set_driver f h).
Proof.
  intros [] Hi Ho Hs Hq Hl. constructor; cbn; rewrite ?Hi, ?Ho, ?Hs, ?Hq, ?Hl; try done.
  eapply map_Forall_impl; [exact co_answers0|]. intros i k Hk m Hm. apply genuine_app. eauto.
Qed.

Lemma inv_ask c h :
  core h -> stage (driver h) = Idle -> conversation (log (driver h)) (ReadyFor (sequence (driver h))) ->
  owned (callers h) c -> inv (ask c h).
Proof.
  intros Hh Hst Hc Ho. unfold ask. rewrite (co_outbound _ Hh), through_queue by apply Hlimits.
  constructor; try done; [| |by intros ? [= <-]].
  - eapply core_logged; cbn; try done. by rewrite (co_outbound _ Hh).
  - cbn. by constructor.
Qed.

Lemma inv_resume k h : inv h -> stage (driver h) = Committing k -> inv (resume cfg k h).
Proof.
  intros Hh Hst. pose proof (inv_core _ Hh) as Hcore. pose proof (inv_phase _ Hh) as Hp. pose proof (phase_some _ Hp) as Hsome.
  pose proof (inv_current _ Hh) as Hcur. unfold phase_ok, current in *. rewrite Hst in Hp, Hcur.
  destruct k as [|e| |c|c e|c o]; cbn [resume command_of] in *.
  - by apply inv_goto.
  - rewrite (co_inbound _ Hcore), through_queue by apply Hlimits.
    destruct (validate_hello _ _) as [[]|x] eqn:Ev; [|by apply inv_finish]. destruct Hp as [Hp Hseq].
    constructor; try done.
    + eapply core_logged; cbn; try done. by rewrite (co_inbound _ Hcore).
    + unfold phase_ok. cbn. rewrite Hseq. inversion Hp as [|Hl| | |]. cbn. by constructor.
  - by apply inv_goto.
  - apply inv_goto; [done..|]. by intros ? [= <-]; apply Hcur.
  - rewrite (co_inbound _ Hcore), through_queue by apply Hlimits.
    destruct (validate_response _ _ _) as [o|x] eqn:Ev; [|apply inv_finish_exchange; eauto; done].
    constructor; try done.
    + eapply core_logged; cbn; try done. by rewrite (co_inbound _ Hcore).
    + unfold phase_ok. cbn. split; [by econstructor|].
      apply asked_last in Hp as [l ->]. exists l, [], (sequence (driver h)), e. by rewrite <- app_assoc.
  - apply inv_finish_exchange; eauto. by intros ? [= <-].
Qed.

Lemma inv_commit k h : inv h -> stage (driver h) = Committing k -> inv (commit cfg k h).
Proof.
  intros Hh Hst. unfold commit. destruct (ensure_commit_allowed _ _ _) as [[]|e]; [by apply inv_resume|].
  apply inv_fail; [apply Hh|apply phase_some, Hh|]. intros c Hc. apply (inv_current _ Hh). unfold current. by rewrite Hst.
Qed.

Lemma inv_open h : inv h -> stage (driver h) = Opening -> inv (open_session instant_add cfg h).
Proof.
  intros Hh Hst. pose proof (inv_core _ Hh) as Hcore. pose proof (inv_phase _ Hh) as Hp. pose proof (phase_some _ Hp) as Hsome.
  unfold phase_ok in Hp. rewrite Hst in Hp. destruct Hp as [Hl Hseq]. unfold open_session.
  destruct (instant_add _ _) as [t|]; [|by apply inv_finish].
  rewrite (co_outbound _ Hcore), through_queue by apply Hlimits. constructor; try done.
  - eapply core_logged; cbn; try done. by rewrite (co_outbound _ Hcore).
  - unfold phase_ok. cbn. rewrite Hl. split; [constructor|done].
Qed.

Lemma inv_await_command rd h :
  inv h -> stage (driver h) = Idle -> ready_valid rd h = true -> inv (await_command rd h).
Proof.
  intros Hh Hst Hv. pose proof (inv_core _ Hh) as Hcore. pose proof (inv_phase _ Hh) as Hp. pose proof (phase_some _ Hp) as Hsome.
  unfold phase_ok in Hp. rewrite Hst in Hp. unfold await_command.
  destruct (cancelled _); [by apply inv_finish|].
  destruct (ready_read rd) as [[e|e]|]; [|by apply inv_finish|].
  { destruct (through _ _); by apply inv_finish. }
  destruct (if open _ then _ else None) as [read|] eqn:Er.
  - destruct (open _); [|done]. destruct (drain_stderr_once _ _) as [st|e] eqn:Ed; [|by apply inv_finish].
    destruct (co_stderr _ Hcore) as [Ht _]. apply drain_ok in Ed as [? ?]; [|done|by eapply ready_stderr_valid].
    by apply inv_stderr.
  - destruct (commands h) as [|c l] eqn:Ec.
    + destruct (_ =? 0); [by apply inv_finish|done].
    + destruct Hcore. rewrite Ec in *. inversion co_owned0; subst. apply inv_ask; try done.
      constructor; try done. cbn in *. lia.
Qed.

Lemma inv_driver_step rd h : inv h -> ready_valid rd h = true -> inv (driver_step instant_add cfg rd h).
Proof.
  intros Hh Hv. unfold driver_step. pose proof (inv_phase _ Hh) as Hp. unfold phase_ok in Hp.
  assert (Hgo : forall s, stopped (at_stage s (driver h)) = false -> phase_ok (at_stage s (driver h)) ->
            current (at_stage s (driver h)) = current (driver h) -> inv (goto s h)).
  { intros s Hs Hps Hc. apply inv_goto; [apply Hh|done..|]. intros c Hc'. apply (inv_current _ Hh). congruence. }
  destruct (stage (driver h)) as [| | | |c|c|k|r|] eqn:Hst; try done.
  - by apply inv_open.
  - apply inv_drive; [done|by unfold current; rewrite Hst|done|]. intros. apply Hgo; [done..|]. unfold current. by rewrite Hst.
  - apply inv_drive; [done|by unfold current; rewrite Hst|done|]. intros. apply Hgo; [done..|]. unfold current. by rewrite Hst.
  - by apply inv_await_command.
  - apply inv_drive; [done|by unfold current; rewrite Hst|done|]. intros. apply Hgo; [done..|]. unfold current. by rewrite Hst.
  - apply inv_drive; [done|by unfold current; rewrite Hst|done|]. intros. apply Hgo; [done..|]. unfold current. by rewrite Hst.
  - by apply inv_commit.
Qed.

Lemma inv_step a h h' : inv h -> step instant_add cfg a h = Some h' -> inv h'.
Proof.
  intros Hh Hs. destruct a as [dt|rd| |i r t|i|i| | |]; cbn in Hs.
  - destruct (0 <=? dt); [|done]. injection Hs as <-. by destruct Hh as [[]].
  - destruct (ready_valid rd h) eqn:Hv; [|done]. injection Hs as <-. by apply inv_driver_step.
  - destruct (stopped _); [done|]. injection Hs as <-. pose proof (phase_some _ (inv_phase _ Hh)) as Hp.
    destruct Hh as [[]]. constructor; try done. constructor; try done. cbn. lia.
  - destruct (0 <? _); [|done]. destruct (callers h !! i) eqn:Hi; [done|]. injection Hs as <-. by apply inv_call.
  - destruct (callers h !! i) eqn:Hi; [|done]. injection Hs as <-. by apply inv_caller_step.
  - destruct (callers h !! i) eqn:Hi; [|done]. by eapply inv_drop_caller.
  - destruct (0 <? _); [|done]. injection Hs as <-. by apply inv_shared.
  - destruct (0 <? _); [|done]. injection Hs as <-. by apply inv_shared.
  - destruct (_ =? 1); [destruct (idle_callers h); [|done]|destruct (1 <? _); [|done]]; injection Hs as <-; by apply inv_shared.
Qed.

Lemma inv_initial : inv (initial cfg).
Proof.
  constructor; [|done..]. constructor; cbn; try done; try lia; try (by constructor).
  - split; [|done]. pose proof (lw_stderr _ Hlimits). unfold stderr_new. cbn. lia.
  - split; [done|]. intros (i & k & Hi & _). by rewrite lookup_empty in Hi.
Qed.

Lemma inv_reachable h : reachable instant_add cfg h -> inv h.
Proof.
  induction 1 as [h Ho|a h h' _ IH Hs]; [|by eapply inv_step].
  unfold open_ in Ho. passed Ho as Ht. injection Ho as <-. apply inv_initial.
Qed.
End conversation.

(** ** Cancellation *)

Section cancellation.
Context (instant_add : Z -> Z -> option Z) (cfg : Config).

(** How many of its own steps a call needs once the session is cancelled, and how
    many polls the driver needs. *)
Definition remaining (k : Caller) : nat :=
  match k with
  | Returned _ _ => 0
  | Calling (Ping _) _ | Draining _ | Loading _ _ | Releasing _ _ => 1
  | Closing _ | Waiting _ _ _ => 2
  | Calling Shutdown _ | Entered _ _ => 3
  | Swapping _ _ => 4
  end.
Definition polls_left (d : Driver) : nat :=
  match stage d with Finished _ | Dropped => 0 | Opening => 2 | _ => 1 end.
Definition left_of (i : nat) (h : Host) : nat := match callers h !! i with Some k => remaining k | None => 5 end.

Fixpoint runs (i : nat) (l : list Action) : nat :=
  match l with [] => 0 | Run j :: l => if decide (i = j) then S (runs i l) else runs i l | _ :: l => runs i l end.
Fixpoint polls (l : list Action) : nat :=
  match l with [] => 0 | PollDriver _ :: l => S (polls l) | _ :: l => polls l end.

Lemma left_set_caller i j k h : left_of i (set_caller j k h) = if decide (i = j) then remaining k else left_of i h.
Proof.
  unfold left_of. cbn. destruct (decide (i = j)) as [->|]; [by rewrite lookup_insert_eq|by rewrite lookup_insert_ne].
Qed.

(** The driver ends; its callers are only given answers. *)
Lemma send_left i j m h h' : send_answer j m h = Some h' -> left_of i h' = left_of i h /\ shared h' = shared h.
Proof.
  unfold send_answer. destruct (callers h !! j) as [k|] eqn:Hj; [|done]. destruct k as [| | | | | |r t [|]| |]; try done.
  intros [= <-]. rewrite left_set_caller. split; [|done]. destruct (decide (i = j)) as [->|]; [|done]. unfold left_of. by rewrite Hj.
Qed.

Definition ended (h h' : Host) : Prop :=
  polls_left (driver h') = 0%nat /\ shared h' = shared h /\ (forall i, left_of i h' = left_of i h).
Lemma finish_ended r h : ended h (finish r h).
Proof. done. Qed.
Lemma finish_exchange_err c e h : ended h (finish_exchange c (Err e) h).
Proof.
  unfold finish_exchange. destruct (request c).
  - destruct (checked_add _ _ _); [|done]. destruct (send_answer _ _ _) as [h'|] eqn:E; [|done].
    split_and!; [done|exact (proj2 (send_left 0 _ _ _ _ E))|intros i; exact (proj1 (send_left i _ _ _ _ E))].
  - destruct (send_answer _ _ _) as [h'|] eqn:E; [|done].
    split_and!; [done|exact (proj2 (send_left 0 _ _ _ _ E))|intros i; exact (proj1 (send_left i _ _ _ _ E))].
Qed.
Lemma fail_ended c e h : ended h (fail c e h).
Proof. destruct c; [apply finish_exchange_err|done]. Qed.

Lemma driver_cancelled rd h :
  cancelled (shared h) = true ->
  (polls_left (driver (driver_step instant_add cfg rd h)) <= Nat.pred (polls_left (driver h)))%nat /\
  shared (driver_step instant_add cfg rd h) = shared h /\ (forall i, left_of i (driver_step instant_add cfg rd h) = left_of i h).
Proof.
  intros Hc.
  assert (Hend : forall h', (1 <= polls_left (driver h))%nat -> ended h h' ->
    (polls_left (driver h') <= Nat.pred (polls_left (driver h)))%nat /\ shared h' = shared h /\ (forall i, left_of i h' = left_of i h)).
  { intros h' ? (-> & ? & ?). split_and!; [lia|done..]. }
  unfold driver_step, drive, await_command, commit, ensure_commit_allowed. rewrite Hc.
  destruct (stage (driver h)) as [| | | |c|c|k|r|] eqn:Hst;
    try (apply Hend; [unfold polls_left; by rewrite Hst|]; apply fail_ended || apply finish_ended).
  - assert (polls_left (driver h) = 2%nat) as -> by (unfold polls_left; by rewrite Hst). unfold open_session.
    destruct (instant_add _ _); [destruct (through _ _) as [[e q]|]|]; (split_and!; [cbn; lia|done..]).
  - unfold polls_left. rewrite Hst. done.
  - unfold polls_left. rewrite Hst. done.
Qed.

Lemma caller_cancelled i k h :
  cancelled (shared h) = true -> callers h !! i = Some k ->
  let h' := caller_step instant_add cfg i k h in
  cancelled (shared h') = true /\ polls_left (driver h') = polls_left (driver h) /\
  (left_of i h' <= Nat.pred (left_of i h))%nat /\ (forall j, j <> i -> left_of j h' = left_of j h).
Proof.
  intros Hc Hi. assert (Hl : left_of i h = remaining k) by (unfold left_of; by rewrite Hi).
  assert (Hset : forall k' f, (remaining k' < remaining k)%nat -> cancelled (f (shared h)) = true ->
    let h' := set_caller i k' (set_shared f h) in
    cancelled (shared h') = true /\ polls_left (driver h') = polls_left (driver h) /\
    (left_of i h' <= Nat.pred (left_of i h))%nat /\ (forall j, j <> i -> left_of j h' = left_of j h)).
  { intros k' f Hlt Hf. cbn -[left_of]. split_and!; [done|done| |].
    - rewrite left_set_caller, decide_True by done. lia.
    - intros j Hj. by rewrite left_set_caller, decide_False. }
  pose proof (fun k' Hlt => Hset k' id Hlt Hc) as Hset'. cbv beta in Hset'. rewrite (set_shared_id h) in Hset'.
  cbv zeta. destruct k as [[n|] t|t|t|r t|r t|[n|] t|r t m|r m|r m]; cbn [caller_step]; unfold await_response, submit;
    rewrite ?Hc; cbn [orb];
    repeat match goal with
      | |- context [match operation_deadline ?a ?b ?c ?d with _ => _ end] => destruct (operation_deadline a b c d)
      | |- context [if in_flight _ then _ else _] => destruct (in_flight (shared h))
      | |- context [if stopped _ then _ else _] => destruct (stopped (driver h))
      | |- context [match commands h with _ => _ end] => destruct (commands h) eqn:?
      end;
    try (apply Hset'; cbn; lia); try (apply Hset; cbn; [lia|done]).
  all: try (split_and!; [done|done|rewrite Hl; done|done]).
Qed.

Lemma step_cancelled a h h' :
  step instant_add cfg a h = Some h' -> cancelled (shared h) = true ->
  cancelled (shared h') = true /\
  (polls_left (driver h') + polls [a] <= polls_left (driver h) \/ polls_left (driver h') = 0)%nat /\
  (forall i, left_of i h' + runs i [a] <= left_of i h \/ left_of i h' = 0)%nat.
Proof.
  intros Hs Hc.
  destruct a as [dt|rd| |i r t|i|i| | |]; cbn in Hs; cbn [polls runs].
  - destruct (0 <=? dt); [|done]. injection Hs as <-. split_and!; [done|left; cbn; lia|intros i; left; unfold left_of; cbn; lia].
  - destruct (ready_valid rd h); [|done]. injection Hs as <-. destruct (driver_cancelled rd h Hc) as (Hp & -> & Hl).
    split_and!; [done|lia|]. intros i. rewrite Hl. lia.
  - destruct (stopped _); [done|]. injection Hs as <-. split_and!; [done|by right|intros i; left; unfold left_of; cbn; lia].
  - destruct (0 <? _); [|done]. destruct (callers h !! i) eqn:Hi; [done|]. injection Hs as <-.
    split_and!; [done|left; cbn; lia|]. intros j. left. rewrite left_set_caller. destruct (decide (j = i)) as [->|]; [|lia].
    unfold left_of. rewrite Hi. destruct r; cbn; lia.
  - destruct (callers h !! i) eqn:Hi; [|done]. injection Hs as <-.
    destruct (caller_cancelled i _ h Hc Hi) as (H1 & H2 & H3 & H4). split_and!; [done|left; lia|].
    intros j. destruct (decide (j = i)) as [->|Hne]; [lia|]. rewrite (H4 _ Hne). lia.
  - destruct (callers h !! i) as [k|] eqn:Hi; [|done].
    assert (Hl : left_of i h = remaining k) by (unfold left_of; by rewrite Hi).
    destruct k; try done; injection Hs as <-; (split_and!; [done|left; cbn; lia|]); intros j; left;
      rewrite left_set_caller; (destruct (decide (j = i)) as [->|]; [rewrite Hl; cbn; lia|unfold left_of; cbn; lia]).
  - destruct (0 <? _); [|done]. injection Hs as <-. split_and!; [done|left; cbn; lia|intros i; left; unfold left_of; cbn; lia].
  - destruct (0 <? _); [|done]. injection Hs as <-. split_and!; [done|left; cbn; lia|intros i; left; unfold left_of; cbn; lia].
  - destruct (_ =? 1); [destruct (idle_callers h); [|done]|destruct (1 <? _); [|done]]; injection Hs as <-;
      (split_and!; [done|left; cbn; lia|intros i; left; unfold left_of; cbn; lia]).
Qed.

Lemma polls_cons a l : polls (a :: l) = (polls [a] + polls l)%nat.
Proof. by destruct a. Qed.
Lemma runs_cons i a l : runs i (a :: l) = (runs i [a] + runs i l)%nat.
Proof. destruct a; try done. cbn. by destruct (decide _). Qed.

Lemma run_cancelled l h h' :
  run instant_add cfg l h = Some h' -> cancelled (shared h) = true ->
  cancelled (shared h') = true /\
  (polls_left (driver h') + polls l <= polls_left (driver h) \/ polls_left (driver h') = 0)%nat /\
  (forall i, left_of i h' + runs i l <= left_of i h \/ left_of i h' = 0)%nat.
Proof.
  revert h. induction l as [|a l IH]; intros h Hr Hc; cbn [run] in Hr.
  - injection Hr as <-. split_and!; [done|left; cbn; lia|intros i; left; unfold left_of; cbn; lia].
  - destruct (step _ _ a h) as [h1|] eqn:Hs; [|done]. destruct (step_cancelled _ _ _ Hs Hc) as (Hc1 & Hp1 & Hl1).
    destruct (IH h1 Hr Hc1) as (Hc' & Hp & Hl). split_and!; [done| |].
    + rewrite polls_cons. lia.
    + intros i. rewrite runs_cons. specialize (Hl1 i). specialize (Hl i). lia.
Qed.

Lemma left_zero i h : left_of i h = 0%nat -> exists r m, callers h !! i = Some (Returned r m).
Proof. unfold left_of. destruct (callers h !! i) as [[[] | | | | | | | |]|]; try done. eauto. Qed.
Lemma polls_zero d : polls_left d = 0%nat -> stopped d = true.
Proof. unfold polls_left, stopped. by destruct (stage d). Qed.
End cancellation.

(** ** A concrete session *)

Lemma run_reachable instant_add cfg l h h' :
  reachable instant_add cfg h -> run instant_add cfg l h = Some h' -> reachable instant_add cfg h'.
Proof.
  revert h. induction l as [|a l IH]; intros h Hh Hr; cbn [run] in Hr; [by injection Hr as <-|].
  destruct (step _ _ a h) as [h1|] eqn:Hs; [|done]. eapply IH; [|exact Hr]. by econstructor.
Qed.

Module Golden.
Definition limits0 : PluginHostLimits := {|
  frame_limit := 262144; decode_depth := 16; inbound_frames := 16; outbound_frames := 16; active_sessions := 4;
  stderr_total_bytes := 1048576; handshake_timeout := millis 5000; request_timeout := millis 30000;
  shutdown_timeout := millis 2000; aggregate_payload_bytes := 37781504 |}.
Lemma limits0_wf : limits_wf limits0.
Proof. constructor; vm_compute; done. Qed.
Definition cfg : Config := {|
  limits := limits0; expected := {| package_digest := repeat x11 32; challenge := repeat x42 32 |};
  opened_at := 0; caller_deadline := millis 60000 |}.
Definition add (a b : Z) : option Z := Some (a + b).
Definition nothing : Ready := {| ready_write := None; ready_read := None; ready_stderr := None |}.
Definition wrote : Ready := {| ready_write := Some (Ok tt); ready_read := None; ready_stderr := None |}.
Definition said (e : PluginEnvelopeMsg) : Ready := {| ready_write := None; ready_read := Some (Ok e); ready_stderr := None |}.
Definition stderr (n : Z) : Ready := {| ready_write := None; ready_read := None; ready_stderr := Some (Some n) |}.
Definition plugin_hello : PluginEnvelopeMsg := {|
  pe_sequence := 0; pe_body := Some (PluginBodyHello {|
    ph_protocol_major := PROTOCOL_MAJOR; ph_protocol_minor := PROTOCOL_MINOR; ph_session_challenge := repeat x42 32 |}) |}.
Definition pong (seq n : Z) : PluginEnvelopeMsg := {| pe_sequence := seq; pe_body := Some (PluginBodyPing n) |}.
Definition bye (seq : Z) : PluginEnvelopeMsg := {| pe_sequence := seq; pe_body := Some PluginBodyShutdown |}.
Definition polled (rd : Ready) : list Action := [PollDriver rd; PollDriver nothing].
Definition handshake : list Action := [PollDriver nothing] ++ polled wrote ++ polled (said plugin_hello) ++ [PollDriver nothing].
(** Two callers race: one is admitted, the other is told to back off. *)
Definition race : list Action := [Call 0 (Ping 7) (millis 1000); Call 1 (Ping 8) (millis 1000); Run 0; Run 1; Run 1; Run 0; Run 1].
Definition ping_answered : list Action :=
  [PollDriver (stderr 100); PollDriver nothing] ++ polled wrote ++ polled (said (pong 1 8)) ++ [PollDriver nothing; Run 1; Run 1].
Definition shutdown : list Action :=
  [Call 2 Shutdown (millis 1000); Run 2; Run 2; Run 2; Run 2; Run 2; Run 2; PollDriver nothing] ++ polled wrote ++
  polled (said (bye 2)) ++ [PollDriver nothing; Run 2; Run 2].
Definition session : list Action := handshake ++ race ++ ping_answered ++ shutdown.
Definition summary (h : Host) : Stage * list (option Caller) * nat :=
  (stage (driver h), map (fun i => callers h !! i) [0; 1; 2]%nat, length (log (driver h))).

Example golden_session :
  summary <$> run add cfg session (initial cfg) =
  Some (Finished (Ok CooperativeShutdown),
        [Some (Returned (Ping 7) (Some (Err (new Backpressure)))); Some (Returned (Ping 8) (Some (Ok (PingAnswer (Completed 8)))));
         Some (Returned Shutdown (Some (Ok (ShutdownAnswer (Completed tt)))))], 6%nat).
Proof. vm_compute. reflexivity. Qed.
(** A ping that is dropped while the plugin is silent ends the session. *)
Definition abandoned : list Action :=
  handshake ++ [Call 0 (Ping 7) (millis 1000); Run 0; Run 0; Run 0; PollDriver nothing; DropCall 0; PollDriver nothing; Run 0].
Example golden_abandoned :
  summary <$> run add cfg abandoned (initial cfg) =
  Some (Finished (Err cancelled_), [Some (Returned (Ping 7) None); None; None], 3%nat).
Proof. vm_compute. reflexivity. Qed.
End Golden.

(** The payload memory of the plugin host is bounded.  [limits_new] accepts
    exactly the limits in range and records their aggregate, computed without
    overflow, which never exceeds 37,781,504 bytes and reaches it for the defaults;
    and whatever sessions start and end, those running are at most the configured
    number, one more is admitted exactly when there is room, and together they stay
    within that aggregate. *)
Theorem host_memory_bounded :
  (forall f d i o n s t1 t2 t3 l, limits_new f d i o n s t1 t2 t3 = Ok l -> limits_wf l) /\
  (forall l, limits_wf l -> limits_of l = Ok l /\ 0 <= aggregate_payload_bytes l <= MAX_AGGREGATE_PAYLOAD_BYTES) /\
  (aggregate_payload_bytes <$> result_ok limits_default = Some MAX_AGGREGATE_PAYLOAD_BYTES) /\
  (forall l ops, limits_wf l ->
     let '(a, running) := admissions ops (admission_new l, 0) in
     0 <= running <= active_sessions l /\ (is_ok (try_acquire a).1 = true <-> running < active_sessions l) /\
     running * ((inbound_frames l + outbound_frames l + 4) * frame_limit l + STDERR_BUFFER_BYTES) <= aggregate_payload_bytes l).
Proof.
  split_and!; [apply limits_new_wf| |vm_compute; reflexivity|].
  - intros l Hl. split; [by apply limits_new_accepts|by apply aggregate_bound].
  - intros l ops Hl. destruct (admissions_inv ops (admission_new l) 0) as (_ & Hsum & Hn & Hp);
      [lia|destruct Hl; cbn; lia|]. destruct (admissions _ _) as [a n]. cbn [fst snd permits admission_new] in *.
    split_and!; [lia..| |].
    + unfold try_acquire. destruct (permits a =? 0) eqn:E; bool_hyps; cbn; intuition (done || lia).
    + destruct Hl. rewrite lw_aggregate0, Z.mul_comm. apply Z.mul_le_mono_nonneg_l; [|lia].
      unfold STDERR_BUFFER_BYTES. nia.
Qed.

(** C19: Whatever the interleaving of the driver, its callers, cancellations and
    time, a session talks to its plugin in lockstep: hello first, answered with the
    session's challenge, then requests numbered from one, each sent only after the
    answer to the one before was accepted.  At most one call is in flight, at most
    one command is queued and standard error stays within its limit; a call that
    returns success returns what the plugin answered to that very request, and the
    session closes cooperatively only after the plugin agreed to shut down. *)
Theorem session_in_lockstep (instant_add : Z -> Z -> option Z) (cfg : Config) (h : Host)
    (Hlimits : limits_wf (limits cfg)) (Hreach : reachable instant_add cfg h) :
  (exists p, conversation cfg (log (driver h)) p) /\
  (forall i r a, callers h !! i = Some (Returned r (Some (Ok a))) ->
     exists o, exchanged (log (driver h)) r o /\ map_outcome r o = Some a) /\
  (stage (driver h) = Finished (Ok CooperativeShutdown) -> exchanged (log (driver h)) Shutdown ShutdownDone) /\
  (forall i j k k', callers h !! i = Some k -> callers h !! j = Some k' -> holding k = true -> holding k' = true -> i = j) /\
  (in_flight (shared h) = true <-> exists i k, callers h !! i = Some k /\ holding k = true) /\
  (length (commands h) <= 1)%nat /\ (stopped (driver h) = true -> commands h = []) /\
  0 <= total (stderr_state (driver h)) <= stderr_total_bytes (limits cfg).
Proof.
  destruct (inv_reachable instant_add cfg Hlimits h Hreach) as [Hc Hp _ Hs]. split_and!; try apply Hc.
  - by eapply phase_some.
  - intros i r a Hi. exact (co_answers _ _ Hc i _ Hi _ eq_refl a eq_refl).
  - intros Hst. unfold phase_ok in Hp. rewrite Hst in Hp. by apply Hp.
  - done.
  - destruct (co_stderr _ _ Hc) as [? <-]. lia.
Qed.

Lemma session_in_lockstep_witness :
  exists h, run Golden.add Golden.cfg Golden.session (initial Golden.cfg) = Some h /\
    stage (driver h) = Finished (Ok CooperativeShutdown) /\ exchanged (log (driver h)) Shutdown ShutdownDone.
Proof.
  destruct (run Golden.add Golden.cfg Golden.session (initial Golden.cfg)) as [h|] eqn:E; [|vm_compute in E; discriminate E].
  exists h. assert (Hst : stage (driver h) = Finished (Ok CooperativeShutdown)).
  { vm_compute in E. injection E as <-. reflexivity. }
  split; [reflexivity|]. split; [exact Hst|].
  apply (session_in_lockstep Golden.add Golden.cfg h Golden.limits0_wf); [|exact Hst].
  eapply run_reachable; [|exact E]. apply reachable_open. reflexivity.
Defined.

(** C20: Cancellation ends a session.  The flag is never cleared; from the moment it
    is set, in every continuation, two polls stop the driver and four steps of its own
    make any call return, whatever the plugin, the streams, the clock and the other
    callers do.  A call that waits for its answer sets the flag when it is dropped and
    when its deadline passes, and so does the last handle. *)
Theorem cancelled_sessions_end (instant_add : Z -> Z -> option Z) (cfg : Config) :
  (forall l h h', cancelled (shared h) = true -> run instant_add cfg l h = Some h' ->
     cancelled (shared h') = true /\ ((2 <= polls l)%nat -> stopped (driver h') = true) /\
     (forall i k, callers h !! i = Some k -> (4 <= runs i l)%nat -> exists r m, callers h' !! i = Some (Returned r m))) /\
  (forall i r t m h h', callers h !! i = Some (Waiting r t m) -> step instant_add cfg (DropCall i) h = Some h' ->
     cancelled (shared h') = true) /\
  (forall i r t m h h', callers h !! i = Some (Waiting r t m) -> t <= now h -> step instant_add cfg (Run i) h = Some h' ->
     cancelled (shared h') = true) /\
  (forall h h', handles (shared h) = 1 -> step instant_add cfg DropHandle h = Some h' -> cancelled (shared h') = true).
Proof.
  split_and!.
  - intros l h h' Hc Hr. destruct (run_cancelled instant_add cfg l h h' Hr Hc) as (Hc' & Hp & Hl). split_and!; [done| |].
    + intros H2. apply polls_zero. enough (polls_left (driver h) <= 2)%nat by lia. unfold polls_left. destruct (stage _); lia.
    + intros i k Hi H4. apply left_zero. specialize (Hl i). enough (left_of i h <= 4)%nat by lia.
      unfold left_of. rewrite Hi. destruct k as [[]| | | | | | | |]; cbn; lia.
  - intros i r t m h h1 Hi Hs. cbn in Hs. rewrite Hi in Hs. by injection Hs as <-.
  - intros i r t m h h1 Hi Ht Hs. cbn in Hs. rewrite Hi in Hs. injection Hs as <-. cbn. unfold await_response.
    destruct (cancelled (shared h)) eqn:Hc; [done|]. by rewrite (proj2 (Z.leb_le _ _)).
  - intros h h1 H1 Hs. cbn in Hs. rewrite H1 in Hs. cbn in Hs. destruct (idle_callers h); [|done]. by injection Hs as <-.
Qed.
End HostFacts.
