(* ===== verification/Events.v ===== *)
(** Event payloads: the tag-length-value codec of [mengxia-events/src/lib.rs]. *)
From Stdlib Require Import ZArith Lia String.
From Stdlib Require Import Strings.Byte Init.Byte.
From stdpp Require Import prelude list.
From S2P Require Import Prelude.

Set Warnings "-clear-no-such-hyp".

Module EventPayload.

Inductive EventPayloadError := InvalidPayload.
Definition U16_MAX : Z := 65535.
Definition Field : Type := byte * list byte.

(** [previous.is_some_and(|previous| tag <= previous)]. *)
Definition not_after (previous : option byte) (tag : byte) : bool :=
  match previous with Some p => b2z tag <=? b2z p | None => false end.

(** The [for (tag, value) in fields] loop. *)
Fixpoint from_fields_loop (encoded : list byte) (previous : option byte) (fields : list Field)
  : result EventPayloadError (list byte) :=
  match fields with
  | [] => Ok encoded
  | (tag, value) :: rest =>
      if (b2z tag =? 0) || not_after previous tag || bool_decide (value = []) || (U16_MAX <? blen value)
      then Err InvalidPayload
      else
        let? length := ok_or InvalidPayload (try_into U16_MAX (blen value)) in
        let encoded := encoded ++ [tag] ++ be_bytes 2 length ++ value in
        if 2048 <? blen encoded then Err InvalidPayload
        else from_fields_loop encoded (Some tag) rest
  end.

Definition from_fields (fields : list Field) : result EventPayloadError (option (list byte)) :=
  let? encoded := from_fields_loop [] None fields in
  if bool_decide (encoded = []) then Ok None else Ok (Some encoded).

(** The [while cursor < bytes.len()] loop over the unread suffix; every iteration
    consumes at least four bytes. *)
Fixpoint decode_loop (fuel : nat) (previous : option byte) (bytes : list byte) : result EventPayloadError () :=
  match bytes with
  | [] => Ok tt
  | tag :: after_tag =>
      match fuel with
      | O => Err InvalidPayload
      | S f =>
          let? (header, after_length) := ok_or InvalidPayload (split_exact 2 after_tag) in
          let length := be_value header in
          if (b2z tag =? 0) || not_after previous tag || (length =? 0) || (blen bytes <? 3 + length)
          then Err InvalidPayload
          else decode_loop f (Some tag) (drop (Z.to_nat (3 + length)) bytes)
      end
  end.

Definition decode (bytes : list byte) : result EventPayloadError (list byte) :=
  if bool_decide (bytes = []) || (2048 <? blen bytes) then Err InvalidPayload
  else let? _ := decode_loop (length bytes) None bytes in Ok bytes.

(** ** Lemmas *)

Definition field_bytes (f : Field) : list byte := [f.1] ++ be_bytes 2 (blen f.2) ++ f.2.
Definition fields_bytes (fs : list Field) : list byte := concat (map field_bytes fs).

(** Tags positive and strictly increasing after [previous], values of 1 to 65535 bytes. *)
Fixpoint fields_ok (previous : option byte) (fs : list Field) : Prop :=
  match fs with
  | [] => True
  | (tag, value) :: rest =>
      b2z tag <> 0 /\ not_after previous tag = false /\ value <> [] /\ blen value <= U16_MAX /\
      fields_ok (Some tag) rest
  end.

Lemma field_bytes_length f : blen (field_bytes f) = 3 + blen f.2.
Proof.
  unfold field_bytes. rewrite !blen_app, blen_cons, blen_nil.
  assert (blen (be_bytes 2 (blen f.2)) = 2) by (unfold blen; by rewrite be_bytes_length). lia.
Qed.

Lemma from_fields_loop_ok encoded previous fs out :
  from_fields_loop encoded previous fs = Ok out <->
  fields_ok previous fs /\ out = encoded ++ fields_bytes fs /\ (fs <> [] -> blen out <= 2048).
Proof.
  revert encoded previous out. induction fs as [|[tag value] fs IH]; intros encoded previous out; cbn [from_fields_loop fields_ok].
  - unfold fields_bytes. cbn. rewrite app_nil_r. split; [intros [= <-]; done|intros (_ & -> & _); done].
  - change (fields_bytes ((tag, value) :: fs)) with (field_bytes (tag, value) ++ fields_bytes fs).
    pose proof (blen_nonneg value). pose proof (blen_nonneg (fields_bytes fs)). split.
    + intros Hx. passed Hx as E. bool_hyps. rewrite try_into_id in Hx by lia. cbn [ok_or result_bind] in Hx.
      passed Hx as El. bool_hyps. apply IH in Hx as (Hf & -> & Hlen).
      change ([tag] ++ be_bytes 2 (blen value) ++ value) with (field_bytes (tag, value)) in *.
      rewrite <- app_assoc in Hlen |- *. split_and!; [done..|].
      intros _. destruct fs as [|f fs]; [|apply Hlen; done].
      unfold fields_bytes. cbn [map concat]. by rewrite app_nil_r.
    + intros ((Ht & Hp & Hv & Hl & Hf) & -> & Hlen). specialize (Hlen ltac:(done)).
      rewrite (proj2 (Z.eqb_neq _ 0)), Hp, bool_decide_false, (proj2 (Z.ltb_ge _ _)) by (done || lia). cbn [orb].
      rewrite try_into_id by lia. cbn [ok_or result_bind].
      change ([tag] ++ be_bytes 2 (blen value) ++ value) with (field_bytes (tag, value)).
      rewrite app_assoc in Hlen |- *. rewrite (blen_app _ (fields_bytes fs)) in Hlen.
      rewrite (proj2 (Z.ltb_ge _ _)) by lia. apply IH. split_and!; [done..|].
      intros _. rewrite blen_app. lia.
Qed.

Lemma decode_loop_ok fuel previous bytes :
  (length bytes <= fuel)%nat ->
  decode_loop fuel previous bytes = Ok tt <-> exists fs, fields_ok previous fs /\ bytes = fields_bytes fs.
Proof.
  revert previous bytes. induction fuel as [|fuel IH]; intros previous bytes Hl.
  { destruct bytes; [|cbn in Hl; lia]. split; [intros _; by exists []|done]. }
  destruct bytes as [|tag t]; [split; [intros _; by exists []|done]|]. cbn [decode_loop]. split.
  - intros H. apply result_bind_ok in H as ([header after] & Hh & H). apply ok_or_ok, split_exact_Some in Hh as [-> Hh].
    passed H as E. bool_hyps. pose proof (be_value_range header) as Hr. rewrite Hh in Hr.
    change (256 ^ 2) with 65536 in Hr.
    rewrite blen_cons, blen_app in *.
    set (value := take (Z.to_nat (be_value header)) after).
    assert (Hv : after = value ++ drop (Z.to_nat (be_value header)) after) by (symmetry; apply take_drop).
    assert (Hvl : blen value = be_value header) by (unfold value, blen in *; rewrite length_take; lia).
    assert (Hhb : header = be_bytes 2 (blen value)).
    { rewrite Hvl, <- (be_bytes_value header) at 1. f_equal. unfold blen in Hh. lia. }
    assert (Hd : drop (Z.to_nat (3 + be_value header)) (tag :: header ++ after) = drop (Z.to_nat (be_value header)) after).
    { replace (Z.to_nat (3 + be_value header)) with (S (length header + Z.to_nat (be_value header)))
        by (unfold blen in Hh; lia).
      cbn [drop]. by rewrite drop_app_add. }
    rewrite Hd in H. apply IH in H as (fs & Hf & Hfs).
    + exists ((tag, value) :: fs). split.
      * cbn. split_and!; [done..| |unfold U16_MAX; lia|done]. intros Hn. rewrite Hn, blen_nil in Hvl. lia.
      * change (fields_bytes ((tag, value) :: fs)) with (field_bytes (tag, value) ++ fields_bytes fs).
        rewrite <- Hfs. unfold field_bytes. cbn [fst snd app]. rewrite <- Hhb, <- app_assoc. by rewrite <- Hv.
    + cbn [length] in Hl. rewrite length_drop. rewrite length_app in Hl. lia.
  - intros (fs & Hf & Heq). destruct fs as [|[tag' value] fs]; [done|].
    change (fields_bytes ((tag', value) :: fs)) with (field_bytes (tag', value) ++ fields_bytes fs) in Heq.
    unfold field_bytes in Heq. cbn [fst snd app] in Heq. apply cons_eq in Heq as [<- ->].
    destruct Hf as (Ht & Hp & Hv & Hvl & Hf). pose proof (blen_nonneg value). unfold U16_MAX in Hvl.
    assert (Hb2 : blen (be_bytes 2 (blen value)) = 2) by (unfold blen; by rewrite be_bytes_length).
        rewrite <- app_assoc. rewrite <- Hb2 at 1. rewrite split_exact_app. cbn [ok_or result_bind].
    rewrite be_value_bytes by (change (256 ^ Z.of_nat 2) with 65536; lia).
    rewrite blen_cons, !blen_app, Hb2. pose proof (blen_nonneg (fields_bytes fs)).
    rewrite (proj2 (Z.eqb_neq _ 0)), Hp, (proj2 (Z.eqb_neq _ 0)), (proj2 (Z.ltb_ge _ _))
      by (done || lia || (by rewrite blen_zero)). cbn [orb].
    replace (Z.to_nat (3 + blen value)) with (S (2 + length value)) by (unfold blen; lia).
    cbn [drop]. rewrite (app_assoc (be_bytes 2 _)).
    replace (2 + length value)%nat with (length (be_bytes 2 (blen value) ++ value))
      by (rewrite length_app, be_bytes_length; lia).
    rewrite drop_app_length. apply IH; [|by exists fs].
    cbn [length] in Hl. rewrite !length_app in Hl. lia.
Qed.

(** The bytes the payload decoder accepts are exactly those the encoder can
    produce from some non-empty list of fields with positive, strictly increasing
    tags and 1 to 65535 byte values, within 2048 bytes; encoding then decoding
    returns the same payload, and an encoder that refuses produced nothing. *)
Theorem event_payload_roundtrip (bytes : list byte) :
  decode bytes = Ok bytes <-> exists fields, from_fields fields = Ok (Some bytes).
Proof.
  unfold decode, from_fields. split.
  - intros H. passed H as E. bool_hyps. apply result_bind_ok in H as ([] & H & _).
    apply decode_loop_ok in H as (fs & Hf & ->); [|done]. exists fs.
    rewrite (proj2 (from_fields_loop_ok [] None fs (fields_bytes fs))) by (split_and!; [done..|intros _; lia]).
    cbn [result_bind]. by rewrite bool_decide_false.
  - intros (fs & H). apply result_bind_ok in H as (out & Hout & H).
    case_bool_decide as En; [done|]. injection H as ->.
    apply from_fields_loop_ok in Hout as (Hf & Hb & Hlen). cbn in Hb.
    assert (fs <> []) as Hne by (intros ->; subst bytes; done). specialize (Hlen Hne).
    rewrite bool_decide_false, (proj2 (Z.ltb_ge _ _)) by (done || lia). cbn [orb].
    rewrite (proj2 (decode_loop_ok (length bytes) None bytes ltac:(done))) by (by exists fs). done.
Qed.
End EventPayload.
