(* ===== verification/AssetDomain.v ===== *)
(** Asset values and aggregates: [mengxia-domain/src/asset.rs]. *)
From Stdlib Require Import ZArith Lia String.
From Stdlib Require Import Strings.Byte Init.Byte.
From stdpp Require Import prelude list sorting.
From S2P Require Import Prelude RustText Ord Types.

Set Warnings "-clear-no-such-hyp".

Module AssetModel.

Definition TOKEN_MAX_BYTES : Z := 64.
Definition LOGICAL_NAME_MAX_BYTES : Z := 255.
Definition MEDIA_TYPE_MAX_BYTES : Z := 255.
Definition MAX_PARENTS : Z := 64.

Inductive AssetLifecycle := Active | Retired.
Inductive BlobLifecycle := BlobAvailable | BlobGcPending | BlobPurged.
Inductive AssetError := InvalidValue | InvalidGraph | InvalidTransition | Conflict | RevisionExhausted.
#[global] Instance AssetLifecycle_eq_dec : EqDecision AssetLifecycle.
Proof. solve_decision. Defined.
#[global] Instance BlobLifecycle_eq_dec : EqDecision BlobLifecycle.
Proof. solve_decision. Defined.
#[global] Instance AssetError_eq_dec : EqDecision AssetError.
Proof. solve_decision. Defined.

(** ** Values *)

Definition token_byte (b : byte) : bool :=
  is_ascii_lowercase b || is_ascii_digit b || byte_in [x2e; x5f; x2d] b.
(** [Token::new], also behind [AssetKind], [ContentKind], [RepresentationPurpose]
    and [ResourceKind]. *)
Definition token_new (value : list byte) : result AssetError (list byte) :=
  match value with
  | [] => Err InvalidValue
  | b0 :: _ =>
      if (TOKEN_MAX_BYTES <? blen value) || negb (is_ascii_lowercase b0) || negb (forallb token_byte value)
      then Err InvalidValue else Ok value
  end.

Definition logical_name_new (value : list byte) : result AssetError (list byte) :=
  if (LOGICAL_NAME_MAX_BYTES <? blen value) || existsb is_control (chars value)
  then Err InvalidValue else Ok value.

Definition count_byte (b : byte) (l : list byte) : Z := blen (List.filter (fun x => bool_decide (x = b)) l).
Definition media_type_byte (b : byte) : bool :=
  is_ascii_lowercase b || is_ascii_digit b
  || byte_in [x21; x23; x24; x26; x5e; x5f; x2e; x2b; x2d; x2f] b.
Definition media_type_new (value : list byte) : result AssetError (list byte) :=
  if negb ((3 <=? blen value) && (blen value <=? MEDIA_TYPE_MAX_BYTES))
     || negb (is_ascii value)
     || negb (count_byte x2f value =? 1)
     || bool_decide (head value = Some x2f)
     || bool_decide (last value = Some x2f)
     || negb (forallb media_type_byte value)
  then Err InvalidValue else Ok value.

(** ** The managed asset graph *)

Definition Id : Type := list byte.
(** Whole seconds and nanoseconds. *)
Definition Timestamp : Type := Z * Z.

Record AssetRecord := {
  ar_id : Id; ar_kind : list byte; ar_lifecycle : AssetLifecycle; ar_revision : Z; ar_created_at : Timestamp }.

Record RegisterManagedAssetValues := {
  rv_asset_id : Id; rv_asset_kind : list byte; rv_asset_revision_id : Id; rv_content_kind : list byte;
  rv_representation_id : Id; rv_representation_purpose : list byte; rv_resource_id : Id;
  rv_resource_kind : list byte; rv_logical_name : list byte; rv_media_type : option (list byte);
  rv_blob_digest : list byte; rv_created_at : Timestamp }.

Record AssetGraph := {
  ag_asset : AssetRecord; ag_asset_revision_id : Id; ag_content_kind : list byte;
  ag_representation_id : Id; ag_representation_purpose : list byte; ag_resource_id : Id;
  ag_resource_kind : list byte; ag_logical_name : list byte; ag_media_type : option (list byte);
  ag_blob_digest : list byte }.

(** [iter().enumerate().any(|(i, id)| ids[i + 1..].contains(id))]. *)
Fixpoint any_repeated (ids : list Id) : bool :=
  match ids with [] => false | id :: t => bool_decide (id ∈ t) || any_repeated t end.

Definition register_managed (v : RegisterManagedAssetValues) : result AssetError AssetGraph :=
  let object_ids := [rv_asset_id v; rv_asset_revision_id v; rv_representation_id v; rv_resource_id v] in
  if any_repeated object_ids then Err InvalidValue
  else Ok {|
    ag_asset := {| ar_id := rv_asset_id v; ar_kind := rv_asset_kind v; ar_lifecycle := Active;
                   ar_revision := 1; ar_created_at := rv_created_at v |};
    ag_asset_revision_id := rv_asset_revision_id v; ag_content_kind := rv_content_kind v;
    ag_representation_id := rv_representation_id v;
    ag_representation_purpose := rv_representation_purpose v;
    ag_resource_id := rv_resource_id v; ag_resource_kind := rv_resource_kind v;
    ag_logical_name := rv_logical_name v; ag_media_type := rv_media_type v;
    ag_blob_digest := rv_blob_digest v |}.

(** ** Derived revisions *)

Record RevisionMember := { rm_logical_name : list byte; rm_blob_digest : list byte }.
Record RevisionResource := { rr_id : Id; rr_kind : list byte; rr_members : list RevisionMember }.
Record RevisionRepresentation := { rp_id : Id; rp_purpose : list byte; rp_resources : list RevisionResource }.

Definition revision_resource_new (id : Id) (kind : list byte) (members : list RevisionMember)
  : result AssetError RevisionResource :=
  if bool_decide (blen members = 0) || (4096 <? blen members) then Err InvalidGraph
  else Ok {| rr_id := id; rr_kind := kind; rr_members := members |}.

Definition revision_representation_new (id : Id) (purpose : list byte) (resources : list RevisionResource)
  : result AssetError RevisionRepresentation :=
  if bool_decide (blen resources = 0) || (64 <? blen resources) then Err InvalidGraph
  else
    let unique := btree_collect (map rr_id resources) in
    if negb (blen unique =? blen resources) then Err InvalidGraph
    else Ok {| rp_id := id; rp_purpose := purpose; rp_resources := resources |}.

Record CreateAssetRevisionValues := {
  cv_expected_revision : Z; cv_revision_id : Id; cv_parent_revision_ids : list Id;
  cv_content_kind : list byte; cv_representations : list RevisionRepresentation; cv_created_at : Timestamp }.

Record NewAssetRevision := {
  nr_asset_id : Id; nr_revision_id : Id; nr_parent_revision_ids : list Id; nr_content_kind : list byte;
  nr_representations : list RevisionRepresentation; nr_resulting_revision : Z; nr_created_at : Timestamp }.

Definition create_revision (self : AssetRecord) (v : CreateAssetRevisionValues)
  : result AssetError NewAssetRevision :=
  if negb (bool_decide (ar_lifecycle self = Active)) || negb (cv_expected_revision v =? ar_revision self)
  then Err Conflict
  else if bool_decide (cv_parent_revision_ids v = []) || (MAX_PARENTS <? blen (cv_parent_revision_ids v))
     || bool_decide (blen (cv_representations v) = 0) || (64 <? blen (cv_representations v))
     || bool_decide (cv_revision_id v ∈ cv_parent_revision_ids v)
     || negb (blen (btree_collect (cv_parent_revision_ids v)) =? blen (cv_parent_revision_ids v))
  then Err InvalidGraph
  else
    let representation_ids := btree_collect (map rp_id (cv_representations v)) in
    if negb (blen representation_ids =? blen (cv_representations v)) then Err InvalidGraph
    else
      let resource_count := foldr Z.add 0 (map (fun r => blen (rp_resources r)) (cv_representations v)) in
      let resource_ids :=
        btree_collect (concat (map (fun r => map rr_id (rp_resources r)) (cv_representations v))) in
      if negb (blen resource_ids =? resource_count) then Err InvalidGraph
      else
        let? resulting_revision := map_err (fun _ => RevisionExhausted) (Revision.checked_next (ar_revision self)) in
        Ok {| nr_asset_id := ar_id self; nr_revision_id := cv_revision_id v;
              nr_parent_revision_ids := cv_parent_revision_ids v; nr_content_kind := cv_content_kind v;
              nr_representations := cv_representations v; nr_resulting_revision := resulting_revision;
              nr_created_at := cv_created_at v |}.

(** ** Blob locations *)

Record BlobRecord := { br_digest : list byte; br_lifecycle : BlobLifecycle; br_revision : Z }.
Record RecordManagedLocationValues := {
  lv_digest : list byte; lv_expected_revision : Z; lv_location_id : Id; lv_verified_at : Timestamp }.
Record LocationChange := {
  lc_digest : list byte; lc_location_id : Id; lc_resulting_revision : Z; lc_verified_at : Timestamp }.

Definition record_location (self : BlobRecord) (v : RecordManagedLocationValues)
  : result AssetError LocationChange :=
  if negb (bool_decide (br_lifecycle self = BlobAvailable)) || negb (bool_decide (lv_digest v = br_digest self))
  then Err InvalidTransition
  else if negb (lv_expected_revision v =? br_revision self) then Err Conflict
  else
    let? resulting_revision := map_err (fun _ => RevisionExhausted) (Revision.checked_next (br_revision self)) in
    Ok {| lc_digest := br_digest self; lc_location_id := lv_location_id v;
          lc_resulting_revision := resulting_revision; lc_verified_at := lv_verified_at v |}.

(** ** Lemmas *)

Lemma any_repeated_spec ids : any_repeated ids = false <-> NoDup ids.
Proof.
  induction ids as [|id t IH]; cbn; [split; [constructor|done]|].
  rewrite orb_false_iff, bool_decide_eq_false, NoDup_cons, IH. done.
Qed.

Lemma blen_btree_collect (l : list Id) : (blen (btree_collect l) =? blen l) = bool_decide (NoDup l).
Proof.
  apply Bool.eq_iff_eq_true. rewrite Z.eqb_eq, bool_decide_eq_true, <- btree_collect_length.
  unfold blen. lia.
Qed.

(** The resource identities of all representations, in order. *)
Definition all_resource_ids (reps : list RevisionRepresentation) : list Id :=
  concat (map (fun r => map rr_id (rp_resources r)) reps).

Lemma all_resource_ids_length reps :
  blen (all_resource_ids reps) = foldr Z.add 0 (map (fun r => blen (rp_resources r)) reps).
Proof.
  unfold all_resource_ids. induction reps as [|r reps IH]; cbn; [done|]. rewrite blen_app, IH. f_equal.
  unfold blen. by rewrite length_map.
Qed.

(** What makes the graph of a derived revision well formed. *)
Record revision_graph_ok (v : CreateAssetRevisionValues) : Prop := {
  rg_parents : 1 <= blen (cv_parent_revision_ids v) <= MAX_PARENTS;
  rg_parents_distinct : NoDup (cv_parent_revision_ids v);
  rg_not_own_parent : cv_revision_id v ∉ cv_parent_revision_ids v;
  rg_representations : 1 <= blen (cv_representations v) <= 64;
  rg_representations_distinct : NoDup (map rp_id (cv_representations v));
  rg_resources_distinct : NoDup (all_resource_ids (cv_representations v)) }.

(** The three graph guards of [create_revision] together. *)
Definition graph_guards (v : CreateAssetRevisionValues) : bool :=
  (bool_decide (cv_parent_revision_ids v = []) || (MAX_PARENTS <? blen (cv_parent_revision_ids v))
   || bool_decide (blen (cv_representations v) = 0) || (64 <? blen (cv_representations v))
   || bool_decide (cv_revision_id v ∈ cv_parent_revision_ids v)
   || negb (blen (btree_collect (cv_parent_revision_ids v)) =? blen (cv_parent_revision_ids v)))
  || negb (blen (btree_collect (map rp_id (cv_representations v))) =? blen (cv_representations v))
  || negb (blen (btree_collect (all_resource_ids (cv_representations v)))
           =? foldr Z.add 0 (map (fun r => blen (rp_resources r)) (cv_representations v))).

Lemma graph_guards_spec v : graph_guards v = false <-> revision_graph_ok v.
Proof.
  unfold graph_guards. rewrite <- all_resource_ids_length.
  replace (blen (cv_representations v)) with (blen (map rp_id (cv_representations v)))
    by (unfold blen; by rewrite length_map).
  rewrite !blen_btree_collect, !orb_false_iff, !negb_false_iff, !bool_decide_eq_true, !bool_decide_eq_false, !Z.ltb_ge.
  rewrite <- (blen_zero (cv_parent_revision_ids v)).
  pose proof (blen_nonneg (cv_parent_revision_ids v)). pose proof (blen_nonneg (map rp_id (cv_representations v))).
  assert (blen (cv_representations v) = blen (map rp_id (cv_representations v))) as Hl
    by (unfold blen; by rewrite length_map).
  split.
  - intros [[[[[[[? ?] ?] ?] ?] ?] ?] ?]. split; rewrite ?Hl; (done || lia).
  - intros []. rewrite Hl in *. split_and!; (done || lia).
Qed.

(** The outcome of [create_revision] in the order of its checks. *)
Lemma create_revision_eq self v :
  create_revision self v =
  if negb (bool_decide (ar_lifecycle self = Active)) || negb (cv_expected_revision v =? ar_revision self)
  then Err Conflict
  else if graph_guards v then Err InvalidGraph
  else if ar_revision self + 1 <=? U64_MAX
  then Ok {| nr_asset_id := ar_id self; nr_revision_id := cv_revision_id v;
             nr_parent_revision_ids := cv_parent_revision_ids v; nr_content_kind := cv_content_kind v;
             nr_representations := cv_representations v; nr_resulting_revision := ar_revision self + 1;
             nr_created_at := cv_created_at v |}
  else Err RevisionExhausted.
Proof.
  unfold create_revision, graph_guards, Revision.checked_next, checked_add.
  change (concat (map (fun r => map rr_id (rp_resources r)) (cv_representations v)))
    with (all_resource_ids (cv_representations v)).
  destruct (negb _ || negb _); [done|].
  destruct (_ || negb (blen (btree_collect (cv_parent_revision_ids v)) =? _)); [done|]. cbn [orb].
  destruct (negb (blen (btree_collect (map rp_id (cv_representations v))) =? _)); [done|]. cbn [orb].
  destruct (negb (_ =? foldr _ _ _)); [done|]. by destruct (_ <=? _).
Qed.

(** Deriving a revision.  The aggregate must be active and at the revision the
    caller expects; then the graph must be well formed (1 to 64 distinct parents
    that are not the new revision, 1 to 64 representations, no representation or
    resource identity used twice anywhere); then the revision must not be
    exhausted.  Each failure has its own error in that order, and success advances
    the aggregate by exactly one revision. *)
Theorem create_revision_outcomes (self : AssetRecord) (v : CreateAssetRevisionValues) :
  (create_revision self v = Err Conflict <->
   ~ (ar_lifecycle self = Active /\ cv_expected_revision v = ar_revision self)) /\
  (create_revision self v = Err InvalidGraph <->
   ar_lifecycle self = Active /\ cv_expected_revision v = ar_revision self /\ ~ revision_graph_ok v) /\
  (create_revision self v = Err RevisionExhausted <->
   ar_lifecycle self = Active /\ cv_expected_revision v = ar_revision self /\ revision_graph_ok v /\
   U64_MAX < ar_revision self + 1) /\
  (forall n, create_revision self v = Ok n <->
   ar_lifecycle self = Active /\ cv_expected_revision v = ar_revision self /\ revision_graph_ok v /\
   ar_revision self + 1 <= U64_MAX /\
   n = {| nr_asset_id := ar_id self; nr_revision_id := cv_revision_id v;
          nr_parent_revision_ids := cv_parent_revision_ids v; nr_content_kind := cv_content_kind v;
          nr_representations := cv_representations v; nr_resulting_revision := ar_revision self + 1;
          nr_created_at := cv_created_at v |}).
Proof.
  rewrite create_revision_eq. setoid_rewrite <- graph_guards_spec.
  destruct (negb _ || negb _) eqn:E1.
  { assert (~ (ar_lifecycle self = Active /\ cv_expected_revision v = ar_revision self)).
    { intros [? ?]. rewrite bool_decide_true, (proj2 (Z.eqb_eq _ _)) in E1 by done. done. }
    split; [done|split; [|split]]; [split; [done|tauto]..|]. intros n. split; [done|tauto]. }
  bool_hyps. destruct (graph_guards v) eqn:E2.
  { split; [|split; [|split]]; [split; [done|tauto]|split; [intros _; by split_and!|done]|split; [done|intros (_ & _ & [=] & _)]|].
    intros n. split; [done|intros (_ & _ & [=] & _)]. }
  destruct (_ <=? _) eqn:E3; bool_hyps.
  - split; [|split; [|split]]; [split; [done|tauto]|split; [done|intros (?&?&?); done]|split; [done|intros (?&?&?&?); lia]|].
    intros n. split; [intros [= <-]; by split_and!|intros (_&_&_&_& ->); done].
  - split; [|split; [|split]]; [split; [done|tauto]|split; [done|intros (?&?&?); done]|split; [intros _; by split_and!|done]|].
    intros n. split; [done|intros (?&?&?&?&?); lia].
Qed.

(** Recording a verified location and registering an asset.  A location is
    recorded only for the available blob with the same digest at the expected
    revision, with a distinct error for each failed test, and advances the blob by
    one revision; a managed asset is registered exactly when its four identities
    are pairwise distinct, and starts active at revision one. *)
Theorem location_and_registration_outcomes (self : BlobRecord) (v : RecordManagedLocationValues)
    (r : RegisterManagedAssetValues) :
  (record_location self v =
     if decide (br_lifecycle self = BlobAvailable /\ lv_digest v = br_digest self) then
       if decide (lv_expected_revision v = br_revision self) then
         if decide (br_revision self + 1 <= U64_MAX)
         then Ok {| lc_digest := br_digest self; lc_location_id := lv_location_id v;
                    lc_resulting_revision := br_revision self + 1; lc_verified_at := lv_verified_at v |}
         else Err RevisionExhausted
       else Err Conflict
     else Err InvalidTransition) /\
  (is_ok (register_managed r) = true <->
   NoDup [rv_asset_id r; rv_asset_revision_id r; rv_representation_id r; rv_resource_id r]) /\
  (forall g, register_managed r = Ok g ->
   ar_lifecycle (ag_asset g) = Active /\ ar_revision (ag_asset g) = 1 /\
   ar_id (ag_asset g) = rv_asset_id r /\ ag_blob_digest g = rv_blob_digest r).
Proof.
  split_and!.
  - unfold record_location, Revision.checked_next, checked_add.
    destruct (decide (br_lifecycle self = _ /\ _)) as [[-> ->]|Hn].
    + rewrite !bool_decide_true by done. cbn [negb orb].
      destruct (decide (_ = br_revision self)) as [->|Hr].
      * rewrite Z.eqb_refl. cbn [negb]. destruct (decide _); destruct (_ <=? _) eqn:E; bool_hyps; (done || lia).
      * by rewrite (proj2 (Z.eqb_neq _ _)).
    + destruct (bool_decide _) eqn:E1; cbn [negb orb]; [|done].
      destruct (bool_decide (lv_digest v = _)) eqn:E2; cbn [negb]; [|done]. bool_hyps. tauto.
  - rewrite <- any_repeated_spec. unfold register_managed. by destruct (any_repeated _).
  - intros g. unfold register_managed. destruct (any_repeated _); [done|]. intros [= <-]. done.
Qed.
End AssetModel.
