(* ===== verification/CreativeDomain.v ===== *)
(** Creative values and the take state machine: [mengxia-domain/src/creative.rs]. *)
From Stdlib Require Import ZArith Lia Znumtheory String.
From Stdlib Require Import Strings.Byte Init.Byte.
From stdpp Require Import prelude list sorting.
From S2P Require Import Prelude RustText Ord Types.

Set Warnings "-clear-no-such-hyp,-deprecated-reference".

Module Creative.

Inductive CreativeError := InvalidValue | InvalidTransition | Conflict | RevisionExhausted.
#[global] Instance CreativeError_eq_dec : EqDecision CreativeError.
Proof. solve_decision. Defined.

(** ** Bounded text *)

Definition validate_text (value : list byte) (maximum : Z) : result CreativeError (list byte) :=
  if bool_decide (value = []) || (maximum <? blen value)
     || negb (bool_decide (trim (chars value) = chars value))
     || existsb is_control (chars value)
  then Err InvalidValue else Ok value.

Definition project_name_new (v : list byte) := validate_text v 255.
Definition subject_name_new (v : list byte) := validate_text v 255.
Definition work_code_new (v : list byte) := validate_text v 64.
Definition take_reason_new (v : list byte) := validate_text v 1024.

Definition subject_kind_new (value : list byte) : result CreativeError (list byte) :=
  match value with
  | [] => Err InvalidValue
  | b0 :: _ =>
      if (64 <? blen value) || negb (is_ascii_lowercase b0)
         || negb (forallb (fun b => is_ascii_lowercase b || is_ascii_digit b || byte_in [x2e; x5f; x2d] b) value)
      then Err InvalidValue else Ok value
  end.

(** ** Resolutions and ratios *)

Definition U16_MAX : Z := 65535.
Record Resolution := { width : Z; height : Z }.
Definition resolution_new (w h : Z) : result CreativeError Resolution :=
  let? w := ok_or InvalidValue (try_into U16_MAX w) in
  let? h := ok_or InvalidValue (try_into U16_MAX h) in
  if (w =? 0) || (h =? 0) then Err InvalidValue else Ok {| width := w; height := h |}.

(** The [while right != 0] loop of [gcd]; [fuel] iterations at most. *)
Fixpoint gcd_loop (fuel : nat) (left right : Z) : Z :=
  match fuel with
  | O => left
  | S f => if negb (right =? 0) then gcd_loop f right (left mod right) else left
  end.
(** After the first iteration [right] at least halves every second one. *)
Definition gcd (left right : Z) : Z := gcd_loop 70 left right.

Record PositiveRatio := { numerator : Z; denominator : Z }.
Definition positive_ratio_new (n d : Z) : result CreativeError PositiveRatio :=
  if (n =? 0) || (d =? 0) || negb (gcd n d =? 1) then Err InvalidValue
  else Ok {| numerator := n; denominator := d |}.

(** ** Canonical JSON and specifications *)

Record CanonicalJson := { json_bytes : list byte; json_digest : Digest.Sha256Digest }.
Definition from_validated_object (bytes : list byte) (digest : Digest.Sha256Digest) (maximum_bytes : Z)
  : result CreativeError CanonicalJson :=
  if negb ((2 <=? blen bytes) && (blen bytes <=? maximum_bytes))
     || negb (bool_decide (head bytes = Some x7b)) || negb (bool_decide (last bytes = Some x7d))
  then Err InvalidValue else Ok {| json_bytes := bytes; json_digest := digest |}.

Record ProjectSpecification := {
  ps_resolution : option Resolution; ps_frame_rate : option PositiveRatio;
  ps_aspect_ratio : option PositiveRatio; ps_color_policy : CanonicalJson;
  ps_audio_policy : CanonicalJson; ps_quality_policy : CanonicalJson;
  ps_privacy_policy : CanonicalJson; ps_policy_digest : Digest.Sha256Digest }.

Definition Id : Type := list byte.

Definition validate_relationship_set (values : list Id) (maximum : Z) : result CreativeError (list Id) :=
  let set := btree_collect values in
  if negb (blen set =? blen values) || (maximum <? blen set) then Err InvalidValue else Ok set.

Record WorkSpecification := { ws_json : CanonicalJson; ws_subject_ids : list Id; ws_asset_ids : list Id }.
Definition work_specification_new (json : CanonicalJson) (subject_ids asset_ids : list Id)
  : result CreativeError WorkSpecification :=
  let? subjects := validate_relationship_set subject_ids 64 in
  let? assets := validate_relationship_set asset_ids 64 in
  Ok {| ws_json := json; ws_subject_ids := subjects; ws_asset_ids := assets |}.

(** ** Kinds *)

Inductive WorkKind := Scene | Shot.
#[global] Instance WorkKind_eq_dec : EqDecision WorkKind.
Proof. solve_decision. Defined.
Definition work_kind_code (k : WorkKind) : Z := match k with Scene => 1 | Shot => 2 end.
Definition work_kind_as_str (k : WorkKind) : list byte :=
  match k with Scene => bs "SCENE" | Shot => bs "SHOT" end.

Inductive RelationshipKind := WorkSubject | WorkAsset | TakeReopens | TakeSupersedes.
#[global] Instance RelationshipKind_eq_dec : EqDecision RelationshipKind.
Proof. solve_decision. Defined.
Definition relationship_kind_as_str (k : RelationshipKind) : list byte :=
  match k with
  | WorkSubject => bs "WORK_SUBJECT" | WorkAsset => bs "WORK_ASSET"
  | TakeReopens => bs "TAKE_REOPENS" | TakeSupersedes => bs "TAKE_SUPERSEDES"
  end.

(** ** The take state machine *)

Inductive TakeState := Candidate | Shortlisted | Selected | Approved | Rejected | Superseded.
#[global] Instance TakeState_eq_dec : EqDecision TakeState.
Proof. solve_decision. Defined.
Inductive TakeTransition := Shortlist | Select | Approve | Reject | Supersede.
#[global] Instance TakeTransition_eq_dec : EqDecision TakeTransition.
Proof. solve_decision. Defined.

Definition take_state_code (s : TakeState) : Z :=
  match s with
  | Candidate => 1 | Shortlisted => 2 | Selected => 3 | Approved => 4 | Rejected => 5 | Superseded => 6
  end.
Definition take_state_as_str (s : TakeState) : list byte :=
  match s with
  | Candidate => bs "CANDIDATE" | Shortlisted => bs "SHORTLISTED" | Selected => bs "SELECTED"
  | Approved => bs "APPROVED" | Rejected => bs "REJECTED" | Superseded => bs "SUPERSEDED"
  end.
Definition take_state_parse (value : list byte) : result CreativeError TakeState :=
  ok_or InvalidValue (match_str value
    [ (bs "CANDIDATE", Candidate); (bs "SHORTLISTED", Shortlisted); (bs "SELECTED", Selected);
      (bs "APPROVED", Approved); (bs "REJECTED", Rejected); (bs "SUPERSEDED", Superseded) ]).
Definition is_terminal (s : TakeState) : bool :=
  match s with Approved | Rejected | Superseded => true | _ => false end.

Definition transition (s : TakeState) (t : TakeTransition) : result CreativeError TakeState :=
  match s, t with
  | Candidate, Shortlist => Ok Shortlisted
  | (Candidate | Shortlisted), Select => Ok Selected
  | Selected, Approve => Ok Approved
  | (Candidate | Shortlisted | Selected), Reject => Ok Rejected
  | (Candidate | Shortlisted | Selected), Supersede => Ok Superseded
  | _, _ => Err InvalidTransition
  end.

Definition take_transition_code (t : TakeTransition) : Z :=
  match t with Shortlist => 1 | Select => 2 | Approve => 3 | Reject => 4 | Supersede => 5 end.

Definition next_revision (current : Z) : result CreativeError Z :=
  ok_or RevisionExhausted (checked_add U64_MAX current 1).

(** ** Lemmas *)

(** Euclid's loop: the gcd is preserved, and the product of two arguments at
    most [2^n] shrinks fast enough for [n + 2] iterations. *)
Lemma gcd_loop_spec n fuel a b :
  0 <= b <= a -> b < 2 ^ Z.of_nat n -> (2 * n + 2 <= fuel)%nat -> gcd_loop fuel a b = Z.gcd a b.
Proof.
  revert fuel a b. induction n as [|n IH]; intros fuel a b Hab Hb Hf.
  - replace b with 0 in * by (cbn in Hb; lia). destruct fuel; [lia|]. cbn. rewrite Z.gcd_0_r. lia.
  - destruct fuel as [|[|fuel]]; [lia..|]. cbn [gcd_loop].
    destruct (b =? 0) eqn:E; bool_hyps; cbn [negb]; [subst; rewrite Z.gcd_0_r; lia|].
    pose proof (Z.mod_pos_bound a b ltac:(lia)) as Hm.
    destruct (a mod b =? 0) eqn:E2; bool_hyps; cbn [negb].
    { assert (Hg : Z.gcd (a mod b) b = Z.gcd b a) by (apply Z.gcd_mod; lia).
      rewrite (Z.gcd_comm a b), <- Hg, E2, Z.gcd_0_l. lia. }
    pose proof (Z.mod_pos_bound b (a mod b) ltac:(lia)) as Hm2.
    rewrite IH.
    + rewrite (Z.gcd_comm (a mod b)), !Z.gcd_mod by lia. apply Z.gcd_comm.
    + lia.
    + rewrite Nat2Z.inj_succ, Z.pow_succ_r in Hb by lia.
      pose proof (Z.div_mod b (a mod b) ltac:(lia)).
      assert (1 <= b / (a mod b)) by (apply Z.div_le_lower_bound; lia). nia.
    + lia.
Qed.

Lemma gcd_loop_S f a b : gcd_loop (S f) a b = if negb (b =? 0) then gcd_loop f b (a mod b) else a.
Proof. reflexivity. Qed.

Lemma gcd_correct a b : is_u32 a -> is_u32 b -> gcd a b = Z.gcd a b.
Proof.
  unfold_max. intros Ha Hb. unfold gcd. destruct (decide (b <= a)).
  - apply (gcd_loop_spec 32); [lia|change (2 ^ Z.of_nat 32) with 4294967296; lia|lia].
  - rewrite gcd_loop_S. rewrite (proj2 (Z.eqb_neq b 0)) by lia. cbn [negb].
    rewrite Z.mod_small by lia.
    rewrite (gcd_loop_spec 32); [apply Z.gcd_comm|lia|change (2 ^ Z.of_nat 32) with 4294967296; lia|lia].
Qed.

Lemma relationship_set_ok values maximum set :
  validate_relationship_set values maximum = Ok set <->
  NoDup values /\ blen values <= maximum /\ set = btree_collect values.
Proof.
  unfold validate_relationship_set. split.
  - intros H. passed H as E. injection H as <-. bool_hyps. split_and!; [|lia|done].
    apply btree_collect_length. unfold blen in *. lia.
  - intros (Hd & Hm & ->). apply btree_collect_length in Hd as Hl.
    assert (blen (btree_collect values) = blen values) as E by (unfold blen; lia).
    rewrite E, Z.eqb_refl. cbn. by rewrite (proj2 (Z.ltb_ge _ _)).
Qed.

(** One accepted transition of a take. *)
Definition take_step (s t : TakeState) : Prop := exists tr, transition s tr = Ok t.

(** How far along its life a take is. *)
Definition take_rank (s : TakeState) : Z :=
  match s with Candidate => 0 | Shortlisted => 1 | Selected => 2 | Approved | Rejected | Superseded => 3 end.

Lemma take_step_rank s t : take_step s t -> take_rank s < take_rank t.
Proof. intros [tr H]. destruct s, tr; try done; injection H as <-; cbn; lia. Qed.

Lemma take_steps_rank s t : tc take_step s t -> take_rank s < take_rank t.
Proof.
  induction 1 as [s t H|s t u H _ IH]; [by apply take_step_rank|]. apply take_step_rank in H. lia.
Qed.

Lemma terminal_no_step s tr : is_terminal s = true -> transition s tr = Err InvalidTransition.
Proof. by destruct s, tr. Qed.

Lemma take_state_text s : take_state_parse (take_state_as_str s) = Ok s.
Proof. by destruct s. Qed.

Lemma take_state_text_inv v s : take_state_parse v = Ok s -> v = take_state_as_str s.
Proof.
  unfold take_state_parse. intros H%ok_or_ok%match_str_elem.
  rewrite !elem_of_cons in H. destruct_or!; try (by injection H as -> ->). by apply elem_of_nil in H.
Qed.

(** The take state machine.  A state is terminal exactly when it refuses every
    transition; every state is reachable from [Candidate]; no run of transitions
    returns to an earlier state; only a selected take can become approved; and the
    stored names determine the states. *)
Theorem take_state_machine :
  (forall s, is_terminal s = true <-> forall tr, transition s tr = Err InvalidTransition) /\
  (forall s, rtc take_step Candidate s) /\
  (forall s t, tc take_step s t -> s <> t) /\
  (forall s tr, transition s tr = Ok Approved -> s = Selected /\ tr = Approve) /\
  (forall v s, take_state_parse v = Ok s <-> v = take_state_as_str s).
Proof.
  split_and!.
  - intros s. split; [intros H tr; by apply terminal_no_step|]. intros H. specialize (H Reject). by destruct s.
  - assert (take_step Candidate Selected) by (by exists Select).
    intros [].
    + apply rtc_refl.
    + apply rtc_once. by exists Shortlist.
    + by apply rtc_once.
    + eapply rtc_l; [done|]. apply rtc_once. by exists Approve.
    + apply rtc_once. by exists Reject.
    + apply rtc_once. by exists Supersede.
  - intros s t H%take_steps_rank ->. lia.
  - intros s tr. by destruct s, tr.
  - intros v s. split; [apply take_state_text_inv|intros ->; apply take_state_text].
Qed.

(** A ratio is accepted exactly when both parts are positive and it is in lowest
    terms; the Euclidean loop behind the test computes the greatest common divisor
    of any two [u32] values. *)
Theorem positive_ratio_lowest_terms (n d : Z) :
  is_u32 n -> is_u32 d ->
  gcd n d = Z.gcd n d /\
  (positive_ratio_new n d = Ok {| numerator := n; denominator := d |} <-> 0 < n /\ 0 < d /\ rel_prime n d) /\
  (forall e, positive_ratio_new n d = Err e -> e = InvalidValue).
Proof.
  intros Hn Hd. pose proof (gcd_correct n d Hn Hd) as Hg. split; [done|]. unfold positive_ratio_new. rewrite Hg.
  unfold_max. split.
  - rewrite <- Zgcd_1_rel_prime. split.
    + intros H. passed H as E. bool_hyps. lia.
    + intros (? & ? & ->). rewrite (proj2 (Z.eqb_neq n 0)), (proj2 (Z.eqb_neq d 0)) by lia. done.
  - intros e. destruct (_ || _); [by intros [= <-]|done].
Qed.
Lemma positive_ratio_lowest_terms_witness :
  positive_ratio_new 24000 1001 = Ok {| numerator := 24000; denominator := 1001 |} <->
  0 < 24000 /\ 0 < 1001 /\ rel_prime 24000 1001.
Proof. apply (positive_ratio_lowest_terms 24000 1001); unfold_max; lia. Defined.

(** A work specification is accepted exactly when neither identity list repeats an
    identity or has more than 64, and it stores each list in increasing order with
    the same elements. *)
Theorem work_specification_sets (json : CanonicalJson) (subjects assets : list Id) :
  (is_ok (work_specification_new json subjects assets) = true <->
   NoDup subjects /\ blen subjects <= 64 /\ NoDup assets /\ blen assets <= 64) /\
  (forall spec, work_specification_new json subjects assets = Ok spec ->
     ws_json spec = json /\
     StronglySorted rlt (ws_subject_ids spec) /\ ws_subject_ids spec ≡ₚ subjects /\
     StronglySorted rlt (ws_asset_ids spec) /\ ws_asset_ids spec ≡ₚ assets).
Proof.
  unfold work_specification_new. split.
  - split.
    + destruct (validate_relationship_set subjects 64) as [s|] eqn:Es; [|done].
      destruct (validate_relationship_set assets 64) as [a|] eqn:Ea; [|done].
      apply relationship_set_ok in Es as (? & ? & _), Ea as (? & ? & _). done.
    + intros (? & ? & ? & ?).
      rewrite (proj2 (relationship_set_ok subjects 64 _)) by done.
      by rewrite (proj2 (relationship_set_ok assets 64 _)) by done.
  - intros spec H. apply result_bind_ok in H as (s & Hs & H). apply result_bind_ok in H as (a & Ha & [= <-]).
    apply relationship_set_ok in Hs as (Hs & _ & ->), Ha as (Ha & _ & ->). cbn.
    split_and!; try done; try apply btree_collect_sorted; by apply btree_collect_perm.
Qed.
End Creative.
