(* ===== verification/Ports.v ===== *)
(** The port contracts shared by the application and the stores:
    [mengxia-ports/src/lib.rs].

    Store errors and their public codes, operation names, command bindings, the
    shape rules of take commands, and the fixed-width [VersionedResultPayload]
    codec that makes command results replayable. *)
From Stdlib Require Import ZArith Lia String.
From Stdlib Require Import Strings.Byte Init.Byte.
From stdpp Require Import prelude list.
From S2P Require Import Prelude RustText Types AssetDomain CreativeDomain.

Set Warnings "-clear-no-such-hyp".

Module Ports.

(** ** Errors *)

Inductive AssetStoreError :=
| SeValidation | SeNotFound | SeConflict | SeInvalidTransition | SeRevisionExhausted
| SeIdGenerationUnavailable | SeStorageBusy | SeStorageIo | SeStorageCorruption
| SeStorageConfiguration | SeBackpressure | SeOperationCancelled | SeDeadlineExceeded
| SeShuttingDown | SeInternal.
#[global] Instance AssetStoreError_eq_dec : EqDecision AssetStoreError.
Proof. solve_decision. Defined.

Definition error_code (e : AssetStoreError) : ErrorCode :=
  match e with
  | SeValidation => ValidationError
  | SeNotFound => NotFound
  | SeConflict => Conflict
  | SeInvalidTransition => InvalidTransition
  | SeRevisionExhausted => RevisionExhausted
  | SeIdGenerationUnavailable => IdGenerationUnavailable
  | SeStorageBusy => StorageBusy
  | SeStorageIo | SeShuttingDown => StorageIoError
  | SeStorageCorruption => StorageCorruption
  | SeStorageConfiguration => StorageConfigurationError
  | SeBackpressure => Backpressure
  | SeOperationCancelled => OperationCancelled
  | SeDeadlineExceeded => DeadlineExceeded
  | SeInternal => InternalError
  end.

(** ** Operations and bindings *)

Definition OperationId : Type := list byte.
Definition ASSET_INGEST_COPY_V1 : OperationId := bs "asset.ingest.v1".
Definition ASSET_REVISION_CREATE_V1 : OperationId := bs "asset.revision.create.v1".
Definition BLOB_LOCATION_RECORD_V1 : OperationId := bs "blob.location.record.v1".
Definition ASSET_MATERIALIZE_V1 : OperationId := bs "asset.materialize.v1".
Definition ASSET_RETIRE_V1 : OperationId := bs "asset.retire.v1".
Definition ASSET_RESTORE_V1 : OperationId := bs "asset.restore.v1".
Definition PROJECT_CREATE_V1 : OperationId := bs "project.create.v1".
Definition PROJECT_SPEC_REVISE_V1 : OperationId := bs "project.spec.revise.v1".
Definition SUBJECT_CREATE_V1 : OperationId := bs "subject.create.v1".
Definition WORK_CREATE_V1 : OperationId := bs "work.create.v1".
Definition WORK_REVISE_V1 : OperationId := bs "work.revise.v1".
Definition TAKE_CREATE_V1 : OperationId := bs "take.create.v1".
Definition TAKE_TRANSITION_V1 : OperationId := bs "take.transition.v1".
Definition TAKE_REOPEN_V1 : OperationId := bs "take.reopen.v1".

Definition Id : Type := list byte.
Definition Timestamp : Type := Z * Z.

Record CommandBinding := {
  cb_command_id : Id; cb_operation_id : OperationId; cb_canonical_request_digest : list byte }.

Definition require_operation (binding : CommandBinding) (expected : OperationId) : result AssetStoreError () :=
  if bool_decide (cb_operation_id binding = expected) then Ok tt else Err SeValidation.

(** The reason and related-take shape [TransitionTakeCommand::new] requires. *)
Definition transition_shape_valid (t : Creative.TakeTransition) (has_reason has_related : bool) : bool :=
  match t with
  | Creative.Shortlist | Creative.Approve => negb has_reason && negb has_related
  | Creative.Reject => has_reason && negb has_related
  | Creative.Select => negb has_reason
  | Creative.Supersede => negb has_reason && has_related
  end.

(** ** Versioned results *)

Inductive VersionedResultPayload :=
| VrProject (spec_revision_id : Id) (revision sequence : Z)
| VrProjectSpecRevision (project_id : Id) (revision sequence : Z)
| VrSubject (revision : Z)
| VrWorkItem (work_revision_id : Id) (revision sequence : Z)
| VrWorkRevision (work_item_id : Id) (revision sequence : Z)
| VrTake (revision ordinal : Z) (state : Creative.TakeState) (primary_asset_id : Id) (related_take_id : option Id)
| VrAssetLifecycle (revision : Z) (lifecycle : AssetModel.AssetLifecycle).
#[global] Instance VersionedResultPayload_eq_dec : EqDecision VersionedResultPayload.
Proof. solve_decision. Defined.

Definition result_kind (p : VersionedResultPayload) : list byte :=
  match p with
  | VrProject _ _ _ => bs "PROJECT"
  | VrProjectSpecRevision _ _ _ => bs "PROJECT_SPEC_REVISION"
  | VrSubject _ => bs "SUBJECT"
  | VrWorkItem _ _ _ => bs "WORK_ITEM"
  | VrWorkRevision _ _ _ => bs "WORK_REVISION"
  | VrTake _ _ _ _ _ => bs "TAKE"
  | VrAssetLifecycle _ _ => bs "ASSET_LIFECYCLE"
  end.

Definition zeros (n : nat) : list byte := repeat x00 n.

(** The buffer of [encode], field by field in offset order. *)
Definition encode (p : VersionedResultPayload) : list byte :=
  match p with
  | VrProject id revision sequence | VrWorkItem id revision sequence
  | VrProjectSpecRevision id revision sequence | VrWorkRevision id revision sequence =>
      id ++ be_bytes 8 revision ++ be_bytes 4 sequence ++ zeros 4
  | VrSubject revision => be_bytes 8 revision ++ zeros 8
  | VrTake revision ordinal state primary_asset_id related_take_id =>
      be_bytes 8 revision ++ be_bytes 4 ordinal ++ [z2b (Creative.take_state_code state)]
      ++ [match related_take_id with Some _ => x01 | None => x00 end] ++ zeros 2
      ++ primary_asset_id
      ++ match related_take_id with Some related => related | None => zeros 16 end
  | VrAssetLifecycle revision lifecycle =>
      be_bytes 8 revision
      ++ [match lifecycle with AssetModel.Active => x01 | AssetModel.Retired => x02 end] ++ zeros 7
  end.

(** [bytes.get(offset..offset + width)]. *)
Definition slice (offset width : nat) (bytes : list byte) : option (list byte) :=
  if bool_decide (offset + width <= length bytes)%nat then Some (take width (drop offset bytes)) else None.

Definition take_state_of_byte (b : Z) : option Creative.TakeState :=
  if b =? 1 then Some Creative.Candidate else if b =? 2 then Some Creative.Shortlisted
  else if b =? 3 then Some Creative.Selected else if b =? 4 then Some Creative.Approved
  else if b =? 5 then Some Creative.Rejected else if b =? 6 then Some Creative.Superseded else None.

Section decode.
(** Whether [Id::from_bytes] accepts sixteen bytes. *)
Context (id_valid : list byte -> bool).

Definition u64_at (bytes : list byte) (offset : nat) : result AssetStoreError Z :=
  ok_or SeStorageCorruption (option_map be_value (slice offset 8 bytes)).
Definition u32_at (bytes : list byte) (offset : nat) : result AssetStoreError Z :=
  ok_or SeStorageCorruption (option_map be_value (slice offset 4 bytes)).
Definition id_at (bytes : list byte) (offset : nat) : result AssetStoreError Id :=
  let? raw := ok_or SeStorageCorruption (slice offset 16 bytes) in
  if id_valid raw then Ok raw else Err SeStorageCorruption.
Definition reserved_zero (bytes : list byte) (from until : nat) : bool :=
  match slice from (until - from) bytes with
  | Some value => forallb (fun b => bool_decide (b = x00)) value
  | None => false
  end.

(** The four 32-byte layouts: identity, revision, sequence. *)
Definition decode_id_revision_sequence (bytes : list byte)
    (make : Id -> Z -> Z -> VersionedResultPayload) : result AssetStoreError VersionedResultPayload :=
  let? id := id_at bytes 0 in
  let? revision := u64_at bytes 16 in
  let? sequence := u32_at bytes 24 in
  Ok (make id revision sequence).

Definition decode_take (bytes : list byte) : result AssetStoreError VersionedResultPayload :=
  let? state := ok_or SeStorageCorruption (take_state_of_byte (b2z (nth 12 bytes x00))) in
  let? related_take_id :=
    (if (b2z (nth 13 bytes x00) =? 0) && reserved_zero bytes 32 48 then Ok None
     else if b2z (nth 13 bytes x00) =? 1 then let? id := id_at bytes 32 in Ok (Some id)
     else Err SeStorageCorruption) in
  let? revision := u64_at bytes 0 in
  let? ordinal := u32_at bytes 8 in
  let? primary_asset_id := id_at bytes 16 in
  Ok (VrTake revision ordinal state primary_asset_id related_take_id).

Definition decode_lifecycle (bytes : list byte) : result AssetStoreError VersionedResultPayload :=
  let? lifecycle :=
    (if b2z (nth 8 bytes x00) =? 1 then Ok AssetModel.Active
     else if b2z (nth 8 bytes x00) =? 2 then Ok AssetModel.Retired
     else Err SeStorageCorruption) in
  let? revision := u64_at bytes 0 in
  Ok (VrAssetLifecycle revision lifecycle).

Definition decode (kind : list byte) (bytes : list byte) : result AssetStoreError VersionedResultPayload :=
  let len := length bytes in
  if bool_decide (kind = bs "PROJECT") && bool_decide (len = 32%nat) && reserved_zero bytes 28 32
  then decode_id_revision_sequence bytes VrProject
  else if bool_decide (kind = bs "PROJECT_SPEC_REVISION") && bool_decide (len = 32%nat) && reserved_zero bytes 28 32
  then decode_id_revision_sequence bytes VrProjectSpecRevision
  else if bool_decide (kind = bs "SUBJECT") && bool_decide (len = 16%nat) && reserved_zero bytes 8 16
  then let? revision := u64_at bytes 0 in Ok (VrSubject revision)
  else if bool_decide (kind = bs "WORK_ITEM") && bool_decide (len = 32%nat) && reserved_zero bytes 28 32
  then decode_id_revision_sequence bytes VrWorkItem
  else if bool_decide (kind = bs "WORK_REVISION") && bool_decide (len = 32%nat) && reserved_zero bytes 28 32
  then decode_id_revision_sequence bytes VrWorkRevision
  else if bool_decide (kind = bs "TAKE") && bool_decide (len = 48%nat) && reserved_zero bytes 14 16
  then decode_take bytes
  else if bool_decide (kind = bs "ASSET_LIFECYCLE") && bool_decide (len = 16%nat) && reserved_zero bytes 9 16
  then decode_lifecycle bytes
  else Err SeStorageCorruption.

(** ** Lemmas *)

Definition id_ok (id : Id) : Prop := length id = 16%nat /\ id_valid id = true.
(** The values the Rust types can hold, with valid identities. *)
Definition payload_wf (p : VersionedResultPayload) : Prop :=
  match p with
  | VrProject id r s | VrProjectSpecRevision id r s | VrWorkItem id r s | VrWorkRevision id r s =>
      id_ok id /\ is_u64 r /\ is_u32 s
  | VrSubject r => is_u64 r
  | VrTake r o _ asset related => is_u64 r /\ is_u32 o /\ id_ok asset /\ from_option id_ok True related
  | VrAssetLifecycle r _ => is_u64 r
  end.

Lemma slice_here b c : slice 0 (length b) (b ++ c) = Some b.
Proof.
  unfold slice. rewrite bool_decide_true by (rewrite length_app; lia). rewrite drop_0. by rewrite take_app_length.
Qed.

Lemma slice_skip a b off w : (length a <= off)%nat -> slice off w (a ++ b) = slice (off - length a) w b.
Proof.
  intros H. unfold slice. rewrite length_app.
  rewrite (bool_decide_ext _ (off - length a + w <= length b)%nat) by lia. case_bool_decide; [|done].
  replace off with (length a + (off - length a))%nat at 1 by lia. by rewrite drop_app_add.
Qed.

(** Reading [w] bytes at [off] splits the input there. *)
Lemma slice_drop off w bytes s : slice off w bytes = Some s -> drop off bytes = s ++ drop (off + w) bytes.
Proof.
  unfold slice. case_bool_decide; [|done]. intros [= <-].
  rewrite <- drop_drop. symmetry. apply take_drop.
Qed.

Lemma nth_drop i bytes : (i < length bytes)%nat -> drop i bytes = nth i bytes x00 :: drop (S i) bytes.
Proof.
  revert bytes. induction i as [|i IH]; intros [|b bytes] H; cbn in *; try lia; [done|]. apply IH. lia.
Qed.

Lemma slice_Some off w bytes s : slice off w bytes = Some s -> length s = w /\ (off + w <= length bytes)%nat.
Proof.
  unfold slice. case_bool_decide; [|done]. intros [= <-]. split; [|done].
  rewrite length_take, length_drop. lia.
Qed.

Lemma zeros_all n : forallb (fun b => bool_decide (b = x00)) (zeros n) = true.
Proof. unfold zeros. by induction n. Qed.

Lemma all_zeros l : forallb (fun b => bool_decide (b = x00)) l = true -> l = zeros (length l).
Proof.
  unfold zeros. induction l as [|b l IH]; cbn; [done|]. intros H. bool_hyps. by rewrite <- IH, H.
Qed.

Lemma be_value_u64 z : is_u64 z -> be_value (be_bytes 8 z) = z.
Proof. intros. apply be_value_bytes. change (256 ^ Z.of_nat 8) with (2 ^ 64). unfold_max. lia. Qed.
Lemma be_value_u32 z : is_u32 z -> be_value (be_bytes 4 z) = z.
Proof. intros. apply be_value_bytes. change (256 ^ Z.of_nat 4) with (2 ^ 32). unfold_max. lia. Qed.
Lemma be_u64 l : length l = 8%nat -> is_u64 (be_value l) /\ be_bytes 8 (be_value l) = l.
Proof.
  intros H. split; [|rewrite <- H; apply be_bytes_value].
  pose proof (be_value_range l) as Hr. unfold blen in Hr. rewrite H in Hr.
  change (256 ^ Z.of_nat 8) with (2 ^ 64) in Hr. unfold_max. lia.
Qed.
Lemma be_u32 l : length l = 4%nat -> is_u32 (be_value l) /\ be_bytes 4 (be_value l) = l.
Proof.
  intros H. split; [|rewrite <- H; apply be_bytes_value].
  pose proof (be_value_range l) as Hr. unfold blen in Hr. rewrite H in Hr.
  change (256 ^ Z.of_nat 4) with (2 ^ 32) in Hr. unfold_max. lia.
Qed.

Lemma u64_at_ok bytes off v :
  u64_at bytes off = Ok v -> is_u64 v /\ drop off bytes = be_bytes 8 v ++ drop (off + 8) bytes.
Proof.
  unfold u64_at. intros H%ok_or_ok. destruct (slice off 8 bytes) as [l|] eqn:E; [|done]. injection H as <-.
  apply slice_Some in E as Hl. destruct (be_u64 l) as [? ->]; [apply Hl|]. split; [done|]. by apply slice_drop.
Qed.

Lemma u32_at_ok bytes off v :
  u32_at bytes off = Ok v -> is_u32 v /\ drop off bytes = be_bytes 4 v ++ drop (off + 4) bytes.
Proof.
  unfold u32_at. intros H%ok_or_ok. destruct (slice off 4 bytes) as [l|] eqn:E; [|done]. injection H as <-.
  apply slice_Some in E as Hl. destruct (be_u32 l) as [? ->]; [apply Hl|]. split; [done|]. by apply slice_drop.
Qed.

Lemma id_at_ok bytes off id : id_at bytes off = Ok id -> id_ok id /\ drop off bytes = id ++ drop (off + 16) bytes.
Proof.
  unfold id_at. intros H. apply result_bind_ok in H as (raw & Hs & H). apply ok_or_ok in Hs.
  passed H as E. injection H as <-. apply slice_Some in Hs as Hl. split; [split; [apply Hl|done]|]. by apply slice_drop.
Qed.

Lemma reserved_zero_ok bytes i j :
  reserved_zero bytes i j = true -> (i <= j)%nat -> drop i bytes = zeros (j - i) ++ drop j bytes.
Proof.
  unfold reserved_zero. destruct (slice i (j - i) bytes) as [l|] eqn:E; [|done]. intros H%all_zeros Hij.
  apply slice_Some in E as Hl. rewrite (proj1 Hl) in H. apply slice_drop in E. rewrite E, H.
  by replace (i + (j - i))%nat with j by lia.
Qed.

Lemma decode_irs_ok bytes make p :
  length bytes = 32%nat -> reserved_zero bytes 28 32 = true ->
  decode_id_revision_sequence bytes make = Ok p ->
  exists id r s, p = make id r s /\ id_ok id /\ is_u64 r /\ is_u32 s /\
                 id ++ be_bytes 8 r ++ be_bytes 4 s ++ zeros 4 = bytes.
Proof.
  intros Hl Hz H. unfold decode_id_revision_sequence in H.
  apply result_bind_ok in H as (id & Hid & H). apply result_bind_ok in H as (r & Hr & H).
  apply result_bind_ok in H as (s & Hs & [= <-]).
  apply id_at_ok in Hid as [Hid E0]. apply u64_at_ok in Hr as [Hr E1]. apply u32_at_ok in Hs as [Hs E2].
  apply reserved_zero_ok in Hz; [|lia]. exists id, r, s. split_and!; [done..|].
  rewrite (drop_ge bytes 32) in Hz by lia. rewrite app_nil_r in Hz.
  change (drop 0 bytes) with bytes in E0. cbn [Nat.add] in E0, E1, E2.
  rewrite E2, Hz in E1. rewrite E1 in E0. exact (eq_sym E0).
Qed.

Lemma take_state_of_code st : take_state_of_byte (b2z (z2b (Creative.take_state_code st))) = Some st.
Proof. by destruct st. Qed.

Lemma take_state_of_byte_ok b st : take_state_of_byte (b2z b) = Some st -> b = z2b (Creative.take_state_code st).
Proof.
  revert b. assert (Hall : forallb (fun b => match take_state_of_byte (b2z b) with
    | Some st => bool_decide (b = z2b (Creative.take_state_code st)) | None => true end) all_bytes = true)
    by (vm_compute; reflexivity).
  intros b E. pose proof (byte_forallb _ Hall b) as Hb. cbn beta in Hb. rewrite E in Hb. by bool_hyps.
Qed.

Lemma b2z_eq b c : (b2z b =? b2z c) = true -> b = c.
Proof. intros H. bool_hyps. by apply (inj b2z). Qed.

Lemma decode_take_ok bytes p :
  length bytes = 48%nat -> reserved_zero bytes 14 16 = true -> decode_take bytes = Ok p ->
  exists r o st asset related, p = VrTake r o st asset related /\ payload_wf p /\ encode p = bytes.
Proof.
  intros Hl Hz H. unfold decode_take in H.
  apply result_bind_ok in H as (st & Hst & H). apply ok_or_ok, take_state_of_byte_ok in Hst.
  apply result_bind_ok in H as (related & Hrel & H). apply result_bind_ok in H as (r & Hr & H).
  apply result_bind_ok in H as (o & Ho & H). apply result_bind_ok in H as (asset & Ha & [= <-]).
  apply u64_at_ok in Hr as [Hr E0]. apply u32_at_ok in Ho as [Ho E1]. apply id_at_ok in Ha as [Ha E2].
  apply reserved_zero_ok in Hz; [|lia].
  pose proof (nth_drop 12 bytes ltac:(lia)) as E12. pose proof (nth_drop 13 bytes ltac:(lia)) as E13.
  exists r, o, st, asset, related. split; [done|].
  change (drop 0 bytes) with bytes in E0. cbn [Nat.add Nat.sub] in E0, E1, E2, Hz.
  rewrite Hst, E13, Hz, E2 in E12.
  assert (from_option id_ok True related /\
          nth 13 bytes x00 = match related with Some _ => x01 | None => x00 end /\
          drop 32 bytes = match related with Some id => id | None => zeros 16 end) as (Hrok & H13 & H32).
  { destruct (_ && _) eqn:E in Hrel.
    - injection Hrel as <-. apply andb_true_iff in E as [E Ez].
      apply (b2z_eq _ x00) in E. apply reserved_zero_ok in Ez; [|lia].
      rewrite (drop_ge bytes 48), app_nil_r in Ez by lia. done.
    - destruct (_ =? 1) eqn:E1b in Hrel; [|done]. apply (b2z_eq _ x01) in E1b.
      apply result_bind_ok in Hrel as (id & Hid & [= <-]). apply id_at_ok in Hid as [Hid E3].
      cbn [Nat.add] in E3. rewrite (drop_ge bytes 48), app_nil_r in E3 by lia. done. }
  split; [cbn; by split_and!|]. cbn [encode]. rewrite E0, E1, E12, H13, H32 at 1.
  by destruct related.
Qed.

Lemma decode_lifecycle_ok bytes p :
  length bytes = 16%nat -> reserved_zero bytes 9 16 = true -> decode_lifecycle bytes = Ok p ->
  exists r l, p = VrAssetLifecycle r l /\ payload_wf p /\ encode p = bytes.
Proof.
  intros Hl Hz H. unfold decode_lifecycle in H. apply result_bind_ok in H as (l & Hlc & H).
  apply result_bind_ok in H as (r & Hr & [= <-]). apply u64_at_ok in Hr as [Hr E0].
  apply reserved_zero_ok in Hz; [|lia]. rewrite (drop_ge bytes 16), app_nil_r in Hz by lia.
  pose proof (nth_drop 8 bytes ltac:(lia)) as E8. cbn [Nat.sub] in Hz. rewrite Hz in E8.
  change (drop 0 bytes) with bytes in E0. cbn [Nat.add] in E0. rewrite E8 in E0.
  exists r, l. split; [done|]. split; [done|]. cbn [encode]. rewrite E0. f_equal. cbn [app]. f_equal.
  destruct (_ =? 1) eqn:E1 in Hlc; [injection Hlc as <-; by apply (b2z_eq _ x01) in E1|].
  destruct (_ =? 2) eqn:E2 in Hlc; [injection Hlc as <-; by apply (b2z_eq _ x02) in E2|done].
Qed.

(** Reading back the fields of an encoding. *)
Lemma slice_field a b c off w :
  length a = off -> length b = w -> slice off w (a ++ b ++ c) = Some b.
Proof. intros <- <-. rewrite slice_skip, Nat.sub_diag by lia. apply slice_here. Qed.

Lemma slice_first b c w : length b = w -> slice 0 w (b ++ c) = Some b.
Proof. intros <-. apply slice_here. Qed.

Lemma reserved_zero_field a c i n :
  length a = i -> reserved_zero (a ++ zeros n ++ c) i (i + n) = true.
Proof.
  intros Ha. unfold reserved_zero. replace (i + n - i)%nat with n by lia.
  rewrite slice_field; [apply zeros_all|done|unfold zeros; apply repeat_length].
Qed.

Lemma decode_irs_encode id r s make :
  id_ok id -> is_u64 r -> is_u32 s ->
  let bytes := id ++ be_bytes 8 r ++ be_bytes 4 s ++ zeros 4 in
  length bytes = 32%nat /\ reserved_zero bytes 28 32 = true /\
  decode_id_revision_sequence bytes make = Ok (make id r s).
Proof.
  intros [Hl Hv] Hr Hs bytes. unfold bytes. split_and!.
  - by rewrite !length_app, Hl, !be_bytes_length.
  - replace (id ++ be_bytes 8 r ++ be_bytes 4 s ++ zeros 4) with ((id ++ be_bytes 8 r ++ be_bytes 4 s) ++ zeros 4 ++ [])
      by (by rewrite app_nil_r, <- !app_assoc).
    apply (reserved_zero_field _ [] 28 4). by rewrite !length_app, Hl, !be_bytes_length.
  - unfold decode_id_revision_sequence, id_at, u64_at, u32_at.
    rewrite (slice_first id) by done. cbn [ok_or result_bind]. rewrite Hv. cbn [result_bind].
    rewrite (slice_field id) by (done || apply be_bytes_length). cbn [option_map ok_or result_bind].
    rewrite be_value_u64 by done. rewrite (app_assoc id).
    rewrite (slice_field (id ++ be_bytes 8 r)) by (rewrite ?length_app, ?Hl, ?be_bytes_length; done).
    cbn [option_map ok_or result_bind]. by rewrite be_value_u32.
Qed.

Lemma decode_take_encode r o st asset related :
  payload_wf (VrTake r o st asset related) ->
  let bytes := encode (VrTake r o st asset related) in
  length bytes = 48%nat /\ reserved_zero bytes 14 16 = true /\
  decode_take bytes = Ok (VrTake r o st asset related).
Proof.
  intros Hw bytes. destruct Hw as (Hr & Ho & [Hal Hav] & Hrel).
  set (flag := match related with Some _ => x01 | None => x00 end).
  set (tail := match related with Some id => id | None => zeros 16 end).
  assert (Htl : length tail = 16%nat) by (unfold tail; destruct related; [apply Hrel|reflexivity]).
  assert (Hb : bytes = be_bytes 8 r ++ be_bytes 4 o ++ [z2b (Creative.take_state_code st)] ++ [flag] ++ zeros 2
                       ++ asset ++ tail) by (unfold bytes, encode, flag, tail; by destruct related).
  clearbody bytes. subst bytes.
  set (hd := be_bytes 8 r ++ be_bytes 4 o). assert (Hhd : length hd = 12%nat) by (unfold hd; by rewrite length_app, !be_bytes_length).
  assert (Hn : forall x y t, nth 12 (hd ++ x :: y :: t) x00 = x /\ nth 13 (hd ++ x :: y :: t) x00 = y).
  { intros x y t. split; (rewrite app_nth2; rewrite Hhd; [reflexivity|lia]). }
  split_and!.
  - rewrite !length_app, !be_bytes_length, Hal, Htl. reflexivity.
  - replace (be_bytes 8 r ++ be_bytes 4 o ++ [z2b (Creative.take_state_code st)] ++ [flag] ++ zeros 2 ++ asset ++ tail)
      with ((hd ++ [z2b (Creative.take_state_code st); flag]) ++ zeros 2 ++ (asset ++ tail))
      by (unfold hd; by rewrite <- !app_assoc).
    apply (reserved_zero_field _ _ 14 2). rewrite length_app, Hhd. reflexivity.
  - unfold decode_take.
    assert (E12 : be_bytes 8 r ++ be_bytes 4 o ++ [z2b (Creative.take_state_code st)] ++ [flag] ++ zeros 2 ++ asset ++ tail
                  = hd ++ z2b (Creative.take_state_code st) :: flag :: (zeros 2 ++ asset ++ tail))
      by (unfold hd; by rewrite <- !app_assoc).
    assert (E16 : be_bytes 8 r ++ be_bytes 4 o ++ [z2b (Creative.take_state_code st)] ++ [flag] ++ zeros 2 ++ asset ++ tail
                  = (hd ++ [z2b (Creative.take_state_code st); flag] ++ zeros 2) ++ asset ++ tail)
      by (unfold hd; by rewrite <- !app_assoc).
    assert (H16l : length (hd ++ [z2b (Creative.take_state_code st); flag] ++ zeros 2) = 16%nat)
      by (rewrite !length_app, Hhd; reflexivity).
    rewrite !E12. destruct (Hn (z2b (Creative.take_state_code st)) flag (zeros 2 ++ asset ++ tail)) as [-> ->].
    rewrite take_state_of_code. cbn [ok_or result_bind]. rewrite <- !E12.
    assert (Hu64 : forall t, u64_at (be_bytes 8 r ++ t) 0 = Ok r).
    { intros t. unfold u64_at. rewrite (slice_first (be_bytes 8 r)) by (done || apply be_bytes_length).
      cbn [option_map ok_or]. by rewrite be_value_u64. }
    assert (Hu32 : forall t, u32_at (be_bytes 8 r ++ be_bytes 4 o ++ t) 8 = Ok o).
    { intros t. unfold u32_at. rewrite slice_field by apply be_bytes_length. cbn [option_map ok_or]. by rewrite be_value_u32. }
    rewrite Hu64, Hu32, !E16. unfold id_at at 2. rewrite slice_field by done. cbn [ok_or result_bind].
    rewrite Hav. unfold flag at 1 2. destruct related as [rel|].
    + cbn [b2z Z.eqb andb]. unfold id_at.
      replace ((hd ++ [z2b (Creative.take_state_code st); flag] ++ zeros 2) ++ asset ++ tail)
        with (((hd ++ [z2b (Creative.take_state_code st); flag] ++ zeros 2) ++ asset) ++ rel ++ [])
        by (unfold tail; by rewrite app_nil_r, <- !app_assoc).
      cbn [from_option] in Hrel. destruct Hrel as [Hrl Hrv].
      rewrite slice_field by (done || (rewrite length_app, H16l, Hal; done)). cbn. by rewrite Hrv.
    + rewrite (app_assoc _ asset).
      assert (Hz : reserved_zero (((hd ++ [z2b (Creative.take_state_code st); flag] ++ zeros 2) ++ asset) ++ zeros 16 ++ []) 32 48 = true).
      { apply (reserved_zero_field _ _ 32 16). by rewrite length_app, H16l, Hal. }
      rewrite app_nil_r in Hz. unfold flag in Hz. unfold tail. rewrite Hz. reflexivity.
Qed.

Lemma decode_encode p : payload_wf p -> decode (result_kind p) (encode p) = Ok p.
Proof.
  destruct p as [id r s|id r s|r|id r s|id r s|r o st asset related|r l]; intros Hw.
  1,2,4,5: destruct Hw as (Hid & Hr & Hs);
    match goal with |- context [result_kind (?make _ _ _)] =>
      destruct (decode_irs_encode id r s make Hid Hr Hs) as (Hl & Hz & Hd) end;
    unfold decode; cbn [encode result_kind]; rewrite Hl, Hz; exact Hd.
  - assert (Hz : reserved_zero (be_bytes 8 r ++ zeros 8) 8 16 = true).
    { pose proof (reserved_zero_field (be_bytes 8 r) [] 8 8 (be_bytes_length 8 r)) as H. by rewrite app_nil_r in H. }
    unfold decode. cbn [encode result_kind]. rewrite Hz.
    assert (Hl : length (be_bytes 8 r ++ zeros 8) = 16%nat) by (rewrite length_app, be_bytes_length; reflexivity).
    rewrite Hl. unfold u64_at. rewrite (slice_first (be_bytes 8 r)) by (done || apply be_bytes_length).
    cbn [option_map]. rewrite be_value_u64 by done. reflexivity.
  - destruct (decode_take_encode r o st asset related Hw) as (Hl & Hz & Hd).
    unfold decode. cbn [result_kind]. rewrite Hl, Hz. exact Hd.
  - assert (Hz : reserved_zero (encode (VrAssetLifecycle r l)) 9 16 = true).
    { pose proof (reserved_zero_field (be_bytes 8 r ++ [match l with AssetModel.Active => x01 | AssetModel.Retired => x02 end]) [] 9 7) as H.
      rewrite app_nil_r, <- app_assoc in H. apply H. by rewrite length_app, be_bytes_length. }
    assert (Hl : length (encode (VrAssetLifecycle r l)) = 16%nat).
    { cbn [encode]. rewrite !length_app, be_bytes_length. reflexivity. }
    unfold decode. cbn [result_kind]. rewrite Hl, Hz.
    change (decode_lifecycle (encode (VrAssetLifecycle r l)) = Ok (VrAssetLifecycle r l)). unfold decode_lifecycle.
    cbn [encode]. assert (Hn : nth 8 (be_bytes 8 r ++ [match l with AssetModel.Active => x01 | AssetModel.Retired => x02 end] ++ zeros 7) x00
      = match l with AssetModel.Active => x01 | AssetModel.Retired => x02 end).
    { rewrite app_nth2; rewrite be_bytes_length; [reflexivity|lia]. }
    rewrite !Hn. unfold u64_at. rewrite (slice_first (be_bytes 8 r)) by (done || apply be_bytes_length).
    cbn [option_map ok_or]. rewrite be_value_u64 by done. by destruct l.
Qed.

Lemma encode_decode kind bytes p :
  decode kind bytes = Ok p -> kind = result_kind p /\ encode p = bytes /\ payload_wf p.
Proof.
  unfold decode. intros H.
  repeat match type of H with
  | (if ?b then _ else _) = Ok _ => let E := fresh "E" in destruct b eqn:E; [bool_hyps; subst kind|clear E]
  end; [| | | | | | |discriminate H].
  1,2,4,5: edestruct decode_irs_ok as (id & r & s & -> & Hid & Hr & Hs & Hb); [eassumption..|]; by split_and!.
  - apply result_bind_ok in H as (r & Hr & [= <-]). apply u64_at_ok in Hr as [Hr E0].
    match goal with Hz : reserved_zero _ _ _ = true |- _ => apply reserved_zero_ok in Hz; [|lia]; rename Hz into Hzz end.
    rewrite (drop_ge bytes 16), app_nil_r in Hzz by lia.
    change (drop 0 bytes) with bytes in E0. cbn [Nat.add Nat.sub] in E0, Hzz. rewrite Hzz in E0. by split_and!.
  - edestruct decode_take_ok as (r & o & st & asset & related & -> & Hw & Hb); [eassumption..|]. done.
  - edestruct decode_lifecycle_ok as (r & l & -> & Hw & Hb); [eassumption..|]. done.
Qed.
End decode.

(** The stored command result is a faithful, unambiguous record: encoding a
    result with valid identities and decoding it under its kind returns it, and
    every byte string that decodes is the encoding of the result it decodes to,
    under that result's kind, with nothing hidden in reserved bytes. *)
Theorem result_payload_roundtrip (id_valid : list byte -> bool) :
  (forall p, payload_wf id_valid p -> decode id_valid (result_kind p) (encode p) = Ok p) /\
  (forall kind bytes p, decode id_valid kind bytes = Ok p ->
     kind = result_kind p /\ encode p = bytes /\ payload_wf id_valid p).
Proof. split; [apply decode_encode|apply encode_decode]. Qed.
End Ports.
