(* ===== verification/CommandLedger.v ===== *)
(** The durable command ledger: the [commands] table of
    [mengxia-store-sqlite/src/asset_repository.rs].

    One row per accepted command identity.  [validate_command_row] is the
    fail-closed check every replay starts with: column shapes, digest of the
    stored result, the state machine of rows and the matrix of states each known
    operation may be in.  [StoreEnv] stands for the parts the rows are checked
    against outside this repository: UUID and timestamp validity and SHA-256. *)
From Stdlib Require Import ZArith Lia String.
From Stdlib Require Import Strings.Byte Init.Byte.
From stdpp Require Import prelude list.
From S2P Require Import Prelude RustText Types AssetDomain CreativeDomain Ports.

Set Warnings "-clear-no-such-hyp".

(** [Id::from_bytes] acceptance, [Timestamp::from_unix_seconds_nanos] acceptance,
    and SHA-256. *)
Class StoreEnv := {
  id_valid : list byte -> bool;
  timestamp_valid : Z -> Z -> bool;
  sha256 : list byte -> list byte }.
Class StoreEnvLaws (E : StoreEnv) : Prop := { sha256_length : forall l, length (sha256 l) = 32%nat }.

Module Ledger.
Import Ports.

(** The four values the [state] column may have. *)
Inductive CommandState := CLAIMED | COMPLETED | TERMINAL_REJECTED | RECOVERY_REQUIRED.
#[global] Instance CommandState_eq_dec : EqDecision CommandState.
Proof. solve_decision. Defined.

Record CommandRow := {
  c_command_id : list byte; c_operation_id : list byte; c_principal_kind : list byte;
  c_principal_uid : Z; c_digest : list byte; c_runtime_id : list byte; c_state : CommandState;
  c_result_kind : option (list byte); c_result_id : option (list byte);
  c_result_location_id : option (list byte); c_result_schema_version : option Z;
  c_result_payload : option (list byte); c_result_payload_sha256 : option (list byte);
  c_safe_error_code : option (list byte);
  c_created_at_seconds : Z; c_created_at_nanos : Z; c_updated_at_seconds : Z; c_updated_at_nanos : Z }.

Record StoreContext := { owner_uid : Z; runtime_id : list byte }.

(** ** Operation and code classes *)

Definition is_pure_rejection_code (c : ErrorCode) : bool :=
  match c with NotFound | Conflict | InvalidTransition | RevisionExhausted => true | _ => false end.
Definition is_external_recovery_code (c : ErrorCode) : bool :=
  match c with
  | StorageConfigurationError | StorageIoError | IdGenerationUnavailable | InternalError => true
  | _ => false
  end.
Definition is_external_terminal_code (c : ErrorCode) : bool :=
  match c with
  | ValidationError | SourceModifiedDuringIngest | StorageIoError | StorageCorruption
  | StorageConfigurationError | Backpressure | InternalError | IdGenerationUnavailable
  | DeadlineExceeded | OperationCancelled => true
  | _ => false
  end.
Definition is_materialization_recovery_code (c : ErrorCode) : bool :=
  match c with
  | StorageConfigurationError | StorageIoError | IdGenerationUnavailable | InternalError => true
  | _ => false
  end.
Definition is_materialization_terminal_code (c : ErrorCode) : bool :=
  match c with
  | ValidationError | Conflict | StorageIoError | StorageCorruption
  | StorageConfigurationError | Backpressure | InternalError | IdGenerationUnavailable
  | DeadlineExceeded | OperationCancelled => true
  | _ => false
  end.

Definition is_current_operation (operation : list byte) : bool :=
  bool_decide (operation ∈ [ASSET_INGEST_COPY_V1; ASSET_REVISION_CREATE_V1; BLOB_LOCATION_RECORD_V1;
    ASSET_MATERIALIZE_V1; ASSET_RETIRE_V1; ASSET_RESTORE_V1; PROJECT_CREATE_V1; PROJECT_SPEC_REVISE_V1;
    SUBJECT_CREATE_V1; WORK_CREATE_V1; WORK_REVISE_V1; TAKE_CREATE_V1; TAKE_TRANSITION_V1; TAKE_REOPEN_V1]).

Definition kind_is (row : CommandRow) (kind : list byte) : bool := bool_decide (c_result_kind row = Some kind).
Definition code_in (p : ErrorCode -> bool) (code : option ErrorCode) : bool :=
  match code with Some c => p c | None => false end.

(** The rows of an operation that only ever commits a final state. *)
Definition pure_matrix (row : CommandRow) (code : option ErrorCode) (kind : list byte) : bool :=
  match c_state row with
  | COMPLETED => kind_is row kind
  | TERMINAL_REJECTED => code_in is_pure_rejection_code code
  | CLAIMED | RECOVERY_REQUIRED => false
  end.

Definition validate_known_command_matrix (row : CommandRow) (code : option ErrorCode) : result AssetStoreError () :=
  let op := c_operation_id row in
  let valid :=
    if bool_decide (op = ASSET_INGEST_COPY_V1) then
      match c_state row with
      | CLAIMED => true
      | COMPLETED => kind_is row (bs "ASSET")
      | TERMINAL_REJECTED => code_in is_external_terminal_code code
      | RECOVERY_REQUIRED => code_in is_external_recovery_code code
      end
    else if bool_decide (op = ASSET_REVISION_CREATE_V1) then pure_matrix row code (bs "ASSET_REVISION")
    else if bool_decide (op = BLOB_LOCATION_RECORD_V1) then pure_matrix row code (bs "LOCATION")
    else if bool_decide (op = ASSET_MATERIALIZE_V1) then
      match c_state row with
      | CLAIMED => true
      | COMPLETED => kind_is row (bs "ASSET_REVISION")
      | TERMINAL_REJECTED => code_in is_materialization_terminal_code code
      | RECOVERY_REQUIRED => code_in is_materialization_recovery_code code
      end
    else if bool_decide (op = ASSET_RETIRE_V1) || bool_decide (op = ASSET_RESTORE_V1)
    then pure_matrix row code (bs "ASSET_LIFECYCLE")
    else if bool_decide (op = PROJECT_CREATE_V1) then pure_matrix row code (bs "PROJECT")
    else if bool_decide (op = PROJECT_SPEC_REVISE_V1) then pure_matrix row code (bs "PROJECT_SPEC_REVISION")
    else if bool_decide (op = SUBJECT_CREATE_V1) then pure_matrix row code (bs "SUBJECT")
    else if bool_decide (op = WORK_CREATE_V1) then pure_matrix row code (bs "WORK_ITEM")
    else if bool_decide (op = WORK_REVISE_V1) then pure_matrix row code (bs "WORK_REVISION")
    else if bool_decide (op = TAKE_CREATE_V1) || bool_decide (op = TAKE_TRANSITION_V1)
            || bool_decide (op = TAKE_REOPEN_V1)
    then pure_matrix row code (bs "TAKE")
    else true in
  if valid then Ok tt else Err SeStorageCorruption.

Section ledger.
Context `{StoreEnv}.

(** ** Row validation *)

Definition id_bytes (value : option (list byte)) : result AssetStoreError (list byte) :=
  let? v := ok_or SeStorageCorruption value in
  if bool_decide (length v = 16%nat) then Ok v else Err SeStorageCorruption.
(** [Id::<T>::from_bytes(id_bytes(..)?)]. *)
Definition check_id (value : option (list byte)) : result AssetStoreError () :=
  let? raw := id_bytes value in
  if id_valid raw then Ok tt else Err SeStorageCorruption.

Definition persisted_timestamp (seconds nanos : Z) : result AssetStoreError () :=
  let? nanos := ok_or SeStorageCorruption (try_into U32_MAX nanos) in
  if timestamp_valid seconds nanos then Ok tt else Err SeStorageCorruption.

Definition operation_id_ok (op : list byte) : bool :=
  negb (bool_decide (op = [])) && (blen op <=? 128)
  && bool_decide (drop (length op - 3) op = bs ".v1")
  && match head op with Some b => is_ascii_lowercase b | None => false end
  && forallb (fun b => is_ascii_lowercase b || is_ascii_digit b || byte_in [x2e; x5f; x2d] b) op.

(** [safe_error_code.map(str::parse::<ErrorCode>).transpose()]. *)
Definition parse_code (code : option (list byte)) : result AssetStoreError (option ErrorCode) :=
  match code with
  | None => Ok None
  | Some text => map_err (fun _ => SeStorageCorruption)
                   (let? c := ErrorCodeText.from_str text in Ok (Some c))
  end.

Definition payload_present (row : CommandRow) : result AssetStoreError bool :=
  match c_result_schema_version row, c_result_payload row, c_result_payload_sha256 row with
  | None, None, None => Ok false
  | Some version, Some payload, Some digest =>
      if (version =? 1) && negb (bool_decide (payload = [])) && (blen payload <=? 512)
         && bool_decide (digest = sha256 payload)
      then Ok true else Err SeStorageCorruption
  | _, _, _ => Err SeStorageCorruption
  end.

Definition none {A} (o : option A) : bool := match o with None => true | Some _ => false end.

(** The [match row.state] of the validation. *)
Definition check_state (row : CommandRow) (code : option ErrorCode) (present : bool) : result AssetStoreError () :=
  match c_state row with
  | CLAIMED =>
      if none (c_result_kind row) && none (c_result_id row) && none (c_result_location_id row)
         && negb present && none code
      then Ok tt else Err SeStorageCorruption
  | COMPLETED =>
      if negb (none code) then Err SeStorageCorruption
      else match c_result_kind row with
      | None => Err SeStorageCorruption
      | Some kind =>
          if bool_decide (kind = bs "ASSET") && negb present then
            let? _ := check_id (c_result_id row) in check_id (c_result_location_id row)
          else if bool_decide (kind = bs "ASSET_REVISION") && negb present && none (c_result_location_id row)
          then check_id (c_result_id row)
          else if bool_decide (kind = bs "LOCATION") && negb present && none (c_result_location_id row)
          then check_id (c_result_id row)
          else if present && none (c_result_location_id row) then
            let? _ := check_id (c_result_id row) in
            let? payload := ok_or SeStorageCorruption (c_result_payload row) in
            let? _ := decode id_valid kind payload in Ok tt
          else Err SeStorageCorruption
      end
  | TERMINAL_REJECTED | RECOVERY_REQUIRED =>
      if none (c_result_kind row) && none (c_result_id row) && none (c_result_location_id row)
         && negb present && negb (none code)
      then Ok tt else Err SeStorageCorruption
  end.

Definition validate_command_row (row : CommandRow) : result AssetStoreError CommandRow :=
  let? _ := check_id (Some (c_command_id row)) in
  let? _ := check_id (Some (c_runtime_id row)) in
  if negb (bool_decide (length (c_digest row) = 32%nat)) then Err SeStorageCorruption
  else if negb (bool_decide (c_principal_kind row = bs "LOCAL_OWNER_UID_V1"))
          || none (try_into U32_MAX (c_principal_uid row))
          || negb (operation_id_ok (c_operation_id row))
  then Err SeStorageCorruption
  else
    let? _ := persisted_timestamp (c_created_at_seconds row) (c_created_at_nanos row) in
    let? _ := persisted_timestamp (c_updated_at_seconds row) (c_updated_at_nanos row) in
    let? code := parse_code (c_safe_error_code row) in
    let? present := payload_present row in
    let? _ := check_state row code present in
    let? _ := validate_known_command_matrix row code in
    Ok row.

Definition parse_safe_code (row : CommandRow) : result AssetStoreError ErrorCode :=
  let? text := ok_or SeStorageCorruption (c_safe_error_code row) in
  map_err (fun _ => SeStorageCorruption) (ErrorCodeText.from_str text).

Definition binding_matches (row : CommandRow) (binding : CommandBinding) (owner_uid : Z) : bool :=
  bool_decide (c_command_id row = cb_command_id binding)
  && bool_decide (c_operation_id row = cb_operation_id binding)
  && bool_decide (c_principal_kind row = bs "LOCAL_OWNER_UID_V1")
  && (c_principal_uid row =? owner_uid)
  && bool_decide (c_digest row = cb_canonical_request_digest binding).

(** ** The rows the writers store *)

Definition claim_row (context : StoreContext) (binding : CommandBinding) (at_ : Timestamp) : CommandRow := {|
  c_command_id := cb_command_id binding; c_operation_id := cb_operation_id binding;
  c_principal_kind := bs "LOCAL_OWNER_UID_V1"; c_principal_uid := owner_uid context;
  c_digest := cb_canonical_request_digest binding; c_runtime_id := runtime_id context; c_state := CLAIMED;
  c_result_kind := None; c_result_id := None; c_result_location_id := None; c_result_schema_version := None;
  c_result_payload := None; c_result_payload_sha256 := None; c_safe_error_code := None;
  c_created_at_seconds := at_.1; c_created_at_nanos := at_.2;
  c_updated_at_seconds := at_.1; c_updated_at_nanos := at_.2 |}.

(** The [SET] list of [commit_rejection]. *)
Definition rejected_row (row : CommandRow) (code : ErrorCode) (at_ : Timestamp) : CommandRow := {|
  c_command_id := c_command_id row; c_operation_id := c_operation_id row;
  c_principal_kind := c_principal_kind row; c_principal_uid := c_principal_uid row;
  c_digest := c_digest row; c_runtime_id := c_runtime_id row; c_state := TERMINAL_REJECTED;
  c_result_kind := c_result_kind row; c_result_id := c_result_id row;
  c_result_location_id := c_result_location_id row; c_result_schema_version := c_result_schema_version row;
  c_result_payload := c_result_payload row; c_result_payload_sha256 := c_result_payload_sha256 row;
  c_safe_error_code := Some (ErrorCodeText.as_str code);
  c_created_at_seconds := c_created_at_seconds row; c_created_at_nanos := c_created_at_nanos row;
  c_updated_at_seconds := at_.1; c_updated_at_nanos := at_.2 |}.

(** The [SET] list of [complete_versioned]. *)
Definition completed_row (row : CommandRow) (primary_id : Id) (p : VersionedResultPayload) (at_ : Timestamp)
  : CommandRow := {|
  c_command_id := c_command_id row; c_operation_id := c_operation_id row;
  c_principal_kind := c_principal_kind row; c_principal_uid := c_principal_uid row;
  c_digest := c_digest row; c_runtime_id := c_runtime_id row; c_state := COMPLETED;
  c_result_kind := Some (result_kind p); c_result_id := Some primary_id;
  c_result_location_id := c_result_location_id row; c_result_schema_version := Some 1;
  c_result_payload := Some (encode p); c_result_payload_sha256 := Some (sha256 (encode p));
  c_safe_error_code := c_safe_error_code row;
  c_created_at_seconds := c_created_at_seconds row; c_created_at_nanos := c_created_at_nanos row;
  c_updated_at_seconds := at_.1; c_updated_at_nanos := at_.2 |}.
End ledger.
End Ledger.
