(* ===== verification/CreativeStore.v ===== *)
(** The creative unit of work: [mengxia-store-sqlite/src/creative_repository.rs].

    A [Store] is the committed content of the tables the eight commands touch; a
    row type has the columns of its table, revision columns (eight big-endian
    bytes) kept by value.  Each command runs in one immediate transaction on the
    single writer: it returns [Ok (outcome, store)] with the store it leaves
    (unchanged when nothing was committed), or [Err e] after a rollback.  Primary
    key, UNIQUE and CHECK constraints of [migrations/sqlite/0002_projects_work.sql]
    that a statement could violate are checked by the statement and surface, as
    [map_sqlite_error] maps them, as [SeInternal].  I/O failures of SQLite itself
    are not modelled. *)
From Stdlib Require Import ZArith Lia String.
From Stdlib Require Import Strings.Byte Init.Byte.
From stdpp Require Import prelude list gmap.
From S2P Require Import Prelude RustText Types Events AssetDomain CreativeDomain Ports CommandLedger.

Set Warnings "-clear-no-such-hyp".

Module Store.
Import Ports Ledger.

(** ** Tables *)

Record DomainEvent := {
  de_id : Id; de_sequence : Z; de_command_id : Id; de_type : list byte; de_aggregate_kind : list byte;
  de_aggregate_id : Id; de_aggregate_revision : Z; de_payload : option (list byte);
  de_payload_sha256 : option (list byte); de_at : Timestamp }.
Record ProjectRow := {
  pj_name : list byte; pj_current_spec : Id; pj_revision : Z; pj_creation_sequence : Z;
  pj_command : Id; pj_created_at : Timestamp; pj_updated_at : Timestamp }.
Record SpecRow := {
  sp_project : Id; sp_sequence : Z; sp_specification : Creative.ProjectSpecification;
  sp_command : Id; sp_created_at : Timestamp }.
Record SubjectRow := {
  sj_kind : list byte; sj_name : list byte; sj_revision : Z; sj_creation_sequence : Z;
  sj_command : Id; sj_created_at : Timestamp }.
Record WorkItemRow := {
  wi_project : Id; wi_kind : Creative.WorkKind; wi_code : list byte; wi_current_revision : Id;
  wi_revision : Z; wi_creation_sequence : Z; wi_command : Id; wi_created_at : Timestamp;
  wi_updated_at : Timestamp }.
Record WorkRevisionRow := {
  wr_work_item : Id; wr_sequence : Z; wr_specification : Creative.CanonicalJson; wr_command : Id;
  wr_created_at : Timestamp }.
Record TakeRow := {
  tk_work_revision : Id; tk_ordinal : Z; tk_state : Creative.TakeState; tk_primary_asset : Id;
  tk_revision : Z; tk_creation_sequence : Z; tk_command : Id; tk_created_at : Timestamp;
  tk_updated_at : Timestamp }.
Record RelationshipRow := {
  rl_id : Id; rl_kind : Creative.RelationshipKind; rl_source : Id; rl_target : Id; rl_command : Id;
  rl_created_at : Timestamp }.

Record Store := {
  commands : gmap Id CommandRow;
  last_sequence : Z;
  events : list DomainEvent;
  projects : gmap Id ProjectRow;
  specs : gmap Id SpecRow;
  subjects : gmap Id SubjectRow;
  work_items : gmap Id WorkItemRow;
  work_revisions : gmap Id WorkRevisionRow;
  takes : gmap Id TakeRow;
  relationships : list RelationshipRow;
  (** the identities of the [assets] table, which these commands only read *)
  assets : gset Id }.

Definition with_commands (s : Store) x := {|
  commands := x; last_sequence := last_sequence s; events := events s; projects := projects s;
  specs := specs s; subjects := subjects s; work_items := work_items s; work_revisions := work_revisions s;
  takes := takes s; relationships := relationships s; assets := assets s |}.
Definition with_last_sequence (s : Store) x := {|
  commands := commands s; last_sequence := x; events := events s; projects := projects s;
  specs := specs s; subjects := subjects s; work_items := work_items s; work_revisions := work_revisions s;
  takes := takes s; relationships := relationships s; assets := assets s |}.
Definition with_events (s : Store) x := {|
  commands := commands s; last_sequence := last_sequence s; events := x; projects := projects s;
  specs := specs s; subjects := subjects s; work_items := work_items s; work_revisions := work_revisions s;
  takes := takes s; relationships := relationships s; assets := assets s |}.
Definition with_projects (s : Store) x := {|
  commands := commands s; last_sequence := last_sequence s; events := events s; projects := x;
  specs := specs s; subjects := subjects s; work_items := work_items s; work_revisions := work_revisions s;
  takes := takes s; relationships := relationships s; assets := assets s |}.
Definition with_specs (s : Store) x := {|
  commands := commands s; last_sequence := last_sequence s; events := events s; projects := projects s;
  specs := x; subjects := subjects s; work_items := work_items s; work_revisions := work_revisions s;
  takes := takes s; relationships := relationships s; assets := assets s |}.
Definition with_subjects (s : Store) x := {|
  commands := commands s; last_sequence := last_sequence s; events := events s; projects := projects s;
  specs := specs s; subjects := x; work_items := work_items s; work_revisions := work_revisions s;
  takes := takes s; relationships := relationships s; assets := assets s |}.
Definition with_work_items (s : Store) x := {|
  commands := commands s; last_sequence := last_sequence s; events := events s; projects := projects s;
  specs := specs s; subjects := subjects s; work_items := x; work_revisions := work_revisions s;
  takes := takes s; relationships := relationships s; assets := assets s |}.
Definition with_work_revisions (s : Store) x := {|
  commands := commands s; last_sequence := last_sequence s; events := events s; projects := projects s;
  specs := specs s; subjects := subjects s; work_items := work_items s; work_revisions := x;
  takes := takes s; relationships := relationships s; assets := assets s |}.
Definition with_takes (s : Store) x := {|
  commands := commands s; last_sequence := last_sequence s; events := events s; projects := projects s;
  specs := specs s; subjects := subjects s; work_items := work_items s; work_revisions := work_revisions s;
  takes := x; relationships := relationships s; assets := assets s |}.
Definition with_relationships (s : Store) x := {|
  commands := commands s; last_sequence := last_sequence s; events := events s; projects := projects s;
  specs := specs s; subjects := subjects s; work_items := work_items s; work_revisions := work_revisions s;
  takes := takes s; relationships := x; assets := assets s |}.

(** ** Sampled values *)

(** [PureCommandValueSource]: the identifiers still to be handed out, the clock
    and the cancellation checkpoint. *)
Record Values := {
  v_ids : list (result AssetStoreError (list byte));
  v_now : result AssetStoreError Timestamp;
  v_checkpoint : result AssetStoreError () }.

(** Creative commands only return [Versioned]; the others belong to asset commands. *)
Inductive CommandResult :=
| ManagedRegistration (asset_id asset_revision_id representation_id resource_id location_id : Id) (blob_digest : list byte)
| AssetRevision (asset_id asset_revision_id : Id) (revision : Z) (created_at : Timestamp)
| Location (digest : list byte) (location_id : Id) (revision : Z)
| Versioned (primary_id : Id) (payload : VersionedResultPayload) (occurred_at : Timestamp).
Inductive MutationOutcome :=
| Applied (r : CommandResult)
| Replay (r : CommandResult)
| TerminalRejected (safe_error_code : ErrorCode)
| RecoveryRequired (safe_error_code : ErrorCode).

Abbreviation outcome := (result AssetStoreError (MutationOutcome * Store)).

Section store.
Context `{StoreEnv}.

(** [generated_id]: the next identifier, which must be a valid UUIDv7. *)
Definition generated_id (ids : list (result AssetStoreError (list byte)))
  : result AssetStoreError (Id * list (result AssetStoreError (list byte))) :=
  match ids with
  | [] => Err SeIdGenerationUnavailable
  | Err e :: _ => Err e
  | Ok raw :: rest => if id_valid raw then Ok (raw, rest) else Err SeIdGenerationUnavailable
  end.

Fixpoint generated_ids (n : nat) (ids : list (result AssetStoreError (list byte)))
  : result AssetStoreError (list Id * list (result AssetStoreError (list byte))) :=
  match n with
  | O => Ok ([], ids)
  | S m =>
      let? (i, ids) := generated_id ids in
      let? (more, ids) := generated_ids m ids in
      Ok (i :: more, ids)
  end.

Definition distinct (values : list Id) : result AssetStoreError () :=
  if AssetModel.any_repeated values then Err SeIdGenerationUnavailable else Ok tt.

(** ** Statements *)

Definition read_command (s : Store) (binding : CommandBinding) : option CommandRow :=
  commands s !! cb_command_id binding.

Definition insert_claim (s : Store) (context : StoreContext) (binding : CommandBinding) (at_ : Timestamp)
  : result AssetStoreError Store :=
  match commands s !! cb_command_id binding with
  | Some _ => Err SeInternal
  | None => Ok (with_commands s (<[cb_command_id binding := claim_row context binding at_]> (commands s)))
  end.

(** [UPDATE event_commit_sequence ... RETURNING]; the guard makes exhaustion an
    empty result. *)
Definition allocate_event_sequences (s : Store) (count : Z) : result AssetStoreError (Z * Store) :=
  if (1 <=? count) && (count <=? 64) && (last_sequence s <=? I64_MAX - count)
  then Ok (last_sequence s + 1, with_last_sequence s (last_sequence s + count))
  else Err SeRevisionExhausted.

Definition insert_event (s : Store) (e : DomainEvent) : result AssetStoreError Store :=
  if existsb (fun d => bool_decide (de_id d = de_id e) || (de_sequence d =? de_sequence e)) (events s)
     || negb ((1 <=? de_sequence e) && (de_sequence e <=? I64_MAX))
  then Err SeInternal
  else Ok (with_events s (events s ++ [e])).

Definition insert_domain_event (s : Store) (event_id : Id) (sequence : Z) (binding : CommandBinding)
    (event_type aggregate_kind : list byte) (aggregate_id : Id) (aggregate_revision : Z) (at_ : Timestamp)
  : result AssetStoreError Store :=
  insert_event s {|
    de_id := event_id; de_sequence := sequence; de_command_id := cb_command_id binding; de_type := event_type;
    de_aggregate_kind := aggregate_kind; de_aggregate_id := aggregate_id;
    de_aggregate_revision := aggregate_revision; de_payload := None; de_payload_sha256 := None; de_at := at_ |}.

Definition insert_payload_event (s : Store) (event_id : Id) (sequence : Z) (binding : CommandBinding)
    (event_type : list byte) (aggregate_id : Id) (aggregate_revision : Z) (payload_value : option (list byte))
    (at_ : Timestamp) : result AssetStoreError Store :=
  let? payload :=
    match payload_value with
    | None => Ok None
    | Some value => map_err (fun _ => SeInternal) (EventPayload.from_fields [(x01, value)])
    end in
  insert_event s {|
    de_id := event_id; de_sequence := sequence; de_command_id := cb_command_id binding; de_type := event_type;
    de_aggregate_kind := bs "TAKE"; de_aggregate_id := aggregate_id;
    de_aggregate_revision := aggregate_revision; de_payload := payload;
    de_payload_sha256 := option_map sha256 payload; de_at := at_ |}.

(** PRIMARY KEY and UNIQUE (project_id, sequence). *)
Definition insert_project_specification (s : Store) (specification_id project_id : Id) (sequence : Z)
    (command_id : Id) (at_ : Timestamp) (specification : Creative.ProjectSpecification)
  : result AssetStoreError Store :=
  match specs s !! specification_id with
  | Some _ => Err SeInternal
  | None =>
      if bool_decide (map_Exists (fun _ r => sp_project r = project_id /\ sp_sequence r = sequence) (specs s))
      then Err SeInternal
      else Ok (with_specs s (<[specification_id := {|
             sp_project := project_id; sp_sequence := sequence; sp_specification := specification;
             sp_command := command_id; sp_created_at := at_ |}]> (specs s)))
  end.

Definition insert_project (s : Store) (project_id : Id) (row : ProjectRow) : result AssetStoreError Store :=
  match projects s !! project_id with
  | Some _ => Err SeInternal
  | None => Ok (with_projects s (<[project_id := row]> (projects s)))
  end.

Definition insert_subject (s : Store) (subject_id : Id) (row : SubjectRow) : result AssetStoreError Store :=
  match subjects s !! subject_id with
  | Some _ => Err SeInternal
  | None => Ok (with_subjects s (<[subject_id := row]> (subjects s)))
  end.

(** PRIMARY KEY and UNIQUE (project_id, kind, code). *)
Definition work_code_taken (s : Store) (project_id : Id) (kind : Creative.WorkKind) (code : list byte) : bool :=
  bool_decide (map_Exists (fun _ r => wi_project r = project_id /\ wi_kind r = kind /\ wi_code r = code) (work_items s)).
Definition insert_work_item (s : Store) (work_item_id : Id) (row : WorkItemRow) : result AssetStoreError Store :=
  match work_items s !! work_item_id with
  | Some _ => Err SeInternal
  | None =>
      if work_code_taken s (wi_project row) (wi_kind row) (wi_code row) then Err SeInternal
      else Ok (with_work_items s (<[work_item_id := row]> (work_items s)))
  end.

(** PRIMARY KEY, UNIQUE over the whole edge, and the partial UNIQUE indexes on the
    source of TAKE_REOPENS and TAKE_SUPERSEDES; CHECK on self edges. *)
Definition same_kind_endpoints (k : Creative.RelationshipKind) : bool :=
  match k with Creative.TakeReopens | Creative.TakeSupersedes => true | _ => false end.
Definition relationship_clash (e r : RelationshipRow) : bool :=
  bool_decide (rl_id r = rl_id e)
  || (bool_decide (rl_kind r = rl_kind e) && bool_decide (rl_source r = rl_source e)
      && (bool_decide (rl_target r = rl_target e) || same_kind_endpoints (rl_kind e))).
Definition insert_relationship_row (s : Store) (e : RelationshipRow) : result AssetStoreError Store :=
  if existsb (relationship_clash e) (relationships s)
     || (bool_decide (rl_source e = rl_target e) && same_kind_endpoints (rl_kind e))
  then Err SeInternal
  else Ok (with_relationships s (relationships s ++ [e])).

Definition insert_relationship (s : Store) (relationship_id : Id) (kind : Creative.RelationshipKind)
    (source_id target_id : Id) (binding : CommandBinding) (at_ : Timestamp) : result AssetStoreError Store :=
  insert_relationship_row s {|
    rl_id := relationship_id; rl_kind := kind; rl_source := source_id; rl_target := target_id;
    rl_command := cb_command_id binding; rl_created_at := at_ |}.

(** The two [for] loops over the referenced identities share the index into the
    sampled relationship identities. *)
Fixpoint insert_work_relationships (s : Store) (kind : Creative.RelationshipKind) (work_revision_id : Id)
    (targets relationship_ids : list Id) (binding : CommandBinding) (at_ : Timestamp)
  : result AssetStoreError (Store * list Id) :=
  match targets with
  | [] => Ok (s, relationship_ids)
  | target :: rest =>
      match relationship_ids with
      | [] => Err SeInternal
      | relationship_id :: more =>
          let? s := insert_relationship s relationship_id kind work_revision_id target binding at_ in
          insert_work_relationships s kind work_revision_id rest more binding at_
      end
  end.

(** PRIMARY KEY and UNIQUE (work_item_id, sequence), then the edges. *)
Definition insert_work_revision (s : Store) (work_revision_id work_item_id : Id) (sequence : Z)
    (binding : CommandBinding) (at_ : Timestamp) (specification : Creative.WorkSpecification)
    (relationship_ids : list Id) : result AssetStoreError Store :=
  match work_revisions s !! work_revision_id with
  | Some _ => Err SeInternal
  | None =>
      if bool_decide (map_Exists (fun _ r => wr_work_item r = work_item_id /\ wr_sequence r = sequence) (work_revisions s))
      then Err SeInternal
      else
        let s := with_work_revisions s (<[work_revision_id := {|
                   wr_work_item := work_item_id; wr_sequence := sequence;
                   wr_specification := Creative.ws_json specification; wr_command := cb_command_id binding;
                   wr_created_at := at_ |}]> (work_revisions s)) in
        let? (s, more) := insert_work_relationships s Creative.WorkSubject work_revision_id
                            (Creative.ws_subject_ids specification) relationship_ids binding at_ in
        let? (s, more) := insert_work_relationships s Creative.WorkAsset work_revision_id
                            (Creative.ws_asset_ids specification) more binding at_ in
        match more with [] => Ok s | _ :: _ => Err SeInternal end
  end.

Definition validate_work_references (s : Store) (specification : Creative.WorkSpecification) : bool :=
  forallb (fun i => bool_decide (is_Some (subjects s !! i))) (Creative.ws_subject_ids specification)
  && forallb (fun i => bool_decide (i ∈ assets s)) (Creative.ws_asset_ids specification).

(** ** Takes *)

Definition take_context_exists (s : Store) (project_id work_item_id work_revision_id : Id) : bool :=
  match work_items s !! work_item_id, work_revisions s !! work_revision_id with
  | Some w, Some wr => bool_decide (wi_project w = project_id) && bool_decide (wr_work_item wr = work_item_id)
  | _, _ => false
  end.
Definition asset_exists (s : Store) (asset_id : Id) : bool := bool_decide (asset_id ∈ assets s).

(** [SELECT max(ordinal)], with [unwrap_or(0)]. *)
Definition max_ordinal (s : Store) (work_revision_id : Id) : Z :=
  map_fold (fun _ r acc => if bool_decide (tk_work_revision r = work_revision_id) then Z.max acc (tk_ordinal r) else acc)
    0 (takes s).
Definition next_take_ordinal (s : Store) (work_revision_id : Id) : result AssetStoreError Z :=
  ok_or SeRevisionExhausted
    (o ← try_into U32_MAX (max_ordinal s work_revision_id);
     v ← checked_add U32_MAX o 1;
     if v =? 0 then None else Some v).

Definition read_take (s : Store) (take_id work_revision_id : Id) : option TakeRow :=
  match takes s !! take_id with
  | Some r => if bool_decide (tk_work_revision r = work_revision_id) then Some r else None
  | None => None
  end.

(** The partial UNIQUE index [takes_one_selected_idx]. *)
Definition selected_elsewhere (s : Store) (work_revision_id take_id : Id) : bool :=
  bool_decide (map_Exists (fun i r => i <> take_id /\ tk_work_revision r = work_revision_id /\
                                      tk_state r = Creative.Selected) (takes s)).
Definition selected_clash (s : Store) (take_id : Id) (r : TakeRow) : bool :=
  bool_decide (tk_state r = Creative.Selected) && selected_elsewhere s (tk_work_revision r) take_id.

(** PRIMARY KEY, UNIQUE (work_revision_id, ordinal) and the selected index. *)
Definition insert_take (s : Store) (take_id work_revision_id : Id) (ordinal : Z) (state : Creative.TakeState)
    (primary_asset_id : Id) (creation_commit_sequence : Z) (binding : CommandBinding) (at_ : Timestamp)
  : result AssetStoreError Store :=
  match takes s !! take_id with
  | Some _ => Err SeInternal
  | None =>
      let row := {| tk_work_revision := work_revision_id; tk_ordinal := ordinal; tk_state := state;
                    tk_primary_asset := primary_asset_id; tk_revision := 1;
                    tk_creation_sequence := creation_commit_sequence; tk_command := cb_command_id binding;
                    tk_created_at := at_; tk_updated_at := at_ |} in
      if bool_decide (map_Exists (fun _ r => tk_work_revision r = work_revision_id /\ tk_ordinal r = ordinal) (takes s))
         || selected_clash s take_id row
      then Err SeInternal
      else Ok (with_takes s (<[take_id := row]> (takes s)))
  end.

Definition moved_take (r : TakeRow) (state : Creative.TakeState) (revision : Z) (at_ : Timestamp) : TakeRow := {|
  tk_work_revision := tk_work_revision r; tk_ordinal := tk_ordinal r; tk_state := state;
  tk_primary_asset := tk_primary_asset r; tk_revision := revision;
  tk_creation_sequence := tk_creation_sequence r; tk_command := tk_command r;
  tk_created_at := tk_created_at r; tk_updated_at := at_ |}.

(** [UPDATE takes SET state, revision, updated_at WHERE take_id AND revision] (and
    [AND state='SELECTED'] when [only_selected]); no row changed is corruption. *)
Definition update_take (s : Store) (take_id : Id) (expected : Z) (only_selected : bool)
    (state : Creative.TakeState) (revision : Z) (at_ : Timestamp) : result AssetStoreError Store :=
  match takes s !! take_id with
  | Some r =>
      if (tk_revision r =? expected) && (negb only_selected || bool_decide (tk_state r = Creative.Selected))
      then
        let r' := moved_take r state revision at_ in
        if selected_clash s take_id r' then Err SeInternal
        else Ok (with_takes s (<[take_id := r']> (takes s)))
      else Err SeStorageCorruption
  | None => Err SeStorageCorruption
  end.

(** [SELECT take_id, revision FROM takes WHERE work_revision_id AND state='SELECTED'
    AND take_id<>?]: the first row, if any. *)
Definition selected_other (s : Store) (work_revision_id take_id : Id) : option (Id * TakeRow) :=
  head (filter (fun kv => kv.1 <> take_id /\ tk_work_revision kv.2 = work_revision_id /\
                          tk_state kv.2 = Creative.Selected) (map_to_list (takes s))).

(** ** Replay *)

Definition event_count (s : Store) (command_id : Id) (event_type aggregate_kind : list byte) (aggregate_id : Id)
    (aggregate_revision : Z) : Z :=
  blen (filter (fun e => de_command_id e = command_id /\ de_type e = event_type /\
                         de_aggregate_kind e = aggregate_kind /\ de_aggregate_id e = aggregate_id /\
                         de_aggregate_revision e = aggregate_revision) (events s)).
Definition relationship_count (s : Store) (command_id : Id) (kind : Creative.RelationshipKind) (source target : Id) : Z :=
  blen (filter (fun r => rl_command r = command_id /\ rl_kind r = kind /\ rl_source r = source /\
                         rl_target r = target) (relationships s)).

(** The event type a completed take command must have recorded. *)
Definition expected_take_event (operation : list byte) (state : Creative.TakeState) : option (list byte) :=
  if bool_decide (operation = bs "take.create.v1") then Some (bs "take.created.v1")
  else if bool_decide (operation = bs "take.reopen.v1") then Some (bs "take.reopened.v1")
  else if bool_decide (operation = bs "take.transition.v1") then
    match state with
    | Creative.Shortlisted => Some (bs "take.shortlisted.v1")
    | Creative.Selected => Some (bs "take.selected.v1")
    | Creative.Approved => Some (bs "take.approved.v1")
    | Creative.Rejected => Some (bs "take.rejected.v1")
    | Creative.Superseded => Some (bs "take.superseded.v1")
    | Creative.Candidate => None
    end
  else None.

(** The number of edges the command recorded, where it must have recorded some. *)
Definition take_edge_count (s : Store) (row : CommandRow) (primary : Id) (state : Creative.TakeState)
    (related : option Id) : option Z :=
  let op := c_operation_id row in
  match related with
  | None =>
      if bool_decide (op = bs "take.create.v1") || bool_decide (op = bs "take.transition.v1") then Some 0 else None
  | Some other =>
      if bool_decide (op = bs "take.reopen.v1")
      then Some (relationship_count s (c_command_id row) Creative.TakeReopens primary other)
      else if bool_decide (op = bs "take.transition.v1") && bool_decide (state = Creative.Selected)
      then Some (relationship_count s (c_command_id row) Creative.TakeSupersedes primary other)
      else if bool_decide (op = bs "take.transition.v1") && bool_decide (state = Creative.Superseded)
      then Some (relationship_count s (c_command_id row) Creative.TakeSupersedes other primary)
      else None
  end.

(** Whether the tables still hold what the stored result says, per kind. *)
Definition payload_observed (s : Store) (row : CommandRow) (primary : Id) (payload : VersionedResultPayload) : bool :=
  let c := c_command_id row in
  match payload with
  | VrProject spec_revision_id revision sequence =>
      match projects s !! primary, specs s !! spec_revision_id with
      | Some p, Some sp =>
          bool_decide (sp_project sp = primary) && (revision <=? pj_revision p) && (sp_sequence sp =? sequence)
          && (event_count s c (bs "project.created.v1") (bs "PROJECT") primary revision =? 1)
      | _, _ => false
      end
  | VrProjectSpecRevision project_id revision sequence =>
      match specs s !! primary, projects s !! project_id with
      | Some sp, Some p =>
          bool_decide (sp_project sp = project_id) && (revision <=? pj_revision p) && (sp_sequence sp =? sequence)
          && (event_count s c (bs "project.spec.revised.v1") (bs "PROJECT_SPEC_REVISION") primary revision =? 1)
      | _, _ => false
      end
  | VrSubject revision =>
      match subjects s !! primary with
      | Some sj =>
          (sj_revision sj =? revision)
          && (event_count s c (bs "subject.created.v1") (bs "SUBJECT") primary (sj_revision sj) =? 1)
      | None => false
      end
  | VrWorkItem work_revision_id revision sequence =>
      match work_items s !! primary, work_revisions s !! work_revision_id with
      | Some w, Some wr =>
          bool_decide (wr_work_item wr = primary) && (revision <=? wi_revision w) && (wr_sequence wr =? sequence)
          && (event_count s c (bs "work.created.v1") (bs "WORK_ITEM") primary revision =? 1)
      | _, _ => false
      end
  | VrWorkRevision work_item_id revision sequence =>
      match work_revisions s !! primary, work_items s !! work_item_id with
      | Some wr, Some w =>
          bool_decide (wr_work_item wr = work_item_id) && (revision <=? wi_revision w) && (wr_sequence wr =? sequence)
          && (event_count s c (bs "work.revised.v1") (bs "WORK_REVISION") primary revision =? 1)
      | _, _ => false
      end
  | VrTake revision ordinal state primary_asset_id related_take_id =>
      match expected_take_event (c_operation_id row) state, takes s !! primary with
      | Some expected_event, Some t =>
          (tk_ordinal t =? ordinal) && bool_decide (tk_primary_asset t = primary_asset_id)
          && (revision <=? tk_revision t)
          && (event_count s c expected_event (bs "TAKE") primary revision =? 1)
          && match take_edge_count s row primary state related_take_id with
             | Some n => match related_take_id with Some _ => n =? 1 | None => true end
             | None => false
             end
      | _, _ => false
      end
  | VrAssetLifecycle _ _ => false
  end.

Definition payload_revision (payload : VersionedResultPayload) : Z :=
  match payload with
  | VrProject _ r _ | VrProjectSpecRevision _ r _ | VrSubject r | VrWorkItem _ r _ | VrWorkRevision _ r _
  | VrTake r _ _ _ _ | VrAssetLifecycle r _ => r
  end.

Definition replay_creative_result (s : Store) (row : CommandRow) : result AssetStoreError CommandResult :=
  let? primary := id_bytes (c_result_id row) in
  let? kind := ok_or SeStorageCorruption (c_result_kind row) in
  let? bytes := ok_or SeStorageCorruption (c_result_payload row) in
  let? payload := decode id_valid kind bytes in
  if negb (payload_observed s row primary payload) then Err SeStorageCorruption
  else if payload_revision payload =? 0 then Err SeStorageCorruption
  else
    let? _ := persisted_timestamp (c_updated_at_seconds row) (c_updated_at_nanos row) in
    Ok (Versioned primary payload (c_updated_at_seconds row, c_updated_at_nanos row)).

Definition is_creative_operation (op : list byte) : bool :=
  bool_decide (op ∈ [PROJECT_CREATE_V1; PROJECT_SPEC_REVISE_V1; SUBJECT_CREATE_V1; WORK_CREATE_V1;
                     WORK_REVISE_V1; TAKE_CREATE_V1; TAKE_TRANSITION_V1; TAKE_REOPEN_V1]).

(** The branches of [replay_result] for asset operations read asset tables. *)
Context (replay_asset_result : Store -> CommandRow -> result AssetStoreError CommandResult).

Definition replay_result (s : Store) (row : CommandRow) : result AssetStoreError CommandResult :=
  if is_creative_operation (c_operation_id row) then replay_creative_result s row
  else replay_asset_result s row.

Definition replay_pure (s : Store) (row : CommandRow) (expected_kind : list byte)
  : result AssetStoreError MutationOutcome :=
  match c_state row with
  | COMPLETED =>
      if kind_is row expected_kind then let? r := replay_result s row in Ok (Replay r)
      else Err SeStorageCorruption
  | TERMINAL_REJECTED => let? code := parse_safe_code row in Ok (TerminalRejected code)
  | CLAIMED | RECOVERY_REQUIRED => Err SeStorageCorruption
  end.

Definition replay_existing (s : Store) (context : StoreContext) (binding : CommandBinding)
    (expected_kind : list byte) : result AssetStoreError (option MutationOutcome) :=
  match read_command s binding with
  | None => Ok None
  | Some row =>
      if negb (binding_matches row binding (owner_uid context)) then Err SeConflict
      else
        let? row := validate_command_row row in
        let? o := replay_pure s row expected_kind in
        Ok (Some o)
  end.

Definition commit_rejection (s : Store) (binding : CommandBinding) (code : ErrorCode) (at_ : Timestamp) : outcome :=
  Ok (TerminalRejected code,
      with_commands s (alter (fun row => rejected_row row code at_) (cb_command_id binding) (commands s))).

Definition complete_versioned (s : Store) (binding : CommandBinding) (primary_id : Id)
    (payload : VersionedResultPayload) (at_ : Timestamp) : outcome :=
  match commands s !! cb_command_id binding with
  | Some row =>
      if bool_decide (c_state row = CLAIMED) then
        let s := with_commands s (<[cb_command_id binding := completed_row row primary_id payload at_]> (commands s)) in
        let? row := ok_or SeStorageCorruption (read_command s binding) in
        let? row := validate_command_row row in
        let? r := replay_creative_result s row in
        Ok (Applied r, s)
      else Err SeStorageCorruption
  | None => Err SeStorageCorruption
  end.

(** [match allocate_event_sequences(..)]: exhaustion commits a rejection, other
    errors propagate. *)
Definition allocate_or_reject (s : Store) (count : Z) (binding : CommandBinding) (at_ : Timestamp)
    (k : Z -> Store -> outcome) : outcome :=
  match allocate_event_sequences s count with
  | Ok (sequence, s') => k sequence s'
  | Err SeRevisionExhausted => commit_rejection s binding RevisionExhausted at_
  | Err e => Err e
  end.

(** ** Commands *)

(** The common head of every command: replay a known command, or sample [ids]
    identities, the clock and the checkpoint and claim the command. *)
Definition with_values (values : Values) {A} (sample : list (result AssetStoreError (list byte)) -> result AssetStoreError A)
  : result AssetStoreError (A * Timestamp) :=
  let? ids := sample (v_ids values) in
  let? at_ := v_now values in
  let? _ := v_checkpoint values in
  Ok (ids, at_).

Definition sample2 (ids : list (result AssetStoreError (list byte))) : result AssetStoreError (Id * Id) :=
  let? (a, ids) := generated_id ids in
  let? (b, _) := generated_id ids in
  let? _ := distinct [a; b] in
  Ok (a, b).
Definition sample3 (ids : list (result AssetStoreError (list byte))) : result AssetStoreError (Id * Id * Id) :=
  let? (a, ids) := generated_id ids in
  let? (b, ids) := generated_id ids in
  let? (c, _) := generated_id ids in
  let? _ := distinct [a; b; c] in
  Ok (a, b, c).
Definition sample_work_ids (count : nat) (ids : list (result AssetStoreError (list byte)))
  : result AssetStoreError (Id * Id * Id * list Id) :=
  let? (work_item_id, ids) := generated_id ids in
  let? (work_revision_id, ids) := generated_id ids in
  let? (event_id, ids) := generated_id ids in
  let? (relationship_ids, _) := generated_ids count ids in
  let? _ := distinct ([work_item_id; work_revision_id; event_id] ++ relationship_ids) in
  Ok (work_item_id, work_revision_id, event_id, relationship_ids).
Definition sample_work_revision_ids (count : nat) (ids : list (result AssetStoreError (list byte)))
  : result AssetStoreError (Id * Id * list Id) :=
  let? (revision_id, ids) := generated_id ids in
  let? (event_id, ids) := generated_id ids in
  let? (relationship_ids, _) := generated_ids count ids in
  let? _ := distinct ([revision_id; event_id] ++ relationship_ids) in
  Ok (revision_id, event_id, relationship_ids).

(** [if let Some(outcome) = replay_existing(..)? { return Ok(outcome); }] *)
Definition unless_replayed (s : Store) (context : StoreContext) (binding : CommandBinding) (kind : list byte)
    (k : outcome) : outcome :=
  let? existing := replay_existing s context binding kind in
  match existing with
  | Some o => Ok (o, s)
  | None => k
  end.

Record CreateProjectCommand := {
  cp_binding : CommandBinding; cp_name : list byte; cp_specification : Creative.ProjectSpecification;
  cp_values : Values }.

Definition create_project (s : Store) (context : StoreContext) (r : CreateProjectCommand) : outcome :=
  let b := cp_binding r in
  unless_replayed s context b (bs "PROJECT") (
  let? (project_id, spec_id, event_id, at_) := with_values (cp_values r) sample3 in
  let? s := insert_claim s context b at_ in
  allocate_or_reject s 1 b at_ (fun sequence s =>
  let? s := insert_domain_event s event_id sequence b (bs "project.created.v1") (bs "PROJECT") project_id 1 at_ in
  let? s := insert_project s project_id {|
              pj_name := cp_name r; pj_current_spec := spec_id; pj_revision := 1;
              pj_creation_sequence := sequence; pj_command := cb_command_id b;
              pj_created_at := at_; pj_updated_at := at_ |} in
  let? s := insert_project_specification s spec_id project_id 1 (cb_command_id b) at_ (cp_specification r) in
  complete_versioned s b project_id (VrProject spec_id 1 1) at_)).

Record ReviseProjectSpecCommand := {
  rp_binding : CommandBinding; rp_project_id : Id; rp_expected_revision : Z;
  rp_specification : Creative.ProjectSpecification; rp_values : Values }.

(** [UPDATE projects SET current_spec_revision_id, revision, updated_at WHERE
    project_id AND revision]. *)
Definition update_project (s : Store) (project_id spec_id : Id) (next current : Z) (at_ : Timestamp)
  : result AssetStoreError Store :=
  match projects s !! project_id with
  | Some p =>
      if pj_revision p =? current then
        Ok (with_projects s (<[project_id := {|
              pj_name := pj_name p; pj_current_spec := spec_id; pj_revision := next;
              pj_creation_sequence := pj_creation_sequence p; pj_command := pj_command p;
              pj_created_at := pj_created_at p; pj_updated_at := at_ |}]> (projects s)))
      else Err SeStorageCorruption
  | None => Err SeStorageCorruption
  end.

Definition revise_project_spec (s : Store) (context : StoreContext) (r : ReviseProjectSpecCommand) : outcome :=
  let b := rp_binding r in
  unless_replayed s context b (bs "PROJECT_SPEC_REVISION") (
  let? (spec_id, event_id, at_) := with_values (rp_values r) sample2 in
  let? s := insert_claim s context b at_ in
  match projects s !! rp_project_id r with
  | None => commit_rejection s b NotFound at_
  | Some p =>
      let current := pj_revision p in
      if negb (current =? rp_expected_revision r) then commit_rejection s b Conflict at_
      else match checked_add U64_MAX current 1 with
      | None => commit_rejection s b RevisionExhausted at_
      | Some next =>
          match try_into U32_MAX next with
          | None => commit_rejection s b RevisionExhausted at_
          | Some sequence =>
              let? s := insert_project_specification s spec_id (rp_project_id r) sequence (cb_command_id b) at_
                          (rp_specification r) in
              allocate_or_reject s 1 b at_ (fun event_sequence s =>
              let? s := update_project s (rp_project_id r) spec_id next current at_ in
              let? s := insert_domain_event s event_id event_sequence b (bs "project.spec.revised.v1")
                          (bs "PROJECT_SPEC_REVISION") spec_id next at_ in
              complete_versioned s b spec_id (VrProjectSpecRevision (rp_project_id r) next sequence) at_)
          end
      end
  end).

Record CreateSubjectCommand := {
  cs_binding : CommandBinding; cs_kind : list byte; cs_name : list byte; cs_values : Values }.

Definition create_subject (s : Store) (context : StoreContext) (r : CreateSubjectCommand) : outcome :=
  let b := cs_binding r in
  unless_replayed s context b (bs "SUBJECT") (
  let? (subject_id, event_id, at_) := with_values (cs_values r) sample2 in
  let? s := insert_claim s context b at_ in
  allocate_or_reject s 1 b at_ (fun sequence s =>
  let? s := insert_domain_event s event_id sequence b (bs "subject.created.v1") (bs "SUBJECT") subject_id 1 at_ in
  let? s := insert_subject s subject_id {|
              sj_kind := cs_kind r; sj_name := cs_name r; sj_revision := 1; sj_creation_sequence := sequence;
              sj_command := cb_command_id b; sj_created_at := at_ |} in
  complete_versioned s b subject_id (VrSubject 1) at_)).

Record CreateWorkCommand := {
  cw_binding : CommandBinding; cw_project_id : Id; cw_kind : Creative.WorkKind; cw_code : list byte;
  cw_specification : Creative.WorkSpecification; cw_values : Values }.

Definition reference_count (sp : Creative.WorkSpecification) : nat :=
  (length (Creative.ws_subject_ids sp) + length (Creative.ws_asset_ids sp))%nat.

Definition create_work (s : Store) (context : StoreContext) (r : CreateWorkCommand) : outcome :=
  let b := cw_binding r in
  unless_replayed s context b (bs "WORK_ITEM") (
  let? (work_id, revision_id, event_id, relationship_ids, at_) :=
    with_values (cw_values r) (sample_work_ids (reference_count (cw_specification r))) in
  let? s := insert_claim s context b at_ in
  if negb (bool_decide (is_Some (projects s !! cw_project_id r))) || negb (validate_work_references s (cw_specification r))
  then commit_rejection s b NotFound at_
  else if work_code_taken s (cw_project_id r) (cw_kind r) (cw_code r) then commit_rejection s b Conflict at_
  else allocate_or_reject s 1 b at_ (fun event_sequence s =>
  let? s := insert_domain_event s event_id event_sequence b (bs "work.created.v1") (bs "WORK_ITEM") work_id 1 at_ in
  let? s := insert_work_item s work_id {|
              wi_project := cw_project_id r; wi_kind := cw_kind r; wi_code := cw_code r;
              wi_current_revision := revision_id; wi_revision := 1; wi_creation_sequence := event_sequence;
              wi_command := cb_command_id b; wi_created_at := at_; wi_updated_at := at_ |} in
  let? s := insert_work_revision s revision_id work_id 1 b at_ (cw_specification r) relationship_ids in
  complete_versioned s b work_id (VrWorkItem revision_id 1 1) at_)).

Record ReviseWorkCommand := {
  rw_binding : CommandBinding; rw_project_id : Id; rw_work_item_id : Id; rw_expected_revision : Z;
  rw_specification : Creative.WorkSpecification; rw_values : Values }.

(** [UPDATE work_items SET current_work_revision_id, revision, updated_at WHERE
    work_item_id AND project_id AND revision]. *)
Definition update_work_item (s : Store) (work_item_id revision_id project_id : Id) (next current : Z) (at_ : Timestamp)
  : result AssetStoreError Store :=
  match work_items s !! work_item_id with
  | Some w =>
      if bool_decide (wi_project w = project_id) && (wi_revision w =? current) then
        Ok (with_work_items s (<[work_item_id := {|
              wi_project := wi_project w; wi_kind := wi_kind w; wi_code := wi_code w;
              wi_current_revision := revision_id; wi_revision := next;
              wi_creation_sequence := wi_creation_sequence w; wi_command := wi_command w;
              wi_created_at := wi_created_at w; wi_updated_at := at_ |}]> (work_items s)))
      else Err SeStorageCorruption
  | None => Err SeStorageCorruption
  end.

Definition read_work_revision_no (s : Store) (work_item_id project_id : Id) : option Z :=
  match work_items s !! work_item_id with
  | Some w => if bool_decide (wi_project w = project_id) then Some (wi_revision w) else None
  | None => None
  end.

Definition revise_work (s : Store) (context : StoreContext) (r : ReviseWorkCommand) : outcome :=
  let b := rw_binding r in
  unless_replayed s context b (bs "WORK_REVISION") (
  let? (revision_id, event_id, relationship_ids, at_) :=
    with_values (rw_values r) (sample_work_revision_ids (reference_count (rw_specification r))) in
  let? s := insert_claim s context b at_ in
  match read_work_revision_no s (rw_work_item_id r) (rw_project_id r) with
  | None => commit_rejection s b NotFound at_
  | Some current =>
      if negb (current =? rw_expected_revision r) then commit_rejection s b Conflict at_
      else if negb (validate_work_references s (rw_specification r)) then commit_rejection s b NotFound at_
      else match checked_add U64_MAX current 1 with
      | None => commit_rejection s b RevisionExhausted at_
      | Some next =>
          match try_into U32_MAX next with
          | None => commit_rejection s b RevisionExhausted at_
          | Some sequence =>
              let? s := insert_work_revision s revision_id (rw_work_item_id r) sequence b at_
                          (rw_specification r) relationship_ids in
              let? s := update_work_item s (rw_work_item_id r) revision_id (rw_project_id r) next current at_ in
              allocate_or_reject s 1 b at_ (fun event_sequence s =>
              let? s := insert_domain_event s event_id event_sequence b (bs "work.revised.v1")
                          (bs "WORK_REVISION") revision_id next at_ in
              complete_versioned s b revision_id (VrWorkRevision (rw_work_item_id r) next sequence) at_)
          end
      end
  end).

Record CreateTakeCommand := {
  ct_binding : CommandBinding; ct_project_id : Id; ct_work_item_id : Id; ct_work_revision_id : Id;
  ct_primary_asset_id : Id; ct_values : Values }.

(** [match next_take_ordinal(..)]: exhaustion commits a rejection. *)
Definition ordinal_or_reject (s : Store) (work_revision_id : Id) (binding : CommandBinding) (at_ : Timestamp)
    (k : Z -> outcome) : outcome :=
  match next_take_ordinal s work_revision_id with
  | Ok ordinal => k ordinal
  | Err SeRevisionExhausted => commit_rejection s binding RevisionExhausted at_
  | Err e => Err e
  end.

Definition create_take (s : Store) (context : StoreContext) (r : CreateTakeCommand) : outcome :=
  let b := ct_binding r in
  unless_replayed s context b (bs "TAKE") (
  let? (take_id, event_id, at_) := with_values (ct_values r) sample2 in
  let? s := insert_claim s context b at_ in
  if negb (take_context_exists s (ct_project_id r) (ct_work_item_id r) (ct_work_revision_id r))
     || negb (asset_exists s (ct_primary_asset_id r))
  then commit_rejection s b NotFound at_
  else ordinal_or_reject s (ct_work_revision_id r) b at_ (fun ordinal =>
  allocate_or_reject s 1 b at_ (fun event_sequence s =>
  let? s := insert_domain_event s event_id event_sequence b (bs "take.created.v1") (bs "TAKE") take_id 1 at_ in
  let? s := insert_take s take_id (ct_work_revision_id r) ordinal Creative.Candidate (ct_primary_asset_id r)
              event_sequence b at_ in
  complete_versioned s b take_id
    (VrTake 1 ordinal Creative.Candidate (ct_primary_asset_id r) None) at_))).

Record TransitionTakeCommand := {
  tt_binding : CommandBinding; tt_project_id : Id; tt_work_item_id : Id; tt_work_revision_id : Id;
  tt_take_id : Id; tt_expected_revision : Z; tt_transition : Creative.TakeTransition;
  tt_reason : option (list byte); tt_related_take : option (Id * Z); tt_values : Values }.

(** What the [Select] and [Supersede] branches decide before anything is written:
    a rejection, or the related take and the selected take to replace (with its
    revision and its next revision). *)
Inductive TransitionPlan :=
| PlanReject (code : ErrorCode)
| PlanGo (related : option Id) (selected_replacement : option (Id * Z * Z)).

Definition transition_plan (s : Store) (r : TransitionTakeCommand) : result AssetStoreError TransitionPlan :=
  match tt_transition r with
  | Creative.Select =>
      match selected_other s (tt_work_revision_id r) (tt_take_id r), tt_related_take r with
      | None, None => Ok (PlanGo None None)
      | Some (selected_id, row), Some (supplied_id, supplied_revision) =>
          if negb (bool_decide (selected_id = supplied_id)) || negb (tk_revision row =? supplied_revision)
          then Ok (PlanReject Conflict)
          else match checked_add U64_MAX (tk_revision row) 1 with
          | None => Ok (PlanReject RevisionExhausted)
          | Some superseded_revision =>
              Ok (PlanGo (Some supplied_id) (Some (supplied_id, tk_revision row, superseded_revision)))
          end
      | _, _ => Ok (PlanReject InvalidTransition)
      end
  | Creative.Supersede =>
      match tt_related_take r with
      | None => Err SeInternal
      | Some (replacement_id, replacement_revision) =>
          match read_take s replacement_id (tt_work_revision_id r) with
          | None => Ok (PlanReject NotFound)
          | Some row =>
              if bool_decide (replacement_id = tt_take_id r) || negb (tk_revision row =? replacement_revision)
              then Ok (PlanReject Conflict)
              else Ok (PlanGo (Some replacement_id) None)
          end
      end
  | _ => Ok (PlanGo None None)
  end.

(** The writes of the replaced or superseding take. *)
Definition write_related (s : Store) (r : TransitionTakeCommand) (related : option Id)
    (selected_replacement : option (Id * Z * Z)) (first_event relationship_id : Id) (first_sequence : Z)
    (at_ : Timestamp) : result AssetStoreError Store :=
  let b := tt_binding r in
  match selected_replacement with
  | Some (selected_id, selected_revision, superseded_revision) =>
      let? s := update_take s selected_id selected_revision true Creative.Superseded superseded_revision at_ in
      let? s := insert_payload_event s first_event first_sequence b (bs "take.superseded.v1") selected_id
                  superseded_revision (Some (tt_take_id r)) at_ in
      insert_relationship s relationship_id Creative.TakeSupersedes (tt_take_id r) selected_id b at_
  | None =>
      match tt_transition r with
      | Creative.Supersede =>
          let? related := ok_or SeInternal related in
          insert_relationship s relationship_id Creative.TakeSupersedes related (tt_take_id r) b at_
      | _ => Ok s
      end
  end.

Definition transition_event (r : TransitionTakeCommand) (related : option Id) : list byte * option (list byte) :=
  match tt_transition r with
  | Creative.Shortlist => (bs "take.shortlisted.v1", None)
  | Creative.Select => (bs "take.selected.v1", related)
  | Creative.Approve => (bs "take.approved.v1", None)
  | Creative.Reject => (bs "take.rejected.v1", tt_reason r)
  | Creative.Supersede => (bs "take.superseded.v1", related)
  end.

(** Everything after the checks: allocate, write, record, complete. *)
Definition write_transition (s : Store) (r : TransitionTakeCommand) (row : TakeRow) (target : Creative.TakeState)
    (next : Z) (related : option Id) (selected_replacement : option (Id * Z * Z))
    (first_event second_event relationship_id : Id) (at_ : Timestamp) : outcome :=
  let b := tt_binding r in
  let event_count := match selected_replacement with Some _ => 2 | None => 1 end in
  allocate_or_reject s event_count b at_ (fun first_sequence s =>
  let? s := write_related s r related selected_replacement first_event relationship_id first_sequence at_ in
  let? s := update_take s (tt_take_id r) (tk_revision row) false target next at_ in
  let '(event_type, event_payload) := transition_event r related in
  let? s := insert_payload_event s
              (match selected_replacement with Some _ => second_event | None => first_event end)
              (match selected_replacement with Some _ => first_sequence + 1 | None => first_sequence end)
              b event_type (tt_take_id r) next event_payload at_ in
  complete_versioned s b (tt_take_id r)
    (VrTake next (tk_ordinal row) target (tk_primary_asset row) related) at_).

Definition transition_take (s : Store) (context : StoreContext) (r : TransitionTakeCommand) : outcome :=
  let b := tt_binding r in
  unless_replayed s context b (bs "TAKE") (
  let? (first_event, second_event, relationship_id, at_) := with_values (tt_values r) sample3 in
  let? s := insert_claim s context b at_ in
  if negb (take_context_exists s (tt_project_id r) (tt_work_item_id r) (tt_work_revision_id r))
  then commit_rejection s b NotFound at_
  else match read_take s (tt_take_id r) (tt_work_revision_id r) with
  | None => commit_rejection s b NotFound at_
  | Some row =>
      if negb (tk_revision row =? tt_expected_revision r) then commit_rejection s b Conflict at_
      else match Creative.transition (tk_state row) (tt_transition r) with
      | Err _ => commit_rejection s b InvalidTransition at_
      | Ok target =>
          if bool_decide (tt_transition r = Creative.Shortlist) && negb (asset_exists s (tk_primary_asset row))
          then commit_rejection s b NotFound at_
          else match checked_add U64_MAX (tk_revision row) 1 with
          | None => commit_rejection s b RevisionExhausted at_
          | Some next =>
              let? plan := transition_plan s r in
              match plan with
              | PlanReject code => commit_rejection s b code at_
              | PlanGo related selected_replacement =>
                  write_transition s r row target next related selected_replacement
                    first_event second_event relationship_id at_
              end
          end
      end
  end).

Record ReopenTakeCommand := {
  rt_binding : CommandBinding; rt_project_id : Id; rt_work_item_id : Id; rt_work_revision_id : Id;
  rt_terminal_take_id : Id; rt_expected_terminal_revision : Z; rt_new_primary_asset_id : Id;
  rt_values : Values }.

Definition reopen_take (s : Store) (context : StoreContext) (r : ReopenTakeCommand) : outcome :=
  let b := rt_binding r in
  unless_replayed s context b (bs "TAKE") (
  let? (take_id, event_id, relationship_id, at_) := with_values (rt_values r) sample3 in
  let? s := insert_claim s context b at_ in
  if negb (take_context_exists s (rt_project_id r) (rt_work_item_id r) (rt_work_revision_id r))
     || negb (asset_exists s (rt_new_primary_asset_id r))
  then commit_rejection s b NotFound at_
  else match read_take s (rt_terminal_take_id r) (rt_work_revision_id r) with
  | None => commit_rejection s b NotFound at_
  | Some row =>
      if negb (tk_revision row =? rt_expected_terminal_revision r) then commit_rejection s b Conflict at_
      else if negb (Creative.is_terminal (tk_state row))
              || bool_decide (tk_primary_asset row = rt_new_primary_asset_id r)
      then commit_rejection s b InvalidTransition at_
      else ordinal_or_reject s (rt_work_revision_id r) b at_ (fun ordinal =>
      allocate_or_reject s 1 b at_ (fun event_sequence s =>
      let? s := insert_payload_event s event_id event_sequence b (bs "take.reopened.v1") take_id 1
                  (Some (rt_terminal_take_id r)) at_ in
      let? s := insert_take s take_id (rt_work_revision_id r) ordinal Creative.Candidate
                  (rt_new_primary_asset_id r) event_sequence b at_ in
      let? s := insert_relationship s relationship_id Creative.TakeReopens take_id (rt_terminal_take_id r) b at_ in
      complete_versioned s b take_id
        (VrTake 1 ordinal Creative.Candidate (rt_new_primary_asset_id r) (Some (rt_terminal_take_id r))) at_))
  end).

(** ** The unit of work: [CreativeUnitOfWork for SqliteAssetStoreHandle] *)

Inductive CreativeCommand :=
| CreateProject (r : CreateProjectCommand)
| ReviseProjectSpec (r : ReviseProjectSpecCommand)
| CreateSubject (r : CreateSubjectCommand)
| CreateWork (r : CreateWorkCommand)
| ReviseWork (r : ReviseWorkCommand)
| CreateTake (r : CreateTakeCommand)
| TransitionTake (r : TransitionTakeCommand)
| ReopenTake (r : ReopenTakeCommand).

Definition execute (s : Store) (context : StoreContext) (c : CreativeCommand) : outcome :=
  match c with
  | CreateProject r => create_project s context r
  | ReviseProjectSpec r => revise_project_spec s context r
  | CreateSubject r => create_subject s context r
  | CreateWork r => create_work s context r
  | ReviseWork r => revise_work s context r
  | CreateTake r => create_take s context r
  | TransitionTake r => transition_take s context r
  | ReopenTake r => reopen_take s context r
  end.

(** The dropped transaction of a failed command rolls back. *)
Definition after (s : Store) (context : StoreContext) (c : CreativeCommand) : Store :=
  match execute s context c with Ok (_, s') => s' | Err _ => s end.
(** Submitted commands run one after another on the single writer; the context
    changes when the store is reopened. *)
Definition run (s : Store) (cs : list (StoreContext * CreativeCommand)) : Store :=
  fold_left (fun s c => after s c.1 c.2) cs s.

Definition binding_of (c : CreativeCommand) : CommandBinding :=
  match c with
  | CreateProject r => cp_binding r
  | ReviseProjectSpec r => rp_binding r
  | CreateSubject r => cs_binding r
  | CreateWork r => cw_binding r
  | ReviseWork r => rw_binding r
  | CreateTake r => ct_binding r
  | TransitionTake r => tt_binding r
  | ReopenTake r => rt_binding r
  end.
Definition values_of (c : CreativeCommand) : Values :=
  match c with
  | CreateProject r => cp_values r
  | ReviseProjectSpec r => rp_values r
  | CreateSubject r => cs_values r
  | CreateWork r => cw_values r
  | ReviseWork r => rw_values r
  | CreateTake r => ct_values r
  | TransitionTake r => tt_values r
  | ReopenTake r => rt_values r
  end.
(** What each request type's constructor requires of its binding
    ([require_operation]), and the result kind the command replays. *)
Definition operation_of (c : CreativeCommand) : OperationId :=
  match c with
  | CreateProject _ => PROJECT_CREATE_V1
  | ReviseProjectSpec _ => PROJECT_SPEC_REVISE_V1
  | CreateSubject _ => SUBJECT_CREATE_V1
  | CreateWork _ => WORK_CREATE_V1
  | ReviseWork _ => WORK_REVISE_V1
  | CreateTake _ => TAKE_CREATE_V1
  | TransitionTake _ => TAKE_TRANSITION_V1
  | ReopenTake _ => TAKE_REOPEN_V1
  end.
Definition kind_of (c : CreativeCommand) : list byte :=
  match c with
  | CreateProject _ => bs "PROJECT"
  | ReviseProjectSpec _ => bs "PROJECT_SPEC_REVISION"
  | CreateSubject _ => bs "SUBJECT"
  | CreateWork _ => bs "WORK_ITEM"
  | ReviseWork _ => bs "WORK_REVISION"
  | CreateTake _ | TransitionTake _ | ReopenTake _ => bs "TAKE"
  end.
End store.
End Store.
