(* ===== verification/StoreScenario.v ===== *)
(** A concrete store to run the commands on: every 16-byte string is an identity,
    every instant is representable, digests are constant.  The scenario creates a
    project, a work item and two takes, and selects one of them; the witnesses of
    the store's theorems evaluate on it. *)
From Stdlib Require Import ZArith Lia String.
From Stdlib Require Import Strings.Byte Init.Byte.
From stdpp Require Import prelude list gmap.
From S2P Require Import Prelude RustText Types Events AssetDomain CreativeDomain Ports CommandLedger CreativeStore.

Set Warnings "-clear-no-such-hyp".

Module Scenario.
Import Ports Ledger Store.

Definition env : StoreEnv := {|
  id_valid := fun b => bool_decide (length b = 16%nat);
  timestamp_valid := fun _ nanos => (0 <=? nanos) && (nanos <? 1000000000);
  sha256 := fun _ => repeat x00 32 |}.
#[local] Existing Instance env.
#[local] Instance env_laws : StoreEnvLaws env.
Proof. by constructor. Qed.

Definition no_asset_replay (_ : Store) (_ : CommandRow) : result AssetStoreError CommandResult := Err SeStorageCorruption.

Definition id (n : Z) : Id := repeat x00 15 ++ [z2b n].
Definition ctx : StoreContext := {| owner_uid := 1000; runtime_id := id 1 |}.
Definition now : Timestamp := (1700000000, 5).
Definition values (ids : list Z) : Values :=
  {| v_ids := map (fun n => Ok (id n)) ids; v_now := Ok now; v_checkpoint := Ok tt |}.
Definition binding (command : Z) (operation : OperationId) : CommandBinding := {|
  cb_command_id := id command; cb_operation_id := operation; cb_canonical_request_digest := repeat x07 32 |}.

Definition empty : Store := {|
  commands := ∅; last_sequence := 0; events := []; projects := ∅; specs := ∅; subjects := ∅;
  work_items := ∅; work_revisions := ∅; takes := ∅; relationships := []; assets := {[ id 50; id 51 ]} |}.

Definition json : Creative.CanonicalJson :=
  {| Creative.json_bytes := bs "{}"; Creative.json_digest := repeat x00 32 |}.
Definition specification : Creative.ProjectSpecification := {|
  Creative.ps_resolution := None; Creative.ps_frame_rate := None; Creative.ps_aspect_ratio := None;
  Creative.ps_color_policy := json; Creative.ps_audio_policy := json; Creative.ps_quality_policy := json;
  Creative.ps_privacy_policy := json; Creative.ps_policy_digest := repeat x00 32 |}.
Definition work_specification : Creative.WorkSpecification := {|
  Creative.ws_json := json; Creative.ws_subject_ids := []; Creative.ws_asset_ids := [id 50] |}.

Definition create_p : CreativeCommand := CreateProject {|
  cp_binding := binding 10 PROJECT_CREATE_V1; cp_name := bs "Film"; cp_specification := specification;
  cp_values := values [11; 12; 13] |}.
Definition create_w : CreativeCommand := CreateWork {|
  cw_binding := binding 20 WORK_CREATE_V1; cw_project_id := id 11; cw_kind := Creative.Shot; cw_code := bs "S1";
  cw_specification := work_specification; cw_values := values [21; 22; 23; 24] |}.
Definition create_t (command take event : Z) : CreativeCommand := CreateTake {|
  ct_binding := binding command TAKE_CREATE_V1; ct_project_id := id 11; ct_work_item_id := id 21;
  ct_work_revision_id := id 22; ct_primary_asset_id := id 50; ct_values := values [take; event] |}.
Definition transition_t (command take expected : Z) (t : Creative.TakeTransition) (related : option (Id * Z))
    (ids : list Z) : CreativeCommand := TransitionTake {|
  tt_binding := binding command TAKE_TRANSITION_V1; tt_project_id := id 11; tt_work_item_id := id 21;
  tt_work_revision_id := id 22; tt_take_id := id take; tt_expected_revision := expected; tt_transition := t;
  tt_reason := None; tt_related_take := related; tt_values := values ids |}.

Definition run_ (s : Store) (cs : list CreativeCommand) : Store := run no_asset_replay s (map (fun c => (ctx, c)) cs).
Definition with_work : Store := run_ empty [create_p; create_w].
Definition with_takes2 : Store := run_ with_work [create_t 30 31 32; create_t 33 34 35].
Definition with_selected : Store := run_ with_takes2 [transition_t 36 31 1 Creative.Select None [37; 38; 39]].
Definition with_replaced : Store :=
  run_ with_selected [transition_t 40 34 1 Creative.Select (Some (id 31, 2)) [41; 42; 43]].

Lemma scenario_takes :
  omap (fun i => option_map (fun t => (tk_ordinal t, tk_state t, tk_revision t)) (takes with_replaced !! i)) [id 31; id 34]
  = [(1, Creative.Superseded, 3); (2, Creative.Selected, 2)] /\
  map de_sequence (events with_replaced) = [1; 2; 3; 4; 5; 6; 7].
Proof. vm_compute. split; reflexivity. Qed.
End Scenario.
