(* ===== verification/StoreFrame.v ===== *)
(** What a creative command may change: the frame of the store's statements.

    [grows c s s'] says that [s'] is [s] after writes made in the name of the
    command [c]: other commands' rows, events and relationships are untouched,
    rows are added and never removed, and the mutable rows (projects, work items,
    takes) keep their identity columns and move forward.  Every statement of
    [CreativeStore] grows the store, growth composes, and what a completed
    command left behind is still observed after any other command's growth. *)
From Stdlib Require Import ZArith Lia String.
From Stdlib Require Import Strings.Byte Init.Byte.
From stdpp Require Import prelude list gmap relations.
From S2P Require Import Prelude RustText Types Events AssetDomain CreativeDomain Ports CommandLedger CreativeStore.

Set Warnings "-clear-no-such-hyp".

#[global] Create HintDb writes discriminated.

Module Frame.
Import Ports Ledger Store.

(** ** Forward moves of one row *)

Definition project_le (p p' : ProjectRow) : Prop :=
  pj_name p' = pj_name p /\ pj_creation_sequence p' = pj_creation_sequence p /\ pj_command p' = pj_command p /\
  pj_created_at p' = pj_created_at p /\ pj_revision p <= pj_revision p'.
Definition work_item_le (w w' : WorkItemRow) : Prop :=
  wi_project w' = wi_project w /\ wi_kind w' = wi_kind w /\ wi_code w' = wi_code w /\
  wi_creation_sequence w' = wi_creation_sequence w /\ wi_command w' = wi_command w /\
  wi_created_at w' = wi_created_at w /\ wi_revision w <= wi_revision w'.

(** One edge of the take state machine. *)
Definition take_edge (a b : Creative.TakeState) : Prop := exists t, Creative.transition a t = Ok b.
(** A take moves one edge and one revision at a time. *)
Definition take_step (t t' : TakeRow) : Prop :=
  tk_work_revision t' = tk_work_revision t /\ tk_ordinal t' = tk_ordinal t /\
  tk_primary_asset t' = tk_primary_asset t /\ tk_creation_sequence t' = tk_creation_sequence t /\
  tk_command t' = tk_command t /\ tk_created_at t' = tk_created_at t /\
  take_edge (tk_state t) (tk_state t') /\ tk_revision t' = tk_revision t + 1.
Definition take_le : relation TakeRow := rtc take_step.

#[global] Instance project_le_preorder : PreOrder project_le.
Proof. split; red; unfold project_le; intuition (congruence || lia). Qed.
#[global] Instance work_item_le_preorder : PreOrder work_item_le.
Proof. split; red; unfold work_item_le; intuition (congruence || lia). Qed.

Lemma take_le_facts t t' :
  take_le t t' ->
  tk_work_revision t' = tk_work_revision t /\ tk_ordinal t' = tk_ordinal t /\
  tk_primary_asset t' = tk_primary_asset t /\ tk_revision t <= tk_revision t'.
Proof. induction 1 as [|a b c Hab _ IH]; [by split_and!; try lia|]. destruct Hab; destruct_and!; split_and!; congruence || lia. Qed.

Lemma terminal_no_edge a b : Creative.is_terminal a = true -> ~ take_edge a b.
Proof. intros Ha [t Ht]. by destruct a, t. Qed.

Lemma take_le_terminal t t' : Creative.is_terminal (tk_state t) = true -> take_le t t' -> t' = t.
Proof. intros Ht. destruct 1 as [|a b c Hab _]; [done|]. destruct Hab; destruct_and!. exfalso. by eapply terminal_no_edge. Qed.

(** ** Growth of tables *)

Definition map_grows {V} (R : V -> V -> Prop) (m m' : gmap Id V) : Prop :=
  forall k v, m !! k = Some v -> exists v', m' !! k = Some v' /\ R v v'.
Definition list_grows {V} (P : V -> Prop) (l l' : list V) : Prop := exists new, l' = l ++ new /\ Forall P new.

#[global] Instance map_grows_preorder {V} (R : V -> V -> Prop) `{!PreOrder R} : PreOrder (map_grows R).
Proof.
  split; [by intros m k v ?; exists v|].
  intros a b c H1 H2 k v Hv. destruct (H1 _ _ Hv) as (v1 & Hv1 & ?). destruct (H2 _ _ Hv1) as (v2 & ? & ?).
  exists v2. split; [done|]. by etrans.
Qed.
#[global] Instance list_grows_preorder {V} (P : V -> Prop) : PreOrder (list_grows P).
Proof.
  split; [intros l; exists []; by rewrite app_nil_r|].
  intros a b c (n1 & -> & ?) (n2 & -> & ?). exists (n1 ++ n2). by rewrite app_assoc, Forall_app.
Qed.

Lemma map_grows_fresh {V} (R : V -> V -> Prop) `{!PreOrder R} m k v :
  m !! k = None -> map_grows R m (<[k:=v]> m).
Proof. intros Hk k' v' Hv. exists v'. rewrite lookup_insert_ne by congruence. by split. Qed.
Lemma map_grows_update {V} (R : V -> V -> Prop) `{!PreOrder R} m k v v' :
  m !! k = Some v -> R v v' -> map_grows R m (<[k:=v']> m).
Proof.
  intros Hk HR k' w Hw. destruct (decide (k = k')) as [<-|].
  - exists v'. rewrite lookup_insert_eq. by simplify_eq.
  - exists w. by rewrite lookup_insert_ne.
Qed.
Lemma list_grows_one {V} (P : V -> Prop) l x : P x -> list_grows P l (l ++ [x]).
Proof. intros. exists [x]. split; [done|]. by constructor. Qed.

(** Events are appended with consecutive commit sequences only. *)
Record grows (c : Id) (s s' : Store) : Prop := {
  g_commands : forall k, k <> c -> commands s' !! k = commands s !! k;
  g_sequence : last_sequence s <= last_sequence s';
  g_events : list_grows (fun e => de_command_id e = c) (events s) (events s');
  g_projects : map_grows project_le (projects s) (projects s');
  g_specs : map_grows eq (specs s) (specs s');
  g_subjects : map_grows eq (subjects s) (subjects s');
  g_work_items : map_grows work_item_le (work_items s) (work_items s');
  g_work_revisions : map_grows eq (work_revisions s) (work_revisions s');
  g_takes : map_grows take_le (takes s) (takes s');
  g_relationships : list_grows (fun r => rl_command r = c) (relationships s) (relationships s');
  g_assets : assets s' = assets s }.

#[global] Instance grows_preorder c : PreOrder (grows c).
Proof.
  split.
  - intros s. constructor; reflexivity || done.
  - intros a b d [] []. constructor; try (etrans; eassumption); try congruence.
    intros k Hk. by rewrite g_commands1, g_commands0.
Qed.

(** Growth that leaves the command ledger alone. *)
Definition writes (c : Id) (s s' : Store) : Prop := grows c s s' /\ commands s' = commands s.
#[global] Instance writes_preorder c : PreOrder (writes c).
Proof.
  split; [by intros s; split|]. intros x y z [? ?] [? ?]. split; [by etrans|congruence].
Qed.

Ltac table_grows :=
  try (split; [|reflexivity]); constructor; cbn; try reflexivity; try done; try lia;
  try (intros ? ?; first [reflexivity | by rewrite lookup_insert_ne | by rewrite lookup_alter_ne]).

Section statements.
Context `{StoreEnv}.

Lemma insert_claim_grows s ctx b at_ s' :
  insert_claim s ctx b at_ = Ok s' -> grows (cb_command_id b) s s'.
Proof. unfold insert_claim. case_match; [done|]. intros [= <-]. table_grows. Qed.

Lemma allocate_inv s n q s' :
  allocate_event_sequences s n = Ok (q, s') ->
  last_sequence s + n <= I64_MAX /\ q = last_sequence s + 1 /\ s' = with_last_sequence s (last_sequence s + n).
Proof. unfold allocate_event_sequences. case_match eqn:E; [|done]. intros [= <- <-]. bool_hyps. split_and!; try done. lia. Qed.

Lemma allocate_writes c s n q s' : allocate_event_sequences s n = Ok (q, s') -> writes c s s'.
Proof. unfold allocate_event_sequences. case_match eqn:E; [|done]. intros [= <- <-]. bool_hyps. table_grows. Qed.

Lemma insert_event_writes s e s' : insert_event s e = Ok s' -> writes (de_command_id e) s s'.
Proof. unfold insert_event. case_match; [done|]. intros [= <-]. table_grows. by apply list_grows_one. Qed.

Lemma insert_domain_event_writes s i q b t k a r at_ s' :
  insert_domain_event s i q b t k a r at_ = Ok s' -> writes (cb_command_id b) s s'.
Proof. apply insert_event_writes. Qed.

Lemma insert_payload_event_writes s i q b t a r p at_ s' :
  insert_payload_event s i q b t a r p at_ = Ok s' -> writes (cb_command_id b) s s'.
Proof. unfold insert_payload_event. intros Hp. apply result_bind_ok in Hp as (? & _ & Hp). by apply insert_event_writes in Hp. Qed.

Lemma insert_spec_writes s i p q c at_ sp s' :
  insert_project_specification s i p q c at_ sp = Ok s' -> writes c s s'.
Proof.
  unfold insert_project_specification. case_match; [done|]. case_match; [done|]. intros [= <-]. table_grows.
  by apply map_grows_fresh; [apply _|].
Qed.

Lemma insert_project_writes c s i row s' : insert_project s i row = Ok s' -> writes c s s'.
Proof. unfold insert_project. case_match; [done|]. intros [= <-]. table_grows. by apply map_grows_fresh; [apply _|]. Qed.

Lemma insert_subject_writes c s i row s' : insert_subject s i row = Ok s' -> writes c s s'.
Proof. unfold insert_subject. case_match; [done|]. intros [= <-]. table_grows. by apply map_grows_fresh; [apply _|]. Qed.

Lemma insert_work_item_writes c s i row s' : insert_work_item s i row = Ok s' -> writes c s s'.
Proof.
  unfold insert_work_item. case_match; [done|]. case_match; [done|]. intros [= <-]. table_grows.
  by apply map_grows_fresh; [apply _|].
Qed.

Lemma insert_relationship_row_writes s e s' : insert_relationship_row s e = Ok s' -> writes (rl_command e) s s'.
Proof. unfold insert_relationship_row. case_match; [done|]. intros [= <-]. table_grows. by apply list_grows_one. Qed.

Lemma insert_relationship_writes s i k x y b at_ s' :
  insert_relationship s i k x y b at_ = Ok s' -> writes (cb_command_id b) s s'.
Proof. apply insert_relationship_row_writes. Qed.

Lemma insert_work_relationships_writes s k w targets ids b at_ s' more :
  insert_work_relationships s k w targets ids b at_ = Ok (s', more) -> writes (cb_command_id b) s s'.
Proof.
  revert s ids. induction targets as [|t rest IH]; intros s ids Hi; cbn in Hi; [by inv_result|].
  case_match; [done|]. apply result_bind_ok in Hi as (s1 & H1 & Hi).
  etrans; [by eapply insert_relationship_writes|by eapply IH].
Qed.

Lemma insert_work_revision_writes s i w q b at_ sp ids s' :
  insert_work_revision s i w q b at_ sp ids = Ok s' -> writes (cb_command_id b) s s'.
Proof.
  unfold insert_work_revision. case_match eqn:E; [done|]. case_match; [done|]. intros Hi.
  apply result_bind_ok in Hi as ([s1 m1] & H1 & Hi). apply result_bind_ok in Hi as ([s2 m2] & H2 & Hi).
  destruct m2; [injection Hi as <-|done].
  etrans; [|etrans; [exact (insert_work_relationships_writes _ _ _ _ _ _ _ _ _ H1)
                    |exact (insert_work_relationships_writes _ _ _ _ _ _ _ _ _ H2)]].
  table_grows. by apply map_grows_fresh; [apply _|].
Qed.

Lemma insert_take_writes c s i w o st a q b at_ s' : insert_take s i w o st a q b at_ = Ok s' -> writes c s s'.
Proof.
  unfold insert_take. case_match; [done|]. case_match; [done|]. intros [= <-]. table_grows.
  by apply map_grows_fresh; [apply _|].
Qed.

Lemma update_project_writes c s p sp next cur at_ s' :
  update_project s p sp next cur at_ = Ok s' -> cur <= next -> writes c s s'.
Proof.
  unfold update_project. case_match eqn:E; [|done]. case_match; [|done]. intros [= <-] Hle. bool_hyps. table_grows.
  eapply map_grows_update; [apply _|done|]. unfold project_le; cbn. split_and!; try done; lia.
Qed.

Lemma update_work_item_writes c s w i p next cur at_ s' :
  update_work_item s w i p next cur at_ = Ok s' -> cur <= next -> writes c s s'.
Proof.
  unfold update_work_item. case_match eqn:E; [|done]. case_match; [|done]. intros [= <-] Hle. bool_hyps. table_grows.
  eapply map_grows_update; [apply _|done|]. unfold work_item_le; cbn. split_and!; try done; lia.
Qed.

(** An update of a take is growth when it follows an edge and bumps the revision. *)
Lemma update_take_inv s i expected only st rev at_ s' :
  update_take s i expected only st rev at_ = Ok s' ->
  exists r, takes s !! i = Some r /\ tk_revision r = expected /\ (only = true -> tk_state r = Creative.Selected) /\
    selected_clash s i (moved_take r st rev at_) = false /\
    s' = with_takes s (<[i := moved_take r st rev at_]> (takes s)).
Proof.
  unfold update_take. case_match eqn:E; [|done]. case_match eqn:E2; [|done]. case_match eqn:E3; [done|].
  intros [= <-]. bool_hyps. eexists. split_and!; try done. intros ->.
  rewrite orb_false_l in *. bool_hyps. done.
Qed.

Lemma update_take_writes c s i expected only st at_ r s' :
  update_take s i expected only st (expected + 1) at_ = Ok s' ->
  takes s !! i = Some r -> take_edge (tk_state r) st -> writes c s s'.
Proof.
  intros Hu Hr Hedge. apply update_take_inv in Hu as (r' & Hr' & Hexp & _ & _ & ->). simplify_eq. table_grows.
  eapply map_grows_update; [apply _|done|]. apply rtc_once. unfold take_step; cbn. by split_and!.
Qed.

Lemma commit_rejection_grows s b code at_ o s' :
  commit_rejection s b code at_ = Ok (o, s') -> grows (cb_command_id b) s s'.
Proof. intros [= <- <-]. table_grows. Qed.
End statements.

(** ** What a fresh command leaves in the ledger *)

Section settling.
Context `{StoreEnv}.

Definition rejected_claim (ctx : StoreContext) (b : CommandBinding) (at_ : Timestamp) (code : ErrorCode) : CommandRow :=
  rejected_row (claim_row ctx b at_) code at_.
Definition completed_claim (ctx : StoreContext) (b : CommandBinding) (at_ : Timestamp) (primary : Id)
    (payload : VersionedResultPayload) : CommandRow :=
  completed_row (claim_row ctx b at_) primary payload at_.

(** The row of an applied command validates and replays to the result that was
    returned; the row of a rejected one carries the code. *)
Definition settled (ctx : StoreContext) (b : CommandBinding) (kind : list byte) (at_ : Timestamp)
    (o : MutationOutcome) (s : Store) : Prop :=
  match o with
  | Applied r => exists primary payload,
      let row := completed_claim ctx b at_ primary payload in
      commands s !! cb_command_id b = Some row /\ result_kind payload = kind /\
      validate_command_row row = Ok row /\ replay_creative_result s row = Ok r
  | TerminalRejected code =>
      commands s !! cb_command_id b = Some (rejected_claim ctx b at_ code) /\ is_pure_rejection_code code = true
  | Replay _ | RecoveryRequired _ => False
  end.

Context (ctx : StoreContext) (b : CommandBinding) (kind : list byte) (at_ : Timestamp).
Local Abbreviation c := (cb_command_id b).

(** [settles s out]: whatever the rest [out] of a transaction commits from the
    claimed store [s] grows [s] and is settled. *)
Definition settles (s : Store) (out : outcome) : Prop :=
  commands s !! c = Some (claim_row ctx b at_) ->
  forall o s', out = Ok (o, s') -> grows c s s' /\ settled ctx b kind at_ o s'.

Lemma settles_err s e : settles s (Err e).
Proof. by intros _ o s'. Qed.

Lemma settles_reject s code : is_pure_rejection_code code = true -> settles s (commit_rejection s b code at_).
Proof.
  intros Hc Hclaim o s' Ho. pose proof (commit_rejection_grows _ _ _ _ _ _ Ho) as Hg. split; [done|].
  injection Ho as <- <-. cbn. split; [|done]. rewrite lookup_alter_eq, Hclaim. done.
Qed.

Lemma complete_versioned_inv s primary payload o s' :
  complete_versioned s b primary payload at_ = Ok (o, s') ->
  exists row r, commands s !! c = Some row /\ c_state row = CLAIMED /\
    let row' := completed_row row primary payload at_ in
    s' = with_commands s (<[c := row']> (commands s)) /\ validate_command_row row' = Ok row' /\
    replay_creative_result s' row' = Ok r /\ o = Applied r.
Proof.
  unfold complete_versioned. destruct (commands s !! c) as [row|] eqn:E; [|done]. case_match eqn:E2; [|done]. intros Hk.
  apply result_bind_ok in Hk as (row1 & H1 & Hk). apply result_bind_ok in Hk as (row2 & H2 & Hk).
  apply result_bind_ok in Hk as (r & H3 & Hk). injection Hk as <- <-. apply ok_or_ok in H1.
  unfold read_command in H1. cbn in H1. rewrite lookup_insert_eq in H1. injection H1 as <-. bool_hyps.
  assert (row2 = completed_row row primary payload at_) as ->.
  { unfold validate_command_row in H2. inv_result. done. }
  eexists _, r. by split_and!.
Qed.

Lemma settles_complete s primary payload :
  result_kind payload = kind -> settles s (complete_versioned s b primary payload at_).
Proof.
  intros Hk Hclaim o s' Ho. apply complete_versioned_inv in Ho as (row & r & Hrow & _ & -> & Hv & Hr & ->).
  simplify_eq. split; [by table_grows|]. exists primary, payload. cbn. by rewrite lookup_insert_eq.
Qed.

Lemma settles_write s (m : result AssetStoreError Store) k :
  (forall s2, m = Ok s2 -> writes c s s2 /\ settles s2 (k s2)) -> settles s (result_bind m k).
Proof.
  intros Hm Hclaim o s' Hk. apply result_bind_ok in Hk as (s2 & H2 & Hk).
  destruct (Hm _ H2) as [[Hg Hc] Hs]. destruct (Hs ltac:(by rewrite Hc) _ _ Hk). split; [by etrans|done].
Qed.

Lemma settles_allocate s n k :
  (forall q s2, allocate_event_sequences s n = Ok (q, s2) -> settles s2 (k q s2)) ->
  settles s (allocate_or_reject s n b at_ k).
Proof.
  intros Hk Hclaim o s' Ho. unfold allocate_or_reject in Ho.
  destruct (allocate_event_sequences s n) as [[q s2]|e] eqn:E.
  - destruct (allocate_writes c _ _ _ _ E) as [Hg Hc]. destruct (Hk _ _ eq_refl ltac:(by rewrite Hc) _ _ Ho).
    split; [by etrans|done].
  - destruct e; try done. exact (settles_reject s RevisionExhausted eq_refl Hclaim _ _ Ho).
Qed.

Lemma settles_bind {A} s (m : result AssetStoreError A) k :
  (forall x, m = Ok x -> settles s (k x)) -> settles s (result_bind m k).
Proof. intros Hm Hclaim o s' Hk. apply result_bind_ok in Hk as (x & Hx & Hk). by eapply Hm. Qed.

Lemma settles_ordinal s w k :
  (forall n, next_take_ordinal s w = Ok n -> settles s (k n)) -> settles s (ordinal_or_reject s w b at_ k).
Proof.
  intros Hk. unfold ordinal_or_reject. destruct (next_take_ordinal s w) as [n|e] eqn:E; [by apply Hk|].
  destruct e; try apply settles_err. by apply settles_reject.
Qed.

(** A command that was not replayed ran on a free identity and settled it. *)
Definition fresh_effect (s : Store) (o : MutationOutcome) (s' : Store) : Prop :=
  commands s !! c = None /\ grows c s s' /\ settled ctx b kind at_ o s'.

Lemma claim_settles s s1 out o s' :
  insert_claim s ctx b at_ = Ok s1 -> settles s1 out -> out = Ok (o, s') -> fresh_effect s o s'.
Proof.
  intros Hcl Hs Ho. pose proof (insert_claim_grows _ _ _ _ _ Hcl) as Hg. unfold insert_claim in Hcl.
  case_match eqn:E; [done|]. injection Hcl as <-.
  destruct (Hs ltac:(by cbn; rewrite lookup_insert_eq) _ _ Ho). split_and!; [done|by etrans|done].
Qed.
End settling.

(** Settle the rest of a transaction, statement by statement. *)
Ltac settle_step :=
  first
    [ apply settles_err
    | apply settles_reject; reflexivity
    | apply settles_complete; reflexivity
    | apply settles_write; intros ? ?; split; [by eauto 3 with writes|]
    | apply settles_allocate; intros ? ? ?
    | apply settles_ordinal; intros ? ?
    | progress cbv zeta
    | case_match ].
#[global] Hint Resolve allocate_writes insert_domain_event_writes insert_payload_event_writes insert_spec_writes
  insert_project_writes insert_subject_writes insert_work_item_writes insert_relationship_writes
  insert_work_revision_writes insert_take_writes : writes.

(** ** Transitions of takes *)

Lemma selected_other_Some s w i j r :
  selected_other s w i = Some (j, r) ->
  takes s !! j = Some r /\ j <> i /\ tk_work_revision r = w /\ tk_state r = Creative.Selected.
Proof.
  unfold selected_other. intros Hh. apply head_Some_elem_of in Hh. apply list_elem_of_filter in Hh as [(?&?&?) Hin].
  apply elem_of_map_to_list in Hin. by cbn in *.
Qed.

Lemma selected_other_None s w i j r :
  selected_other s w i = None -> takes s !! j = Some r -> j <> i -> tk_work_revision r = w ->
  tk_state r <> Creative.Selected.
Proof.
  unfold selected_other. intros Hn Hj Hne Hw Hs. apply head_None in Hn.
  assert (Hin : (j, r) ∈ filter (fun kv => kv.1 <> i /\ tk_work_revision kv.2 = w /\ tk_state kv.2 = Creative.Selected)
                  (map_to_list (takes s))).
  { apply list_elem_of_filter. cbn. split; [by split_and!|]. by apply elem_of_map_to_list. }
  rewrite Hn in Hin. by apply not_elem_of_nil in Hin.
Qed.

(** What a plan that goes ahead has checked. *)
Definition plan_checked (s : Store) (r : TransitionTakeCommand) (related : option Id) (repl : option (Id * Z * Z)) : Prop :=
  match tt_transition r, repl with
  | Creative.Select, Some (sid, srev, snext) =>
      related = Some sid /\ tt_related_take r = Some (sid, srev) /\ snext = srev + 1 /\ snext <= U64_MAX /\
      exists row, selected_other s (tt_work_revision_id r) (tt_take_id r) = Some (sid, row) /\ tk_revision row = srev
  | Creative.Select, None =>
      related = None /\ tt_related_take r = None /\ selected_other s (tt_work_revision_id r) (tt_take_id r) = None
  | Creative.Supersede, None => exists rid rrev row,
      related = Some rid /\ tt_related_take r = Some (rid, rrev) /\ rid <> tt_take_id r /\
      read_take s rid (tt_work_revision_id r) = Some row /\ tk_revision row = rrev
  | _, None => related = None
  | _, Some _ => False
  end.

Lemma transition_plan_go s r related repl :
  transition_plan s r = Ok (PlanGo related repl) <-> plan_checked s r related repl.
Proof.
  unfold transition_plan, plan_checked. split.
  - destruct (tt_transition r); try by intros [= <- <-].
    + repeat case_match; intros Hp; simplify_eq; try done.
      bool_hyps. match goal with E : checked_add _ _ _ = Some _ |- _ => apply checked_add_Some in E as [-> ?] end.
      subst. split_and!; try done. by eexists.
    + repeat case_match; intros Hp; simplify_eq; try done. bool_hyps. by eexists _, _, _.
  - destruct (tt_transition r); try (destruct repl as [[[]]|]; naive_solver).
    + destruct repl as [[[sid srev] snext]|].
      * intros (-> & Hrel & -> & Hmax & row & Hsel & <-). rewrite Hsel, Hrel.
        rewrite bool_decide_eq_true_2, Z.eqb_refl by done. cbn.
        by rewrite (proj2 (checked_add_Some _ _ _ (tk_revision row + 1))).
      * by intros (-> & -> & ->).
    + destruct repl as [[[]]|]; [done|]. intros (rid & rrev & row & -> & -> & Hne & -> & <-).
      by rewrite bool_decide_eq_false_2, Z.eqb_refl by done.
Qed.

Lemma transition_plan_reject s r code :
  transition_plan s r = Ok (PlanReject code) -> is_pure_rejection_code code = true.
Proof. unfold transition_plan. repeat case_match; intros; by simplify_eq. Qed.

Lemma read_take_Some s i w row : read_take s i w = Some row <-> takes s !! i = Some row /\ tk_work_revision row = w.
Proof.
  unfold read_take. split; [|intros [-> <-]; by rewrite bool_decide_eq_true_2].
  repeat case_match; try done. intros [= <-]. by bool_hyps.
Qed.

Section commands.
Context `{StoreEnv} (replay_asset_result : Store -> CommandRow -> result AssetStoreError CommandResult).
Local Abbreviation replay_existing := (replay_existing replay_asset_result).
Local Abbreviation unless_replayed := (unless_replayed replay_asset_result).
Local Abbreviation execute := (execute replay_asset_result).

(** Every accepted command either answers from the ledger and changes nothing, or
    settles a fresh identity. *)
Definition effect (s : Store) (ctx : StoreContext) (b : CommandBinding) (values : Values) (kind : list byte)
    (o : MutationOutcome) (s' : Store) : Prop :=
  (replay_existing s ctx b kind = Ok (Some o) /\ s' = s) \/
  exists at_, v_now values = Ok at_ /\ fresh_effect ctx b kind at_ s o s'.

Lemma with_values_now {A} values (sample : _ -> result AssetStoreError A) ids at_ :
  with_values values sample = Ok (ids, at_) -> v_now values = Ok at_.
Proof.
  unfold with_values. intros Hw. apply result_bind_ok in Hw as (? & _ & Hw). apply result_bind_ok in Hw as (? & Hn & Hw).
  apply result_bind_ok in Hw as (? & _ & Hw). by injection Hw as <- <-.
Qed.

Lemma unless_replayed_effect s ctx b values kind body o s' :
  (body = Ok (o, s') -> exists at_, v_now values = Ok at_ /\ fresh_effect ctx b kind at_ s o s') ->
  unless_replayed s ctx b kind body = Ok (o, s') -> effect s ctx b values kind o s'.
Proof.
  unfold Store.unless_replayed. intros Hb Hu. apply result_bind_ok in Hu as ([o1|] & Hr & Hu).
  - left. by injection Hu as <- <-.
  - right. by apply Hb.
Qed.

(** Open a command up to its claimed store. *)
Ltac open_command :=
  apply unless_replayed_effect; let Hb := fresh "Hb" in intros Hb;
  apply result_bind_ok in Hb; let at_ := fresh "at_" in destruct Hb as ([? at_] & ? & Hb);
  repeat match goal with x : (_ * _)%type |- _ => destruct x end;
  let s1 := fresh "s1" in let Hcl := fresh "Hcl" in
  apply result_bind_ok in Hb; destruct Hb as (s1 & Hcl & Hb);
  exists at_; split; [by eapply with_values_now|]; eapply claim_settles; [exact Hcl| |exact Hb]; clear Hb.
Ltac next_revision_lia :=
  match goal with E : checked_add _ _ _ = Some _ |- _ => apply checked_add_Some in E; lia end.

Lemma create_project_effect s ctx r o s' :
  create_project replay_asset_result s ctx r = Ok (o, s') -> effect s ctx (cp_binding r) (cp_values r) (bs "PROJECT") o s'.
Proof. open_command. repeat settle_step. Qed.

Lemma revise_project_spec_effect s ctx r o s' :
  revise_project_spec replay_asset_result s ctx r = Ok (o, s') ->
  effect s ctx (rp_binding r) (rp_values r) (bs "PROJECT_SPEC_REVISION") o s'.
Proof.
  open_command. repeat settle_step.
  apply settles_write; intros ? ?. split; [|repeat settle_step].
  eapply update_project_writes; [done|]. next_revision_lia.
Qed.

Lemma create_subject_effect s ctx r o s' :
  create_subject replay_asset_result s ctx r = Ok (o, s') -> effect s ctx (cs_binding r) (cs_values r) (bs "SUBJECT") o s'.
Proof. open_command. repeat settle_step. Qed.

Lemma create_work_effect s ctx r o s' :
  create_work replay_asset_result s ctx r = Ok (o, s') -> effect s ctx (cw_binding r) (cw_values r) (bs "WORK_ITEM") o s'.
Proof. open_command. repeat settle_step. Qed.

Lemma revise_work_effect s ctx r o s' :
  revise_work replay_asset_result s ctx r = Ok (o, s') -> effect s ctx (rw_binding r) (rw_values r) (bs "WORK_REVISION") o s'.
Proof.
  open_command. repeat settle_step.
  apply settles_write; intros ? ?. split; [|repeat settle_step].
  eapply update_work_item_writes; [done|]. next_revision_lia.
Qed.

Lemma create_take_effect s ctx r o s' :
  create_take replay_asset_result s ctx r = Ok (o, s') -> effect s ctx (ct_binding r) (ct_values r) (bs "TAKE") o s'.
Proof. open_command. repeat settle_step. Qed.

Lemma reopen_take_effect s ctx r o s' :
  reopen_take replay_asset_result s ctx r = Ok (o, s') -> effect s ctx (rt_binding r) (rt_values r) (bs "TAKE") o s'.
Proof. open_command. repeat settle_step. Qed.

Lemma insert_payload_event_takes s i q b t a r p at_ s' :
  insert_payload_event s i q b t a r p at_ = Ok s' -> takes s' = takes s.
Proof.
  unfold insert_payload_event, insert_event. intros Hp. apply result_bind_ok in Hp as (? & _ & Hp).
  case_match; [done|]. by injection Hp as <-.
Qed.
Lemma insert_relationship_takes s i k x y b at_ s' :
  insert_relationship s i k x y b at_ = Ok s' -> takes s' = takes s.
Proof. unfold insert_relationship, insert_relationship_row. case_match; [done|]. by intros [= <-]. Qed.

(** The writes to the related take leave the transitioned take as it was. *)
Lemma write_related_writes s r related repl e1 rel q at_ s' :
  plan_checked s r related repl -> write_related s r related repl e1 rel q at_ = Ok s' ->
  writes (cb_command_id (tt_binding r)) s s' /\ takes s' !! tt_take_id r = takes s !! tt_take_id r.
Proof.
  unfold plan_checked, write_related. intros Hplan Hw. destruct repl as [[[sid srev] snext]|].
  - destruct (tt_transition r); try done. destruct Hplan as (-> & _ & -> & _ & row & Hsel & Hrev).
    apply selected_other_Some in Hsel as (Hsid & Hne & _ & Hst).
    apply result_bind_ok in Hw as (s2 & H2 & Hw). apply result_bind_ok in Hw as (s3 & H3 & Hw). split.
    + etrans; [|etrans; [by eapply insert_payload_event_writes|by eapply insert_relationship_writes]].
      subst srev. eapply update_take_writes; [exact H2|exact Hsid|]. exists Creative.Supersede. by rewrite Hst.
    + rewrite (insert_relationship_takes _ _ _ _ _ _ _ _ Hw), (insert_payload_event_takes _ _ _ _ _ _ _ _ _ _ H3).
      apply update_take_inv in H2 as (? & _ & _ & _ & _ & ->). cbn. by rewrite lookup_insert_ne.
  - destruct (tt_transition r); try (injection Hw as <-; by split).
    apply result_bind_ok in Hw as (rid & _ & Hw). split; [by eapply insert_relationship_writes|].
    by rewrite (insert_relationship_takes _ _ _ _ _ _ _ _ Hw).
Qed.

Lemma transition_take_effect s ctx r o s' :
  transition_take replay_asset_result s ctx r = Ok (o, s') -> effect s ctx (tt_binding r) (tt_values r) (bs "TAKE") o s'.
Proof.
  open_command. repeat settle_step.
  match goal with E : read_take _ _ _ = Some _ |- _ => apply read_take_Some in E as [Hrow _] end.
  apply settles_bind. intros [code|related repl] Hplan.
  { eapply settles_reject, transition_plan_reject, Hplan. }
  apply transition_plan_go in Hplan. apply settles_allocate. intros q s2 Ha. apply allocate_inv in Ha as (_ & _ & ->).
  apply settles_write. intros s3 Hrel.
  apply write_related_writes in Hrel as [Hw Htake]; [|exact Hplan]. split; [done|].
  apply settles_write. intros s4 Hup. split; [|repeat settle_step].
  match goal with E : checked_add _ _ _ = Some _ |- _ => apply checked_add_Some in E as [-> _] end.
  eapply update_take_writes; [exact Hup|by rewrite Htake|by eexists].
Qed.

Theorem execute_effect s ctx c o s' :
  execute s ctx c = Ok (o, s') -> effect s ctx (binding_of c) (values_of c) (kind_of c) o s'.
Proof.
  destruct c; cbn [Store.execute binding_of values_of kind_of];
    eauto using create_project_effect, revise_project_spec_effect, create_subject_effect, create_work_effect,
      revise_work_effect, create_take_effect, transition_take_effect, reopen_take_effect.
Qed.

(** The answer alone determines the store that is left. *)
Definition answer (s : Store) (ctx : StoreContext) (c : CreativeCommand) : result AssetStoreError MutationOutcome :=
  let? (o, _) := execute s ctx c in Ok o.
Lemma execute_answer s ctx c o :
  answer s ctx c = Ok o -> execute s ctx c = Ok (o, after replay_asset_result s ctx c).
Proof. unfold answer, after. destruct (execute s ctx c) as [[]|]; cbn; [by intros [= ->]|done]. Qed.

(** A recorded answer is returned without touching the store. *)
Lemma execute_replayed s ctx c o :
  replay_existing s ctx (binding_of c) (kind_of c) = Ok (Some o) -> execute s ctx c = Ok (o, s).
Proof. destruct c; cbn [binding_of kind_of]; intros Hr; cbn; unfold create_project, revise_project_spec, create_subject,
    create_work, revise_work, create_take, transition_take, reopen_take, Store.unless_replayed; rewrite Hr; done. Qed.

Lemma execute_refused s ctx c e :
  replay_existing s ctx (binding_of c) (kind_of c) = Err e -> execute s ctx c = Err e.
Proof. destruct c; cbn [binding_of kind_of]; intros Hr; cbn; unfold create_project, revise_project_spec, create_subject,
    create_work, revise_work, create_take, transition_take, reopen_take, Store.unless_replayed; rewrite Hr; done. Qed.
End commands.
End Frame.
