(* ===== verification/StoreSteps.v ===== *)
(** Symbolic execution of the creative commands: inversion of every statement into
    the explicit store it leaves, and a tactic that runs a whole command. *)
From Stdlib Require Import ZArith Lia String.
From Stdlib Require Import Strings.Byte Init.Byte.
From stdpp Require Import prelude list gmap relations.
From S2P Require Import Prelude RustText Types Events AssetDomain CreativeDomain Ports CommandLedger CreativeStore StoreFrame.

Set Warnings "-clear-no-such-hyp".

Module Steps.
Import Ports Ledger Store Frame.

Section inversions.
Context `{StoreEnv}.

Lemma insert_claim_inv s ctx b at_ s' :
  insert_claim s ctx b at_ = Ok s' ->
  commands s !! cb_command_id b = None /\
  s' = with_commands s (<[cb_command_id b := claim_row ctx b at_]> (commands s)).
Proof. unfold insert_claim. case_match; [done|]. by intros [= <-]. Qed.

Lemma insert_event_inv s e s' :
  insert_event s e = Ok s' ->
  Forall (fun d => de_id d <> de_id e /\ de_sequence d <> de_sequence e) (events s) /\
  s' = with_events s (events s ++ [e]).
Proof.
  unfold insert_event. case_match eqn:E; [done|]. intros [= <-]. apply orb_false_iff in E as [E _]. split; [|done].
  apply Forall_forall. intros d Hd. assert (~ (bool_decide (de_id d = de_id e) || (de_sequence d =? de_sequence e)) = true) as Hn.
  { intros Hx. rewrite (proj2 (existsb_exists _ _)) in E; [done|]. exists d. split; [by apply list_elem_of_In|done]. }
  rewrite orb_true_iff, bool_decide_eq_true, Z.eqb_eq in Hn. tauto.
Qed.

Definition domain_event (i : Id) (q : Z) (b : CommandBinding) (t k : list byte) (a : Id) (r : Z) (at_ : Timestamp) : DomainEvent := {|
  de_id := i; de_sequence := q; de_command_id := cb_command_id b; de_type := t; de_aggregate_kind := k;
  de_aggregate_id := a; de_aggregate_revision := r; de_payload := None; de_payload_sha256 := None; de_at := at_ |}.
Lemma insert_domain_event_inv s i q b t k a r at_ s' :
  insert_domain_event s i q b t k a r at_ = Ok s' ->
  s' = with_events s (events s ++ [domain_event i q b t k a r at_]).
Proof. intros Hi. by apply insert_event_inv in Hi as [_ ->]. Qed.

Definition payload_event (i : Id) (q : Z) (b : CommandBinding) (t : list byte) (a : Id) (r : Z) (p : option (list byte))
    (at_ : Timestamp) : DomainEvent := {|
  de_id := i; de_sequence := q; de_command_id := cb_command_id b; de_type := t; de_aggregate_kind := bs "TAKE";
  de_aggregate_id := a; de_aggregate_revision := r; de_payload := p; de_payload_sha256 := option_map sha256 p; de_at := at_ |}.
Lemma insert_payload_event_inv s i q b t a r v at_ s' :
  insert_payload_event s i q b t a r v at_ = Ok s' ->
  exists p, match v with
            | None => p = None
            | Some value => EventPayload.from_fields [(x01, value)] = Ok p
            end /\ s' = with_events s (events s ++ [payload_event i q b t a r p at_]).
Proof.
  unfold insert_payload_event. intros Hi. apply result_bind_ok in Hi as (p & Hp & Hi).
  apply insert_event_inv in Hi as [_ ->]. exists p. split; [|done].
  destruct v; [by apply map_err_ok in Hp|by injection Hp as <-].
Qed.

Definition spec_row (p : Id) (q : Z) (c : Id) (at_ : Timestamp) (sp : Creative.ProjectSpecification) : SpecRow :=
  {| sp_project := p; sp_sequence := q; sp_specification := sp; sp_command := c; sp_created_at := at_ |}.
Lemma insert_project_specification_inv s i p q c at_ sp s' :
  insert_project_specification s i p q c at_ sp = Ok s' ->
  specs s !! i = None /\ ~ map_Exists (fun _ r => sp_project r = p /\ sp_sequence r = q) (specs s) /\
  s' = with_specs s (<[i := spec_row p q c at_ sp]> (specs s)).
Proof. unfold insert_project_specification. repeat case_match; try done. intros [= <-]. by bool_hyps. Qed.

Lemma insert_project_inv s i row s' :
  insert_project s i row = Ok s' -> projects s !! i = None /\ s' = with_projects s (<[i := row]> (projects s)).
Proof. unfold insert_project. case_match; [done|]. by intros [= <-]. Qed.
Lemma insert_subject_inv s i row s' :
  insert_subject s i row = Ok s' -> subjects s !! i = None /\ s' = with_subjects s (<[i := row]> (subjects s)).
Proof. unfold insert_subject. case_match; [done|]. by intros [= <-]. Qed.
Lemma insert_work_item_inv s i row s' :
  insert_work_item s i row = Ok s' ->
  work_items s !! i = None /\ work_code_taken s (wi_project row) (wi_kind row) (wi_code row) = false /\
  s' = with_work_items s (<[i := row]> (work_items s)).
Proof. unfold insert_work_item. repeat case_match; try done. by intros [= <-]. Qed.

Lemma insert_relationship_inv s i k x y b at_ s' :
  insert_relationship s i k x y b at_ = Ok s' ->
  s' = with_relationships s (relationships s ++
         [{| rl_id := i; rl_kind := k; rl_source := x; rl_target := y; rl_command := cb_command_id b; rl_created_at := at_ |}]).
Proof. unfold insert_relationship, insert_relationship_row. case_match; [done|]. by intros [= <-]. Qed.

(** The edges a reference list records. *)
Definition work_edges (k : Creative.RelationshipKind) (w : Id) (targets ids : list Id) (b : CommandBinding) (at_ : Timestamp) :=
  zip_with (fun i target => {| rl_id := i; rl_kind := k; rl_source := w; rl_target := target;
                               rl_command := cb_command_id b; rl_created_at := at_ |}) ids targets.
Lemma insert_work_relationships_inv s k w targets ids b at_ s' more :
  insert_work_relationships s k w targets ids b at_ = Ok (s', more) ->
  exists used, ids = used ++ more /\ length used = length targets /\
    s' = with_relationships s (relationships s ++ work_edges k w targets used b at_).
Proof.
  revert s ids. induction targets as [|t rest IH]; intros s ids Hi; cbn in Hi.
  - injection Hi as <- <-. exists []. cbn. rewrite app_nil_r. by destruct s.
  - destruct ids as [|i ids]; [done|]. apply result_bind_ok in Hi as (s1 & H1 & Hi).
    apply IH in Hi as (used & -> & Hl & ->). apply insert_relationship_inv in H1 as ->.
    exists (i :: used). cbn. rewrite <- app_assoc. by rewrite Hl.
Qed.

Definition work_revision_row (w : Id) (q : Z) (b : CommandBinding) (at_ : Timestamp) (sp : Creative.WorkSpecification) : WorkRevisionRow :=
  {| wr_work_item := w; wr_sequence := q; wr_specification := Creative.ws_json sp; wr_command := cb_command_id b; wr_created_at := at_ |}.
Lemma insert_work_revision_inv s i w q b at_ sp ids s' :
  insert_work_revision s i w q b at_ sp ids = Ok s' ->
  work_revisions s !! i = None /\
  ~ map_Exists (fun _ r => wr_work_item r = w /\ wr_sequence r = q) (work_revisions s) /\
  exists ids1 ids2, ids = ids1 ++ ids2 /\
    length ids1 = length (Creative.ws_subject_ids sp) /\ length ids2 = length (Creative.ws_asset_ids sp) /\
    s' = with_relationships (with_work_revisions s (<[i := work_revision_row w q b at_ sp]> (work_revisions s)))
           (relationships s ++ work_edges Creative.WorkSubject i (Creative.ws_subject_ids sp) ids1 b at_
                            ++ work_edges Creative.WorkAsset i (Creative.ws_asset_ids sp) ids2 b at_).
Proof.
  unfold insert_work_revision. case_match eqn:E; [done|]. case_match eqn:E2; [done|]. intros Hi. bool_hyps.
  apply result_bind_ok in Hi as ([s1 m1] & H1 & Hi). apply result_bind_ok in Hi as ([s2 m2] & H2 & Hi).
  destruct m2; [injection Hi as <-|done]. split_and!; [done..|].
  apply insert_work_relationships_inv in H1 as (u1 & -> & Hl1 & ->).
  apply insert_work_relationships_inv in H2 as (u2 & -> & Hl2 & ->).
  exists u1, u2. rewrite app_nil_r. cbn. by rewrite <- app_assoc.
Qed.

Definition take_row (w : Id) (o : Z) (st : Creative.TakeState) (a : Id) (q : Z) (b : CommandBinding) (at_ : Timestamp) : TakeRow := {|
  tk_work_revision := w; tk_ordinal := o; tk_state := st; tk_primary_asset := a; tk_revision := 1;
  tk_creation_sequence := q; tk_command := cb_command_id b; tk_created_at := at_; tk_updated_at := at_ |}.
Lemma insert_take_inv s i w o st a q b at_ s' :
  insert_take s i w o st a q b at_ = Ok s' ->
  takes s !! i = None /\ ~ map_Exists (fun _ r => tk_work_revision r = w /\ tk_ordinal r = o) (takes s) /\
  selected_clash s i (take_row w o st a q b at_) = false /\
  s' = with_takes s (<[i := take_row w o st a q b at_]> (takes s)).
Proof. unfold insert_take. case_match; [done|]. case_match eqn:E; [done|]. intros [= <-]. by bool_hyps. Qed.

Definition revised_project (p : ProjectRow) (spec : Id) (next : Z) (at_ : Timestamp) : ProjectRow := {|
  pj_name := pj_name p; pj_current_spec := spec; pj_revision := next;
  pj_creation_sequence := pj_creation_sequence p; pj_command := pj_command p;
  pj_created_at := pj_created_at p; pj_updated_at := at_ |}.
Lemma update_project_inv s p spec next cur at_ s' :
  update_project s p spec next cur at_ = Ok s' ->
  exists row, projects s !! p = Some row /\ pj_revision row = cur /\
    s' = with_projects s (<[p := revised_project row spec next at_]> (projects s)).
Proof. unfold update_project. case_match; [|done]. case_match eqn:E; [|done]. intros [= <-]. bool_hyps. eauto. Qed.

Definition revised_work_item (w : WorkItemRow) (revision : Id) (next : Z) (at_ : Timestamp) : WorkItemRow := {|
  wi_project := wi_project w; wi_kind := wi_kind w; wi_code := wi_code w; wi_current_revision := revision;
  wi_revision := next; wi_creation_sequence := wi_creation_sequence w; wi_command := wi_command w;
  wi_created_at := wi_created_at w; wi_updated_at := at_ |}.
Lemma update_work_item_inv s w rev p next cur at_ s' :
  update_work_item s w rev p next cur at_ = Ok s' ->
  exists row, work_items s !! w = Some row /\ wi_project row = p /\ wi_revision row = cur /\
    s' = with_work_items s (<[w := revised_work_item row rev next at_]> (work_items s)).
Proof. unfold update_work_item. case_match; [|done]. case_match eqn:E; [|done]. intros [= <-]. bool_hyps. eauto. Qed.

Definition supersedes_edge (i src dst : Id) (b : CommandBinding) (at_ : Timestamp) : RelationshipRow := {|
  rl_id := i; rl_kind := Creative.TakeSupersedes; rl_source := src; rl_target := dst;
  rl_command := cb_command_id b; rl_created_at := at_ |}.

(** The three things the related take can undergo: superseded by the selection,
    named as the superseding take, or nothing. *)
Lemma write_related_inv s r related repl e1 rel q at_ s' :
  write_related s r related repl e1 rel q at_ = Ok s' ->
  let b := tt_binding r in
  match repl with
  | Some (sid, srev, snext) => exists row p,
      takes s !! sid = Some row /\ tk_revision row = srev /\ tk_state row = Creative.Selected /\
      EventPayload.from_fields [(x01, tt_take_id r)] = Ok p /\
      s' = with_relationships
             (with_events (with_takes s (<[sid := moved_take row Creative.Superseded snext at_]> (takes s)))
                (events s ++ [payload_event e1 q b (bs "take.superseded.v1") sid snext p at_]))
             (relationships s ++ [supersedes_edge rel (tt_take_id r) sid b at_])
  | None =>
      match tt_transition r with
      | Creative.Supersede => exists rid, related = Some rid /\
          s' = with_relationships s (relationships s ++ [supersedes_edge rel rid (tt_take_id r) b at_])
      | _ => s' = s
      end
  end.
Proof.
  unfold write_related. intros Hw. destruct repl as [[[sid srev] snext]|]; cbv zeta.
  - apply result_bind_ok in Hw as (s1 & H1 & Hw). apply result_bind_ok in Hw as (s2 & H2 & Hw).
    apply update_take_inv in H1 as (row & ? & ? & ? & ? & ->). apply insert_payload_event_inv in H2 as (p & ? & ->).
    apply insert_relationship_inv in Hw as ->. exists row, p. by split_and!; auto.
  - destruct (tt_transition r); try by injection Hw as <-.
    apply result_bind_ok in Hw as (rid & Hr & Hw). apply ok_or_ok in Hr. apply insert_relationship_inv in Hw as ->.
    by exists rid.
Qed.

Lemma allocate_or_reject_inv s n b at_ k o s' :
  allocate_or_reject s n b at_ k = Ok (o, s') ->
  (last_sequence s + n <= I64_MAX /\ k (last_sequence s + 1) (with_last_sequence s (last_sequence s + n)) = Ok (o, s')) \/
  (allocate_event_sequences s n = Err SeRevisionExhausted /\ commit_rejection s b RevisionExhausted at_ = Ok (o, s')).
Proof.
  unfold allocate_or_reject. destruct (allocate_event_sequences s n) as [[q s2]|e] eqn:E; intros Ho.
  - left. by apply allocate_inv in E as (? & -> & ->).
  - right. by destruct e.
Qed.

Lemma ordinal_or_reject_inv s w b at_ k o s' :
  ordinal_or_reject s w b at_ k = Ok (o, s') ->
  (exists n, next_take_ordinal s w = Ok n /\ k n = Ok (o, s')) \/
  (next_take_ordinal s w = Err SeRevisionExhausted /\ commit_rejection s b RevisionExhausted at_ = Ok (o, s')).
Proof.
  unfold ordinal_or_reject. destruct (next_take_ordinal s w) as [n|e] eqn:E; intros Ho; [eauto|]. right. by destruct e.
Qed.

Lemma unless_replayed_inv replay s ctx b kind body o s' :
  unless_replayed replay s ctx b kind body = Ok (o, s') ->
  (replay_existing replay s ctx b kind = Ok (Some o) /\ s' = s) \/
  (commands s !! cb_command_id b = None /\ body = Ok (o, s')).
Proof.
  unfold unless_replayed. intros Hu. apply result_bind_ok in Hu as ([o1|] & Hr & Hu).
  - left. by injection Hu as <- <-.
  - right. split; [|done]. unfold replay_existing, read_command in Hr. case_match; [|done].
    passed Hr as E. apply result_bind_ok in Hr as (? & _ & Hr). by apply result_bind_ok in Hr as (? & _ & Hr).
Qed.
End inversions.

(** One step of symbolic execution of [H : out = Ok (o, s')]. *)
Ltac crunch_step H :=
  lazymatch type of H with
  | commit_rejection _ _ _ _ = Ok _ => injection H as <- <-
  | complete_versioned _ _ _ _ _ = Ok _ =>
      apply complete_versioned_inv in H as (? & ? & ? & ? & -> & ? & ? & ->)
  | allocate_or_reject _ _ _ _ _ = Ok _ =>
      apply allocate_or_reject_inv in H as [[? H]|[? H]]; cbv beta iota zeta in H
  | ordinal_or_reject _ _ _ _ _ = Ok _ =>
      apply ordinal_or_reject_inv in H as [(? & ? & H)|[? H]]; cbv beta iota zeta in H
  | result_bind _ _ = Ok _ =>
      let x := fresh "x" in let Hx := fresh "Hx" in
      apply result_bind_ok in H as (x & Hx & H); cbv beta iota zeta in H;
      try match type of x with (_ * _)%type => repeat match goal with y : (_ * _)%type |- _ => destruct y end end;
      cbv beta iota zeta in H;
      first
        [ apply insert_claim_inv in Hx as (? & ->)
        | apply insert_domain_event_inv in Hx as ->
        | apply insert_payload_event_inv in Hx as (? & ? & ->)
        | apply insert_project_specification_inv in Hx as (? & ? & ->)
        | apply insert_project_inv in Hx as (? & ->)
        | apply insert_subject_inv in Hx as (? & ->)
        | apply insert_work_item_inv in Hx as (? & ? & ->)
        | apply insert_relationship_inv in Hx as ->
        | apply insert_work_revision_inv in Hx as (? & ? & ? & ? & ? & ? & ? & ->)
        | apply insert_take_inv in Hx as (? & ? & ? & ->)
        | apply update_project_inv in Hx as (? & ? & ? & ->)
        | apply update_work_item_inv in Hx as (? & ? & ? & ? & ->)
        | apply update_take_inv in Hx as (? & ? & ? & ? & ? & ->)
        | idtac ]
  | (if ?b then _ else _) = Ok _ => destruct b eqn:?
  | match ?x with _ => _ end = Ok _ => destruct x eqn:?
  | Err _ = Ok _ => discriminate H
  end.
Ltac crunch H := cbv beta iota zeta in H; repeat crunch_step H.
End Steps.
