(* ===== verification/CreativeReplay.v ===== *)
(** Idempotence of the creative commands.

    Once a command identity has an answer, resubmitting it returns that answer and
    changes nothing, whatever ran in between; reusing the identity for a different
    request is a conflict. *)
From Stdlib Require Import ZArith Lia String.
From Stdlib Require Import Strings.Byte Init.Byte.
From stdpp Require Import prelude list gmap relations.
From S2P Require Import Prelude RustText Types Events AssetDomain CreativeDomain Ports CommandLedger CreativeStore StoreScenario StoreFrame.

Set Warnings "-clear-no-such-hyp".

Module CreativeReplay.
Import Ports Ledger Store Frame.

(** ** Observations are stable *)

Section stability.
Context (c : Id) (s s' : Store) (Hg : grows c s s').

Lemma filter_grows {V} (P : V -> Prop) `{!forall x, Decision (P x)} (Q : V -> Prop) l l' :
  list_grows Q l l' -> (forall x, Q x -> ~ P x) -> filter P l' = filter P l.
Proof.
  intros (new & -> & Hnew) HQ. rewrite filter_app.
  enough (filter P new = []) as -> by by rewrite app_nil_r.
  induction Hnew as [|x new Hx _ IH]; [done|]. rewrite filter_cons_False by eauto. done.
Qed.

Lemma event_count_grows k t ak a r : k <> c -> event_count s' k t ak a r = event_count s k t ak a r.
Proof.
  intros Hk. unfold event_count. f_equal. eapply filter_grows; [apply (g_events _ _ _ Hg)|]. cbn. intros e He (? & _). congruence.
Qed.
Lemma relationship_count_grows k kind x y : k <> c -> relationship_count s' k kind x y = relationship_count s k kind x y.
Proof.
  intros Hk. unfold relationship_count. f_equal. eapply filter_grows; [apply (g_relationships _ _ _ Hg)|].
  cbn. intros e He (? & _). congruence.
Qed.
Lemma take_edge_count_grows row p st rel :
  c_command_id row <> c -> take_edge_count s' row p st rel = take_edge_count s row p st rel.
Proof. intros Hk. unfold take_edge_count. cbv zeta. destruct rel; [|done]. by rewrite !relationship_count_grows. Qed.

Lemma eq_grows {V} (m m' : gmap Id V) k v : map_grows eq m m' -> m !! k = Some v -> m' !! k = Some v.
Proof. intros Hm Hk. destruct (Hm _ _ Hk) as (? & ? & <-). done. Qed.

Lemma payload_observed_grows row primary p :
  c_command_id row <> c -> payload_observed s row primary p = true -> payload_observed s' row primary p = true.
Proof.
  intros Hk Ho. destruct p; cbn [payload_observed] in *; [..|done]; try destruct (expected_take_event _ _); [..|done];
    repeat match type of Ho with
      | match ?x with Some _ => _ | None => _ end = true => destruct x eqn:?; [|discriminate Ho]
      end;
    repeat match goal with
      | E : specs s !! _ = Some _ |- _ => apply (eq_grows _ _ _ _ (g_specs _ _ _ Hg)) in E as ->
      | E : subjects s !! _ = Some _ |- _ => apply (eq_grows _ _ _ _ (g_subjects _ _ _ Hg)) in E as ->
      | E : work_revisions s !! _ = Some _ |- _ => apply (eq_grows _ _ _ _ (g_work_revisions _ _ _ Hg)) in E as ->
      | E : projects s !! _ = Some _ |- _ => apply (g_projects _ _ _ Hg) in E as (? & -> & ?&?&?&?&?)
      | E : work_items s !! _ = Some _ |- _ => apply (g_work_items _ _ _ Hg) in E as (? & -> & ?&?&?&?&?&?&?)
      | E : takes s !! _ = Some _ |- _ => apply (g_takes _ _ _ Hg) in E as (? & -> & (?&->&->&?)%take_le_facts)
      end;
    rewrite ?event_count_grows, ?take_edge_count_grows by done; bool_hyps;
    repeat (apply andb_true_intro; split); try (apply bool_decide_eq_true; done); try (apply Z.leb_le; lia);
    try (apply Z.eqb_eq; done); done.
Qed.
End stability.

(** ** Recorded answers *)

Section replay.
Context `{StoreEnv} (replay_asset_result : Store -> CommandRow -> result AssetStoreError CommandResult).
Local Abbreviation replay_existing := (replay_existing replay_asset_result).
Local Abbreviation replay_pure := (replay_pure replay_asset_result).
Local Abbreviation execute := (execute replay_asset_result).
Local Abbreviation run := (run replay_asset_result).

(** What the typed requests and the opened store guarantee of a command: its
    binding names its operation, identities are UUIDv7, the digest has 32 bytes,
    the owner is a uid, the clock returns representable instants. *)
Definition command_wf (ctx : StoreContext) (c : CreativeCommand) : Prop :=
  let b := binding_of c in
  cb_operation_id b = operation_of c /\ id_ok id_valid (cb_command_id b) /\ id_ok id_valid (runtime_id ctx) /\
  length (cb_canonical_request_digest b) = 32%nat /\ is_u32 (owner_uid ctx) /\
  forall at_, v_now (values_of c) = Ok at_ -> is_u32 at_.2 /\ timestamp_valid at_.1 at_.2 = true.

(** The answer a resubmission gets. *)
Definition recorded (o : MutationOutcome) : MutationOutcome :=
  match o with Applied r => Replay r | o => o end.

Definition kept (uid : Z) (b : CommandBinding) (kind : list byte) (o : MutationOutcome) (s : Store) : Prop :=
  exists row, commands s !! cb_command_id b = Some row /\ binding_matches row b uid = true /\
    validate_command_row row = Ok row /\ replay_pure s row kind = Ok o.

Lemma replay_pure_grows c s s' row kind o :
  is_creative_operation (c_operation_id row) = true -> grows c s s' -> c_command_id row <> c ->
  replay_pure s row kind = Ok o -> replay_pure s' row kind = Ok o.
Proof.
  intros Hop Hg Hne. unfold Store.replay_pure, replay_result. rewrite Hop. destruct (c_state row); try done.
  case_match; [|done]. intros Hr. apply result_bind_ok in Hr as (r & Hr & Hok).
  enough (replay_creative_result s' row = Ok r) as -> by done.
  unfold replay_creative_result in *. destruct (id_bytes _); [|done]. cbn in *. destruct (c_result_kind row); [|done].
  cbn in *. destruct (c_result_payload row); [|done]. cbn in *. destruct (decode _ _ _) as [p|]; [|done]. cbn in *.
  passed Hr as E. bool_hyps. by rewrite (payload_observed_grows c s s').
Qed.

Lemma binding_matches_eq row b uid :
  binding_matches row b uid = true <->
  c_command_id row = cb_command_id b /\ c_operation_id row = cb_operation_id b /\
  c_principal_kind row = bs "LOCAL_OWNER_UID_V1" /\ c_principal_uid row = uid /\
  c_digest row = cb_canonical_request_digest b.
Proof.
  unfold binding_matches. rewrite !andb_true_iff, !bool_decide_eq_true, Z.eqb_eq. tauto.
Qed.

Lemma creative_operation c : is_creative_operation (operation_of c) = true.
Proof. by destruct c; vm_compute. Qed.

(** A recorded answer survives every later command of another identity. *)
Lemma kept_after uid b kind o s ctx c :
  is_creative_operation (cb_operation_id b) = true -> kept uid b kind o s ->
  kept uid b kind o (after replay_asset_result s ctx c).
Proof.
  intros Hop Hk. unfold after. destruct (execute s ctx c) as [[o1 s1]|] eqn:E; [|done].
  apply execute_effect in E as [[_ ->]|(at_ & _ & Hnone & Hg & _)]; [done|].
  destruct Hk as (row & Hrow & Hb & Hv & Hr). pose proof (proj1 (binding_matches_eq _ _ _) Hb) as (Hid & Hopid & _).
  assert (cb_command_id (binding_of c) <> cb_command_id b) as Hne by congruence.
  exists row. split_and!; [by rewrite (g_commands _ _ _ Hg)|done..|].
  eapply replay_pure_grows; [by rewrite Hopid|exact Hg|congruence|done].
Qed.

Lemma kept_run uid b kind o s cs :
  is_creative_operation (cb_operation_id b) = true -> kept uid b kind o s -> kept uid b kind o (run s cs).
Proof.
  intros Hop. unfold Store.run. revert s. induction cs as [|[ctx c] cs IH]; intros s Hk; cbn; [done|].
  apply IH. by apply kept_after.
Qed.

Lemma kept_replays ctx b kind o s :
  kept (owner_uid ctx) b kind o s -> replay_existing s ctx b kind = Ok (Some o).
Proof.
  intros (row & Hrow & Hb & Hv & Hr). unfold Store.replay_existing, read_command. rewrite Hrow, Hb. cbn.
  rewrite Hv. cbn. by rewrite Hr.
Qed.

Lemma replay_existing_kept ctx b kind o s :
  replay_existing s ctx b kind = Ok (Some o) -> kept (owner_uid ctx) b kind o s.
Proof.
  unfold Store.replay_existing, read_command, kept. case_match eqn:E; [|done]. intros Hr. passed Hr as E2. bool_hyps.
  apply result_bind_ok in Hr as (row & Hv & Hr). apply result_bind_ok in Hr as (o1 & Hp & Hr). injection Hr as ->.
  assert (row = c) as -> by (unfold validate_command_row in Hv; by inv_result). by exists c.
Qed.

(** The row of a rejected command validates, so a rejection is as durable as a
    result. *)
Lemma rejected_claim_valid ctx c at_ code :
  command_wf ctx c -> v_now (values_of c) = Ok at_ -> is_pure_rejection_code code = true ->
  validate_command_row (rejected_claim ctx (binding_of c) at_ code) = Ok (rejected_claim ctx (binding_of c) at_ code).
Proof.
  intros (Hop & [Hl1 Hv1] & [Hl2 Hv2] & Hd & Hu & Hclock) Hnow Hcode. destruct (Hclock _ Hnow) as [Hn Ht].
  unfold validate_command_row, check_id, id_bytes, persisted_timestamp, parse_code, payload_present, check_state.
  cbn [rejected_claim rejected_row claim_row c_command_id c_runtime_id c_digest c_principal_kind c_principal_uid
       c_operation_id c_created_at_seconds c_created_at_nanos c_updated_at_seconds c_updated_at_nanos
       c_safe_error_code c_result_schema_version c_result_payload c_result_payload_sha256 c_state c_result_kind
       c_result_id c_result_location_id ok_or result_bind].
  rewrite !bool_decide_eq_true_2 by done. cbn [result_bind]. rewrite Hv1, Hv2. cbn [result_bind negb].
  rewrite try_into_id by done. cbn [none orb]. rewrite Hop.
  assert (operation_id_ok (operation_of c) = true) as -> by (by destruct c; vm_compute).
  cbn [negb]. rewrite try_into_id by done. cbn [ok_or result_bind]. rewrite Ht. cbn [result_bind].
  rewrite ErrorCodeText.as_str_from_str. cbn [result_bind map_err none negb andb].
  assert (validate_known_command_matrix (rejected_claim ctx (binding_of c) at_ code) (Some code) = Ok tt) as ->; [|done].
  unfold validate_known_command_matrix. cbn [rejected_claim rejected_row claim_row c_operation_id c_state]. rewrite Hop.
  by destruct c; cbn [operation_of]; unfold pure_matrix; cbn; rewrite Hcode.
Qed.

Lemma settled_kept ctx c at_ o s :
  command_wf ctx c -> v_now (values_of c) = Ok at_ -> settled ctx (binding_of c) (kind_of c) at_ o s ->
  kept (owner_uid ctx) (binding_of c) (kind_of c) (recorded o) s.
Proof.
  intros Hwf Hnow. destruct o as [r|r|code|code]; cbn; [|done| |done].
  - intros (primary & payload & Hrow & Hk & Hv & Hr). eexists. split_and!; [done|by apply binding_matches_eq|done|].
    unfold Store.replay_pure, kind_is, replay_result. cbn -[replay_creative_result]. rewrite Hk, bool_decide_eq_true_2 by done.
    destruct Hwf as [-> _]. by rewrite creative_operation, Hr.
  - intros [Hrow Hcode]. eexists. split_and!; [done|by apply binding_matches_eq|by apply rejected_claim_valid|].
    unfold Store.replay_pure, parse_safe_code. cbn. by rewrite ErrorCodeText.as_str_from_str.
Qed.

Lemma answered_kept ctx c o s s1 :
  command_wf ctx c -> execute s ctx c = Ok (o, s1) ->
  kept (owner_uid ctx) (binding_of c) (kind_of c) (recorded o) s1.
Proof.
  intros Hwf He. apply execute_effect in He as [[Hr ->]|(at_ & Hnow & _ & _ & Hs)].
  - apply replay_existing_kept in Hr. destruct Hr as (row & ? & ? & ? & Hr). exists row. split_and!; [done..|].
    rewrite Hr. unfold Store.replay_pure in Hr. repeat case_match; inv_result; done.
  - by eapply settled_kept.
Qed.

Lemma operation_kind c c' : operation_of c' = operation_of c -> kind_of c' = kind_of c.
Proof. destruct c, c'; try reflexivity; intros Ho; vm_compute in Ho; discriminate Ho. Qed.

Lemma wf_creative ctx c : command_wf ctx c -> is_creative_operation (cb_operation_id (binding_of c)) = true.
Proof. intros [-> _]. apply creative_operation. Qed.

(** A different request under a recorded identity is refused. *)
Lemma kept_conflict uid b kind o s ctx c :
  kept uid b kind o s -> cb_command_id (binding_of c) = cb_command_id b ->
  cb_operation_id (binding_of c) <> cb_operation_id b \/
  cb_canonical_request_digest (binding_of c) <> cb_canonical_request_digest b \/ owner_uid ctx <> uid ->
  execute s ctx c = Err SeConflict.
Proof.
  intros (row & Hrow & Hb & _) Hid Hdiff. apply execute_refused. unfold Store.replay_existing, read_command.
  rewrite Hid, Hrow. apply binding_matches_eq in Hb as (? & ? & ? & ? & ?).
  destruct (binding_matches row (binding_of c) (owner_uid ctx)) eqn:E; [|done].
  apply binding_matches_eq in E as (? & ? & ? & ? & ?). destruct Hdiff as [|[|]]; congruence.
Qed.
End replay.

Lemma scenario_wf c :
  cb_operation_id (binding_of c) = operation_of c -> length (cb_command_id (binding_of c)) = 16%nat ->
  length (cb_canonical_request_digest (binding_of c)) = 32%nat -> v_now (values_of c) = Ok Scenario.now ->
  command_wf (H := Scenario.env) Scenario.ctx c.
Proof.
  intros Hop Hid Hd Hnow. split_and!; [done|split; [done|by apply bool_decide_eq_true]|done|done|by vm_compute|].
  intros at_. rewrite Hnow. intros [= <-]. by vm_compute.
Qed.

(** C1: Idempotence: once a creative command was answered (applied, replayed or
    rejected), resubmitting the same binding for the same operation by the same
    owner, after any sequence of other commands and across reopened stores, returns
    the recorded answer (an applied result as a replay of that very result) and
    leaves the store exactly as it was, whatever fresh identities and clock values
    the resubmission carries. *)
Theorem answered_command_is_idempotent (E : StoreEnv)
    (replay_asset_result : Store -> CommandRow -> result AssetStoreError CommandResult)
    (s s1 : Store) (ctx ctx' : StoreContext) (c c' : CreativeCommand) (o : MutationOutcome)
    (later : list (StoreContext * CreativeCommand)) :
  command_wf ctx c -> execute replay_asset_result s ctx c = Ok (o, s1) ->
  owner_uid ctx' = owner_uid ctx -> binding_of c' = binding_of c -> operation_of c' = operation_of c ->
  let s2 := run replay_asset_result s1 later in
  execute replay_asset_result s2 ctx' c' = Ok (recorded o, s2).
Proof.
  intros Hwf He Huid Hb Hop s2. apply execute_replayed. rewrite Hb, (operation_kind c c' Hop).
  apply kept_replays. rewrite Huid. apply kept_run; [by eapply wf_creative|]. by eapply answered_kept.
Qed.

Lemma answered_command_is_idempotent_witness :
  let s1 := after (H := Scenario.env) Scenario.no_asset_replay Scenario.with_work Scenario.ctx (Scenario.create_t 30 31 32) in
  let s2 := run (H := Scenario.env) Scenario.no_asset_replay s1 [(Scenario.ctx, Scenario.create_t 33 34 35);
    (Scenario.ctx, Scenario.transition_t 36 31 1 Creative.Select None [37; 38; 39]);
    (Scenario.ctx, Scenario.transition_t 40 34 1 Creative.Select (Some (Scenario.id 31, 2)) [41; 42; 43])] in
  let r := Versioned (Scenario.id 31) (VrTake 1 1 Creative.Candidate (Scenario.id 50) None) Scenario.now in
  execute (H := Scenario.env) Scenario.no_asset_replay s2 Scenario.ctx (Scenario.create_t 30 60 61) = Ok (Replay r, s2).
Proof.
  intros s1 s2 r.
  apply (answered_command_is_idempotent Scenario.env Scenario.no_asset_replay Scenario.with_work s1 Scenario.ctx
           Scenario.ctx (Scenario.create_t 30 31 32) (Scenario.create_t 30 60 61) (Applied r)).
  - apply scenario_wf; reflexivity.
  - apply execute_answer. vm_compute. reflexivity.
  - reflexivity.
  - reflexivity.
  - reflexivity.
Defined.

(** A recorded command identity cannot be reused: after any later commands, a
    command with the same identity but another operation, another request digest
    or another owner fails with a conflict and changes nothing. *)
Theorem command_identity_conflict (E : StoreEnv)
    (replay_asset_result : Store -> CommandRow -> result AssetStoreError CommandResult)
    (s s1 : Store) (ctx ctx' : StoreContext) (c c' : CreativeCommand) (o : MutationOutcome)
    (later : list (StoreContext * CreativeCommand)) :
  command_wf ctx c -> execute replay_asset_result s ctx c = Ok (o, s1) ->
  cb_command_id (binding_of c') = cb_command_id (binding_of c) ->
  cb_operation_id (binding_of c') <> cb_operation_id (binding_of c) \/
  cb_canonical_request_digest (binding_of c') <> cb_canonical_request_digest (binding_of c) \/
  owner_uid ctx' <> owner_uid ctx ->
  let s2 := run replay_asset_result s1 later in
  execute replay_asset_result s2 ctx' c' = Err SeConflict /\ after replay_asset_result s2 ctx' c' = s2.
Proof.
  intros Hwf He Hid Hdiff s2.
  assert (execute replay_asset_result s2 ctx' c' = Err SeConflict) as Herr.
  { eapply kept_conflict; [|exact Hid|exact Hdiff]. apply kept_run; [by eapply wf_creative|]. by eapply answered_kept. }
  split; [done|]. unfold after. by rewrite Herr.
Qed.

Lemma command_identity_conflict_witness :
  let s1 := after (H := Scenario.env) Scenario.no_asset_replay Scenario.with_work Scenario.ctx (Scenario.create_t 30 31 32) in
  let c' := Scenario.transition_t 30 31 1 Creative.Select None [37; 38; 39] in
  execute (H := Scenario.env) Scenario.no_asset_replay s1 Scenario.ctx c' = Err SeConflict /\
  after (H := Scenario.env) Scenario.no_asset_replay s1 Scenario.ctx c' = s1.
Proof.
  intros s1 c'.
  apply (command_identity_conflict Scenario.env Scenario.no_asset_replay Scenario.with_work s1 Scenario.ctx Scenario.ctx
           (Scenario.create_t 30 31 32) c'
           (Applied (Versioned (Scenario.id 31) (VrTake 1 1 Creative.Candidate (Scenario.id 50) None) Scenario.now)) []).
  - apply scenario_wf; reflexivity.
  - apply execute_answer. vm_compute. reflexivity.
  - reflexivity.
  - left. vm_compute. congruence.
Defined.
End CreativeReplay.
