(* ===== verification/CreativeEvents.v ===== *)
(** The event log, and what a rejection leaves behind.

    A rejected command should touch nothing but its own ledger row.  That holds of
    every rejection except one: the two revising commands allocate their event
    sequence after they have written, and commit those writes when the sequence is
    exhausted. *)
From Stdlib Require Import ZArith Lia String.
From Stdlib Require Import Strings.Byte Init.Byte.
From stdpp Require Import prelude list gmap relations.
From S2P Require Import Prelude RustText Types Events AssetDomain CreativeDomain Ports CommandLedger CreativeStore StoreScenario StoreFrame StoreSteps.

Set Warnings "-clear-no-such-hyp".

Module CreativeEvents.
Import Ports Ledger Store Frame Steps.

Section events.
Context `{StoreEnv} (replay_asset_result : Store -> CommandRow -> result AssetStoreError CommandResult).
Local Abbreviation execute := (execute replay_asset_result).
Local Abbreviation run := (run replay_asset_result).

(** An event of command [c] at [at_], its payload bound to its digest. *)
Definition event_of (c : Id) (at_ : Timestamp) (e : DomainEvent) : Prop :=
  de_command_id e = c /\ de_at e = at_ /\ de_payload_sha256 e = option_map sha256 (de_payload e).

(** The log of [s'] is the log of [s] followed by [n] events numbered from the
    next commit sequence. *)
Definition logged (c : Id) (at_ : Timestamp) (s s' : Store) : Prop :=
  exists new, new <> [] /\ events s' = events s ++ new /\
    map de_sequence new = seqZ (last_sequence s + 1) (blen new) /\
    last_sequence s' = last_sequence s + blen new /\ last_sequence s' <= I64_MAX /\ Forall (event_of c at_) new.
Definition log_same (s s' : Store) : Prop := events s' = events s /\ last_sequence s' = last_sequence s.

Definition log_effect (c : Id) (at_ : Timestamp) (s : Store) (o : MutationOutcome) (s' : Store) : Prop :=
  match o with Applied _ => logged c at_ s s' | _ => log_same s s' end.

Lemma logged_one c at_ s s' e :
  events s' = events s ++ [e] -> last_sequence s' = last_sequence s + 1 -> last_sequence s' <= I64_MAX ->
  de_sequence e = last_sequence s + 1 -> event_of c at_ e -> logged c at_ s s'.
Proof. intros He Hl Hm Hq Hc. exists [e]. cbn. rewrite Hq. by split_and!; try constructor. Qed.

Lemma logged_two c at_ s s' e f :
  events s' = (events s ++ [e]) ++ [f] -> last_sequence s' = last_sequence s + 2 -> last_sequence s' <= I64_MAX ->
  de_sequence e = last_sequence s + 1 -> de_sequence f = last_sequence s + 1 + 1 ->
  event_of c at_ e -> event_of c at_ f -> logged c at_ s s'.
Proof.
  intros He Hl Hm Hq Hq' Hc Hc'. exists [e; f]. rewrite <- app_assoc in He. split_and!; try done.
  - cbn [map]. rewrite Hq, Hq', (seqZ_cons _ (blen [e; f])), seqZ_cons by (unfold blen; cbn; lia).
    by do 2 f_equal.
  - by rewrite !Forall_cons, Forall_nil.
Qed.

(** Close a branch of a symbolically executed command. *)
Ltac log_done :=
  cbn [log_effect];
  first
    [ split; reflexivity
    | eapply logged_one; [reflexivity|reflexivity|eassumption|reflexivity|by unfold event_of; split_and!]
    | eapply logged_two; [reflexivity|reflexivity|eassumption|reflexivity|reflexivity|by unfold event_of; split_and!|by unfold event_of; split_and!] ].
Ltac log_command Hc :=
  apply unless_replayed_inv in Hc as [[Hc ->]|[Hc Hb]];
  [ left; by split
  | right; crunch Hb;
    match goal with Hv : with_values _ _ = Ok _ |- _ => apply with_values_now in Hv end;
    (eexists; split; [eassumption|]); log_done ].

Definition log_step (s : Store) (ctx : StoreContext) (b : CommandBinding) (values : Values) (kind : list byte)
    (o : MutationOutcome) (s' : Store) : Prop :=
  (replay_existing replay_asset_result s ctx b kind = Ok (Some o) /\ s' = s) \/
  exists at_, v_now values = Ok at_ /\ log_effect (cb_command_id b) at_ s o s'.

Lemma create_project_log s ctx r o s' :
  create_project replay_asset_result s ctx r = Ok (o, s') -> log_step s ctx (cp_binding r) (cp_values r) (bs "PROJECT") o s'.
Proof. intros Hc. log_command Hc. Qed.
Lemma revise_project_spec_log s ctx r o s' :
  revise_project_spec replay_asset_result s ctx r = Ok (o, s') ->
  log_step s ctx (rp_binding r) (rp_values r) (bs "PROJECT_SPEC_REVISION") o s'.
Proof. intros Hc. log_command Hc. Qed.
Lemma create_subject_log s ctx r o s' :
  create_subject replay_asset_result s ctx r = Ok (o, s') -> log_step s ctx (cs_binding r) (cs_values r) (bs "SUBJECT") o s'.
Proof. intros Hc. log_command Hc. Qed.
Lemma create_work_log s ctx r o s' :
  create_work replay_asset_result s ctx r = Ok (o, s') -> log_step s ctx (cw_binding r) (cw_values r) (bs "WORK_ITEM") o s'.
Proof. intros Hc. log_command Hc. Qed.
Lemma revise_work_log s ctx r o s' :
  revise_work replay_asset_result s ctx r = Ok (o, s') -> log_step s ctx (rw_binding r) (rw_values r) (bs "WORK_REVISION") o s'.
Proof. intros Hc. log_command Hc. Qed.
Lemma create_take_log s ctx r o s' :
  create_take replay_asset_result s ctx r = Ok (o, s') -> log_step s ctx (ct_binding r) (ct_values r) (bs "TAKE") o s'.
Proof. intros Hc. log_command Hc. Qed.
Lemma reopen_take_log s ctx r o s' :
  reopen_take replay_asset_result s ctx r = Ok (o, s') -> log_step s ctx (rt_binding r) (rt_values r) (bs "TAKE") o s'.
Proof. intros Hc. log_command Hc. Qed.
Lemma transition_take_log s ctx r o s' :
  transition_take replay_asset_result s ctx r = Ok (o, s') -> log_step s ctx (tt_binding r) (tt_values r) (bs "TAKE") o s'.
Proof.
  intros Hc. apply unless_replayed_inv in Hc as [[Hc ->]|[Hc Hb]]; [left; by split|]. right.
  unfold write_transition in Hb. crunch Hb;
    match goal with Hv : with_values _ _ = Ok _ |- _ => apply with_values_now in Hv end;
    (eexists; split; [eassumption|]);
    try match goal with Hr : write_related _ _ _ ?repl _ _ _ _ = Ok _ |- _ =>
          apply write_related_inv in Hr; cbv zeta in Hr; destruct repl as [[[? ?] ?]|];
          [destruct Hr as (? & ? & ? & ? & ? & ? & ->)|destruct (tt_transition r); [subst..|destruct Hr as (? & ? & ->)]]
        end;
    log_done.
Qed.

Lemma execute_log s ctx c o s' :
  execute s ctx c = Ok (o, s') -> log_step s ctx (binding_of c) (values_of c) (kind_of c) o s'.
Proof.
  destruct c; cbn [Store.execute binding_of values_of kind_of];
    eauto using create_project_log, revise_project_spec_log, create_subject_log, create_work_log,
      revise_work_log, create_take_log, transition_take_log, reopen_take_log.
Qed.

(** A replayed answer is never a fresh application. *)
Lemma replay_existing_not_applied s ctx b kind r :
  replay_existing replay_asset_result s ctx b kind <> Ok (Some (Applied r)).
Proof.
  unfold replay_existing. case_match; [|done]. intros Hr. passed Hr as E. apply result_bind_ok in Hr as (? & _ & Hr).
  apply result_bind_ok in Hr as (o & Hp & Hr). injection Hr as ->. unfold replay_pure in Hp. repeat case_match; try done.
  - by apply result_bind_ok in Hp as (? & _ & [=]).
  - by apply result_bind_ok in Hp as (? & _ & [=]).
Qed.

Lemma log_step_effect s ctx b values kind o s' :
  log_step s ctx b values kind o s' ->
  (exists at_, v_now values = Ok at_ /\ logged (cb_command_id b) at_ s s' /\ exists r, o = Applied r) \/
  (log_same s s' /\ forall r, o <> Applied r).
Proof.
  intros [[Hr ->]|(at_ & Hat & Hl)].
  - right. split; [done|]. intros r ->. by eapply replay_existing_not_applied.
  - destruct o; [left; by exists at_; eauto|by right..].
Qed.

(** The commit sequences of the log are exactly [1 .. last_sequence]. *)
Definition dense (s : Store) : Prop :=
  0 <= last_sequence s <= I64_MAX /\ map de_sequence (events s) = seqZ 1 (last_sequence s).

Lemma logged_dense c at_ s s' : logged c at_ s s' -> dense s -> dense s'.
Proof.
  intros (new & _ & He & Hq & Hl & Hm & _) [Hr Hd]. split; [unfold blen in *; lia|].
  rewrite He, map_app, Hd, Hq, Hl. rewrite seqZ_app by (unfold blen; lia). do 2 f_equal. lia.
Qed.

Lemma after_log s ctx c :
  let s' := after replay_asset_result s ctx c in
  events s `prefix_of` events s' /\ last_sequence s <= last_sequence s' /\ (dense s -> dense s').
Proof.
  unfold after. destruct (execute s ctx c) as [[o s']|] eqn:E; [|by split_and!].
  apply execute_log, log_step_effect in E as [(at_ & _ & Hl & _)|[[He Hl] _]].
  - split_and!; [|destruct Hl as (? & ? & ? & ? & ? & ?); unfold blen in *; lia|by eapply logged_dense].
    destruct Hl as (new & _ & He & _). by exists new.
  - unfold dense. by rewrite He, Hl.
Qed.
End events.

(** One command and the event log: a command that is applied appends at least
    one event, all of them its own, stamped with the instant it sampled, numbered
    consecutively from the next commit sequence (which never passes i64::MAX),
    each payload bound to its SHA-256; a replayed or rejected command appends
    nothing and consumes no sequence number. *)
Theorem event_log_of_one_command (E : StoreEnv)
    (replay_asset_result : Store -> CommandRow -> result AssetStoreError CommandResult)
    (s s' : Store) (ctx : StoreContext) (c : CreativeCommand) (o : MutationOutcome) :
  execute replay_asset_result s ctx c = Ok (o, s') ->
  match o with
  | Applied _ => exists at_, v_now (values_of c) = Ok at_ /\ logged (cb_command_id (binding_of c)) at_ s s'
  | Replay _ | TerminalRejected _ | RecoveryRequired _ => log_same s s'
  end.
Proof.
  intros He. apply execute_log, log_step_effect in He as [(at_ & Hat & Hl & r & ->)|[Hl Hne]]; [by exists at_|].
  destruct o as [r| | |]; [|done..]. by destruct (Hne r).
Qed.

Lemma event_log_of_one_command_witness :
  exists at_, logged (H := Scenario.env) (Scenario.id 40) at_ Scenario.with_selected
    (after (H := Scenario.env) Scenario.no_asset_replay Scenario.with_selected Scenario.ctx
       (Scenario.transition_t 40 34 1 Creative.Select (Some (Scenario.id 31, 2)) [41; 42; 43])).
Proof.
  pose (c := Scenario.transition_t 40 34 1 Creative.Select (Some (Scenario.id 31, 2)) [41; 42; 43]).
  destruct (event_log_of_one_command Scenario.env Scenario.no_asset_replay Scenario.with_selected
    (after (H := Scenario.env) Scenario.no_asset_replay Scenario.with_selected Scenario.ctx c) Scenario.ctx c
    (Applied (Versioned (Scenario.id 34) (VrTake 2 2 Creative.Selected (Scenario.id 50) (Some (Scenario.id 31))) Scenario.now)))
    as (at_ & _ & Hl); [|exists at_; exact Hl].
  apply execute_answer. vm_compute. reflexivity.
Defined.

(** C4: The log over any history of commands: existing events are never changed
    or removed, the commit counter never moves back, and a log whose sequence
    numbers are exactly 1..last stays so: no gap, no duplicate. *)
Theorem event_log_is_dense_and_append_only (E : StoreEnv)
    (replay_asset_result : Store -> CommandRow -> result AssetStoreError CommandResult)
    (s : Store) (cs : list (StoreContext * CreativeCommand)) :
  let s' := run replay_asset_result s cs in
  events s `prefix_of` events s' /\ last_sequence s <= last_sequence s' /\ (dense s -> dense s').
Proof.
  cbv zeta. unfold run. revert s. induction cs as [|[ctx c] cs IH]; intros s; cbn; [by split_and!|].
  destruct (after_log replay_asset_result s ctx c) as (H1 & H2 & H3). destruct (IH (after replay_asset_result s ctx c)) as (H4 & H5 & H6).
  split_and!; [by etrans|lia|auto].
Qed.
End CreativeEvents.

Module CreativeRejections.
Import Ports Ledger Store Frame Steps.

Section rejections.
Context `{StoreEnv} (replay_asset_result : Store -> CommandRow -> result AssetStoreError CommandResult).
Local Abbreviation execute := (execute replay_asset_result).

(** The revision a command is about to move on, for the two commands that write before
    the last check that can reject them. *)
Definition own_revision (s : Store) (c : CreativeCommand) : option Z :=
  match c with
  | ReviseProjectSpec r => option_map pj_revision (projects s !! rp_project_id r)
  | ReviseWork r => option_map wi_revision (work_items s !! rw_work_item_id r)
  | _ => None
  end.
(** The rejection that comes after the writes: the revision itself has a successor, but the
    event log has no sequence number left. *)
Definition rejected_late (s : Store) (c : CreativeCommand) (code : ErrorCode) : Prop :=
  code = RevisionExhausted /\ I64_MAX <= last_sequence s /\ exists z, own_revision s c = Some z /\ z < U32_MAX.

(** Only the ledger row of the command differs. *)
Definition ledger_only (ctx : StoreContext) (b : CommandBinding) (code : ErrorCode) (s s' : Store) : Prop :=
  exists at_, s' = with_commands s (<[cb_command_id b := rejected_claim ctx b at_ code]> (commands s)).

Lemma reject_now s ctx b at_ code :
  ledger_only ctx b code s
    (with_commands (with_commands s (<[cb_command_id b := claim_row ctx b at_]> (commands s)))
       (alter (fun row => rejected_row row code at_) (cb_command_id b) (<[cb_command_id b := claim_row ctx b at_]> (commands s)))).
Proof. exists at_. cbn. by rewrite alter_insert_eq. Qed.

Lemma read_work_revision_no_Some s i p z :
  read_work_revision_no s i p = Some z -> exists w, work_items s !! i = Some w /\ wi_project w = p /\ z = wi_revision w.
Proof. unfold read_work_revision_no. repeat case_match; try done. intros [= <-]. bool_hyps. eauto. Qed.
Lemma room_left z next n : checked_add U64_MAX z 1 = Some next -> try_into U32_MAX next = Some n -> z < U32_MAX.
Proof. intros [-> _]%checked_add_Some [-> ?]%try_into_Some. lia. Qed.
Lemma exhausted_sequences s : allocate_event_sequences s 1 = Err SeRevisionExhausted -> I64_MAX <= last_sequence s.
Proof. unfold allocate_event_sequences. cbn. case_match; [done|]. lia. Qed.

(** Symbolically execute a command; [o] stays a variable until the end. *)
Ltac clean_command Hc Ho :=
  let Hb := fresh "Hb" in
  apply unless_replayed_inv in Hc as [[Hc ->]|[_ Hb]]; [by left|right]; crunch Hb; simplify_eq;
  try (left; apply reject_now).

Lemma rejection_clean s ctx c o code s' :
  o = TerminalRejected code -> execute s ctx c = Ok (o, s') ->
  s' = s \/ ledger_only ctx (binding_of c) code s s' \/ rejected_late s c code.
Proof.
  intros Ho Hc. destruct c; cbn [Store.execute binding_of own_revision] in *;
    unfold create_project, revise_project_spec, create_subject, create_work, revise_work, create_take,
      transition_take, reopen_take, write_transition in Hc; clean_command Hc Ho.
  all: right; split; [done|]; split; [match goal with E : allocate_event_sequences _ 1 = Err _ |- _ => exact (exhausted_sequences _ E) end|];
    cbn [own_revision].
  - match goal with E : projects _ !! _ = Some ?p |- _ => cbn in E; rewrite E; exists (pj_revision p) end.
    split; [reflexivity|by eapply room_left].
  - match goal with E : read_work_revision_no _ _ _ = Some _ |- _ =>
      apply read_work_revision_no_Some in E as (? & E & _ & Hz); cbn in E; rewrite E end.
    eexists. split; [reflexivity|]. rewrite <- Hz. by eapply room_left.
Qed.

Lemma replay_existing_fresh s ctx b kind o :
  commands s !! cb_command_id b = None -> replay_existing replay_asset_result s ctx b kind <> Ok (Some o).
Proof. intros Hn. unfold replay_existing, read_command. by rewrite Hn. Qed.

(** A revision that runs out of event sequences has already been written. *)
Lemma revise_work_exhausted s ctx r o s' w :
  commands s !! cb_command_id (rw_binding r) = None -> o = TerminalRejected RevisionExhausted ->
  revise_work replay_asset_result s ctx r = Ok (o, s') ->
  work_items s !! rw_work_item_id r = Some w -> 0 <= wi_revision w < U32_MAX ->
  exists revision_id at_,
    work_items s' !! rw_work_item_id r = Some (revised_work_item w revision_id (wi_revision w + 1) at_) /\
    is_Some (work_revisions s' !! revision_id) /\ work_revisions s !! revision_id = None /\ events s' = events s.
Proof.
  intros Hn Ho Hc Hw Hr. apply unless_replayed_inv in Hc as [[Hc _]|[_ Hb]]; [by eapply replay_existing_fresh in Hc|].
  crunch Hb; simplify_eq;
    try match goal with E : read_work_revision_no _ _ _ = Some _ |- _ => apply read_work_revision_no_Some in E as (? & ? & ? & ->) end;
    cbn [work_items with_commands with_relationships with_work_revisions with_work_items work_revisions events] in *; simplify_eq.
  all: repeat match goal with
    | E : checked_add _ _ _ = Some _ |- _ => apply checked_add_Some in E as [-> ?]
    | E : checked_add _ _ _ = None |- _ => apply checked_add_None in E
    | E : try_into _ _ = Some _ |- _ => apply try_into_Some in E as [-> ?]
    end.
  all: first
    [ unfold U64_MAX, U32_MAX in *; lia
    | match goal with E : try_into _ _ = None |- _ => rewrite try_into_id in E by (unfold_max; lia); discriminate E end
    | eexists _, _; rewrite !lookup_insert_eq; by split_and!; eauto ].
Qed.

Lemma replay_existing_rejected s ctx b kind code :
  replay_existing replay_asset_result s ctx b kind = Ok (Some (TerminalRejected code)) ->
  exists row, commands s !! cb_command_id b = Some row /\ c_state row = TERMINAL_REJECTED.
Proof.
  unfold replay_existing, read_command. destruct (commands s !! cb_command_id b) as [row|]; [|done]. intros Hr.
  exists row. split; [done|]. passed Hr as E. apply result_bind_ok in Hr as (row' & Hv & Hr).
  assert (row' = row) as -> by (unfold validate_command_row in Hv; by inv_result).
  apply result_bind_ok in Hr as (o & Hp & Hr). injection Hr as ->. unfold replay_pure in Hp.
  destruct (c_state row); try done. case_match; [|done]. by apply result_bind_ok in Hp as (? & _ & [=]).
Qed.
End rejections.

(** C6: Atomicity of rejections: a command that answers with a terminal rejection
    either replays the recorded rejection on an unchanged store or, on a free
    identity, changes nothing but its own ledger row, which becomes the rejected
    claim with that code, and in any case writes no event.  The one exception is a
    revising command whose own revision can still grow while no event sequence is
    left; a command rejected because its own revision is exhausted is atomic too. *)
Theorem rejection_changes_only_the_ledger (E : StoreEnv)
    (replay_asset_result : Store -> CommandRow -> result AssetStoreError CommandResult)
    (s s' : Store) (ctx : StoreContext) (c : CreativeCommand) (code : ErrorCode) :
  execute replay_asset_result s ctx c = Ok (TerminalRejected code, s') ->
  match commands s !! cb_command_id (binding_of c) with
  | Some row => s' = s /\ c_state row = TERMINAL_REJECTED
  | None => is_pure_rejection_code code = true /\ CreativeEvents.log_same s s' /\
      (ledger_only ctx (binding_of c) code s s' \/ rejected_late s c code)
  end.
Proof.
  intros He. pose proof (rejection_clean _ _ _ _ _ _ _ eq_refl He) as Hcl.
  pose proof (CreativeEvents.execute_log _ _ _ _ _ _ He) as Hlog.
  apply CreativeEvents.log_step_effect in Hlog as [(at_ & _ & _ & r & [=])|[Hlog _]].
  apply execute_effect in He as [[Hr ->]|(at_ & _ & Hn & _ & Hrow & Hcode)].
  - by destruct (replay_existing_rejected _ _ _ _ _ _ Hr) as (row & -> & ?).
  - rewrite Hn. split; [done|]. split; [done|]. destruct Hcl as [->|Hcl]; [congruence|done].
Qed.

Lemma rejection_changes_only_the_ledger_witness :
  let c := Scenario.transition_t 40 31 7 Creative.Approve None [41; 42; 43] in
  ledger_only Scenario.ctx (binding_of c) Conflict Scenario.with_selected
    (after (H := Scenario.env) Scenario.no_asset_replay Scenario.with_selected Scenario.ctx c).
Proof.
  intros c.
  assert (Hn : commands Scenario.with_selected !! cb_command_id (binding_of c) = None) by (vm_compute; reflexivity).
  pose proof (rejection_changes_only_the_ledger Scenario.env Scenario.no_asset_replay Scenario.with_selected
            (after (H := Scenario.env) Scenario.no_asset_replay Scenario.with_selected Scenario.ctx c) Scenario.ctx c Conflict) as Ht.
  rewrite Hn in Ht. destruct Ht as (_ & _ & [Ht|[Ht _]]); [|exact Ht|discriminate Ht].
  apply execute_answer. vm_compute. reflexivity.
Defined.

(** C36: The exception to the atomicity of rejections is real: when [revise_work] answers a fresh command
    with RevisionExhausted although the work item's own revision can still grow,
    the transaction it commits has already moved the work item to the next
    revision and stored the new work revision, without any event: the client sees
    a rejection of a change that was made. *)
Theorem exhausted_revision_is_committed (E : StoreEnv)
    (replay_asset_result : Store -> CommandRow -> result AssetStoreError CommandResult)
    (s s' : Store) (ctx : StoreContext) (r : ReviseWorkCommand) (w : WorkItemRow) :
  commands s !! cb_command_id (rw_binding r) = None ->
  execute replay_asset_result s ctx (ReviseWork r) = Ok (TerminalRejected RevisionExhausted, s') ->
  work_items s !! rw_work_item_id r = Some w -> 0 <= wi_revision w < U32_MAX ->
  exists revision_id at_,
    work_items s' !! rw_work_item_id r = Some (revised_work_item w revision_id (wi_revision w + 1) at_) /\
    is_Some (work_revisions s' !! revision_id) /\ work_revisions s !! revision_id = None /\ events s' = events s.
Proof. intros Hn Hr. by eapply revise_work_exhausted. Qed.

Definition exhausted_scenario : Store := with_last_sequence Scenario.with_work I64_MAX.
Definition exhausted_revise : ReviseWorkCommand := {|
  rw_binding := Scenario.binding 60 WORK_REVISE_V1; rw_project_id := Scenario.id 11; rw_work_item_id := Scenario.id 21;
  rw_expected_revision := 1; rw_specification := Scenario.work_specification; rw_values := Scenario.values [61; 62; 63] |}.

Lemma exhausted_revision_is_committed_witness :
  let s' := after (H := Scenario.env) Scenario.no_asset_replay exhausted_scenario Scenario.ctx (ReviseWork exhausted_revise) in
  option_map wi_revision (work_items exhausted_scenario !! Scenario.id 21) = Some 1 /\
  option_map wi_revision (work_items s' !! Scenario.id 21) = Some 2.
Proof.
  intros s'. destruct (work_items exhausted_scenario !! Scenario.id 21) as [w|] eqn:Ew; [|vm_compute in Ew; discriminate Ew].
  assert (wi_revision w = 1) as Hw.
  { change (wi_revision w) with (from_option wi_revision 0 (Some w)). rewrite <- Ew. vm_compute. reflexivity. }
  destruct (exhausted_revision_is_committed Scenario.env Scenario.no_asset_replay exhausted_scenario s' Scenario.ctx
    exhausted_revise w) as (rid & at_ & Hit & _).
  - vm_compute. reflexivity.
  - apply execute_answer. vm_compute. reflexivity.
  - exact Ew.
  - rewrite Hw. vm_compute. split; [discriminate|reflexivity].
  - cbn [rw_work_item_id exhausted_revise] in Hit. rewrite Hit. cbn. rewrite Hw. split; reflexivity.
Defined.
End CreativeRejections.
