(* ===== verification/CreativeTakes.v ===== *)
(** Takes over any history of commands: selection, ordinals and lifecycle. *)
From Stdlib Require Import ZArith Lia String.
From Stdlib Require Import Strings.Byte Init.Byte.
From stdpp Require Import prelude list gmap relations.
From S2P Require Import Prelude RustText Types Events AssetDomain CreativeDomain Ports CommandLedger CreativeStore StoreScenario StoreFrame StoreSteps.

Set Warnings "-clear-no-such-hyp".

Module CreativeTakes.
Import Ports Ledger Store Frame Steps.

(** ** The invariant *)

Definition one_selected (m : gmap Id TakeRow) : Prop :=
  forall i j a b, m !! i = Some a -> m !! j = Some b -> tk_work_revision a = tk_work_revision b ->
    tk_state a = Creative.Selected -> tk_state b = Creative.Selected -> i = j.
Definition ordinals_unique (m : gmap Id TakeRow) : Prop :=
  forall i j a b, m !! i = Some a -> m !! j = Some b -> tk_work_revision a = tk_work_revision b ->
    tk_ordinal a = tk_ordinal b -> i = j.
(** A take belongs to a stored work revision, shows a stored asset and is in range. *)
Definition anchored (s : Store) (t : TakeRow) : Prop :=
  is_Some (work_revisions s !! tk_work_revision t) /\ tk_primary_asset t ∈ assets s /\
  1 <= tk_ordinal t <= U32_MAX /\ 1 <= tk_revision t <= U64_MAX.

Record takes_wf (s : Store) : Prop := {
  tw_selected : one_selected (takes s);
  tw_ordinals : ordinals_unique (takes s);
  tw_anchored : map_Forall (fun _ => anchored s) (takes s) }.

(** ** Preservation *)

Lemma takes_wf_same c s s' : grows c s s' -> takes s' = takes s -> takes_wf s -> takes_wf s'.
Proof.
  intros Hg Ht [H1 H2 H3]. constructor; rewrite Ht; [done..|]. intros i t Hi. destruct (H3 _ _ Hi) as ([w Hw] & Ha & ?).
  split_and!; try lia; [|by rewrite (g_assets _ _ _ Hg)].
  destruct (g_work_revisions _ _ _ Hg _ _ Hw) as (? & -> & _). eauto.
Qed.

Lemma takes_wf_insert s i t :
  takes s !! i = None -> ~ map_Exists (fun _ r => tk_work_revision r = tk_work_revision t /\ tk_ordinal r = tk_ordinal t) (takes s) ->
  tk_state t <> Creative.Selected -> anchored s t -> takes_wf s -> takes_wf (with_takes s (<[i := t]> (takes s))).
Proof.
  intros Hi Hord Hst Han [H1 H2 H3].
  assert (forall j r, takes s !! j = Some r -> tk_work_revision r = tk_work_revision t -> tk_ordinal r <> tk_ordinal t) as Hne.
  { intros j r Hj Hw Ho. apply Hord. by exists j, r. }
  constructor; cbn.
  - intros j k a b Ha Hb Hw Hsa Hsb. apply lookup_insert_Some in Ha as [[<- <-]|[_ Ha]]; [done|].
    apply lookup_insert_Some in Hb as [[<- <-]|[_ Hb]]; [done|]. by eapply H1.
  - intros j k a b Ha Hb Hw Ho. apply lookup_insert_Some in Ha as [[<- <-]|[_ Ha]];
      apply lookup_insert_Some in Hb as [[<- <-]|[_ Hb]]; [done| | |by eapply H2].
    + by destruct (Hne _ _ Hb).
    + by destruct (Hne _ _ Ha).
  - by apply map_Forall_insert_2.
Qed.

Lemma selected_clash_false s i t j r :
  selected_clash s i t = false -> tk_state t = Creative.Selected -> takes s !! j = Some r -> j <> i ->
  tk_work_revision r = tk_work_revision t -> tk_state r <> Creative.Selected.
Proof.
  unfold selected_clash, selected_elsewhere. intros Hc Ht Hj Hne Hw Hs. rewrite (bool_decide_eq_true_2 _ Ht) in Hc. cbn in Hc.
  apply bool_decide_eq_false in Hc. apply Hc. by exists j, r.
Qed.

Lemma takes_wf_update s i r st rev at_ :
  takes s !! i = Some r -> 1 <= rev <= U64_MAX -> selected_clash s i (moved_take r st rev at_) = false ->
  takes_wf s -> takes_wf (with_takes s (<[i := moved_take r st rev at_]> (takes s))).
Proof.
  intros Hi Hrev Hcl [H1 H2 H3].
  constructor; cbn.
  - intros j k a b Ha Hb Hw Hsa Hsb. apply lookup_insert_Some in Ha as [[<- <-]|[? Ha]];
      apply lookup_insert_Some in Hb as [[<- <-]|[? Hb]]; [done| | |by eapply H1].
    + by destruct (selected_clash_false _ _ _ _ _ Hcl Hsa Hb ltac:(done)).
    + by destruct (selected_clash_false _ _ _ _ _ Hcl Hsb Ha ltac:(done)).
  - intros j k a b Ha Hb Hw Ho. apply lookup_insert_Some in Ha as [[<- <-]|[? Ha]];
      apply lookup_insert_Some in Hb as [[<- <-]|[? Hb]]; [done|by eapply H2..].
  - apply map_Forall_insert_2; [|done]. by destruct (H3 _ _ Hi) as (? & ? & ? & _).
Qed.

(** Only three tables matter. *)
Lemma takes_wf_ext s s' :
  takes s' = takes s -> work_revisions s' = work_revisions s -> assets s' = assets s -> takes_wf s -> takes_wf s'.
Proof. intros Ht Hw Ha [H1 H2 H3]. constructor; rewrite Ht; try done. unfold anchored. by rewrite Hw, Ha. Qed.

Lemma max_ordinal_nonneg s w : 0 <= max_ordinal s w.
Proof.
  unfold max_ordinal. apply (map_fold_weak_ind (fun (acc : Z) _ => 0 <= acc)); [done|].
  intros i x m r _ Hr. case_match; lia.
Qed.

Lemma next_take_ordinal_ok s w n :
  next_take_ordinal s w = Ok n -> n = max_ordinal s w + 1 /\ 1 <= n <= U32_MAX.
Proof.
  unfold next_take_ordinal. pose proof (max_ordinal_nonneg s w). intros Hn. apply ok_or_ok in Hn.
  apply bind_Some in Hn as (o & Ho & Hn). apply try_into_Some in Ho as [-> Ho].
  apply bind_Some in Hn as (v & Hv & Hn). apply checked_add_Some in Hv as [-> Hv]. case_match; [done|]. injection Hn as <-. lia.
Qed.

Lemma take_context_exists_revision s p w wr :
  take_context_exists s p w wr = true ->
  exists row item, work_revisions s !! wr = Some row /\ work_items s !! w = Some item /\
    wr_work_item row = w /\ wi_project item = p.
Proof. unfold take_context_exists. repeat case_match; try done. intros. bool_hyps. eauto 10. Qed.

Section preservation.
Context `{StoreEnv} (replay_asset_result : Store -> CommandRow -> result AssetStoreError CommandResult).
Local Abbreviation execute := (execute replay_asset_result).
Local Abbreviation run := (run replay_asset_result).

Definition is_take_command (c : CreativeCommand) : bool :=
  match c with CreateTake _ | TransitionTake _ | ReopenTake _ => true | _ => false end.

Lemma other_commands_takes s ctx c o s' :
  is_take_command c = false -> execute s ctx c = Ok (o, s') -> takes s' = takes s.
Proof.
  intros Hk Hc. destruct c; try discriminate Hk; cbn [Store.execute] in Hc;
    apply unless_replayed_inv in Hc as [[_ ->]|[_ Hb]]; [done| |done| |done| |done| |done|]; crunch Hb; reflexivity.
Qed.

(** The row a new take is stored with, checked against the claimed store. *)
Lemma new_take_anchored s p w wr a n q b at_ st :
  take_context_exists s p w wr = true -> asset_exists s a = true -> next_take_ordinal s wr = Ok n ->
  anchored s (take_row wr n st a q b at_).
Proof.
  intros Hc Ha Hn. apply take_context_exists_revision in Hc as (row & item & Hr & _). apply next_take_ordinal_ok in Hn as [_ Hn].
  unfold asset_exists in Ha. bool_hyps. unfold anchored; cbn. split_and!; eauto; try lia. by unfold_max.
Qed.

Lemma create_take_wf s ctx r o s' :
  create_take replay_asset_result s ctx r = Ok (o, s') -> takes_wf s -> takes_wf s'.
Proof.
  intros Hc Hwf. apply unless_replayed_inv in Hc as [[_ ->]|[_ Hb]]; [done|]. crunch Hb;
    try (eapply takes_wf_ext; [..|exact Hwf]; reflexivity).
  apply orb_false_iff in Heqb as [Hctx Hasset]. bool_hyps.
  eapply (takes_wf_ext (with_takes s (<[_ := _]> (takes s)))); [reflexivity..|].
  eapply takes_wf_insert; [eassumption|eassumption|done| |done].
  by eapply (new_take_anchored s).
Qed.

Lemma reopen_take_wf s ctx r o s' :
  reopen_take replay_asset_result s ctx r = Ok (o, s') -> takes_wf s -> takes_wf s'.
Proof.
  intros Hc Hwf. apply unless_replayed_inv in Hc as [[_ ->]|[_ Hb]]; [done|]. crunch Hb;
    try (eapply takes_wf_ext; [..|exact Hwf]; reflexivity).
  apply orb_false_iff in Heqb as [Hctx Hasset]. bool_hyps.
  eapply (takes_wf_ext (with_takes s (<[_ := _]> (takes s)))); [reflexivity..|].
  eapply takes_wf_insert; [eassumption|eassumption|done| |done].
  by eapply (new_take_anchored s).
Qed.

Lemma selected_clash_other s i t : tk_state t <> Creative.Selected -> selected_clash s i t = false.
Proof. intros Ht. unfold selected_clash. by rewrite bool_decide_eq_false_2. Qed.

(** The takes after the writes to the related take. *)
Lemma write_related_wf s r related repl e1 rel q at_ s' :
  plan_checked s r related repl -> write_related s r related repl e1 rel q at_ = Ok s' -> takes_wf s -> takes_wf s'.
Proof.
  intros Hp Hw Hwf. apply write_related_inv in Hw. cbv zeta in Hw. destruct repl as [[[sid srev] snext]|].
  - destruct Hw as (row & p & Hrow & Hrev & Hst & _ & ->).
    eapply (takes_wf_ext (with_takes s (<[sid := _]> (takes s)))); [reflexivity..|].
    apply takes_wf_update; [done| |by apply selected_clash_other|done].
    destruct (tw_anchored _ Hwf _ _ Hrow) as (_ & _ & _ & ?). unfold plan_checked in Hp.
    destruct (tt_transition r); try done. destruct Hp as (_ & _ & -> & ? & _). lia.
  - destruct (tt_transition r); try by subst. destruct Hw as (rid & _ & ->). by eapply takes_wf_ext; [..|exact Hwf].
Qed.

Lemma transition_take_wf s ctx r o s' :
  transition_take replay_asset_result s ctx r = Ok (o, s') -> takes_wf s -> takes_wf s'.
Proof.
  intros Hc Hwf. apply unless_replayed_inv in Hc as [[_ ->]|[_ Hb]]; [done|]. unfold write_transition in Hb. crunch Hb;
    try (eapply takes_wf_ext; [..|exact Hwf]; reflexivity).
  match goal with E : transition_plan _ _ = Ok _ |- _ => pose proof (proj1 (transition_plan_go _ _ _ _) E) as Hplan end.
  match goal with E : checked_add _ _ _ = Some _ |- _ => apply checked_add_Some in E as [-> Hmax] end.
  match goal with E : write_related _ _ _ _ _ _ _ _ = Ok ?x |- _ =>
    rename x into s3; apply write_related_wf in E as Hwf3;
      [|exact Hplan|eapply takes_wf_ext; [..|exact Hwf]; reflexivity] end.
  match goal with Ht : takes s3 !! _ = Some ?u |- _ => rename u into row; rename Ht into Hrow end.
  destruct (tw_anchored _ Hwf3 _ _ Hrow) as (_ & _ & _ & ?).
  eapply (takes_wf_ext (with_takes s3 (<[tt_take_id r := _]> (takes s3)))); [reflexivity..|].
  apply takes_wf_update; [done|lia|done|done].
Qed.

Lemma after_wf s ctx c : takes_wf s -> takes_wf (after replay_asset_result s ctx c).
Proof.
  intros Hwf. unfold after. destruct (execute s ctx c) as [[o s']|] eqn:E; [|done].
  destruct (is_take_command c) eqn:Ek.
  - destruct c; try discriminate Ek; cbn [Store.execute] in E;
      eauto using create_take_wf, reopen_take_wf, transition_take_wf.
  - pose proof (other_commands_takes _ _ _ _ _ Ek E) as Ht.
    apply execute_effect in E as [[_ ->]|(? & _ & _ & Hg & _)]; [done|]. by eapply takes_wf_same.
Qed.

Lemma run_wf s cs : takes_wf s -> takes_wf (run s cs).
Proof.
  unfold Store.run. revert s. induction cs as [|[ctx c] cs IH]; intros s Hwf; cbn; [done|]. by apply IH, after_wf.
Qed.

(** ** What survives a history *)

Record survives (s s' : Store) : Prop := {
  sv_takes : map_grows take_le (takes s) (takes s');
  sv_projects : map_grows project_le (projects s) (projects s');
  sv_work_items : map_grows work_item_le (work_items s) (work_items s');
  sv_specs : map_grows eq (specs s) (specs s');
  sv_subjects : map_grows eq (subjects s) (subjects s');
  sv_work_revisions : map_grows eq (work_revisions s) (work_revisions s');
  sv_relationships : relationships s `prefix_of` relationships s' }.

#[global] Instance survives_preorder : PreOrder survives.
Proof.
  split; [intros s; by constructor|]. intros a b d [] []. constructor; etrans; eassumption.
Qed.

Lemma grows_survives c s s' : grows c s s' -> survives s s'.
Proof. intros Hg. constructor; try apply Hg. destruct (g_relationships _ _ _ Hg) as (new & -> & _). by exists new. Qed.

Lemma after_survives s ctx c : survives s (after replay_asset_result s ctx c).
Proof.
  unfold after. destruct (execute s ctx c) as [[o s']|] eqn:E; [|done].
  apply execute_effect in E as [[_ ->]|(? & _ & _ & Hg & _)]; [done|]. by eapply grows_survives.
Qed.

Lemma run_survives s cs : survives s (run s cs).
Proof.
  unfold Store.run. revert s. induction cs as [|[ctx c] cs IH]; intros s; cbn; [done|].
  etrans; [apply after_survives|apply IH].
Qed.
End preservation.

(** C2: Invariant of takes: over any history of creative commands, each work
    revision has at most one SELECTED take, ordinals are unique within a work
    revision, every take belongs to a stored work revision and shows a stored
    asset, and ordinals and revisions stay within u32 and u64. *)
Theorem takes_stay_well_formed (E : StoreEnv)
    (replay_asset_result : Store -> CommandRow -> result AssetStoreError CommandResult)
    (s : Store) (cs : list (StoreContext * CreativeCommand)) :
  takes_wf s -> takes_wf (run replay_asset_result s cs).
Proof. apply run_wf. Qed.

Lemma takes_stay_well_formed_witness : takes_wf Scenario.with_replaced.
Proof.
  unfold Scenario.with_replaced, Scenario.with_selected, Scenario.with_takes2, Scenario.with_work, Scenario.run_.
  do 4 apply takes_stay_well_formed. constructor; cbn.
  - intros i j a b Ha. rewrite lookup_empty in Ha. discriminate Ha.
  - intros i j a b Ha. rewrite lookup_empty in Ha. discriminate Ha.
  - apply map_Forall_empty.
Defined.

(** C5: Nothing is lost or rewritten: after any history every project
    specification, subject, work revision and relationship is still stored
    unchanged; projects and work items keep their identity columns and their
    revisions never decrease; a take keeps its work revision, ordinal, asset and
    provenance and moves only along edges of the take state machine, one revision
    per edge, so a take in a terminal state never changes again. *)
Theorem history_is_preserved (E : StoreEnv)
    (replay_asset_result : Store -> CommandRow -> result AssetStoreError CommandResult)
    (s : Store) (cs : list (StoreContext * CreativeCommand)) :
  let s' := run replay_asset_result s cs in
  survives s s' /\
  forall i t, takes s !! i = Some t -> Creative.is_terminal (tk_state t) = true -> takes s' !! i = Some t.
Proof.
  cbv zeta. pose proof (run_survives replay_asset_result s cs) as Hs. split; [done|]. intros i t Hi Ht.
  destruct (sv_takes _ _ Hs _ _ Hi) as (t' & Hi' & Hle). by rewrite Hi', (take_le_terminal _ _ Ht Hle).
Qed.
End CreativeTakes.
