(* ===== verification/CreativeTransitions.v ===== *)
(** The transition of a take: what is checked, what is written, and the request
    shape the code answers with an internal error. *)
From Stdlib Require Import ZArith Lia String.
From Stdlib Require Import Strings.Byte Init.Byte.
From stdpp Require Import prelude list gmap relations.
From S2P Require Import Prelude RustText Types Events AssetDomain CreativeDomain Ports CommandLedger CreativeStore StoreScenario StoreFrame StoreSteps.

Set Warnings "-clear-no-such-hyp".

Module CreativeTransitions.
Import Ports Ledger Store Frame Steps.

Section transitions.
Context `{StoreEnv} (replay_asset_result : Store -> CommandRow -> result AssetStoreError CommandResult).
Local Abbreviation execute := (execute replay_asset_result).

(** The takes once the selected take [repl], if any, was superseded. *)
Definition replaced_takes (m : gmap Id TakeRow) (repl : option (Id * Z * Z)) (at_ : Timestamp) : gmap Id TakeRow :=
  match repl with
  | Some (sid, _, snext) => alter (fun row => moved_take row Creative.Superseded snext at_) sid m
  | None => m
  end.
(** The edge a transition records. *)
Definition transition_edges (r : TransitionTakeCommand) (related : option Id) (repl : option (Id * Z * Z))
    (rel : Id) (at_ : Timestamp) : list RelationshipRow :=
  match repl, tt_transition r, related with
  | Some (sid, _, _), _, _ => [supersedes_edge rel (tt_take_id r) sid (tt_binding r) at_]
  | None, Creative.Supersede, Some rid => [supersedes_edge rel rid (tt_take_id r) (tt_binding r) at_]
  | _, _, _ => []
  end.

(** The checks a fresh transition passed on the store it ran on. *)
Record transition_checked (s : Store) (r : TransitionTakeCommand) (row : TakeRow) (target : Creative.TakeState)
    (related : option Id) (repl : option (Id * Z * Z)) : Prop := {
  tc_context : take_context_exists s (tt_project_id r) (tt_work_item_id r) (tt_work_revision_id r) = true;
  tc_take : read_take s (tt_take_id r) (tt_work_revision_id r) = Some row;
  tc_revision : tk_revision row = tt_expected_revision r;
  tc_edge : Creative.transition (tk_state row) (tt_transition r) = Ok target;
  tc_asset : tt_transition r = Creative.Shortlist -> asset_exists s (tk_primary_asset row) = true;
  tc_next : tk_revision row + 1 <= U64_MAX;
  tc_plan : plan_checked s r related repl }.

Lemma write_related_tables s r related repl e1 rel q at_ s' :
  plan_checked s r related repl -> write_related s r related repl e1 rel q at_ = Ok s' ->
  takes s' = replaced_takes (takes s) repl at_ /\ relationships s' = relationships s ++ transition_edges r related repl rel at_ /\
  projects s' = projects s /\ specs s' = specs s /\ subjects s' = subjects s /\ work_items s' = work_items s /\
  work_revisions s' = work_revisions s /\ assets s' = assets s.
Proof.
  intros Hp Hw. apply write_related_inv in Hw. cbv zeta in Hw. unfold transition_edges, replaced_takes, plan_checked in *.
  destruct repl as [[[sid srev] snext]|].
  - destruct Hw as (row & p & Hrow & _ & _ & _ & ->). cbn. split_and!; try done.
    apply map_eq. intros i. destruct (decide (sid = i)) as [<-|Hne].
    + by rewrite lookup_insert_eq, lookup_alter_eq, Hrow.
    + by rewrite lookup_insert_ne, lookup_alter_ne.
  - destruct (tt_transition r); [subst; rewrite app_nil_r; by split_and!..|].
    destruct Hw as (rid & -> & ->). by split_and!.
Qed.

Lemma complete_result primary payload at_ row r s' :
  replay_creative_result s' (completed_row row primary payload at_) = Ok r ->
  exists p, r = Versioned primary p at_ /\ encode p = encode payload /\ result_kind p = result_kind payload.
Proof.
  unfold replay_creative_result. cbn -[decode]. intros Hr.
  apply result_bind_ok in Hr as (i & Hi & Hr). unfold id_bytes in Hi. cbn in Hi. passed Hi as Ei. injection Hi as <-.
  apply result_bind_ok in Hr as (p & Hp & Hr). passed Hr as E1. passed Hr as E2.
  apply result_bind_ok in Hr as (? & _ & Hr). injection Hr as <-.
  apply encode_decode in Hp as (Hk & He & _). exists p. by destruct at_.
Qed.

Lemma transition_take_applied s ctx r o s' res :
  commands s !! cb_command_id (tt_binding r) = None -> o = Applied res ->
  transition_take replay_asset_result s ctx r = Ok (o, s') ->
  exists row target related repl e1 e2 rel at_ p,
    with_values (tt_values r) sample3 = Ok (e1, e2, rel, at_) /\
    transition_checked s r row target related repl /\
    res = Versioned (tt_take_id r) p at_ /\
    encode p = encode (VrTake (tk_revision row + 1) (tk_ordinal row) target (tk_primary_asset row) related) /\
    takes s' = <[tt_take_id r := moved_take row target (tk_revision row + 1) at_]> (replaced_takes (takes s) repl at_) /\
    relationships s' = relationships s ++ transition_edges r related repl rel at_ /\
    projects s' = projects s /\ specs s' = specs s /\ subjects s' = subjects s /\ work_items s' = work_items s /\
    work_revisions s' = work_revisions s /\ assets s' = assets s.
Proof.
  intros Hn Ho Hc. apply unless_replayed_inv in Hc as [[Hc _]|[_ Hb]].
  { unfold replay_existing, read_command in Hc. by rewrite Hn in Hc. }
  unfold write_transition in Hb. crunch Hb; try discriminate Ho. injection Ho as ->.
  match goal with E : transition_plan _ _ = Ok _ |- _ => pose proof (proj1 (transition_plan_go _ _ _ _) E) as Hplan end.
  match goal with E : checked_add _ _ _ = Some _ |- _ => apply checked_add_Some in E as [-> Hmax] end.
  match goal with E : replay_creative_result _ _ = Ok _ |- _ => apply complete_result in E as (p & -> & Henc & _) end.
  match goal with E : write_related _ _ _ _ _ _ _ _ = Ok ?x |- _ =>
    rename x into s3; rename E into Hwr; pose proof (fun H => write_related_writes _ _ _ _ _ _ _ _ _ H Hwr) as Hsame;
    apply write_related_tables in Hwr as (Htk & Hrl & ? & ? & ? & ? & ? & ?); [|exact Hplan] end.
  destruct (Hsame Hplan) as [_ Hrow3]. clear Hsame.
  match goal with E : takes s3 !! _ = Some ?u, R : read_take _ _ _ = Some ?row |- _ =>
    assert (u = row) as -> by (apply read_take_Some in R as [R _]; cbn in Hrow3, R; congruence) end.
  eexists _, _, _, _, _, _, _, _, p. split_and!; [eassumption| |reflexivity|exact Henc|..];
    cbn [takes relationships projects specs subjects work_items work_revisions assets with_commands with_events with_takes];
    rewrite ?Htk, ?Hrl; try done.
  bool_hyps. constructor; try done. intros Hs.
  match goal with E : bool_decide _ && _ = false |- _ => apply andb_false_iff in E as [E|E]; bool_hyps; first [done|exact E] end.
Qed.

(** ** The request that fails internally *)

(** The take a transition records as the superseding one. *)
Definition edge_source (r : TransitionTakeCommand) (related : option Id) (repl : option (Id * Z * Z)) : option Id :=
  match repl, tt_transition r with
  | Some _, _ => Some (tt_take_id r)
  | None, Creative.Supersede => related
  | None, _ => None
  end.
Definition supersedes_already (s : Store) (src : Id) : Prop :=
  Exists (fun e => rl_kind e = Creative.TakeSupersedes /\ rl_source e = src) (relationships s).

Lemma insert_relationship_clash s i src dst b at_ :
  supersedes_already s src -> insert_relationship s i Creative.TakeSupersedes src dst b at_ = Err SeInternal.
Proof.
  intros Hs. unfold insert_relationship, insert_relationship_row.
  enough (existsb (relationship_clash (supersedes_edge i src dst b at_)) (relationships s) = true) as Hx
    by (unfold supersedes_edge in Hx; by rewrite Hx).
  apply existsb_exists. apply Exists_exists in Hs as (e & He & Hk & Hsrc). exists e. split; [by apply list_elem_of_In|].
  unfold relationship_clash. cbn. rewrite Hk, Hsrc, (bool_decide_eq_true_2 (Creative.TakeSupersedes = _)), (bool_decide_eq_true_2 (src = src)) by done. by rewrite !orb_true_r.
Qed.

Lemma insert_payload_event_err s i q b t a rv p at_ e :
  insert_payload_event s i q b t a rv p at_ = Err e -> e = SeInternal.
Proof.
  unfold insert_payload_event, insert_event. intros Hi. apply result_bind_err in Hi as [Hi|(pl & _ & Hi)].
  - destruct p; [|done]. unfold map_err in Hi. case_match; [done|]. by injection Hi as <-.
  - case_match; [by injection Hi as <-|done].
Qed.

Lemma write_related_clash s r related repl e1 rel q at_ src :
  plan_checked s r related repl -> edge_source r related repl = Some src -> supersedes_already s src ->
  write_related s r related repl e1 rel q at_ = Err SeInternal.
Proof.
  unfold plan_checked, edge_source, write_related. intros Hp Hsrc Hs. destruct repl as [[[sid srev] snext]|].
  - destruct (tt_transition r); try done. destruct Hp as (_ & _ & _ & _ & row & Hsel & Hrev). injection Hsrc as <-.
    apply selected_other_Some in Hsel as (Hrow & _ & _ & Hst). unfold update_take. rewrite Hrow, Hrev, Z.eqb_refl, Hst.
    rewrite bool_decide_eq_true_2 by done. cbn [negb orb andb].
    unfold selected_clash. cbn [moved_take tk_state]. rewrite bool_decide_eq_false_2 by done. cbn [andb result_bind].
    destruct (insert_payload_event _ _ _ _ _ _ _ _ _) as [s3|e] eqn:E; cbn [result_bind].
    + apply insert_relationship_clash. apply insert_payload_event_inv in E as (? & _ & ->). exact Hs.
    + by apply insert_payload_event_err in E as ->.
  - destruct (tt_transition r); try done. subst related. cbn [ok_or result_bind]. by apply insert_relationship_clash.
Qed.

Lemma execute_transition_clash s ctx r row target related repl ids at_ src :
  commands s !! cb_command_id (tt_binding r) = None -> with_values (tt_values r) sample3 = Ok (ids, at_) ->
  transition_checked s r row target related repl -> last_sequence s + 2 <= I64_MAX ->
  edge_source r related repl = Some src -> supersedes_already s src ->
  execute s ctx (TransitionTake r) = Err SeInternal.
Proof.
  intros Hn Hv [Hctx Htake Hrev Hedge Hasset Hnext Hplan] Hseq Hsrc Hs.
  cbn [Store.execute]. unfold transition_take, unless_replayed, replay_existing, read_command. rewrite Hn. cbn [result_bind].
  rewrite Hv. cbn [result_bind]. destruct ids as [[e1 e2] rel]. unfold insert_claim. rewrite Hn. cbn [result_bind].
  set (s1 := with_commands s _).
  change (take_context_exists s1) with (take_context_exists s). rewrite Hctx. cbn [negb].
  change (read_take s1) with (read_take s). rewrite Htake, Hrev, Z.eqb_refl, Hedge. cbn [negb].
  change (asset_exists s1) with (asset_exists s).
  assert (bool_decide (tt_transition r = Creative.Shortlist) && negb (asset_exists s (tk_primary_asset row)) = false) as ->.
  { case_bool_decide; [|done]. by rewrite Hasset. }
  rewrite <- Hrev. rewrite (proj2 (checked_add_Some _ _ _ (tk_revision row + 1))) by done.
  change (transition_plan s1 r) with (transition_plan s r). rewrite (proj2 (transition_plan_go _ _ _ _) Hplan).
  cbn [result_bind]. unfold write_transition, allocate_or_reject, allocate_event_sequences.
  assert (forall n, 1 <= n <= 2 -> (1 <=? n) && (n <=? 64) && (last_sequence s1 <=? I64_MAX - n) = true) as Halloc.
  { intros n Hn2. change (last_sequence s1) with (last_sequence s). rewrite !andb_true_iff, !Z.leb_le. lia. }
  rewrite Halloc by (destruct repl; lia). rewrite write_related_clash with (src := src); done.
Qed.
End transitions.

(** C3: The functional behaviour of an applied take transition: it checked that the
    take belongs to the named project, work item and work revision, that its
    revision is the expected one and that the edge is legal; for a selection it
    named exactly the currently selected take and revision, and for a supersession
    an existing other take at its revision.  It writes the take at the next
    revision in the target state, supersedes the replaced selection, records the
    edge, returns the stored result, and touches no other take and no other table
    but the ledger and the event log. *)
Theorem applied_transition (E : StoreEnv)
    (replay_asset_result : Store -> CommandRow -> result AssetStoreError CommandResult)
    (s s' : Store) (ctx : StoreContext) (r : TransitionTakeCommand) (res : CommandResult) :
  commands s !! cb_command_id (tt_binding r) = None ->
  execute replay_asset_result s ctx (TransitionTake r) = Ok (Applied res, s') ->
  exists row target related repl e1 e2 rel at_ p,
    with_values (tt_values r) sample3 = Ok (e1, e2, rel, at_) /\
    transition_checked s r row target related repl /\
    res = Versioned (tt_take_id r) p at_ /\
    encode p = encode (VrTake (tk_revision row + 1) (tk_ordinal row) target (tk_primary_asset row) related) /\
    takes s' = <[tt_take_id r := moved_take row target (tk_revision row + 1) at_]> (replaced_takes (takes s) repl at_) /\
    relationships s' = relationships s ++ transition_edges r related repl rel at_ /\
    projects s' = projects s /\ specs s' = specs s /\ subjects s' = subjects s /\ work_items s' = work_items s /\
    work_revisions s' = work_revisions s /\ assets s' = assets s.
Proof. intros Hn He. by eapply transition_take_applied. Qed.

Definition replacing_selection : TransitionTakeCommand := {|
  tt_binding := Scenario.binding 40 TAKE_TRANSITION_V1; tt_project_id := Scenario.id 11; tt_work_item_id := Scenario.id 21;
  tt_work_revision_id := Scenario.id 22; tt_take_id := Scenario.id 34; tt_expected_revision := 1;
  tt_transition := Creative.Select; tt_reason := None; tt_related_take := Some (Scenario.id 31, 2);
  tt_values := Scenario.values [41; 42; 43] |}.

Lemma applied_transition_witness :
  exists row related repl, transition_checked Scenario.with_selected replacing_selection row Creative.Selected related repl.
Proof.
  destruct (applied_transition Scenario.env Scenario.no_asset_replay Scenario.with_selected
    (after (H := Scenario.env) Scenario.no_asset_replay Scenario.with_selected Scenario.ctx (TransitionTake replacing_selection))
    Scenario.ctx replacing_selection
    (Versioned (Scenario.id 34) (VrTake 2 2 Creative.Selected (Scenario.id 50) (Some (Scenario.id 31))) Scenario.now))
    as (row & target & related & repl & e1 & e2 & rel & at_ & p & _ & Hc & _).
  - vm_compute. reflexivity.
  - apply execute_answer. vm_compute. reflexivity.
  - exists row, related, repl. destruct target; try exact Hc; exfalso; destruct (tc_edge _ _ _ _ _ _ Hc);
      pose proof (tc_edge _ _ _ _ _ _ Hc) as He; destruct (tk_state row); discriminate He.
Defined.

(** C37: A well-formed transition that passes every check of the code, but whose
    superseding take already supersedes another one, is answered with an internal
    error: the UNIQUE index on the source of TAKE_SUPERSEDES edges is only met by
    the INSERT.  This hits an explicit supersession as well as a selection that
    replaces the selected take. *)
Theorem superseding_twice_is_internal (E : StoreEnv)
    (replay_asset_result : Store -> CommandRow -> result AssetStoreError CommandResult)
    (s : Store) (ctx : StoreContext) (r : TransitionTakeCommand) (row : TakeRow) (target : Creative.TakeState)
    (related : option Id) (repl : option (Id * Z * Z)) (ids : Id * Id * Id) (at_ : Timestamp) (src : Id) :
  commands s !! cb_command_id (tt_binding r) = None -> with_values (tt_values r) sample3 = Ok (ids, at_) ->
  transition_checked s r row target related repl -> last_sequence s + 2 <= I64_MAX ->
  edge_source r related repl = Some src -> supersedes_already s src ->
  execute replay_asset_result s ctx (TransitionTake r) = Err SeInternal.
Proof. apply execute_transition_clash. Qed.

(** A third take, to be superseded by the take that already replaced the first. *)
Definition third_take : Store := Scenario.run_ Scenario.with_replaced [Scenario.create_t 60 61 62].
Definition second_supersession : TransitionTakeCommand := {|
  tt_binding := Scenario.binding 63 TAKE_TRANSITION_V1; tt_project_id := Scenario.id 11; tt_work_item_id := Scenario.id 21;
  tt_work_revision_id := Scenario.id 22; tt_take_id := Scenario.id 61; tt_expected_revision := 1;
  tt_transition := Creative.Supersede; tt_reason := None; tt_related_take := Some (Scenario.id 34, 2);
  tt_values := Scenario.values [64; 65; 66] |}.
Definition third_row : TakeRow := {|
  tk_work_revision := Scenario.id 22; tk_ordinal := 3; tk_state := Creative.Candidate; tk_primary_asset := Scenario.id 50;
  tk_revision := 1; tk_creation_sequence := 8; tk_command := Scenario.id 60; tk_created_at := Scenario.now;
  tk_updated_at := Scenario.now |}.

Lemma superseding_twice_is_internal_witness :
  execute (H := Scenario.env) Scenario.no_asset_replay third_take Scenario.ctx (TransitionTake second_supersession) = Err SeInternal.
Proof.
  apply (superseding_twice_is_internal Scenario.env Scenario.no_asset_replay third_take Scenario.ctx second_supersession
    third_row Creative.Superseded (Some (Scenario.id 34)) None (Scenario.id 64, Scenario.id 65, Scenario.id 66) Scenario.now
    (Scenario.id 34)).
  - vm_compute. reflexivity.
  - vm_compute. reflexivity.
  - constructor; try (vm_compute; reflexivity).
    + discriminate.
    + apply transition_plan_go. vm_compute. reflexivity.
  - vm_compute. discriminate.
  - reflexivity.
  - apply (bool_decide_eq_true_1 _). vm_compute. reflexivity.
Defined.
End CreativeTransitions.
