(* ===== verification/AssetStore.v ===== *)
(** The asset side of the writer: mengxia-store-sqlite/src/asset_repository.rs.

    [Library] adds to the creative [Store] (which holds the ledger, the event log and
    the creative tables) the asset tables of migrations/sqlite/0001_library_assets.sql.
    Columns that a CHECK confines to a few values are enumerations, revision columns
    are kept by value.  As on the creative side, an operation runs in one transaction
    of the single writer and returns the library it leaves, or an error after a
    rollback; constraints a statement could violate surface as [SeInternal].  Foreign
    keys hold because every statement refers to rows read or written before it. *)
From Stdlib Require Import ZArith Lia String.
From Stdlib Require Import Strings.Byte Init.Byte.
From stdpp Require Import prelude list gmap.
From S2P Require Import Prelude RustText Types AssetDomain CreativeDomain Ports CommandLedger CreativeStore.

Set Warnings "-clear-no-such-hyp".

Module Assets.
Import Ports Ledger.
Abbreviation Lifecycle := AssetModel.AssetLifecycle.
Abbreviation res := (result AssetStoreError).

(** ** Tables *)

Inductive Custody := MANAGED | UNMANAGED.
Inductive Durability := DURABLE | UNKNOWN_DURABILITY.
Inductive LocationLifecycle := AVAILABLE | CORRUPT | MISSING | REMOVED.
#[global] Instance custody_eq_dec : EqDecision Custody. Proof. solve_decision. Defined.
#[global] Instance durability_eq_dec : EqDecision Durability. Proof. solve_decision. Defined.
#[global] Instance location_lifecycle_eq_dec : EqDecision LocationLifecycle. Proof. solve_decision. Defined.

Record AssetRow := {
  a_kind : list byte; a_lifecycle : Lifecycle; a_revision : Z; a_created_at : Timestamp; a_created_by : Z;
  a_updated_at : option Timestamp }.
Record RevisionRow := {
  v_asset : Id; v_sequence : Z; v_content_kind : list byte; v_custody : Custody; v_created_at : Timestamp; v_created_by : Z }.
Record ParentRow := { p_asset : Id; p_child : Id; p_ordinal : Z; p_parent : Id }.
Record RepresentationRow := { n_revision : Id; n_purpose : list byte }.
Record ResourceRow := { s_representation : Id; s_kind : list byte }.
Record MemberRow := { m_name : list byte; m_digest : list byte }.
Record BlobRow := {
  b_length : Z; b_media_type : option (list byte); b_lifecycle : AssetModel.BlobLifecycle; b_revision : Z;
  b_verified_at : Timestamp }.
Record LocationRow := {
  l_digest : list byte; l_backend_id : list byte; l_locator : list byte; l_custody : Custody; l_durability : Durability;
  l_lifecycle : LocationLifecycle; l_revision : Z; l_verified_at : Timestamp }.
Record ProvenanceRow := {
  pe_id : Id; pe_command : Id; pe_type : list byte; pe_revision : Id; pe_digest : option (list byte); pe_at : Timestamp }.

Record Library := {
  base : Store.Store; assets : gmap Id AssetRow; revisions : gmap Id RevisionRow; parents : list ParentRow;
  representations : gmap Id RepresentationRow; resources : gmap Id ResourceRow; members : gmap (Id * Z) MemberRow;
  blobs : gmap (list byte) BlobRow; locations : gmap Id LocationRow; provenance : list ProvenanceRow }.

Definition with_base (l : Library) x := {| base := x; assets := assets l; revisions := revisions l; parents := parents l;
  representations := representations l; resources := resources l; members := members l; blobs := blobs l;
  locations := locations l; provenance := provenance l |}.
Definition with_revisions (l : Library) x := {| base := base l; assets := assets l; revisions := x; parents := parents l;
  representations := representations l; resources := resources l; members := members l; blobs := blobs l;
  locations := locations l; provenance := provenance l |}.
Definition with_parents (l : Library) x := {| base := base l; assets := assets l; revisions := revisions l; parents := x;
  representations := representations l; resources := resources l; members := members l; blobs := blobs l;
  locations := locations l; provenance := provenance l |}.
Definition with_representations (l : Library) x := {| base := base l; assets := assets l; revisions := revisions l;
  parents := parents l; representations := x; resources := resources l; members := members l; blobs := blobs l;
  locations := locations l; provenance := provenance l |}.
Definition with_resources (l : Library) x := {| base := base l; assets := assets l; revisions := revisions l;
  parents := parents l; representations := representations l; resources := x; members := members l; blobs := blobs l;
  locations := locations l; provenance := provenance l |}.
Definition with_members (l : Library) x := {| base := base l; assets := assets l; revisions := revisions l;
  parents := parents l; representations := representations l; resources := resources l; members := x; blobs := blobs l;
  locations := locations l; provenance := provenance l |}.
Definition with_blobs (l : Library) x := {| base := base l; assets := assets l; revisions := revisions l;
  parents := parents l; representations := representations l; resources := resources l; members := members l; blobs := x;
  locations := locations l; provenance := provenance l |}.
Definition with_locations (l : Library) x := {| base := base l; assets := assets l; revisions := revisions l;
  parents := parents l; representations := representations l; resources := resources l; members := members l;
  blobs := blobs l; locations := x; provenance := provenance l |}.
Definition with_provenance (l : Library) x := {| base := base l; assets := assets l; revisions := revisions l;
  parents := parents l; representations := representations l; resources := resources l; members := members l;
  blobs := blobs l; locations := locations l; provenance := x |}.
(** The creative side sees the identities of the assets. *)
Definition with_assets (l : Library) (x : gmap Id AssetRow) := {|
  base := {| Store.commands := Store.commands (base l); Store.last_sequence := Store.last_sequence (base l);
    Store.events := Store.events (base l); Store.projects := Store.projects (base l); Store.specs := Store.specs (base l);
    Store.subjects := Store.subjects (base l); Store.work_items := Store.work_items (base l);
    Store.work_revisions := Store.work_revisions (base l); Store.takes := Store.takes (base l);
    Store.relationships := Store.relationships (base l); Store.assets := dom x |};
  assets := x; revisions := revisions l; parents := parents l; representations := representations l;
  resources := resources l; members := members l; blobs := blobs l; locations := locations l; provenance := provenance l |}.
Definition commands (l : Library) : gmap Id CommandRow := Store.commands (base l).
Definition with_commands (l : Library) x : Library := with_base l (Store.with_commands (base l) x).
(** A statement of the shared tables. *)
Definition on_base {A} (l : Library) (r : res (A * Store.Store)) : res (A * Library) :=
  let? (a, s) := r in Ok (a, with_base l s).
Definition on_base' (l : Library) (r : res Store.Store) : res Library := let? s := r in Ok (with_base l s).

(** ** Requests *)

Record DurableBlob := { db_digest : list byte; db_byte_length : Z; db_backend_id : list byte; db_locator : list byte }.
Definition from_verified_local_adapter (digest : list byte) (byte_length : Z) (backend_instance_digest : list byte) : DurableBlob :=
  let digest_hex := to_hex digest in
  {| db_digest := digest; db_byte_length := byte_length;
     db_backend_id := bs "mengxia.local-cas.v1/" ++ to_hex backend_instance_digest;
     db_locator := bs "sha256-v1/" ++ take 2 digest_hex ++ bs "/" ++ take 2 (drop 2 digest_hex) ++ bs "/" ++ digest_hex ++ bs ".blob" |}.

Record ExternalIngestClaim := { ec_binding : CommandBinding; ec_claimed_at : Timestamp }.
Definition external_ingest_claim_new (binding : CommandBinding) (claimed_at : Timestamp) : res ExternalIngestClaim :=
  let? _ := require_operation binding ASSET_INGEST_COPY_V1 in
  Ok {| ec_binding := binding; ec_claimed_at := claimed_at |}.

Record ManagedRegistrationPlan := {
  mp_asset_id : Id; mp_asset_kind : list byte; mp_asset_revision_id : Id; mp_content_kind : list byte;
  mp_representation_id : Id; mp_representation_purpose : list byte; mp_resource_id : Id; mp_resource_kind : list byte;
  mp_logical_name : list byte; mp_media_type : option (list byte); mp_candidate_location_id : Id }.
Record ExternalIngestCompletion := {
  ei_binding : CommandBinding; ei_durable_blob : DurableBlob; ei_plan : ManagedRegistrationPlan; ei_domain_event_id : Id;
  ei_provenance_event_id : Id; ei_completed_at : Timestamp }.
Definition pairwise_unique (values : list Id) : bool := negb (AssetModel.any_repeated values).
Definition external_ingest_completion_new (binding : CommandBinding) (durable_blob : DurableBlob)
    (plan : ManagedRegistrationPlan) (domain_event_id provenance_event_id : Id) (completed_at : Timestamp)
  : res ExternalIngestCompletion :=
  let? _ := require_operation binding ASSET_INGEST_COPY_V1 in
  if negb (pairwise_unique [mp_asset_id plan; mp_asset_revision_id plan; mp_representation_id plan; mp_resource_id plan;
                            mp_candidate_location_id plan; domain_event_id; provenance_event_id])
  then Err SeValidation
  else Ok {| ei_binding := binding; ei_durable_blob := durable_blob; ei_plan := plan; ei_domain_event_id := domain_event_id;
             ei_provenance_event_id := provenance_event_id; ei_completed_at := completed_at |}.

(** [ExternalDisposition] and [MaterializationDisposition]. *)
Inductive Disposition := DispTerminalRejected (code : ErrorCode) | DispRecoveryRequired (code : ErrorCode).
Record ExternalIngestDisposition := { ed_binding : CommandBinding; ed_disposition : Disposition; ed_observed_at : Timestamp }.
Definition external_ingest_disposition_new (binding : CommandBinding) (d : Disposition) (observed_at : Timestamp)
  : res ExternalIngestDisposition :=
  let? _ := require_operation binding ASSET_INGEST_COPY_V1 in
  let accepted := match d with
    | DispTerminalRejected code => is_external_terminal_code code
    | DispRecoveryRequired code => is_external_recovery_code code
    end in
  if negb accepted then Err SeValidation
  else Ok {| ed_binding := binding; ed_disposition := d; ed_observed_at := observed_at |}.

Record CreateAssetRevisionCommand := {
  cr_binding : CommandBinding; cr_revision : AssetModel.NewAssetRevision; cr_domain_event_id : Id;
  cr_provenance_event_id : Id; cr_operation_at : Timestamp }.
Definition create_asset_revision_command_new (binding : CommandBinding) (revision : AssetModel.NewAssetRevision)
    (domain_event_id provenance_event_id : Id) (operation_at : Timestamp) : res CreateAssetRevisionCommand :=
  let? _ := require_operation binding ASSET_REVISION_CREATE_V1 in
  Ok {| cr_binding := binding; cr_revision := revision; cr_domain_event_id := domain_event_id;
        cr_provenance_event_id := provenance_event_id; cr_operation_at := operation_at |}.
Record MemberInput := { mi_logical_name : list byte; mi_blob_digest : list byte }.
Record ResourceInput := { ri_kind : list byte; ri_members : list MemberInput }.
Record RepresentationInput := { pi_purpose : list byte; pi_resources : list ResourceInput }.
Definition resource_input_new (kind : list byte) (members : list MemberInput) : res ResourceInput :=
  if bool_decide (members = []) || (4096 <? blen members) then Err SeValidation
  else Ok {| ri_kind := kind; ri_members := members |}.
Definition representation_input_new (purpose : list byte) (resources : list ResourceInput) : res RepresentationInput :=
  if bool_decide (resources = []) || (64 <? blen resources) then Err SeValidation
  else Ok {| pi_purpose := purpose; pi_resources := resources |}.
Record DeferredCreateAssetRevisionCommand := {
  dr_binding : CommandBinding; dr_asset_id : Id; dr_expected_revision : Z; dr_parent_revision_ids : list Id;
  dr_content_kind : list byte; dr_representations : list RepresentationInput; dr_values : Store.Values }.
Definition deferred_create_asset_revision_new (binding : CommandBinding) (asset_id : Id) (expected_revision : Z)
    (parent_revision_ids : list Id) (content_kind : list byte) (representations : list RepresentationInput)
    (values : Store.Values) : res DeferredCreateAssetRevisionCommand :=
  let? _ := require_operation binding ASSET_REVISION_CREATE_V1 in
  if bool_decide (parent_revision_ids = []) || (64 <? blen parent_revision_ids) || bool_decide (representations = [])
     || (64 <? blen representations) || negb (pairwise_unique parent_revision_ids)
  then Err SeValidation
  else Ok {| dr_binding := binding; dr_asset_id := asset_id; dr_expected_revision := expected_revision;
             dr_parent_revision_ids := parent_revision_ids; dr_content_kind := content_kind;
             dr_representations := representations; dr_values := values |}.

Record AssetLifecycleCommand := {
  al_binding : CommandBinding; al_asset_id : Id; al_expected_revision : Z; al_target : Lifecycle; al_domain_event_id : Id;
  al_operation_at : Timestamp }.
Definition lifecycle_operation_matches (op : OperationId) (target : Lifecycle) : bool :=
  match target with
  | AssetModel.Retired => bool_decide (op = ASSET_RETIRE_V1)
  | AssetModel.Active => bool_decide (op = ASSET_RESTORE_V1)
  end.
Definition asset_lifecycle_command_new (binding : CommandBinding) (asset_id : Id) (expected_revision : Z)
    (target : Lifecycle) (domain_event_id : Id) (operation_at : Timestamp) : res AssetLifecycleCommand :=
  if negb (lifecycle_operation_matches (cb_operation_id binding) target) then Err SeValidation
  else Ok {| al_binding := binding; al_asset_id := asset_id; al_expected_revision := expected_revision;
             al_target := target; al_domain_event_id := domain_event_id; al_operation_at := operation_at |}.
Record DeferredAssetLifecycleCommand := {
  dl_binding : CommandBinding; dl_asset_id : Id; dl_expected_revision : Z; dl_target : Lifecycle; dl_values : Store.Values }.

Record RecordManagedLocationCommand := {
  rl_binding : CommandBinding; rl_durable_blob : DurableBlob; rl_candidate_location_id : Id; rl_expected_revision : Z;
  rl_domain_event_id : Id; rl_operation_at : Timestamp }.

Record MaterializationCommandBinding := {
  mc_binding : CommandBinding; mc_asset_id : Id; mc_asset_revision_id : Id; mc_representation_id : Id; mc_resource_id : Id;
  mc_member_ordinal : Z }.
Definition materialization_command_binding_new (binding : CommandBinding)
    (asset_id asset_revision_id representation_id resource_id : Id) (member_ordinal : Z) : res MaterializationCommandBinding :=
  let? _ := require_operation binding ASSET_MATERIALIZE_V1 in
  if 4095 <? member_ordinal then Err SeValidation
  else Ok {| mc_binding := binding; mc_asset_id := asset_id; mc_asset_revision_id := asset_revision_id;
             mc_representation_id := representation_id; mc_resource_id := resource_id; mc_member_ordinal := member_ordinal |}.
Record MaterializationTransition := { mt_command : MaterializationCommandBinding; mt_at : Timestamp }.
Record MaterializationFinish := { mf_transition : MaterializationTransition; mf_disposition : Disposition }.
Definition materialization_finish_new (transition : MaterializationTransition) (d : Disposition) : res MaterializationFinish :=
  let accepted := match d with
    | DispTerminalRejected code => is_materialization_terminal_code code
    | DispRecoveryRequired code => is_materialization_recovery_code code
    end in
  if negb accepted then Err SeValidation else Ok {| mf_transition := transition; mf_disposition := d |}.
Record MaterializationResult := {
  mr_command_id : Id; mr_asset_revision_id : Id; mr_representation_id : Id; mr_resource_id : Id; mr_member_ordinal : Z;
  mr_blob_digest : list byte; mr_byte_length : Z }.
Definition materialization_result_from_store (command_id asset_revision_id representation_id resource_id : Id)
    (member_ordinal : Z) (blob_digest : list byte) (byte_length : Z) : res MaterializationResult :=
  if (4095 <? member_ordinal) || (1099511627776 <? byte_length) then Err SeStorageCorruption
  else Ok {| mr_command_id := command_id; mr_asset_revision_id := asset_revision_id; mr_representation_id := representation_id;
             mr_resource_id := resource_id; mr_member_ordinal := member_ordinal; mr_blob_digest := blob_digest;
             mr_byte_length := byte_length |}.

Inductive ExternalClaimOutcome :=
| ClaimClaimed | ClaimInProgress | ClaimReplay (r : Store.CommandResult) | ClaimTerminalRejected (code : ErrorCode)
| ClaimRecoveryRequired (code : ErrorCode).
Inductive ExternalDispositionOutcome := Stored | DispositionReplay (code : ErrorCode).
Inductive MaterializationObservation :=
| ObsAbsent | ObsInProgress | ObsRecoveryCandidate (code : option ErrorCode) | ObsReplay (r : MaterializationResult)
| ObsTerminalRejected (code : ErrorCode).

Section assets.
Context `{StoreEnv}.

(** ** Replay *)

Definition count_events (l : Library) (command : Id) (event_type aggregate_kind aggregate_id : list byte)
    (also : Store.DomainEvent -> bool) : list Store.DomainEvent :=
  List.filter (fun e => bool_decide (Store.de_command_id e = command) && bool_decide (Store.de_type e = event_type)
    && bool_decide (Store.de_aggregate_kind e = aggregate_kind) && bool_decide (Store.de_aggregate_id e = aggregate_id)
    && also e) (Store.events (base l)).
Definition always {A} (_ : A) : bool := true.

(** The joins over the graph of one asset. *)
Definition revisions_of (l : Library) (asset : Id) (sequence : Z) : list Id :=
  map fst (List.filter (fun '(_, r) => bool_decide (v_asset r = asset) && (v_sequence r =? sequence)) (map_to_list (revisions l))).
Definition representations_of (l : Library) (revision : Id) : list Id :=
  map fst (List.filter (fun '(_, r) => bool_decide (n_revision r = revision)) (map_to_list (representations l))).
Definition resources_of (l : Library) (representation : Id) : list Id :=
  map fst (List.filter (fun '(_, r) => bool_decide (s_representation r = representation)) (map_to_list (resources l))).
Definition members_of (l : Library) (resource : Id) : list (Z * MemberRow) :=
  map (fun '(k, m) => (k.2, m)) (List.filter (fun '(k, _) => bool_decide (k.1 = resource)) (map_to_list (members l))).

Definition checked_id (i : list byte) : res Id :=
  let? raw := id_bytes (Some i) in if id_valid raw then Ok raw else Err SeStorageCorruption.
Definition checked_digest (d : list byte) : res (list byte) :=
  if bool_decide (length d = 32%nat) then Ok d else Err SeStorageCorruption.

(** The row of the query behind an ASSET result: the graph of revision one with a
    single representation, resource and member, its location and its two events. *)
Definition registration_tuple (l : Library) (row : CommandRow) (asset location : Id) : option (Id * Id * Id * list byte) :=
  match assets l !! asset, revisions_of l asset 1 with
  | Some _, rev :: _ =>
      match representations_of l rev with
      | [rep] =>
          match resources_of l rep with
          | [rsc] =>
              match members_of l rsc, locations l !! location with
              | [(ordinal, m)], Some loc =>
                  if (ordinal =? 0) && bool_decide (l_digest loc = m_digest m) && bool_decide (l_custody loc = MANAGED)
                     && bool_decide (l_durability loc = DURABLE) && bool_decide (l_lifecycle loc = AVAILABLE)
                     && (l_revision loc =? 1)
                     && (blen (count_events l (c_command_id row) (bs "asset.registered.v1") (bs "ASSET") asset always) =? 1)
                     && (blen (List.filter (fun p => bool_decide (pe_command p = c_command_id row)
                           && bool_decide (pe_type p = bs "asset.ingested.copy.v1") && bool_decide (pe_revision p = rev)
                           && bool_decide (pe_digest p = Some (m_digest m))) (provenance l)) =? 1)
                  then Some (rev, rep, rsc, m_digest m) else None
              | _, _ => None
              end
          | _ => None
          end
      | _ => None
      end
  | _, _ => None
  end.

(** [replay_result] for the operations that are not creative. *)
Definition replay_asset_result (l : Library) (row : CommandRow) : res Store.CommandResult :=
  let? result_id := id_bytes (c_result_id row) in
  if bool_decide (c_operation_id row = ASSET_RETIRE_V1) || bool_decide (c_operation_id row = ASSET_RESTORE_V1) then
    let? kind := ok_or SeStorageCorruption (c_result_kind row) in
    let? bytes := ok_or SeStorageCorruption (c_result_payload row) in
    let? payload := decode id_valid kind bytes in
    match payload with
    | VrAssetLifecycle revision _ =>
        let event_type := if bool_decide (c_operation_id row = ASSET_RETIRE_V1) then bs "asset.retired.v1" else bs "asset.restored.v1" in
        let? a := ok_or SeStorageCorruption (assets l !! result_id) in
        let found := count_events l (c_command_id row) event_type (bs "ASSET") result_id
          (fun e => (Store.de_aggregate_revision e =? revision) && none (Store.de_payload e) && none (Store.de_payload_sha256 e)) in
        if (a_revision a <? revision) || negb (blen found =? 1) then Err SeStorageCorruption
        else
          let? _ := persisted_timestamp (c_updated_at_seconds row) (c_updated_at_nanos row) in
          Ok (Store.Versioned result_id payload (c_updated_at_seconds row, c_updated_at_nanos row))
    | _ => Err SeStorageCorruption
    end
  else if kind_is row (bs "ASSET") then
    let? location := id_bytes (c_result_location_id row) in
    let? (rev, rep, rsc, digest) := ok_or SeStorageCorruption (registration_tuple l row result_id location) in
    let? asset := checked_id result_id in
    let? rev := checked_id rev in
    let? rep := checked_id rep in
    let? rsc := checked_id rsc in
    let? location := checked_id location in
    let? digest := checked_digest digest in
    Ok (Store.ManagedRegistration asset rev rep rsc location digest)
  else if kind_is row (bs "ASSET_REVISION") then
    let? r := ok_or SeStorageCorruption (revisions l !! result_id) in
    match count_events l (c_command_id row) (bs "asset.revision.created.v1") (bs "ASSET_REVISION") result_id always with
    | [e] =>
        let? asset := checked_id (v_asset r) in
        let? revision := checked_id result_id in
        let? _ := persisted_timestamp (Store.de_at e).1 (Store.de_at e).2 in
        Ok (Store.AssetRevision asset revision (Store.de_aggregate_revision e) (Store.de_at e))
    | _ => Err SeStorageCorruption
    end
  else if kind_is row (bs "LOCATION") then
    let? loc := ok_or SeStorageCorruption (locations l !! result_id) in
    if negb (bool_decide (l_custody loc = MANAGED) && bool_decide (l_durability loc = DURABLE)
             && bool_decide (l_lifecycle loc = AVAILABLE))
    then Err SeStorageCorruption
    else match count_events l (c_command_id row) (bs "blob.location.recorded.v1") (bs "BLOB") (l_digest loc) always with
         | [e] =>
             let? digest := checked_digest (l_digest loc) in
             let? location := checked_id result_id in
             Ok (Store.Location digest location (Store.de_aggregate_revision e))
         | _ => Err SeStorageCorruption
         end
  else Err SeStorageCorruption.
Definition replay_result (l : Library) (row : CommandRow) : res Store.CommandResult :=
  Store.replay_result (fun _ => replay_asset_result l) (base l) row.
Definition replay_external_result (l : Library) (row : CommandRow) : res Store.CommandResult :=
  let? r := replay_result l row in
  match r with Store.ManagedRegistration _ _ _ _ _ _ => Ok r | _ => Err SeStorageCorruption end.
Definition replay_pure (l : Library) (row : CommandRow) (expected_kind : list byte) : res Store.MutationOutcome :=
  Store.replay_pure (fun _ => replay_asset_result l) (base l) row expected_kind.

(** ** Statements *)

Definition read_command (l : Library) (binding : CommandBinding) : option CommandRow := Store.read_command (base l) binding.
Definition insert_claim (l : Library) (context : StoreContext) (binding : CommandBinding) (at_ : Timestamp) : res Library :=
  on_base' l (Store.insert_claim (base l) context binding at_).
Definition allocate_event_sequences (l : Library) (count : Z) : res (Z * Library) :=
  on_base l (Store.allocate_event_sequences (base l) count).
Definition insert_domain_event (l : Library) (event_id : Id) (sequence : Z) (binding : CommandBinding)
    (event_type aggregate_kind aggregate_id : list byte) (aggregate_revision : Z) (at_ : Timestamp) : res Library :=
  on_base' l (Store.insert_domain_event (base l) event_id sequence binding event_type aggregate_kind aggregate_id
                aggregate_revision at_).
Definition commit_rejection (l : Library) (binding : CommandBinding) (code : ErrorCode) (at_ : Timestamp)
  : res (Store.MutationOutcome * Library) :=
  on_base l (Store.commit_rejection (base l) binding code at_).

(** [UPDATE commands SET .. WHERE command_id=? AND ..]: the changed library, or
    [None] when no row matched. *)
Definition update_command (l : Library) (i : Id) (where_ : CommandRow -> bool) (set : CommandRow -> CommandRow) : option Library :=
  match commands l !! i with
  | Some row => if where_ row then Some (with_commands l (<[i := set row]> (commands l))) else None
  | None => None
  end.
Definition is_claimed (row : CommandRow) : bool := bool_decide (c_state row = CLAIMED).
(** [SET state, safe_error_code, updated_at]; the columns not set stay. *)
Definition marked_row (state : CommandState) (code : ErrorCode) (at_ : Timestamp) (row : CommandRow) : CommandRow := {|
  c_command_id := c_command_id row; c_operation_id := c_operation_id row; c_principal_kind := c_principal_kind row;
  c_principal_uid := c_principal_uid row; c_digest := c_digest row; c_runtime_id := c_runtime_id row; c_state := state;
  c_result_kind := c_result_kind row; c_result_id := c_result_id row; c_result_location_id := c_result_location_id row;
  c_result_schema_version := c_result_schema_version row; c_result_payload := c_result_payload row;
  c_result_payload_sha256 := c_result_payload_sha256 row; c_safe_error_code := Some (ErrorCodeText.as_str code);
  c_created_at_seconds := c_created_at_seconds row; c_created_at_nanos := c_created_at_nanos row;
  c_updated_at_seconds := at_.1; c_updated_at_nanos := at_.2 |}.
(** [SET state='COMPLETED', result_kind, result_id, ..], with the location where the
    statement sets it and the error code where it clears it. *)
Definition finished_row (kind : list byte) (result_id : Id) (location : option Id) (clear : bool) (at_ : Timestamp)
    (row : CommandRow) : CommandRow := {|
  c_command_id := c_command_id row; c_operation_id := c_operation_id row; c_principal_kind := c_principal_kind row;
  c_principal_uid := c_principal_uid row; c_digest := c_digest row; c_runtime_id := c_runtime_id row; c_state := COMPLETED;
  c_result_kind := Some kind; c_result_id := Some result_id;
  c_result_location_id := match location with Some i => Some i | None => c_result_location_id row end;
  c_result_schema_version := c_result_schema_version row; c_result_payload := c_result_payload row;
  c_result_payload_sha256 := c_result_payload_sha256 row; c_safe_error_code := if clear then None else c_safe_error_code row;
  c_created_at_seconds := c_created_at_seconds row; c_created_at_nanos := c_created_at_nanos row;
  c_updated_at_seconds := at_.1; c_updated_at_nanos := at_.2 |}.
(** [SET store_runtime_id, state='CLAIMED', safe_error_code=NULL, ..]. *)
Definition reacquired_row (runtime : list byte) (at_ : Timestamp) (row : CommandRow) : CommandRow := {|
  c_command_id := c_command_id row; c_operation_id := c_operation_id row; c_principal_kind := c_principal_kind row;
  c_principal_uid := c_principal_uid row; c_digest := c_digest row; c_runtime_id := runtime; c_state := CLAIMED;
  c_result_kind := c_result_kind row; c_result_id := c_result_id row; c_result_location_id := c_result_location_id row;
  c_result_schema_version := c_result_schema_version row; c_result_payload := c_result_payload row;
  c_result_payload_sha256 := c_result_payload_sha256 row; c_safe_error_code := None;
  c_created_at_seconds := c_created_at_seconds row; c_created_at_nanos := c_created_at_nanos row;
  c_updated_at_seconds := at_.1; c_updated_at_nanos := at_.2 |}.

Definition validate_descriptor (value : list byte) (max : Z) : res () :=
  if bool_decide (value = []) || (max <? blen value) || existsb is_control (chars value) then Err SeValidation else Ok tt.

(** The known row of a command that must be there, checked against its binding. *)
Definition bound_row (l : Library) (context : StoreContext) (binding : CommandBinding) : res CommandRow :=
  let? row := ok_or SeConflict (read_command l binding) in
  if negb (binding_matches row binding (owner_uid context)) then Err SeConflict else validate_command_row row.
Definition owned_claim (context : StoreContext) (row : CommandRow) : bool :=
  is_claimed row && bool_decide (c_runtime_id row = runtime_id context).

Definition insert_asset (l : Library) (i : Id) (row : AssetRow) : res Library :=
  match assets l !! i with Some _ => Err SeInternal | None => Ok (with_assets l (<[i := row]> (assets l))) end.
(** PRIMARY KEY, UNIQUE (asset_id, sequence) and the CHECK on the sequence. *)
Definition insert_revision (l : Library) (i : Id) (row : RevisionRow) : res Library :=
  if bool_decide (is_Some (revisions l !! i)) || negb (bool_decide (revisions_of l (v_asset row) (v_sequence row) = []))
     || negb ((1 <=? v_sequence row) && (v_sequence row <=? U32_MAX))
  then Err SeInternal else Ok (with_revisions l (<[i := row]> (revisions l))).
Definition insert_representation (l : Library) (i : Id) (row : RepresentationRow) : res Library :=
  match representations l !! i with
  | Some _ => Err SeInternal | None => Ok (with_representations l (<[i := row]> (representations l)))
  end.
Definition insert_resource (l : Library) (i : Id) (row : ResourceRow) : res Library :=
  match resources l !! i with Some _ => Err SeInternal | None => Ok (with_resources l (<[i := row]> (resources l))) end.
Definition insert_member (l : Library) (resource : Id) (ordinal : Z) (row : MemberRow) : res Library :=
  if bool_decide (is_Some (members l !! (resource, ordinal))) || negb (ordinal <=? 4095)
  then Err SeInternal else Ok (with_members l (<[(resource, ordinal) := row]> (members l))).
Definition insert_provenance (l : Library) (row : ProvenanceRow) : res Library :=
  if existsb (fun p => bool_decide (pe_id p = pe_id row)) (provenance l) then Err SeInternal
  else Ok (with_provenance l (provenance l ++ [row])).
Definition insert_location (l : Library) (i : Id) (row : LocationRow) : res Library :=
  if bool_decide (is_Some (locations l !! i))
     || bool_decide (map_Exists (fun _ r => l_backend_id r = l_backend_id row /\ l_locator r = l_locator row) (locations l))
  then Err SeInternal else Ok (with_locations l (<[i := row]> (locations l))).
Definition managed_location (d : DurableBlob) (at_ : Timestamp) : LocationRow := {|
  l_digest := db_digest d; l_backend_id := db_backend_id d; l_locator := db_locator d; l_custody := MANAGED;
  l_durability := DURABLE; l_lifecycle := AVAILABLE; l_revision := 1; l_verified_at := at_ |}.
(** [WHERE backend_id=? AND locator=?], which is UNIQUE. *)
Definition location_at (l : Library) (d : DurableBlob) : option (Id * LocationRow) :=
  head (List.filter (fun '(_, r) => bool_decide (l_backend_id r = db_backend_id d) && bool_decide (l_locator r = db_locator d))
    (map_to_list (locations l))).

Definition check_media_type (m : option (list byte)) : res () :=
  match m with
  | None => Ok tt
  | Some t => let? _ := map_err (fun _ => SeStorageCorruption) (AssetModel.media_type_new t) in Ok tt
  end.
Definition check_stored_location (r : LocationRow) (i : Id) (digest : list byte) : res Id :=
  let? i := checked_id i in
  if negb (l_revision r =? 1) then Err SeStorageCorruption
  else
    let? _ := persisted_timestamp (l_verified_at r).1 (l_verified_at r).2 in
    if negb (bool_decide (l_digest r = digest)) || negb (bool_decide (l_custody r = MANAGED))
       || negb (bool_decide (l_durability r = DURABLE)) || negb (bool_decide (l_lifecycle r = AVAILABLE))
    then Err SeStorageCorruption else Ok i.
End assets.
End Assets.
