(* ===== verification/AssetCommands.v ===== *)
(** The operations of the asset unit of work and of the materialization unit of
    work (asset_repository.rs), over the tables of [AssetStore].  The [boundary]
    hooks of the source, which only tests use, are left out. *)
From Stdlib Require Import ZArith Lia String.
From Stdlib Require Import Strings.Byte Init.Byte.
From stdpp Require Import prelude list gmap.
From S2P Require Import Prelude RustText Types AssetDomain CreativeDomain Ports CommandLedger CreativeStore AssetStore.

Set Warnings "-clear-no-such-hyp".

Module AssetOps.
Import Ports Ledger Assets.
Abbreviation outcome := (result AssetStoreError (Store.MutationOutcome * Library)).

Section ops.
Context `{StoreEnv}.

(** ** External ingest *)

Definition external_existing (l : Library) (context : StoreContext) (binding : CommandBinding) (row : CommandRow)
    (at_ : Timestamp) : res (ExternalClaimOutcome * Library) :=
  if negb (binding_matches row binding (owner_uid context)) then Err SeConflict
  else
    let? row := validate_command_row row in
    match c_state row with
    | CLAIMED =>
        if bool_decide (c_runtime_id row = runtime_id context) then Ok (ClaimInProgress, l)
        else
          let l := match update_command l (cb_command_id binding) is_claimed
                           (marked_row RECOVERY_REQUIRED StorageConfigurationError at_) with
                   | Some l => l | None => l end in
          Ok (ClaimRecoveryRequired StorageConfigurationError, l)
    | COMPLETED => let? r := replay_external_result l row in Ok (ClaimReplay r, l)
    | TERMINAL_REJECTED => let? code := parse_safe_code row in Ok (ClaimTerminalRejected code, l)
    | RECOVERY_REQUIRED => let? code := parse_safe_code row in Ok (ClaimRecoveryRequired code, l)
    end.

Definition claim_external (l : Library) (context : StoreContext) (request : ExternalIngestClaim)
  : res (ExternalClaimOutcome * Library) :=
  match read_command l (ec_binding request) with
  | None => let? l := insert_claim l context (ec_binding request) (ec_claimed_at request) in Ok (ClaimClaimed, l)
  | Some row => external_existing l context (ec_binding request) row (ec_claimed_at request)
  end.

Definition persist_blob (l : Library) (blob : DurableBlob) (media_type : option (list byte)) (at_ : Timestamp) : res Library :=
  match blobs l !! db_digest blob with
  | Some row =>
      let? _ := check_media_type (b_media_type row) in
      if b_revision row =? 0 then Err SeStorageCorruption
      else
        let? _ := persisted_timestamp (b_verified_at row).1 (b_verified_at row).2 in
        if negb (bool_decide (try_into U64_MAX (b_length row) = Some (db_byte_length blob)))
           || negb (bool_decide (b_media_type row = media_type))
           || negb (bool_decide (b_lifecycle row = AssetModel.BlobAvailable))
        then Err SeStorageCorruption else Ok l
  | None =>
      let? length := ok_or SeValidation (try_into I64_MAX (db_byte_length blob)) in
      if negb (length <=? 1099511627776) then Err SeInternal
      else Ok (with_blobs l (<[db_digest blob := {|
             b_length := length; b_media_type := media_type; b_lifecycle := AssetModel.BlobAvailable; b_revision := 1;
             b_verified_at := at_ |}]> (blobs l)))
  end.
Definition persist_blob_and_location (l : Library) (blob : DurableBlob) (candidate_location_id : Id)
    (media_type : option (list byte)) (at_ : Timestamp) : res (Id * Library) :=
  let? l := persist_blob l blob media_type at_ in
  match location_at l blob with
  | Some (i, row) => let? i := check_stored_location row i (db_digest blob) in Ok (i, l)
  | None => let? l := insert_location l candidate_location_id (managed_location blob at_) in Ok (candidate_location_id, l)
  end.

Definition insert_registration_graph (l : Library) (context : StoreContext) (request : ExternalIngestCompletion) : res Library :=
  let plan := ei_plan request in
  let at_ := ei_completed_at request in
  let? l := insert_asset l (mp_asset_id plan) {| a_kind := mp_asset_kind plan; a_lifecycle := AssetModel.Active;
    a_revision := 1; a_created_at := at_; a_created_by := owner_uid context; a_updated_at := None |} in
  let? l := insert_revision l (mp_asset_revision_id plan) {| v_asset := mp_asset_id plan; v_sequence := 1;
    v_content_kind := mp_content_kind plan; v_custody := MANAGED; v_created_at := at_; v_created_by := owner_uid context |} in
  let? l := insert_representation l (mp_representation_id plan) {| n_revision := mp_asset_revision_id plan;
    n_purpose := mp_representation_purpose plan |} in
  let? l := insert_resource l (mp_resource_id plan) {| s_representation := mp_representation_id plan;
    s_kind := mp_resource_kind plan |} in
  insert_member l (mp_resource_id plan) 0 {| m_name := mp_logical_name plan; m_digest := db_digest (ei_durable_blob request) |}.

Definition insert_registration_events (l : Library) (request : ExternalIngestCompletion) (sequence : Z) : res Library :=
  let plan := ei_plan request in
  let at_ := ei_completed_at request in
  let? l := insert_domain_event l (ei_domain_event_id request) sequence (ei_binding request) (bs "asset.registered.v1")
              (bs "ASSET") (mp_asset_id plan) 1 at_ in
  insert_provenance l {| pe_id := ei_provenance_event_id request; pe_command := cb_command_id (ei_binding request);
    pe_type := bs "asset.ingested.copy.v1"; pe_revision := mp_asset_revision_id plan;
    pe_digest := Some (db_digest (ei_durable_blob request)); pe_at := at_ |}.

Definition plan_values (request : ExternalIngestCompletion) : AssetModel.RegisterManagedAssetValues :=
  let plan := ei_plan request in {|
  AssetModel.rv_asset_id := mp_asset_id plan; AssetModel.rv_asset_kind := mp_asset_kind plan;
  AssetModel.rv_asset_revision_id := mp_asset_revision_id plan; AssetModel.rv_content_kind := mp_content_kind plan;
  AssetModel.rv_representation_id := mp_representation_id plan;
  AssetModel.rv_representation_purpose := mp_representation_purpose plan; AssetModel.rv_resource_id := mp_resource_id plan;
  AssetModel.rv_resource_kind := mp_resource_kind plan; AssetModel.rv_logical_name := mp_logical_name plan;
  AssetModel.rv_media_type := mp_media_type plan; AssetModel.rv_blob_digest := db_digest (ei_durable_blob request);
  AssetModel.rv_created_at := ei_completed_at request |}.

(** The row just completed is read back, validated and replayed before the commit. *)
Definition completed_result (l : Library) (binding : CommandBinding) (replay : Library -> CommandRow -> res Store.CommandResult)
  : outcome :=
  let? row := ok_or SeStorageCorruption (read_command l binding) in
  let? row := validate_command_row row in
  let? r := replay l row in
  Ok (Store.Applied r, l).

Definition complete_external (l : Library) (context : StoreContext) (request : ExternalIngestCompletion) : outcome :=
  let blob := ei_durable_blob request in
  let binding := ei_binding request in
  let plan := ei_plan request in
  let at_ := ei_completed_at request in
  let? _ := validate_descriptor (db_backend_id blob) 255 in
  let? _ := validate_descriptor (db_locator blob) 1024 in
  let? row := bound_row l context binding in
  match c_state row with
  | COMPLETED => let? r := replay_external_result l row in Ok (Store.Replay r, l)
  | RECOVERY_REQUIRED => let? code := parse_safe_code row in Ok (Store.RecoveryRequired code, l)
  | _ =>
      if negb (owned_claim context row) then Err SeConflict
      else
        let? _ := map_err (fun _ => SeValidation) (AssetModel.register_managed (plan_values request)) in
        let? (location_id, l) := persist_blob_and_location l blob (mp_candidate_location_id plan) (mp_media_type plan) at_ in
        let? l := insert_registration_graph l context request in
        let? (sequence, l) := allocate_event_sequences l 1 in
        let? l := insert_registration_events l request sequence in
        let? l := ok_or SeStorageCorruption (update_command l (cb_command_id binding) is_claimed
                    (finished_row (bs "ASSET") (mp_asset_id plan) (Some location_id) true at_)) in
        completed_result l binding replay_external_result
  end.

Definition disposition_parts (d : Disposition) : CommandState * ErrorCode :=
  match d with
  | DispTerminalRejected code => (TERMINAL_REJECTED, code)
  | DispRecoveryRequired code => (RECOVERY_REQUIRED, code)
  end.
Definition finish_external (l : Library) (context : StoreContext) (request : ExternalIngestDisposition)
  : res (ExternalDispositionOutcome * Library) :=
  let? row := bound_row l context (ed_binding request) in
  let '(state, code) := disposition_parts (ed_disposition request) in
  if owned_claim context row then
    let l := match update_command l (cb_command_id (ed_binding request)) is_claimed (marked_row state code (ed_observed_at request)) with
             | Some l => l | None => l end in
    Ok (Stored, l)
  else
    let? known := (if bool_decide (c_state row = state)
                   then let? stored := parse_safe_code row in Ok (bool_decide (stored = code)) else Ok false) in
    if known then Ok (DispositionReplay code, l) else Err SeConflict.

(** ** Derived revisions *)

Definition max_sequence (l : Library) (asset : Id) : option Z :=
  map_fold (fun _ r acc => if bool_decide (v_asset r = asset)
                           then Some (match acc with Some m => Z.max m (v_sequence r) | None => v_sequence r end) else acc)
    None (revisions l).
Definition parent_belongs (l : Library) (asset parent : Id) : bool :=
  match revisions l !! parent with Some r => bool_decide (v_asset r = asset) | None => false end.
Definition has_managed_custody (l : Library) (digest : list byte) (b : BlobRow) : bool :=
  bool_decide (b_lifecycle b = AssetModel.BlobAvailable)
  && bool_decide (map_Exists (fun _ r => l_digest r = digest /\ l_custody r = MANAGED /\ l_durability r = DURABLE /\
                                         l_lifecycle r = AVAILABLE) (locations l)).
(** The loop over the members: [Ok false] is the first unknown blob. *)
Fixpoint members_known (l : Library) (digests : list (list byte)) : res bool :=
  match digests with
  | [] => Ok true
  | d :: rest =>
      match blobs l !! d with
      | None => Ok false
      | Some b => if has_managed_custody l d b then members_known l rest else Err SeStorageCorruption
      end
  end.
Definition revision_digests (v : AssetModel.NewAssetRevision) : list (list byte) :=
  concat (map (fun rp => concat (map (fun rr => map AssetModel.rm_blob_digest (AssetModel.rr_members rr)) (AssetModel.rp_resources rp)))
    (AssetModel.nr_representations v)).

Definition insert_parents (l : Library) (asset child : Id) (ps : list Id) : res Library :=
  if AssetModel.any_repeated ps || bool_decide (child ∈ ps) || (64 <? blen ps) then Err SeInternal
  else Ok (with_parents l (parents l ++ imap (fun i p => {| p_asset := asset; p_child := child; p_ordinal := Z.of_nat i; p_parent := p |}) ps)).
Fixpoint insert_members (l : Library) (resource : Id) (ordinal : Z) (ms : list AssetModel.RevisionMember) : res Library :=
  match ms with
  | [] => Ok l
  | m :: rest =>
      let? l := insert_member l resource ordinal {| m_name := AssetModel.rm_logical_name m; m_digest := AssetModel.rm_blob_digest m |} in
      insert_members l resource (ordinal + 1) rest
  end.
Fixpoint insert_resources (l : Library) (representation : Id) (rs : list AssetModel.RevisionResource) : res Library :=
  match rs with
  | [] => Ok l
  | r :: rest =>
      let? l := insert_resource l (AssetModel.rr_id r) {| s_representation := representation; s_kind := AssetModel.rr_kind r |} in
      let? l := insert_members l (AssetModel.rr_id r) 0 (AssetModel.rr_members r) in
      insert_resources l representation rest
  end.
Fixpoint insert_representations (l : Library) (revision : Id) (rs : list AssetModel.RevisionRepresentation) : res Library :=
  match rs with
  | [] => Ok l
  | r :: rest =>
      let? l := insert_representation l (AssetModel.rp_id r) {| n_revision := revision; n_purpose := AssetModel.rp_purpose r |} in
      let? l := insert_resources l (AssetModel.rp_id r) (AssetModel.rp_resources r) in
      insert_representations l revision rest
  end.

(** A command that is already in the ledger, or one to execute. *)
Definition unless_known (l : Library) (context : StoreContext) (binding : CommandBinding) (kind : list byte) (k : outcome) : outcome :=
  match read_command l binding with
  | Some row =>
      if negb (binding_matches row binding (owner_uid context)) then Err SeConflict
      else let? row := validate_command_row row in
           let? o := replay_pure l row kind in Ok (o, l)
  | None => k
  end.
Definition allocate_or_reject (l : Library) (binding : CommandBinding) (at_ : Timestamp) (k : Z -> Library -> outcome) : outcome :=
  match allocate_event_sequences l 1 with
  | Ok (sequence, l') => k sequence l'
  | Err SeRevisionExhausted => commit_rejection l binding RevisionExhausted at_
  | Err e => Err e
  end.
(** [UPDATE assets SET .. WHERE asset_id=? AND revision=?]. *)
Definition update_asset (l : Library) (asset : Id) (revision : Z) (set : AssetRow -> AssetRow) : option Library :=
  match assets l !! asset with
  | Some a => if a_revision a =? revision then Some (with_assets l (<[asset := set a]> (assets l))) else None
  | None => None
  end.
Definition revised (revision : Z) (at_ : Timestamp) (a : AssetRow) : AssetRow := {|
  a_kind := a_kind a; a_lifecycle := a_lifecycle a; a_revision := revision; a_created_at := a_created_at a;
  a_created_by := a_created_by a; a_updated_at := Some at_ |}.
Definition only_asset_revision (l : Library) (row : CommandRow) : res Store.CommandResult :=
  let? r := replay_result l row in match r with Store.AssetRevision _ _ _ _ => Ok r | _ => Err SeStorageCorruption end.
Definition only_location (l : Library) (row : CommandRow) : res Store.CommandResult :=
  let? r := replay_result l row in match r with Store.Location _ _ _ => Ok r | _ => Err SeStorageCorruption end.

(** The writes of [create_revision_inner] after its checks. *)
Definition write_revision (l : Library) (context : StoreContext) (request : CreateAssetRevisionCommand) (expected sequence : Z) : outcome :=
  let v := cr_revision request in
  let at_ := cr_operation_at request in
  let asset_id := AssetModel.nr_asset_id v in
  let next := AssetModel.nr_resulting_revision v in
  let? l := ok_or SeStorageCorruption (update_asset l asset_id expected (revised next at_)) in
  let? number := ok_or SeInternal (max_sequence l asset_id) in
  let? l := insert_revision l (AssetModel.nr_revision_id v) {| v_asset := asset_id; v_sequence := number + 1;
    v_content_kind := AssetModel.nr_content_kind v; v_custody := MANAGED; v_created_at := at_; v_created_by := owner_uid context |} in
  let? l := insert_parents l asset_id (AssetModel.nr_revision_id v) (AssetModel.nr_parent_revision_ids v) in
  let? l := insert_representations l (AssetModel.nr_revision_id v) (AssetModel.nr_representations v) in
  let? l := insert_domain_event l (cr_domain_event_id request) sequence (cr_binding request) (bs "asset.revision.created.v1")
              (bs "ASSET_REVISION") (AssetModel.nr_revision_id v) next at_ in
  let? l := insert_provenance l {| pe_id := cr_provenance_event_id request; pe_command := cb_command_id (cr_binding request);
    pe_type := bs "asset.revision.derived.v1"; pe_revision := AssetModel.nr_revision_id v; pe_digest := None; pe_at := at_ |} in
  let? l := ok_or SeStorageCorruption (update_command l (cb_command_id (cr_binding request)) is_claimed
              (finished_row (bs "ASSET_REVISION") (AssetModel.nr_revision_id v) None false at_)) in
  completed_result l (cr_binding request) only_asset_revision.

Definition create_revision (l : Library) (context : StoreContext) (request : CreateAssetRevisionCommand) : outcome :=
  let binding := cr_binding request in
  let at_ := cr_operation_at request in
  let v := cr_revision request in
  let asset_id := AssetModel.nr_asset_id v in
  unless_known l context binding (bs "ASSET_REVISION") (
    let? l := insert_claim l context binding at_ in
    match assets l !! asset_id with
    | Some a =>
        if negb (bool_decide (a_lifecycle a = AssetModel.Active)) then commit_rejection l binding NotFound at_
        else
          let? expected := ok_or SeValidation (checked_sub (AssetModel.nr_resulting_revision v) 1) in
          let? maximum := ok_or SeStorageCorruption (m ← max_sequence l asset_id; try_into U64_MAX m) in
          if negb (maximum =? a_revision a) then Err SeStorageCorruption
          else if negb (a_revision a =? expected) then commit_rejection l binding Conflict at_
          else if U32_MAX <=? expected then commit_rejection l binding RevisionExhausted at_
          else if negb (forallb (parent_belongs l asset_id) (AssetModel.nr_parent_revision_ids v))
          then commit_rejection l binding Conflict at_
          else
            let? known := members_known l (revision_digests v) in
            if negb known then commit_rejection l binding NotFound at_
            else allocate_or_reject l binding at_ (fun sequence l => write_revision l context request expected sequence)
    | None => commit_rejection l binding NotFound at_
    end).

(** Identities for the representations and resources of a deferred request, in the
    order of the loops; the third component collects them. *)
Fixpoint sample_resources (ids : list (res (list byte))) (rs : list ResourceInput)
  : res (list AssetModel.RevisionResource * list Id * list (res (list byte))) :=
  match rs with
  | [] => Ok ([], [], ids)
  | r :: rest =>
      let? (i, ids) := Store.generated_id ids in
      let? x := map_err (fun _ => SeValidation) (AssetModel.revision_resource_new i (ri_kind r)
        (map (fun m => {| AssetModel.rm_logical_name := mi_logical_name m; AssetModel.rm_blob_digest := mi_blob_digest m |}) (ri_members r))) in
      let? (xs, used, ids) := sample_resources ids rest in
      Ok (x :: xs, i :: used, ids)
  end.
Fixpoint sample_representations (ids : list (res (list byte))) (rs : list RepresentationInput)
  : res (list AssetModel.RevisionRepresentation * list Id * list (res (list byte))) :=
  match rs with
  | [] => Ok ([], [], ids)
  | r :: rest =>
      let? (i, ids) := Store.generated_id ids in
      let? (rss, used, ids) := sample_resources ids (pi_resources r) in
      let? x := map_err (fun _ => SeValidation) (AssetModel.revision_representation_new i (pi_purpose r) rss) in
      let? (xs, more, ids) := sample_representations ids rest in
      Ok (x :: xs, i :: used ++ more, ids)
  end.

Definition create_revision_deferred (l : Library) (context : StoreContext) (request : DeferredCreateAssetRevisionCommand) : outcome :=
  let binding := dr_binding request in
  unless_known l context binding (bs "ASSET_REVISION") (
    let? (revision_id, ids) := Store.generated_id (Store.v_ids (dr_values request)) in
    let? (event_id, ids) := Store.generated_id ids in
    let? (provenance_id, ids) := Store.generated_id ids in
    let? (representations, used, _) := sample_representations ids (dr_representations request) in
    if AssetModel.any_repeated ([dr_asset_id request; revision_id; event_id; provenance_id] ++ used ++ dr_parent_revision_ids request)
    then Err SeIdGenerationUnavailable
    else
      let? at_ := Store.v_now (dr_values request) in
      let? _ := Store.v_checkpoint (dr_values request) in
      match assets l !! dr_asset_id request with
      | None => let? l := insert_claim l context binding at_ in commit_rejection l binding NotFound at_
      | Some a =>
          let? kind := map_err (fun _ => SeStorageCorruption) (AssetModel.token_new (a_kind a)) in
          let? _ := persisted_timestamp (a_created_at a).1 (a_created_at a).2 in
          let record := {| AssetModel.ar_id := dr_asset_id request; AssetModel.ar_kind := kind;
            AssetModel.ar_lifecycle := a_lifecycle a; AssetModel.ar_revision := a_revision a;
            AssetModel.ar_created_at := a_created_at a |} in
          match AssetModel.create_revision record {| AssetModel.cv_expected_revision := dr_expected_revision request;
                  AssetModel.cv_revision_id := revision_id; AssetModel.cv_parent_revision_ids := dr_parent_revision_ids request;
                  AssetModel.cv_content_kind := dr_content_kind request; AssetModel.cv_representations := representations;
                  AssetModel.cv_created_at := at_ |} with
          | Ok revision =>
              let? command := create_asset_revision_command_new binding revision event_id provenance_id at_ in
              create_revision l context command
          | Err AssetModel.Conflict => let? l := insert_claim l context binding at_ in commit_rejection l binding Conflict at_
          | Err AssetModel.RevisionExhausted =>
              let? l := insert_claim l context binding at_ in commit_rejection l binding RevisionExhausted at_
          | Err _ => Err SeValidation
          end
      end).

(** ** Lifecycle *)

Definition valid_transition (current target : Lifecycle) : bool :=
  match current, target with
  | AssetModel.Active, AssetModel.Retired | AssetModel.Retired, AssetModel.Active => true
  | _, _ => false
  end.
Definition relabelled (target : Lifecycle) (revision : Z) (at_ : Timestamp) (a : AssetRow) : AssetRow := {|
  a_kind := a_kind a; a_lifecycle := target; a_revision := revision; a_created_at := a_created_at a;
  a_created_by := a_created_by a; a_updated_at := Some at_ |}.
Definition lifecycle_event (target : Lifecycle) : list byte :=
  match target with AssetModel.Retired => bs "asset.retired.v1" | AssetModel.Active => bs "asset.restored.v1" end.

Definition change_asset_lifecycle (l : Library) (context : StoreContext) (request : AssetLifecycleCommand) : outcome :=
  let binding := al_binding request in
  let at_ := al_operation_at request in
  unless_known l context binding (bs "ASSET_LIFECYCLE") (
    let? l := insert_claim l context binding at_ in
    match assets l !! al_asset_id request with
    | None => commit_rejection l binding NotFound at_
    | Some a =>
        if negb (a_revision a =? al_expected_revision request) then commit_rejection l binding Conflict at_
        else if negb (valid_transition (a_lifecycle a) (al_target request)) then commit_rejection l binding InvalidTransition at_
        else match checked_add U64_MAX (a_revision a) 1 with
        | None => commit_rejection l binding RevisionExhausted at_
        | Some next =>
            allocate_or_reject l binding at_ (fun sequence l =>
              let? l := ok_or SeStorageCorruption (update_asset l (al_asset_id request) (a_revision a) (relabelled (al_target request) next at_)) in
              let? l := insert_domain_event l (al_domain_event_id request) sequence binding (lifecycle_event (al_target request))
                          (bs "ASSET") (al_asset_id request) next at_ in
              let? l := ok_or SeStorageCorruption (update_command l (cb_command_id binding) is_claimed
                          (fun row => completed_row row (al_asset_id request) (VrAssetLifecycle next (al_target request)) at_)) in
              completed_result l binding replay_result)
        end
    end).

Definition change_asset_lifecycle_deferred (l : Library) (context : StoreContext) (request : DeferredAssetLifecycleCommand) : outcome :=
  let binding := dl_binding request in
  unless_known l context binding (bs "ASSET_LIFECYCLE") (
    let? (event_id, _) := Store.generated_id (Store.v_ids (dl_values request)) in
    let? at_ := Store.v_now (dl_values request) in
    let? _ := Store.v_checkpoint (dl_values request) in
    let? command := asset_lifecycle_command_new binding (dl_asset_id request) (dl_expected_revision request)
                      (dl_target request) event_id at_ in
    change_asset_lifecycle l context command).

(** ** Locations *)

Definition check_blob_row (b : BlobRow) (byte_length : Z) : res () :=
  if b_revision b =? 0 then Err SeStorageCorruption
  else
    let? _ := check_media_type (b_media_type b) in
    let? _ := persisted_timestamp (b_verified_at b).1 (b_verified_at b).2 in
    if negb (bool_decide (b_lifecycle b = AssetModel.BlobAvailable)) then Err SeStorageCorruption
    else if negb (bool_decide (try_into U64_MAX (b_length b) = Some byte_length)) then Err SeStorageCorruption
    else Ok tt.
Definition reverified (revision : Z) (at_ : Timestamp) (b : BlobRow) : BlobRow := {|
  b_length := b_length b; b_media_type := b_media_type b; b_lifecycle := b_lifecycle b; b_revision := revision;
  b_verified_at := at_ |}.

Definition record_location (l : Library) (context : StoreContext) (request : RecordManagedLocationCommand) : outcome :=
  let blob := rl_durable_blob request in
  let binding := rl_binding request in
  let at_ := rl_operation_at request in
  let? _ := validate_descriptor (db_backend_id blob) 255 in
  let? _ := validate_descriptor (db_locator blob) 1024 in
  unless_known l context binding (bs "LOCATION") (
    let? l := insert_claim l context binding at_ in
    match blobs l !! db_digest blob with
    | None => commit_rejection l binding NotFound at_
    | Some b =>
        let? _ := check_blob_row b (db_byte_length blob) in
        if negb (b_revision b =? rl_expected_revision request) then commit_rejection l binding Conflict at_
        else match Revision.checked_next (rl_expected_revision request) with
        | Err _ => commit_rejection l binding RevisionExhausted at_
        | Ok next =>
            match location_at l blob with
            | Some (i, row) =>
                let? _ := check_stored_location row i (db_digest blob) in
                commit_rejection l binding Conflict at_
            | None =>
                allocate_or_reject l binding at_ (fun sequence l =>
                  let? l := insert_location l (rl_candidate_location_id request) (managed_location blob at_) in
                  let l := with_blobs l (alter (reverified next at_) (db_digest blob) (blobs l)) in
                  let? l := insert_domain_event l (rl_domain_event_id request) sequence binding (bs "blob.location.recorded.v1")
                              (bs "BLOB") (db_digest blob) next at_ in
                  let? l := ok_or SeStorageCorruption (update_command l (cb_command_id binding) is_claimed
                              (finished_row (bs "LOCATION") (rl_candidate_location_id request) None false at_)) in
                  completed_result l binding only_location)
            end
        end
    end).

(** ** Materialization *)

Definition replay_materialization (l : Library) (row : CommandRow) (command : MaterializationCommandBinding) : res MaterializationResult :=
  if negb (bool_decide (c_operation_id row = ASSET_MATERIALIZE_V1)) || negb (bool_decide (c_state row = COMPLETED))
     || negb (kind_is row (bs "ASSET_REVISION")) || negb (bool_decide (c_result_id row = Some (mc_asset_revision_id command)))
     || negb (none (c_result_location_id row))
  then Err SeStorageCorruption
  else
    match assets l !! mc_asset_id command, revisions l !! mc_asset_revision_id command,
          representations l !! mc_representation_id command, resources l !! mc_resource_id command,
          members l !! (mc_resource_id command, mc_member_ordinal command) with
    | Some _, Some v, Some n, Some s, Some m =>
        match blobs l !! m_digest m with
        | Some b =>
            if bool_decide (v_asset v = mc_asset_id command) && bool_decide (n_revision n = mc_asset_revision_id command)
               && bool_decide (s_representation s = mc_representation_id command)
               && bool_decide (b_lifecycle b = AssetModel.BlobAvailable)
            then
              let? digest := checked_digest (m_digest m) in
              let? length := ok_or SeStorageCorruption (try_into U64_MAX (b_length b)) in
              materialization_result_from_store (cb_command_id (mc_binding command)) (mc_asset_revision_id command)
                (mc_representation_id command) (mc_resource_id command) (mc_member_ordinal command) digest length
            else Err SeStorageCorruption
        | None => Err SeStorageCorruption
        end
    | _, _, _, _, _ => Err SeStorageCorruption
    end.

Definition observe_materialization (l : Library) (context : StoreContext) (command : MaterializationCommandBinding)
  : res MaterializationObservation :=
  match read_command l (mc_binding command) with
  | None => Ok ObsAbsent
  | Some row =>
      if negb (binding_matches row (mc_binding command) (owner_uid context)) then Err SeConflict
      else
        let? row := validate_command_row row in
        match c_state row with
        | CLAIMED => if bool_decide (c_runtime_id row = runtime_id context) then Ok ObsInProgress else Ok (ObsRecoveryCandidate None)
        | RECOVERY_REQUIRED => let? code := parse_safe_code row in Ok (ObsRecoveryCandidate (Some code))
        | COMPLETED => let? r := replay_materialization l row command in Ok (ObsReplay r)
        | TERMINAL_REJECTED => let? code := parse_safe_code row in Ok (ObsTerminalRejected code)
        end
  end.

Definition claim_new_materialization (l : Library) (context : StoreContext) (transition : MaterializationTransition) : res Library :=
  let binding := mc_binding (mt_command transition) in
  match read_command l binding with
  | Some _ => Err SeConflict
  | None => insert_claim l context binding (mt_at transition)
  end.

Definition reacquire_materialization (l : Library) (context : StoreContext) (transition : MaterializationTransition)
    (expected_safe_error_code : option ErrorCode) : res Library :=
  let binding := mc_binding (mt_command transition) in
  let? row := bound_row l context binding in
  let? accepted := match expected_safe_error_code with
    | None => Ok (is_claimed row && negb (bool_decide (c_runtime_id row = runtime_id context)))
    | Some code =>
        if bool_decide (c_state row = RECOVERY_REQUIRED) && is_materialization_recovery_code code
        then let? stored := parse_safe_code row in Ok (bool_decide (stored = code)) else Ok false
    end in
  if negb accepted then Err SeConflict
  else
    ok_or SeConflict (update_command l (cb_command_id binding)
      (fun r => bool_decide (c_state r = c_state row) && bool_decide (c_runtime_id r = c_runtime_id row)
                && bool_decide (c_safe_error_code r = option_map ErrorCodeText.as_str expected_safe_error_code))
      (reacquired_row (runtime_id context) (mt_at transition))).

Definition complete_materialization (l : Library) (context : StoreContext) (transition : MaterializationTransition)
  : res (MaterializationResult * Library) :=
  let command := mt_command transition in
  let binding := mc_binding command in
  let? row := bound_row l context binding in
  if negb (owned_claim context row) then Err SeConflict
  else
    let? l := ok_or SeStorageCorruption (update_command l (cb_command_id binding) (owned_claim context)
                (finished_row (bs "ASSET_REVISION") (mc_asset_revision_id command) None true (mt_at transition))) in
    let? row := ok_or SeStorageCorruption (read_command l binding) in
    let? row := validate_command_row row in
    let? r := replay_materialization l row command in
    Ok (r, l).

Definition finish_materialization (l : Library) (context : StoreContext) (request : MaterializationFinish)
  : res (ExternalDispositionOutcome * Library) :=
  let transition := mf_transition request in
  let binding := mc_binding (mt_command transition) in
  let? row := bound_row l context binding in
  let '(state, code) := disposition_parts (mf_disposition request) in
  if owned_claim context row then
    let? l := ok_or SeStorageCorruption (update_command l (cb_command_id binding) (owned_claim context)
                (marked_row state code (mt_at transition))) in
    Ok (Stored, l)
  else
    let? known := (if bool_decide (c_state row = state)
                   then let? stored := parse_safe_code row in Ok (bool_decide (stored = code)) else Ok false) in
    if known then Ok (DispositionReplay code, l) else Err SeConflict.
End ops.
End AssetOps.
