(* ===== verification/CommandRows.v ===== *)
(** Which rows of the ledger validate: [validate_command_row] as a predicate, the
    shape of valid rows in each state, and the validity of the rows the statements
    of the writer derive from them. *)
From Stdlib Require Import ZArith Lia String.
From Stdlib Require Import Strings.Byte Init.Byte.
From stdpp Require Import prelude list gmap.
From S2P Require Import Prelude RustText Types AssetDomain CreativeDomain Ports CommandLedger CreativeStore AssetStore.

Set Warnings "-clear-no-such-hyp".

Module Rows.
Import Ports Ledger Assets.

Section rows.
Context `{StoreEnv}.

Definition valid_row (r : CommandRow) : Prop := validate_command_row r = Ok r.
Definition instant_ok (seconds nanos : Z) : Prop := persisted_timestamp seconds nanos = Ok tt.

(** The columns every state has in common. *)
Record header_ok (r : CommandRow) : Prop := {
  h_command : check_id (Some (c_command_id r)) = Ok tt;
  h_runtime : check_id (Some (c_runtime_id r)) = Ok tt;
  h_digest : length (c_digest r) = 32%nat;
  h_principal : c_principal_kind r = bs "LOCAL_OWNER_UID_V1";
  h_uid : try_into U32_MAX (c_principal_uid r) = Some (c_principal_uid r);
  h_operation : operation_id_ok (c_operation_id r) = true;
  h_created : instant_ok (c_created_at_seconds r) (c_created_at_nanos r);
  h_updated : instant_ok (c_updated_at_seconds r) (c_updated_at_nanos r) }.
Definition body_ok (r : CommandRow) : Prop :=
  exists code present, parse_code (c_safe_error_code r) = Ok code /\ payload_present r = Ok present /\
    check_state r code present = Ok tt /\ validate_known_command_matrix r code = Ok tt.

Lemma valid_row_iff r : valid_row r <-> header_ok r /\ body_ok r.
Proof.
  unfold valid_row, validate_command_row. split.
  - intros Hv. inv_result.
    repeat match goal with x : () |- _ => destruct x end.
    repeat match goal with E : orb _ _ = false |- _ => apply orb_false_elim in E as [? ?]
      | E : negb _ = false |- _ => apply negb_false_iff in E end.
    split; [constructor; try done|do 2 eexists; eauto].
    + by eapply bool_decide_eq_true_1.
    + by eapply bool_decide_eq_true_1.
    + match goal with E : none (try_into _ _) = false |- _ => destruct (try_into _ _) eqn:E2; [|done] end.
      by apply try_into_Some in E2 as [-> _].
  - intros [[-> -> Hd Hp Hu Ho Hc Hn] (code & present & Hcode & Hpres & Hs & Hm)]. cbn.
    rewrite (bool_decide_eq_true_2 _ Hd), (bool_decide_eq_true_2 _ Hp), Hu, Ho, Hc, Hn, Hcode. cbn.
    rewrite Hpres. cbn. rewrite Hs. cbn. by rewrite Hm.
Qed.

Lemma validated r r' : validate_command_row r = Ok r' -> r' = r /\ valid_row r.
Proof.
  intros Hv. assert (r' = r) as -> by (unfold validate_command_row in Hv; by inv_result). done.
Qed.

(** A row without a result: none of the seven result columns, and the error code. *)
Definition bare (r : CommandRow) (code : option (list byte)) : Prop :=
  c_result_kind r = None /\ c_result_id r = None /\ c_result_location_id r = None /\ c_result_schema_version r = None /\
  c_result_payload r = None /\ c_result_payload_sha256 r = None /\ c_safe_error_code r = code.
Definition is_final (st : CommandState) : bool := match st with COMPLETED | TERMINAL_REJECTED => true | _ => false end.

Lemma none_true {A} (o : option A) : none o = true -> o = None.
Proof. by destruct o. Qed.
Lemma present_false r : payload_present r = Ok false ->
  c_result_schema_version r = None /\ c_result_payload r = None /\ c_result_payload_sha256 r = None.
Proof. unfold payload_present. repeat case_match; try done. Qed.

Lemma valid_bare r : valid_row r -> c_state r <> COMPLETED -> exists code, bare r code.
Proof.
  intros (_ & code & present & Hcode & Hpres & Hs & _)%valid_row_iff Hst. exists (c_safe_error_code r).
  unfold check_state in Hs. destruct (c_state r); try done; inv_result; bool_hyps;
    repeat match goal with E : none _ = true |- _ => apply none_true in E end;
    destruct present; try discriminate; apply present_false in Hpres as (? & ? & ?); repeat split; done.
Qed.
Lemma valid_claimed r : valid_row r -> c_state r = CLAIMED -> bare r None.
Proof.
  intros Hv Hst. destruct (valid_bare r Hv) as [code Hb]; [congruence|].
  apply valid_row_iff in Hv as (_ & c & present & Hcode & _ & Hs & _). unfold check_state in Hs. rewrite Hst in Hs.
  inv_result; bool_hyps. destruct Hb as (?&?&?&?&?&?&?). assert (c = None) as -> by (by apply none_true).
  unfold bare. split_and!; try done. destruct (c_safe_error_code r); [|done]. cbn in Hcode.
  destruct (ErrorCodeText.from_str _); done.
Qed.

Lemma bare_absent r code : bare r code -> payload_present r = Ok false.
Proof. unfold payload_present. by intros (_ & _ & _ & -> & -> & -> & _). Qed.

(** ** Valid rows *)

Lemma claimed_valid r :
  header_ok r -> c_state r = CLAIMED -> bare r None -> validate_known_command_matrix r None = Ok tt -> valid_row r.
Proof.
  intros Hh Hst Hb Hm. apply valid_row_iff. split; [done|]. exists None, false.
  rewrite (bare_absent _ _ Hb). destruct Hb as (Hk & Hi & Hl & _ & _ & _ & ->). split_and!; try done.
  unfold check_state. by rewrite Hst, Hk, Hi, Hl.
Qed.
Lemma refused_valid r code :
  header_ok r -> c_state r = TERMINAL_REJECTED \/ c_state r = RECOVERY_REQUIRED -> bare r (Some (ErrorCodeText.as_str code)) ->
  validate_known_command_matrix r (Some code) = Ok tt -> valid_row r.
Proof.
  intros Hh Hst Hb Hm. apply valid_row_iff. split; [done|]. exists (Some code), false.
  rewrite (bare_absent _ _ Hb). destruct Hb as (Hk & Hi & Hl & _ & _ & _ & ->). split_and!; try done.
  - cbn. by rewrite ErrorCodeText.as_str_from_str.
  - unfold check_state. destruct Hst as [-> | ->]; by rewrite Hk, Hi, Hl.
Qed.
End rows.
End Rows.
