(* ===== verification/AssetLedger.v ===== *)
(** The ledger under the asset commands: which rows they write, that every row they
    leave is valid, and that settled rows never change again. *)
From Stdlib Require Import ZArith Lia String.
From Stdlib Require Import Strings.Byte Init.Byte.
From stdpp Require Import prelude list gmap.
From S2P Require Import Prelude RustText Types AssetDomain CreativeDomain Ports CommandLedger CreativeStore AssetStore AssetCommands CommandRows.

Set Warnings "-clear-no-such-hyp".

Module AssetLedger.
Import Ports Ledger Assets AssetOps Rows.

Section ledger.
Context `{StoreEnv}.

(** ** One type of operation *)

Inductive AssetOp :=
| ClaimExternal (r : ExternalIngestClaim) | CompleteExternal (r : ExternalIngestCompletion)
| FinishExternal (r : ExternalIngestDisposition) | CreateRevision (r : CreateAssetRevisionCommand)
| DeferredRevision (r : DeferredCreateAssetRevisionCommand) | ChangeLifecycle (r : AssetLifecycleCommand)
| DeferredLifecycle (r : DeferredAssetLifecycleCommand) | RecordLocation (r : RecordManagedLocationCommand)
| ClaimMaterialization (t : MaterializationTransition)
| ReacquireMaterialization (t : MaterializationTransition) (code : option ErrorCode)
| CompleteMaterialization (t : MaterializationTransition) | FinishMaterialization (r : MaterializationFinish).
Inductive Answer :=
| AClaim (o : ExternalClaimOutcome) | AMutation (o : Store.MutationOutcome) | ADisposition (o : ExternalDispositionOutcome)
| ADone | AMaterialized (r : MaterializationResult).

Definition answering {A} (f : A -> Answer) (r : res (A * Library)) : res (Answer * Library) := let? (a, l) := r in Ok (f a, l).
Definition silently (r : res Library) : res (Answer * Library) := let? l := r in Ok (ADone, l).
Definition execute (l : Library) (context : StoreContext) (op : AssetOp) : res (Answer * Library) :=
  match op with
  | ClaimExternal r => answering AClaim (claim_external l context r)
  | CompleteExternal r => answering AMutation (complete_external l context r)
  | FinishExternal r => answering ADisposition (finish_external l context r)
  | CreateRevision r => answering AMutation (create_revision l context r)
  | DeferredRevision r => answering AMutation (create_revision_deferred l context r)
  | ChangeLifecycle r => answering AMutation (change_asset_lifecycle l context r)
  | DeferredLifecycle r => answering AMutation (change_asset_lifecycle_deferred l context r)
  | RecordLocation r => answering AMutation (record_location l context r)
  | ClaimMaterialization t => silently (claim_new_materialization l context t)
  | ReacquireMaterialization t code => silently (reacquire_materialization l context t code)
  | CompleteMaterialization t => answering AMaterialized (complete_materialization l context t)
  | FinishMaterialization r => answering ADisposition (finish_materialization l context r)
  end.
Definition binding_of (op : AssetOp) : CommandBinding :=
  match op with
  | ClaimExternal r => ec_binding r | CompleteExternal r => ei_binding r | FinishExternal r => ed_binding r
  | CreateRevision r => cr_binding r | DeferredRevision r => dr_binding r | ChangeLifecycle r => al_binding r
  | DeferredLifecycle r => dl_binding r | RecordLocation r => rl_binding r
  | ClaimMaterialization t | ReacquireMaterialization t _ | CompleteMaterialization t => mc_binding (mt_command t)
  | FinishMaterialization r => mc_binding (mt_command (mf_transition r))
  end.
(** A failed operation is rolled back. *)
Definition after (l : Library) (context : StoreContext) (op : AssetOp) : Library :=
  match execute l context op with Ok (_, l') => l' | Err _ => l end.
Definition run (l : Library) (ops : list (StoreContext * AssetOp)) : Library :=
  foldl (fun l '(context, op) => after l context op) l ops.

(** ** What changes a row *)

Definition same_command (r r' : CommandRow) : Prop :=
  c_command_id r' = c_command_id r /\ c_operation_id r' = c_operation_id r /\ c_principal_kind r' = c_principal_kind r /\
  c_principal_uid r' = c_principal_uid r /\ c_digest r' = c_digest r /\
  c_created_at_seconds r' = c_created_at_seconds r /\ c_created_at_nanos r' = c_created_at_nanos r.
(** The edges of the state column, by the operation and the runtime that takes them. *)
Inductive row_edge (context : StoreContext) : CommandRow -> CommandRow -> Prop :=
| edge_complete r r' : c_state r = CLAIMED -> c_runtime_id r = runtime_id context -> c_state r' = COMPLETED ->
    c_runtime_id r' = c_runtime_id r -> row_edge context r r'
| edge_reject r r' : c_state r = CLAIMED -> c_runtime_id r = runtime_id context -> c_state r' = TERMINAL_REJECTED ->
    c_runtime_id r' = c_runtime_id r -> row_edge context r r'
| edge_recover r r' : c_state r = CLAIMED -> c_state r' = RECOVERY_REQUIRED -> c_runtime_id r' = c_runtime_id r -> row_edge context r r'
| edge_reacquire r r' : c_operation_id r = ASSET_MATERIALIZE_V1 ->
    (c_state r = CLAIMED /\ c_runtime_id r <> runtime_id context) \/ c_state r = RECOVERY_REQUIRED ->
    c_state r' = CLAIMED -> c_runtime_id r' = runtime_id context -> row_edge context r r'.
(** A row no operation changes any more. *)
Definition settled (r : CommandRow) : Prop :=
  match c_state r with
  | COMPLETED | TERMINAL_REJECTED => True
  | RECOVERY_REQUIRED => c_operation_id r <> ASSET_MATERIALIZE_V1
  | CLAIMED => False
  end.
Definition fresh_row (context : StoreContext) (b : CommandBinding) (r : CommandRow) : Prop :=
  c_command_id r = cb_command_id b /\ c_operation_id r = cb_operation_id b /\ c_digest r = cb_canonical_request_digest b /\
  c_runtime_id r = runtime_id context /\ c_state r <> RECOVERY_REQUIRED.
(** The effect of one operation on the ledger: none, a new row or one edge. *)
Definition ledger_effect (context : StoreContext) (b : CommandBinding) (m m' : gmap Id CommandRow) : Prop :=
  m' = m \/
  (exists r, m !! cb_command_id b = None /\ m' = <[cb_command_id b := r]> m /\ fresh_row context b r /\ valid_row r) \/
  (exists r r', m !! cb_command_id b = Some r /\ m' = <[cb_command_id b := r']> m /\ same_command r r' /\
     row_edge context r r' /\ valid_row r').

Definition ledger_ok (l : Library) : Prop := map_Forall (fun i r => c_command_id r = i /\ valid_row r) (commands l).

(** ** Requests as their constructors make them *)

Definition context_ok (context : StoreContext) : Prop :=
  length (runtime_id context) = 16%nat /\ id_valid (runtime_id context) = true /\ is_u32 (owner_uid context).
Definition binding_ok (b : CommandBinding) (ops : list OperationId) : Prop :=
  length (cb_command_id b) = 16%nat /\ id_valid (cb_command_id b) = true /\
  length (cb_canonical_request_digest b) = 32%nat /\ cb_operation_id b ∈ ops.
Definition time_ok (t : Timestamp) : Prop := is_u32 t.2 /\ timestamp_valid t.1 t.2 = true.
Definition values_ok (v : Store.Values) : Prop := forall t, Store.v_now v = Ok t -> time_ok t.
Definition disposition_ok (terminal recovery : ErrorCode -> bool) (d : Disposition) : Prop :=
  match d with DispTerminalRejected c => terminal c = true | DispRecoveryRequired c => recovery c = true end.
Definition op_ok (op : AssetOp) : Prop :=
  match op with
  | ClaimExternal r => binding_ok (ec_binding r) [ASSET_INGEST_COPY_V1] /\ time_ok (ec_claimed_at r)
  | CompleteExternal r => binding_ok (ei_binding r) [ASSET_INGEST_COPY_V1] /\ time_ok (ei_completed_at r)
  | FinishExternal r => binding_ok (ed_binding r) [ASSET_INGEST_COPY_V1] /\ time_ok (ed_observed_at r) /\
      disposition_ok is_external_terminal_code is_external_recovery_code (ed_disposition r)
  | CreateRevision r => binding_ok (cr_binding r) [ASSET_REVISION_CREATE_V1] /\ time_ok (cr_operation_at r)
  | DeferredRevision r => binding_ok (dr_binding r) [ASSET_REVISION_CREATE_V1] /\ values_ok (dr_values r)
  | ChangeLifecycle r => binding_ok (al_binding r) [ASSET_RETIRE_V1; ASSET_RESTORE_V1] /\ time_ok (al_operation_at r)
  | DeferredLifecycle r => binding_ok (dl_binding r) [ASSET_RETIRE_V1; ASSET_RESTORE_V1] /\ values_ok (dl_values r)
  | RecordLocation r => binding_ok (rl_binding r) [BLOB_LOCATION_RECORD_V1] /\ time_ok (rl_operation_at r)
  | ClaimMaterialization t | ReacquireMaterialization t _ | CompleteMaterialization t =>
      binding_ok (mc_binding (mt_command t)) [ASSET_MATERIALIZE_V1] /\ time_ok (mt_at t)
  | FinishMaterialization r => binding_ok (mc_binding (mt_command (mf_transition r))) [ASSET_MATERIALIZE_V1] /\
      time_ok (mt_at (mf_transition r)) /\
      disposition_ok is_materialization_terminal_code is_materialization_recovery_code (mf_disposition r)
  end.

(** ** Rows the statements write *)

Definition asset_operations : list OperationId :=
  [ASSET_INGEST_COPY_V1; ASSET_REVISION_CREATE_V1; ASSET_RETIRE_V1; ASSET_RESTORE_V1; BLOB_LOCATION_RECORD_V1; ASSET_MATERIALIZE_V1].
Definition pure_operations : list OperationId :=
  [ASSET_REVISION_CREATE_V1; ASSET_RETIRE_V1; ASSET_RESTORE_V1; BLOB_LOCATION_RECORD_V1].
Definition effect_operations : list OperationId := [ASSET_INGEST_COPY_V1; ASSET_MATERIALIZE_V1].

Lemma time_instant t : time_ok t -> instant_ok t.1 t.2.
Proof. intros [Hu Ht]. unfold instant_ok, persisted_timestamp. rewrite try_into_id by done. cbn. by rewrite Ht. Qed.
Lemma id_checked i : length i = 16%nat -> id_valid i = true -> check_id (Some i) = Ok tt.
Proof. intros Hl Hv. unfold check_id, id_bytes. cbn. rewrite bool_decide_eq_true_2 by done. cbn. by rewrite Hv. Qed.
Lemma known_operation_ok op : op ∈ asset_operations -> operation_id_ok op = true.
Proof. unfold asset_operations. rewrite !elem_of_cons. intros Hin. repeat destruct Hin as [-> | Hin]; [by vm_compute..|by inversion Hin]. Qed.

Lemma claim_header context b ops at_ :
  context_ok context -> binding_ok b ops -> ops ⊆ asset_operations -> time_ok at_ -> header_ok (claim_row context b at_).
Proof.
  intros (Hr & Hrv & Hu) (Hc & Hcv & Hd & Hop) Hsub Ht. constructor; cbn; try done.
  - by apply id_checked.
  - by apply id_checked.
  - by apply try_into_id.
  - apply known_operation_ok. set_solver.
  - by apply time_instant.
  - by apply time_instant.
Qed.
Lemma claim_bare context b at_ : bare (claim_row context b at_) None.
Proof. by repeat split. Qed.
Lemma claim_valid context b at_ :
  context_ok context -> binding_ok b effect_operations -> time_ok at_ -> valid_row (claim_row context b at_).
Proof.
  intros Hc Hb Ht. apply claimed_valid; [eapply claim_header; [done..| |done]; set_solver|done|apply claim_bare|].
  destruct Hb as (_ & _ & _ & Hop). unfold validate_known_command_matrix. cbn [c_operation_id claim_row c_state].
  unfold effect_operations in Hop. rewrite !elem_of_cons in Hop. destruct Hop as [-> | [-> | Hin]]; [done..|by inversion Hin].
Qed.
Lemma rejected_valid context b at_ code :
  context_ok context -> binding_ok b pure_operations -> time_ok at_ -> is_pure_rejection_code code = true ->
  valid_row (rejected_row (claim_row context b at_) code at_).
Proof.
  intros Hc Hb Ht Hcode. apply (refused_valid _ code); [|by left|by repeat split|].
  - edestruct claim_header; [exact Hc|exact Hb| |exact Ht|]; [set_solver|]. by constructor.
  - destruct Hb as (_ & _ & _ & Hop). unfold validate_known_command_matrix, pure_matrix. cbn [c_operation_id claim_row rejected_row c_state].
    unfold pure_operations in Hop. rewrite !elem_of_cons in Hop.
    repeat destruct Hop as [-> | Hop]; [cbn; by rewrite Hcode..|by inversion Hop].
Qed.

(** The states a disposition may record. *)
Definition mark_allowed (op : OperationId) (state : CommandState) (code : ErrorCode) : Prop :=
  op = ASSET_INGEST_COPY_V1 /\ (state = TERMINAL_REJECTED /\ is_external_terminal_code code = true \/
    state = RECOVERY_REQUIRED /\ is_external_recovery_code code = true) \/
  op = ASSET_MATERIALIZE_V1 /\ (state = TERMINAL_REJECTED /\ is_materialization_terminal_code code = true \/
    state = RECOVERY_REQUIRED /\ is_materialization_recovery_code code = true).
Lemma marked_valid r state code at_ :
  valid_row r -> c_state r = CLAIMED -> time_ok at_ -> mark_allowed (c_operation_id r) state code ->
  valid_row (marked_row state code at_ r).
Proof.
  intros Hv Hst Ht Hm. pose proof (valid_claimed r Hv Hst) as (?&?&?&?&?&?&?).
  apply valid_row_iff in Hv as [[] _]. apply (refused_valid _ code).
  - constructor; cbn; try done. by apply time_instant.
  - cbn. destruct Hm as [(_ & [[-> _]|[-> _]])|(_ & [[-> _]|[-> _]])]; auto.
  - by repeat split.
  - unfold validate_known_command_matrix. cbn [c_operation_id marked_row c_state].
    destruct Hm as [(-> & [[-> Hcode]|[-> Hcode]])|(-> & [[-> Hcode]|[-> Hcode]])]; cbn; by rewrite Hcode.
Qed.
Lemma reacquired_valid context r at_ :
  context_ok context -> valid_row r -> c_state r <> COMPLETED -> c_operation_id r = ASSET_MATERIALIZE_V1 -> time_ok at_ ->
  valid_row (reacquired_row (runtime_id context) at_ r).
Proof.
  intros (Hr & Hrv & _) Hv Hst Hop Ht. destruct (valid_bare r Hv Hst) as (code & ?&?&?&?&?&?&?).
  apply valid_row_iff in Hv as [[] _]. apply claimed_valid; [|done|by repeat split|].
  - constructor; cbn; try done; [by apply id_checked|by apply time_instant].
  - unfold validate_known_command_matrix. cbn [c_operation_id reacquired_row c_state]. by rewrite Hop.
Qed.

#[local] Create HintDb keeps discriminated.
(** ** Statements that leave the ledger alone *)

Ltac keeps := intros; inv_result; repeat case_match; inv_result; reflexivity || congruence.

Lemma on_base_ok {A} l (r : res (A * Store.Store)) a l' :
  on_base l r = Ok (a, l') -> exists s, r = Ok (a, s) /\ l' = with_base l s.
Proof. unfold on_base. intros Hr. apply result_bind_ok in Hr as ([x s] & -> & Hr). injection Hr as -> <-. eauto. Qed.
Lemma on_base'_ok l (r : res Store.Store) l' : on_base' l r = Ok l' -> exists s, r = Ok s /\ l' = with_base l s.
Proof. unfold on_base'. intros Hr. apply result_bind_ok in Hr as (s & -> & Hr). injection Hr as <-. eauto. Qed.

Lemma allocate_keeps l n q l' : allocate_event_sequences l n = Ok (q, l') -> commands l' = commands l.
Proof.
  intros (s & Hs & ->)%on_base_ok. unfold Store.allocate_event_sequences in Hs. case_match; [|done]. by injection Hs as <- <-.
Qed.
Lemma insert_domain_event_keeps l i q b t k a v at_ l' :
  insert_domain_event l i q b t k a v at_ = Ok l' -> commands l' = commands l.
Proof.
  intros (s & Hs & ->)%on_base'_ok. unfold Store.insert_domain_event, Store.insert_event in Hs. case_match; [done|]. by injection Hs as <-.
Qed.
Lemma insert_asset_keeps l i r l' : insert_asset l i r = Ok l' -> commands l' = commands l.
Proof. unfold insert_asset. keeps. Qed.
Lemma insert_revision_keeps l i r l' : insert_revision l i r = Ok l' -> commands l' = commands l.
Proof. unfold insert_revision. keeps. Qed.
Lemma insert_representation_keeps l i r l' : insert_representation l i r = Ok l' -> commands l' = commands l.
Proof. unfold insert_representation. keeps. Qed.
Lemma insert_resource_keeps l i r l' : insert_resource l i r = Ok l' -> commands l' = commands l.
Proof. unfold insert_resource. keeps. Qed.
Lemma insert_member_keeps l i o r l' : insert_member l i o r = Ok l' -> commands l' = commands l.
Proof. unfold insert_member. keeps. Qed.
Lemma insert_provenance_keeps l r l' : insert_provenance l r = Ok l' -> commands l' = commands l.
Proof. unfold insert_provenance. keeps. Qed.
Lemma insert_location_keeps l i r l' : insert_location l i r = Ok l' -> commands l' = commands l.
Proof. unfold insert_location. keeps. Qed.
Lemma insert_parents_keeps l a c ps l' : insert_parents l a c ps = Ok l' -> commands l' = commands l.
Proof. unfold insert_parents. keeps. Qed.
Lemma update_asset_keeps l a v f l' : update_asset l a v f = Some l' -> commands l' = commands l.
Proof. unfold update_asset. repeat case_match; try done. by intros [= <-]. Qed.
Lemma persist_blob_keeps l b m at_ l' : persist_blob l b m at_ = Ok l' -> commands l' = commands l.
Proof. unfold persist_blob. case_match; intros; inv_result; done. Qed.
Lemma with_blobs_keeps l x : commands (with_blobs l x) = commands l.
Proof. done. Qed.
#[local] Hint Resolve with_blobs_keeps allocate_keeps insert_domain_event_keeps insert_asset_keeps insert_revision_keeps
  insert_representation_keeps insert_resource_keeps insert_member_keeps insert_provenance_keeps insert_location_keeps
  insert_parents_keeps update_asset_keeps persist_blob_keeps : keeps.

(** Rewrites the ledger back along the statements executed so far. *)
Ltac back := inv_result; simplify_eq; repeat first [reflexivity | eassumption | etrans; [solve [eauto 2 with keeps nocore]|]].

Lemma persist_location_keeps l b i m at_ j l' :
  persist_blob_and_location l b i m at_ = Ok (j, l') -> commands l' = commands l.
Proof.
  unfold persist_blob_and_location. intros Hr. apply result_bind_ok in Hr as (l1 & H1 & Hr).
  destruct (location_at l1 b) as [[k row]|]; inv_result; simplify_eq; back.
Qed.
Lemma insert_members_keeps l rs o ms l' : insert_members l rs o ms = Ok l' -> commands l' = commands l.
Proof. revert l o. induction ms as [|m ms IH]; cbn; intros; inv_result; [done|]. erewrite IH by done. back. Qed.
#[local] Hint Resolve persist_location_keeps insert_members_keeps : keeps.
Lemma insert_resources_keeps l rp rs l' : insert_resources l rp rs = Ok l' -> commands l' = commands l.
Proof. revert l. induction rs as [|r rs IH]; cbn; intros; inv_result; [done|]. erewrite IH by done. back. Qed.
#[local] Hint Resolve insert_resources_keeps : keeps.
Lemma insert_representations_keeps l rv rs l' : insert_representations l rv rs = Ok l' -> commands l' = commands l.
Proof. revert l. induction rs as [|r rs IH]; cbn; intros; inv_result; [done|]. erewrite IH by done. back. Qed.
Lemma registration_graph_keeps l context r l' : insert_registration_graph l context r = Ok l' -> commands l' = commands l.
Proof. unfold insert_registration_graph. intros. back. Qed.
Lemma registration_events_keeps l r q l' : insert_registration_events l r q = Ok l' -> commands l' = commands l.
Proof. unfold insert_registration_events. intros. back. Qed.
#[local] Hint Resolve insert_representations_keeps registration_graph_keeps registration_events_keeps : keeps.

(** ** The effect of each operation *)

(** Answers that say the command took effect now, and those that hand its claim out. *)
Definition effective (a : Answer) : bool :=
  match a with AMutation (Store.Applied _) | AMaterialized _ => true | _ => false end.
Definition claims (op : AssetOp) (a : Answer) : bool :=
  match op, a with ClaimExternal _, AClaim ClaimClaimed | ClaimMaterialization _, ADone => true | _, _ => false end.
Definition completed_in (m : gmap Id CommandRow) (i : Id) : Prop := exists r, m !! i = Some r /\ c_state r = COMPLETED.
Definition takes_effect (b : CommandBinding) (m m' : gmap Id CommandRow) : Prop :=
  ~ completed_in m (cb_command_id b) /\ completed_in m' (cb_command_id b).
Definition applied (o : Store.MutationOutcome) : bool := match o with Store.Applied _ => true | _ => false end.
Definition op_effect (context : StoreContext) (b : CommandBinding) (e : bool) (m m' : gmap Id CommandRow) : Prop :=
  ledger_effect context b m m' /\ (e = true -> takes_effect b m m').

Lemma same_effect context b m : op_effect context b false m m.
Proof. split; [by left|done]. Qed.

Lemma insert_claim_ok l context b at_ l' :
  insert_claim l context b at_ = Ok l' ->
  commands l !! cb_command_id b = None /\ commands l' = <[cb_command_id b := claim_row context b at_]> (commands l).
Proof.
  intros (s & Hs & ->)%on_base'_ok. unfold Store.insert_claim in Hs. case_match eqn:E; [done|]. by injection Hs as <-.
Qed.
Lemma update_command_ok l i w f l' :
  update_command l i w f = Some l' ->
  exists row, commands l !! i = Some row /\ w row = true /\ commands l' = <[i := f row]> (commands l).
Proof. unfold update_command. repeat case_match; try done. intros [= <-]. eauto. Qed.
Lemma completed_result_ok l b replay o l' :
  completed_result l b replay = Ok (o, l') ->
  l' = l /\ applied o = true /\ exists row, commands l !! cb_command_id b = Some row /\ valid_row row.
Proof.
  unfold completed_result. intros Hr. inv_result. simplify_eq.
  match goal with E : validate_command_row _ = Ok _ |- _ => apply validated in E as [-> ?] end. split_and!; [done..|].
  eexists. split; [|done]. done.
Qed.

(** A command claimed in this transaction. *)
Definition pending (context : StoreContext) (b : CommandBinding) (at_ : Timestamp) (m : gmap Id CommandRow) (l : Library) : Prop :=
  m !! cb_command_id b = None /\ commands l = <[cb_command_id b := claim_row context b at_]> m.

Lemma pending_rejected context b at_ m l code o l' :
  context_ok context -> binding_ok b pure_operations -> time_ok at_ -> is_pure_rejection_code code = true ->
  pending context b at_ m l -> commit_rejection l b code at_ = Ok (o, l') -> op_effect context b (applied o) m (commands l').
Proof.
  intros Hc Hb Ht Hcode [Hm Hl] (s & Hs & ->)%on_base_ok. unfold Store.commit_rejection in Hs. injection Hs as <- <-.
  split; [|done]. right. left. exists (rejected_row (claim_row context b at_) code at_). split; [done|]. split; [|split].
  - cbn. fold (commands l). rewrite Hl, alter_insert_eq. done.
  - by repeat split.
  - by apply rejected_valid.
Qed.

Lemma pending_completed context b at_ m l f l1 replay o l' :
  pending context b at_ m l -> update_command l (cb_command_id b) is_claimed f = Some l1 ->
  completed_result l1 b replay = Ok (o, l') ->
  (forall r, same_command r (f r) /\ c_state (f r) = COMPLETED /\ c_runtime_id (f r) = c_runtime_id r) ->
  op_effect context b (applied o) m (commands l').
Proof.
  intros [Hm Hl] (row & Hrow & _ & Hl1)%update_command_ok (-> & Ho & row1 & Hrow1 & Hv)%completed_result_ok Hf.
  rewrite Hl, lookup_insert_eq in Hrow. injection Hrow as <-. rewrite Hl, insert_insert_eq in Hl1.
  rewrite Hl1, lookup_insert_eq in Hrow1. injection Hrow1 as <-.
  destruct (Hf (claim_row context b at_)) as ((Hi & Hop & _ & _ & Hd & _) & Hst & Hrt).
  rewrite Hl1. split; [|split].
  - right. left. eexists. split; [done|]. split; [done|]. split; [|done].
    unfold fresh_row. rewrite Hst. by split_and!.
  - intros (r & Hr & _). by rewrite Hm in Hr.
  - eexists. by rewrite lookup_insert_eq.
Qed.

Lemma pending_allocated context b at_ m l k o l' :
  context_ok context -> binding_ok b pure_operations -> time_ok at_ -> pending context b at_ m l ->
  (forall q l1, pending context b at_ m l1 -> k q l1 = Ok (o, l') -> op_effect context b (applied o) m (commands l')) ->
  allocate_or_reject l b at_ k = Ok (o, l') -> op_effect context b (applied o) m (commands l').
Proof.
  intros Hc Hb Ht [Hm Hl] Hk. unfold allocate_or_reject. destruct (allocate_event_sequences l 1) as [[q l1]|[]] eqn:E; try done.
  - apply Hk. split; [done|]. by rewrite (allocate_keeps _ _ _ _ E).
  - by apply pending_rejected.
Qed.

Lemma finished_same kind i loc clear at_ r :
  same_command r (finished_row kind i loc clear at_ r) /\ c_state (finished_row kind i loc clear at_ r) = COMPLETED /\
  c_runtime_id (finished_row kind i loc clear at_ r) = c_runtime_id r.
Proof. by repeat split. Qed.
Lemma completed_same i p at_ r :
  same_command r (completed_row r i p at_) /\ c_state (completed_row r i p at_) = COMPLETED /\
  c_runtime_id (completed_row r i p at_) = c_runtime_id r.
Proof. by repeat split. Qed.

Lemma replay_pure_not_applied l row kind o : replay_pure l row kind = Ok o -> applied o = false.
Proof. unfold replay_pure, Store.replay_pure. repeat case_match; intros; inv_result; done. Qed.
Lemma unless_known_effect l context b kind k o l' m :
  m = commands l ->
  (m !! cb_command_id b = None -> k = Ok (o, l') -> op_effect context b (applied o) m (commands l')) ->
  unless_known l context b kind k = Ok (o, l') -> op_effect context b (applied o) m (commands l').
Proof.
  intros -> Hk. unfold unless_known, read_command, Store.read_command. fold (commands l). case_match eqn:E; [|by apply Hk].
  intros Hr. inv_result. simplify_eq. erewrite replay_pure_not_applied by done. apply same_effect.
Qed.

(** The guards of an operation whose command is pending: rejections end in the lemma
    on them, errors are excluded. *)
Ltac guards Hk :=
  repeat match type of Hk with
    | commit_rejection _ _ _ _ = Ok _ => eapply pending_rejected in Hk; [exact Hk|try done..]
    | Err _ = Ok _ => discriminate Hk
    | result_bind _ _ = Ok _ => apply result_bind_ok in Hk as (? & ? & Hk)
    | (if ?b then _ else _) = Ok _ => destruct b
    | match ?x with _ => _ end = Ok _ => destruct x
    end.

Lemma claimed_pending l context b at_ l' :
  insert_claim l context b at_ = Ok l' -> pending context b at_ (commands l) l'.
Proof. apply insert_claim_ok. Qed.

Lemma write_revision_effect context r e q m l o l' :
  pending context (cr_binding r) (cr_operation_at r) m l -> write_revision l context r e q = Ok (o, l') ->
  op_effect context (cr_binding r) (applied o) m (commands l').
Proof.
  intros [Hm Hl] Hk. unfold write_revision in Hk. inv_result.
  eapply (pending_completed _ _ (cr_operation_at r)); [|eassumption..|intros; apply finished_same].
  split; [done|]. rewrite <- Hl. back.
Qed.
Lemma create_revision_effect l context r o l' :
  context_ok context -> binding_ok (cr_binding r) pure_operations -> time_ok (cr_operation_at r) ->
  create_revision l context r = Ok (o, l') -> op_effect context (cr_binding r) (applied o) (commands l) (commands l').
Proof.
  intros Hc Hb Ht. unfold create_revision. apply unless_known_effect; [done|]. intros Hn Hk.
  apply result_bind_ok in Hk as (l1 & Hl1 & Hk). apply claimed_pending in Hl1. guards Hk.
  eapply pending_allocated in Hk; [exact Hk|done..|]. intros. by eapply write_revision_effect.
Qed.
Lemma create_revision_deferred_effect l context r o l' :
  context_ok context -> binding_ok (dr_binding r) pure_operations -> values_ok (dr_values r) ->
  create_revision_deferred l context r = Ok (o, l') -> op_effect context (dr_binding r) (applied o) (commands l) (commands l').
Proof.
  intros Hc Hb Ht. unfold create_revision_deferred. apply unless_known_effect; [done|]. intros Hn Hk.
  apply result_bind_ok in Hk as ([revision_id ids1] & _ & Hk). apply result_bind_ok in Hk as ([event_id ids2] & _ & Hk).
  apply result_bind_ok in Hk as ([provenance_id ids3] & _ & Hk). apply result_bind_ok in Hk as ([[reps used] ids4] & _ & Hk).
  passed Hk as E. apply result_bind_ok in Hk as (at_ & Hat & Hk). apply Ht in Hat.
  apply result_bind_ok in Hk as (_ & _ & Hk).
  guards Hk; try by apply claimed_pending.
  match goal with E : create_asset_revision_command_new _ _ _ _ _ = Ok ?c |- _ =>
    unfold create_asset_revision_command_new in E; inv_result end.
  by apply create_revision_effect in Hk.
Qed.

Lemma change_asset_lifecycle_effect l context r o l' :
  context_ok context -> binding_ok (al_binding r) pure_operations -> time_ok (al_operation_at r) ->
  change_asset_lifecycle l context r = Ok (o, l') -> op_effect context (al_binding r) (applied o) (commands l) (commands l').
Proof.
  intros Hc Hb Ht. unfold change_asset_lifecycle. apply unless_known_effect; [done|]. intros Hn Hk.
  apply result_bind_ok in Hk as (l1 & Hl1 & Hk). apply claimed_pending in Hl1. guards Hk.
  eapply pending_allocated in Hk; [exact Hk|done..|]. intros q l2 [Hm Hl2] Hw. cbv beta in Hw. inv_result.
  eapply (pending_completed _ _ (al_operation_at r)); [|eassumption..|intros; apply completed_same].
  split; [done|]. rewrite <- Hl2. back.
Qed.
Lemma change_asset_lifecycle_deferred_effect l context r o l' :
  context_ok context -> binding_ok (dl_binding r) pure_operations -> values_ok (dl_values r) ->
  change_asset_lifecycle_deferred l context r = Ok (o, l') -> op_effect context (dl_binding r) (applied o) (commands l) (commands l').
Proof.
  intros Hc Hb Ht. unfold change_asset_lifecycle_deferred. apply unless_known_effect; [done|]. intros Hn Hk.
  apply result_bind_ok in Hk as ([event_id ids1] & _ & Hk). apply result_bind_ok in Hk as (at_ & Hat & Hk). apply Ht in Hat.
  apply result_bind_ok in Hk as (_ & _ & Hk). apply result_bind_ok in Hk as (c & Hcmd & Hk).
  unfold asset_lifecycle_command_new in Hcmd. inv_result. by apply change_asset_lifecycle_effect in Hk.
Qed.
Lemma record_location_effect l context r o l' :
  context_ok context -> binding_ok (rl_binding r) pure_operations -> time_ok (rl_operation_at r) ->
  record_location l context r = Ok (o, l') -> op_effect context (rl_binding r) (applied o) (commands l) (commands l').
Proof.
  intros Hc Hb Ht. unfold record_location. intros Hr. apply result_bind_ok in Hr as (_ & _ & Hr).
  apply result_bind_ok in Hr as (_ & _ & Hr). revert Hr. apply unless_known_effect; [done|]. intros Hn Hk.
  apply result_bind_ok in Hk as (l1 & Hl1 & Hk). apply claimed_pending in Hl1. guards Hk.
  eapply pending_allocated in Hk; [exact Hk|done..|]. intros q l2 [Hm Hl2] Hw. cbv beta in Hw. inv_result.
  eapply (pending_completed _ _ (rl_operation_at r)); [|eassumption..|intros; apply finished_same].
  split; [done|]. rewrite <- Hl2. back.
Qed.

(** ** Operations with an outside effect: claimed first, then settled *)

Lemma bound_row_ok l context b row :
  bound_row l context b = Ok row ->
  commands l !! cb_command_id b = Some row /\ valid_row row /\ c_operation_id row = cb_operation_id b.
Proof.
  unfold bound_row. intros Hr. inv_result.
  match goal with E : validate_command_row _ = Ok _ |- _ => apply validated in E as [-> ?] end.
  split_and!; [done..|]. unfold binding_matches in *. bool_hyps. done.
Qed.
Lemma owned_claim_ok context row :
  owned_claim context row = true <-> c_state row = CLAIMED /\ c_runtime_id row = runtime_id context.
Proof. unfold owned_claim, is_claimed. by rewrite andb_true_iff, !bool_decide_eq_true. Qed.
Lemma edge_effect context b m r r' e :
  m !! cb_command_id b = Some r -> same_command r r' -> row_edge context r r' -> valid_row r' ->
  (e = true -> c_state r <> COMPLETED /\ c_state r' = COMPLETED) ->
  op_effect context b e m (<[cb_command_id b := r']> m).
Proof.
  intros Hm Hs He Hv Hc. split; [right; right; eauto 10|]. intros ->. destruct (Hc eq_refl) as [Hst Hst']. split.
  - intros (? & Hr & ?). rewrite Hm in Hr. by simplify_eq.
  - exists r'. by rewrite lookup_insert_eq.
Qed.
Lemma marked_effect context b m r state code at_ :
  m !! cb_command_id b = Some r -> valid_row r -> c_state r = CLAIMED ->
  state = TERMINAL_REJECTED /\ c_runtime_id r = runtime_id context \/ state = RECOVERY_REQUIRED ->
  mark_allowed (c_operation_id r) state code -> time_ok at_ ->
  op_effect context b false m (<[cb_command_id b := marked_row state code at_ r]> m).
Proof.
  intros Hm Hv Hst Hstate Ha Ht. eapply edge_effect; [done|by repeat split| |by apply marked_valid|done].
  destruct Hstate as [[-> Hrt]| ->]; [by apply edge_reject|by apply edge_recover].
Qed.
Lemma claim_effect context b at_ m :
  context_ok context -> binding_ok b effect_operations -> time_ok at_ -> m !! cb_command_id b = None ->
  op_effect context b false m (<[cb_command_id b := claim_row context b at_]> m).
Proof.
  intros Hc Hb Ht Hm. split; [|done]. right. left. eexists. split_and!; [done..| |by apply claim_valid]. by repeat split.
Qed.

Lemma external_existing_effect l context b row at_ o l' :
  commands l !! cb_command_id b = Some row -> cb_operation_id b = ASSET_INGEST_COPY_V1 -> time_ok at_ ->
  external_existing l context b row at_ = Ok (o, l') ->
  op_effect context b false (commands l) (commands l') /\ o <> ClaimClaimed.
Proof.
  intros Hrow Hop Ht. unfold external_existing. intros Hr. passed Hr as Eb. apply result_bind_ok in Hr as (r & Hv & Hr).
  apply validated in Hv as [-> Hv]. destruct (c_state row) eqn:Est.
  - case_match; [simplify_eq; by split; [apply same_effect|]|]. unfold update_command in Hr. rewrite Hrow in Hr.
    unfold is_claimed in Hr. rewrite Est in Hr. cbn in Hr. injection Hr as <- <-. split; [|done].
    eapply marked_effect; [done..|by right| |done]. left. unfold binding_matches in Eb. bool_hyps. split; [congruence|by right].
  - inv_result. simplify_eq. split; [apply same_effect|done].
  - inv_result. simplify_eq. split; [apply same_effect|done].
  - inv_result. simplify_eq. split; [apply same_effect|done].
Qed.
Lemma claim_external_effect l context r o l' :
  context_ok context -> binding_ok (ec_binding r) [ASSET_INGEST_COPY_V1] -> time_ok (ec_claimed_at r) ->
  claim_external l context r = Ok (o, l') ->
  op_effect context (ec_binding r) false (commands l) (commands l') /\
  (o = ClaimClaimed -> commands l !! cb_command_id (ec_binding r) = None /\ is_Some (commands l' !! cb_command_id (ec_binding r))).
Proof.
  intros Hc Hb Ht. unfold claim_external, read_command, Store.read_command. fold (commands l). case_match eqn:E; intros Hr.
  - apply external_existing_effect in Hr as [He Ho]; [by split|done| |done]. destruct Hb as (_ & _ & _ & Hop). by apply list_elem_of_singleton.
  - inv_result. simplify_eq. match goal with E : insert_claim _ _ _ _ = Ok _ |- _ => apply insert_claim_ok in E as [Hn ->] end.
    split; [apply claim_effect; try done|by rewrite lookup_insert_eq].
    destruct Hb as (?&?&?&?). repeat split; try done. set_solver.
Qed.
Lemma disposition_known {A} (row : CommandRow) state code (l l' : A) o :
  (let? known := (if bool_decide (c_state row = state)
                  then let? stored := parse_safe_code row in Ok (bool_decide (stored = code)) else Ok false) in
   if known then Ok (DispositionReplay code, l) else Err SeConflict) = Ok (o, l') -> l' = l.
Proof. intros Hr. apply result_bind_ok in Hr as ([] & _ & Hr); by simplify_eq. Qed.
Lemma disposition_state terminal recovery d state code :
  disposition_ok terminal recovery d -> disposition_parts d = (state, code) ->
  state = TERMINAL_REJECTED /\ terminal code = true \/ state = RECOVERY_REQUIRED /\ recovery code = true.
Proof. destruct d; cbn; intros ? [= <- <-]; auto. Qed.

Lemma finish_external_effect l context r o l' :
  binding_ok (ed_binding r) [ASSET_INGEST_COPY_V1] -> time_ok (ed_observed_at r) ->
  disposition_ok is_external_terminal_code is_external_recovery_code (ed_disposition r) ->
  finish_external l context r = Ok (o, l') -> op_effect context (ed_binding r) false (commands l) (commands l').
Proof.
  intros Hb Ht Hd. unfold finish_external. intros Hr. apply result_bind_ok in Hr as (row & (Hrow & Hv & Hop)%bound_row_ok & Hr).
  destruct (disposition_parts _) as [state code] eqn:Ed. destruct (owned_claim context row) eqn:Eo.
  - apply owned_claim_ok in Eo as [Hst Hrt]. unfold update_command in Hr. rewrite Hrow in Hr. unfold is_claimed in Hr.
    rewrite Hst in Hr. cbn in Hr. injection Hr as <- <-. pose proof (disposition_state _ _ _ _ _ Hd Ed) as Hs.
    apply marked_effect; [done..| | |done].
    + destruct Hs as [[-> _]|[-> _]]; auto.
    + left. split; [|done]. destruct Hb as (_ & _ & _ & Hin%list_elem_of_singleton). by rewrite Hop.
  - apply disposition_known in Hr as ->. apply same_effect.
Qed.
Lemma finish_materialization_effect l context r o l' :
  let b := mc_binding (mt_command (mf_transition r)) in
  binding_ok b [ASSET_MATERIALIZE_V1] -> time_ok (mt_at (mf_transition r)) ->
  disposition_ok is_materialization_terminal_code is_materialization_recovery_code (mf_disposition r) ->
  finish_materialization l context r = Ok (o, l') -> op_effect context b false (commands l) (commands l').
Proof.
  intros b Hb Ht Hd. unfold finish_materialization. intros Hr. apply result_bind_ok in Hr as (row & (Hrow & Hv & Hop)%bound_row_ok & Hr).
  destruct (disposition_parts _) as [state code] eqn:Ed. destruct (owned_claim context row) eqn:Eo.
  - pose proof Eo as [Hst Hrt]%owned_claim_ok. inv_result. simplify_eq.
    match goal with E : update_command _ _ _ _ = Some _ |- _ => apply update_command_ok in E as (row' & Hrow' & _ & ->) end.
    fold b in Hrow, Hrow'. rewrite Hrow in Hrow'. injection Hrow' as <-. pose proof (disposition_state _ _ _ _ _ Hd Ed) as Hs.
    apply marked_effect; [done..| | |done].
    + destruct Hs as [[-> _]|[-> _]]; auto.
    + right. split; [|done]. destruct Hb as (_ & _ & _ & Hin%list_elem_of_singleton). by rewrite Hop.
  - apply disposition_known in Hr as ->. apply same_effect.
Qed.

Lemma complete_external_effect l context r o l' :
  complete_external l context r = Ok (o, l') -> op_effect context (ei_binding r) (applied o) (commands l) (commands l').
Proof.
  unfold complete_external. intros Hr. apply result_bind_ok in Hr as (_ & _ & Hr). apply result_bind_ok in Hr as (_ & _ & Hr).
  apply result_bind_ok in Hr as (row & (Hrow & Hv & _)%bound_row_ok & Hr).
  destruct (c_state row) eqn:Est; cycle 1; [inv_result; simplify_eq; apply same_effect|..|inv_result; simplify_eq; apply same_effect|].
  - unfold owned_claim, is_claimed in Hr. rewrite Est in Hr. done.
  - passed Hr as Eo. apply negb_false_iff, owned_claim_ok in Eo as [_ Hrt].
    apply result_bind_ok in Hr as (_ & _ & Hr). apply result_bind_ok in Hr as ([loc l1] & Hl1 & Hr).
    apply result_bind_ok in Hr as (l2 & Hl2 & Hr). apply result_bind_ok in Hr as ([q l3] & Hl3 & Hr).
    apply result_bind_ok in Hr as (l4 & Hl4 & Hr). apply result_bind_ok in Hr as (l5 & Hl5%ok_or_ok & Hr).
    apply update_command_ok in Hl5 as (row' & Hrow' & _ & Hl5).
    apply completed_result_ok in Hr as (-> & Ho & row5 & Hrow5 & Hv5). assert (commands l4 = commands l) as E by back.
    rewrite E in Hrow', Hl5. rewrite Hrow in Hrow'. injection Hrow' as <-. rewrite Hl5 in *. rewrite lookup_insert_eq in Hrow5.
    injection Hrow5 as <-. eapply edge_effect; [done|by repeat split|by apply edge_complete|done|].
    intros _. rewrite Est. done.
Qed.

(** ** Materialization *)

Lemma claim_new_materialization_effect l context t l' :
  let b := mc_binding (mt_command t) in
  context_ok context -> binding_ok b [ASSET_MATERIALIZE_V1] -> time_ok (mt_at t) ->
  claim_new_materialization l context t = Ok l' ->
  op_effect context b false (commands l) (commands l') /\
  commands l !! cb_command_id b = None /\ is_Some (commands l' !! cb_command_id b).
Proof.
  intros b Hc Hb Ht. unfold claim_new_materialization. case_match; [done|].
  intros [Hn ->]%insert_claim_ok. split_and!; [|done|by rewrite lookup_insert_eq]. apply claim_effect; try done.
  destruct Hb as (?&?&?&?). repeat split; try done. set_solver.
Qed.
Lemma reacquire_materialization_effect l context t code l' :
  let b := mc_binding (mt_command t) in
  context_ok context -> binding_ok b [ASSET_MATERIALIZE_V1] -> time_ok (mt_at t) ->
  reacquire_materialization l context t code = Ok l' -> op_effect context b false (commands l) (commands l').
Proof.
  intros b Hc (_ & _ & _ & Hb%list_elem_of_singleton) Ht. unfold reacquire_materialization. fold b. intros Hr.
  apply result_bind_ok in Hr as (row & (Hrow & Hv & Hop)%bound_row_ok & Hr). apply result_bind_ok in Hr as (ok & Hok & Hr).
  passed Hr as Eok. apply negb_false_iff in Eok as ->. apply ok_or_ok, update_command_ok in Hr as (row' & Hrow' & _ & ->).
  rewrite Hrow in Hrow'. injection Hrow' as <-.
  assert ((c_state row = CLAIMED /\ c_runtime_id row <> runtime_id context) \/ c_state row = RECOVERY_REQUIRED) as Hst.
  { destruct code.
    - right. destruct (bool_decide (c_state row = RECOVERY_REQUIRED)) eqn:E; [by apply bool_decide_eq_true in E|done].
    - left. injection Hok as Hok. unfold is_claimed in Hok. bool_hyps. done. }
  eapply edge_effect; [done|by repeat split| |apply reacquired_valid; try done|done].
  - apply edge_reacquire; [congruence|done..].
  - destruct Hst as [[-> _]| ->]; done.
  - congruence.
Qed.
Lemma complete_materialization_effect l context t r l' :
  complete_materialization l context t = Ok (r, l') ->
  op_effect context (mc_binding (mt_command t)) true (commands l) (commands l').
Proof.
  unfold complete_materialization. intros Hr. apply result_bind_ok in Hr as (row & (Hrow & Hv & Hop)%bound_row_ok & Hr).
  passed Hr as Eo. apply negb_false_iff, owned_claim_ok in Eo as [Hst Hrt].
  apply result_bind_ok in Hr as (l1 & (row' & Hrow' & _ & Hl1)%ok_or_ok%update_command_ok & Hr).
  rewrite Hrow in Hrow'. injection Hrow' as <-. apply result_bind_ok in Hr as (row1 & Hrow1%ok_or_ok & Hr).
  change (commands l1 !! cb_command_id (mc_binding (mt_command t)) = Some row1) in Hrow1.
  rewrite Hl1, lookup_insert_eq in Hrow1. injection Hrow1 as <-.
  apply result_bind_ok in Hr as (row2 & [-> Hv2]%validated & Hr). apply result_bind_ok in Hr as (x & _ & Hr).
  injection Hr as -> <-. rewrite Hl1. eapply edge_effect; [done|by repeat split|by apply edge_complete|done|].
  intros _. by rewrite Hst.
Qed.

Lemma asset_op_effect l context op a l' :
  context_ok context -> op_ok op -> execute l context op = Ok (a, l') ->
  op_effect context (binding_of op) (effective a) (commands l) (commands l') /\
  (claims op a = true -> commands l !! cb_command_id (binding_of op) = None /\ is_Some (commands l' !! cb_command_id (binding_of op))).
Proof.
  intros Hc Hop He. assert (forall b ops, binding_ok b ops -> ops ⊆ pure_operations -> binding_ok b pure_operations) as Hsub.
  { intros b ops (?&?&?&?) ?. repeat split; try done. set_solver. }
  destruct op; cbn -[claims effective] in He, Hop; apply result_bind_ok in He as (x & He & Ha); try destruct x as [x lx];
    injection Ha as <- <-; cbn [claims effective binding_of].
  - destruct Hop. apply claim_external_effect in He as [? Hcl]; [|done..]. split; [done|]. destruct x; try done. intros _. by apply Hcl.
  - split; [|done]. by apply complete_external_effect in He.
  - split; [|done]. destruct_and!. by apply finish_external_effect in He.
  - split; [|done]. destruct Hop. apply create_revision_effect in He; try done. eapply Hsub; [done|]. set_solver.
  - split; [|done]. destruct Hop. apply create_revision_deferred_effect in He; try done. eapply Hsub; [done|]. set_solver.
  - split; [|done]. destruct Hop. apply change_asset_lifecycle_effect in He; try done. eapply Hsub; [done|]. set_solver.
  - split; [|done]. destruct Hop. apply change_asset_lifecycle_deferred_effect in He; try done. eapply Hsub; [done|]. set_solver.
  - split; [|done]. destruct Hop. apply record_location_effect in He; try done. eapply Hsub; [done|]. set_solver.
  - destruct Hop. apply claim_new_materialization_effect in He as [? ?]; done.
  - split; [|done]. destruct Hop. by apply reacquire_materialization_effect in He.
  - split; [|done]. by apply complete_materialization_effect in He.
  - split; [|done]. destruct_and!. by apply finish_materialization_effect in He.
Qed.
End ledger.
End AssetLedger.
