(* ===== verification/AssetScenario.v ===== *)
(** A library to run the asset commands on: one external ingest is claimed and
    completed, the asset is retired and restored, and a materialization is claimed,
    loses its runtime, is taken over and completed. *)
From Stdlib Require Import ZArith Lia String.
From Stdlib Require Import Strings.Byte Init.Byte.
From stdpp Require Import prelude list gmap.
From S2P Require Import Prelude RustText Types AssetDomain CreativeDomain Ports CommandLedger CreativeStore StoreScenario AssetStore AssetCommands CommandRows AssetLedger.

Set Warnings "-clear-no-such-hyp".

Module AssetScenario.
Import Ports Ledger Assets AssetOps AssetLedger.
#[local] Existing Instance Scenario.env.
Abbreviation id := Scenario.id.
Abbreviation now := Scenario.now.
Abbreviation ctx := Scenario.ctx.
Abbreviation binding := Scenario.binding.

Definition store0 : Store.Store := {|
  Store.commands := ∅; Store.last_sequence := 0; Store.events := []; Store.projects := ∅; Store.specs := ∅;
  Store.subjects := ∅; Store.work_items := ∅; Store.work_revisions := ∅; Store.takes := ∅; Store.relationships := [];
  Store.assets := ∅ |}.
Definition empty : Library := {|
  base := store0; assets := ∅; revisions := ∅; parents := []; representations := ∅; resources := ∅; members := ∅;
  blobs := ∅; locations := ∅; provenance := [] |}.

Definition blob : DurableBlob := from_verified_local_adapter (repeat x07 32) 1024 (repeat x01 32).
Definition plan : ManagedRegistrationPlan := {|
  mp_asset_id := id 50; mp_asset_kind := bs "image"; mp_asset_revision_id := id 51; mp_content_kind := bs "image";
  mp_representation_id := id 52; mp_representation_purpose := bs "primary"; mp_resource_id := id 53;
  mp_resource_kind := bs "file"; mp_logical_name := bs "a.png"; mp_media_type := Some (bs "image/png");
  mp_candidate_location_id := id 54 |}.
Definition claim : AssetOp := ClaimExternal {| ec_binding := binding 10 ASSET_INGEST_COPY_V1; ec_claimed_at := now |}.
Definition complete : AssetOp := CompleteExternal {|
  ei_binding := binding 10 ASSET_INGEST_COPY_V1; ei_durable_blob := blob; ei_plan := plan; ei_domain_event_id := id 55;
  ei_provenance_event_id := id 56; ei_completed_at := now |}.
Definition lifecycle (command expected : Z) (operation : OperationId) (target : Lifecycle) (event : Z) : AssetOp :=
  ChangeLifecycle {| al_binding := binding command operation; al_asset_id := id 50; al_expected_revision := expected;
    al_target := target; al_domain_event_id := id event; al_operation_at := now |}.
Definition retire : AssetOp := lifecycle 11 1 ASSET_RETIRE_V1 AssetModel.Retired 57.
Definition restore : AssetOp := lifecycle 12 2 ASSET_RESTORE_V1 AssetModel.Active 58.
Definition materialize : MaterializationTransition := {|
  mt_command := {| mc_binding := binding 13 ASSET_MATERIALIZE_V1; mc_asset_id := id 50; mc_asset_revision_id := id 51;
    mc_representation_id := id 52; mc_resource_id := id 53; mc_member_ordinal := 0 |}; mt_at := now |}.
Definition ctx2 : StoreContext := {| owner_uid := 1000; runtime_id := id 2 |}.

Definition ingested : Library := run empty [(ctx, claim); (ctx, complete)].
Definition script : list (StoreContext * AssetOp) :=
  [(ctx, claim); (ctx, complete); (ctx, complete); (ctx, retire); (ctx, restore); (ctx, ClaimMaterialization materialize);
   (ctx2, ReacquireMaterialization materialize None); (ctx, CompleteMaterialization materialize);
   (ctx2, CompleteMaterialization materialize)].

Lemma scenario_states :
  omap (fun i => option_map c_state (commands (run empty script) !! i)) [id 10; id 11; id 12; id 13]
  = [COMPLETED; COMPLETED; COMPLETED; COMPLETED].
Proof. vm_compute. reflexivity. Qed.
End AssetScenario.
