(* ===== verification/AssetHistory.v ===== *)
(** Histories of asset commands: the ledger stays valid, no row loses its command or
    leaves a settled state, and each command takes effect at most once. *)
From Stdlib Require Import ZArith Lia String.
From Stdlib Require Import Strings.Byte Init.Byte.
From stdpp Require Import prelude list gmap.
From S2P Require Import Prelude RustText Types AssetDomain CreativeDomain Ports CommandLedger CreativeStore StoreScenario AssetStore AssetCommands CommandRows AssetLedger AssetScenario.

Set Warnings "-clear-no-such-hyp".

Module AssetHistory.
Import Ports Ledger Assets AssetOps Rows AssetLedger.

Section history.
Context `{StoreEnv}.

(** The successful operations of a history with their answers. *)
Fixpoint history (l : Library) (ops : list (StoreContext * AssetOp)) : list (AssetOp * Answer) :=
  match ops with
  | [] => []
  | (context, op) :: rest =>
      match execute l context op with Ok (a, l') => (op, a) :: history l' rest | Err _ => history l rest end
  end.
Definition about (i : Id) (op : AssetOp) : bool := bool_decide (cb_command_id (binding_of op) = i).
Definition effects_of (i : Id) (h : list (AssetOp * Answer)) : nat :=
  length (List.filter (fun '(op, a) => about i op && effective a) h).
Definition claims_of (i : Id) (h : list (AssetOp * Answer)) : nat :=
  length (List.filter (fun '(op, a) => about i op && claims op a) h).
Definition well_formed (ops : list (StoreContext * AssetOp)) : Prop :=
  Forall (fun '(context, op) => context_ok context /\ op_ok op) ops.

(** ** One operation *)

Definition row_le (r r' : CommandRow) : Prop := same_command r r' /\ (settled r -> r' = r).
#[export] Instance row_le_preorder : PreOrder row_le.
Proof.
  split; [by intros r; repeat split|]. intros a b c [Hab Sab] [Hbc Sbc]. split.
  - unfold same_command in *. destruct_and!. split_and!; congruence.
  - intros Hs. pose proof (Sab Hs) as ->. by apply Sbc.
Qed.

Lemma settled_no_edge context r r' : row_edge context r r' -> ~ settled r.
Proof. destruct 1 as [? ? E|? ? E|? ? E|? ? Hop [[E _]|E]]; unfold settled; rewrite E; auto. Qed.

Lemma ledger_effect_le context b m m' i r :
  ledger_effect context b m m' -> m !! i = Some r -> exists r', m' !! i = Some r' /\ row_le r r'.
Proof.
  intros [->|[(x & Hn & -> & _)|(x & x' & Hx & -> & Hs & He & _)]] Hr.
  - exists r. by split.
  - exists r. rewrite lookup_insert_ne by congruence. by split.
  - destruct (decide (cb_command_id b = i)) as [<-|].
    + exists x'. rewrite lookup_insert_eq. simplify_eq. split; [done|]. split; [done|].
      intros []%(settled_no_edge _ _ _ He).
    + exists r. by rewrite lookup_insert_ne.
Qed.
Lemma ledger_effect_ok context b l l' :
  ledger_effect context b (commands l) (commands l') -> ledger_ok l -> ledger_ok l'.
Proof.
  unfold ledger_ok. intros [->|[(x & Hn & -> & (Hi & _) & Hv)|(x & x' & Hx & -> & Hs & He & Hv)]] Hok; [done| |].
  - by apply map_Forall_insert_2.
  - apply map_Forall_insert_2; [|done]. split; [|done]. destruct (Hok _ _ Hx) as [<- _]. by destruct Hs.
Qed.

Lemma completed_settled m m' i context b :
  ledger_effect context b m m' -> completed_in m i -> completed_in m' i.
Proof.
  intros He (r & Hr & Hst). destruct (ledger_effect_le _ _ _ _ _ _ He Hr) as (r' & Hr' & _ & Hs).
  rewrite Hs in Hr' by (unfold settled; by rewrite Hst). by exists r.
Qed.

(** ** Counting *)

Lemma effects_once l ops i :
  well_formed ops ->
  (completed_in (commands l) i -> effects_of i (history l ops) = 0%nat) /\ (effects_of i (history l ops) <= 1)%nat.
Proof.
  intros Hw. revert l. induction Hw as [|[context op] ops [Hc Hop] _ IH]; intros l; cbn; [split; [done|lia]|].
  destruct (execute l context op) as [[a l']|] eqn:E; [|apply IH].
  apply asset_op_effect in E as [[He Ht] _]; [|done..]. destruct (IH l') as [IH0 IH1].
  unfold effects_of in *. cbn. destruct (about i op) eqn:Ea, (effective a); cbn; try (split; [|lia]; intros; apply IH0; by eapply completed_settled).
  apply bool_decide_eq_true in Ea as <-. destruct (Ht eq_refl) as [Hn Hy]. rewrite IH0 by done. split; [done|lia].
Qed.
Lemma claims_once l ops i :
  well_formed ops ->
  (is_Some (commands l !! i) -> claims_of i (history l ops) = 0%nat) /\ (claims_of i (history l ops) <= 1)%nat.
Proof.
  intros Hw. revert l. induction Hw as [|[context op] ops [Hc Hop] _ IH]; intros l; cbn; [split; [done|lia]|].
  destruct (execute l context op) as [[a l']|] eqn:E; [|apply IH].
  apply asset_op_effect in E as [[He _] Ht]; [|done..]. destruct (IH l') as [IH0 IH1].
  assert (is_Some (commands l !! i) -> is_Some (commands l' !! i)) as Hmono.
  { intros [r Hr]. destruct (ledger_effect_le _ _ _ _ _ _ He Hr) as (r' & -> & _). done. }
  unfold claims_of in *. cbn. destruct (about i op) eqn:Ea, (claims op a); cbn; try (split; [|lia]; intros; apply IH0; by apply Hmono).
  apply bool_decide_eq_true in Ea as <-. destruct (Ht eq_refl) as [Hn Hy]. rewrite IH0 by done. rewrite Hn.
  split; [by intros []|lia].
Qed.

Lemma run_le l ops i r :
  well_formed ops -> commands l !! i = Some r -> exists r', commands (run l ops) !! i = Some r' /\ row_le r r'.
Proof.
  intros Hw. revert l r. induction Hw as [|[context op] ops [Hc Hop] _ IH]; intros l r Hr; cbn; [by exists r|].
  unfold after. destruct (execute l context op) as [[a l']|] eqn:E; [|by apply IH].
  apply asset_op_effect in E as [[He _] _]; [|done..]. destruct (ledger_effect_le _ _ _ _ _ _ He Hr) as (r1 & Hr1 & Hle).
  destruct (IH _ _ Hr1) as (r2 & ? & ?). exists r2. split; [done|]. by etrans.
Qed.
Lemma run_ok l ops : well_formed ops -> ledger_ok l -> ledger_ok (run l ops).
Proof.
  intros Hw. revert l. induction Hw as [|[context op] ops [Hc Hop] _ IH]; intros l Hl; cbn; [done|]. apply IH.
  unfold after. destruct (execute l context op) as [[a l']|] eqn:E; [|done].
  apply asset_op_effect in E as [[He _] _]; [|done..]. by eapply ledger_effect_ok.
Qed.
End history.

(** C7: over every history of asset operations (external ingest, derived revisions,
    lifecycle changes, recorded locations, materializations; failures are rolled back)
    the ledger keeps only rows that validate under their own identity; a row keeps its
    command, its operation, its principal, its digest and its creation time; a row that
    is completed, rejected or, except for materialization, waiting for recovery never
    changes again; and every command identity is claimed at most once and takes effect
    at most once. *)
Theorem asset_commands_settle_once `{StoreEnv} (l : Library) (ops : list (StoreContext * AssetOp)) :
  ledger_ok l -> well_formed ops ->
  ledger_ok (run l ops) /\
  (forall i r, commands l !! i = Some r ->
     exists r', commands (run l ops) !! i = Some r' /\ same_command r r' /\ (settled r -> r' = r)) /\
  (forall i, (effects_of i (history l ops) <= 1)%nat /\ (claims_of i (history l ops) <= 1)%nat) /\
  (forall i, completed_in (commands l) i -> effects_of i (history l ops) = 0%nat).
Proof.
  intros Hl Hw. split_and!.
  - by apply run_ok.
  - intros i r Hr. by apply run_le.
  - intros i. split; [by apply effects_once|by apply claims_once].
  - intros i. by apply effects_once.
Qed.

#[local] Existing Instance Scenario.env.
Lemma scenario_context n : context_ok {| owner_uid := 1000; runtime_id := Scenario.id n |}.
Proof. split_and!; [done|by apply bool_decide_eq_true|]. unfold is_u32, U32_MAX. cbn. lia. Qed.
Lemma scenario_time : time_ok Scenario.now.
Proof. split; [unfold is_u32, U32_MAX; cbn; lia|done]. Qed.
Lemma scenario_binding n op ops : op ∈ ops -> binding_ok (Scenario.binding n op) ops.
Proof. intros Hin. split_and!; [done|by apply bool_decide_eq_true|done|done]. Qed.
Lemma scenario_well_formed : well_formed AssetScenario.script.
Proof.
  unfold well_formed, AssetScenario.script.
  repeat (apply Forall_cons_2; [split; [apply scenario_context|split; [apply scenario_binding; cbn; set_solver|apply scenario_time]]|]).
  apply Forall_nil_2.
Qed.

Lemma asset_commands_settle_once_witness :
  effects_of (Scenario.id 13) (history (H := Scenario.env) AssetScenario.empty AssetScenario.script) = 1%nat /\
  (effects_of (Scenario.id 13) (history (H := Scenario.env) AssetScenario.empty AssetScenario.script) <= 1)%nat.
Proof.
  split; [vm_compute; reflexivity|].
  destruct (asset_commands_settle_once AssetScenario.empty AssetScenario.script (map_Forall_empty _) scenario_well_formed)
    as (_ & _ & Hc & _). apply (Hc (Scenario.id 13)).
Defined.
End AssetHistory.
