(* ===== verification/AssetSequences.v ===== *)
(** Revision numbers of assets.

    [assets.revision] counts every change of an asset, [asset_revisions.sequence] its
    content revisions.  A derived revision is accepted only while the two are equal;
    a lifecycle change advances the first and not the second. *)
From Stdlib Require Import ZArith Lia String.
From Stdlib Require Import Strings.Byte Init.Byte.
From stdpp Require Import prelude list gmap.
From S2P Require Import Prelude RustText Types AssetDomain CreativeDomain Ports CommandLedger CreativeStore StoreScenario AssetStore AssetCommands CommandRows AssetLedger AssetScenario.

Set Warnings "-clear-no-such-hyp".

Module AssetSequences.
Import Ports Ledger Assets AssetOps Rows AssetLedger.

(** [AssetWriterJob::execute]: the errors after which the writer stops. *)
Definition fatal (e : AssetStoreError) : bool :=
  match e with SeStorageIo | SeStorageCorruption | SeInternal => true | _ => false end.

Section sequences.
Context `{StoreEnv}.

Lemma max_sequence_revisions l l' a : revisions l' = revisions l -> max_sequence l' a = max_sequence l a.
Proof. unfold max_sequence. by intros ->. Qed.

(** The tables of assets and revisions are untouched. *)
Definition same_assets (l l' : Library) : Prop := assets l' = assets l /\ revisions l' = revisions l.

Lemma with_base_same l s : same_assets l (with_base l s).
Proof. done. Qed.
Lemma insert_claim_same l context b at_ l' : insert_claim l context b at_ = Ok l' -> same_assets l l'.
Proof. intros (s & _ & ->)%on_base'_ok. done. Qed.
Lemma allocate_same l n q l' : allocate_event_sequences l n = Ok (q, l') -> same_assets l l'.
Proof. intros (s & _ & ->)%on_base_ok. done. Qed.
Lemma insert_domain_event_same l i q b t k a v at_ l' :
  insert_domain_event l i q b t k a v at_ = Ok l' -> same_assets l l'.
Proof. intros (s & _ & ->)%on_base'_ok. done. Qed.
Lemma update_command_same l i w f l' : update_command l i w f = Some l' -> same_assets l l'.
Proof. unfold update_command. repeat case_match; try done. by intros [= <-]. Qed.

(** What an applied lifecycle change does to the two counters. *)
Lemma lifecycle_applied l context r x l' :
  change_asset_lifecycle l context r = Ok (Store.Applied x, l') ->
  exists a, assets l !! al_asset_id r = Some a /\ valid_transition (a_lifecycle a) (al_target r) = true /\
    a_revision a = al_expected_revision r /\
    assets l' = <[al_asset_id r := relabelled (al_target r) (a_revision a + 1) (al_operation_at r) a]> (assets l) /\
    revisions l' = revisions l.
Proof.
  unfold change_asset_lifecycle, unless_known. case_match.
  { intros Hr. inv_result. simplify_eq.
    match goal with E : replay_pure _ _ _ = Ok _ |- _ => by apply replay_pure_not_applied in E end. }
  intros Hr. apply result_bind_ok in Hr as (l1 & [Ha1 Hv1]%insert_claim_same & Hr). rewrite Ha1 in Hr.
  destruct (assets l !! al_asset_id r) as [a|] eqn:Ea; [|done].
  destruct (a_revision a =? al_expected_revision r) eqn:Er; [|done].
  destruct (valid_transition _ _) eqn:Et; [|done]. cbn [negb] in Hr.
  destruct (checked_add _ _ _) as [next|] eqn:En; [|done].
  apply checked_add_Some in En as [-> _]. unfold allocate_or_reject in Hr.
  destruct (allocate_event_sequences l1 1) as [[q l2]|[]] eqn:E2; try done.
  apply allocate_same in E2 as [Ha2 Hv2].
  apply result_bind_ok in Hr as (l3 & Hl3%ok_or_ok & Hr). unfold update_asset in Hl3. rewrite Ha2, Ha1, Ea in Hl3.
  rewrite Z.eqb_refl in Hl3. injection Hl3 as <-.
  apply result_bind_ok in Hr as (l4 & [Ha4 Hv4]%insert_domain_event_same & Hr).
  apply result_bind_ok in Hr as (l5 & [Ha5 Hv5]%ok_or_ok%update_command_same & Hr).
  apply completed_result_ok in Hr as (-> & _). exists a. apply Z.eqb_eq in Er. split_and!; try done.
  - by rewrite Ha5, Ha4.
  - rewrite Hv5, Hv4. cbn. congruence.
Qed.

(** The counters of an asset have drifted apart. *)
Definition drifted (l : Library) (asset : Id) : Prop :=
  exists a m, assets l !! asset = Some a /\ max_sequence l asset = Some m /\ m < a_revision a.

Lemma lifecycle_drifts l context r x l' a m :
  assets l !! al_asset_id r = Some a -> max_sequence l (al_asset_id r) = Some m -> m <= a_revision a ->
  change_asset_lifecycle l context r = Ok (Store.Applied x, l') -> drifted l' (al_asset_id r).
Proof.
  intros Ha Hm Hle (a' & Ha' & _ & _ & Hl' & Hv)%lifecycle_applied. assert (a' = a) as -> by congruence.
  eexists _, m. rewrite Hl', lookup_insert_eq. split; [done|]. rewrite (max_sequence_revisions _ _ _ Hv).
  split; [done|]. cbn. lia.
Qed.

Lemma drifted_refuses l context r a :
  drifted l (AssetModel.nr_asset_id (cr_revision r)) -> assets l !! AssetModel.nr_asset_id (cr_revision r) = Some a ->
  a_lifecycle a = AssetModel.Active -> commands l !! cb_command_id (cr_binding r) = None ->
  1 <= AssetModel.nr_resulting_revision (cr_revision r) ->
  create_revision l context r = Err SeStorageCorruption.
Proof.
  intros (a' & m & Ha & Hm & Hlt) Ha' Hact Hn Hres.
  assert (Some a' = Some a) as [= ->] by (etrans; [symmetry; exact Ha|exact Ha']). unfold create_revision, unless_known.
  change (read_command l (cr_binding r)) with (commands l !! cb_command_id (cr_binding r)). rewrite Hn.
  unfold insert_claim, Store.insert_claim. fold (commands l). rewrite Hn.
  cbn [on_base' result_bind with_base assets]. rewrite Ha', Hact. cbn [bool_decide decide_rel].
  rewrite bool_decide_eq_true_2 by done. cbn [negb].
  unfold checked_sub. rewrite (proj2 (Z.leb_le 1 _) Hres). cbn [ok_or result_bind].
  rewrite (max_sequence_revisions l) by done. rewrite Hm. cbn [mbind option_bind].
  unfold try_into. case_match; [|done]. cbn [ok_or result_bind].
  replace (m =? a_revision a) with false by lia. done.
Qed.
End sequences.

(** C14: after a retire and a restore that were both applied, an asset whose content
    revisions were numbered up to its revision is ACTIVE again, but every derived
    revision asked for it (under a new command identity, whatever its parents, members
    and expected revision) fails with STORAGE_CORRUPTION, and that error stops the
    writer: a lifecycle change advances assets.revision and not the content sequence
    that create_revision compares it with. *)
Theorem restored_asset_refuses_revisions `{StoreEnv} (l l1 l2 : Library) (context : StoreContext)
    (retire restore : AssetLifecycleCommand) (x1 x2 : Store.CommandResult) (a : AssetRow) (m : Z) :
  let asset := al_asset_id retire in
  assets l !! asset = Some a -> max_sequence l asset = Some m -> m <= a_revision a -> al_asset_id restore = asset ->
  al_target restore = AssetModel.Active ->
  change_asset_lifecycle l context retire = Ok (Store.Applied x1, l1) ->
  change_asset_lifecycle l1 context restore = Ok (Store.Applied x2, l2) ->
  (exists a2, assets l2 !! asset = Some a2 /\ a_lifecycle a2 = AssetModel.Active) /\
  forall context' r, AssetModel.nr_asset_id (cr_revision r) = asset -> commands l2 !! cb_command_id (cr_binding r) = None ->
    1 <= AssetModel.nr_resulting_revision (cr_revision r) ->
    create_revision l2 context' r = Err SeStorageCorruption /\ fatal SeStorageCorruption = true.
Proof.
  intros asset Ha Hm Hle Hid Htarget H1 H2. destruct (lifecycle_drifts _ _ _ _ _ _ _ Ha Hm Hle H1) as (a1 & m1 & Ha1 & Hm1 & Hlt).
  fold asset in Ha1, Hm1. rewrite <- Hid in Ha1, Hm1. pose proof (lifecycle_drifts _ _ _ _ _ _ _ Ha1 Hm1 ltac:(lia) H2) as Hd.
  rewrite Hid in Hd. apply lifecycle_applied in H2 as (a' & _ & _ & _ & Hl2 & _). rewrite Hid, Htarget in Hl2.
  assert (assets l2 !! asset = Some (relabelled AssetModel.Active (a_revision a' + 1) (al_operation_at restore) a')) as Ha2
    by (by rewrite Hl2, lookup_insert_eq).
  split; [by eexists|]. intros context' r Hr Hn Hres. split; [|done]. eapply drifted_refuses; rewrite ?Hr; done.
Qed.

#[local] Existing Instance Scenario.env.
Definition of_op (op : AssetOp) : AssetLifecycleCommand :=
  match op with ChangeLifecycle r => r | _ =>
    {| al_binding := Scenario.binding 0 ASSET_RETIRE_V1; al_asset_id := []; al_expected_revision := 0;
       al_target := AssetModel.Active; al_domain_event_id := []; al_operation_at := Scenario.now |} end.
Definition derived : CreateAssetRevisionCommand := {|
  cr_binding := Scenario.binding 14 ASSET_REVISION_CREATE_V1;
  cr_revision := {| AssetModel.nr_asset_id := Scenario.id 50; AssetModel.nr_revision_id := Scenario.id 60;
    AssetModel.nr_parent_revision_ids := [Scenario.id 51]; AssetModel.nr_resulting_revision := 4;
    AssetModel.nr_content_kind := bs "image"; AssetModel.nr_representations := []; AssetModel.nr_created_at := Scenario.now |};
  cr_domain_event_id := Scenario.id 61; cr_provenance_event_id := Scenario.id 62; cr_operation_at := Scenario.now |}.
Definition retired : Library := after AssetScenario.ingested Scenario.ctx AssetScenario.retire.
Definition restored : Library := after retired Scenario.ctx AssetScenario.restore.
Definition ingested_asset : AssetRow := {|
  a_kind := bs "image"; a_lifecycle := AssetModel.Active; a_revision := 1; a_created_at := Scenario.now;
  a_created_by := 1000; a_updated_at := None |}.

Lemma restored_asset_refuses_revisions_witness : create_revision restored Scenario.ctx derived = Err SeStorageCorruption.
Proof.
  destruct (restored_asset_refuses_revisions AssetScenario.ingested retired restored Scenario.ctx
    (of_op AssetScenario.retire) (of_op AssetScenario.restore)
    (Store.Versioned (Scenario.id 50) (VrAssetLifecycle 2 AssetModel.Retired) Scenario.now)
    (Store.Versioned (Scenario.id 50) (VrAssetLifecycle 3 AssetModel.Active) Scenario.now) ingested_asset 1)
    as [_ Hall]; [vm_compute; reflexivity..|discriminate| | | | |]; [vm_compute; reflexivity..|].
  apply (Hall Scenario.ctx derived); [reflexivity|vm_compute; reflexivity|discriminate].
Defined.
End AssetSequences.
