(* ===== verification/StartupRecovery.v ===== *)
(** Startup classification of interrupted commands: the store's pages
    (asset_repository.rs) and the loop of [StartupMutationClassificationService]
    (mengxia-app/src/asset_persistence.rs) over them.

    After a crash, commands claimed by an earlier runtime are moved to
    RECOVERY_REQUIRED, a page of at most 256 commands per transaction, and those
    waiting for recovery are counted.  The caller's control and the clock are
    parameters, read once per numbered call. *)
From Stdlib Require Import ZArith Lia String.
From Stdlib Require Import Strings.Byte Init.Byte.
From stdpp Require Import prelude list gmap sorting.
From S2P Require Import Prelude RustText Ord Types AssetDomain CreativeDomain Ports CommandLedger CreativeStore AssetStore AssetCommands.

Set Warnings "-clear-no-such-hyp".

Module Startup.
Import Ports Ledger Assets.

(** ** The caller's control *)

Inductive IngestStop := Cancelled | DeadlineReached.
Inductive IngestDirective := Continue | Stop (stop : IngestStop).
(** [InterruptibleSqliteControl] and [Clock], by the number of the call; [None] and
    [false] are their errors. *)
Record Control := {
  checkpoint_at : nat -> IngestDirective; register_interrupt : nat -> option IngestDirective; clear_interrupt : nat -> bool;
  clock_now : nat -> option Timestamp }.

(** Computations over the library, with the number of the next outside call. *)
Definition M (A : Type) : Type := nat * Library -> res A * (nat * Library).
#[global] Instance M_ret : MRet M := fun A a s => (Ok a, s).
#[global] Instance M_bind : MBind M := fun A B k m s => match m s with (Ok a, s') => k a s' | (Err e, s') => (Err e, s') end.
Definition fail {A} (e : AssetStoreError) : M A := fun s => (Err e, s).
Definition lift {A} (r : res A) : M A := fun s => (r, s).
Definition ask {A} (f : nat -> A) : M A := fun s => (Ok (f s.1), (S s.1, s.2)).
Definition get_library : M Library := fun s => (Ok s.2, s).
Definition put_library (l : Library) : M () := fun s => (Ok tt, (s.1, l)).
(** A transaction: an error before the commit rolls the library back. *)
Definition transact {A} (m : M A) : M A :=
  fun s => match m s with (Ok a, s') => (Ok a, s') | (Err e, s') => (Err e, (s'.1, s.2)) end.

Definition controlled_stop_error (stop : IngestStop) : AssetStoreError :=
  match stop with Cancelled => SeOperationCancelled | DeadlineReached => SeDeadlineExceeded end.
Definition obey (d : IngestDirective) : M () :=
  match d with Continue => mret tt | Stop stop => fail (controlled_stop_error stop) end.
(** [controlled_checkpoint] and [startup_checkpoint]. *)
Definition controlled_checkpoint (control : Control) : M () := d ← ask (checkpoint_at control); obey d.
Definition clearing {A} (control : Control) (operation : M A) : M A :=
  fun s => let '(r, s) := operation s in
           if clear_interrupt control s.1 then (r, (S s.1, s.2)) else (Err SeInternal, (S s.1, s.2)).
Definition with_controlled_interrupt {A} (control : Control) (operation : M A) : M A :=
  d ← ask (register_interrupt control);
  match d with
  | None => fail SeInternal
  | Some d =>
      _ ← obey d;
      clearing control operation
  end.

(** ** Pages *)

Record StartupMutationBoundary := { maximum_command_id : option Id }.
Inductive StartupMutationState := Claimed | RecoveryRequired.
Record StartupMutationPageRequest := {
  pr_boundary : StartupMutationBoundary; pr_state : StartupMutationState; pr_after : option Id; pr_classified_at : Timestamp }.
Record StartupMutationPage := { last_command_id : option Id; recovery_required_count : Z; page_complete : bool }.
Definition page_from_store (last : option Id) (count : Z) (complete : bool) : res StartupMutationPage :=
  if (negb complete && none last) || (negb (count =? 0) && none last) || (256 <? count) then Err SeStorageCorruption
  else Ok {| last_command_id := last; recovery_required_count := count; page_complete := complete |}.

Definition beyond (after : option Id) (i : Id) : bool := match after with None => true | Some a => bool_decide (rlt a i) end.
Definition within (boundary i : Id) : bool := negb (bool_decide (rlt boundary i)).
Definition state_of (state : StartupMutationState) : CommandState :=
  match state with Claimed => CLAIMED | RecoveryRequired => RECOVERY_REQUIRED end.
Definition operation_recoverable (op : OperationId) : bool :=
  bool_decide (op = ASSET_INGEST_COPY_V1) || bool_decide (op = ASSET_MATERIALIZE_V1).

Section startup.
Context `{StoreEnv}.

(** [WHERE state=? AND command_id<=? AND (? IS NULL OR command_id>?) ORDER BY command_id]. *)
Definition matching (m : gmap Id CommandRow) (state : CommandState) (boundary : Id) (after : option Id) : list Id :=
  btree_collect (map fst (List.filter (fun '(i, r) => bool_decide (c_state r = state) && within boundary i && beyond after i)
    (map_to_list m))).
Definition page_rows (m : gmap Id CommandRow) (state : CommandState) (boundary : Id) (after : option Id) : list (Id * CommandRow) :=
  omap (fun i => option_map (pair i) (m !! i)) (take 256 (matching m state boundary after)).

Definition capture_startup_mutation_boundary (control : Control) : M StartupMutationBoundary :=
  _ ← controlled_checkpoint control;
  l ← get_library;
  match list.last (btree_collect (map fst (map_to_list (commands l)))) with
  | None => mret {| maximum_command_id := None |}
  | Some i => _ ← lift (check_id (Some i)); mret {| maximum_command_id := Some i |}
  end.

(** The body of the loop over the rows of a page. *)
Definition classify_row (control : Control) (context : StoreContext) (request : StartupMutationPageRequest)
    (i : Id) (raw_row : CommandRow) (count : Z) : M Z :=
  _ ← controlled_checkpoint control;
  _ ← lift (check_id (Some i));
  row ← lift (validate_command_row raw_row);
  if negb (c_principal_uid row =? owner_uid context) || negb (bool_decide (c_state row = state_of (pr_state request)))
     || negb (operation_recoverable (c_operation_id row))
  then fail SeStorageCorruption
  else match pr_state request with
  | Claimed =>
      if bool_decide (c_runtime_id row = runtime_id context) then fail SeStorageCorruption
      else
        l ← get_library;
        l ← lift (ok_or SeStorageCorruption (update_command l i
              (fun r => is_claimed r && bool_decide (c_runtime_id r = c_runtime_id row))
              (marked_row RECOVERY_REQUIRED StorageConfigurationError (pr_classified_at request))));
        _ ← put_library l; mret count
  | RecoveryRequired => lift (ok_or SeStorageCorruption (checked_add U64_MAX count 1))
  end.
Fixpoint classify_rows (control : Control) (context : StoreContext) (request : StartupMutationPageRequest)
    (rows : list (Id * CommandRow)) (last : option Id) (count : Z) : M (option Id * Z) :=
  match rows with
  | [] => mret (last, count)
  | (i, raw_row) :: rest =>
      count ← classify_row control context request i raw_row count;
      classify_rows control context request rest (Some i) count
  end.

Definition classify_startup_mutation_page (control : Control) (context : StoreContext) (request : StartupMutationPageRequest)
  : M StartupMutationPage :=
  _ ← controlled_checkpoint control;
  match maximum_command_id (pr_boundary request) with
  | None => if negb (none (pr_after request)) then fail SeValidation else lift (page_from_store None 0 true)
  | Some boundary =>
      if match pr_after request with Some a => bool_decide (rlt boundary a) | None => false end then fail SeValidation
      else
        r ← transact (
          l ← get_library;
          let rows := page_rows (commands l) (state_of (pr_state request)) boundary (pr_after request) in
          r ← classify_rows control context request rows None 0;
          _ ← controlled_checkpoint control;
          mret (r, (blen rows <? 256) || bool_decide (r.1 = Some boundary)));
        lift (page_from_store r.1.1 r.1.2 r.2)
  end.

(** ** The service *)

(** The checks of the service on one page: the next [after], or [None] when the scan
    of this state is complete, with the new count. *)
Definition accept_page (boundary : StartupMutationBoundary) (state : StartupMutationState) (after : option Id) (count : Z)
    (page : StartupMutationPage) : res (option Id * Z) :=
  if match state with Claimed => negb (recovery_required_count page =? 0) | RecoveryRequired => false end
  then Err SeStorageCorruption
  else if match last_command_id page with
          | Some next =>
              match after with Some previous => negb (bool_decide (rlt previous next)) | None => false end
              || match maximum_command_id boundary with Some maximum => bool_decide (rlt maximum next) | None => false end
          | None => false
          end
  then Err SeStorageCorruption
  else
    let? count := ok_or SeStorageCorruption (checked_add U64_MAX count (recovery_required_count page)) in
    if page_complete page then Ok (None, count)
    else let? next := ok_or SeStorageCorruption (last_command_id page) in Ok (Some next, count).

(** The inner loop; [None] when the fuel runs out. *)
Fixpoint classify_state (fuel : nat) (control : Control) (context : StoreContext) (boundary : StartupMutationBoundary)
    (state : StartupMutationState) (after : option Id) (count : Z) : M (option Z) :=
  match fuel with
  | O => mret None
  | S fuel =>
      _ ← controlled_checkpoint control;
      at_ ← ask (clock_now control);
      at_ ← lift (ok_or SeIdGenerationUnavailable at_);
      page ← with_controlled_interrupt control (classify_startup_mutation_page control context
        {| pr_boundary := boundary; pr_state := state; pr_after := after; pr_classified_at := at_ |});
      '(next, count) ← lift (accept_page boundary state after count page);
      match next with
      | None => mret (Some count)
      | Some next => classify_state fuel control context boundary state (Some next) count
      end
  end.

(** [classify_with_clock]; the answer is [recovery_required_command_count]. *)
Definition classify_with_clock (fuel : nat) (control : Control) (context : StoreContext) : M (option Z) :=
  _ ← controlled_checkpoint control;
  boundary ← with_controlled_interrupt control (capture_startup_mutation_boundary control);
  _ ← controlled_checkpoint control;
  count ← classify_state fuel control context boundary Claimed None 0;
  match count with
  | None => mret None
  | Some count => classify_state fuel control context boundary RecoveryRequired None count
  end.
End startup.
End Startup.
