(* ===== verification/StartupFacts.v ===== *)
(** The startup classification ends, and it recovers every interrupted command. *)
From Stdlib Require Import ZArith Lia String.
From Stdlib Require Import Strings.Byte Init.Byte.
From stdpp Require Import prelude list gmap sorting.
From S2P Require Import Prelude RustText Ord Types AssetDomain CreativeDomain Ports CommandLedger CreativeStore StoreScenario AssetStore AssetCommands CommandRows AssetLedger AssetScenario AssetHistory StartupRecovery.

Set Warnings "-clear-no-such-hyp".

Module StartupFacts.
Import Ports Ledger Assets Rows AssetLedger Startup.

(** ** Running computations *)

Lemma bind_ok {A B} (m : M A) (k : A -> M B) s b s' :
  (m ≫= k) s = (Ok b, s') <-> exists a s1, m s = (Ok a, s1) /\ k a s1 = (Ok b, s').
Proof.
  unfold mbind, M_bind. destruct (m s) as [[a|e] s1]; split.
  - intros Hk. by exists a, s1.
  - by intros (? & ? & [= <- <-] & ?).
  - done.
  - by intros (? & ? & ? & ?).
Qed.
Lemma bind_runs {A B} (m : M A) (k : A -> M B) s a s1 : m s = (Ok a, s1) -> (m ≫= k) s = k a s1.
Proof. unfold mbind, M_bind. by intros ->. Qed.
Lemma transact_ok {A} (m : M A) s a s' : transact m s = (Ok a, s') -> m s = (Ok a, s').
Proof. unfold transact. destruct (m s) as [[x|e] s1]; congruence. Qed.
Lemma transact_run {A} (m : M A) s a s' : m s = (Ok a, s') -> transact m s = (Ok a, s').
Proof. unfold transact. by intros ->. Qed.
Lemma lift_ok {A} (r : res A) s a s' : lift r s = (Ok a, s') <-> r = Ok a /\ s' = s.
Proof. unfold lift. split; [by intros [= -> ->]|by intros [-> ->]]. Qed.
Lemma checkpoint_ok control s a s' : controlled_checkpoint control s = (Ok a, s') -> s'.2 = s.2.
Proof.
  unfold controlled_checkpoint. intros (d & s1 & Hd & Ho)%bind_ok. injection Hd as <- <-.
  unfold obey in Ho. case_match; [|done]. injection Ho as _ <-. done.
Qed.
Lemma interrupt_ok {A} control (m : M A) s a s' :
  with_controlled_interrupt control m s = (Ok a, s') ->
  exists s1 s2, s1.2 = s.2 /\ m s1 = (Ok a, s2) /\ s'.2 = s2.2.
Proof.
  unfold with_controlled_interrupt. intros (d & s1 & Hd & Ho)%bind_ok. injection Hd as <- <-.
  destruct (register_interrupt _ _) as [d|]; [|done]. apply bind_ok in Ho as (u & s1 & Ho & Hc).
  unfold obey in Ho. case_match; [|done]. injection Ho as _ <-. unfold clearing in Hc.
  destruct (m _) as [r s2] eqn:E. destruct (clear_interrupt _ _); [|done]. injection Hc as -> <-.
  exists (S s.1, s.2), s2. done.
Qed.

Section facts.
Context `{StoreEnv}.

(** ** Pages *)

Lemma matching_elem m st b after i :
  i ∈ matching m st b after <->
  exists r, m !! i = Some r /\ c_state r = st /\ within b i = true /\ beyond after i = true.
Proof.
  unfold matching. rewrite btree_collect_elem, list_elem_of_In, in_map_iff. split.
  - intros ([k r] & Hk & Hin). apply filter_In in Hin as [Hin Hc]. cbn in Hk. subst k.
    apply list_elem_of_In, elem_of_map_to_list in Hin. exists r. bool_hyps. done.
  - intros (r & Hm & Hst & Hb & Ha). exists (i, r). split; [done|]. apply filter_In. split.
    + by apply list_elem_of_In, elem_of_map_to_list.
    + by rewrite (bool_decide_eq_true_2 _ Hst), Hb, Ha.
Qed.
Lemma page_rows_elem m st b after i r :
  (i, r) ∈ page_rows m st b after <-> i ∈ take 256 (matching m st b after) /\ m !! i = Some r.
Proof.
  unfold page_rows. rewrite list_elem_of_omap. split.
  - intros (k & Hk & Hm). destruct (m !! k) eqn:E; [|done]. injection Hm as -> ->. done.
  - intros [Hi Hm]. exists i. by rewrite Hm.
Qed.

(** The identity a page reports is that of one of its rows, and no row disappears. *)
Lemma classify_row_dom control context request i r count s n s' :
  classify_row control context request i r count s = (Ok n, s') -> dom (commands s'.2) = dom (commands s.2).
Proof.
  unfold classify_row. intros (? & s1 & <-%checkpoint_ok & Hr)%bind_ok.
  apply bind_ok in Hr as (? & ? & [_ ->]%lift_ok & Hr). apply bind_ok in Hr as (row & ? & [_ ->]%lift_ok & Hr).
  case_match; [done|]. destruct (pr_state request).
  - case_match; [done|]. apply bind_ok in Hr as (l & s2 & Hl & Hr). injection Hl as <- <-.
    apply bind_ok in Hr as (l2 & ? & [Hl2%ok_or_ok ->]%lift_ok & Hr). apply bind_ok in Hr as (? & s3 & Hp & Hr).
    injection Hp as <- <-. injection Hr as <- <-. cbn.
    apply update_command_ok in Hl2 as (r0 & Hr0 & _ & ->). rewrite dom_insert_L. apply elem_of_dom_2 in Hr0. set_solver.
  - apply lift_ok in Hr as [_ ->]. done.
Qed.
Lemma classify_rows_last control context request rows last count s n c s' :
  classify_rows control context request rows last count s = (Ok (n, c), s') ->
  dom (commands s'.2) = dom (commands s.2) /\ (n = last \/ exists i r, n = Some i /\ (i, r) ∈ rows).
Proof.
  revert last count s. induction rows as [|[i r] rows IH]; cbn; intros last count s Hr.
  - injection Hr as <- <- <-. auto.
  - apply bind_ok in Hr as (c1 & s1 & Hc & Hr). apply classify_row_dom in Hc. apply IH in Hr as [Hd Hn].
    rewrite Hd. split; [done|]. right. destruct Hn as [->|(j & rj & -> & Hin)]; [exists i, r|exists j, rj]; set_solver.
Qed.
Lemma page_progress control context request s page s' :
  classify_startup_mutation_page control context request s = (Ok page, s') ->
  dom (commands s'.2) = dom (commands s.2) /\
  (page_complete page = false -> exists i, last_command_id page = Some i /\ i ∈ dom (commands s.2) /\ beyond (pr_after request) i = true).
Proof.
  unfold classify_startup_mutation_page. intros (? & s1 & <-%checkpoint_ok & Hr)%bind_ok.
  destruct (maximum_command_id _) as [b|]; cycle 1.
  { case_match; [done|]. apply lift_ok in Hr as [Hp ->]. injection Hp as <-. done. }
  case_match; [done|]. apply bind_ok in Hr as ([[n c] complete] & s2 & Ht%transact_ok & Hp). apply lift_ok in Hp as [Hp ->].
  apply bind_ok in Ht as (l & s3 & Hl & Ht). injection Hl as <- <-. apply bind_ok in Ht as ([n1 c1] & s4 & Hr & Ht).
  apply bind_ok in Ht as (? & s5 & Hs5%checkpoint_ok & Ht). injection Ht as <- <- _ <-.
  apply classify_rows_last in Hr as [Hd Hn]. rewrite Hs5. split; [done|]. cbn in Hp. unfold page_from_store in Hp. inv_result.
  cbn. intros ->. destruct Hn as [->|(i & r & -> & Hin)]; [done|]. exists i. split; [done|].
  apply page_rows_elem in Hin as [Hin Hm]. split; [by eapply elem_of_dom_2|].
  eapply subseteq_take, matching_elem in Hin as (? & _ & _ & _ & ?). done.
Qed.

(** ** Termination *)

Definition above (after : option Id) (d : gset Id) : gset Id := filter (fun i => beyond after i = true) d.

Lemma beyond_trans after i j : beyond after i = true -> beyond (Some i) j = true -> beyond after j = true.
Proof.
  destruct after as [a|]; [|done]. cbn. rewrite !bool_decide_eq_true. intros. by etrans.
Qed.
Lemma above_shrinks after i d : i ∈ d -> beyond after i = true -> (size (above (Some i) d) < size (above after d))%nat.
Proof.
  intros Hi Ha. apply subset_size. split.
  - intros j. unfold above. rewrite !elem_of_filter. intros [Hj ?]. split; [by eapply beyond_trans|done].
  - intros Hsub. assert (i ∈ above (Some i) d) as Hin by (apply Hsub; unfold above; by apply elem_of_filter).
    unfold above in Hin. apply elem_of_filter in Hin as [Hb _]. cbn in Hb. apply bool_decide_eq_true in Hb.
    unfold rlt in Hb. by rewrite rcmp_refl in Hb.
Qed.

Lemma classify_state_ends fuel control context boundary state after count s :
  (size (above after (dom (commands s.2))) < fuel)%nat ->
  (forall s', classify_state fuel control context boundary state after count s <> (Ok None, s')) /\
  (forall n s', classify_state fuel control context boundary state after count s = (Ok n, s') ->
     dom (commands s'.2) = dom (commands s.2)).
Proof.
  revert after count s. induction fuel as [|fuel IH]; intros after count s Hf; [lia|]. cbn [classify_state].
  assert (forall n s', classify_state (S fuel) control context boundary state after count s = (Ok n, s') ->
            n <> None /\ dom (commands s'.2) = dom (commands s.2)) as Hall.
  { cbn [classify_state]. intros n s' Hr. apply bind_ok in Hr as (? & s1 & E1%checkpoint_ok & Hr). rewrite <- E1 in *.
    apply bind_ok in Hr as (at_ & s2 & Ha & Hr). injection Ha as <- <-. apply bind_ok in Hr as (at_ & ? & [_ ->]%lift_ok & Hr).
    apply bind_ok in Hr as (page & s3 & (s4 & s5 & E4 & Hp & E5)%interrupt_ok & Hr). cbn in E4.
    apply page_progress in Hp as [Hd Hi]. rewrite E4 in Hd, Hi. rewrite <- E5 in Hd.
    apply bind_ok in Hr as ([next c] & ? & [Hn ->]%lift_ok & Hr). destruct next as [next|]; [|by injection Hr as <- <-].
    unfold accept_page in Hn. inv_result. destruct (page_complete page); [done|]. inv_result. simplify_eq.
    destruct (Hi eq_refl) as (i & Hi1 & Hi2 & Hi3). simplify_eq. cbn in Hi3.
    edestruct (IH (Some next) c s3) as [Hne Hdom].
    { rewrite Hd. pose proof (above_shrinks after next _ Hi2 Hi3). lia. }
    split; [by intros ->; eapply Hne|]. rewrite (Hdom _ _ Hr). done. }
  split; [intros s' Hr; by apply Hall in Hr as []|]. intros n s' Hr. by apply Hall in Hr as [].
Qed.

(** ** Successive pages *)

Lemma sorted_last (l : list Id) x a : StronglySorted rlt l -> list.last l = Some x -> a ∈ l -> a = x \/ rlt a x.
Proof.
  intros Hs Hl Ha. apply last_Some in Hl as [k ->]. apply elem_of_app in Ha as [Ha|Ha]; [right|left; set_solver].
  eapply StronglySorted_app_1_elem_of; [exact Hs|done|set_solver].
Qed.
Lemma matching_sorted m st b after : StronglySorted rlt (matching m st b after).
Proof. apply btree_collect_sorted. Qed.
Lemma page_ids m st b after : (page_rows m st b after).*1 = take 256 (matching m st b after).
Proof.
  unfold page_rows. assert (Forall (fun i => is_Some (m !! i)) (take 256 (matching m st b after))) as Hf.
  { apply Forall_forall. intros i Hi. eapply subseteq_take, matching_elem in Hi as (r & -> & _). done. }
  induction Hf as [|i ids [r Hr] _ IH]; cbn; [done|]. rewrite Hr. cbn. by rewrite IH.
Qed.

Lemma rlt_asym (a b : Id) : rlt a b -> ~ rlt b a.
Proof. intros Hab Hba. pose proof (rcmp_trans _ _ _ Hab Hba) as E. by rewrite rcmp_refl in E. Qed.

(** The scan resumes behind the last row of a page. *)
Lemma matching_next m m' st b after x :
  list.last (take 256 (matching m st b after)) = Some x ->
  (forall i, i ∉ take 256 (matching m st b after) -> m' !! i = m !! i) ->
  matching m' st b (Some x) = drop 256 (matching m st b after).
Proof.
  intros Hx Hm. pose proof (matching_sorted m st b after) as Hs. rewrite <- (take_drop 256 (matching m st b after)) in Hs.
  assert (forall i, i ∈ take 256 (matching m st b after) -> ~ rlt x i) as Hle.
  { intros i Hi Hxi. destruct (sorted_last (take 256 (matching m st b after)) x i) as [->|Hlt]; [|done|done| |].
    - by eapply StronglySorted_app_1_l.
    - unfold rlt in Hxi. by rewrite rcmp_refl in Hxi.
    - by eapply rlt_asym. }
  assert (x ∈ take 256 (matching m st b after)) as Hxin by (apply last_Some in Hx as [k ->]; set_solver).
  apply sorted_ext; [apply matching_sorted|by eapply StronglySorted_app_1_r|].
  intros j. rewrite matching_elem. split.
  - intros (r & Hr & Hst & Hb & Hj). cbn in Hj. apply bool_decide_eq_true in Hj.
    assert (j ∉ take 256 (matching m st b after)) as Hnin by (intros Hin; by eapply Hle).
    rewrite Hm in Hr by done. assert (j ∈ matching m st b after) as Hin.
    { apply matching_elem. exists r. split_and!; [done..|]. eapply beyond_trans; [|cbn; by apply bool_decide_eq_true].
      eapply subseteq_take, matching_elem in Hxin as (? & _ & _ & _ & ?). done. }
    rewrite <- (take_drop 256 (matching m st b after)) in Hin. apply elem_of_app in Hin as [?|?]; done.
  - intros Hj. assert (rlt x j) as Hxj by (eapply StronglySorted_app_1_elem_of; done).
    assert (j ∉ take 256 (matching m st b after)) as Hnin by (intros Hin; by eapply Hle). rewrite Hm by done.
    eapply subseteq_drop, matching_elem in Hj as (r & Hr & Hst & Hb & Ha). exists r. split_and!; [done..|].
    cbn. by apply bool_decide_eq_true.
Qed.
(** The test for the last page. *)
Lemma page_complete_iff m st b after :
  let ids := take 256 (matching m st b after) in
  (blen (page_rows m st b after) <? 256) || bool_decide (list.last ids = Some b) = true ->
  drop 256 (matching m st b after) = [].
Proof.
  intros ids Hc. assert (length (page_rows m st b after) = length ids) as Hlen by (unfold ids; by rewrite <- page_ids, length_fmap).
  apply orb_true_iff in Hc as [Hc|Hc].
  - apply drop_ge. unfold blen in Hc. unfold ids in Hlen. rewrite length_take in Hlen. lia.
  - apply bool_decide_eq_true in Hc. destruct (drop 256 _) as [|j rest] eqn:Ed; [done|exfalso].
    pose proof (matching_sorted m st b after) as Hs. rewrite <- (take_drop 256 (matching m st b after)) in Hs.
    assert (rlt b j) as Hbj.
    { eapply StronglySorted_app_1_elem_of; [exact Hs| |rewrite Ed; set_solver]. fold ids. apply last_Some in Hc as [k ->]. set_solver. }
    assert (j ∈ matching m st b after) as Hj by (eapply subseteq_drop; rewrite Ed; set_solver).
    apply matching_elem in Hj as (_ & _ & _ & Hw & _). unfold within in Hw. by rewrite (bool_decide_eq_true_2 _ Hbj) in Hw.
Qed.

(** ** An undisturbed run *)

(** The control never stops the run and the clock works. *)
Record calm (control : Control) : Prop := {
  calm_checkpoint : forall n, checkpoint_at control n = Continue;
  calm_register : forall n, register_interrupt control n = Some Continue;
  calm_clear : forall n, clear_interrupt control n = true;
  calm_clock : forall n, exists at_, clock_now control n = Some at_ /\ time_ok at_ }.

(** A row the classification accepts. *)
Definition ready (context : StoreContext) (state : StartupMutationState) (i : Id) (r : CommandRow) : Prop :=
  c_command_id r = i /\ valid_row r /\ c_principal_uid r = owner_uid context /\
  operation_recoverable (c_operation_id r) = true /\ c_state r = state_of state /\
  (state = Claimed -> c_runtime_id r <> runtime_id context).

Section calm.
Context (control : Control) (context : StoreContext) (Hcalm : calm control).

Lemma checkpoint_run t l : controlled_checkpoint control (t, l) = (Ok tt, (S t, l)).
Proof. unfold controlled_checkpoint. erewrite bind_runs by reflexivity. cbn. by rewrite calm_checkpoint. Qed.
Lemma interrupt_run {A} (m : M A) t l a t2 l2 :
  m (S t, l) = (Ok a, (t2, l2)) -> with_controlled_interrupt control m (t, l) = (Ok a, (S t2, l2)).
Proof.
  intros Hm. unfold with_controlled_interrupt. erewrite bind_runs by reflexivity. cbn. rewrite calm_register by done.
  cbn. unfold mbind, M_bind. cbn. unfold clearing. rewrite Hm. by rewrite calm_clear.
Qed.

Lemma ready_checked state i r : ready context state i r -> check_id (Some i) = Ok tt /\ validate_command_row r = Ok r.
Proof. intros (<- & Hv & _). split; [|done]. apply valid_row_iff in Hv as [[] _]. done. Qed.

Lemma classify_row_claimed request i r count t l :
  pr_state request = Claimed -> ready context Claimed i r -> commands l !! i = Some r ->
  classify_row control context request i r count (t, l)
  = (Ok count, (S t, with_commands l (<[i := marked_row RECOVERY_REQUIRED StorageConfigurationError (pr_classified_at request) r]> (commands l)))).
Proof.
  intros Hst Hr Hl. destruct (ready_checked _ _ _ Hr) as [Hi Hv]. destruct Hr as (_ & _ & Hu & Hop & Hs & Hrt). cbn in Hs.
  unfold classify_row. erewrite bind_runs by apply checkpoint_run. rewrite Hi. erewrite bind_runs by reflexivity.
  rewrite Hv. erewrite bind_runs by reflexivity. rewrite Hst, Hu, Z.eqb_refl, Hs, Hop. cbn [state_of negb orb].
  rewrite bool_decide_eq_true_2 by done. cbn [negb orb]. rewrite bool_decide_eq_false_2 by auto.
  erewrite bind_runs by reflexivity. cbn [snd]. unfold update_command. rewrite Hl. unfold is_claimed. rewrite Hs.
  rewrite !bool_decide_eq_true_2 by done. cbn [andb ok_or]. erewrite bind_runs by reflexivity. by erewrite bind_runs by reflexivity.
Qed.
Lemma classify_row_counted request i r count t l :
  pr_state request = RecoveryRequired -> ready context RecoveryRequired i r -> 0 <= count < U64_MAX ->
  classify_row control context request i r count (t, l) = (Ok (count + 1), (S t, l)).
Proof.
  intros Hst Hr Hc. destruct (ready_checked _ _ _ Hr) as [Hi Hv]. destruct Hr as (_ & _ & Hu & Hop & Hs & _). cbn in Hs.
  unfold classify_row. erewrite bind_runs by apply checkpoint_run. rewrite Hi. erewrite bind_runs by reflexivity.
  rewrite Hv. erewrite bind_runs by reflexivity. rewrite Hst, Hu, Z.eqb_refl, Hs, Hop. cbn [state_of negb orb].
  rewrite bool_decide_eq_true_2 by done. cbn [negb orb]. unfold checked_add. destruct (_ <=? _) eqn:E; [done|lia].
Qed.

Definition mark (at_ : Timestamp) (rows : list (Id * CommandRow)) (m : gmap Id CommandRow) : gmap Id CommandRow :=
  foldl (fun m '(i, r) => <[i := marked_row RECOVERY_REQUIRED StorageConfigurationError at_ r]> m) m rows.
Definition last_or (rows : list (Id * CommandRow)) (last : option Id) : option Id :=
  match list.last rows.*1 with Some i => Some i | None => last end.

Lemma last_or_cons i r rows last : last_or ((i, r) :: rows) last = last_or rows (Some i).
Proof. unfold last_or. rewrite fmap_cons, last_cons. by destruct (list.last rows.*1). Qed.
Lemma with_commands_id l : with_commands l (commands l) = l.
Proof. by destruct l as [[]]. Qed.

Lemma classify_rows_claimed request rows last count t l :
  pr_state request = Claimed -> NoDup rows.*1 ->
  (forall i r, (i, r) ∈ rows -> commands l !! i = Some r /\ ready context Claimed i r) ->
  exists t', classify_rows control context request rows last count (t, l)
    = (Ok (last_or rows last, count), (t', with_commands l (mark (pr_classified_at request) rows (commands l)))).
Proof.
  intros Hst. revert last t l. induction rows as [|[i r] rows IH]; cbn [classify_rows]; intros last t l Hnd Hall.
  - exists t. cbn. by rewrite with_commands_id.
  - destruct (Hall i r) as [Hl Hr]; [set_solver|]. erewrite bind_runs by by apply classify_row_claimed.
    cbn in Hnd. apply NoDup_cons in Hnd as [Hni Hnd]. edestruct (IH (Some i)) as [t' Ht]; [done| |exists t'; rewrite Ht].
    + intros j rj Hj. destruct (Hall j rj) as [Hlj Hrj]; [set_solver|]. split; [|done].
      cbn. rewrite lookup_insert_ne; [done|]. intros <-. apply Hni. apply list_elem_of_fmap. by exists (i, rj).
    + by rewrite last_or_cons.
Qed.
Lemma classify_rows_counted request rows last count t l :
  pr_state request = RecoveryRequired -> (forall i r, (i, r) ∈ rows -> ready context RecoveryRequired i r) ->
  0 <= count -> count + blen rows <= U64_MAX ->
  exists t', classify_rows control context request rows last count (t, l) = (Ok (last_or rows last, count + blen rows), (t', l)).
Proof.
  intros Hst. revert last count t l. induction rows as [|[i r] rows IH]; cbn [classify_rows]; intros last count t l Hall Hc Hb.
  - exists t. cbn. by rewrite blen_nil, Z.add_0_r.
  - rewrite blen_cons in Hb. pose proof (blen_nonneg rows). assert (ready context RecoveryRequired i r) as Hr by (apply Hall; set_solver).
    erewrite bind_runs by (apply classify_row_counted; [done..|lia]).
    edestruct (IH (Some i) (count + 1)) as [t' Ht]; [intros; apply Hall; set_solver|lia..|]. exists t'. rewrite Ht, last_or_cons, blen_cons.
    do 3 f_equal. lia.
Qed.
Lemma state_step fuel boundary state after count t l at_ page t1 l1 next count1 r :
  clock_now control (S t) = Some at_ ->
  classify_startup_mutation_page control context
    {| pr_boundary := boundary; pr_state := state; pr_after := after; pr_classified_at := at_ |} (S (S (S t)), l) = (Ok page, (t1, l1)) ->
  accept_page boundary state after count page = Ok (next, count1) ->
  match next with
  | None => mret (Some count1)
  | Some next => classify_state fuel control context boundary state (Some next) count1
  end (S t1, l1) = r ->
  classify_state (S fuel) control context boundary state after count (t, l) = r.
Proof.
  intros Hnow Hp Ha Hr. cbn [classify_state]. erewrite bind_runs by by apply checkpoint_run.
  erewrite bind_runs by reflexivity. cbn [fst snd]. rewrite Hnow. erewrite bind_runs by reflexivity.
  erewrite bind_runs by (apply interrupt_run; exact Hp). rewrite Ha. by erewrite bind_runs by reflexivity.
Qed.

End calm.
(** ** Pages of an undisturbed run *)

Definition page_done (m : gmap Id CommandRow) (st : CommandState) (b : Id) (after : option Id) : bool :=
  (blen (page_rows m st b after) <? 256) || bool_decide (list.last (take 256 (matching m st b after)) = Some b).

Lemma page_length m st b after : blen (page_rows m st b after) = blen (take 256 (matching m st b after)).
Proof. unfold blen. by rewrite <- page_ids, length_fmap. Qed.
Lemma page_stored m st b after count :
  0 <= count <= blen (page_rows m st b after) ->
  page_from_store (list.last (take 256 (matching m st b after))) count (page_done m st b after)
  = Ok {| last_command_id := list.last (take 256 (matching m st b after)); recovery_required_count := count;
          page_complete := page_done m st b after |}.
Proof.
  intros Hc. unfold page_from_store, page_done. rewrite page_length in *. unfold blen in *. rewrite length_take in *.
  destruct (matching m st b after) as [|i ids] eqn:E.
  - cbn in *. by replace count with 0 by lia.
  - destruct (list.last (take 256 (i :: ids))) eqn:El; [|by apply last_None in El]. cbn [none]. rewrite !andb_false_r. cbn [orb].
    destruct (256 <? count) eqn:E2; [lia|done].
Qed.
Lemma page_accepted m st b after state count c :
  (state = Claimed -> c = 0) -> 0 <= c -> 0 <= count -> count + c <= U64_MAX ->
  accept_page {| maximum_command_id := Some b |} state after count
    {| last_command_id := list.last (take 256 (matching m st b after)); recovery_required_count := c; page_complete := page_done m st b after |}
  = Ok (if page_done m st b after then None else list.last (take 256 (matching m st b after)), count + c).
Proof.
  intros Hz Hc Hcount Hmax. unfold accept_page. cbn [recovery_required_count last_command_id maximum_command_id page_complete].
  assert (match state with Claimed => negb (c =? 0) | RecoveryRequired => false end = false) as ->
    by (destruct state; [by rewrite Hz|done]).
  match goal with |- context [match list.last ?x with Some _ => _ | None => _ end] => destruct (list.last x) as [i|] eqn:El end.
  - apply last_Some in El as [k Hk]. assert (i ∈ matching m st b after) as Hi by (eapply subseteq_take; rewrite Hk; set_solver).
    apply matching_elem in Hi as (_ & _ & _ & Hw & Ha). unfold within in Hw. apply negb_true_iff in Hw. rewrite Hw.
    assert (match after with Some previous => negb (bool_decide (rlt previous i)) | None => false end = false) as ->.
    { destruct after; [|done]. cbn in Ha. by rewrite Ha. }
    cbn [orb]. unfold checked_add. destruct (count + c <=? U64_MAX) eqn:E; [|lia]. cbn. by destruct (page_done _ _ _ _).
  - apply last_None in El. unfold page_done. rewrite page_length, El. cbn. unfold checked_add.
    by destruct (count + c <=? U64_MAX) eqn:E; [|lia].
Qed.

Section scans.
Context (control : Control) (context : StoreContext) (Hcalm : calm control) (b : Id).
Let boundary : StartupMutationBoundary := {| maximum_command_id := Some b |}.

Definition all_ready (state : StartupMutationState) (after : option Id) (m : gmap Id CommandRow) : Prop :=
  forall i r, i ∈ matching m (state_of state) b after -> m !! i = Some r -> ready context state i r.
Definition not_after (after : option Id) : Prop := forall a, after = Some a -> ~ rlt b a.

Lemma not_after_guard after : not_after after -> match after with Some a => bool_decide (rlt b a) | None => false end = false.
Proof. intros Ha. destruct after as [a|]; [|done]. apply bool_decide_eq_false. by apply Ha. Qed.
Lemma page_rows_ready state after m i r :
  all_ready state after m -> (i, r) ∈ page_rows m (state_of state) b after -> m !! i = Some r /\ ready context state i r.
Proof. intros Hall [Hi Hm]%page_rows_elem. split; [done|]. apply Hall; [|done]. by eapply subseteq_take. Qed.
Lemma page_last m st after : last_or (page_rows m st b after) None = list.last (take 256 (matching m st b after)).
Proof. unfold last_or. rewrite page_ids. by case_match. Qed.

Lemma page_claimed after at_ t l :
  all_ready Claimed after (commands l) -> not_after after ->
  exists t', classify_startup_mutation_page control context
      {| pr_boundary := boundary; pr_state := Claimed; pr_after := after; pr_classified_at := at_ |} (t, l)
    = (Ok {| last_command_id := list.last (take 256 (matching (commands l) CLAIMED b after)); recovery_required_count := 0;
             page_complete := page_done (commands l) CLAIMED b after |},
       (t', with_commands l (mark at_ (page_rows (commands l) CLAIMED b after) (commands l)))).
Proof.
  intros Hall Hb. unfold classify_startup_mutation_page. erewrite bind_runs by by apply checkpoint_run.
  cbn [pr_boundary pr_state pr_after boundary maximum_command_id state_of]. rewrite not_after_guard by done.
  edestruct (classify_rows_claimed control context Hcalm
    {| pr_boundary := boundary; pr_state := Claimed; pr_after := after; pr_classified_at := at_ |}
    (page_rows (commands l) CLAIMED b after) None 0 (S t) l) as [t' Ht]; [done| | |].
  - rewrite page_ids. eapply sublist_NoDup; [apply sorted_NoDup, matching_sorted|]. apply sublist_take.
  - intros i r Hin. by apply (page_rows_ready Claimed after).
  - eexists. erewrite bind_runs; cycle 1.
    { apply transact_run. erewrite bind_runs by reflexivity. cbn [snd]. erewrite bind_runs by exact Ht.
      erewrite bind_runs by by apply checkpoint_run. reflexivity. }
    cbn [fst snd]. rewrite page_last. unfold lift. rewrite <- (page_stored (commands l) CLAIMED b after 0); [done|].
    pose proof (blen_nonneg (page_rows (commands l) CLAIMED b after)). lia.
Qed.
Lemma page_counted after at_ t l :
  all_ready RecoveryRequired after (commands l) -> not_after after ->
  exists t', classify_startup_mutation_page control context
      {| pr_boundary := boundary; pr_state := RecoveryRequired; pr_after := after; pr_classified_at := at_ |} (t, l)
    = (Ok {| last_command_id := list.last (take 256 (matching (commands l) RECOVERY_REQUIRED b after));
             recovery_required_count := blen (page_rows (commands l) RECOVERY_REQUIRED b after);
             page_complete := page_done (commands l) RECOVERY_REQUIRED b after |}, (t', l)).
Proof.
  intros Hall Hb. unfold classify_startup_mutation_page. erewrite bind_runs by by apply checkpoint_run.
  cbn [pr_boundary pr_state pr_after boundary maximum_command_id state_of]. rewrite not_after_guard by done.
  pose proof (blen_nonneg (page_rows (commands l) RECOVERY_REQUIRED b after)).
  edestruct (classify_rows_counted control context Hcalm
    {| pr_boundary := boundary; pr_state := RecoveryRequired; pr_after := after; pr_classified_at := at_ |}
    (page_rows (commands l) RECOVERY_REQUIRED b after) None 0 (S t) l) as [t' Ht]; [done| |lia| |].
  - intros i r Hin. by apply (page_rows_ready RecoveryRequired after (commands l)).
  - rewrite page_length. unfold blen. rewrite length_take. unfold U64_MAX. lia.
  - eexists. erewrite bind_runs; cycle 1.
    { apply transact_run. erewrite bind_runs by reflexivity. cbn [snd]. erewrite bind_runs by exact Ht.
      erewrite bind_runs by by apply checkpoint_run. reflexivity. }
    cbn [fst snd]. rewrite page_last, Z.add_0_l. unfold lift. rewrite <- page_stored; [done|]. lia.
Qed.
(** ** Scans *)

Lemma mark_other at_ rows m i : i ∉ rows.*1 -> mark at_ rows m !! i = m !! i.
Proof.
  unfold mark. revert m. induction rows as [|[j r] rows IH]; intros m Hi; cbn; [done|].
  cbn in Hi. apply not_elem_of_cons in Hi as [? ?]. rewrite IH by done. by rewrite lookup_insert_ne.
Qed.
Lemma mark_row at_ rows m i r :
  NoDup rows.*1 -> (i, r) ∈ rows -> mark at_ rows m !! i = Some (marked_row RECOVERY_REQUIRED StorageConfigurationError at_ r).
Proof.
  unfold mark. revert m. induction rows as [|[j rj] rows IH]; intros m Hnd Hin; cbn; [by inversion Hin|].
  cbn in Hnd. apply NoDup_cons in Hnd as [Hj Hnd]. apply elem_of_cons in Hin as [[= <- <-]|Hin]; [|by apply IH].
  pose proof (mark_other at_ rows) as Hm. unfold mark in Hm. rewrite Hm by done. by rewrite lookup_insert_eq.
Qed.
Lemma page_NoDup m st after : NoDup (page_rows m st b after).*1.
Proof. rewrite page_ids. eapply sublist_NoDup; [apply sorted_NoDup, matching_sorted|]. apply sublist_take. Qed.
Lemma next_not_after m st after i : list.last (take 256 (matching m st b after)) = Some i -> not_after (Some i).
Proof.
  intros [k Hk]%last_Some a [= <-]. assert (i ∈ matching m st b after) as Hi by (eapply subseteq_take; rewrite Hk; set_solver).
  apply matching_elem in Hi as (_ & _ & _ & Hw & _). unfold within in Hw. by apply negb_true_iff, bool_decide_eq_false in Hw.
Qed.
(** A page that is not the last one is full. *)
Lemma page_full m st after :
  page_done m st b after = false ->
  exists i, list.last (take 256 (matching m st b after)) = Some i /\
    length (matching m st b after) = (256 + length (drop 256 (matching m st b after)))%nat.
Proof.
  unfold page_done. intros [Hl%Z.ltb_ge _]%orb_false_iff. rewrite page_length in Hl. unfold blen in Hl. rewrite length_take in Hl.
  destruct (list.last _) as [i|] eqn:E.
  - exists i. split; [done|]. rewrite length_drop. lia.
  - apply last_None in E. destruct (matching m st b after); [cbn in Hl; lia|done].
Qed.

Definition recovered_in (ids : list Id) (m m' : gmap Id CommandRow) : Prop :=
  (forall i, i ∈ ids -> exists r at_, m !! i = Some r /\ time_ok at_ /\
     m' !! i = Some (marked_row RECOVERY_REQUIRED StorageConfigurationError at_ r)) /\
  (forall i, i ∉ ids -> m' !! i = m !! i).

Lemma page_recovered m after at_ :
  time_ok at_ -> recovered_in (take 256 (matching m CLAIMED b after)) m (mark at_ (page_rows m CLAIMED b after) m).
Proof.
  intros Ht. split.
  - intros i Hi. assert (exists r, m !! i = Some r) as [r Hr].
    { eapply subseteq_take, matching_elem in Hi as (r & ? & _). by exists r. }
    exists r, at_. split_and!; [done..|]. apply mark_row; [apply page_NoDup|]. by apply page_rows_elem.
  - intros i Hi. apply mark_other. by rewrite page_ids.
Qed.
Lemma recovered_trans ids1 ids2 m m1 m2 :
  recovered_in ids1 m m1 -> recovered_in ids2 m1 m2 -> (forall i, i ∈ ids1 -> i ∉ ids2) -> recovered_in (ids1 ++ ids2) m m2.
Proof.
  intros [Hi1 Ho1] [Hi2 Ho2] Hd. split.
  - intros i [Hi|Hi]%elem_of_app.
    + rewrite Ho2 by auto. by apply Hi1.
    + destruct (Hi2 _ Hi) as (r & at_ & Hr & ? & ?). exists r, at_. rewrite <- Ho1; [done|]. intros Hin. by eapply Hd.
  - intros i [? ?]%not_elem_of_app. rewrite Ho2, Ho1; done.
Qed.

Lemma claimed_scan fuel after count t l :
  all_ready Claimed after (commands l) -> not_after after -> 0 <= count <= U64_MAX ->
  (length (matching (commands l) CLAIMED b after) < fuel)%nat ->
  exists t' m', classify_state fuel control context boundary Claimed after count (t, l) = (Ok (Some count), (t', with_commands l m')) /\
    recovered_in (matching (commands l) CLAIMED b after) (commands l) m'.
Proof.
  revert after t l. induction fuel as [|fuel IH]; intros after t l Hall Hb Hc Hf; [lia|].
  destruct (calm_clock control Hcalm (S t)) as (at_ & Hnow & Hat).
  destruct (page_claimed after at_ (S (S (S t))) l Hall Hb) as [t1 Hp].
  pose proof (page_accepted (commands l) CLAIMED b after Claimed count 0 (fun _ => eq_refl)) as Ha.
  rewrite Z.add_0_r in Ha. specialize (Ha ltac:(lia) ltac:(lia) ltac:(lia)).
  pose proof (page_recovered (commands l) after at_ Hat) as Hrec. set (m1 := mark at_ _ _) in *.
  pose proof (take_drop 256 (matching (commands l) CLAIMED b after)) as Hsplit.
  destruct (page_done (commands l) CLAIMED b after) eqn:Ed.
  - exists (S t1), m1. split; [by eapply (state_step _ _ Hcalm)|]. apply page_complete_iff in Ed. rewrite Ed, app_nil_r in Hsplit. by rewrite <- Hsplit.
  - destruct (page_full _ _ _ Ed) as (i & Hi & Hlen).
    assert (matching m1 CLAIMED b (Some i) = drop 256 (matching (commands l) CLAIMED b after)) as Hnext
      by (apply matching_next; [done|apply Hrec]).
    assert (forall j, j ∈ take 256 (matching (commands l) CLAIMED b after) -> j ∉ drop 256 (matching (commands l) CLAIMED b after)) as Hdis.
    { pose proof (sorted_NoDup _ (matching_sorted (commands l) CLAIMED b after)) as Hnd. rewrite <- Hsplit in Hnd.
      apply NoDup_app in Hnd as (_ & Hnd & _). exact Hnd. }
    edestruct (IH (Some i) (S t1) (with_commands l m1)) as (t2 & m2 & Hrun & Hrec2); [| |done| |].
    + intros j r Hj Hr. cbn [state_of] in Hj. change (commands (with_commands l m1)) with m1 in *. rewrite Hnext in Hj.
      rewrite (proj2 Hrec) in Hr by (intros Hin; by eapply Hdis). apply Hall; [|done]. by eapply subseteq_drop.
    + by eapply next_not_after.
    + change (commands (with_commands l m1)) with m1. rewrite Hnext. lia.
    + exists t2, m2. split; [eapply (state_step _ _ Hcalm); [done..|]; rewrite Hi; exact Hrun|].
      change (commands (with_commands l m1)) with m1 in Hrec2. rewrite Hnext in Hrec2. rewrite <- Hsplit. by eapply recovered_trans.
Qed.
Lemma counted_scan fuel after count t l :
  all_ready RecoveryRequired after (commands l) -> not_after after ->
  0 <= count -> count + blen (matching (commands l) RECOVERY_REQUIRED b after) <= U64_MAX ->
  (length (matching (commands l) RECOVERY_REQUIRED b after) < fuel)%nat ->
  exists t', classify_state fuel control context boundary RecoveryRequired after count (t, l)
    = (Ok (Some (count + blen (matching (commands l) RECOVERY_REQUIRED b after))), (t', l)).
Proof.
  revert after count t. induction fuel as [|fuel IH]; intros after count t Hall Hb Hc Hmax Hf; [lia|].
  destruct (calm_clock control Hcalm (S t)) as (at_ & Hnow & _).
  destruct (page_counted after at_ (S (S (S t))) l Hall Hb) as [t1 Hp].
  pose proof (take_drop 256 (matching (commands l) RECOVERY_REQUIRED b after)) as Hsplit.
  assert (blen (matching (commands l) RECOVERY_REQUIRED b after)
    = blen (page_rows (commands l) RECOVERY_REQUIRED b after) + blen (drop 256 (matching (commands l) RECOVERY_REQUIRED b after))) as Hlen
    by (by rewrite page_length, <- blen_app, Hsplit).
  pose proof (blen_nonneg (page_rows (commands l) RECOVERY_REQUIRED b after)).
  pose proof (blen_nonneg (drop 256 (matching (commands l) RECOVERY_REQUIRED b after))).
  pose proof (page_accepted (commands l) RECOVERY_REQUIRED b after RecoveryRequired count
    (blen (page_rows (commands l) RECOVERY_REQUIRED b after)) ltac:(done) ltac:(lia) ltac:(lia) ltac:(lia)) as Ha.
  destruct (page_done (commands l) RECOVERY_REQUIRED b after) eqn:Ed.
  - exists (S t1). eapply (state_step _ _ Hcalm); [done..|]. apply page_complete_iff in Ed. rewrite Ed, blen_nil in Hlen.
    rewrite Hlen, Z.add_0_r. done.
  - destruct (page_full _ _ _ Ed) as (i & Hi & Hlen').
    assert (matching (commands l) RECOVERY_REQUIRED b (Some i) = drop 256 (matching (commands l) RECOVERY_REQUIRED b after)) as Hnext
      by (by apply matching_next).
    edestruct (IH (Some i) (count + blen (page_rows (commands l) RECOVERY_REQUIRED b after)) (S t1)) as [t2 Hrun]; [..|exists t2].
    + intros j r Hj. cbn [state_of] in Hj. rewrite Hnext in Hj. apply Hall. by eapply subseteq_drop.
    + by eapply next_not_after.
    + lia.
    + rewrite Hnext. lia.
    + rewrite Hnext. lia.
    + eapply (state_step _ _ Hcalm); [done..|]. rewrite Hi, Hrun, Hnext. do 3 f_equal. lia.
Qed.
End scans.

(** ** The whole classification *)

(** What is left of earlier runtimes can be classified: the owner's ingests and
    materializations, none of them claimed by this runtime. *)
Definition recoverable (context : StoreContext) (m : gmap Id CommandRow) : Prop :=
  forall i r, m !! i = Some r -> c_state r = CLAIMED \/ c_state r = RECOVERY_REQUIRED ->
    c_principal_uid r = owner_uid context /\ operation_recoverable (c_operation_id r) = true /\
    (c_state r = CLAIMED -> c_runtime_id r <> runtime_id context).
Definition waiting (m : gmap Id CommandRow) : list (Id * CommandRow) :=
  List.filter (fun '(_, r) => bool_decide (c_state r = RECOVERY_REQUIRED)) (map_to_list m).

Definition top (m : gmap Id CommandRow) : option Id := list.last (btree_collect (map fst (map_to_list m))).
Lemma in_keys (m : gmap Id CommandRow) i : i ∈ map fst (map_to_list m) <-> is_Some (m !! i).
Proof.
  rewrite list_elem_of_fmap. split.
  - intros ([j r] & -> & Hin%elem_of_map_to_list). cbn. by rewrite Hin.
  - intros [r Hr]. exists (i, r). by rewrite elem_of_map_to_list.
Qed.
Lemma top_within m b i r : top m = Some b -> m !! i = Some r -> within b i = true.
Proof.
  intros Hb Hi. unfold within. apply negb_true_iff, bool_decide_eq_false. intros Hlt.
  destruct (sorted_last (btree_collect (map fst (map_to_list m))) b i) as [->|Hlt2];
    [apply btree_collect_sorted|done|by apply btree_collect_elem, in_keys| |].
  - unfold rlt in Hlt. by rewrite rcmp_refl in Hlt.
  - by eapply rlt_asym.
Qed.
Lemma top_None m : top m = None -> m = ∅.
Proof.
  intros Hn%last_None. apply map_eq. intros i. rewrite lookup_empty. destruct (m !! i) eqn:E; [|done].
  assert (i ∈ btree_collect (map fst (map_to_list m))) as Hin by (by apply btree_collect_elem, in_keys).
  rewrite Hn in Hin. by inversion Hin.
Qed.
Lemma matching_all m b i r st : top m = Some b -> m !! i = Some r -> c_state r = st -> i ∈ matching m st b None.
Proof. intros Hb Hi Hst. apply matching_elem. exists r. split_and!; [done..|by eapply top_within|done]. Qed.
Lemma matching_size m st b after : (length (matching m st b after) <= size m)%nat.
Proof.
  rewrite <- length_map_to_list. rewrite <- (length_fmap fst (map_to_list m)). apply submseteq_length.
  apply NoDup_submseteq; [apply sorted_NoDup, matching_sorted|]. intros i (r & Hr & _)%matching_elem. by apply in_keys; rewrite Hr.
Qed.
Lemma matching_waiting m b : (forall i r, m !! i = Some r -> within b i = true) -> blen (matching m RECOVERY_REQUIRED b None) = blen (waiting m).
Proof.
  intros Hw. unfold matching, waiting, blen. f_equal. rewrite btree_collect_perm.
  - rewrite length_map. f_equal. apply filter_ext_in. intros [i r] Hin.
    apply list_elem_of_In, elem_of_map_to_list in Hin. rewrite (Hw _ _ Hin). cbn. by rewrite !andb_true_r.
  - assert (NoDup (map fst (map_to_list m))) as Hnd by apply NoDup_fst_map_to_list. revert Hnd.
    generalize (map_to_list m). intros l. induction l as [|[i r] l IH]; cbn; [done|]. intros [Hi Hnd]%NoDup_cons. case_match.
    + cbn. apply NoDup_cons. split; [|by apply IH]. intros Hin. apply Hi. revert Hin. rewrite !list_elem_of_In, !in_map_iff.
      intros (x & Hx & Hin%filter_In). exists x. by destruct Hin.
    + by apply IH.
Qed.
Lemma capture_run control b t l :
  calm control -> top (commands l) = Some b -> check_id (Some b) = Ok tt ->
  capture_startup_mutation_boundary control (t, l) = (Ok {| maximum_command_id := Some b |}, (S t, l)).
Proof.
  intros Hcalm Hb Hi. unfold capture_startup_mutation_boundary. erewrite bind_runs by by apply checkpoint_run.
  erewrite bind_runs by reflexivity. cbn [snd]. unfold top in Hb. rewrite Hb, Hi. by erewrite bind_runs by reflexivity.
Qed.
Lemma capture_empty control t l :
  calm control -> top (commands l) = None ->
  capture_startup_mutation_boundary control (t, l) = (Ok {| maximum_command_id := None |}, (S t, l)).
Proof.
  intros Hcalm Hb. unfold capture_startup_mutation_boundary. erewrite bind_runs by by apply checkpoint_run.
  erewrite bind_runs by reflexivity. cbn [snd]. unfold top in Hb. by rewrite Hb.
Qed.
Lemma empty_scan control context fuel state count t l :
  calm control -> 0 <= count <= U64_MAX ->
  exists t', classify_state (S fuel) control context {| maximum_command_id := None |} state None count (t, l) = (Ok (Some count), (t', l)).
Proof.
  intros Hcalm Hc. destruct (calm_clock control Hcalm (S t)) as (at_ & Hnow & _). eexists.
  eapply (state_step _ _ Hcalm); [exact Hnow| | |].
  - unfold classify_startup_mutation_page. erewrite bind_runs by by apply checkpoint_run. reflexivity.
  - unfold accept_page. cbn [recovery_required_count last_command_id page_complete Z.eqb negb].
    assert (match state with Claimed => false | RecoveryRequired => false end = false) as -> by by destruct state.
    unfold checked_add. rewrite Z.add_0_r. destruct (count <=? U64_MAX) eqn:E; [done|lia].
  - reflexivity.
Qed.
Lemma classify_run control context fuel t l b count1 count2 t1 l1 t2 l2 :
  calm control -> with_controlled_interrupt control (capture_startup_mutation_boundary control) (S t, l) = (Ok b, (t1, l)) ->
  (exists t', classify_state fuel control context b Claimed None 0 (S t1, l) = (Ok (Some count1), (t', l1)) /\
    classify_state fuel control context b RecoveryRequired None count1 (t', l1) = (Ok (Some count2), (t2, l2))) ->
  classify_with_clock fuel control context (t, l) = (Ok (Some count2), (t2, l2)).
Proof.
  intros Hcalm Hb (t' & H1 & H2). unfold classify_with_clock. erewrite bind_runs by by apply checkpoint_run.
  erewrite bind_runs by exact Hb. erewrite bind_runs by by apply checkpoint_run. by erewrite bind_runs by exact H1.
Qed.

(** The ledger an undisturbed classification leaves. *)
Definition all_recovered (m m' : gmap Id CommandRow) : Prop :=
  (forall i r, m !! i = Some r -> c_state r = CLAIMED -> exists at_, time_ok at_ /\
     m' !! i = Some (marked_row RECOVERY_REQUIRED StorageConfigurationError at_ r)) /\
  (forall i r, m !! i = Some r -> c_state r <> CLAIMED -> m' !! i = Some r) /\
  (forall i, m !! i = None -> m' !! i = None).

Lemma recovered_all m m' b : top m = Some b -> recovered_in (matching m CLAIMED b None) m m' -> all_recovered m m'.
Proof.
  intros Hb [Hin Hout]. split_and!.
  - intros i r Hr Hst. destruct (Hin i) as (r' & at_ & Hr' & Ht & Hm); [by eapply matching_all|]. simplify_eq. by exists at_.
  - intros i r Hr Hst. rewrite Hout; [done|]. intros (r' & Hr' & Hst' & _)%matching_elem. by simplify_eq.
  - intros i Hn. rewrite Hout; [done|]. intros (r' & Hr' & _)%matching_elem. by rewrite Hn in Hr'.
Qed.
Lemma recoverable_op op : operation_recoverable op = true -> op = ASSET_INGEST_COPY_V1 \/ op = ASSET_MATERIALIZE_V1.
Proof. unfold operation_recoverable. intros [E|E]%orb_true_iff; apply bool_decide_eq_true in E; auto. Qed.
Lemma recovered_row (context : StoreContext) (m m' : gmap Id CommandRow) (i : Id) r' :
  map_Forall (fun i r => c_command_id r = i /\ valid_row r) m -> recoverable context m -> all_recovered m m' -> m' !! i = Some r' ->
  c_command_id r' = i /\ valid_row r' /\ (c_state r' = RECOVERY_REQUIRED -> ready context RecoveryRequired i r').
Proof.
  intros Hok Hrec (Hc & Hn & Hno) Hr'. destruct (m !! i) as [r|] eqn:Er; [|by rewrite (Hno _ Er) in Hr'].
  destruct (Hok _ _ Er) as [Hi Hv]. destruct (decide (c_state r = CLAIMED)) as [Hst|Hst].
  - destruct (Hc _ _ Er Hst) as (at_ & Hat & Hm). rewrite Hm in Hr'. injection Hr' as <-.
    destruct (Hrec _ _ Er (or_introl Hst)) as (Hu & Hop & _).
    assert (valid_row (marked_row RECOVERY_REQUIRED StorageConfigurationError at_ r)) as Hv'.
    { apply marked_valid; try done. destruct (recoverable_op _ Hop) as [-> | ->]; [left|right]; auto. }
    split_and!; [done..|]. intros _. by split_and!.
  - rewrite (Hn _ _ Er Hst) in Hr'. injection Hr' as <-. split_and!; [done..|]. intros Hst'.
    destruct (Hrec _ _ Er (or_intror Hst')) as (Hu & Hop & _). by split_and!.
Qed.
Lemma recovered_dom m m' : all_recovered m m' -> dom m' = dom m.
Proof.
  intros (Hc & Hn & Hno). apply set_eq. intros i. rewrite !elem_of_dom. destruct (m !! i) as [r|] eqn:Er.
  - destruct (decide (c_state r = CLAIMED)) as [Hst|Hst]; [destruct (Hc _ _ Er Hst) as (? & _ & ->)|rewrite (Hn _ _ Er Hst)]; done.
  - by rewrite (Hno _ Er).
Qed.
Lemma top_checked l b : ledger_ok l -> top (commands l) = Some b -> check_id (Some b) = Ok tt.
Proof.
  intros Hok Hb. unfold top in Hb. apply last_Some in Hb as [k Hk].
  assert (b ∈ map fst (map_to_list (commands l))) as Hin by (apply btree_collect_elem; rewrite Hk; set_solver).
  apply in_keys in Hin as [r Hr]. destruct (Hok _ _ Hr) as [<- Hv]. by apply valid_row_iff in Hv as [[] _].
Qed.
Lemma empty_run control context tick l fuel :
  calm control -> top (commands l) = None ->
  exists t2, all_recovered (commands l) (commands l) /\
    classify_with_clock (S fuel) control context (tick, l) = (Ok (Some (blen (waiting (commands l)))), (t2, with_commands l (commands l))).
Proof.
  intros Hcalm Hb. destruct (empty_scan control context fuel Claimed 0 (S (S (S (S (S tick))))) l Hcalm ltac:(done)) as [t1 H1].
  destruct (empty_scan control context fuel RecoveryRequired 0 t1 l Hcalm ltac:(done)) as [t2 H2].
  pose proof (capture_empty control (S (S tick)) l Hcalm Hb) as Hcap. apply top_None in Hb.
  exists t2. split; [rewrite Hb; split_and!; set_solver|]. rewrite with_commands_id.
  replace (blen (waiting (commands l))) with 0 by (by rewrite Hb).
  eapply classify_run; [done|apply interrupt_run; [done|exact Hcap]|]. exists t1. split; [exact H1|exact H2].
Qed.
End facts.


(** The startup classification ends: with one more step than the ledger has rows,
    for whatever the ledger holds and whatever the control and the clock answer, neither
    of its page loops runs out of steps; it returns a count or an error.  Each page that
    is not the last one names a later command of the ledger. *)
Theorem startup_classification_ends `{StoreEnv} (control : Control) (context : StoreContext) (tick : nat) (l : Library) (more : nat) :
  forall s', classify_with_clock (S (size (commands l)) + more) control context (tick, l) <> (Ok None, s').
Proof.
  intros s' Hr. set (fuel := (S (size (commands l)) + more)%nat) in Hr. assert (size (commands l) < fuel)%nat as Hf by (unfold fuel; lia).
  clearbody fuel. assert (size (above None (dom (commands l))) < fuel)%nat as Hs.
  { rewrite <- size_dom in Hf. eapply Nat.le_lt_trans; [|exact Hf]. apply subseteq_size. unfold above. set_solver. }
  unfold classify_with_clock in Hr. apply bind_ok in Hr as (? & s1 & E1%checkpoint_ok & Hr).
  apply bind_ok in Hr as (b & s2 & (s3 & s4 & E3 & Hb & E4)%interrupt_ok & Hr).
  assert (s4.2 = s3.2) as E.
  { unfold capture_startup_mutation_boundary in Hb. apply bind_ok in Hb as (? & s5 & E5%checkpoint_ok & Hb).
    apply bind_ok in Hb as (l5 & s6 & Hl & Hb). injection Hl as <- <-. case_match; [|by injection Hb as _ <-].
    apply bind_ok in Hb as (? & ? & [_ ->]%lift_ok & Hb). by injection Hb as _ <-. }
  apply bind_ok in Hr as (? & s5 & E5%checkpoint_ok & Hr). assert (s5.2 = l) as El by (cbn in *; congruence).
  apply bind_ok in Hr as (count & s6 & Hc & Hr). apply classify_state_ends in Hc as Hd; [|by rewrite El].
  destruct count as [count|].
  - revert Hr. apply classify_state_ends. by rewrite Hd, El.
  - revert Hc. apply classify_state_ends. by rewrite El.
Qed.

(** C13: an undisturbed startup classification of a valid ledger whose unsettled rows are
    the owner's ingests and materializations, none of them claimed by the present runtime,
    succeeds.  Every row that was CLAIMED is then RECOVERY_REQUIRED with the code
    STORAGE_CONFIGURATION_ERROR and otherwise as before, every other row is unchanged, no
    row is added or removed, the ledger is still valid, and the count it returns is the
    number of rows that now wait for recovery. *)
Theorem startup_recovers_interrupted `{StoreEnv} (control : Control) (context : StoreContext) (tick : nat) (l : Library) (more : nat) :
  calm control -> ledger_ok l -> recoverable context (commands l) -> Z.of_nat (size (commands l)) <= U64_MAX ->
  exists tick' m', classify_with_clock (S (size (commands l)) + more) control context (tick, l)
      = (Ok (Some (blen (waiting m'))), (tick', with_commands l m')) /\
    all_recovered (commands l) m' /\ ledger_ok (with_commands l m').
Proof.
  intros Hcalm Hok Hrec Hsize. set (fuel := (size (commands l) + more)%nat). change (S (size (commands l)) + more)%nat with (S fuel).
  assert (forall m', all_recovered (commands l) m' -> ledger_ok (with_commands l m')) as Hledger.
  { intros m' Ha i r Hr. by destruct (recovered_row context _ _ _ _ Hok Hrec Ha Hr) as (? & ? & _). }
  destruct (top (commands l)) as [b|] eqn:Hb; cycle 1.
  { destruct (empty_run control context tick l fuel Hcalm Hb) as (t2 & Ha & Hrun). exists t2, (commands l). split_and!; auto. }
  pose proof (top_checked l b Hok Hb) as Hid.
  assert (all_ready context b Claimed None (commands l)) as Hready.
  { intros i r (r' & Hr' & Hst & _)%matching_elem Hr. simplify_eq. destruct (Hok _ _ Hr'), (Hrec _ _ Hr' (or_introl Hst)) as (? & ? & ?).
    split_and!; auto. }
  pose proof (matching_size (commands l) CLAIMED b None) as Hsz.
  destruct (claimed_scan control context Hcalm b (S fuel) None 0 (S (S (S (S (S tick))))) l Hready) as (t1 & m1 & H1 & Hrec1);
    [done|done|unfold fuel; lia|].
  pose proof (recovered_all _ _ _ Hb Hrec1) as Ha. pose proof (Hledger _ Ha) as Hok1.
  pose proof (recovered_dom _ _ Ha) as Hdom.
  assert (blen (matching m1 RECOVERY_REQUIRED b None) = blen (waiting m1)) as Hwait.
  { apply matching_waiting. intros i r Hr. apply elem_of_dom_2 in Hr. rewrite Hdom in Hr. apply elem_of_dom in Hr as [r0 Hr0].
    by eapply top_within. }
  pose proof (matching_size m1 RECOVERY_REQUIRED b None) as Hsz1. rewrite <- (size_dom m1), Hdom, size_dom in Hsz1.
  destruct (counted_scan control context Hcalm b (S fuel) None 0 t1 (with_commands l m1)) as [t2 H2].
  - intros i r (r' & Hr' & Hst & _)%matching_elem Hr. simplify_eq.
    destruct (recovered_row context _ _ _ _ Hok Hrec Ha Hr') as (_ & _ & Hx). by apply Hx.
  - done.
  - done.
  - change (commands (with_commands l m1)) with m1. unfold blen. lia.
  - change (commands (with_commands l m1)) with m1. unfold fuel. lia.
  - change (commands (with_commands l m1)) with m1 in H2. rewrite Hwait, Z.add_0_l in H2.
    exists t2, m1. split_and!; [|done..]. eapply classify_run; [done|apply interrupt_run; [done|by apply capture_run]|]. exists t1. split; [exact H1|exact H2].
Qed.

#[local] Existing Instance Scenario.env.
Definition quiet : Control := {|
  checkpoint_at := fun _ => Continue; register_interrupt := fun _ => Some Continue; clear_interrupt := fun _ => true;
  clock_now := fun _ => Some Scenario.now |}.
Definition claims_made : list (StoreContext * AssetOp) :=
  [(Scenario.ctx, AssetScenario.claim); (Scenario.ctx, ClaimMaterialization AssetScenario.materialize)].
(** Two commands the runtime 1 has claimed and not settled. *)
Definition interrupted : Library := run AssetScenario.empty claims_made.

Lemma quiet_calm : calm quiet.
Proof. constructor; try done. intros n. exists Scenario.now. split; [done|apply AssetHistory.scenario_time]. Qed.
Lemma interrupted_ok : ledger_ok interrupted.
Proof.
  apply AssetHistory.run_ok; [|apply map_Forall_empty]. unfold AssetHistory.well_formed, claims_made.
  repeat (apply Forall_cons_2; [split; [apply AssetHistory.scenario_context|
    split; [apply AssetHistory.scenario_binding; cbn; set_solver|apply AssetHistory.scenario_time]]|]).
  apply Forall_nil_2.
Qed.
Definition recoverable_row (r : CommandRow) : bool :=
  (c_principal_uid r =? 1000) && operation_recoverable (c_operation_id r) && negb (bool_decide (c_runtime_id r = Scenario.id 2)).
Lemma interrupted_recoverable : recoverable AssetScenario.ctx2 (commands interrupted).
Proof.
  assert (forallb (fun '(_, r) => recoverable_row r) (map_to_list (commands interrupted)) = true) as Hall by (vm_compute; reflexivity).
  rewrite forallb_forall in Hall. intros i r Hr _. specialize (Hall (i, r)). apply elem_of_map_to_list, list_elem_of_In in Hr.
  apply Hall in Hr. unfold recoverable_row in Hr. bool_hyps. by split_and!.
Qed.

Lemma startup_recovers_interrupted_witness :
  fst (classify_with_clock 3 quiet AssetScenario.ctx2 (0%nat, interrupted)) = Ok (Some 2) /\
  exists tick' m', classify_with_clock 3 quiet AssetScenario.ctx2 (0%nat, interrupted)
      = (Ok (Some (blen (waiting m'))), (tick', with_commands interrupted m')) /\
    all_recovered (commands interrupted) m' /\ ledger_ok (with_commands interrupted m').
Proof.
  split; [vm_compute; reflexivity|]. change 3%nat with (S (size (commands interrupted)) + 0)%nat.
  apply (startup_recovers_interrupted quiet AssetScenario.ctx2 0 interrupted 0 quiet_calm interrupted_ok interrupted_recoverable).
  vm_compute. discriminate.
Defined.
End StartupFacts.
