(* ===== verification/AppRuntime.v ===== *)
(** What the application services run against: the single writer behind its admission
    gate (lifecycle.rs and the [submit] of asset_repository.rs), the caller's control,
    the clock and the identity source, and the claim guards of
    mengxia-app/src/asset_persistence.rs.

    The daemon runs a service on a worker thread to its end, so a future is never
    dropped half way.  Before each call of a service the writer may have executed any
    operations of other sessions; a call may be refused at the gate, or its transaction
    may fail and be rolled back. *)
From Stdlib Require Import ZArith Lia String.
From Stdlib Require Import Strings.Byte Init.Byte.
From stdpp Require Import prelude list gmap.
From S2P Require Import Prelude RustText Types AssetDomain CreativeDomain Ports CommandLedger CreativeStore AssetStore AssetCommands AssetLedger AssetSequences StartupRecovery.

Set Warnings "-clear-no-such-hyp".

Module Runtime.
Import Ports Ledger Assets AssetOps AssetLedger AssetSequences.

Inductive StoreError :=
| StConfiguration | StIdGenerationUnavailable | StBusy | StIo | StCorruption | StConflict | StBackpressure | StInternal
| StShuttingDown.
Definition map_store_error (e : StoreError) : AssetStoreError :=
  match e with
  | StConfiguration => SeStorageConfiguration
  | StIdGenerationUnavailable => SeIdGenerationUnavailable
  | StBusy => SeStorageBusy
  | StIo => SeStorageIo
  | StCorruption => SeStorageCorruption
  | StConflict => SeConflict
  | StBackpressure => SeBackpressure
  | StShuttingDown => SeShuttingDown
  | StInternal => SeInternal
  end.

(** [AdmissionGate]: [Failed] is the flag [w_failed]; a refusal is a full queue or a
    shutdown. *)
Inductive Refusal := QueueFull | ShuttingDown.
Definition refused (r : Refusal) : StoreError := match r with QueueFull => StBackpressure | ShuttingDown => StShuttingDown end.

(** The library, whether the runtime has failed, whether the claim guard of this
    execution is armed, the admission registry of the ingest service, and the number
    of the next outside call. *)
Record World := {
  w_library : Library; w_failed : bool; w_armed : bool; w_bindings : gmap Id (list byte); w_executions : Z; w_tick : nat }.
Definition with_library (w : World) x := {|
  w_library := x; w_failed := w_failed w; w_armed := w_armed w; w_bindings := w_bindings w; w_executions := w_executions w;
  w_tick := w_tick w |}.
Definition with_failed (w : World) x := {|
  w_library := w_library w; w_failed := x; w_armed := w_armed w; w_bindings := w_bindings w; w_executions := w_executions w;
  w_tick := w_tick w |}.
Definition with_armed (w : World) x := {|
  w_library := w_library w; w_failed := w_failed w; w_armed := x; w_bindings := w_bindings w; w_executions := w_executions w;
  w_tick := w_tick w |}.
Definition with_admission (w : World) x y := {|
  w_library := w_library w; w_failed := w_failed w; w_armed := w_armed w; w_bindings := x; w_executions := y; w_tick := w_tick w |}.
Definition ticked (w : World) := {|
  w_library := w_library w; w_failed := w_failed w; w_armed := w_armed w; w_bindings := w_bindings w;
  w_executions := w_executions w; w_tick := S (w_tick w) |}.

(** What happens outside, by the number of the call. *)
Record Outside := {
  o_checkpoint : nat -> Startup.IngestDirective; o_now : nat -> option Timestamp; o_next_id : nat -> option Id;
  o_others : nat -> list AssetOp; o_refusal : nat -> option Refusal; o_breakdown : nat -> option StoreError }.

(** Services: an early return is an error of type [E]. *)
Definition App (E A : Type) : Type := World -> result E A * World.
#[global] Instance App_ret {E} : MRet (App E) := fun A a w => (Ok a, w).
#[global] Instance App_bind {E} : MBind (App E) :=
  fun A B k m w => match m w with (Ok a, w') => k a w' | (Err e, w') => (Err e, w') end.
Definition throw {E A} (e : E) : App E A := fun w => (Err e, w).
Definition from_result {E A} (r : result E A) : App E A := fun w => (r, w).
Definition ask {E A} (f : nat -> A) : App E A := fun w => (Ok (f (w_tick w)), ticked w).
Definition modify {E} (f : World -> World) : App E () := fun w => (Ok tt, f w).

Section runtime.
Context `{StoreEnv} (context : StoreContext) (env : Outside).

(** [fail_current_runtime] and the drop of a claim guard. *)
Definition fail_current_runtime {E} : App E () := modify (fun w => with_failed w true).
Definition drop_guard (w : World) : World := if w_armed w then with_armed (with_failed w true) false else w.

(** [SqliteAssetStoreHandle::submit] of an operation that returns a value. *)
Definition submit {E A} (operation : Library -> res (A * Library)) : App E (res A) := fun w =>
  let t := w_tick w in
  if w_failed w then (Ok (Err SeInternal), ticked w)
  else
    let l := run (w_library w) (map (pair context) (o_others env t)) in
    match o_refusal env t, o_breakdown env t with
    | Some r, _ => (Ok (Err (map_store_error (refused r))), ticked (with_library w l))
    | None, Some e => (Ok (Err (map_store_error e)), ticked (with_failed (with_library w l) (fatal (map_store_error e))))
    | None, None =>
        match operation l with
        | Ok (a, l') => (Ok (Ok a), ticked (with_library w l'))
        | Err e => (Ok (Err e), ticked (with_failed (with_library w l) (fatal e)))
        end
    end.
Definition now {E} : App E (option Timestamp) := ask (o_now env).
Definition next_id {E} : App E (option Id) := ask (o_next_id env).
End runtime.
End Runtime.
