(* ===== verification/IngestService.v ===== *)
(** [IngestAssetCopyService]: mengxia-app/src/ingest.rs, with the guard of
    asset_persistence.rs.  Blob storage is a port: what opening the source and storing
    its bytes return are parameters. *)
From Stdlib Require Import ZArith Lia String.
From Stdlib Require Import Strings.Byte Init.Byte.
From stdpp Require Import prelude list gmap.
From S2P Require Import Prelude RustText Types AssetDomain CreativeDomain Ports CommandLedger CreativeStore AssetStore AssetCommands AssetLedger StartupRecovery AppRuntime.

Set Warnings "-clear-no-such-hyp".

Module Ingest.
Import Ports Ledger Assets AssetOps Startup Runtime.

Record IngestAssetCopyRequest := {
  iq_command_id : Id; iq_source_path : list byte; iq_asset_kind : list byte; iq_content_kind : list byte;
  iq_representation_purpose : list byte; iq_resource_kind : list byte; iq_logical_name : list byte;
  iq_expected_digest : option (list byte) }.
Record IngestAssetCopyResult := {
  ir_asset_id : Id; ir_asset_revision_id : Id; ir_representation_id : Id; ir_resource_id : Id; ir_location_id : Id;
  ir_blob_digest : list byte }.
Inductive IngestRetry :=
| No | SameCommandAfterBoundedDelay | FreshCommandAfterBoundedDelay | AfterSourceStabilizesWithSameCommand
| AfterSourceStabilizesWithFreshCommand | AfterOperatorOrRuntimeAction.
Inductive IngestAssetExecutionError := Respond (code : ErrorCode) (retry : IngestRetry) | RuntimeFailed.
Abbreviation I := (App IngestAssetExecutionError).

Inductive BlobSourceError := SrcInvalidPath | SrcUnsupportedType | SrcIo | SrcModified.
Inductive BlobStorageError :=
| BsValidation | BsSourceModified | BsIo | BsCorruption | BsConfiguration | BsRecoveryRequired | BsConflict
| BsBackpressure | BsEntropyUnavailable | BsStagingNamespaceUnavailable | BsCleanupFailed | BsShuttingDown | BsInternal.
Inductive IngestOutcome := BlobStored (blob : DurableBlob) | BlobStopped (stop : IngestStop).
(** The two calls of the storage port, for the request that is executed. *)
Record Storage := { open_source : list byte -> option BlobSourceError; ingest : option (list byte) -> result BlobStorageError IngestOutcome }.

Record IngestAdmissionLimits := { binding_capacity : Z; execution_capacity : Z }.
Definition admission_limits_new (binding execution : Z) : option IngestAdmissionLimits :=
  if (binding =? 0) || (execution =? 0) then None else Some {| binding_capacity := binding; execution_capacity := execution |}.

(** ** Pure parts *)

Definition valid_component (c : list byte) : bool :=
  negb (bool_decide (c = [])) && negb (bool_decide (c = bs ".")) && negb (bool_decide (c = bs "..")).
(** [slice::split]. *)
Fixpoint split_slash (l : list byte) : list (list byte) :=
  match l with
  | [] => [[]]
  | b :: t => if bool_decide (b = x2f) then [] :: split_slash t
              else match split_slash t with c :: cs => (b :: c) :: cs | [] => [[b]] end
  end.
Definition validate_source_selector (path : list byte) : result IngestAssetExecutionError () :=
  if (1 <=? blen path) && (blen path <=? 1023) && negb (bool_decide (x00 ∈ path)) && bool_decide (head path = Some x2f)
     && (1 <? blen path) && negb (bool_decide (last path = Some x2f)) && forallb valid_component (split_slash (tail path))
  then Ok tt else Err (Respond ValidationError No).

Definition stop_failure (stop : IngestStop) (retry : IngestRetry) : IngestAssetExecutionError :=
  Respond (match stop with Cancelled => OperationCancelled | DeadlineReached => DeadlineExceeded end) retry.
(** [RetryStage]: what a stop means before and after the claim. *)
Definition PreClaim : IngestRetry := SameCommandAfterBoundedDelay.
Definition PostClaim : IngestRetry := FreshCommandAfterBoundedDelay.

Definition map_source_error (e : BlobSourceError) : IngestAssetExecutionError :=
  match e with
  | SrcInvalidPath | SrcUnsupportedType => Respond ValidationError No
  | SrcIo => Respond StorageIoError SameCommandAfterBoundedDelay
  | SrcModified => Respond SourceModifiedDuringIngest AfterSourceStabilizesWithSameCommand
  end.
Definition map_claim_error (e : AssetStoreError) : IngestAssetExecutionError :=
  match e with
  | SeValidation => Respond ValidationError No
  | SeConflict => Respond Conflict No
  | SeIdGenerationUnavailable => Respond IdGenerationUnavailable AfterOperatorOrRuntimeAction
  | SeStorageBusy => Respond StorageBusy SameCommandAfterBoundedDelay
  | SeStorageConfiguration => Respond StorageConfigurationError AfterOperatorOrRuntimeAction
  | SeBackpressure => Respond Backpressure SameCommandAfterBoundedDelay
  | SeShuttingDown => Respond StorageIoError AfterOperatorOrRuntimeAction
  | _ => RuntimeFailed
  end.
Definition retry_for_terminal (code : ErrorCode) : IngestRetry :=
  match code with
  | SourceModifiedDuringIngest => AfterSourceStabilizesWithFreshCommand
  | ValidationError | StorageIoError | Backpressure | DeadlineExceeded | OperationCancelled => FreshCommandAfterBoundedDelay
  | _ => AfterOperatorOrRuntimeAction
  end.
(** The table of [finish_storage_error]; [None] ends the runtime. *)
Definition storage_disposition (e : BlobStorageError) : option (Disposition * IngestAssetExecutionError) :=
  let terminal code retry := Some (DispTerminalRejected code, Respond code retry) in
  match e with
  | BsValidation => terminal ValidationError FreshCommandAfterBoundedDelay
  | BsSourceModified => terminal SourceModifiedDuringIngest AfterSourceStabilizesWithFreshCommand
  | BsIo => terminal StorageIoError FreshCommandAfterBoundedDelay
  | BsCorruption => terminal StorageCorruption AfterOperatorOrRuntimeAction
  | BsConfiguration => terminal StorageConfigurationError AfterOperatorOrRuntimeAction
  | BsBackpressure => terminal Backpressure FreshCommandAfterBoundedDelay
  | BsEntropyUnavailable => terminal IdGenerationUnavailable AfterOperatorOrRuntimeAction
  | BsRecoveryRequired | BsStagingNamespaceUnavailable =>
      Some (DispRecoveryRequired StorageConfigurationError, Respond StorageConfigurationError AfterOperatorOrRuntimeAction)
  | BsConflict | BsCleanupFailed | BsShuttingDown | BsInternal => None
  end.
Definition result_from_command (r : Store.CommandResult) : result IngestAssetExecutionError IngestAssetCopyResult :=
  match r with
  | Store.ManagedRegistration a v n s l d =>
      Ok {| ir_asset_id := a; ir_asset_revision_id := v; ir_representation_id := n; ir_resource_id := s; ir_location_id := l;
            ir_blob_digest := d |}
  | _ => Err RuntimeFailed
  end.

Section service.
Context `{StoreEnv} (context : StoreContext) (env : Outside) (storage : Storage) (limits : IngestAdmissionLimits).

(** ** Request digest *)

Definition tlv (tag : Z) (value : list byte) : list byte :=
  [z2b tag] ++ be_bytes 4 (match try_into U32_MAX (blen value) with Some n => n | None => U32_MAX end) ++ value.
Definition source_selector_digest (path : list byte) : list byte :=
  sha256 (bs "MENGXIA_SOURCE_SELECTOR_V1" ++ [x00] ++ be_bytes 2 (blen path) ++ path).
Definition expected_field (d : option (list byte)) : list byte := match d with Some v => x01 :: v | None => [x00] end.
(** The bytes the digest is taken of. *)
Definition request_preimage (r : IngestAssetCopyRequest) : list byte :=
  bs "MENGXIA_ASSET_INGEST_COPY_REQUEST_V1" ++ [x00] ++ tlv 1 (bs "COPY_V1") ++ tlv 2 (source_selector_digest (iq_source_path r))
  ++ tlv 3 (iq_asset_kind r) ++ tlv 4 (iq_content_kind r) ++ tlv 5 (iq_representation_purpose r) ++ tlv 6 (iq_resource_kind r)
  ++ tlv 7 (iq_logical_name r) ++ tlv 8 [x00] ++ tlv 9 (expected_field (iq_expected_digest r)).
Definition canonical_request_digest (r : IngestAssetCopyRequest) : list byte := sha256 (request_preimage r).

(** ** Guarded steps *)

Definition checkpoint (retry : IngestRetry) : I () :=
  d ← ask (o_checkpoint env);
  match d with Continue => mret tt | Stop stop => throw (stop_failure stop retry) end.

(** [AdmissionOwner]: acquired for the rest of the execution, released at its end. *)
Definition acquire (binding : CommandBinding) : I () := fun w =>
  match w_bindings w !! cb_command_id binding with
  | Some existing =>
      if bool_decide (existing = cb_canonical_request_digest binding)
      then (Err (Respond CommandInProgress SameCommandAfterBoundedDelay), w) else (Err (Respond Conflict No), w)
  | None =>
      if (binding_capacity limits <=? Z.of_nat (size (w_bindings w))) || (execution_capacity limits <=? w_executions w)
      then (Err (Respond Backpressure SameCommandAfterBoundedDelay), w)
      else (Ok tt, Runtime.with_admission w (<[cb_command_id binding := cb_canonical_request_digest binding]> (w_bindings w)) (w_executions w + 1))
  end.
Definition release (binding : CommandBinding) (w : World) : World :=
  Runtime.with_admission w (delete (cb_command_id binding) (w_bindings w)) (saturating_sub (w_executions w) 1).
Definition releasing {A} (binding : CommandBinding) (m : I A) : I A := fun w => let '(r, w) := m w in (r, release binding w).
Definition while_admitted {A} (binding : CommandBinding) (m : I A) : I A := _ ← acquire binding; releasing binding m.

(** [AssetPersistenceService::claim_external]: the guard is armed around the call. *)
Definition persistence_claim (request : ExternalIngestClaim) : I ExternalClaimOutcome :=
  _ ← modify (fun w => with_armed w true);
  r ← submit context env (fun l => claim_external l context request);
  match r with
  | Ok ClaimClaimed => mret ClaimClaimed
  | Ok outcome => _ ← modify (fun w => with_armed w false); mret outcome
  | Err e => _ ← modify (fun w => with_armed w false); throw (map_claim_error e)
  end.
Definition guard_complete (request : ExternalIngestCompletion) : I (res Store.MutationOutcome) :=
  r ← submit context env (fun l => complete_external l context request);
  _ ← modify (fun w => match r with Ok _ => with_armed w false | Err _ => w end);
  _ ← modify drop_guard; mret r.
Definition guard_finish (request : ExternalIngestDisposition) : I (res ExternalDispositionOutcome) :=
  r ← submit context env (fun l => finish_external l context request);
  _ ← modify (fun w => match r with Ok _ => with_armed w false | Err _ => w end);
  _ ← modify drop_guard; mret r.

Definition finish_disposition {A} (binding : CommandBinding) (d : Disposition) (observed_at : Timestamp)
    (failure : IngestAssetExecutionError) : I A :=
  request ← from_result (map_err (fun _ => RuntimeFailed) (external_ingest_disposition_new binding d observed_at));
  let '(_, expected_code) := disposition_parts d in
  r ← guard_finish request;
  match r with
  | Err _ => throw RuntimeFailed
  | Ok Stored => throw failure
  | Ok (DispositionReplay code) =>
      if bool_decide (code = expected_code) then throw failure
      else _ ← fail_current_runtime; throw RuntimeFailed
  end.
Definition runtime_now : I Timestamp :=
  t ← now env; from_result (ok_or RuntimeFailed t).
Definition finish_stop {A} (binding : CommandBinding) (failure : IngestAssetExecutionError) : I A :=
  match failure with
  | Respond code _ => observed_at ← runtime_now; finish_disposition binding (DispTerminalRejected code) observed_at failure
  | RuntimeFailed => throw failure
  end.
Definition finish_storage_error {A} (binding : CommandBinding) (e : BlobStorageError) : I A :=
  match storage_disposition e with
  | None => throw RuntimeFailed
  | Some (d, failure) => observed_at ← runtime_now; finish_disposition binding d observed_at failure
  end.

(** [registration_ids]: the first failure ends the sampling. *)
Fixpoint registration_ids (n : nat) : I (option (list Id)) :=
  match n with
  | O => mret (Some [])
  | S n =>
      i ← next_id env;
      match i with
      | None => mret None
      | Some i => rest ← registration_ids n; mret (option_map (cons i) rest)
      end
  end.
Definition plan_of (request : IngestAssetCopyRequest) (a v n s loc : Id) : ManagedRegistrationPlan := {|
  mp_asset_id := a; mp_asset_kind := iq_asset_kind request; mp_asset_revision_id := v; mp_content_kind := iq_content_kind request;
  mp_representation_id := n; mp_representation_purpose := iq_representation_purpose request; mp_resource_id := s;
  mp_resource_kind := iq_resource_kind request; mp_logical_name := iq_logical_name request; mp_media_type := None;
  mp_candidate_location_id := loc |}.

Definition answer {A} (r : result IngestAssetExecutionError A) : I A :=
  _ ← match r with Err _ => fail_current_runtime | Ok _ => mret tt end; from_result r.
Definition complete (binding : CommandBinding) (request : IngestAssetCopyRequest) (blob : DurableBlob) : I IngestAssetCopyResult :=
  completed_at ← runtime_now;
  ids ← registration_ids 7;
  match ids with
  | Some [a; v; n; s; loc; d; p] =>
      if negb (pairwise_unique [a; v; n; s; loc; d; p])
      then finish_disposition binding (DispRecoveryRequired IdGenerationUnavailable) completed_at
             (Respond IdGenerationUnavailable AfterOperatorOrRuntimeAction)
      else
        completion ← from_result (map_err (fun _ => RuntimeFailed)
          (external_ingest_completion_new binding blob (plan_of request a v n s loc) d p completed_at));
        r ← guard_complete completion;
        match r with
        | Ok (Store.Applied r) | Ok (Store.Replay r) => answer (result_from_command r)
        | Ok (Store.RecoveryRequired code) => throw (Respond code AfterOperatorOrRuntimeAction)
        | Ok (Store.TerminalRejected _) | Err _ => _ ← fail_current_runtime; throw RuntimeFailed
        end
  | _ => finish_disposition binding (DispRecoveryRequired IdGenerationUnavailable) completed_at
           (Respond IdGenerationUnavailable AfterOperatorOrRuntimeAction)
  end.

(** What follows the claim; the guard is dropped at the end at the latest. *)
Definition after_claim (binding : CommandBinding) (request : IngestAssetCopyRequest) : I IngestAssetCopyResult :=
  d ← ask (o_checkpoint env);
  match d with
  | Stop stop => finish_stop binding (stop_failure stop PostClaim)
  | Continue =>
      match ingest storage (iq_expected_digest request) with
      | Ok (BlobStored blob) => complete binding request blob
      | Ok (BlobStopped stop) => finish_stop binding (stop_failure stop PostClaim)
      | Err e => finish_storage_error binding e
      end
  end.
Definition dropping_guard {A} (m : I A) : I A := fun w => let '(r, w) := m w in (r, drop_guard w).

Definition binding_for (request : IngestAssetCopyRequest) : CommandBinding := {|
  cb_command_id := iq_command_id request; cb_operation_id := ASSET_INGEST_COPY_V1;
  cb_canonical_request_digest := canonical_request_digest request |}.

Definition execute (request : IngestAssetCopyRequest) : I IngestAssetCopyResult :=
  _ ← checkpoint PreClaim;
  _ ← from_result (validate_source_selector (iq_source_path request));
  _ ← match open_source storage (iq_source_path request) with None => mret tt | Some e => throw (map_source_error e) end;
  _ ← checkpoint PreClaim;
  let binding := binding_for request in
  while_admitted binding (
    _ ← checkpoint PreClaim;
    t ← now env;
    claimed_at ← from_result (ok_or (Respond IdGenerationUnavailable AfterOperatorOrRuntimeAction) t);
    claim ← from_result (map_err (fun _ => RuntimeFailed) (external_ingest_claim_new binding claimed_at));
    outcome ← persistence_claim claim;
    match outcome with
    | ClaimClaimed => dropping_guard (after_claim binding request)
    | ClaimInProgress => throw (Respond CommandInProgress SameCommandAfterBoundedDelay)
    | ClaimReplay r => answer (result_from_command r)
    | ClaimTerminalRejected code => throw (Respond code (retry_for_terminal code))
    | ClaimRecoveryRequired code => throw (Respond code AfterOperatorOrRuntimeAction)
    end).
End service.
End Ingest.
