(* ===== verification/ServiceRules.v ===== *)
(** How the services of mengxia-app are reasoned about: postconditions of service code,
    what a call of the store may do while other sessions work, what other sessions keep
    of a row, what the guarded calls leave, and what the external operations record in
    the row of their command. *)
From Stdlib Require Import ZArith Lia String.
From Stdlib Require Import Strings.Byte Init.Byte.
From stdpp Require Import prelude list gmap sorting.
From S2P Require Import Prelude RustText Types AssetDomain CreativeDomain Ports CommandLedger CreativeStore StoreScenario AssetStore AssetCommands CommandRows AssetLedger AssetScenario AssetHistory AssetSequences StartupRecovery AppRuntime.

Set Warnings "-clear-no-such-hyp".

Module Rules.
Import Ports Ledger Assets AssetOps Rows AssetLedger AssetHistory AssetSequences Startup Runtime.

(** ** Weakest preconditions *)

Definition wp {E A} (m : App E A) (Q : result E A -> World -> Prop) (w : World) : Prop := Q (m w).1 (m w).2.
Lemma wp_bind {E A B} (m : App E A) (k : A -> App E B) Q w :
  wp m (fun r w' => match r with Ok a => wp (k a) Q w' | Err e => Q (Err e) w' end) w -> wp (m ≫= k) Q w.
Proof. unfold wp, mbind, App_bind. by destruct (m w) as [[a|e] w']. Qed.
Lemma wp_mono {E A} (m : App E A) (P Q : result E A -> World -> Prop) w :
  wp m P w -> (forall r w', P r w' -> Q r w') -> wp m Q w.
Proof. unfold wp. auto. Qed.

Lemma run_app `{StoreEnv} l ops ops' : run l (ops ++ ops') = run (run l ops) ops'.
Proof. apply foldl_app. Qed.

(** The admission registry is as in [w]. *)
Definition same_book (w w' : World) : Prop := w_bindings w' = w_bindings w /\ w_executions w' = w_executions w.

Section facts.
Context `{StoreEnv} (context : StoreContext) (env : Outside) (i : Id).
Definition row_of (w : World) : option CommandRow := commands (w_library w) !! i.

(** The other sessions issue asset requests as their constructors make them; they may name
    any command, this one included. *)
Definition others_ok : Prop := forall t op, op ∈ o_others env t -> op_ok op.
(** Between [w] and [w'] only other sessions have written: the library is what their
    operations, in the order of the calls, made of it. *)
Definition untouched (w w' : World) : Prop :=
  (w_tick w <= w_tick w')%nat /\
  exists ts, StronglySorted lt ts /\ Forall (fun t => w_tick w <= t < w_tick w')%nat ts /\
    w_library w' = run (w_library w) (map (pair context) (ts ≫= o_others env)).

Lemma untouched_same w w' : (w_tick w <= w_tick w')%nat -> w_library w' = w_library w -> untouched w w'.
Proof. intros Ht Hl. split; [done|]. exists []. split; [constructor|]. by split. Qed.
Lemma untouched_refl w : untouched w w.
Proof. by apply untouched_same. Qed.
Lemma untouched_trans w1 w2 w3 : untouched w1 w2 -> untouched w2 w3 -> untouched w1 w3.
Proof.
  intros (H12 & ts & Hs & Hf & Hl) (H23 & us & Hs' & Hf' & Hl'). split; [lia|]. exists (ts ++ us). rewrite Forall_forall in Hf, Hf'.
  split_and!.
  - apply StronglySorted_app_2; [|done..]. intros x y Hx%Hf Hy%Hf'. lia.
  - apply Forall_app. rewrite !Forall_forall. split; [intros x Hx%Hf|intros x Hx%Hf']; lia.
  - by rewrite Hl', Hl, bind_app, map_app, run_app.
Qed.

(** A call of the store: refused or failed with no effect of its own, or executed on
    what the other sessions have made of the library. *)
Lemma wp_submit {E A} (operation : Library -> res (A * Library)) (Q : result E (res A) -> World -> Prop) w :
  (forall e w', same_book w w' -> w_armed w' = w_armed w -> untouched w w' ->
     (fatal e = true -> w_failed w' = true) ->
     (exists l, operation l = Err e) \/ (exists x, e = map_store_error x) -> Q (Ok (Err e)) w') ->
  (forall l a l' w', untouched w (with_library w' l) -> operation l = Ok (a, l') -> w_failed w = false ->
     same_book w w' -> w_armed w' = w_armed w -> w_library w' = l' -> w_failed w' = false -> Q (Ok (Ok a)) w') ->
  wp (submit context env operation) Q w.
Proof.
  intros Herr Hok. unfold wp, submit. destruct (w_failed w) eqn:Hf.
  { apply Herr; cbn; try done; [apply untouched_same; cbn; [lia|done]|]. right. by exists StInternal. }
  set (l := run _ _). assert (forall w', w_tick w' = S (w_tick w) -> w_library w' = l -> untouched w w') as Hl.
  { intros w' Ht Hw. split; [lia|]. exists [w_tick w]. rewrite Ht. split_and!; [repeat constructor|repeat constructor; lia|].
    rewrite Hw. cbn. by rewrite app_nil_r. }
  destruct (o_refusal env _) as [r|]; [|destruct (o_breakdown env _) as [e|]]; cbn.
  - apply Herr; cbn; try done; [by apply Hl|by destruct r|]. right. eauto.
  - apply Herr; cbn; try done; [by apply Hl|]. right. eauto.
  - destruct (operation l) as [[a l']|e] eqn:Eop; cbn.
    + eapply (Hok l); [by apply Hl|done..].
    + apply Herr; cbn; try done; [by apply Hl|]. left. eauto.
Qed.

(** ** What the operations of the store record *)

(** The row of the command is [row], sound and made for the binding [b]. *)
Definition held (b : CommandBinding) (l : Library) (row : CommandRow) : Prop :=
  commands l !! i = Some row /\ valid_row row /\ binding_matches row b (owner_uid context) = true.
(** The row is held for [b] and carries this runtime. *)
Definition owned (b : CommandBinding) (w : World) : Prop :=
  exists row, held b (w_library w) row /\ c_runtime_id row = runtime_id context.
Lemma bound_row_held l b row : cb_command_id b = i -> bound_row l context b = Ok row -> held b l row.
Proof.
  intros Hid Hr. pose proof (bound_row_ok _ _ _ _ Hr) as (Hrow & Hv & _). split; [by rewrite <- Hid|]. split; [done|].
  unfold bound_row in Hr. inv_result. match goal with E : validate_command_row _ = Ok _ |- _ => apply validated in E as [-> ?] end.
  bool_hyps. done.
Qed.
Lemma marked_held b l row state code at_ :
  cb_command_id b = i -> held b l row -> c_state row = CLAIMED -> time_ok at_ -> cb_operation_id b = ASSET_INGEST_COPY_V1 ->
  state = TERMINAL_REJECTED /\ is_external_terminal_code code = true \/
    state = RECOVERY_REQUIRED /\ is_external_recovery_code code = true ->
  exists l', update_command l (cb_command_id b) is_claimed (marked_row state code at_) = Some l' /\
    held b l' (marked_row state code at_ row).
Proof.
  intros Hid (Hrow & Hv & Hb) Hst Ht Hop Hcode. unfold update_command. rewrite Hid, Hrow. unfold is_claimed. rewrite Hst. cbn.
  eexists. split; [done|]. split; [cbn; by rewrite lookup_insert_eq|]. split; [|done]. apply marked_valid; [done..|]. left.
  split; [|done]. unfold binding_matches in Hb. bool_hyps. congruence.
Qed.
Lemma same_command_matches r r' b : same_command r r' -> binding_matches r' b (owner_uid context) = binding_matches r b (owner_uid context).
Proof. intros (H1 & H2 & H3 & H4 & H5 & _). unfold binding_matches. by rewrite H1, H2, H3, H4, H5. Qed.
Lemma effect_held b l l' row row' :
  cb_command_id b = i -> held b l row -> ledger_effect context b (commands l) (commands l') -> commands l' !! i = Some row' ->
  held b l' row'.
Proof.
  intros Hid (Hrow & Hv & Hb) He Hrow'. rewrite <- Hid in Hrow, Hrow'. split; [by rewrite <- Hid|].
  destruct He as [E|[(r & Hn & _)|(r & r' & Hr & E & Hs & _ & Hv')]]; [rewrite E in Hrow'; by simplify_eq|congruence|].
  rewrite E, lookup_insert_eq in Hrow'. simplify_eq. split; [done|]. by rewrite (same_command_matches _ _ _ Hs).
Qed.

(** Whatever other sessions do, the row stays with its command and its runtime, and a
    settled row stays as it is. *)
Definition keeps_row (row row' : CommandRow) : Prop :=
  row_le row row' /\ (c_runtime_id row = runtime_id context -> c_runtime_id row' = runtime_id context).
Lemma keeps_row_refl row : keeps_row row row.
Proof. by repeat split. Qed.
Lemma keeps_row_trans a b c : keeps_row a b -> keeps_row b c -> keeps_row a c.
Proof. intros [H1 H2] [H3 H4]. split; [|auto]. by transitivity b. Qed.
Lemma edge_runtime r r' : row_edge context r r' -> c_runtime_id r = runtime_id context -> c_runtime_id r' = runtime_id context.
Proof. destruct 1; congruence. Qed.

Lemma after_held b l op row :
  context_ok context -> op_ok op -> held b l row -> exists row', held b (after l context op) row' /\ keeps_row row row'.
Proof.
  intros Hc Hop Hh. unfold after. destruct (AssetLedger.execute l context op) as [[a l']|] eqn:E; [|exists row; auto using keeps_row_refl].
  apply asset_op_effect in E as [[He _] _]; [|done..]. destruct Hh as (Hrow & Hv & Hb).
  destruct (ledger_effect_le _ _ _ _ _ _ He Hrow) as (row' & Hrow' & Hle). exists row'.
  assert (held b l' row') as Hh by (split; [done|]; split; [|by rewrite (same_command_matches _ _ _ (proj1 Hle))];
    destruct He as [E|[(r & Hn & E & _ & Hr)|(r & r' & Hr & E & _ & _ & Hr')]]; rewrite E in Hrow';
    [by simplify_eq|apply lookup_insert_Some in Hrow' as [[_ <-]|[_ ?]]; [done|by simplify_eq]..]).
  split; [done|]. split; [done|]. destruct He as [E|[(r & Hn & E & _)|(r & r' & Hr & E & _ & Hed & _)]]; rewrite E in Hrow'.
  - by simplify_eq.
  - apply lookup_insert_Some in Hrow' as [[<- _]|[_ ?]]; [congruence|by simplify_eq].
  - apply lookup_insert_Some in Hrow' as [[<- <-]|[_ ?]]; simplify_eq; [by apply edge_runtime|done].
Qed.
Lemma run_held b ops l row :
  context_ok context -> Forall op_ok ops -> held b l row -> exists row', held b (run l (map (pair context) ops)) row' /\ keeps_row row row'.
Proof.
  intros Hc Hops. revert l row. induction Hops as [|op ops Hop _ IH]; intros l row Hh; cbn; [exists row; auto using keeps_row_refl|].
  destruct (after_held b l op row Hc Hop Hh) as (row1 & Hh1 & Hk1). destruct (IH _ _ Hh1) as (row2 & Hh2 & Hk2).
  exists row2. split; [done|]. by eapply keeps_row_trans.
Qed.
Lemma untouched_held b w w' row :
  context_ok context -> others_ok -> untouched w w' -> held b (w_library w) row ->
  exists row', held b (w_library w') row' /\ keeps_row row row'.
Proof.
  intros Hc Hok (_ & ts & _ & _ & ->) Hh. apply run_held; [done| |done]. apply Forall_forall. intros op (t & Hop & _)%list_elem_of_bind. eauto.
Qed.
Lemma untouched_owned b w w' : context_ok context -> others_ok -> untouched w w' -> owned b w -> owned b w'.
Proof. intros Hc Hok Hu (row & Hh & Hr). destruct (untouched_held b w w' row Hc Hok Hu Hh) as (row' & Hh' & _ & Hk). exists row'. auto. Qed.
Lemma claim_row_matches b at_ : binding_matches (claim_row context b at_) b (owner_uid context) = true.
Proof. unfold binding_matches. cbn. rewrite !bool_decide_eq_true_2 by done. by rewrite Z.eqb_refl. Qed.
Lemma inserted_owned b ops at_ l l' :
  context_ok context -> cb_command_id b = i -> binding_ok b ops -> ops ⊆ effect_operations -> time_ok at_ ->
  insert_claim l context b at_ = Ok l' -> exists row, held b l' row /\ c_runtime_id row = runtime_id context.
Proof.
  intros Hc Hid (H1 & H2 & H3 & Hin) Hsub Ht [_ Hl]%insert_claim_ok. exists (claim_row context b at_). split; [|done].
  split; [by rewrite Hl, <- Hid, lookup_insert_eq|]. split; [|apply claim_row_matches]. apply claim_valid; [done| |done]. split_and!; auto.
Qed.

Lemma parse_marked state code at_ r : parse_safe_code (marked_row state code at_ r) = Ok code.
Proof.
  unfold parse_safe_code, marked_row. cbn [c_safe_error_code ok_or result_bind]. by rewrite ErrorCodeText.as_str_from_str.
Qed.

Lemma claim_external_ok l r o l' :
  context_ok context -> cb_command_id (ec_binding r) = i -> binding_ok (ec_binding r) [ASSET_INGEST_COPY_V1] -> time_ok (ec_claimed_at r) ->
  claim_external l context r = Ok (o, l') ->
  match o with
  | ClaimClaimed => exists row, held (ec_binding r) l' row /\ c_runtime_id row = runtime_id context
  | ClaimInProgress => l' = l
  | ClaimReplay cr => exists row, held (ec_binding r) l' row /\ c_state row = COMPLETED /\ replay_external_result l' row = Ok cr
  | ClaimTerminalRejected code =>
      exists row, held (ec_binding r) l' row /\ c_state row = TERMINAL_REJECTED /\ parse_safe_code row = Ok code
  | ClaimRecoveryRequired code =>
      exists row, held (ec_binding r) l' row /\ c_state row = RECOVERY_REQUIRED /\ parse_safe_code row = Ok code
  end.
Proof.
  intros Hc Hid Hbok Ht. pose proof Hbok as (_ & _ & _ & Hop%list_elem_of_singleton).
  unfold claim_external, read_command, Store.read_command. fold (commands l). case_match eqn:E; intros Hr.
  - unfold external_existing in Hr. passed Hr as Eb. apply result_bind_ok in Hr as (row & [-> Hv]%validated & Hr).
    assert (held (ec_binding r) l c) as Hheld by (split; [by rewrite <- Hid|]; split; [done|by apply negb_false_iff]).
    destruct (c_state c) eqn:Est; [|inv_result; simplify_eq; eauto..].
    case_match; [by simplify_eq|].
    destruct (marked_held (ec_binding r) l c RECOVERY_REQUIRED StorageConfigurationError (ec_claimed_at r)) as (l2 & Hu & Hh); auto.
    rewrite Hu in Hr. injection Hr as <- <-. eexists. split; [exact Hh|]. split; [done|]. apply parse_marked.
  - apply result_bind_ok in Hr as (l2 & Hins & Hr). injection Hr as <- <-. eapply inserted_owned; [done..| |done|done]. set_solver.
Qed.
Lemma complete_external_ok l r o l' :
  cb_command_id (ei_binding r) = i -> complete_external l context r = Ok (o, l') ->
  match o with
  | Store.Applied cr | Store.Replay cr =>
      exists row, held (ei_binding r) l' row /\ c_state row = COMPLETED /\ replay_external_result l' row = Ok cr
  | Store.RecoveryRequired code =>
      exists row, held (ei_binding r) l' row /\ c_state row = RECOVERY_REQUIRED /\ parse_safe_code row = Ok code
  | Store.TerminalRejected _ => False
  end.
Proof.
  intros Hid Hr. pose proof (complete_external_effect _ _ _ _ _ Hr) as [He _]. unfold complete_external in Hr.
  apply result_bind_ok in Hr as (_ & _ & Hr). apply result_bind_ok in Hr as (_ & _ & Hr).
  apply result_bind_ok in Hr as (row & Hh%bound_row_held & Hr); [|done].
  destruct (c_state row) eqn:Est; [|inv_result; simplify_eq; eauto| |inv_result; simplify_eq; eauto].
  all: passed Hr as Eo.
  all: apply result_bind_ok in Hr as (_ & _ & Hr); apply result_bind_ok in Hr as ([loc l1] & _ & Hr);
    apply result_bind_ok in Hr as (l2 & _ & Hr); apply result_bind_ok in Hr as ([q l3] & _ & Hr);
    apply result_bind_ok in Hr as (l4 & _ & Hr); apply result_bind_ok in Hr as (l5 & Hl5%ok_or_ok & Hr);
    apply update_command_ok in Hl5 as (row' & _ & _ & Hl5); unfold completed_result in Hr;
    apply result_bind_ok in Hr as (row5 & Hrow5%ok_or_ok & Hr); apply result_bind_ok in Hr as (row6 & [-> _]%validated & Hr);
    apply result_bind_ok in Hr as (cr & Hcr & Hr); injection Hr as <- <-;
    change (commands l5 !! cb_command_id (ei_binding r) = Some row5) in Hrow5; exists row5;
    (split; [eapply effect_held; [done|exact Hh|exact He|by rewrite <- Hid]|]);
    rewrite Hl5, lookup_insert_eq in Hrow5; injection Hrow5 as <-; done.
Qed.
Lemma finish_external_ok l r o l' state code :
  cb_command_id (ed_binding r) = i -> cb_operation_id (ed_binding r) = ASSET_INGEST_COPY_V1 -> time_ok (ed_observed_at r) ->
  disposition_ok is_external_terminal_code is_external_recovery_code (ed_disposition r) ->
  disposition_parts (ed_disposition r) = (state, code) -> finish_external l context r = Ok (o, l') ->
  (exists row, held (ed_binding r) l' row /\ c_state row = state /\ parse_safe_code row = Ok code) /\
  (o = Stored \/ o = DispositionReplay code).
Proof.
  intros Hid Hop Ht Hok Hd. unfold finish_external. intros Hr. apply result_bind_ok in Hr as (row & Hh%bound_row_held & Hr); [|done].
  rewrite Hd in Hr. destruct (owned_claim context row) eqn:Eo.
  - apply owned_claim_ok in Eo as [Est _].
    destruct (marked_held (ed_binding r) l row state code (ed_observed_at r)) as (l2 & Hu & Hh2); auto.
    { destruct (ed_disposition r); cbn in Hd, Hok; injection Hd as <- <-; auto. }
    rewrite Hu in Hr. injection Hr as <- <-. split; [|by left]. eexists. split; [exact Hh2|]. split; [done|]. apply parse_marked.
  - apply result_bind_ok in Hr as (known & Hk & Hr). destruct known; [|done]. injection Hr as <- <-. split; [|by right].
    exists row. split; [done|]. destruct (bool_decide (c_state row = state)) eqn:Es; [|done]. apply bool_decide_eq_true in Es.
    inv_result. bool_hyps. split; [done|]. congruence.
Qed.

Lemma same_book_refl w : same_book w w.
Proof. done. Qed.
Lemma same_book_trans w1 w2 w3 : same_book w1 w2 -> same_book w2 w3 -> same_book w1 w3.
Proof. unfold same_book. intuition congruence. Qed.

(** A step that only asks. *)
Lemma wp_ask {E A} (f : nat -> A) (Q : result E A -> World -> Prop) w :
  (forall t w', same_book w w' -> w_armed w' = w_armed w -> untouched w w' -> Q (Ok (f t)) w') ->
  wp (Runtime.ask f) Q w.
Proof. intros HQ. unfold wp, Runtime.ask. cbn. apply HQ; [done..|]. apply untouched_same; cbn; [lia|done]. Qed.

Lemma drop_armed w : w_armed (drop_guard w) = false.
Proof. unfold drop_guard. by destruct (w_armed w) eqn:E. Qed.
Lemma drop_book w : same_book w (drop_guard w).
Proof. unfold drop_guard. by destruct (w_armed w). Qed.
Lemma drop_failed w : w_armed w = true \/ w_failed w = true -> w_failed (drop_guard w) = true.
Proof. unfold drop_guard. destruct (w_armed w); [done|]. intros [?|?]; done. Qed.
Lemma drop_untouched w : untouched w (drop_guard w).
Proof. unfold drop_guard. destruct (w_armed w); by apply untouched_same. Qed.
Lemma drop_disarmed w : w_armed w = false -> drop_guard w = w.
Proof. unfold drop_guard. by intros ->. Qed.

(** The guarded calls: on success the guard is disarmed, on failure the runtime fails. *)
Lemma wp_guarded {E A} (operation : Library -> res (A * Library)) (Q : result E (res A) -> World -> Prop) w :
  w_armed w = true ->
  (forall e w', same_book w w' -> w_failed w' = true -> untouched w w' -> Q (Ok (Err e)) w') ->
  (forall l a l' w', operation l = Ok (a, l') -> same_book w w' -> w_armed w' = false -> w_library w' = l' -> Q (Ok (Ok a)) w') ->
  wp (r ← submit context env operation;
      _ ← modify (fun w => match r with Ok _ => with_armed w false | Err _ => w end);
      _ ← modify drop_guard; mret r) Q w.
Proof.
  intros Harm Herr Hok. apply wp_bind, wp_submit.
  - intros e w' Hb Ha Hu _ _. eapply (Herr e (drop_guard w')); [eapply same_book_trans; [exact Hb|apply drop_book]| |].
    + apply drop_failed. left. congruence.
    + eapply untouched_trans; [exact Hu|apply drop_untouched].
  - intros l a l' w' _ Hop _ Hb Ha Hl Hf. by eapply (Hok l a l' (with_armed w' false)).
Qed.
(** ** Errors of the claim *)

Ltac corrupt := repeat match goal with
  | E : result_bind ?m _ = Err _ |- _ => apply result_bind_err in E as [E|(? & ? & E)]
  | E : ok_or _ ?o = Err _ |- _ => destruct o; cbn in E; [discriminate E|injection E as <-; reflexivity]
  | E : map_err _ ?r = Err _ |- _ => destruct r; cbn in E; [discriminate E|injection E as <-; reflexivity]
  | E : (if ?b then _ else _) = Err _ |- _ => destruct b
  | E : Ok _ = Err _ |- _ => discriminate E
  | E : Err _ = Err _ |- _ => injection E as <-; reflexivity
  | E : match ?x with _ => _ end = Err _ |- _ => destruct x
  end.
Lemma check_id_err v e : check_id v = Err e -> e = SeStorageCorruption.
Proof. unfold check_id, id_bytes. intros. corrupt. Qed.
Lemma persisted_timestamp_err x y e : persisted_timestamp x y = Err e -> e = SeStorageCorruption.
Proof. unfold persisted_timestamp. intros. corrupt. Qed.
Lemma parse_code_err x e : parse_code x = Err e -> e = SeStorageCorruption.
Proof. unfold parse_code. intros. corrupt. Qed.
Lemma parse_safe_code_err row e : parse_safe_code row = Err e -> e = SeStorageCorruption.
Proof. unfold parse_safe_code. intros. corrupt. Qed.
Lemma payload_present_err row e : payload_present row = Err e -> e = SeStorageCorruption.
Proof. unfold payload_present. intros. corrupt. Qed.
Lemma decode_err kind bytes e : decode id_valid kind bytes = Err e -> e = SeStorageCorruption.
Proof. unfold decode, decode_id_revision_sequence, decode_take, decode_lifecycle, id_at, u64_at, u32_at. intros. corrupt. Qed.
Lemma check_state_err row code present e : check_state row code present = Err e -> e = SeStorageCorruption.
Proof. unfold check_state. intros. corrupt; eauto using check_id_err, decode_err. Qed.
Lemma matrix_err row code e : validate_known_command_matrix row code = Err e -> e = SeStorageCorruption.
Proof. unfold validate_known_command_matrix. cbv zeta. intros E. case_match; [done|]. by injection E. Qed.
Lemma validate_err row e : validate_command_row row = Err e -> e = SeStorageCorruption.
Proof.
  unfold validate_command_row. intros Hr.
  corrupt; eauto using check_id_err, persisted_timestamp_err, parse_code_err, payload_present_err, check_state_err, matrix_err.
Qed.
Lemma checked_id_err v e : checked_id v = Err e -> e = SeStorageCorruption.
Proof. unfold checked_id, id_bytes. intros. corrupt. Qed.
Lemma replay_asset_err l row e : replay_asset_result l row = Err e -> e = SeStorageCorruption.
Proof.
  unfold replay_asset_result, id_bytes, checked_digest. intros Hr.
  corrupt; eauto using decode_err, persisted_timestamp_err, checked_id_err.
Qed.
Lemma claim_external_err l r e :
  cb_operation_id (ec_binding r) = ASSET_INGEST_COPY_V1 -> claim_external l context r = Err e ->
  e = SeConflict \/ e = SeInternal \/ e = SeStorageCorruption.
Proof.
  intros Hop. unfold claim_external. case_match eqn:Er.
  - unfold external_existing. destruct (binding_matches c _ _) eqn:Eb; cbn [negb]; [|intros E; injection E as <-; by left].
    assert (c_operation_id c = ASSET_INGEST_COPY_V1) as Hc0.
    { unfold binding_matches in Eb. bool_hyps. congruence. }
    intros E. right. right. apply result_bind_err in E as [E|(row & [-> _]%validated & E)]; [by apply validate_err in E|].
    destruct (c_state c); [by case_match| | |].
    + apply result_bind_err in E as [E|(cr & _ & E)]; [|done]. unfold replay_external_result in E.
      apply result_bind_err in E as [E|(cr & _ & E)]; [|by corrupt]. unfold replay_result, Store.replay_result in E.
      assert (Store.is_creative_operation (c_operation_id c) = false) as Hn by (rewrite Hc0; vm_compute; reflexivity).
      rewrite Hn in E. by eapply replay_asset_err.
    + apply result_bind_err in E as [E|(cr & _ & E)]; [|done]. by eapply parse_safe_code_err.
    + apply result_bind_err in E as [E|(cr & _ & E)]; [|done]. by eapply parse_safe_code_err.
  - intros E. right. left. apply result_bind_err in E as [E|(cr & _ & E)]; [|done].
    unfold insert_claim, on_base', Store.insert_claim in E. corrupt.
Qed.
End facts.
End Rules.
