(* ===== verification/IngestFacts.v ===== *)
(** Theorems about the ingest service, against sessions that may use the same command: an
    execution never leaves its claim behind unless the runtime has failed, its answer is
    what the ledger records, and a recorded answer is stable. *)
From Stdlib Require Import ZArith Lia String.
From Stdlib Require Import Strings.Byte Init.Byte.
From stdpp Require Import prelude list gmap.
From S2P Require Import Prelude RustText Types AssetDomain CreativeDomain Ports CommandLedger CreativeStore StoreScenario AssetStore AssetCommands CommandRows AssetLedger AssetScenario AssetHistory AssetSequences StartupRecovery AppRuntime IngestService ServiceRules.

Set Warnings "-clear-no-such-hyp".

Module IngestFacts.
Import Ports Ledger Assets AssetOps Rows AssetLedger AssetHistory AssetSequences Startup Runtime Rules Ingest.

Section facts.
Context `{StoreEnv} (context : StoreContext) (env : Outside) (i : Id).
#[local] Abbreviation held := (Rules.held context i).
#[local] Abbreviation untouched := (Rules.untouched context env).

(** ** Answers and the ledger *)

(** The failure the row of a command stands for. *)
Definition recorded (code : ErrorCode) (retry : IngestRetry) (row : CommandRow) : Prop :=
  parse_safe_code row = Ok code /\
  (c_state row = TERMINAL_REJECTED /\ retry = retry_for_terminal code \/
   c_state row = RECOVERY_REQUIRED /\ retry = AfterOperatorOrRuntimeAction).
Context (b : CommandBinding).
Definition completed_with (x : IngestAssetCopyResult) (w : World) : Prop :=
  exists row cr, held b (w_library w) row /\ c_state row = COMPLETED /\ replay_external_result (w_library w) row = Ok cr /\
    result_from_command cr = Ok x.
Definition refused_with (code : ErrorCode) (retry : IngestRetry) (w : World) : Prop :=
  exists row, held b (w_library w) row /\ recorded code retry row.
(** The answer of an execution that took the claim. *)
Definition answered (r : result IngestAssetExecutionError IngestAssetCopyResult) (w : World) : Prop :=
  match r with
  | Ok x => completed_with x w
  | Err (Respond code retry) => refused_with code retry w
  | Err RuntimeFailed => False
  end.
#[local] Abbreviation owned := (Rules.owned context i b).
(** The claim is stored and the guard armed. *)
Definition ready (w : World) : Prop := w_armed w = true /\ owned w.
(** After the claim: the guard is still armed, or the runtime has failed with the row still
    this runtime's, or the answer is recorded. *)
Definition claimed_post (w : World) (r : result IngestAssetExecutionError IngestAssetCopyResult) (w' : World) : Prop :=
  same_book w w' /\ (ready w' \/ w_failed w' = true /\ owned w' \/ w_armed w' = false /\ answered r w').

Context (Hc : context_ok context) (Hok : others_ok env) (Hclock : forall t x, o_now env t = Some x -> time_ok x).


Section answers.
Context (storage : Storage) (request : IngestAssetCopyRequest).
Hypothesis (Hi : iq_command_id request = i) (Hb0 : b = binding_for request).

Lemma binding_id : cb_command_id b = i.
Proof. by rewrite Hb0. Qed.
Lemma binding_op : cb_operation_id b = ASSET_INGEST_COPY_V1.
Proof. by rewrite Hb0. Qed.
Lemma disposition_new d t r :
  external_ingest_disposition_new b d t = Ok r ->
  ed_binding r = b /\ ed_disposition r = d /\ ed_observed_at r = t /\ disposition_ok is_external_terminal_code is_external_recovery_code d.
Proof.
  unfold external_ingest_disposition_new. intros Hr. inv_result. bool_hyps. repeat split; try done. by destruct d.
Qed.

Lemma ready_later w w' : untouched w w' -> w_armed w' = w_armed w -> ready w -> ready w'.
Proof. intros Hu Ha [Harm Hown]. split; [congruence|by eapply untouched_owned]. Qed.
Lemma external_command x y z : replay_external_result x y = Ok z -> exists r, result_from_command z = Ok r.
Proof. unfold replay_external_result. intros Hr. apply result_bind_ok in Hr as (cr & _ & Hr). case_match; simplify_eq. by eexists. Qed.

Lemma wp_finish_disposition d t code retry state w :
  ready w -> time_ok t -> disposition_parts d = (state, code) ->
  (state = TERMINAL_REJECTED /\ retry = retry_for_terminal code \/
   state = RECOVERY_REQUIRED /\ retry = AfterOperatorOrRuntimeAction) ->
  wp (finish_disposition context env b d t (Respond code retry)) (claimed_post w) w.
Proof.
  intros [Harm Hown] Ht Hd Hrec. unfold finish_disposition. apply wp_bind. unfold wp at 1. cbn [from_result fst snd].
  destruct (external_ingest_disposition_new b d t) as [r|e] eqn:Er; cbn [map_err]; [|split; [done|by left]].
  apply disposition_new in Er as (Hb & Hdisp & Hat & Hcodes). rewrite Hd. apply wp_bind. unfold guard_finish. eapply wp_guarded; [done| |].
  - intros e w' Hbk Hf Hu. split; [done|]. right; left. split; [done|by eapply untouched_owned].
  - intros l o l' w' Hop Hbk Ha Hl.
    eapply finish_external_ok in Hop as [(row & Hrow & Hst & Hcode) Ho];
      [|rewrite ?Hb, ?Hdisp, ?Hat; eauto using binding_id, binding_op..].
    assert (refused_with code retry w') as Hans.
    { exists row. rewrite Hl, <- Hb. split; [done|]. split; [done|]. by rewrite Hst. }
    destruct Ho as [->| ->]; [|rewrite bool_decide_eq_true_2 by done]; (split; [done|]; right; right; by split).
Qed.
Lemma wp_runtime_now (Q : result IngestAssetExecutionError Timestamp -> World -> Prop) w :
  (forall r w', same_book w w' -> w_armed w' = w_armed w -> untouched w w' ->
     match r with Ok t => time_ok t -> Q (Ok t) w' | Err e => e = RuntimeFailed -> Q (Err e) w' end) ->
  wp (runtime_now env) Q w.
Proof.
  intros HQ. unfold runtime_now. apply wp_bind. unfold Runtime.now. apply (wp_ask context env). intros n w' Hb Ha Hu. unfold wp. cbn.
  destruct (o_now env n) as [t|] eqn:Et; cbn; [apply (HQ (Ok t)); eauto|by apply (HQ (Err RuntimeFailed))].
Qed.
Lemma claimed_post_later w1 w2 r w3 : same_book w1 w2 -> claimed_post w2 r w3 -> claimed_post w1 r w3.
Proof. intros Hb [Hb2 Hp]. split; [by eapply same_book_trans|done]. Qed.
Lemma still_armed w w' r : same_book w w' -> ready w' -> claimed_post w r w'.
Proof. intros Hb Ha. split; [done|by left]. Qed.
#[local] Hint Resolve ready_later : core.

Lemma wp_finish_stop stop w : ready w -> wp (finish_stop context env b (stop_failure stop PostClaim)) (claimed_post w) w.
Proof.
  intros Harm. unfold finish_stop, stop_failure. apply wp_bind, wp_runtime_now. intros r w' Hb Ha Hu.
  destruct r as [t|e]; [intros Ht|intros ->; apply still_armed; eauto].
  eapply wp_mono; [eapply wp_finish_disposition; [by eauto|done|reflexivity|left; by destruct stop]|].
  intros r w2. by apply claimed_post_later.
Qed.
Lemma wp_finish_storage_error e w : ready w -> wp (finish_storage_error context env b e) (claimed_post w) w.
Proof.
  intros Harm. unfold finish_storage_error. destruct (storage_disposition e) as [[d failure]|] eqn:Ed; [|apply still_armed; done].
  apply wp_bind, wp_runtime_now. intros r w' Hb Ha Hu. destruct r as [t|e']; [intros Ht|intros ->; apply still_armed; eauto].
  assert (exists state code retry, disposition_parts d = (state, code) /\ failure = Respond code retry /\
    (state = TERMINAL_REJECTED /\ retry = retry_for_terminal code \/
     state = RECOVERY_REQUIRED /\ retry = AfterOperatorOrRuntimeAction)) as (state & code & retry & Hd & -> & Hrec).
  { destruct e; cbn in Ed; try discriminate Ed; injection Ed as <- <-; do 3 eexists; (split; [reflexivity|]; split; [reflexivity|]; auto). }
  eapply wp_mono; [eapply wp_finish_disposition; [by eauto|done|done|done]|]. intros r w2. by apply claimed_post_later.
Qed.
Lemma wp_registration_ids n (Q : result IngestAssetExecutionError (option (list Id)) -> World -> Prop) w :
  (forall ids w', same_book w w' -> w_armed w' = w_armed w -> untouched w w' -> Q (Ok ids) w') -> wp (registration_ids env n) Q w.
Proof.
  revert w Q. induction n as [|n IH]; intros w Q HQ; cbn [registration_ids]; [apply HQ; auto using untouched_refl; done|].
  apply wp_bind. unfold Runtime.next_id. apply (wp_ask context env). intros t w1 Hb1 Ha1 Hu1. destruct (o_next_id env t) as [id|]; [|by apply HQ].
  apply wp_bind, IH. intros ids w2 Hb2 Ha2 Hu2. apply (HQ _ w2); [by eapply same_book_trans|congruence|by eapply untouched_trans].
Qed.

Lemma wp_complete blob w : ready w -> wp (complete context env b request blob) (claimed_post w) w.
Proof.
  intros Hw. unfold complete. apply wp_bind, wp_runtime_now. intros r w1 Hb1 Ha1 Hu1.
  destruct r as [t|e]; [intros Ht|intros ->; apply still_armed; eauto].
  apply wp_bind, wp_registration_ids. intros ids w2 Hb2 Ha2 Hu2. assert (same_book w w2) as Hb by (by eapply same_book_trans).
  assert (ready w2) as Hw2 by eauto.
  assert (wp (finish_disposition context env b (DispRecoveryRequired IdGenerationUnavailable) t
    (Respond IdGenerationUnavailable AfterOperatorOrRuntimeAction)) (claimed_post w) w2) as Hfin.
  { eapply wp_mono; [eapply wp_finish_disposition; [done|done|reflexivity|by right]|]. intros r w'. by apply claimed_post_later. }
  destruct ids as [[|a [|v [|n [|s [|loc [|d [|p [|]]]]]]]]|]; try exact Hfin.
  case_match; [exact Hfin|]. apply wp_bind. unfold wp at 1. cbn [from_result fst snd].
  destruct (external_ingest_completion_new _ _ _ _ _ _) as [c|e] eqn:Ec; cbn [map_err]; [|apply still_armed; done].
  assert (ei_binding c = b) as Hcb by (unfold external_ingest_completion_new in Ec; by inv_result).
  apply wp_bind. unfold guard_complete. eapply wp_guarded; [apply Hw2| |].
  - intros e w' Hbk Hf Hu. split; [by eapply same_book_trans|]. right; left. split; [done|]. eapply untouched_owned; [done..|apply Hw2].
  - intros l o l' w' Hop Hbk Ha Hl. eapply complete_external_ok in Hop; [|rewrite Hcb; apply binding_id]. rewrite Hcb in Hop.
    destruct o as [cr|cr|code|code]; [| |done|].
    1,2: destruct Hop as (row & Hrow & Hst & Hrep); destruct (external_command _ _ _ Hrep) as [x Hx]; unfold answer; rewrite Hx;
      (split; [exact (same_book_trans _ _ _ Hb Hbk)|]); right; right; (split; [exact Ha|]); exists row, cr;
      change (held b (w_library w') row /\ c_state row = COMPLETED /\ replay_external_result (w_library w') row = Ok cr /\ result_from_command cr = Ok x);
      by rewrite Hl.
    destruct Hop as (row & Hrow & Hst & Hcode). split; [by eapply same_book_trans|]. right. right. split; [exact Ha|].
    exists row. split; [change (held b (w_library w') row); by rewrite Hl|]. split; [done|]. by right.
Qed.
Lemma wp_after_claim w : ready w -> wp (after_claim context env storage b request) (claimed_post w) w.
Proof.
  intros Hw. unfold after_claim. apply wp_bind, (wp_ask context env). intros t w1 Hb Ha Hu. generalize (o_checkpoint env t) as d. intros d.
  assert (ready w1) as Hw1 by eauto. assert (forall r w', claimed_post w1 r w' -> claimed_post w r w') as Hl
    by (intros; by eapply claimed_post_later).
  destruct d as [|stop]; [|eapply wp_mono; [by apply wp_finish_stop|done]].
  destruct (ingest storage _) as [[blob|stop]|e].
  - eapply wp_mono; [by apply wp_complete|done].
  - eapply wp_mono; [by apply wp_finish_stop|done].
  - eapply wp_mono; [by apply wp_finish_storage_error|done].
Qed.

(** ** The whole execution *)

(** What an execution leaves: the guard disarmed, the admission released and, unless
    the runtime has failed, an answer that the ledger records or a refusal before the
    claim, when only other sessions have written.  In a runtime that has failed the
    execution has not claimed, or the row is its own and carries this runtime. *)
Definition concluded (w : World) (r : result IngestAssetExecutionError IngestAssetCopyResult) (w' : World) : Prop :=
  same_book w w' /\ w_armed w' = false /\
  (w_failed w' = true /\ (untouched w w' \/ owned w') \/
   match r with
   | Ok x => completed_with x w'
   | Err (Respond code retry) => untouched w w' \/ refused_with code retry w'
   | Err RuntimeFailed => False
   end).
Lemma concluded_refused w w' code retry :
  same_book w w' -> w_armed w' = false -> untouched w w' -> concluded w (Err (Respond code retry)) w'.
Proof. intros Hb Ha Hr. split; [done|]. split; [done|]. right. by left. Qed.
Lemma concluded_later w1 w2 r w3 : same_book w1 w2 -> untouched w1 w2 -> concluded w2 r w3 -> concluded w1 r w3.
Proof.
  intros Hb Hu (Hb2 & Ha & Hp). pose proof (fun w => untouched_trans context env w1 w2 w Hu) as Ht.
  split; [by eapply same_book_trans|]. split; [done|]. destruct r as [x|[code retry|]]; naive_solver.
Qed.

Lemma wp_checkpoint retry (Q : result IngestAssetExecutionError () -> World -> Prop) w :
  (forall w', same_book w w' -> w_armed w' = w_armed w -> untouched w w' ->
     Q (Ok tt) w' /\ (forall code, Q (Err (Respond code retry)) w')) ->
  wp (checkpoint env retry) Q w.
Proof.
  intros HQ. unfold checkpoint. apply wp_bind, (wp_ask context env). intros t w' Hb Ha Hu. generalize (o_checkpoint env t) as d. intros d.
  destruct (HQ w' Hb Ha Hu) as [H1 H2]. destruct d as [|stop]; [exact H1|]. unfold wp, throw, stop_failure. cbn. apply H2.
Qed.

Lemma wp_dropping w :
  ready w ->
  wp (dropping_guard (after_claim context env storage b request))
     (fun r w' => same_book w w' /\ w_armed w' = false /\ (w_failed w' = true /\ owned w' \/ answered r w')) w.
Proof.
  intros Hw. pose proof (wp_after_claim w Hw) as Hp. unfold wp in *. unfold dropping_guard.
  destruct (after_claim _ _ _ _ _ w) as [r w1]. cbn in *. destruct Hp as [Hb Hp].
  split; [eapply same_book_trans; [exact Hb|apply drop_book]|]. split; [apply drop_armed|].
  destruct Hp as [[Ha Hp]|[[Hf Hp]|[Ha Hp]]].
  - left. split; [apply drop_failed; by left|]. by eapply untouched_owned; eauto using drop_untouched.
  - left. split; [apply drop_failed; by right|]. by eapply untouched_owned; eauto using drop_untouched.
  - right. by rewrite drop_disarmed.
Qed.
Lemma answered_concluded w r w' :
  same_book w w' -> w_armed w' = false -> w_failed w' = true /\ owned w' \/ answered r w' -> concluded w r w'.
Proof.
  intros Hb Ha [[Hf Ho]|Hp]; (split; [done|]; split; [done|]); [left; auto|right].
  destruct r as [x|[code retry|]]; [done|by right|done].
Qed.

Lemma fatal_claim e : e = SeConflict \/ e = SeInternal \/ e = SeStorageCorruption \/ (exists x, e = map_store_error x) ->
  map_claim_error e = RuntimeFailed -> fatal e = true.
Proof. intros [->|[->|[->|[[] ->]]]]; cbn; done. Qed.

Definition then_claimed (outcome : ExternalClaimOutcome) : I IngestAssetCopyResult :=
  match outcome with
  | ClaimClaimed => dropping_guard (after_claim context env storage b request)
  | ClaimInProgress => throw (Respond CommandInProgress SameCommandAfterBoundedDelay)
  | ClaimReplay r => answer (result_from_command r)
  | ClaimTerminalRejected code => throw (Respond code (retry_for_terminal code))
  | ClaimRecoveryRequired code => throw (Respond code AfterOperatorOrRuntimeAction)
  end.
Context (Hbok : binding_ok b [ASSET_INGEST_COPY_V1]).
Lemma wp_claim claim w :
  w_armed w = false -> ec_binding claim = b -> time_ok (ec_claimed_at claim) ->
  wp (outcome ← persistence_claim context env claim; then_claimed outcome) (concluded w) w.
Proof.
  intros Harm Hcb Ht. apply wp_bind. unfold persistence_claim. apply wp_bind. unfold wp at 1. cbn [modify fst snd].
  apply wp_bind; eapply (wp_submit context env).
  - intros e w' Hb Ha Hu Hf He. apply wp_bind. unfold wp, modify, throw. cbn.
    assert (untouched w (with_armed w' false)) as Hu' by exact Hu.
    assert (e = SeConflict \/ e = SeInternal \/ e = SeStorageCorruption \/ exists x, e = map_store_error x) as He'.
    { destruct He as [[l He]|He]; [|auto]. apply claim_external_err in He; [tauto|rewrite Hcb; apply binding_op]. }
    destruct (map_claim_error e) as [code retry|] eqn:Em; [by apply concluded_refused|].
    split; [done|]. split; [done|]. left. split; [|by left]. apply Hf. by eapply fatal_claim.
  - intros l o l' w' Hu Hop Hf0 Hb Ha Hlib Hf.
    assert (untouched w (Runtime.with_library w' l)) as Hu' by exact Hu.
    pose proof Hop as Hcl. apply (claim_external_ok context i) in Hcl; [|rewrite ?Hcb; auto using binding_id..].
    rewrite Hcb in Hcl.
    destruct o as [| |cr|code|code].
    + change (wp (dropping_guard (after_claim context env storage b request)) (concluded w) w').
      eapply wp_mono; [apply wp_dropping; split; [exact Ha|]; unfold Rules.owned; by rewrite Hlib|].
      intros r w2 (Hb2 & Ha2 & Hp). apply answered_concluded; [by eapply same_book_trans|done..].
    + apply wp_bind. apply concluded_refused; [done..|]. eapply untouched_trans; [exact Hu'|].
      apply untouched_same; cbn; [lia|by rewrite Hlib, Hcl].
    + destruct Hcl as (row & Hr & Hst & Hrep). destruct (external_command _ _ _ Hrep) as [x Hx].
      apply wp_bind. unfold then_claimed, answer, wp. cbn. rewrite Hx. cbn. apply answered_concluded; [done..|]. right.
      exists row, cr. change (held b (w_library w') row /\ c_state row = COMPLETED /\ replay_external_result (w_library w') row = Ok cr /\
        result_from_command cr = Ok x). by rewrite Hlib.
    + apply wp_bind. destruct Hcl as (row & Hr & Hst & Hcode). apply answered_concluded; [done..|]. right. exists row.
      change (held b (w_library w') row /\ recorded code (retry_for_terminal code) row). rewrite Hlib. split; [done|]. split; [done|]. by left.
    + apply wp_bind. destruct Hcl as (row & Hr & Hst & Hcode). apply answered_concluded; [done..|]. right. exists row.
      change (held b (w_library w') row /\ recorded code AfterOperatorOrRuntimeAction row). rewrite Hlib. split; [done|]. split; [done|]. by right.
Qed.

(** Admission: the registry at the end is the one at the start. *)
Lemma wp_while_admitted limits (m : I IngestAssetCopyResult) w :
  0 <= w_executions w -> w_armed w = false -> (forall w1, w_armed w1 = false -> wp m (concluded w1) w1) ->
  wp (while_admitted limits b m) (concluded w) w.
Proof.
  intros Hn Ha Hm. unfold while_admitted. apply wp_bind. unfold wp at 1, acquire.
  destruct (w_bindings w !! cb_command_id b) as [d|] eqn:Eb; [case_bool_decide; apply concluded_refused; auto using untouched_refl; done|].
  destruct ((binding_capacity limits <=? Z.of_nat (size (w_bindings w))) || (execution_capacity limits <=? w_executions w));
    [apply concluded_refused; auto using untouched_refl; done|]. cbn [fst snd]. set (w1 := with_admission w _ _).
  specialize (Hm w1 Ha). unfold wp, releasing in *. destruct (m w1) as [r w2]. change (concluded w1 r w2) in Hm.
  destruct Hm as ([Hb1 Hb2] & Ha2 & Hp).
  split; [|done]. unfold release, same_book. cbn. rewrite Hb1, Hb2. cbn. split; [by rewrite delete_insert_id|].
  unfold saturating_sub. lia.
Qed.
Lemma wp_execute limits w :
  0 <= w_executions w -> w_armed w = false -> wp (execute context env storage limits request) (concluded w) w.
Proof.
  intros Hn Ha. unfold execute. apply wp_bind, wp_checkpoint. intros w1 Hb1 Ha1 Hu1.
  split; [|intros code; apply concluded_refused; congruence]. apply wp_bind. unfold wp at 1. cbn [from_result fst snd].
  destruct (validate_source_selector _) as [[]|e] eqn:Ev.
  2: { unfold validate_source_selector in Ev. case_match; [done|]. injection Ev as <-. apply concluded_refused; congruence. }
  apply wp_bind. destruct (open_source storage _) as [e|];
    [unfold wp, throw; cbn; destruct e; apply concluded_refused; congruence|].
  unfold wp at 1. cbn [mret App_ret fst snd]. apply wp_bind, wp_checkpoint. intros w2 Hb2 Ha2 Hu2.
  assert (same_book w w2 /\ w_armed w2 = false /\ untouched w w2) as (Hb & Ha' & Hu)
    by (split; [by eapply same_book_trans|split; [congruence|by eapply untouched_trans]]).
  split; [|intros code; by apply concluded_refused]. cbv zeta. rewrite <- Hb0.
  eapply wp_mono; [|intros r w'; by apply concluded_later]. apply wp_while_admitted; [destruct Hb as [_ ->]; done|done|].
  clear w Hn Ha w1 Hb1 Ha1 Hu1 Ev Hb2 Ha2 Hu2 Hb Ha' Hu. intros w Ha.
  apply wp_bind, wp_checkpoint. intros w1 Hb1 Ha1 Hu1. split; [|intros code; apply concluded_refused; congruence].
  apply wp_bind. unfold Runtime.now. apply (wp_ask context env). intros n w3 Hb3 Ha3 Hu3.
  assert (same_book w w3 /\ untouched w w3) as [Hb4 Hu4] by (split; [by eapply same_book_trans|by eapply untouched_trans]).
  apply wp_bind. unfold wp at 1. cbn [from_result fst snd].
  destruct (o_now env n) as [t|] eqn:Et; cbn [ok_or]; [|apply concluded_refused; congruence].
  apply wp_bind. unfold wp at 1. cbn [from_result fst snd].
  assert (external_ingest_claim_new b t = Ok {| ec_binding := b; ec_claimed_at := t |}) as ->.
  { unfold external_ingest_claim_new, require_operation. by rewrite binding_op. }
  cbn [map_err]. eapply wp_mono; [apply (wp_claim {| ec_binding := b; ec_claimed_at := t |}); [congruence|done|cbn; by eapply Hclock]|].
  intros r w'. by apply concluded_later.
Qed.
End answers.
End facts.

(** ** Repeating a command *)

(** No other session is at work. *)
Definition alone (env : Outside) : Prop := forall t, o_others env t = [].
(** Nothing stops, refuses or breaks a call either. *)
Definition quiet (env : Outside) : Prop := forall t,
  o_checkpoint env t = Continue /\ (exists x, o_now env t = Some x) /\ o_others env t = [] /\ o_refusal env t = None /\
  o_breakdown env t = None.
Definition admits (limits : IngestAdmissionLimits) (i : Id) (w : World) : Prop :=
  w_bindings w !! i = None /\ Z.of_nat (size (w_bindings w)) < binding_capacity limits /\ w_executions w < execution_capacity limits.

Section repeat.
Context `{StoreEnv} (context : StoreContext) (env : Outside) (i : Id) (b : CommandBinding).
Context (Hq : quiet env) (Hid : cb_command_id b = i).

Lemma held_claim l row at_ : held context i b l row ->
  claim_external l context {| ec_binding := b; ec_claimed_at := at_ |} = external_existing l context b row at_ /\
  validate_command_row row = Ok row /\ binding_matches row b (owner_uid context) = true.
Proof.
  intros (Hrow & Hv & Hb). split; [|done]. unfold claim_external, read_command, Store.read_command. fold (commands l).
  cbn [ec_binding ec_claimed_at]. by rewrite Hid, Hrow.
Qed.
Lemma refused_claim l row code retry :
  held context i b l row -> recorded code retry row ->
  let o := if bool_decide (c_state row = TERMINAL_REJECTED) then ClaimTerminalRejected code else ClaimRecoveryRequired code in
  (forall at_, claim_external l context {| ec_binding := b; ec_claimed_at := at_ |} = Ok (o, l)) /\
  (o = ClaimTerminalRejected code /\ retry = retry_for_terminal code \/
   o = ClaimRecoveryRequired code /\ retry = AfterOperatorOrRuntimeAction).
Proof.
  intros Hh [Hcode Hst]. destruct Hst as [[Hst Hr]|[Hst Hr]]; rewrite Hst; (split; [|cbn; by eauto]); intros at_;
    destruct (held_claim l row at_ Hh) as (-> & Hv & Hb); unfold external_existing; rewrite Hb, Hv; cbn [negb result_bind];
    by rewrite Hst, Hcode.
Qed.
Lemma completed_claim l row at_ cr :
  held context i b l row -> c_state row = COMPLETED -> replay_external_result l row = Ok cr ->
  claim_external l context {| ec_binding := b; ec_claimed_at := at_ |} = Ok (ClaimReplay cr, l).
Proof.
  intros Hh Hst Hrep. destruct (held_claim l row at_ Hh) as (-> & Hv & Hb). unfold external_existing. rewrite Hb, Hv. cbn [negb result_bind].
  by rewrite Hst, Hrep.
Qed.

Lemma quiet_submit {E A} (operation : Library -> res (A * Library)) a l' w :
  w_failed w = false -> operation (w_library w) = Ok (a, l') ->
  submit (E := E) context env operation w = (Ok (Ok a), ticked (Runtime.with_library w l')).
Proof.
  intros Hf Hop. unfold submit. rewrite Hf. destruct (Hq (w_tick w)) as (_ & _ & -> & -> & ->). cbn [map]. unfold run. cbn [foldl]. by rewrite Hop.
Qed.
Lemma quiet_checkpoint retry w : checkpoint env retry w = (Ok tt, ticked w).
Proof. unfold checkpoint, mbind, App_bind, ask. by destruct (Hq (w_tick w)) as (-> & _). Qed.

(** An execution that finds a final row answers with it. *)
Lemma execute_replays storage limits request w o r :
  b = binding_for request -> w_failed w = false -> w_armed w = false -> admits limits i w ->
  validate_source_selector (iq_source_path request) = Ok tt -> open_source storage (iq_source_path request) = None ->
  (forall at_, claim_external (w_library w) context {| ec_binding := b; ec_claimed_at := at_ |} = Ok (o, w_library w)) ->
  match o with
  | ClaimReplay cr => result_from_command cr = r /\ exists x, r = Ok x
  | ClaimTerminalRejected code => r = Err (Respond code (retry_for_terminal code))
  | ClaimRecoveryRequired code => r = Err (Respond code AfterOperatorOrRuntimeAction)
  | ClaimClaimed | ClaimInProgress => False
  end ->
  exists w', execute context env storage limits request w = (r, w') /\ w_library w' = w_library w.
Proof.
  intros Hb0 Hf Ha (Hn & Hs & Hx) Hv Ho Hclaim Hr. unfold execute, mbind. unfold App_bind at 1. rewrite quiet_checkpoint.
  unfold App_bind at 1. unfold from_result. rewrite Hv. unfold App_bind at 1. rewrite Ho. cbn [mret App_ret].
  unfold App_bind at 1. rewrite quiet_checkpoint. cbv zeta. rewrite <- Hb0. unfold while_admitted, mbind. unfold App_bind at 1.
  unfold acquire. cbn [w_bindings w_executions ticked]. rewrite Hid, Hn.
  replace ((binding_capacity limits <=? Z.of_nat (size (w_bindings w))) || (execution_capacity limits <=? w_executions w)) with false by
    (symmetry; apply orb_false_iff; split; apply Z.leb_gt; lia).
  unfold releasing. set (w1 := Runtime.with_admission _ _ _). unfold App_bind at 1. rewrite quiet_checkpoint.
  unfold App_bind at 1. unfold Runtime.now, ask. destruct (Hq (w_tick (ticked w1))) as (_ & [at_ ->] & _).
  unfold App_bind at 1. cbn [ok_or]. unfold App_bind at 1.
  assert (external_ingest_claim_new b at_ = Ok {| ec_binding := b; ec_claimed_at := at_ |}) as ->.
  { unfold external_ingest_claim_new, require_operation. by rewrite Hb0. }
  cbn [map_err]. unfold persistence_claim, mbind, App_bind at 1. unfold App_bind at 1, modify at 1.
  unfold App_bind at 1. erewrite quiet_submit; [|done|apply Hclaim].
  destruct o as [| |cr|code|code]; [done|done|..]; cbn -[result_from_command].
  - destruct Hr as [-> [x ->]]. by eexists.
  - subst r. by eexists.
  - subst r. by eexists.
Qed.
End repeat.

Lemma alone_untouched `{StoreEnv} context env w w' : alone env -> untouched context env w w' -> w_library w' = w_library w.
Proof.
  intros Hal (_ & ts & _ & _ & ->). assert (ts ≫= o_others env = []) as -> by (induction ts as [|t ts IH]; [done|]; cbn; by rewrite Hal, IH).
  done.
Qed.
Lemma quiet_alone env : quiet env -> alone env.
Proof. intros Hq t. apply Hq. Qed.

(** An execution that finds a final row answers with it or refuses, and writes nothing. *)
Section again.
Context `{StoreEnv} (context : StoreContext) (env : Outside) (b : CommandBinding) (Hal : alone env).
Context (storage : Storage) (request : IngestAssetCopyRequest) (Hb0 : b = binding_for request).
Context (L : Library) (o : ExternalClaimOutcome) (r : result IngestAssetExecutionError IngestAssetCopyResult).
Hypothesis (Hclaim : forall at_, claim_external L context {| ec_binding := b; ec_claimed_at := at_ |} = Ok (o, L)).
Hypothesis (Hr : match o with
  | ClaimReplay cr => result_from_command cr = r /\ exists x, r = Ok x
  | ClaimTerminalRejected code => r = Err (Respond code (retry_for_terminal code))
  | ClaimRecoveryRequired code => r = Err (Respond code AfterOperatorOrRuntimeAction)
  | ClaimClaimed | ClaimInProgress => False
  end).

Definition as_before (r2 : result IngestAssetExecutionError IngestAssetCopyResult) (w2 : World) : Prop :=
  w_library w2 = L /\ (r2 = r \/ exists e, r2 = Err e).
Lemma again_refused e w : w_library w = L -> as_before (Err e) w.
Proof. intros Hl. split; [done|]. right. by eexists. Qed.
Lemma again_checkpoint {A} retry (k : () -> I A) (Q : result IngestAssetExecutionError A -> World -> Prop) w :
  w_library w = L -> (forall e w', w_library w' = L -> Q (Err e) w') -> (forall w', w_library w' = L -> wp (k tt) Q w') ->
  wp (checkpoint env retry ≫= k) Q w.
Proof.
  intros Hl He Hk. apply wp_bind, (wp_checkpoint context env). intros w' _ _ Hu%(alone_untouched context env _ _ Hal).
  split; [apply Hk|intros code; apply He]; congruence.
Qed.
Lemma again_claim at_ w :
  w_library w = L ->
  wp (outcome ← persistence_claim context env {| ec_binding := b; ec_claimed_at := at_ |};
      then_claimed context env b storage request outcome) as_before w.
Proof.
  intros Hl. apply wp_bind. unfold persistence_claim. apply wp_bind. unfold wp at 1. cbn [modify fst snd].
  apply wp_bind; eapply (wp_submit context env).
  - intros e w' _ _ Hu%(alone_untouched context env _ _ Hal) _ _. apply wp_bind. apply again_refused. cbn in *. congruence.
  - intros l a l' w' Hu%(alone_untouched context env _ _ Hal) Hop _ _ _ Hlib _. cbn in Hu. rewrite Hl in Hu. subst l.
    rewrite Hclaim in Hop. injection Hop as <- <-.
    assert (w_library (with_armed w' false) = L) as HL by exact Hlib.
    destruct o as [| |cr|code|code]; [done|done|..]; apply wp_bind; unfold wp; cbn -[result_from_command].
    + destruct Hr as [-> [x ->]]. split; [exact HL|by left].
    + split; [exact HL|by left].
    + split; [exact HL|by left].
Qed.
Lemma again_admitted limits (m : I IngestAssetCopyResult) w :
  w_library w = L -> (forall w1, w_library w1 = L -> wp m as_before w1) -> wp (while_admitted limits b m) as_before w.
Proof.
  intros Hl Hm. unfold while_admitted. apply wp_bind. unfold wp at 1, acquire.
  destruct (w_bindings w !! cb_command_id b) as [d|]; [case_bool_decide; by apply again_refused|].
  destruct (_ || _); [by apply again_refused|]. cbn [fst snd]. set (w1 := with_admission w _ _).
  specialize (Hm w1 Hl). unfold wp, releasing in *. by destruct (m w1) as [r2 w2].
Qed.
Lemma again_execute limits w : w_library w = L -> wp (execute context env storage limits request) as_before w.
Proof.
  intros Hl. unfold execute. apply again_checkpoint; [done|auto using again_refused|]. clear w Hl. intros w Hl.
  apply wp_bind. unfold wp at 1. cbn [from_result fst snd]. destruct (validate_source_selector _) as [[]|e]; [|by apply again_refused].
  apply wp_bind. destruct (open_source storage _) as [e|]; [by apply again_refused|]. unfold wp at 1. cbn [mret App_ret fst snd].
  apply again_checkpoint; [done|auto using again_refused|]. clear w Hl. intros w Hl. cbv zeta. rewrite <- Hb0.
  apply again_admitted; [done|]. clear w Hl. intros w Hl.
  apply again_checkpoint; [done|auto using again_refused|]. clear w Hl. intros w Hl.
  apply wp_bind. unfold now. apply (wp_ask context env). intros n w1 _ _ Hu%(alone_untouched context env _ _ Hal). rewrite Hl in Hu.
  apply wp_bind. unfold wp at 1. cbn [from_result fst snd]. destruct (o_now env n) as [t|]; cbn [ok_or]; [|by apply again_refused].
  apply wp_bind. unfold wp at 1. cbn [from_result fst snd].
  assert (external_ingest_claim_new b t = Ok {| ec_binding := b; ec_claimed_at := t |}) as ->.
  { unfold external_ingest_claim_new, require_operation. by rewrite Hb0. }
  cbn [map_err]. by apply (again_claim t).
Qed.
End again.

(** What is recorded for a request answers it from now on: a repetition in any runtime of
    the owner, while no other session is at work, writes nothing and returns the same or
    is refused; nothing refuses it when it is admitted, undisturbed and its source opens. *)
Definition repeats `{StoreEnv} (context : StoreContext) (request : IngestAssetCopyRequest)
    (r : result IngestAssetExecutionError IngestAssetCopyResult) (w : World) : Prop :=
  forall context2 env2 storage2 limits2 w1,
    owner_uid context2 = owner_uid context -> alone env2 -> w_library w1 = w_library w ->
    let '(r2, w2) := execute context2 env2 storage2 limits2 request w1 in
    w_library w2 = w_library w /\ (r2 = r \/ exists e, r2 = Err e) /\
    (quiet env2 -> w_failed w1 = false -> w_armed w1 = false -> admits limits2 (iq_command_id request) w1 ->
     open_source storage2 (iq_source_path request) = None -> r2 = r).
Lemma final_repeats `{StoreEnv} context request w o r :
  validate_source_selector (iq_source_path request) = Ok tt ->
  (forall context2 at_, owner_uid context2 = owner_uid context ->
     claim_external (w_library w) context2 {| ec_binding := binding_for request; ec_claimed_at := at_ |} = Ok (o, w_library w)) ->
  match o with
  | ClaimReplay cr => result_from_command cr = r /\ exists x, r = Ok x
  | ClaimTerminalRejected code => r = Err (Respond code (retry_for_terminal code))
  | ClaimRecoveryRequired code => r = Err (Respond code AfterOperatorOrRuntimeAction)
  | ClaimClaimed | ClaimInProgress => False
  end -> repeats context request r w.
Proof.
  intros Hv Hclaim Hr context2 env2 storage2 limits2 w1 Hown Hal Hl.
  pose proof (again_execute context2 env2 (binding_for request) Hal storage2 request eq_refl (w_library w) o r
    (fun at_ => Hclaim context2 at_ Hown) Hr limits2 w1 Hl) as Hag. unfold wp in Hag.
  destruct (execute context2 env2 storage2 limits2 request w1) as [r2 w2] eqn:E. cbn in Hag. destruct Hag as [H1 H2]. split_and!; [done..|].
  intros Hq Hf Ha Had Ho. rewrite <- Hl in Hclaim.
  destruct (execute_replays context2 env2 (iq_command_id request) (binding_for request) Hq eq_refl storage2 limits2 request w1 o r)
    as (w3 & E3 & _); eauto. rewrite E3 in E. by injection E as -> _.
Qed.
(** A request with an unacceptable path is refused before the claim. *)
Lemma invalid_selector `{StoreEnv} context env storage limits request w :
  is_ok (validate_source_selector (iq_source_path request)) = false ->
  wp (execute context env storage limits request)
     (fun r w' => untouched context env w w' /\ exists code retry, r = Err (Respond code retry)) w.
Proof.
  intros Hv. unfold execute. apply wp_bind, (wp_checkpoint context env). intros w1 _ _ Hu.
  split; [|intros code; split; [done|by do 2 eexists]]. apply wp_bind. unfold wp. cbn [from_result fst snd].
  unfold validate_source_selector in *. case_match; [done|]. split; [done|by do 2 eexists].
Qed.

(** C8: whatever stops the execution of an ingest (a cancelled or expired request, a
    failing clock or identity source, a refused or failed write, a storage error) and
    whatever asset operations other sessions execute between its calls, also on the
    same command, the guard ends disarmed and the admission of the command released.  Unless
    the runtime has failed, the execution leaves no claim of its own: the answer is the
    completed registration, or the code and retry advice the row of the command records,
    or a refusal before the claim, and then only the other sessions have written.  If the
    runtime has failed, either only the other sessions have written or the row is the
    one of this request, valid and carrying this runtime, so that a row still CLAIMED is
    one the startup of the next runtime recovers. *)
Theorem ingest_leaves_no_claim `{StoreEnv} (context : StoreContext) (env : Outside) (storage : Storage)
    (limits : IngestAdmissionLimits) (request : IngestAssetCopyRequest) (w : World) :
  context_ok context -> others_ok env -> (forall t x, o_now env t = Some x -> time_ok x) ->
  binding_ok (binding_for request) [ASSET_INGEST_COPY_V1] -> 0 <= w_executions w -> w_armed w = false ->
  let '(r, w') := execute context env storage limits request w in
  concluded context env (iq_command_id request) (binding_for request) w r w'.
Proof.
  intros Hc Hok Hclock Hb Hn Ha.
  pose proof (wp_execute context env (iq_command_id request) (binding_for request) Hc Hok Hclock storage request
    eq_refl eq_refl Hb limits w Hn Ha) as Hw.
  unfold wp in Hw. by destruct (execute _ _ _ _ _ _).
Qed.

(** C9: in a runtime that has not failed, an ingest either is refused before its claim,
    and then only other sessions have written, or its answer is final: repeated in this
    or a later runtime of the same owner while no other session is at work, whatever
    stops or refuses the repetition, it changes nothing in the library and returns the
    same result, or the same code and retry advice, or an error; it returns exactly the
    same when the repetition is admitted and undisturbed and its source can be opened. *)
Theorem ingest_answer_is_stable `{StoreEnv} (context : StoreContext) (env : Outside) (storage : Storage)
    (limits : IngestAdmissionLimits) (request : IngestAssetCopyRequest) (w : World) :
  context_ok context -> others_ok env -> (forall t x, o_now env t = Some x -> time_ok x) ->
  binding_ok (binding_for request) [ASSET_INGEST_COPY_V1] -> 0 <= w_executions w -> w_armed w = false ->
  let '(r, w') := execute context env storage limits request w in
  w_failed w' = false ->
  match r with
  | Ok _ => repeats context request r w'
  | Err (Respond _ _) => untouched context env w w' \/ repeats context request r w'
  | Err RuntimeFailed => False
  end.
Proof.
  intros Hc Hok Hclock Hb Hn Ha. set (i := iq_command_id request). set (b := binding_for request).
  pose proof (wp_execute context env i b Hc Hok Hclock storage request eq_refl eq_refl Hb limits w Hn Ha) as Hw.
  destruct (validate_source_selector (iq_source_path request)) as [[]|e] eqn:Hv.
  2: { pose proof (invalid_selector context env storage limits request w ltac:(by rewrite Hv)) as Hi. unfold wp in Hi.
       destruct (execute _ _ _ _ _ _) as [r w']. cbn [fst snd] in Hi. destruct Hi as [Hu (code & retry & ->)]. by left. }
  unfold wp in Hw. destruct (execute _ _ _ _ _ _) as [r w']. intros Hf. destruct Hw as (_ & _ & [[Hw _]|Hw]); [cbn in Hw; congruence|].
  assert (forall context2 l row, owner_uid context2 = owner_uid context -> held context i b l row -> held context2 i b l row) as Hheld
    by (intros context2 l row Hown; unfold held; by rewrite Hown).
  destruct r as [x|[code retry|]]; cbn in Hw; [| |done].
  - destruct Hw as (row & cr & Hh & Hst & Hrep & Hcr). eapply (final_repeats context request w' (ClaimReplay cr)); [done| |by eauto].
    intros context2 at_ Hown. by eapply (completed_claim context2 i b eq_refl); [apply Hheld|..].
  - destruct Hw as [Hw|(row & Hh & Hrec)]; [by left|right].
    destruct (refused_claim context i b eq_refl (w_library w') row code retry Hh Hrec) as [_ Hor].
    eapply (final_repeats context request w' (if bool_decide (c_state row = TERMINAL_REJECTED) then _ else _)); [done| |].
    + intros context2 at_ Hown. eapply (refused_claim context2 i b); [done|by apply Hheld|done].
    + by destruct Hor as [[-> ->]|[-> ->]].
Qed.

(** ** A library to run the service on *)

#[local] Existing Instance Scenario.env.
Definition calm : Outside := {|
  o_checkpoint := fun _ => Continue; o_now := fun _ => Some Scenario.now; o_next_id := fun t => Some (Scenario.id (100 + Z.of_nat t));
  o_others := fun _ => []; o_refusal := fun _ => None; o_breakdown := fun _ => None |}.
(** The request is cancelled after the claim, at the fifth call. *)
Definition cancelled : Outside := {|
  o_checkpoint := fun t => if (5 <=? t)%nat then Stop Cancelled else Continue; o_now := o_now calm; o_next_id := o_next_id calm;
  o_others := o_others calm; o_refusal := o_refusal calm; o_breakdown := o_breakdown calm |}.
Definition world (l : Library) : World := {|
  w_library := l; w_failed := false; w_armed := false; w_bindings := ∅; w_executions := 0; w_tick := 0 |}.
Definition some_request : IngestAssetCopyRequest := {|
  iq_command_id := Scenario.id 10; iq_source_path := bs "/a/b.png"; iq_asset_kind := bs "image"; iq_content_kind := bs "image";
  iq_representation_purpose := bs "primary"; iq_resource_kind := bs "file"; iq_logical_name := bs "b.png"; iq_expected_digest := None |}.
Definition storing : Storage := {| open_source := fun _ => None; ingest := fun _ => Ok (BlobStored AssetScenario.blob) |}.
Definition some_limits : IngestAdmissionLimits := {| binding_capacity := 4; execution_capacity := 2 |}.
Definition first_run (env : Outside) := execute Scenario.ctx env storing some_limits some_request (world AssetScenario.empty).

Lemma calm_clock t x : o_now calm t = Some x -> time_ok x.
Proof. intros E. injection E as <-. apply scenario_time. Qed.
Lemma calm_others : others_ok calm.
Proof. intros t op Hop. inversion Hop. Qed.
Lemma some_binding : binding_ok (binding_for some_request) [ASSET_INGEST_COPY_V1].
Proof. repeat split; [vm_compute; reflexivity..|by left]. Qed.
(** Another session takes the same command, with another digest, before the claim. *)
Definition rival : ExternalIngestClaim := {| ec_binding := Scenario.binding 10 ASSET_INGEST_COPY_V1; ec_claimed_at := Scenario.now |}.
Definition contested : Outside := {|
  o_checkpoint := o_checkpoint calm; o_now := o_now calm; o_next_id := o_next_id calm;
  o_others := fun t => if (t =? 4)%nat then [ClaimExternal rival] else []; o_refusal := o_refusal calm; o_breakdown := o_breakdown calm |}.
Lemma contested_others : others_ok contested.
Proof.
  intros t op Hop. cbn in Hop. destruct (t =? 4)%nat; [|inversion Hop]. apply list_elem_of_singleton in Hop as ->.
  split; [apply scenario_binding; set_solver|apply scenario_time].
Qed.

Lemma ingest_leaves_no_claim_witness :
  ((first_run cancelled).1 = Err (Respond OperationCancelled FreshCommandAfterBoundedDelay) /\ w_failed (first_run cancelled).2 = false /\
   option_map c_state (row_of (Scenario.id 10) (first_run cancelled).2) = Some TERMINAL_REJECTED /\
   (let '(r, w') := first_run cancelled in
    concluded Scenario.ctx cancelled (Scenario.id 10) (binding_for some_request) (world AssetScenario.empty) r w')) /\
  ((first_run contested).1 = Err (Respond Conflict No) /\ option_map c_state (row_of (Scenario.id 10) (first_run contested).2) = Some CLAIMED /\
   (let '(r, w') := first_run contested in
    concluded Scenario.ctx contested (Scenario.id 10) (binding_for some_request) (world AssetScenario.empty) r w')).
Proof.
  pose proof (ingest_leaves_no_claim Scenario.ctx cancelled storing some_limits some_request (world AssetScenario.empty)
    (scenario_context 1) calm_others calm_clock some_binding ltac:(done) eq_refl) as Ht.
  pose proof (ingest_leaves_no_claim Scenario.ctx contested storing some_limits some_request (world AssetScenario.empty)
    (scenario_context 1) contested_others calm_clock some_binding ltac:(done) eq_refl) as Hu.
  split; [do 3 (split; [vm_compute; reflexivity|]); exact Ht|]. do 2 (split; [vm_compute; reflexivity|]). exact Hu.
Defined.
Lemma ingest_answer_is_stable_witness :
  is_ok (first_run calm).1 = true /\
  (execute AssetScenario.ctx2 calm storing some_limits some_request (world (w_library (first_run calm).2))).1 = (first_run calm).1 /\
  repeats Scenario.ctx some_request (first_run calm).1 (first_run calm).2.
Proof.
  pose proof (ingest_answer_is_stable Scenario.ctx calm storing some_limits some_request (world AssetScenario.empty)
    (scenario_context 1) calm_others calm_clock some_binding ltac:(done) eq_refl) as Ht.
  assert (is_ok (first_run calm).1 = true) as Hok by (vm_compute; reflexivity).
  assert (w_failed (first_run calm).2 = false) as Hf by (vm_compute; reflexivity).
  split; [exact Hok|]. fold (first_run calm) in Ht. destruct (first_run calm) as [r w']. cbn in Hok, Hf |- *.
  specialize (Ht Hf). destruct r as [x|e]; [|discriminate Hok]. split; [|exact Ht].
  specialize (Ht AssetScenario.ctx2 calm storing some_limits (world (w_library w')) eq_refl ltac:(done) eq_refl).
  destruct (execute _ _ _ _ _ _) as [r2 w2]. destruct Ht as (_ & _ & Hq). apply Hq; try done.
  intros t. repeat split. by eexists.
Defined.
End IngestFacts.
