(* ===== verification/AssetQuery.v ===== *)
(** Reading assets: mengxia-store-sqlite/src/asset_query.rs with the query types of
    mengxia-ports, over the tables of [AssetStore].

    A query runs in one read transaction, so it sees one library.  The column
    [schema_version] is 1 in every event that is written and is left out; the rows of
    a statement come in the order of its ORDER BY clause. *)
From Stdlib Require Import ZArith Lia String.
From Stdlib Require Import Strings.Byte Init.Byte.
From stdpp Require Import prelude list gmap.
From S2P Require Import Prelude RustText Ord Types AssetDomain CreativeDomain Ports CommandLedger CreativeStore AssetStore StartupRecovery.

Set Warnings "-clear-no-such-hyp".

Module AssetQuery.
Import Ports Ledger Assets Startup.

(** ** Requests and pages *)

Definition zero_library : Id := repeat x00 16.
Inductive ListAssetsPosition := First | After (library_id : Id) (snapshot_sequence last_examined_sequence : Z).
Definition position_after (library_id : Id) (snapshot_sequence last_examined_sequence : Z) : res ListAssetsPosition :=
  if bool_decide (library_id = zero_library) || (snapshot_sequence =? 0) || (I64_MAX <? snapshot_sequence)
     || (last_examined_sequence =? 0) || (snapshot_sequence <=? last_examined_sequence)
  then Err SeValidation else Ok (After library_id snapshot_sequence last_examined_sequence).

Record ListAssetsQuery := { lq_page_size : Z; lq_position : ListAssetsPosition }.
Definition list_assets_query_new (page_size : Z) (position : ListAssetsPosition) : res ListAssetsQuery :=
  let? page_size := ok_or SeValidation (try_into U8_MAX page_size) in
  if negb ((1 <=? page_size) && (page_size <=? 64)) then Err SeValidation
  else Ok {| lq_page_size := page_size; lq_position := position |}.

Record AssetSummaryView := {
  sv_asset_id : Id; sv_kind : list byte; sv_lifecycle : Lifecycle; sv_revision : Z; sv_created_at : Timestamp;
  sv_updated_at : Timestamp; sv_creation_commit_sequence : Z }.
Record AssetPage := { ap_snapshot_sequence : Z; ap_assets : list AssetSummaryView; ap_next : option ListAssetsPosition }.
Definition asset_page_from_store (snapshot : Z) (assets : list AssetSummaryView) (next : option ListAssetsPosition) : res AssetPage :=
  if (64 <? blen assets) || existsb (fun a => snapshot <? sv_creation_commit_sequence a) assets then Err SeStorageCorruption
  else Ok {| ap_snapshot_sequence := snapshot; ap_assets := assets; ap_next := next |}.

(** ** Reads under a control *)

(** [operation] is what the statements return unless one of them was interrupted. *)
Definition with_controlled_read_interrupt {A} (control : Control) (t : nat) (interrupted : bool) (operation : res A) : res A :=
  match register_interrupt control t with
  | None => Err SeInternal
  | Some (Stop stop) => Err (controlled_stop_error stop)
  | Some Continue =>
      let result := if interrupted then Err SeOperationCancelled else operation in
      let result :=
        if match result with Err SeOperationCancelled => true | _ => false end
        then Err match checkpoint_at control (S t) with Stop stop => controlled_stop_error stop | Continue => SeInternal end
        else match checkpoint_at control (S t) with Stop stop => Err (controlled_stop_error stop) | Continue => result end in
      if clear_interrupt control (S (S t)) then result else Err SeInternal
  end.

Section query.
Context `{StoreEnv}.

Definition valid_sequence (value : Z) : res Z := if value <? 0 then Err SeStorageCorruption else Ok value.
Definition parse_revision (value : Z) : res Z := if value =? 0 then Err SeStorageCorruption else Ok value.
Definition timestamp (at_ : Timestamp) : res Timestamp := let? _ := persisted_timestamp at_.1 at_.2 in Ok at_.
Definition require_event (l : Library) (sequence : Z) : res () :=
  if existsb (fun e => Store.de_sequence e =? sequence) (Store.events (base l)) then Ok tt else Err SeStorageCorruption.

(** The command of a registration, as the query selects it. *)
Definition registered_by (l : Library) (e : Store.DomainEvent) : bool :=
  match commands l !! Store.de_command_id e with
  | Some row => bool_decide (c_operation_id row = bs "asset.ingest.v1") && bool_decide (c_state row = COMPLETED)
      && kind_is row (bs "ASSET") && bool_decide (c_result_id row = Some (Store.de_aggregate_id e))
      && negb (none (c_result_location_id row)) && none (c_safe_error_code row)
  | None => false
  end.
Definition read_registered_asset (l : Library) (sequence : Z) (e : Store.DomainEvent) : res AssetSummaryView :=
  let? revision := parse_revision (Store.de_aggregate_revision e) in
  if negb (bool_decide (Store.de_type e = bs "asset.registered.v1")) || negb (bool_decide (Store.de_aggregate_kind e = bs "ASSET"))
     || negb (bool_decide (length (Store.de_command_id e) = 16%nat)) || negb (bool_decide (length (Store.de_aggregate_id e) = 16%nat))
     || negb (revision =? 1)
  then Err SeStorageCorruption
  else
    let? asset_id := checked_id (Store.de_aggregate_id e) in
    let? occurred_at := timestamp (Store.de_at e) in
    if negb (registered_by l e) then Err SeStorageCorruption
    else
      let? row := ok_or SeStorageCorruption (assets l !! asset_id) in
      let? created_at := timestamp (a_created_at row) in
      if negb (bool_decide (created_at = occurred_at)) then Err SeStorageCorruption
      else
        let? kind := map_err (fun _ => SeStorageCorruption) (AssetModel.token_new (a_kind row)) in
        let? updated_at := match a_updated_at row with None => Ok created_at | Some at_ => timestamp at_ end in
        let? revision := parse_revision (a_revision row) in
        Ok {| sv_asset_id := asset_id; sv_kind := kind; sv_lifecycle := a_lifecycle row; sv_revision := revision;
              sv_created_at := created_at; sv_updated_at := updated_at; sv_creation_commit_sequence := sequence |}.

(** ** Listing *)

Definition MAX_EVENT_SCAN : nat := 256.
Definition max_event (l : Library) : Z := foldr (fun e m => Z.max (Store.de_sequence e) m) 0 (Store.events (base l)).
(** [WHERE commit_sequence > ? AND commit_sequence <= ? ORDER BY commit_sequence LIMIT 256]. *)
Definition scan_rows (l : Library) (after upto : Z) : list Store.DomainEvent :=
  take MAX_EVENT_SCAN (sort_by Store.de_sequence
    (List.filter (fun e => (after <? Store.de_sequence e) && (Store.de_sequence e <=? upto)) (Store.events (base l)))).
Definition is_registration (e : Store.DomainEvent) : bool := bool_decide (Store.de_type e = bs "asset.registered.v1").
(** The loop over the rows: the assets found, the last sequence examined and whether
    any row was stepped to. *)
Fixpoint scan (l : Library) (page_size : Z) (rows : list Store.DomainEvent) (found : list AssetSummaryView) (last_examined : Z)
    (stepped : bool) : res (list AssetSummaryView * Z * bool) :=
  if page_size <=? blen found then Ok (found, last_examined, stepped)
  else match rows with
  | [] => Ok (found, last_examined, stepped)
  | e :: rest =>
      let? sequence := valid_sequence (Store.de_sequence e) in
      if negb (sequence =? last_examined + 1) then Err SeStorageCorruption
      else if is_registration e then
        let? a := read_registered_asset l sequence e in scan l page_size rest (found ++ [a]) sequence true
      else scan l page_size rest found sequence true
  end.
Definition list_start (l : Library) (library_id : Id) (position : ListAssetsPosition) : res (Z * Z) :=
  let? allocator := valid_sequence (Store.last_sequence (base l)) in
  let? maximum := valid_sequence (max_event l) in
  match position with
  | First => if negb (allocator =? maximum) then Err SeStorageCorruption else Ok (allocator, 0)
  | After cursor_library snapshot_sequence last_examined_sequence =>
      if negb (bool_decide (cursor_library = library_id)) || (snapshot_sequence =? 0) || (I64_MAX <? snapshot_sequence)
         || (last_examined_sequence =? 0) || (snapshot_sequence <=? last_examined_sequence)
      then Err SeValidation
      else if allocator <? snapshot_sequence then Err SeStorageCorruption
      else
        let? _ := require_event l last_examined_sequence in
        let? _ := require_event l snapshot_sequence in
        Ok (snapshot_sequence, last_examined_sequence)
  end.
Definition list_assets (l : Library) (library_id : Id) (request : ListAssetsQuery) : res AssetPage :=
  let? (snapshot, last_examined) := list_start l library_id (lq_position request) in
  if snapshot =? 0 then asset_page_from_store 0 [] None
  else
    let? (found, last_examined, stepped) :=
      scan l (lq_page_size request) (scan_rows l last_examined snapshot) [] last_examined false in
    if negb stepped && (last_examined <? snapshot) then Err SeStorageCorruption
    else
      let? next := (if last_examined =? snapshot then Ok None
                    else let? p := position_after library_id snapshot last_examined in Ok (Some p)) in
      asset_page_from_store snapshot found next.

(** ** Resolving a materialization *)

Record MaterializationSelection := {
  ms_asset_id : Id; ms_asset_revision_id : Id; ms_representation_id : Id; ms_resource_id : Id; ms_member_ordinal : Z;
  ms_current_backend_id : list byte }.
Definition LOCAL_PREFIX : list byte := bs "mengxia.local-cas.v1/".
Definition hex_digit (b : byte) : bool := is_ascii_digit b || ((97 <=? b2z b) && (b2z b <=? 102)).
Definition valid_backend_id (value : list byte) : bool :=
  (blen value =? blen LOCAL_PREFIX + 64) && bool_decide (take (length LOCAL_PREFIX) value = LOCAL_PREFIX)
  && forallb hex_digit (drop (length LOCAL_PREFIX) value).
Definition materialization_selection_new (asset_id asset_revision_id representation_id resource_id : Id) (member_ordinal : Z)
    (current_backend_id : list byte) : res MaterializationSelection :=
  if (4095 <? member_ordinal) || negb (valid_backend_id current_backend_id) then Err SeValidation
  else Ok {| ms_asset_id := asset_id; ms_asset_revision_id := asset_revision_id; ms_representation_id := representation_id;
             ms_resource_id := resource_id; ms_member_ordinal := member_ordinal; ms_current_backend_id := current_backend_id |}.

Record ResolvedManagedMember := {
  rm_asset_id : Id; rm_asset_revision_id : Id; rm_representation_id : Id; rm_resource_id : Id; rm_member_ordinal : Z;
  rm_blob_digest : list byte; rm_byte_length : Z; rm_location_id : Id; rm_backend_id : list byte; rm_locator : list byte }.
Definition canonical_local_locator (digest : list byte) : list byte :=
  let digest := to_hex digest in
  bs "sha256-v1/" ++ take 2 digest ++ bs "/" ++ take 2 (drop 2 digest) ++ bs "/" ++ digest ++ bs ".blob".
Definition resolved_from_store (request : MaterializationSelection) (digest : list byte) (byte_length : Z) (location_id : Id)
    (backend_id locator : list byte) : res ResolvedManagedMember :=
  if (4095 <? ms_member_ordinal request) || bool_decide (backend_id = []) || (255 <? blen backend_id) || bool_decide (x00 ∈ backend_id)
     || bool_decide (locator = []) || (1024 <? blen locator) || bool_decide (x00 ∈ locator)
  then Err SeStorageCorruption
  else Ok {| rm_asset_id := ms_asset_id request; rm_asset_revision_id := ms_asset_revision_id request;
             rm_representation_id := ms_representation_id request; rm_resource_id := ms_resource_id request;
             rm_member_ordinal := ms_member_ordinal request; rm_blob_digest := digest; rm_byte_length := byte_length;
             rm_location_id := location_id; rm_backend_id := backend_id; rm_locator := locator |}.

(** The join behind the selection. *)
Definition selected_member (l : Library) (r : MaterializationSelection) : option (list byte * BlobRow) :=
  match assets l !! ms_asset_id r, revisions l !! ms_asset_revision_id r, representations l !! ms_representation_id r,
        resources l !! ms_resource_id r, members l !! (ms_resource_id r, ms_member_ordinal r) with
  | Some _, Some v, Some n, Some s, Some m =>
      if bool_decide (v_asset v = ms_asset_id r) && bool_decide (n_revision n = ms_asset_revision_id r)
         && bool_decide (s_representation s = ms_representation_id r)
      then option_map (pair (m_digest m)) (blobs l !! m_digest m) else None
  | _, _, _, _, _ => None
  end.
Definition locations_at (l : Library) (digest backend_id : list byte) : list (Id * LocationRow) :=
  List.filter (fun '(_, r) => bool_decide (l_digest r = digest) && bool_decide (l_backend_id r = backend_id)) (map_to_list (locations l)).
Definition resolve_materialization (l : Library) (request : MaterializationSelection) : res ResolvedManagedMember :=
  let? (digest, blob) := ok_or SeNotFound (selected_member l request) in
  if negb (bool_decide (b_lifecycle blob = AssetModel.BlobAvailable)) then Err SeStorageCorruption
  else
    let? digest := checked_digest digest in
    let? byte_length := ok_or SeStorageCorruption (try_into 1099511627776 (b_length blob)) in
    match locations_at l digest (ms_current_backend_id request) with
    | [] => Err SeStorageConfiguration
    | [(i, loc)] =>
        if negb (bool_decide (l_custody loc = MANAGED)) || negb (bool_decide (l_durability loc = DURABLE))
           || negb (bool_decide (l_lifecycle loc = AVAILABLE)) || negb (bool_decide (l_locator loc = canonical_local_locator digest))
        then Err SeStorageCorruption
        else
          let? i := checked_id i in
          resolved_from_store request digest byte_length i (l_backend_id loc) (l_locator loc)
    | _ => Err SeStorageCorruption
    end.
End query.
End AssetQuery.
