(* ===== verification/AssetListing.v ===== *)
(** The listing of assets: following the cursor of [list_assets] to its end yields
    every asset that was registered when the listing started, once and in the order of
    registration, whatever is committed between two pages. *)
From Stdlib Require Import ZArith Lia String.
From Stdlib Require Import Strings.Byte Init.Byte.
From stdpp Require Import prelude list gmap sorting.
From S2P Require Import Prelude RustText Ord Types AssetDomain CreativeDomain Ports CommandLedger CreativeStore StoreScenario AssetStore AssetCommands AssetLedger AssetScenario StartupRecovery AssetQuery.

Set Warnings "-clear-no-such-hyp".

Module AssetListing.
Import Ports Ledger Assets Startup AssetQuery.

Abbreviation events l := (Store.events (base l)).

(** The log is numbered from one without gaps and the allocator stands at its end. *)
Definition dense (l : Library) : Prop :=
  (forall n e, events l !! n = Some e -> Store.de_sequence e = Z.of_nat n + 1) /\
  Store.last_sequence (base l) = Z.of_nat (length (events l)) /\ Z.of_nat (length (events l)) <= I64_MAX.

Section listing.
Context `{StoreEnv}.

(** Every registration in the log can be read. *)
Definition readable (l : Library) : Prop :=
  forall e, e ∈ events l -> is_registration e = true -> is_ok (read_registered_asset l (Store.de_sequence e) e) = true.
Definition registered (es : list Store.DomainEvent) : list (Id * Z) :=
  map (fun e => (Store.de_aggregate_id e, Store.de_sequence e)) (List.filter is_registration es).
Definition listed (a : AssetSummaryView) : Id * Z := (sv_asset_id a, sv_creation_commit_sequence a).

(** ** The rows of a scan *)

Lemma dense_drop l n e es : dense l -> drop n (events l) = e :: es -> Store.de_sequence e = Z.of_nat n + 1.
Proof.
  intros (Hd & _) E. apply Hd. replace n with (n + 0)%nat by lia. rewrite <- lookup_drop, E. done.
Qed.
Lemma filter_range l (a b : nat) :
  dense l -> (a <= b <= length (events l))%nat ->
  List.filter (fun e => (Z.of_nat a <? Store.de_sequence e) && (Store.de_sequence e <=? Z.of_nat b)) (events l)
  = take (b - a) (drop a (events l)).
Proof.
  intros (Hd & _) Hab.
  assert (forall k es, (forall n e, es !! n = Some e -> Store.de_sequence e = Z.of_nat (k + n) + 1) ->
    List.filter (fun e => (Z.of_nat a <? Store.de_sequence e) && (Store.de_sequence e <=? Z.of_nat b)) es
    = take (b - Nat.max a k) (drop (a - k) es)) as Hgen.
  { intros k es. revert k. induction es as [|e es IH]; intros k Hes; [by rewrite drop_nil, take_nil|].
    cbn [List.filter]. pose proof (Hes 0%nat e eq_refl) as He. rewrite (IH (S k)).
    2: { intros n e' He'. specialize (Hes (S n) e' He'). lia. }
    destruct (decide (a <= k)%nat) as [Hak|Hak].
    - replace (a - k)%nat with 0%nat by lia. replace (a - S k)%nat with 0%nat by lia. rewrite !drop_0.
      destruct (decide (k < b)%nat).
      + replace ((Z.of_nat a <? Store.de_sequence e) && (Store.de_sequence e <=? Z.of_nat b)) with true
          by (symmetry; apply andb_true_iff; split; [apply Z.ltb_lt|apply Z.leb_le]; lia).
        replace (b - Nat.max a k)%nat with (S (b - Nat.max a (S k))) by lia. done.
      + replace ((Z.of_nat a <? Store.de_sequence e) && (Store.de_sequence e <=? Z.of_nat b)) with false
          by (symmetry; apply andb_false_iff; right; apply Z.leb_gt; lia).
        replace (b - Nat.max a (S k))%nat with 0%nat by lia. by replace (b - Nat.max a k)%nat with 0%nat by lia.
    - replace ((Z.of_nat a <? Store.de_sequence e) && (Store.de_sequence e <=? Z.of_nat b)) with false
        by (symmetry; apply andb_false_iff; left; apply Z.ltb_ge; lia).
      replace (a - k)%nat with (S (a - S k)) by lia. cbn [drop]. f_equal. lia. }
  rewrite (Hgen 0%nat) by (intros n e; apply Hd). f_equal; [lia|]. by rewrite Nat.sub_0_r.
Qed.
(** [es] is numbered from [k]. *)
Definition numbered (k : nat) (es : list Store.DomainEvent) : Prop :=
  forall n e, es !! n = Some e -> Store.de_sequence e = Z.of_nat (k + n) + 1.
Lemma numbered_cons k e es : numbered k (e :: es) -> Store.de_sequence e = Z.of_nat k + 1 /\ numbered (S k) es.
Proof.
  intros Hn. split; [pose proof (Hn 0%nat e eq_refl); lia|]. intros n e' He. specialize (Hn (S n) e' He). lia.
Qed.
Lemma numbered_sorted k es : numbered k es -> StronglySorted (key_lt Store.de_sequence) es.
Proof.
  revert k. induction es as [|e es IH]; intros k Hn; [constructor|]. apply numbered_cons in Hn as [He Hn].
  constructor; [by eapply IH|]. apply Forall_lookup. intros n e' He'. apply Hn in He'. unfold key_lt, rlt, rcmp. cbn.
  apply Z.compare_lt_iff. lia.
Qed.
Lemma dense_numbered l a m : dense l -> numbered a (take m (drop a (events l))).
Proof.
  intros (Hd & _) n e He. apply lookup_take_Some in He as [He _]. rewrite lookup_drop in He. by apply Hd.
Qed.
Lemma scan_rows_dense l (a b : nat) :
  dense l -> (a <= b <= length (events l))%nat ->
  scan_rows l (Z.of_nat a) (Z.of_nat b) = take (Nat.min MAX_EVENT_SCAN (b - a)) (drop a (events l)).
Proof.
  intros Hd Hab. unfold scan_rows. rewrite filter_range by done.
  rewrite sort_by_id by (by eapply numbered_sorted, dense_numbered). by rewrite take_take.
Qed.
Lemma dense_max l : dense l -> max_event l = Z.of_nat (length (events l)).
Proof.
  intros Hd. unfold max_event. assert (forall k es, numbered k es ->
    foldr (fun e m => Z.max (Store.de_sequence e) m) 0 es = match es with [] => 0 | _ => Z.of_nat (k + length es) end) as Hgen.
  { intros k es. revert k. induction es as [|e es IH]; intros k Hn; [done|]. apply numbered_cons in Hn as [He Hn]. cbn [foldr length].
    rewrite (IH _ Hn), He. destruct es; cbn [length]; lia. }
  rewrite (Hgen 0%nat) by (intros n e; apply Hd). by destruct (events l).
Qed.

(** ** One page *)

Lemma existsb_false_all {A} (f : A -> bool) xs : (forall x, x ∈ xs -> f x = false) -> existsb f xs = false.
Proof.
  intros Hf. apply not_true_is_false. intros (x & Hx & E)%existsb_exists. apply list_elem_of_In in Hx. by rewrite Hf in E.
Qed.

Lemma read_listed l e a : read_registered_asset l (Store.de_sequence e) e = Ok a -> listed a = (Store.de_aggregate_id e, Store.de_sequence e).
Proof.
  unfold read_registered_asset, checked_id, id_bytes. intros Hr. inv_result. unfold listed. cbn. simplify_eq. done.
Qed.
Lemma scan_ok l size rows a found st :
  numbered a rows -> (forall e, e ∈ rows -> is_registration e = true -> is_ok (read_registered_asset l (Store.de_sequence e) e) = true) ->
  exists j more, (j <= length rows)%nat /\
    scan l size rows found (Z.of_nat a) st = Ok (found ++ more, Z.of_nat (a + j), st || (0 <? j)%nat) /\
    map listed more = registered (take j rows) /\ (j = length rows \/ size <= blen (found ++ more)) /\
    (blen found <= size -> blen (found ++ more) <= size).
Proof.
  revert a found st. induction rows as [|e rows IH]; intros a found st Hn Hok; cbn [scan].
  { exists 0%nat, []. rewrite app_nil_r, Nat.add_0_r, orb_false_r. destruct (size <=? blen found); by auto 6. }
  destruct (size <=? blen found) eqn:Es.
  { apply Z.leb_le in Es. exists 0%nat, []. rewrite app_nil_r, Nat.add_0_r, orb_false_r. split; [cbn; lia|]. by auto. }
  apply Z.leb_gt in Es. apply numbered_cons in Hn as [He Hn]. unfold valid_sequence. rewrite (proj2 (Z.ltb_ge _ _)) by lia. cbn [result_bind].
  rewrite He, Z.eqb_refl. cbn [negb]. assert (forall e, e ∈ rows -> is_registration e = true ->
    is_ok (read_registered_asset l (Store.de_sequence e) e) = true) as Hok' by (intros; apply Hok; set_solver).
  replace (Z.of_nat a + 1) with (Z.of_nat (S a)) by lia.
  destruct (is_registration e) eqn:Er.
  - specialize (Hok e ltac:(set_solver) Er). assert (Store.de_sequence e = Z.of_nat (S a)) as He' by lia. clear He. rename He' into He. rewrite He in Hok.
    destruct (read_registered_asset l (Z.of_nat (S a)) e) as [v|] eqn:Ev; [|done]. cbn [result_bind].
    destruct (IH (S a) (found ++ [v]) true Hn Hok') as (j & more & Hj & -> & Hm & Hend & Hle).
    exists (S j), (v :: more). rewrite <- app_assoc in *. cbn [length app take]. split; [lia|]. split.
    { rewrite orb_true_r. by replace (a + S j)%nat with (S a + j)%nat by lia. }
    split; [|split; [destruct Hend; [left; lia|by right]|intros _; apply Hle; unfold blen in *; rewrite length_app; cbn; lia]].
    unfold registered. cbn [List.filter map]. rewrite Er. cbn [map]. rewrite Hm. f_equal. apply (read_listed l).
    by rewrite He.
  - destruct (IH (S a) found true Hn Hok') as (j & more & Hj & -> & Hm & Hend & Hle).
    exists (S j), more. cbn [length take]. split; [lia|]. split; [rewrite orb_true_r; by replace (a + S j)%nat with (S a + j)%nat by lia|].
    split; [|split; [destruct Hend; [left; lia|by right]|done]]. unfold registered. cbn [List.filter]. by rewrite Er.
Qed.
Lemma registered_bound k es x : numbered k es -> x ∈ registered es -> x.2 <= Z.of_nat (k + length es).
Proof.
  intros Hn Hx. unfold registered in Hx. apply list_elem_of_fmap in Hx as (e & -> & He). apply list_elem_of_In, filter_In in He as [He _].
  apply list_elem_of_In, list_elem_of_lookup in He as [n Hl]. cbn. rewrite (Hn n e Hl). apply lookup_lt_Some in Hl. lia.
Qed.
Lemma require_event_ok l (n : nat) : dense l -> (0 < n <= length (events l))%nat -> require_event l (Z.of_nat n) = Ok tt.
Proof.
  intros (Hd & _) Hn. unfold require_event.
  assert (existsb (fun e => Store.de_sequence e =? Z.of_nat n) (events l) = true) as ->; [|done].
  destruct (lookup_lt_is_Some_2 (events l) (n - 1)) as [e He]; [lia|]. apply existsb_exists. exists e.
  split; [apply list_elem_of_In; by eapply list_elem_of_lookup_2|]. apply Z.eqb_eq. rewrite (Hd _ _ He). lia.
Qed.

(** The page that continues after [a] towards the snapshot [b]. *)
Definition stands (l : Library) (library_id : Id) (position : ListAssetsPosition) (a b : nat) : Prop :=
  position = First /\ a = 0%nat /\ b = length (events l) \/ position = After library_id (Z.of_nat b) (Z.of_nat a) /\ (0 < a)%nat.
Lemma list_start_ok l library_id position (a b : nat) :
  dense l -> stands l library_id position a b -> (a < b <= length (events l))%nat ->
  list_start l library_id position = Ok (Z.of_nat b, Z.of_nat a).
Proof.
  intros Hd Hs Hab. unfold list_start. rewrite dense_max by done. pose proof Hd as (_ & -> & Hmax). unfold valid_sequence.
  rewrite (proj2 (Z.ltb_ge _ _)) by lia. cbn [result_bind]. destruct Hs as [(-> & -> & ->)|[-> Ha]]; [by rewrite Z.eqb_refl|].
  rewrite bool_decide_eq_true_2 by done. rewrite (proj2 (Z.eqb_neq (Z.of_nat b) 0)), (proj2 (Z.ltb_ge I64_MAX (Z.of_nat b))),
    (proj2 (Z.eqb_neq (Z.of_nat a) 0)), (proj2 (Z.leb_gt (Z.of_nat b) (Z.of_nat a))) by lia.
  cbn [negb orb]. rewrite (proj2 (Z.ltb_ge _ _)) by lia. rewrite !require_event_ok by (done || lia). done.
Qed.
Lemma page_ok l library_id size position (a b : nat) :
  dense l -> readable l -> library_id <> zero_library -> 1 <= size <= 64 -> stands l library_id position a b ->
  (a < b <= length (events l))%nat ->
  exists j more, (1 <= j /\ a + j <= b)%nat /\ map listed more = registered (take j (drop a (events l))) /\
    list_assets l library_id {| lq_page_size := size; lq_position := position |} = Ok {|
      ap_snapshot_sequence := Z.of_nat b; ap_assets := more;
      ap_next := if decide (a + j = b)%nat then None else Some (After library_id (Z.of_nat b) (Z.of_nat (a + j))) |}.
Proof.
  intros Hd Hr Hlib Hsize Hs Hab. unfold list_assets. cbn [lq_position lq_page_size]. rewrite (list_start_ok _ _ _ a b) by done.
  cbn [result_bind]. rewrite (proj2 (Z.eqb_neq (Z.of_nat b) 0)) by lia. rewrite scan_rows_dense by (done || lia).
  set (rows := take _ _).
  destruct (scan_ok l size rows a [] false) as (j & more & Hj & -> & Hm & Hend & Hle).
  { by apply dense_numbered. }
  { intros e He. apply Hr. apply elem_of_take in He as (n & He & _). rewrite lookup_drop in He. by eapply list_elem_of_lookup_2. }
  assert (length rows = Nat.min MAX_EVENT_SCAN (b - a)) as Hlen by (unfold rows; rewrite length_take, length_drop; lia).
  assert (1 <= j /\ a + j <= b)%nat as Hj'.
  { unfold MAX_EVENT_SCAN in *. split; [|lia]. destruct Hend as [->|Hend]; [lia|]. destruct j; [|lia]. destruct more; [unfold blen in Hend; cbn in Hend; lia|done]. }
  exists j, more. split; [done|]. assert (take j rows = take j (drop a (events l))) as Ht.
  { unfold rows. rewrite take_take. f_equal. lia. }
  rewrite <- Ht. split; [done|]. cbn [result_bind app]. rewrite (proj2 (Nat.ltb_lt 0 j)) by lia. cbn [orb negb andb].
  assert (asset_page_from_store (Z.of_nat b) more = fun next => Ok {| ap_snapshot_sequence := Z.of_nat b; ap_assets := more; ap_next := next |}) as ->.
  { unfold asset_page_from_store. rewrite (proj2 (Z.ltb_ge 64 (blen more))) by (unfold blen in *; cbn in Hle; lia).
    rewrite (existsb_false_all _ more); [done|]. intros x Hx. apply Z.ltb_ge.
    assert (listed x ∈ registered (take j rows)) as Hin by (rewrite <- Hm; by apply list_elem_of_fmap_2).
    apply (registered_bound a) in Hin; [cbn in Hin; rewrite length_take in Hin; lia|]. rewrite Ht. by apply dense_numbered. }
  destruct (decide (a + j = b)%nat) as [E|E]; [by rewrite E, Z.eqb_refl|].
  rewrite (proj2 (Z.eqb_neq (Z.of_nat (a + j)) (Z.of_nat b))) by lia. unfold position_after. destruct Hd as (_ & _ & Hmax).
  rewrite bool_decide_eq_false_2 by done. rewrite (proj2 (Z.eqb_neq (Z.of_nat b) 0)), (proj2 (Z.ltb_ge I64_MAX (Z.of_nat b))),
    (proj2 (Z.eqb_neq (Z.of_nat (a + j)) 0)), (proj2 (Z.leb_gt (Z.of_nat b) (Z.of_nat (a + j)))) by lia. done.
Qed.

(** ** Following the cursor *)

(** A client that asks for page after page; the library may have grown between two of
    them. *)
Fixpoint follow (fuel : nat) (view : nat -> Library) (library_id : Id) (size : Z) (position : ListAssetsPosition) (t : nat)
  : res (list AssetSummaryView) :=
  match fuel with
  | O => Err SeInternal
  | S fuel =>
      let? q := list_assets_query_new size position in
      let? page := list_assets (view t) library_id q in
      match ap_next page with
      | None => Ok (ap_assets page)
      | Some next => let? rest := follow fuel view library_id size next (S t) in Ok (ap_assets page ++ rest)
      end
  end.

Lemma registered_app es es' : registered (es ++ es') = registered es ++ registered es'.
Proof. unfold registered. by rewrite List.filter_app, map_app. Qed.
Lemma query_new_ok size position :
  1 <= size <= 64 -> list_assets_query_new size position = Ok {| lq_page_size := size; lq_position := position |}.
Proof.
  intros Hs. unfold list_assets_query_new. rewrite try_into_id by (unfold U8_MAX; lia). cbn [ok_or result_bind].
  by rewrite (proj2 (Z.leb_le 1 size)), (proj2 (Z.leb_le size 64)) by lia.
Qed.
Lemma follow_ok view library_id size snapshot fuel t position (a : nat) :
  library_id <> zero_library -> 1 <= size <= 64 -> (forall t, dense (view t) /\ readable (view t)) ->
  (forall t', (t <= t')%nat -> snapshot `prefix_of` events (view t')) ->
  stands (view t) library_id position a (length snapshot) -> (a < length snapshot)%nat -> (length snapshot - a <= fuel)%nat ->
  exists found, follow fuel view library_id size position t = Ok found /\ map listed found = registered (drop a snapshot).
Proof.
  intros Hlib Hsize Hview. revert t position a. induction fuel as [|fuel IH]; intros t position a Hpre Hs Ha Hfuel; [lia|].
  destruct (Hview t) as [Hd Hr]. destruct (Hpre t (le_n t)) as [more Hmore].
  assert (a < length snapshot <= length (events (view t)))%nat as Hab by (rewrite Hmore, length_app; lia).
  destruct (page_ok (view t) library_id size position a (length snapshot) Hd Hr Hlib Hsize Hs Hab) as (j & found & Hj & Hm & Hp).
  cbn [follow]. rewrite query_new_ok by done. cbn [result_bind]. rewrite Hp. cbn [result_bind ap_next ap_assets].
  assert (take j (drop a (events (view t))) = take j (drop a snapshot)) as Ht.
  { rewrite Hmore, drop_app_le by lia. rewrite take_app_le; [done|]. rewrite length_drop. lia. }
  rewrite Ht in Hm. destruct (decide (a + j = length snapshot)%nat) as [E|E].
  - exists found. split; [done|]. by rewrite Hm, take_ge by (rewrite length_drop; lia).
  - destruct (IH (S t) (After library_id (Z.of_nat (length snapshot)) (Z.of_nat (a + j))) (a + j)%nat) as (rest & -> & Hrest); try lia.
    { intros t' Ht'. apply Hpre. lia. }
    { right. split; [done|lia]. }
    exists (found ++ rest). split; [done|]. rewrite map_app, Hm, Hrest, <- registered_app. f_equal.
    by rewrite <- drop_drop, take_drop.
Qed.
End listing.

(** Following the cursor of the asset listing ends after at most one page for every
    event of the log the listing started on, and yields exactly the assets registered
    in that log, each once and in the order of their registration, whatever is committed
    between two pages. *)
Lemma listing_exact `{StoreEnv} (view : nat -> Library) (library_id : Id) (size : Z) :
  library_id <> zero_library -> 1 <= size <= 64 -> (forall t, dense (view t) /\ readable (view t)) ->
  (forall t, events (view t) `prefix_of` events (view (S t))) ->
  exists found, follow (S (length (events (view 0%nat)))) view library_id size First 0 = Ok found /\
    map listed found = registered (events (view 0%nat)).
Proof.
  intros Hlib Hsize Hview Hgrow. destruct (events (view 0%nat)) as [|e es] eqn:Ee.
  - exists []. split; [|done]. cbn [follow length]. rewrite query_new_ok by done. cbn [result_bind]. unfold list_assets, list_start.
    destruct (Hview 0%nat) as [Hd _]. cbn [lq_position]. rewrite (dense_max _ Hd). destruct Hd as (_ & -> & _). by rewrite Ee.
  - rewrite <- Ee. apply (follow_ok view library_id size (events (view 0%nat)) _ 0%nat First 0%nat); try done.
    + intros t _. induction t as [|t IH]; [done|]. by etransitivity.
    + by left.
    + rewrite Ee. cbn. lia.
    + lia.
Qed.

(** ** A listing while the library grows *)

#[local] Existing Instance Scenario.env.
Definition growing (t : nat) : Library :=
  match t with
  | O => AssetScenario.ingested
  | _ => AssetLedger.run AssetScenario.ingested [(Scenario.ctx, AssetScenario.retire); (Scenario.ctx, AssetScenario.restore)]
  end.
Definition dense_check (l : Library) : bool :=
  bool_decide (map Store.de_sequence (events l) = map (fun n => Z.of_nat n + 1) (seq 0 (length (events l))))
  && (Store.last_sequence (base l) =? Z.of_nat (length (events l))) && (Z.of_nat (length (events l)) <=? I64_MAX).
Lemma dense_check_ok l : dense_check l = true -> dense l.
Proof.
  unfold dense_check. intros Hc. bool_hyps. split; [|done]. intros n e He.
  assert (map Store.de_sequence (events l) !! n = Some (Store.de_sequence e)) as Hn by (by rewrite list_lookup_fmap, He).
  match goal with E : map _ _ = _ |- _ => rewrite E, list_lookup_fmap in Hn end.
  apply lookup_lt_Some in He. rewrite lookup_seq_lt in Hn by done. cbn in Hn. by simplify_eq.
Qed.
Lemma readable_check l :
  forallb (fun e => negb (is_registration e) || is_ok (read_registered_asset l (Store.de_sequence e) e)) (events l) = true -> readable l.
Proof.
  intros Hf e He Hr. rewrite forallb_forall in Hf. specialize (Hf e ltac:(by apply list_elem_of_In)). by rewrite Hr in Hf.
Qed.
End AssetListing.
