(* ===== verification/AssetInspect.v ===== *)
(** Inspecting one asset: [inspect_asset] of mengxia-store-sqlite/src/asset_query.rs,
    with the positions and pages of mengxia-ports.  The budget of SELECT statements is
    threaded through every read, as in the source. *)
From Stdlib Require Import ZArith Lia String.
From Stdlib Require Import Strings.Byte Init.Byte.
From stdpp Require Import prelude list gmap.
From S2P Require Import Prelude RustText Ord Types AssetDomain CreativeDomain Ports CommandLedger CreativeStore AssetStore AssetQuery.

Set Warnings "-clear-no-such-hyp".

Module Inspect.
Import Ports Ledger Assets AssetQuery.

(** ** Positions, requests and pages *)

Inductive InspectMemberPhase := NoLocationSeen | LocationSeen | RequiredCustodySeen.
#[global] Instance phase_eq_dec : EqDecision InspectMemberPhase. Proof. solve_decision. Defined.
Definition MemberKey : Type := Id * Id * Z.
Record InspectAssetPosition := {
  ip_library_id : Id; ip_asset_id : Id; ip_selected_revision_id : Id; ip_asset_revision : Z; ip_member : option MemberKey;
  ip_phase : option InspectMemberPhase; ip_blob_revision : option Z; ip_last_location_id : option Id }.
Definition location_phase_is_consistent (phase : option InspectMemberPhase) (last : option Id) : bool :=
  match phase, last with
  | Some NoLocationSeen, None => true
  | Some (LocationSeen | RequiredCustodySeen), Some _ => true
  | _, _ => false
  end.
Definition inspect_asset_position_new (p : InspectAssetPosition) : res InspectAssetPosition :=
  let before_first := none (ip_member p) && none (ip_phase p) && none (ip_blob_revision p) && none (ip_last_location_id p) in
  let enumerating := negb (none (ip_member p)) && match ip_blob_revision p with Some r => negb (r =? 0) | None => false end
    && location_phase_is_consistent (ip_phase p) (ip_last_location_id p) in
  if bool_decide (ip_library_id p = zero_library) || (ip_asset_revision p =? 0) || negb (before_first || enumerating)
  then Err SeValidation else Ok p.

Inductive InspectAssetStart := StartFirst | StartContinue (position : InspectAssetPosition).
Record InspectAssetQuery := {
  iq_asset_id : Id; iq_selected_revision_id : option Id; iq_page_size : Z; iq_start : InspectAssetStart }.
Definition inspect_asset_query_new (asset_id : Id) (selected_revision_id : option Id) (page_size : Z) (start : InspectAssetStart)
  : res InspectAssetQuery :=
  let? page_size := ok_or SeValidation (try_into U8_MAX page_size) in
  if negb ((1 <=? page_size) && (page_size <=? 64)) then Err SeValidation
  else if match start with
          | StartContinue p => negb (bool_decide (ip_asset_id p = asset_id))
              || match selected_revision_id with Some r => negb (bool_decide (r = ip_selected_revision_id p)) | None => false end
          | StartFirst => false
          end
  then Err SeValidation
  else Ok {| iq_asset_id := asset_id; iq_selected_revision_id := selected_revision_id; iq_page_size := page_size; iq_start := start |}.

Record AssetLocationView := {
  lv_location_id : Id; lv_lifecycle : LocationLifecycle; lv_custody : Custody; lv_durability : Durability }.
Record AssetMemberView := {
  mv_representation_id : Id; mv_representation_purpose : list byte; mv_resource_id : Id; mv_resource_kind : list byte;
  mv_member_ordinal : Z; mv_logical_name : list byte; mv_blob_digest : list byte; mv_byte_length : Z;
  mv_media_type : option (list byte); mv_location : option AssetLocationView }.
Record AssetMemberPage := {
  mp_asset : AssetSummaryView; mp_selected_revision_id : Id; mp_revision_sequence : Z; mp_content_kind : list byte;
  mp_custody : Custody; mp_parent_revision_ids : list Id; mp_members : list AssetMemberView; mp_next : option InspectAssetPosition }.
Definition member_page_from_store (p : AssetMemberPage) : res AssetMemberPage :=
  if (mp_revision_sequence p =? 0) || (64 <? blen (mp_parent_revision_ids p)) || (64 <? blen (mp_members p))
  then Err SeStorageCorruption else Ok p.

(** ** The budget *)

Definition MAX_INSPECT_SELECTS : Z := 512.
(** A read that has used so many SELECT statements. *)
Definition Q (A : Type) : Type := Z -> res (A * Z).
#[global] Instance Q_ret : MRet Q := fun A a used => Ok (a, used).
#[global] Instance Q_bind : MBind Q := fun A B k m used => let? (a, used) := m used in k a used.
Definition failing {A} (e : AssetStoreError) : Q A := fun _ => Err e.
Definition lift {A} (r : res A) : Q A := fun used => let? a := r in Ok (a, used).
Definition consume (count : Z) : Q () := fun used =>
  match checked_add U64_MAX used count with
  | Some used => if used <=? MAX_INSPECT_SELECTS then Ok (tt, used) else Err SeInternal
  | None => Err SeInternal
  end.

Section inspect.
Context `{StoreEnv}.

(** ** The asset and its revision *)

Definition registered_event (l : Library) (asset_id : Id) : res (Z * Store.DomainEvent) :=
  match take 2 (sort_by Store.de_sequence (List.filter (fun e => bool_decide (Store.de_aggregate_kind e = bs "ASSET")
          && bool_decide (Store.de_aggregate_id e = asset_id) && is_registration e) (Store.events (base l)))) with
  | [] => Err SeNotFound
  | e :: rest =>
      let? sequence := valid_sequence (Store.de_sequence e) in
      match rest with [] => Ok (sequence, e) | _ => Err SeStorageCorruption end
  end.

Definition read_revision (l : Library) (asset_id revision_id : Id) : Q (Z * list byte * Custody) :=
  _ ← consume 1;
  lift (
    let? row := ok_or SeNotFound (match revisions l !! revision_id with
                                  | Some r => if bool_decide (v_asset r = asset_id) then Some r else None
                                  | None => None end) in
    let? sequence := ok_or SeStorageCorruption (try_into U32_MAX (v_sequence row)) in
    if sequence =? 0 then Err SeStorageCorruption
    else
      let? content_kind := map_err (fun _ => SeStorageCorruption) (AssetModel.token_new (v_content_kind row)) in
      Ok (sequence, content_kind, v_custody row)).

(** The loop over the parents: they are numbered from zero and there are at most 64. *)
Fixpoint collect_parents (rows : list ParentRow) (found : list Id) : res (list Id) :=
  match rows with
  | [] => Ok found
  | r :: rest =>
      let? ordinal := ok_or SeStorageCorruption (try_into U64_MAX (p_ordinal r)) in
      if negb (ordinal =? blen found) || (blen found =? 64) then Err SeStorageCorruption
      else let? i := checked_id (p_parent r) in collect_parents rest (found ++ [i])
  end.
Definition read_parents (l : Library) (asset_id revision_id : Id) : Q (list Id) :=
  _ ← consume 1;
  lift (collect_parents (take 65 (sort_by p_ordinal (List.filter
    (fun r => bool_decide (p_asset r = asset_id) && bool_decide (p_child r = revision_id)) (parents l)))) []).

(** Identities in the order of the index. *)
Definition representation_ids (l : Library) (revision_id : Id) : list Id := btree_collect (representations_of l revision_id).
Definition resource_ids (l : Library) (representation_id : Id) : list Id := btree_collect (resources_of l representation_id).
Definition ordinals (l : Library) (resource_id : Id) : list Z := btree_collect (map fst (members_of l resource_id)).
(** The first value after a key. *)
Definition first_after {A} `{RustOrd A} (key : A) (values : list A) : option A :=
  head (List.filter (fun v => bool_decide (rlt key v)) values).

Fixpoint typed_ids (values : list Id) : res (list Id) :=
  match values with
  | [] => Ok []
  | i :: rest => let? i := checked_id i in let? rest := typed_ids rest in Ok (i :: rest)
  end.
Definition validate_representations (l : Library) (revision_id : Id) : Q () :=
  _ ← consume 1;
  lift (let? found := typed_ids (take 65 (representation_ids l revision_id)) in
        if (blen found =? 0) || (64 <? blen found) then Err SeStorageCorruption else Ok tt).
Definition first_resource (l : Library) (representation_id : Id) : Q Id :=
  _ ← consume 1;
  lift (let? found := typed_ids (take 65 (resource_ids l representation_id)) in
        if 64 <? blen found then Err SeStorageCorruption
        else match found with [] => Err SeStorageCorruption | i :: _ => Ok i end).

(** ** Members *)

Record Member := {
  me_representation_id : Id; me_representation_purpose : list byte; me_resource_id : Id; me_resource_kind : list byte;
  me_ordinal : Z; me_logical_name : list byte; me_blob_digest : list byte; me_byte_length : Z;
  me_media_type : option (list byte); me_blob_revision : Z }.
Definition member_view (m : Member) (location : option AssetLocationView) : AssetMemberView := {|
  mv_representation_id := me_representation_id m; mv_representation_purpose := me_representation_purpose m;
  mv_resource_id := me_resource_id m; mv_resource_kind := me_resource_kind m; mv_member_ordinal := me_ordinal m;
  mv_logical_name := me_logical_name m; mv_blob_digest := me_blob_digest m; mv_byte_length := me_byte_length m;
  mv_media_type := me_media_type m; mv_location := location |}.
Definition member_position (m : Member) (library_id asset_id selected_revision_id : Id) (asset_revision : Z)
    (phase : InspectMemberPhase) (last_location_id : option Id) : res InspectAssetPosition :=
  inspect_asset_position_new {|
    ip_library_id := library_id; ip_asset_id := asset_id; ip_selected_revision_id := selected_revision_id;
    ip_asset_revision := asset_revision; ip_member := Some (me_representation_id m, me_resource_id m, me_ordinal m);
    ip_phase := Some phase; ip_blob_revision := Some (me_blob_revision m); ip_last_location_id := last_location_id |}.

(** The join behind a member. *)
Definition member_row (l : Library) (revision_id : Id) (key : MemberKey) : option (RepresentationRow * ResourceRow * MemberRow * BlobRow) :=
  let '(rep, rsc, ordinal) := key in
  match representations l !! rep, resources l !! rsc, members l !! (rsc, ordinal) with
  | Some n, Some s, Some m =>
      if bool_decide (n_revision n = revision_id) && bool_decide (s_representation s = rep)
      then option_map (pair (n, s, m)) (blobs l !! m_digest m) else None
  | _, _, _ => None
  end.
Definition read_member (l : Library) (revision_id : Id) (key : MemberKey) : Q Member :=
  _ ← consume 1;
  lift (
    let? (n, s, m, b) := ok_or SeValidation (member_row l revision_id key) in
    if negb (bool_decide (b_lifecycle b = AssetModel.BlobAvailable)) then Err SeStorageCorruption
    else
      let corrupt {E A} (r : result E A) := map_err (fun _ => SeStorageCorruption) r in
      let? purpose := corrupt (AssetModel.token_new (n_purpose n)) in
      let? kind := corrupt (AssetModel.token_new (s_kind s)) in
      let? name := corrupt (AssetModel.logical_name_new (m_name m)) in
      let? digest := checked_digest (m_digest m) in
      let? byte_length := ok_or SeStorageCorruption (try_into 1099511627776 (b_length b)) in
      let? _ := check_media_type (b_media_type b) in
      let? blob_revision := parse_revision (b_revision b) in
      Ok {| me_representation_id := key.1.1; me_representation_purpose := purpose; me_resource_id := key.1.2;
            me_resource_kind := kind; me_ordinal := key.2; me_logical_name := name; me_blob_digest := digest;
            me_byte_length := byte_length; me_media_type := b_media_type b; me_blob_revision := blob_revision |}).

Definition first_member_in_resource (l : Library) (revision_id representation_id resource_id : Id) : Q (option Member) :=
  _ ← consume 1;
  ordinal ← lift (ok_or SeStorageCorruption (head (ordinals l resource_id)));
  ordinal ← lift (ok_or SeStorageCorruption (try_into U32_MAX ordinal));
  if negb (ordinal =? 0) then failing SeStorageCorruption
  else m ← read_member l revision_id (representation_id, resource_id, ordinal); mret (Some m).
Definition first_member_in_representation (l : Library) (revision_id representation_id : Id) : Q (option Member) :=
  resource ← first_resource l representation_id;
  first_member_in_resource l revision_id representation_id resource.
Definition first_member (l : Library) (revision_id : Id) : Q (option Member) :=
  _ ← consume 1;
  match head (representation_ids l revision_id) with
  | None => mret None
  | Some representation =>
      representation ← lift (checked_id representation);
      first_member_in_representation l revision_id representation
  end.
Definition next_member (l : Library) (revision_id : Id) (current : Member) : Q (option Member) :=
  _ ← consume 1;
  match first_after (me_ordinal current) (ordinals l (me_resource_id current)) with
  | Some ordinal =>
      ordinal ← lift (ok_or SeStorageCorruption (try_into U32_MAX ordinal));
      expected ← lift (ok_or SeStorageCorruption (checked_add U32_MAX (me_ordinal current) 1));
      if negb (ordinal =? expected) then failing SeStorageCorruption
      else m ← read_member l revision_id (me_representation_id current, me_resource_id current, ordinal); mret (Some m)
  | None =>
      _ ← consume 1;
      match first_after (me_resource_id current) (resource_ids l (me_representation_id current)) with
      | Some resource =>
          resource ← lift (checked_id resource);
          first_member_in_resource l revision_id (me_representation_id current) resource
      | None =>
          _ ← consume 1;
          match first_after (me_representation_id current) (representation_ids l revision_id) with
          | Some representation =>
              representation ← lift (checked_id representation);
              first_member_in_representation l revision_id representation
          | None => mret None
          end
      end
  end.

(** ** Locations *)

Definition parse_location (row : Id * LocationRow) : res (AssetLocationView * bool) :=
  let? i := checked_id row.1 in
  Ok ({| lv_location_id := i; lv_lifecycle := l_lifecycle row.2; lv_custody := l_custody row.2; lv_durability := l_durability row.2 |},
      bool_decide (l_custody row.2 = MANAGED) && bool_decide (l_durability row.2 = DURABLE)).
Fixpoint parse_locations (rows : list (Id * LocationRow)) : res (list (AssetLocationView * bool)) :=
  match rows with
  | [] => Ok []
  | r :: rest => let? v := parse_location r in let? rest := parse_locations rest in Ok (v :: rest)
  end.
(** [WHERE blob_digest=? ORDER BY backend_id, location_id]. *)
Definition location_key (row : Id * LocationRow) : list byte * Id := (l_backend_id row.2, row.1).
Definition locations_of (l : Library) (digest : list byte) : list (Id * LocationRow) :=
  sort_by location_key (List.filter (fun '(_, r) => bool_decide (l_digest r = digest)) (map_to_list (locations l))).
Definition read_locations (l : Library) (digest : list byte) (last_location_id : option Id) (limit : nat)
  : Q (list (AssetLocationView * bool)) :=
  match last_location_id with
  | Some last =>
      _ ← consume 1;
      cursor ← lift (ok_or SeValidation (locations l !! last));
      cursor_digest ← lift (checked_digest (l_digest cursor));
      if negb (bool_decide (cursor_digest = digest)) then failing SeValidation
      else
        _ ← consume 1;
        lift (parse_locations (take limit (List.filter
          (fun r => bool_decide (rlt (l_backend_id cursor, last) (location_key r))) (locations_of l digest))))
  | None =>
      _ ← consume 1;
      lift (parse_locations (take limit (locations_of l digest)))
  end.
Definition phase_after (current : InspectMemberPhase) (managed_durable : bool) : InspectMemberPhase :=
  if bool_decide (current = RequiredCustodySeen) || managed_durable then RequiredCustodySeen else LocationSeen.

(** ** The page *)

Section page.
Context (l : Library) (library_id asset_id selected_revision_id : Id) (asset_revision : Z) (custody : Custody) (page_size : nat).

(** The loop over the locations of a member that fit the page. *)
Fixpoint push_locations (member : Member) (found : list (AssetLocationView * bool)) (phase : InspectMemberPhase)
    (last_location : option Id) (output : list AssetMemberView) : InspectMemberPhase * option Id * list AssetMemberView :=
  match found with
  | [] => (phase, last_location, output)
  | (view, managed_durable) :: rest =>
      push_locations member rest (phase_after phase managed_durable) (Some (lv_location_id view)) (output ++ [member_view member (Some view)])
  end.
(** The end of one turn: on to the next member, or to the end of the page. *)
Definition finish_turn (member : Member) (output : list AssetMemberView)
  : Q (option Member * list AssetMemberView * option InspectAssetPosition) :=
  following ← next_member l selected_revision_id member;
  if (length output =? page_size)%nat then
    next ← match following with
           | Some following =>
               p ← lift (member_position following library_id asset_id selected_revision_id asset_revision NoLocationSeen None);
               mret (Some p)
           | None => mret None
           end;
    mret (None, output, next)
  else mret (following, output, None).
(** One turn of the loop over the members. *)
Definition turn (member : Member) (phase : InspectMemberPhase) (last_location : option Id) (output : list AssetMemberView)
  : Q (option Member * list AssetMemberView * option InspectAssetPosition) :=
  let remaining := (page_size - length output)%nat in
  found ← read_locations l (me_blob_digest member) last_location (S remaining);
  if bool_decide (found = []) && none last_location then
    if bool_decide (custody = MANAGED) then failing SeStorageCorruption
    else finish_turn member (output ++ [member_view member None])
  else
    let '(phase, last_location, output) := push_locations member (take remaining found) phase last_location output in
    if (remaining <? length found)%nat then
      next ← lift (member_position member library_id asset_id selected_revision_id asset_revision phase last_location);
      mret (None, output, Some next)
    else if bool_decide (custody = MANAGED) && negb (bool_decide (phase = RequiredCustodySeen)) then failing SeStorageCorruption
    else finish_turn member output.
(** [while let Some(member) = current]. *)
Fixpoint walk (fuel : nat) (member : Member) (phase : InspectMemberPhase) (last_location : option Id) (output : list AssetMemberView)
  : Q (list AssetMemberView * option InspectAssetPosition) :=
  match fuel with
  | O => failing SeInternal
  | S fuel =>
      r ← turn member phase last_location output;
      match r with
      | (Some following, output, _) => walk fuel following NoLocationSeen None output
      | (None, output, next) => mret (output, next)
      end
  end.
End page.

(** Whether the asset is unknown, or known without its event. *)
Definition unregistered (l : Library) (asset_id : Id) (e : AssetStoreError) : Q (Z * Store.DomainEvent) :=
  match e with
  | SeNotFound => _ ← consume 1; failing (match assets l !! asset_id with Some _ => SeStorageCorruption | None => SeNotFound end)
  | _ => failing e
  end.
(** [ORDER BY sequence DESC LIMIT 1]. *)
Definition latest_revision (l : Library) (asset_id : Id) : option Id :=
  option_map fst (list.last (sort_by (fun r => v_sequence r.2)
    (List.filter (fun '(_, r) => bool_decide (v_asset r = asset_id)) (map_to_list (revisions l))))).
Definition select_revision (l : Library) (library_id : Id) (request : InspectAssetQuery) (asset : AssetSummaryView)
  : Q (Id * option InspectAssetPosition) :=
  match iq_start request with
  | StartFirst =>
      selected ← match iq_selected_revision_id request with
                 | Some selected => mret selected
                 | None => _ ← consume 1;
                           i ← lift (ok_or SeStorageCorruption (latest_revision l (iq_asset_id request))); lift (checked_id i)
                 end;
      mret (selected, None)
  | StartContinue position =>
      if negb (bool_decide (ip_library_id position = library_id)) || negb (bool_decide (ip_asset_id position = iq_asset_id request))
      then failing SeValidation
      else if negb (ip_asset_revision position =? sv_revision asset) then failing SeConflict
      else mret (ip_selected_revision_id position, Some position)
  end.
(** The member the page starts at. *)
Definition start_member (l : Library) (revision_id : Id) (position : option InspectAssetPosition) : Q Member :=
  match position ≫= ip_member with
  | Some key => _ ← first_resource l key.1.1; read_member l revision_id key
  | None => m ← first_member l revision_id; lift (ok_or SeStorageCorruption m)
  end.

Definition inspect_asset_in (l : Library) (library_id : Id) (request : InspectAssetQuery) : Q AssetMemberPage :=
  let asset_id := iq_asset_id request in
  _ ← consume 1;
  e ← match registered_event l asset_id with Ok e => mret e | Err e => unregistered l asset_id e end;
  _ ← consume 2;
  asset ← lift (read_registered_asset l e.1 e.2);
  s ← select_revision l library_id request asset;
  let '(selected_revision_id, cursor_position) := s in
  revision ← read_revision l asset_id selected_revision_id;
  let '(sequence, content_kind, custody) := revision in
  parent_ids ← read_parents l asset_id selected_revision_id;
  _ ← validate_representations l selected_revision_id;
  member ← start_member l selected_revision_id cursor_position;
  if match cursor_position with Some p => negb (bool_decide (ip_blob_revision p = Some (me_blob_revision member))) | None => false end
  then failing SeConflict
  else
    let phase := default NoLocationSeen (cursor_position ≫= ip_phase) in
    let last_location := cursor_position ≫= ip_last_location_id in
    let page_size := Z.to_nat (iq_page_size request) in
    r ← walk l library_id asset_id selected_revision_id (sv_revision asset) custody page_size (S (S page_size)) member phase last_location [];
    let '(output, next) := r in
    if bool_decide (output = []) && negb (none next) then failing SeInternal
    else lift (member_page_from_store {|
      mp_asset := asset; mp_selected_revision_id := selected_revision_id; mp_revision_sequence := sequence;
      mp_content_kind := content_kind; mp_custody := custody; mp_parent_revision_ids := parent_ids; mp_members := output;
      mp_next := next |}).
Definition inspect_asset (l : Library) (library_id : Id) (request : InspectAssetQuery) : res AssetMemberPage :=
  let? (page, _) := inspect_asset_in l library_id request 0 in Ok page.
End inspect.
End Inspect.
