(* ===== verification/InspectBudget.v ===== *)
(** The inspection of an asset stays within its budget of SELECT statements: whatever
    the library and the cursor, no page needs more than 468 of the 512, the loop over
    the members ends, and the internal errors of the code are unreachable. *)
From Stdlib Require Import ZArith Lia String.
From Stdlib Require Import Strings.Byte Init.Byte.
From stdpp Require Import prelude list gmap.
From S2P Require Import Prelude RustText Ord Types AssetDomain CreativeDomain Ports CommandLedger CreativeStore StoreScenario AssetStore AssetScenario AssetQuery AssetInspect.

Set Warnings "-clear-no-such-hyp".

Module InspectBudget.
Import Ports Ledger Assets AssetQuery Inspect.

(** ** What a read spends *)

(** Within the budget, [m] spends at most [n] statements, ends without the internal
    error, and its value satisfies [P]. *)
Definition spends {A} (n : Z) (m : Q A) (P : A -> Prop) : Prop :=
  forall used, 0 <= used -> used + n <= MAX_INSPECT_SELECTS ->
  match m used with Ok (a, used') => used <= used' <= used + n /\ P a | Err e => e <> SeInternal end.
Definition harmless {A} (r : res A) : Prop := r <> Err SeInternal.

Lemma spends_bind {A B} n1 n2 (m : Q A) (k : A -> Q B) P R :
  0 <= n2 -> spends n1 m P -> (forall a, P a -> spends n2 (k a) R) -> spends (n1 + n2) (m ≫= k) R.
Proof.
  intros Hn Hm Hk used Hu Hle. unfold mbind, Q_bind. specialize (Hm used Hu ltac:(lia)).
  destruct (m used) as [[a used']|e]; [|done]. cbn [result_bind]. destruct Hm as [Hm HP].
  specialize (Hk a HP used' ltac:(lia) ltac:(lia)). destruct (k a used') as [[b used'']|e]; [|done]. split; [lia|tauto].
Qed.
Lemma spends_mono {A} n n' (m : Q A) (P R : A -> Prop) : n <= n' -> spends n m P -> (forall a, P a -> R a) -> spends n' m R.
Proof.
  intros Hn Hm HP used Hu Hle. specialize (Hm used Hu ltac:(lia)). destruct (m used) as [[a used']|e]; [|done].
  destruct Hm. split; [lia|auto].
Qed.
Lemma spends_ret {A} (a : A) (P : A -> Prop) : P a -> spends 0 (mret a) P.
Proof. intros HP used Hu Hle. cbn. split; [lia|done]. Qed.
Lemma spends_consume n : 0 <= n -> spends n (consume n) (fun _ => True).
Proof.
  intros Hn used Hu Hle. unfold consume, checked_add. unfold MAX_INSPECT_SELECTS in *. rewrite (proj2 (Z.leb_le (used + n) U64_MAX)) by (unfold U64_MAX; lia).
  rewrite (proj2 (Z.leb_le _ _)) by lia. split; [lia|done].
Qed.
Lemma spends_lift {A} (r : res A) (P : A -> Prop) : harmless r -> (forall a, r = Ok a -> P a) -> spends 0 (lift r) P.
Proof.
  intros Hr HP used Hu Hle. unfold lift. destruct r as [a|e]; cbn; [split; [lia|by apply HP]|]. intros ->. by apply Hr.
Qed.
Lemma spends_failing {A} e (P : A -> Prop) n : e <> SeInternal -> spends n (failing e) P.
Proof. intros He used Hu Hle. done. Qed.

(** ** Errors that are not internal *)

Lemma harmless_bind {A B} (r : res A) (k : A -> res B) : harmless r -> (forall a, harmless (k a)) -> harmless (result_bind r k).
Proof. unfold harmless. intros Hr Hk. destruct r as [a|e]; cbn; [apply Hk|]. intros E. apply Hr. by injection E as ->. Qed.
Lemma harmless_ok {A} (a : A) : harmless (Ok a).
Proof. done. Qed.
Lemma harmless_err {A} e : e <> SeInternal -> harmless (Err e : res A).
Proof. intros He E. by injection E. Qed.
Lemma harmless_ok_or {A} e (o : option A) : e <> SeInternal -> harmless (ok_or e o).
Proof. intros He. destruct o; cbn; [done|by apply harmless_err]. Qed.
Lemma harmless_map_err {E A} e (r : result E A) : e <> SeInternal -> harmless (map_err (fun _ => e) r).
Proof. intros He. destruct r; cbn; [done|by apply harmless_err]. Qed.
Create HintDb harmless.
#[export] Hint Resolve harmless_ok harmless_err harmless_ok_or harmless_map_err : harmless.
#[export] Hint Extern 0 (_ <> SeInternal) => discriminate : harmless.
Ltac harmless_step := match goal with
  | |- harmless (result_bind _ _) => apply harmless_bind; [|intros]
  | |- harmless (if ?b then _ else _) => destruct b
  | |- harmless (match ?x with _ => _ end) => destruct x
  | |- harmless _ => solve [auto with harmless nocore]
  end.
Ltac harmless := repeat harmless_step.

Section budget.
Context `{StoreEnv}.

Lemma checked_id_harmless i : harmless (checked_id i).
Proof. unfold checked_id, id_bytes. harmless. Qed.
Lemma checked_digest_harmless d : harmless (checked_digest d).
Proof. unfold checked_digest. harmless. Qed.
Lemma timestamp_harmless t : harmless (timestamp t).
Proof. unfold timestamp, persisted_timestamp. harmless. Qed.
#[local] Hint Resolve checked_id_harmless checked_digest_harmless timestamp_harmless : harmless.
Lemma read_registered_harmless l n e : harmless (read_registered_asset l n e).
Proof. unfold read_registered_asset, parse_revision. harmless. Qed.
Lemma registered_event_harmless l i : harmless (registered_event l i).
Proof. unfold registered_event, valid_sequence. harmless. Qed.
Lemma typed_ids_harmless ids : harmless (typed_ids ids).
Proof. induction ids; cbn [typed_ids]; harmless. Qed.
Lemma collect_parents_harmless rows found : harmless (collect_parents rows found).
Proof. revert found. induction rows; intros found; cbn [collect_parents]; harmless. Qed.
Lemma parse_locations_harmless rows : harmless (parse_locations rows).
Proof. induction rows as [|r rows IH]; cbn [parse_locations]; [done|]. unfold parse_location. harmless. Qed.
Lemma position_harmless p : harmless (inspect_asset_position_new p).
Proof. unfold inspect_asset_position_new. harmless. Qed.
#[local] Hint Resolve read_registered_harmless typed_ids_harmless collect_parents_harmless parse_locations_harmless position_harmless : harmless.

(** ** The reads *)

Abbreviation any := (fun _ => True).
Lemma consume_lift_spends {A} (r : res A) : harmless r -> spends 1 (_ ← consume 1; lift r) any.
Proof.
  intros Hr. replace 1 with (1 + 0) at 1 by lia. eapply (spends_bind 1 0 _ _ any); [lia|by apply spends_consume|]. intros _ _.
  by apply spends_lift.
Qed.
Lemma read_revision_spends l a r : spends 1 (read_revision l a r) any.
Proof. apply consume_lift_spends. harmless. Qed.
Lemma read_parents_spends l a r : spends 1 (read_parents l a r) any.
Proof. apply consume_lift_spends. auto with harmless. Qed.
Lemma validate_representations_spends l r : spends 1 (validate_representations l r) any.
Proof. apply consume_lift_spends. harmless. Qed.
Lemma first_resource_spends l r : spends 1 (first_resource l r) any.
Proof. apply consume_lift_spends. harmless. Qed.
Lemma read_member_spends l r k : spends 1 (read_member l r k) any.
Proof. apply consume_lift_spends. unfold check_media_type, parse_revision. harmless. Qed.
Lemma read_locations_spends l d last limit :
  spends (if none last then 1 else 2) (read_locations l d last limit) any.
Proof.
  unfold read_locations. destruct last as [i|]; cbn [none]; [|apply consume_lift_spends; auto with harmless].
  replace 2 with (1 + (0 + (0 + 1))) by lia. eapply (spends_bind 1 _ _ _ any); [lia|by apply spends_consume|intros _ _].
  eapply (spends_bind 0 _ _ _ any); [lia|by apply spends_lift; [auto with harmless|]|intros cursor _].
  eapply (spends_bind 0 _ _ _ any); [lia|by apply spends_lift; [auto with harmless|]|intros digest _].
  case_match; [by apply spends_failing|]. apply consume_lift_spends. auto with harmless.
Qed.
Lemma some_spends {A} n (m : Q A) : spends n m any -> spends n (m ≫= fun x => mret (Some x)) any.
Proof.
  intros Hm. replace n with (n + 0) by lia. eapply spends_bind; [lia|exact Hm|]. intros x _. by apply spends_ret.
Qed.
Lemma lift_spends {A B} n (r : res A) (k : A -> Q B) P :
  0 <= n -> harmless r -> (forall a, spends n (k a) P) -> spends n (lift r ≫= k) P.
Proof.
  intros Hn Hr Hk. replace n with (0 + n) by lia. eapply (spends_bind 0 n _ _ any); [lia|by apply spends_lift|]. auto.
Qed.
Lemma consume_spends {B} n (k : () -> Q B) P : 0 <= n -> (forall u, spends n (k u) P) -> spends (1 + n) (consume 1 ≫= k) P.
Proof. intros Hn Hk. eapply (spends_bind 1 n _ _ any); [lia|by apply spends_consume|]. auto. Qed.
Lemma spends_more {A} n n' (m : Q A) P : n <= n' -> spends n m P -> spends n' m P.
Proof. intros. by eapply spends_mono. Qed.

Lemma first_in_resource_spends l r n s : spends 2 (first_member_in_resource l r n s) any.
Proof.
  unfold first_member_in_resource. apply (consume_spends 1); [lia|intros _]. apply lift_spends; [lia|auto with harmless|intros o].
  apply lift_spends; [lia|auto with harmless|intros o']. case_match; [by apply spends_failing|]. apply some_spends, read_member_spends.
Qed.
Lemma first_in_representation_spends l r n : spends 3 (first_member_in_representation l r n) any.
Proof.
  unfold first_member_in_representation. eapply (spends_bind 1 2 _ _ any); [lia|apply first_resource_spends|]. intros s _.
  apply first_in_resource_spends.
Qed.
Lemma first_member_spends l r : spends 4 (first_member l r) any.
Proof.
  unfold first_member. apply (consume_spends 3); [lia|intros _]. case_match.
  - apply lift_spends; [lia|auto with harmless|intros n]. apply first_in_representation_spends.
  - apply (spends_more 0); [lia|by apply spends_ret].
Qed.
Lemma next_member_spends l r m : spends 6 (next_member l r m) any.
Proof.
  unfold next_member. apply (consume_spends 5); [lia|intros _]. case_match.
  { apply (spends_more 1); [lia|]. apply lift_spends; [lia|auto with harmless|intros o]. apply lift_spends; [lia|auto with harmless|intros e].
    case_match; [by apply spends_failing|]. apply some_spends, read_member_spends. }
  apply (consume_spends 4); [lia|intros _]. case_match.
  { apply (spends_more 2); [lia|]. apply lift_spends; [lia|auto with harmless|intros s]. apply first_in_resource_spends. }
  apply (consume_spends 3); [lia|intros _]. case_match.
  - apply lift_spends; [lia|auto with harmless|intros n]. apply first_in_representation_spends.
  - apply (spends_more 0); [lia|by apply spends_ret].
Qed.

(** ** The page *)

Section page.
Context (l : Library) (library_id asset_id revision_id : Id) (asset_revision : Z) (custody : Custody) (page_size : nat).
Abbreviation turn := (Inspect.turn l library_id asset_id revision_id asset_revision custody page_size).
Abbreviation walk := (Inspect.walk l library_id asset_id revision_id asset_revision custody page_size).
Abbreviation finish_turn := (Inspect.finish_turn l library_id asset_id revision_id asset_revision page_size).

Lemma push_locations_length m found phase last output :
  length (push_locations m found phase last output).2 = (length output + length found)%nat.
Proof.
  revert phase last output. induction found as [|[v d] found IH]; intros; cbn [push_locations length]; [cbn; lia|].
  rewrite IH, length_app. cbn. lia.
Qed.
(** What a turn leaves: the output is longer, unless it continued a member, and a
    cursor is only made when something is on the page. *)
Definition progress (n : nat) (r : option Member * list AssetMemberView * option InspectAssetPosition) : Prop :=
  let '(following, output, next) := r in
  (n <= length output <= page_size)%nat /\ (is_Some following -> length output < page_size)%nat /\
  (is_Some next -> 1 <= length output)%nat.
Lemma finish_turn_spends m output n :
  (1 <= page_size)%nat -> (n <= length output <= page_size)%nat -> spends 6 (finish_turn m output) (progress n).
Proof.
  intros Hp Hn. unfold Inspect.finish_turn. replace 6 with (6 + 0) by lia. eapply (spends_bind 6 0 _ _ any); [lia|apply next_member_spends|].
  intros following _. destruct (length output =? page_size)%nat eqn:E.
  - apply Nat.eqb_eq in E. replace 0 with (0 + 0) by lia. eapply (spends_bind 0 0 _ _ any); [lia| |].
    + destruct following as [f|]; [|by apply spends_ret]. apply lift_spends; [lia|apply position_harmless|]. intros p. by apply spends_ret.
    + intros next _. apply spends_ret. split; [lia|]. split; [by intros [? ?]|]. intros _. lia.
  - apply Nat.eqb_neq in E. apply spends_ret. split; [lia|]. split; [lia|]. by intros [? ?].
Qed.
Lemma turn_spends m phase last output :
  (length output < page_size)%nat ->
  spends (if none last then 7 else 8) (turn m phase last output) (progress (if none last then S (length output) else length output)).
Proof.
  intros Ho. unfold Inspect.turn. replace (if none last then 7 else 8) with ((if none last then 1 else 2) + 6) by (by destruct last).
  eapply (spends_bind _ 6 _ _ any); [lia|apply read_locations_spends|]. intros found _.
  destruct (bool_decide (found = []) && none last) eqn:Ee.
  { apply andb_true_iff in Ee as [_ Ee]. rewrite Ee. destruct (bool_decide (custody = MANAGED)); [by apply spends_failing|].
    apply finish_turn_spends; [lia|]. rewrite length_app. cbn. lia. }
  destruct (push_locations _ _ _ _ _) as [[phase' last'] output'] eqn:Ep.
  assert (length output' = length output + Nat.min (page_size - length output) (length found))%nat as Hlen.
  { pose proof (push_locations_length m (take (page_size - length output) found) phase last output) as Hl. rewrite Ep, length_take in Hl. exact Hl. }
  assert ((if none last then S (length output) else length output) <= length output' <= page_size)%nat as Hn.
  { destruct (none last); [|lia]. rewrite andb_true_r in Ee. apply bool_decide_eq_false in Ee. destruct found; [done|]. cbn in Hlen. lia. }
  destruct (page_size - length output <? length found)%nat eqn:El.
  - apply Nat.ltb_lt in El. apply (spends_more 0); [lia|]. apply lift_spends; [lia|apply position_harmless|]. intros p. apply spends_ret.
    split; [done|]. split; [by intros [? ?]|]. intros _. lia.
  - destruct (bool_decide (custody = MANAGED) && _); [by apply spends_failing|]. apply finish_turn_spends; [lia|done].
Qed.
Lemma walk_spends fuel m phase output :
  (length output < page_size)%nat -> (page_size - length output <= fuel)%nat ->
  spends (7 * (Z.of_nat page_size - Z.of_nat (length output))) (walk fuel m phase None output)
    (fun r => (length r.1 <= page_size)%nat /\ (is_Some r.2 -> 1 <= length r.1)%nat).
Proof.
  revert m phase output. induction fuel as [|fuel IH]; intros m phase output Ho Hf; [lia|]. cbn [Inspect.walk].
  apply (spends_more (7 + 7 * (Z.of_nat page_size - Z.of_nat (S (length output))))); [lia|].
  eapply spends_bind; [lia|apply (turn_spends m phase None output Ho)|]. cbn [none].
  intros [[[f|] output'] next] (Hl & Hs & Hx);
    [|apply (spends_more 0); [lia|apply spends_ret; cbn; split; [lia|done]]].
  apply (spends_more (7 * (Z.of_nat page_size - Z.of_nat (length output')))); [lia|]. apply IH; [by apply Hs|lia].
Qed.
Lemma walk_from_spends m phase last :
  (1 <= page_size)%nat ->
  spends (8 + 7 * Z.of_nat page_size) (walk (S (S page_size)) m phase last [])
    (fun r => (length r.1 <= page_size)%nat /\ (is_Some r.2 -> 1 <= length r.1)%nat).
Proof.
  intros Hp. cbn [Inspect.walk]. eapply spends_bind; [lia|eapply (spends_more _ 8); [|apply (turn_spends m phase last []); cbn; lia]|].
  { by destruct last. }
  intros [[[f|] output'] next] (Hl & Hs & Hx);
    [|apply (spends_more 0); [lia|apply spends_ret; cbn; split; [lia|done]]].
  apply (spends_more (7 * (Z.of_nat page_size - Z.of_nat (length output')))); [lia|].
  apply (walk_spends (S page_size)); [by apply Hs|lia].
Qed.
End page.

(** ** The whole inspection *)

Lemma unregistered_spends l i e : e <> SeInternal -> spends 1 (unregistered l i e) any.
Proof.
  intros He. unfold unregistered. destruct e; try by apply spends_failing. apply (consume_spends 0); [lia|intros _].
  destruct (assets l !! i); by apply spends_failing.
Qed.
Lemma select_revision_spends l library_id request asset : spends 1 (select_revision l library_id request asset) any.
Proof.
  unfold select_revision. destruct (iq_start request) as [|p].
  - replace 1 with (1 + 0) by lia. eapply (spends_bind 1 0 _ _ any); [lia| |intros; by apply spends_ret].
    destruct (iq_selected_revision_id request); [apply (spends_more 0); [lia|by apply spends_ret]|].
    apply (consume_spends 0); [lia|intros _]. apply lift_spends; [lia|auto with harmless|]. intros i. apply spends_lift; auto with harmless.
  - apply (spends_more 0); [lia|]. repeat (case_match; [by apply spends_failing|]). by apply spends_ret.
Qed.
Lemma start_member_spends l r p : spends 4 (start_member l r p) any.
Proof.
  unfold start_member. destruct (p ≫= ip_member) as [k|].
  - apply (spends_more (1 + 1)); [lia|]. eapply (spends_bind 1 1 _ _ any); [lia|apply first_resource_spends|]. intros _ _. apply read_member_spends.
  - replace 4 with (4 + 0) by lia. eapply (spends_bind 4 0 _ _ any); [lia|apply first_member_spends|]. intros m _.
    apply spends_lift; auto with harmless.
Qed.
Lemma inspect_spends l library_id request :
  1 <= iq_page_size request <= 64 -> spends 468 (inspect_asset_in l library_id request) (fun p => blen (mp_members p) <= iq_page_size request).
Proof.
  intros Hp. unfold inspect_asset_in. apply (consume_spends 467); [lia|intros _].
  eapply (spends_bind 1 466 _ _ any); [lia| |intros e _].
  { destruct (registered_event l _) as [e|e] eqn:E; [apply (spends_more 0); [lia|by apply spends_ret]|]. apply unregistered_spends.
    intros ->. by apply (registered_event_harmless l (iq_asset_id request)). }
  eapply (spends_bind 2 464 _ _ any); [lia|by apply spends_consume|intros _ _].
  apply lift_spends; [lia|auto with harmless|intros asset].
  eapply (spends_bind 1 463 _ _ any); [lia|apply select_revision_spends|intros [revision_id position] _].
  eapply (spends_bind 1 462 _ _ any); [lia|apply read_revision_spends|intros [[sequence kind] custody] _].
  eapply (spends_bind 1 461 _ _ any); [lia|apply read_parents_spends|intros parent_ids _].
  eapply (spends_bind 1 460 _ _ any); [lia|apply validate_representations_spends|intros _ _].
  eapply (spends_bind 4 456 _ _ any); [lia|apply start_member_spends|intros member _].
  match goal with |- spends _ (if ?b then _ else _) _ => destruct b end; [by apply spends_failing|].
  apply (spends_more (8 + 7 * Z.of_nat (Z.to_nat (iq_page_size request)) + 0)); [lia|].
  eapply spends_bind; [lia|apply walk_from_spends; lia|]. intros [output next] [Hl Hn]. cbn [fst snd] in *.
  destruct (bool_decide (output = []) && negb (none next)) eqn:E.
  { apply andb_true_iff in E as [->%bool_decide_eq_true En]. destruct next; [|done]. cbn in Hn. specialize (Hn ltac:(by eexists)). lia. }
  apply spends_lift; [unfold member_page_from_store; harmless|]. intros p Hfs. unfold member_page_from_store in Hfs. inv_result.
  cbn. unfold blen. lia.
Qed.
End budget.

(** C12: inspecting an asset never ends in an internal error, whatever the library holds
    and whatever cursor the request carries: no page needs more than 468 of the 512
    SELECT statements of its budget, the loop over the members ends within two turns
    more than the page has lines, a cursor is never made for an empty page, and a page
    never has more lines than were asked for. *)
Theorem inspection_within_budget `{StoreEnv} (l : Library) (library_id : Id) (request : InspectAssetQuery) :
  1 <= iq_page_size request <= 64 ->
  match inspect_asset_in l library_id request 0 with
  | Ok (page, used) => 0 <= used <= 468 /\ blen (mp_members page) <= iq_page_size request
  | Err e => e <> SeInternal
  end.
Proof.
  intros Hp. pose proof (inspect_spends l library_id request Hp 0 ltac:(lia) ltac:(unfold MAX_INSPECT_SELECTS; lia)) as Hs.
  destruct (inspect_asset_in l library_id request 0) as [[page used]|e]; [|done]. destruct Hs. split; [lia|done].
Qed.

#[local] Existing Instance Scenario.env.
Definition some_inspection : InspectAssetQuery := {|
  iq_asset_id := Scenario.id 50; iq_selected_revision_id := None; iq_page_size := 1; iq_start := StartFirst |}.
Lemma inspection_within_budget_witness :
  option_map (fun p => map mv_member_ordinal (mp_members p)) (match inspect_asset AssetScenario.ingested (Scenario.id 99) some_inspection with Ok p => Some p | Err _ => None end)
    = Some [0] /\
  match inspect_asset_in AssetScenario.ingested (Scenario.id 99) some_inspection 0 with
  | Ok (page, used) => 0 <= used <= 468 /\ blen (mp_members page) <= iq_page_size some_inspection
  | Err e => e <> SeInternal
  end.
Proof.
  split; [vm_compute; reflexivity|].
  assert (1 <= iq_page_size some_inspection <= 64) as Hp by (cbn; lia).
  pose proof (inspection_within_budget AssetScenario.ingested (Scenario.id 99) some_inspection Hp) as Ht. exact Ht.
Defined.
End InspectBudget.
