(* ===== verification/AssetCursors.v ===== *)
(** The query service of mengxia-app/src/asset_query.rs: opaque cursors as fixed-length
    records with a checksum, and the two queries that carry them. *)
From Stdlib Require Import ZArith Lia String.
From Stdlib Require Import Strings.Byte Init.Byte.
From stdpp Require Import prelude list gmap.
From S2P Require Import Prelude RustText Ord Types AssetDomain CreativeDomain Ports CommandLedger CreativeStore AssetStore StartupRecovery AssetQuery AssetInspect.

Set Warnings "-clear-no-such-hyp".

Module Cursors.
Import Ports Ledger Assets Startup AssetQuery Inspect.

Definition LIST_CURSOR_LENGTH : Z := 80.
Definition LIST_CURSOR_PREFIX_LENGTH : nat := 48.
Definition LIST_CURSOR_MAGIC : list byte := bs "MXLCUR2" ++ [x00].
Definition CURSOR_FORMAT_VERSION : Z := 2.
Definition LIST_OPERATION_DISCRIMINATOR : Z := 1.
Definition INSPECT_CURSOR_LENGTH : Z := 208.
Definition INSPECT_CURSOR_PREFIX_LENGTH : nat := 176.
Definition INSPECT_CURSOR_MAGIC : list byte := bs "MXICUR2" ++ [x00].
Definition INSPECT_OPERATION_DISCRIMINATOR : Z := 2.

(** [cursor[a..b]]. *)
Definition range (cursor : list byte) (a b : nat) : list byte := take (b - a) (drop a cursor).
Definition be_at (cursor : list byte) (a b : nat) : Z := be_value (range cursor a b).
Definition zeros (bytes : list byte) : bool := forallb (fun b => bool_decide (b = x00)) bytes.

Section cursors.
Context `{StoreEnv}.

Definition opaque_cursor_checksum_is_valid (cursor : list byte) : bool :=
  (32 <=? blen cursor)
  && bool_decide (sha256 (take (length cursor - 32) cursor) = drop (length cursor - 32) cursor).
(** [typed_id]: here a malformed identity is the fault of the cursor. *)
Definition cursor_id (bytes : list byte) : res Id :=
  if bool_decide (length bytes = 16%nat) && id_valid bytes then Ok bytes else Err SeValidation.

(** ** Listing *)

Definition decode_list_cursor (cursor expected_library_id : list byte) : res ListAssetsPosition :=
  if negb (blen cursor =? LIST_CURSOR_LENGTH) then Err SeValidation
  else if negb (bool_decide (range cursor 0 8 = LIST_CURSOR_MAGIC)) || negb (be_at cursor 8 10 =? CURSOR_FORMAT_VERSION)
     || negb (be_at cursor 10 12 =? LIST_CURSOR_LENGTH) || negb (be_at cursor 12 16 =? LIST_OPERATION_DISCRIMINATOR)
     || negb (bool_decide (range cursor 16 32 = expected_library_id))
     || negb (bool_decide (sha256 (range cursor 0 LIST_CURSOR_PREFIX_LENGTH) = drop LIST_CURSOR_PREFIX_LENGTH cursor))
  then Err SeValidation
  else position_after expected_library_id (be_at cursor 32 40) (be_at cursor 40 48).
Definition list_prefix (library_id : list byte) (snapshot last_examined : Z) : list byte :=
  LIST_CURSOR_MAGIC ++ be_bytes 2 CURSOR_FORMAT_VERSION ++ be_bytes 2 LIST_CURSOR_LENGTH
  ++ be_bytes 4 LIST_OPERATION_DISCRIMINATOR ++ library_id ++ be_bytes 8 snapshot ++ be_bytes 8 last_examined.
Definition encode_list_cursor (position : ListAssetsPosition) (expected_library_id : list byte) : res (list byte) :=
  match position with
  | First => Err SeInternal
  | After library_id snapshot_sequence last_examined_sequence =>
      if negb (bool_decide (library_id = expected_library_id)) then Err SeStorageCorruption
      else
        let? _ := position_after library_id snapshot_sequence last_examined_sequence in
        let cursor := list_prefix library_id snapshot_sequence last_examined_sequence in
        Ok (cursor ++ sha256 cursor)
  end.

(** ** Inspection *)

Definition phase_of (value : Z) : res InspectMemberPhase :=
  if value =? 1 then Ok NoLocationSeen else if value =? 2 then Ok LocationSeen
  else if value =? 3 then Ok RequiredCustodySeen else Err SeValidation.
Definition phase_value (phase : InspectMemberPhase) : Z :=
  match phase with NoLocationSeen => 1 | LocationSeen => 2 | RequiredCustodySeen => 3 end.

Definition decode_inspect_cursor (cursor expected_library_id : list byte) : res InspectAssetPosition :=
  if negb (blen cursor =? INSPECT_CURSOR_LENGTH) then Err SeValidation
  else if negb (bool_decide (range cursor 0 8 = INSPECT_CURSOR_MAGIC)) || negb (be_at cursor 8 10 =? CURSOR_FORMAT_VERSION)
     || negb (be_at cursor 10 12 =? INSPECT_CURSOR_LENGTH) || negb (be_at cursor 12 16 =? INSPECT_OPERATION_DISCRIMINATOR)
     || negb (bool_decide (range cursor 16 32 = expected_library_id)) || negb (zeros (range cursor 136 176))
     || negb (bool_decide (sha256 (range cursor 0 INSPECT_CURSOR_PREFIX_LENGTH) = drop INSPECT_CURSOR_PREFIX_LENGTH cursor))
  then Err SeValidation
  else
    let? asset_id := cursor_id (range cursor 32 48) in
    let? selected_revision_id := cursor_id (range cursor 48 64) in
    let asset_revision := be_at cursor 64 72 in
    let phase := be_at cursor 108 112 in
    if phase =? 0 then
      if negb (zeros (range cursor 72 136)) then Err SeValidation
      else inspect_asset_position_new {| ip_library_id := expected_library_id; ip_asset_id := asset_id;
             ip_selected_revision_id := selected_revision_id; ip_asset_revision := asset_revision; ip_member := None;
             ip_phase := None; ip_blob_revision := None; ip_last_location_id := None |}
    else
      let? phase := phase_of phase in
      let? representation_id := cursor_id (range cursor 72 88) in
      let? resource_id := cursor_id (range cursor 88 104) in
      let ordinal := be_at cursor 104 108 in
      if 4095 <? ordinal then Err SeValidation
      else
        let blob_revision := be_at cursor 112 120 in
        let? last_location_id := (if zeros (range cursor 120 136) then Ok None
                                  else let? i := cursor_id (range cursor 120 136) in Ok (Some i)) in
        inspect_asset_position_new {| ip_library_id := expected_library_id; ip_asset_id := asset_id;
          ip_selected_revision_id := selected_revision_id; ip_asset_revision := asset_revision;
          ip_member := Some (representation_id, resource_id, ordinal); ip_phase := Some phase;
          ip_blob_revision := Some blob_revision; ip_last_location_id := last_location_id |}.

(** The bytes 72 to 136 of a cursor. *)
Definition member_field (p : InspectAssetPosition) : res (list byte) :=
  match ip_member p, ip_phase p, ip_blob_revision p with
  | None, None, None => if none (ip_last_location_id p) then Ok (repeat x00 64) else Err SeInternal
  | Some (representation_id, resource_id, ordinal), Some phase, Some blob_revision =>
      Ok (representation_id ++ resource_id ++ be_bytes 4 ordinal ++ be_bytes 4 (phase_value phase) ++ be_bytes 8 blob_revision
          ++ match ip_last_location_id p with Some i => i | None => repeat x00 16 end)
  | _, _, _ => Err SeInternal
  end.
Definition inspect_prefix (p : InspectAssetPosition) (library_id field : list byte) : list byte :=
  INSPECT_CURSOR_MAGIC ++ be_bytes 2 CURSOR_FORMAT_VERSION ++ be_bytes 2 INSPECT_CURSOR_LENGTH
  ++ be_bytes 4 INSPECT_OPERATION_DISCRIMINATOR ++ library_id ++ ip_asset_id p ++ ip_selected_revision_id p
  ++ be_bytes 8 (ip_asset_revision p) ++ field ++ repeat x00 40.
Definition encode_inspect_cursor (position : InspectAssetPosition) (expected_library_id : list byte) : res (list byte) :=
  if negb (bool_decide (ip_library_id position = expected_library_id)) then Err SeStorageCorruption
  else
    let? field := member_field position in
    let cursor := inspect_prefix position expected_library_id field in
    Ok (cursor ++ sha256 cursor).

(** ** The service *)

Definition query_checkpoint (d : IngestDirective) : res () :=
  match d with Continue => Ok tt | Stop stop => Err (controlled_stop_error stop) end.
Definition service_new (library_id : Id) : res Id := if bool_decide (library_id = zero_library) then Err SeValidation else Ok library_id.

(** The port reads the library of the moment under the control. *)
Definition list_assets_controlled (l : Library) (library_id : Id) (control : Control) (interrupted : bool) (page_size : Z)
    (cursor : option (list byte)) : res (AssetPage * option (list byte)) :=
  let? _ := query_checkpoint (checkpoint_at control 0) in
  let? position := match cursor with None | Some [] => Ok First | Some cursor => decode_list_cursor cursor library_id end in
  let? q := list_assets_query_new page_size position in
  let? page := with_controlled_read_interrupt control 1 interrupted (list_assets l library_id q) in
  let? next_cursor := match ap_next page with None => Ok None | Some p => let? c := encode_list_cursor p library_id in Ok (Some c) end in
  Ok (page, next_cursor).
Definition inspect_asset_controlled (l : Library) (library_id : Id) (control : Control) (interrupted : bool) (asset_id : Id)
    (selected_revision_id : option Id) (page_size : Z) (cursor : option (list byte)) : res (AssetMemberPage * option (list byte)) :=
  let? _ := query_checkpoint (checkpoint_at control 0) in
  let? start := match cursor with
    | None | Some [] => Ok StartFirst
    | Some cursor => let? p := decode_inspect_cursor cursor library_id in Ok (StartContinue p)
    end in
  let? q := inspect_asset_query_new asset_id selected_revision_id page_size start in
  let? page := with_controlled_read_interrupt control 1 interrupted (inspect_asset l library_id q) in
  let? next_cursor := match mp_next page with None => Ok None | Some p => let? c := encode_inspect_cursor p library_id in Ok (Some c) end in
  Ok (page, next_cursor).
End cursors.
End Cursors.
