(* ===== verification/CursorFacts.v ===== *)
(** The opaque cursors of the query service: the encoder and the decoder are inverse to
    each other, and following the cursors of a listing lists exactly the assets. *)
From Stdlib Require Import ZArith Lia String.
From Stdlib Require Import Strings.Byte Init.Byte.
From stdpp Require Import prelude list gmap.
From S2P Require Import Prelude RustText Ord Types AssetDomain CreativeDomain Ports CommandLedger CreativeStore StoreScenario AssetStore AssetScenario StartupRecovery AssetQuery AssetListing AssetInspect AssetCursors.

Set Warnings "-clear-no-such-hyp".

Module CursorFacts.
Import Ports Ledger Assets Startup AssetQuery AssetListing Inspect Cursors.

(** ** Ranges *)

Lemma range_length c a b : (a <= b <= length c)%nat -> length (range c a b) = (b - a)%nat.
Proof. intros Hab. unfold range. rewrite length_take, length_drop. lia. Qed.
Lemma range_split c a b d : (a <= b <= d)%nat -> range c a d = range c a b ++ range c b d.
Proof.
  intros Hab. unfold range. replace (d - a)%nat with ((b - a) + (d - b))%nat by lia. rewrite <- take_take_drop, drop_drop.
  do 2 f_equal. f_equal. lia.
Qed.
Lemma range_range c a d i j : (i <= j /\ a + j <= d)%nat -> range (range c a d) i j = range c (a + i) (a + j).
Proof.
  intros Hij. unfold range. rewrite skipn_firstn_comm, drop_drop, take_take. f_equal. lia.
Qed.
Lemma range_all c n : c = range c 0 n ++ drop n c.
Proof. unfold range. by rewrite drop_0, Nat.sub_0_r, take_drop. Qed.
Lemma range_here x y n : length x = n -> range (x ++ y) 0 n = x.
Proof. intros <-. unfold range. rewrite drop_0, Nat.sub_0_r. apply take_app_length. Qed.
Lemma range_skip x y n a b : length x = n -> (n <= a)%nat -> range (x ++ y) a b = range y (a - n) (b - n).
Proof. intros <- Ha. unfold range. rewrite drop_app_ge by lia. f_equal. lia. Qed.
Lemma range_inner x y n a b : length x = n -> (a <= b <= n)%nat -> range (x ++ y) a b = range x a b.
Proof. intros <- Hab. unfold range. rewrite drop_app_le by lia. apply take_app_le. rewrite length_drop. lia. Qed.
Lemma range_full x n : length x = n -> range x 0 n = x.
Proof. intros <-. unfold range. rewrite drop_0, Nat.sub_0_r. by apply take_ge. Qed.
Lemma zeros_repeat n : zeros (repeat x00 n) = true.
Proof. unfold zeros. induction n; cbn; [done|]. by rewrite bool_decide_eq_true_2. Qed.
Lemma zeros_eq bytes : zeros bytes = true -> bytes = repeat x00 (length bytes).
Proof. unfold zeros. induction bytes as [|b bytes IH]; cbn; [done|]. intros Hz. bool_hyps. subst. f_equal. auto. Qed.

Lemma be_range c a b n : n = (b - a)%nat -> (a <= b <= length c)%nat -> be_bytes n (be_at c a b) = range c a b.
Proof. intros -> Hab. unfold be_at. rewrite <- (range_length c a b Hab). apply be_bytes_value. Qed.

(** Walks over the fields of a record to the range that is asked for. *)
Ltac field_length := solve [apply be_bytes_length | assumption | reflexivity | cbn; lia].
Ltac to_field :=
  repeat first [rewrite range_skip with (n := 2%nat) by field_length | rewrite range_skip with (n := 4%nat) by field_length
               |rewrite range_skip with (n := 8%nat) by field_length | rewrite range_skip with (n := 16%nat) by field_length];
  cbn [Nat.sub]; first [rewrite range_here by field_length | rewrite range_full by field_length].

Section cursors.
Context `{StoreEnv} `{!StoreEnvLaws H}.

Lemma list_prefix_length library_id s e : length library_id = 16%nat -> length (list_prefix library_id s e) = 48%nat.
Proof. intros Hl. unfold list_prefix. rewrite !length_app, !be_bytes_length, Hl. done. Qed.
Lemma list_fields library_id s e :
  length library_id = 16%nat -> let c := list_prefix library_id s e in
  range c 0 8 = LIST_CURSOR_MAGIC /\ range c 8 10 = be_bytes 2 CURSOR_FORMAT_VERSION /\ range c 10 12 = be_bytes 2 LIST_CURSOR_LENGTH /\
  range c 12 16 = be_bytes 4 LIST_OPERATION_DISCRIMINATOR /\ range c 16 32 = library_id /\
  range c 32 40 = be_bytes 8 s /\ range c 40 48 = be_bytes 8 e.
Proof. intros Hl c. unfold c, list_prefix. split_and!; by to_field. Qed.

Lemma decode_encode_list library_id s e :
  length library_id = 16%nat -> is_u64 s -> is_u64 e -> is_ok (position_after library_id s e) = true ->
  exists c, encode_list_cursor (After library_id s e) library_id = Ok c /\ decode_list_cursor c library_id = Ok (After library_id s e) /\
    length c = 80%nat /\ opaque_cursor_checksum_is_valid c = true.
Proof.
  intros Hl Hs He Hp. assert (position_after library_id s e = Ok (After library_id s e)) as Hpos.
  { unfold position_after in *. by destruct (_ || _). }
  set (p := list_prefix library_id s e). exists (p ++ sha256 p). cbn [encode_list_cursor]. rewrite bool_decide_eq_true_2 by done. rewrite Hpos.
  cbn [negb result_bind]. split; [done|]. pose proof (list_prefix_length library_id s e Hl) as Hlen. fold p in Hlen.
  destruct (list_fields library_id s e Hl) as (F1 & F2 & F3 & F4 & F5 & F6 & F7). fold p in F1, F2, F3, F4, F5, F6, F7.
  assert (length (p ++ sha256 p) = 80%nat) as Hc by (rewrite length_app, sha256_length, Hlen; done).
  split; [|split; [done|]].
  - unfold decode_list_cursor, be_at, LIST_CURSOR_PREFIX_LENGTH. unfold blen. rewrite Hc. rewrite !(range_inner p _ 48) by (done || lia).
    rewrite F1, F2, F3, F4, F5, F6, F7. rewrite (range_full p 48) by done. rewrite (drop_app_length' p _ 48) by done.
    rewrite !be_value_u64 by done. rewrite !bool_decide_eq_true_2 by done. exact Hpos.
  - unfold opaque_cursor_checksum_is_valid, blen. rewrite Hc. cbn [Nat.sub]. rewrite (take_app_length' p _ 48), (drop_app_length' p _ 48) by done.
    by rewrite bool_decide_eq_true_2.
Qed.
Lemma decode_list_inv c library_id p :
  decode_list_cursor c library_id = Ok p -> encode_list_cursor p library_id = Ok c.
Proof.
  unfold decode_list_cursor. intros Hd. inv_result. bool_hyps. unfold LIST_CURSOR_PREFIX_LENGTH in *.
  assert (length c = 80%nat) as Hlen by (unfold blen, LIST_CURSOR_LENGTH in *; lia). pose proof Hd as Hpos. unfold position_after in Hpos. inv_result. subst.
  cbn [encode_list_cursor]. rewrite bool_decide_eq_true_2 by done. cbn [negb]. rewrite Hd. cbn [result_bind]. do 2 f_equal.
  assert (list_prefix (range c 16 32) (be_at c 32 40) (be_at c 40 48) = range c 0 48) as Hp.
  { unfold list_prefix. rewrite !be_range by (done || lia). rewrite (range_split c 0 8 48), (range_split c 8 10 48), (range_split c 10 12 48),
      (range_split c 12 16 48), (range_split c 16 32 48), (range_split c 32 40 48) by lia.
    rewrite <- (be_range c 8 10 2), <- (be_range c 10 12 2), <- (be_range c 12 16 4) by (done || lia). by congruence. }
  rewrite Hp. symmetry. rewrite (range_all c 48) at 1. by f_equal.
Qed.

(** ** Positions of an inspection *)

(** What the Rust types and the tables guarantee of a position. *)
Definition id_good (i : Id) : Prop := length i = 16%nat /\ id_valid i = true.
Definition position_good (p : InspectAssetPosition) : Prop :=
  length (ip_library_id p) = 16%nat /\ id_good (ip_asset_id p) /\ id_good (ip_selected_revision_id p) /\ is_u64 (ip_asset_revision p) /\
  from_option (fun k => id_good k.1.1 /\ id_good k.1.2 /\ 0 <= k.2 <= 4095) True (ip_member p) /\
  from_option is_u64 True (ip_blob_revision p) /\ from_option id_good True (ip_last_location_id p).
Context (zero_invalid : id_valid (repeat x00 16) = false).

Lemma cursor_id_good i : id_good i -> cursor_id i = Ok i.
Proof. intros [Hl Hv]. unfold cursor_id. rewrite bool_decide_eq_true_2, Hv by done. done. Qed.
Lemma cursor_id_inv x i : cursor_id x = Ok i -> i = x /\ id_good x.
Proof. unfold cursor_id. intros Hr. inv_result. bool_hyps. done. Qed.
Lemma good_not_zeros i : id_good i -> zeros i = false.
Proof.
  intros [Hl Hv]. apply not_true_is_false. intros Hz%zeros_eq. rewrite Hl in Hz. rewrite Hz in Hv. congruence.
Qed.
Lemma phase_of_value ph : phase_of (phase_value ph) = Ok ph.
Proof. by destruct ph. Qed.
Lemma phase_of_inv v ph : phase_of v = Ok ph -> v = phase_value ph.
Proof. unfold phase_of. intros Hr. repeat case_match; simplify_eq; bool_hyps; done. Qed.
Lemma position_new_id p q : inspect_asset_position_new p = Ok q -> q = p.
Proof. unfold inspect_asset_position_new. intros. by inv_result. Qed.

Lemma inspect_prefix_length p library_id field :
  length library_id = 16%nat -> id_good (ip_asset_id p) -> id_good (ip_selected_revision_id p) -> length field = 64%nat ->
  length (inspect_prefix p library_id field) = 176%nat.
Proof.
  intros Hl [Ha _] [Hv _] Hf. unfold inspect_prefix. rewrite !length_app, !be_bytes_length, Hl, Ha, Hv, Hf. done.
Qed.
Lemma inspect_fields p library_id field :
  length library_id = 16%nat -> id_good (ip_asset_id p) -> id_good (ip_selected_revision_id p) -> length field = 64%nat ->
  let c := inspect_prefix p library_id field in
  range c 0 8 = INSPECT_CURSOR_MAGIC /\ range c 8 10 = be_bytes 2 CURSOR_FORMAT_VERSION /\ range c 10 12 = be_bytes 2 INSPECT_CURSOR_LENGTH /\
  range c 12 16 = be_bytes 4 INSPECT_OPERATION_DISCRIMINATOR /\ range c 16 32 = library_id /\ range c 32 48 = ip_asset_id p /\
  range c 48 64 = ip_selected_revision_id p /\ range c 64 72 = be_bytes 8 (ip_asset_revision p) /\ range c 72 136 = field /\
  range c 136 176 = repeat x00 40.
Proof.
  intros Hl [Ha _] [Hv _] Hf c. unfold c, inspect_prefix. split_and!; try by to_field.
  do 8 first [rewrite range_skip with (n := 2%nat) by field_length | rewrite range_skip with (n := 4%nat) by field_length
             |rewrite range_skip with (n := 8%nat) by field_length | rewrite range_skip with (n := 16%nat) by field_length].
  rewrite range_skip with (n := 64%nat) by field_length. by rewrite range_full.
Qed.
Lemma member_fields p k ph r :
  ip_member p = Some k -> ip_phase p = Some ph -> ip_blob_revision p = Some r -> id_good k.1.1 -> id_good k.1.2 ->
  from_option id_good True (ip_last_location_id p) ->
  exists f, member_field p = Ok f /\ length f = 64%nat /\ range f 0 16 = k.1.1 /\ range f 16 32 = k.1.2 /\ range f 32 36 = be_bytes 4 k.2 /\
    range f 36 40 = be_bytes 4 (phase_value ph) /\ range f 40 48 = be_bytes 8 r /\
    range f 48 64 = match ip_last_location_id p with Some i => i | None => repeat x00 16 end.
Proof.
  intros Hk Hph Hr [H1 _] [H2 _] Hi. unfold member_field. rewrite Hk, Hph, Hr. destruct k as [[rep rsc] o]. cbn [fst snd] in *.
  eexists. split; [reflexivity|].
  assert (length (match ip_last_location_id p with Some i => i | None => repeat x00 16 end) = 16%nat) as H3.
  { destruct (ip_last_location_id p); [by destruct Hi|done]. }
  split; [by rewrite !length_app, !be_bytes_length, H1, H2, H3|]. split_and!; by to_field.
Qed.
Lemma no_member_field p : ip_member p = None -> ip_phase p = None -> ip_blob_revision p = None -> ip_last_location_id p = None ->
  member_field p = Ok (repeat x00 64).
Proof. intros H1 H2 H3 H4. unfold member_field. by rewrite H1, H2, H3, H4. Qed.

(** The checks of the header, on a cursor made of a prefix. *)
Lemma inspect_header p field :
  length (ip_library_id p) = 16%nat -> id_good (ip_asset_id p) -> id_good (ip_selected_revision_id p) -> length field = 64%nat ->
  let c := inspect_prefix p (ip_library_id p) field in let cursor := c ++ sha256 c in
  length cursor = 208%nat /\ opaque_cursor_checksum_is_valid cursor = true /\
  (forall a b, (a <= b <= 176)%nat -> range cursor a b = range c a b) /\
  (negb (bool_decide (range cursor 0 8 = INSPECT_CURSOR_MAGIC)) || negb (be_at cursor 8 10 =? CURSOR_FORMAT_VERSION)
     || negb (be_at cursor 10 12 =? INSPECT_CURSOR_LENGTH) || negb (be_at cursor 12 16 =? INSPECT_OPERATION_DISCRIMINATOR)
     || negb (bool_decide (range cursor 16 32 = ip_library_id p)) || negb (zeros (range cursor 136 176))
     || negb (bool_decide (sha256 (range cursor 0 INSPECT_CURSOR_PREFIX_LENGTH) = drop INSPECT_CURSOR_PREFIX_LENGTH cursor))) = false.
Proof.
  intros Hl Ha Hv Hf c cursor. pose proof (inspect_prefix_length p (ip_library_id p) field Hl Ha Hv Hf) as Hlen. fold c in Hlen.
  destruct (inspect_fields p (ip_library_id p) field Hl Ha Hv Hf) as (F1 & F2 & F3 & F4 & F5 & _ & _ & _ & _ & F6).
  fold c in F1, F2, F3, F4, F5, F6. assert (length cursor = 208%nat) as Hc by (unfold cursor; rewrite length_app, sha256_length, Hlen; done).
  assert (forall a b, (a <= b <= 176)%nat -> range cursor a b = range c a b) as Hin by (intros; by apply (range_inner c _ 176)).
  split; [done|]. split; [|split; [done|]].
  - unfold opaque_cursor_checksum_is_valid, blen. rewrite Hc. cbn [Nat.sub]. unfold cursor. rewrite (take_app_length' c _ 176), (drop_app_length' c _ 176) by done.
    by rewrite bool_decide_eq_true_2.
  - unfold be_at, INSPECT_CURSOR_PREFIX_LENGTH. rewrite !Hin by lia. rewrite F1, F2, F3, F4, F5, F6, (range_full c 176) by done.
    unfold cursor. rewrite (drop_app_length' c _ 176) by done. rewrite zeros_repeat, !bool_decide_eq_true_2 by done. done.
Qed.

Lemma decode_encode_inspect p :
  position_good p -> inspect_asset_position_new p = Ok p ->
  exists c, encode_inspect_cursor p (ip_library_id p) = Ok c /\ decode_inspect_cursor c (ip_library_id p) = Ok p /\
    length c = 208%nat /\ opaque_cursor_checksum_is_valid c = true.
Proof.
  intros (Hl & Ha & Hv & Hrev & Hmem & Hblob & Hloc) Hnew.
  unfold encode_inspect_cursor. rewrite bool_decide_eq_true_2 by done. cbn [negb].
  destruct (ip_member p) as [k|] eqn:Ek.
  - destruct (ip_phase p) as [ph|] eqn:Eph; [|unfold inspect_asset_position_new in Hnew; rewrite Ek, Eph in Hnew; cbn in Hnew; by rewrite ?andb_false_r, ?orb_true_r in Hnew].
    destruct (ip_blob_revision p) as [br|] eqn:Ebr; [|unfold inspect_asset_position_new in Hnew; rewrite Ek, Eph, Ebr in Hnew; cbn in Hnew; by rewrite ?orb_true_r in Hnew].
    destruct Hmem as (Hk1 & Hk2 & Hk3).
    destruct (member_fields p k ph br Ek Eph Ebr Hk1 Hk2 Hloc) as (f & -> & Hf & F1 & F2 & F3 & F4 & F5 & F6).
    cbn [result_bind]. destruct (inspect_header p f Hl Ha Hv Hf) as (Hc & Hsum & Hin & Hhead).
    destruct (inspect_fields p (ip_library_id p) f Hl Ha Hv Hf) as (_ & _ & _ & _ & _ & G1 & G2 & G3 & G4 & _).
    eexists. split; [reflexivity|]. split; [|done]. set (cursor := _ ++ _) in *.
    assert (forall i j, (i <= j <= 64)%nat -> range cursor (72 + i) (72 + j) = range f i j) as Hsub.
    { intros i j Hij. rewrite Hin by lia. transitivity (range (range (inspect_prefix p (ip_library_id p) f) 72 136) i j);
        [symmetry; apply range_range; lia|by rewrite G4]. }
    pose proof (Hsub 0 16 ltac:(lia))%nat as E1. pose proof (Hsub 16 32 ltac:(lia))%nat as E2. pose proof (Hsub 32 36 ltac:(lia))%nat as E3.
    pose proof (Hsub 36 40 ltac:(lia))%nat as E4. pose proof (Hsub 40 48 ltac:(lia))%nat as E5. pose proof (Hsub 48 64 ltac:(lia))%nat as E6.
    cbn [Nat.add] in E1, E2, E3, E4, E5, E6. rewrite F1 in E1. rewrite F2 in E2. rewrite F3 in E3. rewrite F4 in E4. rewrite F5 in E5. rewrite F6 in E6.
    unfold decode_inspect_cursor. unfold blen. rewrite Hc. cbn [negb]. change (Z.of_nat 208 =? INSPECT_CURSOR_LENGTH) with true. cbn [negb].
    rewrite Hhead. unfold be_at. rewrite (Hin 32 48)%nat, (Hin 48 64)%nat, (Hin 64 72)%nat, G1, G2, G3 by lia.
    rewrite !cursor_id_good by done. cbn [result_bind]. rewrite be_value_u64 by done.
    rewrite E1, E2, E3, E4, E5, E6. rewrite (be_value_u32 (phase_value ph)) by (unfold is_u32, U32_MAX; destruct ph; cbn; lia).
    replace (phase_value ph =? 0) with false by (by destruct ph). rewrite phase_of_value. cbn [result_bind]. rewrite !cursor_id_good by done. cbn [result_bind].
    rewrite be_value_u32 by (unfold is_u32, U32_MAX; lia). rewrite (proj2 (Z.ltb_ge 4095 k.2)) by lia. rewrite be_value_u64 by done.
    assert ((if zeros match ip_last_location_id p with Some i => i | None => repeat x00 16 end then Ok None
             else let? i := cursor_id match ip_last_location_id p with Some i => i | None => repeat x00 16 end in Ok (Some i))
            = Ok (ip_last_location_id p) :> res (option Id)) as ->.
    { destruct (ip_last_location_id p) as [i|]; [|by rewrite zeros_repeat]. by rewrite good_not_zeros, cursor_id_good. }
    cbn [result_bind]. rewrite <- Hnew. f_equal. destruct p as [? ? ? ? m ? ? ?]. cbn in *. subst. by destruct k as [[? ?] ?].
  - assert (ip_phase p = None /\ ip_blob_revision p = None /\ ip_last_location_id p = None) as (Eph & Ebr & Eloc).
    { unfold inspect_asset_position_new in Hnew. rewrite Ek in Hnew. cbn in Hnew. destruct (ip_phase p), (ip_blob_revision p), (ip_last_location_id p);
        cbn in Hnew; rewrite ?orb_true_r in Hnew; done. }
    rewrite no_member_field by done. cbn [result_bind]. destruct (inspect_header p (repeat x00 64) Hl Ha Hv eq_refl) as (Hc & Hsum & Hin & Hhead).
    destruct (inspect_fields p (ip_library_id p) (repeat x00 64) Hl Ha Hv eq_refl) as (_ & _ & _ & _ & _ & G1 & G2 & G3 & G4 & _).
    eexists. split; [reflexivity|]. split; [|done]. set (cursor := _ ++ _) in *.
    unfold decode_inspect_cursor. unfold blen. rewrite Hc. change (Z.of_nat 208 =? INSPECT_CURSOR_LENGTH) with true. cbn [negb].
    rewrite Hhead. unfold be_at. rewrite (Hin 32 48)%nat, (Hin 48 64)%nat, (Hin 64 72)%nat, (Hin 72 136)%nat, G1, G2, G3, G4 by lia.
    rewrite !cursor_id_good by done. cbn [result_bind]. rewrite be_value_u64 by done.
    assert (range cursor 108 112 = repeat x00 4) as ->.
    { rewrite Hin by lia. transitivity (range (range (inspect_prefix p (ip_library_id p) (repeat x00 64)) 72 136) 36 40);
        [symmetry; apply (range_range _ 72 136 36 40); lia|by rewrite G4]. }
    rewrite zeros_repeat. change (be_value (repeat x00 4) =? 0) with true. cbn [negb].
    rewrite <- Hnew. f_equal. destruct p. cbn in *. by subst.
Qed.

(** A cursor with the right header is the record of its fields. *)
Lemma inspect_record c library_id p field :
  length c = 208%nat -> range c 0 8 = INSPECT_CURSOR_MAGIC -> be_at c 8 10 = CURSOR_FORMAT_VERSION -> be_at c 10 12 = INSPECT_CURSOR_LENGTH ->
  be_at c 12 16 = INSPECT_OPERATION_DISCRIMINATOR -> range c 16 32 = library_id -> zeros (range c 136 176) = true ->
  sha256 (range c 0 176) = drop 176 c -> ip_asset_id p = range c 32 48 -> ip_selected_revision_id p = range c 48 64 ->
  ip_asset_revision p = be_at c 64 72 -> field = range c 72 136 -> ip_library_id p = library_id -> member_field p = Ok field ->
  encode_inspect_cursor p library_id = Ok c.
Proof.
  intros Hlen H1 H2 H3 H4 H5 Hz%zeros_eq Hsum Ha Hv Hr Hf Hlib Hm. rewrite range_length in Hz by lia. unfold encode_inspect_cursor.
  rewrite bool_decide_eq_true_2 by done. cbn [negb]. rewrite Hm. cbn [result_bind]. do 2 f_equal.
  assert (inspect_prefix p library_id field = range c 0 176) as Hp.
  { unfold inspect_prefix. rewrite Ha, Hv, Hr, Hf, <- H1, <- H2, <- H3, <- H4, <- H5. cbn [Nat.sub] in Hz. rewrite <- Hz.
    rewrite !be_range by (done || lia).
    rewrite (range_split c 0 8 176), (range_split c 8 10 176), (range_split c 10 12 176), (range_split c 12 16 176), (range_split c 16 32 176),
      (range_split c 32 48 176), (range_split c 48 64 176), (range_split c 64 72 176), (range_split c 72 136 176) by lia. done. }
  rewrite Hp. symmetry. rewrite (range_all c 176) at 1. by f_equal.
Qed.
Lemma decode_inspect_inv c library_id p :
  decode_inspect_cursor c library_id = Ok p -> encode_inspect_cursor p library_id = Ok c.
Proof.
  unfold decode_inspect_cursor. intros Hd. passed Hd as Hlen. passed Hd as Hhead. bool_hyps.
  assert (length c = 208%nat) as Hl by (unfold blen, INSPECT_CURSOR_LENGTH in *; lia).
  apply result_bind_ok in Hd as (a & [-> _]%cursor_id_inv & Hd). apply result_bind_ok in Hd as (v & [-> _]%cursor_id_inv & Hd).
  destruct (be_at c 108 112 =? 0) eqn:Eph.
  - passed Hd as Hz. apply negb_false_iff, zeros_eq in Hz. rewrite range_length in Hz by lia. apply position_new_id in Hd as ->.
    eapply inspect_record; done.
  - apply result_bind_ok in Hd as (ph & Hph%phase_of_inv & Hd). apply result_bind_ok in Hd as (n & [-> _]%cursor_id_inv & Hd).
    apply result_bind_ok in Hd as (s & [-> _]%cursor_id_inv & Hd). passed Hd as Ho. apply result_bind_ok in Hd as (loc & Hloc & Hd).
    apply position_new_id in Hd as ->. eapply inspect_record; try done. unfold member_field. cbn [ip_member ip_phase ip_blob_revision ip_last_location_id]. f_equal.
    assert (from_option (fun i => i = range c 120 136) (repeat x00 16 = range c 120 136) loc) as Hlast.
    { destruct (zeros (range c 120 136)) eqn:Ez; [injection Hloc as <-; apply zeros_eq in Ez; rewrite range_length in Ez by lia; by symmetry|].
      apply result_bind_ok in Hloc as (i & [-> _]%cursor_id_inv & Hi). by injection Hi as <-. }
    rewrite <- Hph, !be_range by (done || lia). destruct loc; cbn [from_option] in Hlast; rewrite Hlast;
    by rewrite (range_split c 72 88 136), (range_split c 88 104 136), (range_split c 104 108 136), (range_split c 108 112 136),
      (range_split c 112 120 136) by lia.
Qed.

(** ** Following opaque cursors *)

(** A client that sends back the cursor of each answer; [calm] is the control of the
    uncontrolled queries. *)
Definition calm : Control := {|
  checkpoint_at := fun _ => Continue; register_interrupt := fun _ => Some Continue; clear_interrupt := fun _ => true;
  clock_now := fun _ => None |}.
Fixpoint follow_cursors (fuel : nat) (view : nat -> Library) (library_id : Id) (size : Z) (cursor : option (list byte)) (t : nat)
  : res (list AssetSummaryView) :=
  match fuel with
  | O => Err SeInternal
  | S fuel =>
      let? (page, next) := list_assets_controlled (view t) library_id calm false size cursor in
      match next with
      | None => Ok (ap_assets page)
      | Some cursor => let? rest := follow_cursors fuel view library_id size (Some cursor) (S t) in Ok (ap_assets page ++ rest)
      end
  end.
Definition shows (cursor : option (list byte)) (library_id : Id) (position : ListAssetsPosition) : Prop :=
  match cursor with None | Some [] => position = First | Some c => decode_list_cursor c library_id = Ok position end.
Lemma calm_read {A} (r : res A) : r <> Err SeOperationCancelled -> with_controlled_read_interrupt calm 1 false r = r.
Proof. intros Hr. unfold with_controlled_read_interrupt. cbn. destruct r as [a|[]]; done. Qed.

(** A page only makes cursors that can be encoded. *)
Definition position_unsigned (p : ListAssetsPosition) : Prop :=
  match p with First => True | After _ s e => 0 <= s /\ 0 <= e end.
Lemma scan_unsigned l size rows found e st r : 0 <= e -> scan l size rows found e st = Ok r -> 0 <= r.1.2.
Proof.
  revert found e st. induction rows as [|x rows IH]; intros found e st He Hr; cbn [scan] in Hr; [repeat case_match; by simplify_eq/=|].
  case_match; [by simplify_eq/=|]. unfold valid_sequence in Hr. inv_result. bool_hyps. case_match; [inv_result|]; eapply IH in Hr; lia.
Qed.
Lemma page_next l library_id q page p :
  position_unsigned (lq_position q) -> list_assets l library_id q = Ok page -> ap_next page = Some p ->
  exists s e, p = After library_id s e /\ is_u64 s /\ is_u64 e /\ is_ok (position_after library_id s e) = true.
Proof.
  intros Hq Hl Hn. unfold list_assets in Hl. apply result_bind_ok in Hl as ([s e] & Hs & Hl).
  assert (0 <= s /\ 0 <= e) as [Hs0 He0].
  { unfold list_start, valid_sequence in Hs. destruct (lq_position q); inv_result; bool_hyps; simplify_eq; [lia|done]. }
  case_match eqn:Ez; [unfold asset_page_from_store in Hl; by inv_result|].
  apply result_bind_ok in Hl as ([[found last] st] & Hscan & Hl). apply scan_unsigned in Hscan; [|done]. cbn in Hscan.
  passed Hl as Est. apply result_bind_ok in Hl as (next & Hnext & Hl). unfold asset_page_from_store in Hl. inv_result. cbn in Hn. subst next.
  case_match; [done|]. apply result_bind_ok in Hnext as (p' & Hp & Hnext). injection Hnext as ->. exists s, last.
  rewrite Hp. unfold position_after in Hp. inv_result. bool_hyps. unfold is_u64, U64_MAX, I64_MAX in *. repeat split; lia.
Qed.
Lemma follow_cursors_follow view library_id size fuel cursor position t found :
  length library_id = 16%nat -> position_unsigned position -> shows cursor library_id position ->
  follow fuel view library_id size position t = Ok found -> follow_cursors fuel view library_id size cursor t = Ok found.
Proof.
  intros Hl. revert cursor position t found. induction fuel as [|fuel IH]; intros cursor position t found Hpos Hs Hf; [done|].
  cbn [follow follow_cursors] in *. apply result_bind_ok in Hf as (q & Hq & Hf). apply result_bind_ok in Hf as (page & Hpage & Hf).
  unfold list_assets_controlled. cbn [query_checkpoint checkpoint_at calm result_bind].
  assert (match cursor with None | Some [] => Ok First | Some c => decode_list_cursor c library_id end = Ok position) as ->
    by (destruct cursor as [[|b c]|]; cbn in Hs; by subst).
  cbn [result_bind]. rewrite Hq. cbn [result_bind]. rewrite Hpage, calm_read by done. cbn [result_bind].
  assert (lq_position q = position) as Hqp by (unfold list_assets_query_new in Hq; by inv_result).
  destruct (ap_next page) as [p|] eqn:En; [|done].
  destruct (page_next (view t) library_id q page p) as (s & e & -> & Hsu & Heu & Hok); [by rewrite Hqp|done..|].
  destruct (decode_encode_list library_id s e Hl Hsu Heu Hok) as (c & -> & Hdec & Hlen & _). cbn [result_bind].
  apply result_bind_ok in Hf as (rest & Hrest & Hf). injection Hf as <-.
  rewrite (IH (Some c) (After library_id s e) (S t) rest); [done| | |done].
  - by destruct Hsu, Heu.
  - cbn. by destruct c.
Qed.
End cursors.

(** The opaque cursors of the query service are canonical: the encoder accepts every
    position the types and the tables allow, the decoder reads it back, both listing and
    inspection cursors pass the public checksum test, and whatever the decoder accepts
    is exactly the encoding of the position it returns. *)
Theorem cursors_are_canonical `{StoreEnv} `{!StoreEnvLaws H} (library_id : Id) :
  id_valid (repeat x00 16) = false -> length library_id = 16%nat ->
  (forall s e, is_u64 s -> is_u64 e -> is_ok (position_after library_id s e) = true ->
     exists c, encode_list_cursor (After library_id s e) library_id = Ok c /\
       decode_list_cursor c library_id = Ok (After library_id s e) /\ opaque_cursor_checksum_is_valid c = true) /\
  (forall p, position_good p -> ip_library_id p = library_id -> is_ok (inspect_asset_position_new p) = true ->
     exists c, encode_inspect_cursor p library_id = Ok c /\ decode_inspect_cursor c library_id = Ok p /\
       opaque_cursor_checksum_is_valid c = true) /\
  (forall c p, decode_list_cursor c library_id = Ok p -> encode_list_cursor p library_id = Ok c) /\
  (forall c p, decode_inspect_cursor c library_id = Ok p -> encode_inspect_cursor p library_id = Ok c).
Proof.
  intros Hz Hl. split_and!.
  - intros s e Hs He Hok. destruct (decode_encode_list library_id s e Hl Hs He Hok) as (c & H1 & H2 & _ & H3). eauto.
  - intros p Hp <- Hok. destruct (inspect_asset_position_new p) as [q|] eqn:Eq; [|done]. pose proof (position_new_id _ _ Eq) as ->.
    destruct (decode_encode_inspect Hz p Hp Eq) as (c & H1 & H2 & _ & H3). eauto.
  - intros c p. apply decode_list_inv.
  - intros c p. apply decode_inspect_inv.
Qed.

(** C11: a client that lists assets page by page, sending back the opaque cursor of each
    answer, gets after at most one page for every event of the log it started on exactly
    the assets registered in that log, each once and in the order of their registration,
    whatever is committed between two of its requests. *)
Theorem listing_by_cursor_is_exact `{StoreEnv} `{!StoreEnvLaws H} (view : nat -> Library) (library_id : Id) (size : Z) :
  length library_id = 16%nat -> library_id <> zero_library -> 1 <= size <= 64 -> (forall t, dense (view t) /\ readable (view t)) ->
  (forall t, events (view t) `prefix_of` events (view (S t))) ->
  exists found, follow_cursors (S (length (events (view 0%nat)))) view library_id size None 0 = Ok found /\
    map listed found = registered (events (view 0%nat)).
Proof.
  intros Hl Hlib Hsize Hview Hgrow. destruct (listing_exact view library_id size Hlib Hsize Hview Hgrow) as (found & Hf & Hm).
  exists found. split; [|done]. by eapply (follow_cursors_follow _ _ _ _ None First).
Qed.

(** ** Concrete cursors *)

(** An environment whose identities are not zero, as UUIDv7 requires. *)
Definition strict_env : StoreEnv := {|
  id_valid := fun b => bool_decide (length b = 16%nat) && negb (zeros b); timestamp_valid := fun _ nanos => (0 <=? nanos) && (nanos <? 1000000000);
  sha256 := fun _ => repeat x00 32 |}.
Lemma strict_env_laws : StoreEnvLaws strict_env.
Proof. by constructor. Qed.
Definition some_position : InspectAssetPosition := {|
  ip_library_id := Scenario.id 99; ip_asset_id := Scenario.id 50; ip_selected_revision_id := Scenario.id 51; ip_asset_revision := 3;
  ip_member := Some (Scenario.id 52, Scenario.id 53, 0); ip_phase := Some RequiredCustodySeen; ip_blob_revision := Some 1;
  ip_last_location_id := Some (Scenario.id 54) |}.
Lemma cursors_are_canonical_witness :
  exists c, @encode_inspect_cursor strict_env some_position (Scenario.id 99) = Ok c /\
    @decode_inspect_cursor strict_env c (Scenario.id 99) = Ok some_position /\ @opaque_cursor_checksum_is_valid strict_env c = true.
Proof.
  destruct (@cursors_are_canonical strict_env strict_env_laws (Scenario.id 99)) as (_ & Hi & _ & _); [reflexivity..|].
  apply (Hi some_position); [|reflexivity..]. repeat split; by vm_compute.
Defined.

#[local] Existing Instance Scenario.env.
#[local] Existing Instance Scenario.env_laws.
Lemma listing_by_cursor_is_exact_witness :
  registered (events (growing 0)) = [(Scenario.id 50, 1)] /\
  exists found, follow_cursors (S (length (events (growing 0)))) growing (Scenario.id 99) 1 None 0 = Ok found /\
    map listed found = registered (events (growing 0)).
Proof.
  split; [vm_compute; reflexivity|].
  assert (forall t, growing (S t) = growing 1) as Hg by done.
  apply (listing_by_cursor_is_exact growing (Scenario.id 99) 1); [reflexivity|vm_compute; done|lia| |].
  - intros [|t]; [|rewrite Hg]; (split; [apply dense_check_ok|apply readable_check]; vm_compute; reflexivity).
  - intros [|t]; [|by rewrite Hg]. exists (drop 1 (events (growing 1))). vm_compute. reflexivity.
Defined.
End CursorFacts.
