(* ===== verification/MaterializeService.v ===== *)
(** [MaterializeAssetService]: mengxia-app/src/materialize.rs, with the guard of
    asset_persistence.rs, over the writer behind its gate and the query
    [resolve_materialization].  The storage port is a parameter: what preparing,
    publishing and cleaning up a file return. *)
From Stdlib Require Import ZArith Lia String.
From Stdlib Require Import Strings.Byte Init.Byte.
From stdpp Require Import prelude list gmap.
From S2P Require Import Prelude RustText Types AssetDomain CreativeDomain Ports CommandLedger CreativeStore AssetStore AssetCommands AssetLedger StartupRecovery AppRuntime AssetQuery.

Set Warnings "-clear-no-such-hyp".

Module Materialize.
Import Ports Ledger Assets AssetOps Startup Runtime AssetQuery.

Record MaterializeAssetRequest := {
  zr_command_id : Id; zr_asset_id : Id; zr_asset_revision_id : Id; zr_representation_id : Id; zr_resource_id : Id;
  zr_member_ordinal : Z; zr_destination : list byte }.
Definition materialize_asset_request_new (r : MaterializeAssetRequest) : result ErrorCode MaterializeAssetRequest :=
  if (4095 <? zr_member_ordinal r) || bool_decide (zr_destination r = []) || (1023 <? blen (zr_destination r))
     || bool_decide (x00 ∈ zr_destination r)
  then Err ValidationError else Ok r.
Record MaterializeAssetResult := { zs_stored : MaterializationResult; zs_replayed : bool; zs_cleanup_pending : bool }.
Abbreviation Z' := (App ErrorCode).

(** [MaterializationEffectRequest]. *)
Record EffectRequest := { ef_command : MaterializationCommandBinding; ef_member : ResolvedManagedMember; ef_destination : list byte }.
Definition effect_request_new (command : MaterializationCommandBinding) (member : ResolvedManagedMember) (destination : list byte)
  : res EffectRequest :=
  if bool_decide (destination = []) || (1023 <? blen destination) || bool_decide (x00 ∈ destination)
     || negb (bool_decide (mc_asset_id command = rm_asset_id member))
     || negb (bool_decide (mc_asset_revision_id command = rm_asset_revision_id member))
     || negb (bool_decide (mc_representation_id command = rm_representation_id member))
     || negb (bool_decide (mc_resource_id command = rm_resource_id member))
     || negb (mc_member_ordinal command =? rm_member_ordinal member)
  then Err SeValidation else Ok {| ef_command := command; ef_member := member; ef_destination := destination |}.
Inductive EffectOutcome := Published | Stopped (stop : IngestStop).
(** [MaterializationStoragePort]; [prepare true] is the preparation of a recovery. *)
Record EffectStorage := {
  cleanup_completed : EffectRequest -> result AssetStoreError (); prepare : bool -> EffectRequest -> result AssetStoreError ();
  publish : EffectRequest -> result AssetStoreError EffectOutcome; cleanup : EffectRequest -> result AssetStoreError () }.

Definition store_failure (e : AssetStoreError) : ErrorCode := error_code e.
Definition stop_failure (stop : IngestStop) : ErrorCode :=
  match stop with Cancelled => OperationCancelled | DeadlineReached => DeadlineExceeded end.
Definition recovery_code (e : AssetStoreError) : ErrorCode :=
  match e with
  | SeStorageIo | SeShuttingDown => StorageIoError
  | SeStorageConfiguration | SeConflict | SeValidation => StorageConfigurationError
  | SeIdGenerationUnavailable => IdGenerationUnavailable
  | _ => InternalError
  end.

Section service.
Context `{StoreEnv} (context : StoreContext) (env : Outside) (storage : EffectStorage) (current_backend_id : list byte).

Definition service_new : result ErrorCode (list byte) :=
  if negb (valid_backend_id current_backend_id) then Err StorageConfigurationError else Ok current_backend_id.

(** ** Request digest *)

Definition update_tlv (tag : Z) (value : list byte) : list byte := [z2b tag] ++ be_bytes 4 (blen value) ++ value.
Definition destination_digest (destination : list byte) : list byte :=
  sha256 (bs "MENGXIA_DESTINATION_SELECTOR_V1" ++ [x00] ++ be_bytes 2 (blen destination) ++ destination).
Definition request_preimage (r : MaterializeAssetRequest) : list byte :=
  bs "MENGXIA_ASSET_MATERIALIZE_MEMBER_REQUEST_V1" ++ [x00] ++ update_tlv 1 (zr_asset_id r) ++ update_tlv 2 (zr_asset_revision_id r)
  ++ update_tlv 3 (zr_representation_id r) ++ update_tlv 4 (zr_resource_id r) ++ update_tlv 5 (be_bytes 4 (zr_member_ordinal r))
  ++ update_tlv 6 (destination_digest (zr_destination r)) ++ update_tlv 7 (bs "NO_REPLACE_FILE_V1").
Definition canonical_request_digest (r : MaterializeAssetRequest) : list byte := sha256 (request_preimage r).

(** ** Steps *)

Definition checkpoint : Z' () :=
  d ← ask (o_checkpoint env);
  match d with Continue => mret tt | Stop stop => throw (stop_failure stop) end.
(** [.await.map_err(store_failure)?]. *)
Definition stored {A} (operation : Library -> res (A * Library)) : Z' A :=
  r ← submit context env operation; from_result (map_err store_failure r).
Definition observe (command : MaterializationCommandBinding) : Z' MaterializationObservation :=
  stored (fun l => let? o := observe_materialization l context command in Ok (o, l)).
Definition resolve (selection : MaterializationSelection) : Z' ResolvedManagedMember :=
  stored (fun l => let? m := resolve_materialization l selection in Ok (m, l)).
(** The guard exists once the claim is stored. *)
Definition claim_new (transition : MaterializationTransition) : Z' () :=
  _ ← stored (fun l => let? l := claim_new_materialization l context transition in Ok (tt, l));
  modify (fun w => with_armed w true).
Definition reacquire (transition : MaterializationTransition) (expected : option ErrorCode) : Z' () :=
  _ ← stored (fun l => let? l := reacquire_materialization l context transition expected in Ok (tt, l));
  modify (fun w => with_armed w true).
(** [guard.complete] and [guard.finish] consume the guard. *)
Definition guarded {A} (operation : Library -> res (A * Library)) : Z' A :=
  r ← (r ← submit context env operation;
       _ ← modify (fun w => match r with Ok _ => with_armed w false | Err _ => w end);
       _ ← modify drop_guard; mret r);
  from_result (map_err store_failure r).
Definition guard_complete (transition : MaterializationTransition) : Z' MaterializationResult :=
  guarded (fun l => complete_materialization l context transition).
Definition guard_finish (finish : MaterializationFinish) : Z' ExternalDispositionOutcome :=
  guarded (fun l => finish_materialization l context finish).

Definition finish_with {A} (command : MaterializationCommandBinding) (claimed_at : Timestamp) (d : Disposition) (code : ErrorCode) : Z' A :=
  finish ← from_result (map_err store_failure (materialization_finish_new {| mt_command := command; mt_at := claimed_at |} d));
  _ ← guard_finish finish;
  throw code.

(** What follows the claim. *)
Definition after_claim (command : MaterializationCommandBinding) (effect : EffectRequest) (claimed_at : Timestamp) : Z' MaterializeAssetResult :=
  d ← ask (o_checkpoint env);
  match d with
  | Stop stop => finish_with command claimed_at (DispTerminalRejected (stop_failure stop)) (stop_failure stop)
  | Continue =>
      match publish storage effect with
      | Ok (Stopped stop) => finish_with command claimed_at (DispTerminalRejected (stop_failure stop)) (stop_failure stop)
      | Err e => finish_with command claimed_at (DispRecoveryRequired (recovery_code e)) (recovery_code e)
      | Ok Published =>
          t ← now env;
          match t with
          | None => finish_with command claimed_at (DispRecoveryRequired IdGenerationUnavailable) IdGenerationUnavailable
          | Some completed_at =>
              r ← guard_complete {| mt_command := command; mt_at := completed_at |};
              mret {| zs_stored := r; zs_replayed := false; zs_cleanup_pending := negb (is_ok (cleanup storage effect)) |}
          end
      end
  end.
Definition dropping_guard {A} (m : Z' A) : Z' A := fun w => let '(r, w) := m w in (r, drop_guard w).

Definition select (request : MaterializeAssetRequest) (command : MaterializationCommandBinding) : Z' (ResolvedManagedMember) :=
  selection ← from_result (map_err store_failure (materialization_selection_new (zr_asset_id request) (zr_asset_revision_id request)
    (zr_representation_id request) (zr_resource_id request) (zr_member_ordinal request) current_backend_id));
  resolve selection.
(** The answer to a command that is already completed. *)
Definition replay (request : MaterializeAssetRequest) (command : MaterializationCommandBinding) (r : MaterializationResult) : Z' MaterializeAssetResult :=
  member ← select request command;
  if negb (bool_decide (rm_blob_digest member = mr_blob_digest r)) || negb (rm_byte_length member =? mr_byte_length r)
  then throw StorageCorruption
  else
    effect ← from_result (map_err store_failure (effect_request_new command member (zr_destination request)));
    mret {| zs_stored := r; zs_replayed := true; zs_cleanup_pending := negb (is_ok (cleanup_completed storage effect)) |}.
(** [recovery] holds the recorded code of a candidate for recovery. *)
Definition materialize (request : MaterializeAssetRequest) (command : MaterializationCommandBinding) (recovery : option (option ErrorCode))
  : Z' MaterializeAssetResult :=
  _ ← checkpoint;
  member ← select request command;
  effect ← from_result (map_err store_failure (effect_request_new command member (zr_destination request)));
  _ ← from_result (map_err store_failure (prepare storage (negb (none recovery)) effect));
  _ ← checkpoint;
  t ← now env;
  claimed_at ← from_result (ok_or IdGenerationUnavailable t);
  let transition := {| mt_command := command; mt_at := claimed_at |} in
  _ ← match recovery with Some expected => reacquire transition expected | None => claim_new transition end;
  dropping_guard (after_claim command effect claimed_at).

Definition binding_for (request : MaterializeAssetRequest) : CommandBinding := {|
  cb_command_id := zr_command_id request; cb_operation_id := ASSET_MATERIALIZE_V1;
  cb_canonical_request_digest := canonical_request_digest request |}.
Definition execute_controlled (request : MaterializeAssetRequest) : Z' MaterializeAssetResult :=
  _ ← checkpoint;
  command ← from_result (map_err store_failure (materialization_command_binding_new (binding_for request) (zr_asset_id request)
    (zr_asset_revision_id request) (zr_representation_id request) (zr_resource_id request) (zr_member_ordinal request)));
  _ ← checkpoint;
  observation ← observe command;
  match observation with
  | ObsReplay r => replay request command r
  | ObsTerminalRejected code => throw code
  | ObsInProgress => throw CommandInProgress
  | ObsRecoveryCandidate code => materialize request command (Some code)
  | ObsAbsent => materialize request command None
  end.
End service.
End Materialize.
