(* ===== verification/MaterializeFacts.v ===== *)
(** Theorems about the materialization service, against sessions that may use the same
    command: an execution never leaves its claim behind unless the runtime has failed, and
    its answer is what the ledger records. *)
From Stdlib Require Import ZArith Lia String.
From Stdlib Require Import Strings.Byte Init.Byte.
From stdpp Require Import prelude list gmap.
From S2P Require Import Prelude RustText Types AssetDomain CreativeDomain Ports CommandLedger CreativeStore StoreScenario AssetStore AssetCommands CommandRows AssetLedger AssetScenario AssetHistory AssetSequences StartupRecovery AppRuntime AssetQuery ServiceRules MaterializeService.

Set Warnings "-clear-no-such-hyp".

Module MaterializeFacts.
Import Ports Ledger Assets AssetOps Rows AssetLedger AssetHistory AssetSequences Startup Runtime AssetQuery Rules Materialize.

Section facts.
Context `{StoreEnv} (context : StoreContext) (env : Outside) (i : Id).
#[local] Abbreviation held := (Rules.held context i).
#[local] Abbreviation row_of := (Rules.row_of i).
#[local] Abbreviation untouched := (Rules.untouched context env).

(** ** What the operations of the store record *)

Lemma complete_materialization_ok l t r l' :
  cb_command_id (mc_binding (mt_command t)) = i -> complete_materialization l context t = Ok (r, l') ->
  exists row, held (mc_binding (mt_command t)) l' row /\ c_state row = COMPLETED /\ replay_materialization l' row (mt_command t) = Ok r.
Proof.
  intros Hid Hr. pose proof (complete_materialization_effect _ _ _ _ _ Hr) as [He _]. unfold complete_materialization in Hr.
  apply result_bind_ok in Hr as (row & Hh%(bound_row_held context i) & Hr); [|done]. passed Hr as Eo.
  apply result_bind_ok in Hr as (l1 & Hl1%ok_or_ok & Hr). apply update_command_ok in Hl1 as (row' & _ & _ & Hl1).
  apply result_bind_ok in Hr as (row5 & Hrow5%ok_or_ok & Hr). apply result_bind_ok in Hr as (row6 & [-> _]%validated & Hr).
  apply result_bind_ok in Hr as (cr & Hcr & Hr). injection Hr as <- <-.
  change (commands l1 !! cb_command_id (mc_binding (mt_command t)) = Some row5) in Hrow5. exists row5.
  split; [eapply effect_held; [done|exact Hh|exact He|by rewrite <- Hid]|]. split; [|done].
  rewrite Hl1, lookup_insert_eq in Hrow5. by injection Hrow5 as <-.
Qed.
Lemma finish_materialization_ok l r o l' state code :
  cb_command_id (mc_binding (mt_command (mf_transition r))) = i ->
  binding_ok (mc_binding (mt_command (mf_transition r))) [ASSET_MATERIALIZE_V1] -> time_ok (mt_at (mf_transition r)) ->
  disposition_ok is_materialization_terminal_code is_materialization_recovery_code (mf_disposition r) ->
  disposition_parts (mf_disposition r) = (state, code) -> finish_materialization l context r = Ok (o, l') ->
  exists row, held (mc_binding (mt_command (mf_transition r))) l' row /\ c_state row = state /\ parse_safe_code row = Ok code.
Proof.
  intros Hid Hb Ht Hok Hd Hr. pose proof (finish_materialization_effect _ _ _ _ _ Hb Ht Hok Hr) as [He _]. unfold finish_materialization in Hr.
  apply result_bind_ok in Hr as (row & Hh%(bound_row_held context i) & Hr); [|done]. rewrite Hd in Hr.
  destruct (owned_claim context row) eqn:Eo.
  - apply result_bind_ok in Hr as (l1 & Hl1%ok_or_ok & Hr). injection Hr as <- <-. pose proof Hl1 as Hl.
    apply update_command_ok in Hl1 as (row' & _ & _ & Hl1). eexists. split; [eapply effect_held; [done|exact Hh|exact He|]|].
    { by rewrite Hl1, <- Hid, lookup_insert_eq. }
    split; [done|]. apply parse_marked.
  - apply result_bind_ok in Hr as (known & Hk & Hr). destruct known; [|done]. injection Hr as <- <-. exists row. split; [done|].
    destruct (bool_decide (c_state row = state)) eqn:Es; [|done]. apply bool_decide_eq_true in Es. inv_result. bool_hyps. split; [done|]. congruence.
Qed.
Lemma observe_ok l c o :
  cb_command_id (mc_binding c) = i -> observe_materialization l context c = Ok o ->
  match o with
  | ObsReplay r => exists row, held (mc_binding c) l row /\ c_state row = COMPLETED /\ replay_materialization l row c = Ok r
  | ObsTerminalRejected code => exists row, held (mc_binding c) l row /\ c_state row = TERMINAL_REJECTED /\ parse_safe_code row = Ok code
  | _ => True
  end.
Proof.
  intros Hid. unfold observe_materialization, read_command, Store.read_command. fold (commands l). case_match eqn:E; intros Hr; [|by simplify_eq].
  passed Hr as Eb. apply negb_false_iff in Eb. apply result_bind_ok in Hr as (row & [-> Hv]%validated & Hr).
  assert (held (mc_binding c) l c0) as Hh by (split; [by rewrite <- Hid|done]).
  destruct (c_state c0) eqn:Est; [by case_match; simplify_eq|inv_result; simplify_eq; eauto..].
Qed.

Lemma claim_new_owned l t l' :
  context_ok context -> cb_command_id (mc_binding (mt_command t)) = i ->
  binding_ok (mc_binding (mt_command t)) [ASSET_MATERIALIZE_V1] -> time_ok (mt_at t) ->
  claim_new_materialization l context t = Ok l' ->
  exists row, held (mc_binding (mt_command t)) l' row /\ c_runtime_id row = runtime_id context.
Proof.
  intros Hc Hid Hb Ht. unfold claim_new_materialization. case_match; [done|]. eapply inserted_owned; [done..| |done]. set_solver.
Qed.
Lemma reacquire_owned l t code l' :
  context_ok context -> cb_command_id (mc_binding (mt_command t)) = i ->
  binding_ok (mc_binding (mt_command t)) [ASSET_MATERIALIZE_V1] -> time_ok (mt_at t) ->
  reacquire_materialization l context t code = Ok l' ->
  exists row, held (mc_binding (mt_command t)) l' row /\ c_runtime_id row = runtime_id context.
Proof.
  intros Hc Hid Hb Ht Hr. pose proof (reacquire_materialization_effect _ _ _ _ _ Hc Hb Ht Hr) as [He _].
  unfold reacquire_materialization in Hr. apply result_bind_ok in Hr as (row & Hh%(bound_row_held context i) & Hr); [|done].
  apply result_bind_ok in Hr as (ok & _ & Hr). passed Hr as Eo. apply ok_or_ok, update_command_ok in Hr as (row' & _ & _ & Hl).
  exists (reacquired_row (runtime_id context) (mt_at t) row'). split; [|done].
  eapply effect_held; [done|exact Hh|exact He|]. by rewrite Hl, <- Hid, lookup_insert_eq.
Qed.

(** ** Answers and the ledger *)

Context (Hc : context_ok context) (Hok : others_ok env) (Hclock : forall t x, o_now env t = Some x -> time_ok x).
Context (storage : EffectStorage) (backend : list byte) (request : MaterializeAssetRequest).
Context (Hi : zr_command_id request = i) (Hb : binding_ok (binding_for request) [ASSET_MATERIALIZE_V1]).
#[local] Abbreviation b := (binding_for request).
#[local] Abbreviation owned := (Rules.owned context i b).

(** The stored result is the one the row gave in a library that only other sessions have
    changed since. *)
Definition completed_with (x : MaterializeAssetResult) (w : World) : Prop :=
  exists w0 row command, untouched w0 w /\ row_of w = Some row /\ held b (w_library w0) row /\ c_state row = COMPLETED /\ mc_binding command = b /\
    replay_materialization (w_library w0) row command = Ok (zs_stored x).
Definition refused_with (code : ErrorCode) (w : World) : Prop :=
  exists row, held b (w_library w) row /\ (c_state row = TERMINAL_REJECTED \/ c_state row = RECOVERY_REQUIRED) /\ parse_safe_code row = Ok code.
Definition answered (r : result ErrorCode MaterializeAssetResult) (w : World) : Prop :=
  match r with Ok x => completed_with x w | Err code => refused_with code w end.
(** The claim is stored and the guard armed. *)
Definition ready (w : World) : Prop := w_armed w = true /\ owned w.
Definition claimed_post (w : World) (r : result ErrorCode MaterializeAssetResult) (w' : World) : Prop :=
  same_book w w' /\ (ready w' \/ w_failed w' = true /\ owned w' \/ w_armed w' = false /\ answered r w').
(** What an execution leaves. *)
Definition concluded (w : World) (r : result ErrorCode MaterializeAssetResult) (w' : World) : Prop :=
  same_book w w' /\ w_armed w' = false /\
  (w_failed w' = true /\ (untouched w w' \/ owned w') \/
   match r with Ok x => completed_with x w' | Err code => untouched w w' \/ refused_with code w' end).

Lemma effect_ready_later w w' : untouched w w' -> w_armed w' = w_armed w -> ready w -> ready w'.
Proof. intros Hu Ha [Harm Hown]. split; [congruence|by eapply untouched_owned]. Qed.
Lemma effect_concluded_refused w w' code : same_book w w' -> w_armed w' = false -> untouched w w' -> concluded w (Err code) w'.
Proof. intros Hbk Ha Hr. split; [done|]. split; [done|]. right. by left. Qed.
Lemma effect_concluded_later w1 w2 r w3 : same_book w1 w2 -> untouched w1 w2 -> concluded w2 r w3 -> concluded w1 r w3.
Proof.
  intros Hbk Hu (Hb2 & Ha & Hp). pose proof (fun w => untouched_trans context env w1 w2 w Hu) as Ht.
  split; [by eapply same_book_trans|]. split; [done|]. destruct r; naive_solver.
Qed.

(** A step that writes nothing: it is enough to conclude from the world after it,
    and an error there is a refusal. *)
Lemma wp_step {A} (m : App ErrorCode A) (k : A -> App ErrorCode MaterializeAssetResult) w (P : A -> World -> Prop) :
  w_armed w = false ->
  wp m (fun r w' => same_book w w' /\ w_armed w' = false /\ untouched w w' /\ (forall a, r = Ok a -> P a w')) w ->
  (forall a w', same_book w w' -> w_armed w' = false -> untouched w w' -> P a w' -> wp (k a) (concluded w') w') ->
  wp (m ≫= k) (concluded w) w.
Proof.
  intros Ha Hm Hk. apply wp_bind. eapply wp_mono; [exact Hm|]. intros [a|e] w' (Hbk & Ha' & Hr & HP); [|by apply effect_concluded_refused].
  eapply wp_mono; [by apply Hk; auto|]. intros r w2. by apply effect_concluded_later.
Qed.
Lemma wp_pure {A} (r : result ErrorCode A) w (P : A -> World -> Prop) :
  w_armed w = false -> (forall a, r = Ok a -> P a w) ->
  wp (from_result r) (fun r w' => same_book w w' /\ w_armed w' = false /\ untouched w w' /\ (forall a, r = Ok a -> P a w')) w.
Proof. intros Ha HP. unfold wp, from_result. cbn. auto using untouched_refl, same_book_refl. Qed.
Lemma effect_wp_checkpoint w :
  w_armed w = false ->
  wp (checkpoint env) (fun r w' => same_book w w' /\ w_armed w' = false /\ untouched w w' /\ (forall a, r = Ok a -> True)) w.
Proof.
  intros Ha. unfold checkpoint. apply wp_bind, (wp_ask context env). intros t w' Hbk Ha' Hu. rewrite Ha in Ha'.
  by destruct (o_checkpoint env t).
Qed.
(** A call that only reads. *)
Lemma wp_read {A} (operation : Library -> res A) w :
  w_armed w = false ->
  wp (stored context env (fun l => let? a := operation l in Ok (a, l)))
     (fun r w' => same_book w w' /\ w_armed w' = false /\ untouched w w' /\
        (forall a, r = Ok a -> operation (w_library w') = Ok a)) w.
Proof.
  intros Ha. unfold stored. apply wp_bind. eapply (wp_submit context env).
  - intros e w' Hbk Ha' Hr _ _. unfold wp. cbn. split; [done|]. split; [congruence|]. by split.
  - intros l a l' w' Hu Hop _ Hbk Ha' Hlib _. apply result_bind_ok in Hop as (a' & Hop & E). injection E as <- <-.
    unfold wp. cbn. split; [done|]. split; [congruence|]. rewrite Hlib. split; [|by intros ? [= <-]].
    eapply untouched_trans; [exact Hu|]. by apply untouched_same.
Qed.

(** ** After the claim *)

Context (command : MaterializationCommandBinding) (Hcmd : mc_binding command = b).

Lemma command_id : cb_command_id (mc_binding command) = i.
Proof. by rewrite Hcmd. Qed.

Lemma wp_finish_with {A} claimed_at d code state w (Q : result ErrorCode A -> World -> Prop) :
  ready w -> time_ok claimed_at -> disposition_parts d = (state, code) ->
  disposition_ok is_materialization_terminal_code is_materialization_recovery_code d ->
  (forall e w', same_book w w' -> w_failed w' = true -> owned w' -> Q (Err e) w') ->
  (forall w', same_book w w' -> w_armed w' = false -> refused_with code w' -> Q (Err code) w') ->
  wp (finish_with context env command claimed_at d code) Q w.
Proof.
  intros Ha Ht Hd Hdok Hfail Hdone. unfold finish_with. apply wp_bind. unfold wp at 1. cbn [from_result fst snd].
  set (finish := {| mf_transition := {| mt_command := command; mt_at := claimed_at |}; mf_disposition := d |}).
  assert (materialization_finish_new {| mt_command := command; mt_at := claimed_at |} d = Ok finish) as ->.
  { unfold materialization_finish_new. destruct d; cbn in Hdok; by rewrite Hdok. }
  cbn [map_err]. apply wp_bind. unfold guard_finish, guarded. apply wp_bind; eapply (wp_guarded context env); [apply Ha| |].
  - intros e w' Hbk Hf Hu. apply Hfail; [done..|]. eapply untouched_owned; [done..|apply Ha].
  - intros l o l' w' Hop Hbk Hdis Hl. unfold wp. cbn. apply Hdone; [done..|].
    eapply (finish_materialization_ok l finish) in Hop as (row & Hh & Hst & Hcode); cbn; rewrite ?Hcmd; try done.
    cbn [finish mf_transition mt_command] in Hh. rewrite Hcmd in Hh. exists row. rewrite Hl. split; [done|]. split; [|done].
    rewrite Hst. destruct d; cbn in Hd; injection Hd as <- _; auto.
Qed.
Lemma stop_terminal stop : is_materialization_terminal_code (stop_failure stop) = true.
Proof. by destruct stop. Qed.
Lemma recovery_accepted e : is_materialization_recovery_code (recovery_code e) = true.
Proof. by destruct e. Qed.

Lemma effect_wp_after_claim effect claimed_at w :
  ready w -> time_ok claimed_at -> wp (after_claim context env storage command effect claimed_at) (claimed_post w) w.
Proof.
  intros Ha Ht. unfold after_claim. apply wp_bind, (wp_ask context env). intros t w1 Hb1 Ha1 Hu1. generalize (o_checkpoint env t) as d. intros d.
  assert (ready w1) as Harm by (by eapply effect_ready_later).
  assert (forall d code state, disposition_parts d = (state, code) ->
    disposition_ok is_materialization_terminal_code is_materialization_recovery_code d -> forall w2, same_book w w2 -> ready w2 ->
    wp (finish_with context env command claimed_at d code) (claimed_post w) w2) as Hfin.
  { intros d' code state Hd Hdok w2 Hb2 Ha2. eapply wp_finish_with; try done.
    - intros e w3 Hb3 Hf Ho. split; [by eapply same_book_trans|]. by right; left.
    - intros w3 Hb3 Hdis Hr. split; [by eapply same_book_trans|]. by right; right. }
  destruct d as [|stop]; [|eapply Hfin; [reflexivity|apply stop_terminal|done..]].
  destruct (publish storage effect) as [[|stop]|e];
    [|eapply Hfin; [reflexivity|apply stop_terminal|done..]|eapply Hfin; [reflexivity|apply recovery_accepted|done..]].
  apply wp_bind. unfold now. apply (wp_ask context env). intros t2 w2 Hb2 Ha2 Hu2.
  assert (same_book w w2) as Hbk by (by eapply same_book_trans). assert (ready w2) as Harm2 by (by eapply effect_ready_later).
  destruct (o_now env t2) as [completed_at|] eqn:Et; [|eapply Hfin; done].
  apply wp_bind. unfold guard_complete, guarded. apply wp_bind; eapply (wp_guarded context env); [apply Harm2| |].
  - intros e w' Hb3 Hf Hu. split; [by eapply same_book_trans|]. right; left. split; [done|]. eapply untouched_owned; [done..|apply Harm2].
  - intros l r l' w' Hop Hb3 Hdis Hl. split; [exact (same_book_trans _ _ _ Hbk Hb3)|]. right. right. split; [exact Hdis|].
    apply (complete_materialization_ok l) in Hop as (row & Hh & Hst & Hrep); [|apply command_id]. cbn [mt_command] in *. rewrite Hcmd in Hh.
    rewrite <- Hl in Hh, Hrep. exists w', row, command. split; [apply untouched_refl|]. split; [apply Hh|done].
Qed.
Lemma effect_wp_dropping effect claimed_at w0 w :
  same_book w0 w -> ready w -> time_ok claimed_at ->
  wp (dropping_guard (after_claim context env storage command effect claimed_at)) (concluded w0) w.
Proof.
  intros Hb0 Harm Ht. pose proof (effect_wp_after_claim effect claimed_at w Harm Ht) as Hw. unfold wp in *. unfold dropping_guard.
  destruct (after_claim _ _ _ _ _ _ w) as [r w1]. cbn in *. destruct Hw as [Hbk Hp].
  split; [exact (same_book_trans _ _ _ Hb0 (same_book_trans _ _ _ Hbk (drop_book w1)))|]. split; [apply drop_armed|].
  destruct Hp as [[Ha Hp]|[[Hf Hp]|[Ha Hp]]].
  - left. split; [apply drop_failed; by left|]. right. by eapply untouched_owned; eauto using drop_untouched.
  - left. split; [apply drop_failed; by right|]. right. by eapply untouched_owned; eauto using drop_untouched.
  - right. rewrite drop_disarmed by done. destruct r; [done|by right].
Qed.

(** ** Before the claim *)

Lemma wp_select w :
  w_armed w = false ->
  wp (select context env backend request command)
     (fun r w' => same_book w w' /\ w_armed w' = false /\ untouched w w' /\ (forall a, r = Ok a -> True)) w.
Proof.
  intros Ha. unfold select. apply wp_bind. unfold wp at 1. cbn [from_result fst snd]. destruct (map_err _ _) as [sel|e]; [|auto using untouched_refl, same_book_refl].
  unfold resolve. eapply wp_mono; [by apply wp_read|]. intros r w' (? & ? & ? & _). done.
Qed.
(** The claim: refused, or stored with the guard. *)
Lemma wp_claimed (operation : Library -> res Library) effect claimed_at w :
  (forall l l', operation l = Ok l' -> exists row, held b l' row /\ c_runtime_id row = runtime_id context) ->
  w_armed w = false -> time_ok claimed_at ->
  wp (_ ← (_ ← stored context env (fun l => let? l := operation l in Ok (tt, l)); modify (fun w => with_armed w true));
      dropping_guard (after_claim context env storage command effect claimed_at)) (concluded w) w.
Proof.
  intros Hown Ha Ht. apply wp_bind, wp_bind. unfold stored. apply wp_bind. eapply (wp_submit context env).
  - intros e w' Hbk Ha' Hr _ _. unfold wp. cbn. apply effect_concluded_refused; [done|congruence|done].
  - intros l a l' w' _ Hop _ Hbk _ Hl _. apply result_bind_ok in Hop as (l2 & Hop & E). injection E as <- <-.
    change (wp (dropping_guard (after_claim context env storage command effect claimed_at)) (concluded w) (with_armed w' true)).
    apply effect_wp_dropping; [done| |done]. split; [done|]. destruct (Hown _ _ Hop) as (row & Hh & Hr). exists row. cbn. by rewrite Hl.
Qed.
Lemma wp_materialize recovery w : w_armed w = false -> wp (materialize context env storage backend request command recovery) (concluded w) w.
Proof.
  intros Ha. unfold materialize. eapply (wp_step _ _ _ (fun _ _ => True)); [done|by apply effect_wp_checkpoint|]. intros _ w1 _ Ha1 _ _.
  eapply (wp_step _ _ _ (fun _ _ => True)); [done|by apply wp_select|]. intros member w2 _ Ha2 _ _.
  eapply (wp_step _ _ _ (fun _ _ => True)); [done|by apply wp_pure|]. intros effect w3 _ Ha3 _ _.
  eapply (wp_step _ _ _ (fun _ _ => True)); [done|by apply wp_pure|]. intros _ w4 _ Ha4 _ _.
  eapply (wp_step _ _ _ (fun _ _ => True)); [done|by apply effect_wp_checkpoint|]. intros _ w5 _ Ha5 _ _.
  eapply (wp_step _ _ _ (fun t _ => forall x, t = Some x -> time_ok x)); [done| |].
  { unfold now. apply (wp_ask context env). intros t w' Hbk Ha' Hu. split; [done|]. split; [congruence|].
    split; [done|]. intros ? [= <-]. eauto. }
  intros t w6 _ Ha6 _ Htok. eapply (wp_step _ _ _ (fun x _ => time_ok x)); [done|apply wp_pure; [done|]; intros x Hx; destruct t; [|done];
    injection Hx as <-; by apply Htok|].
  intros claimed_at w7 _ Ha7 _ Hx. destruct recovery as [expected|]; (apply wp_claimed; [|done..]); intros l l' Hop.
  - apply reacquire_owned in Hop; cbn in *; by rewrite ?Hcmd in *.
  - apply claim_new_owned in Hop; cbn in *; by rewrite ?Hcmd in *.
Qed.
(** A completed command is answered with its stored result. *)
Lemma wp_replay r row w :
  w_armed w = false -> held b (w_library w) row -> c_state row = COMPLETED -> replay_materialization (w_library w) row command = Ok r ->
  wp (replay context env storage backend request command r) (concluded w) w.
Proof.
  intros Ha Hh Hst Hrep. unfold replay. apply wp_bind. eapply wp_mono; [by apply wp_select|].
  intros [member|e] w1 (Hbk & Ha1 & Hu1 & _); [|by apply effect_concluded_refused].
  match goal with |- wp (if ?c then _ else _) _ _ => destruct c end; [by apply effect_concluded_refused|].
  apply wp_bind. unfold wp at 1. cbn [from_result fst snd]. destruct (map_err _ _) as [effect|e]; [|by apply effect_concluded_refused].
  split; [done|]. split; [done|]. right. exists w, row, command. split; [done|].
  destruct (untouched_held context env i b w w1 row Hc Hok Hu1 Hh) as (row' & (Hrow & _) & [_ Hs] & _).
  rewrite Hs in Hrow by (unfold settled; by rewrite Hst). done.
Qed.
End facts.

Section execution.
Context `{StoreEnv} (context : StoreContext) (env : Outside) (storage : EffectStorage) (backend : list byte) (request : MaterializeAssetRequest).
Let i := zr_command_id request.
Context (Hc : context_ok context) (Hok : others_ok env) (Hclock : forall t x, o_now env t = Some x -> time_ok x).
Context (Hb : binding_ok (binding_for request) [ASSET_MATERIALIZE_V1]).

Lemma effect_wp_execute w : w_armed w = false -> wp (execute_controlled context env storage backend request) (concluded context env i request w) w.
Proof.
  intros Ha. unfold execute_controlled.
  eapply (wp_step context env i request _ _ _ (fun _ _ => True)); [done|by apply effect_wp_checkpoint|]. intros _ w1 _ Ha1 _ _.
  eapply (wp_step context env i request _ _ _ (fun c _ => mc_binding c = binding_for request)); [done|apply wp_pure; [done|]|].
  { intros c Hn. apply map_err_ok in Hn. unfold materialization_command_binding_new in Hn. by inv_result. }
  intros command w2 _ Ha2 _ Hcmd. eapply (wp_step context env i request _ _ _ (fun _ _ => True)); [done|by apply effect_wp_checkpoint|]. intros _ w3 _ Ha3 _ _.
  eapply (wp_step context env i request _ _ _ (fun o w' => observe_materialization (w_library w') context command = Ok o)); [done|by apply wp_read|].
  intros o w4 _ Ha4 _ Ho. pose proof (observe_ok context i (w_library w4) command o ltac:(by rewrite Hcmd) Ho) as Hobs. rewrite Hcmd in Hobs.
  destruct o as [| |code|r|code].
  - by apply wp_materialize.
  - apply effect_concluded_refused; auto using untouched_refl, same_book_refl.
  - by apply wp_materialize.
  - destruct Hobs as (row & Hh & Hst & Hrep). by eapply wp_replay.
  - destruct Hobs as (row & Hh & Hst & Hcode). split; [done|]. split; [done|]. right. right. exists row. split; [done|]. by split; [left|].
Qed.
End execution.

(** C10: whatever stops a materialization (a cancelled or expired request, a failing clock,
    a refused or failed write, a storage error, a destination that cannot be published)
    and whatever asset operations other sessions execute between its calls, also on the
    same command, the guard ends disarmed.  Unless the runtime has failed, the execution leaves
    no claim of its own: the answer is the result stored for the completed command, or the
    code its row records as rejected or to be recovered, or a refusal before the claim,
    and then only the other sessions have written.  If the runtime has failed, either only
    the other sessions have written or the row is the one of this request, valid and
    carrying this runtime, so that a row still CLAIMED is one the startup of the next
    runtime recovers. *)
Theorem materialize_leaves_no_claim `{StoreEnv} (context : StoreContext) (env : Outside) (storage : EffectStorage) (backend : list byte)
    (request : MaterializeAssetRequest) (w : World) :
  let i := zr_command_id request in
  context_ok context -> others_ok env -> (forall t x, o_now env t = Some x -> time_ok x) ->
  binding_ok (binding_for request) [ASSET_MATERIALIZE_V1] -> w_armed w = false ->
  let '(r, w') := execute_controlled context env storage backend request w in concluded context env i request w r w'.
Proof.
  intros i Hc Hok Hclock Hb Ha. pose proof (effect_wp_execute context env storage backend request Hc Hok Hclock Hb w Ha) as Hw.
  unfold wp in Hw. by destruct (execute_controlled _ _ _ _ _ _).
Qed.

(** ** A library to run the service on *)

#[local] Existing Instance Scenario.env.
Definition calm : Outside := {|
  o_checkpoint := fun _ => Continue; o_now := fun _ => Some Scenario.now; o_next_id := fun _ => None;
  o_others := fun _ => []; o_refusal := fun _ => None; o_breakdown := fun _ => None |}.
Definition world : World := {|
  w_library := AssetScenario.ingested; w_failed := false; w_armed := false; w_bindings := ∅; w_executions := 0; w_tick := 0 |}.
Definition some_request : MaterializeAssetRequest := {|
  zr_command_id := Scenario.id 13; zr_asset_id := Scenario.id 50; zr_asset_revision_id := Scenario.id 51; zr_representation_id := Scenario.id 52;
  zr_resource_id := Scenario.id 53; zr_member_ordinal := 0; zr_destination := bs "/tmp/a.png" |}.
(** The destination exists already. *)
Definition occupied : EffectStorage := {|
  cleanup_completed := fun _ => Ok tt; prepare := fun _ _ => Ok tt; publish := fun _ => Err SeConflict; cleanup := fun _ => Ok tt |}.
Definition some_run := execute_controlled Scenario.ctx calm occupied (db_backend_id AssetScenario.blob) some_request world.

Lemma materialize_leaves_no_claim_witness :
  some_run.1 = Err StorageConfigurationError /\ w_failed some_run.2 = false /\
  option_map c_state (row_of (Scenario.id 13) some_run.2) = Some RECOVERY_REQUIRED /\
  (let '(r, w') := some_run in concluded Scenario.ctx calm (Scenario.id 13) some_request world r w').
Proof.
  assert (binding_ok (binding_for some_request) [ASSET_MATERIALIZE_V1]) as Hb by (repeat split; [vm_compute; reflexivity..|by left]).
  pose proof (materialize_leaves_no_claim Scenario.ctx calm occupied (db_backend_id AssetScenario.blob) some_request world
    (scenario_context 1) ltac:(intros t op Hop; inversion Hop) ltac:(intros t x E; injection E as <-; apply scenario_time) Hb eq_refl) as Ht.
  do 3 (split; [vm_compute; reflexivity|]). exact Ht.
Defined.
End MaterializeFacts.
