(* ===== verification/CreativeJson.v ===== *)
(** Canonical JSON of the creative commands: the bounded visitor of
    [mengxia-app/src/creative.rs] and the project specification built from it.

    serde_json is a parameter: [read] is [Deserializer::from_slice] up to [end], as the
    tree of visitor calls it makes; [to_vec] and [from_slice] print and read a [Value].
    Every error of the source is [InvalidJson], so that a document is refused as soon as
    any of its checks fails. *)
From Stdlib Require Import ZArith Lia String.
From Stdlib Require Import Strings.Byte Init.Byte.
From stdpp Require Import prelude list sorting.
From S2P Require Import Prelude RustText Ord Types CreativeDomain Ports CommandLedger CreativeStore StoreScenario.

Set Warnings "-clear-no-such-hyp,-register-all".

Module Json.
Import Creative.

Definition PROJECT_POLICY_MAX_BYTES : Z := 65536.
Definition WORK_SPECIFICATION_MAX_BYTES : Z := 262144.
Definition MAX_DEPTH : Z := 32.
Definition MAX_NODES : Z := 4096.
Definition MAX_CONTAINER_ITEMS : Z := 1024.
Definition MAX_KEY_BYTES : Z := 64.
Definition MAX_STRING_BYTES : Z := 8192.

(** ** Values and documents *)

Section types.
Context {F : Type}.
Inductive Number := PosInt (n : Z) | NegInt (n : Z) | Float (f : F).
(** An object is its entries in the order of their keys ([BTreeMap<String, Value>]). *)
Inductive Value :=
| Null | Bool (b : bool) | Num (n : Number) | Str (s : list byte) | Arr (vs : list Value)
| Obj (entries : list (list byte * Value)).
(** The calls the deserializer makes: [visit_unit], [visit_bool], [visit_i64], ... *)
Inductive Doc :=
| VisitUnit | VisitBool (b : bool) | VisitI64 (n : Z) | VisitU64 (n : Z) | VisitF64 (f : F) | VisitStr (s : list byte)
| VisitSeq (ds : list Doc) | VisitMap (entries : list (list byte * Doc)).
End types.
Arguments Number : clear implicits.
Arguments Value : clear implicits.
Arguments Doc : clear implicits.

Class SerdeJson := {
  F64 : Type;
  f64_of_Z : Z -> F64;
  f64_is_finite : F64 -> bool;
  f64_le : F64 -> F64 -> bool;
  f64_eqb : F64 -> F64 -> bool;
  read : list byte -> option (Doc F64);
  to_vec : Value F64 -> option (list byte);
  from_slice : list byte -> option (Value F64) }.

Inductive CreativeInputError := InvalidJson.

Section json.
Context `{StoreEnv} `{SerdeJson}.

Definition FLOAT_LOWER_EXCLUSIVE : F64 := f64_of_Z (- 2 ^ 63).
Definition FLOAT_UPPER_EXCLUSIVE : F64 := f64_of_Z (2 ^ 64).

(** [Budget::claim]. *)
Definition claim (nodes : Z) : option Z :=
  nodes ← checked_add USIZE_MAX nodes 1;
  if MAX_NODES <? nodes then None else Some nodes.

(** [Number::from(i64)]. *)
Definition number_from_i64 (n : Z) : Number F64 := if n <? 0 then NegInt n else PosInt n.
Definition number_from_f64 (f : F64) : option (Number F64) := if f64_is_finite f then Some (Float f) else None.
Definition visit_f64 (f : F64) : option (Value F64) :=
  if negb (f64_is_finite f) || f64_le f FLOAT_LOWER_EXCLUSIVE || f64_le FLOAT_UPPER_EXCLUSIVE f then None
  else n ← number_from_f64 f; Some (Num n).
Definition visit_str (s : list byte) : option (Value F64) := if MAX_STRING_BYTES <? blen s then None else Some (Str s).

(** [Map::insert], a [BTreeMap]. *)
Fixpoint map_insert {V} (k : list byte) (v : V) (m : list (list byte * V)) : list (list byte * V) :=
  match m with
  | [] => [(k, v)]
  | (k', v') :: rest =>
      match rcmp k k' with
      | Lt => (k, v) :: m
      | Eq => (k, v) :: rest
      | Gt => (k', v') :: map_insert k v rest
      end
  end.
(** A key is refused; [seen] has exactly the keys already inserted. *)
Definition key_refused {V} (k : list byte) (values : list (list byte * V)) : bool :=
  (blen values =? MAX_CONTAINER_ITEMS) || (MAX_KEY_BYTES <? blen k) || existsb is_control (chars k)
  || bool_decide (k ∈ map fst values).

(** [ValueSeed::deserialize] and the [ValueVisitor] it hands over to. *)
Fixpoint deserialize (d : Doc F64) (depth nodes : Z) {struct d} : option (Value F64 * Z) :=
  nodes ← claim nodes;
  if MAX_DEPTH <? depth then None
  else match d with
  | VisitUnit => Some (Null, nodes)
  | VisitBool b => Some (Bool b, nodes)
  | VisitI64 n => Some (Num (number_from_i64 n), nodes)
  | VisitU64 n => Some (Num (PosInt n), nodes)
  | VisitF64 f => v ← visit_f64 f; Some (v, nodes)
  | VisitStr s => v ← visit_str s; Some (v, nodes)
  | VisitSeq ds =>
      (fix visit_seq (ds : list (Doc F64)) (values : list (Value F64)) (nodes : Z) : option (Value F64 * Z) :=
         match ds with
         | [] => Some (Arr values, nodes)
         | d :: rest =>
             r ← deserialize d (depth + 1) nodes;
             if blen values =? MAX_CONTAINER_ITEMS then None else visit_seq rest (values ++ [r.1]) r.2
         end) ds [] nodes
  | VisitMap entries =>
      (fix visit_map (es : list (list byte * Doc F64)) (values : list (list byte * Value F64)) (nodes : Z) : option (Value F64 * Z) :=
         match es with
         | [] => Some (Obj values, nodes)
         | (k, d) :: rest =>
             if key_refused k values then None
             else r ← deserialize d (depth + 1) nodes; visit_map rest (map_insert k r.1 values) r.2
         end) entries [] nodes
  end.

Definition is_object (v : Value F64) : bool := match v with Obj _ => true | _ => false end.
Definition number_eqb (a b : Number F64) : bool :=
  match a, b with
  | PosInt x, PosInt y | NegInt x, NegInt y => x =? y
  | Float x, Float y => f64_eqb x y
  | _, _ => false
  end.
(** [PartialEq for Value]. *)
Fixpoint value_eqb (a b : Value F64) {struct a} : bool :=
  match a, b with
  | Null, Null => true
  | Bool x, Bool y => eqb x y
  | Num x, Num y => number_eqb x y
  | Str x, Str y => bool_decide (x = y)
  | Arr x, Arr y =>
      (fix all (x y : list (Value F64)) : bool :=
         match x, y with [], [] => true | v :: x, w :: y => value_eqb v w && all x y | _, _ => false end) x y
  | Obj x, Obj y =>
      (fix all (x y : list (list byte * Value F64)) : bool :=
         match x, y with
         | [], [] => true
         | (k, v) :: x, (l, w) :: y => bool_decide (k = l) && value_eqb v w && all x y
         | _, _ => false
         end) x y
  | _, _ => false
  end.

Definition length_fits (bytes : list byte) (maximum_bytes : Z) : bool := (2 <=? blen bytes) && (blen bytes <=? maximum_bytes).
Definition parse_canonical_object (input : list byte) (maximum_bytes : Z) : result CreativeInputError CanonicalJson :=
  if negb (length_fits input maximum_bytes) then Err InvalidJson
  else
    let? d := ok_or InvalidJson (read input) in
    let? (value, _) := ok_or InvalidJson (deserialize d 1 0) in
    if negb (is_object value) then Err InvalidJson
    else
      let? canonical := ok_or InvalidJson (to_vec value) in
      if negb (length_fits canonical maximum_bytes) then Err InvalidJson
      else
        let? reparsed := ok_or InvalidJson (from_slice canonical) in
        if negb (value_eqb reparsed value) then Err InvalidJson
        else map_err (fun _ => InvalidJson) (from_validated_object canonical (sha256 canonical) maximum_bytes).

Definition parse_project_policy (input : list byte) := parse_canonical_object input PROJECT_POLICY_MAX_BYTES.
Definition parse_work_specification (input : list byte) := parse_canonical_object input WORK_SPECIFICATION_MAX_BYTES.

(** The bytes [MENGXIA_PROJECT_POLICIES_V1] is hashed with. *)
Definition policy_input (policies : list CanonicalJson) : list byte :=
  bs "MENGXIA_PROJECT_POLICIES_V1" ++ [x00] ++ concat (map (fun p => be_bytes 4 (blen (json_bytes p)) ++ json_bytes p) policies).
Definition lengths_fit (policies : list CanonicalJson) : bool := forallb (fun p => blen (json_bytes p) <=? U32_MAX) policies.
Definition parse_project_specification (resolution : option Resolution) (frame_rate aspect_ratio : option PositiveRatio)
    (color audio quality privacy : list byte) : result CreativeInputError ProjectSpecification :=
  let? total := ok_or InvalidJson
    (t ← checked_add USIZE_MAX (blen color) (blen audio);
     t ← checked_add USIZE_MAX t (blen quality);
     checked_add USIZE_MAX t (blen privacy)) in
  if 262144 <? total then Err InvalidJson
  else
    let? color := parse_project_policy color in
    let? audio := parse_project_policy audio in
    let? quality := parse_project_policy quality in
    let? privacy := parse_project_policy privacy in
    let policies := [color; audio; quality; privacy] in
    if negb (lengths_fit policies) then Err InvalidJson
    else Ok {| ps_resolution := resolution; ps_frame_rate := frame_rate; ps_aspect_ratio := aspect_ratio;
               ps_color_policy := color; ps_audio_policy := audio; ps_quality_policy := quality; ps_privacy_policy := privacy;
               ps_policy_digest := sha256 (policy_input policies) |}.
End json.
End Json.

(** What the bounded JSON visitor accepts, and that its canonical bytes are a fixed
    point: reading them again yields the same bytes and the same digest. *)
Module JsonFacts.
Import Creative Json.

Section induction.
Context {F : Type} (P : Doc F -> Prop)
  (Hunit : P VisitUnit) (Hbool : forall b, P (VisitBool b)) (Hi : forall n, P (VisitI64 n)) (Hu : forall n, P (VisitU64 n))
  (Hf : forall f, P (VisitF64 f)) (Hs : forall s, P (VisitStr s)) (Hq : forall ds, Forall P ds -> P (VisitSeq ds))
  (Hm : forall es, Forall (fun e => P e.2) es -> P (VisitMap es)).
Fixpoint doc_induction (d : Doc F) : P d :=
  match d with
  | VisitUnit => Hunit | VisitBool b => Hbool b | VisitI64 n => Hi n | VisitU64 n => Hu n | VisitF64 f => Hf f
  | VisitStr s => Hs s
  | VisitSeq ds => Hq ds ((fix go ds := match ds return Forall P ds with
      | [] => Forall_nil_2 _ | d :: ds => Forall_cons_2 _ _ _ (doc_induction d) (go ds) end) ds)
  | VisitMap es => Hm es ((fix go (es : list (list byte * Doc F)) := match es return Forall (fun e => P e.2) es with
      | [] => Forall_nil_2 _ | (k, d) :: es => Forall_cons_2 (fun e => P e.2) (k, d) es (doc_induction d) (go es) end) es)
  end.
End induction.

Section value_induction.
Context {F : Type} (P : Value F -> Prop)
  (Hn : P Null) (Hb : forall b, P (Bool b)) (Hm : forall n, P (Num n)) (Hs : forall s, P (Str s))
  (Ha : forall vs, Forall P vs -> P (Arr vs)) (Ho : forall es, Forall (fun e => P e.2) es -> P (Obj es)).
Fixpoint value_induction (v : Value F) : P v :=
  match v with
  | Null => Hn | Bool b => Hb b | Num n => Hm n | Str s => Hs s
  | Arr vs => Ha vs ((fix go vs := match vs return Forall P vs with
      | [] => Forall_nil_2 _ | v :: vs => Forall_cons_2 _ _ _ (value_induction v) (go vs) end) vs)
  | Obj es => Ho es ((fix go (es : list (list byte * Value F)) := match es return Forall (fun e => P e.2) es with
      | [] => Forall_nil_2 _ | (k, v) :: es => Forall_cons_2 (fun e => P e.2) (k, v) es (value_induction v) (go es) end) es)
  end.
End value_induction.

Section facts.
Context `{StoreEnv} `{SerdeJson}.

(** ** The values the visitor builds *)

(** The visitor calls that describe a value, in the order it is printed in. *)
Fixpoint doc_of (v : Value F64) : Doc F64 :=
  match v with
  | Null => VisitUnit
  | Bool b => VisitBool b
  | Num (PosInt n) => VisitU64 n
  | Num (NegInt n) => VisitI64 n
  | Num (Float f) => VisitF64 f
  | Str s => VisitStr s
  | Arr vs => VisitSeq (map doc_of vs)
  | Obj es => VisitMap (map (fun e => (e.1, doc_of e.2)) es)
  end.
Fixpoint cost (v : Value F64) : Z :=
  match v with
  | Arr vs => 1 + foldr (fun v n => cost v + n) 0 vs
  | Obj es => 1 + foldr (fun e n => cost e.2 + n) 0 es
  | _ => 1
  end.
Definition key_fits (k : list byte) : Prop := blen k <= MAX_KEY_BYTES /\ existsb is_control (chars k) = false.
Definition number_fits (n : Number F64) : Prop :=
  match n with
  | PosInt _ => True
  | NegInt n => n < 0
  | Float f => f64_is_finite f = true /\ f64_le f FLOAT_LOWER_EXCLUSIVE = false /\ f64_le FLOAT_UPPER_EXCLUSIVE f = false
  end.
Definition bounded_all (bounded : Value F64 -> Prop) (vs : list (Value F64)) : Prop := foldr (fun v p => bounded v /\ p) True vs.
(** Within the depth, string, container and key bounds, keys unique and in order. *)
Fixpoint bounded (depth : Z) (v : Value F64) : Prop :=
  depth <= MAX_DEPTH /\
  match v with
  | Null | Bool _ => True
  | Num n => number_fits n
  | Str s => blen s <= MAX_STRING_BYTES
  | Arr vs => blen vs <= MAX_CONTAINER_ITEMS /\ foldr (fun v p => bounded (depth + 1) v /\ p) True vs
  | Obj es => blen es <= MAX_CONTAINER_ITEMS /\ StronglySorted rlt (map fst es) /\
              foldr (fun e p => (key_fits e.1 /\ bounded (depth + 1) e.2) /\ p) True es
  end.
Lemma foldr_conj_forall {A} (Q : A -> Prop) l : foldr (fun x p => Q x /\ p) True l <-> Forall Q l.
Proof. induction l as [|x l IH]; cbn; [done|]. by rewrite IH, Forall_cons. Qed.
Definition total (vs : list (Value F64)) : Z := foldr (fun v n => cost v + n) 0 vs.
Definition total_entries (es : list (list byte * Value F64)) : Z := foldr (fun e n => cost e.2 + n) 0 es.

Lemma foldr_nonneg {A} (f : A -> Z) l : Forall (fun x => 0 <= f x) l -> 0 <= foldr (fun x n => f x + n) 0 l.
Proof. induction 1; cbn; lia. Qed.
Lemma cost_pos v : 1 <= cost v.
Proof.
  induction v as [| | | |vs IH|es IH] using value_induction; cbn; try lia.
  - enough (0 <= foldr (fun v n => cost v + n) 0 vs) by lia. apply foldr_nonneg. by eapply Forall_impl; [exact IH|]; cbn; lia.
  - enough (0 <= foldr (fun e n => cost e.2 + n) 0 es) by lia. apply (foldr_nonneg (fun e => cost e.2)).
    by eapply Forall_impl; [exact IH|]; cbn; lia.
Qed.
Lemma total_app vs ws : total (vs ++ ws) = total vs + total ws.
Proof. unfold total. induction vs as [|v vs IH]; cbn; [done|]. rewrite IH. lia. Qed.
Lemma total_entries_app vs ws : total_entries (vs ++ ws) = total_entries vs + total_entries ws.
Proof. unfold total_entries. induction vs as [|v vs IH]; cbn; [done|]. rewrite IH. lia. Qed.
Lemma total_entries_perm es fs : es ≡ₚ fs -> total_entries es = total_entries fs.
Proof. unfold total_entries. induction 1; cbn; lia. Qed.
Lemma total_nonneg vs : 0 <= total vs.
Proof. apply foldr_nonneg, Forall_forall. intros v _. pose proof (cost_pos v). lia. Qed.
Lemma total_entries_nonneg es : 0 <= total_entries es.
Proof. apply (foldr_nonneg (fun e => cost e.2)), Forall_forall. intros e _. pose proof (cost_pos e.2). lia. Qed.

(** ** Insertion *)

Lemma object_insert_perm (k : list byte) (v : Value F64) m : k ∉ map fst m -> map_insert k v m ≡ₚ (k, v) :: m.
Proof.
  induction m as [|[k' v'] m IH]; cbn [map_insert map fst]; intros Hk; [done|].
  apply not_elem_of_cons in Hk as [Hne Hk]. destruct (rcmp k k') eqn:E.
  - by apply rcmp_eq in E.
  - done.
  - rewrite IH by done. apply Permutation_swap.
Qed.
Lemma map_insert_elem (k : list byte) (v : Value F64) m e :
  k ∉ map fst m -> e ∈ map_insert k v m <-> e = (k, v) \/ e ∈ m.
Proof. intros Hk. by rewrite (object_insert_perm _ _ _ Hk), elem_of_cons. Qed.
Lemma object_insert_sorted (k : list byte) (v : Value F64) m :
  k ∉ map fst m -> StronglySorted rlt (map fst m) -> StronglySorted rlt (map fst (map_insert k v m)).
Proof.
  induction m as [|[k' v'] m IH]; cbn [map_insert map fst]; intros Hk Hs; [repeat constructor|].
  apply not_elem_of_cons in Hk as [Hne Hk]. inversion Hs as [|?? Hs' Hall]; subst. destruct (rcmp k k') eqn:E.
  - by apply rcmp_eq in E.
  - cbn [map fst]. constructor; [done|]. constructor; [done|]. eapply Forall_impl; [exact Hall|]. cbn. intros x Hx. by etrans.
  - cbn [map fst]. constructor; [by apply IH|]. apply Forall_forall. intros x Hx. apply list_elem_of_fmap in Hx as ([k1 v1] & -> & Hx).
    apply map_insert_elem in Hx as [[= -> ->]|Hx]; [by apply rcmp_gt| |done].
    rewrite Forall_forall in Hall. by apply Hall, (list_elem_of_fmap_2 fst m (k1, v1)).
Qed.
Lemma object_insert_last (k : list byte) (v : Value F64) m :
  StronglySorted rlt (map fst m ++ [k]) -> map_insert k v m = m ++ [(k, v)].
Proof.
  induction m as [|[k' v'] m IH]; cbn [map_insert map fst app]; intros Hs; [done|]. inversion Hs as [|?? Hs' Hall]; subst.
  rewrite Forall_app, Forall_singleton in Hall. destruct Hall as [_ Hlt]. rewrite (proj2 (rcmp_gt k k')) by done. by rewrite IH.
Qed.

(** ** The visitor, exactly *)

Section loops.
Context (depth : Z).
Fixpoint visit_seq (ds : list (Doc F64)) (values : list (Value F64)) (nodes : Z) : option (Value F64 * Z) :=
  match ds with
  | [] => Some (Arr values, nodes)
  | d :: rest =>
      r ← deserialize d (depth + 1) nodes;
      if blen values =? MAX_CONTAINER_ITEMS then None else visit_seq rest (values ++ [r.1]) r.2
  end.
Fixpoint visit_map (es : list (list byte * Doc F64)) (values : list (list byte * Value F64)) (nodes : Z) : option (Value F64 * Z) :=
  match es with
  | [] => Some (Obj values, nodes)
  | (k, d) :: rest =>
      if key_refused k values then None
      else r ← deserialize d (depth + 1) nodes; visit_map rest (map_insert k r.1 values) r.2
  end.
End loops.
Lemma deserialize_seq ds depth nodes :
  deserialize (VisitSeq ds) depth nodes = (nodes ← claim nodes; if MAX_DEPTH <? depth then None else visit_seq depth ds [] nodes).
Proof. done. Qed.
Lemma deserialize_map es depth nodes :
  deserialize (VisitMap es) depth nodes = (nodes ← claim nodes; if MAX_DEPTH <? depth then None else visit_map depth es [] nodes).
Proof. done. Qed.

Lemma claim_Some n m : claim n = Some m <-> m = n + 1 /\ n + 1 <= MAX_NODES.
Proof.
  unfold claim, MAX_NODES. split.
  - intros Hc. apply bind_Some in Hc as (x & Hx & Hc). apply checked_add_Some in Hx as [-> _]. case_match eqn:E; [done|].
    injection Hc as <-. bool_hyps. lia.
  - intros [-> Hn]. rewrite (proj2 (checked_add_Some _ _ _ (n + 1))) by (split; [done|unfold_max; lia]). cbn.
    by rewrite (proj2 (Z.ltb_ge _ _)).
Qed.
Lemma key_refused_false {V} k (values : list (list byte * V)) :
  key_refused k values = false <-> blen values <> MAX_CONTAINER_ITEMS /\ key_fits k /\ k ∉ map fst values.
Proof.
  unfold key_refused, key_fits. rewrite !orb_false_iff, Z.eqb_neq, Z.ltb_ge, bool_decide_eq_false. tauto.
Qed.

(** The loops, given that the visitor is right on the elements. *)
Lemma visit_seq_inv depth ds : 
  Forall (fun d => forall depth n v n', deserialize d depth n = Some (v, n') ->
                     n' = n + cost v /\ n' <= MAX_NODES /\ bounded depth v) ds ->
  forall values n v n', visit_seq depth ds values n = Some (v, n') -> blen values <= MAX_CONTAINER_ITEMS -> n <= MAX_NODES ->
  exists vs, v = Arr (values ++ vs) /\ n' = n + total vs /\ n' <= MAX_NODES /\ blen (values ++ vs) <= MAX_CONTAINER_ITEMS /\
    Forall (bounded (depth + 1)) vs.
Proof.
  induction 1 as [|d ds Hd _ IH]; intros values n v n' Hv Hl Hn; cbn in Hv.
  - injection Hv as <- <-. exists []. rewrite app_nil_r. cbn. split_and!; try done; lia.
  - apply bind_Some in Hv as ([w m] & Hw & Hv). cbn in Hv. case_match eqn:E; [done|]. bool_hyps.
    destruct (Hd _ _ _ _ Hw) as (-> & Hm & Hb).
    apply IH in Hv as (vs & -> & -> & Hm' & Hl' & Hvs); [|rewrite blen_app, blen_cons, blen_nil; lia|done].
    exists (w :: vs). rewrite <- app_assoc in *. cbn in *. unfold total in *. cbn. split_and!; try done; try lia. by constructor.
Qed.
Lemma visit_map_inv depth es :
  Forall (fun e => forall depth n v n', deserialize e.2 depth n = Some (v, n') ->
                     n' = n + cost v /\ n' <= MAX_NODES /\ bounded depth v) es ->
  forall values n v n', visit_map depth es values n = Some (v, n') -> blen values <= MAX_CONTAINER_ITEMS -> n <= MAX_NODES ->
  StronglySorted rlt (map fst values) -> Forall (fun e => key_fits e.1 /\ bounded (depth + 1) e.2) values ->
  exists all, v = Obj all /\ n' + total_entries values = n + total_entries all /\ n' <= MAX_NODES /\ blen all <= MAX_CONTAINER_ITEMS /\
    StronglySorted rlt (map fst all) /\ Forall (fun e => key_fits e.1 /\ bounded (depth + 1) e.2) all.
Proof.
  induction 1 as [|[k d] es Hd _ IH]; intros values n v n' Hv Hl Hn Hs Hf; cbn [visit_map] in Hv.
  - injection Hv as <- <-. exists values. split_and!; try done; lia.
  - destruct (key_refused k values) eqn:Ek; [done|]. apply key_refused_false in Ek as (Hlen & Hk & Hnew).
    apply bind_Some in Hv as ([w m] & Hw & Hv). cbn [fst snd] in *. destruct (Hd _ _ _ _ Hw) as (-> & Hm & Hb).
    pose proof (object_insert_perm k w values Hnew) as Hp.
    apply IH in Hv as (all & -> & Ht & ? & ? & ? & ?); [|unfold blen in *; rewrite Hp; cbn; lia|done|by apply object_insert_sorted|by rewrite Hp; constructor].
    exists all. split_and!; try done. rewrite (total_entries_perm _ _ Hp) in Ht. unfold total_entries in *. cbn in Ht. lia.
Qed.

(** Whatever the visitor returns is bounded, and it claimed one node for each of its parts. *)
Lemma deserialize_inv d : forall depth n v n', deserialize d depth n = Some (v, n') ->
  n' = n + cost v /\ n' <= MAX_NODES /\ bounded depth v.
Proof.
  induction d as [|b|z|z|g|s|ds IH|es IH] using doc_induction; intros depth n v n' Hd;
    [..|rewrite deserialize_seq in Hd|rewrite deserialize_map in Hd]; cbn in Hd;
    apply bind_Some in Hd as (m & Hm & Hd); apply claim_Some in Hm as [-> Hm]; destruct (MAX_DEPTH <? depth) eqn:E; try done; bool_hyps.
  - by injection Hd as <- <-.
  - by injection Hd as <- <-.
  - injection Hd as <- <-. split_and!; [done..|]. cbn. split; [done|]. unfold number_from_i64. case_match; cbn; [|done]. by bool_hyps.
  - by injection Hd as <- <-.
  - apply bind_Some in Hd as (w & Hw & Hd). injection Hd as <- <-. unfold visit_f64, number_from_f64 in Hw. case_match eqn:Ef; [done|].
    rewrite !orb_false_iff, negb_false_iff in Ef. destruct Ef as [[Ef ?] ?]. rewrite Ef in Hw. injection Hw as <-. done.
  - apply bind_Some in Hd as (w & Hw & Hd). injection Hd as <- <-. unfold visit_str in Hw. case_match; [done|]. injection Hw as <-. by bool_hyps.
  - apply (visit_seq_inv depth ds IH) in Hd as (vs & -> & -> & ? & ? & ?); [|done|done]. cbn in *. unfold total in *.
    split_and!; try done; try lia. by apply foldr_conj_forall.
  - apply (visit_map_inv depth es IH) in Hd as (all & -> & Ht & ? & ? & ? & ?); [|done|done|constructor|constructor].
    unfold total_entries in Ht. cbn in *. split_and!; try done; try lia. by apply (foldr_conj_forall (fun e => key_fits e.1 /\ bounded (depth + 1) e.2)).
Qed.

Lemma visit_seq_doc_of depth vs :
  Forall (fun v => forall depth n, bounded depth v -> n + cost v <= MAX_NODES -> deserialize (doc_of v) depth n = Some (v, n + cost v)) vs ->
  forall values n, Forall (bounded (depth + 1)) vs -> blen (values ++ vs) <= MAX_CONTAINER_ITEMS -> n + total vs <= MAX_NODES ->
  visit_seq depth (map doc_of vs) values n = Some (Arr (values ++ vs), n + total vs).
Proof.
  induction 1 as [|v vs Hv _ IH]; intros values n Hb Hl Hn; cbn [map visit_seq].
  - rewrite app_nil_r. unfold total. cbn. by rewrite Z.add_0_r.
  - apply Forall_cons in Hb as [Hbv Hb]. pose proof (total_nonneg vs). unfold total in Hn. cbn in Hn. fold (total vs) in Hn.
    rewrite Hv by (try done; lia). cbn [mbind option_bind fst snd]. rewrite !blen_app, blen_cons in Hl. pose proof (blen_nonneg vs).
    rewrite (proj2 (Z.eqb_neq _ _)) by lia. rewrite IH; [|done|rewrite !blen_app, blen_cons, blen_nil; lia|lia].
    rewrite <- app_assoc. unfold total. cbn. by rewrite Z.add_assoc.
Qed.
Lemma visit_map_doc_of depth es :
  Forall (fun e => forall depth n, bounded depth e.2 -> n + cost e.2 <= MAX_NODES -> deserialize (doc_of e.2) depth n = Some (e.2, n + cost e.2)) es ->
  forall values n, Forall (fun e => key_fits e.1 /\ bounded (depth + 1) e.2) es -> StronglySorted rlt (map fst (values ++ es)) ->
  blen (values ++ es) <= MAX_CONTAINER_ITEMS -> n + total_entries es <= MAX_NODES ->
  visit_map depth (map (fun e => (e.1, doc_of e.2)) es) values n = Some (Obj (values ++ es), n + total_entries es).
Proof.
  induction 1 as [|[k v] es Hv _ IH]; intros values n Hb Hs Hl Hn; cbn [map visit_map fst snd].
  - rewrite app_nil_r. unfold total_entries. cbn. by rewrite Z.add_0_r.
  - apply Forall_cons in Hb as [[Hk Hbv] Hb]. cbn [fst snd] in *. pose proof (total_entries_nonneg es).
    unfold total_entries in Hn. cbn in Hn. fold (total_entries es) in Hn.
    rewrite blen_app, blen_cons in Hl. pose proof (blen_nonneg es).
    rewrite map_app in Hs. cbn in Hs.
    assert (StronglySorted rlt (map fst values ++ [k])) as Hs1.
    { rewrite cons_middle, app_assoc in Hs. by apply StronglySorted_app_1_l in Hs. }
    assert (k ∉ map fst values) as Hnew.
    { intros Hin. apply StronglySorted_app_1_elem_of with (x1 := k) (x2 := k) in Hs1; [by apply irreflexivity in Hs1; [|apply _]|done|set_solver]. }
    rewrite (proj2 (key_refused_false k values)) by (split_and!; [lia|done|done]).
    rewrite Hv by (try done; lia). cbn [mbind option_bind fst snd]. rewrite object_insert_last by done.
    rewrite IH; [|done|rewrite <- app_assoc, map_app; done|rewrite !blen_app, blen_cons, blen_nil; lia|lia].
    rewrite <- app_assoc. unfold total_entries. cbn. by rewrite Z.add_assoc.
Qed.

(** Every bounded value is what the visitor makes of its own description. *)
Lemma deserialize_doc_of v : forall depth n, bounded depth v -> n + cost v <= MAX_NODES ->
  deserialize (doc_of v) depth n = Some (v, n + cost v).
Proof.
  induction v as [|b|m|s|vs IH|es IH] using value_induction; intros depth n [Hdepth Hb] Hn;
    [..|cbn [doc_of]; rewrite deserialize_seq|cbn [doc_of]; rewrite deserialize_map].
  1-4: cbn in Hn.
  5: { pose proof (total_nonneg vs). cbn in Hn. fold (total vs) in Hn. rewrite (proj2 (claim_Some n (n + 1))) by lia.
    cbn [mbind option_bind]. rewrite (proj2 (Z.ltb_ge _ _)) by done. destruct Hb as [Hl Hb]. apply foldr_conj_forall in Hb.
    rewrite visit_seq_doc_of; try done; [|lia]. cbn. fold (total vs). by rewrite Z.add_assoc. }
  5: { pose proof (total_entries_nonneg es). cbn in Hn. fold (total_entries es) in Hn. rewrite (proj2 (claim_Some n (n + 1))) by lia.
    cbn [mbind option_bind]. rewrite (proj2 (Z.ltb_ge _ _)) by done. destruct Hb as (Hl & Hs & Hb).
    apply (foldr_conj_forall (fun e => key_fits e.1 /\ bounded (depth + 1) e.2)) in Hb.
    rewrite visit_map_doc_of; try done; [|lia]. cbn. fold (total_entries es). by rewrite Z.add_assoc. }
  1-2: cbn; rewrite (proj2 (claim_Some n (n + 1))) by lia; cbn [mbind option_bind]; by rewrite (proj2 (Z.ltb_ge _ _)).
  - destruct m as [z|z|g]; cbn; rewrite (proj2 (claim_Some n (n + 1))) by lia; cbn [mbind option_bind];
      rewrite (proj2 (Z.ltb_ge _ _)) by done; [done| |].
    + cbn in Hb. unfold number_from_i64. by rewrite (proj2 (Z.ltb_lt _ _)).
    + destruct Hb as (Hf & Hlo & Hhi). unfold visit_f64, number_from_f64. by rewrite Hf, Hlo, Hhi.
  - cbn. rewrite (proj2 (claim_Some n (n + 1))) by lia. cbn [mbind option_bind]. rewrite (proj2 (Z.ltb_ge _ _)) by done.
    unfold visit_str. by rewrite (proj2 (Z.ltb_ge _ _)).
Qed.

(** ** Canonical bytes *)

(** A printed value that reads back as an equal one is read back call by call: serde_json
    prints the entries of an object once each and in the order of the map. *)
Class SerdeJsonLaws : Prop := {
  print_reads : forall v bytes v', to_vec v = Some bytes -> from_slice bytes = Some v' -> value_eqb v' v = true ->
    read bytes = Some (doc_of v) }.
Context `{!SerdeJsonLaws}.

Lemma parse_canonical_object_inv input maximum c :
  parse_canonical_object input maximum = Ok c ->
  exists v, bounded 1 v /\ is_object v = true /\ cost v <= MAX_NODES /\ to_vec v = Some (json_bytes c) /\
    json_digest c = sha256 (json_bytes c) /\ 2 <= blen (json_bytes c) <= maximum /\
    parse_canonical_object (json_bytes c) maximum = Ok c.
Proof.
  unfold parse_canonical_object. intros Hp. destruct (length_fits input maximum); [cbn [negb] in Hp|done].
  apply result_bind_ok in Hp as (d & _ & Hp). apply result_bind_ok in Hp as ([v n] & Hd & Hp). apply ok_or_ok in Hd.
  destruct (is_object v) eqn:Eo; [cbn [negb] in Hp|done]. apply result_bind_ok in Hp as (canonical & Hc & Hp). apply ok_or_ok in Hc.
  destruct (length_fits canonical maximum) eqn:El; [cbn [negb] in Hp|done]. apply result_bind_ok in Hp as (v' & Hv' & Hp). apply ok_or_ok in Hv'.
  destruct (value_eqb v' v) eqn:Ev; [cbn [negb] in Hp|done].
  assert (json_bytes c = canonical /\ json_digest c = sha256 canonical) as [Hb Hdg].
  { apply map_err_ok in Hp. unfold from_validated_object in Hp. case_match; [done|]. by injection Hp as <-. }
  rewrite Hb. destruct (deserialize_inv _ _ _ _ _ Hd) as (Hn & Hmax & Hbound). exists v.
  pose proof El as El'. unfold length_fits in El'. apply andb_true_iff in El' as [?%Z.leb_le ?%Z.leb_le].
  split_and!; try done; [lia|]. rewrite El. cbn [negb]. rewrite (print_reads v canonical v' Hc Hv' Ev). cbn.
  rewrite (deserialize_doc_of v 1 0 Hbound) by lia. cbn. rewrite Eo. cbn. rewrite Hc. cbn. rewrite El. cbn. rewrite Hv'. cbn. by rewrite Ev.
Qed.
End facts.
#[global] Hint Mode SerdeJsonLaws ! : typeclass_instances.

(** Canonical JSON is a fixed point of its parser: whatever document a creative
    command supplies, the bytes kept of it are the print of an object within the depth,
    node, container, key and string bounds with its keys unique and in order, carry
    their own digest, and parsing them again, as every query and the check of a reopened
    library do, yields the same bytes and digest. *)
Theorem canonical_json_is_fixed `{StoreEnv} `{SerdeJson} `{!SerdeJsonLaws} (input : list byte) (maximum : Z) (c : CanonicalJson) :
  parse_canonical_object input maximum = Ok c ->
  parse_canonical_object (json_bytes c) maximum = Ok c /\
  exists v, bounded 1 v /\ is_object v = true /\ cost v <= MAX_NODES /\ to_vec v = Some (json_bytes c) /\
    json_digest c = sha256 (json_bytes c).
Proof. intros Hp. apply parse_canonical_object_inv in Hp as (v & ? & ? & ? & ? & ? & ? & ?). eauto 10. Qed.

(** A reader that knows three documents: one, its canonical form, and the empty object. *)
Module Example.
Definition document : list byte := [x7b; x22; x62; x22; x3a; x31; x2c; x22; x61; x22; x3a; x5b; x5d; x7d].
Definition canonical : list byte := [x7b; x22; x61; x22; x3a; x5b; x5d; x2c; x22; x62; x22; x3a; x31; x7d].
Definition value : Value () := Obj [([x61], Arr []); ([x62], Num (PosInt 1))].
#[local] Instance serde : SerdeJson := {|
  F64 := (); f64_of_Z := fun _ => tt; f64_is_finite := fun _ => true; f64_le := fun _ _ => true; f64_eqb := fun _ _ => true;
  read := fun bytes =>
    if bool_decide (bytes = document) then Some (VisitMap [([x62], VisitU64 1); ([x61], VisitSeq [])])
    else if bool_decide (bytes = canonical) then Some (VisitMap [([x61], VisitSeq []); ([x62], VisitU64 1)])
    else if bool_decide (bytes = bs "{}") then Some (VisitMap []) else None;
  to_vec := fun v => match v with
    | Obj [([x61], Arr []); ([x62], Num (PosInt 1))] => Some canonical
    | Obj [] => Some (bs "{}")
    | _ => None end;
  from_slice := fun bytes =>
    if bool_decide (bytes = canonical) then Some value else if bool_decide (bytes = bs "{}") then Some (Obj []) else None |}.
Lemma serde_laws : SerdeJsonLaws.
Proof.
  constructor. intros v bytes v' Hv _ _. revert Hv. cbn -[bs]. destruct v; try discriminate. repeat (case_match; try discriminate).
  all: by intros [= <-].
Qed.
End Example.

Lemma canonical_json_is_fixed_witness :
  let _ := Scenario.env in let _ := Example.serde in
  exists c, parse_canonical_object Example.document 65536 = Ok c /\ parse_canonical_object (json_bytes c) 65536 = Ok c.
Proof.
  cbv zeta. eexists. split; [vm_compute; reflexivity|].
  pose proof (@canonical_json_is_fixed Scenario.env Example.serde Example.serde_laws Example.document 65536 _ eq_refl) as [Ht _].
  exact Ht.
Defined.
End JsonFacts.
