(* ===== verification/CreativeQuery.v ===== *)
(** The creative queries: [mengxia-store-sqlite/src/creative_query.rs] (the four paged
    lists and the check of the creative tables when a library is opened) with the
    request, view and page types of [mengxia-ports/src/lib.rs].

    The four lists of the source repeat one scheme: bounds from the cursor, the endpoint
    required to exist, one row more than the page holds, a cursor from the last row kept.
    It is written once here ([collect], [fill]) and used by each list with its own key,
    join and row view.  Every transaction only reads. *)
From Stdlib Require Import ZArith Lia String.
From Stdlib Require Import Strings.Byte Init.Byte.
From stdpp Require Import prelude list gmap sorting.
From S2P Require Import Prelude RustText Ord Types AssetDomain CreativeDomain Ports CommandLedger CreativeStore CreativeJson.

Set Warnings "-clear-no-such-hyp".

Module CreativeQuery.
Import Ports Ledger Store Creative Json.
Abbreviation res := (result AssetStoreError).
Abbreviation Id := Ports.Id.

(** ** Requests, views and pages *)

Definition zero_library : Id := repeat x00 16.
Inductive CreativeListPosition := First | After (library_id : Id) (snapshot_endpoint last_key : Z).
Definition position_after (library_id : Id) (snapshot_endpoint last_key : Z) : res CreativeListPosition :=
  if bool_decide (library_id = zero_library) || (snapshot_endpoint =? 0) || (I64_MAX <? snapshot_endpoint)
     || (last_key =? 0) || (snapshot_endpoint <=? last_key)
  then Err SeValidation else Ok (After library_id snapshot_endpoint last_key).
Record CreativeListQuery := { lq_page_size : Z; lq_position : CreativeListPosition }.
Definition creative_list_query_new (page_size : Z) (position : CreativeListPosition) : res CreativeListQuery :=
  let? page_size := ok_or SeValidation (try_into U8_MAX page_size) in
  if negb ((1 <=? page_size) && (page_size <=? 64)) then Err SeValidation
  else Ok {| lq_page_size := page_size; lq_position := position |}.

Record ProjectView := {
  pv_project_id : Id; pv_name : list byte; pv_revision : Z; pv_created_at : Timestamp; pv_updated_at : Timestamp;
  pv_creation_commit_sequence : Z; pv_spec_revision_id : Id; pv_spec_sequence : Z; pv_specification : ProjectSpecification }.
Record SubjectView := {
  sv_subject_id : Id; sv_kind : list byte; sv_name : list byte; sv_revision : Z; sv_created_at : Timestamp;
  sv_creation_commit_sequence : Z }.
Record WorkView := {
  wv_work_item_id : Id; wv_project_id : Id; wv_kind : WorkKind; wv_code : list byte; wv_revision : Z;
  wv_created_at : Timestamp; wv_updated_at : Timestamp; wv_creation_commit_sequence : Z; wv_work_revision_id : Id;
  wv_work_revision_sequence : Z; wv_specification : WorkSpecification }.
Record TakeRelationshipView := { rv_relationship_id : Id; rv_kind : RelationshipKind; rv_target_take_id : Id }.
Record TakeView := {
  tv_take_id : Id; tv_work_revision_id : Id; tv_ordinal : Z; tv_state : TakeState; tv_primary_asset_id : Id;
  tv_revision : Z; tv_created_at : Timestamp; tv_updated_at : Timestamp;
  tv_outgoing_relationships : list TakeRelationshipView }.
Record CreativePage (T : Type) := { cp_snapshot_endpoint : Z; cp_items : list T; cp_next : option CreativeListPosition }.
Arguments cp_snapshot_endpoint {T}.
Arguments cp_items {T}.
Arguments cp_next {T}.

Section queries.
Context `{StoreEnv} `{SerdeJson}.

(** ** Columns *)

Definition timestamp (at_ : Timestamp) : res Timestamp := let? _ := persisted_timestamp at_.1 at_.2 in Ok at_.
Definition id (bytes : list byte) : res Id :=
  if negb (blen bytes =? 16) || negb (id_valid bytes) then Err SeStorageCorruption else Ok bytes.
Definition digest (bytes : list byte) : res (list byte) :=
  if negb (blen bytes =? 32) then Err SeStorageCorruption else Ok bytes.
Definition column_u32 (value : Z) : res Z := ok_or SeStorageCorruption (try_into U32_MAX value).
Definition column_u64 (value : Z) : res Z := ok_or SeStorageCorruption (try_into U64_MAX value).
Definition corrupt {E A} (r : result E A) : res A := map_err (fun _ => SeStorageCorruption) r.

(** ** The scheme of a list *)

Definition list_bounds (library_id : Id) (position : CreativeListPosition) (endpoint : Z) : res (Z * Z) :=
  match position with
  | First => let? endpoint := column_u64 endpoint in Ok (endpoint, 0)
  | After cursor_library snapshot_endpoint last_key =>
      if negb (bool_decide (cursor_library = library_id)) || (snapshot_endpoint <=? last_key) then Err SeValidation
      else Ok (snapshot_endpoint, last_key)
  end.
Definition require_snapshot_endpoint (position : CreativeListPosition) (exists_ : bool) : res () :=
  match position with
  | After _ _ _ => if exists_ then Ok tt else Err SeStorageCorruption
  | First => Ok tt
  end.
Definition to_i64 (value : Z) : res Z := ok_or SeValidation (try_into I64_MAX value).

(** [coalesce(max(key), 0)]. *)
Definition max_key (keys : list Z) : Z := match keys with [] => 0 | k :: ks => foldr Z.max k ks end.
(** [WHERE key>?after AND key<=?endpoint ORDER BY key, id LIMIT page_size+1]. *)
Definition collect {R} (key : R -> Z * Id) (after endpoint page_size : Z) (rows : list R) : list R :=
  take (Z.to_nat (page_size + 1))
    (sort_by key (List.filter (fun r => (after <? (key r).1) && ((key r).1 <=? endpoint)) rows)).
Fixpoint views {R V} (view : R -> res V) (rows : list R) : res (list V) :=
  match rows with
  | [] => Ok []
  | r :: rest => let? v := view r in let? vs := views view rest in Ok (v :: vs)
  end.
Definition fill {R V} (key : R -> Z * Id) (view : R -> res V) (library_id : Id) (endpoint page_size : Z) (collected : list R)
  : res (CreativePage V) :=
  let has_more := page_size <? blen collected in
  let collected := if has_more then removelast collected else collected in
  let? items := views view collected in
  let? next :=
    (if has_more then
       let? row := ok_or SeInternal (list.last collected) in
       let? last_key := column_u64 (key row).1 in
       let? p := position_after library_id endpoint last_key in Ok (Some p)
     else Ok None) in
  Ok {| cp_snapshot_endpoint := endpoint; cp_items := items; cp_next := next |}.
(** The rows of the scope, of which those joined are listed. *)
Definition list_rows {K R V} (scope : list K) (scope_key : K -> Z) (rows : list R) (key : R -> Z * Id) (view : R -> res V)
    (library_id : Id) (request : CreativeListQuery) : res (CreativePage V) :=
  let? (endpoint, after) := list_bounds library_id (lq_position request) (max_key (map scope_key scope)) in
  let? _ := to_i64 endpoint in
  let? _ := require_snapshot_endpoint (lq_position request) (existsb (fun r => scope_key r =? endpoint) scope) in
  let? _ := to_i64 after in
  fill key view library_id endpoint (lq_page_size request) (collect key after endpoint (lq_page_size request) rows).

(** ** Projects *)

Definition validate_project_policies (policies : list (list byte)) (stored_digest : list byte) : res (list CanonicalJson) :=
  let? canonical := views (fun bytes =>
    let? parsed := corrupt (parse_project_policy bytes) in
    if negb (bool_decide (json_bytes parsed = bytes)) then Err SeStorageCorruption else Ok parsed) policies in
  if negb (lengths_fit canonical) then Err SeStorageCorruption
  else
    let? stored := digest stored_digest in
    if negb (bool_decide (sha256 (policy_input canonical) = stored)) then Err SeStorageCorruption else Ok canonical.
Definition read_resolution (r : option Resolution) : res (option Resolution) :=
  match r with
  | None => Ok None
  | Some r => let? w := column_u32 (width r) in let? h := column_u32 (height r) in
              let? r := corrupt (resolution_new w h) in Ok (Some r)
  end.
Definition read_ratio (r : option PositiveRatio) : res (option PositiveRatio) :=
  match r with
  | None => Ok None
  | Some r => let? n := column_u32 (numerator r) in let? d := column_u32 (denominator r) in
              let? r := corrupt (positive_ratio_new n d) in Ok (Some r)
  end.
Definition policy_bytes (sp : ProjectSpecification) : list (list byte) :=
  map json_bytes [ps_color_policy sp; ps_audio_policy sp; ps_quality_policy sp; ps_privacy_policy sp].
Definition project_specification (sp : ProjectSpecification) : res ProjectSpecification :=
  let? resolution := read_resolution (ps_resolution sp) in
  let? canonical := validate_project_policies (policy_bytes sp) (ps_policy_digest sp) in
  let? frame_rate := read_ratio (ps_frame_rate sp) in
  let? aspect_ratio := read_ratio (ps_aspect_ratio sp) in
  match canonical with
  | [color; audio; quality; privacy] =>
      let? policy_digest := digest (ps_policy_digest sp) in
      Ok {| ps_resolution := resolution; ps_frame_rate := frame_rate; ps_aspect_ratio := aspect_ratio;
            ps_color_policy := color; ps_audio_policy := audio; ps_quality_policy := quality; ps_privacy_policy := privacy;
            ps_policy_digest := policy_digest |}
  | _ => Err SeInternal
  end.
(** [JOIN project_spec_revisions ps ON ps.project_id=p.project_id AND
    ps.project_spec_revision_id=p.current_spec_revision_id]. *)
Definition current_spec (s : Store) (project_id : Id) (p : ProjectRow) : option SpecRow :=
  match specs s !! pj_current_spec p with
  | Some sp => if bool_decide (sp_project sp = project_id) then Some sp else None
  | None => None
  end.
Definition joined_projects (s : Store) : list (Id * ProjectRow * SpecRow) :=
  omap (fun '(i, p) => option_map (fun sp => (i, p, sp)) (current_spec s i p)) (map_to_list (projects s)).
Definition project_view (row : Id * ProjectRow * SpecRow) : res ProjectView :=
  let '(i, p, sp) := row in
  let? project_id := id i in
  let? name := corrupt (project_name_new (pj_name p)) in
  let? created_at := timestamp (pj_created_at p) in
  let? updated_at := timestamp (pj_updated_at p) in
  let? sequence := column_u64 (pj_creation_sequence p) in
  let? spec_id := id (pj_current_spec p) in
  let? spec_sequence := column_u32 (sp_sequence sp) in
  let? specification := project_specification (sp_specification sp) in
  Ok {| pv_project_id := project_id; pv_name := name; pv_revision := pj_revision p; pv_created_at := created_at;
        pv_updated_at := updated_at; pv_creation_commit_sequence := sequence; pv_spec_revision_id := spec_id;
        pv_spec_sequence := spec_sequence; pv_specification := specification |}.
Definition project_key (row : Id * ProjectRow * SpecRow) : Z * Id := (pj_creation_sequence row.1.2, row.1.1).
Definition list_projects (s : Store) (library_id : Id) (request : CreativeListQuery) : res (CreativePage ProjectView) :=
  list_rows (map_to_list (projects s)) (fun r => pj_creation_sequence r.2) (joined_projects s) project_key project_view
    library_id request.

(** ** Subjects *)

Definition subject_view (row : Id * SubjectRow) : res SubjectView :=
  let '(i, r) := row in
  let? subject_id := id i in
  let? kind := corrupt (subject_kind_new (sj_kind r)) in
  let? name := corrupt (subject_name_new (sj_name r)) in
  let? created_at := timestamp (sj_created_at r) in
  let? sequence := column_u64 (sj_creation_sequence r) in
  Ok {| sv_subject_id := subject_id; sv_kind := kind; sv_name := name; sv_revision := sj_revision r;
        sv_created_at := created_at; sv_creation_commit_sequence := sequence |}.
Definition subject_key (row : Id * SubjectRow) : Z * Id := (sj_creation_sequence row.2, row.1).
Definition list_subjects (s : Store) (library_id : Id) (request : CreativeListQuery) : res (CreativePage SubjectView) :=
  list_rows (map_to_list (subjects s)) (fun r => sj_creation_sequence r.2) (map_to_list (subjects s)) subject_key subject_view
    library_id request.

(** ** Work *)

(** The edges of one kind from a source, by target. *)
Definition edges_from (s : Store) (source : Id) (kind : RelationshipKind) : list RelationshipRow :=
  sort_by rl_target (List.filter (fun r => bool_decide (rl_source r = source) && bool_decide (rl_kind r = kind)) (relationships s)).
Definition relationship_targets (s : Store) (source : Id) (kind : RelationshipKind) (maximum : nat) : res (list Id) :=
  let rows := take (S maximum) (edges_from s source kind) in
  if (maximum <? length rows)%nat then Err SeStorageCorruption else views (fun r => id (rl_target r)) rows.
Definition read_work_json (json : CanonicalJson) : res CanonicalJson :=
  let? stored_digest := digest (json_digest json) in
  if negb (bool_decide (sha256 (json_bytes json) = stored_digest)) then Err SeStorageCorruption
  else
    let? parsed := corrupt (parse_work_specification (json_bytes json)) in
    if negb (bool_decide (json_bytes parsed = json_bytes json)) || negb (bool_decide (json_digest parsed = stored_digest))
    then Err SeStorageCorruption else Ok parsed.
Definition current_work_revision (s : Store) (work_item_id : Id) (w : WorkItemRow) : option WorkRevisionRow :=
  match work_revisions s !! wi_current_revision w with
  | Some wr => if bool_decide (wr_work_item wr = work_item_id) then Some wr else None
  | None => None
  end.
Definition work_of (s : Store) (project_id : Id) : list (Id * WorkItemRow) :=
  List.filter (fun '(_, w) => bool_decide (wi_project w = project_id)) (map_to_list (work_items s)).
Definition joined_work (s : Store) (project_id : Id) : list (Id * WorkItemRow * WorkRevisionRow) :=
  omap (fun '(i, w) => option_map (fun wr => (i, w, wr)) (current_work_revision s i w)) (work_of s project_id).
Definition work_view (s : Store) (project_id : Id) (row : Id * WorkItemRow * WorkRevisionRow) : res WorkView :=
  let '(i, w, wr) := row in
  let? revision_id := id (wi_current_revision w) in
  let? subjects := relationship_targets s revision_id WorkSubject 64 in
  let? assets := relationship_targets s revision_id WorkAsset 64 in
  let? json := read_work_json (wr_specification wr) in
  let? work_item_id := id i in
  let? code := corrupt (work_code_new (wi_code w)) in
  let? created_at := timestamp (wi_created_at w) in
  let? updated_at := timestamp (wi_updated_at w) in
  let? sequence := column_u64 (wi_creation_sequence w) in
  let? revision_sequence := column_u32 (wr_sequence wr) in
  let? specification := corrupt (work_specification_new json subjects assets) in
  Ok {| wv_work_item_id := work_item_id; wv_project_id := project_id; wv_kind := wi_kind w; wv_code := code;
        wv_revision := wi_revision w; wv_created_at := created_at; wv_updated_at := updated_at;
        wv_creation_commit_sequence := sequence; wv_work_revision_id := revision_id;
        wv_work_revision_sequence := revision_sequence; wv_specification := specification |}.
Definition work_key (row : Id * WorkItemRow * WorkRevisionRow) : Z * Id := (wi_creation_sequence row.1.2, row.1.1).
Definition list_work (s : Store) (library_id project_id : Id) (request : CreativeListQuery) : res (CreativePage WorkView) :=
  if negb (bool_decide (is_Some (projects s !! project_id))) then Err SeNotFound
  else list_rows (work_of s project_id) (fun r => wi_creation_sequence r.2) (joined_work s project_id) work_key
         (work_view s project_id) library_id request.

(** ** Takes *)

(** [relationship_kind IN ('TAKE_REOPENS','TAKE_SUPERSEDES') ORDER BY relationship_kind,
    target_id LIMIT 3]. *)
Definition take_edges (s : Store) (take_id : Id) : list RelationshipRow :=
  take 3 (edges_from s take_id TakeReopens ++ edges_from s take_id TakeSupersedes).
Definition relationship_view (r : RelationshipRow) : res TakeRelationshipView :=
  let? relationship_id := id (rl_id r) in
  let? target := id (rl_target r) in
  Ok {| rv_relationship_id := relationship_id; rv_kind := rl_kind r; rv_target_take_id := target |}.
Definition take_view (s : Store) (work_revision_id : Id) (row : Id * TakeRow) : res TakeView :=
  let '(i, t) := row in
  let? take_id := id i in
  let rels := take_edges s take_id in
  if (2 <? length rels)%nat then Err SeStorageCorruption
  else
    let? relationships := views relationship_view rels in
    let? ordinal := column_u32 (tk_ordinal t) in
    let? asset_id := id (tk_primary_asset t) in
    let? created_at := timestamp (tk_created_at t) in
    let? updated_at := timestamp (tk_updated_at t) in
    Ok {| tv_take_id := take_id; tv_work_revision_id := work_revision_id; tv_ordinal := ordinal; tv_state := tk_state t;
          tv_primary_asset_id := asset_id; tv_revision := tk_revision t; tv_created_at := created_at;
          tv_updated_at := updated_at; tv_outgoing_relationships := relationships |}.
Definition takes_of (s : Store) (work_revision_id : Id) : list (Id * TakeRow) :=
  List.filter (fun '(_, t) => bool_decide (tk_work_revision t = work_revision_id)) (map_to_list (takes s)).
Definition take_key (row : Id * TakeRow) : Z * Id := (tk_ordinal row.2, row.1).
Definition list_takes (s : Store) (library_id project_id work_item_id work_revision_id : Id) (request : CreativeListQuery)
  : res (CreativePage TakeView) :=
  if negb (take_context_exists s project_id work_item_id work_revision_id) then Err SeNotFound
  else list_rows (takes_of s work_revision_id) (fun r => tk_ordinal r.2) (takes_of s work_revision_id) take_key
         (take_view s work_revision_id) library_id request.

(** ** The check of the stored state *)

(** [while let Some(row) = rows.next()]: every failure is the same error, so that the
    order of the rows does not matter. *)
Fixpoint each {R} (check : R -> res ()) (rows : list R) : res () :=
  match rows with [] => Ok tt | r :: rest => let? _ := check r in each check rest end.
Definition verify_spec (row : Id * SpecRow) : res () :=
  let '(i, r) := row in
  let sp := sp_specification r in
  let? _ := id i in
  let? _ := id (sp_project r) in
  let? sequence := column_u32 (sp_sequence r) in
  if sequence =? 0 then Err SeStorageCorruption
  else
    let? _ := read_resolution (ps_resolution sp) in
    let? _ := read_ratio (ps_frame_rate sp) in
    let? _ := read_ratio (ps_aspect_ratio sp) in
    let? _ := validate_project_policies (policy_bytes sp) (ps_policy_digest sp) in
    let? _ := id (sp_command r) in
    let? _ := timestamp (sp_created_at r) in Ok tt.
Definition verify_project (row : Id * ProjectRow * SpecRow) : res () :=
  let '(i, p, sp) := row in
  let? _ := id i in
  let? _ := corrupt (project_name_new (pj_name p)) in
  let? _ := id (pj_current_spec p) in
  let? sequence := column_u32 (sp_sequence sp) in
  if (pj_revision p =? 0) || negb (pj_revision p =? sequence) || (pj_creation_sequence p <=? 0) then Err SeStorageCorruption
  else
    let? _ := timestamp (pj_created_at p) in
    let? _ := timestamp (pj_updated_at p) in
    let? _ := id (pj_command p) in Ok tt.
Definition verify_work_revision (row : Id * WorkRevisionRow) : res () :=
  let '(i, r) := row in
  let? _ := id i in
  let? _ := id (wr_work_item r) in
  let? sequence := column_u32 (wr_sequence r) in
  if sequence =? 0 then Err SeStorageCorruption
  else
    let? stored := digest (json_digest (wr_specification r)) in
    let? parsed := corrupt (parse_work_specification (json_bytes (wr_specification r))) in
    if negb (bool_decide (json_bytes parsed = json_bytes (wr_specification r))) || negb (bool_decide (json_digest parsed = stored))
    then Err SeStorageCorruption
    else
      let? _ := id (wr_command r) in
      let? _ := timestamp (wr_created_at r) in Ok tt.
Definition verify_work_item (row : Id * WorkItemRow * WorkRevisionRow) : res () :=
  let '(i, w, wr) := row in
  let? _ := id i in
  let? _ := id (wi_project w) in
  let? _ := corrupt (work_code_new (wi_code w)) in
  let? _ := id (wi_current_revision w) in
  let? sequence := column_u32 (wr_sequence wr) in
  if (wi_revision w =? 0) || negb (wi_revision w =? sequence) || (wi_creation_sequence w <=? 0) then Err SeStorageCorruption
  else
    let? _ := timestamp (wi_created_at w) in
    let? _ := timestamp (wi_updated_at w) in
    let? _ := id (wi_command w) in Ok tt.
Definition verify_subject (row : Id * SubjectRow) : res () :=
  let '(i, r) := row in
  let? _ := id i in
  let? _ := corrupt (subject_kind_new (sj_kind r)) in
  let? _ := corrupt (subject_name_new (sj_name r)) in
  if (sj_revision r =? 0) || (sj_creation_sequence r <=? 0) then Err SeStorageCorruption
  else
    let? _ := id (sj_command r) in
    let? _ := timestamp (sj_created_at r) in Ok tt.
Definition verify_take (row : Id * TakeRow) : res () :=
  let '(i, t) := row in
  let? _ := id i in
  let? _ := id (tk_work_revision t) in
  let? ordinal := column_u32 (tk_ordinal t) in
  if ordinal =? 0 then Err SeStorageCorruption
  else
    let? _ := id (tk_primary_asset t) in
    if (tk_revision t =? 0) || (tk_creation_sequence t <=? 0) then Err SeStorageCorruption
    else
      let? _ := id (tk_command t) in
      let? _ := timestamp (tk_created_at t) in
      let? _ := timestamp (tk_updated_at t) in Ok tt.

(** [GROUP BY owner HAVING min(number)<>1 OR count( * )<>max(number)]. *)
Definition min_key (keys : list Z) : Z := match keys with [] => 0 | k :: ks => foldr Z.min k ks end.
Definition numbers_of (owner : Id) (rows : list (Id * Z)) : list Z :=
  map snd (List.filter (fun r => bool_decide (r.1 = owner)) rows).
Definition bad_sequence (rows : list (Id * Z)) : bool :=
  existsb (fun r => let n := numbers_of r.1 rows in negb (min_key n =? 1) || negb (blen n =? max_key n)) rows.
Definition relationship_sound (s : Store) (r : RelationshipRow) : bool :=
  match rl_kind r with
  | WorkSubject => bool_decide (is_Some (work_revisions s !! rl_source r)) && bool_decide (is_Some (subjects s !! rl_target r))
  | WorkAsset => bool_decide (is_Some (work_revisions s !! rl_source r)) && bool_decide (rl_target r ∈ assets s)
  | TakeReopens | TakeSupersedes =>
      match takes s !! rl_source r, takes s !! rl_target r with
      | Some source, Some target =>
          bool_decide (tk_work_revision target = tk_work_revision source)
          && bool_decide (tk_state target ∈ [Approved; Rejected; Superseded])
      | _, _ => false
      end
  end.
(** The group of an edge is larger than its kind allows. *)
Definition group_too_large (s : Store) (r : RelationshipRow) : bool :=
  let n := blen (List.filter (fun e => bool_decide (rl_source e = rl_source r) && bool_decide (rl_kind e = rl_kind r)) (relationships s)) in
  match rl_kind r with WorkSubject | WorkAsset => 64 <? n | TakeReopens | TakeSupersedes => 1 <? n end.
Definition all_work (s : Store) : list (Id * WorkItemRow * WorkRevisionRow) :=
  omap (fun '(i, w) => option_map (fun wr => (i, w, wr)) (current_work_revision s i w)) (map_to_list (work_items s)).
Definition verify_persisted_creative_state (s : Store) : res () :=
  let? _ := each verify_spec (map_to_list (specs s)) in
  let? _ := each verify_project (joined_projects s) in
  let? _ := each verify_work_revision (map_to_list (work_revisions s)) in
  let? _ := each verify_work_item (all_work s) in
  let? _ := each verify_subject (map_to_list (subjects s)) in
  let? _ := each verify_take (map_to_list (takes s)) in
  if bad_sequence (map (fun r => (sp_project r.2, sp_sequence r.2)) (map_to_list (specs s)))
     || bad_sequence (map (fun r => (wr_work_item r.2, wr_sequence r.2)) (map_to_list (work_revisions s)))
     || bad_sequence (map (fun r => (tk_work_revision r.2, tk_ordinal r.2)) (map_to_list (takes s)))
     || existsb (fun r => negb (relationship_sound s r)) (relationships s)
     || existsb (group_too_large s) (relationships s)
  then Err SeStorageCorruption else Ok tt.
End queries.
End CreativeQuery.
