(* ===== verification/CreativeSound.v ===== *)
(** The creative tables stay in the state the check of a reopened library demands.

    [sound] is the invariant, one predicate per group of tables; [fits] says what the
    types of a request guarantee (validated text, canonical documents, identities and
    instants in range). *)
From Stdlib Require Import ZArith Lia String.
From Stdlib Require Import Strings.Byte Init.Byte.
From stdpp Require Import prelude list gmap sorting relations.
From S2P Require Import Prelude RustText Ord Types Events AssetDomain CreativeDomain Ports CommandLedger CreativeStore StoreScenario StoreFrame StoreSteps CreativeTakes CreativeJson CreativeQuery.

Set Warnings "-clear-no-such-hyp".

Module Sound.
Import Ports Ledger Store Creative Json JsonFacts Frame Steps CreativeTakes CreativeQuery.

(** ** Numbered rows *)

(** The rows of one owner carry the numbers 1, 2, ... without gap or repetition. *)
Section numbered.
Context {R : Type} (owner : R -> Id) (number : R -> Z).
Record numbered (m : gmap Id R) : Prop := {
  nb_unique : forall i j a b, m !! i = Some a -> m !! j = Some b -> owner a = owner b -> number a = number b -> i = j;
  nb_closed : forall i a, m !! i = Some a -> 1 <= number a /\
    forall k, 1 <= k <= number a -> exists j b, m !! j = Some b /\ owner b = owner a /\ number b = k }.

Lemma numbered_insert m i r :
  numbered m -> m !! i = None -> ~ map_Exists (fun _ x => owner x = owner r /\ number x = number r) m ->
  (number r = 1 \/ exists j b, m !! j = Some b /\ owner b = owner r /\ number b = number r - 1) -> numbered (<[i := r]> m).
Proof.
  intros [Hu Hc] Hi Hnew Hprev.
  assert (forall j b, m !! j = Some b -> owner b = owner r -> number b <> number r) as Hne.
  { intros j b Hj Ho Hn. apply Hnew. by exists j, b. }
  constructor.
  - intros j k a b Ha Hb Ho Hn. apply lookup_insert_Some in Ha as [[<- <-]|[_ Ha]];
      apply lookup_insert_Some in Hb as [[<- <-]|[_ Hb]]; [done| | |by eapply Hu]; exfalso; by eapply Hne.
  - intros j a Ha. apply lookup_insert_Some in Ha as [[<- <-]|[Hji Ha]].
    + assert (1 <= number r /\ forall k, 1 <= k <= number r - 1 -> exists j b, m !! j = Some b /\ owner b = owner r /\ number b = k) as [H1 Hk].
      { destruct Hprev as [->|(j & b & Hj & Ho & Hn)]; [split; [done|intros k Hk; lia]|].
        destruct (Hc _ _ Hj) as [H1 Hk]. split; [lia|]. intros k Hk'. destruct (Hk k ltac:(lia)) as (j' & b' & ? & ? & ?). exists j', b'. by rewrite <- Ho. }
      split; [done|]. intros k Hkr. destruct (decide (k = number r)) as [->|].
      * exists i, r. by rewrite lookup_insert_eq.
      * destruct (Hk k ltac:(lia)) as (j & b & Hj & ? & ?). exists j, b. rewrite lookup_insert_ne by congruence. done.
    + destruct (Hc _ _ Ha) as [H1 Hk]. split; [done|]. intros k Hk'. destruct (Hk k Hk') as (j' & b & Hj' & ? & ?).
      exists j', b. rewrite lookup_insert_ne by congruence. done.
Qed.
Lemma numbered_update m i r r' :
  numbered m -> m !! i = Some r -> owner r' = owner r -> number r' = number r -> numbered (<[i := r']> m).
Proof.
  intros [Hu Hc] Hi Ho Hn.
  assert (forall j b, <[i := r']> m !! j = Some b -> exists c, m !! j = Some c /\ owner c = owner b /\ number c = number b) as Hback.
  { intros j b Hj. apply lookup_insert_Some in Hj as [[<- <-]|[_ Hj]]; [exists r|exists b]; done. }
  assert (forall j c, m !! j = Some c -> exists b, <[i := r']> m !! j = Some b /\ owner b = owner c /\ number b = number c) as Hforth.
  { intros j c Hj. destruct (decide (i = j)) as [<-|]; [exists r'; rewrite lookup_insert_eq; by simplify_eq|exists c; by rewrite lookup_insert_ne]. }
  constructor.
  - intros j k a b Ha Hb Hoab Hnab. destruct (Hback _ _ Ha) as (a' & Ha' & ? & ?). destruct (Hback _ _ Hb) as (b' & Hb' & ? & ?).
    eapply Hu; [exact Ha'|exact Hb'|congruence|congruence].
  - intros j a Ha. destruct (Hback _ _ Ha) as (a' & Ha' & <- & <-). destruct (Hc _ _ Ha') as [H1 Hk]. split; [done|].
    intros k Hk'. destruct (Hk k Hk') as (l & b & Hl & Hob & Hnb). destruct (Hforth _ _ Hl) as (b' & ? & ? & ?). exists l, b'.
    split_and!; congruence.
Qed.
Lemma numbered_empty : numbered ∅.
Proof. constructor; intros *; rewrite lookup_empty; discriminate. Qed.

(** What the query on gaps sees. *)
Definition numbers (m : gmap Id R) : list (Id * Z) := map (fun r => (owner r.2, number r.2)) (map_to_list m).
Lemma numbers_elem m o k : (o, k) ∈ numbers m <-> exists i r, m !! i = Some r /\ owner r = o /\ number r = k.
Proof.
  unfold numbers. rewrite list_elem_of_fmap. split.
  - intros ([i r] & [= -> ->] & Hr). apply elem_of_map_to_list in Hr. eauto.
  - intros (i & r & Hr & <- & <-). exists (i, r). by rewrite elem_of_map_to_list.
Qed.
Lemma numbers_NoDup m : numbered m -> NoDup (numbers m).
Proof.
  intros [Hu _]. unfold numbers. apply NoDup_fmap_2_strong; [|apply NoDup_map_to_list].
  intros [i a] [j b] Ha Hb [= Ho Hn]. apply elem_of_map_to_list in Ha, Hb. assert (i = j) as <- by eauto. congruence.
Qed.
Lemma numbers_of_elem (o : Id) (rows : list (Id * Z)) k : k ∈ numbers_of o rows <-> (o, k) ∈ rows.
Proof.
  unfold numbers_of. rewrite list_elem_of_fmap. split.
  - intros ([o' k'] & -> & Hr). apply list_elem_of_In, filter_In in Hr as [Hr Ho%bool_decide_eq_true]. cbn in Ho. subst. by apply list_elem_of_In.
  - intros Hr. exists (o, k). split; [done|]. apply list_elem_of_In, filter_In. split; [by apply list_elem_of_In|]. by apply bool_decide_eq_true.
Qed.
Lemma numbers_of_NoDup (o : Id) (rows : list (Id * Z)) : NoDup rows -> NoDup (numbers_of o rows).
Proof.
  intros Hr. unfold numbers_of. apply NoDup_fmap_2_strong.
  - intros [o1 k1] [o2 k2] H1 H2 Hk. apply list_elem_of_In, filter_In in H1 as [_ H1%bool_decide_eq_true], H2 as [_ H2%bool_decide_eq_true].
    cbn in *. congruence.
  - apply NoDup_ListNoDup, List.NoDup_filter. by apply NoDup_ListNoDup.
Qed.
End numbered.

Lemma max_key_ge (l : list Z) x : x ∈ l -> x <= max_key l.
Proof.
  destruct l as [|k ks]; [by rewrite elem_of_nil|]. cbn. rewrite elem_of_cons. revert x. induction ks as [|y ks IH]; cbn; intros x [->|Hx].
  - lia.
  - by rewrite elem_of_nil in Hx.
  - specialize (IH k (or_introl eq_refl)). lia.
  - apply elem_of_cons in Hx as [->|Hx]; [lia|]. specialize (IH x (or_intror Hx)). lia.
Qed.
Lemma max_key_elem (l : list Z) : l <> [] -> max_key l ∈ l.
Proof.
  destruct l as [|k ks]; [done|]. intros _. cbn. induction ks as [|y ks IH]; cbn; [set_solver|].
  destruct (Z.max_spec y (foldr Z.max k ks)) as [[_ ->]|[_ ->]]; set_solver.
Qed.
Lemma min_key_le (l : list Z) x : x ∈ l -> min_key l <= x.
Proof.
  destruct l as [|k ks]; [by rewrite elem_of_nil|]. cbn. rewrite elem_of_cons. revert x. induction ks as [|y ks IH]; cbn; intros x [->|Hx].
  - lia.
  - by rewrite elem_of_nil in Hx.
  - specialize (IH k (or_introl eq_refl)). lia.
  - apply elem_of_cons in Hx as [->|Hx]; [lia|]. specialize (IH x (or_intror Hx)). lia.
Qed.
Lemma min_key_elem (l : list Z) : l <> [] -> min_key l ∈ l.
Proof.
  destruct l as [|k ks]; [done|]. intros _. cbn. induction ks as [|y ks IH]; cbn; [set_solver|].
  destruct (Z.min_spec y (foldr Z.min k ks)) as [[_ ->]|[_ ->]]; set_solver.
Qed.

(** A duplicate-free list of exactly the numbers from 1 to its greatest has that length. *)
Lemma dense_length (l : list Z) n :
  0 <= n -> NoDup l -> (forall k, k ∈ l <-> 1 <= k <= n) -> blen l = n.
Proof.
  intros Hn Hl Hk. assert (l ≡ₚ seqZ 1 n) as Hp.
  { apply NoDup_Permutation; [done|apply NoDup_seqZ|]. intros k. rewrite Hk, elem_of_seqZ. lia. }
  unfold blen. rewrite Hp, length_seqZ. lia.
Qed.
Lemma numbered_not_bad {R} (owner : R -> Id) (number : R -> Z) m :
  numbered owner number m -> bad_sequence (numbers owner number m) = false.
Proof.
  intros Hm. apply Bool.not_true_iff_false. intros Hb. apply existsb_exists in Hb as ([o k0] & Hr & Hbad). apply list_elem_of_In in Hr. cbn in Hbad.
  set (l := numbers_of o (numbers owner number m)) in *.
  assert (forall k, k ∈ l -> exists i r, m !! i = Some r /\ owner r = o /\ number r = k) as Hin.
  { intros k Hk. apply numbers_of_elem, numbers_elem in Hk. done. }
  assert (l <> []) as Hne. { intros E. apply (not_elem_of_nil k0). rewrite <- E. by apply numbers_of_elem. }
  assert (forall k, k ∈ l <-> 1 <= k <= max_key l) as Hk.
  { intros k. split.
    - intros Hk. split; [|by apply max_key_ge]. destruct (Hin _ Hk) as (i & r & Hi & _ & <-). exact (proj1 (nb_closed _ _ _ Hm _ _ Hi)).
    - intros Hk. destruct (Hin _ (max_key_elem _ Hne)) as (i & r & Hi & Ho & Hmax). destruct (nb_closed _ _ _ Hm _ _ Hi) as [_ Hc].
      destruct (Hc k ltac:(lia)) as (j & b & Hj & Hob & Hkb). apply numbers_of_elem, numbers_elem. exists j, b. split_and!; congruence. }
  pose proof (proj1 (Hk _) (max_key_elem _ Hne)).
  pose proof (proj1 (Hk _) (min_key_elem _ Hne)). pose proof (min_key_le l 1 (proj2 (Hk 1) ltac:(lia))).
  rewrite (dense_length l (max_key l)) in Hbad; [|lia|by apply numbers_of_NoDup, numbers_NoDup|done].
  rewrite Z.eqb_refl, orb_false_r, negb_true_iff, Z.eqb_neq in Hbad. lia.
Qed.

(** ** What the types of a request guarantee *)

Section sound.
Context `{StoreEnv} `{SerdeJson} `{!SerdeJsonLaws} `{!StoreEnvLaws H}.

Definition valid (i : list byte) : Prop := blen i = 16 /\ id_valid i = true.
Definition instant (at_ : Timestamp) : Prop := persisted_timestamp at_.1 at_.2 = Ok tt.
Definition values_fit (v : Values) : Prop :=
  Forall (fun r => match r with Ok raw => blen raw = 16 | Err _ => True end) (v_ids v) /\
  (forall at_, v_now v = Ok at_ -> instant at_).
Definition built_resolution (r : option Resolution) : Prop :=
  forall x, r = Some x -> exists w h, is_u32 w /\ is_u32 h /\ resolution_new w h = Ok x.
Definition built_ratio (r : option PositiveRatio) : Prop :=
  forall x, r = Some x -> exists n d, is_u32 n /\ is_u32 d /\ positive_ratio_new n d = Ok x.
(** A specification as [parse_project_specification] builds it. *)
Definition built_specification (sp : ProjectSpecification) : Prop :=
  built_resolution (ps_resolution sp) /\ built_ratio (ps_frame_rate sp) /\ built_ratio (ps_aspect_ratio sp) /\
  exists color audio quality privacy,
    parse_project_specification (ps_resolution sp) (ps_frame_rate sp) (ps_aspect_ratio sp) color audio quality privacy = Ok sp.
Definition built_work (sp : WorkSpecification) : Prop :=
  exists input json subject_ids asset_ids,
    parse_work_specification input = Ok json /\ work_specification_new json subject_ids asset_ids = Ok sp.
Definition fits (c : CreativeCommand) : Prop :=
  valid (cb_command_id (binding_of c)) /\ values_fit (values_of c) /\
  match c with
  | CreateProject r => project_name_new (cp_name r) = Ok (cp_name r) /\ built_specification (cp_specification r)
  | ReviseProjectSpec r => built_specification (rp_specification r)
  | CreateSubject r => subject_kind_new (cs_kind r) = Ok (cs_kind r) /\ subject_name_new (cs_name r) = Ok (cs_name r)
  | CreateWork r => work_code_new (cw_code r) = Ok (cw_code r) /\ built_work (cw_specification r)
  | ReviseWork r => built_work (rw_specification r)
  | _ => True
  end.

Lemma id_ok i : valid i -> id i = Ok i.
Proof. intros [Hl Hv]. unfold id. by rewrite Hl, Hv. Qed.
Lemma id_valid_ok i j : id i = Ok j -> valid i /\ j = i.
Proof. unfold id. case_match eqn:E; [done|]. intros [= <-]. bool_hyps. done. Qed.
Lemma timestamp_ok at_ : instant at_ -> timestamp at_ = Ok at_.
Proof. unfold instant, timestamp. by intros ->. Qed.
Lemma column_u32_ok z : is_u32 z -> column_u32 z = Ok z.
Proof. intros Hz. unfold column_u32. by rewrite try_into_id. Qed.

Lemma digest_ok d : length d = 32%nat -> digest d = Ok d.
Proof. intros Hd. unfold digest, blen. by rewrite Hd. Qed.

(** The identities a command samples. *)
Lemma generated_id_valid ids i rest :
  Forall (fun r => match r with Ok raw => blen raw = 16 | Err _ => True end) ids -> generated_id ids = Ok (i, rest) ->
  valid i /\ Forall (fun r : result AssetStoreError (list byte) => match r with Ok raw => blen raw = 16 | Err _ => True end) rest.
Proof.
  intros Hf Hg. destruct ids as [|[raw|] ids]; cbn in Hg; try done. apply Forall_cons in Hf as [Hr Hf].
  case_match; [|done]. by injection Hg as <- <-.
Qed.
Lemma generated_ids_valid n : forall ids xs rest,
  Forall (fun r => match r with Ok raw => blen raw = 16 | Err _ => True end) ids -> generated_ids n ids = Ok (xs, rest) -> Forall valid xs.
Proof.
  induction n as [|n IH]; intros ids xs rest Hf Hg; cbn in Hg; [by injection Hg as <- <-|].
  apply result_bind_ok in Hg as ([i ids'] & Hi & Hg). apply result_bind_ok in Hg as ([more ids''] & Hm & Hg). injection Hg as <- <-.
  apply generated_id_valid in Hi as [? ?]; [|done]. constructor; eauto.
Qed.
Lemma with_values_ok {A} v (sample : _ -> result AssetStoreError A) x at_ :
  values_fit v -> with_values v sample = Ok (x, at_) ->
  instant at_ /\ exists ids, Forall (fun r => match r with Ok raw => blen raw = 16 | Err _ => True end) ids /\ sample ids = Ok x.
Proof.
  intros [Hf Hn] Hw. unfold with_values in Hw. apply result_bind_ok in Hw as (y & Hy & Hw). apply result_bind_ok in Hw as (t & Ht & Hw).
  apply result_bind_ok in Hw as (? & _ & Hw). injection Hw as <- <-. split; [by apply Hn|]. eauto.
Qed.
Ltac take_sample Hs :=
  repeat (let Hx := fresh "Hx" in apply result_bind_ok in Hs as ([? ?] & Hx & Hs);
          first [apply generated_id_valid in Hx as [? ?]; [|done] | apply generated_ids_valid in Hx; [|done]]);
  apply result_bind_ok in Hs as (? & _ & Hs); injection Hs; clear Hs; intros; subst.
Lemma with_values_sample2 v a b at_ : values_fit v -> with_values v sample2 = Ok (a, b, at_) -> instant at_ /\ valid a /\ valid b.
Proof. intros Hv Hw. apply with_values_ok in Hw as (Ht & ids & Hf & Hs); [|done]. unfold sample2 in Hs. take_sample Hs. done. Qed.
Lemma with_values_sample3 v a b c at_ :
  values_fit v -> with_values v sample3 = Ok (a, b, c, at_) -> instant at_ /\ valid a /\ valid b /\ valid c.
Proof. intros Hv Hw. apply with_values_ok in Hw as (Ht & ids & Hf & Hs); [|done]. unfold sample3 in Hs. take_sample Hs. done. Qed.
Lemma with_values_work v n a b c rs at_ :
  values_fit v -> with_values v (sample_work_ids n) = Ok (a, b, c, rs, at_) -> instant at_ /\ valid a /\ valid b /\ Forall valid rs.
Proof. intros Hv Hw. apply with_values_ok in Hw as (Ht & ids & Hf & Hs); [|done]. unfold sample_work_ids in Hs. take_sample Hs. done. Qed.
Lemma with_values_work_revision v n a b rs at_ :
  values_fit v -> with_values v (sample_work_revision_ids n) = Ok (a, b, rs, at_) -> instant at_ /\ valid a /\ Forall valid rs.
Proof. intros Hv Hw. apply with_values_ok in Hw as (Ht & ids & Hf & Hs); [|done]. unfold sample_work_revision_ids in Hs. take_sample Hs. done. Qed.

(** ** New rows pass the check *)

Lemma policy_reads input p : parse_project_policy input = Ok p ->
  parse_project_policy (json_bytes p) = Ok p /\ blen (json_bytes p) <= U32_MAX.
Proof.
  intros Hp. apply parse_canonical_object_inv in Hp as (v & _ & _ & _ & _ & _ & Hl & Hp). split; [done|].
  unfold PROJECT_POLICY_MAX_BYTES in Hl. unfold_max. lia.
Qed.
Lemma policies_read sp : built_specification sp -> is_ok (validate_project_policies (policy_bytes sp) (ps_policy_digest sp)) = true.
Proof.
  intros (_ & _ & _ & color & audio & quality & privacy & Hp). unfold parse_project_specification in Hp.
  apply result_bind_ok in Hp as (total & _ & Hp). case_match; [done|].
  apply result_bind_ok in Hp as (c & Hc & Hp). apply result_bind_ok in Hp as (a & Ha & Hp).
  apply result_bind_ok in Hp as (q & Hq & Hp). apply result_bind_ok in Hp as (r & Hr & Hp). cbv zeta in Hp.
  destruct (lengths_fit [c; a; q; r]) eqn:El; [|done]. injection Hp as <-. unfold validate_project_policies, policy_bytes. cbn [map ps_color_policy ps_audio_policy ps_quality_policy ps_privacy_policy ps_policy_digest].
  apply policy_reads in Hc as [Hc _], Ha as [Ha _], Hq as [Hq _], Hr as [Hr _]. cbn [views]. rewrite Hc, Ha, Hq, Hr. cbn -[lengths_fit policy_input].
  rewrite !bool_decide_eq_true_2 by done. cbn -[lengths_fit policy_input]. rewrite El. cbn -[policy_input].
  rewrite digest_ok by apply sha256_length. cbn -[policy_input]. by rewrite bool_decide_eq_true_2.
Qed.

Lemma read_resolution_built r : built_resolution r -> read_resolution r = Ok r.
Proof.
  intros Hb. destruct r as [x|]; [|done]. destruct (Hb x eq_refl) as (w & h & Hw & Hh & Hn). cbn.
  pose proof Hn as Hn'. unfold resolution_new in Hn'.
  apply result_bind_ok in Hn' as (w' & Hw' & Hn'). apply result_bind_ok in Hn' as (h' & Hh' & Hn'). apply ok_or_ok, try_into_Some in Hw' as [-> _], Hh' as [-> _].
  case_match; [done|]. injection Hn' as <-. cbn. rewrite !column_u32_ok by done. cbn. by rewrite Hn.
Qed.
Lemma read_ratio_built r : built_ratio r -> read_ratio r = Ok r.
Proof.
  intros Hb. destruct r as [x|]; [|done]. destruct (Hb x eq_refl) as (n & d & Hn & Hd & Hr). cbn.
  pose proof Hr as Hr'. unfold positive_ratio_new in Hr'. case_match; [done|]. injection Hr' as <-. cbn. rewrite !column_u32_ok by done. cbn. by rewrite Hr.
Qed.

Lemma is_ok_exists {E A} (r : result E A) : is_ok r = true -> exists a, r = Ok a.
Proof. destruct r; [eauto|done]. Qed.
Lemma spec_row_verified i p q c at_ sp :
  valid i -> valid p -> 1 <= q <= U32_MAX -> valid c -> instant at_ -> built_specification sp ->
  verify_spec (i, spec_row p q c at_ sp) = Ok tt.
Proof.
  intros Hi Hp Hq Hc Ht Hs. unfold verify_spec. cbn [sp_specification sp_project sp_sequence sp_command sp_created_at spec_row].
  rewrite !id_ok by done. cbn [result_bind]. rewrite column_u32_ok by (unfold is_u32; lia). cbn [result_bind].
  rewrite (proj2 (Z.eqb_neq q 0)) by lia. pose proof (policies_read _ Hs) as [ps Hps]%is_ok_exists. destruct Hs as (Hr & Hf & Ha & _).
  rewrite read_resolution_built, !read_ratio_built by done. cbn [result_bind]. rewrite Hps. cbn [result_bind]. by rewrite timestamp_ok.
Qed.
Lemma work_json_reads input json : parse_work_specification input = Ok json ->
  parse_work_specification (json_bytes json) = Ok json /\ json_digest json = sha256 (json_bytes json).
Proof. intros Hp. apply parse_canonical_object_inv in Hp as (v & _ & _ & _ & _ & Hd & _ & Hp). done. Qed.
Lemma built_work_json sp : built_work sp -> exists input, parse_work_specification input = Ok (ws_json sp).
Proof.
  intros (input & json & su & as_ & Hp & Hn). exists input. unfold work_specification_new in Hn.
  apply result_bind_ok in Hn as (? & _ & Hn). apply result_bind_ok in Hn as (? & _ & Hn). by injection Hn as <-.
Qed.
Lemma work_revision_row_verified i w q b at_ sp :
  valid i -> valid w -> 1 <= q <= U32_MAX -> valid (cb_command_id b) -> instant at_ -> built_work sp ->
  verify_work_revision (i, work_revision_row w q b at_ sp) = Ok tt.
Proof.
  intros Hi Hw Hq Hc Ht Hs. apply built_work_json in Hs as [input Hs]. apply work_json_reads in Hs as [Hs Hd].
  unfold verify_work_revision. cbn [wr_work_item wr_sequence wr_specification wr_command wr_created_at work_revision_row].
  rewrite !id_ok by done. cbn [result_bind]. rewrite column_u32_ok by (unfold is_u32; lia). cbn [result_bind].
  rewrite (proj2 (Z.eqb_neq q 0)) by lia. rewrite digest_ok by (rewrite Hd; apply sha256_length). cbn [result_bind].
  rewrite Hs. cbn [corrupt map_err result_bind]. rewrite !bool_decide_eq_true_2 by done. cbn [negb orb]. by rewrite timestamp_ok.
Qed.

(** ** The invariant *)

(** Creation sequences: below the allocator and unique. *)
Definition created {R} (sequence : R -> Z) (m : gmap Id R) (last : Z) : Prop :=
  (forall i r, m !! i = Some r -> 1 <= sequence r <= last) /\
  (forall i j a b, m !! i = Some a -> m !! j = Some b -> sequence a = sequence b -> i = j).
Record projects_sound (P : gmap Id ProjectRow) (S : gmap Id SpecRow) (last : Z) : Prop := {
  ps_specs : map_Forall (fun i r => verify_spec (i, r) = Ok tt) S;
  ps_numbered : numbered sp_project sp_sequence S;
  ps_current : map_Forall (fun i p => exists sp, S !! pj_current_spec p = Some sp /\ sp_project sp = i /\
                             verify_project (i, p, sp) = Ok tt) P;
  ps_created : created pj_creation_sequence P last }.
Record subjects_sound (J : gmap Id SubjectRow) (last : Z) : Prop := {
  js_rows : map_Forall (fun i r => verify_subject (i, r) = Ok tt) J;
  js_created : created sj_creation_sequence J last }.
Record work_sound (W : gmap Id WorkItemRow) (R : gmap Id WorkRevisionRow) (last : Z) : Prop := {
  wk_revisions : map_Forall (fun i r => verify_work_revision (i, r) = Ok tt) R;
  wk_numbered : numbered wr_work_item wr_sequence R;
  wk_current : map_Forall (fun i w => exists wr, R !! wi_current_revision w = Some wr /\ wr_work_item wr = i /\
                             verify_work_item (i, w, wr) = Ok tt) W;
  wk_created : created wi_creation_sequence W last }.
Record takes_sound (T : gmap Id TakeRow) : Prop := {
  ts_rows : map_Forall (fun i t => verify_take (i, t) = Ok tt) T;
  ts_revisions : map_Forall (fun _ t => 1 <= tk_revision t) T;
  ts_numbered : numbered tk_work_revision tk_ordinal T }.
Definition edge_of (r : RelationshipRow) : RelationshipKind * Id * Id := (rl_kind r, rl_source r, rl_target r).
Definition same_group (e r : RelationshipRow) : bool := bool_decide (rl_source e = rl_source r) && bool_decide (rl_kind e = rl_kind r).
Record edges_sound (s : Store) : Prop := {
  eg_rows : Forall (fun r => relationship_sound s r = true /\ valid (rl_id r) /\ valid (rl_target r)) (relationships s);
  eg_groups : Forall (fun r => group_too_large s r = false) (relationships s);
  eg_unique : NoDup (map edge_of (relationships s)) }.
Record sound (s : Store) : Prop := {
  so_projects : projects_sound (projects s) (specs s) (last_sequence s);
  so_subjects : subjects_sound (subjects s) (last_sequence s);
  so_work : work_sound (work_items s) (work_revisions s) (last_sequence s);
  so_takes : takes_sound (takes s);
  so_edges : edges_sound s;
  so_assets : set_Forall valid (assets s);
  so_sequence : 0 <= last_sequence s }.

(** ** A sound store passes the check *)

Lemma each_ok {R} (check : R -> res ()) rows : (forall r, r ∈ rows -> check r = Ok tt) -> each check rows = Ok tt.
Proof. induction rows as [|r rows IH]; intros Hr; cbn; [done|]. rewrite Hr by set_solver. cbn. apply IH. set_solver. Qed.
Lemma each_map {R} (check : Id * R -> res ()) (m : gmap Id R) :
  map_Forall (fun i r => check (i, r) = Ok tt) m -> each check (map_to_list m) = Ok tt.
Proof. intros Hm. apply each_ok. intros [i r] Hr%elem_of_map_to_list. by apply Hm. Qed.
Lemma existsb_false {R} (p : R -> bool) rows : Forall (fun r => p r = false) rows -> existsb p rows = false.
Proof. induction 1 as [|r rows Hr _ IH]; cbn; [done|]. by rewrite Hr, IH. Qed.
Lemma joined_project s i p sp : (i, p, sp) ∈ joined_projects s <-> projects s !! i = Some p /\ current_spec s i p = Some sp.
Proof.
  unfold joined_projects. rewrite list_elem_of_omap. split.
  - intros ([j q] & Hj%elem_of_map_to_list & Hq). destruct (current_spec s j q) eqn:E; [|done]. cbn in Hq. by simplify_eq.
  - intros [Hp Hs]. exists (i, p). by rewrite elem_of_map_to_list, Hs.
Qed.
Lemma joined_work_item s i w wr : (i, w, wr) ∈ all_work s <-> work_items s !! i = Some w /\ current_work_revision s i w = Some wr.
Proof.
  unfold all_work. rewrite list_elem_of_omap. split.
  - intros ([j q] & Hj%elem_of_map_to_list & Hq). destruct (current_work_revision s j q) eqn:E; [|done]. cbn in Hq. by simplify_eq.
  - intros [Hp Hs]. exists (i, w). by rewrite elem_of_map_to_list, Hs.
Qed.
Lemma sound_current_spec s i p : sound s -> projects s !! i = Some p ->
  exists sp, current_spec s i p = Some sp /\ specs s !! pj_current_spec p = Some sp /\ sp_project sp = i /\ verify_project (i, p, sp) = Ok tt.
Proof.
  intros Hs Hp. destruct (ps_current _ _ _ (so_projects _ Hs) _ _ Hp) as (sp & Hsp & Ho & Hv). exists sp.
  unfold current_spec. rewrite Hsp, bool_decide_eq_true_2 by done. done.
Qed.
Lemma sound_current_work s i w : sound s -> work_items s !! i = Some w ->
  exists wr, current_work_revision s i w = Some wr /\ work_revisions s !! wi_current_revision w = Some wr /\ wr_work_item wr = i /\
    verify_work_item (i, w, wr) = Ok tt.
Proof.
  intros Hs Hp. destruct (wk_current _ _ _ (so_work _ Hs) _ _ Hp) as (sp & Hsp & Ho & Hv). exists sp.
  unfold current_work_revision. rewrite Hsp, bool_decide_eq_true_2 by done. done.
Qed.

Lemma sound_verified s : sound s -> verify_persisted_creative_state s = Ok tt.
Proof.
  intros Hs. unfold verify_persisted_creative_state.
  rewrite (each_map verify_spec) by apply (so_projects _ Hs). cbn [result_bind].
  rewrite each_ok. 2: { intros [[i p] sp] [Hp Hc]%joined_project. destruct (sound_current_spec _ _ _ Hs Hp) as (sp' & Hc' & _ & _ & Hv). congruence. }
  cbn [result_bind]. rewrite (each_map verify_work_revision) by apply (so_work _ Hs). cbn [result_bind].
  rewrite each_ok. 2: { intros [[i p] sp] [Hp Hc]%joined_work_item. destruct (sound_current_work _ _ _ Hs Hp) as (sp' & Hc' & _ & _ & Hv). congruence. }
  cbn [result_bind]. rewrite (each_map verify_subject) by apply (so_subjects _ Hs). cbn [result_bind].
  rewrite (each_map verify_take) by apply (so_takes _ Hs). cbn [result_bind].
  pose proof (numbered_not_bad _ _ _ (ps_numbered _ _ _ (so_projects _ Hs))) as H2. unfold numbers in H2. rewrite H2.
  pose proof (numbered_not_bad _ _ _ (wk_numbered _ _ _ (so_work _ Hs))) as H3. unfold numbers in H3. rewrite H3.
  pose proof (numbered_not_bad _ _ _ (ts_numbered _ (so_takes _ Hs))) as H4. unfold numbers in H4. rewrite H4.
  rewrite existsb_false. 2: { eapply Forall_impl; [apply (so_edges _ Hs)|]. intros r [Hr _]. by rewrite Hr. }
  rewrite existsb_false by apply (so_edges _ Hs). done.
Qed.

(** ** Preservation, group by group *)

Lemma created_mono {R} (f : R -> Z) m q q' : q <= q' -> created f m q -> created f m q'.
Proof. intros Hq [H1' H2]. split; [|done]. intros i r Hi. specialize (H1' _ _ Hi). lia. Qed.
Lemma created_insert {R} (f : R -> Z) m q i r : 0 <= q -> f r = q + 1 -> created f m q -> created f (<[i := r]> m) (q + 1).
Proof.
  intros Hq Hr [Hb Hu]. split.
  - intros j a Ha. apply lookup_insert_Some in Ha as [[<- <-]|[_ Ha]]; [lia|]. specialize (Hb _ _ Ha). lia.
  - intros j k a b Ha Hb' Hf. apply lookup_insert_Some in Ha as [[<- <-]|[_ Ha]];
      apply lookup_insert_Some in Hb' as [[<- <-]|[_ Hb']]; [done| | |by eapply Hu].
    + specialize (Hb _ _ Hb'). lia.
    + specialize (Hb _ _ Ha). lia.
Qed.
Lemma created_update {R} (f : R -> Z) m q i r r' : m !! i = Some r -> f r' = f r -> created f m q -> created f (<[i := r']> m) q.
Proof.
  intros Hi Hr [Hb Hu]. assert (forall j b, <[i := r']> m !! j = Some b -> exists c, m !! j = Some c /\ f c = f b) as Hback.
  { intros j b Hj. apply lookup_insert_Some in Hj as [[<- <-]|[_ Hj]]; [exists r|exists b]; done. }
  split.
  - intros j b Hj. destruct (Hback _ _ Hj) as (c & Hc & <-). by eapply Hb.
  - intros j k a b Ha Hb' Hf. destruct (Hback _ _ Ha) as (a' & Ha' & ?), (Hback _ _ Hb') as (b' & Hb'' & ?). eapply Hu; [done..|congruence].
Qed.

Lemma projects_sound_mono P S q q' : q <= q' -> projects_sound P S q -> projects_sound P S q'.
Proof. intros Hq []. constructor; try done. by eapply created_mono. Qed.
Lemma subjects_sound_mono J q q' : q <= q' -> subjects_sound J q -> subjects_sound J q'.
Proof. intros Hq []. constructor; try done. by eapply created_mono. Qed.
Lemma work_sound_mono W R q q' : q <= q' -> work_sound W R q -> work_sound W R q'.
Proof. intros Hq []. constructor; try done. by eapply created_mono. Qed.

(** A new specification; the current ones keep theirs. *)
Lemma projects_sound_spec P S q j row :
  projects_sound P S q -> S !! j = None -> ~ map_Exists (fun _ r => sp_project r = sp_project row /\ sp_sequence r = sp_sequence row) S ->
  (sp_sequence row = 1 \/ exists k b, S !! k = Some b /\ sp_project b = sp_project row /\ sp_sequence b = sp_sequence row - 1) ->
  verify_spec (j, row) = Ok tt -> projects_sound P (<[j := row]> S) q.
Proof.
  intros [Hs Hn Hc Hq] Hj Hnew Hprev Hv. constructor; [by apply map_Forall_insert_2|by apply numbered_insert| |done].
  intros i p Hp. destruct (Hc _ _ Hp) as (sp & Hsp & ? & ?). exists sp. rewrite lookup_insert_ne by congruence. done.
Qed.
(** A project that names one of the stored specifications as its current one. *)
Lemma projects_sound_current P S q q' i p sp :
  projects_sound P S q -> S !! pj_current_spec p = Some sp -> sp_project sp = i -> verify_project (i, p, sp) = Ok tt ->
  created pj_creation_sequence (<[i := p]> P) q' -> projects_sound (<[i := p]> P) S q'.
Proof.
  intros [Hs Hn Hc Hq] Hsp Ho Hv Hcr. constructor; try done. apply map_Forall_insert_2; eauto.
Qed.
Lemma work_sound_revision W R q j row :
  work_sound W R q -> R !! j = None -> ~ map_Exists (fun _ r => wr_work_item r = wr_work_item row /\ wr_sequence r = wr_sequence row) R ->
  (wr_sequence row = 1 \/ exists k b, R !! k = Some b /\ wr_work_item b = wr_work_item row /\ wr_sequence b = wr_sequence row - 1) ->
  verify_work_revision (j, row) = Ok tt -> work_sound W (<[j := row]> R) q.
Proof.
  intros [Hs Hn Hc Hq] Hj Hnew Hprev Hv. constructor; [by apply map_Forall_insert_2|by apply numbered_insert| |done].
  intros i p Hp. destruct (Hc _ _ Hp) as (sp & Hsp & ? & ?). exists sp. rewrite lookup_insert_ne by congruence. done.
Qed.
Lemma work_sound_current W R q q' i w wr :
  work_sound W R q -> R !! wi_current_revision w = Some wr -> wr_work_item wr = i -> verify_work_item (i, w, wr) = Ok tt ->
  created wi_creation_sequence (<[i := w]> W) q' -> work_sound (<[i := w]> W) R q'.
Proof.
  intros [Hs Hn Hc Hq] Hsp Ho Hv Hcr. constructor; try done. apply map_Forall_insert_2; eauto.
Qed.

Lemma takes_sound_insert T i t :
  takes_sound T -> T !! i = None -> ~ map_Exists (fun _ r => tk_work_revision r = tk_work_revision t /\ tk_ordinal r = tk_ordinal t) T ->
  (tk_ordinal t = 1 \/ exists j b, T !! j = Some b /\ tk_work_revision b = tk_work_revision t /\ tk_ordinal b = tk_ordinal t - 1) ->
  verify_take (i, t) = Ok tt -> 1 <= tk_revision t -> takes_sound (<[i := t]> T).
Proof.
  intros [Hr Hrev Hn] Hi Hnew Hprev Hv H1r. constructor; [by apply map_Forall_insert_2..|by apply numbered_insert].
Qed.
Lemma verify_take_facts i t : verify_take (i, t) = Ok tt ->
  valid i /\ valid (tk_work_revision t) /\ 1 <= tk_ordinal t <= U32_MAX /\ valid (tk_primary_asset t) /\ tk_revision t <> 0 /\
  1 <= tk_creation_sequence t /\ valid (tk_command t) /\ instant (tk_created_at t) /\ instant (tk_updated_at t).
Proof.
  unfold verify_take. intros Hv. apply result_bind_ok in Hv as (? & [Hi _]%id_valid_ok & Hv). apply result_bind_ok in Hv as (? & [Hw _]%id_valid_ok & Hv).
  apply result_bind_ok in Hv as (o & Ho & Hv). unfold column_u32 in Ho. apply ok_or_ok, try_into_Some in Ho as [-> Ho]. case_match eqn:E1; [done|].
  apply result_bind_ok in Hv as (? & [Ha _]%id_valid_ok & Hv). case_match eqn:E2; [done|]. apply result_bind_ok in Hv as (? & [Hc _]%id_valid_ok & Hv).
  apply result_bind_ok in Hv as (? & Ht & Hv). apply result_bind_ok in Hv as (? & Hu & _). unfold timestamp in Ht, Hu.
  apply result_bind_ok in Ht as ([] & Ht & _). apply result_bind_ok in Hu as ([] & Hu & _). bool_hyps. split_and!; try done; lia.
Qed.
Lemma verify_take_intro i t :
  valid i -> valid (tk_work_revision t) -> 1 <= tk_ordinal t <= U32_MAX -> valid (tk_primary_asset t) -> tk_revision t <> 0 ->
  1 <= tk_creation_sequence t -> valid (tk_command t) -> instant (tk_created_at t) -> instant (tk_updated_at t) -> verify_take (i, t) = Ok tt.
Proof.
  intros. unfold verify_take. rewrite !id_ok by done. cbn [result_bind]. rewrite column_u32_ok by (unfold is_u32; lia). cbn [result_bind].
  rewrite (proj2 (Z.eqb_neq (tk_ordinal t) 0)) by lia. cbn [result_bind]. rewrite (proj2 (Z.eqb_neq (tk_revision t) 0)) by done.
  rewrite (proj2 (Z.leb_gt (tk_creation_sequence t) 0)) by lia. cbn [orb result_bind]. by rewrite !timestamp_ok.
Qed.
Lemma takes_sound_move T i t st rev at_ :
  takes_sound T -> T !! i = Some t -> 1 <= rev -> instant at_ -> takes_sound (<[i := moved_take t st rev at_]> T).
Proof.
  intros [Hr Hrv Hn] Hi Hrev Hat. constructor; [|by apply map_Forall_insert_2|by eapply numbered_update].
  apply map_Forall_insert_2; [|done]. pose proof (verify_take_facts _ _ (Hr _ _ Hi)) as (? & ? & ? & ? & ? & ? & ? & ? & ?).
  apply verify_take_intro; cbn; try done. lia.
Qed.
Lemma max_ordinal_attained s w :
  max_ordinal s w = 0 \/ exists i t, takes s !! i = Some t /\ tk_work_revision t = w /\ tk_ordinal t = max_ordinal s w.
Proof.
  unfold max_ordinal.
  apply (map_fold_weak_ind (fun (acc : Z) m => acc = 0 \/ exists i t, m !! i = Some t /\ tk_work_revision t = w /\ tk_ordinal t = acc)); [by left|].
  intros i x m r Hi Hr.
  assert (r = 0 \/ exists j t, <[i := x]> m !! j = Some t /\ tk_work_revision t = w /\ tk_ordinal t = r) as Hr'.
  { destruct Hr as [->|(j & t & Hj & ? & ?)]; [by left|]. right. exists j, t. rewrite lookup_insert_ne by congruence. done. }
  case_match eqn:E; [|done]. bool_hyps. destruct (Z.max_spec r (tk_ordinal x)) as [[_ ->]|[_ ->]]; [|done].
  right. exists i, x. by rewrite lookup_insert_eq.
Qed.
Lemma next_ordinal_follows s w n :
  next_take_ordinal s w = Ok n -> n = 1 \/ exists i t, takes s !! i = Some t /\ tk_work_revision t = w /\ tk_ordinal t = n - 1.
Proof.
  intros [-> _]%next_take_ordinal_ok. destruct (max_ordinal_attained s w) as [->|(i & t & ? & ? & ?)]; [by left|].
  right. exists i, t. split_and!; try done. lia.
Qed.

(** ** Edges *)

Lemma relationship_sound_grows c s s' r : grows c s s' -> relationship_sound s r = true -> relationship_sound s' r = true.
Proof.
  intros Hg. unfold relationship_sound.
  assert (forall i, is_Some (work_revisions s !! i) -> is_Some (work_revisions s' !! i)) as Hw.
  { intros i [x Hx]. destruct (g_work_revisions _ _ _ Hg _ _ Hx) as (? & -> & _). eauto. }
  assert (forall i, is_Some (subjects s !! i) -> is_Some (subjects s' !! i)) as Hj.
  { intros i [x Hx]. destruct (g_subjects _ _ _ Hg _ _ Hx) as (? & -> & _). eauto. }
  destruct (rl_kind r); rewrite ?(g_assets _ _ _ Hg), ?andb_true_iff, ?bool_decide_eq_true; [naive_solver..| |].
  all: destruct (takes s !! rl_source r) as [a|] eqn:Ea; [|done]; destruct (takes s !! rl_target r) as [b|] eqn:Eb; [|done];
    destruct (g_takes _ _ _ Hg _ _ Ea) as (a' & -> & Ha), (g_takes _ _ _ Hg _ _ Eb) as (b' & -> & Hb);
    rewrite !andb_true_iff, !bool_decide_eq_true; intros [Hwr Hst];
    rewrite (take_le_terminal b b') by (try done; destruct (tk_state b); set_solver);
    (split; [|done]); rewrite Hwr; by destruct (take_le_facts _ _ Ha) as (-> & _).
Qed.
Lemma group_size s r : group_too_large s r =
  let n := blen (List.filter (fun e => same_group e r) (relationships s)) in
  match rl_kind r with WorkSubject | WorkAsset => 64 <? n | _ => 1 <? n end.
Proof. done. Qed.
(** The edges of a store after new ones were added, none of them in the group of an old one. *)
Lemma edges_sound_grows c s s' new :
  edges_sound s -> grows c s s' -> relationships s' = relationships s ++ new ->
  Forall (fun r => relationship_sound s' r = true /\ valid (rl_id r) /\ valid (rl_target r)) new ->
  Forall (fun r => let n := blen (List.filter (fun e => same_group e r) new) in
                   match rl_kind r with WorkSubject | WorkAsset => n <= 64 | _ => n <= 1 end) new ->
  (forall e r, e ∈ new -> r ∈ relationships s -> same_group e r = false) -> NoDup (map edge_of new) -> edges_sound s'.
Proof.
  intros [Hr Hgr Hu] Hg Hrel Hnew Hsize Hsep Hnd.
  assert (forall e r, e ∈ relationships s -> r ∈ new -> same_group e r = false) as Hsep'.
  { intros e r He Hn. specialize (Hsep _ _ Hn He). unfold same_group in *. rewrite andb_false_iff, !bool_decide_eq_false in *. naive_solver. }
  assert (forall l r, (forall e, e ∈ l -> same_group e r = false) -> List.filter (fun e => same_group e r) l = []) as Hnone.
  { intros l r Hl. induction l as [|e l IH]; cbn; [done|]. rewrite Hl by set_solver. apply IH. set_solver. }
  constructor; rewrite Hrel.
  - rewrite Forall_app. split; [|done]. eapply Forall_impl; [exact Hr|]. intros r (? & ? & ?). split_and!; try done. by eapply relationship_sound_grows.
  - rewrite Forall_app, !Forall_forall. rewrite Forall_forall in Hgr, Hsize. split; intros r Hin; [specialize (Hgr r Hin)|]; rewrite group_size in *; cbv zeta in *; rewrite Hrel.
    + rewrite List.filter_app, (Hnone new r), app_nil_r by (intros e He; by apply Hsep). done.
    + rewrite List.filter_app, (Hnone (relationships s) r) by (intros e He; by apply Hsep'). specialize (Hsize r Hin). cbn in Hsize.
      cbn [app]. destruct (rl_kind r); by apply Z.ltb_ge.
  - rewrite map_app. apply NoDup_app. split_and!; [done| |done]. intros x (r & -> & Hin)%list_elem_of_fmap (e & He & Hen)%list_elem_of_fmap.
    specialize (Hsep _ _ Hen Hin). unfold same_group in Hsep. unfold edge_of in He. injection He as E1 E2 E3.
    by rewrite E1, E2, !bool_decide_eq_true_2 in Hsep.
Qed.
Lemma edges_sound_same c s s' : edges_sound s -> grows c s s' -> relationships s' = relationships s -> edges_sound s'.
Proof.
  intros He Hg Hr. eapply (edges_sound_grows c s s' []); try done; [by rewrite app_nil_r| |constructor]. intros e r Hin. by apply not_elem_of_nil in Hin.
Qed.
(** One new edge between takes. *)
Lemma edges_sound_take_edge c s s' e :
  edges_sound s -> grows c s s' -> relationships s' = relationships s ++ [e] -> relationship_sound s' e = true -> valid (rl_id e) ->
  valid (rl_target e) -> same_kind_endpoints (rl_kind e) = true ->
  (forall r, r ∈ relationships s -> rl_kind r = rl_kind e -> rl_source r <> rl_source e) -> edges_sound s'.
Proof.
  intros He Hg Hr Hs Hi Ht Hk Hne. eapply (edges_sound_grows c s s' [e]); try done.
  - by constructor.
  - constructor; [|done]. cbn. destruct (same_group e e); destruct (rl_kind e); done.
  - intros x r ->%list_elem_of_singleton Hin. unfold same_group. rewrite andb_false_iff, !bool_decide_eq_false.
    destruct (decide (rl_kind r = rl_kind e)) as [E|E]; [left|right]; [|congruence]. intros E2. by eapply Hne.
  - apply NoDup_singleton.
Qed.
End sound.
End Sound.
