(* ===== verification/CreativeVerified.v ===== *)
(** Every store the creative commands can reach passes the check that a library runs on
    its creative tables when it is opened. *)
From Stdlib Require Import ZArith Lia String.
From Stdlib Require Import Strings.Byte Init.Byte.
From stdpp Require Import prelude list gmap sorting relations.
From S2P Require Import Prelude RustText Ord Types Events AssetDomain CreativeDomain Ports CommandLedger CreativeStore StoreScenario StoreFrame StoreSteps CreativeTakes CreativeJson CreativeQuery CreativeSound.

Set Warnings "-clear-no-such-hyp".

Module Verified.
Import Ports Ledger Store Creative Json JsonFacts Frame Steps CreativeTakes CreativeQuery Sound.

Section commands.
Context `{StoreEnv} `{SerdeJson} `{!SerdeJsonLaws} `{!StoreEnvLaws H}.
Context (replay_asset_result : Store -> CommandRow -> result AssetStoreError CommandResult).
Local Abbreviation execute := (execute replay_asset_result).
Local Abbreviation after := (after replay_asset_result).

Lemma sound_step c s s' :
  sound s -> grows c s s' -> projects_sound (projects s') (specs s') (last_sequence s') ->
  subjects_sound (subjects s') (last_sequence s') -> work_sound (work_items s') (work_revisions s') (last_sequence s') ->
  takes_sound (takes s') -> edges_sound s' -> sound s'.
Proof.
  intros Hs Hg Hp Hj Hw Ht He. constructor; try done.
  - rewrite (g_assets _ _ _ Hg). apply Hs.
  - pose proof (g_sequence _ _ _ Hg). pose proof (so_sequence _ Hs). lia.
Qed.
(** A command that fits a sound store: it answers from the ledger, or its writes are to
    be checked. *)
Lemma sound_command s ctx c o s' :
  execute s ctx c = Ok (o, s') -> sound s ->
  (grows (cb_command_id (binding_of c)) s s' -> sound s') -> sound s'.
Proof.
  intros Hc Hs Hk. apply execute_effect in Hc as [[_ ->]|(? & _ & _ & Hg & _)]; [done|]. by apply Hk.
Qed.
(** Nothing but the ledger and the event log changed. *)
Ltac unchanged Hs Hg :=
  eapply sound_step; [exact Hs|exact Hg|cbn; first [exact (so_projects _ Hs)|eapply projects_sound_mono; [|exact (so_projects _ Hs)]; lia]
    |cbn; first [exact (so_subjects _ Hs)|eapply subjects_sound_mono; [|exact (so_subjects _ Hs)]; lia]
    |cbn; first [exact (so_work _ Hs)|eapply work_sound_mono; [|exact (so_work _ Hs)]; lia]
    |exact (so_takes _ Hs)|eapply edges_sound_same; [exact (so_edges _ Hs)|exact Hg|reflexivity]].
(** As far as the tables go that the goal does not mention. *)
Ltac table Hs Hg :=
  first [cbn; first [exact (so_projects _ Hs)|eapply projects_sound_mono; [|exact (so_projects _ Hs)]; lia]
        |cbn; first [exact (so_subjects _ Hs)|eapply subjects_sound_mono; [|exact (so_subjects _ Hs)]; lia]
        |cbn; first [exact (so_work _ Hs)|eapply work_sound_mono; [|exact (so_work _ Hs)]; lia]
        |exact (so_takes _ Hs)|eapply edges_sound_same; [exact (so_edges _ Hs)|exact Hg|reflexivity]].
Ltac open Hc Hs Hg :=
  eapply (sound_command _ _ _ _ _ Hc Hs); intros Hg; cbn [Store.execute] in Hc;
  apply unless_replayed_inv in Hc as [[_ ->]|[_ Hc]]; [exact Hs|]; crunch Hc.

Lemma verify_project_intro i p sp :
  valid i -> project_name_new (pj_name p) = Ok (pj_name p) -> valid (pj_current_spec p) -> 1 <= sp_sequence sp <= U32_MAX ->
  pj_revision p = sp_sequence sp -> 1 <= pj_creation_sequence p -> instant (pj_created_at p) -> instant (pj_updated_at p) ->
  valid (pj_command p) -> verify_project (i, p, sp) = Ok tt.
Proof.
  intros Hi Hn Hc Hq Hr Hcr Ht Hu Hcm. unfold verify_project. rewrite !id_ok by done. cbn [result_bind]. rewrite Hn. cbn [corrupt map_err result_bind].
  rewrite column_u32_ok by (unfold is_u32; lia). cbn [result_bind]. rewrite Hr, Z.eqb_refl.
  rewrite (proj2 (Z.eqb_neq (sp_sequence sp) 0)) by lia. rewrite (proj2 (Z.leb_gt (pj_creation_sequence p) 0)) by lia. cbn [negb orb].
  by rewrite !timestamp_ok.
Qed.
Lemma verify_project_facts i p sp : verify_project (i, p, sp) = Ok tt ->
  valid i /\ project_name_new (pj_name p) = Ok (pj_name p) /\ valid (pj_current_spec p) /\ 1 <= sp_sequence sp <= U32_MAX /\
  pj_revision p = sp_sequence sp /\ 1 <= pj_creation_sequence p /\ instant (pj_created_at p) /\ instant (pj_updated_at p) /\ valid (pj_command p).
Proof.
  unfold verify_project. intros Hv. apply result_bind_ok in Hv as (? & [Hi _]%id_valid_ok & Hv). apply result_bind_ok in Hv as (n & Hn & Hv).
  apply result_bind_ok in Hv as (? & [Hc _]%id_valid_ok & Hv). apply result_bind_ok in Hv as (q & Hq & Hv).
  unfold column_u32 in Hq. apply ok_or_ok, try_into_Some in Hq as [-> Hq]. case_match eqn:E; [done|].
  apply result_bind_ok in Hv as (? & Ht & Hv). apply result_bind_ok in Hv as (? & Hu & Hv). apply result_bind_ok in Hv as (? & [Hcm _]%id_valid_ok & _).
  unfold timestamp in Ht, Hu. apply result_bind_ok in Ht as ([] & Ht & _). apply result_bind_ok in Hu as ([] & Hu & _). bool_hyps.
  apply map_err_ok in Hn. pose proof Hn as Hn'. unfold project_name_new, validate_text in Hn. case_match; [done|]. injection Hn as <-.
  split_and!; try done; lia.
Qed.

Lemma create_project_sound s ctx r o s' :
  fits (CreateProject r) -> execute s ctx (CreateProject r) = Ok (o, s') -> sound s -> sound s'.
Proof.
  intros (Hb & Hv & Hn & Hsp) Hc Hs. open Hc Hs Hg; [|unchanged Hs Hg].
  match goal with E : with_values _ _ = Ok _ |- _ => apply with_values_sample3 in E as (Ht & Hv1 & Hv2 & Hv3); [|exact Hv] end.
  pose proof (so_sequence _ Hs). cbn in *.
  eapply sound_step; [exact Hs|exact Hg| |table Hs Hg..]. cbn.
  eapply projects_sound_current; [eapply projects_sound_spec; [apply (so_projects _ Hs)|done|done|by left|]| | |apply verify_project_intro|]; cbn; try done.
  - by apply spec_row_verified.
  - apply lookup_insert_eq.
  - done.
  - done.
  - done.
  - lia.
  - apply created_insert; [done|done|]. apply (so_projects _ Hs).
Qed.

(** The specification that follows the current one. *)
Lemma next_spec_sound s p project_id i c at_ sp :
  sound s -> projects s !! project_id = Some p -> specs s !! i = None ->
  ~ map_Exists (fun _ r => sp_project r = project_id /\ sp_sequence r = pj_revision p + 1) (specs s) -> pj_revision p + 1 <= U32_MAX ->
  valid i -> valid c -> instant at_ -> built_specification sp ->
  projects_sound (projects s) (<[i := spec_row project_id (pj_revision p + 1) c at_ sp]> (specs s)) (last_sequence s).
Proof.
  intros Hs Hp Hi Hnew Hmax Hvi Hvc Ht Hsp. destruct (sound_current_spec _ _ _ Hs Hp) as (cur & _ & Hcur & Hown & Hver).
  apply verify_project_facts in Hver as (Hpid & _ & _ & Hsq & Hrev & _).
  eapply projects_sound_spec; [apply (so_projects _ Hs)|done|done| |apply spec_row_verified; try done; lia].
  right. exists (pj_current_spec p), cur. cbn. split_and!; [done|done|lia].
Qed.
Lemma revised_project_verified s p project_id i c q at_ sp :
  sound s -> projects s !! project_id = Some p -> pj_revision p + 1 <= U32_MAX -> valid i -> instant at_ ->
  q = pj_revision p + 1 -> verify_project (project_id, revised_project p i q at_, spec_row project_id q c at_ sp) = Ok tt.
Proof.
  intros Hs Hp Hmax Hvi Ht ->. destruct (sound_current_spec _ _ _ Hs Hp) as (cur & _ & Hcur & Hown & Hver).
  apply verify_project_facts in Hver as (? & ? & ? & ? & ? & ? & ? & ? & ?). apply verify_project_intro; cbn; try done; lia.
Qed.
Lemma revise_project_spec_sound s ctx r o s' :
  fits (ReviseProjectSpec r) -> execute s ctx (ReviseProjectSpec r) = Ok (o, s') -> sound s -> sound s'.
Proof.
  intros (Hb & Hv & Hsp) Hc Hs. pose proof (so_sequence _ Hs). open Hc Hs Hg; try (unchanged Hs Hg);
  (match goal with E : with_values _ _ = Ok _ |- _ => apply with_values_sample2 in E as (Ht & Hv1 & Hv2); [|exact Hv] end;
   match goal with E : checked_add _ _ _ = Some _ |- _ => apply checked_add_Some in E as [-> Hnext] end;
   match goal with E : try_into _ _ = Some _ |- _ => apply try_into_Some in E as [-> Hseq] end;
   match goal with E : projects _ !! rp_project_id r = Some ?row |- _ => rename row into p, E into Hp; cbn in Hp end; cbn in *;
   match goal with E : specs s !! ?i = None |- _ =>
     pose proof (next_spec_sound s p (rp_project_id r) i (cb_command_id (rp_binding r)) t (rp_specification r)
                   Hs Hp E ltac:(done) ltac:(lia) Hv1 Hb Ht Hsp) as Hps end).
  - eapply sound_step; [exact Hs|exact Hg| |table Hs Hg..]. cbn.
    match goal with E : projects s !! _ = Some ?row |- context [revised_project ?row _ _ _] => assert (row = p) as -> by congruence end.
    eapply projects_sound_current; [exact Hps|apply lookup_insert_eq|done| |].
    + apply (revised_project_verified s); try done. lia.
    + eapply created_update; [exact Hp|done|]. eapply created_mono; [|apply (so_projects _ Hs)]. lia.
  - eapply sound_step; [exact Hs|exact Hg|exact Hps|table Hs Hg..].
Qed.

Lemma verify_subject_intro i r :
  valid i -> subject_kind_new (sj_kind r) = Ok (sj_kind r) -> subject_name_new (sj_name r) = Ok (sj_name r) -> sj_revision r <> 0 ->
  1 <= sj_creation_sequence r -> valid (sj_command r) -> instant (sj_created_at r) -> verify_subject (i, r) = Ok tt.
Proof.
  intros Hi Hk Hn Hr Hq Hc Ht. unfold verify_subject. rewrite !id_ok by done. cbn [result_bind]. rewrite Hk, Hn. cbn [corrupt map_err result_bind].
  rewrite (proj2 (Z.eqb_neq (sj_revision r) 0)) by done. rewrite (proj2 (Z.leb_gt (sj_creation_sequence r) 0)) by lia. cbn [orb].
  by rewrite timestamp_ok.
Qed.
Lemma create_subject_sound s ctx r o s' :
  fits (CreateSubject r) -> execute s ctx (CreateSubject r) = Ok (o, s') -> sound s -> sound s'.
Proof.
  intros (Hb & Hv & Hk & Hn) Hc Hs. open Hc Hs Hg; [|unchanged Hs Hg].
  match goal with E : with_values _ _ = Ok _ |- _ => apply with_values_sample2 in E as (Ht & Hv1 & Hv2); [|exact Hv] end.
  pose proof (so_sequence _ Hs). cbn in *.
  eapply sound_step; [exact Hs|exact Hg|table Hs Hg| |table Hs Hg..]. cbn. constructor.
  - apply map_Forall_insert_2; [|apply (so_subjects _ Hs)]. apply verify_subject_intro; cbn; try done. lia.
  - apply created_insert; [done|done|]. apply (so_subjects _ Hs).
Qed.

(** ** Work *)

Lemma verify_work_item_intro i w wr :
  valid i -> valid (wi_project w) -> work_code_new (wi_code w) = Ok (wi_code w) -> valid (wi_current_revision w) ->
  1 <= wr_sequence wr <= U32_MAX -> wi_revision w = wr_sequence wr -> 1 <= wi_creation_sequence w -> instant (wi_created_at w) ->
  instant (wi_updated_at w) -> valid (wi_command w) -> verify_work_item (i, w, wr) = Ok tt.
Proof.
  intros Hi Hp Hn Hc Hq Hr Hcr Ht Hu Hcm. unfold verify_work_item. rewrite !id_ok by done. cbn [result_bind]. rewrite Hn. cbn [corrupt map_err result_bind].
  rewrite column_u32_ok by (unfold is_u32; lia). cbn [result_bind]. rewrite Hr, Z.eqb_refl.
  rewrite (proj2 (Z.eqb_neq (wr_sequence wr) 0)) by lia. rewrite (proj2 (Z.leb_gt (wi_creation_sequence w) 0)) by lia. cbn [negb orb].
  by rewrite !timestamp_ok.
Qed.
Lemma verify_work_item_facts i w wr : verify_work_item (i, w, wr) = Ok tt ->
  valid i /\ valid (wi_project w) /\ work_code_new (wi_code w) = Ok (wi_code w) /\ valid (wi_current_revision w) /\
  1 <= wr_sequence wr <= U32_MAX /\ wi_revision w = wr_sequence wr /\ 1 <= wi_creation_sequence w /\ instant (wi_created_at w) /\
  instant (wi_updated_at w) /\ valid (wi_command w).
Proof.
  unfold verify_work_item. intros Hv. apply result_bind_ok in Hv as (? & [Hi _]%id_valid_ok & Hv). apply result_bind_ok in Hv as (? & [Hp _]%id_valid_ok & Hv).
  apply result_bind_ok in Hv as (n & Hn & Hv).
  apply result_bind_ok in Hv as (? & [Hc _]%id_valid_ok & Hv). apply result_bind_ok in Hv as (q & Hq & Hv).
  unfold column_u32 in Hq. apply ok_or_ok, try_into_Some in Hq as [-> Hq]. case_match eqn:E; [done|].
  apply result_bind_ok in Hv as (? & Ht & Hv). apply result_bind_ok in Hv as (? & Hu & Hv). apply result_bind_ok in Hv as (? & [Hcm _]%id_valid_ok & _).
  unfold timestamp in Ht, Hu. apply result_bind_ok in Ht as ([] & Ht & _). apply result_bind_ok in Hu as ([] & Hu & _). bool_hyps.
  apply map_err_ok in Hn. pose proof Hn as Hn'. unfold work_code_new, validate_text in Hn. case_match; [done|]. assert (n = wi_code w) as -> by congruence.
  split_and!; try done; lia.
Qed.
Lemma subject_valid s i : sound s -> is_Some (subjects s !! i) -> valid i.
Proof.
  intros Hs [r Hr]. pose proof (js_rows _ _ (so_subjects _ Hs) _ _ Hr) as Hv. unfold verify_subject in Hv.
  by apply result_bind_ok in Hv as (? & [Hi _]%id_valid_ok & _).
Qed.

Lemma relationship_set_facts values maximum set :
  validate_relationship_set values maximum = Ok set -> blen set <= maximum /\ NoDup set.
Proof.
  unfold validate_relationship_set. case_match eqn:E; [done|]. intros [= <-]. bool_hyps. split; [lia|apply btree_collect_NoDup].
Qed.
Lemma built_work_sets sp : built_work sp ->
  blen (ws_subject_ids sp) <= 64 /\ NoDup (ws_subject_ids sp) /\ blen (ws_asset_ids sp) <= 64 /\ NoDup (ws_asset_ids sp).
Proof.
  intros (input & json & su & as_ & _ & Hn). unfold work_specification_new in Hn.
  apply result_bind_ok in Hn as (a & Ha & Hn). apply result_bind_ok in Hn as (b & Hb & Hn). injection Hn as <-.
  apply relationship_set_facts in Ha as [? ?], Hb as [? ?]. done.
Qed.
Lemma work_edges_elem k w targets ids b at_ e :
  e ∈ work_edges k w targets ids b at_ -> rl_kind e = k /\ rl_source e = w /\ rl_target e ∈ targets /\ rl_id e ∈ ids.
Proof.
  unfold work_edges. revert ids. induction targets as [|t targets IH]; intros [|i ids] He; cbn in He; try by apply not_elem_of_nil in He.
  apply elem_of_cons in He as [->|He]; [cbn; set_solver|]. destruct (IH _ He) as (? & ? & ? & ?). set_solver.
Qed.
Lemma work_edges_edges k w targets ids b at_ : length ids = length targets ->
  map edge_of (work_edges k w targets ids b at_) = map (fun t => (k, w, t)) targets.
Proof.
  unfold work_edges. revert ids. induction targets as [|t targets IH]; intros [|i ids] Hl; cbn in *; try done.
  unfold edge_of at 1. cbn. f_equal. apply IH. lia.
Qed.
Lemma work_edges_length k w targets ids b at_ : length ids = length targets -> length (work_edges k w targets ids b at_) = length targets.
Proof. intros Hl. unfold work_edges. rewrite length_zip_with. lia. Qed.
Lemma filter_length_le {A} (p : A -> bool) l : blen (List.filter p l) <= blen l.
Proof. induction l as [|x l IH]; cbn; [done|]. case_match; rewrite ?blen_cons; lia. Qed.
Lemma filter_none {A} (p : A -> bool) l : (forall x, x ∈ l -> p x = false) -> List.filter p l = [].
Proof. induction l as [|x l IH]; intros Hp; cbn; [done|]. rewrite Hp by set_solver. apply IH. set_solver. Qed.

(** The edges of a new work revision. *)
Lemma work_edges_sound c s s' sp i ids1 ids2 b at_ :
  sound s -> grows c s s' -> built_work sp -> validate_work_references s sp = true -> work_revisions s !! i = None ->
  is_Some (work_revisions s' !! i) -> Forall valid (ids1 ++ ids2) -> length ids1 = length (ws_subject_ids sp) -> length ids2 = length (ws_asset_ids sp) ->
  relationships s' = relationships s ++ work_edges WorkSubject i (ws_subject_ids sp) ids1 b at_ ++ work_edges WorkAsset i (ws_asset_ids sp) ids2 b at_ ->
  edges_sound s'.
Proof.
  intros Hs Hg Hb Href Hi Hi' Hids Hl1 Hl2 Hr. apply built_work_sets in Hb as (Hn1 & Hu1 & Hn2 & Hu2).
  unfold validate_work_references in Href. rewrite andb_true_iff, !forallb_forall in Href. destruct Href as [Hsub Has].
  apply Forall_app in Hids as [Hid1 Hid2]. rewrite Forall_forall in Hid1, Hid2.
  set (E1 := work_edges WorkSubject i (ws_subject_ids sp) ids1 b at_) in *. set (E2 := work_edges WorkAsset i (ws_asset_ids sp) ids2 b at_) in *.
  assert (blen E1 <= 64) as Hb1 by (unfold blen, E1; rewrite work_edges_length by done; exact Hn1).
  assert (blen E2 <= 64) as Hb2 by (unfold blen, E2; rewrite work_edges_length by done; exact Hn2).
  assert (forall e, e ∈ E1 -> rl_kind e = WorkSubject /\ rl_source e = i /\ is_Some (subjects s !! rl_target e) /\ valid (rl_id e)) as HE1.
  { intros e He. apply work_edges_elem in He as (? & ? & Ht & ?). split_and!; try done; [|by apply Hid1].
    apply list_elem_of_In, Hsub, bool_decide_eq_true in Ht. done. }
  assert (forall e, e ∈ E2 -> rl_kind e = WorkAsset /\ rl_source e = i /\ rl_target e ∈ assets s /\ valid (rl_id e)) as HE2.
  { intros e He. apply work_edges_elem in He as (? & ? & Ht & ?). split_and!; try done; [|by apply Hid2].
    apply list_elem_of_In, Has, bool_decide_eq_true in Ht. done. }
  eapply (edges_sound_grows c s s' (E1 ++ E2)); [apply (so_edges _ Hs)|done|done|..].
  - apply Forall_app; split; apply Forall_forall; intros e He.
    + destruct (HE1 _ He) as (Hk & Hso & Hta & ?). split_and!; [|done|by eapply subject_valid]. unfold relationship_sound. rewrite Hk, Hso.
      destruct Hta as [x Hx]. destruct (g_subjects _ _ _ Hg _ _ Hx) as (? & -> & _). rewrite !bool_decide_eq_true_2; eauto.
    + destruct (HE2 _ He) as (Hk & Hso & Hta & ?). split_and!; [|done|by apply (so_assets _ Hs)]. unfold relationship_sound. rewrite Hk, Hso.
      rewrite (g_assets _ _ _ Hg). rewrite !bool_decide_eq_true_2; eauto.
  - apply Forall_app; split; apply Forall_forall; intros e He; cbv zeta; rewrite List.filter_app, blen_app.
    + destruct (HE1 _ He) as (-> & _). rewrite (filter_none _ E2), blen_nil.
      * pose proof (filter_length_le (fun x => same_group x e) E1). lia.
      * intros x Hx. unfold same_group. destruct (HE1 _ He) as (-> & _), (HE2 _ Hx) as (-> & _). by rewrite andb_false_r.
    + destruct (HE2 _ He) as (-> & _). rewrite (filter_none _ E1), blen_nil.
      * pose proof (filter_length_le (fun x => same_group x e) E2). lia.
      * intros x Hx. unfold same_group. destruct (HE2 _ He) as (-> & _), (HE1 _ Hx) as (-> & _). by rewrite andb_false_r.
  - intros e r He Hin. unfold same_group. rewrite andb_false_iff, !bool_decide_eq_false.
    pose proof (eg_rows _ (so_edges _ Hs)) as Hrows. rewrite Forall_forall in Hrows. destruct (Hrows _ Hin) as (Hsd & _). unfold relationship_sound in Hsd.
    assert (rl_source e = i /\ (rl_kind e = WorkSubject \/ rl_kind e = WorkAsset)) as [Hso Hk].
    { apply elem_of_app in He as [He|He]; [destruct (HE1 _ He) as (? & ? & _)|destruct (HE2 _ He) as (? & ? & _)]; tauto. }
    destruct (decide (rl_source e = rl_source r)) as [E|]; [right|by left]. intros Ek. rewrite <- Ek, <- E, Hso in Hsd.
    destruct Hk as [Hk|Hk]; rewrite Hk in Hsd; rewrite Hi, bool_decide_eq_false_2 in Hsd by (intros [? ?]; done); done.
  - rewrite map_app. unfold E1, E2. rewrite !work_edges_edges by done. apply NoDup_app. split_and!.
    + apply NoDup_fmap_2; [|done]. intros x y. congruence.
    + intros x (y & -> & _)%list_elem_of_fmap (z & Hz & _)%list_elem_of_fmap. discriminate Hz.
    + apply NoDup_fmap_2; [|done]. intros x y. congruence.
Qed.

Lemma create_work_sound s ctx r o s' :
  fits (CreateWork r) -> execute s ctx (CreateWork r) = Ok (o, s') -> sound s -> sound s'.
Proof.
  intros (Hb & Hv & Hcode & Hsp) Hc Hs. pose proof (so_sequence _ Hs). open Hc Hs Hg; try (unchanged Hs Hg).
  match goal with E : with_values _ _ = Ok _ |- _ => apply with_values_work in E as (Ht & Hv1 & Hv2 & Hv3); [|exact Hv] end.
  match goal with E : negb _ || negb _ = false |- _ => apply orb_false_iff in E as [[p Hp]%negb_false_iff%bool_decide_eq_true Href%negb_false_iff] end.
  destruct (sound_current_spec s (cw_project_id r) p Hs Hp) as (cur & _ & _ & _ & (Hpid & _)%verify_project_facts).
  cbn in *. subst.
  eapply sound_step; [exact Hs|exact Hg|table Hs Hg|table Hs Hg| |table Hs Hg|].
  - cbn. eapply work_sound_current; [eapply work_sound_revision; [apply (so_work _ Hs)|done|done|by left|by apply work_revision_row_verified]
      |apply lookup_insert_eq|done|apply verify_work_item_intro; cbn; try done; lia|].
    apply created_insert; [done|done|]. apply (so_work _ Hs).
  - eapply (work_edges_sound _ s); try done. cbn. rewrite lookup_insert_eq. eauto.
Qed.

(** The work revision that follows the current one. *)
Lemma next_revision_sound s w work_item_id i b at_ sp :
  sound s -> work_items s !! work_item_id = Some w -> work_revisions s !! i = None ->
  ~ map_Exists (fun _ r => wr_work_item r = work_item_id /\ wr_sequence r = wi_revision w + 1) (work_revisions s) -> wi_revision w + 1 <= U32_MAX ->
  valid i -> valid (cb_command_id b) -> instant at_ -> built_work sp ->
  work_sound (<[work_item_id := revised_work_item w i (wi_revision w + 1) at_]> (work_items s))
    (<[i := work_revision_row work_item_id (wi_revision w + 1) b at_ sp]> (work_revisions s)) (last_sequence s).
Proof.
  intros Hs Hw Hi Hnew Hmax Hvi Hvc Ht Hsp. destruct (sound_current_work _ _ _ Hs Hw) as (cur & _ & Hcur & Hown & Hver).
  apply verify_work_item_facts in Hver as (? & ? & ? & ? & ? & ? & ? & ? & ? & ?).
  eapply work_sound_current; [eapply work_sound_revision; [apply (so_work _ Hs)|done|done| |apply work_revision_row_verified; try done; lia]
    |apply lookup_insert_eq|done|apply verify_work_item_intro; cbn; try done; lia|].
  - right. exists (wi_current_revision w), cur. cbn. split_and!; [done|done|lia].
  - eapply created_update; [exact Hw|done|]. apply (so_work _ Hs).
Qed.
Lemma revise_work_sound s ctx r o s' :
  fits (ReviseWork r) -> execute s ctx (ReviseWork r) = Ok (o, s') -> sound s -> sound s'.
Proof.
  intros (Hb & Hv & Hsp) Hc Hs. pose proof (so_sequence _ Hs). open Hc Hs Hg; try (unchanged Hs Hg);
  (match goal with E : with_values _ _ = Ok _ |- _ => apply with_values_work_revision in E as (Ht & Hv1 & Hv2); [|exact Hv] end;
   match goal with E : checked_add _ _ _ = Some _ |- _ => apply checked_add_Some in E as [-> Hnext] end;
   match goal with E : try_into _ _ = Some _ |- _ => apply try_into_Some in E as [-> Hseq] end;
   match goal with E : negb (validate_work_references _ _) = false |- _ => apply negb_false_iff in E; rename E into Href end;
   match goal with E : work_items _ !! rw_work_item_id r = Some ?row |- _ => rename row into w, E into Hw; cbn in Hw end; cbn in *; subst;
   match goal with E : work_revisions s !! ?i = None |- _ =>
     pose proof (next_revision_sound s w (rw_work_item_id r) i (rw_binding r) t (rw_specification r)
                   Hs Hw E ltac:(done) ltac:(lia) Hv1 Hb Ht Hsp) as Hws end).
  - eapply sound_step; [exact Hs|exact Hg|table Hs Hg|table Hs Hg|eapply work_sound_mono; [|exact Hws]; cbn; lia|table Hs Hg|].
    eapply (work_edges_sound _ s); try done. cbn. rewrite lookup_insert_eq. eauto.
  - eapply sound_step; [exact Hs|exact Hg|table Hs Hg|table Hs Hg|exact Hws|table Hs Hg|].
    eapply (work_edges_sound _ s); try done. cbn. rewrite lookup_insert_eq. eauto.
Qed.

(** ** Takes *)

Lemma work_revision_valid s i : sound s -> is_Some (work_revisions s !! i) -> valid i.
Proof.
  intros Hs [r Hr]. pose proof (wk_revisions _ _ _ (so_work _ Hs) _ _ Hr) as Hv. unfold verify_work_revision in Hv.
  by apply result_bind_ok in Hv as (? & [Hi _]%id_valid_ok & _).
Qed.
Lemma take_valid s i t : sound s -> takes s !! i = Some t -> valid i.
Proof. intros Hs Hi. apply (ts_rows _ (so_takes _ Hs)), verify_take_facts in Hi. apply Hi. Qed.
Lemma new_take_sound s p w wr a n q b at_ i :
  sound s -> take_context_exists s p w wr = true -> asset_exists s a = true -> next_take_ordinal s wr = Ok n -> takes s !! i = None ->
  ~ map_Exists (fun _ r => tk_work_revision r = wr /\ tk_ordinal r = n) (takes s) -> valid i -> valid (cb_command_id b) -> instant at_ -> 1 <= q ->
  takes_sound (<[i := take_row wr n Candidate a q b at_]> (takes s)).
Proof.
  intros Hs Hc Ha Hn Hi Hnew Hvi Hvb Ht Hq. apply takes_sound_insert; [apply (so_takes _ Hs)|done|done|by apply next_ordinal_follows| |done].
  apply take_context_exists_revision in Hc as (row & item & Hr & _). unfold asset_exists in Ha. apply bool_decide_eq_true in Ha.
  apply next_take_ordinal_ok in Hn as [_ Hn]. apply verify_take_intro; cbn; try done.
  - eapply work_revision_valid; eauto.
  - by apply (so_assets _ Hs).
Qed.

Lemma create_take_sound s ctx r o s' :
  fits (CreateTake r) -> execute s ctx (CreateTake r) = Ok (o, s') -> sound s -> sound s'.
Proof.
  intros (Hb & Hv & _) Hc Hs. pose proof (so_sequence _ Hs). open Hc Hs Hg; try (unchanged Hs Hg).
  match goal with E : with_values _ _ = Ok _ |- _ => apply with_values_sample2 in E as (Ht & Hv1 & Hv2); [|exact Hv] end.
  match goal with E : negb _ || negb _ = false |- _ => apply orb_false_iff in E as [Hctx%negb_false_iff Has%negb_false_iff] end.
  eapply sound_step; [exact Hs|exact Hg|table Hs Hg|table Hs Hg|table Hs Hg| |table Hs Hg].
  cbn. eapply (new_take_sound s); try done. lia.
Qed.

Lemma reopen_take_sound s ctx r o s' :
  fits (ReopenTake r) -> execute s ctx (ReopenTake r) = Ok (o, s') -> sound s -> sound s'.
Proof.
  intros (Hb & Hv & _) Hc Hs. pose proof (so_sequence _ Hs). open Hc Hs Hg; try (unchanged Hs Hg).
  match goal with E : with_values _ _ = Ok _ |- _ => apply with_values_sample3 in E as (Ht & Hv1 & Hv2 & Hv3); [|exact Hv] end.
  match goal with E : negb (take_context_exists _ _ _ _) || negb _ = false |- _ => apply orb_false_iff in E as [Hctx%negb_false_iff Has%negb_false_iff] end.
  match goal with E : negb (is_terminal _) || _ = false |- _ => apply orb_false_iff in E as [Hterm%negb_false_iff _] end.
  match goal with E : read_take _ _ _ = Some ?x |- _ => rename x into old; apply read_take_Some in E as [Hold Hwr] end.
  match goal with E : takes _ !! ?i = None |- _ => rename i into new, E into Hnew end. cbn in Hold, Hnew.
  eapply sound_step; [exact Hs|exact Hg|table Hs Hg|table Hs Hg|table Hs Hg| |].
  - cbn. eapply (new_take_sound s); try done. lia.
  - eapply edges_sound_take_edge; [apply (so_edges _ Hs)|exact Hg|reflexivity|cbn..]; try done.
    + unfold relationship_sound. cbn. rewrite lookup_insert_eq, lookup_insert_ne, Hold by congruence. cbn.
      rewrite !bool_decide_eq_true_2; [done| |done]. destruct (tk_state old); try done; set_solver.
    + by eapply take_valid.
    + intros e He Hk Hso. pose proof (eg_rows _ (so_edges _ Hs)) as Hrows. rewrite Forall_forall in Hrows. destruct (Hrows _ He) as (Hsd & _).
      unfold relationship_sound in Hsd. rewrite Hk, Hso, Hnew in Hsd. done.
Qed.

Lemma insert_relationship_fresh s i k x y b at_ s' :
  insert_relationship s i k x y b at_ = Ok s' -> same_kind_endpoints k = true ->
  forall e, e ∈ relationships s -> rl_kind e = k -> rl_source e <> x.
Proof.
  unfold insert_relationship, insert_relationship_row. case_match eqn:E; [done|]. intros _ Hk e He Hke Hse.
  apply orb_false_iff in E as [E _]. apply Bool.not_true_iff_false in E. apply E, existsb_exists. exists e. split; [by apply list_elem_of_In|].
  unfold relationship_clash. cbn. rewrite Hke, Hse, Hk, orb_true_r, (bool_decide_eq_true_2 (k = k)), (bool_decide_eq_true_2 (x = x)) by done.
  by rewrite orb_true_r.
Qed.
(** The take named as the source of a new supersession has superseded nothing yet. *)
Lemma write_related_fresh s r related repl e1 rel q at_ s' :
  write_related s r related repl e1 rel q at_ = Ok s' ->
  forall e, e ∈ relationships s -> rl_kind e = TakeSupersedes ->
  match repl with
  | Some _ => rl_source e <> tt_take_id r
  | None => match tt_transition r with Supersede => forall rid, related = Some rid -> rl_source e <> rid | _ => True end
  end.
Proof.
  unfold write_related. intros Hw e He Hk. destruct repl as [[[sid srev] snext]|].
  - apply result_bind_ok in Hw as (s1 & H2 & Hw). apply result_bind_ok in Hw as (s2 & H3 & Hw).
    apply update_take_inv in H2 as (? & _ & _ & _ & _ & ->). apply insert_payload_event_inv in H3 as (? & _ & ->).
    by eapply insert_relationship_fresh in Hw.
  - destruct (tt_transition r); try done. apply result_bind_ok in Hw as (rid & Hr & Hw). apply ok_or_ok in Hr as ->.
    intros rid' [= <-]. by eapply insert_relationship_fresh in Hw.
Qed.
(** The takes after the writes to the related take, and the take that moves next. *)
Lemma write_related_takes s r related repl e1 rel q at_ s' :
  write_related s r related repl e1 rel q at_ = Ok s' -> plan_checked s r related repl -> takes_sound (takes s) -> instant at_ ->
  takes_sound (takes s').
Proof.
  intros Hw Hp Hts Ht. apply write_related_inv in Hw. cbv zeta in Hw. destruct repl as [[[sid srev] snext]|].
  - destruct Hw as (row & p & Hrow & Hrev & Hst & _ & ->). cbn. apply takes_sound_move; try done.
    unfold plan_checked in Hp. destruct (tt_transition r); try done. destruct Hp as (_ & _ & -> & _).
    pose proof (ts_revisions _ Hts _ _ Hrow) as H1r. cbn in H1r. lia.
  - destruct (tt_transition r); try by subst. by destruct Hw as (rid & _ & ->).
Qed.
(** The edge a transition adds, in the store it leaves. *)
Lemma transition_edges_sound c s s1 s3 s' r related repl e1 rel q at_ row target next :
  sound s -> grows c s s' -> takes s1 = takes s -> relationships s1 = relationships s -> plan_checked s1 r related repl ->
  write_related s1 r related repl e1 rel q at_ = Ok s3 -> read_take s1 (tt_take_id r) (tt_work_revision_id r) = Some row ->
  transition (tk_state row) (tt_transition r) = Ok target -> valid rel ->
  takes s' = <[tt_take_id r := moved_take row target next at_]> (takes s3) -> relationships s' = relationships s3 -> edges_sound s'.
Proof.
  intros Hs Hg Ht1 Hr1 Hp Hw Hrow Htr Hrel Ht' Hr'. pose proof (write_related_fresh _ _ _ _ _ _ _ _ _ Hw) as Hfresh.
  apply write_related_inv in Hw. cbv zeta in Hw. apply read_take_Some in Hrow as [Hrow Hwr]. rewrite Hr1 in Hfresh.
  destruct repl as [[[sid srev] snext]|].
  - destruct Hw as (srow & p & Hsrow & _ & Hst & _ & ->). cbn in Ht', Hr'. unfold plan_checked in Hp.
    destruct (tt_transition r); try done. destruct Hp as (_ & _ & _ & _ & row' & (Hs2 & Hne & Hwr' & _)%selected_other_Some & _).
    assert (row' = srow) as -> by congruence. rewrite Ht1, Hr1 in *.
    eapply edges_sound_take_edge; [apply (so_edges _ Hs)|exact Hg|exact Hr'|cbn..]; try done; [|by eapply take_valid].
    unfold relationship_sound. cbn. rewrite Ht', lookup_insert_eq, lookup_insert_ne, lookup_insert_eq by congruence. cbn.
    rewrite !bool_decide_eq_true_2; [done|set_solver|congruence].
  - destruct (tt_transition r) eqn:Etr; try (subst; eapply edges_sound_same; [apply (so_edges _ Hs)|exact Hg|congruence]).
    destruct Hw as (rid & -> & ->). cbn in Ht', Hr'. rewrite Hr1 in Hr'. unfold plan_checked in Hp. rewrite Etr in Hp.
    destruct Hp as (rid' & rrev & rrow & [= <-] & _ & Hne & [Hrr Hrw]%read_take_Some & _). rewrite Ht1 in *.
    eapply edges_sound_take_edge; [apply (so_edges _ Hs)|exact Hg|exact Hr'|cbn..]; try done; [|by eapply take_valid|].
    + unfold relationship_sound. cbn. rewrite Ht', lookup_insert_eq, lookup_insert_ne, Hrr by congruence. cbn.
      rewrite !bool_decide_eq_true_2; [done| |congruence]. destruct (tk_state row); cbn in Htr; simplify_eq; set_solver.
    + intros e He Hk. by apply (Hfresh e He Hk).
Qed.

Lemma related_tables s r related repl e1 rel q at_ s' :
  write_related s r related repl e1 rel q at_ = Ok s' ->
  projects s' = projects s /\ specs s' = specs s /\ subjects s' = subjects s /\ work_items s' = work_items s /\
  work_revisions s' = work_revisions s /\ last_sequence s' = last_sequence s.
Proof.
  intros Hw. apply write_related_inv in Hw. cbv zeta in Hw. destruct repl as [[[sid srev] snext]|].
  - by destruct Hw as (row & p & _ & _ & _ & _ & ->).
  - destruct (tt_transition r); try by subst. by destruct Hw as (rid & _ & ->).
Qed.
Lemma transition_take_sound s ctx r o s' :
  fits (TransitionTake r) -> execute s ctx (TransitionTake r) = Ok (o, s') -> sound s -> sound s'.
Proof.
  intros (Hb & Hv & _) Hc Hs. pose proof (so_sequence _ Hs). eapply (sound_command _ _ _ _ _ Hc Hs). intros Hg. cbn [Store.execute] in Hc.
  apply unless_replayed_inv in Hc as [[_ ->]|[_ Hc]]; [exact Hs|]. unfold write_transition in Hc. crunch Hc; try (unchanged Hs Hg).
  match goal with E : with_values _ _ = Ok _ |- _ => apply with_values_sample3 in E as (Ht & Hv1 & Hv2 & Hv3); [|exact Hv] end.
  match goal with E : transition_plan _ _ = Ok _ |- _ => pose proof (proj1 (transition_plan_go _ _ _ _) E) as Hplan end.
  match goal with E : checked_add _ _ _ = Some _ |- _ => apply checked_add_Some in E as [-> Hmax] end.
  match goal with E : write_related _ _ _ _ _ _ _ _ = Ok ?x |- _ => rename x into s3, E into Hw end.
  match goal with E : read_take _ _ _ = Some ?x |- _ => rename x into row, E into Hrow end.
  match goal with E : takes s3 !! _ = Some ?x |- _ => rename x into row3, E into Hrow3 end.
  pose proof (fun HH => write_related_writes _ _ _ _ _ _ _ _ _ HH Hw) as Hww. destruct (Hww Hplan) as [_ Htake]. clear Hww.
  assert (row3 = row) as ->. { apply read_take_Some in Hrow as [Hrow _]. cbn in Htake, Hrow. congruence. }
  pose proof (write_related_takes _ _ _ _ _ _ _ _ _ Hw Hplan (so_takes _ Hs) Ht) as Hts.
  pose proof (related_tables _ _ _ _ _ _ _ _ _ Hw) as (Ep & Esp & Ej & Ewi & Ewr & El).
  eapply sound_step; [exact Hs|exact Hg|cbn; rewrite ?Ep, ?Esp, ?Ej, ?Ewi, ?Ewr, ?El; cbn..| |].
  - eapply projects_sound_mono; [|apply (so_projects _ Hs)]. case_match; lia.
  - eapply subjects_sound_mono; [|apply (so_subjects _ Hs)]. case_match; lia.
  - eapply work_sound_mono; [|apply (so_work _ Hs)]. case_match; lia.
  - apply takes_sound_move; try done. pose proof (ts_revisions _ Hts _ _ Hrow3) as H1r. cbn in H1r. lia.
  - refine (transition_edges_sound _ s _ _ _ _ _ _ _ _ _ _ _ _ _ Hs Hg _ _ _ Hw _ _ Hv3 _ _); try reflexivity; eassumption.
Qed.

Lemma execute_sound s ctx c o s' : fits c -> execute s ctx c = Ok (o, s') -> sound s -> sound s'.
Proof.
  destruct c; eauto using create_project_sound, revise_project_spec_sound, create_subject_sound, create_work_sound, revise_work_sound,
    create_take_sound, transition_take_sound, reopen_take_sound.
Qed.
Lemma after_sound s ctx c : fits c -> sound s -> sound (after s ctx c).
Proof. intros Hf Hs. unfold Store.after. destruct (execute s ctx c) as [[o s']|] eqn:E; [|done]. by eapply execute_sound. Qed.

(** ** Reachable stores *)

(** Commands on assets share the ledger, the event log and its allocator with the
    creative ones, and register new assets. *)
Definition asset_step (s s' : Store) : Prop :=
  projects s' = projects s /\ specs s' = specs s /\ subjects s' = subjects s /\ work_items s' = work_items s /\
  work_revisions s' = work_revisions s /\ takes s' = takes s /\ relationships s' = relationships s /\
  last_sequence s <= last_sequence s' /\ assets s ⊆ assets s' /\ set_Forall valid (assets s').
Inductive step (s : Store) : Store -> Prop :=
| StepCommand ctx c : fits c -> step s (after s ctx c)
| StepAssets s' : asset_step s s' -> step s s'.
(** A library starts with no creative rows. *)
Definition fresh (s : Store) : Prop :=
  projects s = ∅ /\ specs s = ∅ /\ subjects s = ∅ /\ work_items s = ∅ /\ work_revisions s = ∅ /\ takes s = ∅ /\
  relationships s = [] /\ 0 <= last_sequence s /\ set_Forall valid (assets s).
Definition reachable (s : Store) : Prop := exists s0, fresh s0 /\ rtc step s0 s.

Lemma created_empty {R} (f : R -> Z) q : created f ∅ q.
Proof. split; intros *; rewrite lookup_empty; discriminate. Qed.
Lemma fresh_sound s : fresh s -> sound s.
Proof.
  intros (Hp & Hsp & Hj & Hwi & Hwr & Ht & Hr & Hq & Ha). constructor; try done; rewrite ?Hp, ?Hsp, ?Hj, ?Hwi, ?Hwr, ?Ht.
  all: try (constructor; try apply map_Forall_empty; try apply numbered_empty; try apply created_empty).
  all: rewrite Hr; constructor.
Qed.
Lemma relationship_sound_assets s s' r : asset_step s s' -> relationship_sound s r = true -> relationship_sound s' r = true.
Proof.
  intros (_ & _ & Hj & _ & Hwr & Ht & _ & _ & Ha & _). unfold relationship_sound. rewrite Hj, Hwr, Ht. destruct (rl_kind r); try done.
  rewrite !andb_true_iff, !bool_decide_eq_true. set_solver.
Qed.
Lemma asset_step_sound s s' : asset_step s s' -> sound s -> sound s'.
Proof.
  intros Hst Hs. pose proof Hst as (Hp & Hsp & Hj & Hwi & Hwr & Ht & Hr & Hq & _ & Hv). pose proof (so_sequence _ Hs).
  constructor; rewrite ?Hp, ?Hsp, ?Hj, ?Hwi, ?Hwr, ?Ht; try done; try lia.
  - eapply projects_sound_mono; [exact Hq|apply (so_projects _ Hs)].
  - eapply subjects_sound_mono; [exact Hq|apply (so_subjects _ Hs)].
  - eapply work_sound_mono; [exact Hq|apply (so_work _ Hs)].
  - apply (so_takes _ Hs).
  - destruct (so_edges _ Hs) as [He Hg Hu]. constructor; rewrite Hr; try done.
    + eapply Forall_impl; [exact He|]. intros r (? & ? & ?). split_and!; try done. by eapply relationship_sound_assets.
    + eapply Forall_impl; [exact Hg|]. intros r. rewrite !group_size. cbv zeta. by rewrite Hr.
Qed.
Lemma step_sound s s' : step s s' -> sound s -> sound s'.
Proof. intros [ctx c Hf|s'' Ha] Hs; [by apply after_sound|by eapply asset_step_sound]. Qed.
Lemma reachable_sound s : reachable s -> sound s.
Proof.
  intros (s0 & Hf & Hr). apply fresh_sound in Hf. induction Hr as [|a b d Hab _ IH]; [done|]. apply IH. by eapply step_sound.
Qed.
Lemma reachable_after s ctx c : fits c -> reachable s -> reachable (after s ctx c).
Proof. intros Hf (s0 & Hi & Hr). exists s0. split; [done|]. eapply rtc_r; [exact Hr|]. by constructor. Qed.

(** C21: Every store that creative commands, with asset registrations between them, make
    from an empty library passes the check that opening the library runs on its creative
    tables: every row decodes, every digest and every policy document is recomputed to
    the same bytes, revisions and take ordinals have no gap, and every relationship
    names rows that exist, in the states and within the bounds its kind allows. *)
Theorem reachable_store_is_verified s : reachable s -> verify_persisted_creative_state s = Ok tt.
Proof. intros Hr. by apply sound_verified, reachable_sound. Qed.
End commands.

Module Example.
Import Scenario.
#[local] Existing Instance env.
#[local] Existing Instance JsonFacts.Example.serde.
Lemma values_of_fit ids : values_fit (values ids).
Proof.
  split; [|by intros at_ [= <-]]. cbn. apply Forall_fmap, Forall_forall. done.
Qed.
Lemma json_parsed : parse_work_specification (bs "{}") = Ok json.
Proof. vm_compute. reflexivity. Qed.
Lemma commands_fit : Forall fits [create_p; create_w; create_t 30 31 32; create_t 33 34 35; transition_t 36 31 1 Creative.Select None [37; 38; 39];
  transition_t 40 34 1 Creative.Select (Some (Scenario.id 31, 2)) [41; 42; 43]].
Proof.
  repeat constructor; try apply values_of_fit; try by intros ? [=].
  - exists (bs "{}"), (bs "{}"), (bs "{}"), (bs "{}"). vm_compute. reflexivity.
  - exists (bs "{}"), json, [], [Scenario.id 50]. by split; vm_compute.
Qed.
Lemma scenario_reachable s cs : reachable no_asset_replay s -> Forall fits cs -> reachable no_asset_replay (run_ s cs).
Proof.
  intros Hr Hf. revert s Hr. induction Hf as [|c cs Hc _ IH]; intros s Hr; [done|]. apply IH. by apply reachable_after.
Qed.
Lemma empty_fresh : fresh Scenario.empty.
Proof.
  split_and!; try done. intros i Hi. apply elem_of_union in Hi as [Hi|Hi]; apply elem_of_singleton in Hi as ->; by vm_compute.
Qed.
Lemma replaced_reachable : reachable no_asset_replay with_replaced.
Proof. apply (scenario_reachable Scenario.empty _ (ex_intro _ Scenario.empty (conj empty_fresh (rtc_refl _ _))) commands_fit). Qed.
End Example.

Lemma reachable_store_is_verified_witness :
  @verify_persisted_creative_state Scenario.env JsonFacts.Example.serde Scenario.with_replaced = Ok tt.
Proof.
  pose proof (@reachable_store_is_verified Scenario.env JsonFacts.Example.serde JsonFacts.Example.serde_laws Scenario.env_laws
    Scenario.no_asset_replay Scenario.with_replaced Example.replaced_reachable) as Ht.
  exact Ht.
Defined.
End Verified.
