(* ===== verification/CreativeService.v ===== *)
(** The creative services of mengxia-app/src/creative.rs: the canonical bytes a request is
    bound to, the ten command operations, the opaque cursors of the lists and the query
    service.  The constructors of the commands are those of mengxia-ports.  The store is
    the unit of work behind the ports; identifiers, the clock and the control are values
    the operations are called with. *)
From Stdlib Require Import ZArith Lia String.
From Stdlib Require Import Strings.Byte Init.Byte.
From stdpp Require Import prelude list gmap.
From S2P Require Import Prelude RustText Ord Types AssetDomain CreativeDomain Ports CommandLedger CreativeStore AssetStore AssetCommands StartupRecovery AssetCursors CreativeJson CreativeQuery.

Set Warnings "-clear-no-such-hyp".

Module CreativeService.
Import Ports Ledger Creative Startup.
Import Store (Values, CreativeCommand).
Abbreviation res := (result AssetStoreError).
Abbreviation Id := Ports.Id.
Abbreviation Store := Store.Store.

Section service.
Context `{StoreEnv}.

(** ** [SystemPureCommandValues] *)

Definition next_uuid_v7 (drawn : option Id) : res Id := ok_or SeIdGenerationUnavailable drawn.
Definition now (since_epoch : option (Z * Z)) : res Timestamp :=
  let? (seconds, nanos) := ok_or SeIdGenerationUnavailable since_epoch in
  let? seconds := ok_or SeIdGenerationUnavailable (try_into I64_MAX seconds) in
  if timestamp_valid seconds nanos then Ok (seconds, nanos) else Err SeIdGenerationUnavailable.
Definition checkpoint (d : IngestDirective) : res () :=
  match d with
  | Continue => Ok tt
  | Stop Cancelled => Err SeOperationCancelled
  | Stop DeadlineReached => Err SeDeadlineExceeded
  end.
(** What the machine offers while one command runs: identities, the clock, the control. *)
Record Machine := { m_ids : list (option Id); m_clock : option (Z * Z); m_control : IngestDirective }.
Definition values (m : Machine) : Values :=
  {| Store.v_ids := map next_uuid_v7 (m_ids m); Store.v_now := now (m_clock m); Store.v_checkpoint := checkpoint (m_control m) |}.

(** ** Canonical request bytes *)

Definition task009_field (index : Z) (value : list byte) : list byte := [z2b index] ++ be_bytes 4 (blen value) ++ value.
Fixpoint task009_fields (index : Z) (fields : list (list byte)) : list byte :=
  match fields with [] => [] | value :: rest => task009_field index value ++ task009_fields (index + 1) rest end.
Definition task009_preimage (operation : OperationId) (fields : list (list byte)) : list byte :=
  bs "MENGXIA_TASK009_REQUEST_V1" ++ [x00] ++ be_bytes 2 (blen operation) ++ operation ++ task009_fields 1 fields.
Definition task009_digest (operation : OperationId) (fields : list (list byte)) : list byte := sha256 (task009_preimage operation fields).

Definition optional_pair (value : option (Z * Z)) : list byte :=
  match value with None => [x00] | Some (a, b) => [x01] ++ be_bytes 4 a ++ be_bytes 4 b end.
Definition resolution_pair (r : Resolution) : Z * Z := (width r, height r).
Definition ratio_pair (r : PositiveRatio) : Z * Z := (numerator r, denominator r).
Definition project_spec_fields (sp : ProjectSpecification) : list (list byte) :=
  [ optional_pair (option_map resolution_pair (ps_resolution sp));
    optional_pair (option_map ratio_pair (ps_frame_rate sp));
    optional_pair (option_map ratio_pair (ps_aspect_ratio sp));
    json_digest (ps_color_policy sp); json_digest (ps_audio_policy sp);
    json_digest (ps_quality_policy sp); json_digest (ps_privacy_policy sp) ].
Definition id_set (ids : list Id) : list byte := be_bytes 4 (blen ids) ++ concat ids.
Definition ordered_ids (items : list Id) : list byte := be_bytes 4 (blen items) ++ concat items.
Definition member_bytes (m : Assets.MemberInput) : list byte :=
  be_bytes 2 (blen (Assets.mi_logical_name m)) ++ Assets.mi_logical_name m ++ Assets.mi_blob_digest m.
Definition resource_bytes (r : Assets.ResourceInput) : list byte :=
  be_bytes 2 (blen (Assets.ri_kind r)) ++ Assets.ri_kind r ++ be_bytes 4 (blen (Assets.ri_members r))
  ++ concat (map member_bytes (Assets.ri_members r)).
Definition representation_bytes (p : Assets.RepresentationInput) : list byte :=
  be_bytes 2 (blen (Assets.pi_purpose p)) ++ Assets.pi_purpose p ++ be_bytes 4 (blen (Assets.pi_resources p))
  ++ concat (map resource_bytes (Assets.pi_resources p)).
Definition revision_graph_bytes (items : list Assets.RepresentationInput) : list byte :=
  be_bytes 4 (blen items) ++ concat (map representation_bytes items).

Definition binding_new (command_id : Id) (operation : OperationId) (fields : list (list byte)) : CommandBinding :=
  {| cb_command_id := command_id; cb_operation_id := operation; cb_canonical_request_digest := task009_digest operation fields |}.

(** ** Command constructors (mengxia-ports) *)

Definition create_project_command_new (b : CommandBinding) name sp v : res CreativeCommand :=
  let? _ := require_operation b PROJECT_CREATE_V1 in
  Ok (Store.CreateProject {| Store.cp_binding := b; Store.cp_name := name; Store.cp_specification := sp; Store.cp_values := v |}).
Definition revise_project_spec_command_new (b : CommandBinding) (project_id : Id) expected sp v : res CreativeCommand :=
  let? _ := require_operation b PROJECT_SPEC_REVISE_V1 in
  if negb (id_valid project_id) then Err SeValidation
  else Ok (Store.ReviseProjectSpec {| Store.rp_binding := b; Store.rp_project_id := project_id; Store.rp_expected_revision := expected;
             Store.rp_specification := sp; Store.rp_values := v |}).
Definition create_subject_command_new (b : CommandBinding) kind name v : res CreativeCommand :=
  let? _ := require_operation b SUBJECT_CREATE_V1 in
  Ok (Store.CreateSubject {| Store.cs_binding := b; Store.cs_kind := kind; Store.cs_name := name; Store.cs_values := v |}).
Definition create_work_command_new (b : CommandBinding) project_id kind code sp v : res CreativeCommand :=
  let? _ := require_operation b WORK_CREATE_V1 in
  Ok (Store.CreateWork {| Store.cw_binding := b; Store.cw_project_id := project_id; Store.cw_kind := kind; Store.cw_code := code;
        Store.cw_specification := sp; Store.cw_values := v |}).
Definition revise_work_command_new (b : CommandBinding) project_id work_item_id expected sp v : res CreativeCommand :=
  let? _ := require_operation b WORK_REVISE_V1 in
  Ok (Store.ReviseWork {| Store.rw_binding := b; Store.rw_project_id := project_id; Store.rw_work_item_id := work_item_id;
        Store.rw_expected_revision := expected; Store.rw_specification := sp; Store.rw_values := v |}).
Definition create_take_command_new (b : CommandBinding) project_id work_item_id work_revision_id asset_id v : res CreativeCommand :=
  let? _ := require_operation b TAKE_CREATE_V1 in
  Ok (Store.CreateTake {| Store.ct_binding := b; Store.ct_project_id := project_id; Store.ct_work_item_id := work_item_id;
        Store.ct_work_revision_id := work_revision_id; Store.ct_primary_asset_id := asset_id; Store.ct_values := v |}).
Definition transition_take_command_new (b : CommandBinding) project_id work_item_id work_revision_id take_id expected transition
    (reason : option (list byte)) (related : option (Id * Z)) v : res CreativeCommand :=
  let? _ := require_operation b TAKE_TRANSITION_V1 in
  if negb (transition_shape_valid transition (bool_decide (is_Some reason)) (bool_decide (is_Some related))) then Err SeValidation
  else Ok (Store.TransitionTake {| Store.tt_binding := b; Store.tt_project_id := project_id; Store.tt_work_item_id := work_item_id;
             Store.tt_work_revision_id := work_revision_id; Store.tt_take_id := take_id; Store.tt_expected_revision := expected;
             Store.tt_transition := transition; Store.tt_reason := reason; Store.tt_related_take := related; Store.tt_values := v |}).
Definition reopen_take_command_new (b : CommandBinding) project_id work_item_id work_revision_id terminal_take_id expected asset_id v
  : res CreativeCommand :=
  let? _ := require_operation b TAKE_REOPEN_V1 in
  Ok (Store.ReopenTake {| Store.rt_binding := b; Store.rt_project_id := project_id; Store.rt_work_item_id := work_item_id;
        Store.rt_work_revision_id := work_revision_id; Store.rt_terminal_take_id := terminal_take_id;
        Store.rt_expected_terminal_revision := expected; Store.rt_new_primary_asset_id := asset_id; Store.rt_values := v |}).
Definition deferred_asset_lifecycle_command_new (b : CommandBinding) (asset_id : Id) (expected : Z) (target : AssetModel.AssetLifecycle)
    (v : Values) : res Assets.DeferredAssetLifecycleCommand :=
  if negb (Assets.lifecycle_operation_matches (cb_operation_id b) target) then Err SeValidation
  else Ok {| Assets.dl_binding := b; Assets.dl_asset_id := asset_id; Assets.dl_expected_revision := expected;
             Assets.dl_target := target; Assets.dl_values := v |}.

(** ** [AssetMetadataCommandService] *)

Definition create_revision_fields (asset_id : Id) (expected : Z) (parents : list Id) (content_kind : list byte)
    (representations : list Assets.RepresentationInput) : list (list byte) :=
  [asset_id; be_bytes 8 expected; ordered_ids parents; content_kind; revision_graph_bytes representations].
Definition create_revision (l : Assets.Library) (context : StoreContext) (command_id asset_id : Id) (expected : Z) (parents : list Id)
    (content_kind : list byte) (representations : list Assets.RepresentationInput) (m : Machine) :=
  let fields := create_revision_fields asset_id expected parents content_kind representations in
  let binding := binding_new command_id ASSET_REVISION_CREATE_V1 fields in
  let? command := Assets.deferred_create_asset_revision_new binding asset_id expected parents content_kind representations (values m) in
  AssetOps.create_revision_deferred l context command.
Definition lifecycle_operation (target : AssetModel.AssetLifecycle) : OperationId :=
  match target with AssetModel.Retired => ASSET_RETIRE_V1 | AssetModel.Active => ASSET_RESTORE_V1 end.
Definition change_lifecycle_fields (asset_id : Id) (expected : Z) : list (list byte) := [asset_id; be_bytes 8 expected].
Definition change_lifecycle (l : Assets.Library) (context : StoreContext) (command_id asset_id : Id) (expected : Z)
    (target : AssetModel.AssetLifecycle) (m : Machine) :=
  let operation := lifecycle_operation target in
  let binding := binding_new command_id operation (change_lifecycle_fields asset_id expected) in
  let? command := deferred_asset_lifecycle_command_new binding asset_id expected target (values m) in
  AssetOps.change_asset_lifecycle_deferred l context command.

(** ** [CreativeCommandService] *)

Definition create_project_fields (name : list byte) (sp : ProjectSpecification) : list (list byte) := name :: project_spec_fields sp.
Definition revise_project_spec_fields (project_id : Id) (expected : Z) (sp : ProjectSpecification) : list (list byte) :=
  [project_id; be_bytes 8 expected] ++ project_spec_fields sp.
Definition create_subject_fields (kind name : list byte) : list (list byte) := [kind; name].
Definition create_work_fields (project_id : Id) (kind : WorkKind) (code : list byte) (sp : WorkSpecification) : list (list byte) :=
  [project_id; [z2b (work_kind_code kind)]; code; json_digest (ws_json sp); id_set (ws_subject_ids sp); id_set (ws_asset_ids sp)].
Definition revise_work_fields (project_id work_item_id : Id) (expected : Z) (sp : WorkSpecification) : list (list byte) :=
  [project_id; work_item_id; be_bytes 8 expected; json_digest (ws_json sp); id_set (ws_subject_ids sp); id_set (ws_asset_ids sp)].
Definition create_take_fields (project_id work_item_id work_revision_id asset_id : Id) : list (list byte) :=
  [project_id; work_item_id; work_revision_id; asset_id].
Definition optional_reason (reason : option (list byte)) : list byte := match reason with None => [x00] | Some text => [x01] ++ text end.
Definition optional_related (related : option (Id * Z)) : list byte :=
  match related with None => [x00] | Some (i, revision) => [x01] ++ i ++ be_bytes 8 revision end.
Definition transition_take_fields (project_id work_item_id work_revision_id take_id : Id) (expected : Z) (transition : TakeTransition)
    (reason : option (list byte)) (related : option (Id * Z)) : list (list byte) :=
  [project_id; work_item_id; work_revision_id; take_id; be_bytes 8 expected; [z2b (take_transition_code transition)];
   optional_reason reason; optional_related related].
Definition reopen_take_fields (project_id work_item_id work_revision_id terminal_take_id : Id) (expected : Z) (asset_id : Id)
  : list (list byte) :=
  [project_id; work_item_id; work_revision_id; terminal_take_id; be_bytes 8 expected; asset_id].

Section commands.
(** The unit of work behind the port; results of asset commands are replayed by it too. *)
Context (replay_asset_result : Store -> CommandRow -> res Store.CommandResult).
Local Abbreviation outcome := (res (Store.MutationOutcome * Store)).
Definition execute (s : Store) (context : StoreContext) (command : res CreativeCommand) : outcome :=
  let? command := command in Store.execute replay_asset_result s context command.

Definition create_project (s : Store) (context : StoreContext) (command_id : Id) name sp (m : Machine) : outcome :=
  execute s context (create_project_command_new (binding_new command_id PROJECT_CREATE_V1 (create_project_fields name sp)) name sp (values m)).
Definition revise_project_spec (s : Store) (context : StoreContext) (command_id project_id : Id) expected sp (m : Machine) : outcome :=
  execute s context (revise_project_spec_command_new
    (binding_new command_id PROJECT_SPEC_REVISE_V1 (revise_project_spec_fields project_id expected sp)) project_id expected sp (values m)).
Definition create_subject (s : Store) (context : StoreContext) (command_id : Id) kind name (m : Machine) : outcome :=
  execute s context (create_subject_command_new (binding_new command_id SUBJECT_CREATE_V1 (create_subject_fields kind name)) kind name (values m)).
Definition create_work (s : Store) (context : StoreContext) (command_id project_id : Id) kind code sp (m : Machine) : outcome :=
  execute s context (create_work_command_new
    (binding_new command_id WORK_CREATE_V1 (create_work_fields project_id kind code sp)) project_id kind code sp (values m)).
Definition revise_work (s : Store) (context : StoreContext) (command_id project_id work_item_id : Id) expected sp (m : Machine) : outcome :=
  execute s context (revise_work_command_new
    (binding_new command_id WORK_REVISE_V1 (revise_work_fields project_id work_item_id expected sp)) project_id work_item_id expected sp (values m)).
Definition create_take (s : Store) (context : StoreContext) (command_id project_id work_item_id work_revision_id asset_id : Id) (m : Machine)
  : outcome :=
  execute s context (create_take_command_new
    (binding_new command_id TAKE_CREATE_V1 (create_take_fields project_id work_item_id work_revision_id asset_id))
    project_id work_item_id work_revision_id asset_id (values m)).
Definition transition_take (s : Store) (context : StoreContext) (command_id project_id work_item_id work_revision_id take_id : Id) expected
    transition reason related (m : Machine) : outcome :=
  execute s context (transition_take_command_new
    (binding_new command_id TAKE_TRANSITION_V1
       (transition_take_fields project_id work_item_id work_revision_id take_id expected transition reason related))
    project_id work_item_id work_revision_id take_id expected transition reason related (values m)).
Definition reopen_take (s : Store) (context : StoreContext) (command_id project_id work_item_id work_revision_id terminal_take_id : Id) expected
    asset_id (m : Machine) : outcome :=
  execute s context (reopen_take_command_new
    (binding_new command_id TAKE_REOPEN_V1 (reopen_take_fields project_id work_item_id work_revision_id terminal_take_id expected asset_id))
    project_id work_item_id work_revision_id terminal_take_id expected asset_id (values m)).
End commands.

(** ** Cursors *)

Definition PROJECT_LIST_V1 : OperationId := bs "project.list.v1".
Definition SUBJECT_LIST_V1 : OperationId := bs "subject.list.v1".
Definition WORK_LIST_V1 : OperationId := bs "work.list.v1".
Definition TAKE_LIST_V1 : OperationId := bs "take.list.v1".
Definition CREATIVE_CURSOR_LENGTH : Z := 160.
Definition CREATIVE_CURSOR_PREFIX_LENGTH : nat := 128.
Inductive CreativeCursorKind := Projects | Subjects | Work (project_id : Id) | Takes (work_revision_id : Id).
Definition magic (kind : CreativeCursorKind) : list byte :=
  match kind with
  | Projects => bs "MX9_PROJECTS_V1" ++ [x00]
  | Subjects => bs "MX9_SUBJECTS_V1" ++ [x00]
  | Work _ => bs "MX9_WORKLIST_V1" ++ [x00]
  | Takes _ => bs "MX9_TAKELIST_V1" ++ [x00]
  end.
Definition operation (kind : CreativeCursorKind) : OperationId :=
  match kind with Projects => PROJECT_LIST_V1 | Subjects => SUBJECT_LIST_V1 | Work _ => WORK_LIST_V1 | Takes _ => TAKE_LIST_V1 end.
Definition scope (kind : CreativeCursorKind) : byte * list byte :=
  match kind with Projects | Subjects => (x00, repeat x00 16) | Work i => (x01, i) | Takes i => (x02, i) end.
Definition creative_filter_digest (kind : CreativeCursorKind) : list byte :=
  sha256 (bs "MENGXIA_" ++ operation kind ++ bs "_FILTER_V1" ++ [x00] ++ [(scope kind).1] ++ (scope kind).2).
(** The first 128 bytes, in the order of their offsets; reserved bytes are zero. *)
Definition cursor_prefix (library_id : Id) (snapshot_endpoint last_key : Z) (kind : CreativeCursorKind) : list byte :=
  magic kind ++ be_bytes 2 1 ++ be_bytes 2 CREATIVE_CURSOR_LENGTH ++ repeat x00 4 ++ library_id ++ [(scope kind).1] ++ repeat x00 7
  ++ (scope kind).2 ++ be_bytes 8 snapshot_endpoint ++ be_bytes 8 last_key ++ creative_filter_digest kind ++ repeat x00 16.
Definition encode_creative_cursor (position : CreativeQuery.CreativeListPosition) (library_id : Id) (kind : CreativeCursorKind)
  : res (list byte) :=
  match position with
  | CreativeQuery.First => Err SeInternal
  | CreativeQuery.After stored snapshot_endpoint last_key =>
      if negb (bool_decide (stored = library_id)) then Err SeInternal
      else let prefix := cursor_prefix library_id snapshot_endpoint last_key kind in Ok (prefix ++ sha256 prefix)
  end.
Definition decode_creative_cursor (bytes : list byte) (library_id : Id) (kind : CreativeCursorKind) : res CreativeQuery.CreativeListPosition :=
  if negb (blen bytes =? CREATIVE_CURSOR_LENGTH) then Err SeValidation
  else if negb (bool_decide (Cursors.range bytes 0 16 = magic kind)) || negb (Cursors.be_at bytes 16 18 =? 1)
     || negb (Cursors.be_at bytes 18 20 =? CREATIVE_CURSOR_LENGTH) || negb (Cursors.zeros (Cursors.range bytes 20 24))
     || negb (bool_decide (Cursors.range bytes 24 40 = library_id)) || negb (bool_decide (Cursors.range bytes 40 41 = [(scope kind).1]))
     || negb (Cursors.zeros (Cursors.range bytes 41 48)) || negb (bool_decide (Cursors.range bytes 48 64 = (scope kind).2))
     || negb (bool_decide (Cursors.range bytes 80 112 = creative_filter_digest kind)) || negb (Cursors.zeros (Cursors.range bytes 112 128))
     || negb (bool_decide (sha256 (Cursors.range bytes 0 CREATIVE_CURSOR_PREFIX_LENGTH) = drop CREATIVE_CURSOR_PREFIX_LENGTH bytes))
  then Err SeValidation
  else CreativeQuery.position_after library_id (Cursors.be_at bytes 64 72) (Cursors.be_at bytes 72 80).
End service.

(** ** [CreativeQueryService] *)

Section queries.
Context `{StoreEnv} `{Json.SerdeJson}.

Definition query_service_new (library_id : Id) : res Id :=
  if bool_decide (library_id = repeat x00 16) then Err SeValidation else Ok library_id.
Definition position (library_id : Id) (cursor : option (list byte)) (kind : CreativeCursorKind) : res CreativeQuery.CreativeListPosition :=
  match cursor with None | Some [] => Ok CreativeQuery.First | Some cursor => decode_creative_cursor cursor library_id kind end.
Definition response {T} (library_id : Id) (page : CreativeQuery.CreativePage T) (kind : CreativeCursorKind)
  : res (CreativeQuery.CreativePage T * option (list byte)) :=
  match CreativeQuery.cp_next page with
  | None => Ok (page, None)
  | Some next => let? c := encode_creative_cursor next library_id kind in Ok (page, Some c)
  end.
(** One list through the port, which reads the store of the moment under the control. *)
Definition listed {T} (library_id : Id) (page_size : Z) (cursor : option (list byte)) (kind : CreativeCursorKind) (control : Control)
    (interrupted : bool) (port : CreativeQuery.CreativeListQuery -> res (CreativeQuery.CreativePage T))
  : res (CreativeQuery.CreativePage T * option (list byte)) :=
  let? p := position library_id cursor kind in
  let? request := CreativeQuery.creative_list_query_new page_size p in
  let? page := AssetQuery.AssetQuery.with_controlled_read_interrupt control 0 interrupted (port request) in
  response library_id page kind.
Definition list_projects (s : Store) (library_id : Id) page_size cursor control interrupted :=
  listed library_id page_size cursor Projects control interrupted (CreativeQuery.list_projects s library_id).
Definition list_subjects (s : Store) (library_id : Id) page_size cursor control interrupted :=
  listed library_id page_size cursor Subjects control interrupted (CreativeQuery.list_subjects s library_id).
Definition list_work (s : Store) (library_id project_id : Id) page_size cursor control interrupted :=
  listed library_id page_size cursor (Work project_id) control interrupted (CreativeQuery.list_work s library_id project_id).
Definition list_takes (s : Store) (library_id project_id work_item_id work_revision_id : Id) page_size cursor control interrupted :=
  listed library_id page_size cursor (Takes work_revision_id) control interrupted
    (CreativeQuery.list_takes s library_id project_id work_item_id work_revision_id).
End queries.
End CreativeService.
