(* ===== verification/CreativeRequests.v ===== *)
(** What a command identity is bound to: the canonical bytes of a request determine the
    request, so a resubmission through the service is answered from the ledger exactly
    when it is the same request. *)
From Stdlib Require Import ZArith Lia String.
From Stdlib Require Import Strings.Byte Init.Byte.
From stdpp Require Import prelude list gmap.
From S2P Require Import Prelude RustText Ord Types AssetDomain CreativeDomain Ports CommandLedger CreativeStore StoreScenario StoreFrame StoreSteps CreativeReplay AssetStore AssetCommands StartupRecovery CreativeJson CreativeService.

Set Warnings "-clear-no-such-hyp".

Module Requests.
Import Ports Ledger Creative CreativeService.
Abbreviation Id := Ports.Id.
Abbreviation Store := Store.Store.

(** ** Reading concatenations *)

(** The encodings of a type after which the rest of the bytes can be told. *)
Definition prefix_free {A} (enc : A -> list byte) (ok : A -> Prop) : Prop :=
  forall x y a b, ok x -> ok y -> enc x ++ a = enc y ++ b -> x = y /\ a = b.

Lemma app_eq_length {A} (x y a b : list A) : length x = length y -> x ++ a = y ++ b -> x = y /\ a = b.
Proof. intros. by apply app_inj_1. Qed.
Lemma be_bytes_prefix_free n : prefix_free (be_bytes n) (fun z => 0 <= z < 256 ^ Z.of_nat n).
Proof.
  intros x y a b Hx Hy He. apply app_eq_length in He as [He ->]; [|by rewrite !be_bytes_length]. split; [|done].
  rewrite <- (be_value_bytes n x), <- (be_value_bytes n y) by done. by f_equal.
Qed.
Lemma be_bytes_inj n x y : 0 <= x < 256 ^ Z.of_nat n -> 0 <= y < 256 ^ Z.of_nat n -> be_bytes n x = be_bytes n y -> x = y.
Proof. intros Hx Hy He. apply (be_bytes_prefix_free n x y [] []); try done. by f_equal. Qed.
(** A length in [n] bytes and that many bytes. *)
Lemma counted_prefix_free n :
  prefix_free (fun v => be_bytes n (blen v) ++ v) (fun v : list byte => blen v < 256 ^ Z.of_nat n).
Proof.
  intros x y a b Hx Hy He. rewrite <- !(assoc_L (++)) in He. apply be_bytes_prefix_free in He as [Hl He]; [|split; [apply Zle_0_nat|done]..].
  apply app_eq_length in He; [done|]. unfold blen in Hl. lia.
Qed.
Lemma fixed_prefix_free n : prefix_free (fun v => v) (fun v : list byte => length v = n).
Proof. intros x y a b Hx Hy He. apply app_eq_length in He; [done|congruence]. Qed.
(** The same number of encodings. *)
Lemma concat_prefix_free {A} (enc : A -> list byte) ok x y a b :
  prefix_free enc ok -> Forall ok x -> Forall ok y -> length x = length y ->
  concat (map enc x) ++ a = concat (map enc y) ++ b -> x = y /\ a = b.
Proof.
  intros Hp Hx. revert y. induction Hx as [|v x Hv _ IH]; intros [|w y] Hy Hl He; try done. apply Forall_cons in Hy as [Hw Hy].
  cbn in He. rewrite <- !(assoc_L (++)) in He. apply Hp in He as [-> He]; [|done..]. apply IH in He as [-> ->]; [done..|cbn in Hl; lia].
Qed.
Lemma counted_list_prefix_free {A} (enc : A -> list byte) ok n :
  prefix_free enc ok ->
  prefix_free (fun x => be_bytes n (blen x) ++ concat (map enc x)) (fun x => Forall ok x /\ blen x < 256 ^ Z.of_nat n).
Proof.
  intros Hp x y a b [Hx Hlx] [Hy Hly] He. rewrite <- !(assoc_L (++)) in He. apply be_bytes_prefix_free in He as [Hl He]; [|split; [apply Zle_0_nat|done]..].
  eapply concat_prefix_free; [exact Hp|done..| |exact He]. unfold blen in Hl. lia.
Qed.
Lemma prefix_free_inj {A} (enc : A -> list byte) ok x y : prefix_free enc ok -> ok x -> ok y -> enc x = enc y -> x = y.
Proof. intros Hp Hx Hy He. apply (Hp x y [] []); try done. by rewrite He. Qed.

(** ** The bytes of a request *)

Section requests.
Context `{StoreEnv}.

Definition field_ok (v : list byte) : Prop := blen v <= U32_MAX.
Lemma field_prefix_free i : prefix_free (task009_field i) field_ok.
Proof.
  intros x y a b Hx Hy He. unfold task009_field in He. rewrite <- !(assoc_L (++) [_]) in He. apply app_inv_head in He. apply (counted_prefix_free 4) in He; [done| |].
  all: unfold field_ok, U32_MAX in *; cbn; lia.
Qed.
Lemma fields_inj x y i : Forall field_ok x -> Forall field_ok y -> task009_fields i x = task009_fields i y -> x = y.
Proof.
  intros Hx. revert y i. induction Hx as [|v x Hv _ IH]; intros [|w y] i Hy He; cbn [task009_fields] in He; try done.
  apply Forall_cons in Hy as [Hw Hy]. apply field_prefix_free in He as [-> He]; [|done..]. f_equal. by eapply IH.
Qed.
Lemma preimage_inj o o' x y :
  blen o < 65536 -> blen o' < 65536 -> Forall field_ok x -> Forall field_ok y -> task009_preimage o x = task009_preimage o' y -> o = o' /\ x = y.
Proof.
  intros Ho Ho' Hx Hy He. unfold task009_preimage in He. do 2 apply app_inv_head in He. rewrite !(assoc_L (++) (be_bytes 2 _)) in He.
  apply (counted_prefix_free 2) in He as [-> He]; [|done..]. split; [done|]. by eapply fields_inj.
Qed.

(** ** Requests *)

(** The arguments of the ten operations, without the identity of the command. *)
Inductive CreativeRequest :=
| RqCreateProject (name : list byte) (sp : ProjectSpecification)
| RqReviseProjectSpec (project_id : Id) (expected : Z) (sp : ProjectSpecification)
| RqCreateSubject (kind name : list byte)
| RqCreateWork (project_id : Id) (kind : WorkKind) (code : list byte) (sp : WorkSpecification)
| RqReviseWork (project_id work_item_id : Id) (expected : Z) (sp : WorkSpecification)
| RqCreateTake (project_id work_item_id work_revision_id asset_id : Id)
| RqTransitionTake (project_id work_item_id work_revision_id take_id : Id) (expected : Z) (transition : TakeTransition)
    (reason : option (list byte)) (related : option (Id * Z))
| RqReopenTake (project_id work_item_id work_revision_id terminal_take_id : Id) (expected : Z) (asset_id : Id).
Inductive Request :=
| RqCreative (r : CreativeRequest)
| RqCreateRevision (asset_id : Id) (expected : Z) (parents : list Id) (content_kind : list byte)
    (representations : list Assets.RepresentationInput)
| RqChangeLifecycle (asset_id : Id) (expected : Z) (target : AssetModel.AssetLifecycle).

Definition creative_fields (r : CreativeRequest) : OperationId * list (list byte) :=
  match r with
  | RqCreateProject name sp => (PROJECT_CREATE_V1, create_project_fields name sp)
  | RqReviseProjectSpec p e sp => (PROJECT_SPEC_REVISE_V1, revise_project_spec_fields p e sp)
  | RqCreateSubject kind name => (SUBJECT_CREATE_V1, create_subject_fields kind name)
  | RqCreateWork p k code sp => (WORK_CREATE_V1, create_work_fields p k code sp)
  | RqReviseWork p w e sp => (WORK_REVISE_V1, revise_work_fields p w e sp)
  | RqCreateTake p w wr a => (TAKE_CREATE_V1, create_take_fields p w wr a)
  | RqTransitionTake p w wr t e tr reason related => (TAKE_TRANSITION_V1, transition_take_fields p w wr t e tr reason related)
  | RqReopenTake p w wr t e a => (TAKE_REOPEN_V1, reopen_take_fields p w wr t e a)
  end.
Definition request_fields (r : Request) : OperationId * list (list byte) :=
  match r with
  | RqCreative r => creative_fields r
  | RqCreateRevision a e ps k reps => (ASSET_REVISION_CREATE_V1, create_revision_fields a e ps k reps)
  | RqChangeLifecycle a e target => (lifecycle_operation target, change_lifecycle_fields a e)
  end.
Definition preimage (r : Request) : list byte := task009_preimage (request_fields r).1 (request_fields r).2.

(** The documents of a request, which enter its bytes by their digests. *)
Definition spec_documents (sp : ProjectSpecification) : list (list byte) :=
  map json_bytes [ps_color_policy sp; ps_audio_policy sp; ps_quality_policy sp; ps_privacy_policy sp].
Definition creative_documents (r : CreativeRequest) : list (list byte) :=
  match r with
  | RqCreateProject _ sp | RqReviseProjectSpec _ _ sp => spec_documents sp
  | RqCreateWork _ _ _ sp | RqReviseWork _ _ _ sp => [json_bytes (ws_json sp)]
  | _ => []
  end.
Definition documents (r : Request) : list (list byte) := match r with RqCreative r => creative_documents r | _ => [] end.

(** What the types of the arguments guarantee: widths, lengths and digests that are those
    of their documents.  A request arrives in one frame, so its graph is short. *)
Definition is_id (i : Id) : Prop := length i = 16%nat.
Definition text_ok (t : list byte) : Prop := blen t < 65536.
Definition json_ok (j : CanonicalJson) : Prop := json_digest j = sha256 (json_bytes j).
Definition pair_ok (p : option (Z * Z)) : Prop := from_option (fun p => is_u32 p.1 /\ is_u32 p.2) True p.
Definition spec_ok (sp : ProjectSpecification) : Prop :=
  pair_ok (option_map resolution_pair (ps_resolution sp)) /\ pair_ok (option_map ratio_pair (ps_frame_rate sp)) /\
  pair_ok (option_map ratio_pair (ps_aspect_ratio sp)) /\
  json_ok (ps_color_policy sp) /\ json_ok (ps_audio_policy sp) /\ json_ok (ps_quality_policy sp) /\ json_ok (ps_privacy_policy sp) /\
  ps_policy_digest sp = sha256 (Json.policy_input [ps_color_policy sp; ps_audio_policy sp; ps_quality_policy sp; ps_privacy_policy sp]).
Definition ids_ok (ids : list Id) : Prop := Forall is_id ids /\ blen ids <= 64.
Definition work_ok (sp : WorkSpecification) : Prop := json_ok (ws_json sp) /\ ids_ok (ws_subject_ids sp) /\ ids_ok (ws_asset_ids sp).
Definition related_ok (r : option (Id * Z)) : Prop := from_option (fun r => is_id r.1 /\ is_u64 r.2) True r.
Definition member_ok (m : Assets.MemberInput) : Prop := text_ok (Assets.mi_logical_name m) /\ length (Assets.mi_blob_digest m) = 32%nat.
Definition resource_ok (r : Assets.ResourceInput) : Prop :=
  text_ok (Assets.ri_kind r) /\ Forall member_ok (Assets.ri_members r) /\ blen (Assets.ri_members r) <= 4096.
Definition representation_ok (p : Assets.RepresentationInput) : Prop :=
  text_ok (Assets.pi_purpose p) /\ Forall resource_ok (Assets.pi_resources p) /\ blen (Assets.pi_resources p) <= 64.
Definition graph_ok (g : list Assets.RepresentationInput) : Prop :=
  Forall representation_ok g /\ blen g <= U32_MAX /\ blen (revision_graph_bytes g) <= U32_MAX.
Definition creative_typed (r : CreativeRequest) : Prop :=
  match r with
  | RqCreateProject name sp => text_ok name /\ spec_ok sp
  | RqReviseProjectSpec p e sp => is_id p /\ is_u64 e /\ spec_ok sp
  | RqCreateSubject kind name => text_ok kind /\ text_ok name
  | RqCreateWork p _ code sp => is_id p /\ text_ok code /\ work_ok sp
  | RqReviseWork p w e sp => is_id p /\ is_id w /\ is_u64 e /\ work_ok sp
  | RqCreateTake p w wr a => is_id p /\ is_id w /\ is_id wr /\ is_id a
  | RqTransitionTake p w wr t e _ reason related =>
      is_id p /\ is_id w /\ is_id wr /\ is_id t /\ is_u64 e /\ from_option text_ok True reason /\ related_ok related
  | RqReopenTake p w wr t e a => is_id p /\ is_id w /\ is_id wr /\ is_id t /\ is_u64 e /\ is_id a
  end.
Definition typed (r : Request) : Prop :=
  match r with
  | RqCreative r => creative_typed r
  | RqCreateRevision a e ps k reps => is_id a /\ is_u64 e /\ ids_ok ps /\ text_ok k /\ graph_ok reps
  | RqChangeLifecycle a e _ => is_id a /\ is_u64 e
  end.
(** No two of the byte strings share a digest. *)
Definition no_collision (l : list (list byte)) : Prop := forall x y, x ∈ l -> y ∈ l -> sha256 x = sha256 y -> x = y.

(** ** Fields determine their arguments *)

Context `{!StoreEnvLaws H}.

Lemma u32_range z : is_u32 z -> 0 <= z < 256 ^ Z.of_nat 4.
Proof. unfold is_u32, U32_MAX. cbn. lia. Qed.
Lemma u64_range z : is_u64 z -> 0 <= z < 256 ^ Z.of_nat 8.
Proof. unfold is_u64, U64_MAX. cbn. lia. Qed.
Lemma optional_pair_inj x y : pair_ok x -> pair_ok y -> optional_pair x = optional_pair y -> x = y.
Proof.
  destruct x as [[a b]|], y as [[c d]|]; cbn [pair_ok from_option optional_pair fst snd]; intros Hx Hy He; try done.
  apply app_inv_head in He. apply (be_bytes_prefix_free 4) in He as [-> He]; [|apply u32_range, Hx|apply u32_range, Hy].
  apply (be_bytes_inj 4) in He as ->; [done|apply u32_range, Hx|apply u32_range, Hy].
Qed.
Lemma id_set_inj x y : ids_ok x -> ids_ok y -> id_set x = id_set y -> x = y.
Proof.
  intros [Hx Hlx] [Hy Hly] He. unfold id_set in He. rewrite <- (map_id x), <- (map_id y) in He.
  eapply (prefix_free_inj (fun x => be_bytes 4 (blen x) ++ concat (map (fun v => v) x))); [by apply counted_list_prefix_free, (fixed_prefix_free 16)| | |].
  1,2: split; [done|eapply Z.le_lt_trans; [eassumption|done]]. unfold blen in *. by rewrite !length_map, !map_id in *.
Qed.
Lemma related_inj x y : related_ok x -> related_ok y -> optional_related x = optional_related y -> x = y.
Proof.
  destruct x as [[a b]|], y as [[c d]|]; cbn [related_ok from_option optional_related fst snd]; intros Hx Hy He; try done.
  apply app_inv_head in He. apply app_eq_length in He as [-> He]; [|destruct Hx, Hy; unfold is_id in *; congruence].
  apply (be_bytes_inj 8) in He as ->; [done|apply u64_range, Hx|apply u64_range, Hy].
Qed.
Lemma reason_inj x y : optional_reason x = optional_reason y -> x = y.
Proof. destruct x, y; cbn; intros; by simplify_eq. Qed.
Lemma member_prefix_free : prefix_free member_bytes member_ok.
Proof.
  intros [n d] [n' d'] a b [Hn Hd] [Hn' Hd'] He. unfold member_bytes in He. cbn [Assets.mi_logical_name Assets.mi_blob_digest] in Hn, Hd, Hn', Hd', He |- *. rewrite <- !(assoc_L (++)) in He.
  rewrite !(assoc_L (++) (be_bytes 2 _)) in He. apply (counted_prefix_free 2) in He as [-> He]; [|done..].
  apply (fixed_prefix_free 32) in He as [-> ->]; done.
Qed.
Lemma small_count {A} (l : list A) n : blen l <= 4096 -> (2 <= n)%nat -> blen l < 256 ^ Z.of_nat n.
Proof. intros Hl Hn. eapply Z.lt_le_trans with (256 ^ 2); [lia|]. apply Z.pow_le_mono_r; lia. Qed.
(** A text and a list of parts. *)
Lemma part_prefix_free {A} (enc : A -> list byte) ok :
  prefix_free enc ok ->
  prefix_free (fun p : list byte * list A => be_bytes 2 (blen p.1) ++ p.1 ++ be_bytes 4 (blen p.2) ++ concat (map enc p.2))
    (fun p => text_ok p.1 /\ Forall ok p.2 /\ blen p.2 <= 4096).
Proof.
  intros Hp [k l] [k' l'] a b (Hk & Hl & Hn) (Hk' & Hl' & Hn') He. cbn [fst snd] in *. rewrite <- !(assoc_L (++)) in He.
  rewrite (assoc_L (++) (be_bytes 2 (blen k))), (assoc_L (++) (be_bytes 2 (blen k'))) in He.
  apply (counted_prefix_free 2) in He as [-> He]; [|done..]. rewrite !(assoc_L (++) (be_bytes 4 _)) in He.
  apply (counted_list_prefix_free enc ok 4 Hp) in He as [-> ->]; [done| |]. all: split; [done|apply small_count; lia].
Qed.
Lemma resource_prefix_free : prefix_free resource_bytes resource_ok.
Proof.
  intros [k l] [k' l'] a b (Hk & Hl & Hn) (Hk' & Hl' & Hn') He.
  apply (part_prefix_free _ _ member_prefix_free (k, l) (k', l')) in He as [[= -> ->] ->]; done.
Qed.
Lemma representation_prefix_free : prefix_free representation_bytes representation_ok.
Proof.
  intros [k l] [k' l'] a b (Hk & Hl & Hn) (Hk' & Hl' & Hn') He. cbn [Assets.pi_purpose Assets.pi_resources] in *.
  apply (part_prefix_free _ _ resource_prefix_free (k, l) (k', l')) in He as [[= -> ->] ->]; [done|..]; split_and!; try done; cbn [snd]; lia.
Qed.
Lemma graph_inj x y : graph_ok x -> graph_ok y -> revision_graph_bytes x = revision_graph_bytes y -> x = y.
Proof.
  intros (Hx & Hnx & _) (Hy & Hny & _). eapply (prefix_free_inj revision_graph_bytes); [apply (counted_list_prefix_free _ _ 4 representation_prefix_free)| |].
  all: split; [done|]. all: unfold U32_MAX in *; change (256 ^ Z.of_nat 4) with 4294967296; lia.
Qed.
Lemma kind_code_inj x y : [z2b (work_kind_code x)] = [z2b (work_kind_code y)] -> x = y.
Proof. by destruct x, y. Qed.
Lemma transition_code_inj x y : [z2b (take_transition_code x)] = [z2b (take_transition_code y)] -> x = y.
Proof. by destruct x, y. Qed.
Lemma revision_inj x y : is_u64 x -> is_u64 y -> be_bytes 8 x = be_bytes 8 y -> x = y.
Proof. intros Hx%u64_range Hy%u64_range. by apply be_bytes_inj. Qed.

(** ** Documents *)

Lemma json_inj x y l : no_collision l -> json_ok x -> json_ok y -> json_bytes x ∈ l -> json_bytes y ∈ l -> json_digest x = json_digest y -> x = y.
Proof.
  intros Hc Hx Hy Hix Hiy He. assert (json_bytes x = json_bytes y) as Hb by (apply Hc; [done..|]; by rewrite <- Hx, <- Hy).
  destruct x, y; cbn in *. congruence.
Qed.
Lemma resolution_map_inj x y : option_map resolution_pair x = option_map resolution_pair y -> x = y.
Proof. destruct x as [[]|], y as [[]|]; cbn; intros; by simplify_eq. Qed.
Lemma ratio_map_inj x y : option_map ratio_pair x = option_map ratio_pair y -> x = y.
Proof. destruct x as [[]|], y as [[]|]; cbn; intros; by simplify_eq. Qed.
Lemma spec_inj x y l :
  no_collision l -> spec_ok x -> spec_ok y -> spec_documents x ⊆ l -> spec_documents y ⊆ l ->
  project_spec_fields x = project_spec_fields y -> x = y.
Proof.
  intros Hc (Hx1 & Hx2 & Hx3 & Hx4 & Hx5 & Hx6 & Hx7 & Hx8) (Hy1 & Hy2 & Hy3 & Hy4 & Hy5 & Hy6 & Hy7 & Hy8) Hdx Hdy He.
  unfold project_spec_fields in He. injection He as E1 E2 E3 E4 E5 E6 E7.
  apply optional_pair_inj, resolution_map_inj in E1; [|done..]. apply optional_pair_inj, ratio_map_inj in E2; [|done..].
  apply optional_pair_inj, ratio_map_inj in E3; [|done..]. unfold spec_documents in *. cbn [map] in *.
  apply (json_inj _ _ l Hc) in E4, E5, E6, E7; try done; try set_solver. destruct x, y; cbn in *. congruence.
Qed.
Lemma work_inj x y l :
  no_collision l -> work_ok x -> work_ok y -> json_bytes (ws_json x) ∈ l -> json_bytes (ws_json y) ∈ l ->
  json_digest (ws_json x) = json_digest (ws_json y) -> id_set (ws_subject_ids x) = id_set (ws_subject_ids y) ->
  id_set (ws_asset_ids x) = id_set (ws_asset_ids y) -> x = y.
Proof.
  intros Hc (Hx1 & Hx2 & Hx3) (Hy1 & Hy2 & Hy3) Hdx Hdy E1 E2 E3. apply (json_inj _ _ l Hc) in E1; [|done..].
  apply id_set_inj in E2, E3; [|done..]. destruct x, y; cbn in *. congruence.
Qed.

(** ** The bytes determine the request *)

Lemma id_field i : is_id i -> field_ok i.
Proof. unfold is_id, field_ok, blen. intros ->. done. Qed.
Lemma text_field t : text_ok t -> field_ok t.
Proof. unfold text_ok, field_ok, U32_MAX. lia. Qed.
Lemma number_field z : field_ok (be_bytes 8 z).
Proof. unfold field_ok, blen. by rewrite be_bytes_length. Qed.
Lemma byte_field b : field_ok [b].
Proof. done. Qed.
Lemma digest_field j : json_ok j -> field_ok (json_digest j).
Proof. intros ->. unfold field_ok, blen. by rewrite sha256_length. Qed.
Lemma pair_field p : field_ok (optional_pair p).
Proof. unfold field_ok, blen. destruct p as [[a b]|]; cbn [optional_pair]; [|done]. by rewrite !length_app, !be_bytes_length. Qed.
Lemma ids_field ids : ids_ok ids -> field_ok (id_set ids).
Proof.
  intros [Hf Hl]. assert (length (concat ids) = 16 * length ids)%nat as Hc.
  { clear Hl. induction Hf as [|i ids Hi _ IH]; cbn; [done|]. rewrite length_app, Hi, IH. lia. }
  unfold field_ok, id_set, blen in *. rewrite length_app, be_bytes_length, Hc. unfold U32_MAX. lia.
Qed.
Lemma reason_field r : from_option text_ok True r -> field_ok (optional_reason r).
Proof. unfold text_ok, field_ok, U32_MAX, blen. destruct r; cbn -[Z.of_nat]; lia. Qed.
Lemma related_field r : related_ok r -> field_ok (optional_related r).
Proof.
  unfold field_ok, blen. destruct r as [[i z]|]; [|done]. intros [Hi _]. cbn [optional_related fst] in *.
  by rewrite !length_app, be_bytes_length, Hi.
Qed.
Create HintDb fields.
#[local] Hint Resolve id_field text_field number_field byte_field digest_field pair_field ids_field reason_field related_field : fields.
Lemma spec_fields sp : spec_ok sp -> Forall field_ok (project_spec_fields sp).
Proof. intros (_ & _ & _ & ? & ? & ? & ? & _). unfold project_spec_fields. repeat constructor; auto with fields. Qed.
Lemma typed_fields r : typed r -> blen (request_fields r).1 < 65536 /\ Forall field_ok (request_fields r).2.
Proof.
  intros Ht. split; [destruct r as [[]| |? ? []]; by vm_compute|]. destruct r as [[]| |]; cbn [typed creative_typed request_fields creative_fields snd] in Ht |- *; destruct_and?; unfold work_ok, graph_ok in *; destruct_and?.
  all: unfold create_project_fields, revise_project_spec_fields, create_subject_fields, create_work_fields, revise_work_fields, create_take_fields,
    transition_take_fields, reopen_take_fields, create_revision_fields, change_lifecycle_fields.
  all: rewrite ?Forall_app, ?Forall_cons; split_and?; try apply spec_fields; auto with fields.
Qed.
Lemma fields_cons_eq {A} (x y : A) l k : x :: l = y :: k -> x = y /\ l = k.
Proof. by intros [= -> ->]. Qed.
Ltac split_fields Ef := repeat match type of Ef with _ :: _ = _ :: _ => let E := fresh "Ef" in apply fields_cons_eq in Ef as [E Ef] end.
Lemma request_inj r r' :
  typed r -> typed r' -> no_collision (documents r ++ documents r') -> preimage r = preimage r' -> r = r'.
Proof.
  intros Ht Ht' Hc He. destruct (typed_fields r Ht) as [Ho Hf], (typed_fields r' Ht') as [Ho' Hf'].
  apply preimage_inj in He as [Eo Ef]; [|done..]. clear Ho Ho' Hf Hf'.
  destruct r as [[]| |? ? []], r' as [[]| |? ? []]; cbn [request_fields creative_fields fst lifecycle_operation] in Eo; try (vm_compute in Eo; discriminate Eo); clear Eo.
  all: cbn [typed creative_typed] in Ht, Ht'; destruct_and?; cbn [request_fields creative_fields snd documents creative_documents] in Ef, Hc.
  all: unfold create_project_fields, revise_project_spec_fields, create_subject_fields, create_work_fields, revise_work_fields, create_take_fields,
    transition_take_fields, reopen_take_fields, create_revision_fields, change_lifecycle_fields in Ef; cbn [app] in Ef.
  1: apply fields_cons_eq in Ef as [-> Ef]. 2: apply fields_cons_eq in Ef as [-> Ef]; apply fields_cons_eq in Ef as [Ee Ef].
  1,2: apply (spec_inj _ _ _ Hc) in Ef as ->; [|set_solver..]; try done.
  1: apply revision_inj in Ee as ->; done. all: split_fields Ef; subst.
  all: repeat match goal with
    | E : [z2b (work_kind_code _)] = _ |- _ => apply kind_code_inj in E as ->
    | E : [z2b (take_transition_code _)] = _ |- _ => apply transition_code_inj in E as ->
    | E : be_bytes 8 _ = be_bytes 8 _ |- _ => apply revision_inj in E as ->; [|done..]
    | E : optional_reason _ = _ |- _ => apply reason_inj in E as ->
    | E : optional_related _ = _ |- _ => apply related_inj in E as ->; [|done..]
    | E : ordered_ids _ = _ |- _ => apply (id_set_inj _ _) in E as ->; [|done..]
    | E : revision_graph_bytes _ = _ |- _ => apply graph_inj in E as ->; [|done..]
    | E : json_digest _ = _, E1 : id_set _ = _, E2 : id_set _ = _ |- _ => apply (work_inj _ _ _ Hc) in E as ->; [|set_solver..|done|done]
    end; try done.
Qed.

(** ** Serving a request *)

Section serve.
Context (replay_asset_result : Store -> CommandRow -> result AssetStoreError Store.CommandResult).

(** The operation of the service a request is for. *)
Definition serve (s : Store) (context : StoreContext) (command_id : Id) (r : CreativeRequest) (m : Machine) :=
  match r with
  | RqCreateProject name sp => create_project replay_asset_result s context command_id name sp m
  | RqReviseProjectSpec p e sp => revise_project_spec replay_asset_result s context command_id p e sp m
  | RqCreateSubject kind name => create_subject replay_asset_result s context command_id kind name m
  | RqCreateWork p k code sp => create_work replay_asset_result s context command_id p k code sp m
  | RqReviseWork p w e sp => revise_work replay_asset_result s context command_id p w e sp m
  | RqCreateTake p w wr a => create_take replay_asset_result s context command_id p w wr a m
  | RqTransitionTake p w wr t e tr reason related => transition_take replay_asset_result s context command_id p w wr t e tr reason related m
  | RqReopenTake p w wr t e a => reopen_take replay_asset_result s context command_id p w wr t e a m
  end.
(** The requests the constructors of the commands refuse. *)
Definition refused (r : CreativeRequest) : bool :=
  match r with
  | RqReviseProjectSpec p _ _ => negb (id_valid p)
  | RqTransitionTake _ _ _ _ _ tr reason related =>
      negb (transition_shape_valid tr (bool_decide (is_Some reason)) (bool_decide (is_Some related)))
  | _ => false
  end.
Lemma serve_inv s ctx cid r m :
  serve s ctx cid r m = Err SeValidation /\ refused r = true \/
  refused r = false /\ exists c, serve s ctx cid r m = Store.execute replay_asset_result s ctx c /\
    Store.binding_of c = binding_new cid (creative_fields r).1 (creative_fields r).2 /\
    Store.operation_of c = (creative_fields r).1 /\ Store.values_of c = values m.
Proof.
  destruct r; cbn [serve refused].
  all: unfold create_project, revise_project_spec, create_subject, create_work, revise_work, create_take, transition_take, reopen_take, CreativeService.execute,
    create_project_command_new, revise_project_spec_command_new, create_subject_command_new, create_work_command_new, revise_work_command_new,
    create_take_command_new, transition_take_command_new, reopen_take_command_new, require_operation; cbn [cb_operation_id binding_new].
  all: rewrite bool_decide_eq_true_2 by done; cbn [result_bind]; try (case_match; [by left|]); right; (split; [done|]); eexists; split_and!; reflexivity.
Qed.

(** The clock of the machine counts nanoseconds in 32 bits. *)
Definition machine_ok (m : Machine) : Prop := forall at_, m_clock m = Some at_ -> is_u32 at_.2.
Lemma values_clock m at_ : machine_ok m -> Store.v_now (values m) = Ok at_ -> is_u32 at_.2 /\ timestamp_valid at_.1 at_.2 = true.
Proof.
  intros Hm. cbn. unfold now. destruct (m_clock m) as [[sec ns]|] eqn:E; [|done]. cbn [ok_or result_bind]. intros Hn. specialize (Hm _ E). cbn in Hm.
  destruct (try_into I64_MAX sec); [|done]. cbn [ok_or result_bind] in Hn. case_match eqn:Et; [|done]. by injection Hn as <-.
Qed.
Lemma serve_wf ctx cid r m c :
  machine_ok m -> id_ok id_valid cid -> id_ok id_valid (runtime_id ctx) -> is_u32 (owner_uid ctx) ->
  Store.binding_of c = binding_new cid (creative_fields r).1 (creative_fields r).2 ->
  Store.operation_of c = (creative_fields r).1 -> Store.values_of c = values m -> CreativeReplay.command_wf ctx c.
Proof.
  intros Hm Hid Hrt Hu Hb Hop Hv. unfold CreativeReplay.command_wf. rewrite Hb, Hop, Hv. cbn [cb_operation_id cb_command_id cb_canonical_request_digest binding_new].
  split_and!; try done; [apply sha256_length|]. intros at_. by apply values_clock.
Qed.
End serve.
End requests.

(** C22: a command identity is bound to one request.  After the creative service answered
    a request, and any later commands, the same request under that identity is answered
    from the ledger without a change, whatever the clock, the fresh identities and the
    control are; a different request, of any of the eight operations and down to any of
    its fields and documents, is a conflict (or is refused before the ledger is asked,
    when its shape is invalid), as long as SHA-256 does not collide on the bytes and
    documents of the two. *)
Theorem served_request_is_bound `{StoreEnv} `{!StoreEnvLaws H}
    (replay_asset_result : Store -> CommandRow -> result AssetStoreError Store.CommandResult)
    (s s1 : Store) (ctx ctx' : StoreContext) (cid : Id) (r : CreativeRequest) (m m' : Machine) (o : Store.MutationOutcome)
    (later : list (StoreContext * Store.CreativeCommand)) :
  creative_typed r -> machine_ok m -> id_ok id_valid cid -> id_ok id_valid (runtime_id ctx) -> is_u32 (owner_uid ctx) ->
  serve replay_asset_result s ctx cid r m = Ok (o, s1) ->
  let s2 := Store.run replay_asset_result s1 later in
  (owner_uid ctx' = owner_uid ctx -> serve replay_asset_result s2 ctx' cid r m' = Ok (CreativeReplay.recorded o, s2)) /\
  (forall r', creative_typed r' -> r' <> r ->
     no_collision ([preimage (RqCreative r); preimage (RqCreative r')] ++ creative_documents r ++ creative_documents r') ->
     serve replay_asset_result s2 ctx' cid r' m' = Err (if refused r' then SeValidation else SeConflict)).
Proof.
  intros Ht Hm Hid Hrt Hu Hs s2. destruct (serve_inv replay_asset_result s ctx cid r m) as [[Hbad _]|(Hok & c & Hc & Hb & Hop & Hv)]; [congruence|].
  rewrite Hc in Hs. pose proof (serve_wf ctx cid r m c Hm Hid Hrt Hu Hb Hop Hv) as Hwf.
  pose proof (CreativeReplay.answered_kept _ _ _ _ _ _ Hwf Hs) as Hk. apply (CreativeReplay.kept_run _ _ _ _ _ _ later) in Hk; [|by eapply CreativeReplay.wf_creative].
  fold s2 in Hk. split.
  - intros Huid. destruct (serve_inv replay_asset_result s2 ctx' cid r m') as [[_ Hr]|(_ & c' & Hc' & Hb' & Hop' & _)]; [congruence|].
    rewrite Hc'. apply Frame.execute_replayed. rewrite Hb', <- Hb, (CreativeReplay.operation_kind c c') by congruence. apply CreativeReplay.kept_replays. by rewrite Huid.
  - intros r' Ht' Hne Hcol. destruct (serve_inv replay_asset_result s2 ctx' cid r' m') as [[-> ->]|(-> & c' & Hc' & Hb' & _ & _)]; [done|].
    rewrite Hc'. eapply CreativeReplay.kept_conflict; [exact Hk|by rewrite Hb, Hb'|]. right. left. rewrite Hb, Hb'.
    cbn [cb_canonical_request_digest binding_new]. intros He. apply Hne. apply Hcol in He; [|set_solver..].
    enough (RqCreative r' = RqCreative r) as [=] by done. apply request_inj; try done. intros x y Hx Hy. apply Hcol; set_solver.
Qed.

(** ** A subject created through the service, and two resubmissions *)
Module Example.
Definition hash (l : list byte) : list byte := be_bytes 32 (fold_left (fun a b => a * 257 + b2z b + 1) l 0).
Definition env : StoreEnv := {|
  id_valid := fun b => bool_decide (length b = 16%nat); timestamp_valid := fun _ nanos => (0 <=? nanos) && (nanos <? 1000000000); sha256 := hash |}.
Lemma env_laws : StoreEnvLaws env.
Proof. constructor. intros l. apply be_bytes_length. Qed.
#[local] Existing Instance env.
Definition machine (ids : list Z) (seconds : Z) : Machine :=
  {| m_ids := map (fun n => Some (Scenario.id n)) ids; m_clock := Some (seconds, 5); m_control := Startup.Continue |}.
Definition ada : CreativeRequest := RqCreateSubject (bs "person") (bs "Ada").
Definition bob : CreativeRequest := RqCreateSubject (bs "person") (bs "Bob").
Definition result : Store.CommandResult := Store.Versioned (Scenario.id 11) (VrSubject 1) (1700000000, 5).
Definition created : Store := match serve Scenario.no_asset_replay Scenario.empty Scenario.ctx (Scenario.id 10) ada (machine [11; 12] 1700000000) with Ok (_, s) => s | Err _ => Scenario.empty end.
Lemma created_ok :
  serve Scenario.no_asset_replay Scenario.empty Scenario.ctx (Scenario.id 10) ada (machine [11; 12] 1700000000) = Ok (Store.Applied result, created).
Proof. vm_compute. reflexivity. Qed.
Lemma names_apart : no_collision ([preimage (RqCreative ada); preimage (RqCreative bob)] ++ creative_documents ada ++ creative_documents bob).
Proof.
  assert (forallb (fun x => forallb (fun y => bool_decide (sha256 x = sha256 y -> x = y))
    [preimage (RqCreative ada); preimage (RqCreative bob)]) [preimage (RqCreative ada); preimage (RqCreative bob)] = true) as Hb by (vm_compute; reflexivity).
  intros x y Hx Hy. cbn [app creative_documents ada bob] in Hx, Hy. rewrite forallb_forall in Hb. apply list_elem_of_In in Hx, Hy.
  apply Hb in Hx. rewrite forallb_forall in Hx. apply Hx in Hy. by apply bool_decide_eq_true in Hy.
Qed.
Lemma bob_typed : creative_typed bob.
Proof. by vm_compute. Qed.
Lemma bob_not_ada : bob <> ada.
Proof. vm_compute. discriminate. Qed.
End Example.

Lemma served_request_is_bound_witness :
  let s2 := @Store.run Example.env Scenario.no_asset_replay Example.created [] in
  @serve Example.env Scenario.no_asset_replay s2 Scenario.ctx (Scenario.id 10) Example.ada (Example.machine [] 1800000000) =
    Ok (CreativeReplay.recorded (Store.Applied Example.result), s2) /\
  @serve Example.env Scenario.no_asset_replay s2 Scenario.ctx (Scenario.id 10) Example.bob (Example.machine [] 1800000000) =
    Err (if @refused Example.env Example.bob then SeValidation else SeConflict).
Proof.
  intros s2. destruct (@served_request_is_bound Example.env Example.env_laws Scenario.no_asset_replay Scenario.empty Example.created Scenario.ctx Scenario.ctx
    (Scenario.id 10) Example.ada (Example.machine [11; 12] 1700000000) (Example.machine [] 1800000000) (Store.Applied Example.result) []) as [Hsame Hother].
  - by vm_compute.
  - intros at_ [= <-]. by vm_compute.
  - by vm_compute.
  - by vm_compute.
  - by vm_compute.
  - exact Example.created_ok.
  - split; [exact (Hsame eq_refl)|]. exact (Hother Example.bob Example.bob_typed Example.bob_not_ada Example.names_apart).
Defined.
End Requests.
