(* ===== verification/CreativePaging.v ===== *)
(** Paging by keys: a list that is read page by page, over a table that only grows at its
    end between two requests, yields the rows of the table as it was when the first page
    was read, each once and in order.  The four lists of [CreativeQuery] are instances. *)
From Stdlib Require Import ZArith Lia String.
From Stdlib Require Import Strings.Byte Init.Byte.
From stdpp Require Import prelude list gmap sorting relations.
From S2P Require Import Prelude RustText Ord Types Events AssetDomain CreativeDomain Ports CommandLedger CreativeStore StoreScenario StoreFrame StoreSteps CreativeTakes CreativeJson CreativeQuery CreativeSound CreativeVerified.

Set Warnings "-clear-no-such-hyp".

Module Paging.
Import Ports CreativeQuery.
Abbreviation Key := (Z * Id)%type.

(** ** Sorting keys *)

Definition in_order (keys : list Key) : list Key := sort_by (fun k => k) keys.
Lemma insert_by_map {R} (key : R -> Key) x l : map key (insert_by key x l) = insert_by (fun k => k) (key x) (map key l).
Proof. induction l as [|y l IH]; cbn [insert_by map]; [done|]. destruct (rcmp (key x) (key y)); cbn [map]; by rewrite ?IH. Qed.
Lemma sort_by_map {R} (key : R -> Key) l : map key (sort_by key l) = in_order (map key l).
Proof.
  unfold in_order. induction l as [|x l IH]; cbn [sort_by foldr map]; [done|].
  change (foldr (insert_by key) [] l) with (sort_by key l). by rewrite insert_by_map, IH.
Qed.
#[local] Instance key_le_antisymm : AntiSymm eq (key_le (fun k : Key => k)).
Proof.
  intros a b Hab Hba. unfold key_le in *. destruct (rcmp a b) eqn:E; [by apply rcmp_eq|exfalso; apply Hba, rcmp_gt, E|done].
Qed.
#[local] Instance key_le_transitive : Transitive (key_le (fun k : Key => k)).
Proof. intros a b c. apply key_le_trans. Qed.
Lemma in_order_perm l k : l ≡ₚ k -> in_order l = in_order k.
Proof.
  intros Hp. eapply (StronglySorted_unique (key_le (fun k => k))); [apply sort_by_sorted..|]. unfold in_order. by rewrite !sort_by_perm.
Qed.
Lemma filter_permutation {A} (p : A -> bool) l k : l ≡ₚ k -> List.filter p l ≡ₚ List.filter p k.
Proof.
  induction 1 as [|x l k _ IH|x y l|l k j _ IH1 _ IH2]; cbn; [done| | |by etrans]; [destruct (p x); [by constructor|done]|].
  destruct (p x), (p y); try done. apply Permutation_swap.
Qed.
Lemma in_order_filter (p : Key -> bool) l : in_order (List.filter p l) = List.filter p (in_order l).
Proof.
  eapply (StronglySorted_unique (key_le (fun k => k))); [apply sort_by_sorted| |].
  - pose proof (sort_by_sorted (fun k => k) l) as Hs. unfold in_order. induction Hs as [|x r Hs IH Hx]; cbn; [constructor|].
    destruct (p x); [|done]. constructor; [done|]. rewrite Forall_forall in *. intros y Hy. apply Hx.
    apply list_elem_of_In, filter_In in Hy as [Hy _]. by apply list_elem_of_In.
  - unfold in_order. rewrite sort_by_perm. apply filter_permutation. by rewrite sort_by_perm.
Qed.
(** Keys that differ in their numbers are in strict order. *)
Definition rising : list Key -> Prop := StronglySorted (fun a b => a.1 < b.1).
Lemma in_order_rising l : NoDup (map fst l) -> rising (in_order l).
Proof.
  intros Hn. assert (NoDup (map fst (in_order l))) as Hn' by (unfold in_order; by rewrite sort_by_perm). clear Hn.
  pose proof (sort_by_sorted (fun k => k) l) as Hs. unfold in_order in *. induction Hs as [|x r Hs IH Hx]; [constructor|].
  cbn in Hn'. apply NoDup_cons in Hn' as [Hni Hn']. constructor; [by apply IH|]. rewrite Forall_forall in *. intros y Hy. specialize (Hx y Hy).
  assert (y.1 <> x.1) as Hne by (intros Heq; apply Hni; rewrite <- Heq; by apply list_elem_of_fmap_2).
  unfold key_le in Hx. destruct x as [a i], y as [b j]. cbn in *. destruct (a ?= b) eqn:E; try (apply Z.compare_eq in E; congruence).
  - by apply Z.compare_lt_iff.
  - done.
Qed.

(** What is left of a rising list behind its first [n] entries. *)
Lemma rising_filter_after l n k : rising l -> list.last (take n l) = Some k -> List.filter (fun x => k.1 <? x.1) l = drop n l.
Proof.
  intros Hs. revert n. induction Hs as [|x l Hs IH Hx]; intros [|n] Hk; try done. cbn [take drop] in *. cbn [List.filter].
  assert (Forall (fun y => x.1 <= y.1) (x :: l)) as Hle.
  { constructor; [lia|]. eapply Forall_impl; [exact Hx|]. cbn. lia. }
  assert (k ∈ x :: l) as Hin.
  { apply last_Some_elem_of in Hk. apply elem_of_cons in Hk as [->|Hk]; [set_solver|]. right. rewrite <- (take_drop n l). set_solver. }
  rewrite Forall_forall in Hle. specialize (Hle _ Hin). rewrite (proj2 (Z.ltb_ge _ _)) by lia.
  destruct n as [|n]; [cbn in Hk; injection Hk as <-|].
  - rewrite drop_0. clear -Hx. induction Hx as [|y l Hy _ IH]; cbn; [done|]. rewrite (proj2 (Z.ltb_lt _ _)) by done. by rewrite IH.
  - destruct l as [|y l]; [done|]. apply (IH (S n)). exact Hk.
Qed.
Lemma last_take_Some {A} (l : list A) n : (0 < n)%nat -> (n <= length l)%nat -> exists x, list.last (take n l) = Some x.
Proof.
  intros Hn Hl. destruct (list.last (take n l)) eqn:E; [by eexists|]. apply last_None in E. apply (f_equal length) in E.
  rewrite length_take in E. cbn in E. lia.
Qed.
Lemma views_ok {R V} (view : R -> res V) (ident : V -> Id) (name : R -> Id) l :
  (forall r, r ∈ l -> exists v, view r = Ok v /\ ident v = name r) -> exists vs, views view l = Ok vs /\ map ident vs = map name l.
Proof.
  induction l as [|r l IH]; intros Hl; cbn; [by eexists|]. destruct (Hl r) as (v & -> & Hv); [set_solver|].
  destruct IH as (vs & -> & Hvs); [set_solver|]. cbn. eexists. split; [done|]. cbn. by rewrite Hv, Hvs.
Qed.

(** ** A growing table *)

Section paging.
Context {K R V : Type} (scope : nat -> list K) (scope_key : K -> Z) (rows : nat -> list R) (key : R -> Key)
        (view : nat -> R -> res V) (ident : V -> Id) (library_id : Id) (size : Z).
Definition keys (t : nat) : list Key := map key (rows t).
(** At every moment the rows of the scope are all listed, carry different numbers and can
    be shown; from one moment to the next rows are only added, behind the others. *)
Record pages : Prop := {
  pg_scope : forall t, map scope_key (scope t) ≡ₚ map fst (keys t);
  pg_bound : forall t k, k ∈ keys t -> 1 <= k.1 <= I64_MAX;
  pg_unique : forall t, NoDup (map fst (keys t));
  pg_view : forall t r, r ∈ rows t -> exists v, view t r = Ok v /\ ident v = (key r).2;
  pg_kept : forall t k, k ∈ keys t -> k ∈ keys (S t);
  pg_added : forall t k k', k ∈ keys (S t) -> k' ∈ keys t -> k ∈ keys t \/ k'.1 < k.1 }.
Context (Hp : pages) (Hlib : library_id <> zero_library) (Hsize : 1 <= size <= 64).

Lemma keys_kept t k : k ∈ keys 0 -> k ∈ keys t.
Proof. induction t; [done|]. intros Hk. apply pg_kept; auto. Qed.
Lemma keys_added t k k' : k ∈ keys t -> k' ∈ keys 0 -> k ∈ keys 0 \/ k'.1 < k.1.
Proof.
  induction t as [|t IH]; [by left|]. intros Hk Hk'. destruct (pg_added Hp t k k' Hk (keys_kept t k' Hk')) as [Hk2|]; [|by right]. by apply IH.
Qed.
Lemma keys_nodup t : NoDup (keys t).
Proof. eapply NoDup_fmap_1. apply (pg_unique Hp t). Qed.

Lemma max_key_spec l : (forall z, z ∈ l -> 0 <= z) -> (forall z, z ∈ l -> z <= max_key l) /\ (l <> [] -> max_key l ∈ l) /\ 0 <= max_key l.
Proof.
  destruct l as [|z l]; cbn [max_key]; intros Hl; [split_and!; [set_solver|done|lia]|].
  assert ((forall y, y ∈ z :: l -> y <= foldr Z.max z l) /\ foldr Z.max z l ∈ z :: l) as [Hm Hi].
  { clear Hl. induction l as [|x l [IHm IHi]]; cbn; [split; [intros y Hy; apply list_elem_of_singleton in Hy; lia|set_solver]|]. split.
    - intros y Hy. apply elem_of_cons in Hy as [->|Hy]; [specialize (IHm z ltac:(set_solver)); lia|].
      apply elem_of_cons in Hy as [->|Hy]; [lia|]. specialize (IHm y ltac:(set_solver)). lia.
    - destruct (Z.max_spec x (foldr Z.max z l)) as [[_ ->]|[_ ->]]; set_solver. }
  split_and!; [done|done|]. by apply Hl.
Qed.
Definition endpoint : Z := max_key (map fst (keys 0)).
Lemma key_bounds t k : k ∈ map fst (keys t) -> 1 <= k <= I64_MAX.
Proof. intros Hk. apply list_elem_of_fmap in Hk as (x & -> & Hx). by eapply pg_bound. Qed.
Lemma endpoint_spec : (forall k, k ∈ keys 0 -> k.1 <= endpoint) /\ 0 <= endpoint <= I64_MAX /\ (keys 0 <> [] -> endpoint ∈ map fst (keys 0)).
Proof.
  destruct (max_key_spec (map fst (keys 0))) as (Hm & Hi & H0); [intros z Hz%key_bounds; lia|]. fold endpoint in *. split_and!; [|done| |].
  - intros k Hk. apply Hm. by apply list_elem_of_fmap_2.
  - destruct (keys 0) as [|k l] eqn:E; [unfold endpoint; rewrite E; done|]. rewrite <- E in *.
    assert (endpoint ∈ map fst (keys 0)) as Hk%key_bounds by (apply Hi; by rewrite E). lia.
  - intros Hne. apply Hi. by destruct (keys 0).
Qed.
Lemma scope_max t l : map scope_key (scope t) ≡ₚ l -> max_key (map scope_key (scope t)) = max_key l.
Proof.
  intros Hs. assert (forall l' k', l' ≡ₚ k' -> (forall z, z ∈ l' -> 0 <= z) -> max_key l' <= max_key k') as Hmono.
  { intros l' k' Hperm Hpos. destruct (max_key_spec l' Hpos) as (_ & Hi & _), (max_key_spec k') as (Hm & _ & H0); [intros z; rewrite <- Hperm; apply Hpos|].
    destruct l' as [|z l']; [cbn; lia|]. apply Hm. rewrite <- Hperm. by apply Hi. }
  assert (forall z, z ∈ map scope_key (scope t) -> 0 <= z) as Hpos by (intros z; rewrite (pg_scope Hp t); intros Hz%key_bounds; lia).
  apply Z.le_antisymm; apply Hmono; try done. intros z. rewrite <- Hs. apply Hpos.
Qed.

(** The keys of the table at the start that are still to come. *)
Definition left_of (after : Z) : list Key := List.filter (fun k => after <? k.1) (in_order (keys 0)).
Lemma window t after :
  map key (sort_by key (List.filter (fun r => (after <? (key r).1) && ((key r).1 <=? endpoint)) (rows t))) = left_of after.
Proof.
  rewrite sort_by_map. unfold left_of. rewrite <- in_order_filter. apply in_order_perm.
  replace (map key (List.filter _ (rows t))) with (List.filter (fun k => (after <? k.1) && (k.1 <=? endpoint)) (keys t)).
  2: { unfold keys. induction (rows t) as [|r l IH]; cbn; [done|]. destruct ((after <? (key r).1) && _); cbn; by rewrite IH. }
  apply NoDup_Permutation; [apply NoDup_ListNoDup, List.NoDup_filter, NoDup_ListNoDup, keys_nodup..|].
  intros k. rewrite !list_elem_of_In, !filter_In, <- !list_elem_of_In, andb_true_iff, Z.ltb_lt, Z.leb_le. split.
  - intros (Hk & Ha & He). split; [|done]. destruct (decide (keys 0 = [])) as [Hn|Hn].
    + unfold endpoint in He. rewrite Hn in He. cbn in He. apply (pg_bound Hp) in Hk. lia.
    + destruct endpoint_spec as (_ & _ & Hi). apply Hi in Hn. apply list_elem_of_fmap in Hn as (k' & Ek & Hk').
      destruct (keys_added t k k' Hk Hk') as [|]; [done|lia].
  - intros [Hk Ha]. split_and!; [by apply keys_kept|done|]. by apply endpoint_spec.
Qed.
Lemma left_rising after : rising (left_of after).
Proof.
  pose proof (in_order_rising (keys 0) (pg_unique Hp 0)) as Hr. unfold left_of. induction Hr as [|x l Hs IH Hx]; cbn; [constructor|].
  destruct (after <? x.1); [|done]. constructor; [done|]. rewrite Forall_forall in *. intros y Hy. apply Hx.
  apply list_elem_of_In, filter_In in Hy as [Hy _]. by apply list_elem_of_In.
Qed.
Lemma left_elem after k : k ∈ left_of after <-> k ∈ keys 0 /\ after < k.1.
Proof.
  unfold left_of. rewrite list_elem_of_In, filter_In, <- list_elem_of_In, Z.ltb_lt. unfold in_order. by rewrite sort_by_perm.
Qed.

(** ** One page *)

Definition stands_at (t : nat) (after : Z) (position : CreativeListPosition) : Prop :=
  t = O /\ position = First /\ after = 0 \/ position = After library_id endpoint after /\ 0 <= after < endpoint.
Definition n : nat := Z.to_nat size.
Lemma in_i64 z : 0 <= z <= I64_MAX -> to_i64 z = Ok z.
Proof. intros Hz. unfold to_i64. by rewrite try_into_id. Qed.
Lemma bounds_of t after position :
  stands_at t after position ->
  list_bounds library_id position (max_key (map scope_key (scope t))) = Ok (endpoint, after) /\
  require_snapshot_endpoint position (existsb (fun r => scope_key r =? endpoint) (scope t)) = Ok tt /\ 0 <= after <= I64_MAX.
Proof.
  destruct endpoint_spec as (Hm & Hb & Hi). intros [(-> & -> & ->)|[-> Ha]]; cbn [list_bounds require_snapshot_endpoint].
  - rewrite (scope_max 0 (map fst (keys 0))) by apply (pg_scope Hp). fold endpoint. unfold column_u64. rewrite try_into_id; [done|].
    unfold I64_MAX, U64_MAX in *. lia.
  - rewrite bool_decide_eq_true_2, (proj2 (Z.leb_gt _ _)) by (done || lia). split_and!; [done| |lia|lia].
    destruct (decide (keys 0 = [])) as [Hn|Hn]; [unfold endpoint in Ha; rewrite Hn in Ha; cbn in Ha; lia|].
    apply Hi in Hn. apply list_elem_of_fmap in Hn as (k & Ek & Hk). apply (keys_kept t) in Hk.
    assert (endpoint ∈ map scope_key (scope t)) as He by (rewrite (pg_scope Hp t), Ek; by apply list_elem_of_fmap_2).
    apply list_elem_of_fmap in He as (r & Er & Hr). replace (existsb _ _) with true; [done|]. symmetry. apply existsb_exists.
    exists r. split; [by apply list_elem_of_In|]. lia.
Qed.
Definition first_page (after : Z) : list Key := take n (left_of after).
Definition page_next (after : Z) : option CreativeListPosition :=
  if (n <? length (left_of after))%nat then option_map (fun k : Key => After library_id endpoint k.1) (list.last (first_page after)) else None.
Lemma next_position after k : (n < length (left_of after))%nat -> list.last (first_page after) = Some k -> 1 <= k.1 < endpoint.
Proof.
  intros Hn Hk. assert (k ∈ first_page after) as Hin by (by apply last_Some_elem_of).
  assert (k ∈ keys 0) as Hk0. { unfold first_page in Hin. assert (k ∈ left_of after) as Hl by (rewrite <- (take_drop n (left_of after)); set_solver). by apply left_elem in Hl as []. }
  split; [by apply (pg_bound Hp 0)|]. pose proof (rising_filter_after _ n k (left_rising after) Hk) as Hd.
  destruct (drop n (left_of after)) as [|x l] eqn:E. { apply (f_equal length) in E. rewrite length_drop in E. cbn in E. lia. }
  assert (x ∈ left_of after) as Hx by (rewrite <- (take_drop n (left_of after)), E; set_solver). apply left_elem in Hx as [Hx _].
  assert (k.1 < x.1). { assert (x ∈ List.filter (fun x => k.1 <? x.1) (left_of after)) as Hf by (rewrite Hd; set_solver).
    apply list_elem_of_In, filter_In in Hf as [_ Hf]. lia. }
  destruct endpoint_spec as (Hm & _ & _). specialize (Hm _ Hx). lia.
Qed.
Lemma one_page t after position :
  stands_at t after position -> exists items,
    list_rows (scope t) scope_key (rows t) key (view t) library_id {| lq_page_size := size; lq_position := position |} =
      Ok {| cp_snapshot_endpoint := endpoint; cp_items := items; cp_next := page_next after |} /\
    map ident items = map snd (first_page after).
Proof.
  intros Hs. destruct (bounds_of t after position Hs) as (Hbounds & Hreq & Ha). unfold list_rows. cbn [lq_position lq_page_size].
  rewrite Hbounds. cbn [result_bind]. rewrite in_i64 by apply endpoint_spec. cbn [result_bind]. rewrite Hreq. cbn [result_bind].
  rewrite in_i64 by done. cbn [result_bind]. unfold collect.
  set (W := sort_by key _). assert (map key W = left_of after) as HW by apply window.
  assert (forall r, r ∈ W -> r ∈ rows t) as Hrows.
  { intros r. unfold W. rewrite sort_by_perm, list_elem_of_In, filter_In, <- list_elem_of_In. by intros []. }
  assert (length W = length (left_of after)) as HlW by (by rewrite <- HW, length_map). unfold fill.
  replace (Z.to_nat (size + 1)) with (S n) by (unfold n; lia).
  assert ((size <? blen (take (S n) W)) = (n <? length (left_of after))%nat) as Hmore.
  { unfold blen. rewrite length_take, HlW. destruct (n <? length (left_of after))%nat eqn:E;
      [apply Nat.ltb_lt in E; apply Z.ltb_lt|apply Nat.ltb_ge in E; apply Z.ltb_ge]; pose proof Hsize; unfold n in *; lia. }
  rewrite Hmore. set (shown := if (n <? length (left_of after))%nat then removelast (take (S n) W) else take (S n) W).
  assert (shown = take n W) as ->.
  { unfold shown. destruct (n <? length (left_of after))%nat eqn:E; [apply Nat.ltb_lt in E|apply Nat.ltb_ge in E].
    - rewrite removelast_firstn_len, length_take. rewrite take_take. f_equal. lia.
    - by rewrite !take_ge by lia. }
  destruct (views_ok (view t) ident (fun r => (key r).2) (take n W)) as (items & Hitems & Hid).
  { intros r Hr. apply (pg_view Hp), Hrows. rewrite <- (take_drop n W). set_solver. }
  assert (map key (take n W) = first_page after) as Hfp by (unfold first_page; by rewrite <- HW, firstn_map).
  exists items. rewrite Hitems. cbn [result_bind]. split.
  - unfold page_next. destruct (n <? length (left_of after))%nat eqn:E; [|done]. apply Nat.ltb_lt in E.
    destruct (last_take_Some W n) as (r & Hr); [unfold n; lia|lia|]. rewrite Hr. cbn [ok_or result_bind].
    assert (list.last (first_page after) = Some (key r)) as Hl by (rewrite <- Hfp; change (map key) with (fmap (M:=list) key); by rewrite fmap_last, Hr).
    destruct (next_position _ _ E Hl) as [Hk1 Hk2]. rewrite Hl. destruct endpoint_spec as (_ & Hb & _).
    unfold column_u64. rewrite try_into_id by (unfold I64_MAX, U64_MAX in *; lia). cbn [ok_or result_bind option_map]. unfold position_after.
    rewrite bool_decide_eq_false_2 by done. rewrite !(proj2 (Z.eqb_neq _ _)), (proj2 (Z.ltb_ge _ _)), (proj2 (Z.leb_gt _ _)) by lia. done.
  - rewrite Hid, <- Hfp, map_map. done.
Qed.
End paging.
End Paging.

(** How the listed tables grow: a step keeps the rows with their numbers and adds new
    ones behind them, and every row of a sound store can be shown. *)
Module Growth.
Import Ports Ledger Store Creative Json JsonFacts Frame Steps CreativeTakes CreativeQuery Sound Verified.
Abbreviation Id := Ports.Id.

Section growth.
Context `{StoreEnv} `{SerdeJson} `{!SerdeJsonLaws} `{!StoreEnvLaws H}.
Context (replay_asset_result : Store -> CommandRow -> result AssetStoreError CommandResult).
Local Abbreviation execute := (execute replay_asset_result).
Local Abbreviation after := (after replay_asset_result).
Local Abbreviation step := (step replay_asset_result).

(** New rows are numbered behind [q]. *)
Definition adds {R} (number : R -> Z) (q : Z) (m m' : gmap Id R) : Prop :=
  forall i r', m' !! i = Some r' -> is_Some (m !! i) \/ q < number r'.
Lemma adds_refl {R} (number : R -> Z) q m : adds number q m m.
Proof. intros i r Hi. left. by eexists. Qed.
Lemma adds_insert {R} (number : R -> Z) q m i r : q < number r \/ is_Some (m !! i) -> adds number q m (<[i := r]> m).
Proof.
  intros Hr j r' Hj. apply lookup_insert_Some in Hj as [[<- <-]|[_ Hj]]; [by destruct Hr; [right|left]|left; by eexists].
Qed.
Definition adds_rows (s s' : Store) : Prop :=
  adds pj_creation_sequence (last_sequence s) (projects s) (projects s') /\
  adds sj_creation_sequence (last_sequence s) (subjects s) (subjects s') /\
  adds wi_creation_sequence (last_sequence s) (work_items s) (work_items s').
Lemma adds_rows_refl s s' : projects s' = projects s -> subjects s' = subjects s -> work_items s' = work_items s -> adds_rows s s'.
Proof. unfold adds_rows. intros -> -> ->. split_and!; apply adds_refl. Qed.
Ltac open Hc := cbn [Store.execute] in Hc; apply unless_replayed_inv in Hc as [[_ ->]|[_ Hc]]; [by apply adds_rows_refl|]; crunch Hc; try (by apply adds_rows_refl).
Ltac added := split_and!; cbn; first [apply adds_refl|apply adds_insert; first [left; cbn; lia|right; by eexists]].

Lemma execute_adds s ctx c o s' : execute s ctx c = Ok (o, s') -> adds_rows s s'.
Proof.
  destruct c as [r|r|r|r|r|r|r|r]; intros Hc.
  - open Hc. added.
  - open Hc; added.
  - open Hc. added.
  - open Hc. added.
  - open Hc; added.
  - open Hc; added.
  - cbn [Store.execute] in Hc. apply unless_replayed_inv in Hc as [[_ ->]|[_ Hc]]; [by apply adds_rows_refl|]. unfold write_transition in Hc.
    crunch Hc; try (by apply adds_rows_refl).
    match goal with E : write_related _ _ _ _ _ _ _ _ = Ok _ |- _ => apply related_tables in E as (Ep & _ & Ej & Ew & _ & _) end.
    by apply adds_rows_refl.
  - open Hc; added.
Qed.

(** ** Steps *)

(** The numbers of the rows of a table that belong to one scope. *)
Record extends {R} (number : R -> Z) (mine : R -> Prop) (m m' : gmap Id R) : Prop := {
  ex_kept : forall i r, m !! i = Some r -> exists r', m' !! i = Some r' /\ number r' = number r /\ (mine r <-> mine r');
  ex_added : forall i r', m' !! i = Some r' -> mine r' -> is_Some (m !! i) \/ forall j r, m !! j = Some r -> mine r -> number r < number r' }.
#[global] Instance extends_preorder {R} (number : R -> Z) (mine : R -> Prop) : PreOrder (extends number mine).
Proof.
  split.
  - intros m. split; [intros i r Hi; by exists r|]. intros i r Hi _. left. by eexists.
  - intros a b c [K1 A1] [K2 A2]. split.
    + intros i r Hi. destruct (K1 _ _ Hi) as (r1 & H1' & E1 & M1), (K2 _ _ H1') as (r2 & H2' & E2 & M2). exists r2. split_and!; [done|congruence|tauto].
    + intros i r' Hi Hm. destruct (A2 _ _ Hi Hm) as [[r1 Hr1]|Hlt].
      * destruct (K2 _ _ Hr1) as (r2 & Hr2 & En & Mn). assert (r2 = r') as -> by congruence.
        destruct (A1 _ _ Hr1) as [?|Hlt]; [tauto|by left|]. right. intros j r Hj Hr. rewrite En. eauto.
      * right. intros j r Hj Hr. destruct (K1 _ _ Hj) as (r1 & Hj1 & E1 & M1). rewrite <- E1. eapply Hlt; [exact Hj1|tauto].
Qed.
Lemma adds_extends {R} (number : R -> Z) (mine : R -> Prop) (le : R -> R -> Prop) q m m' :
  map_grows le m m' -> (forall r r', le r r' -> number r' = number r /\ (mine r <-> mine r')) -> adds number q m m' -> created number m q ->
  extends number mine m m'.
Proof.
  intros Hg Hle Ha [Hb _]. split.
  - intros i r Hi. destruct (Hg _ _ Hi) as (r' & Hr' & Hl). exists r'. split; [done|]. by apply Hle.
  - intros i r' Hi _. destruct (Ha _ _ Hi) as [|Hq]; [by left|]. right. intros j r Hj _. specialize (Hb _ _ Hj). lia.
Qed.
(** Ordinals leave no gap, so that a new one is behind all others. *)
Lemma numbered_extends {R} (owner : R -> Id) (number : R -> Z) (o : Id) (le : R -> R -> Prop) m m' :
  map_grows le m m' -> (forall r r', le r r' -> number r' = number r /\ owner r' = owner r) -> numbered owner number m -> numbered owner number m' ->
  extends number (fun r => owner r = o) m m'.
Proof.
  intros Hg Hle [_ Hc] [Hu' Hc']. split.
  - intros i r Hi. destruct (Hg _ _ Hi) as (r' & Hr' & Hl). apply Hle in Hl as [En Eo]. exists r'. split_and!; [done..|]. by rewrite Eo.
  - intros i r' Hi Ho. destruct (m !! i) eqn:Em; [left; by eexists|right]. intros j r Hj Hr. apply Z.nle_gt. intros Hle'.
    pose proof (proj1 (Hc' _ _ Hi)) as H1r.
    destruct (Hc _ _ Hj) as [_ Hex]. destruct (Hex (number r')) as (k & b & Hk & Ok & Nk); [lia|].
    destruct (Hg _ _ Hk) as (b' & Hb' & Hl). apply Hle in Hl as [En Eo]. assert (k = i) as -> by (eapply Hu'; [exact Hb'|exact Hi|congruence|congruence]). congruence.
Qed.

Record grown (s s' : Store) : Prop := {
  gw_projects : extends pj_creation_sequence (fun _ => True) (projects s) (projects s');
  gw_subjects : extends sj_creation_sequence (fun _ => True) (subjects s) (subjects s');
  gw_work : forall p, extends wi_creation_sequence (fun w => wi_project w = p) (work_items s) (work_items s');
  gw_takes : forall wr, extends tk_ordinal (fun t => tk_work_revision t = wr) (takes s) (takes s');
  gw_revisions : map_grows eq (work_revisions s) (work_revisions s') }.
#[global] Instance grown_preorder : PreOrder grown.
Proof.
  split; [intros s; constructor; reflexivity|]. intros a b c [] []. constructor; intros; (etrans; [eauto|eauto]).
Qed.
Lemma command_grown c s s' : sound s -> sound s' -> grows c s s' -> adds_rows s s' -> grown s s'.
Proof.
  intros Hs Hs' Hg (Ap & Aj & Aw). constructor.
  - eapply adds_extends; [apply (g_projects _ _ _ Hg)| |exact Ap|apply (so_projects _ Hs)]. unfold project_le. intros r r' Hl. destruct_and!. tauto.
  - eapply adds_extends; [apply (g_subjects _ _ _ Hg)| |exact Aj|apply (so_subjects _ Hs)]. by intros r r' <-.
  - intros p. eapply adds_extends; [apply (g_work_items _ _ _ Hg)| |exact Aw|apply (so_work _ Hs)].
    intros r r' (Hpr & _ & _ & Hq & _). split; [done|]. by rewrite Hpr.
  - intros wr. eapply numbered_extends; [apply (g_takes _ _ _ Hg)| |apply (so_takes _ Hs)|apply (so_takes _ Hs')]. intros r r' (? & ? & _)%take_le_facts. done.
  - apply (g_work_revisions _ _ _ Hg).
Qed.
Lemma step_grown s s' : step s s' -> sound s -> grown s s'.
Proof.
  intros Hst Hs. assert (sound s') as Hs' by (by eapply step_sound). destruct Hst as [ctx c Hf|s'' Ha].
  - unfold Store.after in *. destruct (execute s ctx c) as [[o s1]|] eqn:E; [|reflexivity]. pose proof (execute_adds _ _ _ _ _ E) as Hadd.
    apply execute_effect in E as [[_ ->]|(at_ & _ & _ & Hg & _)]; [reflexivity|]. by eapply command_grown.
  - destruct Ha as (Hp & _ & Hj & Hw & Hr & Ht & _). constructor; intros; rewrite ?Hp, ?Hj, ?Hw, ?Hr, ?Ht; reflexivity.
Qed.
Lemma steps_grown s s' : rtc step s s' -> sound s -> grown s s' /\ sound s'.
Proof.
  induction 1 as [s|a b c Hab _ IH]; intros Hs; [by split|]. destruct IH as [Hg Hc]; [by eapply step_sound|]. split; [|done].
  etrans; [by eapply step_grown|done].
Qed.
Lemma context_kept s s' p w wr : grown s s' -> take_context_exists s p w wr = true -> take_context_exists s' p w wr = true.
Proof.
  intros Hg. unfold take_context_exists. destruct (work_items s !! w) as [x|] eqn:Ew; [|done]. destruct (work_revisions s !! wr) as [y|] eqn:Er; [|done].
  destruct (ex_kept _ _ _ _ (gw_work _ _ Hg p) _ _ Ew) as (x' & -> & _ & Hm). destruct (gw_revisions _ _ Hg _ _ Er) as (y' & -> & <-).
  rewrite !andb_true_iff, !bool_decide_eq_true. tauto.
Qed.
End growth.

(** ** Every row can be shown *)

Section views.
Context `{StoreEnv} `{SerdeJson} `{!SerdeJsonLaws} `{!StoreEnvLaws H}.
Context (s : Store) (Hs : sound s) (Hlast : last_sequence s <= I64_MAX).

Lemma column_u64_ok z : 0 <= z <= I64_MAX -> column_u64 z = Ok z.
Proof. intros Hz. unfold column_u64. rewrite try_into_id; [done|]. unfold I64_MAX, U64_MAX in *. lia. Qed.
Lemma created_u64 {R} (number : R -> Z) m i r : created number m (last_sequence s) -> m !! i = Some r -> column_u64 (number r) = Ok (number r).
Proof. intros [Hb _] Hi. apply column_u64_ok. specialize (Hb _ _ Hi). lia. Qed.
Lemma views_length {R V} (f : R -> res V) l vs : views f l = Ok vs -> length vs = length l.
Proof.
  revert vs. induction l as [|r l IH]; intros vs Hv; cbn in Hv; [by injection Hv as <-|].
  apply result_bind_ok in Hv as (v & _ & Hv). apply result_bind_ok in Hv as (vs' & Hvs & Hv). injection Hv as <-. cbn. f_equal. auto.
Qed.

Lemma project_shown i p sp :
  projects s !! i = Some p -> current_spec s i p = Some sp -> exists v, project_view (i, p, sp) = Ok v /\ pv_project_id v = i.
Proof.
  intros Hp Hc. destruct (sound_current_spec _ _ _ Hs Hp) as (sp' & Hc' & Hsp & Ho & Hv). assert (sp' = sp) as -> by congruence.
  apply verify_project_facts in Hv as (Hi & Hn & Hcur & Hq & _ & _ & Ht & Hu & _). pose proof (ps_specs _ _ _ (so_projects _ Hs) _ _ Hsp) as Hvs. cbn [verify_spec] in Hvs.
  apply result_bind_ok in Hvs as (? & _ & Hvs). apply result_bind_ok in Hvs as (? & _ & Hvs). apply result_bind_ok in Hvs as (? & _ & Hvs). case_match; [done|].
  apply result_bind_ok in Hvs as (res_ & Hres & Hvs). apply result_bind_ok in Hvs as (fr & Hfr & Hvs). apply result_bind_ok in Hvs as (ar & Har & Hvs).
  apply result_bind_ok in Hvs as (ps & Hps & _). unfold project_view, project_specification.
  rewrite id_ok by done. cbn [result_bind]. rewrite Hn. cbn [corrupt map_err result_bind]. rewrite !timestamp_ok by done. cbn [result_bind].
  rewrite (created_u64 _ _ _ _ (ps_created _ _ _ (so_projects _ Hs)) Hp). cbn [result_bind]. rewrite id_ok by done. cbn [result_bind].
  rewrite column_u32_ok by (unfold is_u32; lia). cbn [result_bind]. rewrite Hres. cbn [result_bind]. rewrite Hps. cbn [result_bind]. rewrite Hfr, Har. cbn [result_bind].
  unfold validate_project_policies in Hps. apply result_bind_ok in Hps as (can & Hcan & Hps). apply views_length in Hcan. case_match; [done|].
  apply result_bind_ok in Hps as (stored & Hst & Hps). case_match; [done|]. injection Hps as <-. rewrite Hst.
  destruct can as [|c1 [|c2 [|c3 [|c4 [|]]]]]; try done. cbn [result_bind]. eexists. by split.
Qed.
Lemma subject_shown i r : subjects s !! i = Some r -> exists v, subject_view (i, r) = Ok v /\ sv_subject_id v = i.
Proof.
  intros Hi. pose proof (js_rows _ _ (so_subjects _ Hs) _ _ Hi) as Hv. cbn [verify_subject] in Hv.
  apply result_bind_ok in Hv as (? & [Hid _]%id_valid_ok & Hv). apply result_bind_ok in Hv as (k & Hk & Hv). apply result_bind_ok in Hv as (nm & Hn & Hv).
  case_match; [done|]. apply result_bind_ok in Hv as (? & _ & Hv). apply result_bind_ok in Hv as (t & Ht & _).
  unfold subject_view. rewrite id_ok by done. cbn [result_bind]. rewrite Hk. cbn [result_bind]. rewrite Hn. cbn [result_bind]. rewrite Ht. cbn [result_bind].
  rewrite (created_u64 _ _ _ _ (js_created _ _ (so_subjects _ Hs)) Hi). cbn [result_bind]. eexists. by split.
Qed.

(** *** Edges *)

Lemma edges_from_perm source kind : edges_from s source kind ≡ₚ List.filter (fun e => bool_decide (rl_source e = source) && bool_decide (rl_kind e = kind)) (relationships s).
Proof. apply sort_by_perm. Qed.
Lemma edges_from_elem source kind e : e ∈ edges_from s source kind -> e ∈ relationships s /\ rl_source e = source /\ rl_kind e = kind.
Proof. rewrite edges_from_perm, list_elem_of_In, filter_In, <- list_elem_of_In. intros [? Hb]. bool_hyps. done. Qed.
Lemma edges_from_size source kind :
  (length (edges_from s source kind) <= match kind with WorkSubject | WorkAsset => 64 | _ => 1 end)%nat.
Proof.
  destruct (edges_from s source kind) as [|e l] eqn:E; [cbn; lia|]. assert (e ∈ edges_from s source kind) as He by (rewrite E; set_solver).
  rewrite <- E. apply edges_from_elem in He as (Hin & <- & <-). pose proof (eg_groups _ (so_edges _ Hs)) as Hg. rewrite Forall_forall in Hg. specialize (Hg _ Hin).
  rewrite group_size in Hg. cbv zeta in Hg. rewrite edges_from_perm. unfold same_group, blen in Hg. destruct (rl_kind e); apply Z.ltb_ge in Hg; lia.
Qed.
Lemma edges_valid e : e ∈ relationships s -> valid (rl_id e) /\ valid (rl_target e).
Proof. intros He. pose proof (eg_rows _ (so_edges _ Hs)) as Hr. rewrite Forall_forall in Hr. by destruct (Hr _ He) as (_ & ? & ?). Qed.
Lemma edges_from_targets source kind : NoDup (map rl_target (edges_from s source kind)).
Proof.
  rewrite edges_from_perm. pose proof (eg_unique _ (so_edges _ Hs)) as Hu. induction (relationships s) as [|e l IH]; cbn; [constructor|].
  cbn in Hu. apply NoDup_cons in Hu as [Hn Hu]. destruct (bool_decide (rl_source e = source) && bool_decide (rl_kind e = kind)) eqn:E; [|auto].
  cbn. constructor; [|auto]. bool_hyps. intros Hin. apply Hn. apply list_elem_of_fmap in Hin as (x & Ex & Hx). apply list_elem_of_In, filter_In in Hx as [Hx Hb].
  apply list_elem_of_In in Hx. bool_hyps. apply list_elem_of_fmap. exists x. split; [|done]. unfold edge_of. congruence.
Qed.
Lemma targets_shown source kind :
  kind = WorkSubject \/ kind = WorkAsset -> exists l, relationship_targets s source kind 64 = Ok l /\ NoDup l /\ (length l <= 64)%nat.
Proof.
  intros Hk. assert (length (edges_from s source kind) <= 64)%nat as Hl by (pose proof (edges_from_size source kind) as Hsz; destruct Hk as [-> | ->]; exact Hsz).
  unfold relationship_targets. rewrite take_ge by lia. rewrite (proj2 (Nat.ltb_ge _ _)) by lia. exists (map rl_target (edges_from s source kind)).
  split; [|split; [apply edges_from_targets|by rewrite length_map]].
  assert (forall e, e ∈ edges_from s source kind -> valid (rl_target e)) as Hv by (intros e (He & _)%edges_from_elem; by apply edges_valid).
  clear Hl. induction (edges_from s source kind) as [|e l IH]; cbn; [done|]. rewrite id_ok by (apply Hv; set_solver). cbn [result_bind]. rewrite IH by set_solver. done.
Qed.
Lemma work_spec_ok json su as_ :
  NoDup su -> (length su <= 64)%nat -> NoDup as_ -> (length as_ <= 64)%nat -> exists sp, work_specification_new json su as_ = Ok sp.
Proof.
  intros Hs1 Hs2 Ha1 Ha2. unfold work_specification_new, validate_relationship_set, blen.
  rewrite !(proj2 (btree_collect_length _)) by done. rewrite !Z.eqb_refl, !(proj2 (Z.ltb_ge _ _)) by lia. cbn. by eexists.
Qed.
Lemma work_shown i w wr :
  work_items s !! i = Some w -> current_work_revision s i w = Some wr -> exists v, work_view s (wi_project w) (i, w, wr) = Ok v /\ wv_work_item_id v = i.
Proof.
  intros Hi Hc. destruct (wk_current _ _ _ (so_work _ Hs) _ _ Hi) as (wr' & Hwr & Ho & Hv).
  assert (wr' = wr) as ->. { unfold current_work_revision in Hc. rewrite Hwr, bool_decide_eq_true_2 in Hc by done. congruence. }
  apply verify_work_item_facts in Hv as (Hid & _ & Hcode & Hcur & Hq & _ & _ & Ht & Hu & _).
  pose proof (wk_revisions _ _ _ (so_work _ Hs) _ _ Hwr) as Hr. cbn [verify_work_revision] in Hr.
  apply result_bind_ok in Hr as (? & _ & Hr). apply result_bind_ok in Hr as (? & _ & Hr). apply result_bind_ok in Hr as (? & _ & Hr). case_match; [done|].
  apply result_bind_ok in Hr as (stored & Hst & Hr). apply result_bind_ok in Hr as (parsed & Hparsed & Hr). case_match eqn:Ej; [done|]. clear Hr. bool_hyps.
  pose proof Hparsed as Hp2. apply map_err_ok, work_json_reads in Hp2 as [_ Hd].
  destruct (targets_shown (wi_current_revision w) WorkSubject) as (su & Hsu & Nsu & Lsu); [by left|].
  destruct (targets_shown (wi_current_revision w) WorkAsset) as (as_ & Has & Nas & Las); [by right|].
  destruct (work_spec_ok parsed su as_) as (sp & Hsp); [done..|].
  unfold work_view. rewrite id_ok by done. cbn [result_bind]. rewrite Hsu. cbn [result_bind]. rewrite Has. cbn [result_bind]. unfold read_work_json. rewrite Hst. cbn [result_bind].
  rewrite (bool_decide_eq_true_2 (sha256 _ = stored)) by congruence. cbn [negb]. rewrite Hparsed. cbn [result_bind]. rewrite !bool_decide_eq_true_2 by done. cbn [negb orb result_bind].
  rewrite id_ok by done. cbn [result_bind]. rewrite Hcode. cbn [corrupt map_err result_bind]. rewrite !timestamp_ok by done. cbn [result_bind].
  rewrite (created_u64 _ _ _ _ (wk_created _ _ _ (so_work _ Hs)) Hi). cbn [result_bind]. rewrite column_u32_ok by (unfold is_u32; lia). cbn [result_bind].
  rewrite Hsp. cbn. eexists. by split.
Qed.
Lemma take_shown i t : takes s !! i = Some t -> exists v, take_view s (tk_work_revision t) (i, t) = Ok v /\ tv_take_id v = i.
Proof.
  intros Hi. pose proof (ts_rows _ (so_takes _ Hs) _ _ Hi) as Hv. apply verify_take_facts in Hv as (Hid & _ & Ho & Ha & _ & _ & _ & Ht & Hu).
  unfold take_view. rewrite id_ok by done. cbn [result_bind]. pose proof (edges_from_size i TakeReopens). pose proof (edges_from_size i TakeSupersedes).
  unfold take_edges. rewrite take_ge by (rewrite length_app; cbn in *; lia). rewrite (proj2 (Nat.ltb_ge _ _)) by (rewrite length_app; cbn in *; lia).
  destruct (is_ok_exists (views relationship_view (edges_from s i TakeReopens ++ edges_from s i TakeSupersedes))) as [rels Hrels].
  { assert (forall e, e ∈ edges_from s i TakeReopens ++ edges_from s i TakeSupersedes -> e ∈ relationships s) as Hr by (intros e [He|He]%elem_of_app; by apply edges_from_elem in He as []).
    induction (edges_from s i TakeReopens ++ edges_from s i TakeSupersedes) as [|e l IH]; cbn; [done|]. destruct (edges_valid e) as [? ?]; [apply Hr; set_solver|].
    assert (exists v, relationship_view e = Ok v) as [v ->] by (unfold relationship_view; rewrite !id_ok by done; by eexists).
    cbn [result_bind]. destruct (views relationship_view l); [done|]. apply IH. set_solver. }
  rewrite Hrels. cbn [result_bind]. rewrite column_u32_ok by (unfold is_u32; lia). cbn [result_bind]. rewrite id_ok by done. cbn [result_bind].
  rewrite !timestamp_ok by done. cbn. eexists. by split.
Qed.
End views.
End Growth.
