(* ===== verification/CreativeLists.v ===== *)
(** The lists of the creative query service, followed by their cursors. *)
From Stdlib Require Import ZArith Lia String.
From Stdlib Require Import Strings.Byte Init.Byte.
From stdpp Require Import prelude list gmap sorting relations.
From S2P Require Import Prelude RustText Ord Types Events AssetDomain CreativeDomain Ports CommandLedger CreativeStore StoreScenario StoreFrame StoreSteps CreativeTakes AssetStore StartupRecovery AssetQuery AssetListing AssetInspect AssetCursors CursorFacts CreativeJson CreativeQuery CreativeSound CreativeVerified CreativeService CreativePaging.

Set Warnings "-clear-no-such-hyp".

Module Lists.
Import Ports Ledger Store Creative Json JsonFacts CreativeQuery Sound Verified Paging Growth.
Abbreviation Kind := CreativeService.CreativeCursorKind.

(** ** Cursors *)

Section cursors.
Context `{StoreEnv} `{!StoreEnvLaws H}.
Import CreativeService.

Definition kind_ok (kind : Kind) : Prop := length (scope kind).2 = 16%nat.
Lemma filter_length kind : length (creative_filter_digest kind) = 32%nat.
Proof. apply sha256_length. Qed.
Lemma magic_length kind : length (magic kind) = 16%nat.
Proof. by destruct kind. Qed.
Lemma prefix_length library_id e k kind :
  length library_id = 16%nat -> kind_ok kind -> length (cursor_prefix library_id e k kind) = 128%nat.
Proof.
  intros Hl Hk. unfold cursor_prefix. rewrite !length_app, !be_bytes_length, magic_length, filter_length, Hl, Hk. done.
Qed.
Ltac field_len := solve [apply be_bytes_length | apply magic_length | apply filter_length | assumption | reflexivity].
Ltac skip_to :=
  repeat first
    [rewrite CursorFacts.range_skip with (n := 1%nat) by (field_len || lia)|rewrite CursorFacts.range_skip with (n := 2%nat) by (field_len || lia)
    |rewrite CursorFacts.range_skip with (n := 4%nat) by (field_len || lia)|rewrite CursorFacts.range_skip with (n := 7%nat) by (field_len || lia)
    |rewrite CursorFacts.range_skip with (n := 8%nat) by (field_len || lia)|rewrite CursorFacts.range_skip with (n := 16%nat) by (field_len || lia)
    |rewrite CursorFacts.range_skip with (n := 32%nat) by (field_len || lia)];
  cbn [Nat.sub]; first [rewrite CursorFacts.range_here by field_len|rewrite CursorFacts.range_full by field_len].
Lemma prefix_fields library_id e k kind :
  length library_id = 16%nat -> kind_ok kind -> let c := cursor_prefix library_id e k kind in
  Cursors.range c 0 16 = magic kind /\ Cursors.range c 16 18 = be_bytes 2 1 /\ Cursors.range c 18 20 = be_bytes 2 CREATIVE_CURSOR_LENGTH /\
  Cursors.range c 20 24 = repeat x00 4 /\ Cursors.range c 24 40 = library_id /\ Cursors.range c 40 41 = [(scope kind).1] /\
  Cursors.range c 41 48 = repeat x00 7 /\ Cursors.range c 48 64 = (scope kind).2 /\ Cursors.range c 64 72 = be_bytes 8 e /\
  Cursors.range c 72 80 = be_bytes 8 k /\ Cursors.range c 80 112 = creative_filter_digest kind /\ Cursors.range c 112 128 = repeat x00 16.
Proof. intros Hl Hk c. unfold c, cursor_prefix, kind_ok in *. split_and!; by skip_to. Qed.

Lemma cursor_decode_encode library_id e k kind p :
  length library_id = 16%nat -> kind_ok kind -> is_u64 e -> is_u64 k -> position_after library_id e k = Ok p ->
  exists c, encode_creative_cursor p library_id kind = Ok c /\ decode_creative_cursor c library_id kind = Ok p /\ c <> [].
Proof.
  intros Hl Hk He Hkey Hpos. assert (p = After library_id e k) as -> by (unfold position_after in Hpos; by inv_result).
  set (q := cursor_prefix library_id e k kind). exists (q ++ sha256 q). cbn [encode_creative_cursor]. rewrite bool_decide_eq_true_2 by done.
  pose proof (prefix_length library_id e k kind Hl Hk) as Hlen. fold q in Hlen.
  destruct (prefix_fields library_id e k kind Hl Hk) as (F1 & F2 & F3 & F4 & F5 & F6 & F7 & F8 & F9 & F10 & F11 & F12).
  fold q in F1, F2, F3, F4, F5, F6, F7, F8, F9, F10, F11, F12. split_and!; [done| |].
  - assert (length (q ++ sha256 q) = 160%nat) as Hc by (rewrite length_app, sha256_length, Hlen; done).
    unfold decode_creative_cursor, Cursors.be_at, CREATIVE_CURSOR_PREFIX_LENGTH. unfold blen. rewrite Hc.
    rewrite !(CursorFacts.range_inner q _ 128) by (done || lia). rewrite F1, F2, F3, F4, F5, F6, F7, F8, F9, F10, F11, F12.
    rewrite (CursorFacts.range_full q 128), (drop_app_length' q _ 128) by done. rewrite !CursorFacts.zeros_repeat, !be_value_u64 by done.
    rewrite !bool_decide_eq_true_2 by done. exact Hpos.
  - intros Hn. apply (f_equal length) in Hn. rewrite length_app, Hlen in Hn. cbn in Hn. lia.
Qed.
Lemma decode_inv c library_id kind p : decode_creative_cursor c library_id kind = Ok p -> encode_creative_cursor p library_id kind = Ok c.
Proof.
  unfold decode_creative_cursor. intros Hd. inv_result. bool_hyps. unfold CREATIVE_CURSOR_PREFIX_LENGTH in *.
  assert (length c = 160%nat) as Hlen by (unfold blen, CREATIVE_CURSOR_LENGTH in *; lia). pose proof Hd as Hpos. unfold position_after in Hpos. inv_result.
  cbn [encode_creative_cursor]. rewrite bool_decide_eq_true_2 by done. cbn [negb]. do 2 f_equal.
  assert (cursor_prefix (Cursors.range c 24 40) (Cursors.be_at c 64 72) (Cursors.be_at c 72 80) kind = Cursors.range c 0 128) as Hp.
  { unfold cursor_prefix. rewrite !CursorFacts.be_range by (done || lia).
    rewrite (CursorFacts.range_split c 0 16 128), (CursorFacts.range_split c 16 18 128), (CursorFacts.range_split c 18 20 128),
      (CursorFacts.range_split c 20 24 128), (CursorFacts.range_split c 24 40 128), (CursorFacts.range_split c 40 41 128),
      (CursorFacts.range_split c 41 48 128), (CursorFacts.range_split c 48 64 128), (CursorFacts.range_split c 64 72 128),
      (CursorFacts.range_split c 72 80 128), (CursorFacts.range_split c 80 112 128) by lia.
    rewrite <- (CursorFacts.be_range c 16 18 2), <- (CursorFacts.be_range c 18 20 2) by (done || lia).
    repeat match goal with E : Cursors.zeros _ = true |- _ => apply CursorFacts.zeros_eq in E; rewrite CursorFacts.range_length in E by lia; cbn [Nat.sub] in E end.
    by congruence. }
  rewrite Hp. symmetry. rewrite (CursorFacts.range_all c 128) at 1. by f_equal.
Qed.
(** A cursor belongs to one library and one list. *)
Lemma decode_bound c library_id library_id' kind kind' p p' :
  decode_creative_cursor c library_id kind = Ok p -> decode_creative_cursor c library_id' kind' = Ok p' -> library_id = library_id' /\ kind = kind' /\ p = p'.
Proof.
  unfold decode_creative_cursor. intros Hd Hd'. inv_result. bool_hyps. assert (library_id = library_id') as <- by congruence.
  assert (magic kind = magic kind') as Hm by congruence. assert ((scope kind).2 = (scope kind').2) as Hs by congruence.
  split_and!; [done| |congruence]. destruct kind, kind'; try (vm_compute in Hm; discriminate Hm); try done; cbn in Hs; congruence.
Qed.
End cursors.

(** ** Following cursors *)

(** A client that sends back the cursor of each answer; the [t]-th request meets the
    store of that moment. *)
Fixpoint follow {T} (fuel : nat) (ask : nat -> option (list byte) -> res (CreativePage T * option (list byte))) (t : nat)
    (cursor : option (list byte)) : res (list T) :=
  match fuel with
  | O => Err SeInternal
  | S fuel =>
      let? (page, next) := ask t cursor in
      match next with
      | None => Ok (cp_items page)
      | Some c => let? rest := follow fuel ask (S t) (Some c) in Ok (cp_items page ++ rest)
      end
  end.

Section follow.
Context `{StoreEnv} `{!StoreEnvLaws H}.
Context {K R V : Type} (scope : nat -> list K) (scope_key : K -> Z) (rows : nat -> list R) (key : R -> Key)
        (view : nat -> R -> res V) (ident : V -> Id) (library_id : Id) (size : Z) (kind : Kind).
Context (Hp : pages scope scope_key rows key view ident) (Hl : length library_id = 16%nat) (Hlib : library_id <> zero_library)
        (Hsize : 1 <= size <= 64) (Hkind : kind_ok kind).
Definition ask (t : nat) (cursor : option (list byte)) : res (CreativePage V * option (list byte)) :=
  CreativeService.listed library_id size cursor kind CursorFacts.calm false
    (fun q => list_rows (scope t) scope_key (rows t) key (view t) library_id q).

Lemma ask_page t cursor after position page :
  CreativeService.position library_id cursor kind = Ok position -> stands_at rows key library_id t after position ->
  list_rows (scope t) scope_key (rows t) key (view t) library_id {| lq_page_size := size; lq_position := position |} = Ok page ->
  ask t cursor = CreativeService.response library_id page kind.
Proof.
  intros Hpos _ Hpage. unfold ask, CreativeService.listed. rewrite Hpos. cbn [result_bind]. unfold creative_list_query_new.
  rewrite try_into_id by (unfold U8_MAX; lia). cbn [ok_or result_bind]. rewrite (proj2 (Z.leb_le 1 size)), (proj2 (Z.leb_le size 64)) by lia.
  cbn [andb negb result_bind]. rewrite Hpage. done.
Qed.
Lemma follow_left fuel t after position cursor :
  stands_at rows key library_id t after position -> CreativeService.position library_id cursor kind = Ok position ->
  (length (left_of rows key after) < fuel)%nat ->
  exists found, follow fuel ask t cursor = Ok found /\ map ident found = map snd (left_of rows key after).
Proof.
  revert t after position cursor. induction fuel as [|fuel IH]; intros t after position cursor Hs Hpos Hf; [lia|].
  destruct (one_page _ _ _ _ _ _ library_id size Hp Hlib Hsize t after position Hs) as (items & Hpage & Hitems).
  cbn [follow]. rewrite (ask_page _ _ _ _ _ Hpos Hs Hpage). unfold CreativeService.response, page_next, first_page in *. cbn [cp_next].
  destruct (n size <? length (left_of rows key after))%nat eqn:E; [apply Nat.ltb_lt in E|apply Nat.ltb_ge in E].
  - destruct (last_take_Some (left_of rows key after) (n size)) as (k & Hk); [unfold n; lia|lia|]. rewrite Hk. cbn [option_map].
    assert (1 <= k.1 < endpoint rows key) as Hkb by (by eapply next_position). assert (0 <= endpoint rows key <= I64_MAX) as Heb by (eapply endpoint_spec; eassumption).
    assert (position_after library_id (endpoint rows key) k.1 = Ok (After library_id (endpoint rows key) k.1)) as Hafter.
    { unfold position_after. rewrite bool_decide_eq_false_2 by done. by rewrite !(proj2 (Z.eqb_neq _ _)), (proj2 (Z.ltb_ge _ _)), (proj2 (Z.leb_gt _ _)) by lia. }
    destruct (cursor_decode_encode library_id (endpoint rows key) k.1 kind (After library_id (endpoint rows key) k.1) Hl Hkind) as (c & -> & Hd & Hc); [unfold is_u64, I64_MAX, U64_MAX in *; lia..|exact Hafter|].
    cbn [result_bind]. assert (rising (left_of rows key after)) as Hris by (eapply left_rising; eassumption).
    pose proof (rising_filter_after _ _ _ Hris Hk) as Hdrop.
    assert (left_of rows key k.1 = drop (n size) (left_of rows key after)) as Hleft.
    { rewrite <- Hdrop. unfold left_of. clear -Hk Hdrop Hp Hs. apply last_Some_elem_of in Hk.
      assert (k ∈ left_of rows key after) as Hkl by (rewrite <- (take_drop (n size)); set_solver). apply left_elem in Hkl as [_ Hlt].
      induction (in_order (keys rows key 0)) as [|x l IHl]; cbn; [done|]. destruct (after <? x.1) eqn:Ea; cbn; rewrite ?IHl; [done|].
      apply Z.ltb_ge in Ea. rewrite (proj2 (Z.ltb_ge _ _)) by lia. done. }
    destruct (IH (S t) k.1 (After library_id (endpoint rows key) k.1) (Some c)) as (found & Hfound & Hid).
    + right. split; [done|lia].
    + cbn. by destruct c.
    + rewrite Hleft, length_drop. unfold n in *. lia.
    + rewrite Hfound. cbn [result_bind]. eexists. split; [done|]. cbn [cp_items]. rewrite map_app, Hitems, Hid, Hleft, <- map_app, take_drop. done.
  - cbn [result_bind]. eexists. split; [done|]. cbn [cp_items]. rewrite Hitems. f_equal. by apply take_ge.
Qed.
(** Followed from the start, with one request more than there are rows. *)
Lemma follow_all :
  exists found, follow (S (length (rows O))) ask 0 None = Ok found /\ map ident found = map snd (in_order (map key (rows O))).
Proof.
  assert (left_of rows key 0 = in_order (map key (rows O))) as Hall.
  { unfold left_of. fold (keys rows key 0). assert (Forall (fun k => (0 <? k.1) = true) (in_order (keys rows key 0))) as Hpos.
    { apply Forall_forall. intros k Hk. unfold in_order in Hk. rewrite sort_by_perm in Hk. apply (pg_bound _ _ _ _ _ _ Hp 0) in Hk. apply Z.ltb_lt. lia. }
    induction Hpos as [|x l Hx _ IHl]; cbn; [done|]. by rewrite Hx, IHl. }
  destruct (follow_left (S (length (rows O))) 0 0 First None) as (found & Hf & Hid); [by left|done| |by exists found; rewrite <- Hall].
  rewrite Hall. unfold in_order. rewrite sort_by_perm, length_map. lia.
Qed.
End follow.

(** ** Tables that are listed *)

Section table.
Context {Row R V : Type} (table : nat -> gmap Id Row) (number : Row -> Z) (mine : Row -> Prop)
        (scope : nat -> list (Id * Row)) (rows : nat -> list R) (key : R -> Key) (view : nat -> R -> res V) (ident : V -> Id).
Context (Hscope : forall t i r, (i, r) ∈ scope t <-> table t !! i = Some r /\ mine r) (Hnodup : forall t, NoDup (scope t))
        (Hkeys : forall t, map key (rows t) = map (fun x => (number x.2, x.1)) (scope t))
        (Hbound : forall t i r, table t !! i = Some r -> 1 <= number r <= I64_MAX)
        (Hunique : forall t i j a b, table t !! i = Some a -> table t !! j = Some b -> mine a -> mine b -> number a = number b -> i = j)
        (Hview : forall t r, r ∈ rows t -> exists v, view t r = Ok v /\ ident v = (key r).2)
        (Hext : forall t, extends number mine (table t) (table (S t))).
Lemma key_of t z i : (z, i) ∈ map key (rows t) <-> exists r, table t !! i = Some r /\ mine r /\ number r = z.
Proof.
  rewrite Hkeys, list_elem_of_fmap. split.
  - intros ([j r] & [= -> ->] & Hr). apply Hscope in Hr as []. by exists r.
  - intros (r & Hr & Hm & <-). exists (i, r). split; [done|]. by apply Hscope.
Qed.
Lemma table_pages : pages scope (fun x => number x.2) rows key view ident.
Proof.
  constructor; unfold keys.
  - intros t. rewrite Hkeys, map_map. done.
  - intros t [z i] (r & Hr & _ & <-)%key_of. by eapply Hbound.
  - intros t. rewrite Hkeys, map_map. apply NoDup_fmap_2_strong; [|apply Hnodup]. intros [i a] [j b] [Ha Hma]%Hscope [Hb Hmb]%Hscope Hn. cbn in Hn.
    assert (i = j) as <- by (by eapply Hunique). congruence.
  - done.
  - intros t [z i] (r & Hr & Hm & <-)%key_of. apply key_of. destruct (ex_kept _ _ _ _ (Hext t) _ _ Hr) as (r' & Hr' & Hn & Hmm). exists r'. split_and!; [done|tauto|done].
  - intros t [z i] [z' j] (r & Hr & Hm & <-)%key_of (r' & Hr' & Hm' & <-)%key_of. destruct (ex_added _ _ _ _ (Hext t) _ _ Hr Hm) as [[r0 Hr0]|Hlt]; [left|right; cbn; eauto].
    apply key_of. destruct (ex_kept _ _ _ _ (Hext t) _ _ Hr0) as (r1 & Hr1 & Hn & Hmm). assert (r1 = r) as -> by congruence. exists r0. split_and!; [done|tauto|done].
Qed.
End table.
Lemma omap_map {A B C} (f : A -> option B) (g : B -> C) (h : A -> C) l :
  (forall x, x ∈ l -> exists y, f x = Some y /\ g y = h x) -> map g (omap f l) = map h l.
Proof.
  induction l as [|x l IH]; intros Hf; [done|]. destruct (Hf x) as (y & Hy & Hg); [set_solver|]. cbn. rewrite Hy. cbn. rewrite Hg. f_equal. apply IH. set_solver.
Qed.
(** The rows of a table, or those of one owner, in the order of their numbers. *)
Definition listing {Row} (number : Row -> Z) (mine : Row -> bool) (m : gmap Id Row) : list Id :=
  map snd (in_order (map (fun x => (number x.2, x.1)) (List.filter (fun x => mine x.2) (map_to_list m)))).

Lemma follow_ext {T} fuel (f g : nat -> option (list byte) -> res (CreativePage T * option (list byte))) t cursor :
  (forall t c, f t c = g t c) -> follow fuel f t cursor = follow fuel g t cursor.
Proof.
  intros Hfg. revert t cursor. induction fuel as [|fuel IH]; intros t cursor; cbn [follow]; [done|]. rewrite Hfg.
  destruct (g t cursor) as [[page [c|]]|]; [|done..]. cbn [result_bind]. by rewrite IH.
Qed.
Lemma listed_ext `{StoreEnv} {T} library_id size cursor kind control interrupted (f g : CreativeListQuery -> res (CreativePage T)) :
  (forall q, f q = g q) ->
  CreativeService.listed library_id size cursor kind control interrupted f = CreativeService.listed library_id size cursor kind control interrupted g.
Proof.
  intros Hfg. unfold CreativeService.listed. destruct (CreativeService.position _ _ _); [|done]. cbn [result_bind].
  destruct (creative_list_query_new _ _); [|done]. cbn [result_bind]. by rewrite Hfg.
Qed.

(** ** The four lists *)

Section lists.
Context `{StoreEnv} `{SerdeJson} `{!SerdeJsonLaws} `{!StoreEnvLaws H}.
Context (replay_asset_result : Store -> CommandRow -> result AssetStoreError CommandResult).
Context (view : nat -> Store) (library_id : Id) (size : Z).
Context (Hl : length library_id = 16%nat) (Hlib : library_id <> zero_library) (Hsize : 1 <= size <= 64)
        (Hreach : reachable replay_asset_result (view O)) (Hsteps : forall t, rtc (step replay_asset_result) (view t) (view (S t)))
        (Hlast : forall t, last_sequence (view t) <= I64_MAX).
Lemma view_sound t : sound (view t).
Proof.
  induction t as [|t IH]; [exact (reachable_sound replay_asset_result _ Hreach)|]. exact (proj2 (steps_grown replay_asset_result _ _ (Hsteps t) IH)).
Qed.
Lemma view_grown t : grown (view t) (view (S t)).
Proof. exact (proj1 (steps_grown replay_asset_result _ _ (Hsteps t) (view_sound t))). Qed.
Lemma created_bound {Row} (number : Row -> Z) t m i r : created number m (last_sequence (view t)) -> m !! i = Some r -> 1 <= number r <= I64_MAX.
Proof. intros [Hb _] Hi. specialize (Hb _ _ Hi). specialize (Hlast t). lia. Qed.
Lemma filter_all {A} (l : list A) : List.filter (fun _ => true) l = l.
Proof. induction l; cbn; congruence. Qed.

Lemma subjects_followed :
  exists found, follow (S (length (listing sj_creation_sequence (fun _ => true) (subjects (view O)))))
    (fun t c => CreativeService.list_subjects (view t) library_id size c CursorFacts.calm false) 0 None = Ok found /\
    map sv_subject_id found = listing sj_creation_sequence (fun _ => true) (subjects (view O)).
Proof.
  set (rows := fun t => map_to_list (subjects (view t))).
  assert (pages rows (fun x => sj_creation_sequence x.2) rows subject_key (fun _ => subject_view) sv_subject_id) as Hp.
  { apply (table_pages (fun t => subjects (view t)) sj_creation_sequence (fun _ => True)).
    - intros t i r. unfold rows. rewrite elem_of_map_to_list. tauto.
    - intros t. apply NoDup_map_to_list.
    - done.
    - intros t i r. apply (created_bound _ t), (so_subjects _ (view_sound t)).
    - intros t i j a b Ha Hb _ _. by apply (so_subjects _ (view_sound t)).
    - intros t [i r] Hr. apply elem_of_map_to_list in Hr. apply (subject_shown (view t)); [apply view_sound|apply Hlast|done].
    - intros t. apply view_grown. }
  destruct (follow_all _ _ _ _ _ _ library_id size CreativeService.Subjects Hp) as (found & Hf & Hid); [done..|].
  exists found. unfold listing. rewrite filter_all. split; [|done]. rewrite length_map. unfold in_order. rewrite sort_by_perm, length_map. exact Hf.
Qed.
Lemma projects_followed :
  exists found, follow (S (length (listing pj_creation_sequence (fun _ => true) (projects (view O)))))
    (fun t c => CreativeService.list_projects (view t) library_id size c CursorFacts.calm false) 0 None = Ok found /\
    map pv_project_id found = listing pj_creation_sequence (fun _ => true) (projects (view O)).
Proof.
  set (scope := fun t => map_to_list (projects (view t))). set (rows := fun t => joined_projects (view t)).
  assert (forall t, map project_key (rows t) = map (fun x => (pj_creation_sequence x.2, x.1)) (scope t)) as Hk.
  { intros t. apply omap_map. intros [i p] Hi%elem_of_map_to_list. destruct (sound_current_spec _ _ _ (view_sound t) Hi) as (sp & -> & _).
    cbn [option_map]. eexists. by split. }
  assert (pages scope (fun x => pj_creation_sequence x.2) rows project_key (fun _ => project_view) pv_project_id) as Hp.
  { apply (table_pages (fun t => projects (view t)) pj_creation_sequence (fun _ => True)); [| |exact Hk|..].
    - intros t i r. unfold scope. rewrite elem_of_map_to_list. tauto.
    - intros t. apply NoDup_map_to_list.
    - intros t i r. apply (created_bound _ t), (so_projects _ (view_sound t)).
    - intros t i j a b Ha Hb _ _. by apply (so_projects _ (view_sound t)).
    - intros t [[i p] sp] Hr. apply joined_project in Hr as [? ?]. apply (project_shown (view t)); [apply view_sound|apply Hlast|done..].
    - intros t. apply view_grown. }
  destruct (follow_all _ _ _ _ _ _ library_id size CreativeService.Projects Hp) as (found & Hf & Hid); [done..|].
  exists found. unfold listing. rewrite filter_all. rewrite (Hk O) in Hid. split; [|done]. rewrite length_map. unfold in_order.
  rewrite sort_by_perm. fold (scope O). rewrite <- (Hk O), length_map. exact Hf.
Qed.
Lemma scope_of {Row} (m : gmap Id Row) (mine : Row -> Prop) `{!forall r, Decision (mine r)} i r :
  (i, r) ∈ List.filter (fun '(_, x) => bool_decide (mine x)) (map_to_list m) <-> m !! i = Some r /\ mine r.
Proof. rewrite list_elem_of_In, filter_In, <- list_elem_of_In, elem_of_map_to_list, bool_decide_eq_true. done. Qed.
Lemma scope_nodup {Row} (m : gmap Id Row) p : NoDup (List.filter p (map_to_list m)).
Proof. apply NoDup_ListNoDup, List.NoDup_filter, NoDup_ListNoDup, NoDup_map_to_list. Qed.
Lemma work_followed project_id :
  is_Some (projects (view O) !! project_id) -> length project_id = 16%nat ->
  exists found, follow (S (length (listing wi_creation_sequence (fun w => bool_decide (wi_project w = project_id)) (work_items (view O)))))
    (fun t c => CreativeService.list_work (view t) library_id project_id size c CursorFacts.calm false) 0 None = Ok found /\
    map wv_work_item_id found = listing wi_creation_sequence (fun w => bool_decide (wi_project w = project_id)) (work_items (view O)).
Proof.
  intros Hpr Hpl. assert (forall t, is_Some (projects (view t) !! project_id)) as Hex.
  { induction t as [|t [p IH]]; [done|]. destruct (ex_kept _ _ _ _ (gw_projects _ _ (view_grown t)) _ _ IH) as (p' & ? & _). by exists p'. }
  set (scope := fun t => work_of (view t) project_id). set (rows := fun t => joined_work (view t) project_id).
  assert (forall t i w, (i, w) ∈ scope t <-> work_items (view t) !! i = Some w /\ wi_project w = project_id) as Hscope.
  { intros t i w. apply (scope_of (work_items (view t)) (fun w => wi_project w = project_id)). }
  assert (forall t i w, work_items (view t) !! i = Some w -> exists wr, current_work_revision (view t) i w = Some wr) as Hcur.
  { intros t i w Hi. destruct (wk_current _ _ _ (so_work _ (view_sound t)) _ _ Hi) as (wr & Hwr & Ho & _). exists wr. unfold current_work_revision.
    by rewrite Hwr, bool_decide_eq_true_2. }
  assert (forall t, map work_key (rows t) = map (fun x => (wi_creation_sequence x.2, x.1)) (scope t)) as Hk.
  { intros t. apply omap_map. intros [i w] [Hi _]%Hscope. destruct (Hcur t i w Hi) as (wr & ->). cbn [option_map]. eexists. by split. }
  assert (pages scope (fun x => wi_creation_sequence x.2) rows work_key (fun t => work_view (view t) project_id) wv_work_item_id) as Hp.
  { apply (table_pages (fun t => work_items (view t)) wi_creation_sequence (fun w => wi_project w = project_id)); [exact Hscope| |exact Hk|..].
    - intros t. apply scope_nodup.
    - intros t i r. apply (created_bound _ t), (so_work _ (view_sound t)).
    - intros t i j a b Ha Hb _ _. by apply (so_work _ (view_sound t)).
    - intros t [[i w] wr] Hr. unfold rows, joined_work in Hr. apply list_elem_of_omap in Hr as ([j x] & [Hj <-]%Hscope & Hx).
      destruct (current_work_revision (view t) j x) as [y|] eqn:Ey; [|done]. cbn in Hx. simplify_eq. apply (work_shown (view t)); [apply view_sound|apply Hlast|done..].
    - intros t. apply view_grown. }
  destruct (follow_all _ _ _ _ _ _ library_id size (CreativeService.Work project_id) Hp) as (found & Hf & Hid); [done..|].
  exists found. unfold listing.
  assert (List.filter (fun x => bool_decide (wi_project x.2 = project_id)) (map_to_list (work_items (view O))) = scope O) as -> by (apply List.filter_ext; by intros []).
  rewrite (Hk O) in Hid. split; [|done]. rewrite length_map. unfold in_order. rewrite sort_by_perm.
  rewrite <- (Hk O), length_map. rewrite <- Hf. apply follow_ext. intros t c. apply listed_ext. intros q.
  unfold CreativeQuery.list_work. by rewrite bool_decide_eq_true_2.
Qed.
Lemma takes_followed project_id work_item_id work_revision_id :
  take_context_exists (view O) project_id work_item_id work_revision_id = true -> length work_revision_id = 16%nat ->
  exists found, follow (S (length (listing tk_ordinal (fun t => bool_decide (tk_work_revision t = work_revision_id)) (takes (view O)))))
    (fun t c => CreativeService.list_takes (view t) library_id project_id work_item_id work_revision_id size c CursorFacts.calm false) 0 None = Ok found /\
    map tv_take_id found = listing tk_ordinal (fun t => bool_decide (tk_work_revision t = work_revision_id)) (takes (view O)).
Proof.
  intros Hctx Hwl. assert (forall t, take_context_exists (view t) project_id work_item_id work_revision_id = true) as Hex.
  { induction t as [|t IH]; [done|]. exact (context_kept replay_asset_result _ _ _ _ _ (view_grown t) IH). }
  set (rows := fun t => takes_of (view t) work_revision_id).
  assert (forall t i r, (i, r) ∈ rows t <-> takes (view t) !! i = Some r /\ tk_work_revision r = work_revision_id) as Hscope.
  { intros t i r. apply (scope_of (takes (view t)) (fun r => tk_work_revision r = work_revision_id)). }
  assert (pages rows (fun x => tk_ordinal x.2) rows take_key (fun t => take_view (view t) work_revision_id) tv_take_id) as Hp.
  { apply (table_pages (fun t => takes (view t)) tk_ordinal (fun r => tk_work_revision r = work_revision_id)); [exact Hscope|..].
    - intros t. apply scope_nodup.
    - done.
    - intros t i r Hi. apply (ts_rows _ (so_takes _ (view_sound t))), verify_take_facts in Hi as (_ & _ & Ho & _). unfold U32_MAX, I64_MAX in *. lia.
    - intros t i j a b Ha Hb Ma Mb. apply (nb_unique _ _ _ (ts_numbered _ (so_takes _ (view_sound t))) _ _ _ _ Ha Hb). congruence.
    - intros t [i r] [Hi <-]%Hscope. apply (take_shown (view t)); [apply view_sound|apply Hlast|done].
    - intros t. apply view_grown. }
  destruct (follow_all _ _ _ _ _ _ library_id size (CreativeService.Takes work_revision_id) Hp) as (found & Hf & Hid); [done..|].
  exists found. unfold listing.
  assert (List.filter (fun x => bool_decide (tk_work_revision x.2 = work_revision_id)) (map_to_list (takes (view O))) = rows O) as -> by (apply List.filter_ext; by intros []).
  split; [|done]. rewrite length_map. unfold in_order. rewrite sort_by_perm, length_map.
  rewrite <- Hf. apply follow_ext. intros t c. apply listed_ext. intros q. unfold CreativeQuery.list_takes. by rewrite Hex.
Qed.
End lists.

(** C23: a client that reads a creative list page by page, sending back the opaque cursor
    of each answer, gets after at most one request for every row exactly the rows the
    list had when it began, each once and in the order of their creation (takes: of their
    ordinals), whatever commands are committed between two of its requests; and what a
    cursor decodes to under one library and one list, no other library and no other list
    accepts.  This holds of projects, subjects, the work of a project and the takes of a
    work revision, from every store the commands can reach. *)
Theorem creative_lists_by_cursor_are_exact `{StoreEnv} `{SerdeJson} `{!SerdeJsonLaws} `{!StoreEnvLaws H}
    (replay_asset_result : Store -> CommandRow -> result AssetStoreError CommandResult) (view : nat -> Store) (library_id : Id) (size : Z) :
  length library_id = 16%nat -> library_id <> zero_library -> 1 <= size <= 64 -> reachable replay_asset_result (view O) ->
  (forall t, rtc (step replay_asset_result) (view t) (view (S t))) -> (forall t, last_sequence (view t) <= I64_MAX) ->
  (exists found, follow (S (length (listing pj_creation_sequence (fun _ => true) (projects (view O)))))
     (fun t c => CreativeService.list_projects (view t) library_id size c CursorFacts.calm false) 0 None = Ok found /\
     map pv_project_id found = listing pj_creation_sequence (fun _ => true) (projects (view O))) /\
  (exists found, follow (S (length (listing sj_creation_sequence (fun _ => true) (subjects (view O)))))
     (fun t c => CreativeService.list_subjects (view t) library_id size c CursorFacts.calm false) 0 None = Ok found /\
     map sv_subject_id found = listing sj_creation_sequence (fun _ => true) (subjects (view O))) /\
  (forall project_id, is_Some (projects (view O) !! project_id) -> length project_id = 16%nat ->
     exists found, follow (S (length (listing wi_creation_sequence (fun w => bool_decide (wi_project w = project_id)) (work_items (view O)))))
       (fun t c => CreativeService.list_work (view t) library_id project_id size c CursorFacts.calm false) 0 None = Ok found /\
       map wv_work_item_id found = listing wi_creation_sequence (fun w => bool_decide (wi_project w = project_id)) (work_items (view O))) /\
  (forall project_id work_item_id work_revision_id,
     take_context_exists (view O) project_id work_item_id work_revision_id = true -> length work_revision_id = 16%nat ->
     exists found, follow (S (length (listing tk_ordinal (fun t => bool_decide (tk_work_revision t = work_revision_id)) (takes (view O)))))
       (fun t c => CreativeService.list_takes (view t) library_id project_id work_item_id work_revision_id size c CursorFacts.calm false) 0 None = Ok found /\
       map tv_take_id found = listing tk_ordinal (fun t => bool_decide (tk_work_revision t = work_revision_id)) (takes (view O))) /\
  (forall c kind p, CreativeService.decode_creative_cursor c library_id kind = Ok p ->
     CreativeService.encode_creative_cursor p library_id kind = Ok c /\
     forall library_id' kind' p', CreativeService.decode_creative_cursor c library_id' kind' = Ok p' -> library_id' = library_id /\ kind' = kind).
Proof.
  intros Hl Hlib Hsize Hr Hst Hlast. split_and!.
  - by eapply projects_followed.
  - by eapply subjects_followed.
  - intros. by eapply work_followed.
  - intros. by eapply takes_followed.
  - intros c kind p Hd. split; [by apply decode_inv|]. intros l' k' p' Hd'. destruct (decode_bound _ _ _ _ _ _ _ Hd Hd') as (-> & -> & _). done.
Qed.

(** Two takes, one of which is selected and replaced between the first and the second
    request. *)
Module Example.
#[local] Existing Instance Scenario.env.
#[local] Existing Instance JsonFacts.Example.serde.
Definition moving (t : nat) : Store := match t with O => Scenario.with_takes2 | _ => Scenario.with_replaced end.
Lemma takes2_reachable : reachable Scenario.no_asset_replay (moving O).
Proof.
  assert (Forall fits [Scenario.create_p; Scenario.create_w; Scenario.create_t 30 31 32; Scenario.create_t 33 34 35]) as Hf.
  { pose proof Verified.Example.commands_fit as Hf. repeat (apply Forall_cons in Hf as [? Hf]). repeat (apply List.Forall_cons; [assumption|]); apply List.Forall_nil. }
  exact (Verified.Example.scenario_reachable Scenario.empty _ (ex_intro _ Scenario.empty (conj Verified.Example.empty_fresh (rtc_refl _ _))) Hf).
Qed.
Lemma moving_steps t : rtc (step Scenario.no_asset_replay) (moving t) (moving (S t)).
Proof.
  destruct t as [|t]; [|reflexivity]. pose proof Verified.Example.commands_fit as Hf. repeat (apply Forall_cons in Hf as [? Hf]).
  eapply rtc_l; [|apply rtc_once].
  - by apply (StepCommand _ _ Scenario.ctx (Scenario.transition_t 36 31 1 Creative.Select None [37; 38; 39])).
  - by apply (StepCommand _ _ Scenario.ctx (Scenario.transition_t 40 34 1 Creative.Select (Some (Scenario.id 31, 2)) [41; 42; 43])).
Qed.
Lemma moving_sequence t : last_sequence (moving t) <= I64_MAX.
Proof. destruct t; by vm_compute. Qed.
Lemma moving_listing : listing tk_ordinal (fun t => bool_decide (tk_work_revision t = Scenario.id 22)) (takes (moving O)) = [Scenario.id 31; Scenario.id 34].
Proof. vm_compute. reflexivity. Qed.
End Example.

Lemma creative_lists_by_cursor_are_exact_witness :
  let ids := listing tk_ordinal (fun t => bool_decide (tk_work_revision t = Scenario.id 22)) (takes (Example.moving O)) in
  ids = [Scenario.id 31; Scenario.id 34] /\
  exists found, follow (S (length ids))
    (fun t c => @CreativeService.list_takes Scenario.env (Example.moving t) (Scenario.id 99) (Scenario.id 11) (Scenario.id 21) (Scenario.id 22)
       1 c CursorFacts.calm false) 0 None = Ok found /\ map tv_take_id found = ids.
Proof.
  intros ids. split; [exact Example.moving_listing|].
  pose proof (@creative_lists_by_cursor_are_exact Scenario.env JsonFacts.Example.serde JsonFacts.Example.serde_laws Scenario.env_laws
    Scenario.no_asset_replay Example.moving (Scenario.id 99) 1) as Ht.
  destruct Ht as (_ & _ & _ & Ht & _).
  - reflexivity.
  - by vm_compute.
  - lia.
  - exact Example.takes2_reachable.
  - exact Example.moving_steps.
  - exact Example.moving_sequence.
  - apply (Ht (Scenario.id 11) (Scenario.id 21) (Scenario.id 22)); [by vm_compute|reflexivity].
Defined.
End Lists.
