(* ===== verification/Lifecycle.v ===== *)
(** The running library of mengxia-store-sqlite/src/lifecycle.rs: the admission gate,
    the bounded queue of the writer, the slots of the readers, and the threads that
    empty them.

    A thread is its program counter; a step is what a thread does between two
    acquisitions of the lock, or the sending of a result outside of the lock.  What a
    job does to its connection is not decided here: a step that runs a job carries
    what came of it.  The receipts of [oneshot] are numbered in the order of admission,
    and [answers] is the list of what was sent on them.  No code that holds the lock can
    panic, so the lock is never poisoned; a wait returns at any moment, as [Condvar]
    allows. *)
From Stdlib Require Import ZArith Lia.
From stdpp Require Import prelude list relations.
From S2P Require Import Prelude RustText Types Ports CommandLedger AssetStore AppRuntime.

Set Warnings "-clear-no-such-hyp".

Module Lifecycle.
Import Runtime.

#[global] Instance StoreError_eq_dec : EqDecision StoreError.
Proof. solve_decision. Defined.

Definition CommandResult : Type := result StoreError ().
Definition is_internal (r : CommandResult) : bool := match r with Err StInternal => true | _ => false end.

(** ** The shared state *)

Inductive AdmissionGate := Open | ShuttingDown | Failed.
#[global] Instance AdmissionGate_eq_dec : EqDecision AdmissionGate.
Proof. solve_decision. Defined.

Section lifecycle.
Context {WriterJob ReadJob : Type}.

Record WriterEnvelope := { w_job : WriterJob; w_result : nat }.
Record ReadEnvelope := { r_job : ReadJob; r_result : nat }.
Record ReadSlot := { assigned : option ReadEnvelope; running : bool }.
Record LifecycleState := {
  gate : AdmissionGate; writer_capacity : nat; writer_queue : list WriterEnvelope; writer_running : bool;
  read_slots : list ReadSlot }.

Definition with_gate (s : LifecycleState) g := {|
  gate := g; writer_capacity := writer_capacity s; writer_queue := writer_queue s; writer_running := writer_running s;
  read_slots := read_slots s |}.
Definition with_queue (s : LifecycleState) q := {|
  gate := gate s; writer_capacity := writer_capacity s; writer_queue := q; writer_running := writer_running s;
  read_slots := read_slots s |}.
Definition with_writer_running (s : LifecycleState) b := {|
  gate := gate s; writer_capacity := writer_capacity s; writer_queue := writer_queue s; writer_running := b;
  read_slots := read_slots s |}.
Definition with_slots (s : LifecycleState) slots := {|
  gate := gate s; writer_capacity := writer_capacity s; writer_queue := writer_queue s; writer_running := writer_running s;
  read_slots := slots |}.

(** What was sent, oldest first. *)
Abbreviation Answers := (list (nat * CommandResult)).

Definition refuse_queue (q : list WriterEnvelope) (e : StoreError) : Answers := map (fun x => (w_result x, Err e)) q.
Definition refuse_slot (e : StoreError) (slot : ReadSlot) : Answers :=
  match assigned slot with Some x => [(r_result x, Err e)] | None => [] end.
Definition emptied (slot : ReadSlot) : ReadSlot := {| assigned := None; running := running slot |}.

Definition fail_locked (s : LifecycleState) : LifecycleState * Answers :=
  (with_slots (with_queue (with_gate s Failed) []) (map emptied (read_slots s)),
   refuse_queue (writer_queue s) StInternal ++ concat (map (refuse_slot StInternal) (read_slots s))).

(** ** The threads *)

Inductive WriterPc := WWaiting | WRunning (e : WriterEnvelope) | WSent (fatal : bool) | WStopped.
Inductive ReaderPc := RWaiting | RRunning (e : ReadEnvelope) | RSending (e : ReadEnvelope) (r : CommandResult) (fatal : bool) | RStopped.

Record System := { shared : LifecycleState; writer : WriterPc; readers : list ReaderPc; answers : Answers; next_receipt : nat }.
Definition with_shared (y : System) s := {|
  shared := s; writer := writer y; readers := readers y; answers := answers y; next_receipt := next_receipt y |}.
Definition with_writer (y : System) w := {|
  shared := shared y; writer := w; readers := readers y; answers := answers y; next_receipt := next_receipt y |}.
Definition with_readers (y : System) r := {|
  shared := shared y; writer := writer y; readers := r; answers := answers y; next_receipt := next_receipt y |}.
Definition send (y : System) (a : Answers) := {|
  shared := shared y; writer := writer y; readers := readers y; answers := answers y ++ a; next_receipt := next_receipt y |}.
Definition admitted (y : System) := {|
  shared := shared y; writer := writer y; readers := readers y; answers := answers y; next_receipt := S (next_receipt y) |}.

(** [fail_locked] under the lock of a caller. *)
Definition failing (y : System) : System := let '(s, a) := fail_locked (shared y) in send (with_shared y s) a.

(** ** The handle *)

Definition enqueue_writer (y : System) (job : WriterJob) : result StoreError nat * System :=
  let s := shared y in
  match gate s with
  | ShuttingDown => (Err StShuttingDown, y)
  | Failed => (Err StInternal, y)
  | Open =>
      if bool_decide (length (writer_queue s) = writer_capacity s) then (Err StBackpressure, y)
      else (Ok (next_receipt y),
            admitted (with_shared y (with_queue s (writer_queue s ++ [{| w_job := job; w_result := next_receipt y |}]))))
  end.

Definition free (slot : ReadSlot) : bool := match assigned slot with None => negb (running slot) | Some _ => false end.
Fixpoint find_free (slots : list ReadSlot) : option nat :=
  match slots with
  | [] => None
  | slot :: rest => if free slot then Some 0%nat else S <$> find_free rest
  end.

Definition submit_read (y : System) (job : ReadJob) : result StoreError nat * System :=
  let s := shared y in
  match gate s with
  | ShuttingDown => (Err StShuttingDown, y)
  | Failed => (Err StInternal, y)
  | Open =>
      match find_free (read_slots s) with
      | None => (Err StBackpressure, y)
      | Some i =>
          let slot := {| assigned := Some {| r_job := job; r_result := next_receipt y |}; running := false |} in
          (Ok (next_receipt y), admitted (with_shared y (with_slots s (<[i := slot]> (read_slots s)))))
      end
  end.

Definition fail_current_runtime (y : System) : System := failing y.

(** ** The owner *)

(** What [start] leaves behind once its connections are open and every thread is
    spawned, and what it leaves when the reader of index [spawned] cannot be: the
    admission is closed and no handle was given out. *)
Definition opened_state (capacity count : nat) : LifecycleState := {|
  gate := Open; writer_capacity := capacity; writer_queue := []; writer_running := false;
  read_slots := repeat {| assigned := None; running := false |} count |}.
Definition started (capacity count : nat) : System := {|
  shared := opened_state capacity count; writer := WWaiting; readers := repeat RWaiting count; answers := []; next_receipt := 0 |}.
Definition close_admission_for_start_failure (y : System) : System :=
  let s := shared y in
  send (with_shared y (with_queue (with_gate s ShuttingDown) [])) (refuse_queue (writer_queue s) StShuttingDown).
Definition start_failed (capacity count spawned : nat) : System :=
  close_admission_for_start_failure {|
    shared := opened_state capacity count; writer := WWaiting;
    readers := repeat RWaiting spawned ++ repeat RStopped (count - spawned); answers := []; next_receipt := 0 |}.

(** The first half of [shutdown_inner]: the gate closes and the queue is refused, the
    reads that were assigned are kept.  The second half is what it returns once every
    thread has ended, with what came of [finalize_opened_canonical]. *)
Definition begin_shutdown (y : System) : System :=
  let s := shared y in
  if bool_decide (gate s = Open)
  then send (with_shared y (with_queue (with_gate s ShuttingDown) [])) (refuse_queue (writer_queue s) StShuttingDown)
  else y.
Definition shutdown_result (y : System) (join_failed : bool) (finalization : CommandResult) : CommandResult :=
  if bool_decide (gate (shared y) = Failed) || join_failed then Err StInternal else finalization.

(** ** The writer *)

(** The outcome of [catch_unwind] around the job. *)
Definition writer_execution (x : option CommandResult) : CommandResult * bool :=
  match x with Some result => (result, is_internal result) | None => (Err StInternal, true) end.

Definition writer_take (y : System) : option System :=
  match writer y, writer_queue (shared y) with
  | WWaiting, e :: q => Some (with_writer (with_shared y (with_writer_running (with_queue (shared y) q) true)) (WRunning e))
  | WWaiting, [] => if bool_decide (gate (shared y) = Open) then None else Some (with_writer y WStopped)
  | _, _ => None
  end.
Definition writer_send (y : System) (x : option CommandResult) : option System :=
  match writer y with
  | WRunning e => let '(result, fatal) := writer_execution x in Some (with_writer (send y [(w_result e, result)]) (WSent fatal))
  | _ => None
  end.
Definition writer_settle (y : System) : option System :=
  match writer y with
  | WSent fatal =>
      let y := with_shared y (with_writer_running (shared y) false) in
      Some (if fatal then with_writer (failing y) WStopped else with_writer y WWaiting)
  | _ => None
  end.

(** ** The readers *)

(** The outcome of the job, whether it asks for a new connection, and whether the new
    connection was opened. *)
Definition reader_execution (x : option (CommandResult * bool * bool)) : CommandResult * bool :=
  match x with
  | Some (result, replace_connection, reopened) =>
      let fatal := is_internal result in
      if replace_connection && negb fatal && negb reopened then (Err StInternal, true) else (result, fatal)
  | None => (Err StInternal, true)
  end.

Definition set_reader (y : System) (i : nat) (pc : ReaderPc) : System := with_readers y (<[i := pc]> (readers y)).
Definition set_slot (y : System) (i : nat) (slot : ReadSlot) : System :=
  with_shared y (with_slots (shared y) (<[i := slot]> (read_slots (shared y)))).

Definition reader_take (i : nat) (y : System) : option System :=
  match readers y !! i, read_slots (shared y) !! i with
  | Some RWaiting, Some slot =>
      match assigned slot with
      | Some e => Some (set_reader (set_slot y i {| assigned := None; running := true |}) i (RRunning e))
      | None => if bool_decide (gate (shared y) = Open) then None else Some (set_reader y i RStopped)
      end
  | _, _ => None
  end.
Definition reader_settle (i : nat) (y : System) (x : option (CommandResult * bool * bool)) : option System :=
  match readers y !! i, read_slots (shared y) !! i with
  | Some (RRunning e), Some slot =>
      let '(result, fatal) := reader_execution x in
      let y := set_slot y i {| assigned := assigned slot; running := false |} in
      Some (set_reader (if fatal then failing y else y) i (RSending e result fatal))
  | _, _ => None
  end.
Definition reader_send (i : nat) (y : System) : option System :=
  match readers y !! i with
  | Some (RSending e result fatal) =>
      Some (set_reader (send y [(r_result e, result)]) i (if fatal then RStopped else RWaiting))
  | _ => None
  end.

(** ** Runs *)

(** What a thread does next, and what the outside may ask for. *)
Inductive work : System -> System -> Prop :=
| work_take y y' : writer_take y = Some y' -> work y y'
| work_send y x y' : writer_send y x = Some y' -> work y y'
| work_settle y y' : writer_settle y = Some y' -> work y y'
| work_read_take i y y' : reader_take i y = Some y' -> work y y'
| work_read_settle i y x y' : reader_settle i y x = Some y' -> work y y'
| work_read_send i y y' : reader_send i y = Some y' -> work y y'.
Inductive call : System -> System -> Prop :=
| call_enqueue y job : call y (enqueue_writer y job).2
| call_read y job : call y (submit_read y job).2
| call_fail y : call y (fail_current_runtime y)
| call_shutdown y : call y (begin_shutdown y).
Definition step (y y' : System) : Prop := work y y' \/ call y y'.
Inductive initial : System -> Prop :=
| initial_started capacity count : initial (started capacity count)
| initial_failed capacity count spawned : (spawned < count)%nat -> initial (start_failed capacity count spawned).
Definition reachable (y : System) : Prop := exists y0, initial y0 /\ rtc step y0 y.
Definition stopped (y : System) : Prop := writer y = WStopped /\ Forall (fun r => r = RStopped) (readers y).
End lifecycle.

Arguments System : clear implicits.
Arguments LifecycleState : clear implicits.
Arguments WriterEnvelope : clear implicits.
Arguments ReadEnvelope : clear implicits.
Arguments ReadSlot : clear implicits.
End Lifecycle.
