(* ===== verification/LifecycleFacts.v ===== *)
(** The running library answers every job it admits exactly once, and always stops. *)
From Stdlib Require Import ZArith Lia Sorted.
From stdpp Require Import prelude list relations.
From S2P Require Import Prelude RustText Types Ports CommandLedger AssetStore AppRuntime Lifecycle.

Set Warnings "-clear-no-such-hyp".

Module LifecycleFacts.
Import Runtime Lifecycle.

(** ** Counting *)

Definition occ (x : nat) (l : list nat) : nat := length (filter (eq x) l).
Lemma occ_nil x : occ x [] = 0%nat.
Proof. done. Qed.
Lemma occ_cons x a l : occ x (a :: l) = ((if decide (x = a) then 1 else 0) + occ x l)%nat.
Proof. unfold occ. rewrite filter_cons. by destruct (decide (x = a)). Qed.
Lemma occ_app x l k : occ x (l ++ k) = (occ x l + occ x k)%nat.
Proof. unfold occ. by rewrite filter_app, length_app. Qed.
Lemma occ_elem x l : x ∈ l -> (0 < occ x l)%nat.
Proof.
  induction 1 as [l|a l Hx IH]; rewrite occ_cons; [rewrite decide_True by done; lia|lia].
Qed.
Lemma occ_NoDup l : (forall x, (occ x l <= 1)%nat) -> NoDup l.
Proof.
  induction l as [|a l IH]; intros Ho; constructor.
  - intros Ha%occ_elem. specialize (Ho a). rewrite occ_cons, decide_True in Ho by done. lia.
  - apply IH. intros x. specialize (Ho x). rewrite occ_cons in Ho. lia.
Qed.
Lemma occ_mem x l : (0 < occ x l)%nat -> x ∈ l.
Proof.
  induction l as [|a l IH]; rewrite ?occ_nil, ?occ_cons; [lia|]. case_decide as E; [subst; constructor|]. intros. right. auto with lia.
Qed.

(** A sum over a list, and over the list with one place changed. *)
Definition total {A} (f : A -> nat) (l : list A) : nat := sum_list_with f l.
#[global] Arguments total : simpl never.
Lemma total_insert {A} (f : A -> nat) l i a b : l !! i = Some a -> (total f (<[i := b]> l) + f a = total f l + f b)%nat.
Proof.
  revert i. induction l as [|c l IH]; intros [|i] Hi; simplify_eq/=; unfold total in *; cbn [sum_list_with]; [lia|]. specialize (IH i Hi). lia.
Qed.
Lemma tally_app {A} (f : A -> nat) l k : total f (l ++ k) = (total f l + total f k)%nat.
Proof. apply sum_list_with_app. Qed.
Lemma total_repeat {A} (f : A -> nat) a n : f a = 0%nat -> total f (repeat a n) = 0%nat.
Proof. intros Ha. induction n; [done|]. unfold total in *. cbn. lia. Qed.
Lemma total_zero {A} (f : A -> nat) l : (forall a, a ∈ l -> f a = 0%nat) -> total f l = 0%nat.
Proof.
  induction l as [|a l IH]; intros Hl; [done|]. unfold total in *. cbn [sum_list_with]. rewrite Hl by constructor.
  apply IH. intros. apply Hl. by constructor.
Qed.

Lemma repeat_lookup {A} (a b : A) n i : repeat a n !! i = Some b -> b = a.
Proof. revert i. induction n as [|n IH]; intros [|i] Hi; simplify_eq/=; eauto. Qed.

Section facts.
Context {WJ RJ : Type}.
Implicit Types y : System WJ RJ.
Abbreviation Y := (System WJ RJ).
Abbreviation step := (@step WJ RJ).
Abbreviation work := (@work WJ RJ).

(** ** Where a receipt is *)

Definition in_queue (x : nat) (q : list (WriterEnvelope WJ)) : nat := occ x (map w_result q).
Definition in_slot (x : nat) (s : ReadSlot RJ) : nat := match assigned s with Some e => occ x [r_result e] | None => 0 end.
Definition in_writer (x : nat) (w : @WriterPc WJ) : nat := match w with WRunning e => occ x [w_result e] | _ => 0 end.
Definition in_reader (x : nat) (r : @ReaderPc RJ) : nat :=
  match r with RRunning e | RSending e _ _ => occ x [r_result e] | _ => 0 end.
Definition held (y : Y) (x : nat) : nat :=
  in_queue x (writer_queue (shared y)) + total (in_slot x) (read_slots (shared y)) + in_writer x (writer y) + total (in_reader x) (readers y).
Definition answered (y : Y) (x : nat) : nat := occ x (map fst (answers y)).
Definition owed (y : Y) (x : nat) : nat := if decide (x < next_receipt y)%nat then 1 else 0.

(** ** The invariant *)

Definition reader_ok (g : AdmissionGate) (r : @ReaderPc RJ) (s : ReadSlot RJ) : Prop :=
  running s = match r with RRunning _ => true | _ => false end /\
  (running s = true -> assigned s = None) /\
  (g = Failed -> assigned s = None) /\
  (r = RStopped -> assigned s = None /\ g <> Open) /\
  (match r with RSending _ _ true => g = Failed | _ => True end).
Record inv (y : Y) : Prop := {
  inv_readers : Forall2 (reader_ok (gate (shared y))) (readers y) (read_slots (shared y));
  inv_capacity : (length (writer_queue (shared y)) <= writer_capacity (shared y))%nat;
  inv_running : writer_running (shared y) = match writer y with WRunning _ | WSent _ => true | _ => false end;
  inv_closed : gate (shared y) <> Open -> writer_queue (shared y) = [];
  inv_writer : writer y = WStopped -> gate (shared y) <> Open;
  inv_owed : forall x, (held y x + answered y x = owed y x)%nat }.

(** ** What each change does to the places *)

Lemma in_queue_app x q e : in_queue x (q ++ [e]) = (in_queue x q + occ x [w_result e])%nat.
Proof. unfold in_queue. by rewrite map_app, occ_app. Qed.
Lemma in_queue_cons x q e : in_queue x (e :: q) = (occ x [w_result e] + in_queue x q)%nat.
Proof. unfold in_queue. cbn [map]. by rewrite !occ_cons, occ_nil, Nat.add_0_r. Qed.
Lemma refuse_queue_occ x q e : occ x (map fst (refuse_queue q e)) = in_queue x q.
Proof. unfold refuse_queue, in_queue. by rewrite map_map. Qed.
Lemma refuse_slots_occ x slots e : occ x (map fst (concat (map (refuse_slot e) slots))) = total (in_slot x) slots.
Proof.
  induction slots as [|s slots IH]; [done|]. rewrite map_cons, concat_cons, map_app, occ_app, IH. f_equal. by destruct s as [[a|] b].
Qed.
Lemma emptied_total x (slots : list (ReadSlot RJ)) : total (in_slot x) (map emptied slots) = 0%nat.
Proof. apply total_zero. intros s (s' & -> & _)%list_elem_of_fmap. done. Qed.

Lemma answered_send y a x : answered (send y a) x = (answered y x + occ x (map fst a))%nat.
Proof. unfold answered, send. cbn [answers]. by rewrite map_app, occ_app. Qed.

Lemma failing_held y x :
  (held (failing y) x + answered (failing y) x = held y x + answered y x)%nat.
Proof.
  unfold failing, fail_locked, held, answered. cbn [shared with_shared send answers writer readers writer_queue with_slots with_queue with_gate read_slots].
  rewrite !map_app, !occ_app, refuse_queue_occ, refuse_slots_occ, emptied_total.
  change (in_queue x []) with 0%nat. lia.
Qed.
Lemma failing_owed y x : owed (failing y) x = owed y x.
Proof. done. Qed.

(** The gate only closes, so what was true of the readers stays so. *)
Lemma reader_ok_failed g r s : reader_ok g r s -> reader_ok Failed r (emptied s).
Proof. intros (H1 & H2 & H3 & H4 & H5). unfold reader_ok, emptied. cbn. split_and!; try done. by destruct r as [| |? ? []|]. Qed.
Lemma reader_ok_closing r s : reader_ok Open r s -> reader_ok ShuttingDown r s.
Proof. intros (H1 & H2 & H3 & H4 & H5). split_and!; try done; [intros; by destruct H4 |by destruct r as [| |? ? []|]]. Qed.

Lemma failing_inv y : inv y -> inv (failing y).
Proof.
  intros [H1 H2 H3 H4 H5 H6]. split; [cbn..|].
  - apply Forall2_fmap_r. eapply Forall2_impl; [exact H1|]. intros. by eapply reader_ok_failed.
  - lia.
  - done.
  - done.
  - done.
  - intros x. rewrite failing_held. apply H6.
Qed.

(** Only the places of the shared state and of the threads matter to the invariant. *)
Lemma slot_at y i r : inv y -> readers y !! i = Some r -> exists s, read_slots (shared y) !! i = Some s /\ reader_ok (gate (shared y)) r s.
Proof. intros Hy Hr. by apply (Forall2_lookup_l _ _ _ _ _ (inv_readers _ Hy)) in Hr as (s & ? & ?); eauto. Qed.
Lemma find_free_at (slots : list (ReadSlot RJ)) i : find_free slots = Some i -> exists s, slots !! i = Some s /\ free s = true.
Proof.
  revert i. induction slots as [|s slots IH]; intros i Hi; cbn in Hi; [done|]. destruct (free s) eqn:E; simplify_eq/=; [eauto|].
  apply fmap_Some in Hi as (j & Hj & ->). by apply IH.
Qed.
Lemma free_slot (s : ReadSlot RJ) : free s = true -> assigned s = None /\ running s = false.
Proof. unfold free. destruct (assigned s), (running s); done. Qed.

Ltac places Hy :=
  intros z; pose proof (inv_owed _ Hy z) as Hz; revert Hz; unfold held, answered, owed; cbn [shared writer readers answers next_receipt
    with_shared with_writer with_readers send admitted set_reader set_slot writer_queue read_slots with_queue with_gate with_writer_running with_slots
    in_writer in_reader snd].

Lemma enqueue_inv y job : inv y -> inv (enqueue_writer y job).2.
Proof.
  intros Hy. unfold enqueue_writer. destruct (gate (shared y)) eqn:Eg; [|done..]. case_bool_decide as El; [done|]. pose proof Hy as [H1 H2 H3 H4 H5 H6].
  split; [cbn..|].
  - exact H1.
  - rewrite length_app. cbn. lia.
  - exact H3.
  - by rewrite Eg.
  - exact H5.
  - places Hy. rewrite in_queue_app. cbn [w_result]. rewrite occ_cons, occ_nil. repeat case_decide; lia.
Qed.
Lemma submit_read_inv y job : inv y -> inv (submit_read y job).2.
Proof.
  intros Hy. unfold submit_read. destruct (gate (shared y)) eqn:Eg; [|done..]. destruct (find_free _) as [i|] eqn:Ef; [|done].
  apply find_free_at in Ef as (s & Hs & [Ha Hr]%free_slot). pose proof Hy as [H1 H2 H3 H4 H5 H6]. split; [cbn..|]; [|done..|].
  - apply Forall2_flip. destruct (Forall2_lookup_r _ _ _ _ _ H1 Hs) as (r & Hr' & Hok).
    rewrite <- (list_insert_id (readers y) i r Hr'). apply Forall2_insert; [by apply Forall2_flip|].
    destruct Hok as (O1 & O2 & O3 & O4 & O5). rewrite Eg in *. split_and!; cbn; try done; [congruence|]. intros ->. by destruct O4.
  - places Hy. pose proof (total_insert (in_slot z) _ _ _ {| assigned := Some {| r_job := job; r_result := next_receipt y |}; running := false |} Hs) as Ht.
    unfold in_slot at 2 4 in Ht. rewrite Ha in Ht. cbn [assigned r_result] in Ht. rewrite occ_cons, occ_nil in Ht. repeat case_decide; lia.
Qed.
Lemma begin_shutdown_inv y : inv y -> inv (begin_shutdown y).
Proof.
  intros Hy. unfold begin_shutdown. case_bool_decide as Eg; [|done]. pose proof Hy as [H1 H2 H3 H4 H5 H6]. split; [cbn..|]; try done.
  - rewrite Eg in H1. eapply Forall2_impl; [exact H1|]. apply reader_ok_closing.
  - lia.
  - places Hy. rewrite map_app, occ_app, refuse_queue_occ. change (in_queue z []) with 0%nat. lia.
Qed.

(** ** The threads *)

Lemma stop_writer y : inv y -> writer y = WWaiting -> gate (shared y) <> Open -> inv (with_writer y WStopped).
Proof.
  intros Hy Hw Hg. pose proof Hy as [H1 H2 H3 H4 H5 H6]. split; try done; [cbn; by rewrite H3, Hw|]. places Hy. rewrite Hw. done.
Qed.
Lemma settle_writer y fatal : inv y -> writer y = WSent fatal ->
  inv (with_writer (with_shared y (with_writer_running (shared y) false)) WWaiting).
Proof. intros Hy Hw. pose proof Hy as [H1 H2 H3 H4 H5 H6]. split; try done. places Hy. rewrite Hw. done. Qed.

Lemma writer_take_inv y y' : inv y -> writer_take y = Some y' -> inv y'.
Proof.
  intros Hy. unfold writer_take. destruct (writer y) eqn:Ew; try done. destruct (writer_queue (shared y)) as [|e q] eqn:Eq.
  - case_bool_decide as Eg; [done|]. intros [= <-]. by apply stop_writer.
  - intros [= <-]. pose proof Hy as [H1 H2 H3 H4 H5 H6]. rewrite Eq in H2. cbn in H2. split; [cbn..|]; try done; [lia|intros Hg%H4; congruence|].
    places Hy. rewrite Ew, Eq, in_queue_cons. cbn [in_writer]. lia.
Qed.
Lemma writer_send_inv y x y' : inv y -> writer_send y x = Some y' -> inv y'.
Proof.
  intros Hy. unfold writer_send. destruct (writer y) as [|e| |] eqn:Ew; try done. destruct (writer_execution x) as [r fatal]. intros [= <-].
  pose proof Hy as [H1 H2 H3 H4 H5 H6]. split; try done; [cbn; by rewrite H3, Ew|]. places Hy. rewrite map_app, occ_app, Ew.
  cbn [in_writer map fst]. lia.
Qed.
Lemma writer_settle_inv y y' : inv y -> writer_settle y = Some y' -> inv y'.
Proof.
  intros Hy. unfold writer_settle. destruct (writer y) as [| |fatal|] eqn:Ew; try done. intros [= <-]. pose proof (settle_writer y fatal Hy Ew) as Hs.
  destruct fatal; [|done]. apply failing_inv in Hs. by apply (stop_writer (failing _) Hs).
Qed.

Lemma reader_change y i r s r' s' a :
  inv y -> readers y !! i = Some r -> read_slots (shared y) !! i = Some s -> reader_ok (gate (shared y)) r' s' ->
  (forall x, in_slot x s' + in_reader x r' + occ x (map fst a) = in_slot x s + in_reader x r)%nat ->
  inv (send (set_reader (set_slot y i s') i r') a).
Proof.
  intros Hy Hr Hs Hok Hx. pose proof Hy as [H1 H2 H3 H4 H5 H6]. split; try done.
  - cbn. by apply Forall2_insert.
  - places Hy. rewrite map_app, occ_app. pose proof (total_insert (in_slot z) _ _ _ s' Hs). pose proof (total_insert (in_reader z) _ _ _ r' Hr).
    specialize (Hx z). lia.
Qed.
Lemma send_nil y : send y [] = y.
Proof. destruct y. unfold send. cbn. by rewrite app_nil_r. Qed.
Lemma set_slot_id y i s : read_slots (shared y) !! i = Some s -> set_slot y i s = y.
Proof. intros Hs. unfold set_slot. rewrite list_insert_id by done. by destruct y as [[] ? ? ? ?]. Qed.
Lemma reader_become y i r s r' :
  inv y -> readers y !! i = Some r -> read_slots (shared y) !! i = Some s -> reader_ok (gate (shared y)) r' s ->
  (forall x, in_reader x r' = in_reader x r) -> inv (set_reader y i r').
Proof.
  intros Hy Hr Hs Hok Hx. rewrite <- (send_nil (set_reader y i r')). rewrite <- (set_slot_id y i s Hs) at 1.
  eapply reader_change; try done. intros x. by rewrite Hx, Nat.add_0_r.
Qed.

Lemma reader_take_inv i y y' : inv y -> reader_take i y = Some y' -> inv y'.
Proof.
  intros Hy. unfold reader_take. destruct (readers y !! i) as [[| | |]|] eqn:Er; try done. destruct (slot_at y i _ Hy Er) as (s & Hs & Hok).
  rewrite Hs. destruct Hok as (O1 & O2 & O3 & O4 & O5). destruct (assigned s) as [e|] eqn:Ea.
  - intros [= <-]. rewrite <- (send_nil (set_reader _ _ _)). eapply reader_change; try done.
    intros x. unfold in_slot. rewrite Ea. cbn [assigned in_reader map]. rewrite occ_nil. lia.
  - case_bool_decide as Eg; [done|]. intros [= <-]. by eapply reader_become.
Qed.
Lemma reader_send_inv i y y' : inv y -> reader_send i y = Some y' -> inv y'.
Proof.
  intros Hy. unfold reader_send. destruct (readers y !! i) as [[| |e r fatal|]|] eqn:Er; try done. intros [= <-].
  destruct (slot_at y i _ Hy Er) as (s & Hs & Hok). destruct Hok as (O1 & O2 & O3 & O4 & O5).
  change (set_reader (send y ?a) i ?r) with (send (set_reader y i r) a). rewrite <- (set_slot_id y i s Hs) at 1. eapply reader_change; try done.
  - destruct fatal; split_and!; try done. intros _. split; [auto|congruence].
  - intros x. destruct fatal; cbn [in_reader map fst]; lia.
Qed.
Lemma reader_settle_inv i y x y' : inv y -> reader_settle i y x = Some y' -> inv y'.
Proof.
  intros Hy. unfold reader_settle. destruct (readers y !! i) as [[|e| |]|] eqn:Er; try done. destruct (slot_at y i _ Hy Er) as (s & Hs & Hok).
  rewrite Hs. destruct Hok as (O1 & O2 & O3 & O4 & O5). destruct (reader_execution x) as [r fatal]. intros [= <-].
  set (s' := {| assigned := assigned s; running := false |}).
  assert (inv (set_reader (set_slot y i s') i (RSending e r false))) as Hq.
  { rewrite <- (send_nil (set_reader _ _ _)). eapply reader_change; try done. }
  destruct fatal; [|done]. apply failing_inv in Hq.
  assert (readers (failing (set_reader (set_slot y i s') i (RSending e r false))) !! i = Some (RSending e r false)) as Hr'.
  { cbn. rewrite list_lookup_insert_eq; [done|]. by eapply lookup_lt_Some. }
  destruct (slot_at _ i _ Hq Hr') as (s2 & Hs2 & Hok2).
  assert (reader_ok Failed (RSending e r true) s2) as Hok3 by (destruct Hok2 as (? & ? & ? & ? & ?); done).
  pose proof (reader_become _ _ _ _ (RSending e r true) Hq Hr' Hs2 Hok3 (fun x => eq_refl)) as Hz.
  unfold set_reader, with_readers in Hz. cbn in Hz. rewrite list_insert_insert_eq in Hz. exact Hz.
Qed.

Lemma work_inv y y' : inv y -> work y y' -> inv y'.
Proof.
  intros Hy. destruct 1; eauto using writer_take_inv, writer_send_inv, writer_settle_inv, reader_take_inv, reader_settle_inv, reader_send_inv.
Qed.
Lemma step_inv y y' : inv y -> step y y' -> inv y'.
Proof.
  intros Hy [Hw|Hc]; [by eapply work_inv|]. destruct Hc; eauto using enqueue_inv, submit_read_inv, failing_inv, begin_shutdown_inv.
Qed.

Lemma started_inv capacity count : inv (started capacity count).
Proof.
  split; cbn; try done; [|lia|].
  - apply Forall2_same_length_lookup_2; [by rewrite !repeat_length|]. intros i r s Hr Hs.
    apply repeat_lookup in Hr as ->, Hs as ->. done.
  - intros x. unfold held, answered, owed. cbn. by rewrite !total_repeat.
Qed.
Lemma start_failed_inv capacity count spawned : (spawned < count)%nat -> inv (start_failed capacity count spawned).
Proof.
  intros Hs. split; cbn; try done; [|lia|].
  - apply Forall2_same_length_lookup_2; [rewrite length_app, !repeat_length; lia|]. intros i r s Hr Hs'.
    apply repeat_lookup in Hs' as ->. apply lookup_app_Some in Hr as [Hr|[_ Hr]]; apply repeat_lookup in Hr as ->; done.
  - intros x. unfold held, answered, owed. cbn. rewrite tally_app, !total_repeat by done. done.
Qed.
Lemma initial_inv y : initial y -> inv y.
Proof. destruct 1; auto using started_inv, start_failed_inv. Qed.
Lemma rtc_inv y y' : inv y -> rtc step y y' -> inv y'.
Proof. intros Hy Hr. induction Hr; eauto using step_inv. Qed.
Lemma reachable_inv y : reachable y -> inv y.
Proof. intros (y0 & Hi & Hr). eapply rtc_inv; [by apply initial_inv|done]. Qed.

(** ** The work that is left *)

Definition slot_work (s : ReadSlot RJ) : nat := match assigned s with Some _ => 3 | None => 0 end.
Definition reader_work (r : @ReaderPc RJ) : nat := match r with RWaiting => 1 | RRunning _ => 3 | RSending _ _ _ => 2 | RStopped => 0 end.
Definition writer_work (w : @WriterPc WJ) : nat := match w with WWaiting => 1 | WRunning _ => 3 | WSent _ => 2 | WStopped => 0 end.
Definition work_left (y : Y) : nat :=
  3 * length (writer_queue (shared y)) + total slot_work (read_slots (shared y)) + writer_work (writer y) + total reader_work (readers y).

Lemma failing_work y : (work_left (failing y) <= work_left y)%nat.
Proof.
  assert (total slot_work (map emptied (read_slots (shared y))) = 0%nat) as Hz.
  { apply total_zero. by intros s (s' & -> & _)%list_elem_of_fmap. }
  unfold work_left, failing, fail_locked. cbn [shared send with_shared with_slots with_queue with_gate read_slots writer_queue writer readers length].
  rewrite Hz. lia.
Qed.
Lemma set_reader_work y i r r' : readers y !! i = Some r -> (work_left (set_reader y i r') + reader_work r = work_left y + reader_work r')%nat.
Proof. intros Hr. unfold work_left. cbn. pose proof (total_insert reader_work _ _ _ r' Hr). lia. Qed.
Lemma set_slot_work y i s s' :
  read_slots (shared y) !! i = Some s -> (work_left (set_slot y i s') + slot_work s = work_left y + slot_work s')%nat.
Proof. intros Hs. unfold work_left. cbn. pose proof (total_insert slot_work _ _ _ s' Hs). lia. Qed.
Lemma send_work y a : work_left (send y a) = work_left y.
Proof. done. Qed.

Lemma writer_work_decreases y y' : writer_take y = Some y' \/ (exists x, writer_send y x = Some y') \/ writer_settle y = Some y' -> (work_left y' < work_left y)%nat.
Proof.
  unfold writer_take, writer_send, writer_settle. intros [Ht|[[x Ht]|Ht]]; destruct (writer y) eqn:Ew; try done.
  - destruct (writer_queue (shared y)) as [|e q] eqn:Eq; [case_bool_decide; [done|]|]; injection Ht as <-; unfold work_left; cbn; rewrite Ew, ?Eq; cbn; lia.
  - destruct (writer_execution x). injection Ht as <-. unfold work_left. cbn. rewrite Ew. cbn. lia.
  - injection Ht as <-. destruct fatal; [|unfold work_left; cbn; rewrite Ew; cbn; lia].
    pose proof (failing_work y) as Hf. unfold work_left in *. cbn in *. rewrite Ew in *. cbn in *. lia.
Qed.
Lemma reader_work_decreases i y y' :
  reader_take i y = Some y' \/ (exists x, reader_settle i y x = Some y') \/ reader_send i y = Some y' -> (work_left y' < work_left y)%nat.
Proof.
  unfold reader_take, reader_settle, reader_send. intros [Ht|[[x Ht]|Ht]]; destruct (readers y !! i) as [[|e|e r fatal|]|] eqn:Er; try done.
  - destruct (read_slots (shared y) !! i) as [s|] eqn:Es; [|done]. destruct (assigned s) as [e|] eqn:Ea.
    + injection Ht as <-. pose proof (set_slot_work y i s {| assigned := None; running := true |} Es) as H1.
      pose proof (set_reader_work (set_slot y i {| assigned := None; running := true |}) i _ (RRunning e) Er) as H2.
      unfold slot_work in H1. rewrite Ea in H1. cbn [assigned reader_work] in *. lia.
    + case_bool_decide; [done|]. injection Ht as <-. pose proof (set_reader_work y i _ RStopped Er) as H1. cbn [reader_work] in H1. lia.
  - destruct (read_slots (shared y) !! i) as [s|] eqn:Es; [|done]. destruct (reader_execution x) as [r fatal]. injection Ht as <-.
    pose proof (set_slot_work y i s {| assigned := assigned s; running := false |} Es) as H1. unfold slot_work in H1. cbn [assigned] in H1.
    set (z := set_slot _ _ _) in *. assert (readers (if fatal then failing z else z) !! i = Some (RRunning e)) as Hr by (by destruct fatal).
    pose proof (set_reader_work _ i _ (RSending e r fatal) Hr) as H2. pose proof (failing_work z) as H3. cbn [reader_work] in H2.
    destruct fatal; lia.
  - injection Ht as <-. pose proof (set_reader_work (send y [(r_result e, r)]) i _ (if fatal then RStopped else RWaiting) Er) as H1.
    rewrite send_work in H1. destruct fatal; cbn [reader_work] in H1; lia.
Qed.
Lemma work_decreases y y' : work y y' -> (work_left y' < work_left y)%nat.
Proof. destruct 1; eauto 6 using writer_work_decreases, reader_work_decreases. Qed.

(** ** A closed gate *)

Lemma closed_call y y' : gate (shared y) <> Open -> call y y' ->
  gate (shared y') <> Open /\ next_receipt y' = next_receipt y /\ (work_left y' <= work_left y)%nat.
Proof.
  intros Hg. destruct 1.
  - unfold enqueue_writer. destruct (gate (shared y)) eqn:Eg; [done|..]; cbn; rewrite Eg; auto with lia.
  - unfold submit_read. destruct (gate (shared y)) eqn:Eg; [done|..]; cbn; rewrite Eg; auto with lia.
  - split_and!; try done. apply failing_work.
  - unfold begin_shutdown. rewrite bool_decide_eq_false_2 by done. auto with lia.
Qed.
Lemma failing_gate y : gate (shared (failing y)) = Failed.
Proof. done. Qed.
Lemma work_gate y y' : work y y' -> next_receipt y' = next_receipt y /\ (gate (shared y') = gate (shared y) \/ gate (shared y') = Failed).
Proof.
  destruct 1 as [y y' Ht|y x y' Ht|y y' Ht|i y y' Ht|i y x y' Ht|i y y' Ht];
    [unfold writer_take in Ht|unfold writer_send in Ht|unfold writer_settle in Ht|unfold reader_take in Ht|unfold reader_settle in Ht|unfold reader_send in Ht];
    repeat (case_match; try done); simplify_eq/=; auto.
Qed.
Lemma closed_step y y' : gate (shared y) <> Open -> step y y' -> gate (shared y') <> Open /\ next_receipt y' = next_receipt y.
Proof.
  intros Hg [Hw|Hc]; [|by destruct (closed_call y y' Hg Hc) as (? & ? & ?)]. destruct (work_gate y y' Hw) as [? [Hq|Hq]]; rewrite Hq; done.
Qed.
Lemma failed_step y y' : gate (shared y) = Failed -> step y y' -> gate (shared y') = Failed.
Proof.
  intros Hg [Hw|Hc]; [destruct (work_gate y y' Hw) as [_ [Hq|Hq]]; congruence|]. destruct Hc; [| |done|].
  - unfold enqueue_writer. by rewrite Hg.
  - unfold submit_read. by rewrite Hg.
  - unfold begin_shutdown. by rewrite Hg.
Qed.

(** ** Progress *)

Lemma writer_moves y : inv y -> gate (shared y) <> Open -> writer y <> WStopped -> exists y', work y y'.
Proof.
  intros Hy Hg Hw. destruct (writer y) as [|e|fatal|] eqn:Ew; [| | |done].
  - exists (with_writer y WStopped). apply work_take. unfold writer_take. by rewrite Ew, (inv_closed _ Hy Hg), bool_decide_eq_false_2.
  - eexists. eapply (work_send _ None). unfold writer_send. rewrite Ew. done.
  - eexists. eapply work_settle. unfold writer_settle. rewrite Ew. done.
Qed.
Lemma reader_moves y i r : inv y -> gate (shared y) <> Open -> readers y !! i = Some r -> r <> RStopped -> exists y', work y y'.
Proof.
  intros Hy Hg Hr Hn. destruct (slot_at y i r Hy Hr) as (s & Hs & _). destruct r as [|e|e x fatal|]; [| | |done].
  - destruct (assigned s) as [e|] eqn:Ea; eexists; eapply (work_read_take i); unfold reader_take; rewrite Hr, Hs, Ea; [done|].
    by rewrite bool_decide_eq_false_2.
  - eexists. eapply (work_read_settle i _ None). unfold reader_settle. rewrite Hr, Hs. done.
  - eexists. eapply (work_read_send i). unfold reader_send. rewrite Hr. done.
Qed.
#[local] Instance writer_stopped_dec (w : @WriterPc WJ) : Decision (w = WStopped).
Proof. destruct w; solve [left; done | right; done]. Defined.
#[local] Instance reader_stopped_dec (r : @ReaderPc RJ) : Decision (r = RStopped).
Proof. destruct r; solve [left; done | right; done]. Defined.
Lemma idle_stopped y : inv y -> gate (shared y) <> Open -> (forall y', ~ work y y') -> stopped y.
Proof.
  intros Hy Hg Hn. split.
  - destruct (decide (writer y = WStopped)) as [|Hw]; [done|]. by destruct (writer_moves y Hy Hg Hw) as [y' ?%Hn].
  - apply Forall_lookup. intros i r Hr. destruct (decide (r = RStopped)) as [|Hw]; [done|].
    by destruct (reader_moves y i r Hy Hg Hr Hw) as [y' ?%Hn].
Qed.

(** Nothing is left in a stopped runtime. *)
Lemma stopped_nothing_held y x : inv y -> stopped y -> held y x = 0%nat.
Proof.
  intros Hy [Hw Hr]. unfold held. rewrite (inv_closed _ Hy (inv_writer _ Hy Hw)), Hw. cbn. rewrite !total_zero; [done|..].
  - intros r Hin. rewrite Forall_forall in Hr. by rewrite (Hr r Hin).
  - intros s (i & Hi)%list_elem_of_lookup. destruct (Forall2_lookup_r _ _ _ _ _ (inv_readers _ Hy) Hi) as (r & Hri & O1 & O2 & O3 & O4 & O5).
    rewrite Forall_lookup in Hr. rewrite (Hr i r Hri) in O4. unfold in_slot. by destruct (O4 eq_refl) as [-> _].
Qed.
Lemma owed_answers y : inv y -> (forall x, held y x = 0%nat) -> map fst (answers y) ≡ₚ seq 0 (next_receipt y).
Proof.
  intros Hy Hh. assert (forall x, occ x (map fst (answers y)) = owed y x) as Ho.
  { intros x. pose proof (inv_owed _ Hy x) as Hx. unfold answered in Hx. rewrite Hh in Hx. lia. }
  apply NoDup_Permutation; [|apply NoDup_seq|].
  - apply occ_NoDup. intros x. rewrite Ho. unfold owed. case_decide; lia.
  - intros x. rewrite elem_of_seq. split.
    + intros Hx%occ_elem. rewrite Ho in Hx. unfold owed in Hx. case_decide; lia.
    + intros Hx. apply occ_mem. rewrite Ho. unfold owed. rewrite decide_True by lia. lia.
Qed.

(** Runs that count the steps of the threads. *)
Inductive busy : nat -> Y -> Y -> Prop :=
| busy_refl y : busy 0 y y
| busy_work n y y' y'' : work y y' -> busy n y' y'' -> busy (S n) y y''
| busy_call n y y' y'' : call y y' -> busy n y' y'' -> busy n y y''.
Lemma busy_bound n y y' : busy n y y' -> gate (shared y) <> Open -> (n + work_left y' <= work_left y)%nat.
Proof.
  induction 1 as [|n y y' y'' Hw Hb IH|n y y' y'' Hc Hb IH]; intros Hg; [lia|..].
  - destruct (closed_step y y' Hg (or_introl Hw)) as [Hg' _]. apply IH in Hg'. apply work_decreases in Hw. lia.
  - destruct (closed_call y y' Hg Hc) as (Hg' & _ & Hl). apply IH in Hg'. lia.
Qed.

Lemma closed_rtc y y' : gate (shared y) <> Open -> rtc step y y' -> gate (shared y') <> Open /\ next_receipt y' = next_receipt y.
Proof.
  intros Hg Hr. induction Hr as [|y y1 y2 Hs Hr IH]; [done|]. destruct (closed_step y y1 Hg Hs) as [Hg' Hn]. destruct (IH Hg'). by rewrite <- Hn.
Qed.
Lemma failed_rtc y y' : gate (shared y) = Failed -> rtc step y y' -> gate (shared y') = Failed.
Proof. intros Hg Hr. induction Hr; eauto using failed_step. Qed.

(** ** Order of the writer, and answers of failures *)

Definition pending (y : Y) : list nat :=
  match writer y with WRunning e => [w_result e] | _ => [] end ++ map w_result (writer_queue (shared y)).
Definition ordered (y : Y) : Prop := StronglySorted lt (pending y).
Definition marked (y : Y) : Prop := Forall (fun r => match r with RSending _ x fatal => is_internal x = fatal | _ => True end) (readers y).

Lemma pending_owed y x : inv y -> x ∈ pending y -> (x < next_receipt y)%nat.
Proof.
  intros Hy Hx%occ_elem. pose proof (inv_owed _ Hy x) as Ho. unfold pending in Hx. rewrite occ_app in Hx. unfold held, in_queue, owed in Ho.
  case_decide; [done|]. destruct (writer y); cbn [in_writer] in Ho; rewrite ?occ_nil in Hx; lia.
Qed.
Lemma sorted_app_single l n : StronglySorted lt l -> (forall x, x ∈ l -> (x < n)%nat) -> StronglySorted lt (l ++ [n]).
Proof.
  induction 1 as [|a l Hl IH Ha]; intros Hn; cbn; constructor; [constructor|constructor|..].
  - apply IH. intros. apply Hn. by right.
  - apply Forall_app. split; [done|]. constructor; [|done]. apply Hn. by left.
Qed.
Lemma sorted_tail l k : StronglySorted lt (l ++ k) -> StronglySorted lt k.
Proof. induction l; [done|]. inversion 1; auto. Qed.

Lemma step_ordered y y' : inv y -> ordered y -> step y y' -> ordered y'.
Proof.
  unfold ordered. intros Hy Ho [Hw|Hc].
  - destruct Hw as [y y' Ht|y x y' Ht|y y' Ht|i y y' Ht|i y x y' Ht|i y y' Ht];
    [unfold writer_take in Ht|unfold writer_send in Ht|unfold writer_settle in Ht|unfold reader_take in Ht|unfold reader_settle in Ht|unfold reader_send in Ht];
    repeat (case_match; try done); simplify_eq/=; unfold pending in *; cbn; repeat match goal with H : writer y = _ |- _ => rewrite H in * | H : writer_queue _ = _ |- _ => rewrite H in * end; cbn in *; eauto using SSorted_nil, sorted_tail.
    all: try (apply (sorted_tail [_]) in Ho; exact Ho). all: destruct (writer y); repeat constructor.
  - destruct Hc.
    + unfold enqueue_writer. repeat case_match; try done. unfold pending. cbn. rewrite map_app, app_assoc. apply sorted_app_single; [done|].
      intros x Hx. by eapply pending_owed.
    + unfold submit_read. repeat case_match; done.
    + unfold pending in *. cbn. destruct (writer y); repeat constructor.
    + unfold begin_shutdown. case_match; [|done]. unfold pending in *. cbn. destruct (writer y); repeat constructor.
Qed.
Lemma step_marked y y' : marked y -> step y y' -> marked y'.
Proof.
  unfold marked. intros Hm [Hw|Hc].
  - destruct Hw as [y y' Ht|y x y' Ht|y y' Ht|i y y' Ht|i y x y' Ht|i y y' Ht];
    [unfold writer_take in Ht|unfold writer_send in Ht|unfold writer_settle in Ht|unfold reader_take in Ht|unfold reader_settle in Ht|unfold reader_send in Ht];
    repeat (case_match; try done); simplify_eq/=; try done; try (apply Forall_insert; [done|by destruct_and?]).
    all: apply Forall_insert; [done|]; unfold reader_execution in *; repeat case_match; simplify_eq/=; done.
  - destruct Hc; [unfold enqueue_writer|unfold submit_read|done|unfold begin_shutdown]; repeat case_match; done.
Qed.
Lemma initial_ordered_marked y : initial y -> ordered y /\ marked y.
Proof.
  destruct 1; (split; [constructor|]); apply Forall_lookup; intros i r Hr; cbn in Hr; [by apply repeat_lookup in Hr as ->|].
  apply lookup_app_Some in Hr as [Hr|[_ Hr]]; apply repeat_lookup in Hr as ->; done.
Qed.
Lemma reachable_ordered_marked y : reachable y -> ordered y /\ marked y.
Proof.
  intros (y0 & Hi & Hr). pose proof (initial_inv _ Hi) as Hy. apply initial_ordered_marked in Hi. induction Hr as [|y0 y1 y2 Hs Hr IH]; [done|].
  apply IH; [|by eapply step_inv]. destruct Hi. split; [by eapply step_ordered|by eapply step_marked].
Qed.
End facts.

(** ** A run, for the witnesses *)

Module Example.
Abbreviation sys := (System nat nat).
#[local] Open Scope nat_scope.
Definition y0 : sys := started 2 1.
Definition y1 : sys := (enqueue_writer y0 10).2.
Definition y2 : sys := (submit_read y1 20).2.
Definition y3 : sys := (enqueue_writer y2 11).2.
Definition y4 : sys := default y3 (writer_take y3).
Definition y5 : sys := default y4 (writer_send y4 (Some (Ok tt))).
Definition y6 : sys := begin_shutdown y5.
Definition y7 : sys := default y6 (reader_take 0 y6).
Definition y8 : sys := default y7 (reader_settle 0 y7 None).
Definition y9 : sys := default y8 (reader_send 0 y8).
Definition y10 : sys := default y9 (writer_settle y9).
Definition y11 : sys := default y10 (writer_take y10).

Lemma run6 : reachable y6.
Proof.
  exists y0. split; [apply initial_started|]. apply (rtc_l _ _ y1); [right; apply (call_enqueue y0)|].
  apply (rtc_l _ _ y2); [right; apply (call_read y1)|]. apply (rtc_l _ _ y3); [right; apply (call_enqueue y2)|].
  apply (rtc_l _ _ y4); [left; by apply work_take|]. apply (rtc_l _ _ y5); [left; by apply (work_send _ (Some (Ok tt)))|].
  apply rtc_once. right. apply (call_shutdown y5).
Defined.
Lemma run8 : reachable y8.
Proof.
  destruct run6 as (y & Hi & Hr). exists y. split; [done|]. etransitivity; [exact Hr|].
  apply (rtc_l _ _ y7); [left; by apply (work_read_take 0)|]. apply rtc_once. left. by apply (work_read_settle 0 _ None).
Defined.
Lemma stop6 : rtc step y6 y11.
Proof.
  apply (rtc_l _ _ y7); [left; by apply (work_read_take 0)|]. apply (rtc_l _ _ y8); [left; by apply (work_read_settle 0 _ None)|].
  apply (rtc_l _ _ y9); [left; by apply (work_read_send 0)|]. apply (rtc_l _ _ y10); [left; by apply work_settle|].
  apply rtc_once. left. by apply work_take.
Defined.
Lemma answers11 : answers y11 = [(0%nat, Ok tt); (2%nat, Err StShuttingDown); (1%nat, Err StInternal)] /\ stopped y11.
Proof. split; [done|]. split; [done|]. repeat constructor. Qed.
End Example.

(** ** The promises of the runtime *)

(** C25: in every reachable state of the running library - whatever jobs were submitted,
    however they ended (a result, an error, a panic), and however the threads, the
    failures and the shutdown interleave - each receipt that was handed out is in exactly
    one place: waiting in the writer's queue or in a reader's slot, held by one thread, or
    answered; none is lost and none is answered twice.  The queue never exceeds its
    capacity, a slot that runs a job has no other one assigned, and the writer always
    takes the oldest of the jobs that wait for it. *)
Theorem runtime_answers_exactly_once {WJ RJ} (y : System WJ RJ) :
  reachable y ->
  NoDup (map fst (answers y)) /\
  (forall x, held y x + answered y x = if decide (x < next_receipt y) then 1 else 0)%nat /\
  (length (writer_queue (shared y)) <= writer_capacity (shared y))%nat /\
  (forall i slot, read_slots (shared y) !! i = Some slot -> running slot = true -> assigned slot = None) /\
  StronglySorted lt (pending y).
Proof.
  intros Hy. pose proof (reachable_inv y Hy) as Hi. split_and!.
  - apply occ_NoDup. intros x. pose proof (inv_owed _ Hi x) as Ho. unfold answered, owed in Ho. case_decide; lia.
  - apply (inv_owed _ Hi).
  - apply (inv_capacity _ Hi).
  - intros i slot Hs. destruct (Forall2_lookup_r _ _ _ _ _ (inv_readers _ Hi) Hs) as (r & _ & _ & O & _). exact O.
  - by apply reachable_ordered_marked.
Qed.
Lemma runtime_answers_exactly_once_witness :
  NoDup (map fst (answers Example.y6)) /\
  (forall x, held Example.y6 x + answered Example.y6 x = if decide (x < next_receipt Example.y6) then 1 else 0)%nat /\
  (length (writer_queue (shared Example.y6)) <= writer_capacity (shared Example.y6))%nat /\
  (forall i slot, read_slots (shared Example.y6) !! i = Some slot -> running slot = true -> assigned slot = None) /\
  StronglySorted lt (pending Example.y6).
Proof. pose proof (runtime_answers_exactly_once Example.y6 Example.run6) as Ht. exact Ht. Defined.

(** C26: once the gate has left [Open] - a shutdown or a failure - nothing more is admitted,
    the gate never opens again, the threads take a bounded number of further steps under
    every schedule and whatever is still asked of the handle, and when none of them can
    take a step every thread has ended and every receipt that was handed out has been
    answered exactly once: the joins of the shutdown return. *)
Theorem closed_runtime_stops {WJ RJ} (y : System WJ RJ) :
  reachable y -> gate (shared y) <> Open ->
  (exists bound, forall n y', busy n y y' -> (n <= bound)%nat) /\
  forall y', rtc step y y' ->
    gate (shared y') <> Open /\ next_receipt y' = next_receipt y /\
    ((forall y'', ~ work y' y'') -> stopped y' /\ map fst (answers y') ≡ₚ seq 0 (next_receipt y)).
Proof.
  intros Hy Hg. pose proof (reachable_inv y Hy) as Hi. split.
  - exists (work_left y). intros n y' Hb. pose proof (busy_bound n y y' Hb Hg). lia.
  - intros y' Hr. destruct (closed_rtc y y' Hg Hr) as [Hg' Hn]. split_and!; [done..|]. intros Hw. pose proof (rtc_inv y y' Hi Hr) as Hi'.
    pose proof (idle_stopped y' Hi' Hg' Hw) as Hs. split; [done|]. rewrite <- Hn. apply owed_answers; [done|].
    intros x. by apply stopped_nothing_held.
Qed.
Lemma closed_runtime_stops_witness :
  (exists bound, forall n y', busy n Example.y6 y' -> (n <= bound)%nat) /\
  forall y', rtc step Example.y6 y' ->
    gate (shared y') <> Open /\ next_receipt y' = next_receipt Example.y6 /\
    ((forall y'', ~ work y' y'') -> stopped y' /\ map fst (answers y') ≡ₚ seq 0 (next_receipt Example.y6)).
Proof.
  assert (gate (shared Example.y6) <> Open) as Hg by discriminate.
  pose proof (closed_runtime_stops Example.y6 Example.run6 Hg) as Ht. exact Ht.
Defined.

(** A failure of the runtime is final and never silent.  A reader that is about to
    answer with an internal error - its job failed, panicked, or its connection could not
    be replaced - has already failed the runtime; a writer that answered with one fails it
    in its next step; from then on every submission is refused as an internal error, no
    job waits anywhere, and the shutdown reports the failure whatever its finalization
    says. *)
Theorem runtime_failure_is_final {WJ RJ} (y : System WJ RJ) :
  reachable y ->
  (forall i e result fatal, readers y !! i = Some (RSending e result fatal) -> is_internal result = true -> gate (shared y) = Failed) /\
  (forall y', writer y = WSent true -> writer_settle y = Some y' -> gate (shared y') = Failed /\ writer y' = WStopped) /\
  (gate (shared y) = Failed -> forall y', rtc step y y' ->
     gate (shared y') = Failed /\ writer_queue (shared y') = [] /\ Forall (fun s => assigned s = None) (read_slots (shared y')) /\
     (forall job, enqueue_writer y' job = (Err StInternal, y')) /\ (forall job, submit_read y' job = (Err StInternal, y')) /\
     (forall join_failed finalization, shutdown_result y' join_failed finalization = Err StInternal)).
Proof.
  intros Hy. pose proof (reachable_inv y Hy) as Hi. split_and!.
  - intros i e r fatal Hr Hint. destruct (slot_at y i _ Hi Hr) as (s & _ & _ & _ & _ & _ & O). destruct (reachable_ordered_marked y Hy) as [_ Hm].
    pose proof (Forall_lookup_1 _ _ _ _ Hm Hr) as Hf. cbn in Hf. rewrite Hint in Hf. by subst fatal.
  - intros y' Hw. unfold writer_settle. rewrite Hw. by intros [= <-].
  - intros Hg y' Hr. pose proof (failed_rtc y y' Hg Hr) as Hg'. pose proof (rtc_inv y y' Hi Hr) as Hi'. split_and!; [done| | |intros; unfold enqueue_writer..|].
    + apply (inv_closed _ Hi'). by rewrite Hg'.
    + apply Forall_lookup. intros i s Hs. destruct (Forall2_lookup_r _ _ _ _ _ (inv_readers _ Hi') Hs) as (r & _ & _ & _ & O & _). auto.
    + by rewrite Hg'.
    + unfold submit_read. by rewrite Hg'.
    + intros. unfold shutdown_result. by rewrite bool_decide_eq_true_2.
Qed.
Lemma runtime_failure_is_final_witness :
  (forall i e result fatal, readers Example.y8 !! i = Some (RSending e result fatal) -> is_internal result = true -> gate (shared Example.y8) = Failed) /\
  (forall y', writer Example.y8 = WSent true -> writer_settle Example.y8 = Some y' -> gate (shared y') = Failed /\ writer y' = WStopped) /\
  (gate (shared Example.y8) = Failed -> forall y', rtc step Example.y8 y' ->
     gate (shared y') = Failed /\ writer_queue (shared y') = [] /\ Forall (fun s => assigned s = None) (read_slots (shared y')) /\
     (forall job, enqueue_writer y' job = (Err StInternal, y')) /\ (forall job, submit_read y' job = (Err StInternal, y')) /\
     (forall join_failed finalization, shutdown_result y' join_failed finalization = Err StInternal)).
Proof. pose proof (runtime_failure_is_final Example.y8 Example.run8) as Ht. exact Ht. Defined.
End LifecycleFacts.
