(* ===== verification/Intents.v ===== *)
(** The durable intents of the store: the record that announces the bootstrap of a library
    (mengxia-store-sqlite/src/intent.rs) and the record that announces a migration
    (migration_intent.rs).

    A record is an array that starts as zeros and is filled by [copy_from_slice]; [put] is
    that copy.  Identities, instants and SHA-256 are the interface [StoreEnv]. *)
From Stdlib Require Import ZArith Lia String.
From Stdlib Require Import Strings.Byte Init.Byte.
From stdpp Require Import prelude list.
From S2P Require Import Prelude RustText Types AssetDomain CreativeDomain Ports CommandLedger CreativeStore StoreScenario AssetStore AssetScenario StartupRecovery AppRuntime AssetQuery AssetListing AssetInspect AssetCursors CursorFacts.

Set Warnings "-clear-no-such-hyp".

Module Intents.
Import Ports Runtime.
Abbreviation range := Cursors.range.
Abbreviation be_at := Cursors.be_at.
Abbreviation zeros := Cursors.zeros.

(** [record[off..off + bytes.len()].copy_from_slice(bytes)]. *)
Definition put (off : nat) (bytes record : list byte) : list byte := take off record ++ bytes ++ drop (off + length bytes) record.
Definition zeroed (n : nat) : list byte := repeat x00 n.

(** [i64::to_be_bytes] and [i64::from_be_bytes]. *)
Definition i64_bytes (z : Z) : list byte := be_bytes 8 (z mod 2 ^ 64).
Definition i64_value (bytes : list byte) : Z := let v := be_value bytes in if v <? 2 ^ 63 then v else v - 2 ^ 64.
Definition is_i64 (z : Z) : Prop := - 2 ^ 63 <= z < 2 ^ 63.

(** ** migration.rs: the embedded migrations *)

Definition hex_bytes (l : list Z) : list byte := concat (map (be_bytes 1) l).
Definition MIGRATION_SEQUENCE : Z := 0.
Definition MIGRATION_NAME : list byte := bs "0000_store_bootstrap".
Definition MIGRATION_SHA256 : list byte := Eval vm_compute in hex_bytes [
  0x35; 0xa6; 0x9e; 0x30; 0xb6; 0x27; 0xe9; 0x94; 0xa1; 0x72; 0xc9; 0x49; 0x0f; 0x39; 0x15; 0x52;
  0xa8; 0xd6; 0x02; 0x12; 0xc7; 0x5a; 0xd2; 0xf4; 0x78; 0xea; 0x10; 0x05; 0xc0; 0xb9; 0x4c; 0xe2].
Definition CREATIVE_MIGRATION_SHA256 : list byte := Eval vm_compute in hex_bytes [
  0xdc; 0x95; 0xfc; 0xfe; 0xe3; 0x81; 0xd0; 0x78; 0x34; 0xe1; 0x49; 0x75; 0xa0; 0xfd; 0xac; 0xd0;
  0x87; 0x4d; 0xe9; 0xc6; 0x51; 0x2c; 0x72; 0xff; 0x0a; 0xc0; 0x47; 0x77; 0xe0; 0x75; 0x22; 0xd1].

Section intents.
Context `{StoreEnv}.

(** ** intent.rs: the bootstrap *)

Definition BOOTSTRAP_INTENT_LENGTH : nat := 256.
Definition CHECKSUM_OFFSET : nat := 224.
Definition BOOTSTRAP_MAGIC : list byte := bs "MXBTINT1".
Definition BOOTSTRAP_VERSION : Z := 1.
Definition HEADER_LENGTH : Z := 76.
Definition CANONICAL_BASENAME : list byte := bs "library.sqlite3".
Definition STAGING_BASENAME : list byte := bs ".library.sqlite3.bootstrap".

Record BootstrapIntent := {
  bi_root_device : Z; bi_root_inode : Z; bi_owner_uid : Z; bi_library_id : Id; bi_created_at : Timestamp;
  bi_migration_digest : list byte }.

(** The root directory as its authority knows it: device, inode and owner. *)
Record Root := { root_device : Z; root_inode : Z; root_owner_uid : Z }.
Definition for_authority (root : Root) (library_id : Id) (created_at : Timestamp) : BootstrapIntent := {|
  bi_root_device := root_device root; bi_root_inode := root_inode root; bi_owner_uid := root_owner_uid root;
  bi_library_id := library_id; bi_created_at := created_at; bi_migration_digest := MIGRATION_SHA256 |}.

Definition bootstrap_encode (i : BootstrapIntent) : list byte :=
  let record := zeroed BOOTSTRAP_INTENT_LENGTH in
  let record := put 0 BOOTSTRAP_MAGIC record in
  let record := put 8 (be_bytes 2 BOOTSTRAP_VERSION) record in
  let record := put 10 (be_bytes 2 HEADER_LENGTH) record in
  let record := put 12 (be_bytes 4 (Z.of_nat BOOTSTRAP_INTENT_LENGTH)) record in
  let record := put 16 (be_bytes 8 (bi_root_device i)) record in
  let record := put 24 (be_bytes 8 (bi_root_inode i)) record in
  let record := put 32 (be_bytes 4 (bi_owner_uid i)) record in
  let record := put 40 (bi_library_id i) record in
  let record := put 56 (i64_bytes (bi_created_at i).1) record in
  let record := put 64 (be_bytes 4 (bi_created_at i).2) record in
  let record := put 68 (be_bytes 4 MIGRATION_SEQUENCE) record in
  let record := put 72 (be_bytes 1 (blen MIGRATION_NAME)) record in
  let record := put 73 (be_bytes 1 (blen CANONICAL_BASENAME)) record in
  let record := put 74 (be_bytes 1 (blen STAGING_BASENAME)) record in
  let record := put 76 MIGRATION_NAME record in
  let record := put 108 CANONICAL_BASENAME record in
  let record := put 140 STAGING_BASENAME record in
  let record := put 172 (bi_migration_digest i) record in
  let checksum := sha256 (range record 0 CHECKSUM_OFFSET) in
  put CHECKSUM_OFFSET checksum record.

Definition slot_is_exact (record : list byte) (offset width : nat) (value : list byte) : bool :=
  forallb (fun b => Z.of_N (to_N b) <? 128) value && negb (existsb (fun b => bool_decide (b = x00)) value)
  && bool_decide (range record offset (offset + length value) = value) && zeros (range record (offset + length value) (offset + width)).

Definition bootstrap_decode (record : list byte) : result StoreError BootstrapIntent :=
  if negb (blen record =? Z.of_nat BOOTSTRAP_INTENT_LENGTH) then Err StConfiguration
  else if negb (bool_decide (drop CHECKSUM_OFFSET record = sha256 (range record 0 CHECKSUM_OFFSET)))
     || negb (bool_decide (range record 0 8 = BOOTSTRAP_MAGIC)) || negb (be_at record 8 10 =? BOOTSTRAP_VERSION)
     || negb (be_at record 10 12 =? HEADER_LENGTH) || negb (be_at record 12 16 =? Z.of_nat BOOTSTRAP_INTENT_LENGTH)
     || negb (zeros (range record 36 40)) || negb (be_at record 68 72 =? MIGRATION_SEQUENCE)
     || negb (be_at record 72 73 =? blen MIGRATION_NAME) || negb (be_at record 73 74 =? blen CANONICAL_BASENAME)
     || negb (be_at record 74 75 =? blen STAGING_BASENAME) || negb (zeros (range record 75 76))
     || negb (slot_is_exact record 76 32 MIGRATION_NAME) || negb (slot_is_exact record 108 32 CANONICAL_BASENAME)
     || negb (slot_is_exact record 140 32 STAGING_BASENAME) || negb (zeros (range record 204 CHECKSUM_OFFSET))
  then Err StConfiguration
  else if negb (id_valid (range record 40 56)) then Err StConfiguration
  else
    let seconds := i64_value (range record 56 64) in
    let nanos := be_at record 64 68 in
    if negb (timestamp_valid seconds nanos) then Err StConfiguration
    else Ok {| bi_root_device := be_at record 16 24; bi_root_inode := be_at record 24 32; bi_owner_uid := be_at record 32 36;
               bi_library_id := range record 40 56; bi_created_at := (seconds, nanos);
               bi_migration_digest := range record 172 204 |}.

Definition verify_authority (i : BootstrapIntent) (root : Root) : result StoreError () :=
  if (bi_root_device i =? root_device root) && (bi_root_inode i =? root_inode root) && (bi_owner_uid i =? root_owner_uid root)
     && bool_decide (bi_migration_digest i = MIGRATION_SHA256)
  then Ok tt else Err StConfiguration.

(** What the Rust types guarantee of an intent. *)
Definition bootstrap_good (i : BootstrapIntent) : Prop :=
  is_u64 (bi_root_device i) /\ is_u64 (bi_root_inode i) /\ is_u32 (bi_owner_uid i) /\
  length (bi_library_id i) = 16%nat /\ id_valid (bi_library_id i) = true /\
  is_i64 (bi_created_at i).1 /\ is_u32 (bi_created_at i).2 /\ timestamp_valid (bi_created_at i).1 (bi_created_at i).2 = true /\
  length (bi_migration_digest i) = 32%nat.

(** ** migration_intent.rs: the migration *)

Definition MIGRATION_INTENT_BYTES : nat := 512.
Definition MIGRATION_INTENT_MAGIC : list byte := bs "MENGXIA_MIG2_V1" ++ [x00].
Definition MIGRATION_INTENT_VERSION : Z := 1.
Definition INTENT_MIGRATION_SEQUENCE : Z := 2.
Definition INTENT_MIGRATION_NAME : list byte := bs "0002_projects_work".

Record MigrationIntent := {
  mi_attempt_id : Id; mi_library_id : Id; mi_root_device : Z; mi_root_inode : Z; mi_source_device : Z; mi_source_inode : Z;
  mi_source_length : Z; mi_source_sha256 : list byte; mi_migration_prefix_sha256 : list byte; mi_created_at : Timestamp }.

Definition migration_encode (i : MigrationIntent) : list byte :=
  let record := zeroed MIGRATION_INTENT_BYTES in
  let record := put 0 MIGRATION_INTENT_MAGIC record in
  let record := put 16 (be_bytes 2 MIGRATION_INTENT_VERSION) record in
  let record := put 18 (be_bytes 2 (Z.of_nat MIGRATION_INTENT_BYTES)) record in
  let record := put 24 (mi_attempt_id i) record in
  let record := put 40 (mi_library_id i) record in
  let record := put 56 (be_bytes 8 (mi_root_device i)) record in
  let record := put 64 (be_bytes 8 (mi_root_inode i)) record in
  let record := put 72 (be_bytes 8 (mi_source_device i)) record in
  let record := put 80 (be_bytes 8 (mi_source_inode i)) record in
  let record := put 88 (be_bytes 8 (mi_source_length i)) record in
  let record := put 96 (mi_source_sha256 i) record in
  let record := put 128 (mi_migration_prefix_sha256 i) record in
  let record := put 160 CREATIVE_MIGRATION_SHA256 record in
  let record := put 192 (i64_bytes (mi_created_at i).1) record in
  let record := put 200 (be_bytes 4 (mi_created_at i).2) record in
  let record := put 204 (be_bytes 2 INTENT_MIGRATION_SEQUENCE) record in
  let record := put 206 (be_bytes 2 (blen INTENT_MIGRATION_NAME)) record in
  let record := put 208 INTENT_MIGRATION_NAME record in
  let checksum := sha256 (range record 0 480) in
  put 480 checksum record.

(** The record is an array of 512 bytes. *)
Definition migration_decode (record : list byte) : result StoreError MigrationIntent :=
  if negb (bool_decide (range record 0 16 = MIGRATION_INTENT_MAGIC)) || negb (be_at record 16 18 =? MIGRATION_INTENT_VERSION)
     || negb (be_at record 18 20 =? Z.of_nat MIGRATION_INTENT_BYTES) || negb (zeros (range record 20 24))
     || negb (bool_decide (range record 160 192 = CREATIVE_MIGRATION_SHA256)) || negb (be_at record 204 206 =? INTENT_MIGRATION_SEQUENCE)
     || negb (be_at record 206 208 =? blen INTENT_MIGRATION_NAME) || negb (bool_decide (range record 208 226 = INTENT_MIGRATION_NAME))
     || negb (zeros (range record 226 480)) || negb (bool_decide (range record 480 512 = sha256 (range record 0 480)))
  then Err StCorruption
  else if negb (id_valid (range record 24 40)) then Err StCorruption
  else if negb (id_valid (range record 40 56)) then Err StCorruption
  else
    let seconds := i64_value (range record 192 200) in
    let nanos := be_at record 200 204 in
    if negb (timestamp_valid seconds nanos) then Err StCorruption
    else Ok {| mi_attempt_id := range record 24 40; mi_library_id := range record 40 56; mi_root_device := be_at record 56 64;
               mi_root_inode := be_at record 64 72; mi_source_device := be_at record 72 80; mi_source_inode := be_at record 80 88;
               mi_source_length := be_at record 88 96; mi_source_sha256 := range record 96 128;
               mi_migration_prefix_sha256 := range record 128 160; mi_created_at := (seconds, nanos) |}.

Definition migration_good (i : MigrationIntent) : Prop :=
  length (mi_attempt_id i) = 16%nat /\ id_valid (mi_attempt_id i) = true /\
  length (mi_library_id i) = 16%nat /\ id_valid (mi_library_id i) = true /\
  is_u64 (mi_root_device i) /\ is_u64 (mi_root_inode i) /\ is_u64 (mi_source_device i) /\ is_u64 (mi_source_inode i) /\
  is_u64 (mi_source_length i) /\ length (mi_source_sha256 i) = 32%nat /\ length (mi_migration_prefix_sha256 i) = 32%nat /\
  is_i64 (mi_created_at i).1 /\ is_u32 (mi_created_at i).2 /\ timestamp_valid (mi_created_at i).1 (mi_created_at i).2 = true.
End intents.
End Intents.

(** The durable intents are canonical: a record is accepted exactly when it is the
    encoding of the intent that is read from it. *)
Module IntentFacts.
Import Ports Runtime Intents CursorFacts.

(** ** Signed integers *)

Lemma i64_bytes_length z : length (i64_bytes z) = 8%nat.
Proof. apply be_bytes_length. Qed.
Lemma i64_value_bytes z : is_i64 z -> i64_value (i64_bytes z) = z.
Proof.
  intros Hz. unfold i64_value, i64_bytes, is_i64 in *. rewrite be_value_bytes.
  - destruct (Z.le_gt_cases 0 z).
    + rewrite Z.mod_small by lia. rewrite (proj2 (Z.ltb_lt _ _)) by lia. done.
    + replace (z mod 2 ^ 64) with (z + 2 ^ 64) by (rewrite <- (Z.mod_add z 1) by lia; rewrite Z.mod_small; lia).
      rewrite (proj2 (Z.ltb_ge _ _)) by lia. lia.
  - change (256 ^ Z.of_nat 8) with (2 ^ 64). apply Z.mod_pos_bound. lia.
Qed.
Lemma i64_bytes_value l : length l = 8%nat -> i64_bytes (i64_value l) = l /\ is_i64 (i64_value l).
Proof.
  intros Hl. unfold i64_bytes, i64_value, is_i64. pose proof (be_value_range l) as Hr. unfold blen in Hr. rewrite Hl in Hr.
  change (256 ^ Z.of_nat 8) with (2 ^ 64) in Hr. pose proof (be_bytes_value l) as Hb. rewrite Hl in Hb.
  destruct (be_value l <? 2 ^ 63) eqn:E; bool_hyps.
  - rewrite Z.mod_small by lia. split; [done|lia].
  - replace ((be_value l - 2 ^ 64) mod 2 ^ 64) with (be_value l); [split; [done|lia]|].
    rewrite <- (Z.mod_add _ 1) by lia. rewrite Z.mod_small; lia.
Qed.

(** ** Filling a zeroed record from left to right *)

Lemma put_zeros off b x n :
  (length x <= off)%nat -> (off + length b <= length x + n)%nat ->
  put off b (x ++ zeroed n) = (x ++ zeroed (off - length x) ++ b) ++ zeroed (length x + n - (off + length b)).
Proof.
  intros Hx Hn. unfold put, zeroed. rewrite take_app_ge, drop_app_ge by lia. rewrite <- !app_assoc. do 3 f_equal.
  - replace n with ((off - length x) + (n - (off - length x)))%nat by lia. rewrite repeat_app, take_app_length'; [done|]. by rewrite repeat_length.
  - replace n with ((off + length b - length x) + (length x + n - (off + length b)))%nat at 1 by lia. rewrite repeat_app, drop_app_length'; [done|].
    by rewrite repeat_length.
Qed.
Lemma zeroed_length n : length (zeroed n) = n.
Proof. apply repeat_length. Qed.
Lemma range_of_zeroed c a b : (a <= b <= length c)%nat -> zeros (range c a b) = true -> range c a b = zeroed (b - a).
Proof. intros Hab Hz. rewrite (zeros_eq _ Hz), range_length by done. done. Qed.


(** The fields of a record with their offsets, and the record they fill. *)
Definition fill (fields : list (nat * list byte)) (record : list byte) : list byte :=
  foldl (fun r f => put f.1 f.2 r) record fields.
Fixpoint lay (pos : nat) (fields : list (nat * list byte)) (size : nat) : list byte :=
  match fields with
  | [] => zeroed (size - pos)
  | (off, b) :: rest => zeroed (off - pos) ++ b ++ lay (off + length b) rest size
  end.
Fixpoint ascending (pos : nat) (fields : list (nat * list byte)) (size : nat) : Prop :=
  match fields with
  | [] => (pos <= size)%nat
  | (off, b) :: rest => (pos <= off)%nat /\ ascending (off + length b) rest size
  end.
Lemma ascending_bound fields pos size : ascending pos fields size -> (pos <= size)%nat.
Proof. revert pos. induction fields as [|[off b] fields IH]; intros pos; cbn; [done|]. intros [Hp Hr%IH]. lia. Qed.
Lemma fill_lay fields x size :
  ascending (length x) fields size -> fill fields (x ++ zeroed (size - length x)) = x ++ lay (length x) fields size.
Proof.
  revert x. induction fields as [|[off b] fields IH]; intros x; cbn [ascending fill foldl lay fst snd]; [done|]. intros [Hp Hr].
  pose proof (ascending_bound _ _ _ Hr) as Hb. rewrite put_zeros by lia.
  assert (length (x ++ zeroed (off - length x) ++ b) = (off + length b)%nat) as Hl by (rewrite !length_app, zeroed_length; lia).
  replace (length x + (size - length x) - (off + length b))%nat with (size - length (x ++ zeroed (off - length x) ++ b))%nat by lia.
  unfold fill in IH. rewrite IH by (by rewrite Hl). rewrite Hl, <- !app_assoc. done.
Qed.
(** The last field is the checksum of what precedes it. *)
Lemma seal x n (digest : list byte -> list byte) :
  length x = n -> length (digest x) = 32%nat -> put n (digest (range (x ++ zeroed 32) 0 n)) (x ++ zeroed 32) = x ++ digest x.
Proof.
  intros Hx Hd. rewrite range_here by done. rewrite put_zeros by lia. rewrite Hx, Nat.sub_diag, Hd, Nat.sub_diag. cbn [zeroed repeat]. by rewrite app_nil_r.
Qed.

(** Cutting a record at the ends of its fields. *)
Fixpoint cut (pos : nat) (sizes : list nat) (c : list byte) : list (list byte) :=
  match sizes with [] => [] | n :: rest => range c pos (pos + n) :: cut (pos + n) rest c end.
Lemma cut_concat sizes pos c : concat (cut pos sizes c) = range c pos (pos + sum_list sizes).
Proof.
  revert pos. induction sizes as [|n sizes IH]; intros pos; cbn [cut concat sum_list].
  - unfold Cursors.range. by rewrite Nat.add_0_r, Nat.sub_diag.
  - rewrite IH, Nat.add_assoc. symmetry. apply range_split. lia.
Qed.
Lemma cut_fields fields x y :
  cut (length x) (map length fields) (x ++ concat fields ++ y) = fields.
Proof.
  revert x. induction fields as [|f fields IH]; intros x; cbn [map cut concat]; [done|]. f_equal.
  - rewrite (range_skip x _ (length x)) by lia. replace (length x - length x)%nat with 0%nat by lia.
    replace (length x + length f - length x)%nat with (length f) by lia. rewrite <- app_assoc. by apply range_here.
  - rewrite <- length_app, <- app_assoc, (app_assoc x f). apply IH.
Qed.
Lemma field_at k c fields y sizes :
  c = concat fields ++ y -> map length fields = sizes -> nth k (cut 0 sizes c) [] = nth k fields [].
Proof. intros -> <-. f_equal. apply (cut_fields fields [] y). Qed.
Lemma concat_length {A} (ls : list (list A)) : length (concat ls) = sum_list (map length ls).
Proof. induction ls; cbn; [done|]. rewrite length_app. by f_equal. Qed.

Section facts.
Context `{StoreEnv} `{!StoreEnvLaws H}.

(** The record of a bootstrap as the concatenation of its fields. *)
Definition bootstrap_fields (i : BootstrapIntent) : list (list byte) :=
  [BOOTSTRAP_MAGIC; be_bytes 2 BOOTSTRAP_VERSION; be_bytes 2 HEADER_LENGTH; be_bytes 4 (Z.of_nat BOOTSTRAP_INTENT_LENGTH); be_bytes 8 (bi_root_device i);
   be_bytes 8 (bi_root_inode i); be_bytes 4 (bi_owner_uid i); zeroed 4; bi_library_id i; i64_bytes (bi_created_at i).1;
   be_bytes 4 (bi_created_at i).2; be_bytes 4 MIGRATION_SEQUENCE; be_bytes 1 (blen MIGRATION_NAME); be_bytes 1 (blen CANONICAL_BASENAME); be_bytes 1 (blen STAGING_BASENAME); zeroed 1;
   MIGRATION_NAME; zeroed 12; CANONICAL_BASENAME; zeroed 17; STAGING_BASENAME; zeroed 6; bi_migration_digest i; zeroed 20].
Definition bootstrap_sizes : list nat :=
  [8; 2; 2; 4; 8; 8; 4; 4; 16; 8; 4; 4; 1; 1; 1; 1; 20; 12; 15; 17; 26; 6; 32; 20]%nat.
Definition migration_fields (i : MigrationIntent) : list (list byte) :=
  [MIGRATION_INTENT_MAGIC; be_bytes 2 MIGRATION_INTENT_VERSION; be_bytes 2 (Z.of_nat MIGRATION_INTENT_BYTES); zeroed 4; mi_attempt_id i; mi_library_id i;
   be_bytes 8 (mi_root_device i); be_bytes 8 (mi_root_inode i); be_bytes 8 (mi_source_device i); be_bytes 8 (mi_source_inode i);
   be_bytes 8 (mi_source_length i); mi_source_sha256 i; mi_migration_prefix_sha256 i; CREATIVE_MIGRATION_SHA256;
   i64_bytes (mi_created_at i).1; be_bytes 4 (mi_created_at i).2; be_bytes 2 INTENT_MIGRATION_SEQUENCE; be_bytes 2 (blen INTENT_MIGRATION_NAME);
   INTENT_MIGRATION_NAME; zeroed 254].
Definition migration_sizes : list nat := [16; 2; 2; 4; 16; 16; 8; 8; 8; 8; 8; 32; 32; 32; 8; 4; 2; 2; 18; 254]%nat.
Definition migration_layout (i : MigrationIntent) : list byte := concat (migration_fields i).
Lemma migration_fields_sizes i : migration_good i -> map length (migration_fields i) = migration_sizes.
Proof.
  intros (Ha & _ & Hl & _ & _ & _ & _ & _ & _ & Hs & Hp & _). unfold migration_fields. cbn [map].
  rewrite !be_bytes_length, i64_bytes_length, Ha, Hl, Hs, Hp. done.
Qed.
Lemma migration_layout_length i : migration_good i -> length (migration_layout i) = 480%nat.
Proof. intros Hg. unfold migration_layout. by rewrite concat_length, migration_fields_sizes. Qed.
Definition bootstrap_layout (i : BootstrapIntent) : list byte := concat (bootstrap_fields i).
Lemma bootstrap_fields_sizes i : bootstrap_good i -> map length (bootstrap_fields i) = bootstrap_sizes.
Proof.
  intros (_ & _ & _ & Hl & _ & _ & _ & _ & Hd). unfold bootstrap_fields. cbn [map]. rewrite !be_bytes_length, i64_bytes_length, Hl, Hd. done.
Qed.
Lemma bootstrap_layout_length i : bootstrap_good i -> length (bootstrap_layout i) = 224%nat.
Proof. intros Hg. unfold bootstrap_layout. by rewrite concat_length, bootstrap_fields_sizes. Qed.

Ltac laid :=
  cbn [lay]; rewrite ?be_bytes_length, ?i64_bytes_length; repeat match goal with H : length _ = _ |- _ => rewrite H end;
  repeat match goal with |- context [length ?l] => let n := eval vm_compute in (length l) in progress change (length l) with n end;
  cbn [Nat.add Nat.sub]; change (zeroed 0) with (@nil byte); cbn [app]; rewrite <- !app_assoc.
Lemma bootstrap_encode_layout i : bootstrap_good i -> bootstrap_encode i = bootstrap_layout i ++ sha256 (bootstrap_layout i).
Proof.
  intros Hg. pose proof (bootstrap_layout_length i Hg) as Hlen. destruct Hg as (_ & _ & _ & Hl & _ & _ & _ & _ & Hd).
  set (fields := [(0, BOOTSTRAP_MAGIC); (8, be_bytes 2 BOOTSTRAP_VERSION); (10, be_bytes 2 HEADER_LENGTH); (12, be_bytes 4 (Z.of_nat BOOTSTRAP_INTENT_LENGTH));
    (16, be_bytes 8 (bi_root_device i)); (24, be_bytes 8 (bi_root_inode i)); (32, be_bytes 4 (bi_owner_uid i)); (40, bi_library_id i);
    (56, i64_bytes (bi_created_at i).1); (64, be_bytes 4 (bi_created_at i).2); (68, be_bytes 4 MIGRATION_SEQUENCE); (72, be_bytes 1 (blen MIGRATION_NAME));
    (73, be_bytes 1 (blen CANONICAL_BASENAME)); (74, be_bytes 1 (blen STAGING_BASENAME)); (76, MIGRATION_NAME); (108, CANONICAL_BASENAME); (140, STAGING_BASENAME);
    (172, bi_migration_digest i)]%nat : list (nat * list byte)).
  assert (fill fields (zeroed 256) = bootstrap_layout i ++ zeroed 32) as Hf.
  { pose proof (fill_lay fields [] 256) as Hf. cbn [length app Nat.sub] in Hf. rewrite Hf.
    - unfold fields, bootstrap_layout, bootstrap_fields. cbn [concat]. laid. done.
    - unfold fields. cbn [ascending]. rewrite ?be_bytes_length, ?i64_bytes_length, Hl, Hd. cbn. lia. }
  unfold bootstrap_encode. change (put CHECKSUM_OFFSET (sha256 (range (fill fields (zeroed 256)) 0 224)) (fill fields (zeroed 256)) = bootstrap_layout i ++ sha256 (bootstrap_layout i)).
  rewrite Hf. apply seal; [done|apply sha256_length].
Qed.

Ltac rewrite_field F k :=
  let E := fresh "E" in
  pose proof (F k) as E; cbn [nth cut bootstrap_sizes bootstrap_fields migration_sizes migration_fields Nat.add] in E; rewrite ?E; clear E.
Ltac rewrite_fields F n := lazymatch n with S ?m => rewrite_fields F m; rewrite_field F m | O => idtac end.
Lemma bootstrap_decode_encode i : bootstrap_good i -> bootstrap_decode (bootstrap_encode i) = Ok i.
Proof.
  intros Hg. rewrite bootstrap_encode_layout by done. pose proof (bootstrap_layout_length i Hg) as Hlen. pose proof (bootstrap_fields_sizes i Hg) as Hs.
  destruct Hg as (Hd & Hi & Hu & Hl & Hv & Hsec & Hns & Ht & Hm). set (c := bootstrap_layout i ++ sha256 (bootstrap_layout i)).
  assert (forall k, nth k (cut 0 bootstrap_sizes c) [] = nth k (bootstrap_fields i) []) as F by (intros k; by apply (field_at k c _ (sha256 (bootstrap_layout i)))).
  assert (length c = 256%nat) as Hc by (unfold c; rewrite length_app, sha256_length, Hlen; done).
  assert (range c 0 224 = bootstrap_layout i) as Hp by (by apply range_here).
  assert (drop 224 c = sha256 (bootstrap_layout i)) as Hq by (by apply drop_app_length'). clearbody c.
  unfold bootstrap_decode, slot_is_exact, Cursors.be_at, CHECKSUM_OFFSET. unfold blen at 1. rewrite Hc, Hp.
  change (length MIGRATION_NAME) with 20%nat. change (length CANONICAL_BASENAME) with 15%nat. change (length STAGING_BASENAME) with 26%nat. cbn [Nat.add].
  rewrite_fields F 24%nat.
  rewrite Hq. unfold zeroed. rewrite !zeros_repeat.
  rewrite !bool_decide_eq_true_2 by done. rewrite !be_value_u64, !be_value_u32, i64_value_bytes by done. rewrite Hv, Ht. destruct i as [? ? ? ? [? ?] ?]. reflexivity.
Qed.

(** What is read from a record, field by field. *)
Lemma be_at_u64 c a b : (b - a)%nat = 8%nat -> (a <= b <= length c)%nat -> is_u64 (be_at c a b).
Proof.
  intros Hn Hab. unfold Cursors.be_at, is_u64, U64_MAX. pose proof (be_value_range (range c a b)) as Hr.
  unfold blen in Hr. rewrite range_length, Hn in Hr by lia. change (256 ^ Z.of_nat 8) with 18446744073709551616 in Hr. lia.
Qed.
Lemma be_at_u32 c a b : (b - a)%nat = 4%nat -> (a <= b <= length c)%nat -> is_u32 (be_at c a b).
Proof.
  intros Hn Hab. unfold Cursors.be_at, is_u32, U32_MAX. pose proof (be_value_range (range c a b)) as Hr.
  unfold blen in Hr. rewrite range_length, Hn in Hr by lia. change (256 ^ Z.of_nat 4) with 4294967296 in Hr. lia.
Qed.
Lemma bootstrap_decode_good c i : bootstrap_decode c = Ok i -> length c = 256%nat /\ bootstrap_good i.
Proof.
  unfold bootstrap_decode. intros Hd. inv_result. bool_hyps. assert (length c = 256%nat) as Hc by (unfold blen, BOOTSTRAP_INTENT_LENGTH in *; lia).
  split; [done|]. destruct (i64_bytes_value (range c 56 64)) as [_ Hi]; [apply range_length; lia|].
  split_and!; cbn [bi_root_device bi_root_inode bi_owner_uid bi_library_id bi_created_at bi_migration_digest fst snd]; try done; try (apply be_at_u64; lia); try (apply be_at_u32; lia); apply range_length; lia.
Qed.
Lemma slot_exact c off n m value :
  slot_is_exact c off m value = true -> length value = n -> (n <= m)%nat -> (off + m <= length c)%nat ->
  range c off (off + n) = value /\ range c (off + n) (off + m) = zeroed (m - n).
Proof.
  unfold slot_is_exact. intros Hs <- Hm Hl. bool_hyps. split; [done|]. rewrite range_of_zeroed by (done || lia). f_equal. lia.
Qed.
Lemma be_field c a b n z : n = (b - a)%nat -> (a <= b <= length c)%nat -> be_at c a b = z -> range c a b = be_bytes n z.
Proof. intros Hn Hab <-. symmetry. by apply be_range. Qed.
Ltac fields_equal := repeat (apply (f_equal2 cons); [solve [reflexivity|symmetry; assumption]|]); reflexivity.
Lemma bootstrap_encode_decode c i : bootstrap_decode c = Ok i -> bootstrap_encode i = c.
Proof.
  intros Hd. destruct (bootstrap_decode_good c i Hd) as [Hc Hg]. rewrite bootstrap_encode_layout by done. revert Hd. unfold bootstrap_decode. intros Hd.
  inv_result. bool_hyps. rename select (drop _ _ = _) into Hsum. unfold CHECKSUM_OFFSET in *.
  repeat match goal with E : slot_is_exact _ _ _ _ = true |- _ => eapply slot_exact in E; [|reflexivity|cbn; lia|rewrite Hc; cbn; lia]; destruct E end.
  change (length MIGRATION_NAME) with 20%nat in *. change (length CANONICAL_BASENAME) with 15%nat in *. change (length STAGING_BASENAME) with 26%nat in *.
  match goal with |- bootstrap_layout ?i ++ _ = _ => assert (bootstrap_layout i = range c 0 224) as Hp end.
  { change 224%nat with (0 + sum_list bootstrap_sizes)%nat at 1. rewrite <- cut_concat. unfold bootstrap_layout, bootstrap_fields. f_equal.
    cbn [cut bootstrap_sizes bootstrap_fields Nat.add bi_root_device bi_root_inode bi_owner_uid bi_library_id bi_created_at bi_migration_digest fst snd].
    rewrite !be_range by (done || lia). rewrite (proj1 (i64_bytes_value (range c 56 64) (range_length c 56 64 ltac:(lia)))).
    repeat match goal with E : be_at _ ?a ?b = _ |- _ => eapply (be_field c a b (b - a)) in E; [|done|lia]; cbn [Nat.sub] in E end.
    repeat match goal with E : zeros (range _ ?a ?b) = true |- _ => apply range_of_zeroed in E; [|lia]; cbn [Nat.sub] in E end.
    cbn [Nat.add Nat.sub] in *. fields_equal. }
  rewrite Hp. symmetry. rewrite (range_all c 224) at 1. f_equal. congruence.
Qed.

(** The record of a migration. *)
Lemma migration_encode_layout i : migration_good i -> migration_encode i = migration_layout i ++ sha256 (migration_layout i).
Proof.
  intros Hg. pose proof (migration_layout_length i Hg) as Hlen. destruct Hg as (Ha & _ & Hl & _ & _ & _ & _ & _ & _ & Hs & Hp & _).
  set (fields := [(0, MIGRATION_INTENT_MAGIC); (16, be_bytes 2 MIGRATION_INTENT_VERSION); (18, be_bytes 2 (Z.of_nat MIGRATION_INTENT_BYTES));
    (24, mi_attempt_id i); (40, mi_library_id i); (56, be_bytes 8 (mi_root_device i)); (64, be_bytes 8 (mi_root_inode i));
    (72, be_bytes 8 (mi_source_device i)); (80, be_bytes 8 (mi_source_inode i)); (88, be_bytes 8 (mi_source_length i));
    (96, mi_source_sha256 i); (128, mi_migration_prefix_sha256 i); (160, CREATIVE_MIGRATION_SHA256); (192, i64_bytes (mi_created_at i).1);
    (200, be_bytes 4 (mi_created_at i).2); (204, be_bytes 2 INTENT_MIGRATION_SEQUENCE); (206, be_bytes 2 (blen INTENT_MIGRATION_NAME));
    (208, INTENT_MIGRATION_NAME)]%nat : list (nat * list byte)).
  assert (fill fields (zeroed 512) = migration_layout i ++ zeroed 32) as Hf.
  { pose proof (fill_lay fields [] 512) as Hf. cbn [length app Nat.sub] in Hf. rewrite Hf.
    - unfold fields, migration_layout, migration_fields. cbn [concat]. laid. done.
    - unfold fields. cbn [ascending]. rewrite ?be_bytes_length, ?i64_bytes_length, Ha, Hl, Hs, Hp. cbn. lia. }
  unfold migration_encode. change (put 480 (sha256 (range (fill fields (zeroed 512)) 0 480)) (fill fields (zeroed 512)) = migration_layout i ++ sha256 (migration_layout i)).
  rewrite Hf. apply seal; [done|apply sha256_length].
Qed.
Lemma migration_decode_encode i : migration_good i -> migration_decode (migration_encode i) = Ok i.
Proof.
  intros Hg. rewrite migration_encode_layout by done. pose proof (migration_layout_length i Hg) as Hlen. pose proof (migration_fields_sizes i Hg) as Hs.
  destruct Hg as (Hla & Hva & Hl & Hv & H1 & H2 & H3 & H4 & H5 & Hls & Hlp & Hsec & Hns & Ht). set (c := migration_layout i ++ sha256 (migration_layout i)).
  assert (forall k, nth k (cut 0 migration_sizes c) [] = nth k (migration_fields i) []) as F by (intros k; by apply (field_at k c _ (sha256 (migration_layout i)))).
  assert (range c 0 480 = migration_layout i) as Hp by (by apply range_here).
  assert (range c 480 512 = sha256 (migration_layout i)) as Hq.
  { unfold c. rewrite (range_skip _ _ 480) by (done || lia). apply range_full, sha256_length. } clearbody c.
  unfold migration_decode, Cursors.be_at. rewrite Hp, Hq. rewrite_fields F 20%nat. unfold zeroed. rewrite !zeros_repeat.
  rewrite !bool_decide_eq_true_2 by done. rewrite !be_value_u64, !be_value_u32, i64_value_bytes by done. rewrite Hv, Hva, Ht.
  destruct i as [? ? ? ? ? ? ? ? ? [? ?]]. reflexivity.
Qed.
Lemma migration_decode_good c i : length c = 512%nat -> migration_decode c = Ok i -> migration_good i.
Proof.
  unfold migration_decode. intros Hc Hd. inv_result. bool_hyps.
  destruct (i64_bytes_value (range c 192 200)) as [_ Hi]; [apply range_length; lia|].
  split_and!; cbn [mi_attempt_id mi_library_id mi_root_device mi_root_inode mi_source_device mi_source_inode mi_source_length mi_source_sha256
    mi_migration_prefix_sha256 mi_created_at fst snd]; try done; try (apply be_at_u64; lia); try (apply be_at_u32; lia); apply range_length; lia.
Qed.
Lemma migration_encode_decode c i : length c = 512%nat -> migration_decode c = Ok i -> migration_encode i = c.
Proof.
  intros Hc Hd. pose proof (migration_decode_good c i Hc Hd) as Hg. rewrite migration_encode_layout by done. revert Hd. unfold migration_decode. intros Hd.
  inv_result. bool_hyps. match goal with |- migration_layout ?i ++ _ = _ => assert (migration_layout i = range c 0 480) as Hp end.
  { change 480%nat with (0 + sum_list migration_sizes)%nat at 1. rewrite <- cut_concat. unfold migration_layout, migration_fields. f_equal.
    cbn [cut migration_sizes Nat.add mi_attempt_id mi_library_id mi_root_device mi_root_inode mi_source_device mi_source_inode mi_source_length
      mi_source_sha256 mi_migration_prefix_sha256 mi_created_at fst snd].
    rewrite !be_range by (done || lia). rewrite (proj1 (i64_bytes_value (range c 192 200) (range_length c 192 200 ltac:(lia)))).
    repeat match goal with E : be_at _ ?a ?b = _ |- _ => eapply (be_field c a b (b - a)) in E; [|done|lia]; cbn [Nat.sub] in E end.
    repeat match goal with E : zeros (range _ ?a ?b) = true |- _ => apply range_of_zeroed in E; [|lia]; cbn [Nat.sub] in E end.
    fields_equal. }
  rewrite Hp. symmetry. rewrite (range_all c 480) at 1. f_equal. rewrite <- (take_drop 32 (drop 480 c)), drop_drop.
  rewrite (drop_ge c (480 + 32)) by (rewrite Hc; done). rewrite app_nil_r. unfold Cursors.range in *. cbn [Nat.sub] in *. congruence.
Qed.

Lemma verify_authority_exact root library_id created_at root' :
  verify_authority (for_authority root library_id created_at) root' = Ok tt <-> root' = root.
Proof.
  unfold verify_authority, for_authority. cbn. split.
  - intros Hv. inv_result. bool_hyps. destruct root, root'. cbn in *. by subst.
  - intros ->. by rewrite !Z.eqb_refl, bool_decide_eq_true_2.
Qed.
End facts.

(** The durable intents are canonical.  For the bootstrap and for the migration alike,
    an intent whose fields have the widths of their Rust types is read back from its
    record, and a record of the right length is accepted only if it is, byte for byte, the
    record of the intent that is read from it - its magic, lengths, names, padding and
    checksum included - so two accepted records with the same meaning are the same bytes;
    a bootstrap intent is bound to exactly the root directory it was made for. *)
Theorem durable_intents_are_canonical `{StoreEnv} `{!StoreEnvLaws H} :
  (forall i, bootstrap_good i -> bootstrap_decode (bootstrap_encode i) = Ok i) /\
  (forall c i, bootstrap_decode c = Ok i -> bootstrap_encode i = c /\ length c = BOOTSTRAP_INTENT_LENGTH /\ bootstrap_good i) /\
  (forall i, migration_good i -> migration_decode (migration_encode i) = Ok i) /\
  (forall c i, length c = MIGRATION_INTENT_BYTES -> migration_decode c = Ok i -> migration_encode i = c /\ migration_good i) /\
  (forall root library_id created_at root', verify_authority (for_authority root library_id created_at) root' = Ok tt <-> root' = root).
Proof.
  split_and!.
  - apply bootstrap_decode_encode.
  - intros c i Hd. destruct (bootstrap_decode_good c i Hd). split_and!; [by apply bootstrap_encode_decode|done..].
  - apply migration_decode_encode.
  - intros c i Hc Hd. split; [by apply migration_encode_decode|by eapply migration_decode_good].
  - apply verify_authority_exact.
Qed.
Lemma durable_intents_are_canonical_witness :
  (forall i, @bootstrap_good Scenario.env i -> @bootstrap_decode Scenario.env (@bootstrap_encode Scenario.env i) = Ok i) /\
  (forall c i, @bootstrap_decode Scenario.env c = Ok i -> @bootstrap_encode Scenario.env i = c /\ length c = BOOTSTRAP_INTENT_LENGTH /\ @bootstrap_good Scenario.env i) /\
  (forall i, @migration_good Scenario.env i -> @migration_decode Scenario.env (@migration_encode Scenario.env i) = Ok i) /\
  (forall c i, length c = MIGRATION_INTENT_BYTES -> @migration_decode Scenario.env c = Ok i ->
     @migration_encode Scenario.env i = c /\ @migration_good Scenario.env i) /\
  (forall root library_id created_at root', verify_authority (for_authority root library_id created_at) root' = Ok tt <-> root' = root).
Proof. pose proof (@durable_intents_are_canonical Scenario.env Scenario.env_laws) as Ht. exact Ht. Defined.
End IntentFacts.
