(* ===== verification/RootFs.v ===== *)
(** The root directory of a library, as the platform authority sees it: the checks of
    mengxia-platform-fs/src/lib.rs on names, files and security metadata, and the system
    calls they are made of.

    A root is a directory of names for inodes together with the directory that is durable:
    a crash keeps, for each name, the entry of one of the two, and leaves in a file that
    was not synchronized any content at all.  Checks that only look are functions of the
    root; a sequence of such calls may fail at any moment, which costs one [tick].  A call
    that changes the root is one step of its own.  The library lock excludes other
    processes; the ancestors of the root, which [revalidate_chain] walks again, are outside
    of the model and only their refusal is kept, as a failure of the step. *)
From Stdlib Require Import ZArith Lia String.
From Stdlib Require Import Strings.Byte Init.Byte.
From stdpp Require Import prelude list gmap.
From S2P Require Import Prelude RustText Ord.

Set Warnings "-clear-no-such-hyp".

Module RootFs.

Inductive AuthorityError := UnsafeConfiguration | Io | Contended | ConflictingData.
#[global] Instance AuthorityError_eq_dec : EqDecision AuthorityError.
Proof. solve_decision. Defined.
Abbreviation ares := (result AuthorityError).

(** ** Security metadata *)

(** The modes are written in hexadecimal: 0x12 is octal 022, 0x1c0 is 700, 0x180 is 600. *)

Record AclSummary := {
  entry_count : Z; allow_count : Z; deny_count : Z; acl_flags : Z; entry_flags_or : Z; inheritable_count : Z; external_size : Z }.
Definition ACL_DEFER_INHERIT : Z := 1.
Definition ACL_NO_INHERIT : Z := 2.
Definition acl_is_empty (a : AclSummary) : bool := (entry_count a =? 0) && (acl_flags a =? 0) && (entry_flags_or a =? 0).
Definition acl_permits_prefix (a : AclSummary) : bool :=
  (allow_count a =? 0) && (deny_count a =? entry_count a) && (Z.land (acl_flags a) ACL_DEFER_INHERIT =? 0)
  && (Z.ldiff (acl_flags a) ACL_NO_INHERIT =? 0).
Definition no_acl : AclSummary := {|
  entry_count := 0; allow_count := 0; deny_count := 0; acl_flags := 0; entry_flags_or := 0; inheritable_count := 0; external_size := 0 |}.

Record MacOsObjectSecurity := { s_device : Z; s_inode : nat; s_owner_uid : Z; s_mode : Z; s_acl : AclSummary }.
Definition same_object (a b : MacOsObjectSecurity) : bool := (s_device a =? s_device b) && bool_decide (s_inode a = s_inode b).

Inductive ComponentRole := Ancestor | FinalParent | LibraryRoot.
Definition validate_component_policy (security : MacOsObjectSecurity) (role : ComponentRole) (effective_uid : Z) : ares () :=
  let refused :=
    match role with
    | Ancestor =>
        (negb (s_owner_uid security =? 0) && negb (s_owner_uid security =? effective_uid))
        || negb (Z.land (s_mode security) 0x12 =? 0) || negb (acl_permits_prefix (s_acl security))
    | FinalParent =>
        negb (s_owner_uid security =? effective_uid) || negb (Z.land (s_mode security) 0x1c0 =? 0x1c0)
        || negb (Z.land (s_mode security) 0x12 =? 0) || negb (acl_permits_prefix (s_acl security))
        || negb (inheritable_count (s_acl security) =? 0)
    | LibraryRoot =>
        negb (s_owner_uid security =? effective_uid) || negb (s_mode security =? 0x1c0) || negb (acl_is_empty (s_acl security))
    end in
  if refused then Err UnsafeConfiguration else Ok tt.

Definition MNT_LOCAL : Z := 0x00001000.
Definition MNT_IGNORE_OWNERSHIP : Z := 0x00200000.
Definition validate_filesystem_evidence (filesystem_flags : Z) (is_apfs : bool) : ares () :=
  if (Z.land filesystem_flags MNT_LOCAL =? 0) || negb (Z.land filesystem_flags MNT_IGNORE_OWNERSHIP =? 0) || negb is_apfs
  then Err UnsafeConfiguration else Ok tt.

(** ** The root directory *)

Inductive FileType := RegularFile | Directory | Symlink | OtherType.
#[global] Instance FileType_eq_dec : EqDecision FileType.
Proof. solve_decision. Defined.
(** The stamps are seconds and nanoseconds; [f_synced]: the content is durable. *)
Record File := {
  f_type : FileType; f_uid : Z; f_mode : Z; f_acl : AclSummary; f_content : list byte; f_mtime : Z * Z; f_ctime : Z * Z;
  f_links_elsewhere : nat; f_synced : bool }.
Abbreviation Name := (list byte).
Record Root := {
  dir : gmap Name nat; durable : gmap Name nat; inodes : gmap nat File;
  root_device : Z; root_inode : Z; owner_uid : Z; mount_flags : Z; mount_is_apfs : bool }.
Definition with_dir (r : Root) d := {|
  dir := d; durable := durable r; inodes := inodes r; root_device := root_device r; root_inode := root_inode r;
  owner_uid := owner_uid r; mount_flags := mount_flags r; mount_is_apfs := mount_is_apfs r |}.
Definition with_durable (r : Root) d := {|
  dir := dir r; durable := d; inodes := inodes r; root_device := root_device r; root_inode := root_inode r;
  owner_uid := owner_uid r; mount_flags := mount_flags r; mount_is_apfs := mount_is_apfs r |}.
Definition with_inodes (r : Root) i := {|
  dir := dir r; durable := durable r; inodes := i; root_device := root_device r; root_inode := root_inode r;
  owner_uid := owner_uid r; mount_flags := mount_flags r; mount_is_apfs := mount_is_apfs r |}.
Definition with_content (f : File) content synced := {|
  f_type := f_type f; f_uid := f_uid f; f_mode := f_mode f; f_acl := f_acl f; f_content := content; f_mtime := f_mtime f;
  f_ctime := f_ctime f; f_links_elsewhere := f_links_elsewhere f; f_synced := synced |}.

Definition LOCK : Name := bs ".mengxia.lock".
Definition CANONICAL : Name := bs "library.sqlite3".
Definition CANONICAL_WAL : Name := bs "library.sqlite3-wal".
Definition CANONICAL_SHM : Name := bs "library.sqlite3-shm".
Definition STORAGE : Name := bs "storage".

(** [st_nlink]. *)
Definition nlink (r : Root) (i : nat) : nat :=
  match inodes r !! i with
  | Some f => size (filter (fun e => e.2 = i) (dir r)) + f_links_elsewhere f
  | None => 0
  end.

(** [openat] of an existing name without following a link, the file it opens. *)
Definition open_existing (r : Root) (name : Name) : ares (nat * File) :=
  match dir r !! name with
  | Some i =>
      match inodes r !! i with
      | Some f => if bool_decide (f_type f = Symlink) then Err UnsafeConfiguration else Ok (i, f)
      | None => Err UnsafeConfiguration
      end
  | None => Err UnsafeConfiguration
  end.

Definition enumerate_root (r : Root) : ares (list Name) :=
  let names := map fst (map_to_list (dir r)) in
  if (9 <? blen names) then Err UnsafeConfiguration else Ok (btree_collect names).

Definition inspect_security (r : Root) (i : nat) (f : File) : ares MacOsObjectSecurity :=
  let? _ := validate_filesystem_evidence (mount_flags r) (mount_is_apfs r) in
  Ok {| s_device := root_device r; s_inode := i; s_owner_uid := f_uid f; s_mode := f_mode f; s_acl := f_acl f |}.
Definition validate_internal_file_security (security : MacOsObjectSecurity) (uid : Z) : ares () :=
  if negb (s_owner_uid security =? uid) || negb (s_mode security =? 0x180) || negb (acl_is_empty (s_acl security))
  then Err UnsafeConfiguration else Ok tt.
Definition inspect_internal_file_with_size (r : Root) (i : nat) (f : File) (expected_size : option Z) : ares MacOsObjectSecurity :=
  if negb (bool_decide (f_type f = RegularFile)) then Err UnsafeConfiguration
  else if match expected_size with Some expected => negb (blen (f_content f) =? expected) | None => false end then Err UnsafeConfiguration
  else
    let? security := inspect_security r i f in
    let? _ := validate_internal_file_security security (owner_uid r) in
    Ok security.
Definition inspect_internal_file (r : Root) (i : nat) (f : File) : ares MacOsObjectSecurity := inspect_internal_file_with_size r i f None.

Inductive SqliteChild := Canonical | BootstrapStaging.
Definition sqlite_child_name (child : SqliteChild) : Name :=
  match child with Canonical => CANONICAL | BootstrapStaging => bs ".library.sqlite3.bootstrap" end.
Definition validate_sqlite_child (r : Root) (child : SqliteChild) : ares MacOsObjectSecurity :=
  let? (i, f) := open_existing r (sqlite_child_name child) in
  if negb (bool_decide (f_type f = RegularFile)) then Err UnsafeConfiguration
  else
    let? security := inspect_security r i f in
    if negb (s_owner_uid security =? owner_uid r) || negb (s_mode security =? 0x180) || negb (acl_is_empty (s_acl security))
    then Err UnsafeConfiguration else Ok security.
Definition sidecar_names (child : SqliteChild) : list Name :=
  match child with
  | Canonical => [CANONICAL_WAL; CANONICAL_SHM]
  | BootstrapStaging => [bs ".library.sqlite3.bootstrap-wal"; bs ".library.sqlite3.bootstrap-shm"]
  end.
Definition has (entries : list Name) (name : Name) : bool := existsb (fun e => bool_decide (e = name)) entries.
Fixpoint validate_sidecar_list (r : Root) (entries names : list Name) : ares () :=
  match names with
  | [] => Ok tt
  | name :: rest =>
      if has entries name
      then let? (i, f) := open_existing r name in let? _ := inspect_internal_file r i f in validate_sidecar_list r entries rest
      else validate_sidecar_list r entries rest
  end.
Definition validate_sqlite_sidecars (r : Root) (child : SqliteChild) : ares () :=
  let? entries := enumerate_root r in validate_sidecar_list r entries (sidecar_names child).

(** The name of the directory is compared byte for byte by [exact_final_component], which
    the names of the model are already. *)
Definition validate_storage_directory (r : Root) : ares MacOsObjectSecurity :=
  let? (i, f) := open_existing r STORAGE in
  if negb (bool_decide (f_type f = Directory)) then Err UnsafeConfiguration
  else
    let? security := inspect_security r i f in
    let? _ := validate_component_policy security LibraryRoot (owner_uid r) in
    if negb (s_device security =? root_device r) then Err UnsafeConfiguration else Ok security.

Definition is_canonical_runtime_entries (entries : list Name) (with_storage : bool) : bool :=
  let required := if with_storage then 3 else 2 in
  if (blen entries <? required) || (required + 2 <? blen entries) then false
  else
    forallb (fun e => bool_decide (e = LOCK) || bool_decide (e = CANONICAL) || bool_decide (e = CANONICAL_WAL)
                      || bool_decide (e = CANONICAL_SHM) || (with_storage && bool_decide (e = STORAGE))) entries
    && has entries LOCK && has entries CANONICAL && eqb (has entries STORAGE) with_storage.

(** ** Programs over a root *)

(** A program sees the faults of the system by the number of its step: [Some e] makes the
    step fail with that error.  A write that fails may have written part of its bytes. *)
Record Faults := { fault : nat -> option AuthorityError; torn : nat -> nat; chunk : nat -> nat }.
Record World := { root : Root; tick : nat }.
Definition M (A : Type) : Type := World -> ares A * World.
#[global] Instance M_ret : MRet M := fun A a w => (Ok a, w).
#[global] Instance M_bind : MBind M := fun A B k m w => match m w with (Ok a, w') => k a w' | (Err e, w') => (Err e, w') end.

Section programs.
Context (faults : Faults).

(** A sequence of calls that only look at the root. *)
Definition observe {A} (f : Root -> ares A) : M A := fun w =>
  let w' := {| root := root w; tick := S (tick w) |} in
  match fault faults (tick w) with Some e => (Err e, w') | None => (f (root w), w') end.
(** A call that changes the root when it succeeds. *)
Definition change {A} (f : Root -> ares (A * Root)) : M A := fun w =>
  match fault faults (tick w) with
  | Some e => (Err e, {| root := root w; tick := S (tick w) |})
  | None =>
      match f (root w) with
      | Ok (a, r') => (Ok a, {| root := r'; tick := S (tick w) |})
      | Err e => (Err e, {| root := root w; tick := S (tick w) |})
      end
  end.
Definition require (b : bool) (e : AuthorityError) : M () := fun w => (if b then Ok tt else Err e, w).

(** [openat] with [CREATE | EXCL] and mode 0600: a new empty file of the caller. *)
Definition new_file (uid : Z) (stamp : Z * Z) : File := {|
  f_type := RegularFile; f_uid := uid; f_mode := 0x180; f_acl := no_acl; f_content := []; f_mtime := stamp; f_ctime := stamp;
  f_links_elsewhere := 0; f_synced := false |}.
Definition create_exclusive (name : Name) (stamp : Z * Z) : M nat :=
  change (fun r =>
    match dir r !! name with
    | Some _ => Err UnsafeConfiguration
    | None =>
        let i := fresh (dom (inodes r)) in
        Ok (i, with_inodes (with_dir r (<[name := i]> (dir r))) (<[i := new_file (owner_uid r) stamp]> (inodes r)))
    end).
Definition append (i : nat) (bytes : list byte) (r : Root) : Root :=
  match inodes r !! i with
  | Some f => with_inodes r (<[i := with_content f (f_content f ++ bytes) false]> (inodes r))
  | None => r
  end.
(** [write_all]. *)
Definition write_all (i : nat) (bytes : list byte) : M () := fun w =>
  match fault faults (tick w) with
  | Some _ => (Err Io, {| root := append i (take (torn faults (tick w)) bytes) (root w); tick := S (tick w) |})
  | None => (Ok tt, {| root := append i bytes (root w); tick := S (tick w) |})
  end.
Definition sync_file (i : nat) : M () :=
  change (fun r => Ok (tt, match inodes r !! i with
                           | Some f => with_inodes r (<[i := with_content f (f_content f) true]> (inodes r))
                           | None => r
                           end)).
Definition sync_root : M () := change (fun r => Ok (tt, with_durable r (dir r))).
Definition link (from to : Name) : M () :=
  change (fun r =>
    match dir r !! from, dir r !! to with
    | Some i, None => Ok (tt, with_dir r (<[to := i]> (dir r)))
    | _, _ => Err UnsafeConfiguration
    end).
Definition unlink (name : Name) (missing : AuthorityError) : M () :=
  change (fun r => match dir r !! name with Some _ => Ok (tt, with_dir r (delete name (dir r))) | None => Err missing end).
End programs.

(** ** Crashes *)

(** What a restart may find: of each name the entry that was current or the one that was
    durable, in files that were not synchronized anything, and nothing else changed; all
    that is found is then durable. *)
Record crashed (r r' : Root) : Prop := {
  crashed_dir : forall n, dir r' !! n = dir r !! n \/ dir r' !! n = durable r !! n;
  crashed_durable : durable r' = dir r';
  crashed_inodes : forall i,
    match inodes r !! i, inodes r' !! i with
    | Some f, Some f' => f' = with_content f (f_content f') true /\ (f_synced f = true -> f_content f' = f_content f)
    | None, None => True
    | _, _ => False
    end;
  crashed_rest : root_device r' = root_device r /\ root_inode r' = root_inode r /\ owner_uid r' = owner_uid r /\
    mount_flags r' = mount_flags r /\ mount_is_apfs r' = mount_is_apfs r }.
End RootFs.
