(* ===== verification/MigrationSnapshot.v ===== *)
(** The snapshot that precedes the destructive migration: the namespace workflow of
    mengxia-platform-fs/src/migration_snapshot.rs, and the part of
    mengxia-store-sqlite/src/lifecycle.rs and migration.rs that drives it.

    What a run takes from outside - the faults of the system, the sizes of its reads, the
    stamps of the files it creates, the identity and the instant of a new intent, the
    capacity of the volume - are arguments. *)
From Stdlib Require Import ZArith Lia String.
From Stdlib Require Import Strings.Byte Init.Byte.
From stdpp Require Import prelude list gmap.
From S2P Require Import Prelude RustText Ord Types AssetDomain CreativeDomain Ports CommandLedger CreativeStore StoreScenario AssetStore AssetScenario StartupRecovery AppRuntime AssetQuery AssetListing AssetInspect AssetCursors CursorFacts Intents RootFs.

Set Warnings "-clear-no-such-hyp".

Module MigrationSnapshot.
Import Ports Runtime Intents RootFs.

Definition INTENT_NAME : Name := bs ".mengxia-migration-0002.intent".
Definition STAGING_NAME : Name := bs ".library.sqlite3.pre-0002.snapshot.staging".
Definition SNAPSHOT_NAME : Name := bs ".library.sqlite3.pre-0002.snapshot".
Definition JOURNAL_NAME : Name := bs "library.sqlite3-journal".
Definition COPY_BUFFER_BYTES : nat := Z.to_nat (1024 * 1024).
Definition RECORD_LENGTH : Z := 512.

Record MigrationSourceEvidence := {
  e_device : Z; e_inode : nat; e_length : Z; e_mtime : Z * Z; e_ctime : Z * Z; e_sha256 : list byte }.
#[global] Instance MigrationSourceEvidence_eq_dec : EqDecision MigrationSourceEvidence.
Proof. solve_decision. Defined.

Inductive MigrationFilesystemState :=
| IntentOnly (record : list byte)
| IntentOnlyAndRuntimeSidecars (record : list byte)
| IntentWithStaging (record : list byte)
| IntentWithStagingAndRuntimeSidecars (record : list byte)
| IntentWithPublishedSnapshot (record : list byte)
| IntentWithPublishedSnapshotAndRuntimeSidecars (record : list byte)
| IntentWithSnapshot (record : list byte)
| IntentWithSnapshotAndJournal (record : list byte)
| IntentWithSnapshotAndRuntimeSidecars (record : list byte).
#[global] Instance MigrationFilesystemState_eq_dec : EqDecision MigrationFilesystemState.
Proof. solve_decision. Defined.
Definition intent_record (s : MigrationFilesystemState) : list byte :=
  match s with
  | IntentOnly record | IntentOnlyAndRuntimeSidecars record | IntentWithStaging record | IntentWithStagingAndRuntimeSidecars record
  | IntentWithPublishedSnapshot record | IntentWithPublishedSnapshotAndRuntimeSidecars record | IntentWithSnapshot record
  | IntentWithSnapshotAndJournal record | IntentWithSnapshotAndRuntimeSidecars record => record
  end.
Definition has_runtime_sidecars (s : MigrationFilesystemState) : bool :=
  match s with
  | IntentOnlyAndRuntimeSidecars _ | IntentWithStagingAndRuntimeSidecars _ | IntentWithPublishedSnapshotAndRuntimeSidecars _
  | IntentWithSnapshotAndRuntimeSidecars _ => true
  | _ => false
  end.

(** ** Looking at the root *)

Definition validate_source_file (r : Root) (i : nat) (f : File) : ares () :=
  let? _ := inspect_internal_file r i f in
  if bool_decide (nlink r i = 1%nat) then Ok tt else Err UnsafeConfiguration.
Definition validate_snapshot_file (r : Root) (i : nat) (f : File) (expected_length : option Z) (expected_links : nat) : ares () :=
  let? _ := inspect_internal_file r i f in
  if match expected_length with Some expected => expected =? blen (f_content f) | None => true end && bool_decide (nlink r i = expected_links)
  then Ok tt else Err UnsafeConfiguration.

Definition read_intent (r : Root) (expected_entries : list Name) : ares (list byte) :=
  let? (i, f) := open_existing r INTENT_NAME in
  let? _ := inspect_internal_file_with_size r i f (Some RECORD_LENGTH) in
  let? entries := enumerate_root r in
  if bool_decide (entries = expected_entries) then Ok (f_content f) else Err UnsafeConfiguration.

Definition snapshot_names : list Name :=
  [LOCK; CANONICAL; STORAGE; INTENT_NAME; STAGING_NAME; SNAPSHOT_NAME; JOURNAL_NAME; CANONICAL_WAL; CANONICAL_SHM].
Definition one_snapshot_file (r : Root) (name : Name) (state : MigrationFilesystemState) : ares MigrationFilesystemState :=
  let? (i, f) := open_existing r name in let? _ := validate_snapshot_file r i f None 1 in Ok state.

Definition classify_state (r : Root) (entries : list Name) : ares (option MigrationFilesystemState) :=
  if negb (forallb (fun e => has snapshot_names e) entries) || negb (has entries LOCK) || negb (has entries CANONICAL)
     || negb (has entries INTENT_NAME)
  then Ok None
  else
    let? _ := validate_sqlite_child r Canonical in
    let? _ := if has entries STORAGE then let? _ := validate_storage_directory r in Ok tt else Ok tt in
    let? intent := read_intent r entries in
    let staging := has entries STAGING_NAME in
    let snapshot := has entries SNAPSHOT_NAME in
    let journal := has entries JOURNAL_NAME in
    let runtime_sidecars := has entries CANONICAL_WAL || has entries CANONICAL_SHM in
    if journal && (staging || negb snapshot || runtime_sidecars) then Err UnsafeConfiguration
    else
      let? _ := if journal then let? (i, f) := open_existing r JOURNAL_NAME in validate_snapshot_file r i f None 1 else Ok tt in
      let? _ := if runtime_sidecars then validate_sqlite_sidecars r Canonical else Ok tt in
      let? state :=
        match staging, snapshot, runtime_sidecars with
        | false, false, true => Ok (IntentOnlyAndRuntimeSidecars intent)
        | false, false, false => Ok (IntentOnly intent)
        | true, false, runtime_sidecars =>
            one_snapshot_file r STAGING_NAME
              (if runtime_sidecars then IntentWithStagingAndRuntimeSidecars intent else IntentWithStaging intent)
        | true, true, runtime_sidecars =>
            let? (i, f) := open_existing r STAGING_NAME in
            let? (j, g) := open_existing r SNAPSHOT_NAME in
            let? staging_security := inspect_internal_file r i f in
            let? snapshot_security := inspect_internal_file r j g in
            let? _ := validate_snapshot_file r i f None 2 in
            let? _ := validate_snapshot_file r j g None 2 in
            if negb (same_object staging_security snapshot_security) then Err ConflictingData
            else Ok (if runtime_sidecars then IntentWithPublishedSnapshotAndRuntimeSidecars intent
                     else IntentWithPublishedSnapshot intent)
        | false, true, runtime_sidecars =>
            one_snapshot_file r SNAPSHOT_NAME
              (if journal then IntentWithSnapshotAndJournal intent
               else if runtime_sidecars then IntentWithSnapshotAndRuntimeSidecars intent else IntentWithSnapshot intent)
        end in
      Ok (Some state).

Definition migration_filesystem_state (r : Root) : ares (option MigrationFilesystemState) :=
  let? entries := enumerate_root r in classify_state r entries.

Definition require_closed_runtime_namespace (r : Root) : ares () :=
  let? entries := enumerate_root r in
  let with_storage := has entries STORAGE in
  if is_canonical_runtime_entries entries with_storage && negb (has entries CANONICAL_WAL || has entries CANONICAL_SHM)
  then
    let? _ := if with_storage then let? _ := validate_storage_directory r in Ok tt else Ok tt in
    let? _ := validate_sqlite_child r Canonical in Ok tt
  else
    let? state := classify_state r entries in
    match state with
    | Some s =>
        if negb (has_runtime_sidecars s) && negb match s with IntentWithSnapshotAndJournal _ => true | _ => false end
        then Ok tt else Err UnsafeConfiguration
    | None => Err UnsafeConfiguration
    end.

Section snapshot.
Context `{StoreEnv}.

Definition evidence_for_open_file (r : Root) (i : nat) (f : File) : MigrationSourceEvidence := {|
  e_device := root_device r; e_inode := i; e_length := blen (f_content f); e_mtime := f_mtime f; e_ctime := f_ctime f;
  e_sha256 := sha256 (f_content f) |}.
(** The second look of [inspect_source_file], by its name, finds the same file again. *)
Definition inspect_source_file (r : Root) : ares MigrationSourceEvidence :=
  let? (i, f) := open_existing r CANONICAL in
  let? _ := validate_source_file r i f in
  Ok (evidence_for_open_file r i f).
Definition inspect_source (r : Root) : ares MigrationSourceEvidence :=
  let? _ := require_closed_runtime_namespace r in inspect_source_file r.
(** The condition most steps repeat: the root is in this state and the source is this one;
    the source is only looked at in that state. *)
Definition state_and_source (r : Root) (state : MigrationFilesystemState) (source : MigrationSourceEvidence) : ares bool :=
  let? observed := migration_filesystem_state r in
  if bool_decide (observed = Some state)
  then let? found := inspect_source_file r in Ok (bool_decide (found = source))
  else Ok false.
Definition stat_matches_evidence (r : Root) (i : nat) (f : File) (e : MigrationSourceEvidence) : bool :=
  (root_device r =? e_device e) && bool_decide (i = e_inode e) && (blen (f_content f) =? e_length e)
  && bool_decide (f_mtime f = e_mtime e) && bool_decide (f_ctime f = e_ctime e).

(** ** Changing it *)

Section programs.
Context (faults : Faults).
Abbreviation observe := (observe faults).

Definition file_of (r : Root) (i : nat) : ares File := match inodes r !! i with Some f => Ok f | None => Err UnsafeConfiguration end.

Definition create_durable_migration_intent (stamp : Z * Z) (expected_source : MigrationSourceEvidence) (record : list byte) : M () :=
  observe (fun r =>
    let? _ := require_closed_runtime_namespace r in
    let? source := inspect_source r in
    if bool_decide (source = expected_source) then Ok tt else Err ConflictingData) ≫= fun _ =>
  create_exclusive faults INTENT_NAME stamp ≫= fun intent =>
  observe (fun r => let? f := file_of r intent in let? _ := inspect_internal_file_with_size r intent f (Some 0) in Ok tt) ≫= fun _ =>
  write_all faults intent record ≫= fun _ =>
  sync_file faults intent ≫= fun _ =>
  observe (fun r => let? f := file_of r intent in let? _ := inspect_internal_file_with_size r intent f (Some RECORD_LENGTH) in Ok tt) ≫= fun _ =>
  sync_root faults ≫= fun _ =>
  observe (fun r =>
    let? state := migration_filesystem_state r in
    let? _ := ok_or UnsafeConfiguration state in
    let? same := state_and_source r (IntentOnly record) expected_source in
    if same then Ok tt else Err ConflictingData).

(** The copying loop: what was read so far is what was written. *)
Fixpoint copy_loop (fuel : nat) (source staging : nat) (length_ : Z) (copied : list byte) : M (list byte) :=
  match fuel with
  | O => fun w => (Err Io, w)
  | S fuel => fun w =>
      match observe (fun r => let? f := file_of r source in
                              Ok (take (Nat.min COPY_BUFFER_BYTES (S (chunk faults (tick w)))) (drop (length copied) (f_content f)))) w with
      | (Err e, w) => (Err e, w)
      | (Ok [], w) => (Ok copied, w)
      | (Ok buffer, w) =>
          let copied := copied ++ buffer in
          if length_ <? blen copied then (Err ConflictingData, w)
          else (write_all faults staging buffer ≫= fun _ => copy_loop fuel source staging length_ copied) w
      end
  end.

Definition validate_migration_snapshot (expected_source : MigrationSourceEvidence) (expected_record : list byte) : M () :=
  observe (fun r =>
    let? same := state_and_source r (IntentWithSnapshot expected_record) expected_source in
    if negb same then Err ConflictingData
    else
      let? (i, f) := open_existing r SNAPSHOT_NAME in
      let? _ := validate_snapshot_file r i f (Some (e_length expected_source)) 1 in
      let evidence := evidence_for_open_file r i f in
      if (e_length evidence =? e_length expected_source) && bool_decide (e_sha256 evidence = e_sha256 expected_source)
      then Ok tt else Err ConflictingData).

Definition publish_staging (staging : nat) (expected_source : MigrationSourceEvidence) (expected_record : list byte) : M () :=
  link faults STAGING_NAME SNAPSHOT_NAME ≫= fun _ =>
  sync_root faults ≫= fun _ =>
  observe (fun r =>
    let? state := migration_filesystem_state r in
    if bool_decide (state = Some (IntentWithPublishedSnapshot expected_record)) then Ok tt else Err ConflictingData) ≫= fun _ =>
  unlink faults STAGING_NAME Io ≫= fun _ =>
  sync_root faults ≫= fun _ =>
  validate_migration_snapshot expected_source expected_record.

Definition fill_staging (source staging : nat) (fuel : nat) (expected_source : MigrationSourceEvidence) : M () :=
  copy_loop fuel source staging (e_length expected_source) [] ≫= fun copied =>
  require ((blen copied =? e_length expected_source) && bool_decide (sha256 copied = e_sha256 expected_source)) ConflictingData ≫= fun _ =>
  sync_file faults staging ≫= fun _ =>
  observe (fun r =>
    let? f := file_of r staging in
    let? _ := validate_snapshot_file r staging f (Some (e_length expected_source)) 1 in
    let? source := inspect_source_file r in
    if bool_decide (source = expected_source) then Ok tt else Err ConflictingData).

Definition create_and_publish_migration_snapshot (stamp : Z * Z) (expected_source : MigrationSourceEvidence) (expected_record : list byte) : M () :=
  observe (fun r =>
    let? same := state_and_source r (IntentOnly expected_record) expected_source in
    if negb same then Err ConflictingData
    else
      let? (i, f) := open_existing r CANONICAL in
      let? _ := validate_source_file r i f in
      if stat_matches_evidence r i f expected_source then Ok i else Err ConflictingData) ≫= fun source =>
  create_exclusive faults STAGING_NAME stamp ≫= fun staging =>
  observe (fun r => let? f := file_of r staging in let? _ := inspect_internal_file_with_size r staging f (Some 0) in Ok tt) ≫= fun _ =>
  sync_root faults ≫= fun _ =>
  fill_staging source staging (S (S (Z.to_nat (e_length expected_source)))) expected_source ≫= fun _ =>
  publish_staging staging expected_source expected_record.

(** [discard_owned_migration_snapshot_staging] and [finish_published_migration_snapshot]
    remove the staging name in one state and expect another. *)
Definition unlink_staging_between (before after : MigrationFilesystemState) : M () :=
  observe (fun r =>
    let? state := migration_filesystem_state r in
    if bool_decide (state = Some before) then Ok tt else Err ConflictingData) ≫= fun _ =>
  unlink faults STAGING_NAME Io ≫= fun _ =>
  sync_root faults ≫= fun _ =>
  observe (fun r =>
    let? state := migration_filesystem_state r in
    if bool_decide (state = Some after) then Ok tt else Err ConflictingData).
Definition discard_owned_migration_snapshot_staging (expected_record : list byte) : M () :=
  unlink_staging_between (IntentWithStaging expected_record) (IntentOnly expected_record).
Definition finish_published_migration_snapshot (expected_record : list byte) : M () :=
  unlink_staging_between (IntentWithPublishedSnapshot expected_record) (IntentWithSnapshot expected_record).

Definition validate_migration_snapshot_manifest (expected_length : Z) (expected_sha256 expected_record : list byte) : M () :=
  observe (fun r =>
    let? state := migration_filesystem_state r in
    if negb match state with
            | Some (IntentWithSnapshot record) | Some (IntentWithSnapshotAndRuntimeSidecars record) => bool_decide (record = expected_record)
            | _ => false
            end
    then Err ConflictingData
    else
      let? (i, f) := open_existing r SNAPSHOT_NAME in
      let? _ := validate_snapshot_file r i f (Some expected_length) 1 in
      let observed := evidence_for_open_file r i f in
      if (e_length observed =? expected_length) && bool_decide (e_sha256 observed = expected_sha256) then Ok tt else Err ConflictingData).
End programs.

(** ** lifecycle.rs: preparing the snapshot *)

Definition map_authority_error (e : AuthorityError) : StoreError :=
  match e with UnsafeConfiguration => StConfiguration | Io => StIo | Contended => StConflict | ConflictingData => StCorruption end.

(** Programs that fail with an error of the store. *)
Definition S' (A : Type) : Type := World -> result StoreError A * World.
#[global] Instance S_ret : MRet S' := fun A a w => (Ok a, w).
#[global] Instance S_bind : MBind S' := fun A B k m w => match m w with (Ok a, w') => k a w' | (Err e, w') => (Err e, w') end.
Definition authority {A} (m : M A) : S' A := fun w => match m w with (Ok a, w') => (Ok a, w') | (Err e, w') => (Err (map_authority_error e), w') end.
Definition store {A} (r : result StoreError A) : S' A := fun w => (r, w).

Record CreativeMigrationCapacity := { source_length : Z; page_size : Z; commands : Z; events : Z }.
Definition U128_MAX : Z := 2 ^ 128 - 1.
Definition checked (v : Z) : result StoreError Z := if v <=? U128_MAX then Ok v else Err StConfiguration.
Definition verify_creative_migration_capacity (capacity : CreativeMigrationCapacity) (min_free_percent min_free_bytes available_bytes volume_bytes : Z)
    : result StoreError () :=
  let? scaled := checked (volume_bytes * min_free_percent) in
  let? rounded := checked (scaled + 99) in
  let percent := rounded / 100 in
  let reserve := Z.max percent min_free_bytes in
  let source := source_length capacity in
  let? command_entries := checked (commands capacity * 8) in
  let? some := checked (128 + command_entries) in
  let? event_entries := checked (events capacity * 10) in
  let? growth_entries := checked (some + event_entries) in
  let? growth := checked (page_size capacity * growth_entries) in
  let? twice := checked (source * 2) in
  let? journal := checked (twice + 67108864) in
  let? r1 := checked (reserve + source) in
  let? r2 := checked (r1 + growth) in
  let? required := checked (r2 + journal) in
  if required <=? available_bytes then Ok tt else Err StIo.

Record OpenedLibraryMetadata := { om_library_id : Id; om_owner_uid : Z; om_created_at : Timestamp }.
Definition root_identity (r : Root) : Z * Z := (root_device r, root_inode r).

Definition validate_migration_intent (record : list byte) (root_id : Z * Z) (metadata : OpenedLibraryMetadata) (prefix_digest : list byte)
    (source : option MigrationSourceEvidence) : result StoreError MigrationIntent :=
  let? intent := migration_decode record in
  if negb (bool_decide (mi_library_id intent = om_library_id metadata)) || negb (bool_decide ((mi_root_device intent, mi_root_inode intent) = root_id))
     || negb (bool_decide (mi_migration_prefix_sha256 intent = prefix_digest))
     || match source with
        | Some source =>
            negb (bool_decide ((mi_source_device intent, mi_source_inode intent, mi_source_length intent)
                               = (e_device source, Z.of_nat (e_inode source), e_length source)))
            || negb (bool_decide (mi_source_sha256 intent = e_sha256 source))
        | None => false
        end
  then Err StCorruption else Ok intent.

(** What a run takes from outside. *)
Record Outside := {
  faults : Faults; intent_stamp : Z * Z; staging_stamp : Z * Z; attempt_id : option Id; now : option Timestamp;
  volume : ares (Z * Z); min_free_percent : Z; min_free_bytes : Z }.

Section prepare.
Context (out : Outside) (metadata : OpenedLibraryMetadata) (prefix_digest : list byte).
Abbreviation observe := (observe (faults out)).

Definition validate_retained_migration_snapshot : S' MigrationIntent :=
  authority (observe migration_filesystem_state) ≫= fun state =>
  store (match state with
         | Some (IntentWithSnapshot record) | Some (IntentWithSnapshotAndRuntimeSidecars record) => Ok record
         | _ => Err StCorruption
         end) ≫= fun record =>
  (fun w => store (validate_migration_intent record (root_identity (root w)) metadata prefix_digest None) w) ≫= fun intent =>
  authority (validate_migration_snapshot_manifest (faults out) (mi_source_length intent) (mi_source_sha256 intent) record) ≫= fun _ =>
  mret intent.

Definition new_intent (r : Root) (source : MigrationSourceEvidence) : result StoreError MigrationIntent :=
  let? attempt := ok_or StIdGenerationUnavailable (attempt_id out) in
  let? created_at := ok_or StIdGenerationUnavailable (now out) in
  Ok {| mi_attempt_id := attempt; mi_library_id := om_library_id metadata; mi_root_device := root_device r; mi_root_inode := root_inode r;
        mi_source_device := e_device source; mi_source_inode := Z.of_nat (e_inode source); mi_source_length := e_length source;
        mi_source_sha256 := e_sha256 source; mi_migration_prefix_sha256 := prefix_digest; mi_created_at := created_at |}.

Definition resume_snapshot (source : MigrationSourceEvidence) (record : list byte) : S' () :=
  authority (observe migration_filesystem_state) ≫= fun state =>
  match state with
  | Some (IntentOnly observed) =>
      if bool_decide (observed = record)
      then authority (create_and_publish_migration_snapshot (faults out) (staging_stamp out) source record) else store (Err StCorruption)
  | Some (IntentWithStaging observed) =>
      if bool_decide (observed = record)
      then authority (discard_owned_migration_snapshot_staging (faults out) record) ≫= fun _ =>
           authority (create_and_publish_migration_snapshot (faults out) (staging_stamp out) source record)
      else store (Err StCorruption)
  | Some (IntentWithPublishedSnapshot observed) =>
      if bool_decide (observed = record) then authority (finish_published_migration_snapshot (faults out) record) else store (Err StCorruption)
  | Some (IntentWithSnapshot observed) => if bool_decide (observed = record) then mret tt else store (Err StCorruption)
  | _ => store (Err StCorruption)
  end.

Definition durable_record (state : option MigrationFilesystemState) (source : MigrationSourceEvidence) : S' (list byte) :=
  match state with
  | None =>
      (fun w => store (new_intent (root w) source) w) ≫= fun intent =>
      authority (create_durable_migration_intent (faults out) (intent_stamp out) source (migration_encode intent)) ≫= fun _ =>
      mret (migration_encode intent)
  | Some state => mret (intent_record state)
  end.

Definition prepare_migration_snapshot (prefix_count : Z) (migration_capacity : option CreativeMigrationCapacity) : S' MigrationIntent :=
  authority (observe migration_filesystem_state) ≫= fun state =>
  if prefix_count =? 3 then validate_retained_migration_snapshot
  else if negb (prefix_count =? 2) then store (Err StCorruption)
  else
    authority (observe inspect_source) ≫= fun source =>
    store (if bool_decide (source_length <$> migration_capacity = Some (e_length source)) then Ok tt else Err StCorruption) ≫= fun _ =>
    durable_record state source ≫= fun record =>
    (fun w => store (validate_migration_intent record (root_identity (root w)) metadata prefix_digest (Some source)) w) ≫= fun intent =>
    authority (observe (fun _ => volume out)) ≫= fun '(available, total) =>
    store (let? capacity := ok_or StCorruption migration_capacity in
           verify_creative_migration_capacity capacity (min_free_percent out) (min_free_bytes out) available total) ≫= fun _ =>
    resume_snapshot source record ≫= fun _ =>
    authority (validate_migration_snapshot_manifest (faults out) (mi_source_length intent) (mi_source_sha256 intent) record) ≫= fun _ =>
    mret intent.
End prepare.
End snapshot.
End MigrationSnapshot.
