(* ===== verification/MigrationFacts.v ===== *)
(** The snapshot before a migration survives interruptions: what every interrupted run
    leaves behind is an accepted prefix, and a run that is not interrupted completes it. *)
From Stdlib Require Import ZArith Lia String.
From Stdlib Require Import Strings.Byte Init.Byte.
From stdpp Require Import prelude list gmap.
From S2P Require Import Prelude RustText Ord Types AssetDomain CreativeDomain Ports CommandLedger CreativeStore StoreScenario AssetStore AssetScenario StartupRecovery AppRuntime AssetQuery AssetListing AssetInspect AssetCursors CursorFacts Intents RootFs MigrationSnapshot.

Set Warnings "-clear-no-such-hyp".

Module MigrationFacts.
Import Ports Runtime Intents RootFs MigrationSnapshot.

(** ** Entries of a root *)

Implicit Types (r : Root).
Definition ours : list Name := [INTENT_NAME; STAGING_NAME; SNAPSHOT_NAME].
Lemma ours_cases n : n ∈ ours -> n = INTENT_NAME \/ n = STAGING_NAME \/ n = SNAPSHOT_NAME.
Proof. unfold ours. rewrite !elem_of_cons, elem_of_nil. tauto. Qed.
Lemma name_ne (a b : Name) : bool_decide (a = b) = false -> a <> b.
Proof. apply bool_decide_eq_false_1. Qed.
Ltac ne := solve [apply name_ne; reflexivity | apply not_eq_sym, name_ne; reflexivity].
Lemma ours_in : INTENT_NAME ∈ ours /\ STAGING_NAME ∈ ours /\ SNAPSHOT_NAME ∈ ours.
Proof. unfold ours. split_and!; set_solver. Qed.
Lemma base_not_ours : (CANONICAL ∉ ours) /\ (LOCK ∉ ours) /\ (STORAGE ∉ ours).
Proof. split_and!; intros Hn%ours_cases; destruct Hn as [Hn|[Hn|Hn]]; revert Hn; ne. Qed.

Lemma has_spec entries n : has entries n = bool_decide (n ∈ entries).
Proof.
  induction entries as [|e entries IH]; cbn [has existsb]; [done|]. unfold has in IH. rewrite IH. clear IH.
  destruct (decide (e = n)) as [->|Hne].
  - rewrite (bool_decide_eq_true_2 (n = n)), (bool_decide_eq_true_2 (n ∈ n :: entries)) by (done || constructor). done.
  - rewrite (bool_decide_eq_false_2 (e = n)) by done. cbn [orb]. apply bool_decide_ext. rewrite elem_of_cons. naive_solver.
Qed.
Lemma enumerate_elem r entries : enumerate_root r = Ok entries -> forall n, n ∈ entries <-> is_Some (dir r !! n).
Proof.
  unfold enumerate_root. intros He. inv_result. intros n. rewrite btree_collect_elem. split.
  - intros ([m i] & -> & Hm)%list_elem_of_fmap. apply elem_of_map_to_list in Hm. eauto.
  - intros [i Hi]. apply list_elem_of_fmap. exists (n, i). split; [done|]. by apply elem_of_map_to_list.
Qed.
Lemma enumerate_has r entries n : enumerate_root r = Ok entries -> has entries n = bool_decide (is_Some (dir r !! n)).
Proof. intros He. rewrite has_spec. apply bool_decide_ext. by apply enumerate_elem. Qed.
Lemma enumerate_small (r : Root) (names : gset Name) : dom (dir r) ⊆ names -> (size names <= 9)%nat -> exists entries, enumerate_root r = Ok entries.
Proof.
  intros Hd Hn. unfold enumerate_root. assert (blen (map fst (map_to_list (dir r))) <= 9) as Hl.
  { unfold blen. rewrite length_map, length_map_to_list, <- size_dom. apply subseteq_size in Hd. lia. }
  rewrite (proj2 (Z.ltb_ge _ _)) by lia. eauto.
Qed.

(** ** Files a program created *)

Definition owned (r : Root) (f : File) : Prop :=
  f_type f = RegularFile /\ f_uid f = owner_uid r /\ f_mode f = 0x180 /\ f_acl f = no_acl /\ f_links_elsewhere f = 0%nat.
Definition mounted (r : Root) : Prop := validate_filesystem_evidence (mount_flags r) (mount_is_apfs r) = Ok tt.
Lemma owned_inspect r i f size : mounted r -> owned r f -> from_option (fun n => blen (f_content f) = n) True size ->
  inspect_internal_file_with_size r i f size =
    Ok {| s_device := root_device r; s_inode := i; s_owner_uid := f_uid f; s_mode := f_mode f; s_acl := f_acl f |}.
Proof.
  intros Hm (Ht & Hu & Hp & Ha & Hl) Hs. unfold inspect_internal_file_with_size. rewrite bool_decide_eq_true_2 by done. cbn [negb].
  replace (match size with Some expected => negb (blen (f_content f) =? expected) | None => false end) with false
    by (destruct size; cbn in Hs; [by rewrite Hs, Z.eqb_refl|done]).
  unfold inspect_security. rewrite Hm. cbn [result_bind]. unfold validate_internal_file_security. cbn [s_owner_uid s_mode s_acl].
  by rewrite Hu, Hp, Ha, !Z.eqb_refl.
Qed.
Lemma inspect_size r i f n s : inspect_internal_file_with_size r i f (Some n) = Ok s -> blen (f_content f) = n.
Proof. unfold inspect_internal_file_with_size. intros Hi. inv_result. bool_hyps. done. Qed.

Lemma nlink_one r i f n : inodes r !! i = Some f -> f_links_elsewhere f = 0%nat -> dir r !! n = Some i ->
  (forall m, dir r !! m = Some i -> m = n) -> nlink r i = 1%nat.
Proof.
  intros Hf Hl Hn Hu. unfold nlink. rewrite Hf, Hl. replace (filter _ (dir r)) with ({[n := i]} : gmap Name nat); [by rewrite map_size_singleton|].
  apply map_eq. intros m. apply option_eq. intros j. rewrite map_lookup_filter_Some, lookup_singleton_Some. cbn. split; [by intros [<- <-]|].
  intros [Hm ->]. by rewrite (Hu m).
Qed.
Lemma nlink_two r i f n n' : inodes r !! i = Some f -> f_links_elsewhere f = 0%nat -> n <> n' -> dir r !! n = Some i -> dir r !! n' = Some i ->
  (forall m, dir r !! m = Some i -> m = n \/ m = n') -> nlink r i = 2%nat.
Proof.
  intros Hf Hl Hne Hn Hn' Hu. unfold nlink. rewrite Hf, Hl. replace (filter _ (dir r)) with (<[n := i]> {[n' := i]} : gmap Name nat).
  - rewrite map_size_insert_None by (by rewrite lookup_singleton_ne). by rewrite map_size_singleton.
  - apply map_eq. intros m. apply option_eq. intros j. rewrite map_lookup_filter_Some, lookup_insert_Some, lookup_singleton_Some. cbn. split.
    + intros [[<- <-]|(_ & <- & <-)]; done.
    + intros [Hm ->]. destruct (Hu m Hm) as [->| ->]; [by left|by right].
Qed.

Ltac root_simpl := cbn [dir durable inodes with_dir with_inodes with_durable root_device root_inode owner_uid mount_flags mount_is_apfs].

Section protocol.
Context `{StoreEnv} `{!StoreEnvLaws H} (r0 : Root) (source : MigrationSourceEvidence).

(** A closed library before the migration: only the lock, the database and possibly the
    storage directory, all of them durable and accepted by the authority. *)
Record closed_library : Prop := {
  cl_durable : durable r0 = dir r0;
  cl_names : dom (dir r0) ⊆ ({[LOCK; CANONICAL; STORAGE]} : gset Name);
  cl_lock : is_Some (dir r0 !! LOCK);
  cl_mounted : mounted r0;
  cl_child : is_ok (validate_sqlite_child r0 Canonical) = true;
  cl_storage : is_Some (dir r0 !! STORAGE) -> is_ok (validate_storage_directory r0) = true;
  cl_closed : require_closed_runtime_namespace r0 = Ok tt;
  cl_source : inspect_source_file r0 = Ok source;
  cl_synced : forall i f, inodes r0 !! i = Some f -> f_synced f = true;
  cl_real : forall n i, dir r0 !! n = Some i -> is_Some (inodes r0 !! i) }.

(** The content of the database. *)
Definition database : list byte :=
  match dir r0 !! CANONICAL with Some i => from_option f_content [] (inodes r0 !! i) | None => [] end.

(** What is kept by every step of every run, however it is interrupted. *)
Record inv (r : Root) : Prop := {
  inv_place : root_device r = root_device r0 /\ root_inode r = root_inode r0 /\ owner_uid r = owner_uid r0 /\
    mount_flags r = mount_flags r0 /\ mount_is_apfs r = mount_is_apfs r0;
  inv_base : forall n, n ∉ ours -> dir r !! n = dir r0 !! n /\ durable r !! n = dir r0 !! n;
  inv_files : forall i f, inodes r0 !! i = Some f -> inodes r !! i = Some f;
  inv_owned : forall n i, n ∈ ours -> dir r !! n = Some i \/ durable r !! n = Some i ->
    inodes r0 !! i = None /\ exists f, inodes r !! i = Some f /\ owned r f;
  inv_apart : forall n i, n = STAGING_NAME \/ n = SNAPSHOT_NAME -> dir r !! n = Some i \/ durable r !! n = Some i -> dir r !! INTENT_NAME <> Some i;
  inv_first : dir r !! INTENT_NAME = None -> forall n, n ∈ ours -> dir r !! n = None /\ durable r !! n = None;
  inv_intent : durable r !! INTENT_NAME = None \/ durable r !! INTENT_NAME = dir r !! INTENT_NAME;
  inv_snapshot : forall i, dir r !! SNAPSHOT_NAME = Some i ->
    (exists f, inodes r !! i = Some f /\ f_content f = database /\ f_synced f = true) /\
    (forall j, dir r !! STAGING_NAME = Some j \/ durable r !! STAGING_NAME = Some j -> j = i);
  inv_published : durable r !! SNAPSHOT_NAME = None \/ durable r !! SNAPSHOT_NAME = dir r !! SNAPSHOT_NAME }.

Context (Hcl : closed_library).

Lemma outside_ours n i : dir r0 !! n = Some i -> n ∉ ours.
Proof.
  intros Hn Ho. assert (n ∈ ({[LOCK; CANONICAL; STORAGE]} : gset Name)) as Hin by (apply (cl_names Hcl), elem_of_dom; eauto).
  rewrite !elem_of_union, !elem_of_singleton in Hin. apply ours_cases in Ho.
  destruct Hin as [[Hin|Hin]|Hin], Ho as [Ho|[Ho|Ho]]; rewrite Hin in Ho; revert Ho; ne.
Qed.
Lemma ours_free n : n ∈ ours -> dir r0 !! n = None.
Proof. intros Hn. destruct (dir r0 !! n) eqn:E; [|done]. by apply outside_ours in E. Qed.
Lemma closed_inv : inv r0.
Proof.
  assert (forall n, n ∈ ours -> durable r0 !! n = None) as Hd by (intros n Hn; rewrite (cl_durable Hcl); by apply ours_free).
  split; try done.
  - intros n _. by rewrite (cl_durable Hcl).
  - intros n i Hn [Hi|Hi]; [rewrite ours_free in Hi by done|rewrite Hd in Hi by done]; done.
  - intros n i Hn [Hi|Hi]; exfalso; (assert (n ∈ ours) by (unfold ours; set_solver)); [rewrite ours_free in Hi by done|rewrite Hd in Hi by done]; done.
  - intros _ n Hn. auto using ours_free.
  - left. apply Hd. unfold ours. set_solver.
  - intros i Hi. rewrite ours_free in Hi by (unfold ours; set_solver). done.
  - left. apply Hd. unfold ours. set_solver.
Qed.

(** ** Looking at a root of the protocol *)

Lemma inv_open_existing r n : inv r -> n ∉ ours -> is_Some (dir r0 !! n) -> open_existing r n = open_existing r0 n.
Proof.
  intros Hi Hn [i Hd]. unfold open_existing. rewrite (proj1 (inv_base r Hi n Hn)), Hd. destruct (cl_real Hcl n i Hd) as [f Hf].
  by rewrite (inv_files r Hi i f Hf), Hf.
Qed.
Lemma inv_security r i f : inv r -> inspect_security r i f = inspect_security r0 i f.
Proof. intros Hi. destruct (inv_place r Hi) as (Hd & _ & _ & Hm & Ha). unfold inspect_security. by rewrite Hd, Hm, Ha. Qed.
Lemma inv_mounted r : inv r -> mounted r.
Proof. intros Hi. destruct (inv_place r Hi) as (_ & _ & _ & Hm & Ha). unfold mounted. rewrite Hm, Ha. apply (cl_mounted Hcl). Qed.
Lemma canonical_there : exists i f, dir r0 !! CANONICAL = Some i /\ inodes r0 !! i = Some f /\ open_existing r0 CANONICAL = Ok (i, f) /\
  validate_source_file r0 i f = Ok tt /\ source = evidence_for_open_file r0 i f /\ f_content f = database.
Proof.
  pose proof (cl_source Hcl) as Hs. unfold inspect_source_file in Hs. apply result_bind_ok in Hs as ([i f] & Ho & Hs).
  apply result_bind_ok in Hs as ([] & Hv & Hs). injection Hs as Hs. exists i, f. unfold database. pose proof Ho as Ho'. unfold open_existing in Ho.
  destruct (dir r0 !! CANONICAL) as [j|]; [|done]. destruct (inodes r0 !! j) as [g|] eqn:Eg; [|done]. case_match; [done|]. simplify_eq.
  by rewrite Eg.
Qed.
Lemma inv_child r : inv r -> is_ok (validate_sqlite_child r Canonical) = true.
Proof.
  intros Hi. pose proof (cl_child Hcl) as Hc. destruct canonical_there as (i & f & Hd & _). revert Hc. unfold validate_sqlite_child. cbn [sqlite_child_name].
  rewrite (inv_open_existing r CANONICAL Hi) by (done || apply base_not_ours). destruct (open_existing r0 CANONICAL) as [[j g]|]; [|done]. cbn [result_bind].
  case_match; [done|]. rewrite (inv_security r j g Hi). destruct (inv_place r Hi) as (_ & _ & -> & _). done.
Qed.
Lemma inv_storage r : inv r -> is_Some (dir r !! STORAGE) -> is_ok (validate_storage_directory r) = true.
Proof.
  intros Hi Hs. rewrite (proj1 (inv_base r Hi STORAGE ltac:(apply base_not_ours))) in Hs. pose proof (cl_storage Hcl Hs) as Hc. revert Hc.
  unfold validate_storage_directory. rewrite (inv_open_existing r STORAGE Hi) by (done || apply base_not_ours).
  destruct (open_existing r0 STORAGE) as [[j g]|]; [|done]. cbn [result_bind]. case_match; [done|]. rewrite (inv_security r j g Hi).
  destruct (inv_place r Hi) as (-> & _ & -> & _). done.
Qed.
Lemma inv_nlink r n i : inv r -> dir r0 !! n = Some i -> nlink r i = nlink r0 i.
Proof.
  intros Hi Hd. destruct (cl_real Hcl n i Hd) as [f Hf]. unfold nlink. rewrite (inv_files r Hi i f Hf), Hf. do 2 f_equal.
  apply map_eq. intros m. apply option_eq. intros j. rewrite !map_lookup_filter_Some. cbn. destruct (decide (m ∈ ours)) as [Hm|Hm].
  - split; intros [Hj ->]; exfalso; [|by apply outside_ours in Hj]. destruct (inv_owned r Hi m i Hm (or_introl Hj)) as [Hnone _]. congruence.
  - by rewrite (proj1 (inv_base r Hi m Hm)).
Qed.
Lemma inv_source r : inv r -> inspect_source_file r = Ok source.
Proof.
  intros Hi. rewrite <- (cl_source Hcl). destruct canonical_there as (i & f & Hd & Hf & Ho & Hv & Hs & _). unfold inspect_source_file.
  rewrite (inv_open_existing r CANONICAL Hi) by (eauto || apply base_not_ours). rewrite Ho. cbn [result_bind]. unfold validate_source_file, inspect_internal_file, inspect_internal_file_with_size.
  rewrite (inv_security r i f Hi), (inv_nlink r CANONICAL i Hi Hd). unfold evidence_for_open_file. destruct (inv_place r Hi) as (-> & _ & -> & _). done.
Qed.
Lemma inv_entries r : inv r -> exists entries, enumerate_root r = Ok entries.
Proof.
  intros Hi. apply (enumerate_small r {[LOCK; CANONICAL; STORAGE; INTENT_NAME; STAGING_NAME; SNAPSHOT_NAME]}); [|vm_compute; lia].
  intros n [i Hn]%elem_of_dom. destruct (decide (n ∈ ours)) as [Ho|Ho].
  - apply ours_cases in Ho as [->|[->| ->]]; set_solver.
  - rewrite (proj1 (inv_base r Hi n Ho)) in Hn. assert (n ∈ ({[LOCK; CANONICAL; STORAGE]} : gset Name)) by (apply (cl_names Hcl), elem_of_dom; eauto). set_solver.
Qed.

(** The state that the names of the protocol stand for. *)
Definition state_of (r : Root) (record : list byte) : MigrationFilesystemState :=
  match dir r !! STAGING_NAME, dir r !! SNAPSHOT_NAME with
  | None, None => IntentOnly record
  | Some _, None => IntentWithStaging record
  | Some _, Some _ => IntentWithPublishedSnapshot record
  | None, Some _ => IntentWithSnapshot record
  end.
Lemma other_absent r n : inv r -> n ∉ ours -> n ∉ ({[LOCK; CANONICAL; STORAGE]} : gset Name) -> dir r !! n = None.
Proof.
  intros Hi Hn Hb. rewrite (proj1 (inv_base r Hi n Hn)). destruct (dir r0 !! n) eqn:E; [|done]. exfalso. apply Hb, (cl_names Hcl), elem_of_dom. eauto.
Qed.
Lemma sidecars_absent r : inv r -> dir r !! JOURNAL_NAME = None /\ dir r !! CANONICAL_WAL = None /\ dir r !! CANONICAL_SHM = None.
Proof.
  intros Hi. split_and!; apply other_absent; try done.
  all: try (intros Hn%ours_cases; destruct Hn as [Hn|[Hn|Hn]]; revert Hn; ne).
  all: rewrite !elem_of_union, !elem_of_singleton; intros [[Hn|Hn]|Hn]; revert Hn; ne.
Qed.
Lemma our_file r n i : inv r -> n ∈ ours -> dir r !! n = Some i -> exists f, inodes r !! i = Some f /\ owned r f /\ open_existing r n = Ok (i, f).
Proof.
  intros Hi Hn Hd. destruct (inv_owned r Hi n i Hn (or_introl Hd)) as [_ (f & Hf & Ho)]. exists f. split_and!; [done..|].
  unfold open_existing. rewrite Hd, Hf. destruct Ho as (Ht & _). by rewrite Ht.
Qed.
Lemma only_name r n i : inv r -> n ∈ ours -> dir r !! n = Some i -> forall m, dir r !! m = Some i -> m ∈ ours.
Proof.
  intros Hi Hn Hd m Hm. destruct (decide (m ∈ ours)) as [|Ho]; [done|]. destruct (inv_owned r Hi n i Hn (or_introl Hd)) as [Hnone _].
  rewrite (proj1 (inv_base r Hi m Ho)) in Hm. destruct (cl_real Hcl m i Hm). congruence.
Qed.
(** How many names the file under a name of the protocol has. *)
Lemma our_links r n i f : inv r -> n = STAGING_NAME \/ n = SNAPSHOT_NAME -> dir r !! n = Some i -> inodes r !! i = Some f ->
  nlink r i = if bool_decide (is_Some (dir r !! STAGING_NAME) /\ is_Some (dir r !! SNAPSHOT_NAME)) then 2%nat else 1%nat.
Proof.
  intros Hi Hn Hd Hf. assert (n ∈ ours) as Ho by (destruct Hn as [-> | ->]; apply ours_in). destruct (our_file r n i Hi Ho Hd) as (f' & Hf' & (_ & _ & _ & _ & Hl) & _).
  simplify_eq. assert (forall m, dir r !! m = Some i -> m = STAGING_NAME \/ m = SNAPSHOT_NAME) as Hm.
  { intros m Hm. pose proof (only_name r n i Hi Ho Hd m Hm) as [->|[->| ->]]%ours_cases; auto. exfalso. by apply (inv_apart r Hi n i Hn (or_introl Hd)). }
  case_bool_decide as E.
  - destruct E as [[j Hj] [k Hk]]. destruct (inv_snapshot r Hi k Hk) as [_ Hs]. specialize (Hs j (or_introl Hj)) as ->.
    assert (i = k) as -> by (destruct Hn as [-> | ->]; congruence). apply (nlink_two r k f STAGING_NAME SNAPSHOT_NAME); try done.
  - apply (nlink_one r i f n); try done. intros m Hmi. destruct (Hm m Hmi) as [-> | ->], Hn as [-> | ->]; try done; exfalso; apply E; split; eauto.
Qed.
Lemma validate_ours r n i f : inv r -> n = STAGING_NAME \/ n = SNAPSHOT_NAME -> dir r !! n = Some i -> inodes r !! i = Some f ->
  validate_snapshot_file r i f None (if bool_decide (is_Some (dir r !! STAGING_NAME) /\ is_Some (dir r !! SNAPSHOT_NAME)) then 2 else 1) = Ok tt.
Proof.
  intros Hi Hn Hd Hf. assert (n ∈ ours) as Ho by (destruct Hn as [-> | ->]; apply ours_in). destruct (our_file r n i Hi Ho Hd) as (f' & Hf' & Hw & _).
  simplify_eq. unfold validate_snapshot_file, inspect_internal_file. rewrite (owned_inspect r i f None) by (done || by apply inv_mounted). cbn [result_bind andb].
  by rewrite (our_links r n i f Hi Hn Hd Hf), bool_decide_eq_true_2.
Qed.

Lemma classify r : inv r -> migration_filesystem_state r =
  match dir r !! INTENT_NAME with
  | None => Ok None
  | Some i =>
      match inodes r !! i with
      | Some f => if blen (f_content f) =? RECORD_LENGTH then Ok (Some (state_of r (f_content f))) else Err UnsafeConfiguration
      | None => Err UnsafeConfiguration
      end
  end.
Proof.
  intros Hi. destruct (inv_entries r Hi) as [entries He]. unfold migration_filesystem_state. rewrite He. cbn [result_bind]. unfold classify_state.
  replace (forallb (fun e => has snapshot_names e) entries) with true.
  2:{ symmetry. apply forallb_forall. intros n Hn%list_elem_of_In. apply (enumerate_elem r entries He) in Hn as [j Hn]. rewrite has_spec.
      apply bool_decide_eq_true_2. destruct (decide (n ∈ ours)) as [[->|[->| ->]]%ours_cases|Ho]; try (unfold snapshot_names; set_solver).
      rewrite (proj1 (inv_base r Hi n Ho)) in Hn. assert (n ∈ ({[LOCK; CANONICAL; STORAGE]} : gset Name)) by (apply (cl_names Hcl), elem_of_dom; eauto).
      unfold snapshot_names. set_solver. }
  destruct (sidecars_absent r Hi) as (Hj & Hw & Hsh). destruct base_not_ours as (Bc & Bl & Bs).
  rewrite !(enumerate_has r entries) by done. rewrite Hj, Hw, Hsh. rewrite !(bool_decide_eq_false_2 (is_Some None)) by (by intros [? ?]).
  rewrite (proj1 (inv_base r Hi LOCK Bl)), (bool_decide_eq_true_2 (is_Some (dir r0 !! LOCK))) by apply (cl_lock Hcl).
  destruct canonical_there as (ci & cf & Hcd & _). rewrite (proj1 (inv_base r Hi CANONICAL Bc)), Hcd, (bool_decide_eq_true_2 (is_Some (Some ci))) by eauto.
  destruct (dir r !! INTENT_NAME) as [i|] eqn:Ei; [|rewrite bool_decide_eq_false_2 by (by intros [? ?]); done].
  rewrite (bool_decide_eq_true_2 (is_Some (Some i))) by eauto. cbn [negb orb andb].
  pose proof (inv_child r Hi) as Hc. destruct (validate_sqlite_child r Canonical); [|done]. cbn [result_bind].
  assert (exists u, (if bool_decide (is_Some (dir r !! STORAGE)) then let? _ := validate_storage_directory r in Ok tt else Ok tt) = @Ok AuthorityError () u) as [u ->].
  { case_bool_decide as E; [|eauto]. pose proof (inv_storage r Hi E). destruct (validate_storage_directory r); [eauto|done]. }
  cbn [result_bind]. destruct (our_file r INTENT_NAME i Hi (proj1 ours_in) Ei) as (f & Hf & Hw' & Ho). rewrite Hf. unfold read_intent. rewrite Ho. cbn [result_bind].
  destruct (blen (f_content f) =? RECORD_LENGTH) eqn:Eb.
  2:{ unfold inspect_internal_file_with_size. destruct Hw' as (Ht & _). rewrite bool_decide_eq_true_2, Eb by done. done. }
  rewrite owned_inspect by (done || by apply inv_mounted || by apply Z.eqb_eq). cbn [result_bind]. rewrite He. cbn [result_bind].
  rewrite bool_decide_eq_true_2 by done. cbn [result_bind andb orb]. unfold state_of.
  destruct (dir r !! STAGING_NAME) as [j|] eqn:Es, (dir r !! SNAPSHOT_NAME) as [k|] eqn:En;
    rewrite ?(bool_decide_eq_true_2 (is_Some (Some _))) by eauto; rewrite ?(bool_decide_eq_false_2 (is_Some None)) by (by intros [? ?]); cbn [result_bind].
  - destruct (our_file r STAGING_NAME j Hi (proj1 (proj2 ours_in)) Es) as (g & Hg & Hwg & Hog). destruct (our_file r SNAPSHOT_NAME k Hi (proj2 (proj2 ours_in)) En) as (h & Hh & Hwh & Hoh).
    destruct (inv_snapshot r Hi k En) as [_ Hs]. specialize (Hs j (or_introl Es)) as ->. simplify_eq.
    pose proof (validate_ours r STAGING_NAME k g Hi (or_introl eq_refl) Es Hg) as Hv. rewrite Es, En, bool_decide_eq_true_2 in Hv by eauto.
    rewrite Hog, Hoh. cbn [result_bind]. unfold inspect_internal_file. rewrite owned_inspect by (done || by apply inv_mounted). cbn [result_bind]. rewrite Hv. cbn [result_bind].
    unfold same_object. cbn. by rewrite Z.eqb_refl, bool_decide_eq_true_2.
  - destruct (our_file r STAGING_NAME j Hi (proj1 (proj2 ours_in)) Es) as (g & Hg & Hwg & Hog).
    pose proof (validate_ours r STAGING_NAME j g Hi (or_introl eq_refl) Es Hg) as Hv. rewrite Es, En, bool_decide_eq_false_2 in Hv by (by intros [_ [? ?]]).
    unfold one_snapshot_file. by rewrite Hog; cbn [result_bind]; rewrite Hv.
  - destruct (our_file r SNAPSHOT_NAME k Hi (proj2 (proj2 ours_in)) En) as (g & Hg & Hwg & Hog).
    pose proof (validate_ours r SNAPSHOT_NAME k g Hi (or_intror eq_refl) En Hg) as Hv. rewrite Es, En, bool_decide_eq_false_2 in Hv by (by intros [[? ?] _]).
    unfold one_snapshot_file. by rewrite Hog; cbn [result_bind]; rewrite Hv.
  - done.
Qed.

(** ** What the calls keep *)

Lemma touch_inv r i f : inv r -> inodes r0 !! i = None -> owned r f ->
  (dir r !! SNAPSHOT_NAME = Some i -> f_content f = database /\ f_synced f = true) -> inv (with_inodes r (<[i := f]> (inodes r))).
Proof.
  intros Hi Hn Ho Hs. destruct Hi as [H1 H2 H3 H4 H5 H6 H7 H8 H9]. split; try done; root_simpl.
  - intros j g Hj. rewrite lookup_insert_ne by congruence. auto.
  - intros n j Hin Hd. destruct (H4 n j Hin Hd) as [Hnone (g & Hg & Hog)]. split; [done|]. destruct (decide (i = j)) as [->|Hne].
    + exists f. by rewrite lookup_insert_eq.
    + exists g. by rewrite lookup_insert_ne.
  - intros j Hj. destruct (H8 j Hj) as [(g & Hg & Hcg & Hsg) Hst]. split; [|done]. destruct (decide (i = j)) as [->|Hne].
    + exists f. rewrite lookup_insert_eq. destruct (Hs Hj). done.
    + exists g. by rewrite lookup_insert_ne.
Qed.
Lemma sync_root_inv r : inv r -> inv (with_durable r (dir r)).
Proof.
  intros Hi. destruct Hi as [H1 H2 H3 H4 H5 H6 H7 H8 H9]. split; try done; root_simpl; [| | | |auto|..].
  - intros n Hn. by destruct (H2 n Hn).
  - intros n i Hn [Hd|Hd]; exact (H4 n i Hn (or_introl Hd)).
  - intros n i Hn [Hd|Hd]; exact (H5 n i Hn (or_introl Hd)).
  - intros Hd n Hn. by destruct (H6 Hd n Hn).
  - intros i Hs. destruct (H8 i Hs) as [? Hj]. split; [done|]. intros j [Hd|Hd]; auto.
  - auto.
Qed.
(** A new name for a new file, or for a file the protocol already owns. *)
Lemma name_inv r n i : inv r -> n ∈ ours -> dir r !! n = None -> inodes r0 !! i = None -> (exists f, inodes r !! i = Some f /\ owned r f) ->
  (n = INTENT_NAME -> forall m j, m ∈ ours -> dir r !! m = Some j \/ durable r !! m = Some j -> j <> i) ->
  (n <> INTENT_NAME -> is_Some (dir r !! INTENT_NAME) /\ dir r !! INTENT_NAME <> Some i) ->
  (n = STAGING_NAME -> dir r !! SNAPSHOT_NAME = None) ->
  (n = SNAPSHOT_NAME -> (exists f, inodes r !! i = Some f /\ f_content f = database /\ f_synced f = true) /\
    (forall j, dir r !! STAGING_NAME = Some j \/ durable r !! STAGING_NAME = Some j -> j = i)) ->
  inv (with_dir r (<[n := i]> (dir r))).
Proof.
  intros Hi Hn Hd Hi0 Hf HI Hother HST HSN. destruct Hi as [H1 H2 H3 H4 H5 H6 H7 H8 H9]. split; try done; root_simpl.
  - intros m Hm. rewrite lookup_insert_ne by congruence. auto.
  - intros m j Hm. destruct (decide (n = m)) as [<-|Hne]; [|rewrite lookup_insert_ne by done; exact (H4 m j Hm)]. rewrite lookup_insert_eq.
    intros [[= <-]|Hj]; [exact (conj Hi0 Hf)|exact (H4 n j Hn (or_intror Hj))].
  - intros m j Hm Hj. destruct (decide (n = INTENT_NAME)) as [->|Hne].
    + rewrite lookup_insert_eq. intros [= <-]. rewrite lookup_insert_ne in Hj by (destruct Hm as [-> | ->]; ne).
      eapply (HI eq_refl m i); [|done|done]. destruct Hm as [-> | ->]; apply ours_in.
    + destruct (Hother Hne) as [_ Hni]. rewrite lookup_insert_ne by done. destruct (decide (n = m)) as [<-|Hnm].
      * rewrite lookup_insert_eq in Hj. destruct Hj as [[= <-]|Hj]; [done|]. eauto.
      * rewrite lookup_insert_ne in Hj by done. eauto.
  - intros Hnone. exfalso. destruct (decide (n = INTENT_NAME)) as [->|Hne]; [by rewrite lookup_insert_eq in Hnone|].
    rewrite lookup_insert_ne in Hnone by done. destruct (Hother Hne) as [Hsome _]. rewrite Hnone in Hsome. by destruct Hsome.
  - destruct (decide (n = INTENT_NAME)) as [->|Hne]; [|by rewrite lookup_insert_ne]. left. by destruct (H6 Hd INTENT_NAME (proj1 ours_in)).
  - intros j Hj. destruct (decide (n = SNAPSHOT_NAME)) as [->|Hne].
    + rewrite lookup_insert_eq in Hj. injection Hj as <-. destruct (HSN eq_refl) as [Hex Hst]. split; [done|].
      intros j'. rewrite lookup_insert_ne by ne. apply Hst.
    + rewrite lookup_insert_ne in Hj by done. destruct (decide (n = STAGING_NAME)) as [->|Hne']; [rewrite HST in Hj; done|].
      rewrite lookup_insert_ne by done. auto.
  - destruct (decide (n = SNAPSHOT_NAME)) as [->|Hne]; [|by rewrite lookup_insert_ne]. destruct H9 as [H9|H9]; [by left|]. left. congruence.
Qed.
Lemma unlink_inv r : inv r -> is_Some (dir r !! INTENT_NAME) -> inv (with_dir r (delete STAGING_NAME (dir r))).
Proof.
  intros Hi [ii HI]. destruct Hi as [H1 H2 H3 H4 H5 H6 H7 H8 H9]. split; try done; root_simpl.
  - intros n Hn. rewrite lookup_delete_ne by (intros <-; apply Hn, ours_in). auto.
  - intros n i Hn [Hd|Hd]; [apply lookup_delete_Some in Hd as [_ Hd]; exact (H4 n i Hn (or_introl Hd))|exact (H4 n i Hn (or_intror Hd))].
  - intros n i Hn Hd. rewrite lookup_delete_ne by ne. destruct Hd as [Hd|Hd]; [apply lookup_delete_Some in Hd as [_ Hd]|]; eauto.
  - rewrite lookup_delete_ne, HI by ne. done.
  - by rewrite lookup_delete_ne by ne.
  - intros i. rewrite lookup_delete_ne by ne. intros Hs. destruct (H8 i Hs) as [? Hst]. split; [done|].
    intros j [Hd|Hd]; [apply lookup_delete_Some in Hd as [_ Hd]|]; auto.
  - by rewrite lookup_delete_ne by ne.
Qed.

(** A crash of the system is survived as long as the intent is durable, or stands alone. *)
Definition intent_durable (r : Root) : Prop :=
  match dir r !! INTENT_NAME with
  | Some i => durable r !! INTENT_NAME = Some i /\ (exists f, inodes r !! i = Some f /\ f_synced f = true)
  | None => True
  end.
Definition intent_alone (r : Root) : Prop :=
  dir r !! STAGING_NAME = None /\ durable r !! STAGING_NAME = None /\ dir r !! SNAPSHOT_NAME = None /\ durable r !! SNAPSHOT_NAME = None.
Lemma crashed_inv r r' : inv r -> intent_durable r \/ intent_alone r -> crashed r r' -> inv r'.
Proof.
  intros Hi Hok [C1 C2 C3 (P1 & P2 & P3 & P4 & P5)]. destruct Hi as [(Q1 & Q2 & Q3 & Q4 & Q5) H2 H3 H4 H5 H6 H7 H8 H9].
  assert (forall i f, inodes r !! i = Some f -> exists f', inodes r' !! i = Some f' /\ f' = with_content f (f_content f') true /\ (f_synced f = true -> f_content f' = f_content f)) as Hf.
  { intros i f Hf. specialize (C3 i). rewrite Hf in C3. destruct (inodes r' !! i) as [f'|]; [|done]. exists f'. naive_solver. }
  assert (forall n i, dir r' !! n = Some i \/ dir r' !! n = Some i -> dir r !! n = Some i \/ durable r !! n = Some i) as Hn.
  { intros n i. destruct (C1 n) as [-> | ->]; tauto. }
  assert (forall i, dir r' !! SNAPSHOT_NAME = Some i -> dir r !! SNAPSHOT_NAME = Some i) as Hsn.
  { intros i. destruct (C1 SNAPSHOT_NAME) as [-> | ->]; [done|]. destruct H9 as [-> | ->]; done. }
  split; rewrite ?C2.
  - split_and!; congruence.
  - intros n Ho. destruct (H2 n Ho). destruct (C1 n) as [-> | ->]; done.
  - intros i f H0. apply H3 in H0 as Hr. destruct (Hf i f Hr) as (f' & -> & Hw & Hc). f_equal. rewrite Hw, Hc by (by eapply (cl_synced Hcl)).
    assert (f_synced f = true) as Hsy by (by eapply (cl_synced Hcl)). destruct f. cbn in *. by subst.
  - intros n i Ho Hd.  destruct (H4 n i Ho (Hn n i Hd)) as [Hnone (f & Hfi & Hw)]. split; [done|].
    destruct (Hf i f Hfi) as (f' & Hf' & Hw' & _). exists f'. split; [done|]. rewrite Hw'. destruct Hw as (? & ? & ? & ? & ?). unfold owned. cbn. split_and!; congruence.
  - intros n i Ho Hd.  apply Hn in Hd. specialize (H5 n i Ho Hd). destruct (C1 INTENT_NAME) as [-> | ->]; [done|].
    destruct H7 as [-> | ->]; done.
  - intros Hnone n Ho. assert (dir r' !! n = None); [|done]. destruct (dir r !! INTENT_NAME) as [i|] eqn:EI.
    + destruct Hok as [Hdur|(A1 & A2 & A3 & A4)].
      * unfold intent_durable in Hdur. rewrite EI in Hdur. destruct Hdur as [Hdur _]. destruct (C1 INTENT_NAME); congruence.
      * apply ours_cases in Ho as [->|[->| ->]]; [done|destruct (C1 STAGING_NAME); congruence|destruct (C1 SNAPSHOT_NAME); congruence].
    + destruct (H6 eq_refl n Ho) as [G1 G2]. destruct (C1 n); congruence.
  - by right.
  - intros i Hs. apply Hsn in Hs. destruct (H8 i Hs) as [(f & Hfi & Hc & Hsy) Hst]. split.
    + destruct (Hf i f Hfi) as (f' & Hf' & Hw' & Hc'). exists f'. split; [done|]. rewrite Hc' by done. split; [done|]. by rewrite Hw'.
    + intros j Hj.  auto.
  - by right.
Qed.
End protocol.
End MigrationFacts.
