(* ===== verification/MigrationRuns.v ===== *)
(** The programs of the migration snapshot, run with faults: every step of every run keeps
    the invariant of the protocol, and a run fails only where a step was made to fail. *)
From Stdlib Require Import ZArith Lia String.
From Stdlib Require Import Strings.Byte Init.Byte.
From stdpp Require Import prelude list gmap.
From S2P Require Import Prelude RustText Ord Types AssetDomain CreativeDomain Ports CommandLedger CreativeStore StoreScenario AssetStore AssetScenario StartupRecovery AppRuntime AssetQuery AssetListing AssetInspect AssetCursors CursorFacts Intents RootFs MigrationSnapshot MigrationFacts.

Set Warnings "-clear-no-such-hyp".

Module MigrationRuns.
Import Ports Runtime Intents RootFs MigrationSnapshot MigrationFacts.

Ltac ne := solve [apply name_ne; reflexivity | apply not_eq_sym, name_ne; reflexivity].

Section runs.
Context `{StoreEnv} `{!StoreEnvLaws H} (r0 : Root) (source : MigrationSourceEvidence) (Hcl : closed_library r0 source) (faults : Faults).
Abbreviation inv := (inv r0).
Abbreviation database := (database r0).

(** Some step was made to fail. *)
Definition faulty : Prop := exists t e, fault faults t = Some e.
Definition spec {A} (P : Root -> Prop) (m : M A) (Q : A -> Root -> Prop) : Prop :=
  forall w, inv (root w) -> P (root w) ->
    match m w with
    | (Ok a, w') => inv (root w') /\ Q a (root w')
    | (Err _, w') => inv (root w') /\ faulty
    end.

Lemma run_spec_bind {A B} P (m : M A) Q (k : A -> M B) R : spec P m Q -> (forall a, spec (Q a) (k a) R) -> spec P (m ≫= k) R.
Proof.
  intros Hm Hk w Hi HP. specialize (Hm w Hi HP). unfold mbind, M_bind. destruct (m w) as [[a|e] w']; [|done]. destruct Hm as [Hi' HQ]. by apply Hk.
Qed.
Lemma spec_pre {A} (P P' : Root -> Prop) (m : M A) Q : (forall r, inv r -> P r -> P' r) -> spec P' m Q -> spec P m Q.
Proof. intros Hp Hm w Hi HP. apply Hm; auto. Qed.
Lemma spec_observe {A} P (f : Root -> ares A) Q : (forall r, inv r -> P r -> exists a, f r = Ok a /\ Q a r) -> spec P (observe faults f) Q.
Proof.
  intros Hf w Hi HP. unfold observe. destruct (fault faults (tick w)) as [e|] eqn:Ef; [split; [done|by exists (tick w), e]|].
  cbn [root]. destruct (Hf (root w) Hi HP) as (a & -> & HQ). done.
Qed.
Lemma spec_change {A} P (f : Root -> ares (A * Root)) Q :
  (forall r, inv r -> P r -> exists a r', f r = Ok (a, r') /\ inv r' /\ Q a r') -> spec P (change faults f) Q.
Proof.
  intros Hf w Hi HP. unfold change. destruct (fault faults (tick w)) as [e|] eqn:Ef; [split; [done|by exists (tick w), e]|].
  destruct (Hf (root w) Hi HP) as (a & r' & -> & Hi' & HQ). done.
Qed.
Lemma spec_require P (b : bool) e Q : (forall r, inv r -> P r -> b = true /\ Q r) -> spec P (require b e) (fun _ => Q).
Proof. intros Hb w Hi HP. unfold require. destruct (Hb (root w) Hi HP) as [-> HQ]. done. Qed.

(** ** New files and their content *)

Lemma fresh_inode r i : inv r -> i = fresh (dom (inodes r)) -> inodes r !! i = None /\ inodes r0 !! i = None.
Proof.
  intros Hi ->. assert (inodes r !! fresh (dom (inodes r)) = None) as Hn by (apply not_elem_of_dom, is_fresh). split; [done|].
  destruct (inodes r0 !! _) as [f|] eqn:E; [|done]. apply (inv_files _ r Hi) in E. congruence.
Qed.
Lemma named_not_fresh r n i : inv r -> n ∈ ours -> inodes r !! i = None -> dir r !! n <> Some i /\ durable r !! n <> Some i.
Proof.
  intros Hi Hn Hnone. split; intros Hd; [destruct (inv_owned _ r Hi n i Hn (or_introl Hd)) as [_ (f & Hf & _)]
    |destruct (inv_owned _ r Hi n i Hn (or_intror Hd)) as [_ (f & Hf & _)]]; congruence.
Qed.
Lemma created_inv r n stamp : inv r -> n ∈ ours -> dir r !! n = None -> (n <> INTENT_NAME -> is_Some (dir r !! INTENT_NAME)) ->
  (n = STAGING_NAME -> dir r !! SNAPSHOT_NAME = None) -> n <> SNAPSHOT_NAME ->
  let i := fresh (dom (inodes r)) in inv (with_inodes (with_dir r (<[n := i]> (dir r))) (<[i := new_file (owner_uid r) stamp]> (inodes r))).
Proof.
  intros Hi Hn Hd HI HST HSN i. destruct (fresh_inode r i Hi eq_refl) as [Hf Hf0].
  assert (owned r (new_file (owner_uid r) stamp)) as Ho by done.
  assert (inv (with_inodes r (<[i := new_file (owner_uid r) stamp]> (inodes r)))) as Hi1.
  { apply (touch_inv r0 r i _ Hi Hf0 Ho). intros Hs. by destruct (named_not_fresh r SNAPSHOT_NAME i Hi (proj2 (proj2 ours_in)) Hf). }
  change (inv (with_dir (with_inodes r (<[i := new_file (owner_uid r) stamp]> (inodes r))) (<[n := i]> (dir r)))).
  apply (name_inv r0 _ n i Hi1 Hn); try done; root_simpl.
  - exists (new_file (owner_uid r) stamp). by rewrite lookup_insert_eq.
  - intros _ m j Hm Hj <-. destruct (named_not_fresh r m j Hi Hm Hf) as [? ?]. naive_solver.
  - intros Hne. split; [auto|]. apply (named_not_fresh r INTENT_NAME i Hi (proj1 ours_in) Hf).
Qed.
Lemma append_inv r n i bytes : inv r -> n ∈ ours -> dir r !! n = Some i -> dir r !! SNAPSHOT_NAME <> Some i -> inv (append i bytes r).
Proof.
  intros Hi Hn Hd Hs. unfold append. destruct (inv_owned _ r Hi n i Hn (or_introl Hd)) as [Hnone (f & Hf & Ho)]. rewrite Hf.
  apply touch_inv; try done.
Qed.

Lemma spec_create n stamp P :
  n = INTENT_NAME \/ n = STAGING_NAME ->
  (forall r, inv r -> P r -> dir r !! n = None /\ (n = STAGING_NAME -> is_Some (dir r !! INTENT_NAME) /\ dir r !! SNAPSHOT_NAME = None)) ->
  spec P (create_exclusive faults n stamp) (fun i r' => exists r, P r /\ inv r /\ i = fresh (dom (inodes r)) /\
    r' = with_inodes (with_dir r (<[n := i]> (dir r))) (<[i := new_file (owner_uid r) stamp]> (inodes r))).
Proof.
  intros Hn HP. apply spec_change. intros r Hi Hp. destruct (HP r Hi Hp) as [Hd HST]. rewrite Hd. eexists _, _. split; [done|]. split; [|by exists r].
  assert (n ∈ ours) as Ho by (destruct Hn as [-> | ->]; apply ours_in). apply created_inv; try done.
  - intros Hne. destruct Hn as [-> | ->]; [done|]. by apply HST.
  - intros Heq. by apply HST.
  - destruct Hn as [-> | ->]; ne.
Qed.
Lemma spec_write n i bytes P Q : n ∈ ours ->
  (forall r, inv r -> P r -> dir r !! n = Some i /\ dir r !! SNAPSHOT_NAME <> Some i /\ Q (append i bytes r)) ->
  spec P (write_all faults i bytes) (fun _ => Q).
Proof.
  intros Hn HP w Hi Hp. destruct (HP _ Hi Hp) as (Hd & Hs & HQ). unfold write_all.
  destruct (fault faults (tick w)) as [e|] eqn:Ef; (split; [by apply (append_inv _ n)|]); [by exists (tick w), e|done].
Qed.
Lemma spec_sync_file n i P Q : n ∈ ours ->
  (forall r, inv r -> P r -> dir r !! n = Some i /\ dir r !! SNAPSHOT_NAME <> Some i /\
     forall f, inodes r !! i = Some f -> Q (with_inodes r (<[i := with_content f (f_content f) true]> (inodes r)))) ->
  spec P (sync_file faults i) (fun _ => Q).
Proof.
  intros Hn HP. apply spec_change. intros r Hi Hp. destruct (HP r Hi Hp) as (Hd & Hs & HQ).
  destruct (inv_owned _ r Hi n i Hn (or_introl Hd)) as [Hnone (f & Hf & Ho)]. rewrite Hf. eexists _, _. split; [done|]. split; [|auto].
  by apply touch_inv.
Qed.
Lemma spec_sync_root P Q : (forall r, inv r -> P r -> Q (with_durable r (dir r))) -> spec P (sync_root faults) (fun _ => Q).
Proof. intros HP. apply spec_change. intros r Hi Hp. eexists _, _. split; [done|]. split; [by apply sync_root_inv|auto]. Qed.

(** ** The closed namespace *)

Lemma same_dir r : inv r -> dir r !! INTENT_NAME = None -> dir r = dir r0.
Proof.
  intros Hi Hd. apply map_eq. intros n. destruct (decide (n ∈ ours)) as [Ho|Ho]; [|apply (inv_base _ r Hi n Ho)].
  rewrite (proj1 (inv_first _ r Hi Hd n Ho)). symmetry. by eapply ours_free.
Qed.
Lemma closed_none r : inv r -> dir r !! INTENT_NAME = None -> require_closed_runtime_namespace r = Ok tt.
Proof.
  intros Hi Hd. pose proof (cl_closed _ _ Hcl) as Hc. pose proof (same_dir r Hi Hd) as Hs. destruct (inv_entries r0 source Hcl r Hi) as [entries He].
  assert (enumerate_root r0 = Ok entries) as He0 by (rewrite <- He; unfold enumerate_root; by rewrite Hs). revert Hc. unfold require_closed_runtime_namespace.
  rewrite He, He0. cbn [result_bind]. destruct (is_canonical_runtime_entries _ _ && _) eqn:Ec.
  - intros _. pose proof (inv_child r0 source Hcl r Hi) as Hch. destruct (validate_sqlite_child r Canonical); [|done].
    destruct (has entries STORAGE) eqn:Es; [|done]. rewrite (enumerate_has r entries STORAGE He) in Es. apply bool_decide_eq_true_1 in Es.
    pose proof (inv_storage r0 source Hcl r Hi Es) as Hst. by destruct (validate_storage_directory r).
  - intros Hc. exfalso. pose proof (classify r0 source Hcl r0 (closed_inv r0 source Hcl)) as Hcs. unfold migration_filesystem_state in Hcs. rewrite He0 in Hcs. cbn [result_bind] in Hcs.
    rewrite Hcs, (ours_free r0 source Hcl INTENT_NAME (proj1 ours_in)) in Hc. done.
Qed.

Definition at_intent (record : list byte) (r : Root) : Prop :=
  exists i f, dir r !! INTENT_NAME = Some i /\ inodes r !! i = Some f /\ f_content f = record.
Context (record : list byte) (Hrecord : blen record = RECORD_LENGTH).

Lemma classify_at r : inv r -> at_intent record r -> migration_filesystem_state r = Ok (Some (state_of r record)).
Proof. intros Hi (i & f & Hd & Hf & Hc). rewrite (classify r0 source Hcl r Hi), Hd, Hf, Hc, Hrecord. done. Qed.
Lemma closed_at r : inv r -> at_intent record r -> require_closed_runtime_namespace r = Ok tt.
Proof.
  intros Hi Ha. pose proof (classify_at r Hi Ha) as Hcs. destruct (inv_entries r0 source Hcl r Hi) as [entries He]. unfold require_closed_runtime_namespace.
  rewrite He. cbn [result_bind]. unfold migration_filesystem_state in Hcs. rewrite He in Hcs. cbn [result_bind] in Hcs.
  replace (is_canonical_runtime_entries entries (has entries STORAGE)) with false.
  - cbn [andb]. rewrite Hcs. cbn [result_bind]. unfold state_of. by destruct (dir r !! STAGING_NAME), (dir r !! SNAPSHOT_NAME).
  - symmetry. apply not_true_is_false. unfold is_canonical_runtime_entries. destruct ((_ <? _) || _); [done|]. intros Hx. bool_hyps.
    match goal with Hf : forallb _ entries = true |- _ => rewrite forallb_forall in Hf; specialize (Hf INTENT_NAME) end.
    destruct Ha as (i & f & Hd & _). assert (INTENT_NAME ∈ entries) as Hin by (apply (enumerate_elem r entries He); eauto).
    apply list_elem_of_In in Hin. match goal with Hf : In _ _ -> _ = true |- _ => specialize (Hf Hin); revert Hf end.
    destruct (has entries STORAGE); vm_compute; done.
Qed.
Lemma source_at r : inv r -> inspect_source_file r = Ok source.
Proof. apply inv_source; done. Qed.
Lemma same_at r state : inv r -> at_intent record r -> state_of r record = state -> state_and_source r state source = Ok true.
Proof.
  intros Hi Ha <-. unfold state_and_source. rewrite (classify_at r Hi Ha). cbn [result_bind]. rewrite bool_decide_eq_true_2 by done.
  rewrite (source_at r Hi). cbn [result_bind]. by rewrite bool_decide_eq_true_2.
Qed.

(** ** Creating the intent *)

Definition intent_written (i : nat) (content : list byte) (r : Root) : Prop :=
  dir r !! INTENT_NAME = Some i /\ dir r !! STAGING_NAME = None /\ dir r !! SNAPSHOT_NAME = None /\
  exists f, inodes r !! i = Some f /\ owned r f /\ f_content f = content.
Lemma intent_size r i content : inv r -> intent_written i content r ->
  exists u, (let? f := file_of r i in let? _ := inspect_internal_file_with_size r i f (Some (blen content)) in Ok tt) = Ok u /\ intent_written i content r.
Proof.
  intros Hi Hw. destruct Hw as (Hd & Hst & Hsn & f & Hf & Ho & Hc) eqn:EH. exists tt. split; [|done]. unfold file_of. rewrite Hf. cbn [result_bind].
  rewrite owned_inspect; [done|by eapply inv_mounted|done|]. cbn. by rewrite Hc.
Qed.
Lemma spec_create_intent stamp :
  spec (fun r => dir r !! INTENT_NAME = None) (create_durable_migration_intent faults stamp source record)
    (fun _ r => at_intent record r /\ dir r !! STAGING_NAME = None /\ dir r !! SNAPSHOT_NAME = None /\ intent_durable r).
Proof.
  unfold create_durable_migration_intent.
  apply (run_spec_bind _ _ (fun _ r => dir r !! INTENT_NAME = None)).
  { apply spec_observe. intros r Hi Hd. exists tt. split; [|done]. unfold inspect_source. rewrite (closed_none r Hi Hd). cbn [result_bind].
    rewrite (source_at r Hi). cbn [result_bind]. by rewrite bool_decide_eq_true_2. }
  intros _. apply (run_spec_bind _ _ (fun i r => intent_written i [] r)).
  { intros w Hi Hd. assert (spec (fun r => dir r !! INTENT_NAME = None) (create_exclusive faults INTENT_NAME stamp) (fun i r' => exists r, dir r !! INTENT_NAME = None /\ inv r /\
      i = fresh (dom (inodes r)) /\ r' = with_inodes (with_dir r (<[INTENT_NAME := i]> (dir r))) (<[i := new_file (owner_uid r) stamp]> (inodes r)))) as Hs.
    { apply spec_create; [by left|]. intros r _ Hn. split; [done|]. intros Heq. exfalso. revert Heq. ne. }
    specialize (Hs w Hi Hd). destruct (create_exclusive faults INTENT_NAME stamp w) as [[i|] w']; [|done]. destruct Hs as [Hi' (r & Hn & Hr & -> & Hw')]. split; [done|].
    rewrite Hw'. unfold intent_written. root_simpl. rewrite !lookup_insert_eq, !lookup_insert_ne by ne.
    rewrite (proj1 (inv_first _ r Hr Hn STAGING_NAME (proj1 (proj2 ours_in)))), (proj1 (inv_first _ r Hr Hn SNAPSHOT_NAME (proj2 (proj2 ours_in)))). split_and!; try done.
    by exists (new_file (owner_uid r) stamp). }
  intros i. apply (run_spec_bind _ _ (fun _ => intent_written i [])); [apply spec_observe; intros r Hi Hw; by apply (intent_size r i [])|].
  intros _. apply (run_spec_bind _ _ (fun _ => intent_written i record)).
  { apply (spec_write INTENT_NAME i record); [apply ours_in|]. intros r Hi (Hd & Hst & Hsn & f & Hf & Ho & Hc). split_and!; [done|by rewrite Hsn|].
    unfold append. rewrite Hf. unfold intent_written. root_simpl. rewrite lookup_insert_eq. split_and!; try done.
    exists (with_content f (f_content f ++ record) false). split_and!; [done..|]. by rewrite Hc. }
  intros _. apply (run_spec_bind _ _ (fun _ r => intent_written i record r /\ (exists f, inodes r !! i = Some f /\ f_synced f = true))).
  { apply (spec_sync_file INTENT_NAME i); [apply ours_in|]. intros r Hi (Hd & Hst & Hsn & f & Hf & Ho & Hc). split_and!; [done|by rewrite Hsn|].
    intros g Hg. simplify_eq. unfold intent_written. root_simpl. rewrite lookup_insert_eq. split_and!; try done; by exists (with_content f (f_content f) true). }
  intros _. apply (run_spec_bind _ _ (fun _ r => intent_written i record r /\ (exists f, inodes r !! i = Some f /\ f_synced f = true))).
  { apply spec_observe. intros r Hi [Hw Hs]. destruct (intent_size r i record Hi Hw) as (u & Hu & _). exists u. rewrite Hrecord in Hu. done. }
  intros _. apply (run_spec_bind _ _ (fun _ r => intent_written i record r /\ intent_durable r)).
  { apply spec_sync_root. intros r Hi [(Hd & Hst & Hsn & Hf) Hs]. split; [done|]. unfold intent_durable. root_simpl. by rewrite Hd. }
  intros _. apply spec_observe. intros r Hi [(Hd & Hst & Hsn & f & Hf & Ho & Hc) Hdur]. exists tt.
  assert (at_intent record r) as Ha by (by exists i, f). rewrite (classify_at r Hi Ha). cbn [result_bind ok_or].
  rewrite (same_at r (IntentOnly record) Hi Ha) by (unfold state_of; by rewrite Hst, Hsn). done.
Qed.

(** ** Copying the database *)

Definition staged (st : nat) (content : list byte) (r : Root) : Prop :=
  at_intent record r /\ dir r !! STAGING_NAME = Some st /\ dir r !! SNAPSHOT_NAME = None /\
  exists f, inodes r !! st = Some f /\ owned r f /\ f_content f = content.
Definition copying (st : nat) (content : list byte) (r : Root) : Prop := staged st content r /\ durable r !! STAGING_NAME = Some st.
Lemma evidence_database : e_length source = blen database /\ e_sha256 source = sha256 database.
Proof. destruct (canonical_there r0 source Hcl) as (i & f & _ & _ & _ & _ & -> & Hc). cbn. by rewrite Hc. Qed.
Lemma staged_touch st content r f' : inv r -> staged st content r -> owned r f' -> staged st (f_content f') (with_inodes r (<[st := f']> (inodes r))).
Proof.
  intros Hi ((i & f & Hd & Hf & Hc) & Hst & Hsn & g & Hg & Ho & Hcg) Ho'. unfold staged, at_intent. root_simpl.
  assert (st <> i) as Hne by (intros <-; by apply (inv_apart _ r Hi STAGING_NAME st (or_introl eq_refl) (or_introl Hst))).
  split_and!; [|done..|by exists f'; rewrite lookup_insert_eq]. exists i, f. by rewrite lookup_insert_ne.
Qed.
Lemma spec_copy_write st copied buffer :
  spec (copying st copied) (write_all faults st buffer) (fun _ => copying st (copied ++ buffer)).
Proof.
  apply (spec_write STAGING_NAME st buffer); [apply ours_in|]. intros r Hi [Hs Hdur]. pose proof Hs as (Ha & Hst & Hsn & f & Hf & Ho & Hc).
  split_and!; [done|by rewrite Hsn|]. unfold append. rewrite Hf. split; [|done].
  rewrite <- Hc. by apply (staged_touch st copied r (with_content f (f_content f ++ buffer) false)).
Qed.
Lemma copy_prefix (copied : list byte) n : copied = take (length copied) database ->
  let buffer := take n (drop (length copied) database) in copied ++ buffer = take (length (copied ++ buffer)) database.
Proof.
  intros Hp buffer. rewrite length_app. rewrite Hp at 1. unfold buffer. rewrite take_take_drop, length_take, length_drop.
  destruct (decide (n <= length database - length copied)%nat); [do 2 f_equal; lia|]. rewrite !take_ge; [done|lia..].
Qed.
Lemma spec_copy_loop fuel src st copied :
  (forall r, inv r -> exists f, inodes r !! src = Some f /\ f_content f = database) ->
  copied = take (length copied) database -> (length database - length copied < fuel)%nat ->
  spec (copying st copied) (copy_loop faults fuel src st (e_length source) copied) (fun out r => out = database /\ copying st database r).
Proof.
  intros Hsrc. revert copied. induction fuel as [|fuel IH]; intros copied Hp Hf; [lia|]. intros w Hi Hc. cbn [copy_loop]. unfold observe.
  destruct (fault faults (tick w)) as [e|] eqn:Ef; [split; [done|by exists (tick w), e]|]. destruct (Hsrc _ Hi) as (f & Hfile & Hcf).
  unfold file_of. rewrite Hfile. cbn [result_bind]. rewrite Hcf.
  set (n := Nat.min COPY_BUFFER_BYTES (S (chunk faults (tick w)))). assert (0 < n)%nat as Hn.
  { unfold n. apply Nat.min_glb_lt; [|lia]. unfold COPY_BUFFER_BYTES. lia. }
  assert (length copied <= length database)%nat as Hle by (rewrite Hp, length_take; lia).
  set (buffer := take n (drop (length copied) database)). destruct buffer as [|b rest] eqn:Eb.
  - assert (length buffer = 0%nat) as Hz by (by rewrite Eb). unfold buffer in Hz. rewrite length_take, length_drop in Hz.
    assert (copied = database) as Hcd by (rewrite Hp; apply take_ge; lia). cbn. by rewrite Hcd in Hc |- *.
  - rewrite <- Eb. pose proof (copy_prefix copied n Hp) as Hp'. cbn zeta in Hp'. fold buffer in Hp'.
    assert (length (copied ++ buffer) <= length database)%nat as Hle' by (rewrite Hp', length_take; lia).
    destruct evidence_database as [He _]. rewrite (proj2 (Z.ltb_ge _ _)) by (rewrite He; unfold blen; lia).
    refine (run_spec_bind _ _ _ _ _ (spec_copy_write st copied buffer) (fun _ => IH (copied ++ buffer) Hp' _) {| root := root w; tick := S (tick w) |} Hi Hc).
    rewrite length_app, Eb in Hle' |- *. cbn [length] in Hle' |- *. lia.
Qed.

(** ** Publishing it *)

Definition copied_durably (st : nat) (r : Root) : Prop := copying st database r /\ (exists f, inodes r !! st = Some f /\ f_synced f = true).
Lemma spec_fill src st :
  (forall r, inv r -> exists f, inodes r !! src = Some f /\ f_content f = database) ->
  spec (copying st []) (fill_staging faults src st (S (S (Z.to_nat (e_length source)))) source) (fun _ => copied_durably st).
Proof.
  intros Hsrc. destruct evidence_database as [Hel Hes]. unfold fill_staging. apply (run_spec_bind _ _ (fun out r => out = database /\ copying st database r)).
  { apply spec_copy_loop; [done..|]. cbn [length]. rewrite Hel. unfold blen. lia. }
  intros copied. apply (run_spec_bind _ _ (fun _ => copying st database)).
  { apply spec_require. intros r _ [-> Hc]. split; [|done]. by rewrite Hel, Hes, Z.eqb_refl, bool_decide_eq_true_2. }
  intros _. apply (run_spec_bind _ _ (fun _ => copied_durably st)).
  { apply (spec_sync_file STAGING_NAME st); [apply ours_in|]. intros r Hi [Hs Hdur]. pose proof Hs as (Ha & Hst & Hsn & f & Hf & Ho & Hc).
    split_and!; [done|by rewrite Hsn|]. intros g Hg. simplify_eq. split.
    - split; [|done]. rewrite <- Hc. by apply (staged_touch st database r (with_content f (f_content f) true)).
    - root_simpl. exists (with_content f (f_content f) true). by rewrite lookup_insert_eq. }
  intros _. apply spec_observe. intros r Hi Hd. exists tt. split; [|done]. destruct Hd as [[(Ha & Hst & Hsn & f & Hf & Ho & Hc) _] _].
  unfold file_of. rewrite Hf. cbn [result_bind]. unfold validate_snapshot_file, inspect_internal_file. rewrite owned_inspect by (done || by eapply inv_mounted).
  cbn [result_bind]. rewrite (our_links r0 source Hcl r STAGING_NAME st f Hi (or_introl eq_refl) Hst Hf), Hst, Hsn.
  rewrite (bool_decide_eq_false_2 (_ /\ _)) by (by intros [_ [? ?]]). rewrite Hc, Hel, Z.eqb_refl, bool_decide_eq_true_2 by done. cbn [andb result_bind].
  rewrite (source_at r Hi). cbn [result_bind]. by rewrite bool_decide_eq_true_2.
Qed.

Definition has_snapshot (r : Root) : Prop := at_intent record r /\ dir r !! STAGING_NAME = None /\ is_Some (dir r !! SNAPSHOT_NAME).
Definition published (r : Root) : Prop := at_intent record r /\ is_Some (dir r !! STAGING_NAME) /\ is_Some (dir r !! SNAPSHOT_NAME).
Lemma at_intent_name n i r : n <> INTENT_NAME -> at_intent record r -> at_intent record (with_dir r (<[n := i]> (dir r))).
Proof. intros Hn (j & f & Hd & Hf & Hc). exists j, f. root_simpl. by rewrite lookup_insert_ne. Qed.
Lemma at_intent_unlink r : at_intent record r -> at_intent record (with_dir r (delete STAGING_NAME (dir r))).
Proof. intros (j & f & Hd & Hf & Hc). exists j, f. root_simpl. by rewrite lookup_delete_ne by ne. Qed.
Lemma at_intent_some r : at_intent record r -> is_Some (dir r !! INTENT_NAME).
Proof. intros (j & f & Hd & _). eauto. Qed.
Lemma spec_unlink (P Q : Root -> Prop) :
  (forall r, inv r -> P r -> at_intent record r /\ is_Some (dir r !! STAGING_NAME) /\ Q (with_dir r (delete STAGING_NAME (dir r)))) ->
  spec P (unlink faults STAGING_NAME Io) (fun _ => Q).
Proof.
  intros HP. apply spec_change. intros r Hi Hp. destruct (HP r Hi Hp) as (Ha & [i Hd] & HQ). rewrite Hd. eexists _, _. split; [done|]. split; [|done].
  apply unlink_inv; [done|]. by apply at_intent_some.
Qed.
Lemma snapshot_checked r i : inv r -> dir r !! STAGING_NAME = None -> dir r !! SNAPSHOT_NAME = Some i ->
  exists f, open_existing r SNAPSHOT_NAME = Ok (i, f) /\ validate_snapshot_file r i f (Some (e_length source)) 1 = Ok tt /\ f_content f = database.
Proof.
  intros Hi Hst Hsn. destruct (our_file r0 r SNAPSHOT_NAME i Hi (proj2 (proj2 ours_in)) Hsn) as (f & Hf & Ho & Hopen).
  destruct (inv_snapshot _ r Hi i Hsn) as [(g & Hg & Hcg & _) _]. simplify_eq. exists f. split_and!; [done| |done].
  unfold validate_snapshot_file, inspect_internal_file. rewrite owned_inspect by (done || by eapply inv_mounted). cbn [result_bind].
  rewrite (our_links r0 source Hcl r SNAPSHOT_NAME i f Hi (or_intror eq_refl) Hsn Hf), Hst, Hsn.
  rewrite (bool_decide_eq_false_2 (_ /\ _)) by (by intros [[? ?] _]). by rewrite Hcg, (proj1 evidence_database), Z.eqb_refl, bool_decide_eq_true_2.
Qed.
Lemma spec_validate : spec has_snapshot (validate_migration_snapshot faults source record) (fun _ => has_snapshot).
Proof.
  apply spec_observe. intros r Hi Hs. exists tt. split; [|done]. destruct Hs as (Ha & Hst & [i Hsn]). destruct evidence_database as [Hel Hes].
  rewrite (same_at r (IntentWithSnapshot record) Hi Ha) by (unfold state_of; by rewrite Hst, Hsn). cbn [result_bind negb].
  destruct (snapshot_checked r i Hi Hst Hsn) as (f & -> & Hv & Hc). cbn [result_bind]. rewrite Hv. cbn [result_bind].
  unfold evidence_for_open_file. cbn [e_length e_sha256]. by rewrite Hc, Hel, Hes, Z.eqb_refl, bool_decide_eq_true_2.
Qed.
Lemma spec_publish st : spec (copied_durably st) (publish_staging faults st source record) (fun _ => has_snapshot).
Proof.
  unfold publish_staging. apply (run_spec_bind _ _ (fun _ => published)).
  { apply spec_change. intros r Hi [[(Ha & Hst & Hsn & f & Hf & Ho & Hc) Hdur] (g & Hg & Hsy)]. simplify_eq. rewrite Hst, Hsn. eexists _, _. split; [done|].
    assert (at_intent record (with_dir r (<[SNAPSHOT_NAME := st]> (dir r)))) as Ha' by (apply at_intent_name; [ne|done]). split.
    - destruct (inv_owned _ r Hi STAGING_NAME st (proj1 (proj2 ours_in)) (or_introl Hst)) as [Hnone _].
      apply (name_inv r0 r SNAPSHOT_NAME st Hi (proj2 (proj2 ours_in))); try done; [by exists f|..].
      + intros _. split; [by apply at_intent_some|]. apply (inv_apart _ r Hi STAGING_NAME st); [by left|by left].
      + intros _. split; [by exists f|]. intros j [Hj|Hj]; congruence.
    - split; [done|]. root_simpl. rewrite lookup_insert_ne, lookup_insert_eq, Hst by ne. split; eauto. }
  intros _. apply (run_spec_bind _ _ (fun _ => published)); [apply spec_sync_root; intros r Hi Hp; exact Hp|].
  intros _. apply (run_spec_bind _ _ (fun _ => published)).
  { apply spec_observe. intros r Hi Hp. exists tt. split; [|done]. destruct Hp as (Ha & [i Hst] & [j Hsn]). rewrite (classify_at r Hi Ha). cbn [result_bind].
    unfold state_of. rewrite Hst, Hsn. by rewrite bool_decide_eq_true_2. }
  intros _. apply (run_spec_bind _ _ (fun _ => has_snapshot)).
  { apply spec_unlink. intros r Hi (Ha & Hst & Hsn). split_and!; [done..|]. split; [by apply at_intent_unlink|]. root_simpl.
    by rewrite lookup_delete_eq, lookup_delete_ne by ne. }
  intros _. apply (run_spec_bind _ _ (fun _ => has_snapshot)); [apply spec_sync_root; intros r Hi Hp; exact Hp|]. intros _. apply spec_validate.
Qed.

(** ** The steps of a run *)

Definition intent_only (r : Root) : Prop := at_intent record r /\ dir r !! STAGING_NAME = None /\ dir r !! SNAPSHOT_NAME = None.
Lemma spec_create_staging stamp : spec intent_only (create_exclusive faults STAGING_NAME stamp) (fun st => staged st []).
Proof.
  intros w Hi Hp. assert (spec intent_only (create_exclusive faults STAGING_NAME stamp) (fun i r' => exists r, intent_only r /\ inv r /\ i = fresh (dom (inodes r)) /\
    r' = with_inodes (with_dir r (<[STAGING_NAME := i]> (dir r))) (<[i := new_file (owner_uid r) stamp]> (inodes r)))) as Hs.
  { apply spec_create; [by right|]. intros r _ (Ha & Hst & Hsn). split; [done|]. intros _. split; [by apply at_intent_some|done]. }
  specialize (Hs w Hi Hp). destruct (create_exclusive faults STAGING_NAME stamp w) as [[st|] w']; [|done]. destruct Hs as [Hi' (r & (Ha & Hst & Hsn) & Hr & -> & Hw')].
  split; [done|]. rewrite Hw'. destruct (fresh_inode r _ Hr eq_refl) as [Hf _]. unfold staged, at_intent. root_simpl. split_and!.
  - destruct Ha as (j & f & Hd & Hfj & Hc). exists j, f. rewrite lookup_insert_ne by ne. rewrite lookup_insert_ne by congruence. done.
  - by rewrite lookup_insert_eq.
  - by rewrite lookup_insert_ne by ne.
  - exists (new_file (owner_uid r) stamp). by rewrite lookup_insert_eq.
Qed.
Lemma spec_create_and_publish stamp : spec intent_only (create_and_publish_migration_snapshot faults stamp source record) (fun _ => has_snapshot).
Proof.
  destruct (canonical_there r0 source Hcl) as (ci & cf & Hcd & Hcf & Hopen & Hv & He & Hdb). unfold create_and_publish_migration_snapshot.
  apply (run_spec_bind _ _ (fun src r => src = ci /\ intent_only r)).
  { apply spec_observe. intros r Hi Hp. exists ci. split; [|done]. destruct Hp as (Ha & Hst & Hsn).
    rewrite (same_at r (IntentOnly record) Hi Ha) by (unfold state_of; by rewrite Hst, Hsn). cbn [result_bind negb].
    pose proof (source_at r Hi) as Hsrc. unfold inspect_source_file in Hsrc. rewrite (inv_open_existing r0 source Hcl r CANONICAL Hi (proj1 base_not_ours) (ex_intro _ ci Hcd)), Hopen in Hsrc |- *.
    cbn [result_bind] in Hsrc |- *. destruct (validate_source_file r ci cf); [|done]. cbn [result_bind] in Hsrc |- *. injection Hsrc as Hsrc.
    unfold stat_matches_evidence. rewrite <- Hsrc. cbn. by rewrite !Z.eqb_refl, !bool_decide_eq_true_2. }
  intros src. apply (spec_pre _ (fun r => src = ci /\ intent_only r)); [done|]. intros w Hi [-> Hp]. revert w Hi Hp.
  apply (run_spec_bind _ _ (fun st => staged st [])); [apply spec_create_staging|]. intros st. apply (run_spec_bind _ _ (fun _ => staged st [])).
  { apply spec_observe. intros r Hi Hs. exists tt. split; [|done]. destruct Hs as (_ & _ & _ & f & Hf & Ho & Hc). unfold file_of. rewrite Hf. cbn [result_bind].
    rewrite owned_inspect; [done|by eapply inv_mounted|done|]. cbn. by rewrite Hc. }
  intros _. apply (run_spec_bind _ _ (fun _ => copying st [])).
  { apply spec_sync_root. intros r Hi Hs. split; [done|]. root_simpl. by destruct Hs as (_ & Hst & _). }
  intros _. apply (run_spec_bind _ _ (fun _ => copied_durably st)); [|intros _; apply spec_publish].
  apply spec_fill. intros r Hi. exists cf. split; [by apply (inv_files _ r Hi)|done].
Qed.
Lemma spec_unlink_between before after (P Q : Root -> Prop) :
  (forall r, inv r -> P r -> at_intent record r /\ is_Some (dir r !! STAGING_NAME) /\ state_of r record = before /\ Q (with_dir r (delete STAGING_NAME (dir r)))) ->
  (forall r, Q r -> at_intent record r /\ state_of r record = after) -> (forall r, Q r -> Q (with_durable r (dir r))) ->
  spec P (unlink_staging_between faults before after) (fun _ => Q).
Proof.
  intros HP HQ Hsync. unfold unlink_staging_between. apply (run_spec_bind _ _ (fun _ => P)).
  { apply spec_observe. intros r Hi Hp. exists tt. split; [|done]. destruct (HP r Hi Hp) as (Ha & _ & Hb & _). rewrite (classify_at r Hi Ha). cbn [result_bind].
    by rewrite Hb, bool_decide_eq_true_2. }
  intros _. apply (run_spec_bind _ _ (fun _ => Q)).
  { apply spec_unlink. intros r Hi Hp. destruct (HP r Hi Hp) as (? & ? & _ & ?). done. }
  intros _. apply (run_spec_bind _ _ (fun _ => Q)); [apply spec_sync_root; auto|]. intros _. apply spec_observe. intros r Hi Hq. exists tt. split; [|done].
  destruct (HQ r Hq) as [Ha Hs]. rewrite (classify_at r Hi Ha). cbn [result_bind]. by rewrite Hs, bool_decide_eq_true_2.
Qed.
Definition has_staging (r : Root) : Prop := at_intent record r /\ is_Some (dir r !! STAGING_NAME) /\ dir r !! SNAPSHOT_NAME = None.
Lemma spec_discard : spec has_staging (discard_owned_migration_snapshot_staging faults record) (fun _ => intent_only).
Proof.
  apply spec_unlink_between; [|intros r (Ha & Hst & Hsn); split; [done|]; unfold state_of; by rewrite Hst, Hsn|done].
  intros r Hi (Ha & [i Hst] & Hsn). split_and!; [done|eauto|unfold state_of; by rewrite Hst, Hsn|]. split; [by apply at_intent_unlink|]. root_simpl.
  by rewrite lookup_delete_eq, lookup_delete_ne by ne.
Qed.
Lemma spec_finish : spec published (finish_published_migration_snapshot faults record) (fun _ => has_snapshot).
Proof.
  apply spec_unlink_between; [|intros r (Ha & Hst & [j Hsn]); split; [done|]; unfold state_of; by rewrite Hst, Hsn|done].
  intros r Hi (Ha & [i Hst] & [j Hsn]). split_and!; [done|eauto|unfold state_of; by rewrite Hst, Hsn|]. split; [by apply at_intent_unlink|]. root_simpl.
  rewrite lookup_delete_eq, lookup_delete_ne by ne. eauto.
Qed.
Lemma spec_manifest : spec has_snapshot (validate_migration_snapshot_manifest faults (e_length source) (e_sha256 source) record) (fun _ => has_snapshot).
Proof.
  apply spec_observe. intros r Hi Hs. exists tt. split; [|done]. destruct Hs as (Ha & Hst & [i Hsn]). destruct evidence_database as [Hel Hes].
  rewrite (classify_at r Hi Ha). cbn [result_bind]. unfold state_of. rewrite Hst, Hsn, (bool_decide_eq_true_2 (record = record)) by done. cbn [negb].
  destruct (snapshot_checked r i Hi Hst Hsn) as (f & -> & Hv & Hc). cbn [result_bind]. rewrite Hv. cbn [result_bind].
  unfold evidence_for_open_file. cbn [e_length e_sha256]. by rewrite Hc, Hel, Hes, Z.eqb_refl, bool_decide_eq_true_2.
Qed.
End runs.
End MigrationRuns.
