(* ===== verification/MigrationRecovery.v ===== *)
(** The snapshot before a migration, over any history of interrupted runs and crashes. *)
From Stdlib Require Import ZArith Lia String.
From Stdlib Require Import Strings.Byte Init.Byte.
From stdpp Require Import prelude list gmap.
From S2P Require Import Prelude RustText Ord Types AssetDomain CreativeDomain Ports CommandLedger CreativeStore StoreScenario AssetStore AssetScenario StartupRecovery AppRuntime AssetQuery AssetListing AssetInspect AssetCursors CursorFacts Intents RootFs MigrationSnapshot MigrationFacts MigrationRuns.

Set Warnings "-clear-no-such-hyp".

Module MigrationRecovery.
Import Ports Runtime Intents RootFs MigrationSnapshot MigrationFacts MigrationRuns.

(** What the Rust types guarantee of what a run takes from outside. *)
Definition typed_outside `{StoreEnv} (out : Outside) : Prop :=
  (forall a, attempt_id out = Some a -> length a = 16%nat /\ id_valid a = true) /\
  (forall t, now out = Some t -> is_i64 t.1 /\ is_u32 t.2 /\ timestamp_valid t.1 t.2 = true).
(** The identity source, the clock and the volume have what the run needs. *)
Definition resourceful (out : Outside) (capacity : CreativeMigrationCapacity) : Prop :=
  is_Some (attempt_id out) /\ is_Some (now out) /\
  exists available total, volume out = Ok (available, total) /\
    verify_creative_migration_capacity capacity (min_free_percent out) (min_free_bytes out) available total = Ok tt.
Definition faultless (out : Outside) : Prop := forall t, fault (faults out) t = None.

Section recovery.
Context `{StoreEnv} `{!StoreEnvLaws H} (r0 : Root) (source : MigrationSourceEvidence) (Hcl : closed_library r0 source).
Context (metadata : OpenedLibraryMetadata) (prefix_digest : list byte) (capacity : CreativeMigrationCapacity).
Context (Hcap : source_length capacity = e_length source).

(** What the Rust types guarantee of the library. *)
Definition typed_library : Prop :=
  length (om_library_id metadata) = 16%nat /\ id_valid (om_library_id metadata) = true /\ length prefix_digest = 32%nat /\
  is_u64 (root_device r0) /\ is_u64 (root_inode r0) /\ is_u64 (Z.of_nat (e_inode source)) /\ is_u64 (e_length source).
Context (Hty : typed_library).

Definition validated (record : list byte) : result StoreError MigrationIntent :=
  validate_migration_intent record (root_identity r0) metadata prefix_digest (Some source).
Definition accepted (record : list byte) : Prop := blen record = RECORD_LENGTH /\ is_ok (validated record) = true.

Lemma source_fields : e_device source = root_device r0 /\ length (e_sha256 source) = 32%nat.
Proof. destruct (canonical_there r0 source Hcl) as (i & f & _ & _ & _ & _ & -> & _). split; [done|]. apply sha256_length. Qed.
Lemma identity_kept r : inv r0 r -> root_identity r = root_identity r0.
Proof. intros Hi. destruct (inv_place _ r Hi) as (Hd & Hn & _). unfold root_identity. by rewrite Hd, Hn. Qed.

(** A new intent is accepted when it is read back. *)
Lemma new_accepted out r intent : inv r0 r -> typed_outside out -> new_intent out metadata prefix_digest r source = Ok intent ->
  accepted (migration_encode intent) /\ validated (migration_encode intent) = Ok intent.
Proof.
  intros Hi [Ha Ht] Hn. unfold new_intent in Hn. inv_result. destruct (attempt_id out) as [a|]; [|done]. destruct (now out) as [t|]; [|done]. simplify_eq/=.
  destruct (Ha _ eq_refl), (Ht _ eq_refl) as (? & ? & ?). destruct Hty as (? & ? & ? & ? & ? & ? & ?), source_fields as [Hdev ?].
  destruct (inv_place _ r Hi) as (Hd & Hr & _). set (intent := {| mi_attempt_id := _ |}).
  assert (migration_good intent) as Hg by (unfold migration_good, intent; cbn; rewrite ?Hd, ?Hr, ?Hdev; done).
  assert (validated (migration_encode intent) = Ok intent) as Hv.
  { unfold validated, validate_migration_intent. rewrite IntentFacts.migration_decode_encode by done. cbn [result_bind]. unfold intent, root_identity. cbn.
    rewrite Hd, Hr, Hdev, !bool_decide_eq_true_2 by done. done. }
  split; [|done]. split; [|by rewrite Hv]. unfold blen. rewrite IntentFacts.migration_encode_layout, length_app, sha256_length, IntentFacts.migration_layout_length by done. done.
Qed.
Lemma accepted_fields record intent : validated record = Ok intent -> mi_source_length intent = e_length source /\ mi_source_sha256 intent = e_sha256 source.
Proof. unfold validated, validate_migration_intent. intros Hv. inv_result. bool_hyps. by simplify_eq. Qed.

(** ** A run *)

Section run.
Context (out : Outside) (Hout : typed_outside out).
Definition sspec {A} (P : Root -> Prop) (m : S' A) (Q : A -> Root -> Prop) : Prop :=
  forall w, inv r0 (root w) -> P (root w) ->
    match m w with
    | (Ok a, w') => inv r0 (root w') /\ Q a (root w')
    | (Err _, w') => inv r0 (root w') /\ (faulty (faults out) \/ ~ resourceful out capacity)
    end.
Lemma sspec_bind {A B} P (m : S' A) Q (k : A -> S' B) R : sspec P m Q -> (forall a, sspec (Q a) (k a) R) -> sspec P (m ≫= k) R.
Proof.
  intros Hm Hk w Hi HP. specialize (Hm w Hi HP). unfold mbind, S_bind. destruct (m w) as [[a|e] w']; [|done]. destruct Hm as [Hi' HQ]. by apply Hk.
Qed.
Lemma sspec_authority {A} P (m : M A) Q : spec r0 (faults out) P m Q -> sspec P (authority m) Q.
Proof. intros Hm w Hi HP. specialize (Hm w Hi HP). unfold authority. destruct (m w) as [[a|e] w']; [done|]. destruct Hm. auto. Qed.
Lemma sspec_store {A} (P : Root -> Prop) (x : Root -> result StoreError A) Q :
  (forall r, inv r0 r -> P r -> match x r with Ok a => Q a r | Err _ => ~ resourceful out capacity end) -> sspec P (fun w => store (x (root w)) w) Q.
Proof. intros Hx w Hi HP. specialize (Hx _ Hi HP). unfold store. destruct (x (root w)); auto. Qed.

Lemma sspec_pure {A} (C : Prop) P (m : S' A) Q : (C -> sspec P m Q) -> sspec (fun r => C /\ P r) m Q.
Proof. intros Hm w Hi [HC HP]. by apply Hm. Qed.

(** There is no intent yet, or the intent is this one. *)
Definition begun (state : option MigrationFilesystemState) (r : Root) : Prop :=
  match state with
  | None => dir r !! INTENT_NAME = None
  | Some s => exists record, accepted record /\ at_intent record r /\ s = state_of r record
  end.
Definition startable (r : Root) : Prop := dir r !! INTENT_NAME = None \/ exists record, accepted record /\ at_intent record r.
Lemma state_record r record : intent_record (state_of r record) = record.
Proof. unfold state_of. by destruct (dir r !! STAGING_NAME), (dir r !! SNAPSHOT_NAME). Qed.
Lemma begun_state r : inv r0 r -> startable r -> exists state, migration_filesystem_state r = Ok state /\ begun state r.
Proof.
  intros Hi [Hd|(record & Ha & Hat)].
  - exists None. rewrite (classify r0 source Hcl r Hi), Hd. done.
  - exists (Some (state_of r record)). rewrite (classify_at r0 source Hcl record (proj1 Ha) r Hi Hat). split; [done|]. by exists record.
Qed.

Lemma sspec_durable_record state : sspec (begun state) (durable_record out metadata prefix_digest state source)
  (fun record r => accepted record /\ at_intent record r).
Proof.
  unfold durable_record. destruct state as [s|].
  - intros w Hi (record & Ha & Hat & ->). cbn. rewrite state_record. done.
  - apply (sspec_bind _ _ (fun intent r => accepted (migration_encode intent) /\ dir r !! INTENT_NAME = None)).
    { apply (sspec_store _ (fun r => new_intent out metadata prefix_digest r source)). intros r Hi Hd. destruct (new_intent out metadata prefix_digest r source) as [intent|e] eqn:En.
      - split; [|done]. by apply (new_accepted out r intent Hi Hout En).
      - intros ([a Ha] & [t Ht] & _). unfold new_intent in En. rewrite Ha, Ht in En. done. }
    intros intent. apply sspec_pure. intros Ha. apply (sspec_bind _ _ (fun _ => at_intent (migration_encode intent))).
    + apply sspec_authority. intros w Hi Hd. pose proof (spec_create_intent r0 source Hcl (faults out) _ (proj1 Ha) (intent_stamp out) w Hi Hd) as Hs.
      destruct (create_durable_migration_intent _ _ _ _ w) as [[u|e] w']; [|done]. destruct Hs as [? (? & _)]. done.
    + intros _ w Hi Hat. done.
Qed.
Lemma sspec_resume record : accepted record -> sspec (at_intent record) (resume_snapshot out source record) (fun _ => has_snapshot record).
Proof.
  intros Ha. unfold resume_snapshot. apply (sspec_bind _ _ (fun state r => at_intent record r /\ state = Some (state_of r record))).
  { apply sspec_authority, spec_observe. intros r Hi Hat. eexists. split; [by apply (classify_at r0 source Hcl record (proj1 Ha))|done]. }
  intros state w Hi [Hat ->]. assert (startable (root w)) as _ by (right; eauto). unfold state_of.
  destruct (dir (root w) !! STAGING_NAME) as [i|] eqn:Est, (dir (root w) !! SNAPSHOT_NAME) as [j|] eqn:Esn; rewrite bool_decide_eq_true_2 by done.
  - apply (sspec_authority _ _ _ (spec_finish r0 source Hcl (faults out) record (proj1 Ha)) w Hi). split; [done|]. rewrite Est, Esn. eauto.
  - apply (sspec_bind _ _ _ _ _ (sspec_authority _ _ _ (spec_discard r0 source Hcl (faults out) record (proj1 Ha)))
      (fun _ => sspec_authority _ _ _ (spec_create_and_publish r0 source Hcl (faults out) record (proj1 Ha) (staging_stamp out))) w Hi).
    split; [done|]. rewrite Est, Esn. eauto.
  - cbn. split; [done|]. split; [done|]. rewrite Est, Esn. eauto.
  - apply (sspec_authority _ _ _ (spec_create_and_publish r0 source Hcl (faults out) record (proj1 Ha) (staging_stamp out)) w Hi). done.
Qed.
Lemma sspec_prepare : sspec startable (prepare_migration_snapshot out metadata prefix_digest 2 (Some capacity))
  (fun intent r => exists record, accepted record /\ validated record = Ok intent /\ has_snapshot record r).
Proof.
  unfold prepare_migration_snapshot. apply (sspec_bind _ _ begun); [apply sspec_authority, spec_observe; intros r Hi Hs; by apply begun_state|].
  intros state. change (2 =? 3) with false. change (negb (2 =? 2)) with false. cbv iota.
  apply (sspec_bind _ _ (fun found r => found = source /\ begun state r)).
  { apply sspec_authority, spec_observe. intros r Hi Hb. exists source. split; [|done]. unfold inspect_source. rewrite (source_at r0 source Hcl r Hi).
    destruct state as [s|]; [destruct Hb as (record & Ha & Hat & _); by rewrite (closed_at r0 source Hcl record (proj1 Ha) r Hi Hat)|by rewrite (closed_none r0 source Hcl r Hi Hb)]. }
  intros found. apply sspec_pure. intros ->. apply (sspec_bind _ _ (fun _ => begun state)).
  { apply (sspec_store _ (fun _ => if bool_decide (source_length <$> Some capacity = Some (e_length source)) then Ok tt else Err StCorruption)). intros r Hi Hb. by rewrite bool_decide_eq_true_2 by (cbn; by rewrite Hcap). }
  intros _. apply (sspec_bind _ _ _ _ _ (sspec_durable_record state)). intros record. apply sspec_pure. intros Ha.
  apply (sspec_bind _ _ (fun intent r => validated record = Ok intent /\ at_intent record r)).
  { apply (sspec_store _ (fun r => validate_migration_intent record (root_identity r) metadata prefix_digest (Some source))). intros r Hi Hat. rewrite (identity_kept r Hi). fold (validated record). destruct Ha as [_ Hv]. by destruct (validated record). }
  intros intent. apply sspec_pure. intros Hv. destruct (accepted_fields record intent Hv) as [-> ->].
  apply (sspec_bind _ _ (fun p r => volume out = Ok p /\ at_intent record r)).
  { intros w Hi Hat. unfold authority, observe. destruct (fault (faults out) (tick w)) as [e|] eqn:Ef; [split; [done|left; by exists (tick w), e]|].
    destruct (volume out) as [[available total]|e] eqn:Ev; [done|]. split; [done|]. right. intros (_ & _ & available & total & Hvol & _). congruence. }
  intros [available total]. apply sspec_pure. intros Hvol. apply (sspec_bind _ _ (fun _ => at_intent record)).
  { apply (sspec_store _ (fun _ => let? capacity := ok_or StCorruption (Some capacity) in
      verify_creative_migration_capacity capacity (min_free_percent out) (min_free_bytes out) available total)). intros r Hi Hat. cbn [ok_or result_bind].
    destruct (verify_creative_migration_capacity _ _ _ _ _) as [u|e] eqn:Ev; [done|]. intros (_ & _ & a' & t' & Hvol' & Hok). congruence. }
  intros _. apply (sspec_bind _ _ (fun _ => has_snapshot record)); [by apply sspec_resume|]. intros _.
  apply (sspec_bind _ _ (fun _ => has_snapshot record)); [apply sspec_authority, spec_manifest; [done|apply Ha]|]. intros _ w Hi Hs. split; [done|]. by exists record.
Qed.

(** An intent that is not accepted is refused, and nothing is touched. *)
Lemma refused_untouched w i f : inv r0 (root w) -> dir (root w) !! INTENT_NAME = Some i -> inodes (root w) !! i = Some f -> ~ accepted (f_content f) ->
  exists e t, prepare_migration_snapshot out metadata prefix_digest 2 (Some capacity) w = (Err e, {| root := root w; tick := t |}).
Proof.
  intros Hi Hd Hf Hn. unfold prepare_migration_snapshot, mbind, S_bind, authority, observe. cbn [root tick].
  destruct (fault (faults out) (tick w)); [eauto|]. rewrite (classify r0 source Hcl _ Hi), Hd, Hf. destruct (blen (f_content f) =? RECORD_LENGTH) eqn:Eb; [|eauto].
  change (2 =? 3) with false. change (negb (2 =? 2)) with false. cbv iota beta. cbn [root tick].
  destruct (fault (faults out) (S (tick w))); [eauto|]. destruct (inspect_source (root w)) as [found|] eqn:Es; [|eauto]. unfold store at 1.
  case_bool_decide as Ec; [|eauto]. cbn [durable_record]. unfold mret, S_ret. rewrite state_record. unfold store at 1. cbn [root].
  destruct (validate_migration_intent _ _ _ _ (Some found)) as [intent|] eqn:Ev; [|eauto]. exfalso. apply Hn. split; [by apply Z.eqb_eq|].
  unfold inspect_source in Es. apply result_bind_ok in Es as (_ & _ & Es). rewrite (source_at r0 source Hcl _ Hi) in Es. injection Es as <-.
  rewrite (identity_kept _ Hi) in Ev. unfold validated. by rewrite Ev.
Qed.
End run.

(** ** Histories *)

Definition run (out : Outside) (r : Root) : result StoreError MigrationIntent * World :=
  prepare_migration_snapshot out metadata prefix_digest 2 (Some capacity) {| root := r; tick := 0 |}.
Inductive reached : Root -> Prop :=
| reached_start : reached r0
| reached_run out r : reached r -> typed_outside out -> reached (root (run out r).2)
| reached_crash r r' : reached r -> intent_durable r \/ intent_alone r -> crashed r r' -> reached r'.

#[local] Instance accepted_dec record : Decision (accepted record).
Proof. unfold accepted. apply _. Defined.
Lemma startable_dec r : inv r0 r -> startable r \/ exists i f, dir r !! INTENT_NAME = Some i /\ inodes r !! i = Some f /\ ~ accepted (f_content f).
Proof.
  intros Hi. destruct (dir r !! INTENT_NAME) as [i|] eqn:Ed; [|by left; left]. destruct (our_file r0 r INTENT_NAME i Hi (proj1 ours_in) Ed) as (f & Hf & _).
  destruct (decide (accepted (f_content f))) as [Ha|Hn]; [left; right; exists (f_content f); split; [done|by exists i, f]|right; by exists i, f].
Qed.
Lemma run_inv out r : inv r0 r -> typed_outside out -> inv r0 (root (run out r).2).
Proof.
  intros Hi Ho. unfold run. destruct (startable_dec r Hi) as [Hs|(i & f & Hd & Hf & Hn)].
  - pose proof (sspec_prepare out Ho {| root := r; tick := 0 |} Hi Hs) as Hr. destruct (prepare_migration_snapshot _ _ _ _ _ _) as [[?|?] w]; cbn; apply Hr.
  - destruct (refused_untouched out {| root := r; tick := 0 |} i f Hi Hd Hf Hn) as (e & t & ->). done.
Qed.
Lemma reached_inv r : reached r -> inv r0 r.
Proof. induction 1; [by eapply closed_inv|by apply run_inv|by eapply crashed_inv]. Qed.
Lemma startable_content r i f : startable r -> dir r !! INTENT_NAME = Some i -> inodes r !! i = Some f -> accepted (f_content f).
Proof. intros [Hd|(record & Ha & (j & g & Hd & Hf & Hc))] Hi Hg; [congruence|]. by simplify_eq. Qed.
End recovery.

(** C24: the snapshot of the database that precedes the destructive migration survives every
    history of runs that are interrupted at any step by any failure, with any part of a
    write done, and of crashes of the system while the intent is durable or stands alone
    - a crash keeps of each name the current or the durable entry and leaves in a file
    that was not synchronized any content at all.  In every state that such a history
    reaches the files of the library are untouched and a published snapshot is exactly
    the database.  From there, a run that meets no failure and has the identities, the
    clock and the space it needs completes the protocol, unless an intent record is there
    that is not accepted, and then it is refused and nothing is touched; a run that
    succeeds leaves the accepted record of the intent that it returns, the snapshot with
    the content of the database under its final name alone, and no staging file. *)
Theorem migration_snapshot_survives_interruptions `{StoreEnv} `{!StoreEnvLaws H} r0 source metadata prefix_digest capacity :
  closed_library r0 source -> source_length capacity = e_length source -> typed_library r0 source metadata prefix_digest ->
  forall r, reached r0 metadata prefix_digest capacity r ->
    (forall i f, inodes r0 !! i = Some f -> inodes r !! i = Some f) /\
    (forall i, dir r !! SNAPSHOT_NAME = Some i -> exists f, inodes r !! i = Some f /\ f_content f = database r0) /\
    forall out, typed_outside out ->
      let '(result, w) := run metadata prefix_digest capacity out r in
      (startable r0 source metadata prefix_digest r -> faultless out -> resourceful out capacity -> exists intent, result = Ok intent) /\
      (~ startable r0 source metadata prefix_digest r -> (exists e, result = Err e) /\ root w = r) /\
      (forall intent, result = Ok intent -> exists record i f,
         at_intent record (root w) /\ validated r0 source metadata prefix_digest record = Ok intent /\
         dir (root w) !! STAGING_NAME = None /\ dir (root w) !! SNAPSHOT_NAME = Some i /\ inodes (root w) !! i = Some f /\
         f_content f = database r0 /\ nlink (root w) i = 1%nat).
Proof.
  intros Hcl Hcap Hty r Hr. pose proof (reached_inv r0 source Hcl metadata prefix_digest capacity Hcap Hty r Hr) as Hi. split_and!.
  - apply (inv_files _ r Hi).
  - intros i Hs. destruct (inv_snapshot _ r Hi i Hs) as [(f & Hf & Hc & _) _]. eauto.
  - intros out Hout. destruct (startable_dec r0 source metadata prefix_digest r Hi) as [Hs|(i & f & Hd & Hf & Hn)].
    + pose proof (sspec_prepare r0 source Hcl metadata prefix_digest capacity Hcap Hty out Hout {| root := r; tick := 0 |} Hi Hs) as Hp.
      fold (run metadata prefix_digest capacity out r) in Hp. destruct (run metadata prefix_digest capacity out r) as [[intent|e] w].
      * destruct Hp as [Hi' (record & Ha & Hv & Hat & Hst & [i Hsn])]. split_and!; [eauto|done|]. intros ? [= <-].
        destruct (inv_snapshot _ _ Hi' i Hsn) as [(f & Hf & Hc & _) _]. exists record, i, f. split_and!; try done.
        rewrite (our_links r0 source Hcl (root w) SNAPSHOT_NAME i f Hi' (or_intror eq_refl) Hsn Hf), Hst. by rewrite bool_decide_eq_false_2 by (by intros [[? ?] _]).
      * destruct Hp as [_ [(t & e' & Hft)|Hno]]; (split_and!; [|done|done]); [intros _ Hff; specialize (Hff t); congruence|by intros _ _ ?].
    + destruct (refused_untouched r0 source Hcl metadata prefix_digest capacity out {| root := r; tick := 0 |} i f Hi Hd Hf Hn) as (e & t & Hrun).
      unfold run. rewrite Hrun. split_and!; [|eauto|done]. intros Hs. exfalso. by apply Hn, (startable_content r0 source metadata prefix_digest r i f).
Qed.

(** ** A library, for the witnesses *)

Module Example.
Definition hash (l : list byte) : list byte := take 32 (be_bytes 8 (blen l) ++ l ++ repeat x00 32).
#[local] Instance env : StoreEnv := {|
  id_valid := fun b => bool_decide (length b = 16%nat); timestamp_valid := fun _ nanos => (0 <=? nanos) && (nanos <? 1000000000); sha256 := hash |}.
#[local] Instance env_laws : StoreEnvLaws env.
Proof. split. intros l. change (sha256 l) with (hash l). unfold hash. rewrite length_take, !length_app, be_bytes_length, repeat_length. lia. Qed.

Definition file (content : list byte) : File := {|
  f_type := RegularFile; f_uid := 501; f_mode := 0x180; f_acl := no_acl; f_content := content; f_mtime := (5, 6); f_ctime := (5, 6);
  f_links_elsewhere := 0; f_synced := true |}.
Definition db : list byte := bs "SQLite format 3".
Definition r0 : Root := {|
  dir := <[LOCK := 1%nat]> {[CANONICAL := 2%nat]}; durable := <[LOCK := 1%nat]> {[CANONICAL := 2%nat]};
  inodes := <[1%nat := file []]> {[2%nat := file db]}; root_device := 7; root_inode := 9; owner_uid := 501; mount_flags := MNT_LOCAL; mount_is_apfs := true |}.
Definition source : MigrationSourceEvidence := evidence_for_open_file r0 2 (file db).
Definition metadata : OpenedLibraryMetadata := {| om_library_id := repeat x01 16; om_owner_uid := 501; om_created_at := (1, 2) |}.
Definition prefix : list byte := repeat x02 32.
Definition capacity : CreativeMigrationCapacity := {| source_length := 15; page_size := 4096; commands := 3; events := 4 |}.
Definition outside (broken : nat -> option AuthorityError) : Outside := {|
  faults := {| fault := broken; torn := fun _ => 3%nat; chunk := fun _ => 3%nat |}; intent_stamp := (8, 0); staging_stamp := (9, 0);
  attempt_id := Some (repeat x03 16); now := Some (1700000000, 5); volume := Ok (10 ^ 12, 10 ^ 12); min_free_percent := 5; min_free_bytes := 0 |}.
Definition calm : Outside := outside (fun _ => None).
(** The step that synchronizes the content of the intent fails. *)
Definition killed : Outside := outside (fun t => if bool_decide (t = 6%nat) then Some Io else None).

Lemma closed : closed_library r0 source.
Proof.
  split.
  - done.
  - cbn [dir r0]. rewrite dom_insert, dom_singleton. set_solver.
  - cbn [dir r0]. rewrite lookup_insert_eq. eauto.
  - done.
  - vm_compute. done.
  - vm_compute. by intros [? ?].
  - vm_compute. done.
  - vm_compute. done.
  - intros i f. cbn. rewrite lookup_insert_Some, lookup_singleton_Some. intros [[_ <-]|(_ & _ & <-)]; done.
  - intros n i. cbn [dir r0 inodes]. rewrite lookup_insert_Some, lookup_singleton_Some. intros [[_ <-]|(_ & _ & <-)]; vm_compute; eauto.
Qed.
Lemma typed : typed_library r0 source metadata prefix.
Proof. unfold typed_library, is_u64, U64_MAX. cbn. split_and!; try done. Qed.
Lemma typed_out broken : typed_outside (outside broken).
Proof. split; [intros a [= <-]; done|intros t [= <-]; unfold is_i64, is_u32, U32_MAX; cbn; lia]. Qed.
Lemma resources broken : resourceful (outside broken) capacity.
Proof. split_and!; [vm_compute; eauto..|]. exists (10 ^ 12), (10 ^ 12). split; [done|]. vm_compute. done. Qed.
Definition after_kill : Root := root (run metadata prefix capacity killed r0).2.
Lemma after_kill_reached : reached r0 metadata prefix capacity after_kill.
Proof. apply reached_run; [constructor|apply typed_out]. Qed.

(** The run that was interrupted left a whole record that is not durable; the next run
    takes it as it is. *)
Definition resumed : result StoreError MigrationIntent * World := run metadata prefix capacity calm after_kill.
Definition torn_root : Root :=
  let r := root resumed.2 in
  with_inodes (with_durable r (dir r)) ((fun f => with_content f (if f_synced f then f_content f else []) true) <$> inodes r).
Lemma torn_crashed : crashed (root resumed.2) torn_root.
Proof.
  split.
  - intros n. by left.
  - done.
  - intros i. unfold torn_root. cbn [inodes with_inodes]. rewrite lookup_fmap. destruct (inodes (root resumed.2) !! i) as [f|]; cbn [fmap option_fmap option_map]; [|done].
    split; [done|]. cbn. by intros ->.
  - done.
Qed.
Lemma resumed_ok : is_ok resumed.1 = true.
Proof. vm_compute. done. Qed.
Lemma torn_refused out : is_ok (run metadata prefix capacity out torn_root).1 = false.
Proof.
  assert (migration_filesystem_state torn_root = Err UnsafeConfiguration) as Hc by (vm_compute; reflexivity). unfold run, prepare_migration_snapshot, mbind, S_bind, authority, observe. cbn [root tick].
  destruct (fault (faults out) 0); [done|]. by rewrite Hc.
Qed.
End Example.

Lemma migration_snapshot_survives_interruptions_witness :
  (forall i f, inodes Example.r0 !! i = Some f -> inodes Example.after_kill !! i = Some f) /\
  (forall i, dir Example.after_kill !! SNAPSHOT_NAME = Some i -> exists f, inodes Example.after_kill !! i = Some f /\ f_content f = database Example.r0) /\
  forall out, @typed_outside Example.env out ->
      let '(result, w) := @run Example.env Example.metadata Example.prefix Example.capacity out Example.after_kill in
      (@startable Example.env Example.r0 Example.source Example.metadata Example.prefix Example.after_kill -> faultless out ->
         resourceful out Example.capacity -> exists intent, result = Ok intent) /\
      (~ @startable Example.env Example.r0 Example.source Example.metadata Example.prefix Example.after_kill ->
         (exists e, result = Err e) /\ root w = Example.after_kill) /\
      (forall intent, result = Ok intent -> exists record i f,
         at_intent record (root w) /\ @validated Example.env Example.r0 Example.source Example.metadata Example.prefix record = Ok intent /\
         dir (root w) !! STAGING_NAME = None /\ dir (root w) !! SNAPSHOT_NAME = Some i /\ inodes (root w) !! i = Some f /\
         f_content f = database Example.r0 /\ nlink (root w) i = 1%nat).
Proof.
  pose proof (@migration_snapshot_survives_interruptions Example.env Example.env_laws Example.r0 Example.source Example.metadata Example.prefix Example.capacity
    Example.closed eq_refl Example.typed Example.after_kill Example.after_kill_reached) as Ht. exact Ht.
Defined.

(** C38: a run of the migration snapshot that resumes over an intent of an earlier run does
    not make the intent durable: a run that is stopped between writing the record and
    synchronizing it, the next run, which succeeds and publishes the snapshot, and then a
    crash of the system can leave the snapshot beside an empty intent, and every later run
    is refused. *)
Theorem resumed_migration_intent_may_be_lost :
  exists (env : StoreEnv) (laws : StoreEnvLaws env) r0 source metadata prefix_digest capacity killed calm r',
    closed_library r0 source /\ typed_library r0 source metadata prefix_digest /\ source_length capacity = e_length source /\
    faultless calm /\
    let stopped := root (run metadata prefix_digest capacity killed r0).2 in
    let resumed := run metadata prefix_digest capacity calm stopped in
    is_ok resumed.1 = true /\ crashed (root resumed.2) r' /\
    is_Some (dir r' !! SNAPSHOT_NAME) /\ forall out, is_ok (run metadata prefix_digest capacity out r').1 = false.
Proof.
  exists Example.env, Example.env_laws, Example.r0, Example.source, Example.metadata, Example.prefix, Example.capacity, Example.killed, Example.calm, Example.torn_root.
  split_and!; [apply Example.closed|apply Example.typed|done|done|]. cbn zeta. split_and!.
  - exact Example.resumed_ok.
  - exact Example.torn_crashed.
  - vm_compute. eauto.
  - exact Example.torn_refused.
Qed.
End MigrationRecovery.
