(* ===== verification/Integrity.v ===== *)
(** Integrity issues and verification reports: the closed vocabulary of mengxia-ports
    (lib.rs) and the report owner of mengxia-app/src/verification.rs, which admits one
    verification at a time, keeps the four last completed reports and serves their
    issues in pages behind an opaque cursor.

    [ReportState] is what the mutex of the owner protects; a [VerificationRun] is owned
    by the operation that began it.  An operation of the owner returns its result and
    the state it leaves; [finish] ends with the drop of the run. *)
From Stdlib Require Import ZArith Lia String.
From Stdlib Require Import Strings.Byte Init.Byte.
From stdpp Require Import prelude list gmap.
From S2P Require Import Prelude RustText Types AssetDomain CreativeDomain Ports CommandLedger CreativeStore AssetStore StartupRecovery AssetQuery AssetInspect AssetCursors.

Set Warnings "-clear-no-such-hyp".

Module Integrity.
Import Ports Ledger Assets.

(** ** Issues *)

Inductive VerificationMode := Normal | Deep.
Inductive IntegrityIssueKind :=
| DatabaseIntegrityFailure | SchemaOrMigrationMismatch | LibraryAuthorityMismatch | CommandRecoveryRequired
| EventOrGraphInconsistent | LocalBackendMismatch | ManagedBlobMissing | ManagedBlobUnsafe | ManagedBlobLengthMismatch
| ManagedBlobDigestMismatch | UnregisteredCanonicalBlob | StagingOrphan | UnsafeCasNamespaceEntry
| MaterializationRecoveryRequired.
Inductive IntegritySeverity := FatalLocal | ReadOnlyCustody | DegradedCustody | OperatorAction.
Inductive IntegrityObjectKind :=
| KLibrary | KCommand | KAsset | KAssetRevision | KBlob | KLocation | KStaging | KMaterialization.
Inductive IntegrityRemediation :=
| NoRemediation | RetryExactCommand | RerunWhenIdle | OperatorConfiguration | FutureAdminAction | OperatorOrRuntimeAction.
Inductive RegisteredBlobObservation := Missing | Unsafe | LengthMismatch | DigestMismatch.
Inductive IntegrityObjectId := UuidObject (id : Id) | DigestObject (digest : list byte).
#[global] Instance IntegritySeverity_eq_dec : EqDecision IntegritySeverity.
Proof. solve_decision. Defined.

Record IntegrityIssue := {
  ordinal : Z; i_kind : IntegrityIssueKind; i_severity : IntegritySeverity; i_object_kind : IntegrityObjectKind;
  i_object_id : option IntegrityObjectId; i_remediation : IntegrityRemediation }.
Record IntegrityFinding := {
  f_kind : IntegrityIssueKind; f_severity : IntegritySeverity; f_object_kind : IntegrityObjectKind;
  f_object_id : option IntegrityObjectId; f_remediation : IntegrityRemediation }.

Definition expected_severity (kind : IntegrityIssueKind) : IntegritySeverity :=
  match kind with
  | DatabaseIntegrityFailure | SchemaOrMigrationMismatch | LibraryAuthorityMismatch | EventOrGraphInconsistent => FatalLocal
  | CommandRecoveryRequired | UnregisteredCanonicalBlob | StagingOrphan | MaterializationRecoveryRequired => OperatorAction
  | LocalBackendMismatch | UnsafeCasNamespaceEntry => ReadOnlyCustody
  | ManagedBlobMissing | ManagedBlobUnsafe | ManagedBlobLengthMismatch | ManagedBlobDigestMismatch => DegradedCustody
  end.
Definition id_matches_kind (kind : IntegrityObjectKind) (id : option IntegrityObjectId) : bool :=
  match kind, id with
  | _, None => true
  | KBlob, Some (DigestObject _) => true
  | KBlob, Some (UuidObject _) => false
  | _, Some (UuidObject _) => true
  | _, Some (DigestObject _) => false
  end.
Definition integrity_issue_new (ordinal : Z) (kind : IntegrityIssueKind) (severity : IntegritySeverity) (object_kind : IntegrityObjectKind)
    (object_id : option IntegrityObjectId) (remediation : IntegrityRemediation) : res IntegrityIssue :=
  if (ordinal =? 0) || negb (bool_decide (severity = expected_severity kind)) || negb (id_matches_kind object_kind object_id)
  then Err SeInternal
  else Ok {| ordinal := ordinal; i_kind := kind; i_severity := severity; i_object_kind := object_kind;
             i_object_id := object_id; i_remediation := remediation |}.
Definition integrity_finding_new (kind : IntegrityIssueKind) (severity : IntegritySeverity) (object_kind : IntegrityObjectKind)
    (object_id : option IntegrityObjectId) (remediation : IntegrityRemediation) : res IntegrityFinding :=
  let? _ := integrity_issue_new 1 kind severity object_kind object_id remediation in
  Ok {| f_kind := kind; f_severity := severity; f_object_kind := object_kind; f_object_id := object_id; f_remediation := remediation |}.
Definition local_backend_mismatch (location_id : Id) : res IntegrityFinding :=
  integrity_finding_new LocalBackendMismatch ReadOnlyCustody KLocation (Some (UuidObject location_id)) OperatorConfiguration.
Definition registered_blob_observation (observation : RegisteredBlobObservation) (digest : list byte) : res IntegrityFinding :=
  let kind := match observation with
    | Missing => ManagedBlobMissing
    | Unsafe => ManagedBlobUnsafe
    | LengthMismatch => ManagedBlobLengthMismatch
    | DigestMismatch => ManagedBlobDigestMismatch
    end in
  integrity_finding_new kind DegradedCustody KBlob (Some (DigestObject digest)) FutureAdminAction.

(** ** Summaries and pages *)

Record VerificationSummary := {
  verification_id : Id; mode : VerificationMode; snapshot_commit_sequence : Z; discovered_issue_count : Z;
  stored_issue_count : Z; dropped_issue_count : Z; has_fatal_local_issue : bool; has_custody_degradation : bool;
  canonical_extra_classification_deferred : bool; first_fatal_issue : option IntegrityIssue }.
Definition summary_from_app (s : VerificationSummary) : res VerificationSummary :=
  if (discovered_issue_count s <? stored_issue_count s)
     || negb (dropped_issue_count s =? saturating_sub (discovered_issue_count s) (stored_issue_count s))
     || negb (bool_decide (has_fatal_local_issue s = negb (none (first_fatal_issue s))))
  then Err SeInternal else Ok s.

Record IntegrityIssuePage := {
  pg_verification_id : Id; pg_issues : list IntegrityIssue; pg_next_ordinal : option Z; pg_discovered : Z; pg_stored : Z;
  pg_dropped : Z }.
Definition issue_page_from_app (p : IntegrityIssuePage) : res IntegrityIssuePage :=
  if (64 <? blen (pg_issues p)) || (pg_discovered p <? pg_stored p)
     || negb (pg_dropped p =? saturating_sub (pg_discovered p) (pg_stored p))
  then Err SeInternal else Ok p.

(** ** The report owner *)

Definition COMPLETED_REPORTS_MAX : Z := 4.
Definition STORED_ISSUES_MAX : Z := 4096.
Definition ID_ATTEMPTS_MAX : nat := 8.

Record CompletedReport := { summary : VerificationSummary; issues : list IntegrityIssue }.
Record ReportState := { active : bool; reports : list CompletedReport }.
Definition owner_new (library_id : Id) : res ReportState :=
  if bool_decide (library_id = AssetQuery.zero_library) then Err SeValidation else Ok {| active := false; reports := [] |}.

Record VerificationRun := {
  run_id : Id; run_mode : VerificationMode; run_snapshot : option Z; run_discovered : Z; run_issues : list IntegrityIssue;
  run_fatal : bool; run_custody : bool; run_first_fatal : option IntegrityIssue }.

Definition known_report (s : ReportState) (id : Id) : bool :=
  existsb (fun r => bool_decide (verification_id (summary r) = id)) (reports s).
(** The attempts that are left, and the number of the next call of the identity source. *)
Fixpoint fresh_id (s : ReportState) (next_id : nat -> option Id) (attempts call : nat) : res (option Id) :=
  match attempts with
  | O => Ok None
  | S attempts =>
      let? candidate := ok_or SeIdGenerationUnavailable (next_id call) in
      if negb (known_report s candidate) then Ok (Some candidate) else fresh_id s next_id attempts (S call)
  end.
Definition begin (s : ReportState) (next_id : nat -> option Id) (mode : VerificationMode) : res VerificationRun * ReportState :=
  if active s then (Err SeBackpressure, s)
  else match (let? id := fresh_id s next_id ID_ATTEMPTS_MAX 0 in ok_or SeIdGenerationUnavailable id) with
  | Err e => (Err e, s)
  | Ok id =>
      (Ok {| run_id := id; run_mode := mode; run_snapshot := None; run_discovered := 0; run_issues := []; run_fatal := false;
             run_custody := false; run_first_fatal := None |},
       {| active := true; reports := reports s |})
  end.

Definition bind_snapshot (r : VerificationRun) (sequence : Z) : res () * VerificationRun :=
  (match run_snapshot r with None => Ok tt | Some _ => Err SeInternal end,
   {| run_id := run_id r; run_mode := run_mode r; run_snapshot := Some sequence; run_discovered := run_discovered r;
      run_issues := run_issues r; run_fatal := run_fatal r; run_custody := run_custody r; run_first_fatal := run_first_fatal r |}).

Definition counted (r : VerificationRun) (count : Z) : VerificationRun := {|
  run_id := run_id r; run_mode := run_mode r; run_snapshot := run_snapshot r; run_discovered := count;
  run_issues := run_issues r; run_fatal := run_fatal r; run_custody := run_custody r; run_first_fatal := run_first_fatal r |}.
Definition is_fatal (i : IntegrityIssue) : bool := bool_decide (i_severity i = FatalLocal).
Definition noted (r : VerificationRun) (issue : IntegrityIssue) : VerificationRun := {|
  run_id := run_id r; run_mode := run_mode r; run_snapshot := run_snapshot r; run_discovered := run_discovered r;
  run_issues := if blen (run_issues r) <? STORED_ISSUES_MAX then run_issues r ++ [issue] else run_issues r;
  run_fatal := run_fatal r || is_fatal issue;
  run_custody := run_custody r || bool_decide (i_severity issue = DegradedCustody);
  run_first_fatal := match run_first_fatal r with
                     | Some first => Some first
                     | None => if is_fatal issue then Some issue else None
                     end |}.
Definition record_issue (r : VerificationRun) (kind : IntegrityIssueKind) (severity : IntegritySeverity) (object_kind : IntegrityObjectKind)
    (object_id : option IntegrityObjectId) (remediation : IntegrityRemediation) : res () * VerificationRun :=
  match checked_add U64_MAX (run_discovered r) 1 with
  | None => (Err SeInternal, r)
  | Some count =>
      let r := counted r count in
      match (let? ordinal := ok_or SeInternal (try_into U32_MAX count) in
             integrity_issue_new ordinal kind severity object_kind object_id remediation) with
      | Err e => (Err e, r)
      | Ok issue => (Ok tt, noted r issue)
      end
  end.
Definition record_finding (r : VerificationRun) (f : IntegrityFinding) : res () * VerificationRun :=
  record_issue r (f_kind f) (f_severity f) (f_object_kind f) (f_object_id f) (f_remediation f).

(** [Drop] of a run that has not finished. *)
Definition released (s : ReportState) : ReportState := {| active := false; reports := reports s |}.
Definition publish (s : ReportState) (report : CompletedReport) : ReportState := {|
  active := false;
  reports := (if blen (reports s) =? COMPLETED_REPORTS_MAX then drop 1 (reports s) else reports s) ++ [report] |}.
Definition finished_summary (r : VerificationRun) (deferred : bool) : res VerificationSummary :=
  let? stored := ok_or SeInternal (try_into U32_MAX (blen (run_issues r))) in
  let? dropped := ok_or SeInternal (checked_sub (run_discovered r) stored) in
  let? snapshot := ok_or SeInternal (run_snapshot r) in
  summary_from_app {| verification_id := run_id r; mode := run_mode r; snapshot_commit_sequence := snapshot;
    discovered_issue_count := run_discovered r; stored_issue_count := stored; dropped_issue_count := dropped;
    has_fatal_local_issue := run_fatal r; has_custody_degradation := run_custody r;
    canonical_extra_classification_deferred := deferred; first_fatal_issue := run_first_fatal r |}.
Definition finish (r : VerificationRun) (s : ReportState) (deferred : bool) : res VerificationSummary * ReportState :=
  match finished_summary r deferred with
  | Err e => (Err e, released s)
  | Ok summary =>
      if negb (active s) then (Err SeInternal, released s)
      else (Ok summary, publish s {| summary := summary; issues := run_issues r |})
  end.

(** ** Issue cursors *)

Definition ISSUE_CURSOR_LENGTH : Z := 96.
Definition ISSUE_CURSOR_PREFIX_LENGTH : nat := 64.
Definition ISSUE_CURSOR_MAGIC : list byte := bs "MXVCUR1" ++ [x00].
Definition CURSOR_FORMAT_VERSION : Z := 1.
Definition ISSUE_OPERATION_DISCRIMINATOR : Z := 3.

Section cursors.
Context `{StoreEnv}.
Import Cursors.

Definition decode_issue_cursor (cursor expected_library_id expected_verification_id : list byte) : res Z :=
  if negb (blen cursor =? ISSUE_CURSOR_LENGTH) then Err SeValidation
  else if negb (bool_decide (range cursor 0 8 = ISSUE_CURSOR_MAGIC)) || negb (be_at cursor 8 10 =? CURSOR_FORMAT_VERSION)
     || negb (be_at cursor 10 12 =? ISSUE_CURSOR_LENGTH) || negb (be_at cursor 12 16 =? ISSUE_OPERATION_DISCRIMINATOR)
     || negb (bool_decide (range cursor 16 32 = expected_library_id))
     || negb (bool_decide (range cursor 32 48 = expected_verification_id)) || negb (zeros (range cursor 52 64))
     || negb (bool_decide (sha256 (range cursor 0 ISSUE_CURSOR_PREFIX_LENGTH) = drop ISSUE_CURSOR_PREFIX_LENGTH cursor))
  then Err SeValidation
  else
    let ordinal := be_at cursor 48 52 in
    if ordinal =? 0 then Err SeValidation else Ok ordinal.
Definition issue_prefix (library_id verification_id : list byte) (next_ordinal : Z) : list byte :=
  ISSUE_CURSOR_MAGIC ++ be_bytes 2 CURSOR_FORMAT_VERSION ++ be_bytes 2 ISSUE_CURSOR_LENGTH
  ++ be_bytes 4 ISSUE_OPERATION_DISCRIMINATOR ++ library_id ++ verification_id ++ be_bytes 4 next_ordinal ++ repeat x00 12.
Definition encode_issue_cursor (library_id verification_id : list byte) (next_ordinal : Z) : res (list byte) :=
  if bool_decide (library_id = AssetQuery.zero_library) || (next_ordinal =? 0) then Err SeInternal
  else let cursor := issue_prefix library_id verification_id next_ordinal in Ok (cursor ++ sha256 cursor).

Record IntegrityIssueResponse := { page : IntegrityIssuePage; next_cursor : option (list byte) }.

(** [cursor] is [None] or empty for the first page. *)
Definition no_cursor (cursor : option (list byte)) : bool :=
  match cursor with None => true | Some bytes => bool_decide (bytes = []) end.
Definition find_report (s : ReportState) (id : Id) : option CompletedReport :=
  List.find (fun r => bool_decide (verification_id (summary r) = id)) (reports s).
Definition list_issues (s : ReportState) (library_id : Id) (id : Id) (page_size : Z) (cursor : option (list byte))
  : res IntegrityIssueResponse :=
  if negb ((1 <=? page_size) && (page_size <=? 64)) then Err SeValidation
  else
    let? next_ordinal := match cursor with
      | Some bytes => if no_cursor cursor then Ok 1 else decode_issue_cursor bytes library_id id
      | None => Ok 1
      end in
    let? report := ok_or SeNotFound (find_report s id) in
    let start := next_ordinal - 1 in
    let count := blen (issues report) in
    if (count <? start) || (negb (no_cursor cursor) && (start =? count)) then Err SeValidation
    else
      let end_ := Z.min (saturating_add U64_MAX start page_size) count in
      let? next := (if end_ <? count then let? n := ok_or SeInternal (try_into U32_MAX (end_ + 1)) in Ok (Some n) else Ok None) in
      let? p := issue_page_from_app {| pg_verification_id := id;
                  pg_issues := take (Z.to_nat (end_ - start)) (drop (Z.to_nat start) (issues report)); pg_next_ordinal := next;
                  pg_discovered := discovered_issue_count (summary report); pg_stored := stored_issue_count (summary report);
                  pg_dropped := dropped_issue_count (summary report) |} in
      let? next_cursor := match next with
        | Some o => let? c := encode_issue_cursor library_id id o in Ok (Some c)
        | None => Ok None
        end in
      Ok {| page := p; next_cursor := next_cursor |}.
End cursors.
End Integrity.
