(* ===== verification/IntegrityFacts.v ===== *)
(** What the report owner guarantees: every completed report is the record of what its
    verification found, and its issues can be read completely, page by page. *)
From Stdlib Require Import ZArith Lia String.
From Stdlib Require Import Strings.Byte Init.Byte.
From stdpp Require Import prelude list gmap.
From S2P Require Import Prelude RustText Ord Types AssetDomain CreativeDomain Ports CommandLedger CreativeStore StoreScenario AssetStore StartupRecovery AssetQuery AssetInspect AssetCursors CursorFacts Integrity.

Set Warnings "-clear-no-such-hyp".

Module IntegrityFacts.
Import Ports Ledger Assets Integrity.

(** ** What a run has found *)

(** A finding with a severity and an object that fit its kind, and the issue it is as the
    [k]-th of a report. *)
Definition well_typed (f : IntegrityFinding) : Prop :=
  f_severity f = expected_severity (f_kind f) /\ id_matches_kind (f_object_kind f) (f_object_id f) = true.
Definition numbered (k : nat) (f : IntegrityFinding) : IntegrityIssue := {|
  ordinal := Z.of_nat k + 1; i_kind := f_kind f; i_severity := f_severity f; i_object_kind := f_object_kind f;
  i_object_id := f_object_id f; i_remediation := f_remediation f |}.
Definition as_issues (found : list IntegrityFinding) : list IntegrityIssue := imap numbered found.
Definition fatal (f : IntegrityFinding) : bool := bool_decide (f_severity f = FatalLocal).
Definition degraded (f : IntegrityFinding) : bool := bool_decide (f_severity f = DegradedCustody).

(** The run has found these, in this order. *)
Record found_by (r : VerificationRun) (found : list IntegrityFinding) : Prop := {
  fb_typed : Forall well_typed found; fb_count : run_discovered r = blen found; fb_bound : blen found <= U32_MAX;
  fb_issues : run_issues r = take 4096 (as_issues found); fb_fatal : run_fatal r = existsb fatal found;
  fb_custody : run_custody r = existsb degraded found; fb_first : run_first_fatal r = List.find is_fatal (as_issues found) }.
(** The report of a verification that found these. *)
Record report_of (r : CompletedReport) (found : list IntegrityFinding) : Prop := {
  ro_typed : Forall well_typed found; ro_count : discovered_issue_count (summary r) = blen found;
  ro_stored : stored_issue_count (summary r) = Z.min 4096 (blen found);
  ro_dropped : dropped_issue_count (summary r) = blen found - Z.min 4096 (blen found);
  ro_issues : issues r = take 4096 (as_issues found); ro_fatal : has_fatal_local_issue (summary r) = existsb fatal found;
  ro_custody : has_custody_degradation (summary r) = existsb degraded found;
  ro_first : first_fatal_issue (summary r) = List.find is_fatal (as_issues found) }.

Lemma as_issues_app a b : as_issues (a ++ b) = as_issues a ++ imap (fun k => numbered (length a + k)) b.
Proof. unfold as_issues. rewrite imap_app. done. Qed.
Lemma find_app {A} (p : A -> bool) a b : List.find p (a ++ b) = match List.find p a with Some x => Some x | None => List.find p b end.
Proof. induction a as [|x a IH]; [done|]. cbn. by destruct (p x). Qed.
Lemma is_fatal_numbered k f : is_fatal (numbered k f) = fatal f.
Proof. done. Qed.
Lemma find_fatal (found : list IntegrityFinding) : negb (none (List.find is_fatal (as_issues found))) = existsb fatal found.
Proof.
  induction found as [|f found IH] using rev_ind; [done|]. rewrite as_issues_app, find_app, existsb_app, <- IH. cbn.
  rewrite is_fatal_numbered. destruct (List.find is_fatal (as_issues found)); [done|]. by destruct (fatal f).
Qed.

Lemma issue_new_ok n f : 0 < n -> well_typed f ->
  integrity_issue_new n (f_kind f) (f_severity f) (f_object_kind f) (f_object_id f) (f_remediation f) =
  Ok {| ordinal := n; i_kind := f_kind f; i_severity := f_severity f; i_object_kind := f_object_kind f;
        i_object_id := f_object_id f; i_remediation := f_remediation f |}.
Proof.
  intros Hn [Hs Hi]. unfold integrity_issue_new. rewrite Hi, bool_decide_eq_true_2 by done. by replace (n =? 0) with false by lia.
Qed.
Lemma issue_new_inv n k s o i m x : integrity_issue_new n k s o i m = Ok x ->
  s = expected_severity k /\ id_matches_kind o i = true /\
  x = {| ordinal := n; i_kind := k; i_severity := s; i_object_kind := o; i_object_id := i; i_remediation := m |}.
Proof. unfold integrity_issue_new. intros Hx. inv_result. bool_hyps. by split_and!. Qed.

Lemma begin_found s ids m r s' : begin s ids m = (Ok r, s') -> found_by r [] /\ run_snapshot r = None /\ run_mode r = m.
Proof.
  unfold begin. destruct (active s); [done|]. destruct (result_bind _ _); [|done]. intros Hb. injection Hb as <- <-.
  split; [|done]. by split.
Qed.
Lemma bind_found r q found : found_by r found -> found_by (bind_snapshot r q).2 found.
Proof. intros []. by split. Qed.

(** A finding is recorded exactly when it is well typed and can be numbered. *)
Lemma record_run r f found : found_by r found -> well_typed f -> blen found < U32_MAX ->
  record_finding r f = (Ok tt, noted (counted r (blen found + 1)) (numbered (length found) f)).
Proof.
  intros Hr Hf Hn. unfold record_finding, record_issue. rewrite (fb_count _ _ Hr).
  assert (0 <= blen found) by (unfold blen; lia).
  rewrite (proj2 (checked_add_Some U64_MAX (blen found) 1 _)) by (split; [done|unfold U64_MAX, U32_MAX in *; lia]).
  rewrite try_into_id by (unfold U32_MAX in *; lia). cbn [ok_or result_bind]. by rewrite issue_new_ok by (done || lia).
Qed.
Lemma record_inv r f found : found_by r found -> (record_finding r f).1 = Ok tt -> well_typed f /\ blen found < U32_MAX.
Proof.
  intros Hr. unfold record_finding, record_issue. rewrite (fb_count _ _ Hr). destruct (checked_add _ _ _) as [n|] eqn:En; [|done].
  apply checked_add_Some in En as [-> _]. destruct (try_into U32_MAX _) as [o|] eqn:Eo; [|done]. apply try_into_Some in Eo as [-> Ho].
  cbn [ok_or result_bind]. destruct (integrity_issue_new _ _ _ _ _ _) as [x|] eqn:Ex; [|done]. intros _. apply issue_new_inv in Ex as (? & ? & _).
  split; [done|lia].
Qed.
Lemma noted_found r f found : found_by r found -> well_typed f -> blen found < U32_MAX ->
  found_by (noted (counted r (blen found + 1)) (numbered (length found) f)) (found ++ [f]).
Proof.
  intros [Ht Hc Hb Hi Hf Hd Hfi] Hw Hn. assert (as_issues (found ++ [f]) = as_issues found ++ [numbered (length found) f]) as Ha.
  { rewrite as_issues_app. cbn. by rewrite Nat.add_0_r. }
  split.
  - apply Forall_app. split; [done|]. by apply Forall_singleton.
  - cbn. unfold blen. rewrite length_app. cbn. lia.
  - unfold blen in *. rewrite length_app. cbn. lia.
  - cbn. rewrite Hi, Ha. unfold blen, STORED_ISSUES_MAX. rewrite length_take.
    assert (length (as_issues found) = length found) as Hl by apply length_imap. rewrite Hl.
    destruct (Z.of_nat _ <? 4096) eqn:E; bool_hyps.
    + rewrite !take_ge; [done|rewrite length_app, Hl; cbn|rewrite Hl]; lia.
    + rewrite take_app_le; [done|rewrite Hl; lia].
  - cbn. rewrite Hf, existsb_app. cbn. rewrite is_fatal_numbered. by rewrite orb_false_r.
  - cbn. rewrite Hd, existsb_app. cbn. by rewrite orb_false_r.
  - cbn. rewrite Hfi, Ha, find_app. destruct (List.find is_fatal (as_issues found)); [done|]. cbn. by destruct (is_fatal _).
Qed.
Lemma record_found r f found : found_by r found -> (record_finding r f).1 = Ok tt -> found_by (record_finding r f).2 (found ++ [f]).
Proof.
  intros Hr Hf. destruct (record_inv _ _ _ Hr Hf). rewrite (record_run _ _ _ Hr) by done. by apply noted_found.
Qed.

Lemma summary_run r found q deferred : found_by r found -> run_snapshot r = Some q -> finished_summary r deferred = Ok {|
  verification_id := run_id r; mode := run_mode r; snapshot_commit_sequence := q; discovered_issue_count := blen found;
  stored_issue_count := Z.min 4096 (blen found); dropped_issue_count := blen found - Z.min 4096 (blen found);
  has_fatal_local_issue := existsb fatal found; has_custody_degradation := existsb degraded found;
  canonical_extra_classification_deferred := deferred; first_fatal_issue := List.find is_fatal (as_issues found) |}.
Proof.
  intros [Ht Hc Hb Hi Hf Hd Hfi] Hq. unfold finished_summary. rewrite Hc, Hi, Hf, Hd, Hfi, Hq.
  assert (blen (take 4096 (as_issues found)) = Z.min 4096 (blen found)) as ->.
  { unfold blen, as_issues. rewrite length_take, length_imap. lia. }
  assert (0 <= blen found) by (unfold blen; lia). rewrite try_into_id by (unfold U32_MAX; lia). cbn [ok_or result_bind].
  unfold checked_sub. replace (Z.min 4096 (blen found) <=? blen found) with true by lia. cbn [ok_or result_bind].
  unfold summary_from_app. cbn. replace (blen found <? Z.min 4096 (blen found)) with false by lia.
  unfold saturating_sub. replace (_ =? Z.max _ _) with true by lia. by rewrite bool_decide_eq_true_2 by (symmetry; apply find_fatal).
Qed.
Lemma summary_inv r deferred s : finished_summary r deferred = Ok s -> exists q, run_snapshot r = Some q.
Proof. unfold finished_summary. intros Hs. repeat (apply result_bind_ok in Hs as (? & ? & Hs)). destruct (run_snapshot r); [eauto|done]. Qed.

(** ** Histories of the owner *)

(** What happened in a verification, kept beside the owner: the identity and mode it was
    begun with, the snapshot it was bound to, and every finding whose recording was
    answered with success, in order. *)
Record Log := { log_id : Id; log_mode : VerificationMode; log_snapshot : option Z; log_found : list IntegrityFinding }.
Definition bound (g : Log) (q : Z) : Log := {|
  log_id := log_id g; log_mode := log_mode g; log_snapshot := Some q; log_found := log_found g |}.
Definition recorded (g : Log) (f : IntegrityFinding) : Log := {|
  log_id := log_id g; log_mode := log_mode g; log_snapshot := log_snapshot g; log_found := log_found g ++ [f] |}.

(** The runs that are alive with their logs, and the logs of the verifications that were
    finished with success, the oldest first.  An operation that fails on a run drops it. *)
Inductive history : ReportState -> list (VerificationRun * Log) -> list Log -> Prop :=
| h_new library_id s : owner_new library_id = Ok s -> history s [] []
| h_begin s live done ids m r s' : history s live done -> begin s ids m = (r, s') ->
    history s' (match r with
                | Ok run => (run, {| log_id := run_id run; log_mode := m; log_snapshot := None; log_found := [] |}) :: live
                | Err _ => live
                end) done
| h_bind s a r g b done q : history s (a ++ (r, g) :: b) done -> (bind_snapshot r q).1 = Ok tt ->
    history s (a ++ ((bind_snapshot r q).2, bound g q) :: b) done
| h_record s a r g b done f : history s (a ++ (r, g) :: b) done -> (record_finding r f).1 = Ok tt ->
    history s (a ++ ((record_finding r f).2, recorded g f) :: b) done
| h_finish s a r g b done deferred : history s (a ++ (r, g) :: b) done ->
    history (finish r s deferred).2 (a ++ b) (done ++ if is_ok (finish r s deferred).1 then [g] else [])
| h_drop s a r g b done : history s (a ++ (r, g) :: b) done -> history (released s) (a ++ b) done.

Definition report_id (r : CompletedReport) : Id := verification_id (summary r).
(** A run, and a report, that agree with a log. *)
Definition run_of (r : VerificationRun) (g : Log) : Prop :=
  run_id r = log_id g /\ run_mode r = log_mode g /\ run_snapshot r = log_snapshot g /\ found_by r (log_found g).
Definition describes (c : CompletedReport) (g : Log) : Prop :=
  report_id c = log_id g /\ mode (summary c) = log_mode g /\ log_snapshot g = Some (snapshot_commit_sequence (summary c)) /\
  report_of c (log_found g).
Record owner_ok (s : ReportState) (live : list (VerificationRun * Log)) (done : list Log) : Prop := {
  oo_live : length live = (if active s then 1%nat else 0%nat);
  oo_reports : Forall2 describes (reports s) (drop (length done - 4) done); oo_ids : NoDup (map report_id (reports s));
  oo_runs : Forall (fun '(r, g) => (run_id r ∉ map report_id (reports s)) /\ run_of r g) live }.

Lemma known_report_spec s i : known_report s i = true <-> i ∈ map report_id (reports s).
Proof.
  unfold known_report. rewrite existsb_exists, list_elem_of_In, in_map_iff. split.
  - intros (r & Hr & He). exists r. split; [by bool_hyps|done].
  - intros (r & <- & Hr). exists r. split; [done|]. by apply bool_decide_eq_true_2.
Qed.
Lemma fresh_id_spec s ids n k i : fresh_id s ids n k = Ok (Some i) -> i ∉ map report_id (reports s).
Proof.
  revert k. induction n as [|n IH]; intros k; [done|]. cbn [fresh_id]. intros Hf. apply result_bind_ok in Hf as (c & Hc & Hf).
  destruct (known_report s c) eqn:Ek; cbn [negb] in Hf; [by eapply IH|]. injection Hf as <-. rewrite <- known_report_spec. by rewrite Ek.
Qed.
Lemma begin_owner s live done ids m r s' : owner_ok s live done -> begin s ids m = (r, s') ->
  owner_ok s' (match r with
               | Ok run => (run, {| log_id := run_id run; log_mode := m; log_snapshot := None; log_found := [] |}) :: live
               | Err _ => live
               end) done.
Proof.
  intros Ho Hb. pose proof Hb as Hb'. unfold begin in Hb. destruct (active s) eqn:Ea; [by injection Hb as <- <-|].
  destruct (result_bind _ _) as [i|e] eqn:Ei; [|by injection Hb as <- <-]. injection Hb as <- <-. destruct Ho as [Hl Hr Hi Hs].
  rewrite Ea in Hl. apply length_zero_iff_nil in Hl as ->. split; try done. constructor; [|constructor]. split.
  - apply result_bind_ok in Ei as (o & Ho & Ei). destruct o; [|done]. injection Ei as ->. cbn. by eapply fresh_id_spec.
  - split_and!; try done.
Qed.
Lemma replace_owner s a r g r' g' b done : owner_ok s (a ++ (r, g) :: b) done -> run_id r' = run_id r ->
  (run_of r g -> run_of r' g') -> owner_ok s (a ++ (r', g') :: b) done.
Proof.
  intros [Hl Hr Hi Hs] Hid Hfound. split; try done.
  - rewrite <- Hl, !length_app. done.
  - rewrite Forall_app, Forall_cons in *. destruct Hs as (Ha & (Hn & Hx) & Hb). rewrite Hid. auto.
Qed.
Lemma alone s a r b done : owner_ok s (a ++ r :: b) done -> a = [] /\ b = [] /\ active s = true.
Proof.
  intros [Hl _ _ _]. rewrite length_app in Hl. cbn in Hl. destruct (active s); [|lia]. destruct a; cbn in Hl; [|lia]. destruct b; cbn in Hl; [done|lia].
Qed.
Lemma released_owner s a r b done : owner_ok s (a ++ r :: b) done -> owner_ok (released s) (a ++ b) done.
Proof. intros Ho. destruct (alone _ _ _ _ _ Ho) as (-> & -> & _). destruct Ho. by split. Qed.

(** The window of the last four moves by one. *)
Lemma window_moves {A B} (P : A -> B -> Prop) l done x y :
  Forall2 P l (drop (length done - 4) done) -> P x y ->
  Forall2 P ((if blen l =? COMPLETED_REPORTS_MAX then drop 1 l else l) ++ [x]) (drop (length (done ++ [y]) - 4) (done ++ [y])).
Proof.
  intros Hl Hxy. pose proof (Forall2_length _ _ _ Hl) as Hn. rewrite length_drop in Hn. unfold blen, COMPLETED_REPORTS_MAX.
  rewrite length_app. cbn [length]. rewrite drop_app_le by lia. apply Forall2_app; [|by repeat constructor].
  destruct (Z.of_nat (length l) =? 4) eqn:E.
  - replace (length done + 1 - 4)%nat with ((length done - 4) + 1)%nat by lia. rewrite <- drop_drop. by apply Forall2_drop.
  - replace (length done + 1 - 4)%nat with (length done - 4)%nat by lia. done.
Qed.
Lemma finish_owner s a r g b done deferred : owner_ok s (a ++ (r, g) :: b) done ->
  owner_ok (finish r s deferred).2 (a ++ b) (done ++ if is_ok (finish r s deferred).1 then [g] else []).
Proof.
  intros Ho. destruct (alone _ _ _ _ _ Ho) as (-> & -> & Ha). unfold finish.
  destruct (finished_summary r deferred) as [x|] eqn:Ex; cbn; [|rewrite app_nil_r; by eapply (released_owner _ [] _ [])].
  rewrite Ha. cbn. destruct Ho as [Hl Hr Hi Hs]. apply Forall_cons in Hs as [(Hn & Hid & Hm & Hsn & Hfound) _].
  destruct (summary_inv _ _ _ Ex) as [q Hq]. rewrite (summary_run _ _ _ _ Hfound Hq) in Ex. injection Ex as <-.
  split; cbn; try done.
  - apply window_moves; [done|]. split_and!; cbn; [done..|congruence|]. destruct Hfound. by split.
  - set (kept := if blen (reports s) =? COMPLETED_REPORTS_MAX then drop 1 (reports s) else reports s).
    assert (exists n, kept = drop n (reports s)) as (n & Hk) by (unfold kept; destruct (_ =? _); [by exists 1%nat|by exists 0%nat]).
    rewrite map_app. apply NoDup_app. cbn. split_and!.
    + rewrite Hk, <- skipn_map. rewrite <- (take_drop n) in Hi. by apply NoDup_app in Hi as (_ & _ & ?).
    + intros y Hy. rewrite list_elem_of_singleton. intros ->. apply Hn. rewrite Hk, <- skipn_map in Hy. rewrite <- (take_drop n). apply elem_of_app. by right.
    + apply NoDup_singleton.
Qed.

(** C29: every completed report is the faithful record of one verification.  Whatever is
    begun, recorded, finished and dropped, at most one verification is alive and the
    owner is active exactly while one is; the reports kept are those of the last four
    verifications that finished with success, in order and under different identities;
    and each of them carries the identity, mode and snapshot of its verification and
    describes exactly the findings whose recording was answered with success: the
    counters say how many there were, how many are stored (the first 4096, numbered from
    one without gaps) and how many were dropped, the flags whether any of all of them -
    also of those that were dropped - is fatal or degrades custody, and the first fatal
    issue is the first of them.  The same holds of the run that is still alive. *)
Theorem verification_reports_are_faithful s live done :
  history s live done ->
  length live = (if active s then 1 else 0)%nat /\ NoDup (map report_id (reports s)) /\
  Forall2 describes (reports s) (drop (length done - 4) done) /\
  Forall (fun '(r, g) => (run_id r ∉ map report_id (reports s)) /\ run_of r g) live.
Proof.
  intros Hh. assert (owner_ok s live done) as []; [|done]. induction Hh as [library_id s Hn|s live done ids m r s' _ IH Hb
    |s a r g b done q _ IH Hq|s a r g b done f _ IH Hf|s a r g b done d _ IH|s a r g b done _ IH].
  - unfold owner_new in Hn. inv_result. split; cbn; try done; try lia. apply NoDup_nil_2.
  - by eapply begin_owner.
  - apply (replace_owner _ _ _ _ _ _ _ _ IH); [done|]. intros (Hid & Hm & Hs & Hr). split_and!; try done. by apply bind_found.
  - assert (run_id (record_finding r f).2 = run_id r /\ run_mode (record_finding r f).2 = run_mode r /\
      run_snapshot (record_finding r f).2 = run_snapshot r) as (Eid & Em & Es).
    { unfold record_finding, record_issue. destruct (checked_add _ _ _); [|done]. by destruct (result_bind _ _). }
    apply (replace_owner _ _ _ _ _ _ _ _ IH); [done|]. intros (Hid & Hm & Hs & Hr). unfold run_of. rewrite Eid, Em, Es.
    split_and!; try done. by apply record_found.
  - by apply finish_owner.
  - by eapply released_owner.
Qed.
(** ** Issue cursors *)

Section cursors.
Context `{StoreEnv} `{!StoreEnvLaws H}.
Import Cursors CursorFacts.

Lemma issue_prefix_length library_id i n : length library_id = 16%nat -> length i = 16%nat -> length (issue_prefix library_id i n) = 64%nat.
Proof. intros Hl Hi. unfold issue_prefix. rewrite !length_app, !be_bytes_length, Hl, Hi. done. Qed.
Lemma issue_fields library_id i n :
  length library_id = 16%nat -> length i = 16%nat -> let c := issue_prefix library_id i n in
  range c 0 8 = ISSUE_CURSOR_MAGIC /\ range c 8 10 = be_bytes 2 CURSOR_FORMAT_VERSION /\ range c 10 12 = be_bytes 2 ISSUE_CURSOR_LENGTH /\
  range c 12 16 = be_bytes 4 ISSUE_OPERATION_DISCRIMINATOR /\ range c 16 32 = library_id /\ range c 32 48 = i /\
  range c 48 52 = be_bytes 4 n /\ range c 52 64 = repeat x00 12.
Proof. intros Hl Hi c. unfold c, issue_prefix. split_and!; by to_field. Qed.

Lemma issue_cursor_encodes library_id i n :
  library_id <> AssetQuery.zero_library -> length library_id = 16%nat -> length i = 16%nat -> is_u32 n -> n <> 0 ->
  exists c, encode_issue_cursor library_id i n = Ok c /\ c <> [] /\ decode_issue_cursor c library_id i = Ok n /\
    forall library_id' i', is_ok (decode_issue_cursor c library_id' i') = true -> library_id' = library_id /\ i' = i.
Proof.
  intros Hz Hl Hi Hn Hn0. set (p := issue_prefix library_id i n). pose proof (issue_prefix_length library_id i n Hl Hi) as Hp. fold p in Hp.
  exists (p ++ sha256 p). unfold encode_issue_cursor. rewrite bool_decide_eq_false_2 by done. replace (n =? 0) with false by lia. cbn [orb].
  destruct (issue_fields library_id i n Hl Hi) as (F1 & F2 & F3 & F4 & F5 & F6 & F7 & F8). fold p in F1, F2, F3, F4, F5, F6, F7, F8.
  assert (length (p ++ sha256 p) = 96%nat) as Hc by (rewrite length_app, sha256_length, Hp; done).
  assert (forall lib j, decode_issue_cursor (p ++ sha256 p) lib j =
            if negb (bool_decide (library_id = lib)) || negb (bool_decide (i = j)) then Err SeValidation else Ok n) as Hd.
  { intros lib j. unfold decode_issue_cursor, be_at, ISSUE_CURSOR_PREFIX_LENGTH, blen. rewrite Hc. rewrite !(range_inner p _ 64) by (done || lia).
    rewrite F1, F2, F3, F4, F5, F6, F7, F8. rewrite (range_full p 64), (drop_app_length' p _ 64) by done.
    rewrite (be_value_bytes 4 n) by (unfold is_u32, U32_MAX in Hn; cbn; lia).
    rewrite (bool_decide_eq_true_2 (sha256 p = sha256 p)), (bool_decide_eq_true_2 (ISSUE_CURSOR_MAGIC = ISSUE_CURSOR_MAGIC)) by done.
    replace (n =? 0) with false by lia.
    destruct (decide (library_id = lib)) as [E1|E1], (decide (i = j)) as [E2|E2];
      rewrite ?(bool_decide_eq_true_2 _ E1), ?(bool_decide_eq_false_2 _ E1), ?(bool_decide_eq_true_2 _ E2), ?(bool_decide_eq_false_2 _ E2);
      reflexivity. }
  split; [done|]. split; [by destruct p|]. rewrite Hd, !bool_decide_eq_true_2 by done. split; [done|].
  intros lib j. rewrite Hd. destruct (bool_decide (library_id = lib)) eqn:E1, (bool_decide (i = j)) eqn:E2; try done. by bool_hyps.
Qed.
Lemma issue_cursor_decodes c library_id i n : library_id <> AssetQuery.zero_library ->
  decode_issue_cursor c library_id i = Ok n -> encode_issue_cursor library_id i n = Ok c.
Proof.
  intros Hz. unfold decode_issue_cursor. intros Hd. inv_result. bool_hyps. unfold ISSUE_CURSOR_PREFIX_LENGTH in *.
  assert (length c = 96%nat) as Hlen by (unfold blen, ISSUE_CURSOR_LENGTH in *; lia). subst library_id i.
  unfold encode_issue_cursor. rewrite bool_decide_eq_false_2 by done. replace (_ =? 0) with false by lia. cbn [orb]. f_equal.
  assert (issue_prefix (range c 16 32) (range c 32 48) (be_at c 48 52) = range c 0 64) as Hp.
  { unfold issue_prefix. rewrite (be_range c 48 52 4) by (done || lia).
    assert (repeat x00 12 = range c 52 64) as -> by (match goal with Hs : zeros _ = true |- _ => rewrite (zeros_eq _ Hs) at 1; by rewrite range_length by lia end).
    rewrite (range_split c 0 8 64), (range_split c 8 10 64), (range_split c 10 12 64), (range_split c 12 16 64), (range_split c 16 32 64),
      (range_split c 32 48 64), (range_split c 48 52 64) by lia.
    rewrite <- (be_range c 8 10 2), <- (be_range c 10 12 2), <- (be_range c 12 16 4) by (done || lia). by congruence. }
  rewrite Hp. symmetry. rewrite (range_all c 64) at 1. by f_equal.
Qed.

(** ** Following the cursors *)

(** [view t] is the state of the owner at the [t]-th request. *)
Fixpoint follow_issues (fuel : nat) (view : nat -> ReportState) (library_id i : Id) (size : Z) (cursor : option (list byte)) (t : nat)
  : res (list IntegrityIssue) :=
  match fuel with
  | O => Err SeInternal
  | S fuel =>
      let? response := list_issues (view t) library_id i size cursor in
      match next_cursor response with
      | None => Ok (pg_issues (page response))
      | Some c => let? rest := follow_issues fuel view library_id i size (Some c) (S t) in Ok (pg_issues (page response) ++ rest)
      end
  end.
Definition starts_at (library_id i : Id) (cursor : option (list byte)) (n : Z) : Prop :=
  if no_cursor cursor then n = 1 else from_option (fun c => decode_issue_cursor c library_id i = Ok n) False cursor.

Lemma list_issues_page s library_id i size cursor n report found :
  library_id <> AssetQuery.zero_library -> length library_id = 16%nat -> length i = 16%nat -> 1 <= size <= 64 ->
  find_report s i = Some report -> report_of report found -> starts_at library_id i cursor n -> 1 <= n ->
  n - 1 < blen (issues report) \/ no_cursor cursor = true ->
  exists response, list_issues s library_id i size cursor = Ok response /\
    pg_issues (page response) = take (Z.to_nat size) (drop (Z.to_nat (n - 1)) (issues report)) /\
    match next_cursor response with
    | None => blen (issues report) <= n - 1 + size
    | Some c => n - 1 + size < blen (issues report) /\ starts_at library_id i (Some c) (n + size)
    end.
Proof.
  intros Hz Hl Hi Hsize Hf Hro Hs Hn Hlt. unfold list_issues. replace (negb _) with false by lia.
  assert (match cursor with Some bytes => if no_cursor cursor then Ok 1 else decode_issue_cursor bytes library_id i | None => Ok 1 end = Ok n) as ->.
  { unfold starts_at in Hs. destruct cursor as [c|]; cbn [from_option no_cursor] in *; [|by subst]. by destruct (bool_decide _); subst. }
  cbn [result_bind]. rewrite Hf. cbn [ok_or result_bind]. set (count := blen (issues report)) in *.
  assert (0 <= count <= 4096) as Hcount. { unfold count, blen. rewrite (ro_issues _ _ Hro), length_take. lia. }
  assert (n - 1 <= count) as Hle. { destruct Hlt as [?|Hno]; [lia|]. unfold starts_at in Hs. rewrite Hno in Hs. lia. }
  replace (count <? n - 1) with false by lia. replace (negb (no_cursor cursor) && (n - 1 =? count)) with false.
  2: { destruct Hlt as [?| ->]; [|done]. destruct (no_cursor cursor); [done|]. cbn. lia. }
  cbn [orb]. unfold saturating_add. rewrite (Z.min_r U64_MAX) by (unfold U64_MAX; lia).
  assert (forall nx, issue_page_from_app {| pg_verification_id := i;
             pg_issues := take (Z.to_nat (Z.min (n - 1 + size) count - (n - 1))) (drop (Z.to_nat (n - 1)) (issues report)); pg_next_ordinal := nx;
             pg_discovered := discovered_issue_count (summary report); pg_stored := stored_issue_count (summary report);
             pg_dropped := dropped_issue_count (summary report) |} = Ok {| pg_verification_id := i;
             pg_issues := take (Z.to_nat size) (drop (Z.to_nat (n - 1)) (issues report)); pg_next_ordinal := nx;
             pg_discovered := discovered_issue_count (summary report); pg_stored := stored_issue_count (summary report);
             pg_dropped := dropped_issue_count (summary report) |}) as Hpage.
  { intros nx. unfold issue_page_from_app. cbn [pg_issues pg_discovered pg_stored pg_dropped].
    rewrite (ro_count _ _ Hro), (ro_stored _ _ Hro), (ro_dropped _ _ Hro).
    assert (0 <= blen found) by (unfold blen; lia).
    assert (blen (take (Z.to_nat (Z.min (n - 1 + size) count - (n - 1))) (drop (Z.to_nat (n - 1)) (issues report))) <= 64) as H64.
    { unfold blen. rewrite length_take. clearbody count. lia. }
    rewrite (proj2 (Z.ltb_ge 64 _) H64). replace (blen found <? _) with false by lia.
    unfold saturating_sub. replace (_ =? _) with true by lia. cbn [negb orb]. do 2 f_equal.
    destruct (Z.le_gt_cases (n - 1 + size) count); [by replace (Z.min (n - 1 + size) count - (n - 1)) with size by lia|].
    rewrite !take_ge; [done|rewrite length_drop; unfold count, blen in *; lia..]. }
  destruct (Z.min (n - 1 + size) count <? count) eqn:E; bool_hyps.
  - rewrite Z.min_l by lia. rewrite try_into_id by (unfold U32_MAX; lia). cbn [ok_or result_bind]. rewrite Z.min_l in Hpage by lia. rewrite Hpage. cbn [result_bind].
    destruct (issue_cursor_encodes library_id i (n - 1 + size + 1)) as (c & -> & Hne & Hdec & _); [done..|unfold is_u32, U32_MAX; lia|lia|].
    cbn [result_bind]. eexists. split; [done|]. split; [done|]. cbn. split; [lia|]. unfold starts_at. cbn. rewrite bool_decide_eq_false_2 by done. cbn.
    by replace (n + size) with (n - 1 + size + 1) by lia.
  - cbn [result_bind]. rewrite Hpage. cbn [result_bind]. eexists. split; [done|]. split; [done|]. cbn. lia.
Qed.
Lemma follow_issues_run fuel view library_id i size cursor n t report found :
  library_id <> AssetQuery.zero_library -> length library_id = 16%nat -> length i = 16%nat -> 1 <= size <= 64 ->
  (forall t, find_report (view t) i = Some report) -> report_of report found -> starts_at library_id i cursor n -> 1 <= n ->
  n - 1 < blen (issues report) \/ no_cursor cursor = true -> blen (issues report) - (n - 1) < Z.of_nat fuel ->
  follow_issues fuel view library_id i size cursor t = Ok (drop (Z.to_nat (n - 1)) (issues report)).
Proof.
  intros Hz Hl Hi Hsize Hf Hro. revert cursor n t. induction fuel as [|fuel IH]; intros cursor n t Hs Hn Hlt Hfuel.
  { exfalso. destruct Hlt as [?|Hno]; [lia|]. unfold starts_at in Hs. rewrite Hno in Hs. unfold blen in Hfuel. lia. }
  cbn [follow_issues].
  destruct (list_issues_page (view t) library_id i size cursor n report found) as (response & -> & Hp & Hnext); [done..|]. cbn [result_bind].
  destruct (next_cursor response) as [c|].
  - destruct Hnext as [Hmore Hstart]. rewrite (IH (Some c) (n + size)); [|done|lia|left; lia|lia]. cbn [result_bind]. rewrite Hp. f_equal.
    rewrite <- (take_drop (Z.to_nat size) (drop (Z.to_nat (n - 1)) (issues report))) at 2. f_equal. rewrite drop_drop. f_equal. lia.
  - rewrite Hp. f_equal. apply take_ge. rewrite length_drop. unfold blen in Hnext. lia.
Qed.
End cursors.

(** The issues of a report can be read completely.  As long as the report is kept,
    following the opaque cursors from the first page, with any page size the service
    accepts and whatever verifications complete in between, yields exactly its stored
    issues in order; a cursor decodes to the position it encodes, whatever the decoder
    accepts is the encoding of the position it returns, and a cursor is accepted for no
    other library and no other report. *)
Theorem issues_by_cursor_are_exact `{StoreEnv} `{!StoreEnvLaws H} (view : nat -> ReportState) (library_id i : Id) (size : Z) report found :
  library_id <> AssetQuery.zero_library -> length library_id = 16%nat -> length i = 16%nat -> 1 <= size <= 64 ->
  (forall t, find_report (view t) i = Some report) -> report_of report found ->
  follow_issues (S (length (issues report))) view library_id i size None 0 = Ok (issues report) /\
  (forall n, is_u32 n -> n <> 0 -> exists c, encode_issue_cursor library_id i n = Ok c /\ decode_issue_cursor c library_id i = Ok n /\
     forall library_id' i', is_ok (decode_issue_cursor c library_id' i') = true -> library_id' = library_id /\ i' = i) /\
  (forall c n, decode_issue_cursor c library_id i = Ok n -> encode_issue_cursor library_id i n = Ok c).
Proof.
  intros Hz Hl Hi Hsize Hf Hro. split_and!.
  - eapply (follow_issues_run _ _ _ _ _ None 1); [done..|lia|by right|unfold blen; lia].
  - intros n Hn Hn0. destruct (issue_cursor_encodes library_id i n Hz Hl Hi Hn Hn0) as (c & ? & _ & ? & ?). eauto.
  - intros c n. by apply issue_cursor_decodes.
Qed.
(** ** A concrete owner *)

Module Example.
Definition library : Id := repeat x01 16.
Definition ids (n : nat) : option Id := Some (repeat x07 16).
Definition lost : IntegrityFinding := {|
  f_kind := ManagedBlobMissing; f_severity := DegradedCustody; f_object_kind := KBlob; f_object_id := Some (DigestObject (repeat x05 32));
  f_remediation := FutureAdminAction |}.
Definition broken : IntegrityFinding := {|
  f_kind := EventOrGraphInconsistent; f_severity := FatalLocal; f_object_kind := KLocation; f_object_id := Some (UuidObject (repeat x06 16));
  f_remediation := NoRemediation |}.
Definition fresh : ReportState := {| active := false; reports := [] |}.
Definition run0 : VerificationRun := {|
  run_id := repeat x07 16; run_mode := Normal; run_snapshot := None; run_discovered := 0; run_issues := []; run_fatal := false;
  run_custody := false; run_first_fatal := None |}.
Definition run3 : VerificationRun := (record_finding (record_finding (bind_snapshot run0 9).2 lost).2 broken).2.
Definition done_state : ReportState := (finish run3 {| active := true; reports := [] |} false).2.
Definition begun : Log := {| log_id := repeat x07 16; log_mode := Normal; log_snapshot := None; log_found := [] |}.
Definition done_log : Log := recorded (recorded (bound begun 9) lost) broken.
Lemma done_history : history done_state [] [done_log].
Proof.
  assert (history {| active := true; reports := [] |} [(run0, begun)] []) as H0.
  { apply (h_begin fresh [] [] ids Normal (Ok run0)); [by apply (h_new library)|done]. }
  apply (h_bind _ [] run0 begun [] [] 9) in H0; [|done]. apply (h_record _ [] _ _ [] [] lost) in H0; [|done].
  apply (h_record _ [] _ _ [] [] broken) in H0; [|done]. by apply (h_finish _ [] _ _ [] [] false) in H0.
Qed.
Definition report : CompletedReport := {|
  summary := {| verification_id := repeat x07 16; mode := Normal; snapshot_commit_sequence := 9; discovered_issue_count := 2;
    stored_issue_count := 2; dropped_issue_count := 0; has_fatal_local_issue := true; has_custody_degradation := true;
    canonical_extra_classification_deferred := false; first_fatal_issue := Some (numbered 1 broken) |};
  issues := [numbered 0 lost; numbered 1 broken] |}.
Lemma report_found : report_of report [lost; broken].
Proof. split; try reflexivity. repeat constructor. Qed.
End Example.

Lemma verification_reports_are_faithful_witness :
  reports Example.done_state = [Example.report] /\ describes Example.report Example.done_log.
Proof.
  split; [vm_compute; reflexivity|].
  destruct (verification_reports_are_faithful Example.done_state [] [Example.done_log] Example.done_history) as (_ & _ & Ht & _).
  change (reports Example.done_state) with [Example.report] in Ht. by apply Forall2_cons_1 in Ht as [Ht _].
Defined.
Lemma issues_by_cursor_are_exact_witness :
  @follow_issues CursorFacts.strict_env 3 (fun _ => Example.done_state) Example.library (repeat x07 16) 1 None 0 = Ok (issues Example.report) /\
  (forall n, is_u32 n -> n <> 0 -> exists c, @encode_issue_cursor CursorFacts.strict_env Example.library (repeat x07 16) n = Ok c /\
     @decode_issue_cursor CursorFacts.strict_env c Example.library (repeat x07 16) = Ok n /\
     forall library_id' i', is_ok (@decode_issue_cursor CursorFacts.strict_env c library_id' i') = true ->
       library_id' = Example.library /\ i' = repeat x07 16) /\
  (forall c n, @decode_issue_cursor CursorFacts.strict_env c Example.library (repeat x07 16) = Ok n ->
     @encode_issue_cursor CursorFacts.strict_env Example.library (repeat x07 16) n = Ok c).
Proof.
  assert (Example.library <> AssetQuery.zero_library) as Hz by discriminate. assert (1 <= 1 <= 64) as Hs by lia.
  pose proof (@issues_by_cursor_are_exact CursorFacts.strict_env CursorFacts.strict_env_laws (fun _ => Example.done_state) Example.library
    (repeat x07 16) 1 Example.report [Example.lost; Example.broken] Hz eq_refl eq_refl Hs (fun _ => eq_refl) Example.report_found) as Ht. exact Ht.
Defined.
End IntegrityFacts.
