(* ===== verification/Verification.v ===== *)
(** Verification of a library: the scans of mengxia-store-sqlite/src/verification.rs and
    the service of mengxia-app/src/verification.rs over them.

    A verification captures the last event sequence, then reads the ledger and the
    managed locations in pages of at most 256 rows.  Every page is a read of its own, so
    the library may change between two of them: [library_at] is the library that the
    numbered read finds.  The caller's control, the outcome of a read that the runtime
    refuses or that SQLite fails, the result of SQLite's own integrity checks, the
    adapter that looks at the blobs and the identity source are parameters. *)
From Stdlib Require Import ZArith Lia String.
From Stdlib Require Import Strings.Byte Init.Byte.
From stdpp Require Import prelude list gmap.
From S2P Require Import Prelude RustText Ord Types AssetDomain CreativeDomain Ports CommandLedger CreativeStore AssetStore StartupRecovery AssetQuery AssetInspect AssetCursors Integrity.

Set Warnings "-clear-no-such-hyp".

Module Verification.
Import Ports Ledger Assets Startup Integrity.

(** ** Pages *)

Record VerificationSnapshot := { vs_library_id : Id; vs_sequence : Z }.
Definition verification_snapshot_from_store (library_id : Id) (sequence : Z) : res VerificationSnapshot :=
  if bool_decide (library_id = AssetQuery.zero_library) || (I64_MAX <? sequence) then Err SeStorageCorruption
  else Ok {| vs_library_id := library_id; vs_sequence := sequence |}.

Inductive VerificationScanPosition := CommandsAfter (id : option Id) | ManagedLocationsAfter (id : option Id) | ScanComplete.
#[global] Instance VerificationScanPosition_eq_dec : EqDecision VerificationScanPosition.
Proof. solve_decision. Defined.

Record RegisteredBlobVerificationCandidate := {
  cd_digest : list byte; cd_byte_length : Z; cd_blob_revision : Z; cd_location_id : Id; cd_location_revision : Z;
  cd_backend_id : list byte; cd_locator : list byte }.
Definition text_refused (text : list byte) (limit : Z) : bool :=
  bool_decide (text = []) || (limit <? blen text) || existsb (fun b => bool_decide (b = x00)) text.
Definition candidate_from_store (c : RegisteredBlobVerificationCandidate) : res RegisteredBlobVerificationCandidate :=
  if (cd_blob_revision c =? 0) || (cd_location_revision c =? 0) || text_refused (cd_backend_id c) 255
     || text_refused (cd_locator c) 1024
  then Err SeStorageCorruption else Ok c.

Record VerificationStorePage := {
  findings : list IntegrityFinding; candidates : list RegisteredBlobVerificationCandidate; next : VerificationScanPosition }.
Definition page_from_store (p : VerificationStorePage) : res VerificationStorePage :=
  if (256 <? blen (findings p)) || (256 <? blen (candidates p)) then Err SeInternal else Ok p.

(** ** Computations *)

(** What the outside answers to the numbered call: the control, the library that a read
    finds, the refusal of a read, whether SQLite interrupted it, its integrity checks, the
    blob adapter and the identity source. *)
Record Outside := {
  control : Control; library_at : nat -> Library; refused : nat -> option AssetStoreError; interrupted : nat -> bool;
  quick_check_ok : nat -> bool; foreign_keys_ok : nat -> bool;
  verify_registered_blob : nat -> RegisteredBlobVerificationCandidate -> VerificationMode -> res (option IntegrityFinding);
  next_id : nat -> option Id }.

Definition V (A : Type) : Type := nat -> res A * nat.
#[global] Instance V_ret : MRet V := fun A a t => (Ok a, t).
#[global] Instance V_bind : MBind V := fun A B k m t => match m t with (Ok a, t) => k a t | (Err e, t) => (Err e, t) end.
Definition answer {A} (f : nat -> A) : V A := fun t => (Ok (f t), S t).
Definition give {A} (r : res A) : V A := fun t => (r, t).

Section verification.
Context `{StoreEnv} (out : Outside).

Definition obeyed (d : IngestDirective) : res () :=
  match d with Continue => Ok tt | Stop stop => Err (controlled_stop_error stop) end.
(** [verification_checkpoint] of the store and [checkpoint] of the service. *)
Definition verification_checkpoint : V () := d ← answer (checkpoint_at (control out)); give (obeyed d).

(** [with_controlled_read_interrupt] around a read that itself asks the control: the
    operation, unless SQLite interrupted it, and what the control says after it. *)
Definition read_once {A} (operation : Library -> V A) : V A := fun t =>
  let '(result, t) := if interrupted out t then (Err SeOperationCancelled, S t) else operation (library_at out t) (S t) in
  let stop := checkpoint_at (control out) t in
  let result :=
    if match result with Err SeOperationCancelled => true | _ => false end
    then Err match stop with Stop stop => controlled_stop_error stop | Continue => SeInternal end
    else match stop with Stop stop => Err (controlled_stop_error stop) | Continue => result end in
  (if clear_interrupt (control out) (S t) then result else Err SeInternal, S (S t)).
Definition controlled_read {A} (operation : Library -> V A) : V A :=
  d ← answer (register_interrupt (control out));
  d ← give (ok_or SeInternal d);
  _ ← give (obeyed d);
  read_once operation.
(** [submit_read]: the runtime may refuse the job. *)
Definition submit_read {A} (job : V A) : V A :=
  r ← answer (refused out);
  match r with Some e => give (Err e) | None => job end.

(** ** The scans *)

Definition capture_snapshot (library_id : Id) (l : Library) : V VerificationSnapshot :=
  quick ← answer (quick_check_ok out);
  if negb quick then give (Err SeStorageCorruption)
  else
    foreign ← answer (foreign_keys_ok out);
    if negb foreign then give (Err SeStorageCorruption)
    else give (
      let? allocator := AssetQuery.valid_sequence (Store.last_sequence (base l)) in
      let? maximum := AssetQuery.valid_sequence (AssetQuery.max_event l) in
      if negb (allocator =? maximum) then Err SeStorageCorruption
      else verification_snapshot_from_store library_id allocator).

Definition STORE_SCAN_PAGE_MAX : nat := 256.
Definition graph_finding (kind : IntegrityObjectKind) (id : option IntegrityObjectId) : res IntegrityFinding :=
  integrity_finding_new EventOrGraphInconsistent FatalLocal kind id NoRemediation.

(** [WHERE (? IS NULL OR id>?) ORDER BY id LIMIT 257]. *)
Definition ids_after {A} (m : gmap Id A) (keep : Id -> A -> bool) (after : option Id) : list Id :=
  btree_collect (map fst (List.filter (fun '(i, a) => keep i a && beyond after i) (map_to_list m))).
Definition rows_after {A} (m : gmap Id A) (keep : Id -> A -> bool) (after : option Id) : list (Id * A) :=
  omap (fun i => option_map (pair i) (m !! i)) (take (S STORE_SCAN_PAGE_MAX) (ids_after m keep after)).

Definition recovery_finding (id : Id) (operation : OperationId) : res IntegrityFinding :=
  if bool_decide (operation = ASSET_MATERIALIZE_V1)
  then integrity_finding_new MaterializationRecoveryRequired OperatorAction KMaterialization (Some (UuidObject id)) OperatorConfiguration
  else integrity_finding_new CommandRecoveryRequired OperatorAction KCommand (Some (UuidObject id)) OperatorOrRuntimeAction.
(** What the loop of [scan_commands] pushes for one row. *)
Definition command_findings (current_runtime_id : list byte) (id : Id) (row : CommandRow) : res (list IntegrityFinding) :=
  let graph := let? f := graph_finding KCommand (Some (UuidObject id)) in Ok [f] in
  let operation := c_operation_id row in
  if negb (is_current_operation operation) then graph
  else
    let external := bool_decide (operation = ASSET_INGEST_COPY_V1) || bool_decide (operation = ASSET_MATERIALIZE_V1) in
    let recovery := let? f := recovery_finding id operation in Ok [f] in
    if negb (bool_decide (length (c_runtime_id row) = 16%nat)) then Err SeStorageCorruption
    else match c_state row with
    | CLAIMED => if external && negb (bool_decide (c_runtime_id row = current_runtime_id)) then recovery else Ok []
    | RECOVERY_REQUIRED => if external && negb (none (c_safe_error_code row)) then recovery else graph
    | COMPLETED | TERMINAL_REJECTED => Ok []
    end.
(** The loops: what was found, the identities that were read, most recent last. *)
Fixpoint scan_command_rows (current_runtime_id : list byte) (rows : list (Id * CommandRow)) (found : list IntegrityFinding) (ids : list Id)
  : V (list IntegrityFinding * list Id) :=
  match rows with
  | [] => mret (found, ids)
  | (i, raw) :: rest =>
      _ ← verification_checkpoint;
      row ← give (validate_command_row raw);
      id ← give (checked_id i);
      let ids := ids ++ [id] in
      if Z.of_nat STORE_SCAN_PAGE_MAX <? blen ids then mret (found, ids)
      else
        more ← give (command_findings current_runtime_id id row);
        scan_command_rows current_runtime_id rest (found ++ more) ids
  end.
Definition scan_commands (current_runtime_id : list byte) (after : option Id) (l : Library) : V VerificationStorePage :=
  '(found, ids) ← scan_command_rows current_runtime_id (rows_after (commands l) (fun _ _ => true) after) [] [];
  let has_more := Z.of_nat STORE_SCAN_PAGE_MAX <? blen ids in
  let next := if has_more then CommandsAfter (list.last (take STORE_SCAN_PAGE_MAX ids)) else ManagedLocationsAfter None in
  give (page_from_store {| findings := found; candidates := []; next := next |}).

(** The join of a completed command of the location with its event at or before the
    snapshot. *)
Definition registers (l : Library) (snapshot : Z) (location : Id) (e : Store.DomainEvent) : bool :=
  match commands l !! Store.de_command_id e with
  | Some c =>
      bool_decide (c_result_location_id c = Some location) && bool_decide (c_state c = COMPLETED)
      && (Store.de_sequence e <=? snapshot)
      && (bool_decide (c_operation_id c = bs "asset.ingest.v1") && bool_decide (Store.de_type e = bs "asset.registered.v1")
            && bool_decide (Store.de_aggregate_kind e = bs "ASSET")
          || bool_decide (c_operation_id c = bs "blob.location.record.v1") && bool_decide (Store.de_type e = bs "blob.location.recorded.v1")
            && bool_decide (Store.de_aggregate_kind e = bs "BLOB"))
  | None => false
  end.
Definition registrations (l : Library) (snapshot : Z) (location : Id) : list Store.DomainEvent :=
  List.filter (registers l snapshot location) (Store.events (base l)).
Definition scanned_location (l : Library) (snapshot : Z) (i : Id) (r : LocationRow) : bool :=
  negb (none (blobs l !! l_digest r)) && negb (bool_decide (registrations l snapshot i = [])).

(** What the loop of [scan_locations] makes of one row. *)
Definition location_row (l : Library) (snapshot : Z) (id : Id) (r : LocationRow)
  : res (list IntegrityFinding * list RegisteredBlobVerificationCandidate) :=
  let? b := ok_or SeStorageCorruption (blobs l !! l_digest r) in
  let? digest := checked_digest (l_digest r) in
  let? location_revision := AssetQuery.parse_revision (l_revision r) in
  let? byte_length := ok_or SeStorageCorruption (try_into 1099511627776 (b_length b)) in
  let? blob_revision := AssetQuery.parse_revision (b_revision b) in
  if bool_decide (l_custody r = MANAGED) && bool_decide (l_durability r = DURABLE) && bool_decide (l_lifecycle r = AVAILABLE)
     && bool_decide (b_lifecycle b = AssetModel.BlobAvailable) && (blen (registrations l snapshot id) =? 1)
  then
    let? c := candidate_from_store {| cd_digest := digest; cd_byte_length := byte_length; cd_blob_revision := blob_revision;
                cd_location_id := id; cd_location_revision := location_revision; cd_backend_id := l_backend_id r;
                cd_locator := l_locator r |} in
    Ok ([], [c])
  else let? f := graph_finding KLocation (Some (UuidObject id)) in Ok ([f], []).
Fixpoint scan_location_rows (l : Library) (snapshot : Z) (rows : list (Id * LocationRow)) (found : list IntegrityFinding)
    (managed : list RegisteredBlobVerificationCandidate) (ids : list Id)
  : V (list IntegrityFinding * list RegisteredBlobVerificationCandidate * list Id) :=
  match rows with
  | [] => mret (found, managed, ids)
  | (i, r) :: rest =>
      _ ← verification_checkpoint;
      id ← give (checked_id i);
      let ids := ids ++ [id] in
      if Z.of_nat STORE_SCAN_PAGE_MAX <? blen ids then mret (found, managed, ids)
      else
        '(more, c) ← give (location_row l snapshot id r);
        scan_location_rows l snapshot rest (found ++ more) (managed ++ c) ids
  end.
Definition scan_locations (snapshot_sequence : Z) (after : option Id) (l : Library) : V VerificationStorePage :=
  snapshot ← give (ok_or SeValidation (try_into I64_MAX snapshot_sequence));
  '(found, managed, ids) ←
    scan_location_rows l snapshot (rows_after (locations l) (scanned_location l snapshot) after) [] [] [];
  let has_more := Z.of_nat STORE_SCAN_PAGE_MAX <? blen ids in
  let next := if has_more then ManagedLocationsAfter (list.last (take STORE_SCAN_PAGE_MAX ids)) else ScanComplete in
  give (page_from_store {| findings := found; candidates := managed; next := next |}).

(** ** The port *)

Context (library_id : Id) (runtime : list byte).

Definition capture_verification_snapshot : V VerificationSnapshot :=
  submit_read (controlled_read (capture_snapshot library_id)).
Definition scan_verification_page (snapshot : VerificationSnapshot) (position : VerificationScanPosition) : V VerificationStorePage :=
  submit_read (controlled_read (fun l =>
    if negb (bool_decide (vs_library_id snapshot = library_id)) then give (Err SeValidation)
    else match position with
    | CommandsAfter after => scan_commands runtime after l
    | ManagedLocationsAfter after => scan_locations (vs_sequence snapshot) after l
    | ScanComplete => give (page_from_store {| findings := []; candidates := []; next := ScanComplete |})
    end)).

(** ** The service *)

(** The loop over the findings of a page; each step may stop, and the run is threaded
    through because a failed step has changed it. *)
Fixpoint record_findings (r : VerificationRun) (found : list IntegrityFinding) : V VerificationRun :=
  match found with
  | [] => mret r
  | f :: rest =>
      _ ← verification_checkpoint;
      let '(result, r) := record_finding r f in
      _ ← give result;
      record_findings r rest
  end.
Fixpoint record_candidates (r : VerificationRun) (mode : VerificationMode) (managed : list RegisteredBlobVerificationCandidate)
  : V VerificationRun :=
  match managed with
  | [] => mret r
  | c :: rest =>
      _ ← verification_checkpoint;
      observed ← answer (fun t => verify_registered_blob out t c mode);
      found ← give observed;
      match found with
      | None => record_candidates r mode rest
      | Some f =>
          let '(result, r) := record_finding r f in
          _ ← give result;
          record_candidates r mode rest
      end
  end.
(** The loop over the pages; [None] when the fuel runs out. *)
Fixpoint verify_pages (fuel : nat) (r : VerificationRun) (mode : VerificationMode) (snapshot : VerificationSnapshot)
    (position : VerificationScanPosition) : V (option VerificationRun) :=
  match fuel with
  | O => mret None
  | S fuel =>
      _ ← verification_checkpoint;
      page ← scan_verification_page snapshot position;
      r ← record_findings r (findings page);
      r ← record_candidates r mode (candidates page);
      if bool_decide (next page = ScanComplete) then mret (Some r)
      else if bool_decide (next page = position) then give (Err SeInternal)
      else verify_pages fuel r mode snapshot (next page)
  end.
Definition verify_run (fuel : nat) (r : VerificationRun) (mode : VerificationMode) : V (option VerificationRun) :=
  snapshot ← capture_verification_snapshot;
  let '(result, r) := bind_snapshot r (vs_sequence snapshot) in
  _ ← give result;
  verify_pages fuel r mode snapshot (CommandsAfter None).

(** [verify_controlled], over the state of the report owner: an error drops the run.  The
    outer [None] is a page loop that ran out of fuel. *)
Definition verify_controlled (fuel : nat) (mode : VerificationMode) (s : ReportState) (t : nat)
  : option (res VerificationSummary) * ReportState * nat :=
  match verification_checkpoint t with
  | (Err e, t) => (Some (Err e), s, t)
  | (Ok _, t) =>
      match begin s (next_id out) mode with
      | (Err e, s) => (Some (Err e), s, t)
      | (Ok r, s) =>
          match verify_run fuel r mode t with
          | (Err e, t) => (Some (Err e), released s, t)
          | (Ok None, t) => (None, s, t)
          | (Ok (Some r), t) => let '(result, s) := finish r s false in (Some result, s, t)
          end
      end
  end.
End verification.
End Verification.
