(* ===== verification/VerificationFacts.v ===== *)
(** Verification of a library: it ends, whatever happens meanwhile, and on a library that
    stays as it is its report is exactly what the tables and the blobs show. *)
From Stdlib Require Import ZArith Lia String.
From Stdlib Require Import Strings.Byte Init.Byte.
From stdpp Require Import prelude list gmap sorting.
From S2P Require Import Prelude RustText Ord Types AssetDomain CreativeDomain Ports CommandLedger CreativeStore StoreScenario AssetStore AssetCommands CommandRows AssetLedger AssetScenario AssetHistory StartupRecovery StartupFacts AssetQuery AssetInspect AssetCursors Integrity IntegrityFacts Verification.

Set Warnings "-clear-no-such-hyp".

Module VerificationFacts.
Import Ports Ledger Assets Startup StartupFacts Integrity IntegrityFacts Verification.

(** ** The monad *)

Lemma vbind_ok {A B} (m : V A) (k : A -> V B) t b t' :
  (m ≫= k) t = (Ok b, t') <-> exists a t1, m t = (Ok a, t1) /\ k a t1 = (Ok b, t').
Proof.
  unfold mbind, V_bind. destruct (m t) as [[a|e] t1]; split.
  - intros Hk. by exists a, t1.
  - by intros (? & ? & [= <- <-] & ?).
  - done.
  - by intros (? & ? & ? & ?).
Qed.
Lemma vbind_run {A B} (m : V A) (k : A -> V B) t a t1 : m t = (Ok a, t1) -> (m ≫= k) t = k a t1.
Proof. unfold mbind, V_bind. by intros ->. Qed.
Lemma give_ok {A} (r : res A) t a t' : give r t = (Ok a, t') <-> r = Ok a /\ t' = t.
Proof. unfold give. split; [by intros [= -> ->]|by intros [-> ->]]. Qed.

Lemma give_run {A} (r : res A) t a : r = Ok a -> give r t = (Ok a, t).
Proof. by intros ->. Qed.
(** Executes the first call of a computation with what is known of it. *)
Ltac vgive H := rewrite (vbind_run _ _ _ _ _ (give_run _ _ _ H)).
Ltac vrun H := rewrite (vbind_run _ _ _ _ _ H).

(** ** Pages of a table *)

Section pages.
Context {A : Type}.
Implicit Types (m : gmap Id A) (keep : Id -> A -> bool).

Lemma ids_elem m keep after i :
  i ∈ ids_after m keep after <-> exists a, m !! i = Some a /\ keep i a = true /\ beyond after i = true.
Proof.
  unfold ids_after. rewrite btree_collect_elem, list_elem_of_In, in_map_iff. split.
  - intros ([k a] & Hk & Hin). apply filter_In in Hin as [Hin Hc]. cbn in Hk. subst k.
    apply list_elem_of_In, elem_of_map_to_list in Hin. exists a. bool_hyps. done.
  - intros (a & Hm & Hk & Hb). exists (i, a). split; [done|]. apply filter_In. split.
    + by apply list_elem_of_In, elem_of_map_to_list.
    + by rewrite Hk, Hb.
Qed.
Lemma ids_sorted m keep after : StronglySorted rlt (ids_after m keep after).
Proof. apply btree_collect_sorted. Qed.
Lemma ids_next m keep after n x :
  list.last (take n (ids_after m keep after)) = Some x -> ids_after m keep (Some x) = drop n (ids_after m keep after).
Proof.
  intros Hx. set (ids := ids_after m keep after) in *. pose proof (ids_sorted m keep after) as Hs. fold ids in Hs.
  rewrite <- (take_drop n ids) in Hs.
  assert (forall i, i ∈ take n ids -> ~ rlt x i) as Hle.
  { intros i Hi Hxi. destruct (sorted_last (take n ids) x i) as [->|Hlt]; [by eapply StronglySorted_app_1_l|done|done| |].
    - unfold rlt in Hxi. by rewrite rcmp_refl in Hxi.
    - by eapply rlt_asym. }
  assert (x ∈ take n ids) as Hxin by (apply last_Some in Hx as [k ->]; set_solver).
  apply sorted_ext; [apply ids_sorted|by eapply StronglySorted_app_1_r|]. intros j. rewrite ids_elem. split.
  - intros (a & Ha & Hk & Hj). pose proof Hj as Hj'. cbn in Hj. apply bool_decide_eq_true in Hj. assert (j ∈ ids) as Hin.
    { apply ids_elem. exists a. split_and!; [done..|]. eapply beyond_trans; [|exact Hj'].
      eapply subseteq_take, ids_elem in Hxin as (? & _ & _ & ?). done. }
    rewrite <- (take_drop n ids) in Hin. apply elem_of_app in Hin as [Hin|?]; [|done]. by destruct (Hle j Hin).
  - intros Hj. assert (rlt x j) as Hxj by (eapply StronglySorted_app_1_elem_of; done).
    eapply subseteq_drop, ids_elem in Hj as (a & Ha & Hk & _). exists a. split_and!; [done..|]. cbn. by apply bool_decide_eq_true.
Qed.

(** The rows that are left behind a position. *)
Definition remaining m keep after : list (Id * A) := omap (fun i => option_map (pair i) (m !! i)) (ids_after m keep after).
Lemma omap_present m ids : Forall (fun i => is_Some (m !! i)) ids ->
  let row i := option_map (pair i) (m !! i) in
  (omap row ids).*1 = ids /\ forall n, omap row (take n ids) = take n (omap row ids) /\ omap row (drop n ids) = drop n (omap row ids).
Proof.
  intros Hf row. induction Hf as [|i ids [a Ha] _ [IH1 IH2]]; [split; [done|by intros []]|].
  assert (row i = Some (i, a)) as Hrow by (unfold row; by rewrite Ha). cbn. rewrite Hrow. cbn. rewrite IH1. split; [done|].
  intros [|n]; cbn; rewrite ?Hrow; [done|]. destruct (IH2 n) as [IH3 IH4]. by rewrite IH3, IH4.
Qed.
Lemma ids_present m keep after : Forall (fun i => is_Some (m !! i)) (ids_after m keep after).
Proof. apply Forall_forall. intros i (a & -> & _)%ids_elem. done. Qed.
Lemma remaining_ids m keep after : (remaining m keep after).*1 = ids_after m keep after.
Proof. apply (omap_present m), ids_present. Qed.
Lemma rows_take m keep after : rows_after m keep after = take 257 (remaining m keep after).
Proof. exact (proj1 (proj2 (omap_present m _ (ids_present m keep after)) 257%nat)). Qed.
Lemma remaining_next m keep after n x : list.last (take n (ids_after m keep after)) = Some x ->
  remaining m keep (Some x) = drop n (remaining m keep after).
Proof. intros Hx. unfold remaining. rewrite (ids_next _ _ _ _ _ Hx). apply (omap_present m), ids_present. Qed.
Lemma remaining_elem m keep after i a : (i, a) ∈ remaining m keep after <-> m !! i = Some a /\ keep i a = true /\ beyond after i = true.
Proof.
  unfold remaining. rewrite list_elem_of_omap. split.
  - intros (k & (b & Hm & Hk & Hb)%ids_elem & Hi). rewrite Hm in Hi. injection Hi as -> ->. done.
  - intros (Hm & Hk & Hb). exists i. split; [apply ids_elem; eauto|]. by rewrite Hm.
Qed.
End pages.

(** ** A verification ends *)

Section facts.
Context `{StoreEnv} (out : Outside).

Lemma checked_id_inv i x : checked_id i = Ok x -> x = i.
Proof. unfold checked_id, id_bytes. cbn. intros Hc. inv_result. congruence. Qed.
Lemma command_rows_ids rt rows found ids t f ids' t' :
  scan_command_rows out rt rows found ids t = (Ok (f, ids'), t') -> exists n, ids' = ids ++ take n rows.*1.
Proof.
  revert found ids t. induction rows as [|[i raw] rows IH]; intros found ids t; cbn [scan_command_rows].
  { intros Hr. injection Hr as <- <- <-. exists 0%nat. by rewrite app_nil_r. }
  intros (? & t1 & _ & Hr)%vbind_ok. apply vbind_ok in Hr as (row & ? & _ & Hr). apply vbind_ok in Hr as (j & ? & [Hx ->]%give_ok & Hr).
  apply checked_id_inv in Hx as ->. destruct (_ <? _).
  - injection Hr as <- <- <-. by exists 1%nat.
  - apply vbind_ok in Hr as (more & ? & _ & Hr). apply IH in Hr as [n ->]. exists (S n). cbn. by rewrite <- app_assoc.
Qed.
Lemma location_rows_ids l q rows found managed ids t f c ids' t' :
  scan_location_rows out l q rows found managed ids t = (Ok (f, c, ids'), t') -> exists n, ids' = ids ++ take n rows.*1.
Proof.
  revert found managed ids t. induction rows as [|[i r] rows IH]; intros found managed ids t; cbn [scan_location_rows].
  { intros Hr. injection Hr as <- <- <- <-. exists 0%nat. by rewrite app_nil_r. }
  intros (? & t1 & _ & Hr)%vbind_ok. apply vbind_ok in Hr as (j & ? & [Hx ->]%give_ok & Hr).
  apply checked_id_inv in Hx as ->. destruct (_ <? _).
  - injection Hr as <- <- <- <-. by exists 1%nat.
  - apply vbind_ok in Hr as ([more c'] & ? & _ & Hr). apply IH in Hr as [n ->]. exists (S n). cbn. by rewrite <- app_assoc.
Qed.
(** The position behind a full page. *)
Lemma position_behind {A} (m : gmap Id A) keep after n :
  let ids := take n (rows_after m keep after).*1 in
  (Z.of_nat STORE_SCAN_PAGE_MAX <? blen ids) = true ->
  exists i, list.last (take STORE_SCAN_PAGE_MAX ids) = Some i /\ i ∈ dom m /\ beyond after i = true.
Proof.
  intros ids Hl. destruct (list.last (take STORE_SCAN_PAGE_MAX ids)) as [i|] eqn:Ei.
  - exists i. split; [done|]. apply last_Some in Ei as [k Hk]. assert (i ∈ take STORE_SCAN_PAGE_MAX ids) as Hi by (rewrite Hk; set_solver).
    unfold ids in Hi. rewrite rows_take, fmap_take, remaining_ids in Hi. do 3 apply subseteq_take in Hi.
    apply ids_elem in Hi as (a & Ha & _ & Hb). split; [by eapply elem_of_dom_2|done].
  - apply last_None in Ei. unfold blen in Hl. destruct ids; [done|]. done.
Qed.
Lemma scan_commands_next rt after l t p t' : scan_commands out rt after l t = (Ok p, t') ->
  next p = ManagedLocationsAfter None \/ exists i, next p = CommandsAfter (Some i) /\ i ∈ dom (commands l) /\ beyond after i = true.
Proof.
  unfold scan_commands. intros ([f ids] & t1 & Hr & Hp)%vbind_ok. apply give_ok in Hp as [Hp _]. unfold page_from_store in Hp. destruct (_ || _) in Hp; [done|]. injection Hp as <-.
  cbn [next]. apply command_rows_ids in Hr as [n ->]. cbn [app]. destruct (_ <? _) eqn:E; [right|by left]. apply position_behind in E as (i & -> & ?). eauto.
Qed.
Lemma scan_locations_next q after l t p t' : scan_locations out q after l t = (Ok p, t') ->
  next p = ScanComplete \/ exists i, next p = ManagedLocationsAfter (Some i) /\ i ∈ dom (locations l) /\ beyond after i = true.
Proof.
  unfold scan_locations. intros (q' & ? & [_ ->]%give_ok & Hp)%vbind_ok. apply vbind_ok in Hp as ([[f c] ids] & t1 & Hr & Hp).
  apply give_ok in Hp as [Hp _]. unfold page_from_store in Hp. destruct (_ || _) in Hp; [done|]. injection Hp as <-. cbn [next].
  apply location_rows_ids in Hr as [n ->]. cbn [app].
  destruct (_ <? _) eqn:E; [right|by left]. apply position_behind in E as (i & -> & ?). eauto.
Qed.

Lemma controlled_read_ok {A} (op : Library -> V A) t a t' :
  submit_read out (controlled_read out op) t = (Ok a, t') -> exists t0 t1 t2, op (library_at out t0) t1 = (Ok a, t2).
Proof.
  unfold submit_read. intros (r & ? & _ & Hc)%vbind_ok. destruct r; [done|]. unfold controlled_read in Hc.
  apply vbind_ok in Hc as (d & ? & _ & Hc). apply vbind_ok in Hc as (d' & ? & _ & Hc). apply vbind_ok in Hc as (? & t0 & _ & Hc).
  unfold read_once in Hc. destruct (interrupted out t0); [by destruct (checkpoint_at _ _), (clear_interrupt _ _)|].
  destruct (op (library_at out t0) (S t0)) as [r t2] eqn:Er. exists t0, (S t0), t2. rewrite Er. destruct (clear_interrupt _ _); [|done].
  injection Hc as Hc _. destruct (checkpoint_at _ _); [|by destruct (match r with Err SeOperationCancelled => _ | _ => _ end)].
  by destruct r as [|[]]; cbn in Hc; congruence.
Qed.

Context (library_id : Id) (runtime : list byte).

(** What is left to read, when the tables stay within [X] and [Y]. *)
Definition work (X Y : gset Id) (p : VerificationScanPosition) : nat :=
  match p with
  | CommandsAfter after => S (S (size (above after X) + size Y))
  | ManagedLocationsAfter after => S (size (above after Y))
  | ScanComplete => 0
  end.
Definition within_bounds (X Y : gset Id) : Prop := forall t, dom (commands (library_at out t)) ⊆ X /\ dom (locations (library_at out t)) ⊆ Y.
Lemma above_size (after : option Id) (Y : gset Id) : (size (above after Y) <= size Y)%nat.
Proof. apply subseteq_size. intros i. unfold above. rewrite elem_of_filter. by intros []. Qed.
Lemma page_works X Y snapshot position t p t' : within_bounds X Y ->
  scan_verification_page out library_id runtime snapshot position t = (Ok p, t') ->
  next p = ScanComplete \/ (work X Y (next p) < work X Y position)%nat.
Proof.
  intros Hb Hp. apply controlled_read_ok in Hp as (t0 & t1 & t2 & Hp). destruct (Hb t0) as [Hx Hy]. destruct (negb _); [done|].
  destruct position as [after|after|].
  - right. apply scan_commands_next in Hp as [->|(i & -> & Hi & Hbe)]; cbn [work].
    + pose proof (above_size None Y). lia.
    + pose proof (above_shrinks after i X (Hx _ Hi) Hbe). lia.
  - apply scan_locations_next in Hp as [->|(i & -> & Hi & Hbe)]; [by left|right]. cbn [work].
    pose proof (above_shrinks after i Y (Hy _ Hi) Hbe). lia.
  - left. apply give_ok in Hp as [Hp _]. unfold page_from_store in Hp. inv_result. done.
Qed.
Lemma verify_pages_ends X Y fuel r mode snapshot position t t' : within_bounds X Y -> (work X Y position < fuel)%nat ->
  verify_pages out library_id runtime fuel r mode snapshot position t <> (Ok None, t').
Proof.
  intros Hb. revert r position t. induction fuel as [|fuel IH]; intros r position t Hw; [lia|]. cbn [verify_pages]. intros Hr.
  apply vbind_ok in Hr as (? & ? & _ & Hr). apply vbind_ok in Hr as (p & t1 & Hp & Hr). apply vbind_ok in Hr as (r1 & ? & _ & Hr).
  apply vbind_ok in Hr as (r2 & ? & _ & Hr). destruct (page_works X Y _ _ _ _ _ Hb Hp) as [Hc|Hlt].
  - by rewrite bool_decide_eq_true_2 in Hr.
  - destruct (bool_decide _); [done|]. destruct (bool_decide _); [done|]. eapply IH; [|exact Hr]. lia.
Qed.

Lemma verify_run_ends X Y fuel r mode t t' : within_bounds X Y -> (S (S (S (size X + size Y))) <= fuel)%nat ->
  verify_run out library_id runtime fuel r mode t <> (Ok None, t').
Proof.
  intros Hb Hf Hr. unfold verify_run in Hr. apply vbind_ok in Hr as (snap & ? & _ & Hr). destruct (bind_snapshot _ _) as [bound r1].
  apply vbind_ok in Hr as (? & ? & _ & Hr). eapply (verify_pages_ends X Y); [done| |exact Hr]. cbn [work]. pose proof (above_size None X). lia.
Qed.

(** ** An undisturbed verification *)

(** Nothing stops the verification, the library stays as it is, and the adapter tells of
    each blob the same whenever it is asked. *)
Record undisturbed (l : Library) (look : RegisteredBlobVerificationCandidate -> option IntegrityFinding) (mode : VerificationMode) : Prop := {
  u_checkpoint : forall t, checkpoint_at (control out) t = Continue; u_register : forall t, register_interrupt (control out) t = Some Continue;
  u_clear : forall t, clear_interrupt (control out) t = true; u_library : forall t, library_at out t = l;
  u_refused : forall t, refused out t = None; u_interrupted : forall t, interrupted out t = false;
  u_quick : forall t, quick_check_ok out t = true; u_foreign : forall t, foreign_keys_ok out t = true;
  u_look : forall t c, verify_registered_blob out t c mode = Ok (look c) }.

(** The findings of the rows, when none of them is refused. *)
Definition ok_part {B} (default : B) (r : res B) : B := match r with Ok b => b | Err _ => default end.
Definition ledger_rows (l : Library) (after : option Id) : list (Id * CommandRow) := remaining (commands l) (fun _ _ => true) after.
Definition location_rows (l : Library) (q : Z) (after : option Id) : list (Id * LocationRow) := remaining (locations l) (scanned_location l q) after.
Definition row_findings (row : Id * CommandRow) : list IntegrityFinding := ok_part [] (command_findings runtime row.1 row.2).
Definition place_findings (l : Library) (q : Z) (row : Id * LocationRow) : list IntegrityFinding :=
  (ok_part ([], []) (location_row l q row.1 row.2)).1.
Definition place_candidates (l : Library) (q : Z) (row : Id * LocationRow) : list RegisteredBlobVerificationCandidate :=
  (ok_part ([], []) (location_row l q row.1 row.2)).2.

Definition row_readable (row : Id * CommandRow) : Prop := validate_command_row row.2 = Ok row.2 /\ checked_id row.1 = Ok row.1.
Definition place_readable (l : Library) (q : Z) (row : Id * LocationRow) : Prop :=
  checked_id row.1 = Ok row.1 /\ is_ok (location_row l q row.1 row.2) = true.

Lemma finding_new_typed k s o i m f : integrity_finding_new k s o i m = Ok f -> well_typed f.
Proof.
  unfold integrity_finding_new. intros Hf. apply result_bind_ok in Hf as (x & Hx & Hf). apply issue_new_inv in Hx as (? & ? & _).
  injection Hf as <-. done.
Qed.
Lemma graph_finding_run kind i : kind <> KBlob -> graph_finding kind (Some (UuidObject i)) = Ok {|
  f_kind := EventOrGraphInconsistent; f_severity := FatalLocal; f_object_kind := kind; f_object_id := Some (UuidObject i); f_remediation := NoRemediation |}.
Proof. by destruct kind. Qed.
Lemma recovery_finding_run i op : exists f, recovery_finding i op = Ok f /\ well_typed f.
Proof. unfold recovery_finding. destruct (bool_decide _); (eexists; split; [reflexivity|done]). Qed.
Lemma row_findings_run row : row_readable row ->
  command_findings runtime row.1 row.2 = Ok (row_findings row) /\ (length (row_findings row) <= 1)%nat /\ Forall well_typed (row_findings row).
Proof.
  intros [Hv _]. unfold row_findings, command_findings. rewrite graph_finding_run by done. cbn [result_bind].
  unfold validate_command_row in Hv. apply result_bind_ok in Hv as (? & _ & Hv). apply result_bind_ok in Hv as (? & Hr & _).
  unfold check_id, id_bytes in Hr. cbn in Hr. destruct (bool_decide (length (c_runtime_id row.2) = 16%nat)); [|done]. cbn [negb].
  destruct (recovery_finding_run row.1 (c_operation_id row.2)) as (f & -> & Hf). cbn [result_bind].
  destruct (is_current_operation _); cbn [negb]; [|by split_and!; [|cbn; lia|apply Forall_singleton]].
  set (external := _ || _). clearbody external.
  destruct (c_state row.2), external, (bool_decide (c_runtime_id row.2 = runtime)), (none (c_safe_error_code row.2));
    (split_and!; [reflexivity|cbn; lia|cbn; repeat (apply Forall_cons_2 || apply Forall_nil_2); done]).
Qed.

Context (l : Library) (look : RegisteredBlobVerificationCandidate -> option IntegrityFinding) (mode : VerificationMode).
Context (calm : undisturbed l look mode).

Lemma checkpoint_calm t : verification_checkpoint out t = (Ok tt, S t).
Proof. unfold verification_checkpoint, mbind, V_bind, answer. by rewrite (u_checkpoint _ _ _ calm). Qed.
Lemma read_calm {A} (op : Library -> V A) t a : (forall t', exists t2', op l t' = (Ok a, t2')) ->
  exists t', submit_read out (controlled_read out op) t = (Ok a, t').
Proof.
  intros Hop. unfold submit_read, controlled_read, mbind, V_bind, answer, give.
  rewrite (u_refused _ _ _ calm), (u_register _ _ _ calm). cbn [ok_or obeyed]. unfold read_once. rewrite (u_interrupted _ _ _ calm), (u_library _ _ _ calm).
  destruct (Hop (S (S (S t)))) as [t3 ->]. rewrite (u_checkpoint _ _ _ calm), (u_clear _ _ _ calm). eauto.
Qed.

Lemma scan_command_rows_run rows found ids t : Forall row_readable rows -> (length ids <= 256)%nat ->
  exists t', scan_command_rows out runtime rows found ids t =
    (Ok (found ++ concat (map row_findings (take (256 - length ids) rows)), ids ++ take (257 - length ids) rows.*1), t').
Proof.
  intros Hf. revert found ids t. induction Hf as [|[i r] rows Hrow _ IH]; intros found ids t Hi.
  { exists t. cbn [fmap list_fmap]. rewrite !take_nil. cbn. by rewrite !app_nil_r. }
  cbn [scan_command_rows]. vrun (checkpoint_calm t). destruct (row_findings_run _ Hrow) as [Hfi _]. destruct Hrow as [Hv Hc]. cbn [fst snd] in *.
  vgive Hv. vgive Hc.
  unfold blen, STORE_SCAN_PAGE_MAX. rewrite length_app. cbn [length]. destruct (Z.of_nat 256 <? _) eqn:E; [apply Z.ltb_lt in E|apply Z.ltb_ge in E].
  - assert (length ids = 256%nat) as -> by lia. eexists. unfold mret, V_ret. cbn. rewrite app_nil_r. reflexivity.
  - vgive Hfi. destruct (IH (found ++ row_findings (i, r)) (ids ++ [i]) (S t)) as [t' ->]; [rewrite length_app; cbn; lia|].
    exists t'. rewrite length_app. cbn [length]. replace (256 - length ids)%nat with (S (256 - (length ids + 1))) by lia.
    replace (257 - length ids)%nat with (S (257 - (length ids + 1))) by lia. cbn. by rewrite <- !app_assoc.
Qed.
Lemma scan_location_rows_run q rows found managed ids t : Forall (place_readable l q) rows -> (length ids <= 256)%nat ->
  exists t', scan_location_rows out l q rows found managed ids t =
    (Ok (found ++ concat (map (place_findings l q) (take (256 - length ids) rows)),
         managed ++ concat (map (place_candidates l q) (take (256 - length ids) rows)), ids ++ take (257 - length ids) rows.*1), t').
Proof.
  intros Hf. revert found managed ids t. induction Hf as [|[i r] rows Hrow _ IH]; intros found managed ids t Hi.
  { exists t. cbn [fmap list_fmap]. rewrite !take_nil. cbn. by rewrite !app_nil_r. }
  cbn [scan_location_rows]. vrun (checkpoint_calm t). destruct Hrow as [Hc Hl]. cbn [fst snd] in *.
  vgive Hc. unfold blen, STORE_SCAN_PAGE_MAX. rewrite length_app. cbn [length]. destruct (Z.of_nat 256 <? _) eqn:E; [apply Z.ltb_lt in E|apply Z.ltb_ge in E].
  - assert (length ids = 256%nat) as -> by lia. eexists. unfold mret, V_ret. cbn. rewrite !app_nil_r. reflexivity.
  - replace (256 - length ids)%nat with (S (256 - (length ids + 1))) by lia. replace (257 - length ids)%nat with (S (257 - (length ids + 1))) by lia.
    cbn [take map concat]. unfold place_findings at 1, place_candidates at 1. cbn [fst snd]. destruct (location_row l q i r) as [[fs cs]|]; [|done].
    vgive (@eq_refl _ (Ok (E := AssetStoreError) (fs, cs))). cbn [ok_part fst snd].
    destruct (IH (found ++ fs) (managed ++ cs) (ids ++ [i]) (S t)) as [t' ->]; [rewrite length_app; cbn; lia|].
    exists t'. rewrite length_app. cbn [length fmap list_fmap fst]. by rewrite <- !app_assoc.
Qed.

Lemma concat_few {A B} (g : A -> list B) rows n : Forall (fun x => (length (g x) <= 1)%nat) rows -> (length (concat (map g (take n rows))) <= n)%nat.
Proof.
  intros Hf. revert n. induction Hf as [|x rows Hx _ IH]; intros [|n]; cbn; try lia. rewrite length_app. specialize (IH n). lia.
Qed.
Lemma place_few q row : (length (place_findings l q row) <= 1)%nat /\ (length (place_candidates l q row) <= 1)%nat.
Proof.
  unfold place_findings, place_candidates, location_row. destruct (blobs l !! l_digest row.2) as [b|]; cbn [ok_or result_bind]; [|cbn; lia].
  destruct (checked_digest _); cbn [result_bind]; [|cbn; lia]. destruct (AssetQuery.parse_revision (l_revision row.2)); cbn [result_bind]; [|cbn; lia].
  destruct (try_into _ _); cbn [ok_or result_bind]; [|cbn; lia]. destruct (AssetQuery.parse_revision (b_revision b)); cbn [result_bind]; [|cbn; lia].
  destruct (_ && _); [destruct (candidate_from_store _); cbn [result_bind ok_part fst snd length]; lia|].
  rewrite graph_finding_run by done. cbn [result_bind ok_part fst snd length]. lia.
Qed.
Lemma place_typed q row : Forall well_typed (place_findings l q row).
Proof.
  unfold place_findings, location_row. destruct (blobs l !! l_digest row.2) as [b|]; cbn [ok_or result_bind]; [|constructor].
  destruct (checked_digest _); cbn [result_bind]; [|constructor]. destruct (AssetQuery.parse_revision (l_revision row.2)); cbn [result_bind]; [|constructor].
  destruct (try_into _ _); cbn [ok_or result_bind]; [|constructor]. destruct (AssetQuery.parse_revision (b_revision b)); cbn [result_bind]; [|constructor].
  destruct (_ && _); [destruct (candidate_from_store _); constructor|]. rewrite graph_finding_run by done. cbn. by apply Forall_singleton.
Qed.

(** The identities that a page has read decide whether there is another one. *)
Lemma page_ids_read {A} (m : gmap Id A) keep after :
  let ids := take 257 (rows_after m keep after).*1 in
  (Z.of_nat STORE_SCAN_PAGE_MAX <? blen ids) = (256 <? blen (remaining m keep after)) /\
  take STORE_SCAN_PAGE_MAX ids = take 256 (ids_after m keep after) /\
  take 256 (rows_after m keep after) = take 256 (remaining m keep after).
Proof.
  intros ids. unfold ids. rewrite rows_take, fmap_take, take_take, remaining_ids. change STORE_SCAN_PAGE_MAX with 256%nat. split_and!.
  - unfold blen. rewrite length_take, <- (length_fmap fst (remaining m keep after)), remaining_ids.
    apply eq_bool_prop_intro. rewrite !Is_true_true, !Z.ltb_lt. lia.
  - by rewrite take_take.
  - by rewrite take_take.
Qed.
Lemma scan_commands_run after t : Forall row_readable (ledger_rows l after) ->
  exists t', scan_commands out runtime after l t = (Ok {|
    findings := concat (map row_findings (take 256 (ledger_rows l after))); candidates := [];
    next := if 256 <? blen (ledger_rows l after) then CommandsAfter (list.last (take 256 (ids_after (commands l) (fun _ _ => true) after)))
            else ManagedLocationsAfter None |}, t').
Proof.
  intros Hr. unfold scan_commands. destruct (page_ids_read (commands l) (fun _ _ => true) after) as (Hmore & Hids & Hrows).
  destruct (scan_command_rows_run (rows_after (commands l) (fun _ _ => true) after) [] [] t) as [t' Hrun]; [rewrite rows_take; by apply Forall_take|cbn; lia|].
  vrun Hrun. exists t'. cbn [app length Nat.sub]. rewrite Hrows, Hids, Hmore. apply give_run. unfold page_from_store. cbn [findings candidates].
  replace (256 <? _) with false; [done|]. symmetry. apply Z.ltb_ge. unfold blen.
  pose proof (concat_few row_findings (ledger_rows l after) 256 (Forall_impl _ _ _ Hr (fun x Hx => proj1 (proj2 (row_findings_run x Hx))))). unfold ledger_rows in *. lia.
Qed.
Lemma scan_locations_run q after t : 0 <= q <= I64_MAX -> Forall (place_readable l q) (location_rows l q after) ->
  exists t', scan_locations out q after l t = (Ok {|
    findings := concat (map (place_findings l q) (take 256 (location_rows l q after)));
    candidates := concat (map (place_candidates l q) (take 256 (location_rows l q after)));
    next := if 256 <? blen (location_rows l q after) then ManagedLocationsAfter (list.last (take 256 (ids_after (locations l) (scanned_location l q) after)))
            else ScanComplete |}, t').
Proof.
  intros Hq Hr. unfold scan_locations. vgive (eq_trans (f_equal (ok_or SeValidation) (try_into_id I64_MAX q Hq)) eq_refl).
  destruct (page_ids_read (locations l) (scanned_location l q) after) as (Hmore & Hids & Hrows).
  destruct (scan_location_rows_run q (rows_after (locations l) (scanned_location l q) after) [] [] [] t) as [t' Hrun]; [rewrite rows_take; by apply Forall_take|cbn; lia|].
  vrun Hrun. exists t'. cbn [app length Nat.sub]. rewrite Hrows, Hids, Hmore. apply give_run. unfold page_from_store. cbn [findings candidates].
  assert (forall B (g : _ -> list B), (forall row, (length (g row) <= 1)%nat) -> (256 <? blen (concat (map g (take 256 (remaining (locations l) (scanned_location l q) after))))) = false) as Hfew.
  { intros B g Hg. apply Z.ltb_ge. unfold blen. pose proof (concat_few g (remaining (locations l) (scanned_location l q) after) 256 (Forall_true _ _ Hg)). lia. }
  rewrite !Hfew by apply place_few. done.
Qed.

(** Recording. *)
Definition same_run (r r' : VerificationRun) : Prop := run_id r' = run_id r /\ run_mode r' = run_mode r /\ run_snapshot r' = run_snapshot r.
Lemma record_same r f : same_run r (record_finding r f).2.
Proof. unfold record_finding, record_issue. destruct (checked_add _ _ _); [|done]. by destruct (result_bind _ _). Qed.
Lemma same_run_trans r1 r2 r3 : same_run r1 r2 -> same_run r2 r3 -> same_run r1 r3.
Proof. intros (? & ? & ?) (? & ? & ?). split_and!; congruence. Qed.
Lemma record_step r f found : found_by r found -> well_typed f -> blen found < U32_MAX ->
  exists r', record_finding r f = (Ok tt, r') /\ found_by r' (found ++ [f]) /\ same_run r r'.
Proof.
  intros Hr Hf Hn. pose proof (record_run r f found Hr Hf Hn) as Hrun. eexists. split; [exact Hrun|]. split; [by apply noted_found|].
  pose proof (record_same r f) as Hs. by rewrite Hrun in Hs.
Qed.
Lemma record_findings_run r fs found t : found_by r found -> Forall well_typed fs -> blen found + blen fs <= U32_MAX ->
  exists r' t', record_findings out r fs t = (Ok r', t') /\ found_by r' (found ++ fs) /\ same_run r r'.
Proof.
  intros Hr Hf. revert r found t Hr. induction Hf as [|f fs Hf _ IH]; intros r found t Hr Hn; cbn [record_findings].
  { exists r, t. by rewrite app_nil_r. }
  vrun (checkpoint_calm t). unfold blen in Hn. cbn [length] in Hn. destruct (record_step r f found Hr Hf) as (r1 & -> & Hr1 & Hs); [unfold blen; lia|].
  vgive (@eq_refl _ (Ok (E := AssetStoreError) tt)). destruct (IH r1 (found ++ [f]) (S t) Hr1) as (r2 & t2 & -> & Hr2 & Hs2); [unfold blen; rewrite length_app; cbn; lia|].
  exists r2, t2. rewrite <- app_assoc in Hr2. split_and!; [done..|]. by eapply same_run_trans.
Qed.
Lemma record_candidates_run r cs found t : found_by r found -> (forall c f, look c = Some f -> well_typed f) -> blen found + blen (omap look cs) <= U32_MAX ->
  exists r' t', record_candidates out r mode cs t = (Ok r', t') /\ found_by r' (found ++ omap look cs) /\ same_run r r'.
Proof.
  intros Hr Hl. revert r found t Hr. induction cs as [|c cs IH]; intros r found t Hr Hn; cbn [record_candidates].
  { exists r, t. cbn. by rewrite app_nil_r. }
  vrun (checkpoint_calm t). unfold mbind at 1, V_bind at 1, answer at 1. rewrite (u_look _ _ _ calm).
  vgive (@eq_refl _ (Ok (E := AssetStoreError) (look c))). cbn [omap list_omap] in *. destruct (look c) as [f|] eqn:Ec.
  - unfold blen in Hn. cbn [length] in Hn. destruct (record_step r f found Hr (Hl _ _ Ec)) as (r1 & -> & Hr1 & Hs); [unfold blen; lia|].
    vgive (@eq_refl _ (Ok (E := AssetStoreError) tt)). destruct (IH r1 (found ++ [f]) (S (S t)) Hr1) as (r2 & t2 & -> & Hr2 & Hs2); [unfold blen; rewrite length_app; cbn; lia|].
    exists r2, t2. rewrite <- app_assoc in Hr2. split_and!; [done..|]. by eapply same_run_trans.
  - by apply IH.
Qed.

(** ** The pages together *)

Context (q : Z) (q_ok : 0 <= q <= I64_MAX) (look_typed : forall c f, look c = Some f -> well_typed f).
Definition snap : VerificationSnapshot := {| vs_library_id := library_id; vs_sequence := q |}.

Lemma page_step fuel r found position t p :
  (forall t0, exists t1, scan_verification_page out library_id runtime snap position t0 = (Ok p, t1)) ->
  found_by r found -> Forall well_typed (findings p) -> blen found + blen (findings p) + blen (omap look (candidates p)) <= U32_MAX ->
  exists r2 t2, found_by r2 (found ++ findings p ++ omap look (candidates p)) /\ same_run r r2 /\
    verify_pages out library_id runtime (S fuel) r mode snap position t =
      if bool_decide (next p = ScanComplete) then (Ok (Some r2), t2)
      else if bool_decide (next p = position) then (Err SeInternal, t2)
      else verify_pages out library_id runtime fuel r2 mode snap (next p) t2.
Proof.
  intros Hp Hr Hf Hn. cbn [verify_pages]. vrun (checkpoint_calm t). destruct (Hp (S t)) as [t1 Hp1]. vrun Hp1.
  destruct (record_findings_run r (findings p) found t1 Hr Hf) as (r1 & t2 & H1 & Hr1 & Hs1); [unfold blen in *; lia|]. vrun H1.
  destruct (record_candidates_run r1 (candidates p) (found ++ findings p) t2 Hr1 look_typed) as (r2 & t3 & H2 & Hr2 & Hs2).
  { unfold blen in *. rewrite length_app. lia. }
  vrun H2. exists r2, t3. rewrite <- app_assoc in Hr2. split; [done|]. split; [by eapply same_run_trans|].
  destruct (bool_decide _); [done|]. by destruct (bool_decide _).
Qed.
Lemma read_page position p : (forall t, exists t', (match position with
    | CommandsAfter after => scan_commands out runtime after l
    | ManagedLocationsAfter after => scan_locations out q after l
    | ScanComplete => give (page_from_store {| findings := []; candidates := []; next := ScanComplete |})
    end) t = (Ok p, t')) -> forall t0, exists t1, scan_verification_page out library_id runtime snap position t0 = (Ok p, t1).
Proof.
  intros Hp t0. unfold scan_verification_page. apply read_calm. intros t'. cbn [vs_library_id vs_sequence snap]. rewrite bool_decide_eq_true_2 by done. cbn [negb].
  destruct (Hp t') as [t2 H2]. exists t2. exact H2.
Qed.
Lemma take_last {A} (m : gmap Id A) keep after : (256 <? blen (remaining m keep after)) = true ->
  exists x, list.last (take 256 (ids_after m keep after)) = Some x /\ Some x <> after /\ remaining m keep (Some x) = drop 256 (remaining m keep after).
Proof.
  intros Hl. destruct (list.last (take 256 (ids_after m keep after))) as [x|] eqn:Ex.
  - exists x. split; [done|]. split; [|by apply remaining_next]. intros <-. apply last_Some in Ex as [k Hk].
    assert (x ∈ take 256 (ids_after m keep (Some x))) as Hx by (rewrite Hk; set_solver). apply subseteq_take, ids_elem in Hx as (_ & _ & _ & Hb).
    cbn in Hb. apply bool_decide_eq_true in Hb. unfold rlt in Hb. by rewrite rcmp_refl in Hb.
  - apply last_None in Ex. apply Z.ltb_lt in Hl. unfold blen in Hl. rewrite <- (length_fmap fst (remaining m keep after)), remaining_ids in Hl.
    destruct (ids_after m keep after); [cbn in Hl; lia|done].
Qed.

Definition place_report (rows : list (Id * LocationRow)) : list IntegrityFinding :=
  concat (map (place_findings l q) rows) ++ omap look (concat (map (place_candidates l q) rows)).
Lemma place_report_split n rows : place_report rows ≡ₚ place_report (take n rows) ++ place_report (drop n rows).
Proof.
  unfold place_report. rewrite <- (take_drop n rows) at 1 2. rewrite !map_app, !concat_app, omap_app. solve_Permutation.
Qed.
Lemma length_perm {A} (a b : list A) : a ≡ₚ b -> blen a = blen b.
Proof. intros Hp. unfold blen. by rewrite Hp. Qed.
Lemma length_blen_app {A} (a b : list A) : blen (a ++ b) = blen a + blen b.
Proof. unfold blen. rewrite length_app. lia. Qed.

Lemma location_pages fuel r found after t :
  Forall (place_readable l q) (location_rows l q after) -> found_by r found -> blen found + blen (place_report (location_rows l q after)) <= U32_MAX ->
  (length (location_rows l q after) < fuel)%nat ->
  exists r' t' tail, verify_pages out library_id runtime fuel r mode snap (ManagedLocationsAfter after) t = (Ok (Some r'), t') /\
    found_by r' (found ++ tail) /\ same_run r r' /\ tail ≡ₚ place_report (location_rows l q after).
Proof.
  revert r found after t. induction fuel as [|fuel IH]; intros r found after t Hread Hr Hn Hf; [lia|].
  set (rows := location_rows l q after) in *. pose proof (place_report_split 256 rows) as Hsplit. pose proof (length_perm _ _ Hsplit) as Hlen. rewrite length_blen_app in Hlen.
  edestruct (page_step fuel r found (ManagedLocationsAfter after) t) as (r1 & t1 & Hr1 & Hs1 & ->).
  - apply read_page. intros t'. by apply (scan_locations_run q after t').
  - done.
  - cbn [findings]. apply Forall_concat, Forall_map, Forall_true. intros row. apply place_typed.
  - cbn [findings candidates]. fold rows. unfold place_report in Hlen, Hn. rewrite !length_blen_app in Hlen, Hn. unfold blen in *. rewrite ?length_app in Hlen. lia.
  - cbn [findings candidates next] in *. fold rows in Hr1 |- *. change (concat (map (place_findings l q) (take 256 rows)) ++ omap look (concat (map (place_candidates l q) (take 256 rows))))
      with (place_report (take 256 rows)) in Hr1. destruct (256 <? blen rows) eqn:Em.
    + destruct (take_last (locations l) (scanned_location l q) after Em) as (x & -> & Hx & Hnext). rewrite !bool_decide_eq_false_2 by congruence.
      assert (location_rows l q (Some x) = drop 256 rows) as Hrest by exact Hnext.
      destruct (IH r1 (found ++ place_report (take 256 rows)) (Some x) t1) as (r2 & t2 & tail & -> & Hr2 & Hs2 & Htail); rewrite ?Hrest.
      * by apply Forall_drop.
      * done.
      * rewrite length_blen_app. lia.
      * rewrite length_drop. apply Z.ltb_lt in Em. unfold blen in Em. lia.
      * exists r2, t2, (place_report (take 256 rows) ++ tail). rewrite app_assoc. split_and!; [done..|by eapply same_run_trans|]. by rewrite Hsplit, Htail, Hrest.
    + rewrite bool_decide_eq_true_2 by done. exists r1, t1, (place_report (take 256 rows)). split_and!; [done..|].
      rewrite take_ge; [done|]. apply Z.ltb_ge in Em. unfold blen in Em. lia.
Qed.
Lemma command_pages fuel r found after t :
  let places := location_rows l q None in
  Forall row_readable (ledger_rows l after) -> Forall (place_readable l q) places -> found_by r found ->
  blen found + blen (concat (map row_findings (ledger_rows l after))) + blen (place_report places) <= U32_MAX ->
  (length (ledger_rows l after) + length places + 1 < fuel)%nat ->
  exists r' t' tail, verify_pages out library_id runtime fuel r mode snap (CommandsAfter after) t = (Ok (Some r'), t') /\
    found_by r' (found ++ tail) /\ same_run r r' /\ tail ≡ₚ concat (map row_findings (ledger_rows l after)) ++ place_report places.
Proof.
  intros places. revert r found after t. induction fuel as [|fuel IH]; intros r found after t Hread Hplaces Hr Hn Hf; [lia|].
  set (rows := ledger_rows l after) in *.
  assert (concat (map row_findings rows) = concat (map row_findings (take 256 rows)) ++ concat (map row_findings (drop 256 rows))) as Hsplit.
  { by rewrite <- concat_app, <- map_app, take_drop. }
  rewrite Hsplit, length_blen_app in Hn. assert (0 <= blen (place_report places)) by (unfold blen; lia).
  assert (0 <= blen (concat (map row_findings (drop 256 rows)))) by (unfold blen; lia).
  edestruct (page_step fuel r found (CommandsAfter after) t) as (r1 & t1 & Hr1 & Hs1 & ->).
  - apply read_page. intros t'. by apply (scan_commands_run after t').
  - done.
  - cbn [findings]. fold rows. apply Forall_concat, Forall_map. apply Forall_take. eapply Forall_impl; [exact Hread|]. intros row Hrow. by apply row_findings_run.
  - cbn [findings candidates]. fold rows. cbn. unfold blen in *. cbn [length]. lia.
  - cbn [findings candidates next omap list_omap] in *. fold rows in Hr1 |- *. rewrite app_nil_r in Hr1. destruct (256 <? blen rows) eqn:Em.
    + destruct (take_last (commands l) (fun _ _ => true) after Em) as (x & -> & Hx & Hnext). rewrite !bool_decide_eq_false_2 by congruence.
      assert (ledger_rows l (Some x) = drop 256 rows) as Hrest by exact Hnext.
      destruct (IH r1 (found ++ concat (map row_findings (take 256 rows))) (Some x) t1) as (r2 & t2 & tail & -> & Hr2 & Hs2 & Htail); rewrite ?Hrest.
      * by apply Forall_drop.
      * done.
      * done.
      * rewrite length_blen_app. lia.
      * rewrite length_drop. apply Z.ltb_lt in Em. unfold blen in Em. lia.
      * exists r2, t2, (concat (map row_findings (take 256 rows)) ++ tail). rewrite app_assoc. split_and!; [done..|by eapply same_run_trans|].
        by rewrite Hsplit, Htail, Hrest, app_assoc.
    + rewrite !bool_decide_eq_false_2 by congruence.
      destruct (location_pages fuel r1 (found ++ concat (map row_findings (take 256 rows))) None t1) as (r2 & t2 & tail & -> & Hr2 & Hs2 & Htail); [done|done| |unfold places in *; lia|].
      { rewrite length_blen_app. fold places. lia. }
      exists r2, t2, (concat (map row_findings (take 256 rows)) ++ tail). rewrite app_assoc. split_and!; [done..|by eapply same_run_trans|].
      rewrite Htail. rewrite (take_ge rows); [done|]. apply Z.ltb_ge in Em. unfold blen in Em. lia.
Qed.
End facts.
End VerificationFacts.
