(* ===== verification/VerificationReports.v ===== *)
(** What a verification reports, in terms of the tables: the theorems. *)
From Stdlib Require Import ZArith Lia String.
From Stdlib Require Import Strings.Byte Init.Byte.
From stdpp Require Import prelude list gmap sorting.
From S2P Require Import Prelude RustText Ord Types AssetDomain CreativeDomain Ports CommandLedger CreativeStore StoreScenario AssetStore AssetCommands CommandRows AssetLedger AssetScenario AssetHistory StartupRecovery StartupFacts AssetQuery AssetInspect AssetCursors Integrity IntegrityFacts Verification VerificationFacts.

Set Warnings "-clear-no-such-hyp".

Module VerificationReports.
Import Ports Ledger Assets Rows AssetLedger Startup StartupFacts Integrity IntegrityFacts Verification VerificationFacts.

(** ** The report of a library *)

Section reports.
Context `{StoreEnv}.

Definition inconsistent (kind : IntegrityObjectKind) (i : Id) : IntegrityFinding := {|
  f_kind := EventOrGraphInconsistent; f_severity := FatalLocal; f_object_kind := kind; f_object_id := Some (UuidObject i); f_remediation := NoRemediation |}.
Definition to_recover (i : Id) (operation : OperationId) : IntegrityFinding :=
  if bool_decide (operation = ASSET_MATERIALIZE_V1)
  then {| f_kind := MaterializationRecoveryRequired; f_severity := OperatorAction; f_object_kind := KMaterialization;
          f_object_id := Some (UuidObject i); f_remediation := OperatorConfiguration |}
  else {| f_kind := CommandRecoveryRequired; f_severity := OperatorAction; f_object_kind := KCommand;
          f_object_id := Some (UuidObject i); f_remediation := OperatorOrRuntimeAction |}.
(** A command that another runtime left unfinished. *)
Definition abandoned (runtime : list byte) (r : CommandRow) : bool :=
  bool_decide (c_state r = RECOVERY_REQUIRED) || bool_decide (c_state r = CLAIMED) && negb (bool_decide (c_runtime_id r = runtime)).
Definition command_issues (runtime : list byte) (row : Id * CommandRow) : list IntegrityFinding :=
  if negb (is_current_operation (c_operation_id row.2)) then [inconsistent KCommand row.1]
  else if abandoned runtime row.2 then [to_recover row.1 (c_operation_id row.2)] else [].
(** A managed location and its blob as the writer leaves them, with one registration. *)
Definition intact (l : Library) (q : Z) (row : Id * LocationRow) : bool :=
  match blobs l !! l_digest row.2 with
  | Some b => bool_decide (l_custody row.2 = MANAGED) && bool_decide (l_durability row.2 = DURABLE) && bool_decide (l_lifecycle row.2 = AVAILABLE)
      && bool_decide (b_lifecycle b = AssetModel.BlobAvailable) && (blen (registrations l q row.1) =? 1)
  | None => false
  end.
Definition candidate_of (l : Library) (row : Id * LocationRow) : RegisteredBlobVerificationCandidate := {|
  cd_digest := l_digest row.2; cd_byte_length := from_option b_length 0 (blobs l !! l_digest row.2);
  cd_blob_revision := from_option b_revision 0 (blobs l !! l_digest row.2); cd_location_id := row.1; cd_location_revision := l_revision row.2;
  cd_backend_id := l_backend_id row.2; cd_locator := l_locator row.2 |}.
Definition scanned (l : Library) (q : Z) : list (Id * LocationRow) :=
  List.filter (fun '(i, r) => scanned_location l q i r) (map_to_list (locations l)).
Definition expected (l : Library) (q : Z) (runtime : list byte) (look : RegisteredBlobVerificationCandidate -> option IntegrityFinding) : list IntegrityFinding :=
  concat (map (command_issues runtime) (map_to_list (commands l))) ++
  map (fun row => inconsistent KLocation row.1) (List.filter (fun row => negb (intact l q row)) (scanned l q)) ++
  omap look (map (candidate_of l) (List.filter (intact l q) (scanned l q))).

(** Every row that is read passes the checks of its columns. *)
Definition readable (l : Library) (q : Z) : Prop :=
  (forall i r, commands l !! i = Some r -> valid_row r /\ checked_id i = Ok i) /\
  (forall i r, locations l !! i = Some r -> scanned_location l q i r = true -> checked_id i = Ok i /\ is_ok (location_row l q i r) = true).

Lemma pure_final r code kind : pure_matrix r code kind = true -> c_state r = COMPLETED \/ c_state r = TERMINAL_REJECTED.
Proof. unfold pure_matrix. destruct (c_state r); auto; done. Qed.
Lemma unfinished_external r : valid_row r -> is_current_operation (c_operation_id r) = true -> c_state r = CLAIMED \/ c_state r = RECOVERY_REQUIRED ->
  bool_decide (c_operation_id r = ASSET_INGEST_COPY_V1) || bool_decide (c_operation_id r = ASSET_MATERIALIZE_V1) = true.
Proof.
  intros Hv Hc Hs. apply valid_row_iff in Hv as (_ & code & present & _ & _ & _ & Hm). unfold validate_known_command_matrix in Hm.
  destruct (bool_decide (c_operation_id r = ASSET_INGEST_COPY_V1)) eqn:Ei; [done|].
  destruct (bool_decide (c_operation_id r = ASSET_MATERIALIZE_V1)) eqn:Em; [done|]. exfalso.
  unfold is_current_operation in Hc. apply bool_decide_eq_true in Hc.
  repeat match type of Hm with context [if ?b then pure_matrix _ _ ?k else _] => destruct b eqn:? end;
    try (destruct (pure_matrix _ _ _) eqn:Hp; [|done]; apply pure_final in Hp; destruct Hs, Hp; congruence).
  repeat match goal with Hx : _ || _ = false |- _ => apply orb_false_iff in Hx as [? ?] | Hx : bool_decide _ = false |- _ => apply bool_decide_eq_false in Hx end.
  repeat (apply elem_of_cons in Hc as [Hc|Hc]; [by congruence|]). by apply not_elem_of_nil in Hc.
Qed.
(** Splits on the operation wherever it is compared. *)
Ltac by_operation :=
  match goal with |- context [bool_decide (c_operation_id ?r = ASSET_MATERIALIZE_V1)] =>
    let E := fresh in destruct (decide (c_operation_id r = ASSET_MATERIALIZE_V1)) as [E|E];
    repeat first [rewrite (bool_decide_eq_true_2 _ E) | rewrite (bool_decide_eq_false_2 _ E)]; reflexivity end.
Lemma row_findings_spec runtime (row : Id * CommandRow) : valid_row row.2 -> checked_id row.1 = Ok row.1 -> row_findings runtime row = command_issues runtime row.
Proof.
  intros Hv Hi. pose proof (unfinished_external row.2 Hv) as Hext. unfold row_findings, command_findings, command_issues.
  rewrite graph_finding_run by done. cbn [result_bind]. destruct (is_current_operation _) eqn:Ec; [|done]. cbn [negb].
  assert (length (c_runtime_id row.2) = 16%nat) as Hlen.
  { apply valid_row_iff in Hv as [[_ Hr _ _ _ _ _ _] _]. unfold check_id, id_bytes in Hr. cbn in Hr. by destruct (bool_decide_reflect (length (c_runtime_id row.2) = 16%nat)). }
  rewrite (bool_decide_eq_true_2 _ Hlen). cbn [negb]. unfold abandoned, recovery_finding, to_recover.
  destruct (c_state row.2) eqn:Es; rewrite ?(bool_decide_eq_false_2 (_ = RECOVERY_REQUIRED)), ?(bool_decide_eq_false_2 (_ = CLAIMED)),
    ?(bool_decide_eq_true_2 (CLAIMED = CLAIMED)), ?(bool_decide_eq_true_2 (RECOVERY_REQUIRED = RECOVERY_REQUIRED)) by done; cbn [orb andb]; try done.
  - rewrite Hext by auto. destruct (bool_decide (c_runtime_id row.2 = runtime)); [reflexivity|]. by_operation.
  - rewrite Hext by auto. assert (none (c_safe_error_code row.2) = false) as ->.
    { destruct (valid_bare row.2 Hv) as [code Hb]; [by rewrite Es|]. destruct (valid_row_iff row.2) as [Hiff _]. destruct (Hiff Hv) as (_ & c & present & Hc & _ & Hst & _).
      unfold check_state in Hst. rewrite Es in Hst. destruct (c_safe_error_code row.2); [done|]. cbn in Hc. injection Hc as <-.
      cbn in Hst. by rewrite andb_false_r in Hst. }
    by_operation.
Qed.

Lemma place_spec l q (row : Id * LocationRow) : is_ok (location_row l q row.1 row.2) = true ->
  place_findings l q row = (if intact l q row then [] else [inconsistent KLocation row.1]) /\
  place_candidates l q row = (if intact l q row then [candidate_of l row] else []).
Proof.
  unfold place_findings, place_candidates, location_row, intact, candidate_of. destruct (blobs l !! l_digest row.2) as [b|]; cbn [ok_or result_bind from_option]; [|done].
  unfold checked_digest. destruct (bool_decide (length (l_digest row.2) = 32%nat)); cbn [result_bind]; [|done].
  unfold AssetQuery.parse_revision. destruct (l_revision row.2 =? 0); cbn [result_bind]; [done|].
  destruct (try_into _ _) as [n|] eqn:En; cbn [ok_or result_bind]; [|done]. apply try_into_Some in En as [-> _].
  destruct (b_revision b =? 0); cbn [result_bind]; [done|]. destruct (_ && _); [|by rewrite graph_finding_run by done].
  unfold candidate_from_store. by destruct (_ || _).
Qed.
Lemma place_report_spec l q look rows : Forall (place_readable l q) rows -> place_report l look q rows =
  map (fun row => inconsistent KLocation row.1) (List.filter (fun row => negb (intact l q row)) rows) ++
  omap look (map (candidate_of l) (List.filter (intact l q) rows)).
Proof.
  intros Hf. unfold place_report. f_equal; [|f_equal]; induction Hf as [|row rows [_ Hrow] _ IH]; try done; cbn; rewrite IH;
    destruct (place_spec l q row Hrow) as [H1 H2]; rewrite ?H1, ?H2; by destruct (intact l q row).
Qed.
Lemma remaining_perm {A} (m : gmap Id A) keep : remaining m keep None ≡ₚ List.filter (fun '(i, a) => keep i a) (map_to_list m).
Proof.
  apply NoDup_Permutation.
  - apply (NoDup_fmap_1 fst). rewrite remaining_ids. apply sorted_NoDup, ids_sorted.
  - apply NoDup_ListNoDup, List.NoDup_filter, NoDup_ListNoDup, NoDup_map_to_list.
  - intros [i a]. rewrite remaining_elem, list_elem_of_In, filter_In, <- list_elem_of_In, elem_of_map_to_list. cbn. tauto.
Qed.
Lemma filter_everything {A} (l : list A) (p : A -> bool) : (forall x, p x = true) -> List.filter p l = l.
Proof. intros Hp. induction l as [|x l IH]; cbn; [done|]. by rewrite Hp, IH. Qed.
Lemma ledger_perm l : ledger_rows l None ≡ₚ map_to_list (commands l).
Proof. unfold ledger_rows. rewrite remaining_perm, filter_everything; [done|by intros []]. Qed.
Lemma locations_perm l q : location_rows l q None ≡ₚ scanned l q.
Proof. apply remaining_perm. Qed.
#[local] Instance filter_perm {A} (p : A -> bool) : Proper ((≡ₚ) ==> (≡ₚ)) (List.filter p).
Proof.
  intros a b Hp. induction Hp as [|x a b _ IH|x y a|a b c _ IH1 _ IH2]; cbn; [done|by destruct (p x); rewrite IH| |by rewrite IH1].
  destruct (p x), (p y); try done. by constructor.
Qed.
#[local] Instance concat_map_perm {A B} (g : A -> list B) : Proper ((≡ₚ) ==> (≡ₚ)) (fun l => concat (map g l)).
Proof.
  intros a b Hp. induction Hp as [|x a b _ IH|x y a|a b c _ IH1 _ IH2]; cbn; [done|by rewrite IH|by rewrite !app_assoc, (Permutation_app_comm (g y))|by rewrite IH1].
Qed.

Lemma readable_rows l q : readable l q -> Forall row_readable (ledger_rows l None) /\ Forall (place_readable l q) (location_rows l q None).
Proof.
  intros [Hc Hl]. split; apply Forall_forall; intros [i r]; unfold ledger_rows, location_rows; rewrite remaining_elem; intros (Hm & Hk & _).
  - by apply Hc.
  - by apply Hl.
Qed.
Lemma expected_spec l q runtime look : readable l q ->
  concat (map (row_findings runtime) (ledger_rows l None)) ++ place_report l look q (location_rows l q None) ≡ₚ expected l q runtime look.
Proof.
  intros Hr. destruct (readable_rows l q Hr) as [Hc Hl]. unfold expected. rewrite place_report_spec by done. apply Permutation_app.
  - rewrite (map_ext_in _ (command_issues runtime)).
    + pose proof (concat_map_perm (command_issues runtime) _ _ (ledger_perm l)) as Hp. exact Hp.
    + intros row Hin. apply list_elem_of_In in Hin. rewrite Forall_forall in Hc. destruct (Hc _ Hin). by apply row_findings_spec.
  - apply Permutation_app.
    + apply Permutation_map. by rewrite locations_perm.
    + apply (omap_Permutation look). apply Permutation_map. by rewrite locations_perm.
Qed.

(** The whole verification. *)
Definition sizes (l : Library) : nat := size (commands l) + size (locations l).
Lemma remaining_size {A} (m : gmap Id A) keep : (length (remaining m keep None) <= size m)%nat.
Proof. rewrite remaining_perm, <- length_map_to_list. apply List.filter_length_le. Qed.

Lemma capture_undisturbed out library_id l look mode q t : undisturbed out l look mode -> library_id <> AssetQuery.zero_library ->
  Store.last_sequence (base l) = q -> AssetQuery.max_event l = q -> 0 <= q <= I64_MAX ->
  exists t', capture_verification_snapshot out library_id t = (Ok (snap library_id q), t').
Proof.
  intros Hu Hz Hq Hm Hb. unfold capture_verification_snapshot. eapply read_calm; [exact Hu|]. intros t0. unfold capture_snapshot, mbind, V_bind, answer.
  rewrite (u_quick _ _ _ _ Hu). cbn [negb]. rewrite (u_foreign _ _ _ _ Hu). cbn [negb]. rewrite Hq, Hm. unfold AssetQuery.valid_sequence. replace (q <? 0) with false by lia.
  cbn [result_bind]. rewrite Z.eqb_refl. cbn [negb]. unfold verification_snapshot_from_store. rewrite bool_decide_eq_false_2 by done.
  replace (I64_MAX <? q) with false by lia. cbn [orb]. by eexists.
Qed.
(** A verification that nothing disturbs of a library whose rows can be read and whose
    event sequence is that of its log, by an owner that is free and gets a fresh identity. *)
Record verifiable (out : Outside) (library_id : Id) (runtime : list byte) (l : Library)
    (look : RegisteredBlobVerificationCandidate -> option IntegrityFinding) (mode : VerificationMode) (s : ReportState) (i : Id) (q : Z) : Prop := {
  vf_calm : undisturbed out l look mode; vf_look : forall c f, look c = Some f -> well_typed f; vf_library : library_id <> AssetQuery.zero_library;
  vf_sequence : Store.last_sequence (base l) = q; vf_log : AssetQuery.max_event l = q; vf_range : 0 <= q <= I64_MAX; vf_readable : readable l q;
  vf_free : active s = false; vf_id : next_id out 0%nat = Some i; vf_fresh : known_report s i = false;
  vf_count : blen (expected l q runtime look) <= U32_MAX }.
Lemma verify_exact out library_id runtime l look mode s t i q fuel :
  verifiable out library_id runtime l look mode s i q -> (sizes l + 1 < fuel)%nat ->
  exists report found t', verify_controlled out library_id runtime fuel mode s t = (Some (Ok (summary report)), publish s report, t') /\
    report_of report found /\ found ≡ₚ expected l q runtime look /\
    verification_id (summary report) = i /\ Integrity.mode (summary report) = mode /\ snapshot_commit_sequence (summary report) = q.
Proof.
  intros [Hu Hlook Hz Hq Hm Hb Hr Ha Hid Hk Hn] Hf. pose proof (expected_spec l q runtime look Hr) as Hexp. destruct (readable_rows l q Hr) as [Hrows Hplaces].
  unfold verify_controlled. rewrite (checkpoint_calm out l look mode Hu t).
  assert (begin s (next_id out) mode = (Ok {| run_id := i; run_mode := mode; run_snapshot := None; run_discovered := 0; run_issues := [];
            run_fatal := false; run_custody := false; run_first_fatal := None |}, {| active := true; reports := reports s |})) as Hbegin.
  { unfold begin. rewrite Ha. change ID_ATTEMPTS_MAX with (S 7). cbn [fresh_id]. rewrite Hid. cbn [ok_or result_bind]. by rewrite Hk. }
  rewrite Hbegin. apply begin_found in Hbegin as (Hf0 & _ & _). set (r0 := Build_VerificationRun _ _ _ _ _ _ _ _) in *.
  destruct (capture_undisturbed out library_id l look mode q (S t) Hu Hz Hq Hm Hb) as [t1 Hcap]. unfold verify_run. vrun Hcap. cbn [bind_snapshot vs_sequence snap run_snapshot r0].
  vgive (@eq_refl _ (Ok (E := AssetStoreError) tt)). set (r1 := Build_VerificationRun _ _ _ _ _ _ _ _).
  assert (found_by r1 []) as Hf1 by (apply (bind_found r0 q []); exact Hf0).
  pose proof (length_perm _ _ Hexp) as Hlen. rewrite length_blen_app in Hlen.
  destruct (command_pages out library_id runtime l look mode Hu q Hb Hlook fuel r1 [] None t1 Hrows Hplaces Hf1) as (r2 & t2 & tail & Hrun & Hr2 & (Hs1 & Hs2 & Hs3) & Htail).
  { change (blen (@nil IntegrityFinding)) with 0. lia. }
  { pose proof (remaining_size (commands l) (fun _ _ => true)). pose proof (remaining_size (locations l) (scanned_location l q)).
    unfold sizes, ledger_rows, location_rows in *. lia. }
  change (CommandsAfter None) with (CommandsAfter (@None Id)). rewrite Hrun. cbn [app] in Hr2. unfold finish. rewrite (summary_run r2 tail q false Hr2) by (rewrite Hs3; done).
  cbn [active negb]. eexists {| summary := _; issues := _ |}, tail, t2. cbn [summary]. split; [reflexivity|]. split.
  { destruct Hr2. by split. }
  split; [by rewrite Htail, Hexp|]. cbn. split_and!; [by rewrite Hs1|by rewrite Hs2|done].
Qed.

(** ** Registrations *)

(** The event of a completed ingest that registered this location. *)
Definition ingested_at (l : Library) (q : Z) (location k : Id) (e : Store.DomainEvent) : Prop :=
  e ∈ Store.events (base l) /\ Store.de_command_id e = k /\ Store.de_type e = bs "asset.registered.v1" /\ Store.de_aggregate_kind e = bs "ASSET" /\
  Store.de_sequence e <= q /\
  exists c, commands l !! k = Some c /\ c_operation_id c = ASSET_INGEST_COPY_V1 /\ c_state c = COMPLETED /\ c_result_location_id c = Some location.
Lemma ingested_registers l q location k e : ingested_at l q location k e -> e ∈ registrations l q location.
Proof.
  intros (He & Hk & Ht & Ha & Hs & c & Hc & Ho & Hst & Hl). unfold registrations. rewrite list_elem_of_In, filter_In, <- list_elem_of_In. split; [done|].
  unfold registers. rewrite Hk, Hc, !bool_decide_eq_true_2 by done. replace (_ <=? q) with true by lia. done.
Qed.
Lemma two_elements {A} (l : list A) x y : x ∈ l -> y ∈ l -> x <> y -> (2 <= length l)%nat.
Proof. intros Hx Hy Hn. destruct l as [|a [|b l]]; [by apply not_elem_of_nil in Hx|set_solver|cbn; lia]. Qed.
Lemma shared_not_intact l q location r k1 k2 e1 e2 : k1 <> k2 -> ingested_at l q location k1 e1 -> ingested_at l q location k2 e2 ->
  intact l q (location, r) = false.
Proof.
  intros Hk H1 H2. unfold intact. cbn [fst snd]. destruct (blobs l !! l_digest r); [|done]. apply andb_false_iff. right. apply Z.eqb_neq.
  assert (e1 <> e2) as Hne. { intros ->. destruct H1 as (_ & E1 & _), H2 as (_ & E2 & _). congruence. }
  pose proof (two_elements _ e1 e2 (ingested_registers _ _ _ _ _ H1) (ingested_registers _ _ _ _ _ H2) Hne). unfold blen. lia.
Qed.
Lemma fatal_perm a b : a ≡ₚ b -> existsb fatal a = existsb fatal b.
Proof.
  intros Hp. apply eq_bool_prop_intro. rewrite !Is_true_true, !existsb_exists. split; intros (x & Hx & Hf); exists x; (split; [|done]); apply list_elem_of_In.
  - rewrite <- Hp. by apply list_elem_of_In.
  - rewrite Hp. by apply list_elem_of_In.
Qed.

Lemma valid_location_kind r : valid_row r -> c_operation_id r = BLOB_LOCATION_RECORD_V1 -> c_state r = COMPLETED -> c_result_location_id r = None.
Proof.
  intros Hv Ho Hs. apply valid_row_iff in Hv as (_ & code & present & _ & _ & Hst & Hm).
  assert (kind_is r (bs "LOCATION") = true) as Hk.
  { unfold validate_known_command_matrix in Hm. rewrite Ho in Hm. cbv zeta in Hm. unfold pure_matrix in Hm. rewrite Hs in Hm.
    destruct (kind_is r (bs "LOCATION")) eqn:E; [done|]. exfalso. revert Hm. rewrite !bool_decide_eq_false_2 by discriminate. by rewrite (bool_decide_eq_true_2 (BLOB_LOCATION_RECORD_V1 = _)) by done. }
  unfold kind_is in Hk. apply bool_decide_eq_true in Hk. unfold check_state in Hst. rewrite Hs, Hk in Hst.
  destruct (c_result_location_id r) eqn:El; [|done]. destruct code; [done|]. cbn [none negb] in Hst.
  rewrite !andb_false_r in Hst. rewrite (bool_decide_eq_false_2 (bs "LOCATION" = bs "ASSET")) in Hst by discriminate. done.
Qed.
End reports.

(** C28: whatever happens while a library is verified - another session writes to it, the
    caller cancels, a deadline passes, a read is refused or interrupted, the adapter or
    SQLite fails - the verification ends, after at most one page for every row that the
    tables have ever had plus three; a verification already under way is not disturbed and
    the new one is refused; otherwise the owner is free again at the end, and there is one
    more report exactly if the verification answers with its summary. *)
Theorem verification_always_ends `{StoreEnv} (out : Outside) (library_id : Id) (runtime : list byte) (X Y : gset Id) mode s t fuel :
  (forall t, dom (commands (library_at out t)) ⊆ X /\ dom (locations (library_at out t)) ⊆ Y) -> (S (S (S (size X + size Y))) <= fuel)%nat ->
  exists result s' t', verify_controlled out library_id runtime fuel mode s t = (Some result, s', t') /\
    (active s = true -> s' = s /\ exists e, result = Err e) /\
    (active s = false -> active s' = false /\
       match result with Ok x => exists issues, s' = publish s {| summary := x; issues := issues |} | Err _ => reports s' = reports s end).
Proof.
  intros Hb Hf. unfold verify_controlled. destruct (verification_checkpoint out t) as [[u|e] t1].
  2: { eexists _, _, _. split; [done|]. split; [eauto|done]. }
  destruct (begin s (next_id out) mode) as [[r|e] s1] eqn:Eb.
  2: { unfold begin in Eb. destruct (active s) eqn:Ea; [|destruct (result_bind _ _)]; simplify_eq; (eexists _, _, _; split; [done|]; rewrite ?Ea; eauto). }
  assert (active s = false /\ s1 = {| active := true; reports := reports s |}) as [Ha ->].
  { unfold begin in Eb. destruct (active s); [done|]. destruct (result_bind _ _); [|done]. by simplify_eq. }
  destruct (verify_run out library_id runtime fuel r mode t1) as [[[r'|]|e] t2] eqn:Er.
  - unfold finish. destruct (finished_summary r' false) as [x|]; cbn [active negb]; (eexists _, _, _; split; [done|]; rewrite Ha; split; [done|]; intros _; split; [done|]); [|done].
    exists (run_issues r'). done.
  - exfalso. by eapply (verify_run_ends out library_id runtime X Y).
  - eexists _, _, _. split; [done|]. rewrite Ha. done.
Qed.

(** C27: a verification that nothing disturbs is exact.  Its report describes, up to the order
    in which pages and blobs are visited, exactly this: one fatal issue for every command
    of an unknown operation, one issue for every command that another runtime left
    unfinished (told apart by operation), one fatal issue for every managed location of
    the snapshot that is not intact, and what the adapter observed of the blob of every
    location that is - each visited once; and the summary carries the event sequence that
    was captured. *)
Theorem verification_is_exact `{StoreEnv} out library_id runtime l look mode s t i q fuel :
  verifiable out library_id runtime l look mode s i q -> (sizes l + 1 < fuel)%nat ->
  exists report found t', verify_controlled out library_id runtime fuel mode s t = (Some (Ok (summary report)), publish s report, t') /\
    report_of report found /\ found ≡ₚ expected l q runtime look /\
    verification_id (summary report) = i /\ Integrity.mode (summary report) = mode /\ snapshot_commit_sequence (summary report) = q.
Proof. apply verify_exact. Qed.

(** C39: as the code behaves, content that was ingested twice fails the verification.  When two
    completed ingests name the same location - the writer stores the bytes of the second
    one under the location of the first - a verification that nothing disturbs reports a
    fatal issue for that location, although every row is as the writer left it; the blob
    of the location is not looked at. *)
Theorem shared_content_fails_verification `{StoreEnv} out library_id runtime l look mode s t i q fuel location r k1 k2 e1 e2 :
  verifiable out library_id runtime l look mode s i q -> (sizes l + 1 < fuel)%nat ->
  locations l !! location = Some r -> is_Some (blobs l !! l_digest r) ->
  k1 <> k2 -> ingested_at l q location k1 e1 -> ingested_at l q location k2 e2 ->
  exists x s' t', verify_controlled out library_id runtime fuel mode s t = (Some (Ok x), s', t') /\ has_fatal_local_issue x = true /\
    forall c, c ∈ map (candidate_of l) (List.filter (intact l q) (scanned l q)) -> cd_location_id c <> location.
Proof.
  intros Hv Hf Hl [b Hb] Hk H1 H2. pose proof (shared_not_intact l q location r k1 k2 e1 e2 Hk H1 H2) as Hi.
  destruct (verify_exact out library_id runtime l look mode s t i q fuel Hv Hf) as (report & found & t' & Hrun & Hro & Hp & _).
  exists (summary report), (publish s report), t'. split; [done|]. split.
  - rewrite (ro_fatal _ _ Hro), (fatal_perm _ _ Hp). apply existsb_exists. exists (inconsistent KLocation location). split; [|done].
    unfold expected. rewrite !in_app_iff. right. left. apply in_map_iff. exists (location, r). split; [done|]. apply filter_In. split; [|by rewrite Hi].
    unfold scanned. apply filter_In. split; [by apply list_elem_of_In, elem_of_map_to_list|]. unfold scanned_location. rewrite Hb. cbn [none negb andb].
    rewrite bool_decide_eq_false_2; [done|]. intros Hn. pose proof (ingested_registers _ _ _ _ _ H1) as Hin. rewrite Hn in Hin. by apply not_elem_of_nil in Hin.
  - intros c. rewrite list_elem_of_In, in_map_iff. intros ([k x] & <- & Hin). cbn. intros ->. apply filter_In in Hin as [Hin Hint].
    unfold scanned in Hin. apply filter_In in Hin as [Hin _]. apply list_elem_of_In, elem_of_map_to_list in Hin. rewrite Hl in Hin. injection Hin as <-. congruence.
Qed.

(** C40: as the code behaves, only locations that an ingest produced are verified.  In a
    library whose ledger is valid, a location that no completed ingest names - such as every
    location that was recorded for a blob afterwards - is neither checked nor reported by
    any verification, whatever its snapshot: the row of the command that recorded it never
    carries the column through which the scan looks for it. *)
Theorem recorded_locations_are_not_verified `{StoreEnv} (l : Library) (q : Z) (location : Id) (r : LocationRow) :
  ledger_ok l ->
  (forall k c, commands l !! k = Some c -> c_operation_id c = ASSET_INGEST_COPY_V1 -> c_state c = COMPLETED -> c_result_location_id c <> Some location) ->
  registrations l q location = [] /\ scanned_location l q location r = false /\ forall after, location ∉ ids_after (locations l) (scanned_location l q) after.
Proof.
  intros Hok Hno. assert (registrations l q location = []) as Hr.
  { destruct (registrations l q location) as [|e es] eqn:E; [done|]. exfalso. assert (e ∈ registrations l q location) as He by (rewrite E; set_solver).
    unfold registrations in He. rewrite list_elem_of_In, filter_In in He. destruct He as [_ He]. unfold registers in He.
    destruct (commands l !! Store.de_command_id e) as [c|] eqn:Ec; [|done]. destruct (Hok _ _ Ec) as [_ Hvalid]. bool_hyps.
    match goal with Ho : _ || _ = true |- _ => apply orb_true_iff in Ho as [Ho|Ho] end; bool_hyps.
    - by eapply Hno.
    - assert (c_result_location_id c = None) by (by apply valid_location_kind). congruence. }
  split; [done|]. split.
  - unfold scanned_location. rewrite Hr. by rewrite andb_false_r.
  - intros after (x & _ & Hs & _)%ids_elem. unfold scanned_location in Hs. rewrite Hr in Hs. by rewrite andb_false_r in Hs.
Qed.

(** ** A library that holds the same bytes twice *)

(** The bytes of the scenario are ingested again as another asset, and a second location
    is recorded for them. *)
Module Example.
Import AssetScenario.
#[local] Existing Instance Scenario.env.
Definition plan2 : ManagedRegistrationPlan := {|
  mp_asset_id := id 60; mp_asset_kind := bs "image"; mp_asset_revision_id := id 61; mp_content_kind := bs "image";
  mp_representation_id := id 62; mp_representation_purpose := bs "primary"; mp_resource_id := id 63;
  mp_resource_kind := bs "file"; mp_logical_name := bs "b.png"; mp_media_type := Some (bs "image/png");
  mp_candidate_location_id := id 64 |}.
Definition again : list (StoreContext * AssetOp) := [
  (ctx, ClaimExternal {| ec_binding := binding 20 ASSET_INGEST_COPY_V1; ec_claimed_at := now |});
  (ctx, CompleteExternal {| ei_binding := binding 20 ASSET_INGEST_COPY_V1; ei_durable_blob := blob; ei_plan := plan2;
     ei_domain_event_id := id 65; ei_provenance_event_id := id 66; ei_completed_at := now |})].
Definition record : StoreContext * AssetOp := (ctx, RecordLocation {|
  rl_binding := binding 30 BLOB_LOCATION_RECORD_V1; rl_durable_blob := from_verified_local_adapter (repeat x07 32) 1024 (repeat x02 32);
  rl_candidate_location_id := id 70; rl_expected_revision := 1; rl_domain_event_id := id 71; rl_operation_at := now |}).
Definition library : Library := run ingested (again ++ [record]).
Definition calm : Outside := {|
  control := {| checkpoint_at := fun _ => Continue; register_interrupt := fun _ => Some Continue; clear_interrupt := fun _ => true; clock_now := fun _ => Some now |};
  library_at := fun _ => library; refused := fun _ => None; Verification.interrupted := fun _ => false; quick_check_ok := fun _ => true; foreign_keys_ok := fun _ => true;
  verify_registered_blob := fun _ _ _ => Ok None; next_id := fun _ => Some (id 90) |}.
Definition owner : ReportState := {| active := false; reports := [] |}.
Definition nothing (c : RegisteredBlobVerificationCandidate) : option IntegrityFinding := None.

Lemma rows_of {A} (m : gmap Id A) (p : Id -> A -> bool) : forallb (fun '(i, a) => p i a) (map_to_list m) = true ->
  forall i a, m !! i = Some a -> p i a = true.
Proof. rewrite forallb_forall. intros Hall i a Hm. apply (Hall (i, a)). by apply list_elem_of_In, elem_of_map_to_list. Qed.
Lemma library_valid i r : commands library !! i = Some r -> (c_command_id r = i /\ valid_row r) /\ checked_id i = Ok i.
Proof.
  assert (forallb (fun '(i, r) => is_ok (validate_command_row r) && bool_decide (c_command_id r = i) && is_ok (checked_id i)) (map_to_list (commands library)) = true) as Hall
    by (vm_compute; reflexivity).
  intros Hm. pose proof (rows_of _ (fun i r => is_ok (validate_command_row r) && bool_decide (c_command_id r = i) && is_ok (checked_id i)) Hall i r Hm) as Hp. cbv beta in Hp. bool_hyps.
  destruct (validate_command_row r) as [r'|] eqn:E; [|done]. apply validated in E as [_ E]. destruct (checked_id i) as [j|] eqn:Ej; [|done].
  apply checked_id_inv in Ej as ->. by split_and!.
Qed.
Lemma library_readable : readable library 3.
Proof.
  split; [intros i r Hm; destruct (library_valid i r Hm) as [[_ Hv] Hc]; exact (conj Hv Hc)|].
  assert (forallb (fun '(i, r) => is_ok (checked_id i) && is_ok (location_row library 3 i r)) (map_to_list (locations library)) = true) as Hall by (vm_compute; reflexivity).
  intros i r Hm _. pose proof (rows_of _ (fun i r => is_ok (checked_id i) && is_ok (location_row library 3 i r)) Hall i r Hm) as Hp.
  apply andb_true_iff in Hp as [Hc Hl]. split; [|exact Hl]. destruct (checked_id i) as [j|] eqn:Ej; [|discriminate Hc]. by apply checked_id_inv in Ej as ->.
Qed.
Lemma library_verifiable : verifiable calm (id 1) (runtime_id ctx) library nothing Normal owner (id 90) 3.
Proof.
  constructor.
  - constructor; intros; reflexivity.
  - intros c f Hc. discriminate Hc.
  - vm_compute. discriminate.
  - vm_compute. reflexivity.
  - vm_compute. reflexivity.
  - unfold I64_MAX. lia.
  - apply library_readable.
  - reflexivity.
  - reflexivity.
  - reflexivity.
  - vm_compute. discriminate.
Qed.
Definition both : gset Id := {[ id 10; id 20; id 30 ]}.
Definition places : gset Id := {[ id 54; id 70 ]}.
Lemma library_bounded t : dom (commands (library_at calm t)) ⊆ both /\ dom (locations (library_at calm t)) ⊆ places.
Proof.
  cbn [library_at calm]. split; intros i [x Hx]%elem_of_dom.
  - assert (forallb (fun '(i, _) => bool_decide (i ∈ both)) (map_to_list (commands library)) = true) as Hall by (vm_compute; reflexivity).
    exact (bool_decide_eq_true_1 _ (rows_of _ (fun i _ => bool_decide (i ∈ both)) Hall i x Hx)).
  - assert (forallb (fun '(i, _) => bool_decide (i ∈ places)) (map_to_list (locations library)) = true) as Hall by (vm_compute; reflexivity).
    exact (bool_decide_eq_true_1 _ (rows_of _ (fun i _ => bool_decide (i ∈ places)) Hall i x Hx)).
Qed.
(** The registrations of the two ingests. *)
Definition event_of (k : Id) : option Store.DomainEvent := List.find (fun e => bool_decide (Store.de_command_id e = k)) (Store.events (base library)).
Definition ingested_b (location k : Id) (e : Store.DomainEvent) : bool :=
  bool_decide (Store.de_command_id e = k) && bool_decide (Store.de_type e = bs "asset.registered.v1") && bool_decide (Store.de_aggregate_kind e = bs "ASSET")
  && (Store.de_sequence e <=? 3)
  && match commands library !! k with
     | Some c => bool_decide (c_operation_id c = ASSET_INGEST_COPY_V1) && bool_decide (c_state c = COMPLETED) && bool_decide (c_result_location_id c = Some location)
     | None => false
     end.
Lemma ingested_twice : exists e1 e2, ingested_at library 3 (id 54) (id 10) e1 /\ ingested_at library 3 (id 54) (id 20) e2.
Proof.
  assert (forall k e, event_of k = Some e -> ingested_b (id 54) k e = true -> ingested_at library 3 (id 54) k e) as Hb.
  { intros k e He Hi. unfold event_of in He. apply find_some in He as [Hin _]. unfold ingested_b in Hi. bool_hyps.
    destruct (commands library !! k) as [c|] eqn:Ec; [|discriminate]. bool_hyps. split; [by apply list_elem_of_In|].
    repeat (split; [assumption|]). exists c. repeat (split; [assumption|]). assumption. }
  destruct (event_of (id 10)) as [e1|] eqn:E1; [|vm_compute in E1; discriminate]. destruct (event_of (id 20)) as [e2|] eqn:E2; [|vm_compute in E2; discriminate].
  exists e1, e2. split; apply Hb; try assumption.
  - assert (from_option (ingested_b (id 54) (id 10)) false (event_of (id 10)) = true) as Hv by (vm_compute; reflexivity). rewrite E1 in Hv. exact Hv.
  - assert (from_option (ingested_b (id 54) (id 20)) false (event_of (id 20)) = true) as Hv by (vm_compute; reflexivity). rewrite E2 in Hv. exact Hv.
Qed.
Lemma stored_once : exists r, locations library !! id 54 = Some r /\ is_Some (blobs library !! l_digest r).
Proof.
  destruct (locations library !! id 54) as [r|] eqn:E; [|vm_compute in E; discriminate]. exists r. split; [reflexivity|].
  assert (from_option (fun r => negb (none (blobs library !! l_digest r))) false (locations library !! id 54) = true) as Hv by (vm_compute; reflexivity).
  rewrite E in Hv. cbn [from_option] in Hv. revert Hv. generalize (blobs library !! l_digest r). intros [b|] Hv; [exists b; reflexivity|discriminate Hv].
Qed.
(** The location that was recorded afterwards. *)
Lemma recorded_unnamed k c : commands library !! k = Some c -> c_operation_id c = ASSET_INGEST_COPY_V1 -> c_state c = COMPLETED -> c_result_location_id c <> Some (id 70).
Proof.
  assert (forallb (fun '(_, c) => negb (bool_decide (c_result_location_id c = Some (id 70)))) (map_to_list (commands library)) = true) as Hall by (vm_compute; reflexivity).
  intros Hk _ _. pose proof (rows_of _ (fun _ c => negb (bool_decide (c_result_location_id c = Some (id 70)))) Hall k c Hk) as Hn.
  apply negb_true_iff in Hn. exact (bool_decide_eq_false_1 _ Hn).
Qed.
Lemma library_ledger : ledger_ok library.
Proof. intros i r Hm. destruct (library_valid i r Hm) as [Hv _]. exact Hv. Qed.
End Example.

Lemma verification_always_ends_witness :
  exists result s' t', @verify_controlled Scenario.env Example.calm (Scenario.id 1) (runtime_id Scenario.ctx) 8 Normal Example.owner 0 = (Some result, s', t') /\
    (active Example.owner = true -> s' = Example.owner /\ exists e, result = Err e) /\
    (active Example.owner = false -> active s' = false /\
       match result with Ok x => exists issues, s' = publish Example.owner {| summary := x; issues := issues |} | Err _ => reports s' = reports Example.owner end).
Proof.
  assert (S (S (S (size Example.both + size Example.places))) <= 8)%nat as Hf by (vm_compute; repeat constructor).
  pose proof (@verification_always_ends Scenario.env Example.calm (Scenario.id 1) (runtime_id Scenario.ctx) Example.both Example.places Normal Example.owner 0 8
    Example.library_bounded Hf) as Ht. exact Ht.
Defined.
Lemma verification_is_exact_witness :
  exists report found t', @verify_controlled Scenario.env Example.calm (Scenario.id 1) (runtime_id Scenario.ctx) 7 Normal Example.owner 0
      = (Some (Ok (summary report)), publish Example.owner report, t') /\
    report_of report found /\ found ≡ₚ @expected Example.library 3 (runtime_id Scenario.ctx) Example.nothing /\
    verification_id (summary report) = Scenario.id 90 /\ Integrity.mode (summary report) = Normal /\ snapshot_commit_sequence (summary report) = 3.
Proof.
  assert (sizes Example.library + 1 < 7)%nat as Hf by (vm_compute; repeat constructor).
  pose proof (@verification_is_exact Scenario.env Example.calm (Scenario.id 1) (runtime_id Scenario.ctx) Example.library Example.nothing Normal Example.owner 0
    (Scenario.id 90) 3 7 Example.library_verifiable Hf) as Ht. exact Ht.
Defined.
Lemma shared_content_fails_verification_witness :
  exists x s' t', @verify_controlled Scenario.env Example.calm (Scenario.id 1) (runtime_id Scenario.ctx) 7 Normal Example.owner 0 = (Some (Ok x), s', t') /\
    has_fatal_local_issue x = true /\
    forall c, c ∈ map (candidate_of Example.library) (List.filter (intact Example.library 3) (scanned Example.library 3)) -> cd_location_id c <> Scenario.id 54.
Proof.
  assert (sizes Example.library + 1 < 7)%nat as Hf by (vm_compute; repeat constructor). assert (Scenario.id 10 <> Scenario.id 20) as Hk by (vm_compute; discriminate).
  destruct Example.ingested_twice as (e1 & e2 & H1 & H2). destruct Example.stored_once as (r & Hr & Hb).
  pose proof (@shared_content_fails_verification Scenario.env Example.calm (Scenario.id 1) (runtime_id Scenario.ctx) Example.library Example.nothing Normal Example.owner 0
    (Scenario.id 90) 3 7 (Scenario.id 54) r (Scenario.id 10) (Scenario.id 20) e1 e2 Example.library_verifiable Hf Hr Hb Hk H1 H2) as Ht. exact Ht.
Defined.
Lemma recorded_locations_are_not_verified_witness :
  is_Some (locations Example.library !! Scenario.id 70) /\
  forall r, registrations Example.library 3 (Scenario.id 70) = [] /\ scanned_location Example.library 3 (Scenario.id 70) r = false /\
    forall after, Scenario.id 70 ∉ ids_after (locations Example.library) (scanned_location Example.library 3) after.
Proof.
  split; [vm_compute; eexists; reflexivity|]. intros r.
  pose proof (@recorded_locations_are_not_verified Scenario.env Example.library 3 (Scenario.id 70) r Example.library_ledger Example.recorded_unnamed) as Ht. exact Ht.
Defined.
End VerificationReports.
