(* ===== verification/LogRecords.v ===== *)
(** The log of the daemon (mengxia-app/src/observability.rs, first half): the closed
    vocabulary of a log record, the matrix that admits one, the line it is written as and
    the bounded sink that hands the lines to a writer thread.

    Identities and instants print through the [uuid] and [time] crates, which are the
    interfaces [UuidCrate] and [TimeText]; the writer behind the thread may fail at any
    line after writing any part of it. *)
From Stdlib Require Import ZArith Lia String.
From Stdlib Require Import Strings.Byte Init.Byte.
From stdpp Require Import prelude list.
From S2P Require Import Prelude RustText Types AssetDomain CreativeDomain Ports CommandLedger CreativeStore AssetStore StartupRecovery AssetQuery AssetInspect AssetCursors Integrity.

Set Warnings "-clear-no-such-hyp".

(** ** The text of an instant (mengxia-types/src/timestamp.rs) *)

Module TimestampText.
Import TimestampValue.

(** [OffsetDateTime::format] and [OffsetDateTime::parse] with [Rfc3339]. *)
Class TimeText `{TimeCrate} := {
  format_rfc3339 : OffsetDateTime -> option (list byte);
  parse_rfc3339 : list byte -> option OffsetDateTime }.

(** An instant that [Timestamp] holds: it passed [from_validated_utc]. *)
Definition instant_wf `{TimeCrate} (t : OffsetDateTime) : Prop := from_validated_utc t = Ok t.

Definition digit_or (extra : list byte) (b : byte) : bool := is_ascii_digit b || byte_in extra b.

(** Documented: RFC 3339 represents the years 0 to 9999; the text of an instant in UTC is
    made of digits, [-], [:], [.], [T] and [Z], has 20 to 30 bytes, and is read back. *)
Class TimeTextLaws `{TimeText} : Prop := {
  rfc3339_shape : forall t, instant_wf t -> exists text, format_rfc3339 t = Some text /\
    20 <= blen text <= 30 /\ forallb (digit_or (bs "-:.TZ")) text = true;
  rfc3339_parse : forall t text, instant_wf t -> format_rfc3339 t = Some text -> parse_rfc3339 text = Some t }.

Section text.
Context `{TimeText}.

(** [Display]: a failing [format] makes [to_string] panic; on the instants that
    [Timestamp] admits it does not fail. *)
Definition timestamp_to_string (t : Timestamp) : list byte := default [] (format_rfc3339 t).

Definition timestamp_from_str (value : list byte) : result ValueError Timestamp :=
  if negb ((20 <=? blen value) && (blen value <=? 30)) || negb (is_ascii value) then Err InvalidTimestamp
  else
    let? timestamp := ok_or InvalidTimestamp (parse_rfc3339 value) in
    let? timestamp := from_validated_utc timestamp in
    if negb (bool_decide (timestamp_to_string timestamp = value)) then Err InvalidTimestamp
    else Ok timestamp.
End text.
End TimestampText.

Module Log.
Import TimestampText.
Abbreviation Id := TypedId.Id.
Abbreviation Timestamp := TimestampValue.Timestamp.
Abbreviation IntegrityIssueKind := Integrity.IntegrityIssueKind.

Definition OBSERVABILITY_QUEUE_MAX : nat := 256.
Definition CORE_LOG_LINE_BYTES_MAX : Z := 1024.
Definition BUILD_VERSION_BYTES_MAX : Z := 64.

(** ** The vocabulary *)

Inductive CoreLogLevel := LevelError | LevelWarn | LevelInfo | LevelDebug | LevelTrace.
Inductive CoreLogSeverity := SevAlert | SevError | SevWarn | SevInfo | SevDebug | SevTrace.
Definition severity_str (s : CoreLogSeverity) : list byte :=
  match s with
  | SevAlert => bs "ALERT" | SevError => bs "ERROR" | SevWarn => bs "WARN"
  | SevInfo => bs "INFO" | SevDebug => bs "DEBUG" | SevTrace => bs "TRACE"
  end.
Definition allows (level : CoreLogLevel) (s : CoreLogSeverity) : bool :=
  match s with
  | SevAlert | SevError => true
  | SevWarn => match level with LevelError => false | _ => true end
  | SevInfo => match level with LevelInfo | LevelDebug | LevelTrace => true | _ => false end
  | SevDebug => match level with LevelDebug | LevelTrace => true | _ => false end
  | SevTrace => match level with LevelTrace => true | _ => false end
  end.

Inductive CoreLogEventKind :=
| ServiceStarting | ServiceReady | ServiceStopping | OperationStarted | OperationCompleted | OperationFailed
| DbObservation | StorageObservation | IntegrityIssueObserved | HealthTransition | RecoveryClassification.
Definition event_kind_str (k : CoreLogEventKind) : list byte :=
  match k with
  | ServiceStarting => bs "SERVICE_STARTING" | ServiceReady => bs "SERVICE_READY"
  | ServiceStopping => bs "SERVICE_STOPPING" | OperationStarted => bs "OPERATION_STARTED"
  | OperationCompleted => bs "OPERATION_COMPLETED" | OperationFailed => bs "OPERATION_FAILED"
  | DbObservation => bs "DB_OBSERVATION" | StorageObservation => bs "STORAGE_OBSERVATION"
  | IntegrityIssueObserved => bs "INTEGRITY_ISSUE_OBSERVED" | HealthTransition => bs "HEALTH_TRANSITION"
  | RecoveryClassification => bs "RECOVERY_CLASSIFICATION"
  end.

Inductive CoreOperationKind :=
| OpNone | HandshakeV1 | AssetIngestCopyV1 | LibraryStatusV1 | LibraryVerifyV1 | LibraryIntegrityIssuesListV1
| AssetInspectV1 | AssetListV1 | AssetMaterializeV1 | AssetRevisionCreateV1 | AssetRetireV1 | AssetRestoreV1
| ProjectCreateV1 | ProjectSpecReviseV1 | ProjectListV1 | SubjectCreateV1 | SubjectListV1 | WorkCreateV1
| WorkReviseV1 | WorkListV1 | TakeCreateV1 | TakeTransitionV1 | TakeReopenV1 | TakeListV1
| StartupLocalClassificationV1.
#[global] Instance CoreOperationKind_eq_dec : EqDecision CoreOperationKind.
Proof. solve_decision. Defined.
Definition operation_kind_str (k : CoreOperationKind) : list byte :=
  match k with
  | OpNone => bs "NONE" | HandshakeV1 => bs "HANDSHAKE_V1" | AssetIngestCopyV1 => bs "ASSET_INGEST_COPY_V1"
  | LibraryStatusV1 => bs "LIBRARY_STATUS_V1" | LibraryVerifyV1 => bs "LIBRARY_VERIFY_V1"
  | LibraryIntegrityIssuesListV1 => bs "LIBRARY_INTEGRITY_ISSUES_LIST_V1"
  | AssetInspectV1 => bs "ASSET_INSPECT_V1" | AssetListV1 => bs "ASSET_LIST_V1"
  | AssetMaterializeV1 => bs "ASSET_MATERIALIZE_V1" | AssetRevisionCreateV1 => bs "ASSET_REVISION_CREATE_V1"
  | AssetRetireV1 => bs "ASSET_RETIRE_V1" | AssetRestoreV1 => bs "ASSET_RESTORE_V1"
  | ProjectCreateV1 => bs "PROJECT_CREATE_V1" | ProjectSpecReviseV1 => bs "PROJECT_SPEC_REVISE_V1"
  | ProjectListV1 => bs "PROJECT_LIST_V1" | SubjectCreateV1 => bs "SUBJECT_CREATE_V1"
  | SubjectListV1 => bs "SUBJECT_LIST_V1" | WorkCreateV1 => bs "WORK_CREATE_V1"
  | WorkReviseV1 => bs "WORK_REVISE_V1" | WorkListV1 => bs "WORK_LIST_V1" | TakeCreateV1 => bs "TAKE_CREATE_V1"
  | TakeTransitionV1 => bs "TAKE_TRANSITION_V1" | TakeReopenV1 => bs "TAKE_REOPEN_V1"
  | TakeListV1 => bs "TAKE_LIST_V1" | StartupLocalClassificationV1 => bs "STARTUP_LOCAL_CLASSIFICATION_V1"
  end.
Definition requires_command (k : CoreOperationKind) : bool :=
  match k with
  | AssetIngestCopyV1 | AssetMaterializeV1 | AssetRevisionCreateV1 | AssetRetireV1 | AssetRestoreV1
  | ProjectCreateV1 | ProjectSpecReviseV1 | SubjectCreateV1 | WorkCreateV1 | WorkReviseV1 | TakeCreateV1
  | TakeTransitionV1 | TakeReopenV1 => true
  | _ => false
  end.

Inductive CoreOutcomeKind :=
| OutcomeNone | Started | Succeeded | Replayed | TerminalRejected | RecoveryRequired | Cancelled
| OutcomeDeadlineExceeded | OutcomeBackpressure | Failed.
#[global] Instance CoreOutcomeKind_eq_dec : EqDecision CoreOutcomeKind.
Proof. solve_decision. Defined.
Definition outcome_kind_str (k : CoreOutcomeKind) : list byte :=
  match k with
  | OutcomeNone => bs "NONE" | Started => bs "STARTED" | Succeeded => bs "SUCCEEDED" | Replayed => bs "REPLAYED"
  | TerminalRejected => bs "TERMINAL_REJECTED" | RecoveryRequired => bs "RECOVERY_REQUIRED"
  | Cancelled => bs "CANCELLED" | OutcomeDeadlineExceeded => bs "DEADLINE_EXCEEDED"
  | OutcomeBackpressure => bs "BACKPRESSURE" | Failed => bs "FAILED"
  end.
Definition is_success (k : CoreOutcomeKind) : bool :=
  match k with Succeeded | Replayed => true | _ => false end.

Definition issue_kind_str (k : IntegrityIssueKind) : list byte :=
  match k with
  | Integrity.DatabaseIntegrityFailure => bs "DATABASE_INTEGRITY_FAILURE"
  | Integrity.SchemaOrMigrationMismatch => bs "SCHEMA_OR_MIGRATION_MISMATCH"
  | Integrity.LibraryAuthorityMismatch => bs "LIBRARY_AUTHORITY_MISMATCH"
  | Integrity.CommandRecoveryRequired => bs "COMMAND_RECOVERY_REQUIRED"
  | Integrity.EventOrGraphInconsistent => bs "EVENT_OR_GRAPH_INCONSISTENT"
  | Integrity.LocalBackendMismatch => bs "LOCAL_BACKEND_MISMATCH"
  | Integrity.ManagedBlobMissing => bs "MANAGED_BLOB_MISSING"
  | Integrity.ManagedBlobUnsafe => bs "MANAGED_BLOB_UNSAFE"
  | Integrity.ManagedBlobLengthMismatch => bs "MANAGED_BLOB_LENGTH_MISMATCH"
  | Integrity.ManagedBlobDigestMismatch => bs "MANAGED_BLOB_DIGEST_MISMATCH"
  | Integrity.UnregisteredCanonicalBlob => bs "UNREGISTERED_CANONICAL_BLOB"
  | Integrity.StagingOrphan => bs "STAGING_ORPHAN"
  | Integrity.UnsafeCasNamespaceEntry => bs "UNSAFE_CAS_NAMESPACE_ENTRY"
  | Integrity.MaterializationRecoveryRequired => bs "MATERIALIZATION_RECOVERY_REQUIRED"
  end.

(** ** Records and their matrix *)

Record CoreLogContext := { request_id : Id; correlation_id : Id; command_id : option Id }.

Section records.
Context `{TypedId.UuidCrate} `{TimeText}.

Record CoreLogEventDraft := {
  timestamp : option Timestamp; severity : CoreLogSeverity; event_kind : CoreLogEventKind;
  operation_kind : CoreOperationKind; outcome_kind : CoreOutcomeKind; context : option CoreLogContext;
  error_code : option ErrorCode; retryable : option bool; duration_ms : option Z;
  issue_kind : option IntegrityIssueKind }.

Definition is_some {A} (o : option A) : bool := match o with Some _ => true | None => false end.
Definition is_none {A} (o : option A) : bool := negb (is_some o).

Definition context_command_matches (e : CoreLogEventDraft) : bool :=
  match context e with
  | None => true
  | Some c => eqb (is_some (command_id c)) (requires_command (operation_kind e))
  end.
(** An operation that a client asked for. *)
Definition names_operation (e : CoreLogEventDraft) : bool :=
  negb (bool_decide (operation_kind e = OpNone)) && negb (bool_decide (operation_kind e = StartupLocalClassificationV1)).

Definition valid_log_event (e : CoreLogEventDraft) : bool :=
  match event_kind e with
  | ServiceStarting | ServiceReady | ServiceStopping | HealthTransition =>
      bool_decide (operation_kind e = OpNone) && bool_decide (outcome_kind e = OutcomeNone) && is_none (context e) &&
      is_none (error_code e) && is_none (retryable e) && is_none (duration_ms e) && is_none (issue_kind e)
  | OperationStarted =>
      names_operation e && bool_decide (outcome_kind e = Started) && is_some (context e) && context_command_matches e &&
      is_none (error_code e) && is_none (retryable e) && is_none (duration_ms e) && is_none (issue_kind e)
  | OperationCompleted =>
      names_operation e && is_success (outcome_kind e) && is_some (context e) && context_command_matches e &&
      is_none (error_code e) && is_none (retryable e) && is_some (duration_ms e) && is_none (issue_kind e)
  | OperationFailed =>
      names_operation e &&
      negb (match outcome_kind e with OutcomeNone | Started | Succeeded | Replayed => true | _ => false end) &&
      is_some (context e) && context_command_matches e &&
      is_some (error_code e) && is_some (retryable e) && is_some (duration_ms e) && is_none (issue_kind e)
  | DbObservation | StorageObservation =>
      negb (bool_decide (operation_kind e = OpNone)) && negb (bool_decide (outcome_kind e = OutcomeNone)) &&
      negb (bool_decide (outcome_kind e = Started)) && (is_none (context e) || context_command_matches e) &&
      eqb (is_success (outcome_kind e)) (is_none (error_code e) && is_none (retryable e)) &&
      is_some (duration_ms e) && is_none (issue_kind e)
  | IntegrityIssueObserved =>
      bool_decide (operation_kind e = LibraryVerifyV1) && bool_decide (outcome_kind e = Succeeded) && is_some (context e) &&
      match context e with Some c => is_none (command_id c) | None => false end &&
      is_none (error_code e) && is_none (retryable e) && is_none (duration_ms e) && is_some (issue_kind e)
  | RecoveryClassification =>
      bool_decide (operation_kind e = StartupLocalClassificationV1) &&
      negb (match outcome_kind e with OutcomeNone | Started => true | _ => false end) && is_none (context e) &&
      eqb (is_success (outcome_kind e)) (is_none (error_code e) && is_none (retryable e)) &&
      is_some (duration_ms e) && is_none (issue_kind e)
  end.
Definition validate_log_event (e : CoreLogEventDraft) : result ErrorCode unit :=
  if valid_log_event e then Ok tt else Err InternalError.
Definition core_log_event_new (e : CoreLogEventDraft) : result ErrorCode CoreLogEventDraft :=
  let? _ := validate_log_event e in Ok e.

(** ** The line *)

Definition version_byte (b : byte) : bool := is_ascii_alphanumeric b || byte_in (bs "._+-") b.
Definition build_version_new (value : list byte) : result ErrorCode (list byte) :=
  if bool_decide (value = []) || (BUILD_VERSION_BYTES_MAX <? blen value) || negb (forallb version_byte value)
  then Err StorageConfigurationError else Ok value.
(** [CoreLogEncoder::new] *)
Definition encoder_new (build_version : list byte) : result ErrorCode (list byte) := build_version_new build_version.

Definition dash : list byte := bs "-".
Definition or_dash {A} (f : A -> list byte) (o : option A) : list byte := match o with Some a => f a | None => dash end.
Definition bool_str (b : bool) : list byte := if b then bs "true" else bs "false".

Definition encode (build_version : list byte) (e : CoreLogEventDraft) : result ErrorCode (list byte) :=
  let timestamp := match timestamp e with Some t => timestamp_to_string t | None => bs "UNAVAILABLE" end in
  let '(request_id, correlation_id, command_id) :=
    match context e with
    | Some c => (TypedId.to_string (request_id c), TypedId.to_string (correlation_id c), or_dash TypedId.to_string (command_id c))
    | None => (dash, dash, dash)
    end in
  let error_code := or_dash ErrorCodeText.as_str (error_code e) in
  let retryable := or_dash bool_str (retryable e) in
  let duration := or_dash dec_print (duration_ms e) in
  let issue := or_dash issue_kind_str (issue_kind e) in
  let line :=
    bs "schema_version=1 timestamp=" ++ timestamp ++ bs " severity=" ++ severity_str (severity e) ++
    bs " service=MENGXIAD build_version=" ++ build_version ++ bs " event_kind=" ++ event_kind_str (event_kind e) ++
    bs " operation_kind=" ++ operation_kind_str (operation_kind e) ++
    bs " outcome_kind=" ++ outcome_kind_str (outcome_kind e) ++ bs " request_id=" ++ request_id ++
    bs " correlation_id=" ++ correlation_id ++ bs " command_id=" ++ command_id ++ bs " causation_id=- error_code=" ++ error_code ++
    bs " retryable=" ++ retryable ++ bs " duration_ms=" ++ duration ++ bs " issue_kind=" ++ issue in
  if (CORE_LOG_LINE_BYTES_MAX <? blen line) || negb (is_ascii line) then Err InternalError else Ok line.
End records.
Arguments CoreLogEventDraft {_}.

(** ** The sink *)

Inductive LogCommand := Line (line : list byte) | Shutdown.
Record LogSinkState := { queue_drops : Z; encode_drops : Z; writer_failed : bool }.

(** The worker thread runs [log_writer]: it receives, or a write failed and the flag is to
    be set, or it leaves the function, or it returned and the receiver is dropped. *)
Inductive Worker := Receiving | Failing | Leaving | Returned.
(** The thread that owns the sink: in use, in the blocking [send] of [shutdown_inner],
    in [join] (with [send_failed]), or past it with the answer. *)
Inductive Owner := Open | Sending | Joining (send_failed : bool) | Ended (answer : result ErrorCode unit).

Record CoreLogSink := {
  level : CoreLogLevel; encoder : list byte; queue : list LogCommand; state : LogSinkState;
  worker : Worker; owner : Owner; output : list byte }.

Section sink.
Context `{TypedId.UuidCrate} `{TimeText}.

(** [spawned] is the answer of the thread builder. *)
Definition start (level : CoreLogLevel) (build_version : list byte) (spawned : bool) : result ErrorCode CoreLogSink :=
  let? encoder := encoder_new build_version in
  if spawned
  then Ok {| level := level; encoder := encoder; queue := [];
             state := {| queue_drops := 0; encode_drops := 0; writer_failed := false |};
             worker := Receiving; owner := Open; output := [] |}
  else Err InternalError.

Definition with_state (s : CoreLogSink) (st : LogSinkState) : CoreLogSink :=
  {| level := level s; encoder := encoder s; queue := queue s; state := st; worker := worker s; owner := owner s;
     output := output s |}.
Definition with_queue (s : CoreLogSink) (q : list LogCommand) : CoreLogSink :=
  {| level := level s; encoder := encoder s; queue := q; state := state s; worker := worker s; owner := owner s;
     output := output s |}.
Definition with_worker (s : CoreLogSink) (w : Worker) : CoreLogSink :=
  {| level := level s; encoder := encoder s; queue := queue s; state := state s; worker := w; owner := owner s;
     output := output s |}.
Definition with_owner (s : CoreLogSink) (o : Owner) : CoreLogSink :=
  {| level := level s; encoder := encoder s; queue := queue s; state := state s; worker := worker s; owner := o;
     output := output s |}.
Definition writes (s : CoreLogSink) (bytes : list byte) : CoreLogSink :=
  {| level := level s; encoder := encoder s; queue := queue s; state := state s; worker := worker s; owner := owner s;
     output := output s ++ bytes |}.

Definition disconnected (s : CoreLogSink) : bool := match worker s with Returned => true | _ => false end.
Definition has_room (s : CoreLogSink) : bool := Nat.ltb (length (queue s)) OBSERVABILITY_QUEUE_MAX.

Definition count_encode_drop (st : LogSinkState) : LogSinkState :=
  {| queue_drops := queue_drops st; encode_drops := saturating_add U64_MAX (encode_drops st) 1; writer_failed := writer_failed st |}.
Definition count_queue_drop (st : LogSinkState) : LogSinkState :=
  {| queue_drops := saturating_add U64_MAX (queue_drops st) 1; encode_drops := encode_drops st; writer_failed := writer_failed st |}.
Definition mark_writer_failed (st : LogSinkState) : LogSinkState :=
  {| queue_drops := queue_drops st; encode_drops := encode_drops st; writer_failed := true |}.

Definition emit (s : CoreLogSink) (e : CoreLogEventDraft) : CoreLogSink :=
  if negb (allows (level s) (severity e)) then s
  else
    match encode (encoder s) e with
    | Err _ => with_state s (count_encode_drop (state s))
    | Ok line =>
        if has_room s && negb (disconnected s) then with_queue s (queue s ++ [Line line])
        else with_state s (count_queue_drop (state s))
    end.

Definition snapshot (s : CoreLogSink) : LogSinkState := state s.

(** What [shutdown_inner] answers once the worker was joined. *)
Definition shutdown_answer (send_failed : bool) (st : LogSinkState) : result ErrorCode unit :=
  if send_failed || writer_failed st then Err InternalError else Ok tt.

(** The values a draft can hold: identities and instants that their types admit, a [u64]. *)
Definition draft_wf (e : CoreLogEventDraft) : Prop :=
  match timestamp e with Some t => instant_wf t | None => True end /\
  match context e with
  | Some c => TypedId.wf (request_id c) /\ TypedId.wf (correlation_id c) /\
              match command_id c with Some i => TypedId.wf i | None => True end
  | None => True
  end /\
  match duration_ms e with Some d => is_u64 d | None => True end.

(** One step of the sink, labelled with the record that is offered, if any.  The channel
    and the lock order the steps; an [emit] of a caller is one step, since the counter it
    may increment after its [try_send] is read by [snapshot] only. *)
Inductive step : CoreLogSink -> option CoreLogEventDraft -> CoreLogSink -> Prop :=
| step_emit s e : owner s = Open -> core_log_event_new e = Ok e -> draft_wf e -> step s (Some e) (emit s e)
| step_write s line rest : worker s = Receiving -> queue s = Line line :: rest ->
    step s None (with_queue (writes s (line ++ [x0a])) rest)
| step_write_fails s line rest part : worker s = Receiving -> queue s = Line line :: rest -> part `prefix_of` line ++ [x0a] ->
    step s None (with_worker (with_queue (writes s part) rest) Failing)
| step_mark_failed s : worker s = Failing -> step s None (with_worker (with_state s (mark_writer_failed (state s))) Leaving)
| step_receive_shutdown s rest : worker s = Receiving -> queue s = Shutdown :: rest ->
    step s None (with_worker (with_queue s rest) Leaving)
| step_return s : worker s = Leaving -> step s None (with_worker (with_queue s []) Returned)
| step_shutdown s : owner s = Open -> step s None (with_owner s Sending)
| step_send s : owner s = Sending -> has_room s = true -> disconnected s = false ->
    step s None (with_owner (with_queue s (queue s ++ [Shutdown])) (Joining false))
| step_send_fails s : owner s = Sending -> disconnected s = true -> step s None (with_owner s (Joining true))
| step_join s send_failed : owner s = Joining send_failed -> worker s = Returned ->
    step s None (with_owner s (Ended (shutdown_answer send_failed (state s)))).

(** The records offered along a run, in order. *)
Inductive runs (s0 : CoreLogSink) : list CoreLogEventDraft -> CoreLogSink -> Prop :=
| runs_start : runs s0 [] s0
| runs_step offered s label s' : runs s0 offered s -> step s label s' ->
    runs s0 (offered ++ match label with Some e => [e] | None => [] end) s'.
End sink.

(** ** Properties of the line *)

Section line.
Context {U : TypedId.UuidCrate} {UL : TypedId.UuidLaws U} `{TTL : TimeTextLaws}.

Definition graphic : byte -> bool := in_range 33 126.

(** The crate documents that [hyphenated] prints lower-case hexadecimal digits and hyphens. *)
Context (hyphenated_graphic : forall u, length u = 16%nat -> forallb graphic (TypedId.hyphenated u) = true).

(** A field value: visible bytes, at most [n] of them. *)
Definition value_ok (n : Z) (v : list byte) : Prop := blen v <= n /\ forallb graphic v = true.

Lemma graphic_mono (p : byte -> bool) v :
  forallb (fun b => implb (p b) (graphic b)) all_bytes = true -> forallb p v = true -> forallb graphic v = true.
Proof.
  intros Hp. induction v as [|b v IH]; cbn; [done|]. intros [Hb Hv]%andb_true_iff. rewrite IH by done.
  pose proof (byte_forallb _ Hp b) as Hi. cbn in Hi. rewrite Hb in Hi. cbn in Hi. by rewrite Hi.
Qed.

Lemma severity_ok s : value_ok 5 (severity_str s).
Proof. destruct s; by vm_compute. Qed.
Lemma event_kind_ok k : value_ok 24 (event_kind_str k).
Proof. destruct k; by vm_compute. Qed.
Lemma operation_kind_ok k : value_ok 32 (operation_kind_str k).
Proof. destruct k; by vm_compute. Qed.
Lemma outcome_kind_ok k : value_ok 17 (outcome_kind_str k).
Proof. destruct k; by vm_compute. Qed.
Lemma issue_kind_ok k : value_ok 33 (issue_kind_str k).
Proof. destruct k; by vm_compute. Qed.
Lemma error_code_ok c : value_ok 29 (ErrorCodeText.as_str c).
Proof. destruct c; by vm_compute. Qed.
Lemma bool_ok b : value_ok 5 (bool_str b).
Proof. destruct b; by vm_compute. Qed.
Lemma duration_ok z : is_u64 z -> value_ok 20 (dec_print z).
Proof.
  intros [Hz _]. split; [unfold blen, dec_print; pose proof (dec_print_length 20 z); lia|].
  apply (graphic_mono is_ascii_digit); [by vm_compute|by apply dec_print_digits].
Qed.
Lemma id_text_ok i : TypedId.wf i -> value_ok 36 (TypedId.to_string i).
Proof. intros [Hl _]. split; [|by apply hyphenated_graphic]. destruct (TypedId.hyphenated_shape i Hl) as [Hb _]. unfold TypedId.to_string. lia. Qed.
Lemma or_dash_ok {A} n (f : A -> list byte) o :
  1 <= n -> (forall a, o = Some a -> value_ok n (f a)) -> value_ok n (or_dash f o).
Proof. intros Hn Hf. destruct o as [a|]; cbn; [by apply Hf|]. by split. Qed.
Lemma timestamp_text_ok (o : option Timestamp) :
  match o with Some t => instant_wf t | None => True end ->
  value_ok 30 (match o with Some t => timestamp_to_string t | None => bs "UNAVAILABLE" end).
Proof.
  destruct o as [t|]; [|by vm_compute]. intros Ht. destruct (rfc3339_shape t Ht) as (text & He & Hl & Hc).
  unfold timestamp_to_string. rewrite He. cbn. split; [lia|]. revert Hc. by apply graphic_mono.
Qed.
Lemma version_ok v : encoder_new v = Ok v -> value_ok 64 v.
Proof.
  unfold encoder_new, build_version_new, BUILD_VERSION_BYTES_MAX. destruct (_ || _) eqn:E; [done|]. intros _.
  apply orb_false_iff in E as [[_ E1]%orb_false_iff E2]. apply Z.ltb_ge in E1. apply negb_false_iff in E2.
  split; [done|]. revert E2. by apply graphic_mono.
Qed.

(** The reference form of a line: the fields in order, [key=value], separated by blanks. *)
Definition field (kv : list byte * list byte) : list byte := kv.1 ++ x3d :: kv.2.
Fixpoint spaced (l : list (list byte)) : list byte :=
  match l with
  | [] => []
  | [v] => v
  | v :: rest => v ++ x20 :: spaced rest
  end.
Definition timestamp_value (e : CoreLogEventDraft) : list byte :=
  match timestamp e with Some t => timestamp_to_string t | None => bs "UNAVAILABLE" end.
Definition id_value (f : CoreLogContext -> option Id) (e : CoreLogEventDraft) : list byte :=
  or_dash TypedId.to_string (context e ≫= f).
Definition fields (v : list byte) (e : CoreLogEventDraft) : list (list byte * list byte) :=
  [ (bs "schema_version", bs "1"); (bs "timestamp", timestamp_value e); (bs "severity", severity_str (severity e));
    (bs "service", bs "MENGXIAD"); (bs "build_version", v); (bs "event_kind", event_kind_str (event_kind e));
    (bs "operation_kind", operation_kind_str (operation_kind e)); (bs "outcome_kind", outcome_kind_str (outcome_kind e));
    (bs "request_id", id_value (fun c => Some (request_id c)) e); (bs "correlation_id", id_value (fun c => Some (correlation_id c)) e);
    (bs "command_id", id_value command_id e); (bs "causation_id", bs "-");
    (bs "error_code", or_dash ErrorCodeText.as_str (error_code e)); (bs "retryable", or_dash bool_str (retryable e));
    (bs "duration_ms", or_dash dec_print (duration_ms e)); (bs "issue_kind", or_dash issue_kind_str (issue_kind e)) ].
Definition line_of (v : list byte) (e : CoreLogEventDraft) : list byte := spaced (map field (fields v e)).

Lemma encode_line v e :
  encode v e = if (CORE_LOG_LINE_BYTES_MAX <? blen (line_of v e)) || negb (is_ascii (line_of v e)) then Err InternalError else Ok (line_of v e).
Proof.
  unfold encode, line_of, fields, id_value, timestamp_value.
  destruct (context e) as [c|]; cbn [mbind option_bind];
    (erewrite (f_equal2 (fun a b => if (CORE_LOG_LINE_BYTES_MAX <? blen a) || negb (is_ascii b) then _ else _)); [reflexivity| |]);
    cbn [spaced map field fst snd or_dash app bs list_byte_of_string String.list_byte_of_string]; reflexivity.
Qed.

(** The most a field can take, in the order of [fields]. *)
Definition field_limits : list Z := [1; 30; 5; 8; 64; 24; 32; 17; 36; 36; 36; 1; 29; 5; 20; 33].

Lemma id_value_ok f e :
  (forall c i, context e = Some c -> f c = Some i -> TypedId.wf i) -> value_ok 36 (id_value f e).
Proof.
  intros Hf. unfold id_value. destruct (context e) as [c|] eqn:E; cbn; [|by split].
  apply or_dash_ok; [done|]. intros i Hi. apply id_text_ok. by apply (Hf c).
Qed.

Lemma fields_ok v e : encoder_new v = Ok v -> draft_wf e ->
  Forall2 (fun n kv => value_ok n kv.2) field_limits (fields v e).
Proof.
  intros Hv (Ht & Hc & Hd). unfold field_limits, fields.
  repeat (apply Forall2_cons; split); try apply Forall2_nil; cbn [snd]; try (by split);
    auto using severity_ok, event_kind_ok, operation_kind_ok, outcome_kind_ok, version_ok.
  - by apply timestamp_text_ok.
  - apply id_value_ok. intros c i Hx [= <-]. rewrite Hx in Hc. apply Hc.
  - apply id_value_ok. intros c i Hx [= <-]. rewrite Hx in Hc. apply Hc.
  - apply id_value_ok. intros c i Hx Hi. rewrite Hx, Hi in Hc. apply Hc.
  - apply or_dash_ok; [done|]. intros a _. apply error_code_ok.
  - apply or_dash_ok; [done|]. intros a _. apply bool_ok.
  - apply or_dash_ok; [done|]. intros a Ha. apply duration_ok. by rewrite Ha in Hd.
  - apply or_dash_ok; [done|]. intros a _. apply issue_kind_ok.
Qed.

Lemma spaced_cons v w rest : spaced (v :: w :: rest) = v ++ x20 :: spaced (w :: rest).
Proof. done. Qed.

Lemma spaced_blen limits kvs : Forall2 (fun n kv => value_ok n kv.2) limits kvs ->
  blen (spaced (map field kvs)) <= foldr Z.add 0 limits + foldr (fun kv n => blen kv.1 + 2 + n) 0 kvs.
Proof.
  induction 1 as [|n kv limits kvs [Hn _] Hr IH]; [done|]. destruct kvs as [|kv' rest].
  - inversion Hr; subst. cbn [map spaced foldr]. unfold field. rewrite blen_app, blen_cons. pose proof (blen_nonneg kv.1). lia.
  - cbn [map] in *. rewrite spaced_cons, blen_app, blen_cons. unfold field at 1. rewrite blen_app, blen_cons.
    cbn [foldr] in IH |- *. lia.
Qed.

(** A byte of a line: visible, or the blank between two fields. *)
Definition printable : byte -> bool := in_range 32 126.
Lemma graphic_printable v : forallb graphic v = true -> forallb printable v = true.
Proof.
  induction v as [|b v IH]; cbn; [done|]. intros [Hb Hv]%andb_true_iff. rewrite IH by done. rewrite andb_true_r.
  unfold graphic, printable, in_range in *. bool_hyps. apply andb_true_iff; split; apply Z.leb_le; lia.
Qed.
Lemma spaced_printable l : Forall (fun v => forallb graphic v = true) l -> forallb printable (spaced l) = true.
Proof.
  induction 1 as [|v l Hv Hl IH]; [done|]. destruct l as [|w rest]; cbn [spaced]; [by apply graphic_printable|].
  rewrite forallb_app. rewrite (graphic_printable _ Hv). exact IH.
Qed.
Lemma printable_ascii v : forallb printable v = true -> is_ascii v = true.
Proof.
  induction v as [|b v IH]; cbn; [done|]. intros [Hb Hv]%andb_true_iff. fold (is_ascii v). rewrite IH by done. rewrite andb_true_r.
  unfold printable, in_range in *. bool_hyps. apply andb_true_iff; split; apply Z.leb_le; lia.
Qed.

Lemma graphic_split a b r r' : forallb graphic a = true -> forallb graphic b = true ->
  a ++ x20 :: r = b ++ x20 :: r' -> a = b /\ r = r'.
Proof.
  revert b. induction a as [|x a IH]; intros [|y b] Ha Hb; cbn [app forallb] in *; intros He.
  - by injection He as ->.
  - injection He as <- _. by apply andb_true_iff in Hb as [Hb _].
  - injection He as -> _. by apply andb_true_iff in Ha as [Ha _].
  - injection He as -> He. apply andb_true_iff in Ha as [_ Ha], Hb as [_ Hb]. by destruct (IH b Ha Hb He) as [-> ->].
Qed.
Lemma graphic_whole a b r : forallb graphic b = true -> a ++ x20 :: r = b -> False.
Proof. intros Hb <-. rewrite forallb_app in Hb. apply andb_true_iff in Hb as [_ Hb]. done. Qed.

Lemma spaced_inj l l' : Forall (fun v => forallb graphic v = true) l -> Forall (fun v => forallb graphic v = true) l' ->
  length l = length l' -> spaced l = spaced l' -> l = l'.
Proof.
  intros Hl. revert l'. induction Hl as [|v l Hv Hl IH]; intros l' Hl' Hn; [by destruct l'|].
  inversion Hl' as [|v' l2 Hv' Hl2]; subst; [done|]. injection Hn as Hn.
  destruct l as [|w rest], l2 as [|w' rest']; try done; [cbn; by intros ->|].
  rewrite !spaced_cons. intros He. apply graphic_split in He as [-> He]; [|done..].
  f_equal. by apply IH.
Qed.

Lemma fields_graphic v e : encoder_new v = Ok v -> draft_wf e -> Forall (fun f => forallb graphic f = true) (map field (fields v e)).
Proof.
  intros Hv He. pose proof (fields_ok v e Hv He) as Hf.
  assert (Hk : Forall (fun kv : list byte * list byte => forallb graphic kv.1 = true) (fields v e)) by (repeat constructor).
  clear Hv He. revert Hf. generalize field_limits. induction Hk as [|kv l Hk Hl IH]; intros limits Hf; cbn; [constructor|].
  inversion Hf as [|n kv' limits' l' [_ Hg] Hr]; subst. constructor; [|by eapply IH].
  unfold field. rewrite forallb_app, Hk. cbn. by rewrite Hg.
Qed.

(** Every well-formed record has a line within the limit. *)
Lemma encode_succeeds v e : encoder_new v = Ok v -> draft_wf e ->
  encode v e = Ok (line_of v e) /\ blen (line_of v e) <= CORE_LOG_LINE_BYTES_MAX /\ forallb printable (line_of v e) = true.
Proof.
  intros Hv He. pose proof (spaced_printable _ (fields_graphic v e Hv He)) as Hp. fold (line_of v e) in Hp.
  assert (blen (line_of v e) <= CORE_LOG_LINE_BYTES_MAX) as Hl.
  { unfold line_of. etransitivity; [apply (spaced_blen _ _ (fields_ok v e Hv He))|]. done. }
  split_and!; [|done..]. rewrite encode_line, (proj2 (Z.ltb_ge _ _) Hl), (printable_ascii _ Hp). done.
Qed.

(** Each value is read back from its field. *)
Lemma or_dash_inj {A} (f : A -> list byte) o o' :
  (forall a, o = Some a \/ o' = Some a -> f a <> dash) -> (forall a b, o = Some a -> o' = Some b -> f a = f b -> a = b) ->
  or_dash f o = or_dash f o' -> o = o'.
Proof.
  intros Hd Hi. destruct o as [a|], o' as [b|]; cbn; intros He; [f_equal; by apply Hi| | |done].
  - destruct (Hd a); [by left|done].
  - destruct (Hd b); [by right|done].
Qed.
Lemma severity_inj s s' : severity_str s = severity_str s' -> s = s'.
Proof. by destruct s, s'. Qed.
Lemma event_kind_inj k k' : event_kind_str k = event_kind_str k' -> k = k'.
Proof. by destruct k, k'. Qed.
Lemma operation_kind_inj k k' : operation_kind_str k = operation_kind_str k' -> k = k'.
Proof. by destruct k, k'. Qed.
Lemma outcome_kind_inj k k' : outcome_kind_str k = outcome_kind_str k' -> k = k'.
Proof. by destruct k, k'. Qed.
Lemma issue_kind_inj o o' : or_dash issue_kind_str o = or_dash issue_kind_str o' -> o = o'.
Proof. apply or_dash_inj; [by intros []|]. intros [] [] _ _; by cbn. Qed.
Lemma retryable_inj o o' : or_dash bool_str o = or_dash bool_str o' -> o = o'.
Proof. by destruct o as [[]|], o' as [[]|]. Qed.
Lemma error_code_inj o o' : or_dash ErrorCodeText.as_str o = or_dash ErrorCodeText.as_str o' -> o = o'.
Proof.
  apply or_dash_inj; [by intros []|]. intros a b _ _ He.
  pose proof (ErrorCodeText.as_str_from_str a) as Ha. rewrite He, ErrorCodeText.as_str_from_str in Ha. by injection Ha.
Qed.
Lemma duration_inj o o' :
  match o with Some d => is_u64 d | None => True end -> match o' with Some d => is_u64 d | None => True end ->
  or_dash dec_print o = or_dash dec_print o' -> o = o'.
Proof.
  intros Ho Ho'. assert (forall d, is_u64 d -> dec_print d <> dash) as Hd.
  { intros d [Hd _] He. pose proof (dec_print_digits 20 d Hd) as Hx. fold (dec_print d) in Hx. by rewrite He in Hx. }
  apply or_dash_inj; [intros a [-> | ->]; by apply Hd|]. intros a b -> -> He.
  pose proof (Revision.revision_parse_print a Ho) as Ha. unfold Revision.to_string in Ha. rewrite He in Ha.
  pose proof (Revision.revision_parse_print b Ho') as Hb. unfold Revision.to_string in Hb. rewrite Ha in Hb. by injection Hb.
Qed.
Lemma id_not_dash i : TypedId.wf i -> TypedId.to_string i <> dash.
Proof. intros [Hl _] He. destruct (TypedId.hyphenated_shape i Hl) as [Hb _]. unfold TypedId.to_string in He. by rewrite He in Hb. Qed.
Lemma id_inj i j : TypedId.wf i -> TypedId.wf j -> TypedId.to_string i = TypedId.to_string j -> i = j.
Proof.
  intros Hi Hj He. pose proof (TypedId.id_parse_print i Hi) as Hp. rewrite He, (TypedId.id_parse_print j Hj) in Hp. by injection Hp.
Qed.
Lemma timestamp_inj (o o' : option Timestamp) :
  match o with Some t => instant_wf t | None => True end -> match o' with Some t => instant_wf t | None => True end ->
  match o with Some t => timestamp_to_string t | None => bs "UNAVAILABLE" end =
  match o' with Some t => timestamp_to_string t | None => bs "UNAVAILABLE" end -> o = o'.
Proof.
  assert (forall t, instant_wf t -> timestamp_to_string t <> bs "UNAVAILABLE") as Hu.
  { intros t Ht He. destruct (rfc3339_shape t Ht) as (text & Hf & _ & Hc). unfold timestamp_to_string in He. rewrite Hf in He.
    cbn in He. subst text. by vm_compute in Hc. }
  intros Ho Ho'. destruct o as [t|], o' as [t'|]; intros He; [|by destruct (Hu t)|by destruct (Hu t')|done].
  destruct (rfc3339_shape t Ho) as (text & Hf & _), (rfc3339_shape t' Ho') as (text' & Hf' & _).
  unfold timestamp_to_string in He. rewrite Hf, Hf' in He. cbn in He. subst text'.
  pose proof (rfc3339_parse t text Ho Hf) as Hp. rewrite (rfc3339_parse t' text Ho' Hf') in Hp. by injection Hp as ->.
Qed.
Lemma context_inj (e e' : CoreLogEventDraft) : draft_wf e -> draft_wf e' ->
  id_value (fun c => Some (request_id c)) e = id_value (fun c => Some (request_id c)) e' ->
  id_value (fun c => Some (correlation_id c)) e = id_value (fun c => Some (correlation_id c)) e' ->
  id_value command_id e = id_value command_id e' -> context e = context e'.
Proof.
  intros (_ & Hc & _) (_ & Hc' & _). unfold id_value.
  destruct (context e) as [[r k m]|], (context e') as [[r' k' m']|]; cbn in *; intros Hr Hk Hm; [| | |done].
  - destruct Hc as (? & ? & ?), Hc' as (? & ? & ?). f_equal. f_equal; [by apply id_inj..|].
    revert Hm. apply or_dash_inj; [intros a [-> | ->]; by apply id_not_dash|]. intros a b -> ->. by apply id_inj.
  - destruct Hc as (Hi & _). by destruct (id_not_dash r Hi).
  - destruct Hc' as (Hi & _). by destruct (id_not_dash r' Hi).
Qed.

Lemma ok_inj {E A} (a b : A) : @Ok E A a = Ok b -> a = b.
Proof. by intros [= ->]. Qed.
Lemma field_inj k v v' : field (k, v) = field (k, v') -> v = v'.
Proof. unfold field. cbn. intros He. apply app_inv_head in He. by injection He. Qed.

Lemma line_inj v e v' e' : encoder_new v = Ok v -> encoder_new v' = Ok v' -> draft_wf e -> draft_wf e' ->
  line_of v e = line_of v' e' -> v = v' /\ e = e'.
Proof.
  intros Hv Hv' He He' Hl. apply spaced_inj in Hl; [|by apply fields_graphic..|done].
  unfold fields in Hl. cbn [map] in Hl.
  repeat match type of Hl with _ :: _ = _ :: _ => apply cons_eq in Hl as [?%field_inj Hl] end.
  split; [done|]. pose proof He as (Ht & _ & Hd). pose proof He' as (Ht' & _ & Hd').
  assert (context e = context e') by by apply context_inj.
  assert (timestamp e = timestamp e') by by apply timestamp_inj.
  assert (duration_ms e = duration_ms e') by by apply duration_inj.
  destruct e, e'; cbn in *; f_equal;
    auto using severity_inj, event_kind_inj, operation_kind_inj, outcome_kind_inj, issue_kind_inj, retryable_inj, error_code_inj.
Qed.

(** Every record that the types of the daemon can hold is encoded, never dropped by
    the encoder: the line has at most 1024 bytes, all of them printable ASCII, so no value
    can break a line or forge a field; and the line determines the record and the build
    version it was written by. *)
Theorem log_lines_determine_records v e :
  encoder_new v = Ok v -> draft_wf e ->
  exists line, encode v e = Ok line /\ blen line <= CORE_LOG_LINE_BYTES_MAX /\ forallb printable line = true /\
    forall v' e', encoder_new v' = Ok v' -> draft_wf e' -> encode v' e' = Ok line -> v' = v /\ e' = e.
Proof.
  intros Hv He. destruct (encode_succeeds v e Hv He) as (Hx & Hl & Hp). exists (line_of v e). split_and!; [done..|].
  intros v' e' Hv' He'. rewrite (proj1 (encode_succeeds v' e' Hv' He')). intros Hq%ok_inj. by apply line_inj in Hq.
Qed.
End line.

(** ** Properties of the sink *)

Section sink_facts.
Context {U : TypedId.UuidCrate} {UL : TypedId.UuidLaws U} `{TTL : TimeTextLaws}.
Context (hyphenated_graphic : forall u, length u = 16%nat -> forallb graphic (TypedId.hyphenated u) = true).

(** The lines of the offered records that the level lets through. *)
Definition lines (lv : CoreLogLevel) (v : list byte) (offered : list CoreLogEventDraft) : list (list byte) :=
  map (line_of v) (List.filter (fun e => allows lv (severity e)) offered).
Definition terminated (ls : list (list byte)) : list byte := concat (map (fun l => l ++ [x0a]) ls).
Definition broken (s : CoreLogSink) : Prop := writer_failed (state s) = true \/ worker s = Failing.

Lemma lines_app lv v o o' : lines lv v (o ++ o') = lines lv v o ++ lines lv v o'.
Proof. unfold lines. by rewrite List.filter_app, map_app. Qed.
Lemma terminated_snoc ls l : terminated (ls ++ [l]) = terminated ls ++ l ++ [x0a].
Proof. unfold terminated. rewrite map_app, concat_app. cbn. by rewrite app_nil_r. Qed.

(** Where the accepted lines are: written, in the queue, or lost behind a failed write. *)
Inductive phase (s : CoreLogSink) (accepted written : list (list byte)) (partial : list byte) : Prop :=
| phase_running rest : worker s = Receiving -> writer_failed (state s) = false -> partial = [] -> accepted = written ++ rest ->
    (queue s = map Line rest /\ (owner s = Open \/ owner s = Sending) \/
     queue s = map Line rest ++ [Shutdown] /\ owner s = Joining false) -> phase s accepted written partial
| phase_failing cut rest : worker s = Failing -> writer_failed (state s) = false -> accepted = written ++ cut :: rest ->
    (owner s = Open \/ owner s = Sending \/ owner s = Joining false) -> phase s accepted written partial
| phase_failed cut rest : worker s = Leaving \/ worker s = Returned -> writer_failed (state s) = true ->
    accepted = written ++ cut :: rest -> (forall a, owner s = Ended a -> a = Err InternalError) -> phase s accepted written partial
| phase_stopped : worker s = Leaving \/ worker s = Returned -> writer_failed (state s) = false -> partial = [] ->
    accepted = written -> (owner s = Joining false \/ owner s = Ended (Ok tt)) -> phase s accepted written partial.

Record accounted (ls : list (list byte)) (s : CoreLogSink) (accepted written : list (list byte)) (dropped : nat) (partial : list byte) : Prop := {
  acc_sub : accepted `sublist_of` ls; acc_count : length ls = (length accepted + dropped)%nat;
  acc_drops : queue_drops (state s) = Z.min U64_MAX (Z.of_nat dropped);
  acc_why : (dropped <> 0)%nat -> (OBSERVABILITY_QUEUE_MAX < length ls)%nat \/ broken s;
  acc_output : output s = terminated written ++ partial;
  acc_phase : phase s accepted written partial }.
Record inv (lv : CoreLogLevel) (v : list byte) (ls : list (list byte)) (s : CoreLogSink) : Prop := {
  inv_level : level s = lv; inv_encoder : encoder s = v; inv_encode : encode_drops (state s) = 0;
  inv_queue : (length (queue s) <= OBSERVABILITY_QUEUE_MAX)%nat;
  inv_acc : exists accepted written dropped partial, accounted ls s accepted written dropped partial }.

Lemma phase_written s accepted written partial : phase s accepted written partial -> written `prefix_of` accepted.
Proof. intros [rest _ _ _ -> _|cut rest _ _ -> _|cut rest _ _ -> _|_ _ _ -> _]; [by exists rest|by exists (cut :: rest)..|done]. Qed.

(** An accepted line joins the end of the queue. *)
Lemma push_accounted ls s accepted written dropped partial line :
  owner s = Open -> disconnected s = false -> accounted ls s accepted written dropped partial ->
  accounted (ls ++ [line]) (with_queue s (queue s ++ [Line line])) (accepted ++ [line]) written dropped partial.
Proof.
  intros Ho Hd [Hs Hc Hq Hw Hout Hp]. split; cbn; [by apply sublist_app|rewrite !length_app; cbn; lia|done| |done|].
  - intros Hn. destruct (Hw Hn) as [Hx|Hx]; [left; rewrite length_app; lia|right; exact Hx].
  - destruct Hp as [rest Hwk Hf Hpa -> [[Hqu Hown]|[_ Hown]]|cut rest Hwk Hf -> Hown|cut rest Hwk Hf -> Hown|Hwk Hf _ _ [Hown|Hown]];
      try congruence.
    + apply (phase_running _ _ _ _ (rest ++ [line])); cbn; try done; [by rewrite app_assoc|].
      left. by rewrite Hqu, map_app.
    + apply (phase_failing _ _ _ _ cut (rest ++ [line])); cbn; try done. by rewrite <- app_assoc.
    + apply (phase_failed _ _ _ _ cut (rest ++ [line])); cbn; try done. by rewrite <- app_assoc.
Qed.

(** A line that finds the queue full or the worker gone is counted. *)
Lemma drop_accounted ls s accepted written dropped partial line :
  owner s = Open -> has_room s && negb (disconnected s) = false -> accounted ls s accepted written dropped partial ->
  accounted (ls ++ [line]) (with_state s (count_queue_drop (state s))) accepted written (S dropped) partial.
Proof.
  intros Ho Hd [Hs Hc Hq Hw Hout Hp]. split; cbn; [by apply sublist_inserts_r|rewrite length_app; cbn; lia| | |done|].
  - rewrite Hq. unfold saturating_add. lia.
  - intros _. destruct Hp as [rest Hwk Hf Hpa -> [[Hqu Hown]|[_ Hown]]|cut rest Hwk Hf -> Hown|cut rest Hwk Hf -> Hown|Hwk Hf _ _ [Hown|Hown]];
      try congruence; [|right; by right|right; by left].
    left. unfold has_room, disconnected in Hd. rewrite Hwk, Hqu, andb_true_r, length_map in Hd.
    apply Nat.ltb_ge in Hd. rewrite length_app in *. cbn. lia.
  - destruct Hp; [eapply phase_running|eapply phase_failing|eapply phase_failed|eapply phase_stopped]; eauto.
Qed.

Lemma emit_inv lv v ls s e : encoder_new v = Ok v -> owner s = Open -> draft_wf e -> inv lv v ls s ->
  inv lv v (ls ++ lines lv v [e]) (emit s e).
Proof.
  intros Hv Ho He [Hl Hen Hed Hq (accepted & written & dropped & partial & Ha)].
  unfold emit, lines. cbn [List.filter]. rewrite Hl, Hen.
  destruct (allows lv (severity e)); cbn [negb map]; [|rewrite app_nil_r; split; eauto 10].
  rewrite (proj1 (encode_succeeds hyphenated_graphic v e Hv He)).
  destruct (has_room s && negb (disconnected s)) eqn:Hr.
  - apply andb_true_iff in Hr as [Hr Hd]. split; cbn; try done.
    + unfold has_room in Hr. apply Nat.ltb_lt in Hr. rewrite length_app. cbn. lia.
    + exists (accepted ++ [line_of v e]), written, dropped, partial. apply push_accounted; try done. by apply negb_true_iff.
  - split; cbn; try done. exists accepted, written, (S dropped), partial. by apply drop_accounted.
Qed.

(** A step that offers nothing keeps the lines and the drops. *)
Lemma move_accounted ls s s' accepted written written' dropped partial partial' :
  accounted ls s accepted written dropped partial -> queue_drops (state s') = queue_drops (state s) ->
  (broken s -> broken s') -> output s' = terminated written' ++ partial' -> phase s' accepted written' partial' ->
  accounted ls s' accepted written' dropped partial'.
Proof. intros [Hs Hc Hq Hw Hout Hp] Hd Hb Ho Hp'. split; try done; [by rewrite Hd|]. intros Hn. destruct (Hw Hn); auto. Qed.

Lemma silent_frame s s' : step s None s' ->
  level s' = level s /\ encoder s' = encoder s /\ encode_drops (state s') = encode_drops (state s) /\
  queue_drops (state s') = queue_drops (state s) /\
  ((length (queue s) <= OBSERVABILITY_QUEUE_MAX)%nat -> (length (queue s') <= OBSERVABILITY_QUEUE_MAX)%nat) /\
  (broken s -> broken s').
Proof.
  unfold broken. intros Hs. inversion Hs as [|? line rest Hw Hqu|? line rest part Hw Hqu Hpre|? Hw|? rest Hw Hqu|? Hw|? Ho|? Ho Hr Hd|? Ho Hd|? sf Ho Hw];
    subst; cbn; split_and!; try done; try (rewrite Hqu; cbn; lia); try (rewrite length_app; unfold has_room in Hr; apply Nat.ltb_lt in Hr; cbn; lia);
    try lia; try (intros [?|?]; [by left|congruence]); auto.
Qed.

(** The owner's steps and the end of the worker leave the lines where they are. *)
Ltac keep_phase :=
  match goal with
  | Hout : output ?s = terminated ?w ++ ?p |- _ =>
      exists w, p; split; [exact Hout|];
      first [ eapply phase_running; cbn; eauto; intuition congruence
            | eapply phase_failing; cbn; eauto; intuition congruence
            | eapply phase_failed; cbn; eauto; intuition congruence
            | eapply phase_stopped; cbn; eauto; intuition congruence ]
  end.

Lemma write_phase s accepted written partial line tail part :
  worker s = Receiving -> queue s = Line line :: tail -> output s = terminated written ++ partial ->
  phase s accepted written partial ->
  exists rest, accepted = written ++ line :: rest /\ partial = [] /\
    phase (with_queue (writes s (line ++ [x0a])) tail) accepted (written ++ [line]) [] /\
    phase (with_worker (with_queue (writes s part) tail) Failing) accepted written part.
Proof.
  intros Hw Hqu Hout [rest _ Hf -> -> Hown|? ? Hx|? ? [Hx|Hx]|[Hx|Hx]]; try congruence.
  destruct rest as [|line' rest]; [destruct Hown as [[Hq _]|[Hq _]]; rewrite Hqu in Hq; done|].
  assert (line' = line) as ->. { destruct Hown as [[Hq _]|[Hq _]]; rewrite Hqu in Hq; by injection Hq. }
  exists rest. split_and!; [done..| |].
  - apply (phase_running _ _ _ _ rest); cbn; try done; [by rewrite <- app_assoc|].
    destruct Hown as [[Hq Ho]|[Hq Ho]]; rewrite Hqu in Hq; cbn in Hq; apply cons_eq in Hq as [_ ->]; auto.
  - apply (phase_failing _ _ _ _ line rest); cbn; try done. destruct Hown as [[_ [Ho|Ho]]|[_ Ho]]; auto.
Qed.

Lemma silent_phase s s' accepted written partial : step s None s' -> output s = terminated written ++ partial ->
  phase s accepted written partial ->
  exists written' partial', output s' = terminated written' ++ partial' /\ phase s' accepted written' partial'.
Proof.
  intros Hs Hout Hp. inversion Hs as [|? line tail Hw Hqu|? line tail part Hw Hqu Hpre|? Hw|? tail Hw Hqu|? Hw|? Ho|? Ho Hr Hd|? Ho Hd|? sf Ho Hw]; subst.
  - destruct (write_phase s accepted written partial line tail [] Hw Hqu Hout Hp) as (rest & _ & -> & Hx & _).
    exists (written ++ [line]), []. split; [|done]. cbn. by rewrite Hout, terminated_snoc, !app_nil_r.
  - destruct (write_phase s accepted written partial line tail part Hw Hqu Hout Hp) as (rest & _ & -> & _ & Hx).
    exists written, part. split; [|done]. cbn. by rewrite Hout, app_nil_r.
  - destruct Hp as [rest Hwk|cut rest Hwk Hf Hac Hown|? ? [Hwk|Hwk]|[Hwk|Hwk]]; try congruence. keep_phase.
  - destruct Hp as [rest Hwk Hf Hpa Hac Hown|? ? Hwk|? ? [Hwk|Hwk]|[Hwk|Hwk]]; try congruence.
    destruct rest as [|l rest]; [|destruct Hown as [[Hq _]|[Hq _]]; rewrite Hqu in Hq; done].
    destruct Hown as [[Hq _]|[Hq Ho]]; rewrite Hqu in Hq; [done|]. rewrite app_nil_r in Hac. keep_phase.
  - destruct Hp as [rest Hwk|cut rest Hwk Hf Hac Hown|cut rest Hwk Hf Hac Hown|Hwk Hf Hpa Hac Hown]; try congruence; keep_phase.
  - destruct Hp as [rest Hwk Hf Hpa Hac [[Hq _]|[Hq ?]]|cut rest Hwk Hf Hac Hown|cut rest Hwk Hf Hac Hown|Hwk Hf Hpa Hac [?|?]];
      try congruence; keep_phase.
  - destruct Hp as [rest Hwk Hf Hpa Hac [[Hq _]|[Hq ?]]|cut rest Hwk Hf Hac Hown|cut rest Hwk Hf Hac Hown|Hwk Hf Hpa Hac [?|?]];
      try congruence; keep_phase.
  - unfold disconnected in Hd. destruct (worker s) eqn:Hx; try done.
    destruct Hp as [rest Hwk|cut rest Hwk|cut rest Hwk Hf Hac Hown|Hwk Hf Hpa Hac [?|?]]; try congruence; keep_phase.
  - destruct Hp as [rest Hwk|cut rest Hwk|cut rest Hwk Hf Hac Hown|Hwk Hf Hpa Hac [?|?]]; try congruence; exists written, partial; (split; [done|]).
    + eapply phase_failed; cbn; eauto. intros a [= <-]. unfold shutdown_answer. by rewrite Hf, orb_true_r.
    + eapply phase_stopped; cbn; eauto. right. unfold shutdown_answer. rewrite Hf. by replace sf with false by congruence.
Qed.

Lemma sink_step_inv lv v ls s label s' : encoder_new v = Ok v -> step s label s' -> inv lv v ls s ->
  inv lv v (ls ++ match label with Some e => lines lv v [e] | None => [] end) s'.
Proof.
  intros Hv Hs Hi. destruct label as [e|]; [inversion Hs; subst; by apply emit_inv|].
  rewrite app_nil_r. destruct Hi as [Hl Hen Hed Hq (accepted & written & dropped & partial & Ha)].
  destruct (silent_frame s s' Hs) as (El & Ee & Ed & Eq & Eqq & Eb).
  destruct (silent_phase s s' accepted written partial Hs (acc_output _ _ _ _ _ _ Ha) (acc_phase _ _ _ _ _ _ Ha)) as (w & p & Ho & Hp).
  split; [congruence..|auto|]. exists accepted, w, dropped, p. by eapply move_accounted.
Qed.

Lemma runs_inv lv v spawned s0 offered s : start lv v spawned = Ok s0 -> runs s0 offered s ->
  encoder_new v = Ok v /\ inv lv v (lines lv v offered) s.
Proof.
  unfold start. intros Hst. destruct (encoder_new v) as [v'|] eqn:Hv; [|done]. cbn [result_bind] in Hst.
  assert (v' = v) as ->. { unfold encoder_new, build_version_new in Hv. destruct (_ || _) in Hv; [done|]. by injection Hv. }
  destruct spawned; [|done]. injection Hst as <-. intros Hr. split; [done|]. induction Hr as [|offered s label s' _ IH Hs].
  - split; cbn; try done; [unfold OBSERVABILITY_QUEUE_MAX; lia|]. exists [], [], 0%nat, []. split; try done.
    apply (phase_running _ _ _ _ []); try done. left. auto.
  - rewrite lines_app. destruct label as [e|]; [exact (sink_step_inv _ _ _ _ (Some e) _ Hv Hs IH)|exact (sink_step_inv _ _ _ _ None _ Hv Hs IH)].
Qed.

(** What is left to do once the owner shuts the sink down: the steps never add to it. *)
Definition drain (s : CoreLogSink) : nat :=
  match owner s with Open => 5 | Sending => 4 | Joining _ => 1 | Ended _ => 0 end +
  match worker s with Receiving => 4 | Failing => 3 | Leaving => 2 | Returned => 0 end + 2 * length (queue s).
Lemma step_drains s label s' : owner s <> Open -> step s label s' -> label = None /\ owner s' <> Open /\ (drain s' < drain s)%nat.
Proof.
  intros Ho Hs. unfold drain.
  inversion Hs as [|? line tail Hw Hqu|? line tail part Hw Hqu Hpre|? Hw|? tail Hw Hqu|? Hw|? Ho'|? Ho' Hr Hd|? Ho' Hd|? sf Ho' Hw]; subst; try done;
    cbn; rewrite ?Hw, ?Hqu, ?Ho', ?length_app; cbn; split_and!; try done; lia.
Qed.

(** C30: The log sink accounts for every record, under every interleaving of callers, the
    writer thread and shutdown and whatever write fails: the queue holds at most 256 lines;
    each record the level lets through is either accepted or counted as dropped (until
    the counter saturates), and dropped only behind a full queue or a failed writer; the
    output is the accepted lines in the order they were offered, whole but for the one a
    failed write cut; a shutdown answers without an error exactly when every accepted line
    was written. *)
Theorem log_sink_accounts_for_every_record lv v spawned s0 offered s :
  start lv v spawned = Ok s0 -> runs s0 offered s ->
  (length (queue s) <= OBSERVABILITY_QUEUE_MAX)%nat /\ encode_drops (snapshot s) = 0 /\
  exists accepted dropped written partial,
    accepted `sublist_of` lines lv v offered /\ length (lines lv v offered) = (length accepted + dropped)%nat /\
    queue_drops (snapshot s) = Z.min U64_MAX (Z.of_nat dropped) /\
    ((dropped <> 0)%nat -> (OBSERVABILITY_QUEUE_MAX < length (lines lv v offered))%nat \/ broken s) /\
    written `prefix_of` accepted /\ output s = terminated written ++ partial /\ (~ broken s -> partial = []) /\
    forall answer, owner s = Ended answer ->
      (answer = Ok tt <-> written = accepted) /\ (answer = Ok tt <-> writer_failed (snapshot s) = false).
Proof.
  intros Hst Hr. destruct (runs_inv lv v spawned s0 offered s Hst Hr) as [Hv [_ _ Hed Hq (accepted & written & dropped & partial & Ha)]].
  split_and!; [done..|]. exists accepted, dropped, written, partial. destruct Ha as [Hs Hc Hd Hw Hout Hp].
  split_and!; try done; [by eapply phase_written| |].
  - intros Hb. destruct Hp as [| | |]; try done; destruct Hb; unfold broken; auto.
  - intros answer Ho. unfold snapshot. destruct Hp as [rest _ _ _ _ [[_ [Hx|Hx]]|[_ Hx]]|cut rest _ _ _ [Hx|[Hx|Hx]]|cut rest _ Hf Hac Hx|_ Hf _ -> [Hx|Hx]]; try congruence.
    + rewrite (Hx answer Ho), Hf, Hac. split; split; try done. intros He. symmetry in He. apply (f_equal length) in He. rewrite length_app in He. cbn in He. lia.
    + rewrite Hx in Ho. injection Ho as <-. by rewrite Hf.
Qed.

(** A sink that is shut down always ends: some step is possible until it has. *)
Lemma shutdown_proceeds lv v spawned s0 offered s :
  start lv v spawned = Ok s0 -> runs s0 offered s -> owner s <> Open -> (forall a, owner s <> Ended a) -> exists s', step s None s'.
Proof.
  intros Hst Hr Ho He. destruct (runs_inv lv v spawned s0 offered s Hst Hr) as [_ [_ _ _ _ (accepted & written & dropped & partial & Ha)]].
  destruct (acc_phase _ _ _ _ _ _ Ha) as [rest Hw _ _ _ [[Hq Hown]|[Hq Hown]]|cut rest Hw _ _ _|cut rest [Hw|Hw] _ _ _|[Hw|Hw] _ _ _ Hown].
  - destruct rest as [|l rest]; cbn in Hq; [|eexists; by eapply step_write].
    destruct Hown as [|Hown]; [done|]. eexists. apply step_send; [done| |]; unfold has_room, disconnected; by rewrite ?Hq, ?Hw.
  - destruct rest as [|l rest]; cbn in Hq; eexists; [by eapply step_receive_shutdown|by eapply step_write].
  - eexists. by apply step_mark_failed.
  - eexists. by apply step_return.
  - destruct (owner s) as [| |sf|a] eqn:E; [done| |eexists; by eapply step_join|by destruct (He a)].
    eexists. apply step_send_fails; [done|]. unfold disconnected. by rewrite Hw.
  - eexists. by apply step_return.
  - destruct Hown as [Hown|Hown]; [eexists; by eapply step_join|by destruct (He (Ok tt))].
Qed.
End sink_facts.
End Log.

(** ** A concrete log

    Identities print as RFC 9562 says; the instants are those of the first minute of 1970,
    printed with nine decimals. *)
Module LogExample.
Import TimestampText Log.
#[local] Existing Instance Rfc9562.rfc.
#[local] Existing Instance Rfc9562.rfc_laws.

Lemma to_hex_graphic l : forallb graphic (to_hex l) = true.
Proof.
  induction l as [|b l IH]; [done|]. change (to_hex (b :: l)) with (to_hex [b] ++ to_hex l). rewrite forallb_app, IH, andb_true_r.
  clear IH. revert b. apply byte_forallb. by vm_compute.
Qed.
Lemma rfc_graphic u : length u = 16%nat -> forallb graphic (TypedId.hyphenated u) = true.
Proof.
  intros _. cbn [TypedId.hyphenated Rfc9562.rfc]. unfold Rfc9562.hyphenated_.
  rewrite !forallb_app, !to_hex_graphic. done.
Qed.

(** [n] decimal digits. *)
Fixpoint padded (n : nat) (z : Z) : list byte :=
  match n with O => [] | S m => padded m (z / 10) ++ [dec_digit (z mod 10)] end.
Lemma padded_length n z : length (padded n z) = n.
Proof. revert z. induction n as [|n IH]; intros z; [done|]. cbn. rewrite length_app, IH. cbn. lia. Qed.
Lemma padded_digits n z : forallb is_ascii_digit (padded n z) = true.
Proof.
  revert z. induction n as [|n IH]; intros z; [done|]. cbn. rewrite forallb_app, IH. cbn.
  rewrite dec_digit_is_digit; [done|]. apply Z.mod_pos_bound. lia.
Qed.
Lemma padded_value n z : 0 <= z < 10 ^ Z.of_nat n -> dec_fold 0 (padded n z) = z.
Proof.
  revert z. induction n as [|n IH]; intros z Hz; [cbn in *; lia|]. cbn [padded]. rewrite dec_fold_app, IH.
  - cbn [dec_fold]. rewrite dec_value_digit by (apply Z.mod_pos_bound; lia). pose proof (Z.div_mod z 10). lia.
  - rewrite Nat2Z.inj_succ, Z.pow_succ_r in Hz by lia. split; [apply Z.div_pos; lia|apply Z.div_lt_upper_bound; lia].
Qed.

Definition in_minute (t : Z) : bool := (0 <=? t) && (t <? 60 * 10 ^ 9).
#[local] Instance minute : TimestampValue.TimeCrate := {|
  TimestampValue.OffsetDateTime := Z;
  TimestampValue.from_unix_timestamp_nanos n := if in_minute n then Some n else None;
  TimestampValue.unix_timestamp t := t / 10 ^ 9; TimestampValue.nanosecond t := t mod 10 ^ 9;
  TimestampValue.offset_is_utc := in_minute; TimestampValue.year _ := 1970 |}.
#[local] Instance minute_text : TimeText := {|
  format_rfc3339 t := Some (bs "1970-01-01T00:00:" ++ padded 2 (t / 10 ^ 9) ++ bs "." ++ padded 9 (t mod 10 ^ 9) ++ bs "Z");
  parse_rfc3339 text := Some (dec_fold 0 (take 2 (drop 17 text)) * 10 ^ 9 + dec_fold 0 (take 9 (drop 20 text))) |}.

Lemma minute_wf (t : Z) : instant_wf t -> 0 <= t < 60 * 10 ^ 9.
Proof.
  unfold instant_wf, TimestampValue.from_validated_utc. cbn -[in_minute Z.pow]. destruct (in_minute t) eqn:E; [|done]. intros _.
  unfold in_minute in E. apply andb_true_iff in E as [E1 E2]. apply Z.leb_le in E1. apply Z.ltb_lt in E2. done.
Qed.
Lemma digits_or_extra l extra : forallb is_ascii_digit l = true -> forallb (digit_or extra) l = true.
Proof. induction l as [|b l IH]; cbn; [done|]. intros [Hb Hl]%andb_true_iff. unfold digit_or at 1. rewrite Hb, IH; done. Qed.
#[local] Instance minute_laws : TimeTextLaws.
Proof.
  split.
  - intros t Ht. eexists. split; [reflexivity|]. rewrite !blen_app, !forallb_app, !(digits_or_extra (padded _ _)) by apply padded_digits.
    unfold blen. rewrite !padded_length. split; [cbn; lia|done].
  - intros t text Ht%minute_wf He. apply Some_inj in He. subst text. cbn [parse_rfc3339 minute_text]. f_equal. pose proof (Z.div_mod t (10 ^ 9)) as Hd.
    assert (drop 17 (bs "1970-01-01T00:00:" ++ padded 2 (t / 10 ^ 9) ++ bs "." ++ padded 9 (t mod 10 ^ 9) ++ bs "Z") =
            padded 2 (t / 10 ^ 9) ++ bs "." ++ padded 9 (t mod 10 ^ 9) ++ bs "Z") as -> by done.
    assert (drop 20 (bs "1970-01-01T00:00:" ++ padded 2 (t / 10 ^ 9) ++ bs "." ++ padded 9 (t mod 10 ^ 9) ++ bs "Z") =
            padded 9 (t mod 10 ^ 9) ++ bs "Z") as ->.
    { change 20%nat with (17 + (2 + 1))%nat. rewrite <- !drop_drop. rewrite drop_app_length' by done.
      rewrite drop_app_length' by (by rewrite padded_length). done. }
    rewrite !take_app_length' by (by rewrite padded_length). rewrite !padded_value; [lia| |].
    + apply Z.mod_pos_bound. done.
    + split; [apply Z.div_pos; lia|]. apply Z.div_lt_upper_bound; lia.
Qed.

Definition version : list byte := bs "0.1.0+test".
Definition some_id (millis : Z) : Id := Rfc9562.builder_ millis sample_random.
Definition sample : CoreLogEventDraft := {|
  timestamp := Some 1500000000; severity := SevInfo; event_kind := OperationCompleted; operation_kind := AssetMaterializeV1;
  outcome_kind := Succeeded;
  context := Some {| request_id := some_id 1; correlation_id := some_id 2; command_id := Some (some_id 3) |};
  error_code := None; retryable := None; duration_ms := Some 12; issue_kind := None |}.
Lemma sample_wf : draft_wf sample.
Proof. split_and!; by vm_compute. Qed.

Lemma sample_valid : core_log_event_new sample = Ok sample.
Proof. unfold core_log_event_new, validate_log_event. replace (valid_log_event sample) with true by reflexivity. reflexivity. Qed.

Example sample_line : encode version sample = Ok (bs
  "schema_version=1 timestamp=1970-01-01T00:00:01.500000000Z severity=INFO service=MENGXIAD build_version=0.1.0+test event_kind=OPERATION_COMPLETED operation_kind=ASSET_MATERIALIZE_V1 outcome_kind=SUCCEEDED request_id=00000000-0001-7a5a-9a5a-5a5a5a5a5a5a correlation_id=00000000-0002-7a5a-9a5a-5a5a5a5a5a5a command_id=00000000-0003-7a5a-9a5a-5a5a5a5a5a5a causation_id=- error_code=- retryable=- duration_ms=12 issue_kind=-").
Proof. by vm_compute. Qed.

Lemma log_lines_determine_records_witness :
  exists line, encode version sample = Ok line /\ blen line <= CORE_LOG_LINE_BYTES_MAX /\
    forall e', draft_wf e' -> encode version e' = Ok line -> e' = sample.
Proof.
  destruct (log_lines_determine_records rfc_graphic version sample eq_refl sample_wf) as (line & He & Hl & _ & Hd).
  exists line. split; [exact He|]. split; [exact Hl|]. intros e' Hw He'. exact (proj2 (Hd version e' eq_refl Hw He')).
Defined.

(** One record is emitted, the sink is shut down and the line is written. *)
Definition opened : CoreLogSink := {|
  level := LevelInfo; encoder := version; queue := []; state := {| queue_drops := 0; encode_drops := 0; writer_failed := false |};
  worker := Receiving; owner := Open; output := [] |}.
Definition emitted : CoreLogSink := emit opened sample.
Definition sending : CoreLogSink := with_owner emitted Sending.
Definition sent : CoreLogSink := with_owner (with_queue sending (queue sending ++ [Shutdown])) (Joining false).
Definition drained : CoreLogSink := with_queue (writes sent (line_of version sample ++ [x0a])) [Shutdown].
Definition leaving : CoreLogSink := with_worker (with_queue drained []) Leaving.
Definition returned : CoreLogSink := with_worker (with_queue leaving []) Returned.
Definition finished : CoreLogSink := with_owner returned (Ended (shutdown_answer false (state returned))).
Lemma silent_run s0 offered s s' : runs s0 offered s -> step s None s' -> runs s0 offered s'.
Proof. intros Hr Hs. rewrite <- (app_nil_r offered). exact (runs_step s0 offered s None s' Hr Hs). Qed.
Lemma finished_runs : runs opened [sample] finished.
Proof.
  apply (silent_run _ _ returned); [|apply step_join; reflexivity].
  apply (silent_run _ _ leaving); [|apply step_return; reflexivity].
  apply (silent_run _ _ drained); [|apply step_receive_shutdown; reflexivity].
  apply (silent_run _ _ sent); [|apply step_write; [reflexivity|by vm_compute]].
  apply (silent_run _ _ sending); [|apply step_send; by vm_compute].
  apply (silent_run _ _ emitted); [|apply step_shutdown; by vm_compute].
  apply (runs_step opened [] opened (Some sample)); [apply runs_start|]. exact (step_emit opened sample eq_refl sample_valid sample_wf).
Qed.

Lemma log_sink_accounts_for_every_record_witness :
  owner finished = Ended (Ok tt) /\
  exists accepted, accepted `sublist_of` lines LevelInfo version [sample] /\ exists partial, output finished = terminated accepted ++ partial.
Proof.
  split; [vm_compute; reflexivity|].
  destruct (log_sink_accounts_for_every_record rfc_graphic LevelInfo version true opened [sample] finished eq_refl finished_runs)
    as (_ & _ & accepted & dropped & written & partial & Hs & _ & _ & _ & _ & Ho & _ & Ha).
  destruct (Ha (Ok tt)) as [[Hw _] _]; [vm_compute; reflexivity|]. rewrite (Hw eq_refl) in Ho.
  exists accepted. split; [exact Hs|]. exists partial. exact Ho.
Defined.
End LogExample.
