(* ===== verification/LibraryConfig.v ===== *)
(** The library configuration (mengxia-app/src/config.rs): the document that names the
    settings of a library, and the settings that are parsed from their bytes.

    A document is a header line and one [KEY=value] line per setting, in the byte order of
    the keys. *)
From Stdlib Require Import ZArith Lia String.
From Stdlib Require Import Strings.Byte Init.Byte.
From stdpp Require Import prelude list sorting.
From S2P Require Import Prelude RustText Ord Types Integrity LogRecords.

Set Warnings "-clear-no-such-hyp".

(** ** Lines of a text *)

(** [slice::split] on one byte: always at least one piece. *)
Fixpoint split_on (sep : byte) (l : list byte) : list (list byte) :=
  match l with
  | [] => [[]]
  | b :: t =>
      if bool_decide (b = sep) then [] :: split_on sep t
      else match split_on sep t with piece :: rest => (b :: piece) :: rest | [] => [[b]] end
  end.
(** The text of the pieces, each ended by [sep]. *)
Definition ended (sep : byte) (pieces : list (list byte)) : list byte := concat (map (fun p => p ++ [sep]) pieces).

Lemma split_on_nonempty sep l : split_on sep l <> [].
Proof. destruct l as [|b t]; cbn; [done|]. case_bool_decide; [done|]. by destruct (split_on sep t). Qed.
Lemma split_on_ended sep l : ended sep (split_on sep l) = l ++ [sep].
Proof.
  unfold ended. induction l as [|b t IH]; cbn; [done|]. case_bool_decide as E; cbn; [by rewrite IH, E|].
  destruct (split_on sep t) as [|piece rest] eqn:Es; [by destruct (split_on_nonempty sep t)|]. cbn in *. by rewrite <- IH.
Qed.
Lemma split_on_app sep p l : sep ∉ p -> split_on sep (p ++ sep :: l) = p :: split_on sep l.
Proof.
  induction p as [|b p IH]; cbn; intros Hp; [by rewrite bool_decide_true|].
  apply not_elem_of_cons in Hp as [Hb Hp]. rewrite bool_decide_false by done. by rewrite IH.
Qed.
Lemma split_on_whole sep p : sep ∉ p -> split_on sep p = [p].
Proof.
  induction p as [|b p IH]; cbn; intros Hp; [done|]. apply not_elem_of_cons in Hp as [Hb Hp].
  rewrite bool_decide_false by done. by rewrite IH.
Qed.
Lemma split_of_ended sep pieces l : pieces <> [] -> Forall (fun p => sep ∉ p) pieces ->
  ended sep pieces = l ++ [sep] -> split_on sep l = pieces.
Proof.
  intros Hn Hp. revert l. induction Hp as [|p pieces Hp Hr IH]; intros l; [done|]. unfold ended in *. cbn. rewrite <- app_assoc. cbn.
  destruct pieces as [|q rest].
  - cbn. intros He. apply app_inj_tail in He as [-> _]. by apply split_on_whole.
  - intros He.
    assert (exists t, l = p ++ sep :: t /\ concat (map (fun p => p ++ [sep]) (q :: rest)) = t ++ [sep]) as (t & -> & Ht).
    { destruct (exists_last (l := concat (map (fun p => p ++ [sep]) (q :: rest)))) as (t & x & Ht); [by destruct q|].
      rewrite Ht in He. exists t. replace (p ++ sep :: t ++ [x]) with ((p ++ sep :: t) ++ [x]) in He by (by rewrite <- app_assoc).
      apply app_inj_tail in He as [He ->]. auto. }
    rewrite split_on_app by done. f_equal. by apply IH.
Qed.

Module Config.
Import Log.

Definition HEADER : list byte := bs "MENGXIA_LIBRARY_CONFIG_V1" ++ [x0a].
Definition KEY_COUNT : nat := 26.
Definition DEFAULT_OPERATION_CEILING_MS : Z := 86400000.
Definition DEFAULT_METADATA_OPERATION_CEILING_MS : Z := 5000.

(** ** Keys *)

Inductive LibraryConfigKey :=
| BlobRoot | ClientEndpoint | ClientHandshakeTimeoutMs | ClientOperationTimeoutMs | DbBusyTimeoutMs | DbReadConnections
| DbWriteQueue | HashConcurrency | IngestShutdownTimeoutMs | LibraryRoot | LogLevel | MaxClientSessions
| MaxConcurrentIngests | MaxDecodeDepth | MaxFrameBytes | MaxIngestBytes | MaxIngestOperationTimeoutMs
| MaxMaterializeOperationTimeoutMs | MaxMetadataOperationTimeoutMs | MaxPendingHandshakes | MaxStagingBytes
| MaxVerifyOperationTimeoutMs | MinFreeBytes | MinFreePercent | StorageIoConcurrency | StreamBufferBytes.
#[global] Instance LibraryConfigKey_eq_dec : EqDecision LibraryConfigKey.
Proof. solve_decision. Defined.

(** The arms of [LibraryConfigKey::parse], in the order of the variants. *)
Definition config_key_arms : list (list byte * LibraryConfigKey) :=
  [ (bs "MENGXIA_BLOB_ROOT", BlobRoot); (bs "MENGXIA_CLIENT_ENDPOINT", ClientEndpoint);
    (bs "MENGXIA_CLIENT_HANDSHAKE_TIMEOUT_MS", ClientHandshakeTimeoutMs);
    (bs "MENGXIA_CLIENT_OPERATION_TIMEOUT_MS", ClientOperationTimeoutMs); (bs "MENGXIA_DB_BUSY_TIMEOUT_MS", DbBusyTimeoutMs);
    (bs "MENGXIA_DB_READ_CONNECTIONS", DbReadConnections); (bs "MENGXIA_DB_WRITE_QUEUE", DbWriteQueue);
    (bs "MENGXIA_HASH_CONCURRENCY", HashConcurrency); (bs "MENGXIA_INGEST_SHUTDOWN_TIMEOUT_MS", IngestShutdownTimeoutMs);
    (bs "MENGXIA_LIBRARY_ROOT", LibraryRoot); (bs "MENGXIA_LOG_LEVEL", LogLevel);
    (bs "MENGXIA_MAX_CLIENT_SESSIONS", MaxClientSessions); (bs "MENGXIA_MAX_CONCURRENT_INGESTS", MaxConcurrentIngests);
    (bs "MENGXIA_MAX_DECODE_DEPTH", MaxDecodeDepth); (bs "MENGXIA_MAX_FRAME_BYTES", MaxFrameBytes);
    (bs "MENGXIA_MAX_INGEST_BYTES", MaxIngestBytes);
    (bs "MENGXIA_MAX_INGEST_OPERATION_TIMEOUT_MS", MaxIngestOperationTimeoutMs);
    (bs "MENGXIA_MAX_MATERIALIZE_OPERATION_TIMEOUT_MS", MaxMaterializeOperationTimeoutMs);
    (bs "MENGXIA_MAX_METADATA_OPERATION_TIMEOUT_MS", MaxMetadataOperationTimeoutMs);
    (bs "MENGXIA_MAX_PENDING_HANDSHAKES", MaxPendingHandshakes); (bs "MENGXIA_MAX_STAGING_BYTES", MaxStagingBytes);
    (bs "MENGXIA_MAX_VERIFY_OPERATION_TIMEOUT_MS", MaxVerifyOperationTimeoutMs); (bs "MENGXIA_MIN_FREE_BYTES", MinFreeBytes);
    (bs "MENGXIA_MIN_FREE_PERCENT", MinFreePercent); (bs "MENGXIA_STORAGE_IO_CONCURRENCY", StorageIoConcurrency);
    (bs "MENGXIA_STREAM_BUFFER_BYTES", StreamBufferBytes) ].
Definition all_keys : list LibraryConfigKey := map snd config_key_arms.

(** [self as usize] *)
Definition index (k : LibraryConfigKey) : nat :=
  match k with
  | BlobRoot => 0 | ClientEndpoint => 1 | ClientHandshakeTimeoutMs => 2 | ClientOperationTimeoutMs => 3 | DbBusyTimeoutMs => 4
  | DbReadConnections => 5 | DbWriteQueue => 6 | HashConcurrency => 7 | IngestShutdownTimeoutMs => 8 | LibraryRoot => 9
  | LogLevel => 10 | MaxClientSessions => 11 | MaxConcurrentIngests => 12 | MaxDecodeDepth => 13 | MaxFrameBytes => 14
  | MaxIngestBytes => 15 | MaxIngestOperationTimeoutMs => 16 | MaxMaterializeOperationTimeoutMs => 17
  | MaxMetadataOperationTimeoutMs => 18 | MaxPendingHandshakes => 19 | MaxStagingBytes => 20
  | MaxVerifyOperationTimeoutMs => 21 | MinFreeBytes => 22 | MinFreePercent => 23 | StorageIoConcurrency => 24
  | StreamBufferBytes => 25
  end.
Definition key_parse (value : list byte) : option LibraryConfigKey := match_str value config_key_arms.
(** The text of a key. *)
Definition key_name (k : LibraryConfigKey) : list byte := nth (index k) (map fst config_key_arms) [].

(** ** The document *)

Record LibraryConfigDocument := { values : list (option (list byte)) }.
Record Scan := { s_values : list (option (list byte)); s_previous : option (list byte); s_count : Z }.

Definition contains (b : byte) (l : list byte) : bool := bool_decide (b ∈ l).
Definition starts_with (prefix l : list byte) : bool := bool_decide (take (length prefix) l = prefix).
Definition ends_with_newline (l : list byte) : bool := bool_decide (last l = Some x0a).
(** [iter().position(|byte| byte == b'=')], as the two sides of it. *)
Fixpoint split_once (sep : byte) (l : list byte) : option (list byte * list byte) :=
  match l with
  | [] => None
  | b :: t => if bool_decide (b = sep) then Some ([], t)
              else match split_once sep t with Some (k, v) => Some (b :: k, v) | None => None end
  end.
Definition control_byte (b : byte) : bool := (b2z b <? 32) || (b2z b =? 127).

Definition scan_line (s : Scan) (line : list byte) : result ErrorCode Scan :=
  let count := s_count s + 1 in
  if (64 <? count) || negb ((3 <=? blen line) && (blen line <=? 2048)) || existsb control_byte line then Err ValidationError
  else
    let? sides := ok_or ValidationError (split_once x3d line) in
    let '(key_bytes, value) := sides in
    if bool_decide (value = []) || match s_previous s with Some last => negb (bool_decide (rlt last key_bytes)) | None => false end
    then Err ValidationError
    else
      let? key := ok_or ValidationError (key_parse key_bytes) in
      if is_some (s_values s !! index key ≫= id) then Err ValidationError
      else Ok {| s_values := (<[index key := Some value]> (s_values s)); s_previous := Some key_bytes; s_count := count |}.
Fixpoint scan_lines (s : Scan) (lines : list (list byte)) : result ErrorCode Scan :=
  match lines with
  | [] => Ok s
  | line :: rest => let? s := scan_line s line in scan_lines s rest
  end.

Definition document_parse (bytes : list byte) : result ErrorCode LibraryConfigDocument :=
  if (16384 <? blen bytes) || negb (starts_with HEADER bytes) || negb (ends_with_newline bytes) || contains x00 bytes || contains x0d bytes
  then Err ValidationError
  else
    let body := drop (length HEADER) bytes in
    let lines := match body with [] => [] | _ => take (length body - 1) body end in
    if bool_decide (lines = []) && negb (bool_decide (body = [])) then Err ValidationError
    else
      let fresh := {| s_values := replicate KEY_COUNT None; s_previous := None; s_count := 0 |} in
      let? s := match lines with [] => Ok fresh | _ => scan_lines fresh (split_on x0a lines) end in
      Ok {| values := s_values s |}.
Definition document_value (d : LibraryConfigDocument) (key : LibraryConfigKey) : option (list byte) := values d !! index key ≫= id.

(** ** Settings parsed from their bytes *)

Definition core_log_level_parse (value : option (list byte)) : result ErrorCode CoreLogLevel :=
  ok_or StorageConfigurationError (match_str (default (bs "info") value)
    [ (bs "error", LevelError); (bs "warn", LevelWarn); (bs "info", LevelInfo); (bs "debug", LevelDebug); (bs "trace", LevelTrace) ]).

(** Both ceilings: at most [digits] canonical digits, from 100 to [ceiling].  The bytes
    are digits, so [from_utf8] accepts them. *)
Definition parse_ceiling (digits ceiling : Z) (value : list byte) : result ErrorCode Z :=
  if bool_decide (value = []) || (digits <? blen value) || negb (forallb is_ascii_digit value) ||
     ((1 <? blen value) && bool_decide (head value = Some x30))
  then Err StorageConfigurationError
  else
    let? millis := ok_or StorageConfigurationError (parse_u64_digits value) in
    if negb ((100 <=? millis) && (millis <=? ceiling)) then Err StorageConfigurationError else Ok millis.
Definition parse_operation_ceiling (value : option (list byte)) : result ErrorCode Z :=
  parse_ceiling 8 DEFAULT_OPERATION_CEILING_MS (default (bs "86400000") value).
Definition parse_metadata_operation_ceiling (value : option (list byte)) : result ErrorCode Z :=
  parse_ceiling 4 DEFAULT_METADATA_OPERATION_CEILING_MS (default (bs "5000") value).

Record Task008RuntimeConfig := {
  log_level : CoreLogLevel; max_verify_operation_timeout : Z; max_materialize_operation_timeout : Z }.
Definition task_008_from_selected (log_level max_verify max_materialize : option (list byte)) : result ErrorCode Task008RuntimeConfig :=
  let? log_level := core_log_level_parse log_level in
  let? max_verify := parse_operation_ceiling max_verify in
  let? max_materialize := parse_operation_ceiling max_materialize in
  Ok {| log_level := log_level; max_verify_operation_timeout := max_verify; max_materialize_operation_timeout := max_materialize |}.
Record Task009RuntimeConfig := { max_metadata_operation_timeout : Z }.
Definition task_009_from_selected (max_metadata : option (list byte)) : result ErrorCode Task009RuntimeConfig :=
  let? max_metadata := parse_metadata_operation_ceiling max_metadata in
  Ok {| max_metadata_operation_timeout := max_metadata |}.

(** ** The canonical text of a document *)

Definition Entry : Type := LibraryConfigKey * list byte.
Definition entry_line (e : Entry) : list byte := key_name e.1 ++ x3d :: e.2.
(** The settings a document holds, in the order of the keys. *)
Definition entries (d : LibraryConfigDocument) : list Entry := omap (fun k => pair k <$> document_value d k) all_keys.
Definition document_print (d : LibraryConfigDocument) : list byte := HEADER ++ ended x0a (map entry_line (entries d)).
Definition entry_ok (e : Entry) : Prop := e.2 <> [] /\ existsb control_byte e.2 = false /\ blen (entry_line e) <= 2048.
Definition document_ok (d : LibraryConfigDocument) : Prop :=
  length (values d) = KEY_COUNT /\ Forall entry_ok (entries d) /\ blen (document_print d) <= 16384.

Lemma key_name_parse k : key_parse (key_name k) = Some k.
Proof. destruct k; by vm_compute. Qed.
Lemma key_parse_name v k : key_parse v = Some k -> v = key_name k.
Proof.
  intros Hk%match_str_elem%list_elem_of_In.
  assert (forallb (fun arm => bool_decide (arm.1 = key_name arm.2)) config_key_arms = true) as Ha by (by vm_compute).
  rewrite forallb_forall in Ha. specialize (Ha _ Hk). by apply bool_decide_eq_true in Ha.
Qed.
Lemma index_bound k : (index k < KEY_COUNT)%nat.
Proof. destruct k; cbn; unfold KEY_COUNT; lia. Qed.
Lemma all_keys_index k : all_keys !! index k = Some k.
Proof. by destruct k. Qed.
Lemma index_inj k k' : index k = index k' -> k = k'.
Proof. intros He. pose proof (all_keys_index k) as Hk. rewrite He, all_keys_index in Hk. by injection Hk. Qed.
Lemma all_keys_elem k : k ∈ all_keys.
Proof. eapply list_elem_of_lookup_2, all_keys_index. Qed.
Definition check_keys (p : LibraryConfigKey -> LibraryConfigKey -> bool) : bool := forallb (fun k => forallb (p k) all_keys) all_keys.
Lemma check_keys_true p k k' : check_keys p = true -> p k k' = true.
Proof.
  unfold check_keys. intros Hp. rewrite forallb_forall in Hp. specialize (Hp k (proj1 (list_elem_of_In _ _) (all_keys_elem k))).
  rewrite forallb_forall in Hp. exact (Hp k' (proj1 (list_elem_of_In _ _) (all_keys_elem k'))).
Qed.
(** The variants are declared in the byte order of their names. *)
Lemma key_order k k' : rlt (key_name k) (key_name k') <-> (index k < index k')%nat.
Proof.
  pose proof (check_keys_true (fun k k' => eqb (bool_decide (rlt (key_name k) (key_name k'))) (Nat.ltb (index k) (index k'))) k k') as Hc.
  cbn beta in Hc. rewrite eqb_true_iff in Hc. rewrite <- Nat.ltb_lt, <- Hc by (by vm_compute). by rewrite bool_decide_eq_true.
Qed.
Lemma key_name_clean k : (x3d ∉ key_name k) /\ existsb control_byte (key_name k) = false /\ 1 <= blen (key_name k).
Proof.
  assert (negb (bool_decide (x3d ∈ key_name k)) && negb (existsb control_byte (key_name k)) && (1 <=? blen (key_name k)) = true) as Hc
    by (destruct k; by vm_compute).
  apply andb_true_iff in Hc as [[H1 H2]%andb_true_iff H3]. apply negb_true_iff, bool_decide_eq_false in H1.
  apply negb_true_iff in H2. apply Z.leb_le in H3. done.
Qed.

Lemma split_once_app sep k v : sep ∉ k -> split_once sep (k ++ sep :: v) = Some (k, v).
Proof.
  induction k as [|b k IH]; cbn; intros Hk; [by rewrite bool_decide_true|].
  apply not_elem_of_cons in Hk as [Hb Hk]. rewrite bool_decide_false by done. by rewrite IH.
Qed.
Lemma split_once_sound sep l k v : split_once sep l = Some (k, v) -> l = k ++ sep :: v.
Proof.
  revert k. induction l as [|b l IH]; cbn; intros k; [done|]. case_bool_decide as E; [by intros [= <- <-]; subst|].
  destruct (split_once sep l) as [[k' v']|]; [|done]. intros [= <- <-]. cbn. f_equal. by apply IH.
Qed.
Lemma control_app l k : existsb control_byte (l ++ k) = existsb control_byte l || existsb control_byte k.
Proof. apply existsb_app. Qed.
Lemma entry_line_control e : existsb control_byte (entry_line e) = existsb control_byte e.2.
Proof. unfold entry_line. rewrite control_app. destruct (key_name_clean e.1) as (_ & -> & _). done. Qed.
Lemma entry_line_long e : entry_ok e -> 3 <= blen (entry_line e).
Proof.
  intros (Hn & _). unfold entry_line. rewrite blen_app, blen_cons. destruct (key_name_clean e.1) as (_ & _ & Hk).
  destruct e.2 as [|b v]; [done|]. rewrite blen_cons. pose proof (blen_nonneg v). lia.
Qed.

(** ** Scanning *)

(** The scan stands before index [i]: the keys it saw are below, their slots are the only
    ones that may be filled, and it saw at most [i] lines. *)
Definition stands (i : nat) (s : Scan) : Prop :=
  length (s_values s) = KEY_COUNT /\ (forall j, (i <= j)%nat -> s_values s !! j ≫= id = None) /\ s_count s <= Z.of_nat i /\
  match s_previous s with None => i = 0%nat | Some last => exists k, last = key_name k /\ i = S (index k) end.
Definition put (vals : list (option (list byte))) (e : Entry) : list (option (list byte)) := <[index e.1 := Some e.2]> vals.
Definition advance (s : Scan) (e : Entry) : Scan :=
  {| s_values := put (s_values s) e; s_previous := Some (key_name e.1); s_count := s_count s + 1 |}.

Lemma advance_stands i s e : (i <= index e.1)%nat -> stands i s -> stands (S (index e.1)) (advance s e).
Proof.
  intros Hi (Hl & Hv & Hc & _). split_and!; cbn.
  - unfold put. by rewrite length_insert.
  - intros j Hj. unfold put. rewrite list_lookup_insert_ne by lia. apply Hv. lia.
  - lia.
  - by eexists.
Qed.

Lemma scan_line_ok i s line s' : stands i s ->
  scan_line s line = Ok s' <-> exists e, line = entry_line e /\ entry_ok e /\ (i <= index e.1)%nat /\ s' = advance s e.
Proof.
  intros Hs. pose proof Hs as (Hl & Hv & Hc & Hp). unfold scan_line. split.
  - destruct (_ || _) eqn:E1; [done|]. apply orb_false_iff in E1 as [[Ec Eb]%orb_false_iff Ex].
    apply negb_false_iff, andb_true_iff in Eb as [Eb1 Eb2]. apply Z.leb_le in Eb1, Eb2.
    destruct (split_once x3d line) as [[kb v]|] eqn:Es; [|done]. cbn [ok_or result_bind]. apply split_once_sound in Es as ->.
    destruct (_ || _) eqn:E2; [done|]. apply orb_false_iff in E2 as [En Eo]. apply bool_decide_eq_false in En.
    destruct (key_parse kb) as [k|] eqn:Ek; [|done]. apply key_parse_name in Ek as ->. cbn [ok_or result_bind].
    destruct (is_some _); [done|]. intros [= <-]. exists (k, v). split_and!; cbn; try done.
    + split_and!; cbn; try done. pose proof (entry_line_control (k, v)) as Hx. cbn in Hx. rewrite <- Hx. exact Ex.
    + destruct (s_previous s) as [last|]; [|lia]. destruct Hp as (k' & -> & ->).
      apply negb_false_iff, bool_decide_eq_true, key_order in Eo. lia.
  - intros (e & -> & He & Hi & ->). pose proof (entry_line_long e He) as H3. destruct He as (Hn & Hx & Hb).
    pose proof (index_bound e.1) as Hk. unfold KEY_COUNT in Hk.
    rewrite (proj2 (Z.ltb_ge 64 _)) by lia. rewrite (proj2 (Z.leb_le 3 _) H3), (proj2 (Z.leb_le _ 2048) Hb), entry_line_control, Hx. cbn [orb andb negb].
    unfold entry_line at 1. rewrite split_once_app by apply key_name_clean. cbn [ok_or result_bind]. rewrite bool_decide_false by done. cbn [orb].
    assert (match s_previous s with Some last => negb (bool_decide (rlt last (key_name e.1))) | None => false end = false) as ->.
    { destruct (s_previous s) as [last|]; [|done]. destruct Hp as (k' & -> & ->). rewrite bool_decide_true; [done|]. apply key_order. lia. }
    rewrite key_name_parse. cbn [ok_or result_bind]. rewrite Hv by lia. done.
Qed.

Definition before (e e' : Entry) : Prop := (index e.1 < index e'.1)%nat.

Lemma scan_lines_ok i s lines s' : stands i s ->
  scan_lines s lines = Ok s' <->
  exists es, lines = map entry_line es /\ Forall entry_ok es /\ StronglySorted before es /\
    Forall (fun e => (i <= index e.1)%nat) es /\ s' = foldl advance s es.
Proof.
  revert i s. induction lines as [|line lines IH]; intros i s Hs; cbn.
  - split; [intros [= <-]; exists []; split_and!; try done; constructor|]. intros ([|e es] & He & _ & _ & _ & ->); done.
  - split.
    + intros (s1 & H1 & H2)%result_bind_ok. apply (scan_line_ok i) in H1 as (e & -> & He & Hi & ->); [|done].
      apply (IH _ _ (advance_stands i s e Hi Hs)) in H2 as (es & -> & Hes & Hso & Hf & ->).
      exists (e :: es). split_and!; try done; [by constructor|constructor; [done|]|constructor; [done|]];
        (eapply Forall_impl; [exact Hf|]); unfold before; cbn; intros x Hx; lia.
    + intros ([|e es] & Hl & He & Hso & Hf & ->); [done|]. injection Hl as -> ->.
      inversion He as [|? ? He1 He2]; subst. inversion Hso as [|? ? Hs1 Hs2]; subst. inversion Hf as [|? ? Hf1 Hf2]; subst.
      rewrite (proj2 (scan_line_ok i s (entry_line e) (advance s e) Hs)) by eauto. cbn [result_bind foldl].
      apply (IH _ _ (advance_stands i s e Hf1 Hs)). exists es. by split_and!.
Qed.

(** ** Documents and their entries *)

Lemma advance_values s es : s_values (foldl advance s es) = foldl put (s_values s) es.
Proof. revert s. induction es as [|e es IH]; intros s; [done|]. cbn. by rewrite IH. Qed.
Lemma puts_length vals es : length (foldl put vals es) = length vals.
Proof. revert vals. induction es as [|e es IH]; intros vals; [done|]. cbn. rewrite IH. apply length_insert. Qed.

Lemma puts_other vals es j : Forall (fun e : Entry => index e.1 <> j) es -> foldl put vals es !! j = vals !! j.
Proof.
  intros Hf. revert vals. induction Hf as [|e es He Hes IH]; intros vals; [done|]. cbn. rewrite IH. unfold put. by apply list_lookup_insert_ne.
Qed.
Lemma puts_entry vals es k v : length vals = KEY_COUNT -> StronglySorted before es -> (k, v) ∈ es ->
  foldl put vals es !! index k = Some (Some v).
Proof.
  intros Hl Hs. revert vals Hl. induction Hs as [|e es Hs IH Hf]; intros vals Hl Hin; [by apply not_elem_of_nil in Hin|].
  cbn. apply elem_of_cons in Hin as [<-|Hin].
  - rewrite puts_other; [unfold put; cbn; apply list_lookup_insert_eq; rewrite Hl; apply index_bound|].
    eapply Forall_impl; [exact Hf|]. unfold before. cbn. intros x Hx. lia.
  - apply IH; [unfold put; by rewrite length_insert|done].
Qed.

Lemma entries_elem d k v : (k, v) ∈ entries d <-> document_value d k = Some v.
Proof.
  unfold entries. rewrite list_elem_of_omap. split.
  - intros (k' & _ & Hk). destruct (document_value d k') eqn:E; cbn in Hk; [|done]. by injection Hk as -> ->.
  - intros Hv. exists k. split; [apply all_keys_elem|]. by rewrite Hv.
Qed.
Lemma omap_sorted (f : LibraryConfigKey -> option (list byte)) ks :
  StronglySorted (fun k k' => (index k < index k')%nat) ks -> StronglySorted before (omap (fun k => pair k <$> f k) ks).
Proof.
  induction 1 as [|k ks Hs IH Hf]; cbn; [constructor|]. destruct (f k) as [v|]; cbn; [|done]. constructor; [done|].
  rewrite list.Forall_forall in Hf. rewrite list.Forall_forall. intros [k' v']. rewrite list_elem_of_omap. intros (k2 & Hk2 & Hx).
  destruct (f k2); cbn in Hx; [|done]. injection Hx as <- _. unfold before. cbn. by apply Hf.
Qed.
Lemma entries_sorted d : StronglySorted before (entries d).
Proof. apply omap_sorted. repeat (constructor; [|by repeat constructor; cbn; lia]). constructor. Qed.

Lemma sorted_entries_eq es es' : StronglySorted before es -> StronglySorted before es' -> (forall e, e ∈ es <-> e ∈ es') -> es = es'.
Proof.
  assert (forall l, StronglySorted before l -> NoDup l) as Hn.
  { intros l. induction 1 as [|e l Hs IH Hf]; constructor; [|done]. intros Hin. rewrite list.Forall_forall in Hf. specialize (Hf e Hin). unfold before in Hf. lia. }
  intros Hs Hs' He. assert (AntiSymm (=) before) by (intros e e' H1 H2; unfold before in *; lia).
  apply (StronglySorted_unique before); [done..|]. apply NoDup_Permutation; auto.
Qed.

Definition blank : list (option (list byte)) := replicate KEY_COUNT None.
Lemma entries_puts es : StronglySorted before es -> entries {| values := foldl put blank es |} = es.
Proof.
  intros Hs. apply sorted_entries_eq; [apply entries_sorted|done|]. intros [k v]. rewrite entries_elem. unfold document_value. cbn.
  split; [|intros Hin; by rewrite (puts_entry _ _ k v)].
  intros Hv. destruct (decide (Exists (fun e : Entry => index e.1 = index k) es)) as [Hx|Hx].
  - apply Exists_exists in Hx as ([k' v'] & Hin & Hk%index_inj). cbn in Hk. subst k'.
    rewrite (puts_entry _ _ k v') in Hv by done. by injection Hv as ->.
  - apply not_Exists_Forall in Hx; [|apply _]. rewrite puts_other in Hv by done. by destruct k.
Qed.
Lemma puts_entries d : length (values d) = KEY_COUNT -> foldl put blank (entries d) = values d.
Proof.
  intros Hl. apply list_eq. intros j. destruct (decide (j < KEY_COUNT)%nat) as [Hj|Hj].
  - destruct (lookup_lt_is_Some_2 all_keys j) as [k Hk]; [by apply Hj|].
    assert (j = index k) as ->. { clear Hl. revert Hk. unfold KEY_COUNT in Hj. do 26 (destruct j as [|j]; [intros [= <-]; done|]). lia. }
    destruct (values d !! index k) as [[v|]|] eqn:E.
    + apply puts_entry; [done|apply entries_sorted|]. apply entries_elem. unfold document_value. by rewrite E.
    + rewrite puts_other; [by destruct k|]. apply list.Forall_forall. intros [k' v'] Hin%entries_elem Hk'%index_inj.
      cbn in Hk'. subst k'. unfold document_value in Hin. by rewrite E in Hin.
    + apply lookup_ge_None in E. lia.
  - rewrite !lookup_ge_None_2; [done|..]; rewrite ?puts_length; unfold blank; rewrite ?length_replicate; lia.
Qed.

Lemma control_free l b : existsb control_byte l = false -> control_byte b = true -> b ∉ l.
Proof. intros Hl Hb Hin%list_elem_of_In. rewrite <- not_true_iff_false, existsb_exists in Hl. apply Hl. by exists b. Qed.
Lemma lines_clean es b : Forall entry_ok es -> control_byte b = true -> b <> x0a -> b ∉ ended x0a (map entry_line es).
Proof.
  intros He Hb Hn. induction He as [|e es (_ & Hx & _) _ IH]; [apply not_elem_of_nil|]. unfold ended in *. cbn [map concat].
  rewrite !not_elem_of_app, not_elem_of_cons. split_and!; [|done|apply not_elem_of_nil|done].
  apply control_free; [by rewrite entry_line_control|done].
Qed.

Lemma last_snoc_newline l : ends_with_newline (l ++ [x0a]) = true.
Proof. unfold ends_with_newline. by rewrite last_snoc, bool_decide_true. Qed.
Lemma ended_snoc es : es <> [] -> exists t, ended x0a (map entry_line es) = t ++ [x0a].
Proof.
  intros Hn. destruct (exists_last Hn) as (es' & e & ->). unfold ended. rewrite !map_app, concat_app. cbn [map concat].
  exists (concat (map (fun p => p ++ [x0a]) (map entry_line es')) ++ entry_line e). by rewrite app_nil_r, app_assoc.
Qed.

(** The scan of a body: nothing, or lines that each end in a newline. *)
Definition scan_body (body : list byte) : result ErrorCode Scan :=
  let lines := match body with [] => [] | _ => take (length body - 1) body end in
  if bool_decide (lines = []) && negb (bool_decide (body = [])) then Err ValidationError
  else
    let fresh := {| s_values := replicate KEY_COUNT None; s_previous := None; s_count := 0 |} in
    match lines with [] => Ok fresh | _ => scan_lines fresh (split_on x0a lines) end.
Definition fresh : Scan := {| s_values := blank; s_previous := None; s_count := 0 |}.
Lemma fresh_stands : stands 0 fresh.
Proof.
  split_and!; try done. intros j _. change (replicate KEY_COUNT (@None (list byte)) !! j ≫= id = None). destruct (decide (j < KEY_COUNT)%nat) as [Hj|Hj].
  - by rewrite lookup_replicate_2.
  - rewrite lookup_ge_None_2; [done|]. rewrite length_replicate. lia.
Qed.

Lemma entry_lines_clean es : Forall entry_ok es -> Forall (fun p => x0a ∉ p) (map entry_line es).
Proof.
  induction 1 as [|e es (_ & Hx & _) _ IH]; cbn [map]; constructor; [|done]. apply control_free; [by rewrite entry_line_control|done].
Qed.

Lemma scan_body_ok body s : body = [] \/ (exists t, body = t ++ [x0a]) ->
  scan_body body = Ok s <->
  exists es, body = ended x0a (map entry_line es) /\ Forall entry_ok es /\ StronglySorted before es /\ s = foldl advance fresh es.
Proof.
  intros [->|(t & ->)]; unfold scan_body.
  - cbn. split; [intros [= <-]; exists []; split_and!; try done; constructor|].
    intros (es & Hb & He & _ & ->). destruct es as [|e es]; [done|]. destruct (ended_snoc (e :: es)) as (t & Ht); [done|].
    rewrite Ht in Hb. by destruct t.
  - assert (match t ++ [x0a] with [] => [] | _ => take (length (t ++ [x0a]) - 1) (t ++ [x0a]) end = t) as ->.
    { destruct (t ++ [x0a]) eqn:E; [by destruct t|]. rewrite <- E. rewrite length_app. cbn. by rewrite Nat.add_sub, take_app_length. }
    rewrite (bool_decide_false (t ++ [x0a] = [])) by (by destruct t). rewrite andb_true_r.
    destruct t as [|b t]; [|rewrite bool_decide_false by done].
    + rewrite bool_decide_true by done. split; [done|]. intros (es & Hb & He & _). destruct He as [|e es Hok _]; [done|].
      pose proof (entry_line_long e Hok) as Hl. apply (f_equal blen) in Hb. unfold ended in Hb. cbn [map concat] in Hb.
      rewrite !blen_app in Hb. pose proof (blen_nonneg (concat (map (fun p => p ++ [x0a]) (map entry_line es)))).
      change (blen (@nil byte)) with 0 in Hb. change (blen [x0a]) with 1 in Hb. lia.
    + change {| s_values := replicate KEY_COUNT None; s_previous := None; s_count := 0 |} with fresh.
      rewrite (scan_lines_ok 0) by apply fresh_stands. split.
      * intros (es & Hl & He & Hso & _ & ->). exists es. split_and!; try done. by rewrite <- Hl, split_on_ended.
      * intros (es & Hb & He & Hso & ->). exists es. split_and!; try done.
        -- apply split_of_ended; [by destruct es|by apply entry_lines_clean|done].
        -- apply list.Forall_forall. intros. lia.
Qed.

Definition outer_ok (bytes : list byte) : bool :=
  negb ((16384 <? blen bytes) || negb (starts_with HEADER bytes) || negb (ends_with_newline bytes) || contains x00 bytes || contains x0d bytes).
Lemma document_parse_ok bytes d :
  document_parse bytes = Ok d <->
  outer_ok bytes = true /\ exists s, scan_body (drop (length HEADER) bytes) = Ok s /\ d = {| values := s_values s |}.
Proof.
  unfold document_parse, outer_ok. destruct (_ || _); cbn [negb]; [split; [done|by intros [? _]]|].
  fold (scan_body (drop (length HEADER) bytes)). unfold scan_body. destruct (_ && _); [split; [done|by intros (_ & s & ? & _)]|].
  rewrite result_bind_ok. split.
  - intros (s & Hs & [= <-]). eauto.
  - intros (_ & s & Hs & ->). eauto.
Qed.

Lemma outer_print es : Forall entry_ok es -> blen (HEADER ++ ended x0a (map entry_line es)) <= 16384 ->
  outer_ok (HEADER ++ ended x0a (map entry_line es)) = true.
Proof.
  intros He Hl. unfold outer_ok. rewrite (proj2 (Z.ltb_ge _ _) Hl).
  assert (starts_with HEADER (HEADER ++ ended x0a (map entry_line es)) = true) as ->.
  { unfold starts_with. by rewrite take_app_length, bool_decide_true. }
  assert (ends_with_newline (HEADER ++ ended x0a (map entry_line es)) = true) as ->.
  { destruct es as [|e es]; [done|]. destruct (ended_snoc (e :: es)) as (t & ->); [done|]. rewrite app_assoc. apply last_snoc_newline. }
  assert (forall b, b ∉ HEADER -> control_byte b = true -> b <> x0a -> contains b (HEADER ++ ended x0a (map entry_line es)) = false) as Hc.
  { intros b Hh Hb Hn. unfold contains. apply bool_decide_eq_false. rewrite not_elem_of_app. split; [done|by apply lines_clean]. }
  rewrite !Hc; try done; apply (proj1 (bool_decide_eq_false _)); by vm_compute.
Qed.
Lemma outer_body bytes : outer_ok bytes = true ->
  let body := drop (length HEADER) bytes in
  bytes = HEADER ++ body /\ blen bytes <= 16384 /\ (body = [] \/ exists t, body = t ++ [x0a]).
Proof.
  unfold outer_ok. intros Ho%negb_true_iff. rewrite !orb_false_iff in Ho. destruct Ho as ((((Hl & Hs) & He) & _) & _). set (body := drop (length HEADER) bytes).
  apply Z.ltb_ge in Hl. apply negb_false_iff, bool_decide_eq_true in Hs, He.
  assert (bytes = HEADER ++ body) as Hb by (rewrite <- Hs at 1; symmetry; apply take_drop).
  split_and!; [done..|]. destruct body as [|b t] eqn:E; [by left|right]. rewrite Hb, last_app_cons in He.
  destruct (exists_last (l := b :: t)) as (t' & x & Ht); [done|]. rewrite Ht, last_snoc in He. injection He as ->. by exists t'.
Qed.

(** C31: A library configuration is accepted exactly when it is the canonical text of what
    is read from it: the header, then one line per setting in the order of the keys, each
    at most once, of known keys, non-empty values without control bytes, lines of at most
    2048 and a document of at most 16384 bytes.  No two accepted documents say the same. *)
Theorem library_config_is_canonical bytes d :
  document_parse bytes = Ok d <-> document_ok d /\ bytes = document_print d.
Proof.
  rewrite document_parse_ok. split.
  - intros (Ho & s & Hs & ->). destruct (outer_body bytes Ho) as (Hb & Hl & Hc).
    apply (scan_body_ok _ s Hc) in Hs as (es & Hes & He & Hso & ->). unfold document_ok, document_print.
    rewrite advance_values. change (s_values fresh) with blank. rewrite (entries_puts es Hso), <- Hes, <- Hb. split_and!; try done. cbn [values]. by rewrite puts_length.
  - intros ((Hv & He & Hl) & ->). split; [by apply outer_print|]. exists (foldl advance fresh (entries d)).
    unfold document_print. rewrite drop_app_length. split.
    + apply scan_body_ok; [|exists (entries d); by split_and!; [..|apply entries_sorted|]].
      destruct (entries d) as [|e es]; [by left|right; by apply ended_snoc].
    + rewrite advance_values. change (s_values fresh) with blank. rewrite (puts_entries d Hv). by destruct d.
Qed.

(** A setting is what the text says: the document of one setting. *)
Example one_setting : document_parse (bs "MENGXIA_LIBRARY_CONFIG_V1" ++ [x0a] ++ bs "MENGXIA_LOG_LEVEL=debug" ++ [x0a]) =
  Ok {| values := (<[10%nat := Some (bs "debug")]> blank) |}.
Proof. by vm_compute. Qed.
(** Repeated and unordered settings are refused. *)
Example unordered_settings :
  document_parse (HEADER ++ ended x0a [bs "MENGXIA_LOG_LEVEL=debug"; bs "MENGXIA_BLOB_ROOT=/b"]) = Err ValidationError /\
  document_parse (HEADER ++ ended x0a [bs "MENGXIA_LOG_LEVEL=debug"; bs "MENGXIA_LOG_LEVEL=debug"]) = Err ValidationError.
Proof. by vm_compute. Qed.

(** ** The ceilings *)

(** An accepted ceiling is a canonical number in its range. *)
Lemma parse_ceiling_ok digits ceiling value millis : digits <= 20 ->
  parse_ceiling digits ceiling value = Ok millis -> 100 <= millis <= ceiling /\ value = dec_print millis.
Proof.
  unfold parse_ceiling. intros Hd H0. passed H0 as E. apply orb_false_iff in E as [[[En El]%orb_false_iff Ed]%orb_false_iff Ez].
  inv_result. apply bool_decide_eq_false in En. apply Z.ltb_ge in El. apply negb_false_iff in Ed.
  apply negb_false_iff, andb_true_iff in Hg as [Hg1%Z.leb_le Hg2%Z.leb_le]. split; [done|].
  unfold parse_u64_digits in H. destruct (_ <=? U64_MAX); [|done]. injection H as <-.
  symmetry. apply dec_print_fold; [done..|unfold blen in El; lia|]. intros Hb Hh. apply andb_false_iff in Ez as [Ez|Ez].
  - apply Z.ltb_ge in Ez. lia.
  - by apply bool_decide_eq_false in Ez.
Qed.
Lemma task_008_bounds level verify materialize c : task_008_from_selected level verify materialize = Ok c ->
  100 <= max_verify_operation_timeout c <= DEFAULT_OPERATION_CEILING_MS /\
  100 <= max_materialize_operation_timeout c <= DEFAULT_OPERATION_CEILING_MS.
Proof.
  unfold task_008_from_selected. intros H0. inv_result. cbn.
  repeat match goal with Hp : parse_operation_ceiling _ = Ok _ |- _ => apply parse_ceiling_ok in Hp as [? _]; [|lia] end. done.
Qed.
End Config.
