(* ===== verification/DaemonConfig.v ===== *)
(** The configuration of the daemon and of the client (bins/mengxiad/src/main.rs and
    bins/mengxia/src/main.rs): the command line of the daemon, the layers a setting is
    selected from, and the checks of the selected values, with those of the store and of
    the blob storage (config.rs of mengxia-store-sqlite and mengxia-storage-local) and of
    the runtime endpoint (mengxia-platform-fs/src/runtime_endpoint.rs).

    A structure with one optional value per setting is a function from the settings.  The
    environment, [canonicalize] and the reading of the configuration file are parameters. *)
From Stdlib Require Import ZArith Lia String.
From Stdlib Require Import Strings.Byte Init.Byte.
From stdpp Require Import prelude list sorting.
From S2P Require Import Prelude RustText Ord Utf8 Types Framing CoreWire CoreSession CoreAgreement CommandLedger StoreScenario RootFs LogRecords LibraryConfig.

Set Warnings "-clear-no-such-hyp".

(** ** Paths: [std::path] on Unix *)

Module Paths.

Definition Path : Type := list byte.
Inductive Component := RootDir | CurDir | ParentDir | Normal (name : list byte).
#[global] Instance Component_eq_dec : EqDecision Component.
Proof. solve_decision. Defined.

Definition is_absolute (p : Path) : bool := bool_decide (head p = Some x2f).
(** One piece between two slashes: empty pieces and [.] are skipped. *)
Definition piece (name : list byte) : list Component :=
  if bool_decide (name = []) || bool_decide (name = bs ".") then []
  else if bool_decide (name = bs "..") then [ParentDir] else [Normal name].
(** [Path::components]: a leading [.] of a relative path is kept. *)
Definition components (p : Path) : list Component :=
  let pieces := split_on x2f p in
  if is_absolute p then RootDir :: flat_map piece pieces
  else match pieces with
       | first :: rest => (if bool_decide (first = bs ".") then [CurDir] else piece first) ++ flat_map piece rest
       | [] => []
       end.
(** [Path] values are equal when their components are. *)
Definition path_eq (p q : Path) : bool := bool_decide (components p = components q).
Definition path_starts_with (p q : Path) : bool :=
  bool_decide (take (length (components q)) (components p) = components q).
(** [PathBuf::push] of a relative path. *)
Definition join (p : Path) (name : list byte) : Path :=
  match last p with
  | None => name
  | Some b => if bool_decide (b = x2f) then p ++ name else p ++ x2f :: name
  end.
Definition component_text (c : Component) : list byte :=
  match c with RootDir => bs "/" | CurDir => bs "." | ParentDir => bs ".." | Normal name => name end.
(** [components().collect::<PathBuf>()] *)
Definition collect (cs : list Component) : Path :=
  foldl (fun p c => match c with RootDir => bs "/" | _ => join p (component_text c) end) [] cs.
Definition to_str (p : Path) : option (list byte) := if utf8_valid p then Some p else None.
Definition file_name (p : Path) : option (list byte) := match last (components p) with Some (Normal name) => Some name | _ => None end.
(** [Path::parent], by its components. *)
Definition parent (p : Path) : option Path :=
  match rev (components p) with
  | (Normal _ | CurDir | ParentDir) :: rest => Some (collect (rev rest))
  | _ => None
  end.
Definition has_dot_piece (p : Path) : bool :=
  existsb (fun name => bool_decide (name = []) || bool_decide (name = bs ".") || bool_decide (name = bs "..")) (drop 1 (split_on x2f p)).
Definition has_dot_component (p : Path) : bool :=
  existsb (fun c => match c with CurDir | ParentDir => true | _ => false end) (components p).

(** ** Checks of paths *)

(** [absolute_components] of runtime_endpoint.rs: the loop with its flag and its names. *)
Fixpoint absolute_loop (saw_root : bool) (names : list (list byte)) (cs : list Component) : RootFs.ares (list (list byte)) :=
  match cs with
  | [] => if saw_root then Ok names else Err RootFs.UnsafeConfiguration
  | RootDir :: rest => if negb saw_root && bool_decide (names = []) then absolute_loop true names rest else Err RootFs.UnsafeConfiguration
  | Normal name :: rest =>
      if saw_root && negb (bool_decide (name = [])) then absolute_loop saw_root (names ++ [name]) rest else Err RootFs.UnsafeConfiguration
  | _ => Err RootFs.UnsafeConfiguration
  end.
Definition absolute_components (p : Path) : RootFs.ares (list (list byte)) := absolute_loop false [] (components p).

Definition SOCKET_NAME : list byte := bs "client.sock".
Definition SUN_PATH_BYTES_WITH_NUL : Z := 104.
Definition validate_endpoint_path (endpoint : Path) : RootFs.ares () :=
  if negb (is_absolute endpoint) || negb (bool_decide (file_name endpoint = Some SOCKET_NAME)) || Config.contains x00 endpoint ||
     (SUN_PATH_BYTES_WITH_NUL <? blen endpoint + 1)
  then Err RootFs.UnsafeConfiguration
  else
    let? names := absolute_components endpoint in
    if blen names <? 3 then Err RootFs.UnsafeConfiguration else Ok tt.

(** [std::fs::canonicalize]: a path, or whether it was not found. *)
Inductive IoErrorKind := NotFoundKind | OtherKind.
Section endpoint.
Context (canonicalize : Path -> result IoErrorKind Path).
Definition validate_runtime_endpoint_path (endpoint : Path) : RootFs.ares () :=
  let? _ := validate_endpoint_path endpoint in
  let? runtime := ok_or RootFs.UnsafeConfiguration (parent endpoint) in
  let? hosting := ok_or RootFs.UnsafeConfiguration (parent runtime) in
  let? canonical := map_err (fun _ => RootFs.UnsafeConfiguration) (canonicalize hosting) in
  if negb (path_eq canonical hosting) then Err RootFs.UnsafeConfiguration
  else match canonicalize runtime with
       | Ok canonical => if negb (path_eq canonical runtime) then Err RootFs.UnsafeConfiguration else Ok tt
       | Err NotFoundKind => Ok tt
       | Err OtherKind => Err RootFs.UnsafeConfiguration
       end.
End endpoint.

(** [validate_lexical_absolute_path] of mengxia-platform-fs. *)
Fixpoint lexical_loop (saw_root : bool) (normal_count : Z) (cs : list Component) : RootFs.ares (bool * Z) :=
  match cs with
  | [] => Ok (saw_root, normal_count)
  | RootDir :: rest => if negb saw_root && (normal_count =? 0) then lexical_loop true normal_count rest else Err RootFs.UnsafeConfiguration
  | Normal name :: rest =>
      if saw_root && negb (bool_decide (name = [])) then lexical_loop saw_root (normal_count + 1) rest else Err RootFs.UnsafeConfiguration
  | _ => Err RootFs.UnsafeConfiguration
  end.
Definition validate_lexical_absolute_path (p : Path) : RootFs.ares () :=
  let? text := ok_or RootFs.UnsafeConfiguration (to_str p) in
  if negb (is_absolute p) || path_eq p (bs "/") || Config.contains x00 text || has_dot_piece text then Err RootFs.UnsafeConfiguration
  else
    let? seen := lexical_loop false 0 (components p) in
    if negb seen.1 || (seen.2 =? 0) then Err RootFs.UnsafeConfiguration else Ok tt.
End Paths.

(** ** The configuration of the store (mengxia-store-sqlite/src/config.rs) *)

Module StoreSettings.
Import Paths.

Definition MIN_WRITE_QUEUE : Z := 16.
Definition MAX_WRITE_QUEUE : Z := 4096.
Definition MIN_READ_CONNECTIONS : Z := 1.
Definition MAX_READ_CONNECTIONS : Z := 16.
Definition MIN_BUSY_TIMEOUT_MS : Z := 1.
Definition MAX_BUSY_TIMEOUT_MS : Z := 5000.
Definition DEFAULT_MIN_FREE_BYTES : Z := 10 * 1024 * 1024 * 1024.
Definition DEFAULT_MIN_FREE_PERCENT : Z := 5.
Definition within (lo hi z : Z) : bool := (lo <=? z) && (z <=? hi).

Inductive ConfigSource := Cli | Environment | Library | CompiledDefault.
(** [StoreError::Configuration] and [BlobStorageError::Configuration]. *)
Inductive ConfigurationError := Configuration.

Record ResolvedStoreConfig := {
  library_root : option Path; library_root_source : ConfigSource; write_queue_capacity : Z; write_queue_source : ConfigSource;
  read_connection_count : Z; read_connection_source : ConfigSource; busy_timeout_ms : Z; busy_timeout_source : ConfigSource;
  min_free_bytes : Z; min_free_percent : Z }.
Definition from_selected (root : option Path) (root_source : ConfigSource) (queue : Z) (queue_source : ConfigSource)
    (readers : Z) (readers_source : ConfigSource) (busy : Z) (busy_source : ConfigSource) : ResolvedStoreConfig := {|
  library_root := root; library_root_source := root_source; write_queue_capacity := queue; write_queue_source := queue_source;
  read_connection_count := readers; read_connection_source := readers_source; busy_timeout_ms := busy; busy_timeout_source := busy_source;
  min_free_bytes := DEFAULT_MIN_FREE_BYTES; min_free_percent := DEFAULT_MIN_FREE_PERCENT |}.
Definition with_migration_reserve (c : ResolvedStoreConfig) (bytes percent : Z) : ResolvedStoreConfig := {|
  library_root := library_root c; library_root_source := library_root_source c; write_queue_capacity := write_queue_capacity c;
  write_queue_source := write_queue_source c; read_connection_count := read_connection_count c;
  read_connection_source := read_connection_source c; busy_timeout_ms := busy_timeout_ms c; busy_timeout_source := busy_timeout_source c;
  min_free_bytes := bytes; min_free_percent := percent |}.

(** [LibraryRoot::try_from] *)
Definition library_root_try_from (path : Path) : result ConfigurationError Path :=
  let? text := ok_or Configuration (to_str path) in
  if bool_decide (text = []) || Config.contains x00 text || path_eq path (bs "/") || has_dot_piece text then Err Configuration
  else if negb (is_absolute path) || has_dot_component path then Err Configuration
  else if negb (path_eq (collect (components path)) path) then Err Configuration
  else Ok path.

(** The validated [StoreConfig]: the same values, the root present. *)
Record StoreConfig := {
  sc_library_root : Path; sc_library_root_source : ConfigSource; sc_write_queue_capacity : Z; sc_write_queue_source : ConfigSource;
  sc_read_connection_count : Z; sc_read_connection_source : ConfigSource; sc_busy_timeout : Z; sc_busy_timeout_source : ConfigSource;
  sc_min_free_bytes : Z; sc_min_free_percent : Z }.
Definition validate (c : ResolvedStoreConfig) : result ConfigurationError StoreConfig :=
  let? root := ok_or Configuration (library_root c) in
  let? root := library_root_try_from root in
  if negb (within MIN_WRITE_QUEUE MAX_WRITE_QUEUE (write_queue_capacity c)) ||
     negb (within MIN_READ_CONNECTIONS MAX_READ_CONNECTIONS (read_connection_count c)) ||
     negb (within MIN_BUSY_TIMEOUT_MS MAX_BUSY_TIMEOUT_MS (busy_timeout_ms c)) ||
     (min_free_bytes c <? DEFAULT_MIN_FREE_BYTES) || negb (within 5 100 (min_free_percent c))
  then Err Configuration
  else Ok {| sc_library_root := root; sc_library_root_source := library_root_source c;
             sc_write_queue_capacity := write_queue_capacity c; sc_write_queue_source := write_queue_source c;
             sc_read_connection_count := read_connection_count c; sc_read_connection_source := read_connection_source c;
             sc_busy_timeout := busy_timeout_ms c; sc_busy_timeout_source := busy_timeout_source c;
             sc_min_free_bytes := min_free_bytes c; sc_min_free_percent := min_free_percent c |}.
End StoreSettings.

(** ** The configuration of the blob storage (mengxia-storage-local/src/config.rs) *)

Module BlobSettings.
Import Paths.
Abbreviation ConfigurationError := StoreSettings.ConfigurationError.
Abbreviation within := StoreSettings.within.
#[local] Abbreviation Configuration := StoreSettings.Configuration.

Definition MAX_LIBRARY_ROOT_BYTES_FOR_DEFAULT : Z := 929.
Definition MAX_BLOB_ROOT_BYTES : Z := 937.
Definition MIB : Z := 1024 * 1024.
Definition GIB : Z := 1024 * MIB.
Definition TIB : Z := 1024 * GIB.

Inductive BlobConfigSource := BlobCli | BlobEnvironment | BlobLibrary | BlobCompiledDefault.

(** A selected text with its source; [None] is an absent one. *)
Definition Selected : Type := option (list byte) * BlobConfigSource.
Record ResolvedBlobStorageConfig := {
  library_root : Selected; blob_root : Selected; storage_io_concurrency : Selected; hash_concurrency : Selected;
  max_concurrent_ingests : Selected; stream_buffer_bytes : Selected; max_ingest_bytes : Selected; max_staging_bytes : Selected;
  min_free_bytes : Selected; min_free_percent : Selected }.

Definition parse_u64 (value : option (list byte)) : result ConfigurationError Z :=
  let? value := ok_or Configuration value in
  if bool_decide (value = []) || negb (forallb is_ascii_digit value) then Err Configuration
  else ok_or Configuration (parse_u64_digits value).
Definition parse_usize (value : option (list byte)) : result ConfigurationError Z :=
  let? v := parse_u64 value in ok_or Configuration (try_into USIZE_MAX v).

Definition long_component (p : Path) : bool :=
  existsb (fun c => match c with CurDir | ParentDir => true | Normal name => 255 <? blen name | _ => false end) (components p).
Definition validate_unicode_absolute (path : option Path) (limit : Z) : result ConfigurationError Path :=
  let? path := ok_or Configuration path in
  let? text := ok_or Configuration (to_str path) in
  if path_eq path (bs "/") || bool_decide (text = []) || Config.contains x00 text || (limit <? blen text) ||
     negb (is_absolute path) || long_component path || has_dot_piece text
  then Err Configuration
  else if negb (path_eq (collect (components path)) path) then Err Configuration
  else Ok path.
Definition paths_overlap (left right : Path) : bool :=
  path_eq left right || path_starts_with left right || path_starts_with right left.

(** [BlobRootRequest::from_absolute_path] of mengxia-platform-fs/src/blob_storage.rs. *)
Record BlobRootRequest := { request_path : Path; request_identity : list byte }.
Section request.
Context `{StoreEnv}.
Definition blob_root_request (p : Path) : RootFs.ares BlobRootRequest :=
  let? _ := validate_lexical_absolute_path p in
  if (MAX_BLOB_ROOT_BYTES <? blen p) || Config.contains x00 p then Err RootFs.UnsafeConfiguration
  else Ok {| request_path := p; request_identity := sha256 p |}.

Record BlobStorageConfig := {
  bc_request : BlobRootRequest; bc_library_root_source : BlobConfigSource; bc_blob_root_source : BlobConfigSource;
  bc_storage_io_concurrency : Z * BlobConfigSource; bc_hash_concurrency : Z * BlobConfigSource;
  bc_max_concurrent_ingests : Z * BlobConfigSource; bc_stream_buffer_bytes : Z * BlobConfigSource;
  bc_max_ingest_bytes : Z * BlobConfigSource; bc_max_staging_bytes : Z * BlobConfigSource;
  bc_min_free_bytes : Z * BlobConfigSource; bc_min_free_percent : Z * BlobConfigSource }.

(** The two roots are nested only as the default says. *)
Definition roots_ok (library_root blob_root : Path) : bool :=
  if path_eq blob_root (join library_root (bs "storage")) then negb (MAX_LIBRARY_ROOT_BYTES_FOR_DEFAULT <? blen library_root)
  else negb (paths_overlap library_root blob_root).

Definition validate (c : ResolvedBlobStorageConfig) : result ConfigurationError BlobStorageConfig :=
  let? storage_io := parse_usize (storage_io_concurrency c).1 in
  let? hash := parse_usize (hash_concurrency c).1 in
  let? ingests := parse_usize (max_concurrent_ingests c).1 in
  let? buffer := parse_usize (stream_buffer_bytes c).1 in
  let? max_ingest := parse_u64 (max_ingest_bytes c).1 in
  let? max_staging := parse_u64 (max_staging_bytes c).1 in
  let? min_free := parse_u64 (min_free_bytes c).1 in
  let? percent := parse_u64 (min_free_percent c).1 in
  let? percent := ok_or Configuration (try_into U8_MAX percent) in
  let? library := validate_unicode_absolute (library_root c).1 1023 in
  let? blob := validate_unicode_absolute (blob_root c).1 MAX_BLOB_ROOT_BYTES in
  if negb (roots_ok library blob) then Err Configuration
  else if negb (within 1 8 storage_io) || negb (within 1 8 hash) || negb (within 1 8 ingests) || negb (within MIB (32 * MIB) buffer) ||
          negb (within 1 TIB max_ingest) || negb (within 1 (2 * TIB) max_staging) || (max_staging <? max_ingest) ||
          (min_free <? 10 * GIB) || negb (within 5 100 percent)
  then Err Configuration
  else
    let? request := map_err (fun _ => Configuration) (blob_root_request blob) in
    Ok {| bc_request := request; bc_library_root_source := (library_root c).2; bc_blob_root_source := (blob_root c).2;
          bc_storage_io_concurrency := (storage_io, (storage_io_concurrency c).2); bc_hash_concurrency := (hash, (hash_concurrency c).2);
          bc_max_concurrent_ingests := (ingests, (max_concurrent_ingests c).2); bc_stream_buffer_bytes := (buffer, (stream_buffer_bytes c).2);
          bc_max_ingest_bytes := (max_ingest, (max_ingest_bytes c).2); bc_max_staging_bytes := (max_staging, (max_staging_bytes c).2);
          bc_min_free_bytes := (min_free, (min_free_bytes c).2); bc_min_free_percent := (percent, (min_free_percent c).2) |}.
End request.
End BlobSettings.

(** ** Settings and their layers *)

Module Daemon.
Import Paths.
Abbreviation OsString := (list byte).

(** The fields of [ServeCli], [DaemonEnvironment] and [DaemonLibraryConfig]. *)
Inductive Setting :=
| LibraryRoot | BlobRoot | Endpoint | FrameBytes | DecodeDepth | HandshakeTimeout | MaxPending | MaxSessions
| MaxOperationTimeout | MaxVerifyTimeout | MaxMaterializeTimeout | MaxMetadataTimeout | LogLevel | ShutdownTimeout
| StorageIo | Hash | MaxIngests | StreamBuffer | MaxIngestBytes | MaxStagingBytes | MinFreeBytes | MinFreePercent
| WriteQueue | ReadConnections | BusyTimeout.
#[global] Instance Setting_eq_dec : EqDecision Setting.
Proof. solve_decision. Defined.
Definition Layer : Type := Setting -> option OsString.
Definition no_layer : Layer := fun _ => None.

(** [DaemonLibraryConfig::from_document], with [library_path] and [library_raw]. *)
Definition config_key (s : Setting) : Config.LibraryConfigKey :=
  match s with
  | LibraryRoot => Config.LibraryRoot | BlobRoot => Config.BlobRoot | Endpoint => Config.ClientEndpoint
  | FrameBytes => Config.MaxFrameBytes | DecodeDepth => Config.MaxDecodeDepth
  | HandshakeTimeout => Config.ClientHandshakeTimeoutMs | MaxPending => Config.MaxPendingHandshakes
  | MaxSessions => Config.MaxClientSessions | MaxOperationTimeout => Config.MaxIngestOperationTimeoutMs
  | MaxVerifyTimeout => Config.MaxVerifyOperationTimeoutMs | MaxMaterializeTimeout => Config.MaxMaterializeOperationTimeoutMs
  | MaxMetadataTimeout => Config.MaxMetadataOperationTimeoutMs | LogLevel => Config.LogLevel
  | ShutdownTimeout => Config.IngestShutdownTimeoutMs | StorageIo => Config.StorageIoConcurrency
  | Hash => Config.HashConcurrency | MaxIngests => Config.MaxConcurrentIngests | StreamBuffer => Config.StreamBufferBytes
  | MaxIngestBytes => Config.MaxIngestBytes | MaxStagingBytes => Config.MaxStagingBytes | MinFreeBytes => Config.MinFreeBytes
  | MinFreePercent => Config.MinFreePercent | WriteQueue => Config.DbWriteQueue | ReadConnections => Config.DbReadConnections
  | BusyTimeout => Config.DbBusyTimeoutMs
  end.
Definition from_document (d : Config.LibraryConfigDocument) : Layer := fun s => Config.document_value d (config_key s).

(** [DaemonEnvironment::capture] over [env::var_os]. *)
Definition variable (s : Setting) : list byte :=
  match s with
  | LibraryRoot => bs "MENGXIA_LIBRARY_ROOT" | BlobRoot => bs "MENGXIA_BLOB_ROOT" | Endpoint => bs "MENGXIA_CLIENT_ENDPOINT"
  | FrameBytes => bs "MENGXIA_MAX_FRAME_BYTES" | DecodeDepth => bs "MENGXIA_MAX_DECODE_DEPTH"
  | HandshakeTimeout => bs "MENGXIA_CLIENT_HANDSHAKE_TIMEOUT_MS" | MaxPending => bs "MENGXIA_MAX_PENDING_HANDSHAKES"
  | MaxSessions => bs "MENGXIA_MAX_CLIENT_SESSIONS" | MaxOperationTimeout => bs "MENGXIA_MAX_INGEST_OPERATION_TIMEOUT_MS"
  | MaxVerifyTimeout => bs "MENGXIA_MAX_VERIFY_OPERATION_TIMEOUT_MS"
  | MaxMaterializeTimeout => bs "MENGXIA_MAX_MATERIALIZE_OPERATION_TIMEOUT_MS"
  | MaxMetadataTimeout => bs "MENGXIA_MAX_METADATA_OPERATION_TIMEOUT_MS" | LogLevel => bs "MENGXIA_LOG_LEVEL"
  | ShutdownTimeout => bs "MENGXIA_INGEST_SHUTDOWN_TIMEOUT_MS" | StorageIo => bs "MENGXIA_STORAGE_IO_CONCURRENCY"
  | Hash => bs "MENGXIA_HASH_CONCURRENCY" | MaxIngests => bs "MENGXIA_MAX_CONCURRENT_INGESTS"
  | StreamBuffer => bs "MENGXIA_STREAM_BUFFER_BYTES" | MaxIngestBytes => bs "MENGXIA_MAX_INGEST_BYTES"
  | MaxStagingBytes => bs "MENGXIA_MAX_STAGING_BYTES" | MinFreeBytes => bs "MENGXIA_MIN_FREE_BYTES"
  | MinFreePercent => bs "MENGXIA_MIN_FREE_PERCENT" | WriteQueue => bs "MENGXIA_DB_WRITE_QUEUE"
  | ReadConnections => bs "MENGXIA_DB_READ_CONNECTIONS" | BusyTimeout => bs "MENGXIA_DB_BUSY_TIMEOUT_MS"
  end.
Definition capture (var_os : list byte -> option OsString) : Layer := fun s => var_os (variable s).

(** ** The command line *)

Inductive Slot := LibraryConfigSlot | SettingSlot (s : Setting).
#[global] Instance Slot_eq_dec : EqDecision Slot.
Proof. solve_decision. Defined.
Definition serve_options : list (list byte * Slot) :=
  [ (bs "--library-root", SettingSlot LibraryRoot); (bs "--library-config", LibraryConfigSlot); (bs "--blob-root", SettingSlot BlobRoot);
    (bs "--client-endpoint", SettingSlot Endpoint); (bs "--max-frame-bytes", SettingSlot FrameBytes);
    (bs "--max-decode-depth", SettingSlot DecodeDepth); (bs "--client-handshake-timeout-ms", SettingSlot HandshakeTimeout);
    (bs "--max-pending-handshakes", SettingSlot MaxPending); (bs "--max-client-sessions", SettingSlot MaxSessions);
    (bs "--max-ingest-operation-timeout-ms", SettingSlot MaxOperationTimeout);
    (bs "--max-verify-operation-timeout-ms", SettingSlot MaxVerifyTimeout);
    (bs "--max-materialize-operation-timeout-ms", SettingSlot MaxMaterializeTimeout);
    (bs "--max-metadata-operation-timeout-ms", SettingSlot MaxMetadataTimeout); (bs "--log-level", SettingSlot LogLevel);
    (bs "--ingest-shutdown-timeout-ms", SettingSlot ShutdownTimeout); (bs "--storage-io-concurrency", SettingSlot StorageIo);
    (bs "--hash-concurrency", SettingSlot Hash); (bs "--max-concurrent-ingests", SettingSlot MaxIngests);
    (bs "--stream-buffer-bytes", SettingSlot StreamBuffer); (bs "--max-ingest-bytes", SettingSlot MaxIngestBytes);
    (bs "--max-staging-bytes", SettingSlot MaxStagingBytes); (bs "--min-free-bytes", SettingSlot MinFreeBytes);
    (bs "--min-free-percent", SettingSlot MinFreePercent); (bs "--db-write-queue", SettingSlot WriteQueue);
    (bs "--db-read-connections", SettingSlot ReadConnections); (bs "--db-busy-timeout-ms", SettingSlot BusyTimeout) ].

Record ServeCli := { library_config : option OsString; settings : Layer }.
Definition serve_default : ServeCli := {| library_config := None; settings := no_layer |}.
Definition slot_value (cli : ServeCli) (slot : Slot) : option OsString :=
  match slot with LibraryConfigSlot => library_config cli | SettingSlot s => settings cli s end.
Definition fill (cli : ServeCli) (slot : Slot) (value : OsString) : ServeCli :=
  match slot with
  | LibraryConfigSlot => {| library_config := Some value; settings := settings cli |}
  | SettingSlot s => {| library_config := library_config cli;
                        settings := fun x => if bool_decide (x = s) then Some value else settings cli x |}
  end.

Inductive Command := Help | Serve (cli : ServeCli).
(** The loop over [args[index]] and [args[index + 1]]; an option that is not UTF-8 is no
    known option. *)
Fixpoint parse_options (cli : ServeCli) (args : list OsString) : result ErrorCode ServeCli :=
  match args with
  | [] => Ok cli
  | option :: rest =>
      let? option := ok_or ValidationError (to_str option) in
      match rest with
      | [] => Err ValidationError
      | value :: rest =>
          let? slot := ok_or ValidationError (match_str option serve_options) in
          if Log.is_some (slot_value cli slot) then Err ValidationError else parse_options (fill cli slot value) rest
      end
  end.
Definition parse_command (args : list OsString) : result ErrorCode Command :=
  if bool_decide (args = [bs "--help"]) then Ok Help
  else match args with
       | first :: rest => if bool_decide (first = bs "serve") then let? cli := parse_options serve_default rest in Ok (Serve cli)
                          else Err ValidationError
       | [] => Err ValidationError
       end.

(** ** Selection *)

Definition parse_ascii_u64 (value : OsString) : result ErrorCode Z :=
  let? text := ok_or ValidationError (to_str value) in
  if bool_decide (text = []) || ((1 <? blen text) && bool_decide (head text = Some x30)) || negb (forallb is_ascii_digit text)
  then Err ValidationError
  else ok_or ValidationError (parse_u64_digits text).
Definition select_u64 (cli environment library : option OsString) (default : Z) : result ErrorCode (Z * StoreSettings.ConfigSource) :=
  match cli, environment, library with
  | Some value, _, _ => let? v := parse_ascii_u64 value in Ok (v, StoreSettings.Cli)
  | None, Some value, _ => let? v := parse_ascii_u64 value in Ok (v, StoreSettings.Environment)
  | None, None, Some value => let? v := parse_ascii_u64 value in Ok (v, StoreSettings.Library)
  | None, None, None => Ok (default, StoreSettings.CompiledDefault)
  end.
Definition select_raw (cli environment library : option OsString) : option OsString :=
  match cli with Some v => Some v | None => match environment with Some v => Some v | None => library end end.
(** [into_string] of a selected text. *)
Definition select_blob_value (cli environment library : option OsString) (default : Z)
  : result ErrorCode (list byte * BlobSettings.BlobConfigSource) :=
  match cli, environment, library with
  | Some value, _, _ => let? v := ok_or ValidationError (to_str value) in Ok (v, BlobSettings.BlobCli)
  | None, Some value, _ => let? v := ok_or ValidationError (to_str value) in Ok (v, BlobSettings.BlobEnvironment)
  | None, None, Some value => let? v := ok_or ValidationError (to_str value) in Ok (v, BlobSettings.BlobLibrary)
  | None, None, None => Ok (dec_print default, BlobSettings.BlobCompiledDefault)
  end.
Definition selected_required (cli environment library : option OsString)
  : result ErrorCode (OsString * StoreSettings.ConfigSource * BlobSettings.BlobConfigSource) :=
  match cli, environment, library with
  | Some value, _, _ => Ok (value, StoreSettings.Cli, BlobSettings.BlobCli)
  | None, Some value, _ => Ok (value, StoreSettings.Environment, BlobSettings.BlobEnvironment)
  | None, None, Some value => Ok (value, StoreSettings.Library, BlobSettings.BlobLibrary)
  | None, None, None => Err ValidationError
  end.
Definition selected_blob_root (cli environment library : option OsString) (library_root : Path) : Path * BlobSettings.BlobConfigSource :=
  match cli, environment, library with
  | Some value, _, _ => (value, BlobSettings.BlobCli)
  | None, Some value, _ => (value, BlobSettings.BlobEnvironment)
  | None, None, Some value => (value, BlobSettings.BlobLibrary)
  | None, None, None => (join library_root (bs "storage"), BlobSettings.BlobCompiledDefault)
  end.

Definition authority_code (e : RootFs.AuthorityError) : ErrorCode :=
  match e with
  | RootFs.UnsafeConfiguration | RootFs.Contended => StorageConfigurationError
  | RootFs.Io => StorageIoError
  | RootFs.ConflictingData => StorageCorruption
  end.

Section resolution.
Context `{StoreEnv, CoreSession.CoreDescriptor} (canonicalize : Path -> result IoErrorKind Path) (platform_temp_root : Path).

(** The endpoint of both programs: the first layer that names one, or the default. *)
Definition select_endpoint (cli environment library : option OsString) : result ErrorCode Path :=
  match select_raw cli environment library with
  | Some path => Ok path
  | None => map_err (fun _ => ValidationError) (let? root := canonicalize platform_temp_root in Ok (join root (bs "mengxia-runtime-v1/client.sock")))
  end.
Definition validated_frame (frame : Z) : result ErrorCode Framing.FrameLimit :=
  let? frame := ok_or ValidationError (try_into U32_MAX frame) in map_err (fun _ => ValidationError) (Framing.frame_limit_new frame).
Definition validated_depth (depth : Z) : result ErrorCode Preflight.DecodeDepth :=
  let? depth := ok_or ValidationError (try_into U8_MAX depth) in map_err (fun _ => ValidationError) (Preflight.decode_depth_new depth).
(** A value of [usize] or of milliseconds in a range. *)
Definition in_range (lo hi value : Z) : result ErrorCode Z :=
  if negb ((lo <=? value) && (value <=? hi)) then Err ValidationError else Ok value.
Definition millis (ms : Z) : Z := ms * 1000000.

Record DaemonConfig := {
  store : StoreSettings.StoreConfig; blob : BlobSettings.BlobStorageConfig; endpoint : Path;
  limits : CoreSession.HandshakeLimits; max_pending : Z; max_sessions : Z; operation_limits : CoreSession.OperationLimits;
  max_operation_timeout : Z; task_008 : Config.Task008RuntimeConfig; task_009 : Config.Task009RuntimeConfig; shutdown_timeout : Z }.

Definition resolve_from_layers (cli environment library : Layer) : result ErrorCode DaemonConfig :=
  let? root := selected_required (cli LibraryRoot) (environment LibraryRoot) (library LibraryRoot) in
  let '(library_root, library_source, blob_library_source) := root in
  let? endpoint := select_endpoint (cli Endpoint) (environment Endpoint) (library Endpoint) in
  let? _ := map_err (fun _ => ValidationError) (validate_runtime_endpoint_path canonicalize endpoint) in
  let u64 s default := select_u64 (cli s) (environment s) (library s) default in
  let? frame := u64 FrameBytes (4 * 1024 * 1024) in
  let? frame := validated_frame frame.1 in
  let? depth := u64 DecodeDepth 64 in
  let? depth := validated_depth depth.1 in
  if depth <? CoreSession.TASK_009_MIN_OPERATION_DECODE_DEPTH then Err ValidationError
  else
    let? timeout := u64 HandshakeTimeout 5000 in
    let? limits := CoreSession.handshake_limits_new frame depth (millis timeout.1) in
    let? operation_limits := CoreSession.operation_limits_new frame depth in
    let? max_pending := u64 MaxPending 32 in
    let? max_pending := in_range 1 256 max_pending.1 in
    let? max_sessions := u64 MaxSessions 32 in
    let? max_sessions := in_range 1 256 max_sessions.1 in
    let? max_operation := u64 MaxOperationTimeout 86400000 in
    let? max_operation := in_range 100 86400000 max_operation.1 in
    let raw s := select_raw (cli s) (environment s) (library s) in
    let? task_008 := Config.task_008_from_selected (raw LogLevel) (raw MaxVerifyTimeout) (raw MaxMaterializeTimeout) in
    let? task_009 := Config.task_009_from_selected (raw MaxMetadataTimeout) in
    let? shutdown := u64 ShutdownTimeout 5000 in
    let? shutdown := in_range 100 30000 shutdown.1 in
    let? queue := u64 WriteQueue 256 in
    let? readers := u64 ReadConnections 4 in
    let? busy := u64 BusyTimeout 5000 in
    let resolved_store := StoreSettings.from_selected (Some library_root) library_source queue.1 queue.2 readers.1 readers.2 busy.1 busy.2 in
    let blob_root := selected_blob_root (cli BlobRoot) (environment BlobRoot) (library BlobRoot) library_root in
    let text s default := select_blob_value (cli s) (environment s) (library s) default in
    let? storage_io := text StorageIo 2 in
    let? hash := text Hash 2 in
    let? ingests := text MaxIngests 2 in
    let? buffer := text StreamBuffer (8 * 1024 * 1024) in
    let? max_ingest := text MaxIngestBytes (1024 * 1024 * 1024 * 1024) in
    let? max_staging := text MaxStagingBytes (2 * 1024 * 1024 * 1024 * 1024) in
    let? min_free := text MinFreeBytes (10 * 1024 * 1024 * 1024) in
    let? percent := text MinFreePercent 5 in
    let present (v : list byte * BlobSettings.BlobConfigSource) : BlobSettings.Selected := (Some v.1, v.2) in
    let? blob := map_err (fun _ => ValidationError) (BlobSettings.validate {|
      BlobSettings.library_root := (Some library_root, blob_library_source); BlobSettings.blob_root := present blob_root;
      BlobSettings.storage_io_concurrency := present storage_io; BlobSettings.hash_concurrency := present hash;
      BlobSettings.max_concurrent_ingests := present ingests; BlobSettings.stream_buffer_bytes := present buffer;
      BlobSettings.max_ingest_bytes := present max_ingest; BlobSettings.max_staging_bytes := present max_staging;
      BlobSettings.min_free_bytes := present min_free; BlobSettings.min_free_percent := present percent |}) in
    let? store := map_err (fun _ => ValidationError) (StoreSettings.validate
      (StoreSettings.with_migration_reserve resolved_store (BlobSettings.bc_min_free_bytes blob).1 (BlobSettings.bc_min_free_percent blob).1)) in
    Ok {| store := store; blob := blob; endpoint := endpoint; limits := limits; max_pending := max_pending; max_sessions := max_sessions;
          operation_limits := operation_limits; max_operation_timeout := max_operation; task_008 := task_008; task_009 := task_009;
          shutdown_timeout := shutdown |}.

Context (var_os : list byte -> option OsString) (read_library_config : Path -> RootFs.ares (list byte)).
Definition library_config_variable : list byte := bs "MENGXIA_LIBRARY_CONFIG".
Definition selector (cli : option OsString) : option OsString := match cli with Some v => Some v | None => var_os library_config_variable end.

Definition resolve (cli : ServeCli) : result ErrorCode DaemonConfig :=
  let environment := capture var_os in
  let? library := match selector (library_config cli) with
                  | Some path =>
                      let? bytes := map_err authority_code (read_library_config path) in
                      let? document := map_err (fun _ => StorageConfigurationError) (Config.document_parse bytes) in
                      Ok (from_document document)
                  | None => Ok no_layer
                  end in
  resolve_from_layers (settings cli) environment library.
End resolution.
End Daemon.

(** ** The client (bins/mengxia/src/main.rs) *)

Module Client.
Import Paths.
Abbreviation OsString := (list byte).

(** The fields of [ClientEnvironment] and [ClientLibraryConfig]; the command line has the
    first four ([HandshakeCli]) and passes the last one on its own. *)
Inductive ClientSetting := CEndpoint | CFrameBytes | CDecodeDepth | CHandshakeTimeout | COperationTimeout.
Definition Layer : Type := ClientSetting -> option OsString.
Definition no_layer : Layer := fun _ => None.
Definition config_key (s : ClientSetting) : Config.LibraryConfigKey :=
  match s with
  | CEndpoint => Config.ClientEndpoint | CFrameBytes => Config.MaxFrameBytes | CDecodeDepth => Config.MaxDecodeDepth
  | CHandshakeTimeout => Config.ClientHandshakeTimeoutMs | COperationTimeout => Config.ClientOperationTimeoutMs
  end.
Definition from_document (d : Config.LibraryConfigDocument) : Layer := fun s => Config.document_value d (config_key s).
Definition variable (s : ClientSetting) : list byte :=
  match s with
  | CEndpoint => bs "MENGXIA_CLIENT_ENDPOINT" | CFrameBytes => bs "MENGXIA_MAX_FRAME_BYTES"
  | CDecodeDepth => bs "MENGXIA_MAX_DECODE_DEPTH" | CHandshakeTimeout => bs "MENGXIA_CLIENT_HANDSHAKE_TIMEOUT_MS"
  | COperationTimeout => bs "MENGXIA_CLIENT_OPERATION_TIMEOUT_MS"
  end.
Definition capture (var_os : list byte -> option OsString) : Layer := fun s => var_os (variable s).

Record HandshakeCli := { library_config : option OsString; settings : Layer }.

(** [select_u64] and [parse_ascii_u64] of the client are those of the daemon without the source. *)
Definition select_u64 (cli environment library : option OsString) (default : Z) : result ErrorCode Z :=
  match cli, environment, library with
  | Some value, _, _ => Daemon.parse_ascii_u64 value
  | None, Some value, _ => Daemon.parse_ascii_u64 value
  | None, None, Some value => Daemon.parse_ascii_u64 value
  | None, None, None => Ok default
  end.

Section resolution.
Context `{StoreEnv, CoreSession.CoreDescriptor} (canonicalize : Path -> result IoErrorKind Path) (platform_temp_root : Path).

Record ClientConfig := {
  endpoint : Path; limits : CoreSession.HandshakeLimits; operation_limits : CoreSession.OperationLimits; operation_timeout : Z }.

Definition resolve_from_layers (cli environment library : Layer) (operation_timeout : option OsString) : result ErrorCode ClientConfig :=
  let? endpoint := Daemon.select_endpoint canonicalize platform_temp_root (cli CEndpoint) (environment CEndpoint) (library CEndpoint) in
  let? _ := map_err (fun _ => ValidationError) (validate_runtime_endpoint_path canonicalize endpoint) in
  let u64 s default := select_u64 (cli s) (environment s) (library s) default in
  let? frame := u64 CFrameBytes (4 * 1024 * 1024) in
  let? frame := Daemon.validated_frame frame in
  let? depth := u64 CDecodeDepth 64 in
  let? depth := Daemon.validated_depth depth in
  let? timeout := u64 CHandshakeTimeout 5000 in
  let? limits := CoreSession.handshake_limits_new frame depth (Daemon.millis timeout) in
  let? operation_limits := CoreSession.operation_limits_new frame depth in
  let? operation := select_u64 operation_timeout (environment COperationTimeout) (library COperationTimeout) 3600000 in
  let? operation := Daemon.in_range 100 86400000 operation in
  Ok {| endpoint := endpoint; limits := limits; operation_limits := operation_limits; operation_timeout := operation |}.

Context (var_os : list byte -> option OsString) (read_library_config : Path -> RootFs.ares (list byte)).
Definition resolve_with_operation (cli : HandshakeCli) (operation_timeout : option OsString) : result ErrorCode ClientConfig :=
  let? library := match Daemon.selector var_os (library_config cli) with
                  | Some path =>
                      let? bytes := map_err (fun _ => ValidationError) (read_library_config path) in
                      let? document := Config.document_parse bytes in
                      Ok (from_document document)
                  | None => Ok no_layer
                  end in
  resolve_from_layers (settings cli) (capture var_os) library operation_timeout.
End resolution.
End Client.

(** ** Properties *)

Module ConfigFacts.
Import Paths.

(** The variables of both programs carry the names of the keys. *)
Lemma variables_are_keys s : Daemon.variable s = Config.key_name (Daemon.config_key s).
Proof. destruct s; by vm_compute. Qed.
Lemma client_variables_are_keys s : Client.variable s = Config.key_name (Client.config_key s).
Proof. destruct s; by vm_compute. Qed.

(** *** Selection *)

Definition source_of (c e l : option (list byte)) : StoreSettings.ConfigSource :=
  match c, e, l with
  | Some _, _, _ => StoreSettings.Cli | None, Some _, _ => StoreSettings.Environment
  | None, None, Some _ => StoreSettings.Library | None, None, None => StoreSettings.CompiledDefault
  end.
Definition u64_or (default : Z) (o : option (list byte)) : result ErrorCode Z :=
  match o with Some v => Daemon.parse_ascii_u64 v | None => Ok default end.

Lemma select_u64_first c e l default :
  Daemon.select_u64 c e l default = (let? v := u64_or default (Daemon.select_raw c e l) in Ok (v, source_of c e l)).
Proof. by destruct c, e, l. Qed.
Lemma client_select_u64_first c e l default : Client.select_u64 c e l default = u64_or default (Daemon.select_raw c e l).
Proof. by destruct c, e, l. Qed.

Lemma in_range_ok lo hi v w : Daemon.in_range lo hi v = Ok w -> w = v /\ lo <= v <= hi.
Proof.
  unfold Daemon.in_range. intros Hr. inv_result. apply negb_false_iff, andb_true_iff in Hg as [H1%Z.leb_le H2%Z.leb_le]. done.
Qed.
Lemma within_ok lo hi v : StoreSettings.within lo hi v = true <-> lo <= v <= hi.
Proof. unfold StoreSettings.within. rewrite andb_true_iff, !Z.leb_le. done. Qed.
Lemma validated_frame_ok v w : Daemon.validated_frame v = Ok w -> w = v /\ Framing.limit_ok v.
Proof.
  unfold Daemon.validated_frame. intros Hv. inv_result. apply try_into_Some in H as [-> _]. by apply Framing.frame_limit_new_ok in Hv.
Qed.
Lemma validated_depth_ok v w : Daemon.validated_depth v = Ok w -> w = v /\ 1 <= v <= 64.
Proof.
  unfold Daemon.validated_depth, Preflight.decode_depth_new. intros Hv. inv_result. apply try_into_Some in H as [-> H].
  bool_hyps. unfold Preflight.MAX_DECODE_DEPTH in *. lia.
Qed.

Lemma parse_ascii_print t : is_u64 t -> Daemon.parse_ascii_u64 (dec_print t) = Ok t.
Proof.
  intros Ht. pose proof (Revision.revision_parse_print t Ht) as Hp. unfold Revision.from_str, Revision.to_string in Hp.
  unfold Daemon.parse_ascii_u64. destruct (_ || _) eqn:Eg in Hp; [done|]. apply ok_or_ok in Hp. bool_hyps.
  unfold to_str. rewrite utf8_valid_is_ascii by done. cbn [ok_or result_bind].
  rewrite bool_decide_false by done. match goal with Hd : forallb _ _ = true |- _ => rewrite Hd end.
  match goal with Hz : _ && _ = false |- _ => unfold Revision.starts_with_zero in Hz; rewrite Hz end. cbn [orb negb]. by rewrite Hp.
Qed.

Section both.
Context `{E : StoreEnv, D : CoreSession.CoreDescriptor} (canonicalize : Path -> result IoErrorKind Path) (temp : Path).

(** What a successful resolution of the daemon went through. *)
Record resolved (cli env lib : Daemon.Layer) (d : Daemon.DaemonConfig) (frame depth timeout : Z) (c : BlobSettings.ResolvedBlobStorageConfig)
    (root : Path) : Prop := {
  r_endpoint : Daemon.select_endpoint canonicalize temp (cli Daemon.Endpoint) (env Daemon.Endpoint) (lib Daemon.Endpoint) = Ok (Daemon.endpoint d);
  r_endpoint_ok : validate_runtime_endpoint_path canonicalize (Daemon.endpoint d) = Ok tt;
  r_frame : u64_or (4 * 1024 * 1024) (Daemon.select_raw (cli Daemon.FrameBytes) (env Daemon.FrameBytes) (lib Daemon.FrameBytes)) = Ok frame;
  r_frame_ok : Daemon.validated_frame frame = Ok frame;
  r_depth : u64_or 64 (Daemon.select_raw (cli Daemon.DecodeDepth) (env Daemon.DecodeDepth) (lib Daemon.DecodeDepth)) = Ok depth;
  r_depth_ok : Daemon.validated_depth depth = Ok depth;
  r_depth_min : CoreSession.TASK_009_MIN_OPERATION_DECODE_DEPTH <= depth;
  r_timeout : u64_or 5000 (Daemon.select_raw (cli Daemon.HandshakeTimeout) (env Daemon.HandshakeTimeout) (lib Daemon.HandshakeTimeout)) = Ok timeout;
  r_limits : CoreSession.handshake_limits_new frame depth (Daemon.millis timeout) = Ok (Daemon.limits d);
  r_operation : CoreSession.operation_limits_new frame depth = Ok (Daemon.operation_limits d);
  r_pending : 1 <= Daemon.max_pending d <= 256; r_sessions : 1 <= Daemon.max_sessions d <= 256;
  r_max_operation : 100 <= Daemon.max_operation_timeout d <= 86400000; r_shutdown : 100 <= Daemon.shutdown_timeout d <= 30000;
  r_008 : exists level verify materialize, Config.task_008_from_selected level verify materialize = Ok (Daemon.task_008 d);
  r_009 : exists metadata, Config.task_009_from_selected metadata = Ok (Daemon.task_009 d);
  r_root : (BlobSettings.library_root c).1 = Some root;
  r_blob : BlobSettings.validate c = Ok (Daemon.blob d);
  r_store : exists selected, StoreSettings.library_root selected = Some root /\
    StoreSettings.validate (StoreSettings.with_migration_reserve selected (BlobSettings.bc_min_free_bytes (Daemon.blob d)).1
      (BlobSettings.bc_min_free_percent (Daemon.blob d)).1) = Ok (Daemon.store d) }.

Lemma daemon_resolved cli env lib d :
  Daemon.resolve_from_layers canonicalize temp cli env lib = Ok d -> exists frame depth timeout c root, resolved cli env lib d frame depth timeout c root.
Proof.
  unfold Daemon.resolve_from_layers. rewrite !select_u64_first. intros Hr.
  apply result_bind_ok in Hr as ([[root src] bsrc] & _ & Hr). inv_result. cbn [fst snd] in *.
  repeat match goal with Hi : Daemon.in_range _ _ _ = Ok _ |- _ => apply in_range_ok in Hi as [-> Hi] end.
  match goal with Hf : Daemon.validated_frame ?v = Ok ?w |- _ => pose proof (proj1 (validated_frame_ok v w Hf)) end.
  match goal with Hf : Daemon.validated_depth ?v = Ok ?w |- _ => pose proof (proj1 (validated_depth_ok v w Hf)) end.
  subst. do 5 eexists. split; cbn [Daemon.endpoint Daemon.limits Daemon.operation_limits Daemon.max_pending Daemon.max_sessions
    Daemon.max_operation_timeout Daemon.shutdown_timeout Daemon.task_008 Daemon.task_009 Daemon.blob Daemon.store]; eauto 8.
  - match goal with u : () |- _ => destruct u end. done.
  - by apply Z.ltb_ge.
  - reflexivity.
  - eexists. split; [|eassumption]. reflexivity.
Qed.

(** *** The values of an accepted configuration *)

Lemma store_validate_ok c s : StoreSettings.validate c = Ok s ->
  StoreSettings.library_root c = Some (StoreSettings.sc_library_root s) /\
  StoreSettings.library_root_try_from (StoreSettings.sc_library_root s) = Ok (StoreSettings.sc_library_root s) /\
  16 <= StoreSettings.sc_write_queue_capacity s <= 4096 /\ 1 <= StoreSettings.sc_read_connection_count s <= 16 /\
  1 <= StoreSettings.sc_busy_timeout s <= 5000 /\
  StoreSettings.sc_min_free_bytes s = StoreSettings.min_free_bytes c /\ StoreSettings.sc_min_free_percent s = StoreSettings.min_free_percent c.
Proof.
  unfold StoreSettings.validate. intros Hv. inv_result. cbn.
  match goal with Hg : _ || _ = false |- _ => rewrite !orb_false_iff, !negb_false_iff, !within_ok in Hg; destruct Hg as ((((Hq & Hr) & Hb) & _) & _) end.
  match goal with Ht : StoreSettings.library_root_try_from ?a = Ok ?b |- _ =>
    assert (b = a) as -> by (revert Ht; unfold StoreSettings.library_root_try_from; intros Ht; by inv_result) end.
  done.
Qed.

Lemma parse_usize_u64 v z : BlobSettings.parse_usize v = Ok z -> BlobSettings.parse_u64 v = Ok z.
Proof. unfold BlobSettings.parse_usize. intros Hv. inv_result. by apply try_into_Some in Hv as [-> _]. Qed.
Lemma absolute_same o limit p : BlobSettings.validate_unicode_absolute o limit = Ok p -> o = Some p /\ blen p <= limit /\ is_absolute p = true.
Proof.
  unfold BlobSettings.validate_unicode_absolute, to_str. intros Hv. inv_result. destruct (utf8_valid _); [|done].
  match goal with Hx : Some _ = Some _ |- _ => injection Hx as <- end. bool_hyps. done.
Qed.

Lemma blob_validate_ok c b : BlobSettings.validate c = Ok b ->
  exists library, (BlobSettings.library_root c).1 = Some library /\
    BlobSettings.roots_ok library (BlobSettings.request_path (BlobSettings.bc_request b)) = true /\
    1 <= (BlobSettings.bc_storage_io_concurrency b).1 <= 8 /\ 1 <= (BlobSettings.bc_hash_concurrency b).1 <= 8 /\
    1 <= (BlobSettings.bc_max_concurrent_ingests b).1 <= 8 /\
    BlobSettings.MIB <= (BlobSettings.bc_stream_buffer_bytes b).1 <= 32 * BlobSettings.MIB /\
    1 <= (BlobSettings.bc_max_ingest_bytes b).1 <= (BlobSettings.bc_max_staging_bytes b).1 /\
    (BlobSettings.bc_max_ingest_bytes b).1 <= BlobSettings.TIB /\ (BlobSettings.bc_max_staging_bytes b).1 <= 2 * BlobSettings.TIB /\
    10 * BlobSettings.GIB <= (BlobSettings.bc_min_free_bytes b).1 /\ 5 <= (BlobSettings.bc_min_free_percent b).1 <= 100.
Proof.
  unfold BlobSettings.validate. intros Hv. inv_result. cbn.
  repeat match goal with Ha : BlobSettings.validate_unicode_absolute _ _ = Ok _ |- _ => apply absolute_same in Ha as (? & ? & ?) end.
  match goal with Hr : BlobSettings.blob_root_request _ = Ok _ |- _ => unfold BlobSettings.blob_root_request in Hr; inv_result end.
  match goal with Hx : _ || negb (StoreSettings.within 5 100 _) = false |- _ =>
    rewrite !orb_false_iff, !negb_false_iff, !within_ok, !Z.ltb_ge in Hx; destruct Hx as ((((((((? & ?) & ?) & ?) & ?) & ?) & ?) & ?) & ?) end.
  eexists. split; [eassumption|]. split; [by apply negb_false_iff|]. split_and!; lia.
Qed.
End both.

(** *** The two roots *)

Lemma split_on_join sep p l : split_on sep (p ++ sep :: l) = split_on sep p ++ split_on sep l.
Proof.
  induction p as [|b p IH]; cbn; [by rewrite bool_decide_true|]. case_bool_decide; [by rewrite IH|].
  rewrite IH. destruct (split_on sep p) as [|x xs] eqn:Ex; [by destruct (split_on_nonempty sep p)|done].
Qed.
Lemma join_components p name : is_absolute p = true -> Config.contains x2f name = false -> piece name = [Normal name] ->
  components (join p name) = components p ++ [Normal name].
Proof.
  intros Ha Hs Hp. apply bool_decide_eq_false in Hs.
  assert (forall q, split_on x2f (q ++ x2f :: name) = split_on x2f q ++ [name]) as Hj.
  { intros q. by rewrite split_on_join, (split_on_whole x2f name). }
  assert (forall q, is_absolute (q ++ x2f :: name) = true -> components (q ++ x2f :: name) = RootDir :: flat_map piece (split_on x2f q) ++ [Normal name]) as Hc.
  { intros q Hq. unfold components. rewrite Hq, Hj, flat_map_app. cbn. by rewrite Hp. }
  assert (forall q l, is_absolute q = true -> is_absolute (q ++ l) = true) as Happ.
  { unfold is_absolute. intros [|b q] l Hq; [by vm_compute in Hq|done]. }
  unfold join. destruct (last p) as [b|] eqn:El; [|by apply last_None in El as ->].
  case_bool_decide as Eb.
  - subst b. apply last_Some in El as (q & ->). rewrite <- app_assoc. cbn [app].
    rewrite Hc by (by pose proof (Happ _ name Ha) as Hx; rewrite <- app_assoc in Hx). unfold components at 1. rewrite Ha.
    replace (split_on x2f (q ++ [x2f])) with (split_on x2f q ++ [[]]) by (by rewrite split_on_join). rewrite flat_map_app. cbn. by rewrite app_nil_r.
  - rewrite Hc by (by apply Happ). unfold components at 1. by rewrite Ha.
Qed.

(** Neither path contains the other. *)
Definition apart (p q : Path) : Prop := ~ components p `prefix_of` components q /\ ~ components q `prefix_of` components p.
Lemma starts_with_prefix p q : path_starts_with p q = false -> ~ components q `prefix_of` components p.
Proof. unfold path_starts_with. intros Hs%bool_decide_eq_false (k & Hk). apply Hs. by rewrite Hk, take_app_length. Qed.
Lemma roots_apart library blob : is_absolute library = true -> BlobSettings.roots_ok library blob = true ->
  components blob = components library ++ [Normal (bs "storage")] \/ apart library blob.
Proof.
  intros Ha. unfold BlobSettings.roots_ok. destruct (path_eq blob _) eqn:Ep.
  - intros _. left. apply bool_decide_eq_true in Ep. rewrite Ep. by apply join_components.
  - intros Hn%negb_true_iff. right. unfold BlobSettings.paths_overlap in Hn. apply orb_false_iff in Hn as [[_ H1]%orb_false_iff H2].
    split; by apply starts_with_prefix.
Qed.
Lemma root_absolute p : StoreSettings.library_root_try_from p = Ok p -> is_absolute p = true.
Proof. unfold StoreSettings.library_root_try_from. intros Hv. inv_result. bool_hyps. done. Qed.

Lemma limits_ok `{CoreSession.CoreDescriptor} frame depth timeout l : CoreSession.handshake_limits_new frame depth timeout = Ok l ->
  CoreSession.hl_frame_limit l = frame /\ CoreSession.hl_decode_depth l = depth /\
  CoreSession.MIN_HANDSHAKE_TIMEOUT <= CoreSession.hl_timeout l <= CoreSession.MAX_HANDSHAKE_TIMEOUT.
Proof. unfold CoreSession.handshake_limits_new. intros Hl. inv_result. bool_hyps. done. Qed.
Lemma operation_limits_ok frame depth l : CoreSession.operation_limits_new frame depth = Ok l -> CoreSession.ol_frame_limit l = frame.
Proof. unfold CoreSession.operation_limits_new. intros Hl. inv_result. done. Qed.
Lemma endpoint_short canonicalize e u : validate_runtime_endpoint_path canonicalize e = Ok u -> blen e < SUN_PATH_BYTES_WITH_NUL.
Proof.
  unfold validate_runtime_endpoint_path. intros (v & Hv & _)%result_bind_ok. unfold validate_endpoint_path in Hv. inv_result. bool_hyps. lia.
Qed.
Lemma task_009_bounds m c : Config.task_009_from_selected m = Ok c -> 100 <= Config.max_metadata_operation_timeout c <= 5000.
Proof.
  unfold Config.task_009_from_selected. intros Hc. inv_result. cbn.
  match goal with Hp : Config.parse_metadata_operation_ceiling _ = Ok _ |- _ => by apply Config.parse_ceiling_ok in Hp as [? _] end.
Qed.

(** *** The theorems *)

(** Whatever the command line, the environment and the library configuration say, a
    configuration the daemon accepts is within its bounds: the frame limit, the decode
    depth, every timeout, the sessions, the queue and the connections, the concurrency and
    the byte limits of the storage, a staging area no smaller than the largest ingest; the
    reserve of the store is that of the storage; the endpoint fits a socket address; and
    the blob root is [storage] under the library root, or neither contains the other. *)
Theorem daemon_config_is_bounded (E : StoreEnv) (D : CoreSession.CoreDescriptor) canonicalize temp cli env lib d :
  Daemon.resolve_from_layers canonicalize temp cli env lib = Ok d ->
  let limits := Daemon.limits d in let store := Daemon.store d in let blob := Daemon.blob d in
  Framing.limit_ok (CoreSession.hl_frame_limit limits) /\
  CoreSession.TASK_009_MIN_OPERATION_DECODE_DEPTH <= CoreSession.hl_decode_depth limits <= 64 /\
  CoreSession.ol_frame_limit (Daemon.operation_limits d) = CoreSession.hl_frame_limit limits /\
  CoreSession.MIN_HANDSHAKE_TIMEOUT <= CoreSession.hl_timeout limits <= CoreSession.MAX_HANDSHAKE_TIMEOUT /\
  1 <= Daemon.max_pending d <= 256 /\ 1 <= Daemon.max_sessions d <= 256 /\
  100 <= Daemon.max_operation_timeout d <= 86400000 /\ 100 <= Daemon.shutdown_timeout d <= 30000 /\
  100 <= Config.max_verify_operation_timeout (Daemon.task_008 d) <= 86400000 /\
  100 <= Config.max_materialize_operation_timeout (Daemon.task_008 d) <= 86400000 /\
  100 <= Config.max_metadata_operation_timeout (Daemon.task_009 d) <= 5000 /\
  16 <= StoreSettings.sc_write_queue_capacity store <= 4096 /\ 1 <= StoreSettings.sc_read_connection_count store <= 16 /\
  1 <= StoreSettings.sc_busy_timeout store <= 5000 /\
  StoreSettings.sc_min_free_bytes store = (BlobSettings.bc_min_free_bytes blob).1 /\
  StoreSettings.sc_min_free_percent store = (BlobSettings.bc_min_free_percent blob).1 /\
  10 * BlobSettings.GIB <= StoreSettings.sc_min_free_bytes store /\ 5 <= StoreSettings.sc_min_free_percent store <= 100 /\
  1 <= (BlobSettings.bc_max_concurrent_ingests blob).1 <= 8 /\
  1 <= (BlobSettings.bc_max_ingest_bytes blob).1 <= (BlobSettings.bc_max_staging_bytes blob).1 /\
  blen (Daemon.endpoint d) < SUN_PATH_BYTES_WITH_NUL /\
  let library := StoreSettings.sc_library_root store in let root := BlobSettings.request_path (BlobSettings.bc_request blob) in
  components root = components library ++ [Normal (bs "storage")] \/ apart library root.
Proof.
  intros (frame & depth & timeout & c & root & [_ Rep _ Rf _ Rd Rdm _ Rl Rop Rpe Rse Rmo Rsh R8 R9 Rr Rb Rst])%daemon_resolved. cbv zeta.
  destruct Rst as (selected & Hroot & (Hr & Ht & Hq & Hc & Hb & Hm & Hp)%store_validate_ok).
  apply blob_validate_ok in Rb as (library & Hl & Hok & Hblob). apply limits_ok in Rl as (Hlf & Hld & Hlt).
  apply validated_frame_ok in Rf as [_ Hfr]. apply validated_depth_ok in Rd as [_ Hde].
  destruct R8 as (l8 & v8 & m8 & [Hv8 Hm8]%Config.task_008_bounds), R9 as (m9 & Hm9%task_009_bounds).
  apply operation_limits_ok in Rop. apply endpoint_short in Rep.
  assert (library = StoreSettings.sc_library_root (Daemon.store d)) as ->.
  { rewrite Rr in Hl. cbn in Hr. rewrite Hroot in Hr. congruence. }
  cbn in Hm, Hp. rewrite Hlf, Hld, Rop, Hm, Hp. unfold Config.DEFAULT_OPERATION_CEILING_MS in *.
  split_and!; try (apply Hblob); try done; try lia. apply roots_apart; [by apply root_absolute|done].
Qed.

(** The settings the two programs share. *)
Definition agree (daemon : Daemon.Layer) (client : Client.Layer) : Prop :=
  daemon Daemon.Endpoint = client Client.CEndpoint /\ daemon Daemon.FrameBytes = client Client.CFrameBytes /\
  daemon Daemon.DecodeDepth = client Client.CDecodeDepth /\ daemon Daemon.HandshakeTimeout = client Client.CHandshakeTimeout.
(** The operation timeout, which only the client has: the first of the option, the
    environment and the file that gives one, an hour when none does. *)
Definition chosen_timeout (op env lib : option (list byte)) : result ErrorCode Z :=
  let? t := u64_or 3600000 (Daemon.select_raw op env lib) in Daemon.in_range 100 86400000 t.
(** What the selected configuration file says of a key. *)
Definition file_value (var_os : list byte -> option (list byte)) (read : Path -> RootFs.ares (list byte)) (file : option (list byte))
    (key : Config.LibraryConfigKey) : option (list byte) :=
  match Daemon.selector var_os file with
  | Some path =>
      match read path with
      | Ok bytes => match Config.document_parse bytes with Ok document => Config.document_value document key | Err _ => None end
      | Err _ => None
      end
  | None => None
  end.
Definition with_timeout (d : Daemon.DaemonConfig) (t : Z) : Client.ClientConfig := {|
  Client.endpoint := Daemon.endpoint d; Client.limits := Daemon.limits d; Client.operation_limits := Daemon.operation_limits d;
  Client.operation_timeout := t |}.

Lemma layers_agree (E : StoreEnv) (D : CoreSession.CoreDescriptor) canonicalize temp dcli denv dlib ccli cenv clib op d :
  agree dcli ccli -> agree denv cenv -> agree dlib clib ->
  Daemon.resolve_from_layers canonicalize temp dcli denv dlib = Ok d ->
  Client.resolve_from_layers canonicalize temp ccli cenv clib op =
  let? t := chosen_timeout op (cenv Client.COperationTimeout) (clib Client.COperationTimeout) in Ok (with_timeout d t).
Proof.
  intros (A1 & A2 & A3 & A4) (B1 & B2 & B3 & B4) (C1 & C2 & C3 & C4).
  intros (frame & depth & timeout & c & root & [Re Rep Rfr Rf Rde Rd _ Rti Rl Rop _ _ _ _ _ _ _ _ _])%daemon_resolved.
  unfold Client.resolve_from_layers. rewrite !client_select_u64_first, <- A1, <- A2, <- A3, <- A4, <- B1, <- B2, <- B3, <- B4, <- C1, <- C2, <- C3, <- C4.
  rewrite Re. cbn [result_bind]. rewrite Rep. cbn [result_bind map_err]. rewrite Rfr. cbn [result_bind]. rewrite Rf. cbn [result_bind].
  rewrite Rde. cbn [result_bind]. rewrite Rd. cbn [result_bind]. rewrite Rti. cbn [result_bind]. rewrite Rl. cbn [result_bind]. rewrite Rop.
  cbn [result_bind]. unfold chosen_timeout. destruct (u64_or 3600000 _) as [t|e]; [|done]. cbn [result_bind]. by destruct (Daemon.in_range _ _ t).
Qed.
Lemma explicit_timeout t env lib : 100 <= t <= 86400000 -> chosen_timeout (Some (dec_print t)) env lib = Ok t.
Proof.
  intros Ht. unfold chosen_timeout. cbn [Daemon.select_raw u64_or]. rewrite parse_ascii_print by (unfold is_u64, U64_MAX; lia). cbn [result_bind].
  unfold Daemon.in_range. by rewrite (proj2 (Z.leb_le 100 t)), (proj2 (Z.leb_le t 86400000)) by lia.
Qed.

(** C33: A client and a daemon that are given the same configuration file and environment
    and no conflicting options agree on what they share: whenever the daemon's
    configuration is accepted, the client's stands or falls with its own operation
    timeout, the first of its option, the environment and the file that gives one (an
    hour by default), which must be a decimal from 100 to 86400000; if it is, and so with
    any such timeout on the command line, the client has the endpoint, the handshake
    limits and the operation limits of the daemon, and otherwise it reports the error of
    that timeout. *)
Theorem client_and_daemon_agree (E : StoreEnv) (D : CoreSession.CoreDescriptor) canonicalize temp var_os read file
    (dcli : Daemon.Layer) (ccli : Client.Layer) d :
  agree dcli ccli ->
  Daemon.resolve canonicalize temp var_os read {| Daemon.library_config := file; Daemon.settings := dcli |} = Ok d ->
  let client op := Client.resolve_with_operation canonicalize temp var_os read {| Client.library_config := file; Client.settings := ccli |} op in
  (forall op, client op = let? t := chosen_timeout op (var_os (bs "MENGXIA_CLIENT_OPERATION_TIMEOUT_MS"))
                                    (file_value var_os read file Config.ClientOperationTimeoutMs) in Ok (with_timeout d t)) /\
  (forall t, 100 <= t <= 86400000 -> client (Some (dec_print t)) = Ok (with_timeout d t)).
Proof.
  intros Ha Hd client.
  assert (forall op, client op = let? t := chosen_timeout op (var_os (bs "MENGXIA_CLIENT_OPERATION_TIMEOUT_MS"))
    (file_value var_os read file Config.ClientOperationTimeoutMs) in Ok (with_timeout d t)) as Hc; cycle 1.
  { split; [done|]. intros t Ht. by rewrite Hc, explicit_timeout. }
  intros op. revert Hd. unfold client, Daemon.resolve, Client.resolve_with_operation, file_value.
  cbn [Daemon.library_config Client.library_config Daemon.settings Client.settings].
  assert (agree (Daemon.capture var_os) (Client.capture var_os)) as He by done.
  destruct (Daemon.selector var_os file) as [path|]; [|by apply (layers_agree E D canonicalize temp dcli (Daemon.capture var_os))].
  intros (layer & (bytes & Hb & (document & Hd & [= <-])%result_bind_ok)%result_bind_ok & Hr)%result_bind_ok.
  apply map_err_ok in Hb, Hd. rewrite Hb. cbn [map_err result_bind]. rewrite Hd. cbn [result_bind]. revert Hr.
  by apply (layers_agree E D canonicalize temp dcli (Daemon.capture var_os)).
Qed.

(** *** Precedence *)

(** A configuration without the record of where its values came from. *)
Definition forget_store (c : StoreSettings.StoreConfig) : StoreSettings.StoreConfig := {|
  StoreSettings.sc_library_root := StoreSettings.sc_library_root c; StoreSettings.sc_library_root_source := StoreSettings.CompiledDefault;
  StoreSettings.sc_write_queue_capacity := StoreSettings.sc_write_queue_capacity c; StoreSettings.sc_write_queue_source := StoreSettings.CompiledDefault;
  StoreSettings.sc_read_connection_count := StoreSettings.sc_read_connection_count c; StoreSettings.sc_read_connection_source := StoreSettings.CompiledDefault;
  StoreSettings.sc_busy_timeout := StoreSettings.sc_busy_timeout c; StoreSettings.sc_busy_timeout_source := StoreSettings.CompiledDefault;
  StoreSettings.sc_min_free_bytes := StoreSettings.sc_min_free_bytes c; StoreSettings.sc_min_free_percent := StoreSettings.sc_min_free_percent c |}.
Definition unsourced (v : Z * BlobSettings.BlobConfigSource) : Z * BlobSettings.BlobConfigSource := (v.1, BlobSettings.BlobCompiledDefault).
Definition forget_blob (b : BlobSettings.BlobStorageConfig) : BlobSettings.BlobStorageConfig := {|
  BlobSettings.bc_request := BlobSettings.bc_request b; BlobSettings.bc_library_root_source := BlobSettings.BlobCompiledDefault;
  BlobSettings.bc_blob_root_source := BlobSettings.BlobCompiledDefault;
  BlobSettings.bc_storage_io_concurrency := unsourced (BlobSettings.bc_storage_io_concurrency b);
  BlobSettings.bc_hash_concurrency := unsourced (BlobSettings.bc_hash_concurrency b);
  BlobSettings.bc_max_concurrent_ingests := unsourced (BlobSettings.bc_max_concurrent_ingests b);
  BlobSettings.bc_stream_buffer_bytes := unsourced (BlobSettings.bc_stream_buffer_bytes b);
  BlobSettings.bc_max_ingest_bytes := unsourced (BlobSettings.bc_max_ingest_bytes b);
  BlobSettings.bc_max_staging_bytes := unsourced (BlobSettings.bc_max_staging_bytes b);
  BlobSettings.bc_min_free_bytes := unsourced (BlobSettings.bc_min_free_bytes b);
  BlobSettings.bc_min_free_percent := unsourced (BlobSettings.bc_min_free_percent b) |}.
Definition forget (d : Daemon.DaemonConfig) : Daemon.DaemonConfig := {|
  Daemon.store := forget_store (Daemon.store d); Daemon.blob := forget_blob (Daemon.blob d); Daemon.endpoint := Daemon.endpoint d;
  Daemon.limits := Daemon.limits d; Daemon.max_pending := Daemon.max_pending d; Daemon.max_sessions := Daemon.max_sessions d;
  Daemon.operation_limits := Daemon.operation_limits d; Daemon.max_operation_timeout := Daemon.max_operation_timeout d;
  Daemon.task_008 := Daemon.task_008 d; Daemon.task_009 := Daemon.task_009 d; Daemon.shutdown_timeout := Daemon.shutdown_timeout d |}.

Definition map_ok {E A B} (f : A -> B) (r : result E A) : result E B := match r with Ok a => Ok (f a) | Err e => Err e end.

(** Two results that agree but for what [f] forgets. *)
Lemma lockstep {E A B C} (f : B -> C) (r : result E A) (k k' : A -> result E B) :
  (forall a, map_ok f (k a) = map_ok f (k' a)) -> map_ok f (result_bind r k) = map_ok f (result_bind r k').
Proof. intros Hk. destruct r; cbn; [apply Hk|done]. Qed.
Lemma lockstep_forget {E F A B C D} (g : A -> D) (f : B -> C) (h : E -> F) (r r' : result E A) (k k' : A -> result F B) :
  map_ok g r = map_ok g r' -> (forall a a', g a = g a' -> map_ok f (k a) = map_ok f (k' a')) ->
  map_ok f (result_bind (map_err h r) k) = map_ok f (result_bind (map_err h r') k').
Proof. intros Hr Hk. destruct r as [a|e], r' as [a'|e']; cbn in *; try done; [injection Hr as Hr; by apply Hk|by injection Hr as ->]. Qed.
Lemma bind_pair {E A B C} (r : result E A) (x : B) (k : A * B -> result E C) :
  result_bind (result_bind r (fun v => Ok (v, x))) k = result_bind r (fun v => k (v, x)).
Proof. by destruct r. Qed.

Definition blob_source_of (c e l : option (list byte)) : BlobSettings.BlobConfigSource :=
  match c, e, l with
  | Some _, _, _ => BlobSettings.BlobCli | None, Some _, _ => BlobSettings.BlobEnvironment
  | None, None, Some _ => BlobSettings.BlobLibrary | None, None, None => BlobSettings.BlobCompiledDefault
  end.
Definition text_or (default : Z) (o : option (list byte)) : result ErrorCode (list byte) :=
  match o with Some v => ok_or ValidationError (to_str v) | None => Ok (dec_print default) end.
Lemma select_blob_first c e l default :
  Daemon.select_blob_value c e l default = (let? v := text_or default (Daemon.select_raw c e l) in Ok (v, blob_source_of c e l)).
Proof. by destruct c, e, l. Qed.
Lemma blob_root_first c e l root :
  Daemon.selected_blob_root c e l root = (default (join root (bs "storage")) (Daemon.select_raw c e l), blob_source_of c e l).
Proof. by destruct c, e, l. Qed.
Lemma required_first c e l :
  Daemon.selected_required c e l =
  (let? v := (let? v := ok_or ValidationError (Daemon.select_raw c e l) in Ok (v, source_of c e l)) in Ok (v, blob_source_of c e l)).
Proof. by destruct c, e, l. Qed.
Lemma endpoint_first canonicalize temp c e l :
  Daemon.select_endpoint canonicalize temp c e l = Daemon.select_endpoint canonicalize temp (Daemon.select_raw c e l) None None.
Proof. by destruct c, e, l. Qed.

Definition same_texts (c c' : BlobSettings.ResolvedBlobStorageConfig) : Prop :=
  (BlobSettings.library_root c).1 = (BlobSettings.library_root c').1 /\ (BlobSettings.blob_root c).1 = (BlobSettings.blob_root c').1 /\
  (BlobSettings.storage_io_concurrency c).1 = (BlobSettings.storage_io_concurrency c').1 /\
  (BlobSettings.hash_concurrency c).1 = (BlobSettings.hash_concurrency c').1 /\
  (BlobSettings.max_concurrent_ingests c).1 = (BlobSettings.max_concurrent_ingests c').1 /\
  (BlobSettings.stream_buffer_bytes c).1 = (BlobSettings.stream_buffer_bytes c').1 /\
  (BlobSettings.max_ingest_bytes c).1 = (BlobSettings.max_ingest_bytes c').1 /\
  (BlobSettings.max_staging_bytes c).1 = (BlobSettings.max_staging_bytes c').1 /\
  (BlobSettings.min_free_bytes c).1 = (BlobSettings.min_free_bytes c').1 /\
  (BlobSettings.min_free_percent c).1 = (BlobSettings.min_free_percent c').1.
Lemma blob_validate_texts `{StoreEnv} c c' : same_texts c c' ->
  map_ok forget_blob (BlobSettings.validate c) = map_ok forget_blob (BlobSettings.validate c').
Proof.
  intros (E1 & E2 & E3 & E4 & E5 & E6 & E7 & E8 & E9 & E10). unfold BlobSettings.validate. rewrite E1, E2, E3, E4, E5, E6, E7, E8, E9, E10.
  repeat (apply lockstep; intros ?). destruct (negb _); [done|]. destruct (_ || _); [done|]. apply lockstep. done.
Qed.
Lemma store_validate_values c c' :
  StoreSettings.library_root c = StoreSettings.library_root c' -> StoreSettings.write_queue_capacity c = StoreSettings.write_queue_capacity c' ->
  StoreSettings.read_connection_count c = StoreSettings.read_connection_count c' -> StoreSettings.busy_timeout_ms c = StoreSettings.busy_timeout_ms c' ->
  StoreSettings.min_free_bytes c = StoreSettings.min_free_bytes c' -> StoreSettings.min_free_percent c = StoreSettings.min_free_percent c' ->
  map_ok forget_store (StoreSettings.validate c) = map_ok forget_store (StoreSettings.validate c').
Proof.
  intros E1 E2 E3 E4 E5 E6. unfold StoreSettings.validate. rewrite E1, E2, E3, E4, E5, E6. do 2 (apply lockstep; intros ?).
  by destruct (_ || _).
Qed.

(** C32: A setting is taken from the command line, else from the environment, else from the
    library configuration, else it is the default: two layerings that select the same
    texts are resolved to the same configuration or refused with the same error, whatever
    the layers below a selected text say.  So no value falls through to a lower layer
    because it is invalid, and no unselected value has an effect. *)
Theorem daemon_settings_follow_precedence (E : StoreEnv) (D : CoreSession.CoreDescriptor) canonicalize temp cli env lib cli' env' lib' :
  (forall s, Daemon.select_raw (cli s) (env s) (lib s) = Daemon.select_raw (cli' s) (env' s) (lib' s)) ->
  map_ok forget (Daemon.resolve_from_layers canonicalize temp cli env lib) =
  map_ok forget (Daemon.resolve_from_layers canonicalize temp cli' env' lib').
Proof.
  intros Hs. unfold Daemon.resolve_from_layers. cbv zeta.
  rewrite !select_u64_first, !select_blob_first, !required_first, !(endpoint_first _ _ (cli _)), !(endpoint_first _ _ (cli' _)), !Hs.
  rewrite !bind_pair. apply lockstep. intros root. rewrite !blob_root_first, !Hs. cbn [fst snd].
  repeat first [ apply lockstep; intros ? | rewrite !bind_pair; cbn [fst snd] | destruct (_ <? _); [done|] ].
  apply (lockstep_forget forget_blob); [by apply blob_validate_texts|]. intros b b' Hb.
  assert ((BlobSettings.bc_min_free_bytes b).1 = (BlobSettings.bc_min_free_bytes b').1 /\
          (BlobSettings.bc_min_free_percent b).1 = (BlobSettings.bc_min_free_percent b').1) as [Hf Hp].
  { split; [exact (f_equal (fun x => (BlobSettings.bc_min_free_bytes x).1) Hb)|exact (f_equal (fun x => (BlobSettings.bc_min_free_percent x).1) Hb)]. }
  apply (lockstep_forget forget_store); [by apply store_validate_values|]. intros c c' Hc. cbn. unfold forget. cbn. by rewrite Hb, Hc.
Qed.

(** *** The command line of the daemon *)

Definition option_text (slot : Daemon.Slot) : list byte :=
  match List.find (fun arm => bool_decide (arm.2 = slot)) Daemon.serve_options with Some arm => arm.1 | None => [] end.
Definition fill_pair (cli : Daemon.ServeCli) (p : Daemon.Slot * list byte) : Daemon.ServeCli := Daemon.fill cli p.1 p.2.
Definition words (pairs : list (Daemon.Slot * list byte)) : list (list byte) := flat_map (fun p => [option_text p.1; p.2]) pairs.

Lemma option_text_slot slot : match_str (option_text slot) Daemon.serve_options = Some slot /\ to_str (option_text slot) = Some (option_text slot).
Proof. destruct slot as [|[]]; by vm_compute. Qed.
Lemma slot_option_text v slot : match_str v Daemon.serve_options = Some slot -> v = option_text slot.
Proof.
  intros Hs%match_str_elem%list_elem_of_In.
  assert (forallb (fun arm => bool_decide (arm.1 = option_text arm.2)) Daemon.serve_options = true) as Ha by (by vm_compute).
  rewrite forallb_forall in Ha. specialize (Ha _ Hs). by apply bool_decide_eq_true in Ha.
Qed.
Lemma fill_same cli slot v : Daemon.slot_value (Daemon.fill cli slot v) slot = Some v.
Proof. destruct slot as [|s]; cbn; [done|]. by rewrite bool_decide_true. Qed.
Lemma fill_other cli slot slot' v : slot <> slot' -> Daemon.slot_value (Daemon.fill cli slot v) slot' = Daemon.slot_value cli slot'.
Proof. destruct slot as [|s], slot' as [|s']; cbn; try done. intros Hn. rewrite bool_decide_false; [done|congruence]. Qed.

(** The options of a command line are accepted exactly when they are known, complete and
    distinct, in any order. *)
Lemma parse_options_ok cli args cli' :
  Daemon.parse_options cli args = Ok cli' <->
  exists pairs, args = words pairs /\ NoDup (map fst pairs) /\ Forall (fun p => Daemon.slot_value cli p.1 = None) pairs /\
    cli' = foldl fill_pair cli pairs.
Proof.
  split.
  - remember (length args) as n eqn:Hn. assert (length args <= n)%nat as Hl by lia. clear Hn. revert cli args Hl.
    induction n as [|n IH]; intros cli [|o args] Hl; cbn in Hl; try lia; cbn [Daemon.parse_options]; try (intros [= <-]; exists []; split_and!; try done; constructor).
    intros Hp. inv_result. destruct args as [|v args]; [done|]. inv_result.
    match goal with Ho : to_str _ = Some _ |- _ => unfold to_str in Ho; destruct (utf8_valid o); [|done]; injection Ho as <- end.
    match goal with Ho : match_str _ _ = Some ?slot |- _ => apply slot_option_text in Ho as ->; rename slot into sl end.
    apply IH in Hp as (pairs & -> & Hd & Hf & ->); [|cbn in Hl; lia].
    destruct (Daemon.slot_value cli sl) eqn:Ev; [done|].
    assert (Forall (fun p => p.1 <> sl /\ Daemon.slot_value cli p.1 = None) pairs) as Hf'.
    { eapply Forall_impl; [exact Hf|]. intros [sl' w] Hw. cbn in *. destruct (decide (sl' = sl)) as [->|Hn]; [by rewrite fill_same in Hw|].
      split; [done|]. by rewrite fill_other in Hw. }
    exists ((sl, v) :: pairs). split_and!; try done.
    + cbn. constructor; [|done]. rewrite list_elem_of_fmap. intros ([sl' w] & -> & Hin). rewrite list.Forall_forall in Hf'. by destruct (Hf' _ Hin).
    + constructor; [done|]. eapply Forall_impl; [exact Hf'|]. by intros p [_ ?].
  - intros (pairs & -> & Hd & Hf & ->). revert cli Hd Hf. induction pairs as [|[sl v] pairs IH]; intros cli Hd Hf; [done|].
    cbn in Hd. inversion Hd as [|? ? Hn Hd']; subst. inversion Hf as [|? ? Hv Hf']; subst. cbn in Hv.
    change (words ((sl, v) :: pairs)) with (option_text sl :: v :: words pairs). cbn [Daemon.parse_options].
    destruct (option_text_slot sl) as [Hm Ht]. rewrite Ht. cbn [ok_or result_bind]. rewrite Hm. cbn [ok_or result_bind]. rewrite Hv. cbn [Log.is_some foldl].
    apply IH; [done|]. apply list.Forall_forall. intros [sl' w] Hin. change (Daemon.slot_value (Daemon.fill cli sl v) sl' = None). rewrite fill_other.
    + rewrite list.Forall_forall in Hf'. exact (Hf' _ Hin).
    + intros <-. apply Hn. apply list_elem_of_fmap. by exists (sl, w).
Qed.

(** ** A concrete configuration: the library root is given, everything else is default *)

Module Example.
#[local] Existing Instance Scenario.env.
#[local] Existing Instance CoreAgreement.Sample.descriptor.
Definition same (p : Path) : result IoErrorKind Path := Ok p.
Definition cli : Daemon.Layer := fun s => match s with Daemon.LibraryRoot => Some (bs "/lib") | _ => None end.
Definition unset (_ : list byte) : option (list byte) := None.
Definition unread (_ : Path) : RootFs.ares (list byte) := Err RootFs.Io.
Definition serve : Daemon.ServeCli := {| Daemon.library_config := None; Daemon.settings := cli |}.
Definition outcome : result ErrorCode Daemon.DaemonConfig := Daemon.resolve same (bs "/tmp") unset unread serve.
Definition accepted : bool := match outcome with Ok _ => true | Err _ => false end.
Example is_accepted : accepted = true.
Proof. by vm_compute. Qed.
(** A write queue below its range is refused as an invalid request. *)
Definition small_queue : Daemon.Layer := fun s => match s with Daemon.WriteQueue => Some (bs "15") | _ => cli s end.
Example unfit_queue_is_validation_error :
  Daemon.resolve same (bs "/tmp") unset unread {| Daemon.library_config := None; Daemon.settings := small_queue |} = Err ValidationError.
Proof. by vm_compute. Qed.
End Example.

Lemma daemon_config_is_bounded_witness :
  exists d, Daemon.resolve_from_layers (H := Scenario.env) (H0 := CoreAgreement.Sample.descriptor) Example.same (bs "/tmp") Example.cli Daemon.no_layer Daemon.no_layer = Ok d /\
    1 <= Daemon.max_sessions d <= 256.
Proof.
  destruct (Daemon.resolve_from_layers (H := Scenario.env) (H0 := CoreAgreement.Sample.descriptor) Example.same (bs "/tmp") Example.cli
    Daemon.no_layer Daemon.no_layer) as [d|] eqn:E; [|vm_compute in E; discriminate E].
  exists d. split; [reflexivity|]. pose proof (daemon_config_is_bounded _ _ _ _ _ _ _ d E) as (_ & _ & _ & _ & _ & Hs & _). exact Hs.
Defined.

(** The environment does not matter where the command line speaks. *)
Definition overridden : Daemon.Layer := fun s => match s with Daemon.LibraryRoot => Some (bs "relative") | _ => None end.
Lemma daemon_settings_follow_precedence_witness :
  Example.accepted = true /\
  map_ok forget (Daemon.resolve_from_layers (H := Scenario.env) (H0 := CoreAgreement.Sample.descriptor) Example.same (bs "/tmp") Example.cli overridden Daemon.no_layer) =
  map_ok forget (Daemon.resolve_from_layers (H := Scenario.env) (H0 := CoreAgreement.Sample.descriptor) Example.same (bs "/tmp") Example.cli Daemon.no_layer Daemon.no_layer).
Proof.
  split; [vm_compute; reflexivity|].
  apply (daemon_settings_follow_precedence Scenario.env CoreAgreement.Sample.descriptor). intros s. destruct s; reflexivity.
Defined.

(** An environment with an operation timeout below its range. *)
Definition hasty (name : list byte) : option (list byte) :=
  if bool_decide (name = bs "MENGXIA_CLIENT_OPERATION_TIMEOUT_MS") then Some (bs "50") else None.
Definition plain_client (var_os : list byte -> option (list byte)) (op : option (list byte)) : result ErrorCode Client.ClientConfig :=
  Client.resolve_with_operation (H0 := CoreAgreement.Sample.descriptor) Example.same (bs "/tmp") var_os Example.unread
    {| Client.library_config := None; Client.settings := Client.no_layer |} op.
Lemma client_and_daemon_agree_witness :
  exists d, Example.outcome = Ok d /\ plain_client Example.unset (Some (dec_print 1000)) = Ok (with_timeout d 1000) /\
    plain_client Example.unset None = Ok (with_timeout d 3600000) /\ plain_client hasty None = Err ValidationError.
Proof.
  destruct Example.outcome as [d|] eqn:E; [|vm_compute in E; discriminate E]. exists d. split; [reflexivity|].
  destruct (client_and_daemon_agree Scenario.env CoreAgreement.Sample.descriptor Example.same (bs "/tmp") Example.unset Example.unread None
    Example.cli Client.no_layer d) as [Hall Hlegal]; [repeat split|exact E|].
  split; [exact (Hlegal 1000 ltac:(lia))|]. split; [exact (Hall None)|].
  destruct (client_and_daemon_agree Scenario.env CoreAgreement.Sample.descriptor Example.same (bs "/tmp") hasty Example.unread None
    Example.cli Client.no_layer d) as [Hhasty _]; [repeat split| |exact (Hhasty None)].
  rewrite <- E. vm_compute. reflexivity.
Defined.
End ConfigFacts.
